(* ===== verification/_CoqProject ===== *)
-Q . S2P
Prelude.v
StdSet.v
StdList.v
Interval.v
IntervalSet.v
IntervalSetFacts.v
PacketNumberQueue.v
PacketNumberQueueFacts.v
PacketSet.v
QuicTime.v
ReceivedPacketManager.v
QuicBandwidth.v
WindowedFilter.v
PacketNumberIndexedQueue.v
Int128.v
QuicUtils.v
StreamPrecedence.v
PriorityWriteScheduler.v
WriteBlockedList.v
CircularDeque.v
FlatTree.v
LinkedHashMap.v
MruCache.v
SmallMap.v
PriorityQueue.v
DecodeBuffer.v
HpackVarint.v
HpackString.v
QuicData.v
Framer.v
FramerFacts.v
FramerAck.v
FramerPacket.v
SequencerBuffer.v
SequencerBufferFacts.v
SequencerRefine.v
SequencerRegions.v
StreamSequencer.v
StreamDelivery.v
StreamSendBuffer.v
FlowController.v
QuicStream.v
QuicStreamFacts.v
UnackedPacketMap.v
UnackedFacts.v
UnackedChains.v
RttStats.v
LossAlgorithm.v
SentPacketManager.v
SentPacketFacts.v
SentPacketRuns.v
SentPacketCorrect.v
SoftFloat.v
SlowStart.v
CubicWindow.v
CubicFacts.v
TcpCubicSender.v
TcpCubicFacts.v
PacingSender.v
BandwidthSampler.v
BbrSender.v
BbrFacts.v
BbrCorrect.v
CongestionControl.v
HandshakeMessage.v
CryptoFramer.v
PacketProtection.v
PacketFacts.v
PublicPackets.v
PacketCreator.v
PacketCreatorFacts.v
PacketGenerator.v
PacketGeneratorFacts.v
