(* ===== verification/Prelude.v ===== *)
(** * Verification of the QUIC transport core of the ns-3 Mapreduce repository

    The repository runs QUIC inside the ns-3 simulator: [src/examples] and
    [src/utils] hold scenarios and applications, [src/helper] connects them to the
    simulator, and [src/model] holds the protocol itself, Chromium's network stack
    with its support library.  This development models the data structures and
    algorithms of that stack which decide what a QUIC endpoint does with packets,
    acknowledgements, streams and headers, mostly header-only templates, and
    proves them correct.

    ** Components and files

    Files are listed in dependency order.  Every definition keeps the name of the
    code it models, with a prefix where two classes use the same name.

    - [Prelude]: machine integers ([wrapU], [wrapS], [u64], ...), tactics, list and
      bit lemmas shared by all files.
    - [StdSet], [StdList]: what the code relies on of [std::set] (sorted lists under
      a strict order, iterators as elements) and of [std::list] (nodes with an
      identity, so that iterators survive changes elsewhere).
    - [Interval], [IntervalSet], [IntervalSetFacts]: net/base/interval.h and
      interval_set.h.  A set is its sequence of intervals; [Compact], the
      intersecting-pair search and the loops of union, intersection and difference
      are translated with their iterators.
    - [PacketNumberQueue], [PacketNumberQueueFacts]: the set of packet numbers of an
      ack frame (quic/core/frames/quic_ack_frame.cc), with both representations
      behind the flag, a deque of intervals and an [IntervalSet].
    - [PacketSet]: the interface ([PacketSet], [PacketSetLaws]) that the packet
      manager uses, with the queue as its instance.
    - [QuicTime], [QuicBandwidth]: quic/core/quic_time.h, .cc and quic_bandwidth.h.
    - [ReceivedPacketManager]: quic/core/quic_received_packet_manager.cc over any
      packet set; its handlers are a step relation.
    - [WindowedFilter]: congestion_control/windowed_filter.h over an order and a
      time type (type classes [FilterOrder], [FilterTime]).
    - [PacketNumberIndexedQueue]: quic/core/packet_number_indexed_queue.h.
    - [Int128], [QuicUtils]: net/base/int128.h and the FNV-1a hashes of
      quic/core/quic_utils.cc.
    - [StreamPrecedence], [PriorityWriteScheduler], [WriteBlockedList]: the priority
      scales of spdy/core/spdy_protocol (in single precision),
      spdy/core/priority_write_scheduler.h and its client
      quic/core/quic_write_blocked_list.h.
    - [CircularDeque]: base/containers/circular_deque.h on vector_buffer.h, with raw
      and live slots, so that a missing construction or destruction is visible.
    - [FlatTree]: base/containers/flat_tree.h and flat_map.h's [operator\[\]].
    - [LinkedHashMap], [PriorityQueue]: net/base/linked_hash_map.h and
      priority_queue.h.
    - [MruCache]: base/containers/mru_cache.h, on the invariant of [LinkedHashMap].
    - [SmallMap]: base/containers/small_map.h, with the slots of its inline array
      (base/memory/manual_constructor.h), over any wrapped map ([MapPlacement]).
    - [DecodeBuffer], [HpackVarint], [HpackString]: net/http2/decoder/decode_buffer.h,
      the resumable HPACK integer and string decoders, and their encoders in
      net/spdy/core/hpack.
    - [QuicData]: quic/core/quic_data_writer.cc and quic_data_reader.cc, the cursors
      over byte buffers, for hosts of either byte order ([HostOrder]).
    - [Framer]: quic/core/quic_framer.cc, the wire format: sizes, [Append] functions
      in the writer's monad [Wr], [Process] functions in the reader's monads [Rd]
      and [Fr], the visitor as a class ([QuicFramerVisitor]).  [FramerFacts] has the
      codecs of headers and simple frames, [FramerAck] those of acknowledgements
      (over [PacketNumberQueue] and [QuicAckFrame]), [FramerPacket] whole packets.
    - [SequencerBuffer]: quic/core/quic_stream_sequencer_buffer.cc, the circular
      buffer in which a stream's data is put in order.  [SequencerBufferFacts] has
      its geometry, gap list, arrival times and blocks, [SequencerRefine] its
      specification as a finite map from offsets to bytes with arrival times,
      [SequencerRegions] its region queries.
    - [StreamSequencer]: quic/core/quic_stream_sequencer.cc towards any stream
      ([SequencerErrors], [SequencerStream]); [StreamDelivery] composes it with a
      stream that reads all it can.
    - [StreamSendBuffer]: quic/core/quic_stream_send_buffer.cc and
      QuicUtils::CopyToBuffer, the data producer of [Framer].
    - [FlowController]: quic/core/quic_flow_controller.cc towards any connection
      ([FlowConnection]) and session controller ([QuicFlowControllerInterface]), and
      the protocol that two controllers run over a lossy network ([flow_step]).
    - [QuicStream]: quic/core/quic_stream.cc, joining sequencer, send buffer and flow
      controllers, towards any session ([QuicSession]); [QuicStreamFacts] has the
      session's promises ([QuicSessionLaws]) and what the stream writes.
    - [UnackedPacketMap]: quic/core/quic_unacked_packet_map.cc, the packets sent and
      not yet acknowledged, towards any stream notifier and ack listeners
      ([StreamNotifierInterface]).  [UnackedFacts] has its invariant ([map_ok]) and
      its specification as a table by packet number ([view_of]), [UnackedChains] the
      chains of retransmissions.
    - [RttStats], [LossAlgorithm]: congestion_control/rtt_stats.cc, with products by
      floats and doubles rounded as the formats do ([round_to]), and
      general_loss_algorithm.cc.
    - [SentPacketManager]: quic/core/quic_sent_packet_manager.cc with the sustained
      bandwidth recorder, joining the three above, towards any congestion
      controller, pacing sender, clock and visitors ([SentPacketEnv]).
      [SentPacketFacts] has the invariant and each handler's effect,
      [SentPacketRuns] the sequences of operations a connection performs and the
      congestion controller's promise ([SenderLaws]), [SentPacketCorrect] the
      properties.
    - [SoftFloat]: single precision arithmetic on rationals ([round_rat]), used by the
      congestion controllers, and the product of a bandwidth by a float.
    - [SlowStart]: congestion_control/hybrid_slow_start.cc and prr_sender.cc.
    - [CubicWindow], [CubicFacts]: congestion_control/cubic_bytes.cc and cubic.cc.
    - [TcpCubicSender], [TcpCubicFacts]: tcp_cubic_sender_base.cc against its virtual
      methods ([CwndView], [CubicSenderOps]) and its two subclasses, in bytes and in
      packets.
    - [PacingSender]: pacing_sender.cc over any controller ([SendAlgorithm], the
      interface of send_algorithm_interface.h).
    - [BandwidthSampler]: bandwidth_sampler.cc, with its specification as two curves
      of bytes over time.
    - [BbrSender], [BbrFacts], [BbrCorrect]: bbr_sender.cc over the sampler and the
      windowed filter.
    - [CongestionControl]: the factory of send_algorithm_interface.cc, the controllers
      as instances of the interface, and the environment ([CongestionEnv]) that puts
      them and the pacing sender under the sent packet manager.
    - [HandshakeMessage], [CryptoFramer]: crypto/crypto_handshake_message.cc and
      crypto_framer.cc, the messages of the handshake, their serialized form and the
      parser that may stop anywhere, with a parser of whole messages as its
      specification ([parse_message]).
    - [PacketProtection]: the rest of quic_framer.cc around [Framer]: keys, encryption
      ([QuicEncrypter], [QuicDecrypter]), [ProcessPacket], version negotiation and
      public resets; crypto/null_encrypter.cc, null_decrypter.cc and
      quic_socket_address_coder.cc.  [PacketFacts] has the contract of a cipher
      ([Aead]) and whole packets, [PublicPackets] the unencrypted ones.
    - [PacketCreator], [PacketCreatorFacts]: quic/core/quic_packet_creator.cc, which
      collects frames, pads, serializes and encrypts; [World] is the creator with the
      framer, its keys and the connection ([DelegateInterface]).
    - [PacketGenerator], [PacketGeneratorFacts]: quic/core/quic_packet_generator.cc, which
      asks the connection ([GeneratorDelegate]) and feeds the creator.

    ** What is proved

    - Sets of points: [Add], union, intersection, difference and complement of
      interval sets keep the sets valid and compute the set operations on points;
      the queries answer for the points; the representation is canonical.
    - Acknowledgements: both representations of the packet number queue hold the
      same numbers after the same operations; in every reachable state the packet
      manager's frame lists exactly the packets received and still of interest,
      its handlers never fail, the frame it builds respects the range limit, and
      missing packets are reported as such.
    - Scheduling: the scheduler's lists, table and counter agree after any
      operations; popping serves the highest priority in order; the write-blocked
      list pops crypto, then headers, then data, and batches.
    - Containers: the circular deque refines a list, the indexed queue a finite
      map, the flat tree a finite map (batch insertion equals insertion one by one),
      the linked hash map an insertion-ordered association list, the cache the
      list of its pairs by last use within its limit, the small map a finite map
      across the conversion from array to map, the priority queue the order by
      priority and then FIFO.
    - Arithmetic: 128-bit operations are arithmetic modulo 2^128; the fast hash is
      the slow hash; transfer times are tight; wall times saturate; the filter's
      best estimate is exact within its window.
    - HPACK: integers and strings decode the same however the input is cut into
      buffers, and decode to what was encoded.
    - Wire format: every field, header, frame and packet that fits is written in the
      size the code computes for it and reads back as what was sent; truncated
      packet numbers decode to the full number near the expected one; processing
      arbitrary bytes terminates and reports an error exactly when it fails.
    - Packets: for any cipher that opens what it seals, a packet built and encrypted by
      one endpoint is processed by the other, which gets the header and the frames; no
      bytes that fail to decrypt change the packet numbers or the keys, or reach the
      callbacks for authenticated data; the null cipher accepts exactly what it makes;
      version negotiation packets and public resets arrive as they were sent.
    - Handshake messages: the parser gives, however its input is cut, what reading the
      whole message gives, and messages arrive as they were sent.
    - Streams: the sequencer buffer refines the map of bytes received and not yet
      read, with its error codes; the sequencer's handlers are defined in every
      reachable state; a stream cut into frames that arrive in any order and any
      number of times reaches its reader byte for byte and then ends; what is saved
      for sending can be written again until it is acknowledged; flow control never
      lets a receiver see a violation or overrun its window, and never deadlocks; a
      stream writes the application's bytes once and in order within its windows.
    - Sending: the packet map refines a table of frames, in-flight marks and counts;
      loss detection reports exactly the packets its rules call lost and its alarm
      makes progress; the estimates of the round trip time follow the samples; in
      every reachable state of the sent packet manager data is in flight or queued,
      the alarm is set when it must be and each alarm does something, an
      acknowledgement releases the acknowledged data and nothing else, and the
      delays of the alarms are bounded.
    - Sending: frames that fit are collected and flushed as one packet within the limit,
      which the peer reads as these frames and the padding asked for; the generator cuts
      stream data into packets of one frame each, and its fast path sends exactly the
      packets of the loop it replaces.
    - Congestion control: proportional rate reduction sends no more than its share of
      what is delivered; hybrid slow start ends exactly on a rise of the round trip
      time; the cubic window follows the curve of its paper; the TCP window stays
      within its limits and the losses of one window cut it once; paced sends fit the
      pacing rate and are never held back for longer than one packet takes; the
      bandwidth sampler refines the two curves, so samples never exceed the rate of the
      path, and neither does the estimate of BBR; the modes, gains and windows of BBR
      stay consistent and within bounds, and PROBE_RTT is entered and left by its
      rules; with any of the controllers the factory makes, and pacing, the sent packet
      manager keeps its promises.
    - Where the code departs from its documentation the theorem states what the
      code does ([uint128_shift_assign], [circular_deque_rbegin],
      [QuicWallTime_arithmetic], [PacketNumberQueue_NumPackets],
      [FNV1a_128_pieces], [WriteBlockedList_stale_priority],
      [ack_frame_truncation_errors], [OnStreamData_wraps],
      [EnsureWindowAtLeast_no_growth], [pending_crypto_count_wraps],
      [alarm_unset_after_probe_ack], [cubic_quantization_ignores_curve],
      [slow_start_loss_grows_window], [bbr_rate_recovery_has_no_effect],
      [pending_padding_wraps]).

    ** Conventions

    A call that reads outside a container, dereferences [end()] or fails a [CHECK]
    is [None]; theorems that an operation is defined are part of the statements.
    64-bit values wrap as in C++ where the code can overflow; sizes of containers
    are natural numbers, since they are bounded by memory.  Loops that are not
    structural take fuel: the size of the container they shrink
    ([Compact_loop], [erase_range_loop], [trim_ranges]), or a constant that the
    code's own counter bounds ([Resume_loop] and [AppendUint32_loop] at five
    groups of seven bits, [sd_Resume_loop] at two rounds), or the number of entries
    of the packet map for walks along retransmissions, which only go up, or of the
    sampler's queue ([RemoveObsolete_loop]), or the bytes left to read
    ([ProcessFrameData_loop], [read_versions]), or the acknowledged packets that
    [cp_estimate_loop] uses up, or the bytes of stream data left ([consume_loop],
    [ConsumeDataFastPath]); the theorems show the result, so the fuel is enough.  Debug-only checks are modelled where noted
    ([HpackVarint]); elsewhere the release build is.

    ** Not modelled

    The connection, session and key exchange of quic/core (the connection is the delegate of
    [PacketCreator] and [PacketGenerator] and does not call them back), the HTTP, cookie, cache,
    DNS, proxy, socket and TLS parts, threads, files and metrics of base, third-party libraries, and the ns-3
    glue.  Printing, debug states and memory accounting are left out of the modelled
    classes.  Code outside the repository is a parameter: the cube root of the C
    library ([cbrt_ok]), the ciphers ([Aead]), the random sources, the flags of the command line, the
    clock. *)

From Stdlib Require Export ZArith Lia Bool Sorted.
From stdpp Require Export base tactics numbers option sets list.

#[global] Open Scope Z_scope.


(** ** Machine integers

    A w-bit unsigned value is a [Z] in [0, 2^w); a signed one is a [Z] in
    [-2^(w-1), 2^(w-1)).  [wrapU]/[wrapS] are the conversions of C++ to these
    types (reduction modulo 2^w). *)

Definition wrapU (w x : Z) : Z := x mod 2 ^ w.
Definition wrapS (w x : Z) : Z := (x + 2 ^ (w - 1)) mod 2 ^ w - 2 ^ (w - 1).

Definition u64 (x : Z) : Z := wrapU 64 x.
Definition u32 (x : Z) : Z := wrapU 32 x.
Definition i64 (x : Z) : Z := wrapS 64 x.
Definition i32 (x : Z) : Z := wrapS 32 x.

Definition kU64Max : Z := 2 ^ 64 - 1.
Definition kI64Max : Z := 2 ^ 63 - 1.
Definition kI64Min : Z := - 2 ^ 63.

Definition is_u64 (x : Z) : Prop := 0 <= x < 2 ^ 64.
Definition is_i64 (x : Z) : Prop := - 2 ^ 63 <= x < 2 ^ 63.
Definition is_octet (x : Z) : Prop := 0 <= x < 256.

(** Unsigned 64-bit addition and subtraction, as C++ computes them. *)
Declare Scope quic_scope.
Delimit Scope quic_scope with quic.
Notation "x +64 y" := (u64 (x + y)) (at level 50, left associativity) : quic_scope.
Notation "x -64 y" := (u64 (x - y)) (at level 50, left associativity) : quic_scope.
#[global] Open Scope quic_scope.

(** ** Tactics *)

(** Turns boolean comparisons of hypotheses into propositions. *)
Ltac bool_to_prop :=
  repeat match goal with
    | H : context [ (?a >=? ?b) ] |- _ => rewrite (Z.geb_leb a b) in H
    | H : context [ (?a >? ?b) ] |- _ => rewrite (Z.gtb_ltb a b) in H
    end;
  repeat match goal with
    | H : (_ && _) = true |- _ => apply andb_true_iff in H as [? ?]
    | H : (_ || _) = false |- _ => apply orb_false_iff in H as [? ?]
    | H : negb _ = true |- _ => apply negb_true_iff in H
    | H : negb _ = false |- _ => apply negb_false_iff in H
    | H : (_ <? _) = true |- _ => apply Z.ltb_lt in H
    | H : (_ <? _) = false |- _ => apply Z.ltb_ge in H
    | H : (_ <=? _) = true |- _ => apply Z.leb_le in H
    | H : (_ <=? _) = false |- _ => apply Z.leb_gt in H
    | H : (_ =? _) = true |- _ => apply Z.eqb_eq in H
    | H : (_ =? _) = false |- _ => apply Z.eqb_neq in H
    end.

(** Case analysis on the innermost condition of an [if] of the goal. *)
Ltac case_if :=
  match goal with
  | |- context [ if ?b then _ else _ ] =>
      lazymatch type of b with
      | bool => let E := fresh "E" in destruct b eqn:E
      | sumbool _ _ => destruct b
      | Decision _ => destruct b
      end
  end.

(** Closes an arithmetic goal whose hypotheses are boolean tests. *)
Ltac blia := bool_to_prop; lia.
Ltac bsolve := repeat case_if; simpl in *; lia.

(** Bounds on the elements of a concrete list. *)
Ltac forall_lia := repeat (apply Forall_nil_2 || (apply Forall_cons_2; [simpl; lia|])).

Create HintDb quic.

(** ** Machine integer lemmas *)

Lemma wrapU_id w x : 0 <= x < 2 ^ w -> wrapU w x = x.
Proof. apply Z.mod_small. Qed.

Lemma wrapU_range w x : 0 <= w -> 0 <= wrapU w x < 2 ^ w.
Proof. intros. apply Z.mod_pos_bound. lia. Qed.

Lemma wrapS_id w x : 0 < w -> - 2 ^ (w - 1) <= x < 2 ^ (w - 1) -> wrapS w x = x.
Proof.
  intros Hw Hx. unfold wrapS.
  assert (2 ^ w = 2 * 2 ^ (w - 1)) as Hp
    by (rewrite <- Z.pow_succ_r by lia; f_equal; lia).
  rewrite Z.mod_small; lia.
Qed.

Lemma wrapS_range w x : 0 < w -> - 2 ^ (w - 1) <= wrapS w x < 2 ^ (w - 1).
Proof.
  intros Hw. unfold wrapS.
  assert (2 ^ w = 2 * 2 ^ (w - 1)) as Hp
    by (rewrite <- Z.pow_succ_r by lia; f_equal; lia).
  pose proof (Z.mod_pos_bound (x + 2 ^ (w - 1)) (2 ^ w)). lia.
Qed.

Lemma u64_id x : is_u64 x -> u64 x = x.
Proof. apply wrapU_id. Qed.

Lemma u64_range x : is_u64 (u64 x).
Proof. apply wrapU_range; lia. Qed.

Lemma i64_id x : is_i64 x -> i64 x = x.
Proof. intros. apply wrapS_id; [lia | assumption]. Qed.

Lemma i64_range x : is_i64 (i64 x).
Proof. exact (wrapS_range 64 x ltac:(lia)). Qed.

#[export] Hint Resolve u64_range i64_range : quic.

(** ** Bits *)

(** A multiple of 2^n and a number below 2^n have no common bit. *)
Lemma lor_disjoint x y n : 0 <= n -> 0 <= y < 2 ^ n -> Z.lor (x * 2 ^ n) y = x * 2 ^ n + y.
Proof.
  intros Hn Hy. rewrite <- Z.add_lor_land. assert (Z.land (x * 2 ^ n) y = 0) as ->; [|lia].
  apply Z.bits_inj'. intros m Hm. rewrite Z.land_spec, Z.bits_0.
  destruct (decide (m < n)); [by rewrite Z.mul_pow2_bits_low|].
  rewrite andb_comm. rewrite <- (Z.mod_small y (2 ^ n)) by done.
  by rewrite Z.mod_pow2_bits_high by lia.
Qed.

(** ** Lists *)

Lemma Forall_app_l {A} (P : A -> Prop) l k : Forall P (l ++ k) -> Forall P l.
Proof. rewrite Forall_app. tauto. Qed.

Lemma Forall_app_r {A} (P : A -> Prop) l k : Forall P (l ++ k) -> Forall P k.
Proof. rewrite Forall_app. tauto. Qed.

(** [find] skips a prefix on which the test fails. *)
Lemma find_app_skip {A} (f : A -> bool) l k :
  Forall (fun x => f x = false) l -> List.find f (l ++ k) = List.find f k.
Proof. induction 1 as [|x l Hx _ IH]; simpl; [done|]. by rewrite Hx. Qed.

Lemma find_head {A} (f : A -> bool) x l :
  f x = true -> List.find f (x :: l) = Some x.
Proof. simpl. by intros ->. Qed.

Lemma find_all_true {A} (f : A -> bool) l :
  Forall (fun x => f x = true) l -> List.find f l = head l.
Proof. destruct 1 as [|x l Hx]; simpl; [done|]. by rewrite Hx. Qed.

(** Moving the head of the second part to the end of the first. *)
Lemma snoc_app {A} (l : list A) x k : l ++ x :: k = (l ++ [x]) ++ k.
Proof. by rewrite <- app_assoc. Qed.

(** Access and update at the position after a prefix. *)
Lemma lookup_mid {A} (l : list A) x k : (l ++ x :: k) !! length l = Some x.
Proof. by apply list_lookup_middle. Qed.

Lemma insert_mid {A} (l : list A) x y k : <[length l := y]> (l ++ x :: k) = l ++ y :: k.
Proof.
  replace (length l) with (length l + 0)%nat by lia. by rewrite insert_app_r.
Qed.

Lemma take_mid {A} (l k : list A) : take (length l) (l ++ k) = l.
Proof. apply take_app_length. Qed.

Lemma drop_mid {A} (l : list A) x k : drop (S (length l)) (l ++ x :: k) = k.
Proof.
  replace (S (length l)) with (length l + 1)%nat by lia. by rewrite drop_app_add.
Qed.

(** ** Runs *)

(** A run of operations with everything the calls returned. *)
Fixpoint run_steps {S O R : Type} (step : S -> O -> option (S * R)) (s : S) (ops : list O)
    : option (S * list R) :=
  match ops with
  | [] => Some (s, [])
  | op :: ops =>
      '(s, r) ← step s op; '(s, rs) ← run_steps step s ops; Some (s, r :: rs)
  end.

(** A simulation of single steps, results and undefined behaviour included,
    extends to runs. *)
Section Simulation.
Context {S T O R : Type} (step : S -> O -> option (S * R)) (spec : T -> O -> option (T * R)) (rel : S -> T -> Prop).

Definition simulates {X} (run : option (S * X)) (run' : option (T * X)) : Prop :=
  match run with
  | Some (s, x) => exists t, run' = Some (t, x) /\ rel s t
  | None => run' = None
  end.

Lemma run_steps_simulates s t ops :
  (forall s t op, rel s t -> simulates (step s op) (spec t op)) ->
  rel s t -> simulates (run_steps step s ops) (run_steps spec t ops).
Proof.
  intros Hstep. revert s t. induction ops as [|op ops IH]; intros s t Hr; [by exists t|]. cbn [run_steps].
  specialize (Hstep s t op Hr). destruct (step s op) as [[s1 r]|]; simpl in Hstep; [|by rewrite Hstep].
  destruct Hstep as (t1 & -> & Hr1). cbn [mbind option_bind]. specialize (IH s1 t1 Hr1).
  destruct (run_steps step s1 ops) as [[s2 rs]|]; simpl in IH; cbn [mbind option_bind]; [|by rewrite IH].
  destruct IH as (t2 & -> & Hr2). by exists t2.
Qed.
End Simulation.
