(* ===== verification/StdSet.v ===== *)
(** * std::set: an ordered set of values with node-stable iterators

    Model of what the sources use of [std::set<T, Compare>]: the elements in
    comparator order, [insert], [erase] of an element and of a range,
    [upper_bound], [begin], [rbegin] and the iterator increments.  The keys of a
    set are immutable and unique, so a node is identified by the element it
    holds: an iterator is [Some x] for the node of [x] and [None] for [end()].
    Insertions and erasures of other elements leave such an iterator valid, as
    the C++ standard guarantees. *)

From S2P Require Import Prelude.

(** A comparator that is a strict total order. *)
Class StrictOrderBool {A} (ltb : A -> A -> bool) : Prop := {
  ltb_irrefl : forall x, ltb x x = false;
  ltb_trans : forall x y z, ltb x y = true -> ltb y z = true -> ltb x z = true;
  ltb_total : forall x y, ltb x y = false -> ltb y x = false -> x = y
}.

Section StdSet.
Context {A : Type} `{EqDecision A} (ltb : A -> A -> bool).

(** The elements of a set, in order. *)
Definition std_sorted (s : list A) : Prop :=
  StronglySorted (fun x y => ltb x y = true) s.

(** [s.insert(x)]: the new contents; nothing changes if [x] is present. *)
Fixpoint std_insert (x : A) (s : list A) : list A :=
  match s with
  | [] => [x]
  | y :: s' =>
      if ltb x y then x :: s
      else if ltb y x then y :: std_insert x s'
      else s
  end.

(** [s.insert(x).second]: whether an insertion took place. *)
Definition std_insert_took_place (x : A) (s : list A) : bool :=
  negb (existsb (fun y => negb (ltb x y) && negb (ltb y x)) s).

(** [s.erase(it)] for the node of [x]. *)
Definition std_erase (x : A) (s : list A) : list A :=
  List.filter (fun y => negb (bool_decide (y = x))) s.

(** [it] comes before the node of [y] ([end()] comes after every node). *)
Definition before_it (y : A) (it : option A) : bool :=
  match it with None => true | Some x => ltb y x end.

(** [s.erase(from, to)]: the nodes from [from] up to, excluding, [to]. *)
Definition std_erase_range (from to : option A) (s : list A) : list A :=
  List.filter (fun y => before_it y from || negb (before_it y to)) s.

(** [s.begin()], [s.rbegin()] and [s.upper_bound(p)]. *)
Definition std_begin (s : list A) : option A := head s.
Definition std_rbegin (s : list A) : option A := last s.
Definition std_upper_bound (p : A) (s : list A) : option A := List.find (ltb p) s.

(** [++it] and [--it]; incrementing [end()] or decrementing [begin()] is
    undefined and gives no result. *)
Definition std_next (s : list A) (it : option A) : option (option A) :=
  x ← it; Some (List.find (ltb x) s).
Definition std_prev (s : list A) (it : option A) : option (option A) :=
  x ← last (List.filter (fun y => before_it y it) s); Some (Some x).

Context `{!StrictOrderBool ltb}.

Lemma std_irrefl x : ltb x x = false.
Proof. apply ltb_irrefl. Qed.

Lemma ltb_asym x y : ltb x y = true -> ltb y x = false.
Proof.
  intros Hxy. destruct (ltb y x) eqn:Hyx; [|done].
  pose proof (ltb_trans _ _ _ Hxy Hyx) as Hxx. by rewrite std_irrefl in Hxx.
Qed.

Lemma ltb_neq x y : ltb x y = true -> x ≠ y.
Proof. intros H ->. by rewrite std_irrefl in H. Qed.

Lemma std_sorted_app l k :
  std_sorted (l ++ k) <->
  std_sorted l /\ std_sorted k /\ Forall (fun x => Forall (fun y => ltb x y = true) k) l.
Proof.
  unfold std_sorted. induction l as [|a l IH]; simpl.
  - split; [intros H; split_and!; [constructor | done | constructor] | tauto].
  - split.
    + intros [H1 H2]%StronglySorted_inv. apply IH in H1 as (?&?&?).
      apply Forall_app in H2 as [??]. split_and!; try constructor; done.
    + intros ([H1 H2]%StronglySorted_inv & Hk & [Ha Hl]%Forall_cons).
      constructor; [apply IH; done | apply Forall_app; done].
Qed.

Lemma std_sorted_mid l x k :
  std_sorted (l ++ x :: k) <->
  std_sorted l /\ std_sorted k /\ Forall (fun y => ltb y x = true) l /\
  Forall (fun y => ltb x y = true) k /\
  Forall (fun y => Forall (fun z => ltb y z = true) k) l.
Proof.
  rewrite std_sorted_app. split.
  - intros (Hl & [Hk Hx]%StronglySorted_inv & H).
    split_and!; try done; eapply Forall_impl; try exact H;
      intros y Hy; by apply Forall_cons in Hy as [??].
  - intros (Hl & Hk & H1 & H2 & H3). split_and!; try done.
    + by constructor.
    + rewrite Forall_forall in *. intros y Hy. constructor; auto.
Qed.

(** [insert] puts the element between the smaller and the larger ones. *)
Lemma std_insert_app l x k :
  Forall (fun y => ltb y x = true) l -> Forall (fun y => ltb x y = true) k ->
  std_insert x (l ++ k) = l ++ x :: k.
Proof.
  intros Hl Hk. induction Hl as [|y l Hy Hl IH]; simpl.
  - destruct k as [|z k]; simpl; [done|]. apply Forall_cons in Hk as [-> ?]. done.
  - rewrite (ltb_asym _ _ Hy), Hy, IH. done.
Qed.

Lemma std_insert_present l x k :
  Forall (fun y => ltb y x = true) l -> std_insert x (l ++ x :: k) = l ++ x :: k.
Proof.
  induction 1 as [|y l Hy Hl IH]; simpl.
  - by rewrite std_irrefl.
  - by rewrite (ltb_asym _ _ Hy), Hy, IH.
Qed.

(** Every sorted set splits around any element, present or not. *)
Lemma std_split x s :
  std_sorted s ->
  exists l k, Forall (fun y => ltb y x = true) l /\ Forall (fun y => ltb x y = true) k /\
    (s = l ++ k \/ s = l ++ x :: k).
Proof.
  induction 1 as [|y s Hs IH Hy].
  - exists [], []. split_and!; try constructor. done.
  - destruct (ltb x y) eqn:Exy.
    + exists [], (y :: s). split_and!; [constructor| |by left].
      constructor; [done|]. eapply Forall_impl; [exact Hy|]. eauto using ltb_trans.
    + destruct (ltb y x) eqn:Eyx.
      * destruct IH as (l & k & Hl & Hk & Hs'). exists (y :: l), k.
        split_and!; [by constructor | done |]. destruct Hs' as [-> | ->]; [by left | by right].
      * assert (x = y) as -> by (by apply ltb_total).
        exists [], s. split_and!; [constructor | done | by right].
Qed.

Lemma std_insert_took_place_absent l x k :
  Forall (fun y => ltb y x = true) l -> Forall (fun y => ltb x y = true) k ->
  std_insert_took_place x (l ++ k) = true.
Proof.
  intros Hl Hk. unfold std_insert_took_place. apply negb_true_iff, not_true_iff_false.
  rewrite existsb_exists. intros (y & Hy & Hb).
  apply in_app_iff in Hy as [Hy|Hy]; [rewrite Forall_forall in Hl; specialize (Hl y)|
    rewrite Forall_forall in Hk; specialize (Hk y)];
  rewrite list_elem_of_In in *; bool_to_prop; naive_solver congruence.
Qed.

Lemma std_insert_took_place_present l x k :
  std_insert_took_place x (l ++ x :: k) = false.
Proof.
  unfold std_insert_took_place. apply negb_false_iff, existsb_exists.
  exists x. rewrite std_irrefl. split; [|done]. apply in_app_iff. right. by left.
Qed.

Lemma std_erase_app l x k :
  std_sorted (l ++ x :: k) -> std_erase x (l ++ x :: k) = l ++ k.
Proof.
  intros (Hl & Hk & H1 & H2 & _)%std_sorted_mid. unfold std_erase.
  rewrite List.filter_app. simpl. rewrite bool_decide_eq_true_2 by done. simpl.
  f_equal; apply forallb_filter_id, forallb_forall; intros y Hy.
  - apply negb_true_iff, bool_decide_eq_false. rewrite Forall_forall in H1.
    apply ltb_neq, H1. by apply list_elem_of_In.
  - apply negb_true_iff, bool_decide_eq_false. rewrite Forall_forall in H2. intros ->.
    eapply (ltb_neq x x), eq_refl. apply H2. by apply list_elem_of_In.
Qed.

Lemma filter_none {B} (f : B -> bool) l :
  Forall (fun x => f x = false) l -> List.filter f l = [].
Proof. induction 1 as [|x l Hx _ IH]; simpl; [done|]. by rewrite Hx. Qed.

Lemma filter_all {B} (f : B -> bool) l :
  Forall (fun x => f x = true) l -> List.filter f l = l.
Proof. induction 1 as [|x l Hx _ IH]; simpl; [done|]. by rewrite Hx, IH. Qed.

(** [++it] moves from a node to the next one. *)
Lemma std_next_app l x k :
  std_sorted (l ++ x :: k) -> std_next (l ++ x :: k) (Some x) = Some (head k).
Proof.
  intros (_ & _ & H1 & H2 & _)%std_sorted_mid. unfold std_next. simpl. f_equal.
  rewrite find_app_skip.
  - simpl. rewrite std_irrefl. by apply find_all_true.
  - eapply Forall_impl; [exact H1|]. intros y. apply ltb_asym.
Qed.

(** [--it] moves back to the previous node. *)
Lemma std_prev_app l x k :
  std_sorted (l ++ x :: k) -> std_prev (l ++ x :: k) (head k) = Some (Some x).
Proof.
  intros Hs. unfold std_prev.
  assert (List.filter (fun y => before_it y (head k)) (l ++ x :: k) = l ++ [x]) as ->.
  { replace (l ++ x :: k) with ((l ++ [x]) ++ k) in * by (by rewrite <- app_assoc).
    apply std_sorted_app in Hs as (Hl & Hk & H). rewrite List.filter_app.
    destruct k as [|z k]; simpl.
    - rewrite app_nil_r. apply filter_all. by apply Forall_true.
    - rewrite std_irrefl. rewrite (filter_none _ k), app_nil_r.
      + apply filter_all. eapply Forall_impl; [exact H|].
        intros y Hy. by apply Forall_cons in Hy as [??].
      + apply StronglySorted_inv in Hk as [_ Hk]. eapply Forall_impl; [exact Hk|].
        intros y. apply ltb_asym. }
  by rewrite last_snoc.
Qed.

Lemma std_upper_bound_app p l k :
  Forall (fun y => ltb p y = false) l -> Forall (fun y => ltb p y = true) k ->
  std_upper_bound p (l ++ k) = head k.
Proof.
  intros Hl Hk. unfold std_upper_bound. rewrite find_app_skip by done. by apply find_all_true.
Qed.

(** Every probe splits a sorted set at its upper bound. *)
Lemma std_upper_bound_split p s :
  std_sorted s ->
  exists l k, s = l ++ k /\ Forall (fun y => ltb p y = false) l /\
    Forall (fun y => ltb p y = true) k.
Proof.
  induction 1 as [|y s Hs IH Hy].
  - exists [], []. split_and!; try constructor.
  - destruct (ltb p y) eqn:E.
    + exists [], (y :: s). split_and!; [done | constructor |].
      constructor; [done|]. eapply Forall_impl; [exact Hy|]. eauto using ltb_trans.
    + destruct IH as (l & k & -> & Hl & Hk). exists (y :: l), k. split_and!; [done | | done].
      by constructor.
Qed.

(** [erase(from, to)] removes exactly the nodes between the iterators. *)
Lemma std_erase_range_app l m k :
  std_sorted (l ++ m ++ k) -> std_erase_range (head (m ++ k)) (head k) (l ++ m ++ k) = l ++ k.
Proof.
  intros (Hl & Hmk & H)%std_sorted_app. pose proof Hmk as (Hm & Hk & H')%std_sorted_app.
  unfold std_erase_range. rewrite !List.filter_app. f_equal; [|rewrite filter_none; [apply filter_all|]].
  - apply filter_all. destruct (m ++ k) as [|z zs]; simpl; [by apply Forall_true|].
    eapply Forall_impl; [exact H|]. intros y Hy. by apply Forall_cons in Hy as [-> ?].
  - destruct k as [|z k]; simpl; [constructor|]. constructor.
    + rewrite std_irrefl. by rewrite orb_true_r.
    + apply StronglySorted_inv in Hk as [_ Hk]. eapply Forall_impl; [exact Hk|].
      intros y Hy. rewrite (ltb_asym _ _ Hy). by rewrite orb_true_r.
  - destruct m as [|x m]; [constructor|]. simpl. constructor.
    + rewrite std_irrefl. destruct k as [|z k]; simpl; [done|].
      apply Forall_cons in H' as [[Hx _]%Forall_cons _]. by rewrite Hx.
    + apply StronglySorted_inv in Hm as [_ Hm]. apply Forall_cons in H' as [_ H'].
      apply Forall_forall. intros y Hy. rewrite Forall_forall in Hm, H'.
      rewrite (ltb_asym _ _ (Hm _ Hy)). simpl. destruct k as [|z k]; simpl; [done|].
      specialize (H' _ Hy). apply Forall_cons in H' as [-> _]. done.
Qed.

Lemma std_insert_sorted x s : std_sorted s -> std_sorted (std_insert x s).
Proof.
  intros Hs. destruct (std_split x s Hs) as (l & k & Hl & Hk & [-> | ->]).
  - rewrite std_insert_app by done. apply std_sorted_mid.
    apply std_sorted_app in Hs. tauto.
  - by rewrite std_insert_present.
Qed.

Lemma std_insert_elem x s y : std_sorted s -> y ∈ std_insert x s <-> y = x \/ y ∈ s.
Proof.
  intros Hs. destruct (std_split x s Hs) as (l & k & Hl & Hk & [-> | ->]).
  - rewrite std_insert_app by done. set_solver.
  - rewrite std_insert_present by done. set_solver.
Qed.

(** [insert(first, last)]: the elements of a range, one after the other. *)
Definition std_insert_range (xs s : list A) : list A :=
  fold_left (fun acc x => std_insert x acc) xs s.

Lemma std_insert_range_spec xs s :
  std_sorted s ->
  std_sorted (std_insert_range xs s) /\
  forall y, y ∈ std_insert_range xs s <-> y ∈ xs \/ y ∈ s.
Proof.
  revert s. induction xs as [|x xs IH]; intros s Hs; simpl; [set_solver|].
  destruct (IH (std_insert x s)) as [H1 H2]; [by apply std_insert_sorted|].
  split; [done|]. intros y. rewrite H2, std_insert_elem by done. set_solver.
Qed.

(** The search pattern [it = s.upper_bound(p); if (it == s.begin()) ...; --it]:
    either every element is above the probe, or the iterator steps back to the
    last element that is not. *)
Lemma std_locate p s :
  std_sorted s ->
  (std_upper_bound p s = std_begin s /\ Forall (fun y => ltb p y = true) s) \/
  (exists l a k, s = l ++ a :: k /\ ltb p a = false /\ Forall (fun y => ltb p y = true) k /\
     std_upper_bound p s = head k /\ head k ≠ std_begin s /\
     std_prev s (head k) = Some (Some a)).
Proof.
  intros Hs. destruct (std_upper_bound_split p s Hs) as (l & k & -> & Hl & Hk).
  destruct l as [|a l _] using rev_ind; simpl in *.
  - left. split; [|done]. by apply (std_upper_bound_app p []).
  - right. exists l, a, k. rewrite <- app_assoc in *. simpl in *.
    apply Forall_app in Hl as [Hl [Ha _]%Forall_cons].
    split_and!; [done | done | done | | | by apply std_prev_app].
    + rewrite snoc_app. apply std_upper_bound_app; [|done]. apply Forall_app. auto.
    + apply std_sorted_mid in Hs as (_ & _ & _ & Hak & Hlk).
      destruct k as [|z k]; [by destruct l|]. apply Forall_cons in Hk as [Hk _].
      destruct l as [|b l]; simpl; intros [= ->]; [congruence|].
      apply Forall_cons in Hl as [Hl _]. congruence.
Qed.

End StdSet.

#[export] Hint Resolve ltb_irrefl ltb_asym ltb_trans : quic.

#[global] Arguments std_next : simpl never.
#[global] Arguments std_prev : simpl never.
#[global] Arguments std_upper_bound : simpl never.
#[global] Arguments std_insert : simpl never.
#[global] Arguments std_insert_took_place : simpl never.
#[global] Arguments std_erase : simpl never.
#[global] Arguments std_erase_range : simpl never.
