(* ===== verification/StdList.v ===== *)
(** * std::list: nodes with an identity

    An iterator into a [std::list] stays valid while other nodes come and go, so a
    list is a sequence of (node, value) pairs with distinct nodes; an iterator is
    a node, [None] being [end()]. *)

From S2P Require Import Prelude.

Section NodeList.
Context {A : Type}.

Abbreviation node_list := (list (nat * A)).

Definition node_get (n : nat) (l : node_list) : option A :=
  snd <$> List.find (fun x => Nat.eqb (fst x) n) l.
Definition node_erase (n : nat) (l : node_list) : node_list :=
  List.filter (fun x => negb (Nat.eqb (fst x) n)) l.
Definition node_begin (l : node_list) : option nat := fst <$> head l.
Definition node_last (l : node_list) : option nat := fst <$> last l.

(** [++it]; incrementing an iterator that is not in the list gives [None]. *)
Fixpoint node_next (n : nat) (l : node_list) : option (option nat) :=
  match l with
  | [] => None
  | x :: l => if Nat.eqb (fst x) n then Some (node_begin l) else node_next n l
  end.

(** [--it], where [None] is [end()]; decrementing [begin()] gives [None]. *)
Definition node_prev (it : option nat) (l : node_list) : option nat :=
  match it with
  | None => node_last l
  | Some n =>
      (fix prev (before : option nat) (l : node_list) :=
         match l with
         | [] => None
         | x :: l => if Nat.eqb (fst x) n then before else prev (Some (fst x)) l
         end) None l
  end.

Definition nodes (l : node_list) : list nat := fst <$> l.

Lemma nodes_app l k : nodes (l ++ k) = nodes l ++ nodes k.
Proof. apply fmap_app. Qed.

(** A node splits its list. *)
Lemma node_split n l : n ∈ nodes l -> exists a x b, l = a ++ (n, x) :: b.
Proof.
  intros ([m x] & -> & Hin)%list_elem_of_fmap. apply list_elem_of_split in Hin as (a & b & ->). eauto.
Qed.

Lemma node_not_in n l : n ∉ nodes l -> Forall (fun x => Nat.eqb (fst x) n = false) l.
Proof.
  intros Hn. apply Forall_forall. intros x Hx. apply Nat.eqb_neq. intros <-. apply Hn.
  by apply list_elem_of_fmap_2.
Qed.

Section Split.
Context (a b : node_list) (n : nat) (x : A) (Hnd : NoDup (nodes (a ++ (n, x) :: b))).

Lemma split_nodes : (n ∉ nodes a) /\ (n ∉ nodes b).
Proof.
  clear -Hnd. rewrite nodes_app in Hnd. apply NoDup_app in Hnd as (_ & Hd & [Hb _]%NoDup_cons).
  split; [|done]. intros Ha. apply (Hd n Ha). constructor.
Qed.

Lemma node_get_split : node_get n (a ++ (n, x) :: b) = Some x.
Proof.
  unfold node_get. rewrite find_app_skip by (by apply node_not_in, split_nodes). simpl.
  by rewrite Nat.eqb_refl.
Qed.

Lemma node_erase_split : node_erase n (a ++ (n, x) :: b) = a ++ b.
Proof.
  destruct split_nodes as [Ha Hb]. unfold node_erase. rewrite List.filter_app. simpl. rewrite Nat.eqb_refl. simpl.
  assert (forall l : node_list, n ∉ nodes l -> List.filter (fun y => negb (Nat.eqb (fst y) n)) l = l) as Hf.
  { intros l Hl%node_not_in. induction Hl as [|y l Hy _ IH]; simpl; [done|]. by rewrite Hy, IH. }
  by rewrite !Hf.
Qed.

Lemma node_next_split : node_next n (a ++ (n, x) :: b) = Some (node_begin b).
Proof.
  destruct split_nodes as [Ha%node_not_in _]. clear Hnd. induction Ha as [|y l Hy _ IH]; simpl.
  - by rewrite Nat.eqb_refl.
  - by rewrite Hy.
Qed.

Lemma nodes_erased : NoDup (nodes (a ++ b)).
Proof.
  rewrite nodes_app in Hnd |- *. apply NoDup_app in Hnd as (H1 & H2 & [_ H3]%NoDup_cons).
  apply NoDup_app. split_and!; try done. intros y Hy Hb. apply (H2 y Hy). by constructor.
Qed.
End Split.

Lemma node_get_elem n x l : NoDup (nodes l) -> (n, x) ∈ l -> node_get n l = Some x.
Proof.
  intros Hnd (a & b & ->)%list_elem_of_split. by apply node_get_split.
Qed.

Lemma nodes_snoc_fresh l n x :
  NoDup (nodes l) -> n ∉ nodes l -> NoDup (nodes (l ++ [(n, x)])).
Proof.
  intros Hnd Hn. rewrite nodes_app. apply NoDup_app. split_and!; [done| |apply NoDup_singleton].
  intros y Hy ->%list_elem_of_singleton. done.
Qed.

End NodeList.
