(* ===== verification/Interval.v ===== *)
(** * net/base/interval.h: half-open intervals [min, max)

    [Interval<T>] is used at integral [T] (packet numbers, stream offsets); the
    bounds are mathematical integers.  Methods that mutate [*this] return the
    new interval beside the method's result. *)

From S2P Require Import Prelude StdSet.

Record Interval := MkInterval { min_ : Z; max_ : Z }.

#[export] Instance Interval_eq_dec : EqDecision Interval.
Proof. solve_decision. Defined.

(** The default constructor value-initialises both bounds. *)
Definition Interval_default : Interval := MkInterval 0 0.

Definition Interval_SetMin (i : Interval) (t : Z) : Interval := MkInterval t (max_ i).
Definition Interval_SetMax (i : Interval) (t : Z) : Interval := MkInterval (min_ i) t.

Definition Interval_Set (i : Interval) (mn mx : Z) : Interval :=
  Interval_SetMax (Interval_SetMin i mn) mx.

Definition Interval_Empty (i : Interval) : bool := min_ i >=? max_ i.

Definition Interval_Length (i : Interval) : Z :=
  (if min_ i >=? max_ i then min_ i else max_ i) - min_ i.

Definition Interval_Contains_value (i : Interval) (t : Z) : bool :=
  (min_ i <=? t) && (max_ i >? t).

Definition Interval_Contains (this i : Interval) : bool :=
  negb (Interval_Empty this) && negb (Interval_Empty i) &&
  (min_ this <=? min_ i) && (max_ this >=? max_ i).

Definition Interval_Intersects (this i : Interval) : bool :=
  negb (Interval_Empty this) && negb (Interval_Empty i) &&
  (min_ this <? max_ i) && (max_ this >? min_ i).

(** The overload with an output parameter: [None] leaves [*out] unset. *)
Definition Interval_Intersects_out (this i : Interval) : option Interval :=
  if negb (Interval_Intersects this i) then None
  else Some (MkInterval (Z.max (min_ this) (min_ i)) (Z.min (max_ this) (max_ i))).

Definition Interval_IntersectWith (this i : Interval) : Interval * bool :=
  if Interval_Empty this then (this, false)
  else
    let '(this, modified) :=
      if min_ i >? min_ this then (Interval_SetMin this (min_ i), true) else (this, false) in
    if max_ i <? max_ this then (Interval_SetMax this (max_ i), true) else (this, modified).

Definition Interval_SpanningUnion (this i : Interval) : Interval * bool :=
  if Interval_Empty i then (this, false)
  else if Interval_Empty this then (i, true)
  else
    let '(this, modified) :=
      if min_ i <? min_ this then (Interval_SetMin this (min_ i), true) else (this, false) in
    if max_ i >? max_ this then (Interval_SetMax this (max_ i), true) else (this, modified).

(** [Difference]: the result flag and the two output intervals [lo], [hi]. *)
Definition Interval_Difference (this i : Interval) : bool * Interval * Interval :=
  let lo := Interval_default in
  let hi := Interval_default in
  if Interval_Empty this then (false, lo, hi)
  else if Interval_Empty i then (false, this, hi)
  else if (min_ this <? max_ i) && (min_ this >=? min_ i) && (max_ this >? max_ i) then
    (true, lo, MkInterval (max_ i) (max_ this))
  else if (max_ this >? min_ i) && (max_ this <=? max_ i) && (min_ this <? min_ i) then
    (true, MkInterval (min_ this) (min_ i), hi)
  else if (min_ this <? min_ i) && (max_ this >? max_ i) then
    (true, MkInterval (min_ this) (min_ i), MkInterval (max_ i) (max_ this))
  else if (min_ this >=? min_ i) && (max_ this <=? max_ i) then
    (true, lo, hi)
  else (false, this, hi).

(** [operator==]: all empty intervals are equal. *)
Definition Interval_eqb (a b : Interval) : bool :=
  let ae := Interval_Empty a in
  let be := Interval_Empty b in
  if ae && be then true
  else if negb (Bool.eqb ae be) then false
  else (min_ a =? min_ b) && (max_ a =? max_ b).

(** [operator<]: ascending [min()], then descending [max()]. *)
Definition Interval_ltb (a b : Interval) : bool :=
  (min_ a <? min_ b) || ((min_ a =? min_ b) && (max_ a >? max_ b)).

(** ** The set of points an interval denotes *)

Definition ival_mem (t : Z) (i : Interval) : Prop := min_ i <= t < max_ i.

Definition ival_nonempty (i : Interval) : Prop := min_ i < max_ i.

Ltac interval_unfold :=
  repeat match goal with i : Interval |- _ => destruct i end;
  unfold Interval_Difference, Interval_Intersects_out, Interval_IntersectWith,
    Interval_SpanningUnion, Interval_eqb, Interval_ltb, Interval_Contains,
    Interval_Intersects, Interval_Contains_value, Interval_Length, Interval_Empty,
    Interval_SetMin, Interval_SetMax, Interval_default, ival_mem, ival_nonempty in *;
  simpl in *.

#[export] Instance Interval_ltb_order : StrictOrderBool Interval_ltb.
Proof.
  split.
  - intros x. interval_unfold. rewrite orb_false_iff, andb_false_iff. bool_to_prop. split; lia.
  - intros x y z. interval_unfold. rewrite !orb_true_iff, !andb_true_iff.
    repeat match goal with |- context [?a >? ?b] => rewrite (Z.gtb_ltb a b) end.
    rewrite !Z.ltb_lt, !Z.eqb_eq. lia.
  - intros x y. interval_unfold. rewrite !orb_false_iff, !andb_false_iff.
    repeat match goal with |- context [?a >? ?b] => rewrite (Z.gtb_ltb a b) end.
    rewrite !Z.ltb_ge, !Z.eqb_neq. intros. f_equal; lia.
Qed.

Lemma Interval_ltb_spec a b :
  Interval_ltb a b = true <-> min_ a < min_ b \/ (min_ a = min_ b /\ max_ b < max_ a).
Proof.
  unfold Interval_ltb. rewrite orb_true_iff, andb_true_iff, Z.gtb_ltb, !Z.ltb_lt, Z.eqb_eq. tauto.
Qed.

Lemma Interval_Empty_spec i : Interval_Empty i = true <-> ~ ival_nonempty i.
Proof. unfold Interval_Empty, ival_nonempty. rewrite Z.geb_leb, Z.leb_le. lia. Qed.

Lemma Interval_Empty_false i : Interval_Empty i = false <-> ival_nonempty i.
Proof. unfold Interval_Empty, ival_nonempty. rewrite Z.geb_leb, Z.leb_gt. done. Qed.

Lemma Interval_Contains_value_spec i t : Interval_Contains_value i t = true <-> ival_mem t i.
Proof.
  unfold Interval_Contains_value, ival_mem.
  rewrite andb_true_iff, Z.gtb_ltb, Z.leb_le, Z.ltb_lt. done.
Qed.

Lemma Interval_Intersects_spec a b :
  Interval_Intersects a b = true <->
  ival_nonempty a /\ ival_nonempty b /\ min_ a < max_ b /\ min_ b < max_ a.
Proof.
  unfold Interval_Intersects. rewrite !andb_true_iff, !negb_true_iff, !Interval_Empty_false.
  rewrite Z.gtb_ltb, !Z.ltb_lt. tauto.
Qed.

Lemma Interval_Contains_spec a b :
  Interval_Contains a b = true <->
  ival_nonempty a /\ ival_nonempty b /\ min_ a <= min_ b /\ max_ b <= max_ a.
Proof.
  unfold Interval_Contains. rewrite !andb_true_iff, !negb_true_iff, !Interval_Empty_false.
  rewrite Z.geb_leb, !Z.leb_le. tauto.
Qed.

(** [Intersects] holds exactly when the two intervals share a point. *)
Lemma Interval_Intersects_iff a b :
  Interval_Intersects a b = true <-> exists t, ival_mem t a /\ ival_mem t b.
Proof.
  rewrite Interval_Intersects_spec. unfold ival_mem, ival_nonempty. split.
  - intros ?. exists (Z.max (min_ a) (min_ b)). lia.
  - intros [t ?]. lia.
Qed.

(** [Contains] is inclusion of the points, on non-empty arguments. *)
Lemma Interval_Contains_iff a b :
  ival_nonempty b ->
  Interval_Contains a b = true <-> (forall t, ival_mem t b -> ival_mem t a).
Proof.
  rewrite Interval_Contains_spec. unfold ival_mem, ival_nonempty. intros Hb. split.
  - intros ? t. lia.
  - intros H. pose proof (H (min_ b)). pose proof (H (max_ b - 1)). lia.
Qed.

(** The three set operations of the class, as point sets: [IntersectWith]
    computes the intersection, [SpanningUnion] the smallest interval covering
    both, and [Difference] splits the points of [this] outside [i] into two
    disjoint intervals, the lower one first. *)
Lemma Interval_IntersectWith_points a b t :
  ival_mem t (fst (Interval_IntersectWith a b)) <-> ival_mem t a /\ ival_mem t b.
Proof. unfold Interval_IntersectWith. interval_unfold. bsolve. Qed.

Lemma Interval_SpanningUnion_hull a b :
  let u := fst (Interval_SpanningUnion a b) in
  (forall t, ival_mem t a \/ ival_mem t b -> ival_mem t u) /\
  (forall v, (forall t, ival_mem t a \/ ival_mem t b -> ival_mem t v) ->
     forall t, ival_mem t u -> ival_mem t v).
Proof.
  unfold Interval_SpanningUnion. split.
  - intros t. interval_unfold. bsolve.
  - intros v H t. pose proof (H (min_ a)). pose proof (H (min_ b)).
    pose proof (H (max_ a - 1)). pose proof (H (max_ b - 1)). pose proof (H t). clear H.
    interval_unfold. bsolve.
Qed.

Lemma Interval_Difference_points a b t :
  let '(_, lo, hi) := Interval_Difference a b in
  (ival_mem t lo \/ ival_mem t hi <-> ival_mem t a /\ ~ ival_mem t b).
Proof. interval_unfold. bsolve. Qed.

Lemma Interval_Difference_flag a b :
  fst (fst (Interval_Difference a b)) = Interval_Intersects a b.
Proof. interval_unfold. bsolve. Qed.
