(* ===== verification/IntervalSet.v ===== *)
(** * net/base/interval_set.h: sets of disjoint half-open intervals

    [intervals_] is a [std::set] ordered by [IntervalComparator]; it is modelled
    by the list of its elements in order, with the iterators of [StdSet].  An
    operation that dereferences or moves an iterator returns an [option]: [None]
    is an undefined dereference or a loop that did not finish, and the theorems
    show it is never the result on a valid set. *)

From S2P Require Import Prelude StdSet Interval.

(** [IntervalSet<T>::IntervalComparator]. *)
Definition IntervalComparator (a b : Interval) : bool :=
  (min_ a <? min_ b) || ((min_ a =? min_ b) && (max_ a >? max_ b)).

#[export] Instance IntervalComparator_order : StrictOrderBool IntervalComparator.
Proof. exact Interval_ltb_order. Qed.

Abbreviation iset := (list Interval).
Abbreviation iter := (option Interval).

Abbreviation set_insert := (std_insert IntervalComparator).
Abbreviation set_inserted := (std_insert_took_place IntervalComparator).
Abbreviation set_erase_range := (std_erase_range IntervalComparator).
Abbreviation set_upper_bound := (std_upper_bound IntervalComparator).
Abbreviation set_next := (std_next IntervalComparator).
Abbreviation set_prev := (std_prev IntervalComparator).

(** ** Queries that do not move through the set *)

Definition IntervalSet_SpanningInterval (s : iset) : Interval :=
  match std_begin s, std_rbegin s with
  | Some b, Some r => Interval_SetMax (Interval_SetMin Interval_default (min_ b)) (max_ r)
  | _, _ => Interval_default
  end.

(** [Valid()]: [prev] is the previously visited element. *)
Fixpoint IntervalSet_Valid_from (prev : iter) (s : iset) : bool :=
  match s with
  | [] => true
  | it :: s' =>
      if min_ it >=? max_ it then false
      else if match prev with Some p => max_ p >=? min_ it | None => false end then false
      else IntervalSet_Valid_from (Some it) s'
  end.

Definition IntervalSet_Valid (s : iset) : bool := IntervalSet_Valid_from None s.

Fixpoint IntervalSet_Equals_from (s other : iset) : bool :=
  match s, other with
  | i :: s', j :: other' =>
      if negb (min_ i =? min_ j) || negb (max_ i =? max_ j) then false
      else IntervalSet_Equals_from s' other'
  | _, _ => true
  end.

Definition IntervalSet_Equals (s other : iset) : bool :=
  if negb (length s =? length other)%nat then false else IntervalSet_Equals_from s other.

(** ** Add and Compact *)

(** The loop of [Compact]; [next] is one step ahead of [it]. *)
Fixpoint IntervalSet_Compact_loop (fuel : nat) (s : iset) (prev it next end_ : iter)
    : option iset :=
  if bool_decide (it = end_) then Some s
  else
    match fuel with
    | O => None
    | S fuel =>
        next ← set_next s next;
        p ← prev; i ← it;
        if max_ p >=? min_ i then
          let merged := MkInterval (min_ p) (Z.max (max_ p) (max_ i)) in
          let s := std_erase p s in
          let s := std_erase i s in
          let s := set_insert merged s in
          IntervalSet_Compact_loop fuel s (Some merged) next next end_
        else IntervalSet_Compact_loop fuel s it next next end_
    end.

Definition IntervalSet_Compact (s : iset) (begin end_ : iter) : option iset :=
  if bool_decide (begin = end_) then Some s
  else
    it ← set_next s begin;
    next ← set_next s begin;
    IntervalSet_Compact_loop (length s) s begin it next end_.

Definition IntervalSet_Add (s : iset) (interval : Interval) : option iset :=
  if Interval_Empty interval then Some s
  else
    let inserted := set_inserted interval s in
    let s := set_insert interval s in
    if negb inserted then Some s
    else
      begin ← (if bool_decide (Some interval = std_begin s) then Some (Some interval)
               else set_prev s (Some interval));
      let target_end := MkInterval (max_ interval) (max_ interval) in
      let end_ := set_upper_bound target_end s in
      IntervalSet_Compact s begin end_.

Definition IntervalSet_Add_range (s : iset) (mn mx : Z) : option iset :=
  IntervalSet_Add s (MkInterval mn mx).

Fixpoint IntervalSet_Add_set (s other : iset) : option iset :=
  match other with
  | [] => Some s
  | i :: other' => s ← IntervalSet_Add s i; IntervalSet_Add_set s other'
  end.

Definition IntervalSet_of_interval (interval : Interval) : option iset :=
  IntervalSet_Add [] interval.

Definition IntervalSet_of_range (mn mx : Z) : option iset := IntervalSet_Add_range [] mn mx.

Definition IntervalSet_Clear (s : iset) : iset := [].
Definition IntervalSet_Size (s : iset) : nat := length s.
Definition IntervalSet_Empty (s : iset) : bool := match s with [] => true | _ => false end.
Definition IntervalSet_Swap (s other : iset) : iset * iset := (other, s).

(** [Get] appends the intervals to a vector. *)
Definition IntervalSet_Get (s : iset) (out : list Interval) : list Interval := out ++ s.

(** [assign]: [Clear] and then [Add] of each element of the range. *)
Definition IntervalSet_assign (s : iset) (range : list Interval) : option iset :=
  IntervalSet_Add_set (IntervalSet_Clear s) range.

Definition IntervalSet_Union (s other : iset) : option iset :=
  let s := std_insert_range IntervalComparator other s in
  IntervalSet_Compact s (std_begin s) None.

(** ** Membership *)

Definition IntervalSet_Contains_value (s : iset) (value : Z) : option bool :=
  let tmp := MkInterval value value in
  let it := set_upper_bound tmp s in
  if bool_decide (it = std_begin s) then Some false
  else it ← set_prev s it; i ← it; Some (Interval_Contains_value i value).

Definition IntervalSet_Contains (s : iset) (interval : Interval) : option bool :=
  let it := set_upper_bound interval s in
  if bool_decide (it = std_begin s) then Some false
  else it ← set_prev s it; i ← it; Some (Interval_Contains i interval).

Definition IntervalSet_Contains_range (s : iset) (mn mx : Z) : option bool :=
  IntervalSet_Contains s (MkInterval mn mx).

Fixpoint IntervalSet_Contains_each (s other : iset) : option bool :=
  match other with
  | [] => Some true
  | i :: other' =>
      b ← IntervalSet_Contains s i;
      if negb b then Some false else IntervalSet_Contains_each s other'
  end.

Definition IntervalSet_Contains_set (s other : iset) : option bool :=
  if negb (Interval_Contains (IntervalSet_SpanningInterval s)
             (IntervalSet_SpanningInterval other)) then Some false
  else IntervalSet_Contains_each s other.

(** [Find]: an iterator, [end()] when nothing is found. *)
Definition IntervalSet_Find_value (s : iset) (value : Z) : option iter :=
  let tmp := MkInterval value value in
  let it := set_upper_bound tmp s in
  if bool_decide (it = std_begin s) then Some None
  else it ← set_prev s it; i ← it;
       Some (if Interval_Contains_value i value then Some i else None).

Definition IntervalSet_Find (s : iset) (probe : Interval) : option iter :=
  let it := set_upper_bound probe s in
  if bool_decide (it = std_begin s) then Some None
  else it ← set_prev s it; i ← it;
       Some (if Interval_Contains i probe then Some i else None).

Definition IntervalSet_Find_range (s : iset) (mn mx : Z) : option iter :=
  IntervalSet_Find s (MkInterval mn mx).

Definition IntervalSet_IsDisjoint (s : iset) (interval : Interval) : option bool :=
  let tmp := MkInterval (min_ interval) (min_ interval) in
  let it := set_upper_bound tmp s in
  if match it with Some i => max_ interval >? min_ i | None => false end then Some false
  else if bool_decide (it = std_begin s) then Some true
  else it ← set_prev s it; i ← it; Some (max_ i <=? min_ interval).

(** ** Intersection and difference *)

Definition IntervalSet_FindIntersectionCandidate (s : iset) (interval : Interval)
    : option iter :=
  let mine := set_upper_bound interval s in
  if negb (bool_decide (mine = std_begin s)) then set_prev s mine else Some mine.

Definition IntervalSet_FindIntersectionCandidate_set (s other : iset) : option iter :=
  o ← std_begin other; IntervalSet_FindIntersectionCandidate s o.

(** [while (it != s.end() && it->max() <= bound) ++it]. *)
Fixpoint IntervalSet_skip (fuel : nat) (s : iset) (it : iter) (bound : Z) : option iter :=
  match it with
  | None => Some None
  | Some i =>
      if max_ i <=? bound then
        match fuel with
        | O => None
        | S fuel => it ← set_next s it; IntervalSet_skip fuel s it bound
        end
      else Some it
  end.

(** The two callbacks passed as [on_hole]. *)
Definition on_hole_keep (x : iset) (from to : iter) : iset := x.
Definition on_hole_erase (x : iset) (from to : iter) : iset := set_erase_range from to x.

(** The loop of [FindNextIntersectingPairImpl]; the result is the method's
    result, the set and the two iterators. *)
Fixpoint IntervalSet_FindNextIntersectingPair_loop (fuel : nat)
    (on_hole : iset -> iter -> iter -> iset) (x y : iset) (mine theirs : iter)
    : option (bool * iset * iter * iter) :=
  m ← mine; t ← theirs;
  if Interval_Intersects m t then Some (true, x, mine, theirs)
  else
    match fuel with
    | O => None
    | S fuel =>
        mine' ← IntervalSet_skip (length x) x mine (min_ t);
        let x := on_hole x mine mine' in
        match mine' with
        | None => Some (false, x, mine', theirs)
        | Some m' =>
            theirs' ← IntervalSet_skip (length y) y theirs (min_ m');
            match theirs' with
            | None => Some (false, on_hole x mine' None, mine', theirs')
            | Some _ =>
                IntervalSet_FindNextIntersectingPair_loop fuel on_hole x y mine' theirs'
            end
        end
    end.

Definition IntervalSet_FindNextIntersectingPairImpl
    (on_hole : iset -> iter -> iter -> iset) (x y : iset) (mine theirs : iter)
    : option (bool * iset * iter * iter) :=
  match mine, theirs with
  | Some _, Some _ =>
      IntervalSet_FindNextIntersectingPair_loop (S (length x + length y)) on_hole x y mine theirs
  | _, _ => Some (false, x, mine, theirs)
  end.

(** The inner loop of [Intersection]: the pieces of [i] inside [theirs...]. *)
Fixpoint IntervalSet_Intersection_inner (fuel : nat) (s other : iset) (i : Interval)
    (mine theirs : iter) : option (iset * iter * iter) :=
  match theirs with
  | None => Some (s, mine, theirs)
  | Some t =>
      match Interval_Intersects_out i t with
      | None => Some (s, mine, theirs)
      | Some intersection =>
          match fuel with
          | O => None
          | S fuel =>
              let s := set_insert intersection s in
              theirs ← set_next other theirs;
              IntervalSet_Intersection_inner fuel s other i (Some intersection) theirs
          end
      end
  end.

Fixpoint IntervalSet_Intersection_loop (fuel : nat) (s other : iset) (mine theirs : iter)
    : option iset :=
  match fuel with
  | O => None
  | S fuel =>
      r ← IntervalSet_FindNextIntersectingPairImpl on_hole_erase s other mine theirs;
      let '(found, s, mine, theirs) := r in
      if negb found then Some s
      else
        i ← mine;
        let s := std_erase i s in
        r ← IntervalSet_Intersection_inner (length other) s other i None theirs;
        let '(s, mine, theirs) := r in
        theirs ← set_prev other theirs;
        mine ← set_next s mine;
        IntervalSet_Intersection_loop fuel s other mine theirs
  end.

Definition IntervalSet_Intersection (s other : iset) : option iset :=
  if negb (Interval_Intersects (IntervalSet_SpanningInterval s)
             (IntervalSet_SpanningInterval other)) then Some []
  else
    mine ← IntervalSet_FindIntersectionCandidate_set s other;
    let s := set_erase_range (std_begin s) mine s in
    theirs ← IntervalSet_FindIntersectionCandidate_set other s;
    IntervalSet_Intersection_loop (S (length s)) s other mine theirs.

Definition IntervalSet_Intersects (s other : iset) : option bool :=
  if negb (Interval_Intersects (IntervalSet_SpanningInterval s)
             (IntervalSet_SpanningInterval other)) then Some false
  else
    mine ← IntervalSet_FindIntersectionCandidate_set s other;
    match mine with
    | None => Some false
    | Some m =>
        theirs ← IntervalSet_FindIntersectionCandidate other m;
        r ← IntervalSet_FindNextIntersectingPairImpl on_hole_keep s other mine theirs;
        let '(found, _, _, _) := r in Some found
    end.

Fixpoint IntervalSet_Difference_loop (fuel : nat) (s other : iset) (mine theirs : iter)
    : option iset :=
  match fuel with
  | O => None
  | S fuel =>
      r ← IntervalSet_FindNextIntersectingPairImpl on_hole_keep s other mine theirs;
      let '(found, s, mine, theirs) := r in
      if negb found then Some s
      else
        i ← mine; t ← theirs;
        mine ← set_next s mine;
        let s := std_erase i s in
        let '(_, lo, hi) := Interval_Difference i t in
        let s := if negb (Interval_Empty lo) then set_insert lo s else s in
        let '(s, mine) :=
          if negb (Interval_Empty hi) then (set_insert hi s, Some hi) else (s, mine) in
        IntervalSet_Difference_loop fuel s other mine theirs
  end.

Definition IntervalSet_Difference_set (s other : iset) : option iset :=
  if negb (Interval_Intersects (IntervalSet_SpanningInterval s)
             (IntervalSet_SpanningInterval other)) then Some s
  else
    mine ← IntervalSet_FindIntersectionCandidate_set s other;
    match mine with
    | None => Some s
    | Some _ =>
        theirs ← IntervalSet_FindIntersectionCandidate_set other s;
        IntervalSet_Difference_loop (S (S (length s + length other))) s other mine theirs
    end.

Definition IntervalSet_Difference (s : iset) (interval : Interval) : option iset :=
  if negb (Interval_Intersects (IntervalSet_SpanningInterval s) interval) then Some s
  else other ← IntervalSet_of_interval interval; IntervalSet_Difference_set s other.

Definition IntervalSet_Difference_range (s : iset) (mn mx : Z) : option iset :=
  IntervalSet_Difference s (MkInterval mn mx).

Definition IntervalSet_Complement (s : iset) (mn mx : Z) : option iset :=
  span ← IntervalSet_of_range mn mx; IntervalSet_Difference_set span s.
