(* ===== verification/IntervalSetFacts.v ===== *)
(** * Correctness of IntervalSet

    An [IntervalSet] denotes the set of the points of its intervals.  On valid
    sets (non-empty, ordered, disjoint and non-adjacent intervals) every
    operation of net/base/interval_set.h terminates without an undefined
    iterator access, keeps the set valid and computes the operation of its name
    on the denoted point sets. *)

From S2P Require Import Prelude StdSet Interval IntervalSet.

#[local] Opaque std_next std_prev.

(** ** Validity and denotation *)

Definition gap (a b : Interval) : Prop := max_ a < min_ b.

Definition iset_ok (s : iset) : Prop := StronglySorted gap s /\ Forall ival_nonempty s.

Definition iset_mem (v : Z) (s : iset) : Prop := Exists (ival_mem v) s.

Lemma iset_mem_nil v : iset_mem v [] <-> False.
Proof. apply Exists_nil. Qed.

Lemma iset_mem_cons v i s : iset_mem v (i :: s) <-> ival_mem v i \/ iset_mem v s.
Proof. apply Exists_cons. Qed.

Lemma iset_mem_app v s t : iset_mem v (s ++ t) <-> iset_mem v s \/ iset_mem v t.
Proof. apply Exists_app. Qed.

Lemma iset_mem_single v i : iset_mem v [i] <-> ival_mem v i.
Proof. rewrite iset_mem_cons, iset_mem_nil. tauto. Qed.

Create Rewrite HintDb iset.
#[export] Hint Rewrite iset_mem_nil iset_mem_cons iset_mem_app iset_mem_single : iset.

Lemma iset_ok_nil : iset_ok [].
Proof. split; constructor. Qed.

Lemma iset_ok_cons i s :
  iset_ok (i :: s) <-> ival_nonempty i /\ iset_ok s /\ Forall (gap i) s.
Proof.
  unfold iset_ok. rewrite Forall_cons. split.
  - intros [[??]%StronglySorted_inv [??]]. done.
  - intros (?&[??]&?). split; [by constructor|done].
Qed.

Lemma iset_ok_single i : iset_ok [i] <-> ival_nonempty i.
Proof. rewrite iset_ok_cons. pose proof iset_ok_nil. split; [tauto|auto]. Qed.

Lemma iset_ok_app s t :
  iset_ok (s ++ t) <-> iset_ok s /\ iset_ok t /\ Forall (fun a => Forall (gap a) t) s.
Proof.
  induction s as [|i s IH]; simpl.
  - pose proof iset_ok_nil. split; [auto|tauto].
  - rewrite !iset_ok_cons, IH, Forall_app, Forall_cons. tauto.
Qed.

Lemma iset_ok_sorted s : iset_ok s -> std_sorted IntervalComparator s.
Proof.
  induction s as [|i s IH]; [constructor|]. rewrite iset_ok_cons. intros (Hi & Hs & Hg).
  constructor; [by apply IH|]. eapply Forall_impl; [exact Hg|].
  intros j Hj. apply Interval_ltb_spec. unfold gap, ival_nonempty in *. lia.
Qed.

Lemma comparator_spec a b :
  IntervalComparator a b = true <-> min_ a < min_ b \/ (min_ a = min_ b /\ max_ b < max_ a).
Proof. apply Interval_ltb_spec. Qed.

Lemma comparator_false a b :
  IntervalComparator a b = false <-> min_ b < min_ a \/ (min_ a = min_ b /\ max_ a <= max_ b).
Proof. rewrite <- not_true_iff_false, comparator_spec. lia. Qed.

(** The executable check [Valid()] decides [iset_ok]. *)
Lemma Valid_from_spec prev s :
  IntervalSet_Valid_from prev s = true <->
  iset_ok s /\ match prev with Some p => Forall (gap p) (take 1 s) | None => True end.
Proof.
  revert prev. induction s as [|i s IH]; intros prev; simpl.
  - pose proof iset_ok_nil. destruct prev; [|tauto]. split; [auto|done].
  - rewrite iset_ok_cons.
    assert (IntervalSet_Valid_from (Some i) s = true <-> iset_ok s /\ Forall (gap i) s) as Hi.
    { rewrite IH. split; intros [Hs Hg]; (split; [done|]).
      - destruct s as [|j s]; [constructor|]. apply iset_ok_cons in Hs as (Hj&?&Hgj).
        apply Forall_cons in Hg as [Hg _]. constructor; [done|].
        eapply Forall_impl; [exact Hgj|]. unfold gap, ival_nonempty in *. intros; lia.
      - by apply Forall_take. }
    unfold ival_nonempty. case_if.
    + split; [done|]. intros [(?&?&?) _]. blia.
    + destruct prev as [p|]; [case_if|]; rewrite ?Hi.
      * split; [done|]. intros [_ [Hg _]%Forall_cons]. unfold gap in Hg. blia.
      * split; [|tauto]. intros [??]. split_and!; try done; [blia|].
        constructor; [unfold gap; blia|]. by destruct s.
      * split; [|tauto]. intros [??]. split_and!; try done. blia.
Qed.

Lemma IntervalSet_Valid_spec s : IntervalSet_Valid s = true <-> iset_ok s.
Proof. unfold IntervalSet_Valid. rewrite Valid_from_spec. tauto. Qed.

(** ** Compact *)

(** What [Compact] computes: one left-to-right pass that coalesces. *)
Fixpoint merge (p : Interval) (rest : iset) : iset :=
  match rest with
  | [] => [p]
  | i :: r =>
      if max_ p >=? min_ i then merge (MkInterval (min_ p) (Z.max (max_ p) (max_ i))) r
      else p :: merge i r
  end.

Lemma merge_Forall (Q : Interval -> Prop) p rest :
  (forall a b, Q a -> Q b -> Q (MkInterval (min_ a) (Z.max (max_ a) (max_ b)))) ->
  Forall Q (p :: rest) -> Forall Q (merge p rest).
Proof.
  intros HQ. revert p. induction rest as [|i r IH]; intros p; simpl; [done|].
  rewrite !Forall_cons. intros (Hp & Hi & Hr). case_if.
  - apply IH. rewrite Forall_cons. auto.
  - rewrite Forall_cons. split; [done|]. apply IH. by rewrite Forall_cons.
Qed.

Lemma merged_sorted p i r :
  std_sorted IntervalComparator (p :: i :: r) ->
  std_sorted IntervalComparator (MkInterval (min_ p) (Z.max (max_ p) (max_ i)) :: r).
Proof.
  intros [[Hr Hi]%StronglySorted_inv [Hpi Hp]%Forall_cons]%StronglySorted_inv.
  constructor; [done|]. rewrite Forall_forall in *. intros j Hj.
  specialize (Hi j Hj). specialize (Hp j Hj). rewrite comparator_spec in *. simpl. lia.
Qed.

Lemma merge_points v p rest :
  std_sorted IntervalComparator (p :: rest) -> Forall ival_nonempty (p :: rest) ->
  iset_mem v (merge p rest) <-> iset_mem v (p :: rest).
Proof.
  revert p. induction rest as [|i r IH]; intros p Hs Hne; simpl; [done|].
  pose proof Hs as [Hir [Hpi _]%Forall_cons]%StronglySorted_inv.
  rewrite !Forall_cons in Hne. destruct Hne as (Hp & Hi & Hr).
  apply comparator_spec in Hpi. unfold ival_nonempty in *. case_if.
  - rewrite IH; [|by eapply merged_sorted|].
    + rewrite !iset_mem_cons.
      enough (ival_mem v (MkInterval (min_ p) (Z.max (max_ p) (max_ i)))
              <-> ival_mem v p \/ ival_mem v i) by tauto.
      unfold ival_mem. simpl. bool_to_prop. lia.
    + rewrite Forall_cons. unfold ival_nonempty. simpl. split; [lia|done].
  - rewrite iset_mem_cons, IH by (try rewrite Forall_cons; done). by rewrite !iset_mem_cons.
Qed.

Lemma merge_min_ge p rest :
  std_sorted IntervalComparator (p :: rest) ->
  Forall (fun j => min_ p <= min_ j) (merge p rest).
Proof.
  intros [_ H]%StronglySorted_inv. apply merge_Forall; [simpl; intros; lia|].
  constructor; [lia|]. eapply Forall_impl; [exact H|].
  intros j. rewrite comparator_spec. lia.
Qed.

Lemma merge_ok p rest :
  std_sorted IntervalComparator (p :: rest) -> Forall ival_nonempty (p :: rest) ->
  iset_ok (merge p rest).
Proof.
  revert p. induction rest as [|i r IH]; intros p Hs Hne; simpl.
  - by apply iset_ok_single, Forall_singleton.
  - pose proof Hs as [Hir [Hpi _]%Forall_cons]%StronglySorted_inv.
    rewrite !Forall_cons in Hne. destruct Hne as (Hp & Hi & Hr). case_if.
    + apply IH; [by eapply merged_sorted|]. rewrite Forall_cons. split; [|done].
      unfold ival_nonempty in *. simpl. lia.
    + apply iset_ok_cons. split_and!; [done | apply IH; [done | by rewrite Forall_cons] |].
      eapply Forall_impl; [by apply merge_min_ge|]. simpl. unfold gap. intros. blia.
Qed.

Lemma merged_step dn p i r :
  std_sorted IntervalComparator (dn ++ p :: i :: r) ->
  Forall (fun d => min_ d < min_ p) dn ->
  let merged := MkInterval (min_ p) (Z.max (max_ p) (max_ i)) in
  set_insert merged (std_erase i (std_erase p (dn ++ p :: i :: r))) = dn ++ merged :: r /\
  std_sorted IntervalComparator (dn ++ merged :: r).
Proof.
  intros Hs Hd merged.
  assert (std_sorted IntervalComparator (dn ++ i :: r)) as Hs'.
  { apply std_sorted_app in Hs as (Hd' & [Hir _]%StronglySorted_inv & H).
    apply std_sorted_app. split_and!; try done. eapply Forall_impl; [exact H|].
    intros x [? ?]%Forall_cons. done. }
  rewrite (std_erase_app IntervalComparator dn p), (std_erase_app IntervalComparator dn i) by done.
  pose proof Hs as (Hs1 & Hs2 & Hs3)%std_sorted_app.
  pose proof (merged_sorted _ _ _ Hs2) as Hm. fold merged in Hm.
  assert (Forall (fun d => IntervalComparator d merged = true) dn) as Hlt.
  { eapply Forall_impl; [exact Hd|]. intros d. rewrite comparator_spec. simpl. lia. }
  split.
  - apply std_insert_app; [typeclasses eauto | done |].
    by apply StronglySorted_inv in Hm as [_ ?].
  - apply std_sorted_app. split_and!; try done.
    rewrite Forall_forall in *. intros d Hdd. constructor; [by apply Hlt|].
    specialize (Hs3 d Hdd). rewrite !Forall_cons in Hs3. tauto.
Qed.

Lemma Compact_loop_merge rest fuel dn p post :
  std_sorted IntervalComparator (dn ++ p :: rest ++ post) ->
  Forall (fun d => min_ d < min_ p) dn ->
  Forall ival_nonempty (p :: rest) ->
  (length rest <= fuel)%nat ->
  IntervalSet_Compact_loop fuel (dn ++ p :: rest ++ post) (Some p)
    (head (rest ++ post)) (head (rest ++ post)) (head post) = Some (dn ++ merge p rest ++ post).
Proof.
  revert fuel dn p. induction rest as [|i r IH]; intros fuel dn p Hs Hd Hne Hf; simpl in *.
  - destruct fuel; simpl; by rewrite bool_decide_eq_true_2.
  - destruct fuel as [|fuel]; [lia|]. simpl.
    assert (Some i ≠ head post) as Hend.
    { destruct post as [|z post]; [done|]. intros [= ->].
      apply std_sorted_app in Hs as (_ & [[_ Hs]%StronglySorted_inv _]%StronglySorted_inv & _).
      apply Forall_app in Hs as [_ [Hs _]%Forall_cons]. apply comparator_spec in Hs. lia. }
    rewrite bool_decide_eq_false_2 by done. simpl.
    assert (set_next (dn ++ p :: i :: r ++ post) (Some i) = Some (head (r ++ post))) as Hn.
    { rewrite (snoc_app dn) in Hs |- *. apply std_next_app; [typeclasses eauto | done]. }
    rewrite Hn. simpl. rewrite !Forall_cons in Hne. destruct Hne as (Hp & Hi & Hr).
    pose proof (merged_step dn p i (r ++ post) Hs Hd) as [Hm1 Hm2]. case_if.
    + rewrite Hm1. apply IH; [done | done | | lia]. rewrite Forall_cons.
      unfold ival_nonempty in *. simpl. split; [lia|done].
    + rewrite (snoc_app dn). rewrite IH; [by rewrite <- app_assoc | | | | lia].
      * by rewrite <- snoc_app.
      * apply Forall_app. unfold ival_nonempty in *. split; [|constructor; [blia|constructor]].
        eapply Forall_impl; [exact Hd|]. simpl. intros. blia.
      * by rewrite Forall_cons.
Qed.

Lemma Compact_merge pre p rest post :
  std_sorted IntervalComparator (pre ++ p :: rest ++ post) ->
  Forall (fun d => min_ d < min_ p) pre ->
  Forall ival_nonempty (p :: rest) ->
  IntervalSet_Compact (pre ++ p :: rest ++ post) (Some p) (head post)
    = Some (pre ++ merge p rest ++ post).
Proof.
  intros Hs Hd Hne. unfold IntervalSet_Compact. rewrite bool_decide_eq_false_2.
  - rewrite (std_next_app IntervalComparator) by done. simpl. apply Compact_loop_merge; try done.
    rewrite length_app. simpl. rewrite length_app. lia.
  - destruct post as [|z post]; [done|]. intros [= ->].
    apply std_sorted_app in Hs as (_ & [_ Hs]%StronglySorted_inv & _).
    apply Forall_app in Hs as [_ [Hs _]%Forall_cons]. apply comparator_spec in Hs. lia.
Qed.

(** Coalescing a stretch keeps the set valid when the parts around it stay apart. *)
Lemma merge_sandwich pre p rest post :
  iset_ok pre -> iset_ok post ->
  std_sorted IntervalComparator (p :: rest) -> Forall ival_nonempty (p :: rest) ->
  Forall (fun d => gap d p) pre -> Forall (fun d => Forall (gap d) post) pre ->
  Forall (fun x => Forall (gap x) post) (p :: rest) ->
  iset_ok (pre ++ merge p rest ++ post).
Proof.
  intros Hpre Hpost Hs Hne Hp Hd Hx. rewrite !iset_ok_app.
  split_and!; [done | by apply merge_ok | done | |].
  - apply merge_Forall; [|done]. intros a b Ha Hb. rewrite Forall_forall in *.
    intros j Hj. specialize (Ha j Hj). specialize (Hb j Hj). unfold gap in *. simpl. lia.
  - pose proof (merge_min_ge _ _ Hs) as Hm. rewrite Forall_forall in *. intros d Hdd.
    apply Forall_app. split; [|by apply Hd]. rewrite Forall_forall in *. intros j Hj.
    specialize (Hm j Hj). specialize (Hp d Hdd). unfold gap in *. lia.
Qed.

(** The stretch that [Add] compacts after inserting [i] between [l] and [k1 ++ k2]. *)
Lemma Add_stretch l i k1 k2 :
  iset_ok (l ++ k1 ++ k2) -> ival_nonempty i ->
  std_sorted IntervalComparator (l ++ i :: k1 ++ k2) ->
  Forall (fun y => min_ y <= max_ i) k1 -> Forall (fun y => max_ i < min_ y) k2 ->
  exists s', IntervalSet_Compact (l ++ i :: k1 ++ k2)
      (match last l with None => Some i | Some a => Some a end) (head k2) = Some s' /\
    iset_ok s' /\ forall v, iset_mem v s' <-> iset_mem v (l ++ i :: k1 ++ k2).
Proof.
  intros Hok Hi Hs Hk1 Hk2.
  pose proof Hok as (Hl & Hk & Hlk)%iset_ok_app. pose proof Hk as (Hok1 & Hok2 & Hk12)%iset_ok_app.
  destruct l as [|a l' _] using rev_ind; simpl in *.
  - exists (merge i k1 ++ k2).
    pose proof Hs as (Hs1 & Hs2 & _)%(std_sorted_app IntervalComparator (i :: k1)).
    assert (Forall ival_nonempty (i :: k1)) by (constructor; [done|]; apply Hok1).
    split_and!.
    + by apply (Compact_merge []).
    + apply (merge_sandwich []); try done. by constructor.
    + intros v. rewrite iset_mem_app, merge_points, iset_mem_cons by done.
      rewrite iset_mem_cons, iset_mem_app. tauto.
  - rewrite last_snoc. rewrite <- !app_assoc in *. simpl in *.
    pose proof Hl as (Hl' & Ha%iset_ok_single & Hla)%iset_ok_app.
    pose proof Hs as (_ & Hs' & _)%std_sorted_app.
    pose proof Hs' as (Hs1 & _ & _)%(std_sorted_app IntervalComparator (a :: i :: k1)).
    apply Forall_app in Hlk as [Hlk [Hak _]%Forall_cons].
    assert (Forall ival_nonempty (a :: i :: k1))
      by (constructor; [done|]; constructor; [done|]; apply Hok1).
    assert (Forall (fun d => gap d a) l')
      by (eapply Forall_impl; [exact Hla|]; intros d Hd; by apply Forall_singleton).
    exists (l' ++ merge a (i :: k1) ++ k2). split_and!.
    + apply (Compact_merge l' a (i :: k1) k2); try done.
      assert (Forall ival_nonempty l') as Hne by apply Hl'.
      rewrite Forall_forall in *. intros d Hd.
      specialize (Hne d Hd). specialize (H0 d Hd). unfold gap, ival_nonempty in *. lia.
    + apply merge_sandwich; try done.
      * eapply Forall_impl; [exact Hlk|]. intros d. by rewrite Forall_app; intros [_ ?].
      * constructor; [by apply Forall_app in Hak as [_ ?]|]. by constructor.
    + intros v. rewrite !iset_mem_app, merge_points, !iset_mem_cons, !iset_mem_app by done. tauto.
Qed.

Lemma Add_spec s i :
  iset_ok s ->
  exists s', IntervalSet_Add s i = Some s' /\ iset_ok s' /\
    forall v, iset_mem v s' <-> iset_mem v s \/ ival_mem v i.
Proof.
  intros Hok. pose proof (iset_ok_sorted _ Hok) as Hs. unfold IntervalSet_Add.
  destruct (Interval_Empty i) eqn:Ei.
  { exists s. split_and!; try done. intros v. apply Interval_Empty_spec in Ei.
    unfold ival_mem, ival_nonempty in *. intuition lia. }
  apply Interval_Empty_false in Ei.
  destruct (std_split IntervalComparator i s Hs) as (l & k & Hl & Hk & [-> | ->]).
  - rewrite (std_insert_took_place_absent IntervalComparator), (std_insert_app IntervalComparator) by done. simpl.
    assert (std_sorted IntervalComparator (l ++ i :: k)) as Hs'.
    { apply std_sorted_mid. apply std_sorted_app in Hs. tauto. }
    pose proof Hs as (_ & Hsk & _)%std_sorted_app.
    destruct (std_upper_bound_split IntervalComparator (MkInterval (max_ i) (max_ i)) k Hsk)
      as (k1 & k2 & -> & Hk1 & Hk2).
    assert (set_upper_bound (MkInterval (max_ i) (max_ i)) (l ++ i :: k1 ++ k2) = head k2) as ->.
    { rewrite (snoc_app l), app_assoc. apply std_upper_bound_app; [|done].
      rewrite !Forall_app. split_and!; [| |done].
      - eapply Forall_impl; [exact Hl|]. intros y. rewrite comparator_spec, comparator_false.
        unfold ival_nonempty in Ei. simpl. lia.
      - constructor; [|constructor]. rewrite comparator_false.
        unfold ival_nonempty in Ei. simpl. lia. }
    destruct (Add_stretch l i k1 k2) as (s' & Hc & Hok' & Hm); try done.
    + eapply Forall_impl; [exact Hk1|]. intros y. rewrite comparator_false. simpl. lia.
    + assert (Forall ival_nonempty k2) as Hne
        by (apply iset_ok_app in Hok as (_ & Hok & _); apply iset_ok_app in Hok as (_ & [_ ?] & _); done).
      rewrite Forall_forall in *. intros y Hy. specialize (Hk2 y Hy). specialize (Hne y Hy).
      rewrite comparator_spec in Hk2. unfold ival_nonempty in Hne. simpl in Hk2. lia.
    + exists s'. split_and!; [|done|intros v; rewrite Hm; autorewrite with iset; tauto].
      destruct l as [|a l _] using rev_ind; simpl in *.
      * by rewrite bool_decide_eq_true_2.
      * rewrite last_snoc in Hc. rewrite bool_decide_eq_false_2.
        -- rewrite <- app_assoc in *. simpl in *.
           pose proof (std_prev_app IntervalComparator l a (i :: k1 ++ k2) Hs') as Hp.
           simpl in Hp. by rewrite Hp.
        -- intros Heq. destruct l as [|b l]; simpl in *; injection Heq as <-;
             apply Forall_cons in Hl as [Hl _]; by rewrite (std_irrefl IntervalComparator) in Hl.
  - rewrite (std_insert_took_place_present IntervalComparator), (std_insert_present IntervalComparator) by done. simpl.
    exists (l ++ i :: k). split_and!; try done. intros v. autorewrite with iset. tauto.
Qed.

Lemma Add_set_spec s other :
  iset_ok s ->
  exists s', IntervalSet_Add_set s other = Some s' /\ iset_ok s' /\
    forall v, iset_mem v s' <-> iset_mem v s \/ iset_mem v other.
Proof.
  revert s. induction other as [|i other IH]; intros s Hok; simpl.
  - exists s. split_and!; try done. intros v. autorewrite with iset. tauto.
  - destruct (Add_spec s i Hok) as (s1 & -> & Hok1 & Hm1). simpl.
    destruct (IH s1 Hok1) as (s2 & -> & Hok2 & Hm2). exists s2.
    split_and!; try done. intros v. rewrite Hm2, Hm1. autorewrite with iset. tauto.
Qed.

Lemma Union_spec s other :
  iset_ok s -> iset_ok other ->
  exists s', IntervalSet_Union s other = Some s' /\ iset_ok s' /\
    forall v, iset_mem v s' <-> iset_mem v s \/ iset_mem v other.
Proof.
  intros Hok Hoko. unfold IntervalSet_Union.
  destruct (std_insert_range_spec IntervalComparator other s) as [Hs Hel];
    [by apply iset_ok_sorted|].
  assert (forall v, iset_mem v (std_insert_range IntervalComparator other s)
            <-> iset_mem v s \/ iset_mem v other) as Hm.
  { intros v. unfold iset_mem. rewrite !Exists_exists. set_solver. }
  assert (Forall ival_nonempty (std_insert_range IntervalComparator other s)) as Hne.
  { destruct Hok as [_ H1], Hoko as [_ H2]. rewrite Forall_forall in *. set_solver. }
  destruct (std_insert_range IntervalComparator other s) as [|p rest] eqn:E.
  - exists []. split_and!; [done | apply iset_ok_nil | done].
  - exists (merge p rest). simpl. split_and!.
    + pose proof (Compact_merge [] p rest []) as Hc. simpl in Hc.
      rewrite !app_nil_r in Hc. by apply Hc.
    + by apply merge_ok.
    + intros v. by rewrite merge_points.
Qed.

(** ** Searching *)

Lemma iset_locate p s :
  iset_ok s ->
  (set_upper_bound p s = std_begin s /\ Forall (fun y => IntervalComparator p y = true) s) \/
  (exists l a k, s = l ++ a :: k /\ IntervalComparator p a = false /\
     Forall (fun y => IntervalComparator p y = true) k /\
     set_upper_bound p s = head k /\ head k ≠ std_begin s /\
     set_prev s (head k) = Some (Some a) /\
     Forall (fun y => gap y a) l /\ Forall (gap a) k /\ ival_nonempty a /\
     Forall ival_nonempty l /\ Forall ival_nonempty k).
Proof.
  intros Hok. destruct (std_locate IntervalComparator p s (iset_ok_sorted _ Hok))
    as [?|(l & a & k & -> & ? & ? & ? & ? & ?)]; [by left|right].
  apply iset_ok_app in Hok as ([_ Hl] & (Ha & [_ Hk] & Hak)%iset_ok_cons & Hla).
  exists l, a, k. split_and!; try done.
  eapply Forall_impl; [exact Hla|]. intros y Hy. by apply Forall_cons in Hy as [??].
Qed.

Lemma Contains_value_spec s v :
  iset_ok s ->
  exists b, IntervalSet_Contains_value s v = Some b /\ (b = true <-> iset_mem v s).
Proof.
  intros Hok. unfold IntervalSet_Contains_value.
  destruct (iset_locate (MkInterval v v) s Hok)
    as [[-> Hall]|(l & a & k & -> & Ha & Hk & -> & Hb & -> & Hla & Hak & Hna & Hnl & Hnk)].
  - rewrite bool_decide_eq_true_2 by done. exists false. split; [done|].
    split; [done|]. unfold iset_mem. rewrite Exists_exists. intros (i & Hi & Hv).
    destruct Hok as [_ Hne]. rewrite Forall_forall in *.
    specialize (Hall i Hi). specialize (Hne i Hi). rewrite comparator_spec in Hall.
    unfold ival_mem, ival_nonempty in *. simpl in *. lia.
  - rewrite bool_decide_eq_false_2 by done. simpl. eexists. split; [done|].
    rewrite Interval_Contains_value_spec, iset_mem_app, iset_mem_cons.
    rewrite comparator_false in Ha. simpl in Ha. split; [tauto|].
    unfold iset_mem. rewrite !Exists_exists. unfold ival_nonempty in *.
    intros [(i & Hi & Hv)|[Hv|(i & Hi & Hv)]]; [|done|]; exfalso;
      rewrite Forall_forall in *.
    + specialize (Hla i Hi). unfold gap, ival_mem in *. lia.
    + specialize (Hk i Hi). specialize (Hnk i Hi). rewrite comparator_spec in Hk.
      unfold ival_mem in *. simpl in Hk. lia.
Qed.

(** A non-empty interval whose points are all in the set lies in one interval. *)
Lemma iset_cover_single s i :
  iset_ok s -> ival_nonempty i ->
  (forall v, ival_mem v i -> iset_mem v s) <-> exists e, e ∈ s /\ Interval_Contains e i = true.
Proof.
  intros Hok Hi. split.
  - induction s as [|e s IH]; intros H.
    + exfalso. apply (iset_mem_nil (min_ i)), H. unfold ival_mem, ival_nonempty in *. lia.
    + apply iset_ok_cons in Hok as (He & Hok & Hg). unfold ival_nonempty in *.
      assert (forall v, v <= max_ e -> ~ iset_mem v s) as Hout.
      { unfold iset_mem. intros v Hv (j & Hj & Hm)%Exists_exists.
        rewrite Forall_forall in Hg. specialize (Hg j Hj). unfold gap, ival_mem in *. lia. }
      pose proof (H (min_ i)) as Hmin. rewrite iset_mem_cons in Hmin.
      destruct Hmin as [Hmin|Hmin]; [unfold ival_mem; lia| |].
      * exists e. split; [left|]. apply Interval_Contains_spec. unfold ival_nonempty.
        unfold ival_mem in Hmin. split_and!; try lia.
        destruct (Z.le_gt_cases (max_ i) (max_ e)) as [|Hlt]; [done|exfalso].
        specialize (H (max_ e)). rewrite iset_mem_cons in H.
        destruct H as [H|H]; [unfold ival_mem; lia | unfold ival_mem in H; lia|].
        eapply (Hout (max_ e)); [lia|done].
      * destruct IH as (e' & He' & Hc); [done| |exists e'; split; [by right|done]].
        intros v Hv. specialize (H v Hv). rewrite iset_mem_cons in H.
        destruct H as [H|H]; [|done]. exfalso. eapply (Hout (min_ i)); [|done].
        unfold ival_mem in *. lia.
  - intros (e & He & Hc) v Hv. unfold iset_mem. apply Exists_exists. exists e. split; [done|].
    apply Interval_Contains_spec in Hc. unfold ival_mem in *. lia.
Qed.

(** [Find] returns the only interval that contains the probe, if there is one. *)
Lemma Find_spec s i :
  iset_ok s ->
  exists it, IntervalSet_Find s i = Some it /\
    (forall e, it = Some e <-> e ∈ s /\ Interval_Contains e i = true).
Proof.
  intros Hok. unfold IntervalSet_Find.
  destruct (iset_locate i s Hok)
    as [[-> Hall]|(l & a & k & -> & Ha & Hk & -> & Hb & -> & Hla & Hak & Hna & Hnl & Hnk)].
  - rewrite bool_decide_eq_true_2 by done. exists None. split; [done|]. intros e.
    split; [done|]. intros [He Hc]. rewrite Forall_forall in Hall. specialize (Hall e He).
    rewrite comparator_spec in Hall. rewrite Interval_Contains_spec in Hc. lia.
  - rewrite bool_decide_eq_false_2 by done. simpl. eexists. split; [done|]. intros e.
    rewrite comparator_false in Ha. rewrite elem_of_app, elem_of_cons. split.
    + case_if; [|done]. intros [= <-]. tauto.
    + intros [He Hc]. enough (e = a) as -> by (by rewrite Hc).
      rewrite Interval_Contains_spec in Hc. destruct Hc as (Hc1 & Hc2 & Hc3 & Hc4).
      rewrite Forall_forall in *. unfold gap, ival_nonempty in *.
      destruct He as [He|[He|He]]; [specialize (Hla e He)| done | specialize (Hk e He)]; exfalso.
      * lia.
      * rewrite comparator_spec in Hk. lia.
Qed.

Lemma Contains_Find s i :
  IntervalSet_Contains s i = it ← IntervalSet_Find s i; Some (bool_decide (is_Some it)).
Proof.
  unfold IntervalSet_Contains, IntervalSet_Find. case_if; [done|].
  destruct (set_prev _ _) as [[a|]|]; [|done|done]. simpl. case_if; done.
Qed.

Lemma Contains_exists s i :
  iset_ok s ->
  exists b, IntervalSet_Contains s i = Some b /\
    (b = true <-> exists e, e ∈ s /\ Interval_Contains e i = true).
Proof.
  intros Hok. destruct (Find_spec s i Hok) as (it & Hf & Hit).
  rewrite Contains_Find, Hf. simpl. eexists. split; [done|].
  rewrite bool_decide_eq_true. unfold is_Some. by setoid_rewrite Hit.
Qed.

Lemma Contains_spec s i :
  iset_ok s ->
  exists b, IntervalSet_Contains s i = Some b /\
    (b = true <-> ival_nonempty i /\ forall v, ival_mem v i -> iset_mem v s).
Proof.
  intros Hok. destruct (Contains_exists s i Hok) as (b & -> & Hb). exists b.
  split; [done|]. rewrite Hb. split.
  - intros (e & He & Hc). assert (ival_nonempty i) by (by apply Interval_Contains_spec in Hc as (_ & ? & _)).
    split; [done|]. apply iset_cover_single; eauto.
  - intros [Hi H]. by apply iset_cover_single.
Qed.

Lemma Spanning_min s v : iset_ok s -> iset_mem v s -> ival_mem v (IntervalSet_SpanningInterval s).
Proof.
  intros Hok Hv. unfold IntervalSet_SpanningInterval, std_begin, std_rbegin.
  destruct s as [|a s _] using rev_ind; [by apply iset_mem_nil in Hv|].
  rewrite last_snoc. apply iset_ok_app in Hok as (Hs & Ha%iset_ok_single & Hg).
  destruct s as [|b s]; simpl.
  - apply iset_mem_single in Hv. by destruct a.
  - apply iset_ok_cons in Hs as (Hb & Hs & Hbs). unfold ival_mem, ival_nonempty in *. simpl.
    rewrite iset_mem_app, iset_mem_single, iset_mem_cons in Hv. unfold iset_mem in Hv.
    rewrite Exists_exists in Hv. apply Forall_cons in Hg as [Hba Hg].
    rewrite Forall_singleton in Hba.
    unfold gap, ival_mem in *.
    destruct Hv as [[Hv|(j & Hj & Hv)]|Hv]; [lia| |lia].
    rewrite Forall_forall in Hbs, Hg. specialize (Hbs j Hj). specialize (Hg j Hj).
    rewrite Forall_singleton in Hg. lia.
Qed.

(** The ends of the spanning interval belong to the set. *)
Lemma Spanning_ends s :
  iset_ok s -> s ≠ [] ->
  let sp := IntervalSet_SpanningInterval s in
  ival_nonempty sp /\ iset_mem (min_ sp) s /\ iset_mem (max_ sp - 1) s.
Proof.
  intros Hok Hne. unfold IntervalSet_SpanningInterval, std_begin, std_rbegin.
  destruct s as [|a s _] using rev_ind; [done|].
  rewrite last_snoc. apply iset_ok_app in Hok as (Hs & Ha%iset_ok_single & Hg).
  unfold ival_nonempty in *.
  destruct s as [|b s]; simpl.
  - rewrite !iset_mem_single. unfold ival_mem. lia.
  - apply iset_ok_cons in Hs as (Hb & _ & _). unfold ival_nonempty in Hb.
    apply Forall_cons in Hg as [Hg _]. rewrite Forall_singleton in Hg. unfold gap in Hg.
    rewrite !iset_mem_cons, !iset_mem_app, !iset_mem_single. unfold ival_mem. split_and!; lia.
Qed.

Lemma Contains_each_spec s other :
  iset_ok s -> iset_ok other ->
  exists b, IntervalSet_Contains_each s other = Some b /\
    (b = true <-> forall v, iset_mem v other -> iset_mem v s).
Proof.
  intros Hok. induction other as [|i other IH]; simpl.
  - intros _. exists true. split; [done|]. split; [|done]. by intros _ v ?%iset_mem_nil.
  - intros (Hi & Ho & _)%iset_ok_cons. destruct (Contains_spec s i Hok) as (b & -> & Hb).
    destruct (IH Ho) as (b' & -> & Hb'). simpl. destruct b; simpl.
    + exists b'. split; [done|]. rewrite Hb'. setoid_rewrite iset_mem_cons.
      destruct Hb as [Hb _]. destruct (Hb eq_refl) as [_ Hb2].
      split; [intros H v [?|?]; auto | auto].
    + exists false. split; [done|]. split; [done|]. intros H. apply Hb. split; [done|].
      intros v Hv. apply H, iset_mem_cons. by left.
Qed.

Lemma Contains_set_spec s other :
  iset_ok s -> iset_ok other ->
  exists b, IntervalSet_Contains_set s other = Some b /\
    (b = true <-> other ≠ [] /\ forall v, iset_mem v other -> iset_mem v s).
Proof.
  intros Hok Ho. unfold IntervalSet_Contains_set.
  destruct (Contains_each_spec s other Hok Ho) as (b & -> & Hb).
  destruct (Interval_Contains _ _) eqn:E; simpl.
  - exists b. split; [done|]. rewrite Hb. apply Interval_Contains_spec in E.
    destruct other; [|naive_solver]. unfold IntervalSet_SpanningInterval, ival_nonempty in E.
    simpl in E. lia.
  - exists false. split; [done|]. split; [done|]. intros [Hne H]. exfalso.
    destruct (Spanning_ends other Ho Hne) as (Hsp & Hmin & Hmax).
    apply not_true_iff_false in E. apply E, Interval_Contains_iff; [done|].
    pose proof (Spanning_min s _ Hok (H _ Hmin)). pose proof (Spanning_min s _ Hok (H _ Hmax)).
    unfold ival_mem in *. lia.
Qed.

Lemma IsDisjoint_spec s i :
  iset_ok s -> ival_nonempty i ->
  exists b, IntervalSet_IsDisjoint s i = Some b /\
    (b = true <-> forall v, ival_mem v i -> ~ iset_mem v s).
Proof.
  intros Hok Hi. unfold IntervalSet_IsDisjoint.
  assert (forall j, j ∈ s -> min_ j < max_ i -> min_ i < max_ j ->
            ~ (forall v, ival_mem v i -> ~ iset_mem v s)) as Hcl.
  { intros j Hj H1 H2 H. apply (H (Z.max (min_ i) (min_ j))).
    - unfold ival_mem, ival_nonempty in *. lia.
    - apply Exists_exists. exists j. split; [done|]. destruct Hok as [_ Hne].
      rewrite Forall_forall in Hne. specialize (Hne j Hj). unfold ival_mem, ival_nonempty in *. lia. }
  assert ((forall j, j ∈ s -> max_ i <= min_ j \/ max_ j <= min_ i) ->
            forall v, ival_mem v i -> ~ iset_mem v s) as Hdj.
  { unfold iset_mem. intros H v Hv (j & Hj & Hvj)%Exists_exists. specialize (H j Hj).
    unfold ival_mem in *. lia. }
  destruct (iset_locate (MkInterval (min_ i) (min_ i)) s Hok)
    as [[-> Hall]|(l & a & k & -> & Ha & Hk & -> & Hb & Hp & Hla & Hak & Hna & Hnl & Hnk)].
  - destruct s as [|j s]; simpl in *.
    + exists true. split; [done|]. split; [|done]. intros _ v _ ?%iset_mem_nil. done.
    + pose proof Hok as (Hj & _ & Hg)%iset_ok_cons. unfold ival_nonempty in *.
      apply Forall_cons in Hall as [Hall _]. rewrite comparator_spec in Hall. simpl in Hall.
      case_if.
      * exists false. split; [done|]. split; [done|]. intros H. exfalso.
        eapply (Hcl j); [by left | blia | lia | done].
      * rewrite bool_decide_eq_true_2 by done. exists true. split; [done|].
        split; [|done]. intros _. apply Hdj. intros j' [->|Hj']%elem_of_cons; [blia|].
        rewrite Forall_forall in Hg. specialize (Hg j' Hj'). unfold gap in Hg. blia.
  - rewrite comparator_false in Ha. simpl in Ha. unfold ival_nonempty in *.
    destruct k as [|j k]; simpl in *; [|case_if].
    2:{ exists false. split; [done|]. split; [done|]. intros H. exfalso.
        apply Forall_cons in Hk as [Hk _]. rewrite comparator_spec in Hk. simpl in Hk.
        apply Forall_cons in Hnk as [Hnk _].
        eapply (Hcl j); [set_solver | blia | lia | done]. }
    all: rewrite bool_decide_eq_false_2, Hp by done; simpl; eexists; (split; [done|]);
      rewrite Z.leb_le; (split; [|intros H; apply Z.nlt_ge; intros Hlt;
        eapply (Hcl a); [set_solver | lia | done | done]]); intros Hle; apply Hdj;
      intros j' Hj'; rewrite elem_of_app, ?elem_of_cons in Hj';
      rewrite ?Forall_cons in *; rewrite Forall_forall in Hla.
    + destruct Hj' as [Hj'|[->|Hj']]; [|lia|by apply not_elem_of_nil in Hj'].
      specialize (Hla j' Hj'). unfold gap in Hla. lia.
    + destruct Hk as [_ Hk]. destruct Hak as [_ Hak]. rewrite Forall_forall in Hk.
      apply iset_ok_app in Hok as (_ & (_ & (_ & _ & Hjk)%iset_ok_cons & _)%iset_ok_cons & _).
      rewrite Forall_forall in Hjk.
      destruct Hj' as [Hj'|[->|[->|Hj']]]; [| lia | blia |].
      * specialize (Hla j' Hj'). unfold gap in Hla. lia.
      * specialize (Hjk j' Hj'). unfold gap in Hjk. blia.
Qed.

(** ** Canonical form and equality *)

Lemma iset_mem_lb s v b : Forall (fun j => b < min_ j) s -> iset_mem v s -> b < v.
Proof.
  intros H (j & Hj & Hv)%Exists_exists. rewrite Forall_forall in H.
  specialize (H j Hj). unfold ival_mem in Hv. lia.
Qed.

(** Two valid sets with the same points are the same set of intervals. *)
Lemma iset_ext s t :
  iset_ok s -> iset_ok t -> (forall v, iset_mem v s <-> iset_mem v t) -> s = t.
Proof.
  revert t. induction s as [|a s IH]; intros [|b t] Hs Ht H; [done| | |].
  - apply iset_ok_cons in Ht as (Hb & _). exfalso. apply (iset_mem_nil (min_ b)), H.
    apply iset_mem_cons. left. unfold ival_mem, ival_nonempty in *. lia.
  - apply iset_ok_cons in Hs as (Ha & _). exfalso. apply (iset_mem_nil (min_ a)), H.
    apply iset_mem_cons. left. unfold ival_mem, ival_nonempty in *. lia.
  - apply iset_ok_cons in Hs as (Ha & Hs & Hga). apply iset_ok_cons in Ht as (Hb & Ht & Hgb).
    unfold gap, ival_nonempty in *. setoid_rewrite iset_mem_cons in H.
    pose proof (fun v => iset_mem_lb s v _ Hga) as La. pose proof (fun v => iset_mem_lb t v _ Hgb) as Lb.
    assert (a = b) as ->.
    { destruct a as [a1 a2], b as [b1 b2]. unfold ival_mem in H. simpl in *.
      assert (b1 <= a1) by (destruct (proj1 (H a1)) as [?|?%Lb]; [left|..]; lia).
      assert (a1 <= b1) by (destruct (proj2 (H b1)) as [?|?%La]; [left|..]; lia).
      assert (a1 = b1) as -> by lia. f_equal.
      assert (b2 <= a2).
      { apply Z.nlt_ge. intros Hlt. destruct (proj2 (H a2)) as [?|?%La]; [left|..]; lia. }
      assert (a2 <= b2); [|lia].
      apply Z.nlt_ge. intros Hlt. destruct (proj1 (H b2)) as [?|?%Lb]; [left|..]; lia. }
    f_equal. apply IH; [done..|]. intros v. specialize (H v). specialize (La v). specialize (Lb v).
    unfold ival_mem in H. split; intros Hv.
    + destruct (proj1 H) as [?|?]; [by right | specialize (La Hv); lia | done].
    + destruct (proj2 H) as [?|?]; [by right | specialize (Lb Hv); lia | done].
Qed.

Lemma Equals_spec s t : IntervalSet_Equals s t = true <-> s = t.
Proof.
  unfold IntervalSet_Equals. split.
  - case_if; [done|]. rewrite negb_false_iff, Nat.eqb_eq in E. revert t E.
    induction s as [|a s IH]; intros [|b t] E; simpl in *; try done. case_if; [done|].
    intros H. apply orb_false_iff in E0 as [?%negb_false_iff%Z.eqb_eq ?%negb_false_iff%Z.eqb_eq].
    rewrite (IH t) by (done || lia). f_equal. destruct a, b. simpl in *. congruence.
  - intros ->. rewrite Nat.eqb_refl. simpl. induction t as [|b t IH]; simpl; [done|].
    by rewrite !Z.eqb_refl.
Qed.

(** ** FindNextIntersectingPair *)

Lemma not_Intersects_disjoint a b :
  ival_nonempty a -> ival_nonempty b -> Interval_Intersects a b = false ->
  max_ a <= min_ b \/ max_ b <= min_ a.
Proof.
  intros Ha Hb H. apply not_true_iff_false in H. rewrite Interval_Intersects_spec in H.
  destruct (Z.le_gt_cases (max_ a) (min_ b)); [by left|].
  destruct (Z.le_gt_cases (max_ b) (min_ a)); [by right|]. exfalso. apply H. done.
Qed.

Lemma skip_spec fuel pre l bound :
  std_sorted IntervalComparator (pre ++ l) -> (length l <= fuel)%nat ->
  exists l1 l2, l = l1 ++ l2 /\ Forall (fun i => max_ i <= bound) l1 /\
    (forall i, head l2 = Some i -> bound < max_ i) /\
    IntervalSet_skip fuel (pre ++ l) (head l) bound = Some (head l2).
Proof.
  revert fuel pre. induction l as [|i l IH]; intros fuel pre Hs Hf.
  - exists [], []. split_and!; [done | constructor | done | by destruct fuel].
  - simpl in *. destruct fuel as [|fuel]; [lia|]. simpl. case_if.
    + rewrite (std_next_app IntervalComparator) by done. simpl.
      rewrite snoc_app in *. destruct (IH fuel (pre ++ [i])) as (l1 & l2 & -> & H1 & H2 & ->);
        [done|lia|]. exists (i :: l1), l2. split_and!; try done. constructor; [blia|done].
    + exists [], (i :: l). split_and!; try done. simpl. intros ? [= <-]. blia.
Qed.

Definition on_hole_of (erase : bool) : iset -> iter -> iter -> iset :=
  if erase then on_hole_erase else on_hole_keep.

Definition unless_erased (erase : bool) (r : iset) : iset := if erase then [] else r.

Lemma on_hole_spec erase dn r1 r2 :
  std_sorted IntervalComparator (dn ++ r1 ++ r2) ->
  on_hole_of erase (dn ++ r1 ++ r2) (head (r1 ++ r2)) (head r2)
    = dn ++ unless_erased erase r1 ++ r2.
Proof.
  intros Hs. destruct erase; [|done]. by apply (std_erase_range_app IntervalComparator).
Qed.

(** Everything before the bound is disjoint from everything from it on. *)
Lemma iset_apart s t b v :
  Forall (fun i => max_ i <= b) s -> Forall (fun j => b <= min_ j) t ->
  iset_mem v s -> ~ iset_mem v t.
Proof.
  intros Hs Ht (i & Hi & Hvi)%Exists_exists (j & Hj & Hvj)%Exists_exists.
  rewrite Forall_forall in Hs, Ht. specialize (Hs i Hi). specialize (Ht j Hj).
  unfold ival_mem in *. lia.
Qed.

Lemma iset_ok_min_ge a s : iset_ok (a :: s) -> Forall (fun j => min_ a <= min_ j) (a :: s).
Proof.
  intros (Ha & _ & Hg)%iset_ok_cons. constructor; [lia|]. eapply Forall_impl; [exact Hg|].
  unfold gap, ival_nonempty in *. intros. lia.
Qed.

Lemma iset_ok_unless erase dn l k :
  iset_ok (dn ++ l ++ k) -> iset_ok ((dn ++ unless_erased erase l) ++ k).
Proof.
  intros Hok. rewrite app_assoc in Hok. destruct erase; simpl; rewrite ?app_nil_r; [|done].
  apply iset_ok_app in Hok as ((Ha & _ & _)%iset_ok_app & Hb & Hc).
  apply iset_ok_app. split_and!; try done. by apply Forall_app in Hc as [??].
Qed.

(** The outcome of the search for the next intersecting pair, started with
    [mine] at [rest] and [theirs] at [tr]: the skipped prefix [r1] of [rest] is
    disjoint from [tr], the skipped prefix [t1] of [tr] is disjoint from what
    remains, and the search stops at an intersecting pair or with nothing left. *)
Definition pair_outcome (erase : bool) (dn rest tr : iset)
    (res : option (bool * iset * iter * iter)) : Prop :=
  exists r1 r2 t1 t2, rest = r1 ++ r2 /\ tr = t1 ++ t2 /\
    (forall v, iset_mem v r1 -> ~ iset_mem v tr) /\
    (forall v, iset_mem v t1 -> ~ iset_mem v r2) /\
    ((exists m r2' t t2', r2 = m :: r2' /\ t2 = t :: t2' /\ Interval_Intersects m t = true /\
        res = Some (true, dn ++ unless_erased erase r1 ++ r2, Some m, Some t)) \/
     (r2 = [] /\ exists a b, res = Some (false, dn ++ unless_erased erase r1, a, b))).

Lemma pair_outcome_skip erase dn l1 l2 k1 k2 res :
  (forall v, iset_mem v l1 -> ~ iset_mem v (k1 ++ k2)) ->
  (forall v, iset_mem v k1 -> ~ iset_mem v l2) ->
  pair_outcome erase (dn ++ unless_erased erase l1) l2 k2 res ->
  pair_outcome erase dn (l1 ++ l2) (k1 ++ k2) res.
Proof.
  intros H1 H2 (r1 & r2 & t1 & t2 & -> & -> & Hr & Ht & Hres).
  exists (l1 ++ r1), r2, (k1 ++ t1), t2. rewrite <- !app_assoc.
  assert (unless_erased erase (l1 ++ r1) = unless_erased erase l1 ++ unless_erased erase r1) as Heq
    by (by destruct erase).
  split_and!; try done.
  - intros v. rewrite iset_mem_app. intros [Hv|Hv]; [by apply H1|]. specialize (Hr v Hv).
    specialize (H2 v). rewrite !iset_mem_app in *. tauto.
  - intros v. rewrite iset_mem_app. intros [Hv|Hv]; [|by apply Ht]. specialize (H2 v Hv).
    rewrite iset_mem_app in H2. tauto.
  - rewrite Heq, <- !app_assoc. rewrite <- !app_assoc in Hres. done.
Qed.

Lemma FindNextIntersectingPair_loop_spec erase fuel dn rest td tr :
  iset_ok (dn ++ rest) -> iset_ok (td ++ tr) -> rest ≠ [] -> tr ≠ [] ->
  (length rest + length tr <= fuel)%nat ->
  pair_outcome erase dn rest tr
    (IntervalSet_FindNextIntersectingPair_loop fuel (on_hole_of erase) (dn ++ rest) (td ++ tr)
       (head rest) (head tr)).
Proof.
  revert dn rest td tr. induction fuel as [|fuel IH]; intros dn rest td tr Hok Hoko Hr Ht Hf.
  { destruct rest; simpl in Hf; [done|lia]. }
  destruct rest as [|m rest]; [done|]. destruct tr as [|t tr]; [done|]. simpl.
  destruct (Interval_Intersects m t) eqn:Emt.
  { exists [], (m :: rest), [], (t :: tr). split_and!; try done; [by intros v ?%iset_mem_nil..|].
    left. exists m, rest, t, tr. split_and!; try done. by destruct erase. }
  pose proof Hok as (Hokd & Hokr & _)%iset_ok_app. pose proof Hoko as (_ & Hokt & _)%iset_ok_app.
  destruct (skip_spec (length (dn ++ m :: rest)) dn (m :: rest) (min_ t))
    as (l1 & l2 & Hl & Hl1 & Hl2 & Hskip); [by apply iset_ok_sorted | rewrite length_app; lia |].
  simpl in Hskip. rewrite Hskip. simpl. rewrite Hl in *.
  assert (forall v, iset_mem v l1 -> ~ iset_mem v (t :: tr)) as Hdis.
  { intros v. apply (iset_apart _ _ (min_ t)); [done|]. by apply iset_ok_min_ge. }
  assert (Some m = head (l1 ++ l2)) as Hhead by (by rewrite <- Hl).
  rewrite Hhead, on_hole_spec by (by apply iset_ok_sorted).
  destruct l2 as [|m' l2]; simpl.
  { exists l1, [], [], (t :: tr). split_and!; try done; [by intros v ?%iset_mem_nil|].
    right. split; [done|]. rewrite app_nil_r. eauto. }
  destruct (skip_spec (length (td ++ t :: tr)) td (t :: tr) (min_ m'))
    as (k1 & k2 & Hk & Hk1 & Hk2 & Hskip'); [by apply iset_ok_sorted | rewrite length_app; lia |].
  simpl in Hskip'. rewrite Hskip'. simpl. rewrite Hk in *.
  pose proof Hokr as (_ & Hokm & _)%iset_ok_app.
  assert (forall v, iset_mem v k1 -> ~ iset_mem v (m' :: l2)) as Hdis'.
  { intros v. apply (iset_apart _ _ (min_ m')); [done|]. by apply iset_ok_min_ge. }
  destruct k2 as [|t' k2]; simpl.
  { exists (l1 ++ m' :: l2), [], k1, []. rewrite !app_nil_r in *. split_and!; try done.
    - intros v. rewrite iset_mem_app. intros [Hv|Hv]; [by apply Hdis|].
      intros Hv'. by apply (Hdis' v).
    - by intros v _ ?%iset_mem_nil.
    - right. split; [done|]. eexists _, _. do 3 f_equal.
      pose proof (on_hole_spec erase (dn ++ unless_erased erase l1) (m' :: l2) []) as Ho.
      rewrite !app_nil_r in Ho. simpl in Ho. rewrite app_assoc, Ho.
      + destruct erase; simpl; by rewrite ?app_nil_r, <- ?app_assoc.
      + by apply iset_ok_sorted, iset_ok_unless. }
  rewrite app_assoc, (app_assoc td). apply pair_outcome_skip; [done..|].
  apply (IH _ (m' :: l2) _ (t' :: k2)); try done.
  - by apply iset_ok_unless.
  - by rewrite <- app_assoc.
  - assert (l1 ≠ [] \/ k1 ≠ []) as Hn.
    { destruct l1; [|by left]. destruct k1; [|by right]. exfalso. simpl in *.
      injection Hl as -> _. injection Hk as -> _. specialize (Hl2 _ eq_refl).
      specialize (Hk2 _ eq_refl). apply iset_ok_cons in Hokm as (Hm & _).
      apply iset_ok_cons in Hokt as (Ht' & _).
      destruct (not_Intersects_disjoint _ _ Hm Ht' Emt); lia. }
    rewrite !length_app in Hf. simpl in *.
    destruct Hn; [destruct l1; [done|] | destruct k1; [done|]]; simpl in *; lia.
Qed.

Lemma FindNextIntersectingPair_spec erase dn rest td tr :
  iset_ok (dn ++ rest) -> iset_ok (td ++ tr) -> tr ≠ [] ->
  pair_outcome erase dn rest tr
    (IntervalSet_FindNextIntersectingPairImpl (on_hole_of erase) (dn ++ rest) (td ++ tr)
       (head rest) (head tr)).
Proof.
  intros Hok Hoko Ht. unfold IntervalSet_FindNextIntersectingPairImpl.
  destruct rest as [|m rest].
  - exists [], [], [], tr. split_and!; try done; [by intros v ?%iset_mem_nil..|].
    right. split; [done|]. destruct tr; [done|]. destruct erase; eauto.
  - destruct tr as [|t tr]; [done|].
    apply (FindNextIntersectingPair_loop_spec _ _ _ (m :: rest) _ (t :: tr)); try done.
    rewrite !length_app. lia.
Qed.

Lemma FindIntersectionCandidate_spec s o :
  iset_ok s ->
  exists dn rest, s = dn ++ rest /\
    IntervalSet_FindIntersectionCandidate s o = Some (head rest) /\
    Forall (fun d => max_ d <= min_ o) dn /\ (s ≠ [] -> rest ≠ []).
Proof.
  intros Hok. unfold IntervalSet_FindIntersectionCandidate.
  destruct (iset_locate o s Hok)
    as [[-> Hall]|(l & a & k & -> & Ha & Hk & -> & Hb & Hp & Hla & Hak & Hna & Hnl & Hnk)].
  - rewrite bool_decide_eq_true_2 by done. exists [], s. split_and!; try done.
  - rewrite bool_decide_eq_false_2, Hp by done. exists l, (a :: k). split_and!; try done.
    rewrite comparator_false in Ha. eapply Forall_impl; [exact Hla|]. unfold gap. intros; lia.
Qed.

(** ** Difference *)

(** A valid list stays valid when one interval is replaced by parts of it. *)
Lemma iset_ok_replace l m k parts :
  iset_ok (l ++ m :: k) -> iset_ok parts ->
  Forall (fun p => min_ m <= min_ p /\ max_ p <= max_ m) parts ->
  iset_ok (l ++ parts ++ k).
Proof.
  intros (Hl & (Hm & Hk & Hmk)%iset_ok_cons & Hlm)%iset_ok_app Hp Hin.
  rewrite !iset_ok_app. split_and!; try done.
  - rewrite Forall_forall in *. intros p Hpp. apply Forall_forall. intros j Hj.
    specialize (Hin p Hpp). specialize (Hmk j Hj). unfold gap in *. lia.
  - rewrite Forall_forall in *. intros d Hd. specialize (Hlm d Hd).
    apply Forall_cons in Hlm as [Hdm Hdk]. apply Forall_app. split; [|done].
    apply Forall_forall. intros p Hpp. specialize (Hin p Hpp). unfold gap in *. lia.
Qed.

(** On intersecting intervals [Difference] keeps what lies left and right of [t]. *)
Lemma Difference_split m t :
  Interval_Intersects m t = true ->
  Interval_Difference m t =
    (true, if min_ m <? min_ t then MkInterval (min_ m) (min_ t) else Interval_default,
           if max_ t <? max_ m then MkInterval (max_ t) (max_ m) else Interval_default).
Proof.
  rewrite Interval_Intersects_spec. intros H.
  unfold Interval_Difference, Interval_Empty, ival_nonempty in *.
  repeat case_if; try done; exfalso; lia.
Qed.

Definition parts_of (i : Interval) : iset := if Interval_Empty i then [] else [i].

Lemma parts_of_nonempty i : min_ i < max_ i -> parts_of i = [i].
Proof. unfold parts_of. intros H%Interval_Empty_false. by rewrite H. Qed.

Lemma parts_of_default : parts_of Interval_default = [].
Proof. done. Qed.

Lemma parts_of_mem v i : iset_mem v (parts_of i) <-> ival_mem v i.
Proof.
  unfold parts_of. destruct (Interval_Empty i) eqn:E; [|by rewrite iset_mem_single].
  rewrite iset_mem_nil. apply Interval_Empty_spec in E. unfold ival_mem, ival_nonempty in *. lia.
Qed.

Lemma insert_parts l i k :
  iset_ok (l ++ parts_of i ++ k) ->
  (if negb (Interval_Empty i) then set_insert i (l ++ k) else l ++ k) = l ++ parts_of i ++ k.
Proof.
  unfold parts_of. destruct (Interval_Empty i); simpl; [done|]. intros H%iset_ok_sorted.
  apply std_sorted_mid in H as (_ & _ & H1 & H2 & _).
  by rewrite (std_insert_app IntervalComparator).
Qed.

(** The two pieces left of [m] after removing [t], between [l] and [k]. *)
Lemma Difference_pieces l m t k :
  iset_ok (l ++ m :: k) -> Interval_Intersects m t = true ->
  forall lo hi b, Interval_Difference m t = (b, lo, hi) ->
  iset_ok (l ++ parts_of lo ++ parts_of hi ++ k) /\
  Interval_Intersects hi t = false /\
  (forall v, ival_mem v lo -> v < min_ t) /\
  (forall v, ival_mem v m /\ ~ ival_mem v t <-> ival_mem v lo \/ ival_mem v hi) /\
  (forall v, ival_mem v lo \/ ival_mem v hi -> ival_mem v m).
Proof.
  intros Hok Hi lo hi b. rewrite (Difference_split _ _ Hi). intros [= <- <- <-].
  apply Interval_Intersects_spec in Hi as (Hm & Ht & H1 & H2). unfold ival_nonempty in *.
  split_and!.
  - rewrite (app_assoc (parts_of _)). eapply iset_ok_replace; [exact Hok| |].
    + repeat case_if; bool_to_prop; rewrite ?parts_of_default, ?parts_of_nonempty by (simpl; lia);
        simpl; rewrite ?iset_ok_cons, ?Forall_cons, ?Forall_nil; pose proof iset_ok_nil;
        unfold ival_nonempty, gap; simpl; split_and?; first [done | lia].
    + repeat case_if; bool_to_prop; rewrite ?parts_of_default, ?parts_of_nonempty by (simpl; lia);
        simpl; rewrite ?Forall_cons, ?Forall_nil; simpl; split_and?; first [done | lia].
  - apply not_true_iff_false. rewrite Interval_Intersects_spec. unfold ival_nonempty.
    case_if; simpl; blia.
  - intros v. unfold ival_mem. case_if; simpl; blia.
  - intros v. unfold ival_mem. repeat case_if; simpl; blia.
  - intros v. unfold ival_mem. repeat case_if; simpl; blia.
Qed.

(** Whether the two iterators stand at an intersecting pair. *)
Definition heads_meet (rest tr : iset) : nat :=
  match rest, tr with
  | m :: _, t :: _ => if Interval_Intersects m t then 1%nat else 0%nat
  | _, _ => 0%nat
  end.

Lemma heads_meet_le rest tr : (heads_meet rest tr <= 1)%nat.
Proof. destruct rest, tr; simpl; try lia. case_if; lia. Qed.

(** One turn of the loop body, from an intersecting pair to the next state. *)
Lemma Difference_body l m t k :
  iset_ok (l ++ m :: k) -> Interval_Intersects m t = true ->
  let '(_, lo, hi) := Interval_Difference m t in
  let s1 := std_erase m (l ++ m :: k) in
  let s2 := if negb (Interval_Empty lo) then set_insert lo s1 else s1 in
  (if negb (Interval_Empty hi) then (set_insert hi s2, Some hi) else (s2, head k))
  = ((l ++ parts_of lo) ++ parts_of hi ++ k, head (parts_of hi ++ k)).
Proof.
  intros Hok Hi. destruct (Interval_Difference m t) as [[b lo] hi] eqn:Ed.
  destruct (Difference_pieces _ _ _ _ Hok Hi _ _ _ Ed) as (Hp & _).
  rewrite (std_erase_app IntervalComparator) by (by apply iset_ok_sorted). simpl.
  assert (iset_ok (l ++ parts_of lo ++ k)) as Hlo.
  { rewrite app_assoc in Hp. apply iset_ok_app in Hp as (H1 & H2 & H3).
    apply iset_ok_app in H2 as (_ & H2 & _). rewrite app_assoc. apply iset_ok_app.
    split_and!; try done. eapply Forall_impl; [exact H3|]. intros d. rewrite Forall_app. tauto. }
  rewrite (insert_parts l lo k Hlo). rewrite (app_assoc l (parts_of lo)).
  rewrite (app_assoc l (parts_of lo)) in Hp. pose proof (insert_parts _ _ _ Hp) as Hhi.
  assert (parts_of hi = if Interval_Empty hi then [] else [hi]) as Heq by done.
  destruct (Interval_Empty hi); simpl in *; rewrite ?Hhi, Heq; done.
Qed.

Lemma Difference_loop_spec fuel dn rest td tr :
  iset_ok (dn ++ rest) -> iset_ok (td ++ tr) -> tr ≠ [] ->
  (length rest + length tr + heads_meet rest tr < fuel)%nat ->
  exists s', IntervalSet_Difference_loop fuel (dn ++ rest) (td ++ tr) (head rest) (head tr) = Some s' /\
    iset_ok s' /\
    forall v, iset_mem v s' <-> iset_mem v dn \/ (iset_mem v rest /\ ~ iset_mem v tr).
Proof.
  revert dn rest td tr. induction fuel as [|fuel IH]; intros dn rest td tr Hok Ho Ht Hf; [lia|].
  simpl.
  destruct (FindNextIntersectingPair_spec false dn rest td tr Hok Ho Ht)
    as (r1 & r2 & t1 & t2 & -> & -> & Hr & Hdj & Hres). simpl in Hres.
  destruct Hres as [(m & r2' & t & t2' & -> & -> & Hi & ->)|(-> & a & b & ->)]; simpl.
  2:{ exists (dn ++ r1). rewrite app_nil_r in *. split_and!; try done. intros v.
      specialize (Hr v). rewrite !iset_mem_app in *. tauto. }
  rewrite (app_assoc dn) in *.
  rewrite (std_next_app IntervalComparator) by (by apply iset_ok_sorted). simpl.
  pose proof (Difference_body _ _ _ _ Hok Hi) as Hb.
  destruct (Interval_Difference m t) as [[b lo] hi] eqn:Ed. simpl in Hb. rewrite Hb.
  destruct (Difference_pieces _ _ _ _ Hok Hi _ _ _ Ed) as (Hp & Hht & Hlo & Hm & Hsub).
  rewrite (app_assoc td). destruct (IH ((dn ++ r1) ++ parts_of lo) (parts_of hi ++ r2')
    (td ++ t1) (t :: t2')) as (s' & Hl & Hok' & Hs').
  - by rewrite <- app_assoc.
  - by rewrite <- app_assoc.
  - done.
  - assert (heads_meet (parts_of hi ++ r2') (t :: t2') + length (parts_of hi) <= 1)%nat as Hh.
    { unfold parts_of. case_if; simpl; [pose proof (heads_meet_le r2' (t :: t2')); lia|].
      by rewrite Hht. }
    rewrite !length_app in *. simpl in Hf.
    destruct r1 as [|? r1]; simpl in *; [|lia]. destruct t1; simpl in *; [|lia].
    rewrite Hi in Hf. lia.
  - exists s'. split_and!; [done..|]. intros v. rewrite Hs'. clear Hs' Hl IH Hb.
    specialize (Hr v). specialize (Hdj v). specialize (Hm v). specialize (Hsub v).
    specialize (Hlo v). rewrite ?iset_mem_app, ?iset_mem_cons, ?parts_of_mem in *.
    assert (ival_mem v lo -> ~ iset_mem v t2') as Hlt.
    { intros Hv Hv'. specialize (Hlo Hv). apply iset_ok_app in Ho as (_ & Ho & _).
      apply iset_ok_app in Ho as (_ & (Hne & _ & Ho)%iset_ok_cons & _).
      pose proof (iset_mem_lb _ _ _ Ho Hv'). unfold ival_nonempty in Hne. lia. }
    assert (ival_mem v t -> ~ ival_mem v lo) as Hlt2
      by (intros Hv1 Hv2; specialize (Hlo Hv2); unfold ival_mem in Hv1; lia).
    assert (ival_mem v t \/ ~ ival_mem v t) as Hdec by (unfold ival_mem; lia).
    tauto.
Qed.

(** Sets whose spans do not meet have no common point. *)
Lemma Spanning_disjoint s other v :
  iset_ok s -> iset_ok other ->
  Interval_Intersects (IntervalSet_SpanningInterval s) (IntervalSet_SpanningInterval other) = false ->
  iset_mem v s -> ~ iset_mem v other.
Proof.
  intros Hs Ho H Hv Hv'. apply not_true_iff_false in H. apply H, Interval_Intersects_iff.
  exists v. split; by apply Spanning_min.
Qed.

(** The starting point shared by [Intersection] and [Difference]. *)
Lemma candidates_spec s other :
  iset_ok s -> iset_ok other -> s ≠ [] -> other ≠ [] ->
  exists dn rest, s = dn ++ rest /\ rest ≠ [] /\
    IntervalSet_FindIntersectionCandidate_set s other = Some (head rest) /\
    forall v, iset_mem v dn -> ~ iset_mem v other.
Proof.
  intros Hs Ho Hne Hneo. destruct other as [|o other]; [done|].
  unfold IntervalSet_FindIntersectionCandidate_set. simpl.
  destruct (FindIntersectionCandidate_spec s o Hs) as (dn & rest & -> & -> & Hd & Hr).
  exists dn, rest. split_and!; [done | by apply Hr | done |]. intros v.
  apply (iset_apart _ _ (min_ o)); [done|]. by apply iset_ok_min_ge.
Qed.

Lemma Spanning_meet_nonempty s other :
  Interval_Intersects (IntervalSet_SpanningInterval s) (IntervalSet_SpanningInterval other) = true ->
  s ≠ [] /\ other ≠ [].
Proof.
  intros H%Interval_Intersects_spec. unfold IntervalSet_SpanningInterval, ival_nonempty in H.
  split; intros ->; simpl in H; lia.
Qed.

Lemma Difference_set_spec s other :
  iset_ok s -> iset_ok other ->
  exists s', IntervalSet_Difference_set s other = Some s' /\ iset_ok s' /\
    forall v, iset_mem v s' <-> iset_mem v s /\ ~ iset_mem v other.
Proof.
  intros Hs Ho. unfold IntervalSet_Difference_set.
  destruct (Interval_Intersects _ _) eqn:E; simpl.
  - apply Spanning_meet_nonempty in E as [Hne Hneo].
    destruct (candidates_spec s other Hs Ho Hne Hneo) as (dn & rest & Hsplit & Hr & -> & Hd).
    destruct (candidates_spec other s Ho Hs Hneo Hne) as (td & tr & Hsplit' & Ht & Hc & Hd').
    simpl. rewrite Hc. subst s other.
    destruct (Difference_loop_spec (S (S (length (dn ++ rest) + length (td ++ tr)))) dn rest td tr)
      as (s' & Hl & Hok & Hm); try done.
    { pose proof (heads_meet_le rest tr). rewrite !length_app. lia. }
    exists s'. split_and!; [destruct rest; [done|]; simpl in *; exact Hl | done |].
    intros v. rewrite Hm. specialize (Hd v). specialize (Hd' v). rewrite !iset_mem_app in *. tauto.
  - exists s. split_and!; try done. intros v. pose proof (Spanning_disjoint s other v Hs Ho E). tauto.
Qed.

Lemma of_interval_spec i :
  exists t, IntervalSet_of_interval i = Some t /\ iset_ok t /\
    forall v, iset_mem v t <-> ival_mem v i.
Proof.
  destruct (Add_spec [] i iset_ok_nil) as (t & Ht & Hok & Hm). exists t.
  split_and!; try done. intros v. rewrite Hm, iset_mem_nil. tauto.
Qed.

Lemma Difference_spec s i :
  iset_ok s ->
  exists s', IntervalSet_Difference s i = Some s' /\ iset_ok s' /\
    forall v, iset_mem v s' <-> iset_mem v s /\ ~ ival_mem v i.
Proof.
  intros Hs. unfold IntervalSet_Difference. destruct (Interval_Intersects _ i) eqn:E; simpl.
  - destruct (of_interval_spec i) as (t & -> & Ht & Hm). simpl.
    destruct (Difference_set_spec s t Hs Ht) as (s' & -> & Hok & Hm'). exists s'.
    split_and!; try done. intros v. by rewrite Hm', Hm.
  - exists s. split_and!; try done. intros v. split; [|tauto]. intros Hv. split; [done|].
    intros Hv'. apply not_true_iff_false in E. apply E, Interval_Intersects_iff.
    exists v. split; [by apply Spanning_min|done].
Qed.

Lemma Complement_spec s mn mx :
  iset_ok s ->
  exists s', IntervalSet_Complement s mn mx = Some s' /\ iset_ok s' /\
    forall v, iset_mem v s' <-> mn <= v < mx /\ ~ iset_mem v s.
Proof.
  intros Hs. unfold IntervalSet_Complement.
  destruct (of_interval_spec (MkInterval mn mx)) as (t & Ht & Hok & Hm).
  unfold IntervalSet_of_interval in Ht. unfold IntervalSet_of_range, IntervalSet_Add_range.
  rewrite Ht. simpl. destruct (Difference_set_spec t s Hok Hs) as (s' & -> & Hok' & Hm').
  exists s'. split_and!; try done. intros v. by rewrite Hm', Hm.
Qed.

(** ** Intersection *)

Lemma Intersects_out_spec i t :
  Interval_Intersects_out i t =
    if Interval_Intersects i t
    then Some (MkInterval (Z.max (min_ i) (min_ t)) (Z.min (max_ i) (max_ t))) else None.
Proof. unfold Interval_Intersects_out. by destruct (Interval_Intersects i t). Qed.

(** The inner loop cuts [i] along the stretch [t1] of [tr] that meets it.  [ps]
    are the pieces inserted so far, all left of what is still to come. *)
Lemma Intersection_inner_spec fuel dn ps r2 td tr i :
  iset_ok (dn ++ i :: r2) -> iset_ok (td ++ tr) -> iset_ok ps ->
  Forall (fun p => min_ i <= min_ p /\ max_ p <= max_ i) ps ->
  Forall (fun p => Forall (gap p) tr) ps ->
  (length tr <= fuel)%nat ->
  exists qs t1 t2, tr = t1 ++ t2 /\
    IntervalSet_Intersection_inner fuel (dn ++ ps ++ r2) (td ++ tr) i (last ps) (head tr)
      = Some (dn ++ (ps ++ qs) ++ r2, last (ps ++ qs), head t2) /\
    iset_ok (ps ++ qs) /\
    Forall (fun p => min_ i <= min_ p /\ max_ p <= max_ i) (ps ++ qs) /\
    Forall (fun t => Interval_Intersects i t = true) t1 /\
    (forall t, head t2 = Some t -> Interval_Intersects i t = false) /\
    (t1 ≠ [] -> qs ≠ []) /\
    (forall v, iset_mem v qs <-> ival_mem v i /\ iset_mem v t1).
Proof.
  revert fuel ps td. induction tr as [|t tr IH]; intros fuel ps td Hok Ho Hps Hin Hg Hf; simpl.
  { exists [], [], []. rewrite !app_nil_r. split_and!; try done; [by destruct fuel|].
    intros v. rewrite iset_mem_nil. tauto. }
  destruct fuel as [|fuel]; simpl in *; [lia|]. rewrite Intersects_out_spec.
  destruct (Interval_Intersects i t) eqn:Ei.
  2:{ exists [], [], (t :: tr). rewrite !app_nil_r. split_and!; try done.
      - simpl. by intros ? [= <-].
      - intros v. rewrite iset_mem_nil. tauto. }
  pose proof Ei as (Hi & Ht & H1 & H2)%Interval_Intersects_spec. unfold ival_nonempty in *.
  set (x := MkInterval (Z.max (min_ i) (min_ t)) (Z.min (max_ i) (max_ t))).
  pose proof Ho as (_ & (_ & Hokt & Hgt)%iset_ok_cons & _)%iset_ok_app.
  assert (iset_ok (ps ++ [x])) as Hps'.
  { apply iset_ok_app. split_and!; [done | apply iset_ok_single; unfold ival_nonempty; simpl; lia |].
    eapply Forall_impl; [exact Hg|]. intros p. rewrite !Forall_cons, Forall_nil.
    unfold gap. simpl. lia. }
  assert (Forall (fun p => min_ i <= min_ p /\ max_ p <= max_ i) (ps ++ [x])) as Hin'.
  { apply Forall_app. split; [done|]. constructor; [simpl; lia|done]. }
  assert (set_insert x (dn ++ ps ++ r2) = dn ++ (ps ++ [x]) ++ r2) as ->.
  { pose proof (iset_ok_replace _ _ _ _ Hok Hps' Hin') as Hok'%iset_ok_sorted.
    rewrite <- app_assoc, app_assoc in Hok'. simpl in Hok'.
    apply std_sorted_mid in Hok' as (_ & _ & Ha & Hb & _).
    rewrite app_assoc, (std_insert_app IntervalComparator) by done.
    by rewrite <- !app_assoc. }
  rewrite (std_next_app IntervalComparator) by (by apply iset_ok_sorted). simpl.
  rewrite (snoc_app td).
  destruct (IH fuel (ps ++ [x]) (td ++ [t])) as (qs & t1 & t2 & -> & Hl & Hq1 & Hq2 & Hq3 & Hq4 & _ & Hq5);
    try done; [by rewrite <- snoc_app | | lia |].
  { apply Forall_app. split.
    - eapply Forall_impl; [exact Hg|]. intros p. rewrite Forall_cons. tauto.
    - constructor; [|done]. eapply Forall_impl; [exact Hgt|]. unfold gap. simpl. intros; lia. }
  exists (x :: qs), (t :: t1), t2. rewrite last_snoc in Hl. rewrite (snoc_app ps x qs).
  split_and!; try done; [by constructor|]. intros v. rewrite !iset_mem_cons, Hq5.
  enough (ival_mem v x <-> ival_mem v i /\ ival_mem v t) by tauto.
  unfold ival_mem, x. simpl. lia.
Qed.

Lemma Intersection_loop_spec fuel dn rest td tr :
  iset_ok (dn ++ rest) -> iset_ok (td ++ tr) -> tr ≠ [] ->
  (length rest < fuel)%nat ->
  exists s', IntervalSet_Intersection_loop fuel (dn ++ rest) (td ++ tr) (head rest) (head tr) = Some s' /\
    iset_ok s' /\
    forall v, iset_mem v s' <-> iset_mem v dn \/ (iset_mem v rest /\ iset_mem v tr).
Proof.
  revert dn rest td tr. induction fuel as [|fuel IH]; intros dn rest td tr Hok Ho Ht Hf; [lia|].
  simpl.
  destruct (FindNextIntersectingPair_spec true dn rest td tr Hok Ho Ht)
    as (r1 & r2 & t1 & t2 & -> & -> & Hr & Hdj & Hres). simpl in Hres.
  destruct Hres as [(m & r2' & t & t2' & -> & -> & Hi & ->)|(-> & a & b & ->)]; simpl.
  2:{ exists dn. rewrite !app_nil_r in *. split_and!; [done | by apply iset_ok_app in Hok as (? & _) |].
      intros v. specialize (Hr v). tauto. }
  pose proof (iset_ok_unless true dn r1 _ Hok) as Hokm. simpl in Hokm. rewrite app_nil_r in Hokm.
  rewrite (std_erase_app IntervalComparator) by (by apply iset_ok_sorted).
  rewrite (app_assoc td) in *.
  destruct (Intersection_inner_spec (length ((td ++ t1) ++ t :: t2')) dn [] r2' (td ++ t1) (t :: t2') m)
    as (qs & u1 & u2 & Hu & Hl & Hq1 & Hq2 & Hq3 & Hq4 & Hq5 & Hq6);
    try done; [apply iset_ok_nil | by rewrite !length_app; lia |].
  simpl in Hl. rewrite Hl. simpl. clear Hl.
  destruct u1 as [|u u1 _] using rev_ind.
  { simpl in Hu. subst u2. rewrite (Hq4 t eq_refl) in Hi. done. }
  rewrite <- app_assoc in Hu. simpl in Hu. rewrite Hu in Hr, Ho |- *.
  rewrite (app_assoc (td ++ t1) u1) in Ho |- *.
  rewrite (std_prev_app IntervalComparator ((td ++ t1) ++ u1) u u2) by (by apply iset_ok_sorted).
  simpl. simpl in Hq1, Hq2. pose proof (iset_ok_replace _ _ _ _ Hokm Hq1 Hq2) as Hok'.
  destruct qs as [|q qs _] using rev_ind; [by destruct (Hq5 ltac:(by destruct u1))|].
  rewrite last_snoc. rewrite <- app_assoc in Hok' |- *. simpl in Hok' |- *.
  rewrite app_assoc in Hok' |- *.
  rewrite (std_next_app IntervalComparator (dn ++ qs) q r2') by (by apply iset_ok_sorted). simpl.
  rewrite (snoc_app (dn ++ qs)) in Hok' |- *.
  destruct (IH ((dn ++ qs) ++ [q]) r2' ((td ++ t1) ++ u1) (u :: u2)) as (s' & Hl & Hs' & Hm); try done.
  { rewrite !length_app in Hf. simpl in Hf. lia. }
  exists s'. split_and!; [exact Hl | done |]. intros v. rewrite Hm. clear Hm IH Hl.
  specialize (Hr v). specialize (Hdj v). specialize (Hq6 v).
  apply iset_ok_app in Hokm as (_ & (Hm & _ & Hmr)%iset_ok_cons & _).
  apply iset_ok_app in Ho as (_ & (Hu0 & Hu2 & Huu)%iset_ok_cons & Hbef).
  apply Forall_app in Hq3 as [Hq3 [Hq3' _]%Forall_cons].
  apply Interval_Intersects_spec in Hq3' as (_ & _ & Hmu1 & Hmu2).
  assert (iset_mem v u1 -> ~ iset_mem v r2') as H1.
  { apply (iset_apart _ _ (max_ m)).
    - apply Forall_app in Hbef as [_ Hbef]. eapply Forall_impl; [exact Hbef|].
      intros d Hd. apply Forall_cons in Hd as [Hd _]. unfold gap in Hd. lia.
    - eapply Forall_impl; [exact Hmr|]. unfold gap. intros; lia. }
  assert (iset_mem v u2 -> ~ ival_mem v m) as H2.
  { destruct u2 as [|w u2]; [by intros ?%iset_mem_nil|]. specialize (Hq4 w eq_refl).
    pose proof Hu2 as (Hw & _)%iset_ok_cons. apply Forall_cons in Huu as [Huw _]. unfold gap in Huw.
    destruct (not_Intersects_disjoint _ _ Hm Hw Hq4); [|unfold ival_nonempty in Hw; lia].
    intros Hv Hv'. unfold ival_mem in Hv'. eapply (iset_apart [m] (w :: u2) (max_ m) v); try done.
    - constructor; [lia|done].
    - eapply Forall_impl; [by apply iset_ok_min_ge|]. simpl. intros; lia.
    - by apply iset_mem_single. }
  rewrite ?iset_mem_app, ?iset_mem_cons, ?iset_mem_nil in *. tauto.
Qed.

Lemma Intersection_spec s other :
  iset_ok s -> iset_ok other ->
  exists s', IntervalSet_Intersection s other = Some s' /\ iset_ok s' /\
    forall v, iset_mem v s' <-> iset_mem v s /\ iset_mem v other.
Proof.
  intros Hs Ho. unfold IntervalSet_Intersection.
  destruct (Interval_Intersects _ _) eqn:E; simpl.
  2:{ exists []. split_and!; [done | apply iset_ok_nil |]. intros v. rewrite iset_mem_nil.
      pose proof (Spanning_disjoint s other v Hs Ho E). tauto. }
  apply Spanning_meet_nonempty in E as [Hne Hneo].
  destruct (candidates_spec s other Hs Ho Hne Hneo) as (dn & rest & -> & Hr & -> & Hd). simpl.
  pose proof (std_erase_range_app IntervalComparator [] dn rest (iset_ok_sorted _ Hs)) as He.
  simpl in He. unfold std_begin. rewrite He. clear He.
  pose proof Hs as (_ & Hs' & _)%iset_ok_app.
  destruct (candidates_spec other rest Ho Hs' Hneo Hr) as (td & tr & -> & Ht & -> & Hd'). simpl.
  destruct (Intersection_loop_spec (S (length rest)) [] rest td tr) as (s' & Hl & Hok & Hm);
    try done; [lia|].
  exists s'. split_and!; [exact Hl | done |]. intros v. rewrite Hm. specialize (Hd v).
  specialize (Hd' v). rewrite ?iset_mem_app, ?iset_mem_nil in *. tauto.
Qed.

Lemma Intersects_spec s other :
  iset_ok s -> iset_ok other ->
  exists b, IntervalSet_Intersects s other = Some b /\
    (b = true <-> exists v, iset_mem v s /\ iset_mem v other).
Proof.
  intros Hs Ho. unfold IntervalSet_Intersects.
  destruct (Interval_Intersects _ _) eqn:E; simpl.
  2:{ exists false. split; [done|]. split; [done|]. intros (v & Hv & Hv').
      by destruct (Spanning_disjoint s other v Hs Ho E Hv). }
  apply Spanning_meet_nonempty in E as [Hne Hneo].
  destruct (candidates_spec s other Hs Ho Hne Hneo) as (dn & rest & -> & Hr & -> & Hd).
  destruct rest as [|m rest]; [done|]. simpl.
  destruct (FindIntersectionCandidate_spec other m Ho) as (td & tr & -> & -> & Hd' & Ht). simpl.
  specialize (Ht Hneo).
  pose proof Hs as (_ & Hs' & _)%iset_ok_app.
  assert (forall v, iset_mem v td -> ~ iset_mem v (m :: rest)) as Htd.
  { intros v. apply (iset_apart _ _ (min_ m)); [done|]. by apply iset_ok_min_ge. }
  destruct (FindNextIntersectingPair_spec false dn (m :: rest) td tr Hs Ho Ht)
    as (r1 & r2 & t1 & t2 & Hrs & -> & Hr1 & Hdj & Hres). simpl in Hres.
  destruct Hres as [(m' & r2' & t & t2' & -> & -> & Hi & ->)|(-> & a & b & ->)]; simpl;
    eexists; (split; [done|]); rewrite Hrs in *.
  - split; [intros _|done]. apply Interval_Intersects_iff in Hi as (v & Hv & Hv').
    exists v. rewrite !iset_mem_app, !iset_mem_cons. tauto.
  - split; [done|]. intros (v & Hv & Hv'). exfalso. rewrite app_nil_r in *.
    specialize (Hd v). specialize (Hr1 v). specialize (Htd v). rewrite !iset_mem_app in *. tauto.
Qed.

(** ** Properties *)

(** C1: adding an interval to a valid set succeeds, keeps the set valid (sorted,
    disjoint, non-adjacent, non-empty intervals) and adds exactly the points of
    the interval; an empty interval adds nothing. *)
Theorem IntervalSet_Add_correct (s : iset) (i : Interval) :
  IntervalSet_Valid s = true ->
  exists s', IntervalSet_Add s i = Some s' /\ IntervalSet_Valid s' = true /\
    forall v, iset_mem v s' <-> iset_mem v s \/ ival_mem v i.
Proof.
  intros Hs%IntervalSet_Valid_spec. destruct (Add_spec s i Hs) as (s' & ? & ? & ?).
  exists s'. by rewrite IntervalSet_Valid_spec.
Qed.

Lemma IntervalSet_Add_correct_witness :
  exists s', IntervalSet_Add [MkInterval 0 3; MkInterval 8 9] (MkInterval 3 8) = Some s' /\
    IntervalSet_Valid s' = true /\
    forall v, iset_mem v s' <-> iset_mem v [MkInterval 0 3; MkInterval 8 9]
                                \/ ival_mem v (MkInterval 3 8).
Proof. apply IntervalSet_Add_correct. reflexivity. Defined.

(** C2: union, intersection and difference of two valid sets succeed, stay
    valid and compute the union, intersection and difference of their points. *)
Theorem IntervalSet_algebra (s other : iset) :
  IntervalSet_Valid s = true -> IntervalSet_Valid other = true ->
  (exists u, IntervalSet_Union s other = Some u /\ IntervalSet_Valid u = true /\
     forall v, iset_mem v u <-> iset_mem v s \/ iset_mem v other) /\
  (exists n, IntervalSet_Intersection s other = Some n /\ IntervalSet_Valid n = true /\
     forall v, iset_mem v n <-> iset_mem v s /\ iset_mem v other) /\
  (exists d, IntervalSet_Difference_set s other = Some d /\ IntervalSet_Valid d = true /\
     forall v, iset_mem v d <-> iset_mem v s /\ ~ iset_mem v other).
Proof.
  setoid_rewrite IntervalSet_Valid_spec. intros Hs Ho.
  auto using Union_spec, Intersection_spec, Difference_set_spec.
Qed.

Lemma IntervalSet_algebra_witness :
  let s := [MkInterval 0 3; MkInterval 8 12] in
  let other := [MkInterval 2 9; MkInterval 11 20] in
  (exists u, IntervalSet_Union s other = Some u /\ IntervalSet_Valid u = true /\
     forall v, iset_mem v u <-> iset_mem v s \/ iset_mem v other) /\
  (exists n, IntervalSet_Intersection s other = Some n /\ IntervalSet_Valid n = true /\
     forall v, iset_mem v n <-> iset_mem v s /\ iset_mem v other) /\
  (exists d, IntervalSet_Difference_set s other = Some d /\ IntervalSet_Valid d = true /\
     forall v, iset_mem v d <-> iset_mem v s /\ ~ iset_mem v other).
Proof. apply IntervalSet_algebra; reflexivity. Defined.

(** The complement within a range, and removal of one interval, of a valid
    set succeed, are valid and hold exactly the remaining points. *)
Lemma IntervalSet_Complement_correct (s : iset) (i : Interval) (mn mx : Z) :
  IntervalSet_Valid s = true ->
  (exists c, IntervalSet_Complement s mn mx = Some c /\ IntervalSet_Valid c = true /\
     forall v, iset_mem v c <-> mn <= v < mx /\ ~ iset_mem v s) /\
  (exists d, IntervalSet_Difference s i = Some d /\ IntervalSet_Valid d = true /\
     forall v, iset_mem v d <-> iset_mem v s /\ ~ ival_mem v i).
Proof.
  setoid_rewrite IntervalSet_Valid_spec. intros Hs. auto using Complement_spec, Difference_spec.
Qed.

Lemma IntervalSet_Complement_correct_witness :
  let s := [MkInterval 2 3; MkInterval 8 12] in
  (exists c, IntervalSet_Complement s 0 10 = Some c /\ IntervalSet_Valid c = true /\
     forall v, iset_mem v c <-> 0 <= v < 10 /\ ~ iset_mem v s) /\
  (exists d, IntervalSet_Difference s (MkInterval 9 10) = Some d /\ IntervalSet_Valid d = true /\
     forall v, iset_mem v d <-> iset_mem v s /\ ~ ival_mem v (MkInterval 9 10)).
Proof. apply IntervalSet_Complement_correct. reflexivity. Defined.

(** The queries of a valid set answer for its points: membership of a value,
    of a whole interval, the interval [Find] returns, disjointness from a
    non-empty interval and intersection with another set. *)
Lemma IntervalSet_queries (s other : iset) (i : Interval) (v : Z) :
  IntervalSet_Valid s = true -> IntervalSet_Valid other = true -> ival_nonempty i ->
  (exists b, IntervalSet_Contains_value s v = Some b /\ (b = true <-> iset_mem v s)) /\
  (exists b, IntervalSet_Contains s i = Some b /\
     (b = true <-> forall t, ival_mem t i -> iset_mem t s)) /\
  (exists it, IntervalSet_Find s i = Some it /\
     forall e, it = Some e <-> e ∈ s /\ forall t, ival_mem t i -> ival_mem t e) /\
  (exists b, IntervalSet_IsDisjoint s i = Some b /\
     (b = true <-> forall t, ival_mem t i -> ~ iset_mem t s)) /\
  (exists b, IntervalSet_Intersects s other = Some b /\
     (b = true <-> exists t, iset_mem t s /\ iset_mem t other)).
Proof.
  setoid_rewrite IntervalSet_Valid_spec. intros Hs Ho Hi.
  split_and!; auto using Contains_value_spec, IsDisjoint_spec, Intersects_spec.
  - destruct (Contains_spec s i Hs) as (b & E & Hb). exists b. split; [done|]. rewrite Hb. tauto.
  - destruct (Find_spec s i Hs) as (it & E & Hit). exists it. split; [done|]. intros e.
    rewrite Hit. by rewrite Interval_Contains_iff.
Qed.

Lemma IntervalSet_queries_witness :
  let s := [MkInterval 0 3; MkInterval 8 12] in
  let i := MkInterval 9 11 in
  let other := [MkInterval 3 5] in
  (exists b, IntervalSet_Contains_value s 9 = Some b /\ (b = true <-> iset_mem 9 s)) /\
  (exists b, IntervalSet_Contains s i = Some b /\
     (b = true <-> forall t, ival_mem t i -> iset_mem t s)) /\
  (exists it, IntervalSet_Find s i = Some it /\
     forall e, it = Some e <-> e ∈ s /\ forall t, ival_mem t i -> ival_mem t e) /\
  (exists b, IntervalSet_IsDisjoint s i = Some b /\
     (b = true <-> forall t, ival_mem t i -> ~ iset_mem t s)) /\
  (exists b, IntervalSet_Intersects s other = Some b /\
     (b = true <-> exists t, iset_mem t s /\ iset_mem t other)).
Proof. apply IntervalSet_queries; reflexivity. Defined.

(** The representation is canonical: two valid sets compare equal exactly
    when they hold the same points. *)
Lemma IntervalSet_Equals_canonical (s t : iset) :
  IntervalSet_Valid s = true -> IntervalSet_Valid t = true ->
  IntervalSet_Equals s t = true <-> forall v, iset_mem v s <-> iset_mem v t.
Proof.
  rewrite !IntervalSet_Valid_spec. intros Hs Ht. rewrite Equals_spec. split; [by intros ->|].
  by apply iset_ext.
Qed.

Lemma IntervalSet_Equals_canonical_witness :
  let s := [MkInterval 0 3; MkInterval 8 12] in
  let t := [MkInterval 0 3; MkInterval 8 13] in
  IntervalSet_Equals s t = true <-> forall v, iset_mem v s <-> iset_mem v t.
Proof. apply IntervalSet_Equals_canonical; reflexivity. Defined.
