(* ===== verification/PacketNumberQueue.v ===== *)
(** * quic/core/frames/quic_ack_frame.{h,cc}: the set of received packet numbers

    A [PacketNumberQueue] stores packet numbers as intervals, in a [std::deque]
    when [use_deque_] is set and in an [IntervalSet] otherwise.  The deque is a
    list; reading or popping an empty container is undefined and gives [None]. *)

From S2P Require Import Prelude StdSet Interval IntervalSet.

Record PacketNumberQueue := MkPacketNumberQueue {
  packet_number_intervals_ : list Interval;
  packet_number_deque_ : list Interval;
  use_deque_ : bool
}.

(** The constructor; [deque_flag] is FLAGS_quic_reloadable_flag_quic_frames_deque2. *)
Definition PacketNumberQueue_new (deque_flag : bool) : PacketNumberQueue :=
  MkPacketNumberQueue [] [] deque_flag.

Definition set_deque (q : PacketNumberQueue) (d : list Interval) : PacketNumberQueue :=
  MkPacketNumberQueue (packet_number_intervals_ q) d (use_deque_ q).

Definition set_intervals (q : PacketNumberQueue) (s : list Interval) : PacketNumberQueue :=
  MkPacketNumberQueue s (packet_number_deque_ q) (use_deque_ q).

(** [deque.back()] and [deque.front()] replaced in place. *)
Definition update_back (f : Interval -> Interval) (d : list Interval) : list Interval :=
  match last d with Some b => <[(length d - 1)%nat := f b]> d | None => d end.

Definition update_front (f : Interval -> Interval) (d : list Interval) : list Interval :=
  match d with a :: d' => f a :: d' | [] => d end.

(** [deque.insert(begin() + i, x)] and [deque.erase(begin() + i)]. *)
Definition deque_insert (i : nat) (x : Interval) (d : list Interval) : list Interval :=
  take i d ++ x :: drop i d.
Definition deque_erase (i : nat) (d : list Interval) : list Interval :=
  take i d ++ drop (S i) d.

(** The backward scan of [Add]: [n] elements are left, the next index is [n-1]. *)
Fixpoint PacketNumberQueue_Add_scan (n : nat) (d : list Interval) (packet_number : Z)
    : list Interval :=
  match n with
  | O => d
  | S i =>
      match d !! i with
      | None => d
      | Some packet_interval =>
          if Interval_Contains_value packet_interval packet_number then d
          else if max_ packet_interval =? packet_number then
            <[i := Interval_SetMax packet_interval (packet_number +64 1)]> d
          else if min_ packet_interval =? (packet_number +64 1) then
            let d := <[i := Interval_SetMin packet_interval packet_number]> d in
            match d !! (i - 1)%nat with
            | Some prev =>
                if (0 <? i)%nat && (packet_number =? max_ prev) then
                  deque_erase i (<[(i - 1)%nat := Interval_SetMax prev (max_ packet_interval)]> d)
                else d
            | None => d
            end
          else if max_ packet_interval <? (packet_number +64 1) then
            deque_insert (S i) (MkInterval packet_number (packet_number +64 1)) d
          else PacketNumberQueue_Add_scan i d packet_number
      end
  end.

Definition PacketNumberQueue_Add_deque (d : list Interval) (packet_number : Z) : list Interval :=
  match last d, head d with
  | Some back, Some front =>
      if max_ back =? packet_number then
        update_back (fun b => Interval_SetMax b (packet_number +64 1)) d
      else if max_ back <? packet_number then
        d ++ [MkInterval packet_number (packet_number +64 1)]
      else if min_ front >? (packet_number +64 1) then
        MkInterval packet_number (packet_number +64 1) :: d
      else if min_ front =? (packet_number +64 1) then
        update_front (fun f => Interval_SetMin f packet_number) d
      else PacketNumberQueue_Add_scan (length d) d packet_number
  | _, _ => [MkInterval packet_number (packet_number +64 1)]
  end.

Definition PacketNumberQueue_Add (q : PacketNumberQueue) (packet_number : Z)
    : option PacketNumberQueue :=
  if use_deque_ q then
    Some (set_deque q (PacketNumberQueue_Add_deque (packet_number_deque_ q) packet_number))
  else
    s ← IntervalSet_Add_range (packet_number_intervals_ q) packet_number (packet_number +64 1);
    Some (set_intervals q s).

(** [for (size_t i = lower; i < higher; i++) Add(i)], [n] numbers from [i]. *)
Fixpoint PacketNumberQueue_Add_each (n : nat) (i : Z) (d : list Interval) : list Interval :=
  match n with
  | O => d
  | S n => PacketNumberQueue_Add_each n (i +64 1) (PacketNumberQueue_Add_deque d i)
  end.

Definition PacketNumberQueue_AddRange_deque (d : list Interval) (lower higher : Z)
    : list Interval :=
  match last d, head d with
  | Some back, Some front =>
      if max_ back =? lower then update_back (fun b => Interval_SetMax b higher) d
      else if max_ back <? lower then d ++ [MkInterval lower higher]
      else if min_ front =? higher then update_front (fun f => Interval_SetMin f lower) d
      else if min_ front >? higher then MkInterval lower higher :: d
      else
        let '(d, higher) :=
          if higher >=? max_ back
          then (update_back (fun b => Interval_SetMax b higher) d, Z.max lower (min_ back))
          else (d, higher) in
        let '(d, lower) :=
          if lower <? min_ front
          then (update_front (fun f => Interval_SetMin f lower) d, Z.min higher (max_ front))
          else (d, lower) in
        PacketNumberQueue_Add_each (Z.to_nat (higher - lower)) lower d
  | _, _ => [MkInterval lower higher]
  end.

Definition PacketNumberQueue_AddRange (q : PacketNumberQueue) (lower higher : Z)
    : option PacketNumberQueue :=
  if lower >=? higher then Some q
  else if use_deque_ q then
    Some (set_deque q (PacketNumberQueue_AddRange_deque (packet_number_deque_ q) lower higher))
  else
    s ← IntervalSet_Add_range (packet_number_intervals_ q) lower higher;
    Some (set_intervals q s).

Definition PacketNumberQueue_Empty (q : PacketNumberQueue) : bool :=
  if use_deque_ q then bool_decide (packet_number_deque_ q = [])
  else bool_decide (packet_number_intervals_ q = []).

Definition PacketNumberQueue_Min (q : PacketNumberQueue) : option Z :=
  if use_deque_ q then front ← head (packet_number_deque_ q); Some (min_ front)
  else b ← std_begin (packet_number_intervals_ q); Some (min_ b).

Definition PacketNumberQueue_Max (q : PacketNumberQueue) : option Z :=
  if use_deque_ q then back ← last (packet_number_deque_ q); Some (max_ back -64 1)
  else b ← std_rbegin (packet_number_intervals_ q); Some (max_ b -64 1).

Fixpoint PacketNumberQueue_RemoveUpTo_deque (d : list Interval) (higher : Z) : list Interval :=
  match d with
  | [] => []
  | front :: d' =>
      if max_ front <? higher then PacketNumberQueue_RemoveUpTo_deque d' higher
      else if (min_ front <? higher) && (max_ front >=? higher) then
        if max_ front =? higher then d' else Interval_SetMin front higher :: d'
      else d
  end.

(** [RemoveUpTo]: the new queue and whether packets were removed. *)
Definition PacketNumberQueue_RemoveUpTo (q : PacketNumberQueue) (higher : Z)
    : option (PacketNumberQueue * bool) :=
  if PacketNumberQueue_Empty q then Some (q, false)
  else
    old_min ← PacketNumberQueue_Min q;
    q ← (if use_deque_ q then
           Some (set_deque q (PacketNumberQueue_RemoveUpTo_deque (packet_number_deque_ q) higher))
         else
           s ← IntervalSet_Difference_range (packet_number_intervals_ q) 0 higher;
           Some (set_intervals q s));
    if PacketNumberQueue_Empty q then Some (q, true)
    else new_min ← PacketNumberQueue_Min q; Some (q, negb (old_min =? new_min)).

Definition PacketNumberQueue_RemoveSmallestInterval (q : PacketNumberQueue)
    : option PacketNumberQueue :=
  if use_deque_ q then
    match packet_number_deque_ q with
    | [] => None
    | _ :: d => Some (set_deque q d)
    end
  else
    b ← std_begin (packet_number_intervals_ q);
    s ← IntervalSet_Difference (packet_number_intervals_ q) b;
    Some (set_intervals q s).

Definition PacketNumberQueue_Contains (q : PacketNumberQueue) (packet_number : Z)
    : option bool :=
  if use_deque_ q then
    match head (packet_number_deque_ q), last (packet_number_deque_ q) with
    | Some front, Some back =>
        if (min_ front >? packet_number) || (max_ back <=? packet_number) then Some false
        else Some (existsb (fun i => Interval_Contains_value i packet_number)
                     (packet_number_deque_ q))
    | _, _ => Some false
    end
  else IntervalSet_Contains_value (packet_number_intervals_ q) packet_number.

(** The deque variant accumulates in an [int], the other in a [size_t]. *)
Definition PacketNumberQueue_NumPacketsSlow (q : PacketNumberQueue) : Z :=
  if use_deque_ q then
    u64 (fold_left (fun n i => i32 (n + Interval_Length i)) (packet_number_deque_ q) 0)
  else fold_left (fun n i => n +64 Interval_Length i) (packet_number_intervals_ q) 0.

Definition PacketNumberQueue_NumIntervals (q : PacketNumberQueue) : Z :=
  if use_deque_ q then Z.of_nat (length (packet_number_deque_ q))
  else Z.of_nat (length (packet_number_intervals_ q)).

Definition PacketNumberQueue_LastIntervalLength (q : PacketNumberQueue) : option Z :=
  if use_deque_ q then back ← last (packet_number_deque_ q); Some (Interval_Length back)
  else b ← std_rbegin (packet_number_intervals_ q); Some (Interval_Length b).
