(* ===== verification/PacketNumberQueueFacts.v ===== *)
(** * The two representations of PacketNumberQueue implement one set

    The deque and the interval-set variants keep the same canonical list of
    intervals under every operation, and that list denotes the set of packet
    numbers the operations describe. *)

From S2P Require Import Prelude StdSet Interval IntervalSet IntervalSetFacts PacketNumberQueue.

(** The list of intervals in use, and the set of packet numbers it denotes. *)
Definition pnq_list (q : PacketNumberQueue) : list Interval :=
  if use_deque_ q then packet_number_deque_ q else packet_number_intervals_ q.

Definition pnq_mem (v : Z) (q : PacketNumberQueue) : Prop := iset_mem v (pnq_list q).

(** Bounds are 64-bit unsigned numbers. *)
Definition pn_range (d : list Interval) : Prop :=
  Forall (fun i => 0 <= min_ i /\ max_ i <= kU64Max) d.

Definition pnq_ok (q : PacketNumberQueue) : Prop := iset_ok (pnq_list q) /\ pn_range (pnq_list q).

Lemma u64_succ x : 0 <= x < kU64Max -> x +64 1 = x + 1.
Proof. intros H. apply u64_id. unfold is_u64, kU64Max in *. lia. Qed.

Lemma iset_ok_mid l x k :
  iset_ok (l ++ x :: k) <->
  iset_ok (l ++ k) /\ ival_nonempty x /\ Forall (fun d => gap d x) l /\ Forall (gap x) k.
Proof.
  rewrite !iset_ok_app, iset_ok_cons.
  assert (Forall (fun a => Forall (gap a) (x :: k)) l <->
          Forall (fun d => gap d x) l /\ Forall (fun a => Forall (gap a) k) l) as ->.
  { rewrite !Forall_forall. setoid_rewrite Forall_cons. naive_solver. }
  tauto.
Qed.

(** Replacing one interval by another that keeps clear of its neighbours. *)
Lemma iset_ok_set l x y k :
  iset_ok (l ++ x :: k) -> ival_nonempty y ->
  Forall (fun d => gap d y) l -> Forall (gap y) k -> iset_ok (l ++ y :: k).
Proof. rewrite !iset_ok_mid. tauto. Qed.

Lemma pn_range_mid l x k :
  pn_range (l ++ x :: k) <-> pn_range (l ++ k) /\ 0 <= min_ x /\ max_ x <= kU64Max.
Proof. unfold pn_range. rewrite !Forall_app, Forall_cons. tauto. Qed.

Lemma iset_mem_mid v l x k :
  iset_mem v (l ++ x :: k) <-> iset_mem v (l ++ k) \/ ival_mem v x.
Proof. rewrite !iset_mem_app, iset_mem_cons. tauto. Qed.

(** What an update of the deque has to establish. *)
Definition adds_range (lo hi : Z) (d d' : list Interval) : Prop :=
  iset_ok d' /\ pn_range d' /\ forall v, iset_mem v d' <-> iset_mem v d \/ lo <= v < hi.

Lemma adds_set lo hi l x y k :
  iset_ok (l ++ x :: k) -> pn_range (l ++ x :: k) ->
  Forall (fun d => gap d y) l -> Forall (gap y) k ->
  0 <= min_ y < max_ y -> max_ y <= kU64Max ->
  (forall v, ival_mem v y <-> ival_mem v x \/ lo <= v < hi) ->
  adds_range lo hi (l ++ x :: k) (l ++ y :: k).
Proof.
  intros Hok Hr H1 H2 H3 H4 H5. split_and!.
  - eapply iset_ok_set; try done. unfold ival_nonempty. lia.
  - rewrite pn_range_mid in *. split_and!; try lia. tauto.
  - intros v. rewrite !iset_mem_mid, H5. tauto.
Qed.

Lemma adds_new lo hi l k :
  iset_ok (l ++ k) -> pn_range (l ++ k) ->
  Forall (fun d => max_ d < lo) l -> Forall (fun j => hi < min_ j) k ->
  0 <= lo < hi -> hi <= kU64Max ->
  adds_range lo hi (l ++ k) (l ++ MkInterval lo hi :: k).
Proof.
  intros Hok Hr H1 H2 H3 H4. split_and!.
  - apply iset_ok_mid. unfold ival_nonempty, gap. simpl. split_and!; try done. lia.
  - rewrite pn_range_mid. simpl. split_and!; try lia. done.
  - intros v. rewrite !iset_mem_mid. unfold ival_mem. simpl. tauto.
Qed.

Lemma adds_nothing lo hi d :
  iset_ok d -> pn_range d -> (forall v, lo <= v < hi -> iset_mem v d) -> adds_range lo hi d d.
Proof. intros ?? H. split_and!; try done. intros v. specialize (H v). tauto. Qed.

Section AddScan.
Variable pn : Z.
Hypothesis Hpn : 0 <= pn < kU64Max.

Lemma scan_merge_prev l pr pi post :
  iset_ok (l ++ pr :: pi :: post) -> pn_range (l ++ pr :: pi :: post) ->
  max_ pr = pn -> min_ pi = pn + 1 ->
  adds_range pn (pn + 1) (l ++ pr :: pi :: post)
    (l ++ Interval_SetMax pr (max_ pi) :: post).
Proof.
  intros Hok Hr H1 H2. pose proof Hok as (Hok' & Hp & Hl & Hg)%iset_ok_mid.
  pose proof Hok' as (Hok'' & Hpi & Hl' & Hg')%iset_ok_mid. unfold ival_nonempty, gap in *.
  rewrite !pn_range_mid in Hr. destruct Hr as ((Hr & ? & ?) & ? & ?). split_and!.
  - apply iset_ok_mid. unfold ival_nonempty, gap. simpl. split_and!; try done. lia.
  - rewrite pn_range_mid. simpl. split_and!; try lia. done.
  - intros v. rewrite !iset_mem_mid. unfold ival_mem. simpl.
    assert (min_ pr <= v < max_ pi <-> min_ pi <= v < max_ pi \/ min_ pr <= v < max_ pr
            \/ pn <= v < pn + 1) as -> by lia. tauto.
Qed.

Lemma scan_extend_left l pr pi post :
  iset_ok (l ++ pr :: pi :: post) -> pn_range (l ++ pr :: pi :: post) ->
  max_ pr ≠ pn -> min_ pi = pn + 1 ->
  adds_range pn (pn + 1) (l ++ pr :: pi :: post) (l ++ pr :: Interval_SetMin pi pn :: post).
Proof.
  intros Hok Hr H1 H2. pose proof Hok as (_ & Hp & Hl & Hg)%iset_ok_mid.
  apply Forall_cons in Hg as [Hg _]. rewrite (snoc_app l pr (pi :: post)) in Hok, Hr |- *.
  pose proof Hok as (_ & Hpi & _ & Hpost)%iset_ok_mid. pose proof Hr as (_ & ? & ?)%pn_range_mid.
  unfold ival_nonempty, gap in *. rewrite (snoc_app l pr (Interval_SetMin pi pn :: post)).
  apply adds_set; try done; simpl; try lia.
  - apply Forall_app. split; [|constructor; [unfold gap; simpl; lia|done]].
    eapply Forall_impl; [exact Hl|]. unfold gap. simpl. intros; lia.
  - intros v. unfold ival_mem. simpl. lia.
Qed.

(** The scan finds the place of [pn] among the intervals left of [post]. *)
Lemma Add_scan_spec l post :
  iset_ok (l ++ post) -> pn_range (l ++ post) ->
  Forall (fun j => pn + 1 < min_ j) post ->
  (exists f, head l = Some f /\ min_ f <= pn) ->
  adds_range pn (pn + 1) (l ++ post)
    (PacketNumberQueue_Add_scan (length l) (l ++ post) pn).
Proof.
  revert post. induction l as [|pi l IH] using rev_ind; intros post Hok Hr Hpost Hf.
  { destruct Hf as (f & [=] & _). }
  rewrite length_app, Nat.add_comm. simpl. rewrite <- app_assoc in *. simpl in *.
  rewrite lookup_mid, u64_succ by done. pose proof Hok as (Hok' & Hp & Hl & Hg)%iset_ok_mid.
  pose proof Hr as (Hr' & Hr1 & Hr2)%pn_range_mid. unfold ival_nonempty in Hp.
  destruct (Interval_Contains_value pi pn) eqn:E1.
  { apply Interval_Contains_value_spec in E1. apply adds_nothing; try done. intros v Hv.
    apply iset_mem_mid. right. unfold ival_mem in *. lia. }
  assert (pn < min_ pi \/ max_ pi <= pn) as Hout.
  { apply not_true_iff_false in E1. rewrite Interval_Contains_value_spec in E1.
    unfold ival_mem in E1. lia. }
  destruct (max_ pi =? pn) eqn:E2; bool_to_prop.
  { rewrite insert_mid. apply adds_set; try done; simpl; try lia.
    intros v. unfold ival_mem. simpl. lia. }
  destruct (min_ pi =? pn + 1) eqn:E3; bool_to_prop.
  { rewrite insert_mid. destruct l as [|pr l _] using rev_ind.
    { destruct Hf as (f & [= <-] & ?). lia. }
    rewrite length_app. rewrite <- !app_assoc in *. simpl in *.
    replace (length l + 1 - 1)%nat with (length l) by lia. rewrite lookup_mid.
    replace (0 <? length l + 1)%nat with true by (symmetry; apply Nat.ltb_lt; lia). simpl.
    destruct (pn =? max_ pr) eqn:E4; bool_to_prop; [|by apply scan_extend_left].
    rewrite insert_mid. unfold deque_erase.
    rewrite (snoc_app l (Interval_SetMax pr (max_ pi))).
    replace (length l + 1)%nat with (length (l ++ [Interval_SetMax pr (max_ pi)]))
      by (rewrite length_app; simpl; lia).
    rewrite take_mid, drop_mid, <- app_assoc. simpl. by apply scan_merge_prev. }
  destruct (max_ pi <? pn + 1) eqn:E4; bool_to_prop.
  { unfold deque_insert. rewrite snoc_app.
    replace (S (length l)) with (length (l ++ [pi])) by (rewrite length_app; simpl; lia).
    rewrite take_mid, drop_app_length. apply adds_new; try (by rewrite <- app_assoc); try lia.
    - apply Forall_app. split; [|constructor; [lia|done]].
      eapply Forall_impl; [exact Hl|]. unfold gap. intros; lia.
    - done. }
  apply IH; try done.
  - constructor; [lia|done].
  - destruct l; [|done]. destruct Hf as (f & [= <-] & ?). lia.
Qed.

Lemma update_back_snoc f d b : update_back f (d ++ [b]) = d ++ [f b].
Proof.
  unfold update_back. rewrite last_snoc, length_app. simpl.
  replace (length d + 1 - 1)%nat with (length d) by lia. apply insert_mid.
Qed.

Lemma Add_deque_spec d :
  iset_ok d -> pn_range d ->
  adds_range pn (pn + 1) d (PacketNumberQueue_Add_deque d pn).
Proof.
  intros Hok Hr. unfold PacketNumberQueue_Add_deque. rewrite !u64_succ by done.
  destruct d as [|front d0].
  { simpl. apply (adds_new pn (pn + 1) [] []); try done; lia. }
  change (head (front :: d0)) with (Some front).
  destruct (last (front :: d0)) as [back|] eqn:El.
  2:{ apply last_None in El. done. }
  apply last_Some in El as [d1 Hd]. rewrite Hd in *.
  pose proof Hok as (_ & Hb & Hlb & _)%iset_ok_mid. pose proof Hr as (_ & ? & ?)%pn_range_mid.
  unfold ival_nonempty in Hb.
  destruct (max_ back =? pn) eqn:E1; bool_to_prop.
  { rewrite update_back_snoc. apply adds_set; try done; simpl; try lia.
    intros v. unfold ival_mem. simpl. lia. }
  destruct (max_ back <? pn) eqn:E2; bool_to_prop.
  { pose proof (adds_new pn (pn + 1) (d1 ++ [back]) []) as Hn. rewrite app_nil_r in Hn.
    apply Hn; try done; try lia. apply Forall_app. split; [|constructor; [lia|done]].
    eapply Forall_impl; [exact Hlb|]. unfold gap. intros; lia. }
  rewrite <- Hd in *. pose proof Hok as (Hf & _ & Hg)%iset_ok_cons.
  pose proof Hr as (_ & ? & ?)%(pn_range_mid [] front d0). unfold ival_nonempty, gap in *.
  destruct (min_ front >? pn + 1) eqn:E3; bool_to_prop.
  { apply (adds_new pn (pn + 1) [] (front :: d0)); try done; try lia.
    constructor; [lia|]. eapply Forall_impl; [exact Hg|]. simpl. intros; lia. }
  destruct (min_ front =? pn + 1) eqn:E4; bool_to_prop.
  { simpl. apply (adds_set pn (pn + 1) [] front _ d0); try done; simpl; try lia.
    intros v. unfold ival_mem. simpl. lia. }
  pose proof (Add_scan_spec (front :: d0) []) as Hs. rewrite app_nil_r in Hs.
  apply Hs; try done. exists front. split; [done|lia].
Qed.

End AddScan.

Lemma pn_range_points d :
  iset_ok d -> pn_range d <-> forall v, iset_mem v d -> 0 <= v < kU64Max.
Proof.
  intros [_ Hne]. unfold pn_range, iset_mem. setoid_rewrite Exists_exists.
  rewrite Forall_forall in *. unfold ival_nonempty, ival_mem in *. split.
  - intros H v (i & Hi & Hv). specialize (H i Hi). lia.
  - intros H i Hi. specialize (Hne i Hi).
    pose proof (H (min_ i) ltac:(exists i; split; [done|lia])).
    pose proof (H (max_ i - 1) ltac:(exists i; split; [done|lia])). lia.
Qed.

Lemma Add_each_spec n i d :
  iset_ok d -> pn_range d -> 0 <= i -> i + Z.of_nat n <= kU64Max ->
  adds_range i (i + Z.of_nat n) d (PacketNumberQueue_Add_each n i d).
Proof.
  revert i d. induction n as [|n IH]; intros i d Hok Hr Hi Hn; simpl PacketNumberQueue_Add_each.
  - apply adds_nothing; try done. intros v. lia.
  - rewrite u64_succ by lia. destruct (Add_deque_spec i ltac:(lia) d Hok Hr) as (H1 & H2 & H3).
    destruct (IH (i + 1) _ H1 H2) as (H4 & H5 & H6); [lia..|].
    split_and!; try done. intros v. rewrite H6, H3.
    assert (i <= v < i + Z.of_nat (S n) <-> i <= v < i + 1 \/ i + 1 <= v < i + 1 + Z.of_nat n)
      as -> by lia. tauto.
Qed.

(** The slow path: the outer intervals are widened first, then the numbers in
    between are added one by one. *)
Lemma widen_back d back lo hi :
  iset_ok (d ++ [back]) -> pn_range (d ++ [back]) ->
  lo <= max_ back <= hi -> 0 <= lo -> hi <= kU64Max ->
  adds_range (Z.max lo (min_ back)) hi (d ++ [back]) (d ++ [Interval_SetMax back hi]).
Proof.
  intros Hok Hr H1 H2 H3. pose proof Hok as (_ & Hb & Hl & _)%iset_ok_mid.
  pose proof Hr as (_ & ? & ?)%pn_range_mid. unfold ival_nonempty in Hb.
  apply adds_set; try done; simpl; try lia. intros v. unfold ival_mem. simpl. lia.
Qed.

Lemma widen_front d front lo hi :
  iset_ok (front :: d) -> pn_range (front :: d) ->
  0 <= lo < min_ front -> min_ front <= hi ->
  adds_range lo (Z.min hi (max_ front)) (front :: d) (Interval_SetMin front lo :: d).
Proof.
  intros Hok Hr H1 H2. pose proof Hok as (Hf & _ & Hg)%iset_ok_cons.
  pose proof Hr as (_ & ? & ?)%(pn_range_mid [] front d). unfold ival_nonempty in Hf.
  apply (adds_set _ _ [] front); try done; simpl; try lia. intros v. unfold ival_mem. simpl. lia.
Qed.

Lemma adds_trans a b c d e f x y z :
  adds_range a b x y -> adds_range c d y z ->
  (forall v, e <= v < f <-> a <= v < b \/ c <= v < d) -> adds_range e f x z.
Proof.
  intros (_ & _ & H1) (H2 & H3 & H4) H. split_and!; try done.
  intros v. rewrite H4, H1, H. tauto.
Qed.

Lemma adds_ext a b c d x y :
  adds_range a b x y ->
  (forall v, a <= v < b -> c <= v < d \/ iset_mem v x) ->
  (forall v, c <= v < d -> a <= v < b \/ iset_mem v x) -> adds_range c d x y.
Proof.
  intros (H1 & H2 & H3) H4 H5. split_and!; try done. intros v. rewrite H3.
  specialize (H4 v). specialize (H5 v). tauto.
Qed.

Lemma slow_finish d front tl fmax h lower higher :
  adds_range h higher d (front :: tl) ->
  min_ front <= h -> min_ front < fmax <= max_ front ->
  0 <= lower <= h -> h <= higher -> higher <= kU64Max ->
  adds_range lower higher d
    (let '(d2, l2) :=
       if lower <? min_ front
       then (Interval_SetMin front lower :: tl, Z.min h fmax) else (front :: tl, lower) in
     PacketNumberQueue_Add_each (Z.to_nat (h - l2)) l2 d2).
Proof.
  intros H1 H2 H3 H4 H5 H6. pose proof H1 as (Hok & Hr & _). case_if; bool_to_prop.
  - assert (adds_range lower (Z.min h fmax) (front :: tl) (Interval_SetMin front lower :: tl)) as Hw.
    { eapply adds_ext; [apply (widen_front _ _ lower h); done || lia|..]; intros v Hv; [|lia].
      destruct (Z.lt_ge_cases v fmax); [lia|right]. apply iset_mem_cons. left. unfold ival_mem. lia. }
    pose proof Hw as (Hok' & Hr' & _).
    eapply adds_trans; [exact H1 | |].
    + apply (adds_trans lower (Z.min h fmax) (Z.min h fmax) h lower h _ _ _ Hw); [|intros; lia].
      eapply adds_ext; [apply Add_each_spec; try done; lia |..]; intros v; lia.
    + intros v. lia.
  - eapply adds_trans; [exact H1 | apply Add_each_spec; try done; lia |]. intros v. lia.
Qed.

Lemma AddRange_deque_spec d lower higher :
  iset_ok d -> pn_range d -> 0 <= lower < higher -> higher <= kU64Max ->
  adds_range lower higher d (PacketNumberQueue_AddRange_deque d lower higher).
Proof.
  intros Hok Hr Hlh Hmax. unfold PacketNumberQueue_AddRange_deque.
  destruct d as [|front d0].
  { apply (adds_new lower higher [] []); try done; lia. }
  change (head (front :: d0)) with (Some front).
  destruct (last (front :: d0)) as [back|] eqn:El.
  2:{ apply last_None in El. done. }
  apply last_Some in El as [d1 Hd].
  pose proof Hok as (Hf & _ & Hgf)%iset_ok_cons. pose proof Hok as Hok2. rewrite Hd in Hok2.
  pose proof Hok2 as (_ & Hb & Hlb & _)%iset_ok_mid. pose proof Hr as Hr2. rewrite Hd in Hr2.
  pose proof Hr2 as (_ & ? & ?)%pn_range_mid. pose proof Hr as (_ & ? & ?)%(pn_range_mid [] front d0).
  unfold ival_nonempty, gap in *.
  destruct (max_ back =? lower) eqn:E1; bool_to_prop.
  { rewrite Hd, update_back_snoc. eapply adds_ext; [apply (widen_back _ _ lower); done || lia|..];
      intros v; lia. }
  destruct (max_ back <? lower) eqn:E2; bool_to_prop.
  { rewrite Hd. pose proof (adds_new lower higher (d1 ++ [back]) []) as Hn. rewrite app_nil_r in Hn.
    apply Hn; try done; try lia. apply Forall_app. split; [|constructor; [lia|done]].
    eapply Forall_impl; [exact Hlb|]. simpl. intros; lia. }
  destruct (min_ front =? higher) eqn:E3; bool_to_prop.
  { simpl. eapply adds_ext; [apply (widen_front _ _ _ higher); done || lia|..]; intros v; lia. }
  destruct (min_ front >? higher) eqn:E4; bool_to_prop.
  { apply (adds_new lower higher [] (front :: d0)); try done; try lia. constructor; [lia|].
    eapply Forall_impl; [exact Hgf|]. simpl. intros; lia. }
  assert (min_ front <= min_ back) as Hfb.
  { destruct d1 as [|f d1]; injection Hd as -> ->; [lia|]. apply Forall_cons in Hlb as [? _]. lia. }
  destruct (higher >=? max_ back) eqn:E5; bool_to_prop.
  - rewrite Hd, update_back_snoc.
    pose proof (widen_back d1 back lower higher Hok2 Hr2 ltac:(lia) ltac:(lia) ltac:(lia)) as Hw.
    destruct d1 as [|f d1]; injection Hd as -> ->.
    + apply (slow_finish _ (Interval_SetMax back higher) []); simpl; try done; lia.
    + apply (slow_finish _ f); try done; lia.
  - apply (slow_finish _ front d0); try done; try lia. apply adds_nothing; try done. intros v. lia.
Qed.

Lemma RemoveUpTo_deque_spec d higher :
  iset_ok d ->
  iset_ok (PacketNumberQueue_RemoveUpTo_deque d higher) /\
  forall v, iset_mem v (PacketNumberQueue_RemoveUpTo_deque d higher)
    <-> iset_mem v d /\ higher <= v.
Proof.
  induction d as [|f d IH]; intros Hok; simpl.
  { split; [done|]. intros v. rewrite iset_mem_nil. tauto. }
  pose proof Hok as (Hf & Hd & Hg)%iset_ok_cons. destruct (IH Hd) as [IH1 IH2]. clear IH.
  pose proof (fun v => iset_mem_lb d v _ Hg) as Hlb. unfold ival_nonempty, gap in *.
  destruct (max_ f <? higher) eqn:E1; bool_to_prop.
  { split; [done|]. intros v. rewrite IH2, iset_mem_cons. unfold ival_mem. split; [tauto|].
    intros [[?|?] ?]; [lia|done]. }
  destruct ((min_ f <? higher) && (max_ f >=? higher)) eqn:E2.
  - apply andb_true_iff in E2 as [E2 E3]. case_if; bool_to_prop.
    + split; [done|]. intros v. rewrite iset_mem_cons. unfold ival_mem. specialize (Hlb v).
      split; [intros H; specialize (Hlb H); split; [by right|lia]|]. intros [[?|?] ?]; [lia|done].
    + split.
      * apply iset_ok_cons. unfold ival_nonempty, gap. simpl. split_and!; try done. lia.
      * intros v. rewrite !iset_mem_cons. specialize (Hlb v). unfold ival_mem. simpl.
        split; [intros [?|H]; [lia|specialize (Hlb H); split; [by right|lia]]|].
        intros [[?|?] ?]; [left; lia|by right].
  - split; [done|]. intros v. split; [|tauto]. intros Hv. split; [done|].
    apply andb_false_iff in E2. rewrite iset_mem_cons in Hv. unfold ival_mem in Hv.
    destruct Hv as [Hv|Hv]; [blia|]. specialize (Hlb v Hv). destruct E2; bool_to_prop; lia.
Qed.

(** ** Every operation on either representation *)

(** [q'] is a valid queue of the same representation holding the numbers [P]. *)
Definition pnq_result (q q' : PacketNumberQueue) (P : Z -> Prop) : Prop :=
  pnq_ok q' /\ use_deque_ q' = use_deque_ q /\ forall v, pnq_mem v q' <-> P v.

Lemma pnq_ok_of_points d (P : Z -> Prop) :
  iset_ok d -> (forall v, iset_mem v d <-> P v) -> (forall v, P v -> 0 <= v < kU64Max) ->
  pn_range d.
Proof. intros Hok H HP. apply pn_range_points; [done|]. intros v. rewrite H. apply HP. Qed.

Lemma pnq_mem_range q v : pnq_ok q -> pnq_mem v q -> 0 <= v < kU64Max.
Proof. intros [Hok Hr]. by apply pn_range_points. Qed.

(** A new list of intervals stored in the representation in use. *)
Lemma pnq_result_intro q d (P : Z -> Prop) :
  iset_ok d -> (forall v, iset_mem v d <-> P v) -> (forall v, P v -> 0 <= v < kU64Max) ->
  (use_deque_ q = true -> pnq_result q (set_deque q d) P) /\
  (use_deque_ q = false -> pnq_result q (set_intervals q d) P).
Proof.
  intros Hok H HP. pose proof (pnq_ok_of_points d P Hok H HP) as Hr.
  split; intros E; unfold pnq_result, pnq_ok, pnq_mem, pnq_list; simpl; by rewrite E.
Qed.

Lemma Add_result q pn :
  pnq_ok q -> 0 <= pn < kU64Max ->
  exists q', PacketNumberQueue_Add q pn = Some q' /\
    pnq_result q q' (fun v => pnq_mem v q \/ v = pn).
Proof.
  intros Hq Hpn. pose proof (fun v => pnq_mem_range q v Hq) as Hmr. destruct Hq as [Hok Hr].
  unfold PacketNumberQueue_Add, pnq_mem, pnq_list in *. destruct (use_deque_ q) eqn:E.
  - eexists. split; [done|]. destruct (Add_deque_spec pn Hpn _ Hok Hr) as (H1 & H2 & H3).
    apply (pnq_result_intro q); try done; [intros v; rewrite H3; split; intros [?|?]; tauto || lia|].
    intros v [Hv| ->]; [|done]. by apply Hmr.
  - unfold IntervalSet_Add_range. destruct (Add_spec _ (MkInterval pn (pn +64 1)) Hok)
      as (s & -> & Hs & Hm). simpl. eexists. split; [done|]. rewrite u64_succ in Hm by done.
    apply (pnq_result_intro q); try done.
    + intros v. rewrite Hm. unfold ival_mem. simpl. split; intros [?|?]; tauto || lia.
    + intros v [Hv| ->]; [|done]. by apply Hmr.
Qed.

Lemma AddRange_result q lower higher :
  pnq_ok q -> 0 <= lower -> higher <= kU64Max ->
  exists q', PacketNumberQueue_AddRange q lower higher = Some q' /\
    pnq_result q q' (fun v => pnq_mem v q \/ lower <= v < higher).
Proof.
  intros Hq Hl Hh. pose proof (fun v => pnq_mem_range q v Hq) as Hmr. unfold PacketNumberQueue_AddRange.
  destruct (lower >=? higher) eqn:E0; bool_to_prop.
  { exists q. split; [done|]. unfold pnq_result. split_and!; try done. intros v.
    split; [tauto|]. intros [?|?]; [done|lia]. }
  destruct Hq as [Hok Hr].
  unfold pnq_mem, pnq_list in *. destruct (use_deque_ q) eqn:E.
  - eexists. split; [done|].
    destruct (AddRange_deque_spec _ lower higher Hok Hr) as (H1 & H2 & H3); [lia..|].
    apply (pnq_result_intro q); try done. intros v [Hv|?]; [|lia]. by apply Hmr.
  - unfold IntervalSet_Add_range. destruct (Add_spec _ (MkInterval lower higher) Hok)
      as (s & -> & Hs & Hm). simpl. eexists. split; [done|].
    apply (pnq_result_intro q); try done. intros v [Hv|?]; [|lia]. by apply Hmr.
Qed.

Lemma Empty_spec q : PacketNumberQueue_Empty q = true <-> pnq_list q = [].
Proof. unfold PacketNumberQueue_Empty, pnq_list. case_if; apply bool_decide_eq_true. Qed.

Lemma Min_spec q : PacketNumberQueue_Min q = (f ← head (pnq_list q); Some (min_ f)).
Proof. unfold PacketNumberQueue_Min, pnq_list. by case_if. Qed.

Lemma pnq_list_nonempty q : pnq_ok q -> pnq_list q ≠ [] <-> exists v, pnq_mem v q.
Proof.
  intros [[_ Hne] _]. unfold pnq_mem. destruct (pnq_list q) as [|f l].
  - split; [done|]. by intros (v & ?%iset_mem_nil).
  - apply Forall_cons in Hne as [Hf _]. split; [|done]. intros _. exists (min_ f).
    apply iset_mem_cons. left. unfold ival_mem, ival_nonempty in *. lia.
Qed.

(** [Min()] is the least packet number. *)
Lemma Min_least q m :
  pnq_ok q -> PacketNumberQueue_Min q = Some m -> pnq_mem m q /\ forall v, pnq_mem v q -> m <= v.
Proof.
  intros [Hok _]. rewrite Min_spec. unfold pnq_mem. destruct (pnq_list q) as [|f l]; [done|].
  simpl. intros [= <-]. apply iset_ok_cons in Hok as (Hf & _ & Hg). unfold ival_nonempty in Hf.
  split.
  - apply iset_mem_cons. left. unfold ival_mem. lia.
  - intros v [Hv|Hv]%iset_mem_cons; [unfold ival_mem in Hv; lia|].
    pose proof (iset_mem_lb _ _ _ Hg Hv). lia.
Qed.

Lemma RemoveUpTo_result q higher :
  pnq_ok q -> 0 <= higher ->
  exists q' b, PacketNumberQueue_RemoveUpTo q higher = Some (q', b) /\
    pnq_result q q' (fun v => pnq_mem v q /\ higher <= v) /\
    (b = true <-> exists v, pnq_mem v q /\ v < higher).
Proof.
  intros Hq Hh. pose proof (fun v => pnq_mem_range q v Hq) as Hmr.
  unfold PacketNumberQueue_RemoveUpTo. destruct (PacketNumberQueue_Empty q) eqn:Ee.
  { apply Empty_spec in Ee. assert (forall v, ~ pnq_mem v q) as Hno
      by (intros v; unfold pnq_mem; rewrite Ee, iset_mem_nil; tauto).
    exists q, false. split_and!; try done; [|split; [done|intros (v & ? & _); by destruct (Hno v)]].
    split_and!; try done. intros v. specialize (Hno v). tauto. }
  assert (exists om, PacketNumberQueue_Min q = Some om) as [om Hom].
  { rewrite Min_spec. apply not_true_iff_false in Ee. rewrite Empty_spec in Ee.
    destruct (pnq_list q); [done|]. eauto. }
  rewrite Hom. simpl. destruct (Min_least q om Hq Hom) as [Hom1 Hom2].
  assert (exists q1, (if use_deque_ q then
     Some (set_deque q (PacketNumberQueue_RemoveUpTo_deque (packet_number_deque_ q) higher))
     else s ← IntervalSet_Difference_range (packet_number_intervals_ q) 0 higher;
          Some (set_intervals q s)) = Some q1 /\
     pnq_result q q1 (fun v => pnq_mem v q /\ higher <= v)) as (q1 & -> & Hres).
  { destruct Hq as [Hok Hr]. unfold pnq_mem, pnq_list in *. destruct (use_deque_ q) eqn:E.
    - destruct (RemoveUpTo_deque_spec _ higher Hok) as [H1 H2]. eexists. split; [done|].
      apply (pnq_result_intro q); try done. intros v [? _]. by apply Hmr.
    - destruct (Difference_spec _ (MkInterval 0 higher) Hok) as (s & Hd & Hs & Hm).
      unfold IntervalSet_Difference_range. rewrite Hd. eexists. split; [done|].
      apply (pnq_result_intro q); try done.
      + intros v. rewrite Hm. unfold ival_mem. simpl. split; intros [Hv ?]; (split; [done|]); [|lia].
        specialize (Hmr v Hv). lia.
      + intros v [? _]. by apply Hmr. }
  simpl. pose proof Hres as (Hq1 & _ & Hm1). destruct (PacketNumberQueue_Empty q1) eqn:Ee1.
  - exists q1, true. split_and!; try done. split; [intros _|done]. exists om. split; [done|].
    apply Empty_spec in Ee1. destruct (Z.lt_ge_cases om higher); [done|]. exfalso.
    apply (iset_mem_nil om). rewrite <- Ee1. by apply Hm1.
  - assert (exists nm, PacketNumberQueue_Min q1 = Some nm) as [nm Hnm].
    { rewrite Min_spec. apply not_true_iff_false in Ee1. rewrite Empty_spec in Ee1.
      destruct (pnq_list q1); [done|]. eauto. }
    rewrite Hnm. simpl. destruct (Min_least q1 nm Hq1 Hnm) as [Hnm1 Hnm2].
    eexists q1, _. split_and!; [done..|]. rewrite negb_true_iff, Z.eqb_neq. split.
    + intros Hne. exists om. split; [done|]. destruct (Z.lt_ge_cases om higher); [done|]. exfalso.
      pose proof (Hnm2 om ltac:(by apply Hm1)). apply Hm1 in Hnm1 as [Hnm1 _].
      specialize (Hom2 _ Hnm1). lia.
    + intros (v & Hv & Hlt) ->. apply Hm1 in Hnm1 as [_ ?]. specialize (Hom2 _ Hv). lia.
Qed.

Lemma RemoveSmallestInterval_result q :
  pnq_ok q ->
  match pnq_list q with
  | [] => PacketNumberQueue_RemoveSmallestInterval q = None
  | _ :: l => exists q', PacketNumberQueue_RemoveSmallestInterval q = Some q' /\
      pnq_ok q' /\ use_deque_ q' = use_deque_ q /\ pnq_list q' = l
  end.
Proof.
  intros [Hok Hr]. unfold PacketNumberQueue_RemoveSmallestInterval, pnq_ok, pnq_list in *.
  destruct (use_deque_ q) eqn:E.
  - destruct (packet_number_deque_ q) as [|f l]; [done|]. eexists. split; [done|]. simpl.
    rewrite E. apply iset_ok_cons in Hok as (_ & ? & _). apply Forall_cons in Hr as [_ ?]. done.
  - destruct (packet_number_intervals_ q) as [|f l]; [done|]. simpl.
    destruct (Difference_spec (f :: l) f Hok) as (s & -> & Hs & Hm). simpl. eexists.
    split; [done|]. simpl. rewrite E. pose proof Hok as (Hf & Hl & Hg)%iset_ok_cons.
    assert (s = l) as ->.
    { apply iset_ext; try done. intros v. rewrite Hm, iset_mem_cons. split; [tauto|].
      intros Hv. split; [by right|]. pose proof (iset_mem_lb _ _ _ Hg Hv). unfold ival_mem. lia. }
    apply Forall_cons in Hr as [_ ?]. done.
Qed.

Lemma Contains_result q pn :
  pnq_ok q ->
  exists b, PacketNumberQueue_Contains q pn = Some b /\ (b = true <-> pnq_mem pn q).
Proof.
  intros [Hok _]. unfold PacketNumberQueue_Contains, pnq_mem, pnq_list in *.
  destruct (use_deque_ q); [|by apply Contains_value_spec].
  destruct (packet_number_deque_ q) as [|f l]; [exists false; split; [done|]; by rewrite iset_mem_nil|].
  change (head (f :: l)) with (Some f). destruct (last (f :: l)) as [b|] eqn:El.
  2:{ by apply last_None in El. }
  case_if.
  - exists false. split; [done|]. split; [done|]. intros Hm. exfalso.
    pose proof (Spanning_min _ _ Hok Hm) as Hs. unfold IntervalSet_SpanningInterval, std_rbegin in Hs.
    rewrite El in Hs. unfold ival_mem in Hs. simpl in Hs. lia.
  - eexists. split; [done|]. rewrite existsb_exists. unfold iset_mem. rewrite Exists_exists.
    setoid_rewrite Interval_Contains_value_spec. by setoid_rewrite list_elem_of_In.
Qed.

(** [Max()] is the greatest packet number. *)
Lemma Max_greatest q :
  pnq_ok q -> pnq_list q ≠ [] ->
  exists m, PacketNumberQueue_Max q = Some m /\ pnq_mem m q /\ forall v, pnq_mem v q -> v <= m.
Proof.
  intros Hq Hne. pose proof Hq as [Hok Hr].
  assert (PacketNumberQueue_Max q = (b ← last (pnq_list q); Some (max_ b -64 1))) as ->
    by (unfold PacketNumberQueue_Max, pnq_list, std_rbegin; by case_if).
  unfold pnq_mem. destruct (Spanning_ends _ Hok Hne) as (Hn & _ & Hmax).
  unfold IntervalSet_SpanningInterval, std_rbegin, std_begin in *.
  pose proof (fun v => Spanning_min _ v Hok) as Hsp. unfold IntervalSet_SpanningInterval in Hsp.
  destruct (pnq_list q) as [|f l]; [done|]. unfold std_begin, std_rbegin in Hsp.
  destruct (last (f :: l)) as [b|] eqn:El; [|by apply last_None in El]. simpl in *.
  assert (max_ b -64 1 = max_ b - 1) as Heq.
  { apply last_Some in El as [l' Hl']. rewrite Hl' in Hr, Hok. apply pn_range_mid in Hr as (_ & ? & ?).
    apply iset_ok_mid in Hok as (_ & Hb & _). unfold ival_nonempty in *.
    apply u64_id. unfold is_u64, kU64Max in *. lia. }
  rewrite Heq. eexists. split_and!; [done..|]. intros v Hv. specialize (Hsp v Hv).
  unfold ival_mem in Hsp. simpl in Hsp. lia.
Qed.

(** ** Runs of operations on the two representations *)

Inductive pnq_op :=
| OpAdd (packet_number : Z)
| OpAddRange (lower higher : Z)
| OpRemoveUpTo (higher : Z)
| OpRemoveSmallestInterval.

Definition pnq_op_ok (op : pnq_op) : Prop :=
  match op with
  | OpAdd pn => 0 <= pn < kU64Max
  | OpAddRange lower higher => 0 <= lower /\ higher <= kU64Max
  | OpRemoveUpTo higher => 0 <= higher
  | OpRemoveSmallestInterval => True
  end.

Definition pnq_run_op (q : PacketNumberQueue) (op : pnq_op) : option PacketNumberQueue :=
  match op with
  | OpAdd pn => PacketNumberQueue_Add q pn
  | OpAddRange lower higher => PacketNumberQueue_AddRange q lower higher
  | OpRemoveUpTo higher => r ← PacketNumberQueue_RemoveUpTo q higher; Some (fst r)
  | OpRemoveSmallestInterval => PacketNumberQueue_RemoveSmallestInterval q
  end.

Fixpoint pnq_run (q : PacketNumberQueue) (ops : list pnq_op) : option PacketNumberQueue :=
  match ops with
  | [] => Some q
  | op :: ops' => q ← pnq_run_op q op; pnq_run q ops'
  end.

(** Two queues hold the same intervals. *)
Definition same_queue (a b : PacketNumberQueue) : Prop :=
  pnq_ok a /\ pnq_ok b /\ pnq_list a = pnq_list b.

Lemma same_queue_result a b a' b' P Q :
  pnq_result a a' P -> pnq_result b b' Q -> (forall v, P v <-> Q v) -> same_queue a' b'.
Proof.
  intros (Ha & _ & Hma) (Hb & _ & Hmb) H. split_and!; try done.
  apply iset_ext; [apply Ha | apply Hb |]. intros v. unfold pnq_mem in *. by rewrite Hma, Hmb, H.
Qed.

Lemma run_op_agree a b op :
  same_queue a b -> pnq_op_ok op ->
  option_Forall2 same_queue (pnq_run_op a op) (pnq_run_op b op).
Proof.
  intros Hab Hop. pose proof Hab as (Ha & Hb & Heq).
  assert (forall v, pnq_mem v a <-> pnq_mem v b) as Hm by (intros v; unfold pnq_mem; by rewrite Heq).
  destruct op as [pn|lower higher|higher|]; simpl in *.
  - destruct (Add_result a pn Ha Hop) as (a' & -> & Ra).
    destruct (Add_result b pn Hb Hop) as (b' & -> & Rb). constructor.
    eapply same_queue_result; [exact Ra | exact Rb |]. intros v. simpl. by rewrite Hm.
  - destruct Hop. destruct (AddRange_result a lower higher Ha) as (a' & -> & Ra); [done..|].
    destruct (AddRange_result b lower higher Hb) as (b' & -> & Rb); [done..|]. constructor.
    eapply same_queue_result; [exact Ra | exact Rb |]. intros v. simpl. by rewrite Hm.
  - destruct (RemoveUpTo_result a higher Ha Hop) as (a' & ? & -> & Ra & _).
    destruct (RemoveUpTo_result b higher Hb Hop) as (b' & ? & -> & Rb & _). constructor.
    eapply same_queue_result; [exact Ra | exact Rb |]. intros v. simpl. by rewrite Hm.
  - pose proof (RemoveSmallestInterval_result a Ha) as Ra.
    pose proof (RemoveSmallestInterval_result b Hb) as Rb. rewrite Heq in Ra.
    destruct (pnq_list b).
    + rewrite Ra, Rb. constructor.
    + destruct Ra as (a' & -> & ? & _ & Hla). destruct Rb as (b' & -> & ? & _ & Hlb).
      constructor. split_and!; try done. by rewrite Hla, Hlb.
Qed.

Lemma run_agree a b ops :
  same_queue a b -> Forall pnq_op_ok ops ->
  option_Forall2 same_queue (pnq_run a ops) (pnq_run b ops).
Proof.
  intros Hab Hops. revert a b Hab. induction Hops as [|op ops Hop _ IH]; intros a b Hab; simpl.
  - by constructor.
  - destruct (run_op_agree a b op Hab Hop); simpl; [auto|constructor].
Qed.

(** ** Counting packets *)

Fixpoint total_length (d : list Interval) : Z :=
  match d with [] => 0 | i :: d' => (max_ i - min_ i) + total_length d' end.

Lemma total_length_nonneg d : Forall ival_nonempty d -> 0 <= total_length d.
Proof. induction 1 as [|i d Hi _ IH]; simpl; [lia|]. unfold ival_nonempty in Hi. lia. Qed.

Lemma NumPackets_fold d (w : Z -> Z) n b :
  Forall ival_nonempty d -> 0 <= n -> n + total_length d < b ->
  (forall x, 0 <= x < b -> w x = x) ->
  fold_left (fun n i => w (n + Interval_Length i)) d n = n + total_length d.
Proof.
  intros Hne. revert n. induction Hne as [|i d Hi Hd IH]; intros n Hn Hb Hw; simpl in *; [lia|].
  pose proof (total_length_nonneg d Hd). unfold ival_nonempty in Hi.
  assert (Interval_Length i = max_ i - min_ i) as ->.
  { unfold Interval_Length. case_if; blia. }
  rewrite Hw by lia. rewrite IH; lia || done.
Qed.

(** ** Properties *)

(** On either representation [Add] and [AddRange] succeed, keep the queue
    valid and add exactly the packet numbers given. *)
Lemma PacketNumberQueue_adds (q : PacketNumberQueue) (pn lower higher : Z) :
  pnq_ok q -> 0 <= pn < kU64Max -> 0 <= lower -> higher <= kU64Max ->
  (exists q', PacketNumberQueue_Add q pn = Some q' /\
     pnq_result q q' (fun v => pnq_mem v q \/ v = pn)) /\
  (exists q', PacketNumberQueue_AddRange q lower higher = Some q' /\
     pnq_result q q' (fun v => pnq_mem v q \/ lower <= v < higher)).
Proof. intros. auto using Add_result, AddRange_result. Qed.

Lemma pnq_example_ok :
  pnq_ok (MkPacketNumberQueue [] [MkInterval 1 3; MkInterval 5 9] true).
Proof.
  unfold pnq_ok, pn_range, iset_ok, kU64Max. simpl.
  repeat (constructor || unfold gap, ival_nonempty || simpl || lia).
Qed.

Lemma PacketNumberQueue_adds_witness :
  let q := MkPacketNumberQueue [] [MkInterval 1 3; MkInterval 5 9] true in
  (exists q', PacketNumberQueue_Add q 3 = Some q' /\
     pnq_result q q' (fun v => pnq_mem v q \/ v = 3)) /\
  (exists q', PacketNumberQueue_AddRange q 2 7 = Some q' /\
     pnq_result q q' (fun v => pnq_mem v q \/ 2 <= v < 7)).
Proof. apply PacketNumberQueue_adds; [apply pnq_example_ok | unfold kU64Max; lia..]. Defined.

(** [RemoveUpTo] keeps exactly the numbers not below its argument, on either
    representation, and its result says whether a number was removed. *)
Lemma PacketNumberQueue_RemoveUpTo_correct (q : PacketNumberQueue) (higher : Z) :
  pnq_ok q -> 0 <= higher ->
  exists q' b, PacketNumberQueue_RemoveUpTo q higher = Some (q', b) /\
    pnq_result q q' (fun v => pnq_mem v q /\ higher <= v) /\
    (b = true <-> exists v, pnq_mem v q /\ v < higher).
Proof. apply RemoveUpTo_result. Qed.

Lemma PacketNumberQueue_RemoveUpTo_correct_witness :
  let q := MkPacketNumberQueue [] [MkInterval 1 3; MkInterval 5 9] true in
  exists q' b, PacketNumberQueue_RemoveUpTo q 6 = Some (q', b) /\
    pnq_result q q' (fun v => pnq_mem v q /\ 6 <= v) /\
    (b = true <-> exists v, pnq_mem v q /\ v < 6).
Proof. apply PacketNumberQueue_RemoveUpTo_correct; [apply pnq_example_ok | lia]. Defined.

(** A run of mutations that starts from two empty queues, one of each
    representation, is defined on both or on neither, and ends with the same
    list of intervals in both. *)
Lemma PacketNumberQueue_representations_agree (ops : list pnq_op) :
  Forall pnq_op_ok ops ->
  option_Forall2 same_queue (pnq_run (PacketNumberQueue_new true) ops)
    (pnq_run (PacketNumberQueue_new false) ops).
Proof.
  apply run_agree. unfold same_queue, pnq_ok, pn_range, iset_ok. simpl. repeat constructor.
Qed.

Lemma PacketNumberQueue_representations_agree_witness :
  let ops := [OpAdd 5; OpAddRange 7 10; OpAdd 6; OpRemoveUpTo 6; OpAdd 1;
              OpRemoveSmallestInterval] in
  option_Forall2 same_queue (pnq_run (PacketNumberQueue_new true) ops)
    (pnq_run (PacketNumberQueue_new false) ops).
Proof.
  apply PacketNumberQueue_representations_agree.
  repeat (constructor || (unfold kU64Max; simpl; lia)).
Defined.

(** [Min] and [Max] of a non-empty valid queue are its least and greatest
    packet numbers, on either representation. *)
Lemma PacketNumberQueue_Min_Max (q : PacketNumberQueue) :
  pnq_ok q -> PacketNumberQueue_Empty q = false ->
  exists mn mx, PacketNumberQueue_Min q = Some mn /\ PacketNumberQueue_Max q = Some mx /\
    pnq_mem mn q /\ pnq_mem mx q /\ forall v, pnq_mem v q -> mn <= v <= mx.
Proof.
  intros Hq He. assert (pnq_list q ≠ []) as Hne by (intros E%Empty_spec; congruence).
  destruct (Max_greatest q Hq Hne) as (mx & Hmx & Hin & Hg).
  destruct (PacketNumberQueue_Min q) as [mn|] eqn:Em.
  - destruct (Min_least q mn Hq Em) as [Hmn Hl]. exists mn, mx. split_and!; try done.
    intros v Hv. split; auto.
  - exfalso. rewrite Min_spec in Em. by destruct (pnq_list q).
Qed.

Lemma PacketNumberQueue_Min_Max_witness :
  let q := MkPacketNumberQueue [] [MkInterval 1 3; MkInterval 5 9] true in
  exists mn mx, PacketNumberQueue_Min q = Some mn /\ PacketNumberQueue_Max q = Some mx /\
    pnq_mem mn q /\ pnq_mem mx q /\ forall v, pnq_mem v q -> mn <= v <= mx.
Proof. apply PacketNumberQueue_Min_Max; [apply pnq_example_ok | reflexivity]. Defined.

(** [NumPacketsSlow] is the number of packet numbers held as long as that
    number fits an [int]; from 2^31 on the two representations disagree, since
    the deque variant counts in an [int]. *)
Lemma PacketNumberQueue_NumPackets (q : PacketNumberQueue) :
  (pnq_ok q -> total_length (pnq_list q) < 2 ^ 31 ->
   PacketNumberQueue_NumPacketsSlow q = total_length (pnq_list q)) /\
  (PacketNumberQueue_NumPacketsSlow (MkPacketNumberQueue [] [MkInterval 0 (2 ^ 31)] true)
     = 2 ^ 64 - 2 ^ 31 /\
   PacketNumberQueue_NumPacketsSlow (MkPacketNumberQueue [MkInterval 0 (2 ^ 31)] [] false)
     = 2 ^ 31).
Proof.
  split; [|split; reflexivity]. intros [[_ Hne] _] Hlt. pose proof (total_length_nonneg _ Hne).
  unfold PacketNumberQueue_NumPacketsSlow, pnq_list in *. destruct (use_deque_ q).
  - rewrite (NumPackets_fold _ _ 0 (2 ^ 31)); try done; [apply u64_id; unfold is_u64; lia|].
    intros x Hx. apply wrapS_id; lia.
  - rewrite (NumPackets_fold _ _ 0 (2 ^ 31)); try done. intros x Hx. apply u64_id. unfold is_u64. lia.
Qed.

Lemma PacketNumberQueue_NumPackets_witness :
  let q := MkPacketNumberQueue [] [MkInterval 1 3; MkInterval 5 9] true in
  PacketNumberQueue_NumPacketsSlow q = 6.
Proof.
  intros q. apply (PacketNumberQueue_NumPackets q); [apply pnq_example_ok | reflexivity].
Defined.
