(* ===== verification/PacketSet.v ===== *)
(** * The interface of a set of packet numbers

    What quic_received_packet_manager.cc relies on from the [packets] member of
    an ack frame, as a class of operations and a class of laws over the list of
    disjoint intervals a queue denotes.  [PacketNumberQueue] implements it with
    either of its representations. *)

From S2P Require Import Prelude StdSet Interval IntervalSet IntervalSetFacts.
From S2P Require Import PacketNumberQueue PacketNumberQueueFacts.

Class PacketSet (Q : Type) := {
  ps_new : Q;
  ps_add : Q -> Z -> option Q;
  ps_remove_up_to : Q -> Z -> option (Q * bool);
  ps_remove_smallest : Q -> option Q;
  ps_contains : Q -> Z -> option bool;
  ps_empty : Q -> bool;
  ps_min : Q -> option Z;
  ps_num_intervals : Q -> Z;
  ps_last_interval_length : Q -> option Z;
  (** The abstract state: the intervals in ascending order. *)
  ps_intervals : Q -> list Interval;
}.

Definition ps_mem `{PacketSet Q} (v : Z) (q : Q) : Prop := iset_mem v (ps_intervals q).

Definition ps_ok `{PacketSet Q} (q : Q) : Prop :=
  iset_ok (ps_intervals q) /\ pn_range (ps_intervals q).

Class PacketSetLaws (Q : Type) `{PacketSet Q} : Prop := {
  ps_new_law : ps_intervals (Q := Q) ps_new = [];
  ps_add_law (q : Q) pn : ps_ok q -> 0 <= pn < kU64Max ->
    exists q', ps_add q pn = Some q' /\ ps_ok q' /\
      forall v, ps_mem v q' <-> ps_mem v q \/ v = pn;
  ps_remove_up_to_law (q : Q) higher : ps_ok q -> 0 <= higher ->
    exists q' b, ps_remove_up_to q higher = Some (q', b) /\ ps_ok q' /\
      (forall v, ps_mem v q' <-> ps_mem v q /\ higher <= v) /\
      (b = true <-> exists v, ps_mem v q /\ v < higher);
  ps_remove_smallest_law (q : Q) i l : ps_ok q -> ps_intervals q = i :: l ->
    exists q', ps_remove_smallest q = Some q' /\ ps_ok q' /\ ps_intervals q' = l;
  ps_contains_law (q : Q) v : ps_ok q ->
    exists b, ps_contains q v = Some b /\ (b = true <-> ps_mem v q);
  ps_empty_law (q : Q) : ps_empty q = true <-> ps_intervals q = [];
  ps_min_law (q : Q) : ps_min q = (i ← head (ps_intervals q); Some (min_ i));
  ps_num_intervals_law (q : Q) : ps_num_intervals q = Z.of_nat (length (ps_intervals q));
  ps_last_interval_length_law (q : Q) :
    ps_last_interval_length q = (i ← last (ps_intervals q); Some (Interval_Length i));
}.

(** [PacketNumberQueue], for either value of the flag. *)
Section Instance_PacketNumberQueue.
Variable deque_flag : bool.

Definition PacketNumberQueue_set : PacketSet PacketNumberQueue := {|
  ps_new := PacketNumberQueue_new deque_flag;
  ps_add := PacketNumberQueue_Add;
  ps_remove_up_to := PacketNumberQueue_RemoveUpTo;
  ps_remove_smallest := PacketNumberQueue_RemoveSmallestInterval;
  ps_contains := PacketNumberQueue_Contains;
  ps_empty := PacketNumberQueue_Empty;
  ps_min := PacketNumberQueue_Min;
  ps_num_intervals := PacketNumberQueue_NumIntervals;
  ps_last_interval_length := PacketNumberQueue_LastIntervalLength;
  ps_intervals := pnq_list
|}.

Lemma PacketNumberQueue_laws : PacketSetLaws PacketNumberQueue (H := PacketNumberQueue_set).
Proof.
  split; unfold ps_mem; simpl.
  - by destruct deque_flag.
  - intros q pn Hq Hpn. destruct (Add_result q pn Hq Hpn) as (q' & ? & ? & ? & ?). by exists q'.
  - intros q h Hq Hh. destruct (RemoveUpTo_result q h Hq Hh) as (q' & b & ? & (? & ? & ?) & ?).
    by exists q', b.
  - intros q i l Hq Hl. pose proof (RemoveSmallestInterval_result q Hq) as R. rewrite Hl in R.
    destruct R as (q' & ? & ? & ? & ?). by exists q'.
  - intros q v Hq. by apply Contains_result.
  - apply Empty_spec.
  - apply Min_spec.
  - intros q. unfold PacketNumberQueue_NumIntervals, pnq_list. by case_if.
  - intros q. unfold PacketNumberQueue_LastIntervalLength, pnq_list. by case_if.
Qed.

End Instance_PacketNumberQueue.
