(* ===== verification/QuicTime.v ===== *)
(** * quic/core/quic_time.{h,cc}: relative and absolute times in microseconds

    [QuicTime] and [QuicTime::Delta] wrap an [int64_t], [QuicWallTime] a
    [uint64_t]; each is the [Z] it holds.  Signed operations are written with
    the 64-bit wrap-around of the compiled code; where C++ leaves an overflow
    undefined the theorems are about arguments that do not overflow. *)

From S2P Require Import Prelude.

(** ** QuicTime::Delta *)

Definition kQuicInfiniteTimeUs : Z := kI64Max.

Definition Delta_Zero : Z := 0.
Definition Delta_Infinite : Z := kQuicInfiniteTimeUs.
Definition Delta_FromSeconds (secs : Z) : Z := i64 (i64 (secs * 1000) * 1000).
Definition Delta_FromMilliseconds (ms : Z) : Z := i64 (ms * 1000).
Definition Delta_FromMicroseconds (us : Z) : Z := us.
(** C++ integer division truncates towards zero. *)
Definition Delta_ToSeconds (d : Z) : Z := Z.quot (Z.quot d 1000) 1000.
Definition Delta_ToMilliseconds (d : Z) : Z := Z.quot d 1000.
Definition Delta_ToMicroseconds (d : Z) : Z := d.
Definition Delta_IsZero (d : Z) : bool := d =? 0.
Definition Delta_IsInfinite (d : Z) : bool := d =? kQuicInfiniteTimeUs.

Definition Delta_eqb (lhs rhs : Z) : bool := lhs =? rhs.
Definition Delta_ltb (lhs rhs : Z) : bool := lhs <? rhs.
Definition Delta_gtb (lhs rhs : Z) : bool := Delta_ltb rhs lhs.
Definition Delta_leb (lhs rhs : Z) : bool := negb (Delta_ltb rhs lhs).
Definition Delta_geb (lhs rhs : Z) : bool := negb (Delta_ltb lhs rhs).
Definition Delta_shr (lhs rhs : Z) : Z := Z.shiftr lhs rhs.
Definition Delta_add (lhs rhs : Z) : Z := i64 (lhs + rhs).
Definition Delta_sub (lhs rhs : Z) : Z := i64 (lhs - rhs).
Definition Delta_mul_int (lhs rhs : Z) : Z := i64 (lhs * rhs).

(** ** QuicTime *)

Definition QuicTime_Zero : Z := 0.
Definition QuicTime_Infinite : Z := kQuicInfiniteTimeUs.
Definition QuicTime_IsInitialized (t : Z) : bool := negb (0 =? t).
Definition QuicTime_eqb (lhs rhs : Z) : bool := lhs =? rhs.
Definition QuicTime_ltb (lhs rhs : Z) : bool := lhs <? rhs.
Definition QuicTime_gtb (lhs rhs : Z) : bool := QuicTime_ltb rhs lhs.
Definition QuicTime_leb (lhs rhs : Z) : bool := negb (QuicTime_ltb rhs lhs).
Definition QuicTime_geb (lhs rhs : Z) : bool := negb (QuicTime_ltb lhs rhs).
Definition QuicTime_add (lhs rhs : Z) : Z := i64 (lhs + rhs).
Definition QuicTime_sub (lhs rhs : Z) : Z := i64 (lhs - rhs).
Definition QuicTime_diff (lhs rhs : Z) : Z := i64 (lhs - rhs).

(** ** QuicWallTime *)

Definition QuicWallTime_FromUNIXSeconds (seconds : Z) : Z := u64 (seconds * 1000000).
Definition QuicWallTime_FromUNIXMicroseconds (microseconds : Z) : Z := microseconds.
Definition QuicWallTime_ToUNIXSeconds (t : Z) : Z := t / 1000000.
Definition QuicWallTime_ToUNIXMicroseconds (t : Z) : Z := t.
Definition QuicWallTime_IsAfter (t other : Z) : bool := t >? other.
Definition QuicWallTime_IsBefore (t other : Z) : bool := t <? other.
Definition QuicWallTime_IsZero (t : Z) : bool := t =? 0.

Definition QuicWallTime_AbsoluteDifference (t other : Z) : Z :=
  let d := if t >? other then t -64 other else other -64 t in
  let d := if d >? kI64Max then kI64Max else d in
  Delta_FromMicroseconds (i64 d).

(** [microseconds_ + delta.ToMicroseconds()] converts the delta to unsigned. *)
Definition QuicWallTime_Add (t delta : Z) : Z :=
  let microseconds := t +64 Delta_ToMicroseconds delta in
  if microseconds <? t then kU64Max else microseconds.

Definition QuicWallTime_Subtract (t delta : Z) : Z :=
  let microseconds := t -64 Delta_ToMicroseconds delta in
  if microseconds >? t then 0 else microseconds.

(** ** Lemmas *)

Lemma u64_add_overflow a b :
  is_u64 a -> 0 <= b < 2 ^ 64 -> a +64 b = if a + b <? 2 ^ 64 then a + b else a + b - 2 ^ 64.
Proof.
  intros Ha Hb. unfold is_u64 in Ha. case_if; bool_to_prop; [apply u64_id; unfold is_u64; lia|].
  unfold u64, wrapU. symmetry. apply (Zmod_unique _ _ 1); lia.
Qed.

Lemma u64_sub_borrow a b :
  is_u64 a -> 0 <= b < 2 ^ 64 -> a -64 b = if b <=? a then a - b else a - b + 2 ^ 64.
Proof.
  intros Ha Hb. unfold is_u64 in Ha. case_if; bool_to_prop; [apply u64_id; unfold is_u64; lia|].
  unfold u64, wrapU. symmetry. apply (Zmod_unique _ _ (-1)); lia.
Qed.

Lemma u64_neg_delta a d :
  is_u64 a -> - 2 ^ 63 <= d < 0 -> a +64 d = if - d <=? a then a + d else a + d + 2 ^ 64.
Proof.
  intros Ha Hd. replace (a + d) with (a - (- d)) by lia.
  rewrite u64_sub_borrow by (done || lia). case_if; lia.
Qed.

(** Points in time on one clock: adding an offset and taking the difference
    are inverse when nothing overflows. *)
Lemma QuicTime_diff_add t d :
  is_i64 t -> is_i64 d -> is_i64 (t + d) -> QuicTime_diff (QuicTime_add t d) t = d.
Proof.
  intros Ht Hd Hs. unfold QuicTime_diff, QuicTime_add. rewrite (i64_id (t + d)) by done.
  replace (t + d - t) with d by lia. by apply i64_id.
Qed.

Lemma QuicTime_add_diff t s :
  is_i64 t -> is_i64 s -> is_i64 (t - s) -> QuicTime_add s (QuicTime_diff t s) = t.
Proof.
  intros Ht Hs Hd. unfold QuicTime_diff, QuicTime_add. rewrite (i64_id (t - s)) by done.
  replace (s + (t - s)) with t by lia. by apply i64_id.
Qed.

Lemma QuicTime_diff_nowrap t s :
  0 <= s -> 0 <= t -> is_i64 t -> is_i64 s -> QuicTime_diff t s = t - s.
Proof. intros. apply i64_id. unfold is_i64 in *. lia. Qed.

(** ** Properties *)

Lemma WallTime_nonnegative t delta :
  is_u64 t -> 0 <= delta < 2 ^ 63 ->
  QuicWallTime_Add t delta = Z.min (t + delta) kU64Max /\
  QuicWallTime_Subtract t delta = Z.max (t - delta) 0.
Proof.
  intros Ht Hd. unfold QuicWallTime_Add, QuicWallTime_Subtract, Delta_ToMicroseconds, kU64Max.
  rewrite u64_add_overflow, u64_sub_borrow by (done || lia). unfold is_u64 in Ht. split.
  - destruct (t + delta <? 2 ^ 64) eqn:E; bsolve.
  - destruct (delta <=? t) eqn:E; bsolve.
Qed.

(** [QuicWallTime::Add] and [Subtract] of a non-negative delta are exact
    when the result fits and saturate at the end of the range otherwise.  A
    negative delta defeats the overflow tests: [Add] of one that does not go below
    zero gives the greatest time instead of an earlier one, and [Subtract] of one
    that does not overflow gives zero instead of a later one. *)
Lemma QuicWallTime_arithmetic (t delta : Z) :
  is_u64 t -> - 2 ^ 63 <= delta < 2 ^ 63 ->
  (0 <= delta -> QuicWallTime_Add t delta = Z.min (t + delta) kU64Max /\
                 QuicWallTime_Subtract t delta = Z.max (t - delta) 0) /\
  (delta < 0 -> 0 <= t + delta -> QuicWallTime_Add t delta = kU64Max) /\
  (delta < 0 -> t - delta < 2 ^ 64 -> QuicWallTime_Subtract t delta = 0).
Proof.
  intros Ht Hd. split; [intros; apply WallTime_nonnegative; [done|lia]|].
  unfold QuicWallTime_Add, QuicWallTime_Subtract, Delta_ToMicroseconds, kU64Max.
  unfold is_u64 in Ht. split; intros Hn H.
  - rewrite u64_id by (unfold is_u64; lia). bsolve.
  - rewrite u64_id by (unfold is_u64; lia). bsolve.
Qed.

Lemma QuicWallTime_arithmetic_witness :
  QuicWallTime_Add 1000 (-1) = kU64Max /\ QuicWallTime_Subtract 1000 (-1) = 0 /\
  QuicWallTime_Add (2 ^ 64 - 3) 5 = Z.min (2 ^ 64 - 3 + 5) kU64Max.
Proof.
  destruct (QuicWallTime_arithmetic 1000 (-1)) as (_ & H1 & H2); [unfold is_u64; lia | lia |].
  destruct (QuicWallTime_arithmetic (2 ^ 64 - 3) 5) as (H3 & _); [unfold is_u64; lia | lia |].
  split; [apply H1; lia | split; [apply H2; lia | apply H3; lia]].
Defined.
