(* ===== verification/ReceivedPacketManager.v ===== *)
(** * quic/core/quic_received_packet_manager.{h,cc}

    The receive side of a connection: which packets arrived, what the ack frame
    reports and what the peer no longer waits for.  The set of packet numbers is
    used through the [PacketSet] interface.  An operation gives [None] only where
    the set's operation is undefined. *)

From S2P Require Import Prelude StdSet Interval IntervalSet IntervalSetFacts.
From S2P Require Import PacketNumberQueue PacketNumberQueueFacts PacketSet QuicTime.
From stdpp Require Import relations.
#[local] Open Scope Z_scope.

Section QuicReceivedPacketManager.
Context {Q : Type} `{PacketSet Q}.

(** ** Data *)

Record QuicAckFrame := MkQuicAckFrame {
  largest_observed : Z;
  ack_delay_time : Z;
  received_packet_times : list (Z * Z);
  packets : Q
}.

Definition QuicAckFrame_new : QuicAckFrame := MkQuicAckFrame 0 Delta_Infinite [] ps_new.

Definition IsAwaitingPacket_frame (ack_frame : QuicAckFrame) (packet_number : Z)
    (peer_least_packet_awaiting_ack : Z) : option bool :=
  if packet_number >=? peer_least_packet_awaiting_ack
  then c ← ps_contains (packets ack_frame) packet_number; Some (negb c)
  else Some false.

(** The reordering counters of [QuicConnectionStats]. *)
Record ReorderStats := MkReorderStats {
  packets_reordered : Z;
  max_sequence_reordering : Z;
  max_time_reordering_us : Z
}.

Record QuicReceivedPacketManager := MkManager {
  peer_least_packet_awaiting_ack_ : Z;
  ack_frame_ : QuicAckFrame;
  ack_frame_updated_ : bool;
  max_ack_ranges_ : Z;
  time_largest_observed_ : Z;
  stats_ : ReorderStats
}.

Definition kMaxPacketsAfterNewMissing : Z := 4.

Definition Manager_new (stats : ReorderStats) : QuicReceivedPacketManager :=
  MkManager 0 QuicAckFrame_new false 0 QuicTime_Zero stats.

Definition set_max_ack_ranges (m : QuicReceivedPacketManager) (max_ack_ranges : Z) :=
  MkManager (peer_least_packet_awaiting_ack_ m) (ack_frame_ m) (ack_frame_updated_ m)
    max_ack_ranges (time_largest_observed_ m) (stats_ m).

(** ** Operations *)

(** The statistics of a packet that arrives behind the largest one. *)
Definition record_reordering (m : QuicReceivedPacketManager) (packet_number receipt_time : Z)
    : ReorderStats :=
  let s := stats_ m in
  if largest_observed (ack_frame_ m) >? packet_number then
    MkReorderStats (packets_reordered s +64 1)
      (Z.max (max_sequence_reordering s) (largest_observed (ack_frame_ m) -64 packet_number))
      (Z.max (max_time_reordering_us s)
         (Delta_ToMicroseconds (QuicTime_diff receipt_time (time_largest_observed_ m))))
  else s.

Definition RecordPacketReceived (m : QuicReceivedPacketManager) (packet_number receipt_time : Z)
    : option QuicReceivedPacketManager :=
  let frame := ack_frame_ m in
  let times := if negb (ack_frame_updated_ m) then [] else received_packet_times frame in
  ps ← ps_add (packets frame) packet_number;
  let stats := record_reordering m packet_number receipt_time in
  let '(largest, time_largest) :=
    if packet_number >? largest_observed frame then (packet_number, receipt_time)
    else (largest_observed frame, time_largest_observed_ m) in
  Some (MkManager (peer_least_packet_awaiting_ack_ m)
          (MkQuicAckFrame largest (ack_delay_time frame)
             (times ++ [(packet_number, receipt_time)]) ps)
          true (max_ack_ranges_ m) time_largest stats).

Definition IsMissing (m : QuicReceivedPacketManager) (packet_number : Z) : option bool :=
  if packet_number <? largest_observed (ack_frame_ m)
  then c ← ps_contains (packets (ack_frame_ m)) packet_number; Some (negb c)
  else Some false.

Definition IsAwaitingPacket (m : QuicReceivedPacketManager) (packet_number : Z) : option bool :=
  IsAwaitingPacket_frame (ack_frame_ m) packet_number (peer_least_packet_awaiting_ack_ m).

(** The [while] that bounds the number of ranges; each round removes one, so
    [fuel] at least the number of intervals lets it run to its exit. *)
Fixpoint trim_ranges (fuel : nat) (max_ack_ranges : Z) (ps : Q) : option Q :=
  if (max_ack_ranges >? 0) && (ps_num_intervals ps >? max_ack_ranges) then
    match fuel with
    | O => None
    | S fuel => ps ← ps_remove_smallest ps; trim_ranges fuel max_ack_ranges ps
    end
  else Some ps.

(** [std::numeric_limits<uint8_t>::max()]. *)
Definition kU8Max : Z := 255.

Definition GetUpdatedAckFrame (m : QuicReceivedPacketManager) (approximate_now : Z)
    : option (QuicReceivedPacketManager * QuicAckFrame) :=
  let frame := ack_frame_ m in
  let delay :=
    if QuicTime_eqb (time_largest_observed_ m) QuicTime_Zero then Delta_Infinite
    else if QuicTime_ltb approximate_now (time_largest_observed_ m) then Delta_Zero
    else QuicTime_diff approximate_now (time_largest_observed_ m) in
  ps ← trim_ranges (Z.to_nat (ps_num_intervals (packets frame))) (max_ack_ranges_ m)
         (packets frame);
  let times :=
    List.filter (fun p => negb (largest_observed frame -64 fst p >=? kU8Max))
      (received_packet_times frame) in
  let frame := MkQuicAckFrame (largest_observed frame) delay times ps in
  Some (MkManager (peer_least_packet_awaiting_ack_ m) frame false (max_ack_ranges_ m)
          (time_largest_observed_ m) (stats_ m), frame).

Definition DontWaitForPacketsBefore (m : QuicReceivedPacketManager) (least_unacked : Z)
    : option QuicReceivedPacketManager :=
  let frame := ack_frame_ m in
  if least_unacked >? peer_least_packet_awaiting_ack_ m then
    match ps_remove_up_to (packets frame) least_unacked with
    | None => None
    | Some (ps, packets_updated) =>
        Some (MkManager least_unacked
                (MkQuicAckFrame (largest_observed frame) (ack_delay_time frame)
                   (received_packet_times frame) ps)
                (if (packets_updated : bool) then true else ack_frame_updated_ m)
                (max_ack_ranges_ m) (time_largest_observed_ m) (stats_ m))
    end
  else Some m.

Definition HasMissingPackets (m : QuicReceivedPacketManager) : option bool :=
  let ps := packets (ack_frame_ m) in
  if ps_num_intervals ps >? 1 then Some true
  else if negb (ps_empty ps) then
    mn ← ps_min ps; Some (mn >? Z.max 1 (peer_least_packet_awaiting_ack_ m))
  else Some false.

Definition HasNewMissingPackets (m : QuicReceivedPacketManager) : option bool :=
  missing ← HasMissingPackets m;
  if (missing : bool) then
    n ← ps_last_interval_length (packets (ack_frame_ m));
    Some (n <=? kMaxPacketsAfterNewMissing)
  else Some false.

Definition ack_frame_updated (m : QuicReceivedPacketManager) : bool := ack_frame_updated_ m.

Definition GetLargestObserved (m : QuicReceivedPacketManager) : Z :=
  largest_observed (ack_frame_ m).

(** ** Steps of a connection and their history

    The connection records only packets it still awaits.  [manager_step] pairs
    each operation with its effect on the list of all packets recorded so far. *)

Inductive manager_step
    : QuicReceivedPacketManager * list Z -> QuicReceivedPacketManager * list Z -> Prop :=
| StepRecord m m' hist pn time :
    0 < pn < kU64Max -> IsAwaitingPacket m pn = Some true ->
    RecordPacketReceived m pn time = Some m' ->
    manager_step (m, hist) (m', pn :: hist)
| StepAckFrame m m' frame hist now :
    GetUpdatedAckFrame m now = Some (m', frame) -> manager_step (m, hist) (m', hist)
| StepDontWait m m' hist least :
    0 <= least -> peer_least_packet_awaiting_ack_ m <= least ->
    DontWaitForPacketsBefore m least = Some m' -> manager_step (m, hist) (m', hist).

(** ** Invariant *)

Context `{!PacketSetLaws Q}.

Record manager_ok (m : QuicReceivedPacketManager) (hist : list Z) : Prop := {
  mok_packets : ps_ok (packets (ack_frame_ m));
  mok_least : 0 <= peer_least_packet_awaiting_ack_ m;
  mok_range : Forall (fun v => 0 < v < kU64Max) hist;
  (** Nothing is reported that was not received. *)
  mok_sound : forall v, ps_mem v (packets (ack_frame_ m)) ->
    v ∈ hist /\ peer_least_packet_awaiting_ack_ m <= v;
  (** Without a bound on the ranges everything awaited that arrived is reported. *)
  mok_complete : max_ack_ranges_ m = 0 -> forall v, v ∈ hist ->
    peer_least_packet_awaiting_ack_ m <= v -> ps_mem v (packets (ack_frame_ m));
  mok_largest : largest_observed (ack_frame_ m) = foldr Z.max 0 hist;
  mok_times : Forall (fun p => fst p ∈ hist) (received_packet_times (ack_frame_ m));
}.

Lemma trim_ranges_spec fuel mx ps :
  ps_ok ps -> (length (ps_intervals ps) <= fuel)%nat ->
  exists ps', trim_ranges fuel mx ps = Some ps' /\ ps_ok ps' /\
    ps_intervals ps' =
      (if mx >? 0 then drop (length (ps_intervals ps) - Z.to_nat mx) (ps_intervals ps)
       else ps_intervals ps).
Proof.
  revert ps. induction fuel as [|fuel IH]; intros ps Hok Hf; simpl;
    rewrite ps_num_intervals_law; destruct (mx >? 0) eqn:Em; simpl; try by exists ps.
  - replace (Z.of_nat (length (ps_intervals ps)) >? mx) with false by lia.
    exists ps. split_and!; try done. by replace (length (ps_intervals ps) - Z.to_nat mx)%nat
      with 0%nat by lia.
  - destruct (Z.of_nat (length (ps_intervals ps)) >? mx) eqn:El.
    2: { exists ps. split_and!; try done. by replace (length (ps_intervals ps) - Z.to_nat mx)%nat
           with 0%nat by lia. }
    destruct (ps_intervals ps) as [|i l] eqn:Ei; [cbn [length] in *; bool_to_prop; lia|].
    destruct (ps_remove_smallest_law ps i l Hok Ei) as (ps1 & -> & Hok1 & E1). simpl.
    destruct (IH ps1 Hok1) as (ps' & -> & Hok' & E'); [rewrite E1; simpl in Hf; lia|].
    exists ps'. split_and!; try done. rewrite E', E1.
    cbn [length] in *. rewrite Nat.sub_succ_l by (bool_to_prop; lia). done.
Qed.

Lemma manager_new_ok stats : manager_ok (Manager_new stats) [].
Proof.
  split; unfold ps_ok, ps_mem; simpl; rewrite ?ps_new_law; try done.
  - split; [split; constructor|]. constructor.
  - intros v Hv. by apply iset_mem_nil in Hv.
  - intros _ v Hv. by apply elem_of_nil in Hv.
Qed.


Lemma awaiting_spec m pn b :
  ps_ok (packets (ack_frame_ m)) -> IsAwaitingPacket m pn = Some b ->
  b = true <-> peer_least_packet_awaiting_ack_ m <= pn /\ ~ ps_mem pn (packets (ack_frame_ m)).
Proof.
  intros Hok. unfold IsAwaitingPacket, IsAwaitingPacket_frame.
  destruct (ps_contains_law (packets (ack_frame_ m)) pn Hok) as (c & -> & Hc).
  case_if; simpl; intros [= <-]; bool_to_prop; [|split; [done|lia]].
  rewrite <- Hc. destruct c; simpl; intuition lia || done.
Qed.

(** Recording a packet. *)
Lemma Record_ok m hist pn time :
  manager_ok m hist -> 0 < pn < kU64Max -> peer_least_packet_awaiting_ack_ m <= pn ->
  exists m', RecordPacketReceived m pn time = Some m' /\ manager_ok m' (pn :: hist) /\
    (forall v, ps_mem v (packets (ack_frame_ m')) <->
       ps_mem v (packets (ack_frame_ m)) \/ v = pn) /\
    peer_least_packet_awaiting_ack_ m' = peer_least_packet_awaiting_ack_ m /\
    max_ack_ranges_ m' = max_ack_ranges_ m /\ ack_frame_updated_ m' = true.
Proof.
  intros [Hp Hl Hr Hs Hc Hg Ht] Hpn Hle. unfold RecordPacketReceived.
  destruct (ps_add_law (packets (ack_frame_ m)) pn Hp) as (ps & -> & Hok & Hm); [lia|]. simpl.
  assert ((if pn >? largest_observed (ack_frame_ m) then (pn, time)
           else (largest_observed (ack_frame_ m), time_largest_observed_ m)).1
          = foldr Z.max 0 (pn :: hist)) as HL.
  { simpl. rewrite <- Hg. case_if; simpl; lia. }
  destruct (if pn >? _ then _ else _) as [largest tl]. simpl in HL.
  eexists. split; [done|]. simpl. split_and!; try done. split; simpl; try done.
  - by constructor.
  - intros v [Hv| ->]%Hm; [|split; [set_solver|done]]. destruct (Hs v Hv). set_solver.
  - intros Hz v Hv Hv'. apply Hm. apply elem_of_cons in Hv as [->|Hv]; [by right|]. left. by apply Hc.
  - apply Forall_app. split; [|constructor; [set_solver|done]].
    case_if; [done|]. eapply Forall_impl; [exact Ht|]. set_solver.
Qed.

Lemma foldr_max_lt hist b : 0 < b -> Forall (fun v => v < b) hist -> foldr Z.max 0 hist < b.
Proof. intros Hb. induction 1; simpl; lia. Qed.

Lemma pn_order_foldr hist v : v ∈ hist -> v <= foldr Z.max 0 hist.
Proof. induction 1; simpl; lia. Qed.

(** Producing an ack frame. *)
Lemma AckFrame_ok m hist now :
  manager_ok m hist ->
  exists m' frame, GetUpdatedAckFrame m now = Some (m', frame) /\ manager_ok m' hist /\
    ack_frame_ m' = frame /\ ack_frame_updated_ m' = false /\
    ps_intervals (packets frame) =
      (let l := ps_intervals (packets (ack_frame_ m)) in
       if max_ack_ranges_ m >? 0 then drop (length l - Z.to_nat (max_ack_ranges_ m)) l else l) /\
    received_packet_times frame =
      List.filter (fun p => largest_observed (ack_frame_ m) - fst p <? kU8Max)
        (received_packet_times (ack_frame_ m)).
Proof.
  intros [Hp Hl Hr Hs Hc Hg Ht]. unfold GetUpdatedAckFrame. rewrite ps_num_intervals_law.
  destruct (trim_ranges_spec (Z.to_nat (Z.of_nat (length (ps_intervals (packets (ack_frame_ m))))))
    (max_ack_ranges_ m) (packets (ack_frame_ m)) Hp) as (ps & -> & Hok & Hps); [lia|]. simpl.
  assert (forall v, ps_mem v ps -> ps_mem v (packets (ack_frame_ m))) as Hsub.
  { intros v. unfold ps_mem. rewrite Hps. case_if; [|done]. intros Hv.
    rewrite <- (take_drop (length (ps_intervals (packets (ack_frame_ m)))
       - Z.to_nat (max_ack_ranges_ m)) (ps_intervals (packets (ack_frame_ m)))).
    rewrite iset_mem_app. by right. }
  eexists _, _. split; [done|]. simpl. split_and!; try done.
  - split; simpl; try done.
    + intros v Hv. by apply Hs, Hsub.
    + intros Hz v Hv Hv'. unfold ps_mem. rewrite Hps, Hz. simpl. by apply Hc.
    + rewrite Forall_forall in Ht |- *. intros p Hin. apply Ht.
      apply list_elem_of_In, filter_In in Hin as [Hin _]. by apply list_elem_of_In.
  - apply filter_ext_in. intros p Hin%list_elem_of_In. rewrite Forall_forall in Ht. pose proof Hr as Hr'.
    rewrite Forall_forall in Hr.
    pose proof (Ht p Hin) as Hp'. pose proof (Hr _ Hp') as Hv. simpl in Hv.
    pose proof (pn_order_foldr hist (fst p) Hp'). pose proof (foldr_max_lt hist kU64Max) as Hlt.
    rewrite Hg. rewrite u64_id; [lia|]. unfold is_u64, kU64Max in *.
    enough (foldr Z.max 0 hist < 2 ^ 64 - 1) by lia. apply Hlt; [lia|].
    eapply Forall_impl; [exact Hr'|]. simpl. lia.
Qed.

(** Forgetting packets the peer no longer waits for. *)
Lemma DontWait_ok m hist least :
  manager_ok m hist -> peer_least_packet_awaiting_ack_ m <= least ->
  exists m', DontWaitForPacketsBefore m least = Some m' /\ manager_ok m' hist /\
    peer_least_packet_awaiting_ack_ m' = least /\
    (forall v, ps_mem v (packets (ack_frame_ m')) <->
       ps_mem v (packets (ack_frame_ m)) /\ least <= v) /\
    max_ack_ranges_ m' = max_ack_ranges_ m.
Proof.
  intros Hok Hle. pose proof Hok as [Hp Hl Hr Hs Hc Hg Ht]. unfold DontWaitForPacketsBefore.
  case_if; bool_to_prop.
  - destruct (ps_remove_up_to_law (packets (ack_frame_ m)) least Hp) as (ps & b & -> & Hok' & Hm & _);
      [lia|].
    eexists. split; [done|]. simpl. split_and!; try done. split; simpl; try done; try lia.
    + intros v [Hv Hv']%Hm. destruct (Hs v Hv). done.
    + intros Hz v Hv Hv'. apply Hm. split; [|done]. apply Hc; try done. lia.
  - assert (least = peer_least_packet_awaiting_ack_ m) as -> by lia.
    exists m. split_and!; try done. intros v. split; [|tauto]. intros Hv. destruct (Hs v Hv). done.
Qed.

Lemma manager_step_ok m hist m' hist' :
  manager_ok m hist -> manager_step (m, hist) (m', hist') -> manager_ok m' hist'.
Proof.
  intros Hok Hstep. inversion Hstep as [? ? ? pn time Hpn Ha Hr|? ? ? ? now Hf|? ? ? least H0 Hle Hd];
    subst.
  - apply awaiting_spec in Ha; [|apply Hok]. destruct Ha as [Ha _].
    destruct (Record_ok m hist pn time Hok Hpn) as (m1 & E & ? & _); [by apply Ha|]. by simplify_eq.
  - destruct (AckFrame_ok m hist' now Hok) as (m1 & f & E & ? & _). by simplify_eq.
  - destruct (DontWait_ok m hist' least Hok Hle) as (m1 & E & ? & _). by simplify_eq.
Qed.

(** [HasMissingPackets]: a hole in the reported set above the peer's least
    awaited packet (and packet 1). *)
Lemma HasMissing_spec m hist :
  manager_ok m hist ->
  exists b, HasMissingPackets m = Some b /\
    (b = true <-> exists v w, Z.max 1 (peer_least_packet_awaiting_ack_ m) <= v < w /\
       ps_mem w (packets (ack_frame_ m)) /\ ~ ps_mem v (packets (ack_frame_ m))).
Proof.
  intros [[Hok Hrg] Hl Hr Hs _ _ _]. unfold HasMissingPackets, ps_mem in *.
  rewrite ps_num_intervals_law, ps_min_law.
  set (L := Z.max 1 _).
  assert (forall v, iset_mem v (ps_intervals (packets (ack_frame_ m))) -> L <= v) as HL.
  { intros v Hv. destruct (Hs v Hv) as [Hin Hle]. rewrite Forall_forall in Hr.
    specialize (Hr v Hin). simpl in Hr. lia. }
  pose proof (ps_empty_law (packets (ack_frame_ m))) as He. clear Hs.
  destruct (ps_intervals (packets (ack_frame_ m))) as [|i [|j l]].
  - rewrite (proj2 He) by done. simpl. exists false. split; [done|]. split; [done|].
    intros (v & w & _ & Hw & _). by apply iset_mem_nil in Hw.
  - destruct (ps_empty (packets (ack_frame_ m))); [by specialize (proj1 He eq_refl)|]. simpl.
    eexists. split; [done|]. apply iset_ok_cons in Hok as (Hi & _ & _). unfold ival_nonempty in Hi.
    setoid_rewrite iset_mem_single. unfold ival_mem. split.
    + intros ?. exists L, (min_ i). lia.
    + intros (v & w & ?). lia.
  - replace (Z.of_nat (length (i :: j :: l)) >? 1) with true
      by (symmetry; apply Z.gtb_lt; cbn [length]; lia).
    exists true. split; [done|]. split; [|done]. intros _.
    apply iset_ok_cons in Hok as (Hi & Hok & Hg). pose proof Hok as (Hj & _ & _)%iset_ok_cons.
    apply Forall_cons in Hg as Hg'. destruct Hg' as [Hg' _]. unfold ival_nonempty, gap in *.
    exists (max_ i), (min_ j). rewrite !iset_mem_cons. unfold ival_mem.
    pose proof (HL (min_ i)) as HL'. rewrite iset_mem_cons in HL'. unfold ival_mem in HL'.
    split_and!; [lia..|right; left; lia|]. intros [?|Hm%iset_mem_cons]; [lia|].
    pose proof (iset_mem_lb _ _ _ Hg Hm). lia.
Qed.

Lemma reachable_ok s s' :
  rtc manager_step s s' -> manager_ok s.1 s.2 -> manager_ok s'.1 s'.2.
Proof.
  induction 1 as [|[m h] [m' h'] s'' Hstep _ IH]; [done|]. intros Hok. apply IH.
  by apply (manager_step_ok m h).
Qed.

Lemma max_ranges_step s s' : manager_step s s' -> max_ack_ranges_ s'.1 = max_ack_ranges_ s.1.
Proof.
  destruct 1 as [m m' hist pn time _ _ E|m m' frame hist now E|m m' hist least _ _ E]; simpl.
  - unfold RecordPacketReceived in E. destruct (ps_add _ _); [|done]. simpl in E.
    destruct (if pn >? _ then _ else _). by simplify_eq.
  - unfold GetUpdatedAckFrame in E. destruct (trim_ranges _ _ _); [|done]. by simplify_eq/=.
  - unfold DontWaitForPacketsBefore in E. destruct (least >? _); [|by simplify_eq].
    destruct (ps_remove_up_to _ _) as [[??]|]; [|done]. by simplify_eq.
Qed.

Lemma max_ranges_rtc s s' : rtc manager_step s s' -> max_ack_ranges_ s'.1 = max_ack_ranges_ s.1.
Proof. induction 1 as [|s1 s2 s3 H1 _ IH]; [done|]. by rewrite IH, (max_ranges_step _ _ H1). Qed.

Lemma manager_start_ok stats mx : manager_ok (set_max_ack_ranges (Manager_new stats) mx) [].
Proof. destruct (manager_new_ok stats) as []. split; try done. intros _ v Hv. by apply elem_of_nil in Hv. Qed.

(** ** Properties *)

(** C3: in every state reachable from a new manager the largest observed number
    is the maximum of the packets recorded, the ack frame reports only packets
    that were recorded and that the peer still waits for, and without a bound on
    the ranges a packet is awaited exactly when it is not below the peer's
    least awaited one and was not recorded. *)
Theorem received_packets_reachable (stats : ReorderStats) (mx : Z)
    (m : QuicReceivedPacketManager) (hist : list Z) :
  rtc manager_step (set_max_ack_ranges (Manager_new stats) mx, []) (m, hist) ->
  GetLargestObserved m = foldr Z.max 0 hist /\
  (forall v, ps_mem v (packets (ack_frame_ m)) ->
     v ∈ hist /\ peer_least_packet_awaiting_ack_ m <= v) /\
  (mx = 0 -> forall v,
     IsAwaitingPacket m v = Some true <-> peer_least_packet_awaiting_ack_ m <= v /\ v ∉ hist).
Proof.
  intros Hr. pose proof (max_ranges_rtc _ _ Hr) as Hmx. simpl in Hmx.
  assert (manager_ok m hist) as Hok
    by exact (reachable_ok _ _ Hr (manager_start_ok stats mx)).
  split_and!; [apply Hok..|]. intros -> v.
  pose proof (mok_sound _ _ Hok v). pose proof (mok_complete _ _ Hok Hmx v).
  destruct (IsAwaitingPacket m v) as [b|] eqn:E.
  - apply awaiting_spec in E; [|apply Hok]. naive_solver.
  - exfalso. unfold IsAwaitingPacket, IsAwaitingPacket_frame in E.
    destruct (ps_contains_law (packets (ack_frame_ m)) v (mok_packets _ _ Hok)) as (c & Ec & _).
    rewrite Ec in E. by destruct (v >=? _).
Qed.

(** C4: every operation of a reachable manager is defined: recording an awaited
    packet, producing an ack frame and forgetting packets never reach an
    undefined operation of the packet set, and each again gives a state that
    the invariant describes. *)
Theorem received_packets_total (m : QuicReceivedPacketManager) (hist : list Z) (pn now least : Z) :
  manager_ok m hist -> 0 < pn < kU64Max -> peer_least_packet_awaiting_ack_ m <= pn ->
  peer_least_packet_awaiting_ack_ m <= least ->
  (exists m', RecordPacketReceived m pn now = Some m' /\ manager_ok m' (pn :: hist) /\
     forall v, ps_mem v (packets (ack_frame_ m')) <->
       ps_mem v (packets (ack_frame_ m)) \/ v = pn) /\
  (exists m' frame, GetUpdatedAckFrame m now = Some (m', frame) /\ manager_ok m' hist) /\
  (exists m', DontWaitForPacketsBefore m least = Some m' /\ manager_ok m' hist /\
     forall v, ps_mem v (packets (ack_frame_ m')) <->
       ps_mem v (packets (ack_frame_ m)) /\ least <= v).
Proof.
  intros Hok Hpn Hle Hl. split_and!.
  - destruct (Record_ok m hist pn now Hok Hpn Hle) as (m' & ? & ? & ? & _). by exists m'.
  - destruct (AckFrame_ok m hist now Hok) as (m' & f & ? & ? & _). by exists m', f.
  - destruct (DontWait_ok m hist least Hok Hl) as (m' & ? & ? & _ & ? & _). by exists m'.
Qed.

(** The frame handed out by [GetUpdatedAckFrame] reports the last
    [max_ack_ranges_] intervals (all of them when the bound is 0), clears the
    updated flag and keeps exactly the arrival times of packets less than 255
    behind the largest observed one. *)
Lemma ack_frame_bounded (m : QuicReceivedPacketManager) (hist : list Z) (now : Z) :
  manager_ok m hist ->
  exists m' frame, GetUpdatedAckFrame m now = Some (m', frame) /\ ack_frame_ m' = frame /\
    ack_frame_updated m' = false /\
    (0 < max_ack_ranges_ m -> ps_num_intervals (packets frame) <= max_ack_ranges_ m) /\
    (exists dropped,
       ps_intervals (packets (ack_frame_ m)) = dropped ++ ps_intervals (packets frame) /\
       (dropped ≠ [] -> ps_num_intervals (packets frame) = max_ack_ranges_ m)) /\
    received_packet_times frame =
      List.filter (fun p => largest_observed (ack_frame_ m) - fst p <? kU8Max)
        (received_packet_times (ack_frame_ m)).
Proof.
  intros Hok. destruct (AckFrame_ok m hist now Hok) as (m' & f & ? & _ & ? & ? & Hi & ?).
  exists m', f. rewrite ps_num_intervals_law, Hi. simpl.
  set (l := ps_intervals (packets (ack_frame_ m))).
  split_and!; try done; destruct (max_ack_ranges_ m >? 0) eqn:E; bool_to_prop; try lia.
  - intros _. rewrite length_drop. lia.
  - exists (take (length l - Z.to_nat (max_ack_ranges_ m)) l). rewrite take_drop. split; [done|].
    intros Hne. rewrite length_drop.
    destruct (length l - Z.to_nat (max_ack_ranges_ m))%nat eqn:En; [done|]. lia.
  - by exists [].
Qed.

(** [HasMissingPackets] holds exactly when some number not below packet 1
    and the peer's least awaited one is absent below a reported packet. *)
Lemma missing_packets_correct (m : QuicReceivedPacketManager) (hist : list Z) :
  manager_ok m hist ->
  exists b, HasMissingPackets m = Some b /\
    (b = true <-> exists v w, Z.max 1 (peer_least_packet_awaiting_ack_ m) <= v < w /\
       ps_mem w (packets (ack_frame_ m)) /\ ~ ps_mem v (packets (ack_frame_ m))).
Proof. apply HasMissing_spec. Qed.

End QuicReceivedPacketManager.

(** ** Witnesses, on the queue with the deque representation *)

#[local] Instance deque_queue : PacketSet PacketNumberQueue := PacketNumberQueue_set true.

Definition example_stats : ReorderStats := MkReorderStats 0 0 0.

Definition example_run : option QuicReceivedPacketManager :=
  m ← RecordPacketReceived (Manager_new example_stats) 1 10;
  m ← RecordPacketReceived m 4 20;
  DontWaitForPacketsBefore m 2.

Definition example_manager : QuicReceivedPacketManager := default (Manager_new example_stats) example_run.

Lemma example_reachable :
  rtc manager_step (set_max_ack_ranges (Manager_new example_stats) 0, []) (example_manager, [4; 1]).
Proof.
  eapply rtc_l; [eapply (StepRecord _ _ _ 1 10); [unfold kU64Max; lia|reflexivity|reflexivity]|].
  eapply rtc_l; [eapply (StepRecord _ _ _ 4 20); [unfold kU64Max; lia|reflexivity|reflexivity]|].
  eapply rtc_l; [eapply (StepDontWait _ _ _ 2); [lia|simpl; lia|reflexivity]|]. apply rtc_refl.
Qed.

Lemma example_ok : manager_ok example_manager [4; 1].
Proof.
  pose proof (PacketNumberQueue_laws true).
  exact (reachable_ok _ _ example_reachable (manager_start_ok example_stats 0)).
Qed.

Lemma received_packets_reachable_witness :
  GetLargestObserved example_manager = 4 /\
  (IsAwaitingPacket example_manager 3 = Some true <->
     peer_least_packet_awaiting_ack_ example_manager <= 3 /\ 3 ∉ [4; 1]).
Proof.
  destruct (received_packets_reachable (PacketSetLaws0 := PacketNumberQueue_laws true)
              example_stats 0 example_manager [4; 1] example_reachable) as (H1 & _ & H2).
  split; [exact H1 | apply (H2 eq_refl)].
Defined.

Lemma received_packets_total_witness :
  exists m', RecordPacketReceived example_manager 3 30 = Some m' /\
    manager_ok m' [3; 4; 1].
Proof.
  destruct (received_packets_total (PacketSetLaws0 := PacketNumberQueue_laws true)
              example_manager [4; 1] 3 30 3 example_ok) as ((m' & ? & ? & _) & _);
    [unfold kU64Max; lia | vm_compute; congruence | vm_compute; congruence |].
  exists m'. split; assumption.
Defined.

Lemma ack_frame_bounded_witness :
  exists m' frame, GetUpdatedAckFrame example_manager 30 = Some (m', frame) /\
    ack_frame_ m' = frame.
Proof.
  destruct (ack_frame_bounded (PacketSetLaws0 := PacketNumberQueue_laws true)
              example_manager [4; 1] 30 example_ok) as (m' & frame & ? & ? & _).
  exists m', frame. split; assumption.
Defined.

Lemma missing_packets_correct_witness :
  exists b, HasMissingPackets example_manager = Some b /\
    (b = true <-> exists v w, Z.max 1 2 <= v < w /\
       ps_mem w (packets (ack_frame_ example_manager)) /\
       ~ ps_mem v (packets (ack_frame_ example_manager))).
Proof.
  exact (missing_packets_correct (PacketSetLaws0 := PacketNumberQueue_laws true)
           example_manager [4; 1] example_ok).
Defined.
