(* ===== verification/QuicBandwidth.v ===== *)
(** * quic/core/quic_bandwidth.h: bandwidths in bits per second

    A [QuicBandwidth] wraps a non-negative [int64_t]; it is the [Z] it holds.
    Multiplication by a float is in [SoftFloat]. *)

From S2P Require Import Prelude QuicTime.

Definition kNumMicrosPerSecond : Z := 1000 * 1000.

(** The private constructor clamps negative values to zero. *)
Definition QuicBandwidth_new (bits_per_second : Z) : Z :=
  if bits_per_second >=? 0 then bits_per_second else 0.

Definition QuicBandwidth_Zero : Z := QuicBandwidth_new 0.
Definition QuicBandwidth_Infinite : Z := QuicBandwidth_new kI64Max.
Definition QuicBandwidth_FromBitsPerSecond (b : Z) : Z := QuicBandwidth_new b.
Definition QuicBandwidth_FromKBitsPerSecond (k : Z) : Z := QuicBandwidth_new (i64 (k * 1000)).
Definition QuicBandwidth_FromBytesPerSecond (b : Z) : Z := QuicBandwidth_new (i64 (b * 8)).
Definition QuicBandwidth_FromKBytesPerSecond (k : Z) : Z := QuicBandwidth_new (i64 (k * 8000)).

(** [bytes] and the constant are unsigned, so the whole expression is computed
    in [uint64_t] before it is converted to the constructor's [int64_t]. *)
Definition QuicBandwidth_FromBytesAndTimeDelta (bytes delta : Z) : Z :=
  QuicBandwidth_new
    (i64 (u64 (u64 (bytes * kNumMicrosPerSecond) / u64 (Delta_ToMicroseconds delta) * 8))).

Definition QuicBandwidth_ToBitsPerSecond (b : Z) : Z := b.
Definition QuicBandwidth_ToKBitsPerSecond (b : Z) : Z := Z.quot b 1000.
Definition QuicBandwidth_ToBytesPerSecond (b : Z) : Z := Z.quot b 8.
Definition QuicBandwidth_ToKBytesPerSecond (b : Z) : Z := Z.quot b 8000.

(** The product of two signed numbers, divided by an unsigned constant. *)
Definition QuicBandwidth_ToBytesPerPeriod (b time_period : Z) : Z :=
  u64 (i64 (QuicBandwidth_ToBytesPerSecond b * Delta_ToMicroseconds time_period))
    / kNumMicrosPerSecond.

Definition QuicBandwidth_ToKBytesPerPeriod (b time_period : Z) : Z :=
  i64 (u64 (i64 (QuicBandwidth_ToKBytesPerSecond b * Delta_ToMicroseconds time_period))
         / kNumMicrosPerSecond).

Definition QuicBandwidth_IsZero (b : Z) : bool := b =? 0.

Definition QuicBandwidth_TransferTime (b bytes : Z) : Z :=
  if b =? 0 then Delta_Zero
  else Delta_FromMicroseconds (i64 (u64 (u64 (bytes * 8) * kNumMicrosPerSecond) / u64 b)).

Definition QuicBandwidth_eqb (lhs rhs : Z) : bool :=
  QuicBandwidth_ToBitsPerSecond lhs =? QuicBandwidth_ToBitsPerSecond rhs.
Definition QuicBandwidth_ltb (lhs rhs : Z) : bool :=
  QuicBandwidth_ToBitsPerSecond lhs <? QuicBandwidth_ToBitsPerSecond rhs.
Definition QuicBandwidth_gtb (lhs rhs : Z) : bool := QuicBandwidth_ltb rhs lhs.
Definition QuicBandwidth_leb (lhs rhs : Z) : bool := negb (QuicBandwidth_ltb rhs lhs).
Definition QuicBandwidth_geb (lhs rhs : Z) : bool := negb (QuicBandwidth_ltb lhs rhs).
Definition QuicBandwidth_add (lhs rhs : Z) : Z := QuicBandwidth_new (i64 (lhs + rhs)).
Definition QuicBandwidth_sub (lhs rhs : Z) : Z := QuicBandwidth_new (i64 (lhs - rhs)).
Definition QuicBandwidth_mul_delta (lhs rhs : Z) : Z := QuicBandwidth_ToBytesPerPeriod lhs rhs.

(** ** Lemmas *)

(** A valid bandwidth. *)
Definition is_bandwidth (b : Z) : Prop := 0 <= b < 2 ^ 63.

Lemma QuicBandwidth_new_valid x : is_i64 x -> is_bandwidth (QuicBandwidth_new x).
Proof. unfold is_i64, is_bandwidth, QuicBandwidth_new. case_if; blia. Qed.

Lemma u64_i64_nonneg x : 0 <= x < 2 ^ 63 -> u64 (i64 x) = x.
Proof.
  intros Hx. rewrite i64_id by (unfold is_i64; lia). apply u64_id. unfold is_u64. lia.
Qed.

(** [TransferTime] without overflow is the exact quotient. *)
Lemma TransferTime_exact b bytes :
  0 < b < 2 ^ 63 -> 0 <= bytes -> bytes * 8 * kNumMicrosPerSecond < 2 ^ 63 ->
  QuicBandwidth_TransferTime b bytes = bytes * 8 * kNumMicrosPerSecond / b.
Proof.
  intros Hb H1 H2. unfold QuicBandwidth_TransferTime, Delta_FromMicroseconds.
  unfold kNumMicrosPerSecond in *.
  replace (b =? 0) with false by (symmetry; apply Z.eqb_neq; lia).
  rewrite (u64_id (bytes * 8)) by (unfold is_u64; lia).
  rewrite !u64_id by (unfold is_u64; lia). apply i64_id. unfold is_i64.
  pose proof (Z.div_pos (bytes * 8 * (1000 * 1000)) b).
  pose proof (Z.div_le_upper_bound (bytes * 8 * (1000 * 1000)) b (bytes * 8 * (1000 * 1000))). nia.
Qed.

Lemma ToBytesPerPeriod_exact b t :
  0 <= b -> 0 <= t -> b / 8 * t < 2 ^ 63 ->
  QuicBandwidth_ToBytesPerPeriod b t = b / 8 * t / kNumMicrosPerSecond.
Proof.
  intros Hb Ht H. unfold QuicBandwidth_ToBytesPerPeriod, QuicBandwidth_ToBytesPerSecond,
    Delta_ToMicroseconds. rewrite Z.quot_div_nonneg by lia.
  rewrite u64_i64_nonneg; [done|]. split; [|done]. apply Z.mul_nonneg_nonneg; [|done].
  apply Z.div_pos; lia.
Qed.

(** ** Properties *)

(** Without overflow the transfer time of some bytes at a bandwidth never
    exceeds the exact time and is less than a microsecond short of it, so that
    no more than the bytes given are sent in that time at that bandwidth. *)
Lemma QuicBandwidth_TransferTime_tight (b bytes : Z) :
  0 < b < 2 ^ 63 -> 0 <= bytes -> bytes * 8 * kNumMicrosPerSecond < 2 ^ 63 ->
  let t := QuicBandwidth_TransferTime b bytes in
  b * t <= bytes * 8 * kNumMicrosPerSecond < b * (t + 1) /\
  QuicBandwidth_ToBytesPerPeriod b t <= bytes.
Proof.
  intros Hb H0 H1 t. assert (t = bytes * 8 * kNumMicrosPerSecond / b) as Et
    by (by apply TransferTime_exact).
  assert (b * t <= bytes * 8 * kNumMicrosPerSecond < b * (t + 1)) as Ht.
  { rewrite Et. pose proof (Z.mul_div_le (bytes * 8 * kNumMicrosPerSecond) b).
    pose proof (Z.mul_succ_div_gt (bytes * 8 * kNumMicrosPerSecond) b). lia. }
  split; [done|]. assert (0 <= t) by (rewrite Et; apply Z.div_pos; unfold kNumMicrosPerSecond; lia).
  pose proof (Z.mul_div_le b 8). assert (8 * (b / 8) * t <= b * t) by nia.
  rewrite ToBytesPerPeriod_exact by (unfold kNumMicrosPerSecond in *; lia).
  apply Z.div_le_upper_bound; unfold kNumMicrosPerSecond in *; lia.
Qed.

Lemma QuicBandwidth_TransferTime_tight_witness :
  let t := QuicBandwidth_TransferTime 1000000 1460 in
  1000000 * t <= 1460 * 8 * kNumMicrosPerSecond < 1000000 * (t + 1) /\
  QuicBandwidth_ToBytesPerPeriod 1000000 t <= 1460.
Proof. apply QuicBandwidth_TransferTime_tight; unfold kNumMicrosPerSecond; lia. Defined.
