(* ===== verification/WindowedFilter.v ===== *)
(** * quic/core/congestion_control/windowed_filter.h: Kathleen Nichols' filter

    The class template [WindowedFilter<T, Compare, TimeT, TimeDeltaT>].  The
    comparison and the time type are type classes: [FilterOrder] is what
    [MinFilter] and [MaxFilter] promise, [FilterTime] is what a pair of a time
    type and its difference type promises.  The instances are those of
    bbr_sender.h: round-trip counts ([uint64_t], unsigned difference) and
    [QuicTime] with [QuicTime::Delta]. *)

From S2P Require Import Prelude QuicTime.

(** ** The interfaces *)

(** [Compare()(lhs, rhs)]: [lhs] is at least as good as [rhs]. *)
Class FilterOrder {T : Type} (Compare : T -> T -> bool) : Prop := {
  Compare_refl a : Compare a a = true;
  Compare_trans a b c : Compare a b = true -> Compare b c = true -> Compare a c = true;
  Compare_total a b : Compare a b = false -> Compare b a = true;
}.

(** Times are integers; [time_sub] is the difference the code computes, exact
    from a later valid time to an earlier one. *)
Class FilterTime := {
  time_sub : Z -> Z -> Z;
  time_valid : Z -> Prop;
  time_sub_exact a b : time_valid a -> time_valid b -> b <= a -> time_sub a b = a - b;
}.

Definition MinFilter (lhs rhs : Z) : bool := lhs <=? rhs.
Definition MaxFilter (lhs rhs : Z) : bool := lhs >=? rhs.

#[export] Instance MinFilter_order : FilterOrder MinFilter.
Proof. unfold MinFilter. split; intros; blia. Qed.

#[export] Instance MaxFilter_order : FilterOrder MaxFilter.
Proof. unfold MaxFilter. split; intros; lia. Qed.

(** [QuicRoundTripCount] is [uint64_t], for the time and the difference. *)
Program Definition RoundTripTime : FilterTime :=
  {| time_sub a b := a -64 b; time_valid a := is_u64 a |}.
Next Obligation. intros a b Ha Hb Hle. apply u64_id. unfold is_u64 in *. lia. Qed.

Program Definition QuicTimeTime : FilterTime :=
  {| time_sub := QuicTime_diff; time_valid a := 0 <= a /\ is_i64 a |}.
Next Obligation. intros a b [? ?] [? ?] ?. by apply QuicTime_diff_nowrap. Qed.

Section WindowedFilter.
Context {T : Type} `{EqDecision T} (Compare : T -> T -> bool) {TM : FilterTime}.

(** ** Data and operations *)

Record Sample := MkSample { sample : T; time : Z }.

Record WindowedFilter := MkWindowedFilter {
  window_length_ : Z;
  zero_value_ : T;
  estimates_ : Sample * Sample * Sample
}.

Definition WindowedFilter_new (window_length : Z) (zero_value : T) (zero_time : Z)
    : WindowedFilter :=
  MkWindowedFilter window_length zero_value
    (MkSample zero_value zero_time, MkSample zero_value zero_time,
     MkSample zero_value zero_time).

Definition set_estimates (f : WindowedFilter) (e : Sample * Sample * Sample) : WindowedFilter :=
  MkWindowedFilter (window_length_ f) (zero_value_ f) e.

Definition WindowedFilter_Reset (f : WindowedFilter) (new_sample : T) (new_time : Z)
    : WindowedFilter :=
  let s := MkSample new_sample new_time in set_estimates f (s, s, s).

Definition WindowedFilter_Update (f : WindowedFilter) (new_sample : T) (new_time : Z)
    : WindowedFilter :=
  let s := MkSample new_sample new_time in
  let w := window_length_ f in
  let '(e0, e1, e2) := estimates_ f in
  if bool_decide (sample e0 = zero_value_ f) || Compare new_sample (sample e0)
     || (time_sub new_time (time e2) >? w)
  then WindowedFilter_Reset f new_sample new_time
  else
    let '(e1, e2) :=
      if Compare new_sample (sample e1) then (s, s)
      else if Compare new_sample (sample e2) then (e1, s)
      else (e1, e2) in
    if time_sub new_time (time e0) >? w then
      let '(e0, e1, e2) := (e1, e2, s) in
      if time_sub new_time (time e0) >? w
      then set_estimates f (e1, e2, e2)
      else set_estimates f (e0, e1, e2)
    else if bool_decide (sample e1 = sample e0)
            && (time_sub new_time (time e1) >? Z.shiftr w 2)
    then set_estimates f (e0, s, s)
    else if bool_decide (sample e2 = sample e1)
            && (time_sub new_time (time e2) >? Z.shiftr w 1)
    then set_estimates f (e0, e1, s)
    else set_estimates f (e0, e1, e2).

Definition WindowedFilter_GetBest (f : WindowedFilter) : T := sample (estimates_ f).1.1.
Definition WindowedFilter_GetSecondBest (f : WindowedFilter) : T := sample (estimates_ f).1.2.
Definition WindowedFilter_GetThirdBest (f : WindowedFilter) : T := sample (estimates_ f).2.

(** ** The invariant *)

Context `{!FilterOrder Compare}.

(** [h] holds the samples fed so far, newest first; [e] is one of them and
    nothing strictly newer than [e] beats it. *)
Definition tracks (h : list Sample) (e : Sample) : Prop :=
  e ∈ h /\ forall x, x ∈ h -> time e < time x -> Compare (sample e) (sample x) = true.

(** Times decrease along the history (newest first) and are valid. *)
Fixpoint monotone (h : list Sample) : Prop :=
  match h with
  | [] => True
  | x :: h => time_valid (time x) /\ Forall (fun y => time y <= time x) h /\ monotone h
  end.

Definition filter_ok (h : list Sample) (f : WindowedFilter) : Prop :=
  let '(e0, e1, e2) := estimates_ f in
  tracks h e0 /\ tracks h e1 /\ tracks h e2 /\
  time e0 <= time e1 <= time e2 /\
  Compare (sample e0) (sample e1) = true /\ Compare (sample e1) (sample e2) = true.

(** Feeding a whole history to a new filter. *)
Fixpoint feed (f : WindowedFilter) (h : list Sample) : WindowedFilter :=
  match h with
  | [] => f
  | x :: h => WindowedFilter_Update (feed f h) (sample x) (time x)
  end.

Lemma tracks_new x h : Forall (fun y => time y <= time x) h -> tracks (x :: h) x.
Proof.
  rewrite Forall_forall. intros Hh. split; [set_solver|].
  intros y [->|Hy]%elem_of_cons Hlt; [lia|]. specialize (Hh y Hy). simpl in *. lia.
Qed.

Lemma tracks_keep x h e :
  tracks h e -> Compare (sample x) (sample e) = false -> tracks (x :: h) e.
Proof.
  intros [Hin Ht] Hc. split; [set_solver|]. intros y [->|Hy]%elem_of_cons Hlt; [|by auto].
  by apply Compare_total.
Qed.

Lemma monotone_time x h e :
  monotone (x :: h) -> e ∈ h -> time_sub (time x) (time e) = time x - time e /\ time e <= time x.
Proof.
  intros (Hx & Hle & Hm) He. rewrite Forall_forall in Hle. specialize (Hle e He). split; [|done].
  apply time_sub_exact; [done| |done].
  clear Hx. induction h as [|y h IH]; [set_solver|]. destruct Hm as (Hy & Hyh & Hm).
  apply elem_of_cons in He as [->|He]; [done|]. by apply IH.
Qed.

Lemma filter_ok_reset x h f :
  monotone (x :: h) -> filter_ok (x :: h) (WindowedFilter_Reset f (sample x) (time x)).
Proof.
  intros (_ & Hle & _). unfold filter_ok. simpl. destruct x as [v t]. simpl in *.
  pose proof (tracks_new (MkSample v t) h Hle). split_and!; try done; apply Compare_refl.
Qed.

(** The three estimates after the second and third ones took the sample in. *)
Lemma update_take x h e0 e1 e2 :
  monotone (x :: h) -> filter_ok h (MkWindowedFilter 0 (sample x) (e0, e1, e2)) ->
  Compare (sample x) (sample e0) = false ->
  let '(e1', e2') :=
    if Compare (sample x) (sample e1) then (x, x)
    else if Compare (sample x) (sample e2) then (e1, x) else (e1, e2) in
  tracks (x :: h) e0 /\ tracks (x :: h) e1' /\ tracks (x :: h) e2' /\
  time e0 <= time e1' <= time e2' /\ time e2 <= time e2' <= time x /\
  Compare (sample e0) (sample e1') = true /\ Compare (sample e1') (sample e2') = true /\
  Compare (sample e0) (sample x) = true /\ Compare (sample e2') (sample x) = true /\
  (e1' = x \/ Compare (sample e1') (sample x) = true) /\ (e1' = e1 \/ e1' = x) /\
  (e2' = e2 \/ e2' = x).
Proof.
  intros Hm (T0 & T1 & T2 & Ht & C01 & C12) Hc.
  pose proof (monotone_time x h e0 Hm (proj1 T0)) as [_ L0].
  pose proof (monotone_time x h e1 Hm (proj1 T1)) as [_ L1].
  pose proof (monotone_time x h e2 Hm (proj1 T2)) as [_ L2].
  pose proof (Compare_total _ _ Hc). pose proof (Compare_refl (sample x)).
  assert (tracks (x :: h) x) by (apply tracks_new, Hm).
  assert (tracks (x :: h) e0) by by apply tracks_keep.
  destruct (Compare (sample x) (sample e1)) eqn:E1; [split_and!; eauto; lia|].
  assert (tracks (x :: h) e1) by by apply tracks_keep.
  destruct (Compare (sample x) (sample e2)) eqn:E2; split_and!;
    eauto using Compare_total, tracks_keep; lia.
Qed.

Lemma sample_eta x : MkSample (sample x) (time x) = x.
Proof. by destruct x. Qed.

(** One update keeps the invariant and leaves the best inside the window. *)
Lemma Update_ok x h f :
  monotone (x :: h) -> filter_ok h f -> 0 <= window_length_ f ->
  let f' := WindowedFilter_Update f (sample x) (time x) in
  filter_ok (x :: h) f' /\ window_length_ f' = window_length_ f /\
  zero_value_ f' = zero_value_ f /\
  time x - time (estimates_ f').1.1 <= window_length_ f /\
  Compare (WindowedFilter_GetBest f') (sample x) = true.
Proof.
  intros Hm Hf Hw. destruct f as [w z [[e0 e1] e2]]. simpl in Hw.
  unfold WindowedFilter_Update. simpl. rewrite sample_eta.
  destruct (bool_decide (sample e0 = z) || Compare (sample x) (sample e0)
            || (time_sub (time x) (time e2) >? w)) eqn:Er.
  { split; [by apply filter_ok_reset|]. simpl. split_and!; try done; [lia|apply Compare_refl]. }
  apply orb_false_iff in Er as [[_ Ec]%orb_false_iff Ew]. unfold filter_ok in Hf. simpl in Hf.
  pose proof (update_take x h e0 e1 e2 Hm Hf Ec) as Hu.
  destruct Hf as (T0 & T1 & T2 & _).
  destruct (monotone_time x h e2 Hm (proj1 T2)) as [S2 L2]. rewrite S2 in Ew.
  destruct (monotone_time x h e0 Hm (proj1 T0)) as [S0 L0].
  assert (forall e, tracks (x :: h) e -> time_sub (time x) (time e) = time x - time e) as Hsub.
  { intros e [[->|He]%elem_of_cons _]; [|by apply (monotone_time x h)].
    apply time_sub_exact; [apply Hm..|lia]. }
  destruct (if Compare (sample x) (sample e1) then _ else _) as [a b].
  destruct Hu as (K0 & Ka & Kb & Ht & Hb & C0a & Cab & C0x & Cbx & Hax & _ & Hbe).
  assert (tracks (x :: h) x) by (apply tracks_new, Hm).
  rewrite !Hsub by done.
  assert (time x - time b <= w) by (destruct Hbe as [->| ->]; lia).
  assert (Compare (sample a) (sample x) = true)
    by (destruct Hax as [->|]; [apply Compare_refl|done]).
  assert (Compare (sample x) (sample x) = true) by apply Compare_refl.
  repeat case_if; unfold filter_ok; simpl; bool_to_prop; split_and!; try done; lia.
Qed.

Lemma feed_ok x h w z t0 :
  monotone (x :: h) -> 0 <= w ->
  let f := feed (WindowedFilter_new w z t0) (x :: h) in
  filter_ok (x :: h) f /\ window_length_ f = w /\ zero_value_ f = z /\
  time x - time (estimates_ f).1.1 <= w /\
  Compare (WindowedFilter_GetBest f) (sample x) = true.
Proof.
  revert x. induction h as [|y h IH]; intros x Hm Hw; simpl.
  - unfold WindowedFilter_Update. simpl. rewrite bool_decide_eq_true_2 by done. simpl.
    split; [by apply filter_ok_reset|]. simpl. split_and!; try done; [lia|apply Compare_refl].
  - pose proof Hm as (_ & _ & Hm'). destruct (IH y Hm' Hw) as (Hok & Ew & Ez & _).
    simpl feed in Hok, Ew, Ez. destruct (Update_ok x (y :: h) _ Hm Hok) as (? & ? & ? & ? & ?).
    { by rewrite Ew. }
    simpl in *. split_and!; congruence.
Qed.

(** While the whole history fits in the window nothing expires, and the best
    estimate is the optimum of all samples. *)
Lemma feed_exact x h w z t0 :
  monotone (x :: h) -> 0 <= w ->
  Forall (fun y => sample y <> z) (x :: h) ->
  Forall (fun y => time x - time y <= w) (x :: h) ->
  Forall (fun y => Compare (WindowedFilter_GetBest (feed (WindowedFilter_new w z t0) (x :: h)))
                     (sample y) = true) (x :: h).
Proof.
  revert x. induction h as [|y h IH]; intros x Hm Hw Hz Hs.
  { constructor; [|done]. by apply feed_ok. }
  pose proof Hm as (_ & Hle & Hm'). inversion_clear Hz as [|? ? Hx Hz'].
  inversion_clear Hs as [|? ? Hxx Hs']. inversion Hle as [|? ? Hyx _]; subst.
  assert (Forall (fun e => time y - time e <= w) (y :: h)) as Hs''
    by (eapply Forall_impl; [exact Hs'|]; simpl; intros; lia).
  constructor; [by apply feed_ok|].
  specialize (IH y Hm' Hw Hz' Hs''). destruct (feed_ok y h w z t0 Hm' Hw) as (Hok & Ew & Ez & _).
  change (feed ?f (x :: ?l)) with (WindowedFilter_Update (feed f l) (sample x) (time x)).
  destruct (feed _ (y :: h)) as [w' z' [[e0 e1] e2]]. simpl in Ew, Ez. subst w' z'.
  unfold filter_ok in Hok. simpl in Hok. destruct Hok as (T0 & T1 & T2 & Ht & _).
  unfold WindowedFilter_GetBest in *. simpl in IH.
  assert (forall e, tracks (y :: h) e -> (time_sub (time x) (time e) >? w) = false) as Hexp.
  { intros e [He _]. destruct (monotone_time x _ e Hm He) as [-> _].
    rewrite Forall_forall in Hs'. specialize (Hs' e He). simpl in Hs'. lia. }
  unfold WindowedFilter_Update. simpl.
  rewrite bool_decide_eq_false_2
    by (rewrite Forall_forall in Hz'; exact (Hz' e0 (proj1 T0))).
  rewrite (Hexp e2 T2). simpl. rewrite orb_false_r.
  destruct (Compare (sample x) (sample e0)) eqn:Ec; simpl.
  { eapply Forall_impl; [exact IH|]. simpl. intros e. by apply Compare_trans. }
  destruct (if Compare (sample x) (sample e1) then _ else _) as [a b]. rewrite (Hexp e0 T0).
  repeat case_if; exact IH.
Qed.

(** ** Properties *)

(** After any sequence of samples with non-decreasing times the best
    estimate is one of the samples, recorded no more than a window before the
    newest one, at least as good as the newest and as every sample newer than
    itself; the three estimates are ordered by quality and by time. *)
Lemma WindowedFilter_tracks (x : Sample) (h : list Sample) (w : Z) (z : T) (t0 : Z) :
  monotone (x :: h) -> 0 <= w ->
  let f := feed (WindowedFilter_new w z t0) (x :: h) in
  let '(e0, e1, e2) := estimates_ f in
  WindowedFilter_GetBest f = sample e0 /\ e0 ∈ x :: h /\ time x - time e0 <= w /\
  Compare (sample e0) (sample x) = true /\
  (forall y, y ∈ x :: h -> time e0 < time y -> Compare (sample e0) (sample y) = true) /\
  time e0 <= time e1 <= time e2 /\
  Compare (WindowedFilter_GetBest f) (WindowedFilter_GetSecondBest f) = true /\
  Compare (WindowedFilter_GetSecondBest f) (WindowedFilter_GetThirdBest f) = true.
Proof.
  intros Hm Hw f. destruct (feed_ok x h w z t0 Hm Hw) as (Hok & _ & _ & Ht & Hc).
  fold f in Hok, Ht, Hc. unfold WindowedFilter_GetBest, WindowedFilter_GetSecondBest,
    WindowedFilter_GetThirdBest, filter_ok in *.
  destruct (estimates_ f) as [[e0 e1] e2]. destruct Hok as ([? ?] & _ & _ & [? ?] & ? & ?).
  split_and!; done.
Qed.

(** As long as all samples lie within one window and none equals the
    uninitialised value, the best estimate is the optimum over all of them. *)
Lemma WindowedFilter_exact (x : Sample) (h : list Sample) (w : Z) (z : T) (t0 : Z) :
  monotone (x :: h) -> 0 <= w ->
  Forall (fun y => sample y <> z) (x :: h) ->
  Forall (fun y => time x - time y <= w) (x :: h) ->
  let best := WindowedFilter_GetBest (feed (WindowedFilter_new w z t0) (x :: h)) in
  best ∈ map sample (x :: h) /\ Forall (fun y => Compare best (sample y) = true) (x :: h).
Proof.
  intros Hm Hw Hz Hs. split; [|by apply feed_exact].
  destruct (feed_ok x h w z t0 Hm Hw) as (Hok & _). unfold filter_ok, WindowedFilter_GetBest in *.
  destruct (estimates_ _) as [[e0 e1] e2]. destruct Hok as ([? _] & _).
  simpl. by apply (list_elem_of_fmap_2 sample (x :: h)).
Qed.

End WindowedFilter.

(** The max-bandwidth filter of BBR over ten round trips. *)
Lemma WindowedFilter_tracks_witness :
  let h := [MkSample 7 12; MkSample 9 3; MkSample 5 1] in
  let f := feed MaxFilter (TM := RoundTripTime) (WindowedFilter_new 10 0 0)
             (MkSample 6 14 :: h) in
  WindowedFilter_GetBest f = 7.
Proof.
  pose proof (WindowedFilter_tracks MaxFilter (TM := RoundTripTime) (MkSample 6 14)
    [MkSample 7 12; MkSample 9 3; MkSample 5 1] 10 0 0) as H.
  simpl in H. destruct H as [_ _];
    [repeat (constructor || (unfold is_u64; simpl; lia)) | lia | reflexivity].
Defined.

Lemma WindowedFilter_exact_witness :
  let h := [MkSample 7 12; MkSample 9 5; MkSample 5 4] in
  let best := WindowedFilter_GetBest (feed MaxFilter (TM := RoundTripTime)
                (WindowedFilter_new 10 0 0) (MkSample 6 14 :: h)) in
  best ∈ map sample (MkSample 6 14 :: h) /\
  Forall (fun y => MaxFilter best (sample y) = true) (MkSample 6 14 :: h).
Proof.
  apply (WindowedFilter_exact MaxFilter (TM := RoundTripTime)); [|lia|..];
    repeat (constructor || (unfold is_u64; simpl; lia)).
Defined.
