(* ===== verification/PacketNumberIndexedQueue.v ===== *)
(** * quic/core/packet_number_indexed_queue.h

    A deque of entries indexed by packet number, each marked present or not.
    The abstract specification is a finite map from packet numbers to entries
    together with the last packet number ever inserted; [pniq_refines] relates
    a queue to it, and every operation is shown to implement the map's. *)

From S2P Require Import Prelude.
From stdpp Require Import gmap.
#[local] Open Scope Z_scope.

Section PacketNumberIndexedQueue.
Context {T : Type} (T_default : T).

(** ** Data and operations *)

Record EntryWrapper := MkEntryWrapper { data : T; present : bool }.

Definition EntryWrapper_default : EntryWrapper := MkEntryWrapper T_default false.
Definition EntryWrapper_new (x : T) : EntryWrapper := MkEntryWrapper x true.

Record PacketNumberIndexedQueue := MkPacketNumberIndexedQueue {
  entries_ : list EntryWrapper;
  number_of_present_entries_ : Z;
  first_packet_ : Z
}.

Definition PacketNumberIndexedQueue_new : PacketNumberIndexedQueue :=
  MkPacketNumberIndexedQueue [] 0 0.

Definition IsEmpty (q : PacketNumberIndexedQueue) : bool := number_of_present_entries_ q =? 0.

Definition number_of_present_entries (q : PacketNumberIndexedQueue) : Z :=
  number_of_present_entries_ q.

Definition entries_size (q : PacketNumberIndexedQueue) : Z := Z.of_nat (length (entries_ q)).

Definition entry_slots_used (q : PacketNumberIndexedQueue) : Z := entries_size q.

Definition first_packet (q : PacketNumberIndexedQueue) : Z := first_packet_ q.

Definition last_packet (q : PacketNumberIndexedQueue) : Z :=
  if IsEmpty q then 0 else first_packet_ q +64 entries_size q -64 1.

(** The index of a present entry ([GetEntryWrapper] returns a pointer to it). *)
Definition GetEntryWrapper (q : PacketNumberIndexedQueue) (offset : Z)
    : option (nat * EntryWrapper) :=
  if offset <? first_packet_ q then None
  else
    let offset := offset -64 first_packet_ q in
    if offset >=? entries_size q then None
    else
      entry ← entries_ q !! Z.to_nat offset;
      if present entry then Some (Z.to_nat offset, entry) else None.

Definition GetEntry (q : PacketNumberIndexedQueue) (packet_number : Z) : option T :=
  match GetEntryWrapper q packet_number with
  | None => None
  | Some (_, entry) => Some (data entry)
  end.

(** [entries_.resize(n)] for an [n] above the size. *)
Definition resize_up (l : list EntryWrapper) (n : Z) : list EntryWrapper :=
  l ++ replicate (Z.to_nat n - length l) EntryWrapper_default.

Definition Emplace (q : PacketNumberIndexedQueue) (packet_number : Z) (x : T)
    : PacketNumberIndexedQueue * bool :=
  if IsEmpty q then
    (MkPacketNumberIndexedQueue (entries_ q ++ [EntryWrapper_new x]) 1 packet_number, true)
  else if packet_number <=? last_packet q then (q, false)
  else
    let offset := packet_number -64 first_packet_ q in
    let entries := if offset >? entries_size q then resize_up (entries_ q) offset
                   else entries_ q in
    (MkPacketNumberIndexedQueue (entries ++ [EntryWrapper_new x])
       (number_of_present_entries_ q +64 1) (first_packet_ q), true).

(** The loop of [Cleanup]: pops absent entries, counting [first_packet_] up. *)
Fixpoint Cleanup_loop (entries : list EntryWrapper) (first : Z) : list EntryWrapper * Z :=
  match entries with
  | [] => ([], first)
  | e :: rest => if negb (present e) then Cleanup_loop rest (first +64 1) else (entries, first)
  end.

Definition Cleanup (q : PacketNumberIndexedQueue) : PacketNumberIndexedQueue :=
  let '(entries, first) := Cleanup_loop (entries_ q) (first_packet_ q) in
  MkPacketNumberIndexedQueue entries (number_of_present_entries_ q)
    (match entries with [] => 0 | _ => first end).

Definition Remove (q : PacketNumberIndexedQueue) (packet_number : Z)
    : PacketNumberIndexedQueue * bool :=
  match GetEntryWrapper q packet_number with
  | None => (q, false)
  | Some (i, entry) =>
      let q' := MkPacketNumberIndexedQueue
                  (<[i := MkEntryWrapper (data entry) false]> (entries_ q))
                  (number_of_present_entries_ q -64 1) (first_packet_ q) in
      (if packet_number =? first_packet q' then Cleanup q' else q', true)
  end.

(** ** The abstract map *)

(** The present entries of a list whose first slot has number [first]. *)
Fixpoint slots (first : Z) (l : list EntryWrapper) : gmap Z T :=
  match l with
  | [] => ∅
  | e :: l =>
      if present e then <[first := data e]> (slots (first + 1) l) else slots (first + 1) l
  end.

Definition pniq_map (q : PacketNumberIndexedQueue) : gmap Z T :=
  slots (first_packet_ q) (entries_ q).

(** The representation invariant. *)
Definition pniq_ok (q : PacketNumberIndexedQueue) : Prop :=
  0 <= first_packet_ q /\ first_packet_ q + entries_size q <= kU64Max /\
  number_of_present_entries_ q = Z.of_nat (size (pniq_map q)) /\
  match entries_ q with
  | [] => first_packet_ q = 0
  | e :: _ => present e = true
  end.

(** ** Lemmas on slots *)

Lemma slots_below l first k : k < first -> slots first l !! k = None.
Proof.
  revert first. induction l as [|e l IH]; intros first Hk; simpl; [apply lookup_empty|].
  case_if; [rewrite lookup_insert_ne by lia|]; apply IH; lia.
Qed.

Lemma slots_app first l k :
  slots first (l ++ k) = slots first l ∪ slots (first + Z.of_nat (length l)) k.
Proof.
  revert first. induction l as [|e l IH]; intros first; simpl.
  { rewrite Z.add_0_r. by rewrite (left_id_L ∅ (∪)). }
  rewrite IH. replace (first + 1 + Z.of_nat (length l)) with
    (first + Z.of_nat (S (length l))) by lia.
  case_if; [|done]. by rewrite insert_union_l.
Qed.

Lemma slots_absent first n : slots first (replicate n EntryWrapper_default) = ∅.
Proof. revert first. induction n as [|n IH]; intros first; simpl; [done|]. apply IH. Qed.

Lemma slots_beyond l first k : first + Z.of_nat (length l) <= k -> slots first l !! k = None.
Proof.
  revert first. induction l as [|e l IH]; intros first Hk; simpl; [apply lookup_empty|].
  simpl in Hk. case_if; [rewrite lookup_insert_ne by lia|]; apply IH; lia.
Qed.

Lemma slots_size first l : (size (slots first l) <= length l)%nat.
Proof.
  revert first. induction l as [|e l IH]; intros first; simpl; [by rewrite map_size_empty|].
  specialize (IH (first + 1)). case_if; [|lia].
  rewrite map_size_insert_None; [lia|]. apply slots_below. lia.
Qed.

Lemma slots_snoc first l x :
  slots first (l ++ [EntryWrapper_new x]) =
  <[first + Z.of_nat (length l) := x]> (slots first l).
Proof.
  rewrite slots_app. simpl. rewrite <- insert_union_r, (right_id_L ∅ (∪)); [done|].
  apply slots_beyond. lia.
Qed.

Lemma slots_lookup l first i e :
  l !! i = Some e ->
  slots first l !! (first + Z.of_nat i) = if present e then Some (data e) else None.
Proof.
  revert first i. induction l as [|x l IH]; intros first [|i] H; simplify_eq/=.
  - rewrite Z.add_0_r. case_if; [apply lookup_insert_eq|]. apply slots_below. lia.
  - replace (first + Z.of_nat (S i)) with (first + 1 + Z.of_nat i) by lia.
    case_if; [rewrite lookup_insert_ne by lia|]; by apply IH.
Qed.

Lemma slots_clear l first i e :
  l !! i = Some e ->
  slots first (<[i := MkEntryWrapper (data e) false]> l) =
  delete (first + Z.of_nat i) (slots first l).
Proof.
  revert first i. induction l as [|x l IH]; intros first [|i] H; simplify_eq/=.
  - rewrite Z.add_0_r. case_if.
    + rewrite delete_insert_id; [done|]. apply slots_below. lia.
    + rewrite delete_id; [done|]. apply slots_below. lia.
  - replace (first + Z.of_nat (S i)) with (first + 1 + Z.of_nat i) by lia.
    case_if; rewrite IH by done; [|done]. rewrite delete_insert_ne by lia. done.
Qed.

(** ** The operations refine the map *)

Lemma pniq_empty q : pniq_ok q -> IsEmpty q = true <-> entries_ q = [].
Proof.
  intros (_ & _ & Hn & He). unfold IsEmpty. rewrite Hn, Z.eqb_eq. unfold pniq_map.
  destruct (entries_ q) as [|e l]; [done|]. split; [|done]. simpl. rewrite He.
  intros H. assert (size (<[first_packet_ q:=data e]> (slots (first_packet_ q + 1) l)) = 0%nat)
    as H' by lia. apply map_size_empty_inv in H'. by apply insert_non_empty in H'.
Qed.

Lemma pniq_map_empty q : pniq_ok q -> IsEmpty q = true <-> pniq_map q = ∅.
Proof.
  intros (_ & _ & Hn & _). unfold IsEmpty. rewrite Hn, Z.eqb_eq.
  rewrite <- map_size_empty_iff. lia.
Qed.

Lemma pniq_last q :
  pniq_ok q -> entries_ q ≠ [] -> last_packet q = first_packet_ q + entries_size q - 1.
Proof.
  intros Hok Hne. unfold last_packet. destruct (IsEmpty q) eqn:E.
  { by apply pniq_empty in E. }
  destruct Hok as (H0 & H1 & _). unfold u64, wrapU. rewrite Zminus_mod_idemp_l.
  apply Z.mod_small. unfold entries_size, kU64Max in *. destruct (entries_ q); simpl in *; [done|lia].
Qed.

(** Every present packet number lies between the first and the last one. *)
Lemma pniq_bounds q k x :
  pniq_ok q -> pniq_map q !! k = Some x -> first_packet_ q <= k <= last_packet q.
Proof.
  intros Hok Hk. assert (entries_ q ≠ []) as Hne.
  { intros E. unfold pniq_map in Hk. rewrite E in Hk. simpl in Hk. by rewrite lookup_empty in Hk. }
  rewrite pniq_last by done. split.
  - apply Z.nlt_ge. intros Hlt. unfold pniq_map in Hk. by rewrite slots_below in Hk.
  - apply Z.nlt_ge. intros Hlt. unfold pniq_map in Hk.
    rewrite slots_beyond in Hk; [done|]. unfold entries_size in Hlt. lia.
Qed.

Lemma GetEntryWrapper_spec q pn :
  pniq_ok q -> 0 <= pn < 2 ^ 64 ->
  match GetEntryWrapper q pn with
  | Some (i, e) => entries_ q !! i = Some e /\ present e = true /\
                   pn = first_packet_ q + Z.of_nat i
  | None => pniq_map q !! pn = None
  end.
Proof.
  intros (H0 & H1 & _) Hpn. unfold GetEntryWrapper, pniq_map, entries_size, kU64Max in *.
  destruct (pn <? first_packet_ q) eqn:E1; [apply slots_below; lia|].
  rewrite u64_id by (unfold is_u64; lia).
  destruct (pn - first_packet_ q >=? Z.of_nat (length (entries_ q))) eqn:E2;
    [apply slots_beyond; lia|].
  destruct (lookup_lt_is_Some_2 (entries_ q) (Z.to_nat (pn - first_packet_ q))) as [e He]; [lia|].
  rewrite He. simpl. destruct (present e) eqn:Ep; [split_and!; try done; lia|].
  pose proof (slots_lookup _ (first_packet_ q) _ _ He) as Hs. rewrite Ep in Hs.
  by replace (first_packet_ q + Z.of_nat (Z.to_nat (pn - first_packet_ q))) with pn in Hs by lia.
Qed.

Lemma GetEntry_lookup q pn :
  pniq_ok q -> 0 <= pn < 2 ^ 64 -> GetEntry q pn = pniq_map q !! pn.
Proof.
  intros Hok Hpn. pose proof (GetEntryWrapper_spec q pn Hok Hpn) as H. unfold GetEntry.
  destruct (GetEntryWrapper q pn) as [[i e]|]; [|done]. destruct H as (He & Hp & ->).
  unfold pniq_map. by rewrite (slots_lookup _ _ _ _ He), Hp.
Qed.

Lemma pniq_new_ok : pniq_ok PacketNumberIndexedQueue_new.
Proof. unfold pniq_ok. simpl. split_and!; done. Qed.

(** [Emplace] inserts exactly when the number is past the last one. *)
Lemma Emplace_result q pn x :
  pniq_ok q -> 0 <= pn < kU64Max ->
  if IsEmpty q || (last_packet q <? pn)
  then exists q', Emplace q pn x = (q', true) /\ pniq_ok q' /\
         pniq_map q' = <[pn := x]> (pniq_map q) /\ last_packet q' = pn
  else Emplace q pn x = (q, false).
Proof.
  intros Hok Hpn. unfold kU64Max in Hpn. unfold Emplace. destruct (IsEmpty q) eqn:Ee; simpl.
  { apply pniq_empty in Ee; [|done].
    eexists. split; [done|]. unfold pniq_ok, pniq_map, last_packet, IsEmpty, entries_size.
    unfold kU64Max. rewrite Ee. simpl. split_and!; try done; try lia.
    - rewrite map_size_insert_None, map_size_empty by apply lookup_empty. done.
    - change (Z.of_nat 1) with 1. rewrite (u64_id (pn + 1)) by (unfold is_u64; lia).
      rewrite u64_id; unfold is_u64; lia. }
  assert (entries_ q ≠ []) as Hne by (intros E; apply pniq_empty in E; congruence).
  pose proof (pniq_last q Hok Hne) as HL. destruct (last_packet q <? pn) eqn:El.
  2: { by replace (pn <=? last_packet q) with true by lia. }
  replace (pn <=? last_packet q) with false by lia.
  eexists. split; [done|]. pose proof Hok as (H0 & H1 & Hn & Hf). rewrite HL in El.
  unfold entries_size in *. rewrite u64_id by (unfold is_u64; lia).
  set (es := if _ : bool then _ else _).
  assert (Z.of_nat (length es) = pn - first_packet_ q /\
          slots (first_packet_ q) es = pniq_map q /\
          exists e t u, entries_ q = e :: t /\ es = e :: u) as (Hlen & Hsl & e & t & u & Eq & Eu).
  { unfold es. destruct (entries_ q) as [|e t] eqn:Eq; [done|]. case_if.
    - unfold resize_up. rewrite length_app, length_replicate. split; [lia|].
      rewrite slots_app, slots_absent, (right_id_L ∅ (∪)). unfold pniq_map. rewrite Eq.
      split; [done|]. by exists e, t, (t ++ replicate (Z.to_nat (pn - first_packet_ q) -
        length (e :: t)) EntryWrapper_default).
    - split; [lia|]. unfold pniq_map. rewrite Eq. split; [done|]. by eexists _, _, _. }
  assert (pniq_map q !! pn = None) as Hnone
    by (unfold pniq_map; apply slots_beyond; lia).
  assert (size (pniq_map q) <= length es)%nat as Hsz.
  { rewrite <- Hsl. apply slots_size. }
  unfold kU64Max in *. set (q' := MkPacketNumberIndexedQueue _ _ _).
  assert (pniq_ok q') as Hq'.
  { unfold pniq_ok, q', pniq_map, entries_size. simpl. rewrite slots_snoc, Hsl, length_app. simpl.
    rewrite Hlen. replace (first_packet_ q + (pn - first_packet_ q)) with pn by lia.
    rewrite map_size_insert_None by done. rewrite u64_id by (unfold is_u64; lia).
    unfold kU64Max. split_and!; [lia..|]. rewrite Eu. by rewrite Eq in Hf. }
  split_and!; [done| |].
  - unfold pniq_map, q'. simpl. rewrite slots_snoc, Hsl, Hlen. f_equal. lia.
  - rewrite pniq_last; [|done|].
    + unfold q', entries_size. simpl. rewrite length_app. simpl. lia.
    + unfold q'. simpl. by destruct es.
Qed.

(** [Cleanup] drops absent entries of the front and nothing else. *)
Lemma Cleanup_loop_spec l first :
  0 <= first -> first + Z.of_nat (length l) <= kU64Max ->
  let '(l', first') := Cleanup_loop l first in
  slots first' l' = slots first l /\ first <= first' /\
  first' + Z.of_nat (length l') = first + Z.of_nat (length l) /\
  match l' with [] => True | e :: _ => present e = true end.
Proof.
  revert first. induction l as [|e l IH]; intros first H0 H1; simpl; [split_and!; (done || lia)|].
  destruct (present e) eqn:Ep; simpl; [rewrite Ep; split_and!; (done || lia)|].
  simpl in H1. rewrite u64_id by (unfold is_u64, kU64Max in *; lia).
  specialize (IH (first + 1)). destruct (Cleanup_loop l (first + 1)) as [l' first'].
  destruct IH as (-> & ? & ? & ?); [lia..|]. split_and!; (done || lia).
Qed.

(** [Remove] deletes the entry exactly when it is there. *)
Lemma Remove_result q pn :
  pniq_ok q -> 0 <= pn < 2 ^ 64 ->
  exists q', Remove q pn = (q', bool_decide (is_Some (pniq_map q !! pn))) /\ pniq_ok q' /\
    pniq_map q' = delete pn (pniq_map q) /\
    (IsEmpty q' = false -> last_packet q' = last_packet q).
Proof.
  intros Hok Hpn. pose proof (GetEntryWrapper_spec q pn Hok Hpn) as H. unfold Remove.
  destruct (GetEntryWrapper q pn) as [[i e]|].
  2: { exists q. rewrite H, bool_decide_eq_false_2 by (by intros []). split_and!; try done.
       by rewrite delete_id. }
  destruct H as (He & Hp & Epn). pose proof Hok as (H0 & H1 & Hn & Hf).
  pose proof (slots_lookup _ (first_packet_ q) _ _ He) as Hl. rewrite Hp, <- Epn in Hl.
  unfold pniq_map. rewrite Hl, bool_decide_eq_true_2 by eauto.
  eexists. split; [done|]. fold (pniq_map q) in Hl |- *.
  pose proof (slots_clear _ (first_packet_ q) _ _ He) as Hs.
  rewrite <- Epn in Hs. fold (pniq_map q) in Hs.
  assert (Z.of_nat (size (pniq_map q)) - 1 = Z.of_nat (size (delete pn (pniq_map q)))) as Hsz.
  { rewrite map_size_delete_Some by eauto. assert (size (pniq_map q) <> 0)%nat; [|lia].
    intros E%map_size_empty_inv. fold (pniq_map q) in Hl. by rewrite E, lookup_empty in Hl. }
  pose proof (slots_size (first_packet_ q) (entries_ q)) as Hb. fold (pniq_map q) in Hb.
  unfold entries_size, kU64Max in *. rewrite Hn.
  rewrite u64_id by (unfold is_u64; lia). rewrite Hsz. simpl.
  set (es := <[i := _]> (entries_ q)) in *.
  assert (length es = length (entries_ q)) as Hlen by apply length_insert.
  assert (entries_ q ≠ []) as Hne by (intros E; by rewrite E in He).
  rewrite (pniq_last q) by done. unfold entries_size.
  assert (forall q', entries_ q' = [] -> pniq_ok q' -> IsEmpty q' = true) as Hemp
    by (intros; by apply pniq_empty).
  destruct (pn =? first_packet_ q) eqn:Ef.
  - unfold Cleanup. simpl. pose proof (Cleanup_loop_spec es (first_packet_ q)) as HC.
    destruct (Cleanup_loop es (first_packet_ q)) as [l' f'].
    destruct HC as (Hsl & Hle & Hll & Hhd); [unfold kU64Max; lia..|]. rewrite Hs in Hsl.
    destruct l' as [|e' l']; simpl in Hll.
    + simpl in Hsl. rewrite <- Hsl. split_and!; done.
    + assert (pniq_ok (MkPacketNumberIndexedQueue (e' :: l')
                (Z.of_nat (size (delete pn (pniq_map q)))) f')) as Hok'.
      { unfold pniq_ok, pniq_map, entries_size, kU64Max in *. cbn [entries_ first_packet_
          number_of_present_entries_]. rewrite Hsl. simpl. split_and!; (done || lia). }
      split_and!; try done. intros _. rewrite pniq_last by done. unfold entries_size. simpl. lia.
  - assert (exists e' t t', entries_ q = e' :: t /\ es = e' :: t') as (e' & t & t' & Eq & Ees).
    { unfold es. destruct i as [|i]; [lia|]. destruct (entries_ q); [done|]. by eexists _, _, _. }
    assert (pniq_ok (MkPacketNumberIndexedQueue es
              (Z.of_nat (size (delete pn (pniq_map q)))) (first_packet_ q))) as Hok'.
    { unfold pniq_ok, pniq_map, entries_size, kU64Max. simpl. fold (pniq_map q).
      rewrite Hs, Ees. rewrite Eq in Hf. rewrite <- Ees. split_and!; (done || lia). }
    split_and!; try done. intros _. rewrite pniq_last; [|done|simpl; by rewrite Ees].
    unfold entries_size. simpl. lia.
Qed.

(** ** Simulation of the abstract map *)

(** The specification: the present entries and the last number ever inserted
    (0 when there are none). *)
Inductive pniq_op := OpEmplace (packet_number : Z) (x : T) | OpRemove (packet_number : Z).

Definition spec_step (s : gmap Z T * Z) (op : pniq_op) : (gmap Z T * Z) * bool :=
  let '(m, last) := s in
  match op with
  | OpEmplace pn x =>
      if bool_decide (m = ∅) || (last <? pn) then ((<[pn := x]> m, pn), true) else (s, false)
  | OpRemove pn =>
      let m' := delete pn m in
      ((m', if bool_decide (m' = ∅) then 0 else last), bool_decide (is_Some (m !! pn)))
  end.

Definition pniq_step (q : PacketNumberIndexedQueue) (op : pniq_op)
    : PacketNumberIndexedQueue * bool :=
  match op with
  | OpEmplace pn x => Emplace q pn x
  | OpRemove pn => Remove q pn
  end.

Definition pniq_op_ok (op : pniq_op) : Prop :=
  match op with OpEmplace pn _ => 0 <= pn < kU64Max | OpRemove pn => 0 <= pn < 2 ^ 64 end.

(** The simulation relation. *)
Definition pniq_refines (q : PacketNumberIndexedQueue) (s : gmap Z T * Z) : Prop :=
  pniq_ok q /\ s = (pniq_map q, last_packet q).

Lemma last_packet_empty q : IsEmpty q = true -> last_packet q = 0.
Proof. unfold last_packet. by intros ->. Qed.

Lemma IsEmpty_decide q : pniq_ok q -> IsEmpty q = bool_decide (pniq_map q = ∅).
Proof.
  intros Hok. pose proof (pniq_map_empty q Hok). destruct (IsEmpty q), (decide (pniq_map q = ∅));
    rewrite ?bool_decide_eq_true_2, ?bool_decide_eq_false_2 by done; naive_solver.
Qed.

Lemma pniq_step_refines q s op :
  pniq_refines q s -> pniq_op_ok op ->
  pniq_refines (pniq_step q op).1 (spec_step s op).1 /\
  (pniq_step q op).2 = (spec_step s op).2.
Proof.
  intros [Hok ->] Hop. destruct op as [pn x|pn]; simpl in *.
  - pose proof (Emplace_result q pn x Hok Hop) as H. rewrite <- IsEmpty_decide by done.
    destruct (IsEmpty q || (last_packet q <? pn)).
    + destruct H as (q' & -> & Hok' & Hm & Hl). simpl. split; [|done]. split; [done|]. by rewrite Hm, Hl.
    + rewrite H. by split.
  - destruct (Remove_result q pn Hok Hop) as (q' & -> & Hok' & Hm & Hl). simpl. split; [|done].
    split; [done|]. rewrite <- Hm, <- (IsEmpty_decide q') by done.
    destruct (IsEmpty q') eqn:E; [by rewrite last_packet_empty|]. by rewrite Hl.
Qed.

Fixpoint run_ops {S O : Type} (step : S -> O -> S * bool) (s : S) (ops : list O) : S * list bool :=
  match ops with
  | [] => (s, [])
  | op :: ops =>
      let '(s, r) := step s op in let '(s, rs) := run_ops step s ops in (s, r :: rs)
  end.

Lemma run_ops_refines q s ops :
  pniq_refines q s -> Forall pniq_op_ok ops ->
  pniq_refines (run_ops pniq_step q ops).1 (run_ops spec_step s ops).1 /\
  (run_ops pniq_step q ops).2 = (run_ops spec_step s ops).2.
Proof.
  intros Hr Hops. revert q s Hr. induction Hops as [|op ops Hop _ IH]; intros q s Hr; simpl; [done|].
  destruct (pniq_step_refines q s op Hr Hop) as [H1 H2].
  destruct (pniq_step q op) as [q1 r1], (spec_step s op) as [s1 r2]. simpl in *.
  destruct (IH q1 s1 H1) as [H3 H4].
  destruct (run_ops pniq_step q1 ops), (run_ops spec_step s1 ops). simpl in *. by subst.
Qed.

(** ** Properties *)

(** Any sequence of insertions and removals gives the same results as on a
    finite map that accepts an insertion only past the last number, and ends in
    a queue that denotes the map: its lookups, size, first and last packet. *)
Lemma PacketNumberIndexedQueue_refines (ops : list pniq_op) (pn : Z) :
  Forall pniq_op_ok ops -> 0 <= pn < 2 ^ 64 ->
  let '(q, results) := run_ops pniq_step PacketNumberIndexedQueue_new ops in
  let '((m, last), spec_results) := run_ops spec_step (∅, 0) ops in
  results = spec_results /\ GetEntry q pn = m !! pn /\ last_packet q = last /\
  number_of_present_entries q = Z.of_nat (size m) /\ IsEmpty q = bool_decide (m = ∅).
Proof.
  intros Hops Hpn.
  destruct (run_ops_refines PacketNumberIndexedQueue_new (∅, 0) ops) as [[Hok Hs] Hr];
    [split; [apply pniq_new_ok | done] | done |].
  destruct (run_ops pniq_step _ ops) as [q rs], (run_ops spec_step _ ops) as [[m l] rs'].
  simpl in *. simplify_eq. split_and!; try done.
  - by apply GetEntry_lookup.
  - apply Hok.
  - by apply IsEmpty_decide.
Qed.

(** A valid queue wastes no slot at the front: when it is not empty its
    first packet is present, is the least one present, and no packet present is
    above the last one. *)
Lemma PacketNumberIndexedQueue_first_present (q : PacketNumberIndexedQueue) :
  pniq_ok q -> IsEmpty q = false ->
  is_Some (GetEntry q (first_packet q)) /\
  forall pn x, GetEntry q pn = Some x -> 0 <= pn < 2 ^ 64 -> first_packet q <= pn <= last_packet q.
Proof.
  intros Hok He. assert (entries_ q ≠ []) as Hne.
  { intros E. apply pniq_empty in E; [congruence|done]. }
  pose proof Hok as (H0 & H1 & _ & Hf). unfold entries_size, kU64Max in H1. split.
  - unfold first_packet. rewrite GetEntry_lookup; [|done|lia].
    unfold pniq_map. destruct (entries_ q) as [|e l]; [done|]. simpl. rewrite Hf.
    rewrite lookup_insert_eq. eauto.
  - intros pn x Hg Hpn. rewrite GetEntry_lookup in Hg by done. by apply (pniq_bounds q pn x).
Qed.

End PacketNumberIndexedQueue.

Lemma PacketNumberIndexedQueue_refines_witness :
  let ops := [OpEmplace 5 50; OpEmplace 8 80; OpEmplace 7 70; OpRemove 5; OpRemove 6] in
  let '(q, results) := run_ops (pniq_step 0) PacketNumberIndexedQueue_new ops in
  let '((m, last), spec_results) := run_ops spec_step (∅, 0) ops in
  results = spec_results /\ GetEntry q 8 = m !! 8 /\ last_packet q = last /\
  number_of_present_entries q = Z.of_nat (size m) /\ IsEmpty q = bool_decide (m = ∅).
Proof.
  intros ops. refine (PacketNumberIndexedQueue_refines 0 ops 8 _ _); [|lia].
  repeat (constructor || (unfold kU64Max; simpl; lia)).
Defined.

Lemma PacketNumberIndexedQueue_first_present_witness :
  let q := MkPacketNumberIndexedQueue [EntryWrapper_new 50; EntryWrapper_default 0] 1 5 in
  is_Some (GetEntry q (first_packet q)) /\
  forall pn x, GetEntry q pn = Some x -> 0 <= pn < 2 ^ 64 -> first_packet q <= pn <= last_packet q.
Proof.
  apply PacketNumberIndexedQueue_first_present; [|reflexivity].
  unfold pniq_ok. vm_compute. repeat split; congruence.
Defined.
