(* ===== verification/Int128.v ===== *)
(** * net/base/int128.h: unsigned 128-bit integers as two 64-bit words

    [uint128] is the pair of its words; every operator is written on the words
    with 64-bit wrap-around, as the header does, and the lemmas relate it to
    arithmetic modulo 2^128 on [u128_val].  The compound assignments return the
    new value of [*this]. *)

From S2P Require Import Prelude.

Record uint128 := MkUint128rec { lo_ : Z; hi_ : Z }.

#[export] Instance uint128_eq_dec : EqDecision uint128.
Proof. solve_decision. Defined.

(** ** Construction and access *)

Definition MakeUint128 (top bottom : Z) : uint128 := MkUint128rec bottom top.
Definition Uint128Low64 (v : uint128) : Z := lo_ v.
Definition Uint128High64 (v : uint128) : Z := hi_ v.
Definition u128_default : uint128 := MakeUint128 0 0.
Definition u128_of_u64 (bottom : Z) : uint128 := MakeUint128 0 bottom.
Definition u128_of_u32 (bottom : Z) : uint128 := MakeUint128 0 bottom.
Definition u128_of_int (bottom : Z) : uint128 :=
  MakeUint128 (if bottom <? 0 then 0 -64 1 else 0) (u64 bottom).
Definition u128_Initialize (this : uint128) (top bottom : Z) : uint128 := MakeUint128 top bottom.
Definition kuint128max : uint128 := MakeUint128 kU64Max kU64Max.

(** ** Comparisons *)

Definition u128_eqb (lhs rhs : uint128) : bool :=
  (Uint128Low64 lhs =? Uint128Low64 rhs) && (Uint128High64 lhs =? Uint128High64 rhs).
Definition u128_neqb (lhs rhs : uint128) : bool := negb (u128_eqb lhs rhs).

(** The macro [CMP128(op)]. *)
Definition CMP128 (op : Z -> Z -> bool) (lhs rhs : uint128) : bool :=
  if Uint128High64 lhs =? Uint128High64 rhs then op (Uint128Low64 lhs) (Uint128Low64 rhs)
  else op (Uint128High64 lhs) (Uint128High64 rhs).
Definition u128_ltb : uint128 -> uint128 -> bool := CMP128 Z.ltb.
Definition u128_gtb : uint128 -> uint128 -> bool := CMP128 Z.gtb.
Definition u128_geb : uint128 -> uint128 -> bool := CMP128 Z.geb.
Definition u128_leb : uint128 -> uint128 -> bool := CMP128 Z.leb.

(** ** Bitwise operators *)

(** [~x] on a 64-bit word. *)
Definition not64 (x : Z) : Z := kU64Max - x.

Definition u128_neg (val : uint128) : uint128 :=
  let hi_flip := not64 (Uint128High64 val) in
  let lo_flip := not64 (Uint128Low64 val) in
  let lo_add := lo_flip +64 1 in
  if lo_add <? lo_flip then MakeUint128 (hi_flip +64 1) lo_add else MakeUint128 hi_flip lo_add.

Definition u128_is_zero (val : uint128) : bool :=
  (Uint128High64 val =? 0) && (Uint128Low64 val =? 0).

Definition u128_not (val : uint128) : uint128 :=
  MakeUint128 (not64 (Uint128High64 val)) (not64 (Uint128Low64 val)).

(** The macro [LOGIC128(op)]. *)
Definition LOGIC128 (op : Z -> Z -> Z) (lhs rhs : uint128) : uint128 :=
  MakeUint128 (op (Uint128High64 lhs) (Uint128High64 rhs))
    (op (Uint128Low64 lhs) (Uint128Low64 rhs)).
Definition u128_or : uint128 -> uint128 -> uint128 := LOGIC128 Z.lor.
Definition u128_and : uint128 -> uint128 -> uint128 := LOGIC128 Z.land.
Definition u128_xor : uint128 -> uint128 -> uint128 := LOGIC128 Z.lxor.

(** The macro [LOGICASSIGN128(op)]. *)
Definition LOGICASSIGN128 (op : Z -> Z -> Z) (this other : uint128) : uint128 :=
  let hi := op (hi_ this) (hi_ other) in
  let lo := op (lo_ this) (lo_ other) in
  MkUint128rec lo hi.

(** ** Shifts *)

(** [x << n] and [x >> n] on 64-bit words, for [0 <= n < 64]. *)
Definition shl64 (x n : Z) : Z := u64 (Z.shiftl x n).
Definition shr64 (x n : Z) : Z := Z.shiftr x n.

Definition u128_shl (val : uint128) (amount : Z) : uint128 :=
  if amount <? 64 then
    if amount =? 0 then val
    else
      let new_hi := Z.lor (shl64 (Uint128High64 val) amount)
                      (shr64 (Uint128Low64 val) (64 - amount)) in
      let new_lo := shl64 (Uint128Low64 val) amount in
      MakeUint128 new_hi new_lo
  else if amount <? 128 then MakeUint128 (shl64 (Uint128Low64 val) (amount - 64)) 0
  else MakeUint128 0 0.

Definition u128_shr (val : uint128) (amount : Z) : uint128 :=
  if amount <? 64 then
    if amount =? 0 then val
    else
      let new_hi := shr64 (Uint128High64 val) amount in
      let new_lo := Z.lor (shr64 (Uint128Low64 val) amount)
                      (shl64 (Uint128High64 val) (64 - amount)) in
      MakeUint128 new_hi new_lo
  else if amount <? 128 then MakeUint128 0 (shr64 (Uint128High64 val) (amount - 64))
  else MakeUint128 0 0.

Definition u128_shl_assign (this : uint128) (amount : Z) : uint128 :=
  if amount <? 64 then
    if negb (amount =? 0) then
      let hi := Z.lor (shl64 (hi_ this) amount) (shr64 (lo_ this) (64 - amount)) in
      let lo := shl64 (lo_ this) amount in
      MkUint128rec lo hi
    else this
  else if amount <? 128 then
    let hi := shl64 (lo_ this) (amount - 64) in
    MkUint128rec 0 hi
  else MkUint128rec 0 0.

(** The middle branch assigns [hi_ = 0] before it reads [hi_]. *)
Definition u128_shr_assign (this : uint128) (amount : Z) : uint128 :=
  if amount <? 64 then
    if negb (amount =? 0) then
      let lo := Z.lor (shr64 (lo_ this) amount) (shl64 (hi_ this) (64 - amount)) in
      let hi := shr64 (hi_ this) amount in
      MkUint128rec lo hi
    else this
  else if amount <? 128 then
    let hi := 0 in
    let lo := shr64 hi (amount - 64) in
    MkUint128rec lo hi
  else MkUint128rec 0 0.

(** ** Arithmetic *)

Definition u128_add_assign (this b : uint128) : uint128 :=
  let hi := hi_ this +64 hi_ b in
  let lolo := lo_ this +64 lo_ b in
  let hi := if lolo <? lo_ this then hi +64 1 else hi in
  MkUint128rec lolo hi.

Definition u128_sub_assign (this b : uint128) : uint128 :=
  let hi := hi_ this -64 hi_ b in
  let hi := if lo_ b >? lo_ this then hi -64 1 else hi in
  MkUint128rec (lo_ this -64 lo_ b) hi.

Definition kLow32 : Z := 0xffffffff.

Definition u128_mul_assign (this b : uint128) : uint128 :=
  let a96 := shr64 (hi_ this) 32 in
  let a64 := Z.land (hi_ this) kLow32 in
  let a32 := shr64 (lo_ this) 32 in
  let a00 := Z.land (lo_ this) kLow32 in
  let b96 := shr64 (hi_ b) 32 in
  let b64 := Z.land (hi_ b) kLow32 in
  let b32 := shr64 (lo_ b) 32 in
  let b00 := Z.land (lo_ b) kLow32 in
  let c96 := u64 (a96 * b00) +64 u64 (a64 * b32) +64 u64 (a32 * b64) +64 u64 (a00 * b96) in
  let c64 := u64 (a64 * b00) +64 u64 (a32 * b32) +64 u64 (a00 * b64) in
  let this := MkUint128rec 0 (shl64 c96 32 +64 c64) in
  let this := u128_add_assign this (u128_shl (u128_of_u64 (u64 (a32 * b00))) 32) in
  let this := u128_add_assign this (u128_shl (u128_of_u64 (u64 (a00 * b32))) 32) in
  u128_add_assign this (u128_of_u64 (u64 (a00 * b00))).

Definition u128_add (lhs rhs : uint128) : uint128 := u128_add_assign lhs rhs.
Definition u128_sub (lhs rhs : uint128) : uint128 := u128_sub_assign lhs rhs.
Definition u128_mul (lhs rhs : uint128) : uint128 := u128_mul_assign lhs rhs.

(** [++x] and [--x]; [x++] and [x--] give the old value beside the new one. *)
Definition u128_incr (this : uint128) : uint128 := u128_add_assign this (u128_of_int 1).
Definition u128_decr (this : uint128) : uint128 := u128_sub_assign this (u128_of_int 1).
Definition u128_post_incr (this : uint128) : uint128 * uint128 :=
  let tmp := this in (u128_add_assign this (u128_of_int 1), tmp).
Definition u128_post_decr (this : uint128) : uint128 * uint128 :=
  let tmp := this in (u128_sub_assign this (u128_of_int 1), tmp).

(** ** The number a pair of words denotes *)

Definition u128_val (x : uint128) : Z := hi_ x * 2 ^ 64 + lo_ x.
Definition u128_ok (x : uint128) : Prop := is_u64 (lo_ x) /\ is_u64 (hi_ x).

Lemma u128_val_range x : u128_ok x -> 0 <= u128_val x < 2 ^ 128.
Proof. intros [Hl Hh]. unfold u128_val, is_u64 in *. lia. Qed.

Lemma u128_val_inj x y : u128_ok x -> u128_ok y -> u128_val x = u128_val y -> x = y.
Proof.
  intros [? ?] [? ?]. destruct x, y. unfold u128_val, is_u64 in *. simpl in *. intros. f_equal; lia.
Qed.

(** A word and its wrapped value differ by a multiple of 2^64. *)
Lemma u64_quot x : exists k, u64 x = x + k * 2 ^ 64.
Proof. exists (- (x / 2 ^ 64)). unfold u64, wrapU. pose proof (Z.div_mod x (2 ^ 64)). lia. Qed.

Lemma mod128_intro x y k : 0 <= x < 2 ^ 128 -> x = y + k * 2 ^ 128 -> x = y mod 2 ^ 128.
Proof. intros Hx E. apply (Zmod_unique y (2 ^ 128) (- k)); lia. Qed.

Lemma MakeUint128_ok a b : u128_ok (MakeUint128 (u64 a) (u64 b)).
Proof. split; apply u64_range. Qed.

Ltac u64_ranges :=
  repeat match goal with
    | |- context [u64 ?x] =>
        lazymatch goal with
        | _ : is_u64 (u64 x) |- _ => fail
        | _ => pose proof (u64_range x)
        end
    end.

Lemma u128_add_correct a b :
  u128_ok a -> u128_ok b ->
  u128_ok (u128_add_assign a b) /\
  u128_val (u128_add_assign a b) = (u128_val a + u128_val b) mod 2 ^ 128.
Proof.
  intros [La Ha] [Lb Hb]. assert (u128_ok (u128_add_assign a b)) as Hok.
  { split; simpl; [apply u64_range|]. case_if; apply u64_range. }
  split; [done|]. destruct (u64_quot (hi_ a + hi_ b)) as [k Hk].
  destruct (u64_quot (hi_ a +64 hi_ b + 1)) as [k' Hk'].
  apply (mod128_intro _ _ (if lo_ a +64 lo_ b <? lo_ a then k + k' else k));
    [by apply u128_val_range|].
  unfold u128_add_assign, u128_val. simpl. unfold is_u64 in *.
  assert (lo_ a +64 lo_ b = lo_ a + lo_ b /\ (lo_ a +64 lo_ b <? lo_ a) = false \/
          lo_ a +64 lo_ b = lo_ a + lo_ b - 2 ^ 64 /\ (lo_ a +64 lo_ b <? lo_ a) = true) as Hc.
  { destruct (decide (lo_ a + lo_ b < 2 ^ 64)).
    - left. rewrite u64_id by (unfold is_u64; lia). lia.
    - right. assert (lo_ a +64 lo_ b = lo_ a + lo_ b - 2 ^ 64) as ->; [|lia].
      unfold u64, wrapU. symmetry. apply (Zmod_unique _ _ 1); lia. }
  destruct Hc as [[E1 ->]|[E1 ->]]; rewrite ?Hk', Hk, E1; lia.
Qed.

Lemma u128_sub_correct a b :
  u128_ok a -> u128_ok b ->
  u128_ok (u128_sub_assign a b) /\
  u128_val (u128_sub_assign a b) = (u128_val a - u128_val b) mod 2 ^ 128.
Proof.
  intros [La Ha] [Lb Hb]. assert (u128_ok (u128_sub_assign a b)) as Hok.
  { split; simpl; [apply u64_range|]. case_if; apply u64_range. }
  split; [done|]. destruct (u64_quot (hi_ a - hi_ b)) as [k Hk].
  destruct (u64_quot (hi_ a -64 hi_ b - 1)) as [k' Hk'].
  apply (mod128_intro _ _ (if lo_ b >? lo_ a then k + k' else k)); [by apply u128_val_range|].
  unfold u128_sub_assign, u128_val. simpl. unfold is_u64 in *.
  assert (lo_ a -64 lo_ b = if lo_ b >? lo_ a then lo_ a - lo_ b + 2 ^ 64 else lo_ a - lo_ b) as ->.
  { case_if; bool_to_prop; [|apply u64_id; unfold is_u64; lia].
    unfold u64, wrapU. symmetry. apply (Zmod_unique _ _ (-1)); lia. }
  case_if; rewrite ?Hk', Hk; lia.
Qed.

(** ** Shifts *)

(** The words of a left shift by less than a word. *)
Lemma shl64_split x n : 0 < n < 64 -> shl64 x n = (x mod 2 ^ (64 - n)) * 2 ^ n.
Proof.
  intros Hn. unfold shl64, u64, wrapU. rewrite Z.shiftl_mul_pow2 by lia.
  replace (2 ^ 64) with (2 ^ (64 - n) * 2 ^ n) by (rewrite <- Z.pow_add_r by lia; f_equal; lia).
  apply Z.mul_mod_distr_r; apply Z.pow_nonzero; lia.
Qed.

Lemma pow64_split n : 0 <= n <= 64 -> 2 ^ (64 - n) * 2 ^ n = 2 ^ 64.
Proof. intros. rewrite <- Z.pow_add_r by lia. f_equal. lia. Qed.

Lemma shr64_range x n : is_u64 x -> 0 <= n <= 64 -> 0 <= shr64 x (64 - n) < 2 ^ n.
Proof.
  intros Hx Hn. unfold shr64, is_u64 in *. rewrite Z.shiftr_div_pow2 by lia.
  pose proof (pow64_split n Hn). pose proof (Z.pow_pos_nonneg 2 (64 - n)).
  split; [apply Z.div_pos; lia|]. apply Z.div_lt_upper_bound; lia.
Qed.

Lemma u128_shl_correct a n :
  u128_ok a -> 0 <= n ->
  u128_ok (u128_shl a n) /\ u128_val (u128_shl a n) = (u128_val a * 2 ^ n) mod 2 ^ 128.
Proof.
  intros Hok Hn. pose proof Hok as [Hl Hh]. unfold u128_shl, Uint128Low64, Uint128High64.
  destruct (n <? 64) eqn:E1; bool_to_prop; [destruct (n =? 0) eqn:E2; bool_to_prop|].
  - subst. split; [done|]. rewrite Z.mul_1_r, Z.mod_small; [done|]. by apply u128_val_range.
  - rewrite !shl64_split by lia. pose proof (shr64_range (lo_ a) n Hl ltac:(lia)) as Hr.
    rewrite lor_disjoint by lia. unfold shr64 in *. rewrite Z.shiftr_div_pow2 in * by lia.
    pose proof (pow64_split n ltac:(lia)) as Hpq.
    pose proof (Z.pow_pos_nonneg 2 (64 - n)) as Hq. pose proof (Z.pow_pos_nonneg 2 n) as Hp.
    set (q := 2 ^ (64 - n)) in *. set (p := 2 ^ n) in *.
    pose proof (Z.div_mod (lo_ a) q) as Dl. pose proof (Z.div_mod (hi_ a) q) as Dh.
    pose proof (Z.mod_pos_bound (lo_ a) q) as Ml. pose proof (Z.mod_pos_bound (hi_ a) q) as Mh.
    set (lq := lo_ a / q) in *. set (lm := lo_ a mod q) in *.
    set (hq := hi_ a / q) in *. set (hm := hi_ a mod q) in *.
    assert (u128_ok (MakeUint128 (hm * p + lq) (lm * p))) as Hok'
      by (split; unfold is_u64; simpl; nia).
    split; [done|]. apply (mod128_intro _ _ (- hq)); [by apply u128_val_range|].
    unfold u128_val. simpl. rewrite Dl, Dh by lia.
    replace (2 ^ 128) with (2 ^ 64 * 2 ^ 64) by lia. rewrite <- Hpq. ring.
  - destruct (n <? 128) eqn:E2; bool_to_prop.
    + split; [split; [unfold is_u64; simpl; lia|apply u64_range]|]. unfold u128_val. simpl.
      destruct (u64_quot (Z.shiftl (lo_ a) (n - 64))) as [k Hk].
      apply (mod128_intro _ _ (k - hi_ a * 2 ^ (n - 64))).
      { pose proof (u64_range (Z.shiftl (lo_ a) (n - 64))) as Hr. unfold shl64, is_u64 in *. lia. }
      unfold shl64. rewrite Hk, Z.shiftl_mul_pow2 by lia.
      replace (2 ^ n) with (2 ^ (n - 64) * 2 ^ 64) by (rewrite <- Z.pow_add_r by lia; f_equal; lia).
      replace (2 ^ 128) with (2 ^ 64 * 2 ^ 64) by lia. ring.
    + split; [split; unfold is_u64; simpl; lia|]. unfold u128_val. simpl. symmetry.
      replace (2 ^ n) with (2 ^ (n - 128) * 2 ^ 128)
        by (rewrite <- Z.pow_add_r by lia; f_equal; lia).
      rewrite Z.mul_assoc. apply Z.mod_mul. lia.
Qed.

Lemma u128_shr_correct a n :
  u128_ok a -> 0 <= n ->
  u128_ok (u128_shr a n) /\ u128_val (u128_shr a n) = u128_val a / 2 ^ n.
Proof.
  intros Hok Hn. pose proof Hok as [Hl Hh]. unfold u128_shr, Uint128Low64, Uint128High64.
  destruct (n <? 64) eqn:E1; bool_to_prop; [destruct (n =? 0) eqn:E2; bool_to_prop|].
  - subst. split; [done|]. by rewrite Z.div_1_r.
  - rewrite !shl64_split by lia. rewrite Z.lor_comm.
    replace (64 - (64 - n)) with n by lia.
    pose proof (shr64_range (lo_ a) (64 - n) Hl ltac:(lia)) as Hr.
    replace (64 - (64 - n)) with n in Hr by lia.
    rewrite lor_disjoint by lia. unfold shr64 in *. rewrite !Z.shiftr_div_pow2 in * by lia.
    pose proof (pow64_split n ltac:(lia)) as Hpq.
    pose proof (Z.pow_pos_nonneg 2 (64 - n)) as Hq. pose proof (Z.pow_pos_nonneg 2 n) as Hp.
    set (q := 2 ^ (64 - n)) in *. set (p := 2 ^ n) in *. unfold is_u64 in *.
    pose proof (Z.div_mod (lo_ a) p) as Dl. pose proof (Z.div_mod (hi_ a) p) as Dh.
    pose proof (Z.mod_pos_bound (lo_ a) p) as Ml. pose proof (Z.mod_pos_bound (hi_ a) p) as Mh.
    set (lq := lo_ a / p) in *. set (lm := lo_ a mod p) in *.
    set (hq := hi_ a / p) in *. set (hm := hi_ a mod p) in *.
    assert (0 <= hq) by (apply Z.div_pos; lia). assert (hq <= p * hq) by nia.
    assert (hm * q <= (p - 1) * q) by nia. assert (0 <= hm * q) by nia.
    split; [split; unfold is_u64; simpl; lia|]. unfold u128_val. simpl.
    apply (Z.div_unique _ _ _ lm); [lia|]. rewrite Dl, Dh by lia. rewrite <- Hpq. ring.
  - destruct (n <? 128) eqn:E2; bool_to_prop.
    + pose proof (shr64_range (hi_ a) (128 - n) Hh ltac:(lia)) as Hr.
      replace (64 - (128 - n)) with (n - 64) in Hr by lia.
      assert (2 ^ (128 - n) <= 2 ^ 64) by (apply Z.pow_le_mono_r; lia).
      split; [split; unfold is_u64; simpl; lia|]. unfold u128_val, shr64. simpl.
      rewrite Z.shiftr_div_pow2 by lia.
      replace (2 ^ n) with (2 ^ 64 * 2 ^ (n - 64)) by (rewrite <- Z.pow_add_r by lia; f_equal; lia).
      unfold is_u64 in *. rewrite <- Z.div_div by (try apply Z.pow_pos_nonneg; lia).
      rewrite (Z.div_add_l (hi_ a) (2 ^ 64) (lo_ a)), (Z.div_small (lo_ a)) by lia. by rewrite Z.add_0_r, Z.mul_0_l, Z.add_0_l.
    + split; [split; unfold is_u64; simpl; lia|]. simpl. symmetry. apply Z.div_small.
      pose proof (u128_val_range a Hok). assert (2 ^ 128 <= 2 ^ n) by (apply Z.pow_le_mono_r; lia). lia.
Qed.

(** ** Multiplication *)

Lemma split32 x : is_u64 x ->
  x = shr64 x 32 * 2 ^ 32 + Z.land x kLow32 /\
  0 <= shr64 x 32 < 2 ^ 32 /\ 0 <= Z.land x kLow32 < 2 ^ 32.
Proof.
  intros Hx. unfold shr64, kLow32, is_u64 in *. rewrite Z.shiftr_div_pow2 by lia.
  change 0xffffffff with (Z.ones 32). rewrite Z.land_ones by lia.
  pose proof (Z.div_mod x (2 ^ 32)). pose proof (Z.mod_pos_bound x (2 ^ 32)).
  split; [lia|]. split; [|lia]. split; [apply Z.div_pos; lia|]. apply Z.div_lt_upper_bound; lia.
Qed.

Lemma u64_of_product x y : 0 <= x < 2 ^ 32 -> 0 <= y < 2 ^ 32 -> u64 (x * y) = x * y.
Proof. intros. apply u64_id. unfold is_u64. nia. Qed.

(** The middle words of the product, up to a multiple of 2^64. *)
Lemma mul_high_word c1 c2 c3 c4 d1 d2 d3 :
  exists k, shl64 (u64 (u64 (u64 (c1 + c2) + c3) + c4)) 32 +64 (u64 (u64 (d1 + d2) + d3))
            = (c1 + c2 + c3 + c4) * 2 ^ 32 + (d1 + d2 + d3) + k * 2 ^ 64.
Proof.
  unfold shl64. rewrite Z.shiftl_mul_pow2 by lia.
  destruct (u64_quot (c1 + c2)) as [k1 ->]. destruct (u64_quot (c1 + c2 + k1 * 2 ^ 64 + c3)) as [k2 ->].
  destruct (u64_quot (c1 + c2 + k1 * 2 ^ 64 + c3 + k2 * 2 ^ 64 + c4)) as [k3 ->].
  destruct (u64_quot (d1 + d2)) as [k4 ->]. destruct (u64_quot (d1 + d2 + k4 * 2 ^ 64 + d3)) as [k5 ->].
  match goal with |- context [u64 (?x * 2 ^ 32)] => destruct (u64_quot (x * 2 ^ 32)) as [k6 ->] end.
  match goal with |- context [u64 ?x] => destruct (u64_quot x) as [k7 ->] end.
  exists ((k1 + k2 + k3) * 2 ^ 32 + k4 + k5 + k6 + k7). ring.
Qed.

Lemma u128_of_u64_ok x : is_u64 x -> u128_ok (u128_of_u64 x) /\ u128_val (u128_of_u64 x) = x.
Proof. intros Hx. split; [split; [done|unfold is_u64; simpl; lia]|]. unfold u128_val. simpl. lia. Qed.

Lemma mod128_quot x : exists k, x mod 2 ^ 128 = x + k * 2 ^ 128.
Proof. exists (- (x / 2 ^ 128)). pose proof (Z.div_mod x (2 ^ 128)). lia. Qed.

(** Adding a word shifted by half a word, as [*this += uint128(w) << 32]. *)
Lemma u128_add_shifted x w :
  u128_ok x -> is_u64 w ->
  u128_ok (u128_add_assign x (u128_shl (u128_of_u64 w) 32)) /\
  exists k, u128_val (u128_add_assign x (u128_shl (u128_of_u64 w) 32))
            = u128_val x + w * 2 ^ 32 + k * 2 ^ 128.
Proof.
  intros Hx Hw. destruct (u128_of_u64_ok w Hw) as [Hok Hv].
  destruct (u128_shl_correct _ 32 Hok) as [Hs Vs]; [lia|].
  destruct (u128_add_correct x _ Hx Hs) as [Ha Va]. split; [done|]. rewrite Va, Vs, Hv.
  destruct (mod128_quot (w * 2 ^ 32)) as [k1 ->].
  destruct (mod128_quot (u128_val x + (w * 2 ^ 32 + k1 * 2 ^ 128))) as [k2 ->].
  exists (k1 + k2). ring.
Qed.

Lemma u128_mul_correct a b :
  u128_ok a -> u128_ok b ->
  u128_ok (u128_mul_assign a b) /\
  u128_val (u128_mul_assign a b) = (u128_val a * u128_val b) mod 2 ^ 128.
Proof.
  intros [La Ha] [Lb Hb]. unfold u128_mul_assign.
  destruct (split32 _ La) as (Ela & A1 & A0). destruct (split32 _ Ha) as (Eha & A3 & A2).
  destruct (split32 _ Lb) as (Elb & B1 & B0). destruct (split32 _ Hb) as (Ehb & B3 & B2).
  assert (u128_val a = (shr64 (hi_ a) 32 * 2 ^ 32 + Z.land (hi_ a) kLow32) * 2 ^ 64
            + (shr64 (lo_ a) 32 * 2 ^ 32 + Z.land (lo_ a) kLow32)) as -> by (unfold u128_val; lia).
  assert (u128_val b = (shr64 (hi_ b) 32 * 2 ^ 32 + Z.land (hi_ b) kLow32) * 2 ^ 64
            + (shr64 (lo_ b) 32 * 2 ^ 32 + Z.land (lo_ b) kLow32)) as -> by (unfold u128_val; lia).
  clear Ela Eha Elb Ehb La Ha Lb Hb.
  revert A0 A1 A2 A3 B0 B1 B2 B3.
  generalize (shr64 (hi_ a) 32) (Z.land (hi_ a) kLow32) (shr64 (lo_ a) 32) (Z.land (lo_ a) kLow32)
    (shr64 (hi_ b) 32) (Z.land (hi_ b) kLow32) (shr64 (lo_ b) 32) (Z.land (lo_ b) kLow32).
  intros a96 a64 a32 a00 b96 b64 b32 b00 A0 A1 A2 A3 B0 B1 B2 B3.
  rewrite !u64_of_product by done.
  set (h := shl64 _ 32 +64 _).
  assert (exists k, h = (a96 * b00 + a64 * b32 + a32 * b64 + a00 * b96) * 2 ^ 32
                        + (a64 * b00 + a32 * b32 + a00 * b64) + k * 2 ^ 64) as [k0 Hk0]
    by apply mul_high_word.
  assert (u128_ok (MkUint128rec 0 h)) as Hh
    by (split; [unfold is_u64; simpl; lia | apply u64_range]).
  assert (forall x y, 0 <= x < 2 ^ 32 -> 0 <= y < 2 ^ 32 -> is_u64 (x * y)) as Hp
    by (unfold is_u64; intros; nia).
  destruct (u128_add_shifted _ (a32 * b00) Hh) as [O1 [k1 V1]]; [auto|].
  destruct (u128_add_shifted _ (a00 * b32) O1) as [O2 [k2 V2]]; [auto|].
  destruct (u128_of_u64_ok (a00 * b00)) as [O3 V3]; [auto|].
  destruct (u128_add_correct _ _ O2 O3) as [O4 V4]. split; [done|].
  destruct (mod128_quot (u128_val (u128_add_assign (u128_add_assign (MkUint128rec 0 h)
    (u128_shl (u128_of_u64 (a32 * b00)) 32)) (u128_shl (u128_of_u64 (a00 * b32)) 32))
     + a00 * b00)) as [k3 V5].
  apply (mod128_intro _ _ (k0 + k1 + k2 + k3 - a96 * b96 * 2 ^ 64
           - (a96 * b64 + a64 * b96) * 2 ^ 32 - (a96 * b32 + a64 * b64 + a32 * b96)));
    [by apply u128_val_range|].
  rewrite V4, V3, V5, V2, V1. unfold u128_val. simpl lo_. simpl hi_. rewrite Hk0.
  replace (2 ^ 128) with (2 ^ 64 * 2 ^ 64) by lia. replace (2 ^ 64) with (2 ^ 32 * 2 ^ 32) by lia. ring.
Qed.

(** ** Negation, comparisons and logic *)

Lemma u128_neg_correct a :
  u128_ok a ->
  u128_ok (u128_neg a) /\ u128_val (u128_neg a) = (- u128_val a) mod 2 ^ 128.
Proof.
  intros [Hl Hh]. unfold u128_neg, not64, Uint128Low64, Uint128High64, kU64Max, is_u64 in *.
  assert (2 ^ 64 - 1 - lo_ a +64 1 = if lo_ a =? 0 then 0 else 2 ^ 64 - lo_ a) as ->.
  { case_if; bool_to_prop; [by replace (lo_ a) with 0 by lia|].
    replace (2 ^ 64 - 1 - lo_ a + 1) with (2 ^ 64 - lo_ a) by lia. apply u64_id. unfold is_u64. lia. }
  destruct (u64_quot (2 ^ 64 - 1 - hi_ a + 1)) as [k Hk].
  pose proof (u64_range (2 ^ 64 - 1 - hi_ a + 1)) as Hr. unfold is_u64 in Hr.
  destruct (lo_ a =? 0) eqn:E; bool_to_prop.
  - replace (0 <? 2 ^ 64 - 1 - lo_ a) with true by lia.
    split; [split; unfold is_u64; simpl; lia|].
    apply (mod128_intro _ _ (1 + k)); unfold u128_val; simpl; lia.
  - replace (2 ^ 64 - lo_ a <? 2 ^ 64 - 1 - lo_ a) with false by lia.
    split; [split; unfold is_u64; simpl; lia|].
    apply (mod128_intro _ _ 1); unfold u128_val; simpl; lia.
Qed.

Lemma u128_ltb_correct a b :
  u128_ok a -> u128_ok b -> u128_ltb a b = (u128_val a <? u128_val b).
Proof.
  intros [? ?] [? ?]. unfold u128_ltb, CMP128, u128_val, Uint128High64, Uint128Low64, is_u64 in *.
  case_if; bool_to_prop; lia.
Qed.

Lemma u128_eqb_correct a b :
  u128_ok a -> u128_ok b -> u128_eqb a b = (u128_val a =? u128_val b).
Proof.
  intros [? ?] [? ?]. unfold u128_eqb, u128_val, Uint128High64, Uint128Low64, is_u64 in *. lia.
Qed.

(** A word above 64 bits splits into its two halves under a bitwise operator. *)
Lemma val_testbit x n :
  u128_ok x -> 0 <= n ->
  Z.testbit (u128_val x) n =
  if n <? 64 then Z.testbit (lo_ x) n else Z.testbit (hi_ x) (n - 64).
Proof.
  intros [Hl Hh] Hn. unfold u128_val, is_u64 in *. rewrite <- lor_disjoint by lia.
  rewrite Z.lor_spec. case_if; bool_to_prop.
  - by rewrite Z.mul_pow2_bits_low by lia.
  - rewrite Z.mul_pow2_bits by lia. rewrite <- (Z.mod_small (lo_ x) (2 ^ 64)) by done.
    rewrite Z.mod_pow2_bits_high by lia. apply orb_false_r.
Qed.

Lemma u128_xor_correct a b :
  u128_ok a -> u128_ok b ->
  u128_ok (u128_xor a b) /\ u128_val (u128_xor a b) = Z.lxor (u128_val a) (u128_val b).
Proof.
  intros Ha Hb.
  assert (forall x y, is_u64 x -> is_u64 y -> is_u64 (Z.lxor x y)) as Hx.
  { intros x y Hx Hy. unfold is_u64 in *. assert (Z.lxor x y mod 2 ^ 64 = Z.lxor x y) as <-;
      [|apply Z.mod_pos_bound; lia].
    apply Z.bits_inj'. intros n Hn. destruct (decide (n < 64)).
    - by rewrite Z.mod_pow2_bits_low.
    - rewrite Z.mod_pow2_bits_high by lia. rewrite Z.lxor_spec.
      rewrite <- (Z.mod_small x (2 ^ 64)), <- (Z.mod_small y (2 ^ 64)) by done.
      by rewrite !Z.mod_pow2_bits_high by lia. }
  assert (u128_ok (u128_xor a b)) as Hok by (split; apply Hx; (apply Ha || apply Hb)).
  split; [done|]. apply Z.bits_inj'. intros n Hn.
  rewrite Z.lxor_spec, !val_testbit by done. simpl. case_if; apply Z.lxor_spec.
Qed.

(** ** Properties *)

(** The operators of [uint128] compute modulo 2^128 the sum, difference,
    product, negation and left shift, and exactly the right shift, xor and the
    comparisons of the numbers their words denote. *)
Lemma uint128_arithmetic (a b : uint128) (n : Z) :
  u128_ok a -> u128_ok b -> 0 <= n ->
  u128_val (u128_add a b) = (u128_val a + u128_val b) mod 2 ^ 128 /\
  u128_val (u128_sub a b) = (u128_val a - u128_val b) mod 2 ^ 128 /\
  u128_val (u128_mul a b) = (u128_val a * u128_val b) mod 2 ^ 128 /\
  u128_val (u128_neg a) = (- u128_val a) mod 2 ^ 128 /\
  u128_val (u128_shl a n) = (u128_val a * 2 ^ n) mod 2 ^ 128 /\
  u128_val (u128_shr a n) = u128_val a / 2 ^ n /\
  u128_val (u128_xor a b) = Z.lxor (u128_val a) (u128_val b) /\
  u128_ltb a b = (u128_val a <? u128_val b) /\ u128_eqb a b = (u128_val a =? u128_val b).
Proof.
  intros Ha Hb Hn. unfold u128_add, u128_sub, u128_mul. split_and!.
  - by apply u128_add_correct.
  - by apply u128_sub_correct.
  - by apply u128_mul_correct.
  - by apply u128_neg_correct.
  - by apply u128_shl_correct.
  - by apply u128_shr_correct.
  - by apply u128_xor_correct.
  - by apply u128_ltb_correct.
  - by apply u128_eqb_correct.
Qed.

Lemma uint128_arithmetic_witness :
  let a := MakeUint128 3 (2 ^ 64 - 1) in
  let b := MakeUint128 16777216 315 in
  u128_val (u128_mul a b) = (u128_val a * u128_val b) mod 2 ^ 128.
Proof.
  intros a b. apply (uint128_arithmetic a b 0); [split; unfold is_u64; simpl; lia..|lia].
Defined.

(** [<<=] agrees with [<<] for every amount; [>>=] agrees with [>>] except
    for amounts from 64 to 127, where it always gives zero because it clears
    [hi_] before reading it. *)
Lemma uint128_shift_assign (a : uint128) (n : Z) :
  u128_shl_assign a n = u128_shl a n /\
  (n < 64 \/ 128 <= n -> u128_shr_assign a n = u128_shr a n) /\
  (64 <= n < 128 -> u128_shr_assign a n = MakeUint128 0 0).
Proof.
  unfold u128_shl_assign, u128_shl, u128_shr_assign, u128_shr.
  split_and!; intros; destruct a; repeat case_if; bool_to_prop; try lia; try done.
  simpl. unfold shr64. by rewrite Z.shiftr_0_l.
Qed.

Lemma uint128_shift_assign_witness :
  u128_shr_assign (MakeUint128 1 0) 64 = MakeUint128 0 0 /\
  u128_shr (MakeUint128 1 0) 64 = MakeUint128 0 1 /\
  u128_shr_assign (MakeUint128 1 0) 8 = u128_shr (MakeUint128 1 0) 8.
Proof.
  destruct (uint128_shift_assign (MakeUint128 1 0) 64) as (_ & _ & H).
  destruct (uint128_shift_assign (MakeUint128 1 0) 8) as (_ & H8 & _).
  split; [apply H; lia|split; [reflexivity|apply H8; lia]].
Defined.
