(* ===== verification/QuicUtils.v ===== *)
(** * quic/core/quic_utils.cc: the FNV-1a hashes

    Data is a list of octets.  The fast 128-bit hash works on a native 128-bit
    integer (a [Z] modulo 2^128), the slow one on net/base's [uint128]. *)

From S2P Require Import Prelude Int128.


(** The product of [__uint128_t] values. *)
Definition u128z (x : Z) : Z := x mod 2 ^ 128.

Definition kPrime_fast : Z := 16777216 * 2 ^ 64 + 315.

Definition IncrementalHashFast_loop (xhash : Z) (data : list Z) : Z :=
  fold_left (fun xhash octet => u128z (Z.lxor xhash octet * kPrime_fast)) data xhash.

Definition IncrementalHashFast (uhash : uint128) (data : list Z) : uint128 :=
  let xhash := u128z (u128z (Uint128High64 uhash * 2 ^ 64) + Uint128Low64 uhash) in
  let xhash := IncrementalHashFast_loop xhash data in
  MakeUint128 (u64 (Z.shiftr xhash 64)) (u64 (Z.land xhash 0xFFFFFFFFFFFFFFFF)).

Definition kPrime_slow : uint128 := MakeUint128 16777216 315.

Definition IncrementalHashSlow (hash : uint128) (data : list Z) : uint128 :=
  fold_left
    (fun hash octet => u128_mul (u128_xor hash (MakeUint128 0 octet)) kPrime_slow) data hash.

Definition FNV1a_64_Hash (data : list Z) : Z :=
  fold_left (fun hash octet => u64 (Z.lxor hash octet * 1099511628211)) data
    14695981039346656037.

Definition kOffset_128 : uint128 := MakeUint128 7809847782465536322 7113472399480571277.

(** Built for x86-64 with GCC or Clang: the fast version. *)
Definition IncrementalHash (hash : uint128) (data : list Z) : uint128 :=
  IncrementalHashFast hash data.

Definition FNV1a_128_Hash_Three (data1 data2 data3 : list Z) : uint128 :=
  let hash := IncrementalHash kOffset_128 data1 in
  if bool_decide (data2 = []) then hash
  else
    let hash := IncrementalHash hash data2 in
    if bool_decide (data3 = []) then hash else IncrementalHash hash data3.

Definition FNV1a_128_Hash_Two (data1 data2 : list Z) : uint128 :=
  FNV1a_128_Hash_Three data1 data2 [].

Definition FNV1a_128_Hash (data : list Z) : uint128 := FNV1a_128_Hash_Three data [] [].

(** Little-endian bytes of a word. *)
Definition le_byte (x : Z) (i : nat) : Z := Z.land (Z.shiftr x (8 * Z.of_nat i)) 255.

(** The 12 low-order bytes: all of the low word and half of the high word. *)
Definition SerializeUint128Short (v : uint128) : list Z :=
  map (le_byte (Uint128Low64 v)) (seq 0 8) ++ map (le_byte (Uint128High64 v)) (seq 0 4).

(** ** Lemmas *)

Lemma slow_step h octet :
  u128_ok h -> is_octet octet ->
  u128_ok (u128_mul (u128_xor h (MakeUint128 0 octet)) kPrime_slow) /\
  u128_val (u128_mul (u128_xor h (MakeUint128 0 octet)) kPrime_slow)
    = u128z (Z.lxor (u128_val h) octet * kPrime_fast).
Proof.
  intros Hh Ho. assert (u128_ok (MakeUint128 0 octet)) as Hm
    by (unfold is_octet in Ho; split; unfold is_u64; simpl; lia).
  destruct (u128_xor_correct h _ Hh Hm) as [Hx Vx].
  destruct (u128_mul_correct _ kPrime_slow Hx) as [Hp Vp]; [split; unfold is_u64; simpl; lia|].
  split; [done|]. unfold u128_mul. by rewrite Vp, Vx.
Qed.

Lemma slow_fast_loop h data :
  u128_ok h -> Forall is_octet data ->
  u128_ok (IncrementalHashSlow h data) /\
  u128_val (IncrementalHashSlow h data) = IncrementalHashFast_loop (u128_val h) data.
Proof.
  intros Hh Hd. revert h Hh. induction Hd as [|o data Ho _ IH]; intros h Hh; [done|].
  destruct (slow_step h o Hh Ho) as [Hok Hv]. simpl. rewrite <- Hv. by apply IH.
Qed.

Lemma words_of_val x : u128_ok x ->
  MakeUint128 (u64 (Z.shiftr (u128_val x) 64)) (u64 (Z.land (u128_val x) 0xFFFFFFFFFFFFFFFF)) = x.
Proof.
  intros [Hl Hh]. destruct x as [l h]. unfold u128_val, is_u64 in *. simpl in Hl, Hh |- *.
  rewrite Z.shiftr_div_pow2 by lia. change 18446744073709551615 with (Z.ones 64).
  rewrite Z.land_ones by lia. rewrite (Z.div_add_l h (2 ^ 64) l), Z.div_small by lia.
  rewrite (Z.add_comm (h * 2 ^ 64) l), Z.mod_add, Z.mod_small by lia.
  rewrite !u64_id by (unfold is_u64; lia). unfold MakeUint128. f_equal. lia.
Qed.

(** The native 128-bit hash is the hash on pairs of words. *)
Lemma fast_is_slow h data :
  u128_ok h -> Forall is_octet data -> IncrementalHashFast h data = IncrementalHashSlow h data.
Proof.
  intros Hh Hd. destruct (slow_fast_loop h data Hh Hd) as [Hok Hv]. unfold IncrementalHashFast.
  assert (u128z (u128z (Uint128High64 h * 2 ^ 64) + Uint128Low64 h) = u128_val h) as ->.
  { destruct Hh as [Hl Hhi]. unfold u128z, Uint128High64, Uint128Low64, u128_val, is_u64 in *.
    rewrite (Z.mod_small (hi_ h * 2 ^ 64)) by lia. apply Z.mod_small. lia. }
  rewrite <- Hv. by apply words_of_val.
Qed.

Lemma hash_app h d1 d2 :
  IncrementalHashSlow (IncrementalHashSlow h d1) d2 = IncrementalHashSlow h (d1 ++ d2).
Proof. unfold IncrementalHashSlow. by rewrite fold_left_app. Qed.

(** ** Properties *)

(** The fast incremental hash on native 128-bit integers equals the slow
    one on [uint128] words, on every state and all data. *)
Lemma IncrementalHash_fast_is_slow (h : uint128) (data : list Z) :
  u128_ok h -> Forall is_octet data -> IncrementalHashFast h data = IncrementalHashSlow h data.
Proof. apply fast_is_slow. Qed.

Lemma IncrementalHash_fast_is_slow_witness :
  IncrementalHashFast kOffset_128 [113; 117; 105; 99] = IncrementalHashSlow kOffset_128 [113; 117; 105; 99].
Proof.
  apply IncrementalHash_fast_is_slow.
  - split; unfold is_u64; simpl; lia.
  - unfold is_octet; forall_lia.
Defined.

(** Hashing two pieces is hashing their concatenation, and so for three
    pieces unless the second is empty: then the third is not hashed at all. *)
Lemma FNV1a_128_pieces (d1 d2 d3 : list Z) :
  Forall is_octet d1 -> Forall is_octet d2 -> Forall is_octet d3 ->
  FNV1a_128_Hash_Two d1 d2 = FNV1a_128_Hash (d1 ++ d2) /\
  (d2 ≠ [] -> FNV1a_128_Hash_Three d1 d2 d3 = FNV1a_128_Hash (d1 ++ d2 ++ d3)) /\
  FNV1a_128_Hash_Three d1 [] d3 = FNV1a_128_Hash d1.
Proof.
  intros H1 H2 H3. assert (u128_ok kOffset_128) as Hk by (split; unfold is_u64; simpl; lia).
  assert (forall d, Forall is_octet d -> u128_ok (IncrementalHashSlow kOffset_128 d)) as Hok
    by (intros; by apply slow_fast_loop).
  unfold FNV1a_128_Hash_Two, FNV1a_128_Hash, FNV1a_128_Hash_Three, IncrementalHash.
  rewrite !(bool_decide_eq_true_2 ([] = [])) by done.
  rewrite !(fast_is_slow kOffset_128) by (rewrite ?Forall_app; done).
  rewrite (fast_is_slow _ d2) by auto. rewrite hash_app. split_and!; [| |done].
  - case_bool_decide; subst; by rewrite ?app_nil_r.
  - intros Hne. rewrite bool_decide_eq_false_2 by done.
    rewrite (fast_is_slow _ d3), hash_app, <- app_assoc
      by (try apply Hok; rewrite ?Forall_app; done).
    case_bool_decide; subst; by rewrite ?app_nil_r.
Qed.

Lemma FNV1a_128_pieces_witness :
  FNV1a_128_Hash_Two [1; 2] [3] = FNV1a_128_Hash [1; 2; 3].
Proof.
  refine (proj1 (FNV1a_128_pieces [1; 2] [3] [] _ _ _)); unfold is_octet; forall_lia.
Defined.
