(* ===== verification/StreamPrecedence.v ===== *)
(** * spdy/core/spdy_protocol.{h,cc}: stream precedences

    A SPDY 3 priority (0 highest to 7 lowest) or an HTTP/2 dependency with a
    weight from 1 to 256, and the conversions between the two scales.  The
    conversions are single-precision float computations; they are modelled with
    the IEEE 754 operations of the standard library at 24 bits of precision. *)

From S2P Require Import Prelude.
From Stdlib Require Import SpecFloat.
#[local] Open Scope Z_scope.

Definition kV3HighestPriority : Z := 0.
Definition kV3LowestPriority : Z := 7.
Definition kHttp2MinStreamWeight : Z := 1.
Definition kHttp2MaxStreamWeight : Z := 256.
Definition kHttp2RootStreamId : Z := 0.

(** ** Single-precision floats *)

Definition float_prec : Z := 24.
Definition float_emax : Z := 128.
Definition float_of_int (n : Z) : spec_float := binary_normalize float_prec float_emax n 0 false.
Definition float_div : spec_float -> spec_float -> spec_float := SFdiv float_prec float_emax.
Definition float_mul : spec_float -> spec_float -> spec_float := SFmul float_prec float_emax.
Definition float_sub : spec_float -> spec_float -> spec_float := SFsub float_prec float_emax.

(** [static_cast<int>(f)]: truncation of a finite float. *)
Definition float_to_int (f : spec_float) : Z :=
  match f with
  | S754_finite s m e =>
      let v := if 0 <=? e then Z.shiftl (Zpos m) e else Z.shiftr (Zpos m) (- e) in
      if s then - v else v
  | _ => 0
  end.

(** [255.9f / 7.f]; 255.9f is the float nearest to 2559/10. *)
Definition kSteps : spec_float :=
  float_div (float_div (float_of_int 2559) (float_of_int 10)) (float_of_int 7).

(** ** Clamping and conversion *)

Definition ClampSpdy3Priority (priority : Z) : Z :=
  if priority <? kV3HighestPriority then kV3HighestPriority
  else if priority >? kV3LowestPriority then kV3LowestPriority
  else priority.

Definition ClampHttp2Weight (weight : Z) : Z :=
  if weight <? kHttp2MinStreamWeight then kHttp2MinStreamWeight
  else if weight >? kHttp2MaxStreamWeight then kHttp2MaxStreamWeight
  else weight.

Definition Spdy3PriorityToHttp2Weight (priority : Z) : Z :=
  let priority := ClampSpdy3Priority priority in
  float_to_int (float_mul kSteps (float_sub (float_of_int 7) (float_of_int priority))) + 1.

(** [static_cast<SpdyPriority>]: conversion to an 8-bit unsigned integer. *)
Definition Http2WeightToSpdy3Priority (weight : Z) : Z :=
  let weight := ClampHttp2Weight weight in
  wrapU 8 (float_to_int (float_sub (float_of_int 7) (float_div (float_of_int (weight - 1)) kSteps))).

(** ** StreamPrecedence *)

Inductive StreamPrecedence :=
| Spdy3Precedence (spdy3_priority_ : Z)
| Http2Precedence (parent_id_ weight_ : Z) (is_exclusive_ : bool).

Definition StreamPrecedence_spdy3 (priority : Z) : StreamPrecedence :=
  Spdy3Precedence (ClampSpdy3Priority priority).
Definition StreamPrecedence_http2 (parent_id weight : Z) (is_exclusive : bool) : StreamPrecedence :=
  Http2Precedence parent_id (ClampHttp2Weight weight) is_exclusive.

Definition is_spdy3_priority (p : StreamPrecedence) : bool :=
  match p with Spdy3Precedence _ => true | Http2Precedence _ _ _ => false end.

Definition spdy3_priority (p : StreamPrecedence) : Z :=
  match p with
  | Spdy3Precedence x => x
  | Http2Precedence _ w _ => Http2WeightToSpdy3Priority w
  end.

Definition parent_id (p : StreamPrecedence) : Z :=
  match p with Spdy3Precedence _ => kHttp2RootStreamId | Http2Precedence i _ _ => i end.

Definition weight (p : StreamPrecedence) : Z :=
  match p with
  | Spdy3Precedence x => Spdy3PriorityToHttp2Weight x
  | Http2Precedence _ w _ => w
  end.

Definition is_exclusive (p : StreamPrecedence) : bool :=
  match p with Spdy3Precedence _ => false | Http2Precedence _ _ e => e end.

Definition StreamPrecedence_eqb (p other : StreamPrecedence) : bool :=
  if is_spdy3_priority p then
    is_spdy3_priority other && (spdy3_priority p =? spdy3_priority other)
  else
    negb (is_spdy3_priority other) && (parent_id p =? parent_id other)
    && (weight p =? weight other) && Bool.eqb (is_exclusive p) (is_exclusive other).

(** ** Lemmas *)

Definition is_priority (p : Z) : Prop := 0 <= p <= 7.

Lemma ClampSpdy3Priority_range p : is_priority (ClampSpdy3Priority p).
Proof.
  unfold is_priority, ClampSpdy3Priority, kV3HighestPriority, kV3LowestPriority.
  repeat case_if; bool_to_prop; lia.
Qed.

Lemma ClampSpdy3Priority_id p : is_priority p -> ClampSpdy3Priority p = p.
Proof.
  unfold is_priority, ClampSpdy3Priority, kV3HighestPriority, kV3LowestPriority.
  intros. repeat case_if; bool_to_prop; lia.
Qed.

Lemma ClampHttp2Weight_range w : 1 <= ClampHttp2Weight w <= 256.
Proof.
  unfold ClampHttp2Weight, kHttp2MinStreamWeight, kHttp2MaxStreamWeight.
  repeat case_if; bool_to_prop; lia.
Qed.

Lemma ClampHttp2Weight_id w : 1 <= w <= 256 -> ClampHttp2Weight w = w.
Proof.
  unfold ClampHttp2Weight, kHttp2MinStreamWeight, kHttp2MaxStreamWeight.
  intros. repeat case_if; bool_to_prop; lia.
Qed.

(** A finite check over an interval of integers. *)
Definition all_between (lo : Z) (n : nat) (f : Z -> bool) : bool :=
  forallb (fun i => f (lo + Z.of_nat i)) (seq 0 n).

Lemma all_between_spec lo n f x :
  all_between lo n f = true -> lo <= x < lo + Z.of_nat n -> f x = true.
Proof.
  unfold all_between. rewrite forallb_forall. intros H Hx.
  specialize (H (Z.to_nat (x - lo))). rewrite in_seq in H.
  replace (lo + Z.of_nat (Z.to_nat (x - lo))) with x in H by lia. apply H. lia.
Qed.

(** The facts about the floats, checked on all priorities and weights. *)
Lemma priority_table p : is_priority p ->
  1 <= Spdy3PriorityToHttp2Weight p <= 256 /\
  Http2WeightToSpdy3Priority (Spdy3PriorityToHttp2Weight p) = p.
Proof.
  intros Hp. assert ((1 <=? Spdy3PriorityToHttp2Weight p) && (Spdy3PriorityToHttp2Weight p <=? 256)
    && (Http2WeightToSpdy3Priority (Spdy3PriorityToHttp2Weight p) =? p) = true) as H; [|blia].
  apply (all_between_spec 0 8 (fun p => (1 <=? Spdy3PriorityToHttp2Weight p)
    && (Spdy3PriorityToHttp2Weight p <=? 256)
    && (Http2WeightToSpdy3Priority (Spdy3PriorityToHttp2Weight p) =? p)));
    [vm_compute; reflexivity | unfold is_priority in Hp; lia].
Qed.

Lemma weight_table w : 1 <= w <= 256 ->
  is_priority (Http2WeightToSpdy3Priority w) /\
  (1 < w -> Http2WeightToSpdy3Priority w <= Http2WeightToSpdy3Priority (w - 1)).
Proof.
  intros Hw. assert ((0 <=? Http2WeightToSpdy3Priority w) && (Http2WeightToSpdy3Priority w <=? 7)
    && ((w =? 1) || (Http2WeightToSpdy3Priority w <=? Http2WeightToSpdy3Priority (w - 1))) = true) as H.
  { apply (all_between_spec 1 256 (fun w => (0 <=? Http2WeightToSpdy3Priority w)
      && (Http2WeightToSpdy3Priority w <=? 7)
      && ((w =? 1) || (Http2WeightToSpdy3Priority w <=? Http2WeightToSpdy3Priority (w - 1)))));
      [vm_compute; reflexivity | lia]. }
  apply andb_true_iff in H as [H1 H2]. apply orb_true_iff in H2. unfold is_priority.
  bool_to_prop. split; [lia|]. intros. destruct H2; bool_to_prop; lia.
Qed.

Lemma spdy3_priority_range p : is_priority (spdy3_priority (StreamPrecedence_spdy3 p)).
Proof. apply ClampSpdy3Priority_range. Qed.

(** ** Properties *)

(** Converting a SPDY priority to an HTTP/2 weight and back gives the same
    priority, for both constructors the priority is within 0..7 and the weight
    within 1..256, and a greater weight never gives a numerically greater
    (lower) priority. *)
Lemma StreamPrecedence_scales (priority parent w : Z) (excl : bool) :
  let p := StreamPrecedence_spdy3 priority in
  let h := StreamPrecedence_http2 parent w excl in
  spdy3_priority (StreamPrecedence_http2 parent (weight p) excl) = spdy3_priority p /\
  is_priority (spdy3_priority p) /\ is_priority (spdy3_priority h) /\
  1 <= weight p <= 256 /\ 1 <= weight h <= 256 /\
  spdy3_priority (StreamPrecedence_http2 parent (w + 1) excl) <= spdy3_priority h.
Proof.
  intros p h. pose proof (ClampSpdy3Priority_range priority) as Hp.
  destruct (priority_table _ Hp) as [Hw Hr]. pose proof (ClampHttp2Weight_range w) as Hc.
  destruct (weight_table _ Hc) as [Hc' _].
  pose proof (weight_table _ (ClampHttp2Weight_range (w + 1))) as [_ Hm]. simpl.
  rewrite (ClampHttp2Weight_id (Spdy3PriorityToHttp2Weight (ClampSpdy3Priority priority))) by done.
  split_and!; try done; try lia.
  assert (ClampHttp2Weight (w + 1) = ClampHttp2Weight w \/
          ClampHttp2Weight (w + 1) = ClampHttp2Weight w + 1) as [->|E].
  { unfold ClampHttp2Weight, kHttp2MinStreamWeight, kHttp2MaxStreamWeight.
    repeat case_if; bool_to_prop; lia. }
  - lia.
  - rewrite E in *. replace (ClampHttp2Weight w + 1 - 1) with (ClampHttp2Weight w) in Hm by lia.
    apply Hm. lia.
Qed.
