(* ===== verification/PriorityWriteScheduler.v ===== *)
(** * spdy/core/priority_write_scheduler.h

    The scheduler keeps a [StreamInfo] per registered stream in an unordered map
    and, per priority, a deque of pointers into that map.  References to map
    elements stay valid, so a pointer is represented by its key.  [SPDY_BUG] only
    logs.  Every operation that changes the scheduler returns the new one. *)

From S2P Require Import Prelude StreamPrecedence.
From stdpp Require Import gmap.
#[local] Open Scope Z_scope.

(** ** Data *)

Record StreamInfo := MkStreamInfo { priority : Z; stream_id : Z; ready : bool }.

Record PriorityInfo := MkPriorityInfo { ready_list : list Z; last_event_time_usec : Z }.

Record PriorityWriteScheduler := MkPriorityWriteScheduler {
  num_ready_streams_ : Z;
  priority_infos_ : list PriorityInfo;
  stream_infos_ : gmap Z StreamInfo
}.

Definition PriorityWriteScheduler_new : PriorityWriteScheduler :=
  MkPriorityWriteScheduler 0 (replicate 8 (MkPriorityInfo [] 0)) ∅.

(** [priority_infos_[p]], for the eight priorities. *)
Definition info_at (s : PriorityWriteScheduler) (p : Z) : PriorityInfo :=
  default (MkPriorityInfo [] 0) (priority_infos_ s !! Z.to_nat p).

Definition ready_at (s : PriorityWriteScheduler) (p : Z) : list Z := ready_list (info_at s p).

Definition set_ready_at (s : PriorityWriteScheduler) (p : Z) (l : list Z) : PriorityWriteScheduler :=
  MkPriorityWriteScheduler (num_ready_streams_ s)
    (<[Z.to_nat p := MkPriorityInfo l (last_event_time_usec (info_at s p))]> (priority_infos_ s))
    (stream_infos_ s).

Definition set_num (s : PriorityWriteScheduler) (n : Z) : PriorityWriteScheduler :=
  MkPriorityWriteScheduler n (priority_infos_ s) (stream_infos_ s).

Definition set_infos (s : PriorityWriteScheduler) (m : gmap Z StreamInfo) : PriorityWriteScheduler :=
  MkPriorityWriteScheduler (num_ready_streams_ s) (priority_infos_ s) m.

(** ** Operations *)

(** [std::find] followed by [erase]: the list without the first occurrence. *)
Fixpoint erase_first (x : Z) (l : list Z) : option (list Z) :=
  match l with
  | [] => None
  | y :: l => if y =? x then Some l else l' ← erase_first x l; Some (y :: l')
  end.

(** [Erase(&priority_infos_[p].ready_list, info)] for the info of stream [id]. *)
Definition Erase (s : PriorityWriteScheduler) (p : Z) (id : Z) : PriorityWriteScheduler * bool :=
  match erase_first id (ready_at s p) with
  | None => (s, false)
  | Some l => (set_num (set_ready_at s p l) (num_ready_streams_ s -64 1), true)
  end.

Definition RegisterStream (s : PriorityWriteScheduler) (id : Z) (precedence : StreamPrecedence)
    : PriorityWriteScheduler :=
  if id =? kHttp2RootStreamId then s
  else
    let info := MkStreamInfo (spdy3_priority precedence) id false in
    match stream_infos_ s !! id with
    | Some _ => s
    | None => set_infos s (<[id := info]> (stream_infos_ s))
    end.

Definition UnregisterStream (s : PriorityWriteScheduler) (id : Z) : PriorityWriteScheduler :=
  match stream_infos_ s !! id with
  | None => s
  | Some info =>
      let s := if ready info then fst (Erase s (priority info) id) else s in
      set_infos s (delete id (stream_infos_ s))
  end.

Definition StreamRegistered (s : PriorityWriteScheduler) (id : Z) : bool :=
  match stream_infos_ s !! id with Some _ => true | None => false end.

Definition GetStreamPrecedence (s : PriorityWriteScheduler) (id : Z) : StreamPrecedence :=
  match stream_infos_ s !! id with
  | None => StreamPrecedence_spdy3 kV3LowestPriority
  | Some info => StreamPrecedence_spdy3 (priority info)
  end.

Definition UpdateStreamPrecedence (s : PriorityWriteScheduler) (id : Z)
    (precedence : StreamPrecedence) : PriorityWriteScheduler :=
  match stream_infos_ s !! id with
  | None => s
  | Some info =>
      let new_priority := spdy3_priority precedence in
      if priority info =? new_priority then s
      else
        let s :=
          if ready info then
            let s := fst (Erase s (priority info) id) in
            let s := set_ready_at s new_priority (ready_at s new_priority ++ [id]) in
            set_num s (num_ready_streams_ s +64 1)
          else s in
        set_infos s (<[id := MkStreamInfo new_priority (stream_id info) (ready info)]>
                       (stream_infos_ s))
  end.

Definition GetStreamChildren (s : PriorityWriteScheduler) (id : Z) : list Z := [].

Definition RecordStreamEventTime (s : PriorityWriteScheduler) (id now_in_usec : Z)
    : PriorityWriteScheduler :=
  match stream_infos_ s !! id with
  | None => s
  | Some info =>
      let pi := info_at s (priority info) in
      MkPriorityWriteScheduler (num_ready_streams_ s)
        (<[Z.to_nat (priority info) :=
             MkPriorityInfo (ready_list pi) (Z.max (last_event_time_usec pi) now_in_usec)]>
           (priority_infos_ s))
        (stream_infos_ s)
  end.

(** The priorities [kV3HighestPriority, p), in the order of the loops. *)
Definition priorities_below (p : Z) : list Z := seqZ kV3HighestPriority (p - kV3HighestPriority).

Definition GetLatestEventWithPrecedence (s : PriorityWriteScheduler) (id : Z) : Z :=
  match stream_infos_ s !! id with
  | None => 0
  | Some info =>
      fold_left (fun t p => Z.max t (last_event_time_usec (info_at s p)))
        (priorities_below (priority info)) 0
  end.

(** The loop of [PopNextReadyStreamAndPrecedence] over the priorities left. *)
Fixpoint Pop_loop (s : PriorityWriteScheduler) (ps : list Z)
    : PriorityWriteScheduler * (Z * StreamPrecedence) :=
  match ps with
  | [] => (s, (0, StreamPrecedence_spdy3 kV3LowestPriority))
  | p :: ps =>
      match ready_at s p with
      | [] => Pop_loop s ps
      | id :: l =>
          let s := set_num (set_ready_at s p l) (num_ready_streams_ s -64 1) in
          let info := default (MkStreamInfo 0 0 false) (stream_infos_ s !! id) in
          let s := set_infos s (<[id := MkStreamInfo (priority info) (stream_id info) false]>
                                  (stream_infos_ s)) in
          (s, (stream_id info, StreamPrecedence_spdy3 (priority info)))
      end
  end.

Definition PopNextReadyStreamAndPrecedence (s : PriorityWriteScheduler)
    : PriorityWriteScheduler * (Z * StreamPrecedence) :=
  Pop_loop s (priorities_below (kV3LowestPriority + 1)).

Definition PopNextReadyStream (s : PriorityWriteScheduler) : PriorityWriteScheduler * Z :=
  let '(s, (id, _)) := PopNextReadyStreamAndPrecedence s in (s, id).

Definition ShouldYield (s : PriorityWriteScheduler) (id : Z) : bool :=
  match stream_infos_ s !! id with
  | None => false
  | Some info =>
      if existsb (fun p => negb (bool_decide (ready_at s p = []))) (priorities_below (priority info))
      then true
      else
        match ready_at s (priority info) with
        | [] => false
        | front :: _ => if front =? id then false else true
        end
  end.

Definition MarkStreamReady (s : PriorityWriteScheduler) (id : Z) (add_to_front : bool)
    : PriorityWriteScheduler :=
  match stream_infos_ s !! id with
  | None => s
  | Some info =>
      if ready info then s
      else
        let l := ready_at s (priority info) in
        let s := set_ready_at s (priority info) (if add_to_front then id :: l else l ++ [id]) in
        let s := set_num s (num_ready_streams_ s +64 1) in
        set_infos s (<[id := MkStreamInfo (priority info) (stream_id info) true]> (stream_infos_ s))
  end.

Definition MarkStreamNotReady (s : PriorityWriteScheduler) (id : Z) : PriorityWriteScheduler :=
  match stream_infos_ s !! id with
  | None => s
  | Some info =>
      if negb (ready info) then s
      else
        let s := fst (Erase s (priority info) id) in
        set_infos s (<[id := MkStreamInfo (priority info) (stream_id info) false]> (stream_infos_ s))
  end.

Definition HasReadyStreams (s : PriorityWriteScheduler) : bool := num_ready_streams_ s >? 0.
Definition NumReadyStreams (s : PriorityWriteScheduler) : Z := num_ready_streams_ s.

(** ** Invariant *)

Definition is_ready (x : Z * StreamInfo) : Prop := ready x.2 = true.
#[export] Instance is_ready_dec x : Decision (is_ready x).
Proof. unfold is_ready. apply _. Defined.

Definition ready_map (s : PriorityWriteScheduler) : gmap Z StreamInfo :=
  filter is_ready (stream_infos_ s).

(** Stream [id] waits in the ready list of priority [p]. *)
Definition waits (s : PriorityWriteScheduler) (id p : Z) : Prop :=
  exists info, stream_infos_ s !! id = Some info /\ ready info = true /\ priority info = p.

Record sched_ok (s : PriorityWriteScheduler) : Prop := {
  so_len : length (priority_infos_ s) = 8%nat;
  so_info : map_Forall (fun id info => stream_id info = id /\ is_priority (priority info) /\
                                       0 < id < 2 ^ 32) (stream_infos_ s);
  so_nodup : forall p, is_priority p -> NoDup (ready_at s p);
  so_mem : forall p id, is_priority p -> id ∈ ready_at s p <-> waits s id p;
  so_num : num_ready_streams_ s = Z.of_nat (size (ready_map s))
}.

(** ** Lemmas *)

Lemma ready_at_set s p l p' :
  length (priority_infos_ s) = 8%nat -> is_priority p -> is_priority p' ->
  ready_at (set_ready_at s p l) p' = if decide (p' = p) then l else ready_at s p'.
Proof.
  unfold is_priority, ready_at, info_at. intros Hl Hp Hp'. simpl. case_decide as E.
  - subst. by rewrite list_lookup_insert_eq by lia.
  - by rewrite list_lookup_insert_ne by lia.
Qed.

Lemma ready_at_num s n p : ready_at (set_num s n) p = ready_at s p.
Proof. done. Qed.

Lemma ready_at_infos s m p : ready_at (set_infos s m) p = ready_at s p.
Proof. done. Qed.

Lemma erase_first_spec x l :
  match erase_first x l with
  | None => x ∉ l
  | Some l' => x ∈ l /\ (NoDup l -> NoDup l' /\ forall y, y ∈ l' <-> y ∈ l /\ y <> x)
  end.
Proof.
  induction l as [|y l IH]; simpl; [set_solver|]. destruct (y =? x) eqn:E; bool_to_prop.
  - subst. split; [set_solver|]. intros [Hn ?]%NoDup_cons. split; [done|]. set_solver.
  - destruct (erase_first x l) as [l'|]; simpl; [|set_solver].
    destruct IH as [Hx IH]. split; [set_solver|]. intros [Hn Hl]%NoDup_cons.
    destruct (IH Hl) as [H1 H2]. split; [|set_solver]. constructor; [|done]. rewrite H2. tauto.
Qed.

Lemma keys_bound (m : gmap Z StreamInfo) :
  map_Forall (fun id _ => 0 < id < 2 ^ 32) m -> Z.of_nat (size m) < 2 ^ 32.
Proof.
  intros H. rewrite <- size_dom.
  assert (size (dom m) <= size (list_to_set (C := gset Z) (seqZ 1 (2 ^ 32 - 1))))%nat as Hs.
  { apply subseteq_size. intros id Hid. apply elem_of_dom in Hid as [i Hi].
    specialize (H id i Hi). simpl in H. apply elem_of_list_to_set, elem_of_seqZ. lia. }
  rewrite size_list_to_set in Hs by apply NoDup_seqZ. rewrite length_seqZ in Hs. lia.
Qed.

Lemma ready_count_bound s : sched_ok s -> Z.of_nat (size (ready_map s)) < 2 ^ 32.
Proof.
  intros Hs. apply keys_bound. intros id i [Hi _]%map_lookup_filter_Some.
  by destruct (so_info s Hs id i Hi) as (_ & _ & ?).
Qed.

(** Whether stream [id] is marked ready, and its share of the count. *)
Definition ready_in (m : gmap Z StreamInfo) (id : Z) : bool :=
  match m !! id with Some i => ready i | None => false end.

Definition b2z (b : bool) : Z := if b then 1 else 0.

Lemma ready_size_split (m : gmap Z StreamInfo) id :
  Z.of_nat (size (filter is_ready m)) =
  Z.of_nat (size (delete id (filter is_ready m))) + b2z (ready_in m id).
Proof.
  unfold ready_in. destruct (m !! id) as [i|] eqn:E; simpl.
  - destruct (ready i) eqn:Er; simpl.
    + assert (filter is_ready m !! id = Some i) as Hf by (by apply map_lookup_filter_Some).
      rewrite map_size_delete_Some by eauto. assert (size (filter is_ready m) <> 0)%nat; [|lia].
      intros H%map_size_empty_inv. by rewrite H, lookup_empty in Hf.
    + rewrite delete_id; [lia|]. apply map_lookup_filter_None. right. intros x Hx.
      unfold is_ready. simpl. congruence.
  - rewrite delete_id; [lia|]. apply map_lookup_filter_None. by left.
Qed.

Lemma ready_size_update (m m' : gmap Z StreamInfo) id :
  (forall j, j <> id -> m' !! j = m !! j) ->
  Z.of_nat (size (filter is_ready m')) =
  Z.of_nat (size (filter is_ready m)) - b2z (ready_in m id) + b2z (ready_in m' id).
Proof.
  intros H. rewrite (ready_size_split m' id), (ready_size_split m id).
  assert (delete id (filter is_ready m') = delete id (filter is_ready m)) as ->; [|lia].
  apply map_eq. intros j. destruct (decide (j = id)) as [->|Hj].
  { by rewrite !lookup_delete_eq. }
  rewrite !lookup_delete_ne by done. apply option_eq. intros x.
  rewrite !map_lookup_filter_Some. by rewrite H.
Qed.

(** One stream changes: what has to be shown for the invariant to hold again. *)
Lemma sched_ok_update s s' id :
  sched_ok s -> length (priority_infos_ s') = 8%nat ->
  (forall j, j <> id -> stream_infos_ s' !! j = stream_infos_ s !! j) ->
  (forall info, stream_infos_ s' !! id = Some info ->
     stream_id info = id /\ is_priority (priority info) /\ 0 < id < 2 ^ 32) ->
  (forall p, is_priority p -> NoDup (ready_at s' p) /\
     forall x, x ∈ ready_at s' p <->
       (x <> id /\ x ∈ ready_at s p) \/ (x = id /\ waits s' id p)) ->
  num_ready_streams_ s' = num_ready_streams_ s - b2z (ready_in (stream_infos_ s) id)
                          + b2z (ready_in (stream_infos_ s') id) ->
  sched_ok s'.
Proof.
  intros Hs Hlen Hoth Hid Hl Hn. split; try done.
  - intros j i Hj. destruct (decide (j = id)) as [->|Hne]; [by apply Hid|].
    rewrite Hoth in Hj by done. by apply (so_info s Hs).
  - intros p Hp. by apply Hl.
  - intros p x Hp. destruct (Hl p Hp) as [_ ->]. unfold waits.
    destruct (decide (x = id)) as [->|Hne]; [naive_solver|].
    rewrite (so_mem s Hs) by done. unfold waits. rewrite (Hoth x) by done. naive_solver.
  - rewrite Hn, (so_num s Hs). unfold ready_map. by rewrite (ready_size_update _ _ id Hoth).
Qed.

(** Erasing a ready stream from the list of its priority. *)
Lemma Erase_spec s id info :
  sched_ok s -> stream_infos_ s !! id = Some info -> ready info = true ->
  let s' := fst (Erase s (priority info) id) in
  snd (Erase s (priority info) id) = true /\ stream_infos_ s' = stream_infos_ s /\
  length (priority_infos_ s') = 8%nat /\ num_ready_streams_ s' = num_ready_streams_ s - 1 /\
  0 <= num_ready_streams_ s' < 2 ^ 32 /\
  forall p, is_priority p -> NoDup (ready_at s' p) /\
    forall x, x ∈ ready_at s' p <-> x <> id /\ x ∈ ready_at s p.
Proof.
  intros Hs Hi Hr. destruct (so_info s Hs id info Hi) as (_ & Hp & _).
  assert (id ∈ ready_at s (priority info)) as Hin.
  { apply (so_mem s Hs); [done|]. by exists info. }
  pose proof (ready_count_bound s Hs) as Hb. rewrite <- (so_num s Hs) in Hb.
  assert (1 <= num_ready_streams_ s) as Hge.
  { rewrite (so_num s Hs). unfold ready_map. rewrite (ready_size_split _ id). unfold ready_in.
    rewrite Hi, Hr. simpl. lia. }
  unfold Erase. pose proof (erase_first_spec id (ready_at s (priority info))) as He.
  destruct (erase_first id (ready_at s (priority info))) as [l|]; [|done]. simpl.
  destruct He as [_ He]. destruct (He (so_nodup s Hs _ Hp)) as [Hn Hm].
  rewrite length_insert. rewrite u64_id by (unfold is_u64; lia).
  split_and!; try done; try lia; [by apply so_len|].
  intros p Hp'. rewrite ready_at_num, ready_at_set; [|by apply so_len|done|done].
  case_decide as E; subst.
  - split; [done|]. intros x. rewrite Hm. tauto.
  - split; [by apply so_nodup|]. intros x. split; [|tauto]. intros Hx. split; [|done].
    intros ->. apply (so_mem s Hs) in Hx as (i & Hi' & _ & Hpp); [|done]. naive_solver.
Qed.

Lemma lookup_update_ne (m : gmap Z StreamInfo) id i j :
  j <> id -> <[id := i]> m !! j = m !! j.
Proof. intros. by apply lookup_insert_ne. Qed.

Lemma not_ready_absent s id info p :
  sched_ok s -> stream_infos_ s !! id = Some info -> ready info = false -> is_priority p ->
  id ∉ ready_at s p.
Proof. intros Hs Hi Hr Hp (i & Hi' & Hr' & _)%(so_mem s Hs); [|done]. congruence. Qed.

Lemma PriorityWriteScheduler_new_ok : sched_ok PriorityWriteScheduler_new.
Proof.
  assert (forall p, ready_at PriorityWriteScheduler_new p = []) as Hr.
  { intros p. unfold ready_at, info_at, PriorityWriteScheduler_new. cbn [priority_infos_].
    destruct (replicate 8 (MkPriorityInfo [] 0) !! Z.to_nat p) eqn:E; [|done].
    apply lookup_replicate in E as [-> _]. done. }
  split; simpl; try done.
  - intros p _. rewrite Hr. constructor.
  - intros p id _. rewrite Hr. unfold waits. simpl. set_solver.
Qed.

Lemma RegisterStream_ok s id prec :
  sched_ok s -> 0 <= id < 2 ^ 32 -> is_priority (spdy3_priority prec) ->
  sched_ok (RegisterStream s id prec).
Proof.
  intros Hs Hid Hp. unfold RegisterStream, kHttp2RootStreamId. case_if; [done|]. bool_to_prop.
  destruct (stream_infos_ s !! id) as [i|] eqn:Ei; [done|].
  apply (sched_ok_update s _ id Hs); simpl.
  - by apply so_len.
  - intros j Hj. by rewrite lookup_insert_ne.
  - intros i. rewrite lookup_insert_eq. intros [= <-]. simpl. split_and!; (done || lia).
  - intros p Hp'. rewrite ready_at_infos. split; [by apply so_nodup|]. intros x.
    unfold waits. simpl. rewrite lookup_insert_eq. rewrite (so_mem s Hs) by done. unfold waits.
    split; [|naive_solver]. intros (i & Hi & ?). left. split; [|by exists i]. intros ->. congruence.
  - unfold ready_in. rewrite Ei, lookup_insert_eq. simpl. lia.
Qed.

Lemma UnregisterStream_ok s id : sched_ok s -> sched_ok (UnregisterStream s id).
Proof.
  intros Hs. unfold UnregisterStream. destruct (stream_infos_ s !! id) as [i|] eqn:Ei; [|done].
  destruct (ready i) eqn:Er.
  - destruct (Erase_spec s id i Hs Ei Er) as (_ & Em & Hlen & Hn & _ & Hl).
    destruct (Erase s (priority i) id) as [s' b]. simpl in *.
    apply (sched_ok_update s _ id Hs); simpl; rewrite ?Em.
    + done.
    + intros j Hj. by rewrite lookup_delete_ne.
    + intros j. by rewrite lookup_delete_eq.
    + intros p Hp. rewrite ready_at_infos. destruct (Hl p Hp) as [? Hx]. split; [done|].
      intros x. rewrite Hx. unfold waits. simpl. rewrite lookup_delete_eq. naive_solver.
    + unfold ready_in. rewrite Ei, lookup_delete_eq, Er. simpl. lia.
  - apply (sched_ok_update s _ id Hs); simpl.
    + by apply so_len.
    + intros j Hj. by rewrite lookup_delete_ne.
    + intros j. by rewrite lookup_delete_eq.
    + intros p Hp. rewrite ready_at_infos. split; [by apply so_nodup|]. intros x.
      pose proof (not_ready_absent s id i p Hs Ei Er Hp). unfold waits. simpl.
      rewrite lookup_delete_eq. split; [|naive_solver]. intros Hx. left. split; [congruence|done].
    + unfold ready_in. rewrite Ei, lookup_delete_eq, Er. simpl. lia.
Qed.

Lemma MarkStreamNotReady_ok s id : sched_ok s -> sched_ok (MarkStreamNotReady s id).
Proof.
  intros Hs. unfold MarkStreamNotReady. destruct (stream_infos_ s !! id) as [i|] eqn:Ei; [|done].
  destruct (ready i) eqn:Er; [|done]. simpl.
  destruct (Erase_spec s id i Hs Ei Er) as (_ & Em & Hlen & Hn & _ & Hl).
  destruct (Erase s (priority i) id) as [s' b]. simpl in *.
  apply (sched_ok_update s _ id Hs); simpl; rewrite ?Em.
  - done.
  - intros j Hj. by rewrite lookup_insert_ne.
  - intros j. rewrite lookup_insert_eq. intros [= <-]. exact (so_info s Hs id i Ei).
  - intros p Hp. rewrite ready_at_infos. destruct (Hl p Hp) as [? Hx]. split; [done|].
    intros x. rewrite Hx. unfold waits. simpl. rewrite lookup_insert_eq. naive_solver.
  - unfold ready_in. rewrite Ei, lookup_insert_eq, Er. simpl. lia.
Qed.

Lemma MarkStreamReady_ok s id front : sched_ok s -> sched_ok (MarkStreamReady s id front).
Proof.
  intros Hs. unfold MarkStreamReady. destruct (stream_infos_ s !! id) as [i|] eqn:Ei; [|done].
  destruct (ready i) eqn:Er; [done|]. pose proof (so_info s Hs id i Ei) as (Hid & Hp & Hr).
  pose proof (ready_count_bound s Hs) as Hb. rewrite <- (so_num s Hs) in Hb.
  assert (0 <= num_ready_streams_ s) by (rewrite (so_num s Hs); lia).
  apply (sched_ok_update s _ id Hs); simpl.
  - rewrite length_insert. by apply so_len.
  - intros j Hj. by rewrite lookup_insert_ne.
  - intros j. rewrite lookup_insert_eq. by intros [= <-].
  - intros p Hp'. rewrite ready_at_infos, ready_at_num, ready_at_set; [|by apply so_len|done|done].
    pose proof (not_ready_absent s id i p Hs Ei Er Hp') as Hab.
    pose proof (so_nodup s Hs p Hp') as Hnd. unfold waits. simpl. rewrite lookup_insert_eq.
    case_decide as E; [subst p|].
    + split.
      * destruct front; [by constructor|]. apply NoDup_app. split_and!; try done.
        -- set_solver.
        -- by apply NoDup_singleton.
      * intros x. assert (x ∈ (if front then id :: ready_at s (priority i)
          else ready_at s (priority i) ++ [id]) <-> x = id \/ x ∈ ready_at s (priority i)) as ->
          by (destruct front; set_solver).
        split; [|naive_solver]. intros [->|Hx]; [right; split; eauto|left; split; congruence].
    + split; [done|]. intros x. split; [|naive_solver]. intros Hx. left. split; [congruence|done].
  - rewrite u64_id by (unfold is_u64; lia). unfold ready_in. rewrite Ei, lookup_insert_eq, Er.
    simpl. lia.
Qed.

Lemma UpdateStreamPrecedence_ok s id prec :
  sched_ok s -> is_priority (spdy3_priority prec) -> sched_ok (UpdateStreamPrecedence s id prec).
Proof.
  intros Hs Hnp. unfold UpdateStreamPrecedence.
  destruct (stream_infos_ s !! id) as [i|] eqn:Ei; [|done]. case_if; [done|]. bool_to_prop.
  pose proof (so_info s Hs id i Ei) as (Hid & Hp & Hr). destruct (ready i) eqn:Er.
  - destruct (Erase_spec s id i Hs Ei Er) as (_ & Em & Hlen & Hn & Hb & Hl).
    destruct (Erase s (priority i) id) as [s' b]. simpl in *.
    apply (sched_ok_update s _ id Hs); simpl; rewrite ?Em.
    + by rewrite length_insert.
    + intros j Hj. by rewrite lookup_insert_ne.
    + intros j. rewrite lookup_insert_eq. by intros [= <-].
    + intros p Hp'. rewrite ready_at_infos, ready_at_num, ready_at_set by done.
      destruct (Hl p Hp') as [Hnd Hx]. unfold waits. simpl. rewrite lookup_insert_eq.
      case_decide as Epp; [subst p|].
      * split.
        -- apply NoDup_app. split_and!; try done; [|by apply NoDup_singleton].
           intros x ?%Hx. set_solver.
        -- intros x. rewrite elem_of_app, Hx, list_elem_of_singleton. naive_solver.
      * split; [done|]. intros x. rewrite Hx. naive_solver.
    + rewrite u64_id by (unfold is_u64; lia). unfold ready_in.
      rewrite Ei, lookup_insert_eq, Er. simpl. lia.
  - apply (sched_ok_update s _ id Hs); simpl.
    + by apply so_len.
    + intros j Hj. by rewrite lookup_insert_ne.
    + intros j. rewrite lookup_insert_eq. by intros [= <-].
    + intros p Hp'. rewrite ready_at_infos. split; [by apply so_nodup|]. intros x.
      pose proof (not_ready_absent s id i p Hs Ei Er Hp'). unfold waits. simpl.
      rewrite lookup_insert_eq. split; [|naive_solver]. intros Hx. left. split; [congruence|done].
    + unfold ready_in. rewrite Ei, lookup_insert_eq, Er. simpl. lia.
Qed.

Lemma RecordStreamEventTime_ok s id now : sched_ok s -> sched_ok (RecordStreamEventTime s id now).
Proof.
  intros Hs. unfold RecordStreamEventTime. destruct (stream_infos_ s !! id) as [i|] eqn:Ei; [|done].
  pose proof (so_info s Hs id i Ei) as (_ & Hp & _).
  assert (forall p, is_priority p -> ready_at (MkPriorityWriteScheduler (num_ready_streams_ s)
    (<[Z.to_nat (priority i) := MkPriorityInfo (ready_list (info_at s (priority i)))
       (Z.max (last_event_time_usec (info_at s (priority i))) now)]> (priority_infos_ s))
    (stream_infos_ s)) p = ready_at s p) as Hr.
  { intros p Hp'. unfold ready_at, info_at in *. simpl. unfold is_priority in *.
    destruct (decide (p = priority i)) as [->|Hne].
    - by rewrite list_lookup_insert_eq by (rewrite (so_len s Hs); lia).
    - by rewrite list_lookup_insert_ne by lia. }
  destruct Hs as [Hl Hi Hn Hm Hc]. split; simpl; try done.
  - by rewrite length_insert.
  - intros p Hp'. rewrite Hr by done. by apply Hn.
  - intros p x Hp'. rewrite Hr by done. by apply Hm.
Qed.

(** ** Choosing the next stream *)

Lemma HasReadyStreams_spec s :
  sched_ok s -> HasReadyStreams s = true <-> exists p, is_priority p /\ ready_at s p <> [].
Proof.
  intros Hs. unfold HasReadyStreams. rewrite (so_num s Hs). split.
  - intros H. destruct (map_choose (ready_map s)) as (id & i & Hi).
    { intros E. rewrite E, map_size_empty in H. done. }
    apply map_lookup_filter_Some in Hi as [Hi Hr]. pose proof (so_info s Hs id i Hi) as (_ & Hp & _).
    exists (priority i). split; [done|]. assert (id ∈ ready_at s (priority i)) as Hin; [|intros E; rewrite E in Hin; set_solver].
    apply (so_mem s Hs); [done|]. by exists i.
  - intros (p & Hp & Hne). destruct (ready_at s p) as [|id l] eqn:E; [done|].
    assert (waits s id p) as (i & Hi & Hr & _) by (apply (so_mem s Hs); [done|]; rewrite E; constructor).
    unfold ready_map. rewrite (ready_size_split _ id). unfold ready_in. rewrite Hi, Hr. apply Z.gtb_lt. simpl. lia.
Qed.

(** Popping the head [id] of the list of priority [p]. *)
Definition pop_at (s : PriorityWriteScheduler) (p id : Z) (l : list Z) (info : StreamInfo)
    : PriorityWriteScheduler :=
  set_infos (set_num (set_ready_at s p l) (num_ready_streams_ s -64 1))
    (<[id := MkStreamInfo (priority info) (stream_id info) false]> (stream_infos_ s)).

Lemma pop_at_ok s p id l info :
  sched_ok s -> is_priority p -> ready_at s p = id :: l -> stream_infos_ s !! id = Some info ->
  sched_ok (pop_at s p id l info) /\ num_ready_streams_ (pop_at s p id l info) = num_ready_streams_ s - 1.
Proof.
  intros Hs Hp Hl Hi. assert (waits s id p) as (i & Hi' & Hr & Hip)
    by (apply (so_mem s Hs); [done|]; rewrite Hl; constructor).
  assert (i = info) as -> by congruence.
  pose proof (so_info s Hs id info Hi) as (Hid & _ & Hrg).
  pose proof (ready_count_bound s Hs) as Hb. rewrite <- (so_num s Hs) in Hb.
  assert (1 <= num_ready_streams_ s) as Hge.
  { rewrite (so_num s Hs). unfold ready_map. rewrite (ready_size_split _ id). unfold ready_in.
    rewrite Hi, Hr. simpl. lia. }
  pose proof (so_nodup s Hs p Hp) as Hnd. rewrite Hl in Hnd. apply NoDup_cons in Hnd as [Hnid Hnd].
  unfold pop_at. split; [|simpl; apply u64_id; unfold is_u64; lia].
  apply (sched_ok_update s _ id Hs); simpl.
  - rewrite length_insert. by apply so_len.
  - intros j Hj. by rewrite lookup_insert_ne.
  - intros j. rewrite lookup_insert_eq. intros [= <-]. simpl. split_and!; try done; try lia;
      subst p; apply Hp.
  - intros p' Hp'. rewrite ready_at_infos, ready_at_num, ready_at_set; [|by apply so_len|done|done].
    unfold waits. simpl. rewrite lookup_insert_eq. case_decide as E; [subst p'|].
    + split; [done|]. intros x. rewrite Hl. set_solver.
    + split; [by apply so_nodup|]. intros x. split; [|naive_solver]. intros Hx. left. split; [|done].
      intros ->. apply (so_mem s Hs) in Hx as (j & Hj & _ & Hjp); [|done]. naive_solver.
  - rewrite u64_id by (unfold is_u64; lia). unfold ready_in. rewrite Hi, lookup_insert_eq, Hr.
    simpl. lia.
Qed.

Lemma Pop_loop_skip s ps qs :
  Forall (fun p => ready_at s p = []) ps -> Pop_loop s (ps ++ qs) = Pop_loop s qs.
Proof. induction 1 as [|p ps Hp _ IH]; simpl; [done|]. by rewrite Hp. Qed.

(** The highest priority with a ready stream, if there is one. *)
Lemma first_ready s n :
  (forall p, 0 <= p < n -> ready_at s p = []) \/
  exists p, 0 <= p < n /\ ready_at s p <> [] /\ forall q, 0 <= q < p -> ready_at s q = [].
Proof.
  destruct (decide (0 <= n)) as [Hn|]; [|left; lia].
  pattern n. apply natlike_ind; [left; lia| |done]. clear n Hn. intros n Hn [IH|IH].
  - destruct (decide (ready_at s n = [])) as [E|E].
    + left. intros p Hp. destruct (decide (p = n)) as [->|]; [done|]. apply IH. lia.
    + right. exists n. split; [lia|]. split; [exact E|exact IH].
  - right. destruct IH as (p & ? & ? & ?). exists p. split; [lia|]. by split.
Qed.

Lemma Pop_found s p id l info :
  is_priority p -> ready_at s p = id :: l -> stream_infos_ s !! id = Some info ->
  (forall q, 0 <= q < p -> ready_at s q = []) ->
  PopNextReadyStreamAndPrecedence s =
    (pop_at s p id l info, (stream_id info, StreamPrecedence_spdy3 (priority info))).
Proof.
  intros Hp Hl Hi Hq. unfold PopNextReadyStreamAndPrecedence, priorities_below, kV3HighestPriority,
    kV3LowestPriority, is_priority in *.
  replace (7 + 1 - 0) with (p + (8 - p)) by lia. rewrite seqZ_app by lia. rewrite Pop_loop_skip.
  - rewrite Z.add_0_l, seqZ_cons by lia. simpl. rewrite Hl. simpl. by rewrite Hi.
  - apply Forall_forall. intros q Hin%elem_of_seqZ. apply Hq. lia.
Qed.

Lemma Pop_none s :
  (forall p, is_priority p -> ready_at s p = []) ->
  PopNextReadyStreamAndPrecedence s = (s, (0, StreamPrecedence_spdy3 kV3LowestPriority)).
Proof.
  intros H. unfold PopNextReadyStreamAndPrecedence, priorities_below.
  rewrite <- (app_nil_r (seqZ _ _)). rewrite Pop_loop_skip; [done|]. apply Forall_forall.
  intros p Hin%elem_of_seqZ. apply H. unfold is_priority, kV3HighestPriority, kV3LowestPriority in *.
  lia.
Qed.

Lemma existsb_priorities s p :
  existsb (fun q => negb (bool_decide (ready_at s q = []))) (priorities_below p) = true <->
  exists q, 0 <= q < p /\ ready_at s q <> [].
Proof.
  rewrite existsb_exists. unfold priorities_below, kV3HighestPriority. split.
  - intros (q & Hq & Hb). apply list_elem_of_In, elem_of_seqZ in Hq. exists q. split; [lia|].
    apply negb_true_iff, bool_decide_eq_false in Hb. done.
  - intros (q & Hq & Hb). exists q. split; [apply list_elem_of_In, elem_of_seqZ; lia|].
    by apply negb_true_iff, bool_decide_eq_false.
Qed.

(** ** Properties *)

(** The operations that change a scheduler, with the arguments QUIC uses. *)
Inductive sched_op :=
| OpRegister (id prio : Z)
| OpUnregister (id : Z)
| OpUpdate (id prio : Z)
| OpRecordTime (id now : Z)
| OpPop
| OpMarkReady (id : Z) (front : bool)
| OpMarkNotReady (id : Z).

Definition sched_step (s : PriorityWriteScheduler) (op : sched_op) : PriorityWriteScheduler :=
  match op with
  | OpRegister id prio => RegisterStream s id (StreamPrecedence_spdy3 prio)
  | OpUnregister id => UnregisterStream s id
  | OpUpdate id prio => UpdateStreamPrecedence s id (StreamPrecedence_spdy3 prio)
  | OpRecordTime id now => RecordStreamEventTime s id now
  | OpPop => fst (PopNextReadyStreamAndPrecedence s)
  | OpMarkReady id front => MarkStreamReady s id front
  | OpMarkNotReady id => MarkStreamNotReady s id
  end.

Definition sched_op_ok (op : sched_op) : Prop :=
  match op with OpRegister id _ => 0 <= id < 2 ^ 32 | _ => True end.

Lemma Pop_ok s : sched_ok s -> sched_ok (fst (PopNextReadyStreamAndPrecedence s)).
Proof.
  intros Hs. destruct (first_ready s 8) as [Hn|(p & Hp & Hne & Hq)].
  - rewrite Pop_none; [done|]. intros p Hp. apply Hn. unfold is_priority in Hp. lia.
  - destruct (ready_at s p) as [|id l] eqn:El; [done|].
    assert (is_priority p) as Hpp by (unfold is_priority; lia).
    assert (waits s id p) as (i & Hi & _) by (apply (so_mem s Hs); [done|]; rewrite El; constructor).
    rewrite (Pop_found s p id l i) by done. by apply pop_at_ok.
Qed.

Lemma sched_step_ok s op : sched_ok s -> sched_op_ok op -> sched_ok (sched_step s op).
Proof.
  intros Hs Hop. destruct op; simpl in *;
    eauto using RegisterStream_ok, UnregisterStream_ok, UpdateStreamPrecedence_ok,
      RecordStreamEventTime_ok, Pop_ok, MarkStreamReady_ok, MarkStreamNotReady_ok,
      spdy3_priority_range.
Qed.

Lemma sched_run_ok ops s :
  Forall sched_op_ok ops -> sched_ok s -> sched_ok (fold_left sched_step ops s).
Proof.
  intros Hops. revert s. induction Hops as [|op ops Hop _ IH]; intros s Hs; simpl; [done|].
  apply IH. by apply sched_step_ok.
Qed.

(** C39: after any sequence of operations on a new scheduler the state is
    consistent: every ready stream is exactly once in the list of its priority,
    the lists hold nothing else, and the counter is the number of ready streams. *)
Theorem PriorityWriteScheduler_invariant (ops : list sched_op) :
  Forall sched_op_ok ops -> sched_ok (fold_left sched_step ops PriorityWriteScheduler_new).
Proof.
  intros Hops. apply sched_run_ok; [done|]. apply PriorityWriteScheduler_new_ok.
Qed.

Definition example_ops : list sched_op :=
  [OpRegister 5 3; OpRegister 7 1; OpRegister 9 3; OpMarkReady 5 false; OpMarkReady 9 true;
   OpMarkReady 7 false; OpUpdate 9 1].

Lemma example_ops_ok : Forall sched_op_ok example_ops.
Proof. repeat (apply Forall_nil_2 || (apply Forall_cons_2; [simpl; (exact I || lia)|])). Qed.

Lemma example_sched_ok : sched_ok (fold_left sched_step example_ops PriorityWriteScheduler_new).
Proof. apply sched_run_ok; [apply example_ops_ok | apply PriorityWriteScheduler_new_ok]. Qed.

Lemma PriorityWriteScheduler_invariant_witness :
  sched_ok (fold_left sched_step example_ops PriorityWriteScheduler_new).
Proof. apply PriorityWriteScheduler_invariant, example_ops_ok. Defined.

(** [PopNextReadyStream] takes the front stream of the highest priority
    that has ready streams, marks it not ready and leaves the other lists alone;
    without ready streams it gives stream 0 and changes nothing. *)
Lemma PriorityWriteScheduler_pop (s : PriorityWriteScheduler) :
  sched_ok s ->
  let '(s', (id, prec)) := PopNextReadyStreamAndPrecedence s in
  if HasReadyStreams s then
    exists p l, is_priority p /\ ready_at s p = id :: l /\
      (forall q, 0 <= q < p -> ready_at s q = []) /\
      spdy3_priority prec = p /\ waits s id p /\
      sched_ok s' /\ NumReadyStreams s' = NumReadyStreams s - 1 /\
      ready_at s' p = l /\ (forall q, is_priority q -> q <> p -> ready_at s' q = ready_at s q) /\
      forall q, ~ waits s' id q
  else s' = s /\ id = 0.
Proof.
  intros Hs. pose proof (HasReadyStreams_spec s Hs) as Hh.
  destruct (first_ready s 8) as [Hn|(p & Hp & Hne & Hq)].
  - assert (forall p, is_priority p -> ready_at s p = []) as Hn'
      by (unfold is_priority; intros; apply Hn; lia).
    rewrite Pop_none by done. destruct (HasReadyStreams s); [|done].
    destruct (proj1 Hh eq_refl) as (p & Hp & Hne). by specialize (Hn' p Hp).
  - destruct (ready_at s p) as [|id l] eqn:El; [done|].
    assert (is_priority p) as Hpp by (unfold is_priority; lia).
    assert (waits s id p) as Hw by (apply (so_mem s Hs); [done|]; rewrite El; constructor).
    pose proof Hw as (i & Hi & Hr & Hip). pose proof (so_info s Hs id i Hi) as (Hid & _ & _).
    rewrite (Pop_found s p id l i) by done. rewrite (proj2 Hh) by (exists p; by rewrite El).
    rewrite Hid. destruct (pop_at_ok s p id l i Hs Hpp El Hi) as [Hok Hnum].
    exists p, l. rewrite Hip. split_and!; try done.
    + by apply ClampSpdy3Priority_id.
    + unfold pop_at. rewrite ready_at_infos, ready_at_num, ready_at_set, decide_True;
        [done..|by apply so_len|done|done].
    + intros q Hqp Hne'. unfold pop_at. rewrite ready_at_infos, ready_at_num, ready_at_set,
        decide_False; [done..|by apply so_len|done|done].
    + intros q (j & Hj & Hjr & _). simpl in Hj. rewrite lookup_insert_eq in Hj. naive_solver.
Qed.

Lemma PriorityWriteScheduler_pop_witness :
  let s := fold_left sched_step example_ops PriorityWriteScheduler_new in
  let '(s', (id, prec)) := PopNextReadyStreamAndPrecedence s in id = 7 /\ sched_ok s'.
Proof.
  intros s. pose proof (PriorityWriteScheduler_pop s example_sched_ok) as H.
  destruct (PopNextReadyStreamAndPrecedence s) as [s' [id prec]] eqn:E.
  assert (HasReadyStreams s = true) as Eh by reflexivity. rewrite Eh in H.
  destruct H as (p & l & _ & _ & _ & _ & _ & Hok & _). split; [|exact Hok].
  transitivity (fst (snd (PopNextReadyStreamAndPrecedence s))); [by rewrite E | vm_compute; reflexivity].
Defined.

(** A registered stream has to yield exactly when some stream waits at a
    higher priority, or another stream is at the front of its own priority. *)
Lemma PriorityWriteScheduler_ShouldYield (s : PriorityWriteScheduler) (id : Z) (info : StreamInfo) :
  sched_ok s -> stream_infos_ s !! id = Some info ->
  ShouldYield s id = true <->
  (exists q other, 0 <= q < priority info /\ waits s other q) \/
  (exists front l, ready_at s (priority info) = front :: l /\ front <> id).
Proof.
  intros Hs Hi. pose proof (so_info s Hs id info Hi) as (_ & Hp & _).
  assert ((exists q other, 0 <= q < priority info /\ waits s other q) <->
          exists q, 0 <= q < priority info /\ ready_at s q <> []) as ->.
  { unfold is_priority in Hp. split.
    - intros (q & o & Hq & Hw). exists q. split; [done|].
      apply (so_mem s Hs) in Hw; [|unfold is_priority; lia]. intros E. by rewrite E, elem_of_nil in Hw.
    - intros (q & Hq & Hne). destruct (ready_at s q) as [|o l] eqn:E; [done|]. exists q, o.
      split; [done|]. apply (so_mem s Hs); [unfold is_priority; lia|]. rewrite E. constructor. }
  unfold ShouldYield. rewrite Hi. rewrite <- existsb_priorities.
  destruct (existsb _ _); [naive_solver|]. destruct (ready_at s (priority info)) as [|f l].
  - naive_solver.
  - destruct (f =? id) eqn:E; bool_to_prop; naive_solver.
Qed.

Lemma PriorityWriteScheduler_ShouldYield_witness :
  let s := fold_left sched_step example_ops PriorityWriteScheduler_new in
  ShouldYield s 5 = true <->
  (exists q other, 0 <= q < 3 /\ waits s other q) \/
  (exists front l, ready_at s 3 = front :: l /\ front <> 5).
Proof.
  intros s. refine (PriorityWriteScheduler_ShouldYield s 5 (MkStreamInfo 3 5 true) _ _).
  - exact example_sched_ok.
  - vm_compute. reflexivity.
Defined.
