(* ===== verification/WriteBlockedList.v ===== *)
(** * quic/core/quic_write_blocked_list.{h,cc}

    The streams that wait to write, in the order crypto stream, headers stream,
    data streams by priority, with batching: the data stream popped last may
    write 16000 bytes before it goes behind the others of its priority. *)

From S2P Require Import Prelude StreamPrecedence PriorityWriteScheduler.
From stdpp Require Import gmap.
#[local] Open Scope Z_scope.

Definition kCryptoStreamId : Z := 1.
Definition kHeadersStreamId : Z := 3.

Record QuicWriteBlockedList := MkQuicWriteBlockedList {
  priority_write_scheduler_ : PriorityWriteScheduler;
  batch_write_stream_id_ : list Z;
  bytes_left_for_batch_write_ : list Z;
  last_priority_popped_ : Z;
  crypto_stream_blocked_ : bool;
  headers_stream_blocked_ : bool
}.

Definition QuicWriteBlockedList_new : QuicWriteBlockedList :=
  MkQuicWriteBlockedList PriorityWriteScheduler_new (replicate 8 0) (replicate 8 0) 0 false false.

(** Reading [a[p]] of an array of eight. *)
Definition at8 (a : list Z) (p : Z) : Z := default 0 (a !! Z.to_nat p).

Definition with_scheduler (b : QuicWriteBlockedList) (s : PriorityWriteScheduler) :=
  MkQuicWriteBlockedList s (batch_write_stream_id_ b) (bytes_left_for_batch_write_ b)
    (last_priority_popped_ b) (crypto_stream_blocked_ b) (headers_stream_blocked_ b).

Definition with_blocked (b : QuicWriteBlockedList) (crypto headers : bool) :=
  MkQuicWriteBlockedList (priority_write_scheduler_ b) (batch_write_stream_id_ b)
    (bytes_left_for_batch_write_ b) (last_priority_popped_ b) crypto headers.

Definition HasWriteBlockedDataStreams (b : QuicWriteBlockedList) : bool :=
  HasReadyStreams (priority_write_scheduler_ b).

Definition HasWriteBlockedCryptoOrHeadersStream (b : QuicWriteBlockedList) : bool :=
  crypto_stream_blocked_ b || headers_stream_blocked_ b.

Definition NumBlockedStreams (b : QuicWriteBlockedList) : Z :=
  let num_blocked := NumReadyStreams (priority_write_scheduler_ b) in
  let num_blocked := if crypto_stream_blocked_ b then num_blocked +64 1 else num_blocked in
  if headers_stream_blocked_ b then num_blocked +64 1 else num_blocked.

Definition WBL_ShouldYield (b : QuicWriteBlockedList) (id : Z) : bool :=
  if id =? kCryptoStreamId then false
  else if crypto_stream_blocked_ b then true
  else if id =? kHeadersStreamId then false
  else if headers_stream_blocked_ b then true
  else ShouldYield (priority_write_scheduler_ b) id.

Definition PopFront (b : QuicWriteBlockedList) : QuicWriteBlockedList * Z :=
  if crypto_stream_blocked_ b then
    (with_blocked b false (headers_stream_blocked_ b), kCryptoStreamId)
  else if headers_stream_blocked_ b then
    (with_blocked b (crypto_stream_blocked_ b) false, kHeadersStreamId)
  else
    let '(s, (id, precedence)) := PopNextReadyStreamAndPrecedence (priority_write_scheduler_ b) in
    let b := with_scheduler b s in
    let priority := spdy3_priority precedence in
    if negb (HasReadyStreams s) then
      (MkQuicWriteBlockedList s (<[Z.to_nat priority := 0]> (batch_write_stream_id_ b))
         (bytes_left_for_batch_write_ b) priority (crypto_stream_blocked_ b)
         (headers_stream_blocked_ b), id)
    else if negb (at8 (batch_write_stream_id_ b) priority =? id) then
      (MkQuicWriteBlockedList s (<[Z.to_nat priority := id]> (batch_write_stream_id_ b))
         (<[Z.to_nat priority := 16000]> (bytes_left_for_batch_write_ b)) priority
         (crypto_stream_blocked_ b) (headers_stream_blocked_ b), id)
    else (b, id).

Definition WBL_RegisterStream (b : QuicWriteBlockedList) (id priority : Z) : QuicWriteBlockedList :=
  with_scheduler b (RegisterStream (priority_write_scheduler_ b) id (StreamPrecedence_spdy3 priority)).

Definition WBL_UnregisterStream (b : QuicWriteBlockedList) (id : Z) : QuicWriteBlockedList :=
  with_scheduler b (UnregisterStream (priority_write_scheduler_ b) id).

Definition UpdateStreamPriority (b : QuicWriteBlockedList) (id new_priority : Z)
    : QuicWriteBlockedList :=
  with_scheduler b
    (UpdateStreamPrecedence (priority_write_scheduler_ b) id (StreamPrecedence_spdy3 new_priority)).

Definition UpdateBytesForStream (b : QuicWriteBlockedList) (id bytes : Z) : QuicWriteBlockedList :=
  let p := last_priority_popped_ b in
  if at8 (batch_write_stream_id_ b) p =? id then
    MkQuicWriteBlockedList (priority_write_scheduler_ b) (batch_write_stream_id_ b)
      (<[Z.to_nat p := i32 (at8 (bytes_left_for_batch_write_ b) p - i32 bytes)]>
         (bytes_left_for_batch_write_ b))
      p (crypto_stream_blocked_ b) (headers_stream_blocked_ b)
  else b.

Definition AddStream (b : QuicWriteBlockedList) (id : Z) : QuicWriteBlockedList :=
  if id =? kCryptoStreamId then with_blocked b true (headers_stream_blocked_ b)
  else if id =? kHeadersStreamId then with_blocked b (crypto_stream_blocked_ b) true
  else
    let p := last_priority_popped_ b in
    let push_front :=
      (id =? at8 (batch_write_stream_id_ b) p) && (at8 (bytes_left_for_batch_write_ b) p >? 0) in
    with_scheduler b (MarkStreamReady (priority_write_scheduler_ b) id push_front).

(** ** Invariant and lemmas *)

Record wbl_ok (b : QuicWriteBlockedList) : Prop := {
  wbl_sched : sched_ok (priority_write_scheduler_ b);
  wbl_ids : length (batch_write_stream_id_ b) = 8%nat;
  wbl_bytes : length (bytes_left_for_batch_write_ b) = 8%nat;
  wbl_last : is_priority (last_priority_popped_ b)
}.

Lemma at8_insert a p x : length a = 8%nat -> is_priority p -> at8 (<[Z.to_nat p := x]> a) p = x.
Proof.
  intros Hl Hp. unfold at8, is_priority in *. by rewrite list_lookup_insert_eq by lia.
Qed.

Lemma QuicWriteBlockedList_new_ok : wbl_ok QuicWriteBlockedList_new.
Proof. split; [apply PriorityWriteScheduler_new_ok|done|done|unfold is_priority; simpl; lia]. Qed.

Lemma Pop_priority s :
  is_priority (spdy3_priority (snd (snd (PopNextReadyStreamAndPrecedence s)))).
Proof.
  unfold PopNextReadyStreamAndPrecedence. induction (priorities_below _) as [|p ps IH]; simpl.
  - apply spdy3_priority_range.
  - destruct (ready_at s p); [done|]. apply spdy3_priority_range.
Qed.

Lemma PopFront_ok b : wbl_ok b -> wbl_ok (fst (PopFront b)).
Proof.
  intros [Hs Hi Hb Hl]. unfold PopFront. repeat (case_if; [by split|]).
  pose proof (Pop_ok _ Hs) as Hp. pose proof (Pop_priority (priority_write_scheduler_ b)) as Hpr.
  destruct (PopNextReadyStreamAndPrecedence _) as [s [id prec]]. simpl in *.
  repeat case_if; split; simpl; rewrite ?length_insert; done.
Qed.

Inductive wbl_op :=
| WRegister (id prio : Z)
| WUnregister (id : Z)
| WUpdatePriority (id prio : Z)
| WUpdateBytes (id bytes : Z)
| WAdd (id : Z)
| WPop.

Definition wbl_step (b : QuicWriteBlockedList) (op : wbl_op) : QuicWriteBlockedList :=
  match op with
  | WRegister id prio => WBL_RegisterStream b id prio
  | WUnregister id => WBL_UnregisterStream b id
  | WUpdatePriority id prio => UpdateStreamPriority b id prio
  | WUpdateBytes id bytes => UpdateBytesForStream b id bytes
  | WAdd id => AddStream b id
  | WPop => fst (PopFront b)
  end.

Definition wbl_op_ok (op : wbl_op) : Prop :=
  match op with WRegister id _ => 0 <= id < 2 ^ 32 | _ => True end.

Lemma wbl_step_ok b op : wbl_ok b -> wbl_op_ok op -> wbl_ok (wbl_step b op).
Proof.
  intros Hok Hop. pose proof Hok as [Hs Hi Hb Hl]. destruct op as [id p|id|id p|id n|id|]; simpl.
  - split; simpl; try done. by apply (sched_step_ok _ (OpRegister id p)).
  - split; simpl; try done. by apply UnregisterStream_ok.
  - split; simpl; try done. by apply (sched_step_ok _ (OpUpdate id p)).
  - unfold UpdateBytesForStream. case_if; [|done]. split; simpl; rewrite ?length_insert; done.
  - unfold AddStream. repeat (case_if; [by split|]). split; simpl; try done.
    by apply MarkStreamReady_ok.
  - by apply PopFront_ok.
Qed.

Lemma wbl_run_ok b ops :
  wbl_ok b -> Forall wbl_op_ok ops -> wbl_ok (fold_left wbl_step ops b).
Proof.
  intros Hb Hops. revert b Hb. induction Hops as [|op ops Hop _ IH]; intros b Hb; simpl; [done|].
  apply IH. by apply wbl_step_ok.
Qed.

(** What [PopFront] does with the front stream [id] of the highest ready
    priority [p]. *)
Lemma PopFront_data b p id l info :
  wbl_ok b -> crypto_stream_blocked_ b = false -> headers_stream_blocked_ b = false ->
  is_priority p -> ready_at (priority_write_scheduler_ b) p = id :: l ->
  stream_infos_ (priority_write_scheduler_ b) !! id = Some info ->
  (forall q, 0 <= q < p -> ready_at (priority_write_scheduler_ b) q = []) ->
  let s := pop_at (priority_write_scheduler_ b) p id l info in
  PopFront b =
    (if negb (HasReadyStreams s) then
       MkQuicWriteBlockedList s (<[Z.to_nat p := 0]> (batch_write_stream_id_ b))
         (bytes_left_for_batch_write_ b) p false false
     else if negb (at8 (batch_write_stream_id_ b) p =? id) then
       MkQuicWriteBlockedList s (<[Z.to_nat p := id]> (batch_write_stream_id_ b))
         (<[Z.to_nat p := 16000]> (bytes_left_for_batch_write_ b)) p false false
     else with_scheduler b s, id).
Proof.
  intros [Hs _ _ _] Hc Hh Hp Hl Hi Hq s. unfold PopFront. rewrite Hc, Hh.
  assert (waits (priority_write_scheduler_ b) id p) as (i & Hi' & _ & Hip)
    by (apply (so_mem _ Hs); [done|]; rewrite Hl; constructor).
  assert (i = info) as -> by congruence. pose proof (so_info _ Hs id info Hi) as (Hid & _ & _).
  rewrite (Pop_found _ p id l info) by done. fold s. rewrite Hid, Hip. simpl.
  rewrite (ClampSpdy3Priority_id p), ?Hc, ?Hh by done. by repeat case_if.
Qed.

(** ** Properties *)

(** Any sequence of operations on a new list keeps the scheduler consistent
    and every array index in range. *)
Lemma WriteBlockedList_invariant (ops : list wbl_op) :
  Forall wbl_op_ok ops -> wbl_ok (fold_left wbl_step ops QuicWriteBlockedList_new).
Proof. apply wbl_run_ok, QuicWriteBlockedList_new_ok. Qed.

Definition example_wbl_ops : list wbl_op :=
  [WRegister 5 3; WRegister 7 3; WRegister 9 1; WAdd 5; WAdd 7; WAdd 3].

Lemma example_wbl_ops_ok : Forall wbl_op_ok example_wbl_ops.
Proof. repeat (apply Forall_nil_2 || (apply Forall_cons_2; [simpl; (exact I || lia)|])). Qed.

Lemma WriteBlockedList_invariant_witness :
  wbl_ok (fold_left wbl_step example_wbl_ops QuicWriteBlockedList_new).
Proof. apply WriteBlockedList_invariant, example_wbl_ops_ok. Defined.

(** [PopFront] gives the crypto stream when it is blocked, else the headers
    stream when it is blocked, else the front data stream of the highest ready
    priority; the number of blocked streams drops by one each time. *)
Lemma WriteBlockedList_pop_order (b : QuicWriteBlockedList) :
  wbl_ok b ->
  let '(b', id) := PopFront b in
  (crypto_stream_blocked_ b = true -> id = kCryptoStreamId /\ crypto_stream_blocked_ b' = false) /\
  (crypto_stream_blocked_ b = false -> headers_stream_blocked_ b = true ->
   id = kHeadersStreamId /\ headers_stream_blocked_ b' = false) /\
  (HasWriteBlockedCryptoOrHeadersStream b = false -> HasWriteBlockedDataStreams b = true ->
   exists p l, is_priority p /\ ready_at (priority_write_scheduler_ b) p = id :: l /\
     (forall q, 0 <= q < p -> ready_at (priority_write_scheduler_ b) q = []) /\
     ready_at (priority_write_scheduler_ b') p = l) /\
  (0 < NumBlockedStreams b -> NumBlockedStreams b' = NumBlockedStreams b - 1).
Proof.
  intros Hok. pose proof Hok as [Hs _ _ _].
  pose proof (ready_count_bound _ Hs) as Hb. rewrite <- (so_num _ Hs) in Hb.
  assert (0 <= num_ready_streams_ (priority_write_scheduler_ b)) by (rewrite (so_num _ Hs); lia).
  assert (forall n, 0 <= n <= 2 ^ 32 -> n +64 1 = n + 1) as Hu
    by (intros; apply u64_id; unfold is_u64; lia).
  unfold NumBlockedStreams, HasWriteBlockedCryptoOrHeadersStream, HasWriteBlockedDataStreams,
    NumReadyStreams.
  destruct (crypto_stream_blocked_ b) eqn:Ec; [|destruct (headers_stream_blocked_ b) eqn:Eh].
  - unfold PopFront. rewrite Ec. simpl. split_and!; try done.
    destruct (headers_stream_blocked_ b); rewrite !Hu by (rewrite ?Hu; lia); lia.
  - unfold PopFront. rewrite Ec, Eh. simpl. rewrite ?Ec. split_and!; try done. rewrite !Hu by lia. lia.
  - destruct (HasReadyStreams (priority_write_scheduler_ b)) eqn:Er.
    + destruct (first_ready (priority_write_scheduler_ b) 8) as [Hn|(p & Hp & Hne & Hq)].
      { apply HasReadyStreams_spec in Er as (p & Hp & Hne); [|done].
        destruct Hne. apply Hn. unfold is_priority in Hp. lia. }
      destruct (ready_at _ p) as [|id l] eqn:El; [done|].
      assert (is_priority p) as Hpp by (unfold is_priority; lia).
      assert (waits (priority_write_scheduler_ b) id p) as (i & Hi & _)
        by (apply (so_mem _ Hs); [done|]; rewrite El; constructor).
      rewrite (PopFront_data b p id l i) by done.
      destruct (pop_at_ok _ p id l i Hs Hpp El Hi) as [Hok' Hnum].
      assert (ready_at (pop_at (priority_write_scheduler_ b) p id l i) p = l) as Hra.
      { unfold pop_at. rewrite ready_at_infos, ready_at_num, ready_at_set, decide_True;
          [done..|by apply so_len|done|done]. }
      set (b' := if negb _ then _ else _).
      assert (priority_write_scheduler_ b' = pop_at (priority_write_scheduler_ b) p id l i /\
              crypto_stream_blocked_ b' = false /\ headers_stream_blocked_ b' = false)
        as (-> & -> & ->) by (unfold b'; repeat case_if; done).
      split_and!; try done.
      intros _ _. by exists p, l.
    + destruct (PopFront b); split_and!; try done. intros Hgt. unfold HasReadyStreams in Er. lia.
Qed.

Lemma WriteBlockedList_pop_order_witness :
  let b := fold_left wbl_step example_wbl_ops QuicWriteBlockedList_new in
  let '(b', id) := PopFront b in id = kHeadersStreamId /\ NumBlockedStreams b' = 2.
Proof.
  intros b. pose proof (WriteBlockedList_pop_order b
    (wbl_run_ok _ _ QuicWriteBlockedList_new_ok example_wbl_ops_ok)) as H.
  destruct (PopFront b) as [b' id] eqn:E. destruct H as (_ & H & _ & Hn). split.
  - apply H; reflexivity.
  - rewrite Hn; [vm_compute; reflexivity | vm_compute; reflexivity].
Defined.

(** Batching: a data stream that is newly latched by [PopFront] (others are
    still ready), writes [n] bytes and blocks again goes back to the front of
    its priority when [n] is less than 16000 and behind the others otherwise. *)
Lemma WriteBlockedList_batch (b : QuicWriteBlockedList) (p id n : Z) (l : list Z) :
  wbl_ok b -> HasWriteBlockedCryptoOrHeadersStream b = false ->
  id <> kCryptoStreamId -> id <> kHeadersStreamId -> is_priority p ->
  ready_at (priority_write_scheduler_ b) p = id :: l ->
  (forall q, 0 <= q < p -> ready_at (priority_write_scheduler_ b) q = []) ->
  HasWriteBlockedDataStreams (fst (PopFront b)) = true ->
  at8 (batch_write_stream_id_ b) p <> id -> 0 <= n < 2 ^ 31 ->
  snd (PopFront b) = id /\
  ready_at (priority_write_scheduler_ (AddStream (UpdateBytesForStream (fst (PopFront b)) id n) id)) p
    = if n <? 16000 then id :: l else l ++ [id].
Proof.
  intros Hok Hblk Hid1 Hid3 Hp Hl Hq Hmore Hnew Hn. pose proof Hok as [Hs Hi8 Hb8 _].
  apply orb_false_iff in Hblk as [Hc Hh].
  assert (waits (priority_write_scheduler_ b) id p) as (i & Hi & _ & Hip)
    by (apply (so_mem _ Hs); [done|]; rewrite Hl; constructor).
  rewrite (PopFront_data b p id l i) in * by done.
  destruct (pop_at_ok _ p id l i Hs Hp Hl Hi) as [Hok' _].
  set (s := pop_at (priority_write_scheduler_ b) p id l i) in *.
  assert ((at8 (batch_write_stream_id_ b) p =? id) = false) as Enew by (by apply Z.eqb_neq).
  rewrite Enew in *. assert (HasReadyStreams s = true) as Er.
  { destruct (HasReadyStreams s) eqn:E; [done|].
    unfold HasWriteBlockedDataStreams in Hmore. cbn [negb fst priority_write_scheduler_] in Hmore.
    congruence. }
  rewrite Er. split; [done|]. unfold UpdateBytesForStream.
  cbn [negb fst last_priority_popped_ batch_write_stream_id_ bytes_left_for_batch_write_
       priority_write_scheduler_ crypto_stream_blocked_ headers_stream_blocked_].
  rewrite !at8_insert, Z.eqb_refl by done. unfold AddStream.
  replace (id =? kCryptoStreamId) with false by (symmetry; by apply Z.eqb_neq).
  replace (id =? kHeadersStreamId) with false by (symmetry; by apply Z.eqb_neq).
  cbn [last_priority_popped_ batch_write_stream_id_ bytes_left_for_batch_write_
       priority_write_scheduler_ with_scheduler].
  rewrite !at8_insert by (rewrite ?length_insert; done). rewrite Z.eqb_refl.
  assert (i32 n = n) as -> by (apply wrapS_id; lia).
  assert (i32 (16000 - n) = 16000 - n) as -> by (apply wrapS_id; lia).
  unfold MarkStreamReady. unfold s at 1. cbn [pop_at stream_infos_ set_infos].
  rewrite lookup_insert_eq. cbn [ready priority stream_id].
  rewrite ready_at_infos, ready_at_num, Hip, ready_at_set, decide_True
    by (done || by apply so_len).
  assert (ready_at s p = l) as ->.
  { unfold s, pop_at. rewrite ready_at_infos, ready_at_num, ready_at_set, decide_True;
      [done..|by apply so_len|done|done]. }
  simpl. destruct (n <? 16000) eqn:E; bool_to_prop.
  - by replace (16000 - n >? 0) with true by lia.
  - by replace (16000 - n >? 0) with false by lia.
Qed.

Definition example_batch : QuicWriteBlockedList :=
  fold_left wbl_step [WRegister 5 3; WRegister 7 3; WAdd 5; WAdd 7] QuicWriteBlockedList_new.

Lemma WriteBlockedList_batch_witness :
  ready_at (priority_write_scheduler_
    (AddStream (UpdateBytesForStream (fst (PopFront example_batch)) 5 1000) 5)) 3 = [5; 7].
Proof.
  refine (proj2 (WriteBlockedList_batch example_batch 3 5 1000 [7] _ _ _ _ _ _ _ _ _ _)).
  - apply wbl_run_ok; [apply QuicWriteBlockedList_new_ok|].
    repeat (apply Forall_nil_2 || (apply Forall_cons_2; [simpl; (exact I || lia)|])).
  - reflexivity.
  - discriminate.
  - discriminate.
  - unfold is_priority; lia.
  - vm_compute; reflexivity.
  - intros q Hq. assert (q = 0 \/ q = 1 \/ q = 2) as [-> | [-> | ->]] by lia; vm_compute; reflexivity.
  - vm_compute; reflexivity.
  - vm_compute; discriminate.
  - lia.
Defined.

(** Popping a stream that is still latched leaves [last_priority_popped_]
    alone, so it need not be the priority of the stream popped last: here a
    stream of priority 1 was popped in between, the latched stream 5 of priority
    3 is popped again and its bytes are no longer counted. *)
Lemma WriteBlockedList_stale_priority :
  let b := fold_left wbl_step
             [WRegister 5 3; WRegister 7 3; WRegister 9 1; WAdd 5; WAdd 7; WPop; WAdd 5; WAdd 9; WPop]
             QuicWriteBlockedList_new in
  let '(b', id) := PopFront b in
  id = 5 /\ last_priority_popped_ b' = 1 /\
  priority <$> (stream_infos_ (priority_write_scheduler_ b') !! 5) = Some 3 /\
  UpdateBytesForStream b' 5 1000 = b' /\
  ready_at (priority_write_scheduler_ (AddStream b' 5)) 3 = [7; 5].
Proof. vm_compute. repeat split; reflexivity. Qed.
