(* ===== verification/CircularDeque.v ===== *)
(** * base/containers/circular_deque.h and vector_buffer.h

    A deque in a circular buffer that wastes one slot to tell a full buffer from
    an empty one.  The buffer's memory is modelled slot by slot: [None] is raw
    memory, [Some x] a live object.  Constructing over a live object, reading or
    destroying raw memory and leaving the buffer are undefined ([None] as the
    result of an operation), so the theorems also show that every object is
    constructed and destroyed exactly once.  Indices are natural numbers. *)

From S2P Require Import Prelude.
#[local] Open Scope nat_scope.

(** Case analysis on every comparison of naturals. *)
Ltac ncase :=
  repeat match goal with
    | |- context [?a <? ?b] => destruct (Nat.ltb_spec a b)
    | |- context [?a <=? ?b] => destruct (Nat.leb_spec a b)
    | |- context [?a =? ?b] => destruct (Nat.eqb_spec a b)
    | H : context [?a <? ?b] |- _ => destruct (Nat.ltb_spec a b)
    | H : context [?a <=? ?b] |- _ => destruct (Nat.leb_spec a b)
    | H : context [?a =? ?b] |- _ => destruct (Nat.eqb_spec a b)
    end.

Section CircularDeque.
Context {T : Type}.

(** ** VectorBuffer *)

#[local] Abbreviation VectorBuffer := (list (option T)).

Definition VectorBuffer_new (count : nat) : VectorBuffer := replicate count None.
Definition VectorBuffer_capacity (b : VectorBuffer) : nat := length b.

(** Placement new at slot [i], and the destructor of slot [i]. *)
Definition slot_construct (b : VectorBuffer) (i : nat) (x : T) : option VectorBuffer :=
  match b !! i with Some None => Some (<[i := Some x]> b) | _ => None end.
Definition slot_destroy (b : VectorBuffer) (i : nat) : option VectorBuffer :=
  match b !! i with Some (Some _) => Some (<[i := None]> b) | _ => None end.
Definition slot_read (b : VectorBuffer) (i : nat) : option T :=
  match b !! i with Some (Some x) => Some x | _ => None end.

(** [DestructRange(&b[i], &b[i + n])]. *)
Fixpoint VectorBuffer_DestructRange (n : nat) (b : VectorBuffer) (i : nat) : option VectorBuffer :=
  match n with
  | 0 => Some b
  | S n => b ← slot_destroy b i; VectorBuffer_DestructRange n b (S i)
  end.

(** [MoveRange(&from[i], &from[i + n], &to[j])]. *)
Fixpoint VectorBuffer_MoveRange (n : nat) (from : VectorBuffer) (i : nat) (to : VectorBuffer) (j : nat)
    : option (VectorBuffer * VectorBuffer) :=
  match n with
  | 0 => Some (from, to)
  | S n =>
      x ← slot_read from i;
      to ← slot_construct to j x;
      from ← slot_destroy from i;
      VectorBuffer_MoveRange n from (S i) to (S j)
  end.

(** ** circular_deque *)

Record circular_deque := MkCircularDeque { buffer_ : VectorBuffer; begin_ : nat; end_ : nat }.

Definition circular_deque_new : circular_deque := MkCircularDeque [] 0 0.

Definition cap (d : circular_deque) : nat := VectorBuffer_capacity (buffer_ d).

Definition cd_capacity (d : circular_deque) : nat := if cap d =? 0 then 0 else cap d - 1.

Definition cd_empty (d : circular_deque) : bool := begin_ d =? end_ d.

Definition cd_size (d : circular_deque) : nat :=
  if begin_ d <=? end_ d then end_ d - begin_ d else cap d - begin_ d + end_ d.

(** [MoveBuffer]: the destination buffer and its begin and end. *)
Definition MoveBuffer (from_buf : VectorBuffer) (from_begin from_end : nat) (to_buf : VectorBuffer)
    : option (VectorBuffer * nat * nat) :=
  let from_capacity := VectorBuffer_capacity from_buf in
  if from_begin <? from_end then
    r ← VectorBuffer_MoveRange (from_end - from_begin) from_buf from_begin to_buf 0;
    Some (snd r, 0, from_end - from_begin)
  else if from_end <? from_begin then
    r ← VectorBuffer_MoveRange (from_capacity - from_begin) from_buf from_begin to_buf 0;
    let right_size := from_capacity - from_begin in
    r ← VectorBuffer_MoveRange from_end (fst r) 0 (snd r) right_size;
    Some (snd r, 0, right_size + from_end)
  else Some (to_buf, 0, 0).

Definition ExpandCapacityTo (d : circular_deque) (new_capacity : nat) : option circular_deque :=
  let new_buffer := VectorBuffer_new new_capacity in
  r ← MoveBuffer (buffer_ d) (begin_ d) (end_ d) new_buffer;
  Some (MkCircularDeque (fst (fst r)) (snd (fst r)) (snd r)).

Definition ExpandCapacityIfNecessary (d : circular_deque) (additional_elts : nat)
    : option circular_deque :=
  let min_new_capacity := cd_size d + additional_elts + 1 in
  if min_new_capacity <=? cap d then Some d
  else
    let min_slots := 4 in
    let min_new_capacity := max min_new_capacity min_slots in
    let new_capacity := max min_new_capacity (cap d + cap d / 4 + 1) in
    ExpandCapacityTo d new_capacity.

Definition cd_DestructRange (d : circular_deque) (first last : nat) : option circular_deque :=
  if last =? first then Some d
  else if first <? last then
    b ← VectorBuffer_DestructRange (last - first) (buffer_ d) first;
    Some (MkCircularDeque b (begin_ d) (end_ d))
  else
    b ← VectorBuffer_DestructRange (cap d - first) (buffer_ d) first;
    b ← VectorBuffer_DestructRange last b 0;
    Some (MkCircularDeque b (begin_ d) (end_ d)).

Definition ClearRetainCapacity (d : circular_deque) : option circular_deque :=
  d ← cd_DestructRange d (begin_ d) (end_ d);
  Some (MkCircularDeque (buffer_ d) 0 0).

Definition cd_clear (d : circular_deque) : option circular_deque :=
  d ← ClearRetainCapacity d;
  Some (MkCircularDeque (VectorBuffer_new 0) (begin_ d) (end_ d)).

Definition cd_reserve (d : circular_deque) (new_capacity : nat) : option circular_deque :=
  if cd_capacity d <? new_capacity then ExpandCapacityTo d (new_capacity + 1) else Some d.

Definition cd_shrink_to_fit (d : circular_deque) : option circular_deque :=
  if cd_empty d then
    if negb (cap d =? 0) then Some (MkCircularDeque (VectorBuffer_new 0) (begin_ d) (end_ d))
    else Some d
  else ExpandCapacityTo d (cd_size d + 1).

Definition cd_emplace_front (d : circular_deque) (x : T) : option circular_deque :=
  d ← ExpandCapacityIfNecessary d 1;
  let b := if begin_ d =? 0 then cap d - 1 else begin_ d - 1 in
  buf ← slot_construct (buffer_ d) b x;
  Some (MkCircularDeque buf b (end_ d)).

Definition cd_emplace_back (d : circular_deque) (x : T) : option circular_deque :=
  d ← ExpandCapacityIfNecessary d 1;
  buf ← slot_construct (buffer_ d) (end_ d) x;
  let e := if end_ d =? cap d - 1 then 0 else end_ d + 1 in
  Some (MkCircularDeque buf (begin_ d) e).

Definition cd_pop_front (d : circular_deque) : option circular_deque :=
  buf ← slot_destroy (buffer_ d) (begin_ d);
  let b := begin_ d + 1 in
  let b := if b =? cap d then 0 else b in
  Some (MkCircularDeque buf b (end_ d)).

Definition cd_pop_back (d : circular_deque) : option circular_deque :=
  let e := if end_ d =? 0 then cap d - 1 else end_ d - 1 in
  buf ← slot_destroy (buffer_ d) e;
  Some (MkCircularDeque buf (begin_ d) e).

Definition cd_at (d : circular_deque) (i : nat) : option T :=
  let right_size := cap d - begin_ d in
  if (begin_ d <=? end_ d) || (i <? right_size) then slot_read (buffer_ d) (begin_ d + i)
  else slot_read (buffer_ d) (i - right_size).

Definition cd_front (d : circular_deque) : option T := slot_read (buffer_ d) (begin_ d).

(** ** Iterators: an index into the buffer of [d] *)

Definition OffsetFromBegin (d : circular_deque) (index : nat) : nat :=
  if begin_ d <=? index then index - begin_ d else cap d - begin_ d + index.

Definition iter_Increment (d : circular_deque) (index : nat) : nat :=
  let index := index + 1 in if index =? cap d then 0 else index.

Definition iter_Decrement (d : circular_deque) (index : nat) : nat :=
  if index =? 0 then cap d - 1 else index - 1.

(** [Add] of a signed offset. *)
Definition iter_Add (d : circular_deque) (index : nat) (delta : Z) : nat :=
  let new_offset := (Z.of_nat (OffsetFromBegin d index) + delta)%Z in
  Z.to_nat ((new_offset + Z.of_nat (begin_ d)) mod Z.of_nat (cap d)).

Definition iter_ltb (d : circular_deque) (lhs rhs : nat) : bool :=
  OffsetFromBegin d lhs <? OffsetFromBegin d rhs.

Definition cd_back (d : circular_deque) : option T :=
  slot_read (buffer_ d) (iter_Decrement d (end_ d)).

(** ** Bulk operations *)

(** [while (size() < count) emplace_back(value)]. *)
Fixpoint grow_loop (fuel : nat) (d : circular_deque) (count : nat) (value : T)
    : option circular_deque :=
  if cd_size d <? count then
    match fuel with
    | 0 => None
    | S fuel => d ← cd_emplace_back d value; grow_loop fuel d count value
    end
  else Some d.

Definition cd_resize (d : circular_deque) (count : nat) (value : T) : option circular_deque :=
  if cd_size d <? count then
    d' ← ExpandCapacityIfNecessary d (count - cd_size d);
    grow_loop count d' count value
  else if count <? cd_size d then
    let new_end := (begin_ d + count) mod cap d in
    d ← cd_DestructRange d new_end (end_ d);
    Some (MkCircularDeque (buffer_ d) (begin_ d) new_end)
  else Some d.

Fixpoint emplace_all (d : circular_deque) (l : list T) : option circular_deque :=
  match l with
  | [] => Some d
  | x :: l => d ← cd_emplace_back d x; emplace_all d l
  end.

Definition cd_assign_range (d : circular_deque) (l : list T) : option circular_deque :=
  d ← ClearRetainCapacity d; emplace_all d l.

Definition cd_assign (d : circular_deque) (count : nat) (value : T) : option circular_deque :=
  d ← ClearRetainCapacity d;
  d ← cd_reserve d count;
  emplace_all d (replicate count value).

(** The elements from [begin()] to [end()], by iterating [n] times. *)
Fixpoint cd_iterate (n : nat) (d : circular_deque) (index : nat) : option (list T) :=
  match n with
  | 0 => Some []
  | S n => x ← slot_read (buffer_ d) index; l ← cd_iterate n d (iter_Increment d index); Some (x :: l)
  end.
Definition cd_elements (d : circular_deque) : option (list T) := cd_iterate (cd_size d) d (begin_ d).

Definition cd_copy (other : circular_deque) : option circular_deque :=
  l ← cd_elements other;
  cd_assign_range (MkCircularDeque (VectorBuffer_new (cd_size other + 1)) 0 0) l.

Definition cd_copy_assign (d other : circular_deque) : option circular_deque :=
  d ← cd_reserve d (cd_size other);
  l ← cd_elements other;
  cd_assign_range d l.

(** Move construction and move assignment: the new value of [*this] and of
    [other], whose buffer is released. *)
Definition cd_move (other : circular_deque) : circular_deque * circular_deque :=
  (MkCircularDeque (buffer_ other) (begin_ other) (end_ other), MkCircularDeque [] 0 0).

Definition cd_move_assign (d other : circular_deque) : option (circular_deque * circular_deque) :=
  _ ← ClearRetainCapacity d;
  Some (MkCircularDeque (buffer_ other) (begin_ other) (end_ other), MkCircularDeque [] 0 0).

Definition cd_swap (d other : circular_deque) : circular_deque * circular_deque := (other, d).

(** [rbegin()] is [reverse_iterator(begin())]; dereferencing a reverse iterator
    reads the element before its base. *)
Definition cd_rbegin (d : circular_deque) : nat := begin_ d.
Definition cd_rend (d : circular_deque) : nat := end_ d.
Definition reverse_deref (d : circular_deque) (base : nat) : option T :=
  slot_read (buffer_ d) (iter_Decrement d base).

(** ** Representation *)

(** The slot of the [k]-th element and the position of slot [j]. *)
Definition slot_of (d : circular_deque) (k : nat) : nat :=
  if begin_ d + k <? cap d then begin_ d + k else begin_ d + k - cap d.

(** [d] holds exactly the list [l]: the other slots are raw memory. *)
Record holds (d : circular_deque) (l : list T) : Prop := {
  h_room : length l < cap d \/ (cap d = 0 /\ l = []);
  h_begin : begin_ d < cap d \/ (cap d = 0 /\ end_ d = begin_ d);
  h_end : 0 < cap d -> end_ d = slot_of d (length l);
  h_slots : forall j, j < cap d -> buffer_ d !! j = Some (l !! OffsetFromBegin d j)
}.

Lemma holds_new : holds circular_deque_new [].
Proof. split; unfold cap, VectorBuffer_capacity; simpl; [by right|by right|lia|lia]. Qed.

(** Either the buffer has room for one more element, or there is no buffer. *)
Lemma holds_cases d l :
  holds d l ->
  (length l < cap d /\ begin_ d < cap d /\ end_ d = slot_of d (length l)) \/
  (cap d = 0 /\ l = [] /\ end_ d = begin_ d).
Proof. intros [[Hr|[Hr ->]] [Hb|[Hb Hbe]] He _]; [left|right; lia|lia|right]; auto with lia. Qed.

Lemma holds_size d l : holds d l -> cd_size d = length l.
Proof.
  intros [(? & ? & He)|(? & -> & He)]%holds_cases; unfold cd_size, slot_of in *; simpl; ncase; lia.
Qed.

Lemma holds_empty d l : holds d l -> cd_empty d = bool_decide (l = []).
Proof.
  intros [(? & ? & He)|(? & -> & He)]%holds_cases; unfold cd_empty, slot_of in *.
  - destruct l; [rewrite bool_decide_eq_true_2 by done|rewrite bool_decide_eq_false_2 by done];
      simpl in *; ncase; lia.
  - simpl. ncase; lia.
Qed.

(** The [k]-th element is in its slot. *)
Lemma holds_slot d l k :
  holds d l -> k < length l ->
  slot_of d k < cap d /\ OffsetFromBegin d (slot_of d k) = k /\
  buffer_ d !! slot_of d k = Some (l !! k).
Proof.
  intros Hh Hk. destruct (holds_cases d l Hh) as [(? & ? & He)|(? & -> & He)]; [|simpl in Hk; lia].
  assert (slot_of d k < cap d /\ OffsetFromBegin d (slot_of d k) = k) as [H1 H2]
    by (unfold slot_of, OffsetFromBegin; ncase; lia).
  split_and!; try done. by rewrite (h_slots d l Hh), H2.
Qed.

(** ** Moving and destroying ranges *)

(** Slots [i, i + length xs) of [b] hold exactly [xs]. *)
Definition live_range (b : VectorBuffer) (i : nat) (xs : list T) : Prop :=
  forall k x, xs !! k = Some x -> b !! (i + k) = Some (Some x).

Lemma DestructRange_spec n b i :
  (forall j, i <= j < i + n -> exists x, b !! j = Some (Some x)) ->
  exists b', VectorBuffer_DestructRange n b i = Some b' /\ length b' = length b /\
    forall j, b' !! j = if (i <=? j) && (j <? i + n) then Some None else b !! j.
Proof.
  revert b i. induction n as [|n IH]; intros b i Hl; simpl.
  - exists b. split_and!; try done. intros j. ncase; simpl; try done; lia.
  - destruct (Hl i ltac:(lia)) as [x Hx]. unfold slot_destroy. rewrite Hx. simpl.
    assert (i < length b) as Hi by (apply lookup_lt_is_Some; eauto).
    destruct (IH (<[i := None]> b) (S i)) as (b' & -> & Hlen & Hb').
    { intros j Hj. rewrite list_lookup_insert_ne by lia. apply Hl. lia. }
    exists b'. rewrite length_insert in Hlen. split_and!; try done. intros j. rewrite Hb'.
    destruct (decide (j = i)) as [->|Hne].
    + rewrite list_lookup_insert_eq by done. ncase; simpl; try done; lia.
    + rewrite list_lookup_insert_ne by done. ncase; simpl; try done; lia.
Qed.

Lemma MoveRange_spec xs from i to j :
  live_range from i xs ->
  (forall k, k < length xs -> to !! (j + k) = Some None) ->
  exists from' to', VectorBuffer_MoveRange (length xs) from i to j = Some (from', to') /\
    length from' = length from /\ length to' = length to /\
    (forall k, from' !! k = if (i <=? k) && (k <? i + length xs) then Some None else from !! k) /\
    (forall k, to' !! k = if (j <=? k) && (k <? j + length xs) then Some (xs !! (k - j)) else to !! k).
Proof.
  revert from i to j. induction xs as [|x xs IH]; intros from i to j Hl Ht; simpl.
  - exists from, to. split_and!; try done; intros k; ncase; simpl; try done; lia.
  - pose proof (Hl 0 x eq_refl) as H0. rewrite Nat.add_0_r in H0.
    pose proof (Ht 0 ltac:(simpl; lia)) as Ht0. rewrite Nat.add_0_r in Ht0.
    unfold slot_read, slot_construct, slot_destroy. rewrite H0, Ht0. simpl.
    assert (i < length from) as Hi by (apply lookup_lt_is_Some; eauto).
    assert (j < length to) as Hj by (apply lookup_lt_is_Some; eauto).
    destruct (IH (<[i := None]> from) (S i) (<[j := Some x]> to) (S j))
      as (from' & to' & -> & L1 & L2 & F1 & F2).
    { intros k y Hk. rewrite list_lookup_insert_ne by lia. specialize (Hl (S k) y Hk).
      by replace (S i + k) with (i + S k) by lia. }
    { intros k Hk. rewrite list_lookup_insert_ne by lia. specialize (Ht (S k) ltac:(simpl; lia)).
      by replace (S j + k) with (j + S k) by lia. }
    exists from', to'. rewrite length_insert in L1, L2. split_and!; try done; intros k.
    + rewrite F1. destruct (decide (k = i)) as [->|Hne];
        [rewrite list_lookup_insert_eq by done|rewrite list_lookup_insert_ne by done];
        ncase; simpl; try done; lia.
    + rewrite F2. destruct (decide (k = j)) as [->|Hne].
      * rewrite list_lookup_insert_eq by done. rewrite Nat.sub_diag. ncase; simpl; try done; lia.
      * rewrite list_lookup_insert_ne by done. ncase; simpl; try done; try lia.
        by replace (k - j) with (S (k - S j)) by lia.
Qed.

(** The two runs of live slots: from [begin_] to the end of the buffer, and from
    slot 0. *)
Lemma holds_live d l :
  holds d l -> live_range (buffer_ d) (begin_ d) (take (cap d - begin_ d) l) /\
               live_range (buffer_ d) 0 (drop (cap d - begin_ d) l).
Proof.
  intros Hh. split; intros k x Hk.
  - apply lookup_take_Some in Hk as [Hk Hlt]. apply lookup_lt_Some in Hk as Hlen.
    rewrite (h_slots d l Hh) by lia. unfold OffsetFromBegin. ncase; [|lia].
    replace (begin_ d + k - begin_ d) with k by lia. by rewrite Hk.
  - rewrite lookup_drop in Hk. apply lookup_lt_Some in Hk as Hlen.
    destruct (holds_cases d l Hh) as [(? & ? & He)|(? & -> & He)]; [|simpl in Hlen; lia].
    simpl. rewrite (h_slots d l Hh) by lia. unfold OffsetFromBegin. ncase; [lia|].
    by rewrite Hk.
Qed.

Lemma lookup_raw n k : k < n -> VectorBuffer_new n !! k = Some None.
Proof. intros. by apply lookup_replicate_2. Qed.

Lemma holds_from_zero (b : VectorBuffer) l :
  length l < length b -> (forall k, k < length b -> b !! k = Some (l !! k)) ->
  holds (MkCircularDeque b 0 (length l)) l.
Proof.
  intros Hl Hb. split; unfold slot_of, OffsetFromBegin, cap, VectorBuffer_capacity; simpl.
  - by left.
  - left. lia.
  - intros _. ncase; lia.
  - intros j Hj. rewrite Nat.sub_0_r. by apply Hb.
Qed.

Lemma ExpandCapacityTo_spec d l n :
  holds d l -> length l < n ->
  exists d', ExpandCapacityTo d n = Some d' /\ holds d' l /\ cap d' = n.
Proof.
  intros Hh Hn. destruct (holds_live d l Hh) as [L1 L2].
  pose proof (length_replicate n (@None T)) as Hlen. fold (VectorBuffer_new n) in Hlen.
  pose proof (take_drop (cap d - begin_ d) l) as Etd.
  unfold ExpandCapacityTo, MoveBuffer. fold (cap d).
  destruct (holds_cases d l Hh) as [(Hr & Hb & He)|(Hc & -> & He)].
  - destruct (Nat.ltb_spec (begin_ d) (end_ d)) as [Hlt|Hge].
    + assert (length l <= cap d - begin_ d /\ end_ d - begin_ d = length l) as [Hle ->]
        by (unfold slot_of in He; ncase; lia).
      rewrite take_ge in L1 by lia.
      destruct (MoveRange_spec l (buffer_ d) (begin_ d) (VectorBuffer_new n) 0 L1)
        as (f & t & -> & _ & Ht & _ & Hs).
      { intros k Hk. apply lookup_raw. lia. }
      simpl. eexists. split; [done|]. rewrite Hlen in Ht. split; [|done].
      apply holds_from_zero; [lia|]. intros k Hk. rewrite Hs, Nat.sub_0_r.
      ncase; simpl; try lia; [done|]. rewrite lookup_raw by lia. by rewrite lookup_ge_None_2.
    + destruct (Nat.ltb_spec (end_ d) (begin_ d)) as [Hlt|Hge'].
      * assert (length (take (cap d - begin_ d) l) = cap d - begin_ d /\
                length (drop (cap d - begin_ d) l) = end_ d) as [Ht Hd].
        { rewrite length_take, length_drop. unfold slot_of in He; ncase; lia. }
        destruct (MoveRange_spec _ (buffer_ d) (begin_ d) (VectorBuffer_new n) 0 L1)
          as (f & t & E & _ & Lt & Hf & Hs).
        { intros k Hk. apply lookup_raw. rewrite length_take in Hk. lia. }
        rewrite Ht in E, Hs, Hf. rewrite E. simpl.
        destruct (MoveRange_spec (drop (cap d - begin_ d) l) f 0 t (cap d - begin_ d))
          as (f' & t' & E' & _ & Lt' & _ & Hs').
        { intros k x Hk. rewrite Hf. apply lookup_lt_Some in Hk as Hk'. rewrite Hd in Hk'.
          ncase; simpl; try lia; by apply L2. }
        { intros k Hk. rewrite Hs. rewrite Hd in Hk. ncase; simpl; try lia. apply lookup_raw.
          rewrite length_drop in Hd. lia. }
        rewrite Hd in E', Hs'. rewrite E'. simpl. eexists. split; [done|].
        assert (cap d - begin_ d + end_ d = length l) as ->.
        { rewrite <- Etd, length_app. lia. }
        rewrite Hlen in Lt. rewrite Lt in Lt'. split; [|done]. apply holds_from_zero; [lia|].
        intros k Hk. rewrite Hs', Hs, Nat.sub_0_r.
        assert (l !! k = (take (cap d - begin_ d) l ++ drop (cap d - begin_ d) l) !! k) as ->
          by by rewrite Etd.
        destruct (decide (k < cap d - begin_ d)) as [Hk1|Hk1];
          [|destruct (decide (k < cap d - begin_ d + end_ d)) as [Hk2|Hk2]].
        -- rewrite lookup_app_l by lia. ncase; simpl; (done || lia).
        -- rewrite lookup_app_r, Ht by lia. ncase; simpl; (done || lia).
        -- rewrite (lookup_ge_None_2 (_ ++ _)) by (rewrite length_app; lia).
           rewrite lookup_raw by lia. ncase; simpl; (done || lia).
      * assert (l = []) as -> by (apply length_zero_iff_nil; unfold slot_of in He; ncase; lia).
        eexists. split; [done|]. cbn [fst snd]. split; [|done]. apply (holds_from_zero _ []); [simpl in *; lia|].
        intros k Hk. rewrite lookup_raw; [done|]. lia.
  - rewrite He, Nat.ltb_irrefl. eexists. split; [done|]. cbn [fst snd]. split; [|done].
    apply (holds_from_zero _ []); [simpl in *; lia|]. intros k Hk. rewrite lookup_raw; [done|].
    lia.
Qed.

Lemma ExpandCapacityIfNecessary_spec d l n :
  holds d l ->
  exists d', ExpandCapacityIfNecessary d n = Some d' /\ holds d' l /\ length l + n < cap d'.
Proof.
  intros Hh. unfold ExpandCapacityIfNecessary. rewrite (holds_size d l Hh).
  destruct (Nat.leb_spec (length l + n + 1) (cap d)) as [Hle|Hgt].
  - exists d. split_and!; try done. lia.
  - destruct (ExpandCapacityTo_spec d l
      (max (max (length l + n + 1) 4) (cap d + cap d / 4 + 1)) Hh) as (d' & E & Hh' & Hc); [lia|].
    exists d'. split_and!; try done. lia.
Qed.

(** ** Each operation on the list *)

Lemma cap_insert b i (x : option T) m n :
  cap (MkCircularDeque (<[i := x]> b) m n) = length b.
Proof. unfold cap, VectorBuffer_capacity. simpl. apply length_insert. Qed.

Lemma emplace_back_spec d l x :
  holds d l -> exists d', cd_emplace_back d x = Some d' /\ holds d' (l ++ [x]).
Proof.
  intros Hh0. unfold cd_emplace_back.
  destruct (ExpandCapacityIfNecessary_spec d l 1 Hh0) as (e & -> & Hh & Hc). simpl.
  destruct (holds_cases e l Hh) as [(Hr & Hb & He)|(? & -> & ?)]; [|simpl in Hc; lia].
  assert (end_ e < cap e /\ OffsetFromBegin e (end_ e) = length l) as [H1 H2]
    by (unfold OffsetFromBegin; rewrite He; unfold slot_of; ncase; lia).
  assert (buffer_ e !! end_ e = Some None) as Hraw.
  { rewrite (h_slots e l Hh), H2 by done. by rewrite lookup_ge_None_2. }
  unfold slot_construct. rewrite Hraw. simpl. eexists. split; [done|].
  split; unfold slot_of; rewrite ?cap_insert; fold (VectorBuffer_capacity (buffer_ e)); fold (cap e);
    cbn [buffer_ begin_ end_]; rewrite ?length_app; simpl length.
  - left. lia.
  - left. lia.
  - intros _. rewrite He. unfold slot_of. ncase; lia.
  - intros j Hj. unfold OffsetFromBegin in *. rewrite cap_insert.
    fold (VectorBuffer_capacity (buffer_ e)). fold (cap e). cbn [begin_].
    destruct (decide (j = end_ e)) as [->|Hne].
    + rewrite list_lookup_insert_eq, H2 by done. by rewrite list_lookup_middle.
    + rewrite list_lookup_insert_ne, (h_slots e l Hh) by done. unfold OffsetFromBegin. f_equal.
      symmetry. destruct (decide ((if begin_ e <=? j then j - begin_ e else cap e - begin_ e + j)
        < length l)) as [Hlt|Hge]; [by apply lookup_app_l|].
      rewrite !lookup_ge_None_2; [done|lia|]. rewrite length_app. simpl.
      rewrite He in Hne. unfold slot_of in Hne. clear H2. ncase; lia.
Qed.

Lemma emplace_front_spec d l x :
  holds d l -> exists d', cd_emplace_front d x = Some d' /\ holds d' (x :: l).
Proof.
  intros Hh0. unfold cd_emplace_front.
  destruct (ExpandCapacityIfNecessary_spec d l 1 Hh0) as (e & -> & Hh & Hc). simpl.
  destruct (holds_cases e l Hh) as [(Hr & Hb & He)|(? & -> & ?)]; [|simpl in Hc; lia].
  set (b := if begin_ e =? 0 then cap e - 1 else begin_ e - 1).
  assert (b < cap e /\ OffsetFromBegin e b = cap e - 1) as [H1 H2]
    by (unfold b, OffsetFromBegin; ncase; lia).
  assert (buffer_ e !! b = Some None) as Hraw.
  { rewrite (h_slots e l Hh), H2 by done. by rewrite lookup_ge_None_2 by lia. }
  unfold slot_construct. rewrite Hraw. simpl. eexists. split; [done|].
  split; unfold slot_of; rewrite ?cap_insert; fold (VectorBuffer_capacity (buffer_ e)); fold (cap e);
    cbn [buffer_ begin_ end_]; simpl length.
  - left. lia.
  - left. lia.
  - intros _. rewrite He. unfold slot_of, b. ncase; lia.
  - intros j Hj. unfold OffsetFromBegin in *. rewrite cap_insert.
    fold (VectorBuffer_capacity (buffer_ e)). fold (cap e). cbn [begin_].
    destruct (decide (j = b)) as [->|Hne].
    + rewrite list_lookup_insert_eq by done. rewrite Nat.leb_refl, Nat.sub_diag. done.
    + rewrite list_lookup_insert_ne, (h_slots e l Hh) by done. unfold OffsetFromBegin. f_equal.
      assert ((if b <=? j then j - b else cap e - b + j) =
              S (if begin_ e <=? j then j - begin_ e else cap e - begin_ e + j)) as ->; [|done].
      clear H2 Hraw. unfold b in *. ncase; lia.
Qed.

Lemma pop_front_spec d x l :
  holds d (x :: l) -> cd_front d = Some x /\ exists d', cd_pop_front d = Some d' /\ holds d' l.
Proof.
  intros Hh. destruct (holds_cases d _ Hh) as [(Hr & Hb & He)|(? & ? & ?)]; [|done].
  assert (OffsetFromBegin d (begin_ d) = 0) as H0 by (unfold OffsetFromBegin; ncase; lia).
  assert (buffer_ d !! begin_ d = Some (Some x)) as Hx by (by rewrite (h_slots d _ Hh), H0).
  unfold cd_front, slot_read, cd_pop_front, slot_destroy. rewrite Hx. split; [done|]. simpl.
  eexists. split; [done|]. simpl in Hr.
  split; unfold slot_of in *; rewrite ?cap_insert; fold (VectorBuffer_capacity (buffer_ d));
    fold (cap d); cbn [buffer_ begin_ end_].
  - left. lia.
  - left. ncase; lia.
  - intros _. rewrite He. simpl length. ncase; lia.
  - intros j Hj. unfold OffsetFromBegin in *. rewrite cap_insert.
    fold (VectorBuffer_capacity (buffer_ d)). fold (cap d). cbn [begin_].
    destruct (decide (j = begin_ d)) as [->|Hne].
    + rewrite list_lookup_insert_eq by done. symmetry. f_equal. apply lookup_ge_None_2. clear H0.
      ncase; lia.
    + rewrite list_lookup_insert_ne, (h_slots d _ Hh) by done. unfold OffsetFromBegin. f_equal.
      set (k := if begin_ d + 1 =? cap d then 0 else begin_ d + 1).
      assert ((if begin_ d <=? j then j - begin_ d else cap d - begin_ d + j) =
              S (if k <=? j then j - k else cap d - k + j)) as ->; [|done].
      clear H0. unfold k. ncase; lia.
Qed.

Lemma pop_back_spec d l x :
  holds d (l ++ [x]) -> cd_back d = Some x /\ exists d', cd_pop_back d = Some d' /\ holds d' l.
Proof.
  intros Hh. destruct (holds_cases d _ Hh) as [(Hr & Hb & He)|(? & ? & ?)]; [|by destruct l].
  rewrite length_app in Hr, He. simpl in Hr, He.
  unfold cd_back, iter_Decrement, cd_pop_back.
  set (e := if end_ d =? 0 then cap d - 1 else end_ d - 1).
  assert (e < cap d /\ OffsetFromBegin d e = length l) as [H1 H2]
    by (unfold e, OffsetFromBegin; rewrite He; unfold slot_of; ncase; lia).
  assert (buffer_ d !! e = Some (Some x)) as Hx.
  { rewrite (h_slots d _ Hh), H2 by done. by rewrite list_lookup_middle. }
  unfold slot_read, slot_destroy. rewrite Hx. split; [done|]. simpl. eexists. split; [done|].
  split; unfold slot_of in *; rewrite ?cap_insert; fold (VectorBuffer_capacity (buffer_ d));
    fold (cap d); cbn [buffer_ begin_ end_].
  - left. lia.
  - left. lia.
  - intros _. unfold e. rewrite He. clear H2. ncase; lia.
  - intros j Hj. unfold OffsetFromBegin in *. rewrite cap_insert.
    fold (VectorBuffer_capacity (buffer_ d)). fold (cap d). cbn [begin_].
    destruct (decide (j = e)) as [->|Hne].
    + rewrite list_lookup_insert_eq, H2 by done. by rewrite lookup_ge_None_2.
    + rewrite list_lookup_insert_ne, (h_slots d _ Hh) by done. unfold OffsetFromBegin. f_equal.
      destruct (decide ((if begin_ d <=? j then j - begin_ d else cap d - begin_ d + j)
        < length l)) as [Hlt|Hge]; [by apply lookup_app_l|].
      rewrite !lookup_ge_None_2; [done|lia|]. rewrite length_app. simpl.
      clear H2 Hx. unfold e in *. rewrite He in Hne. ncase; lia.
Qed.

Lemma at_spec d l i : holds d l -> i < length l -> cd_at d i = l !! i.
Proof.
  intros Hh Hi. destruct (holds_cases d l Hh) as [(Hr & Hb & He)|(? & -> & ?)]; [|simpl in Hi; lia].
  destruct (lookup_lt_is_Some_2 l i Hi) as [x Hx].
  unfold cd_at. assert (forall j, j < cap d -> OffsetFromBegin d j = i -> slot_read (buffer_ d) j = l !! i)
    as Hrd by (intros j Hj Hoff; unfold slot_read; by rewrite (h_slots d l Hh), Hoff, Hx by done).
  unfold slot_of in He. destruct (_ || _) eqn:E.
  - apply Hrd; [|unfold OffsetFromBegin; ncase; lia]. apply orb_true_iff in E as [E|E]; ncase; lia.
  - apply orb_false_iff in E as [E1 E2]. apply Hrd; unfold OffsetFromBegin; ncase; lia.
Qed.

(** ** Destroying a range *)

(** A slot whose position is within the list is live. *)
Lemma live_slot d l j :
  holds d l -> j < cap d -> OffsetFromBegin d j < length l ->
  exists x, buffer_ d !! j = Some (Some x).
Proof.
  intros Hh Hj Ho. destruct (lookup_lt_is_Some_2 l _ Ho) as [x Hx]. exists x.
  by rewrite (h_slots d l Hh), Hx.
Qed.

(** Destroying the elements from position [k] on. *)
Lemma DestructRange_tail d l k :
  holds d l -> k <= length l -> 0 < cap d ->
  exists d', cd_DestructRange d (slot_of d k) (end_ d) = Some d' /\
    begin_ d' = begin_ d /\ end_ d' = end_ d /\ cap d' = cap d /\
    forall j, j < cap d -> buffer_ d' !! j = Some (take k l !! OffsetFromBegin d j).
Proof.
  intros Hh Hk Hc. destruct (holds_cases d l Hh) as [(Hr & Hb & He)|(? & -> & ?)]; [|lia].
  (* the slots of a buffer in which exactly the tail was destroyed *)
  assert (forall (b' : VectorBuffer) (P : nat -> bool),
    (forall j, b' !! j = if P j then Some None else buffer_ d !! j) ->
    (forall j, j < cap d -> P j = (k <=? OffsetFromBegin d j) && (OffsetFromBegin d j <? length l)) ->
    forall j, j < cap d -> b' !! j = Some (take k l !! OffsetFromBegin d j)) as Hfin.
  { intros b' P Hb' HP j Hj. rewrite Hb', HP, (h_slots d l Hh) by done.
    destruct (Nat.leb_spec k (OffsetFromBegin d j)); simpl.
    - rewrite lookup_take_ge by done. ncase; [done|]. by rewrite lookup_ge_None_2.
    - by rewrite lookup_take_lt. }
  unfold cd_DestructRange. destruct (Nat.eqb_spec (end_ d) (slot_of d k)) as [Heq|Hne].
  - assert (k = length l) as -> by (rewrite He in Heq; unfold slot_of in Heq; ncase; lia).
    exists d. split_and!; try done. intros j Hj. rewrite take_ge by lia. by apply (h_slots d l Hh).
  - destruct (Nat.ltb_spec (slot_of d k) (end_ d)) as [Hlt|Hge].
    + destruct (DestructRange_spec (end_ d - slot_of d k) (buffer_ d) (slot_of d k))
        as (b' & -> & Hlen & Hb').
      { intros j Hj. apply (live_slot d l); [done|..]; unfold OffsetFromBegin, slot_of in *;
          ncase; lia. }
      simpl. eexists. split; [done|]. unfold cap, VectorBuffer_capacity. simpl.
      split_and!; try done. apply (Hfin b' _ Hb'). intros j Hj.
      unfold OffsetFromBegin, slot_of in *; ncase; simpl; try done; lia.
    + destruct (DestructRange_spec (cap d - slot_of d k) (buffer_ d) (slot_of d k))
        as (b1 & -> & Hlen1 & Hb1).
      { intros j Hj. apply (live_slot d l); [done|..]; unfold OffsetFromBegin, slot_of in *;
          ncase; lia. }
      simpl. destruct (DestructRange_spec (end_ d) b1 0) as (b2 & -> & Hlen2 & Hb2).
      { intros j Hj. rewrite Hb1. destruct (live_slot d l j Hh) as [x Hx];
          [unfold OffsetFromBegin, slot_of in *; ncase; lia..|].
        exists x. ncase; simpl; try done; lia. }
      simpl. eexists. split; [done|]. unfold cap, VectorBuffer_capacity. simpl.
      split_and!; try done; [congruence|].
      apply (Hfin b2 (fun j => (j <? end_ d) || (slot_of d k <=? j) && (j <? cap d))).
      * intros j. rewrite Hb2, Hb1. unfold slot_of in *. ncase; simpl; try done; lia.
      * intros j Hj. unfold OffsetFromBegin, slot_of in *; ncase; simpl; try done; lia.
Qed.

Lemma ClearRetainCapacity_spec d l :
  holds d l -> exists d', ClearRetainCapacity d = Some d' /\ holds d' [] /\ cap d' = cap d /\
    begin_ d' = 0 /\ end_ d' = 0.
Proof.
  intros Hh. unfold ClearRetainCapacity.
  destruct (holds_cases d l Hh) as [(Hr & Hb & He)|(Hc & -> & He)].
  - destruct (DestructRange_tail d l 0 Hh) as (d' & E & _ & _ & Hc & Hs); [lia..|].
    replace (slot_of d 0) with (begin_ d) in E by (unfold slot_of; ncase; lia). rewrite E. simpl.
    eexists. split; [done|]. split_and!; try done.
    apply (holds_from_zero _ []); simpl; unfold cap, VectorBuffer_capacity in *; [lia|].
    intros j Hj. rewrite Hs by lia. by rewrite take_0.
  - unfold cd_DestructRange. rewrite He, Nat.eqb_refl. simpl. eexists. split; [done|].
    split_and!; try done.
    split; unfold cap, VectorBuffer_capacity in *; simpl; intros; (by right) || lia.
Qed.

Lemma emplace_all_spec d l xs :
  holds d l -> exists d', emplace_all d xs = Some d' /\ holds d' (l ++ xs).
Proof.
  revert d l. induction xs as [|x xs IH]; intros d l Hh; simpl.
  - exists d. by rewrite app_nil_r.
  - destruct (emplace_back_spec d l x Hh) as (d1 & -> & H1). simpl.
    destruct (IH d1 _ H1) as (d2 & -> & H2). exists d2. by rewrite <- app_assoc in H2.
Qed.

Lemma reserve_spec d l n :
  holds d l -> exists d', cd_reserve d n = Some d' /\ holds d' l /\ n <= cd_capacity d'.
Proof.
  intros Hh. unfold cd_reserve. destruct (Nat.ltb_spec (cd_capacity d) n) as [Hlt|Hge].
  - assert (length l <= cd_capacity d) as Hle.
    { unfold cd_capacity. destruct (holds_cases d l Hh) as [(? & ? & ?)|(? & -> & ?)];
        ncase; simpl; lia. }
    destruct (ExpandCapacityTo_spec d l (n + 1) Hh) as (d' & -> & Hh' & Hc); [lia|].
    exists d'. split_and!; try done. unfold cd_capacity. rewrite Hc. ncase; lia.
  - by exists d.
Qed.

Lemma grow_loop_spec fuel d l n x :
  holds d l -> n <= length l + fuel ->
  exists d', grow_loop fuel d n x = Some d' /\ holds d' (l ++ replicate (n - length l) x).
Proof.
  revert d l. induction fuel as [|fuel IH]; intros d l Hh Hn; simpl; rewrite (holds_size d l Hh).
  - destruct (Nat.ltb_spec (length l) n); [lia|]. exists d. split; [done|].
    replace (n - length l) with 0 by lia. by rewrite app_nil_r.
  - destruct (Nat.ltb_spec (length l) n).
    + destruct (emplace_back_spec d l x Hh) as (d1 & -> & H1). simpl.
      destruct (IH d1 _ H1) as (d2 & -> & H2); [rewrite length_app; simpl; lia|].
      exists d2. split; [done|]. rewrite length_app, <- app_assoc in H2. simpl in H2.
      replace (n - length l) with (S (n - (length l + 1))) by lia. done.
    + exists d. split; [done|]. replace (n - length l) with 0 by lia. by rewrite app_nil_r.
Qed.

Lemma resize_spec d l n x :
  holds d l ->
  exists d', cd_resize d n x = Some d' /\ holds d' (take n l ++ replicate (n - length l) x).
Proof.
  intros Hh. unfold cd_resize. rewrite (holds_size d l Hh).
  destruct (Nat.ltb_spec (length l) n) as [Hlt|Hge].
  - destruct (ExpandCapacityIfNecessary_spec d l (n - length l) Hh) as (d1 & -> & H1 & _). simpl.
    destruct (grow_loop_spec n d1 l n x H1) as (d2 & -> & H2); [lia|]. exists d2.
    by rewrite take_ge by lia.
  - replace (n - length l) with 0 by lia. simpl. rewrite app_nil_r.
    destruct (Nat.ltb_spec n (length l)) as [Hlt|Hge'].
    2: { exists d. split; [done|]. by rewrite take_ge by lia. }
    destruct (holds_cases d l Hh) as [(Hr & Hb & He)|(? & -> & ?)]; [|simpl in Hlt; lia].
    assert ((begin_ d + n) mod cap d = slot_of d n) as ->.
    { unfold slot_of. ncase; [apply Nat.mod_small; lia|].
      replace (begin_ d + n) with (begin_ d + n - cap d + 1 * cap d) at 1 by lia.
      rewrite Nat.Div0.mod_add. apply Nat.mod_small. lia. }
    destruct (DestructRange_tail d l n Hh) as (d' & -> & Hb' & He' & Hc & Hs); [lia..|]. simpl.
    eexists. split; [done|]. rewrite Hb'.
    assert (cap (MkCircularDeque (buffer_ d') (begin_ d) (slot_of d n)) = cap d) as Hc' by done.
    split; unfold slot_of, OffsetFromBegin in *; rewrite ?Hc'; cbn [begin_ end_ buffer_];
      rewrite ?length_take.
    + left. lia.
    + left. lia.
    + intros _. by rewrite Nat.min_l by lia.
    + intros j Hj. by rewrite Hs.
Qed.

Lemma iterate_spec d l n k :
  holds d l -> k + n = length l -> cd_iterate n d (slot_of d k) = Some (drop k l).
Proof.
  intros Hh. revert k. induction n as [|n IH]; intros k Hk; simpl.
  - by rewrite drop_ge by lia.
  - destruct (lookup_lt_is_Some_2 l k) as [x Hx]; [lia|].
    destruct (holds_slot d l k Hh) as (Hlt & Hoff & Hs); [lia|].
    unfold slot_read. rewrite Hs, Hx. simpl.
    destruct (holds_cases d l Hh) as [(Hr & Hb & He)|(? & -> & ?)]; [|simpl in *; lia].
    assert (iter_Increment d (slot_of d k) = slot_of d (S k)) as ->
      by (unfold iter_Increment, slot_of; ncase; lia).
    rewrite IH by lia. simpl. by rewrite (drop_S l x k).
Qed.

Lemma elements_spec d l : holds d l -> cd_elements d = Some l.
Proof.
  intros Hh. unfold cd_elements. rewrite (holds_size d l Hh).
  destruct (holds_cases d l Hh) as [(Hr & Hb & He)|(? & -> & ?)]; [|done].
  replace (begin_ d) with (slot_of d 0) by (unfold slot_of; ncase; lia).
  by rewrite (iterate_spec d l (length l) 0).
Qed.

Lemma holds_fresh n : holds (MkCircularDeque (VectorBuffer_new (n + 1)) 0 0) [].
Proof.
  assert (length (VectorBuffer_new (n + 1)) = n + 1) as Hl by apply length_replicate.
  apply (holds_from_zero _ []); [simpl; lia|]. intros k Hk. by apply lookup_raw; lia.
Qed.

Lemma assign_range_spec d l xs :
  holds d l -> exists d', cd_assign_range d xs = Some d' /\ holds d' xs.
Proof.
  intros Hh. unfold cd_assign_range.
  destruct (ClearRetainCapacity_spec d l Hh) as (d1 & -> & H1 & _). simpl.
  destruct (emplace_all_spec d1 [] xs H1) as (d2 & -> & H2). by exists d2.
Qed.

Lemma clear_spec d l : holds d l -> exists d', cd_clear d = Some d' /\ holds d' [] /\ cap d' = 0.
Proof.
  intros Hh. unfold cd_clear.
  destruct (ClearRetainCapacity_spec d l Hh) as (d1 & -> & _ & _ & Hb & He). simpl.
  eexists. split; [done|]. split; [|done]. rewrite Hb, He. apply holds_new.
Qed.

Lemma shrink_spec d l :
  holds d l -> exists d', cd_shrink_to_fit d = Some d' /\ holds d' l /\ cd_capacity d' = length l.
Proof.
  intros Hh. unfold cd_shrink_to_fit. rewrite (holds_empty d l Hh), (holds_size d l Hh).
  case_bool_decide as E.
  - subst. destruct (Nat.eqb_spec (cap d) 0) as [Hc|Hc]; simpl.
    + exists d. split_and!; try done. unfold cd_capacity. by rewrite Hc.
    + eexists. split; [done|]. split; [|done].
      destruct (holds_cases d [] Hh) as [(Hr & Hb & He)|(? & _ & He)]; [|done].
      split; unfold cap, VectorBuffer_capacity; simpl; [by right| |lia|lia].
      right. split; [done|]. rewrite He. unfold slot_of. simpl. ncase; lia.
  - destruct (ExpandCapacityTo_spec d l (length l + 1) Hh) as (d' & -> & Hh' & Hc); [lia|].
    exists d'. split_and!; try done. unfold cd_capacity. rewrite Hc. ncase; lia.
Qed.

Lemma assign_spec d l n x :
  holds d l -> exists d', cd_assign d n x = Some d' /\ holds d' (replicate n x).
Proof.
  intros Hh. unfold cd_assign.
  destruct (ClearRetainCapacity_spec d l Hh) as (d1 & -> & H1 & _). simpl.
  destruct (reserve_spec d1 [] n H1) as (d2 & -> & H2 & _). simpl.
  by apply (emplace_all_spec d2 [] (replicate n x)).
Qed.

(** ** The abstract deque *)

Inductive deque_op :=
| DPushFront (x : T) | DPushBack (x : T) | DPopFront | DPopBack
| DResize (count : nat) (x : T) | DAssign (count : nat) (x : T) | DAssignRange (xs : list T)
| DReserve (n : nat) | DShrink | DClear.

Definition deque_step (d : circular_deque) (op : deque_op) : option circular_deque :=
  match op with
  | DPushFront x => cd_emplace_front d x
  | DPushBack x => cd_emplace_back d x
  | DPopFront => cd_pop_front d
  | DPopBack => cd_pop_back d
  | DResize n x => cd_resize d n x
  | DAssign n x => cd_assign d n x
  | DAssignRange xs => cd_assign_range d xs
  | DReserve n => cd_reserve d n
  | DShrink => cd_shrink_to_fit d
  | DClear => cd_clear d
  end.

(** The same on lists; popping an empty deque is not allowed. *)
Definition list_step (l : list T) (op : deque_op) : option (list T) :=
  match op with
  | DPushFront x => Some (x :: l)
  | DPushBack x => Some (l ++ [x])
  | DPopFront => match l with [] => None | _ :: l => Some l end
  | DPopBack => match l with [] => None | _ => Some (take (length l - 1) l) end
  | DResize n x => Some (take n l ++ replicate (n - length l) x)
  | DAssign n x => Some (replicate n x)
  | DAssignRange xs => Some xs
  | DReserve _ => Some l
  | DShrink => Some l
  | DClear => Some []
  end.

Fixpoint run_option {S O : Type} (step : S -> O -> option S) (s : S) (ops : list O) : option S :=
  match ops with [] => Some s | op :: ops => s ← step s op; run_option step s ops end.

Lemma deque_step_refines d l l' op :
  holds d l -> list_step l op = Some l' -> exists d', deque_step d op = Some d' /\ holds d' l'.
Proof.
  intros Hh Hs. destruct op; simpl in *; simplify_eq.
  - by apply emplace_front_spec.
  - by apply emplace_back_spec.
  - destruct l as [|x l]; [done|]. simplify_eq. by destruct (pop_front_spec d x l' Hh).
  - destruct l as [|x l _] using rev_ind; [done|].
    assert (l' = l) as ->.
    { destruct (l ++ [x]) eqn:E in Hs at 1; [by destruct l|]. simplify_eq.
      rewrite length_app. simpl. replace (length l + 1 - 1) with (length l) by lia.
      by rewrite take_app_length. }
    by destruct (pop_back_spec d l x Hh).
  - by apply resize_spec.
  - by eapply assign_spec.
  - by eapply assign_range_spec.
  - destruct (reserve_spec d l' n Hh) as (d' & ? & ? & _). by exists d'.
  - destruct (shrink_spec d l' Hh) as (d' & ? & ? & _). by exists d'.
  - destruct (clear_spec d l Hh) as (d' & ? & ? & _). by exists d'.
Qed.

Lemma deque_run_refines ops d l l' :
  holds d l -> run_option list_step l ops = Some l' ->
  exists d', run_option deque_step d ops = Some d' /\ holds d' l'.
Proof.
  revert d l. induction ops as [|op ops IH]; intros d l Hh Hr; simpl in *; [simplify_eq; eauto|].
  destruct (list_step l op) as [l1|] eqn:E; [|done]. simpl in Hr.
  destruct (deque_step_refines d l l1 op Hh E) as (d1 & -> & H1). simpl. by apply (IH d1 l1).
Qed.

(** ** Properties *)

(** Every sequence of operations that is allowed on a list is defined on the
    circular deque (no slot is read or destroyed while raw, or constructed while
    live) and leaves the same elements in the same order, seen through
    iteration, indexing, size and emptiness. *)
Lemma circular_deque_refines (ops : list deque_op) (l : list T) :
  run_option list_step [] ops = Some l ->
  exists d, run_option deque_step circular_deque_new ops = Some d /\
    cd_elements d = Some l /\ cd_size d = length l /\ cd_empty d = bool_decide (l = []) /\
    (forall i, i < length l -> cd_at d i = l !! i) /\
    (forall x l', l = x :: l' -> cd_front d = Some x) /\
    (forall x l', l = l' ++ [x] -> cd_back d = Some x).
Proof.
  intros Hr. destruct (deque_run_refines ops circular_deque_new [] l holds_new Hr) as (d & E & Hh).
  exists d. split_and!; try done.
  - by apply elements_spec.
  - by apply holds_size.
  - by apply holds_empty.
  - intros i. by apply at_spec.
  - intros x l' ->. by apply pop_front_spec in Hh as [? _].
  - intros x l' ->. by apply pop_back_spec in Hh as [? _].
Qed.

(** Copying gives an independent deque with the same elements, copy
    assignment replaces the elements, and moving transfers them and leaves the
    source empty. *)
Lemma circular_deque_copy_move (d other : circular_deque) (l lo : list T) :
  holds d l -> holds other lo ->
  (exists c, cd_copy other = Some c /\ holds c lo) /\
  (exists c, cd_copy_assign d other = Some c /\ holds c lo) /\
  (exists c o, cd_move_assign d other = Some (c, o) /\ holds c lo /\ holds o []) /\
  holds (fst (cd_move other)) lo /\ holds (snd (cd_move other)) [].
Proof.
  intros Hd Ho. pose proof (elements_spec other lo Ho) as He.
  unfold cd_copy, cd_copy_assign, cd_move_assign, cd_move. rewrite He. simpl. split_and!.
  - by apply (assign_range_spec _ []), holds_fresh.
  - destruct (reserve_spec d l (cd_size other) Hd) as (d1 & -> & H1 & _). simpl.
    by apply (assign_range_spec d1 l).
  - destruct (ClearRetainCapacity_spec d l Hd) as (d1 & -> & _). simpl.
    eexists _, _. split; [done|]. split; [by destruct other | apply holds_new].
  - by destruct other.
  - apply holds_new.
Qed.

(** Iterators: from the slot of position [k], incrementing, decrementing and
    adding an offset lead to the slots of the positions [k+1], [k-1] and
    [k+delta], up to one past the end, and comparison is comparison of positions. *)
Lemma circular_deque_iterators (d : circular_deque) (l : list T) (k m : nat) :
  holds d l -> 0 < cap d -> k <= length l -> m <= length l ->
  (k < length l -> iter_Increment d (slot_of d k) = slot_of d (k + 1)) /\
  (0 < k -> iter_Decrement d (slot_of d k) = slot_of d (k - 1)) /\
  iter_Add d (slot_of d k) (Z.of_nat m - Z.of_nat k) = slot_of d m /\
  iter_ltb d (slot_of d k) (slot_of d m) = (k <? m) /\
  slot_of d (length l) = end_ d.
Proof.
  intros Hh Hc Hk Hm. destruct (holds_cases d l Hh) as [(Hr & Hb & He)|(? & -> & ?)]; [|lia].
  assert (forall i, i <= length l -> OffsetFromBegin d (slot_of d i) = i) as Hoff
    by (intros; unfold OffsetFromBegin, slot_of; ncase; lia).
  unfold iter_Increment, iter_Decrement, iter_ltb, iter_Add. rewrite !Hoff by done. split_and!.
  - intros. unfold slot_of. ncase; lia.
  - intros. unfold slot_of. ncase; lia.
  - replace (Z.of_nat k + (Z.of_nat m - Z.of_nat k) + Z.of_nat (begin_ d))%Z
      with (Z.of_nat (begin_ d + m)) by lia.
    rewrite <- Nat2Z.inj_mod, Nat2Z.id. unfold slot_of. ncase; [apply Nat.mod_small; lia|].
    replace (begin_ d + m) with (begin_ d + m - cap d + 1 * cap d) at 1 by lia.
    rewrite Nat.Div0.mod_add. apply Nat.mod_small. lia.
  - done.
  - done.
Qed.

(** [rbegin()] is built from [begin()]: dereferencing it on any deque that
    has a buffer reads a raw slot, while the last element is the one before
    [rend()]'s base. *)
Lemma circular_deque_rbegin (d : circular_deque) (l : list T) (x : T) :
  holds d (l ++ [x]) ->
  reverse_deref d (cd_rbegin d) = None /\ reverse_deref d (cd_rend d) = Some x.
Proof.
  intros Hh. destruct (holds_cases d _ Hh) as [(Hr & Hb & He)|(? & ? & ?)]; [|by destruct l].
  split; [|by apply pop_back_spec in Hh as [? _]].
  unfold reverse_deref, cd_rbegin, slot_read, iter_Decrement.
  set (b := if begin_ d =? 0 then cap d - 1 else begin_ d - 1).
  assert (b < cap d /\ OffsetFromBegin d b = cap d - 1) as [H1 H2]
    by (unfold b, OffsetFromBegin; ncase; lia).
  rewrite (h_slots d _ Hh), H2 by done. by rewrite lookup_ge_None_2 by lia.
Qed.

End CircularDeque.

Lemma circular_deque_refines_witness :
  exists d, run_option deque_step circular_deque_new
      [DPushBack 1; DPushBack 2; DPushFront 0; DPopFront; DPushBack 3; DPushBack 4; DPushBack 5]
      = Some d /\ cd_elements d = Some [1; 2; 3; 4; 5].
Proof.
  destruct (circular_deque_refines (T := nat)
    [DPushBack 1; DPushBack 2; DPushFront 0; DPopFront; DPushBack 3; DPushBack 4; DPushBack 5]
    [1; 2; 3; 4; 5] eq_refl) as (d & H1 & H2 & _).
  exists d. split; assumption.
Defined.

(** A deque whose elements wrap around the end of the buffer. *)
Definition wrapped_deque : @circular_deque nat :=
  MkCircularDeque [Some 2; None; None; Some 1] 3 1.

Lemma wrapped_deque_holds : holds wrapped_deque ([1] ++ [2]).
Proof.
  split; unfold cap, VectorBuffer_capacity; simpl; [left; lia|left; lia|done|].
  intros j Hj. assert (j = 0 \/ j = 1 \/ j = 2 \/ j = 3) as [->|[->|[->| ->]]] by lia; reflexivity.
Qed.

Lemma circular_deque_copy_move_witness :
  exists c, cd_copy wrapped_deque = Some c /\ holds c [1; 2].
Proof.
  exact (proj1 (circular_deque_copy_move circular_deque_new wrapped_deque [] [1; 2]
                  holds_new wrapped_deque_holds)).
Defined.

Lemma circular_deque_iterators_witness :
  iter_Increment wrapped_deque (slot_of wrapped_deque 0) = slot_of wrapped_deque 1.
Proof.
  refine (proj1 (circular_deque_iterators wrapped_deque [1; 2] 0 1 wrapped_deque_holds _ _ _) _);
    unfold cap, VectorBuffer_capacity; simpl; lia.
Defined.

Lemma circular_deque_rbegin_witness :
  reverse_deref wrapped_deque (cd_rbegin wrapped_deque) = None /\
  reverse_deref wrapped_deque (cd_rend wrapped_deque) = Some 2.
Proof. exact (circular_deque_rbegin wrapped_deque [1] 2 wrapped_deque_holds). Defined.
