(* ===== verification/FlatTree.v ===== *)
(** * base/containers/flat_tree.h, flat_map.h, flat_set.h: sorted vectors

    [flat_tree<Key, Value, GetKeyFromValue, KeyCompare>] keeps its values in a
    [std::vector] sorted by key.  The vector is a list and an iterator its index
    (the length for [end()]).  The algorithms of the standard library it calls
    are defined first: [lower_bound], [stable_sort], [unique], [inplace_merge],
    [remove_if], each as the standard specifies it on its precondition. *)

From S2P Require Import Prelude StdSet.
#[local] Open Scope nat_scope.

Inductive FlatContainerDupes := KEEP_FIRST_OF_DUPES | KEEP_LAST_OF_DUPES.

(** ** Standard algorithms over a strict order [lt] *)

Section StdAlgorithms.
Context {V : Type}.

(** The first position at which [p] is false ([std::partition_point]). *)
Fixpoint partition_point (p : V -> bool) (l : list V) : nat :=
  match l with [] => 0 | x :: l => if p x then S (partition_point p l) else 0 end.

Context (lt : V -> V -> bool).

Fixpoint stable_insert (x : V) (l : list V) : list V :=
  match l with [] => [x] | y :: l' => if lt y x then y :: stable_insert x l' else x :: l end.
Definition stable_sort (l : list V) : list V := foldr stable_insert [] l.

(** [std::inplace_merge]: of equivalent elements those of the first range come
    first. *)
Fixpoint merge_ranges (l k : list V) {struct l} : list V :=
  let fix go k :=
    match l, k with
    | [], _ => k
    | _, [] => l
    | x :: l', y :: k' => if lt y x then y :: go k' else x :: merge_ranges l' k
    end in go k.

(** [std::unique] under [eqv]: keeps the first element of every run. *)
Fixpoint unique_from (eqv : V -> V -> bool) (kept : V) (l : list V) : list V :=
  match l with
  | [] => [kept]
  | x :: l => if eqv kept x then unique_from eqv kept l else kept :: unique_from eqv x l
  end.
Definition unique (eqv : V -> V -> bool) (l : list V) : list V :=
  match l with [] => [] | x :: l => unique_from eqv x l end.

(** [std::adjacent_find]. *)
Fixpoint adjacent_find (eqv : V -> V -> bool) (l : list V) : option nat :=
  match l with
  | x :: (y :: _) as l' => if eqv x y then Some 0 else i ← adjacent_find eqv l'; Some (S i)
  | _ => None
  end.

(** [LastUnique] of flat_tree.h, in place: [n] elements after [first] are left,
    [repl] is where the next kept element goes.  Gives the vector and the end of
    the kept part. *)
Fixpoint LastUnique_loop (eqv : V -> V -> bool) (n : nat) (a : list V) (repl first : nat)
    : option (list V * nat) :=
  x ← a !! first;
  match n with
  | 0 => Some (<[repl := x]> a, S repl)
  | S n =>
      y ← a !! S first;
      if negb (eqv x y) then LastUnique_loop eqv n (<[repl := x]> a) (S repl) (S first)
      else LastUnique_loop eqv n a repl (S first)
  end.
Definition LastUnique (eqv : V -> V -> bool) (a : list V) : option (list V * nat) :=
  match adjacent_find eqv a with
  | None => Some (a, length a)
  | Some replacable =>
      let first := S replacable in
      if first =? length a then Some (a, replacable)
      else LastUnique_loop eqv (length a - S first) a replacable first
  end.

End StdAlgorithms.

(** ** flat_tree *)

Section FlatTree.
Context {Key Value : Type} (GetKeyFromValue : Value -> Key) (KeyCompare : Key -> Key -> bool).

(** The state: [impl_.body_]. *)
#[local] Abbreviation flat_tree := (list Value).

Definition value_comp (left right : Value) : bool :=
  KeyCompare (GetKeyFromValue left) (GetKeyFromValue right).

Definition body_insert (t : flat_tree) (pos : nat) (v : Value) : flat_tree :=
  take pos t ++ v :: drop pos t.

Definition ft_size (t : flat_tree) : nat := length t.
Definition ft_empty (t : flat_tree) : bool := match t with [] => true | _ => false end.
Definition ft_clear (t : flat_tree) : flat_tree := [].

Definition ft_lower_bound (t : flat_tree) (key : Key) : nat :=
  partition_point (fun v => KeyCompare (GetKeyFromValue v) key) t.
Definition ft_upper_bound (t : flat_tree) (key : Key) : nat :=
  partition_point (fun v => negb (KeyCompare key (GetKeyFromValue v))) t.

(** [position == end() || comp(key, *position)]: nothing equivalent there. *)
Definition absent_at (t : flat_tree) (pos : nat) (key : Key) : bool :=
  match t !! pos with None => true | Some v => KeyCompare key (GetKeyFromValue v) end.

Definition ft_equal_range (t : flat_tree) (key : Key) : nat * nat :=
  let lower := ft_lower_bound t key in
  if absent_at t lower key then (lower, lower) else (lower, S lower).

Definition ft_count (t : flat_tree) (key : Key) : nat :=
  let '(first, last) := ft_equal_range t key in last - first.

Definition ft_find (t : flat_tree) (key : Key) : nat :=
  let '(first, last) := ft_equal_range t key in if first =? last then length t else first.

Definition ft_insert (t : flat_tree) (val : Value) : flat_tree * nat * bool :=
  let position := ft_lower_bound t (GetKeyFromValue val) in
  if absent_at t position (GetKeyFromValue val) then (body_insert t position val, position, true)
  else (t, position, false).

Definition ft_insert_hint (t : flat_tree) (position_hint : nat) (val : Value) : flat_tree * nat :=
  if absent_at t position_hint (GetKeyFromValue val)
     && ((position_hint =? 0) ||
         match t !! (position_hint - 1) with Some p => value_comp p val | None => false end)
  then (body_insert t position_hint val, position_hint)
  else let '(t, pos, _) := ft_insert t val in (t, pos).

Definition ft_insert_or_assign (t : flat_tree) (val : Value) : flat_tree * nat * bool :=
  let position := ft_lower_bound t (GetKeyFromValue val) in
  if absent_at t position (GetKeyFromValue val) then (body_insert t position val, position, true)
  else (<[position := val]> t, position, false).

(** The two appending variants search only the first [middle] elements. *)
Definition ft_append_or_assign (t : flat_tree) (middle : nat) (val : Value) : flat_tree * nat * bool :=
  let position := ft_lower_bound (take middle t) (GetKeyFromValue val) in
  if absent_at (take middle t) position (GetKeyFromValue val) then (t ++ [val], position, true)
  else (<[position := val]> t, position, false).

Definition ft_append_unique (t : flat_tree) (middle : nat) (val : Value) : flat_tree * nat * bool :=
  let position := ft_lower_bound (take middle t) (GetKeyFromValue val) in
  if absent_at (take middle t) position (GetKeyFromValue val) then (t ++ [val], position, true)
  else (t, position, false).

(** [sort_and_unique(begin() + first, end(), dupes)]. *)
Definition ft_sort_and_unique (t : flat_tree) (first : nat) (dupes : FlatContainerDupes)
    : option flat_tree :=
  let range := stable_sort value_comp (drop first t) in
  let comparator lhs rhs := negb (value_comp lhs rhs) in
  match dupes with
  | KEEP_FIRST_OF_DUPES => Some (take first t ++ unique comparator range)
  | KEEP_LAST_OF_DUPES =>
      r ← LastUnique comparator range; Some (take first t ++ take (snd r) (fst r))
  end.

Definition flat_tree_of (items : list Value) (dupe_handling : FlatContainerDupes) : option flat_tree :=
  ft_sort_and_unique items 0 dupe_handling.

(** The loop of the batch insertion; [append] is one of the two variants. *)
Fixpoint batch_loop (append : flat_tree -> nat -> Value -> flat_tree * nat * bool)
    (middle : nat) (vals : list Value) (t : flat_tree) (pos_first_new : nat) : flat_tree * nat :=
  match vals with
  | [] => (t, pos_first_new)
  | v :: vals =>
      let '(t, pos, appended) := append t middle v in
      batch_loop append middle vals t (if (appended : bool) then min pos_first_new pos else pos_first_new)
  end.

(** [insert(first, last, dupes)]; [multipass] tells whether the iterators are
    forward iterators, for which a range of one element is inserted directly. *)
Definition ft_insert_range (t : flat_tree) (vals : list Value) (dupes : FlatContainerDupes)
    (multipass : bool) : option flat_tree :=
  match vals with
  | [] => Some t
  | v :: rest =>
      let overwrite_existing := match dupes with KEEP_LAST_OF_DUPES => true | _ => false end in
      if multipass && (match rest with [] => true | _ => false end) then
        Some (if overwrite_existing then (ft_insert_or_assign t v).1.1
              else fst (ft_insert_hint t (length t) v))
      else
        let middle := length t in
        let '(t, pos_first_new) :=
          batch_loop (if overwrite_existing then ft_append_or_assign else ft_append_unique)
            middle vals t middle in
        t ← ft_sort_and_unique t middle dupes;
        Some (take pos_first_new t ++
              merge_ranges value_comp (drop pos_first_new (take middle t)) (drop middle t))
  end.

Definition ft_erase (t : flat_tree) (position : nat) : flat_tree := take position t ++ drop (S position) t.
Definition ft_erase_range (t : flat_tree) (first last : nat) : flat_tree := take first t ++ drop last t.
Definition ft_erase_key (t : flat_tree) (key : Key) : flat_tree * nat :=
  let '(first, last) := ft_equal_range t key in (ft_erase_range t first last, last - first).

(** [EraseIf]: [erase(remove_if(begin, end, pred), end)]. *)
Definition EraseIf (t : flat_tree) (pred : Value -> bool) : flat_tree :=
  List.filter (fun v => negb (pred v)) t.

Definition ft_unsafe_emplace (t : flat_tree) (position : nat) (v : Value) : flat_tree :=
  body_insert t position v.

Context `{!StrictOrderBool KeyCompare}.

(** ** Invariant and abstraction *)

Definition ft_ok (t : flat_tree) : Prop := StronglySorted (fun a b => value_comp a b = true) t.

Definition keq (a b : Key) : bool := negb (KeyCompare a b) && negb (KeyCompare b a).

(** The values with key [k], in order; a tree holds at most one. *)
Definition occurrences (l : list Value) (k : Key) : list Value :=
  List.filter (fun v => keq (GetKeyFromValue v) k) l.
Definition ft_lookup (t : flat_tree) (k : Key) : option Value := head (occurrences t k).

Lemma keq_spec a b : keq a b = true <-> a = b.
Proof.
  unfold keq. rewrite andb_true_iff, !negb_true_iff. split; [intros [? ?]; by apply ltb_total|].
  intros ->. by rewrite ltb_irrefl.
Qed.

Lemma keq_refl a : keq a a = true.
Proof. by apply keq_spec. Qed.

Lemma keq_lt a b : KeyCompare a b = true -> keq a b = false /\ keq b a = false.
Proof. intros H. unfold keq. rewrite H. split; [done|apply andb_false_r]. Qed.

Lemma occurrences_app l k key : occurrences (l ++ k) key = occurrences l key ++ occurrences k key.
Proof. apply List.filter_app. Qed.

Lemma occurrences_none l key :
  Forall (fun v => keq (GetKeyFromValue v) key = false) l -> occurrences l key = [].
Proof. induction 1 as [|v l Hv _ IH]; simpl; [done|]. by rewrite Hv. Qed.

(** ** The partition point of a sorted tree *)

Lemma partition_point_app (p : Value -> bool) l k :
  Forall (fun v => p v = true) l -> (forall v, head k = Some v -> p v = false) ->
  partition_point p (l ++ k) = length l.
Proof.
  induction 1 as [|v l Hv _ IH]; simpl; intros Hk.
  - destruct k as [|v k]; [done|]. simpl. by rewrite (Hk v).
  - rewrite Hv. by rewrite IH.
Qed.

Lemma ft_ok_app l k :
  ft_ok (l ++ k) <-> ft_ok l /\ ft_ok k /\
    Forall (fun a => Forall (fun b => value_comp a b = true) k) l.
Proof.
  unfold ft_ok. induction l as [|a l IH]; simpl.
  - split; [intros; split_and!; try done; constructor|tauto].
  - split.
    + intros [H1 H2]%StronglySorted_inv. apply IH in H1 as (? & ? & ?). apply Forall_app in H2 as [? ?].
      split_and!; try done; by constructor.
    + intros ([? ?]%StronglySorted_inv & ? & [? ?]%Forall_cons_1). constructor; [by apply IH|].
      by apply Forall_app.
Qed.

(** A sorted tree splits at the lower bound of a key: the smaller values, the
    value with the key if there is one, the greater values. *)
Lemma ft_split t key :
  ft_ok t ->
  exists l m r, t = l ++ m ++ r /\
    Forall (fun v => KeyCompare (GetKeyFromValue v) key = true) l /\
    Forall (fun v => KeyCompare key (GetKeyFromValue v) = true) r /\
    (m = [] \/ exists v, m = [v] /\ GetKeyFromValue v = key).
Proof.
  unfold ft_ok. induction t as [|v t IH]; intros Hs; [by exists [], [], []; split_and!; auto|].
  apply StronglySorted_inv in Hs as [Hs Hv]. destruct (KeyCompare (GetKeyFromValue v) key) eqn:E1.
  - destruct (IH Hs) as (l & m & r & -> & Hl & Hr & Hm). exists (v :: l), m, r.
    split_and!; try done. by constructor.
  - destruct (KeyCompare key (GetKeyFromValue v)) eqn:E2.
    + exists [], [], (v :: t). split_and!; try done; [|by left]. constructor; [done|].
      eapply Forall_impl; [exact Hv|]. intros w Hw. by eapply ltb_trans.
    + assert (GetKeyFromValue v = key) as <- by (by apply ltb_total).
      exists [], [v], t. split_and!; try done. right. by exists v.
Qed.

Lemma ft_lower_bound_split l m r key :
  Forall (fun v => KeyCompare (GetKeyFromValue v) key = true) l ->
  Forall (fun v => KeyCompare key (GetKeyFromValue v) = true) r ->
  (m = [] \/ exists v, m = [v] /\ GetKeyFromValue v = key) ->
  ft_lower_bound (l ++ m ++ r) key = length l /\
  absent_at (l ++ m ++ r) (length l) key = match m with [] => true | _ => false end /\
  ft_upper_bound (l ++ m ++ r) key = length l + length m.
Proof.
  intros Hl Hr Hm. unfold ft_lower_bound, ft_upper_bound, absent_at. split_and!.
  - apply partition_point_app; [done|]. intros v Hv. destruct Hm as [->|(w & -> & <-)].
    + destruct r as [|x r]; simplify_eq/=. apply Forall_cons in Hr as [Hx _].
      by apply (ltb_asym KeyCompare).
    + simplify_eq/=. apply ltb_irrefl.
  - rewrite lookup_app_r, Nat.sub_diag by lia. destruct Hm as [->|(w & -> & <-)]; simpl.
    + destruct r as [|x r]; [done|]. by apply Forall_cons in Hr as [Hx _].
    + apply ltb_irrefl.
  - rewrite app_assoc, <- length_app. apply partition_point_app.
    + apply Forall_app. split.
      * eapply Forall_impl; [exact Hl|]. intros v Hv. simpl in Hv. by rewrite (ltb_asym KeyCompare).
      * destruct Hm as [->|(w & -> & <-)]; [done|]. constructor; [|done]. by rewrite ltb_irrefl.
    + intros v Hv. destruct r as [|x r]; simplify_eq/=. apply Forall_cons in Hr as [-> _]. done.
Qed.

(** The occurrences of a key in a split tree. *)
Lemma occurrences_split l m r key k :
  Forall (fun v => KeyCompare (GetKeyFromValue v) key = true) l ->
  Forall (fun v => KeyCompare key (GetKeyFromValue v) = true) r ->
  (forall v, v ∈ m -> GetKeyFromValue v = key) ->
  occurrences (l ++ m ++ r) k = if keq key k then m else occurrences (l ++ r) k.
Proof.
  intros Hl Hr Hm. rewrite !occurrences_app. destruct (keq key k) eqn:Ek.
  - apply keq_spec in Ek as <-. rewrite (occurrences_none l), (occurrences_none r).
    + rewrite app_nil_r. simpl. unfold occurrences. induction m as [|v m IH]; simpl; [done|].
      rewrite (Hm v) by constructor. rewrite keq_refl. f_equal. apply IH. intros w Hw. apply Hm.
      by constructor.
    + eapply Forall_impl; [eassumption|]. intros v Hv. by destruct (keq_lt _ _ Hv).
    + eapply Forall_impl; [eassumption|]. intros v Hv. by destruct (keq_lt _ _ Hv).
  - rewrite (occurrences_none m); [done|]. apply Forall_forall. intros v Hv. by rewrite (Hm v Hv).
Qed.

(** Replacing the middle of a split tree. *)
Lemma ft_ok_replace l m r key m' :
  ft_ok (l ++ m ++ r) ->
  Forall (fun v => KeyCompare (GetKeyFromValue v) key = true) l ->
  Forall (fun v => KeyCompare key (GetKeyFromValue v) = true) r ->
  (m' = [] \/ exists v, m' = [v] /\ GetKeyFromValue v = key) -> ft_ok (l ++ m' ++ r).
Proof.
  intros (Hol & (_ & Hor & _)%ft_ok_app & Hlr)%ft_ok_app Hl Hr Hm'.
  assert (Forall (fun a => Forall (fun b => value_comp a b = true) r) l) as Hlr'.
  { eapply Forall_impl; [exact Hlr|]. intros a Ha. by apply Forall_app in Ha as [_ ?]. }
  destruct Hm' as [->|(v & -> & Hv)]; [by apply ft_ok_app|]. subst key.
  apply ft_ok_app. split_and!; [done| |].
  - simpl. constructor; [done|]. done.
  - rewrite Forall_forall in Hl, Hlr' |- *. intros a Ha. simpl. constructor; [by apply Hl|by apply Hlr'].
Qed.

Definition update_lookup (f : Key -> option Value) (k : Key) (o : option Value) (k' : Key)
    : option Value := if keq k k' then o else f k'.

Lemma ft_lookup_split l m r key :
  Forall (fun v => KeyCompare (GetKeyFromValue v) key = true) l ->
  Forall (fun v => KeyCompare key (GetKeyFromValue v) = true) r ->
  (m = [] \/ exists v, m = [v] /\ GetKeyFromValue v = key) ->
  ft_lookup (l ++ m ++ r) key = head m /\
  forall m' k, (forall v, v ∈ m' -> GetKeyFromValue v = key) ->
    ft_lookup (l ++ m' ++ r) k = update_lookup (ft_lookup (l ++ m ++ r)) key (head m') k.
Proof.
  intros Hl Hr Hm. assert (forall v, v ∈ m -> GetKeyFromValue v = key) as Hm'.
  { destruct Hm as [->|(v & -> & Hv)]; intros w Hw; [by apply elem_of_nil in Hw|].
    by apply list_elem_of_singleton in Hw as ->. }
  unfold ft_lookup, update_lookup. split.
  - rewrite (occurrences_split l m r key key) by done. by rewrite keq_refl.
  - intros m'' k Hm''. rewrite (occurrences_split l m'' r key k), (occurrences_split l m r key k) by done.
    by destruct (keq key k).
Qed.

Lemma body_insert_at l r v : body_insert (l ++ r) (length l) v = l ++ [v] ++ r.
Proof. unfold body_insert. by rewrite take_mid, drop_app_length. Qed.

Lemma mem_single (v : Value) key : GetKeyFromValue v = key -> forall w, w ∈ [v] -> GetKeyFromValue w = key.
Proof. by intros ? w ->%list_elem_of_singleton. Qed.

(** Insertion with either policy for a key that is present. *)
Lemma insert_spec t v :
  ft_ok t ->
  let '(t', pos, b) := ft_insert t v in
  ft_ok t' /\ b = match ft_lookup t (GetKeyFromValue v) with None => true | _ => false end /\
  (exists w, t' !! pos = Some w /\ GetKeyFromValue w = GetKeyFromValue v) /\
  forall k, ft_lookup t' k = update_lookup (ft_lookup t) (GetKeyFromValue v)
    (Some (default v (ft_lookup t (GetKeyFromValue v)))) k.
Proof.
  intros Ht. destruct (ft_split t (GetKeyFromValue v) Ht) as (l & m & r & -> & Hl & Hr & Hm).
  destruct (ft_lower_bound_split l m r _ Hl Hr Hm) as (E1 & E2 & _).
  destruct (ft_lookup_split l m r _ Hl Hr Hm) as [E3 E4].
  unfold ft_insert. rewrite E1, E2, E3. destruct Hm as [->|(w & -> & Hw)].
  - rewrite body_insert_at. simpl. split_and!; try done.
    + apply (ft_ok_replace l [] r (GetKeyFromValue v) [v]); try done. right. by exists v.
    + exists v. by rewrite list_lookup_middle.
    + intros k. exact (E4 [v] k (mem_single v _ eq_refl)).
  - simpl. split_and!; try done.
    + exists w. by rewrite list_lookup_middle.
    + intros k. exact (E4 [w] k (mem_single w _ Hw)).
Qed.

Lemma insert_or_assign_spec t v :
  ft_ok t ->
  let '(t', pos, b) := ft_insert_or_assign t v in
  ft_ok t' /\ b = match ft_lookup t (GetKeyFromValue v) with None => true | _ => false end /\
  forall k, ft_lookup t' k = update_lookup (ft_lookup t) (GetKeyFromValue v) (Some v) k.
Proof.
  intros Ht. destruct (ft_split t (GetKeyFromValue v) Ht) as (l & m & r & -> & Hl & Hr & Hm).
  destruct (ft_lower_bound_split l m r _ Hl Hr Hm) as (E1 & E2 & _).
  destruct (ft_lookup_split l m r _ Hl Hr Hm) as [E3 E4].
  assert (ft_ok (l ++ [v] ++ r)) as Hok.
  { apply (ft_ok_replace l m r (GetKeyFromValue v)); try done. right. by exists v. }
  unfold ft_insert_or_assign. rewrite E1, E2, E3. destruct Hm as [->|(w & -> & Hw)].
  - rewrite body_insert_at. split_and!; try done. intros k. exact (E4 [v] k (mem_single v _ eq_refl)).
  - simpl. rewrite insert_mid. split_and!; try done. intros k.
    exact (E4 [v] k (mem_single v _ eq_refl)).
Qed.

(** A valid hint is the lower bound, so the hint never changes the result. *)
Lemma insert_hint_spec t hint v :
  ft_ok t -> ft_insert_hint t hint v = (ft_insert t v).1.
Proof.
  intros Ht. unfold ft_insert_hint. destruct (_ && _) eqn:E; [|by destruct (ft_insert t v) as [[??]?]].
  destruct (ft_split t (GetKeyFromValue v) Ht) as (l & m & r & -> & Hl & Hr & Hm).
  destruct (ft_lower_bound_split l m r _ Hl Hr Hm) as (E1 & E2 & _).
  apply andb_true_iff in E as [Ea Eb]. unfold absent_at in Ea.
  assert (forall i w, (l ++ m ++ r) !! i = Some w ->
    (i < length l /\ KeyCompare (GetKeyFromValue w) (GetKeyFromValue v) = true /\
       KeyCompare (GetKeyFromValue v) (GetKeyFromValue w) = false) \/
    (i = length l /\ m = [w] /\ GetKeyFromValue w = GetKeyFromValue v) \/
    (length l + length m <= i /\ KeyCompare (GetKeyFromValue w) (GetKeyFromValue v) = false)) as Hpos.
  { intros i w Hi. rewrite Forall_forall in Hl, Hr. apply lookup_app_Some in Hi as [Hi|[Hlen Hi]].
    - left. apply lookup_lt_Some in Hi as Hlt. apply list_elem_of_lookup_2 in Hi.
      specialize (Hl w Hi). split_and!; try done. by apply (ltb_asym KeyCompare).
    - apply lookup_app_Some in Hi as [Hi|[Hlen' Hi]].
      + right; left. destruct Hm as [->|(x & -> & Hx)]; [done|].
        destruct (i - length l) eqn:En; simpl in Hi; [|done]. simplify_eq. split_and!; try done. lia.
      + right; right. apply list_elem_of_lookup_2 in Hi. specialize (Hr w Hi).
        split; [lia|]. by apply (ltb_asym KeyCompare). }
  assert (m = [] /\ hint = length l) as [-> ->].
  { assert (length l <= hint) as Hge.
    { apply Nat.nlt_ge. intros Hlt. destruct (lookup_lt_is_Some_2 (l ++ m ++ r) hint) as [w Hw];
        [rewrite length_app; lia|]. rewrite Hw in Ea.
      destruct (Hpos hint w Hw) as [(_ & _ & ?)|[(? & _)|(? & _)]]; [congruence|lia..]. }
    destruct (Nat.eqb_spec hint 0) as [->|Hne]; simpl in Eb.
    - split; [|lia]. destruct Hm as [->|(w & -> & Hw)]; [done|]. destruct l; [|simpl in Hge; lia].
      simpl in Ea. rewrite Hw, ltb_irrefl in Ea. done.
    - destruct ((l ++ m ++ r) !! (hint - 1)) as [p|] eqn:Ep; [|done]. unfold value_comp in Eb.
      destruct (Hpos _ p Ep) as [(Hlt & _ & _)|[(_ & _ & Heq)|(_ & Hf)]].
      + assert (hint = length l) as -> by lia. split; [|done].
        destruct Hm as [->|(w & -> & Hw)]; [done|]. rewrite lookup_app_r, Nat.sub_diag in Ea by lia.
        simpl in Ea. rewrite Hw, ltb_irrefl in Ea. done.
      + rewrite Heq, ltb_irrefl in Eb. done.
      + congruence. }
  unfold ft_insert. rewrite E1, E2. done.
Qed.

Lemma erase_key_spec t key :
  ft_ok t ->
  let '(t', n) := ft_erase_key t key in
  ft_ok t' /\ n = match ft_lookup t key with None => 0 | _ => 1 end /\
  forall k, ft_lookup t' k = update_lookup (ft_lookup t) key None k.
Proof.
  intros Ht. destruct (ft_split t key Ht) as (l & m & r & -> & Hl & Hr & Hm).
  destruct (ft_lower_bound_split l m r _ Hl Hr Hm) as (E1 & E2 & _).
  destruct (ft_lookup_split l m r _ Hl Hr Hm) as [E3 E4].
  unfold ft_erase_key, ft_equal_range, ft_erase_range. rewrite E1, E2, E3.
  assert (ft_ok (l ++ [] ++ r)) as Hok by (eapply ft_ok_replace; eauto).
  assert (forall v : Value, v ∈ [] -> GetKeyFromValue v = key) as Hnil
    by (intros v Hv; by apply elem_of_nil in Hv).
  destruct Hm as [->|(w & -> & Hw)].
  - rewrite take_mid, drop_app_length. split_and!; try done; [by rewrite Nat.sub_diag|]. intros k. exact (E4 [] k Hnil).
  - rewrite take_mid. change (l ++ [w] ++ r) with (l ++ w :: r). rewrite drop_mid.
    split_and!; try done; [simpl; lia|]. intros k. exact (E4 [] k Hnil).
Qed.

Lemma find_spec t key :
  ft_ok t ->
  ft_count t key = match ft_lookup t key with None => 0 | _ => 1 end /\
  t !! ft_find t key = ft_lookup t key /\
  (ft_lookup t key = None -> ft_find t key = length t).
Proof.
  intros Ht. destruct (ft_split t key Ht) as (l & m & r & -> & Hl & Hr & Hm).
  destruct (ft_lower_bound_split l m r _ Hl Hr Hm) as (E1 & E2 & _).
  destruct (ft_lookup_split l m r _ Hl Hr Hm) as [E3 _].
  unfold ft_count, ft_find, ft_equal_range. rewrite E1, E2, E3.
  destruct Hm as [->|(w & -> & Hw)]; simpl.
  - rewrite Nat.eqb_refl, Nat.sub_diag. split_and!; try done. by apply lookup_ge_None_2.
  - replace (length l =? S (length l)) with false by (symmetry; apply Nat.eqb_neq; lia).
    split_and!; [lia| |done]. by rewrite list_lookup_middle.
Qed.

(** Two sorted trees with the same lookups are equal. *)
Lemma ft_ext t t' : ft_ok t -> ft_ok t' -> (forall k, ft_lookup t k = ft_lookup t' k) -> t = t'.
Proof.
  unfold ft_ok. revert t'. induction t as [|v t IH]; intros t' Ht Ht' Heq.
  - destruct t' as [|v' t']; [done|]. specialize (Heq (GetKeyFromValue v')).
    unfold ft_lookup in Heq. simpl in Heq. by rewrite keq_refl in Heq.
  - destruct t' as [|v' t'].
    { specialize (Heq (GetKeyFromValue v)). unfold ft_lookup in Heq. simpl in Heq.
      by rewrite keq_refl in Heq. }
    apply StronglySorted_inv in Ht as [Ht Hv], Ht' as [Ht' Hv'].
    assert (forall (x : Value) l k, Forall (fun b => value_comp x b = true) l ->
      keq (GetKeyFromValue x) k = true -> occurrences l k = []) as Hocc.
    { intros x l k Hx Hk. apply occurrences_none. eapply Forall_impl; [exact Hx|].
      intros w Hw. apply keq_spec in Hk as <-. by destruct (keq_lt _ _ Hw). }
    assert (v = v') as <-.
    { pose proof (Heq (GetKeyFromValue v)) as H1. pose proof (Heq (GetKeyFromValue v')) as H2.
      unfold ft_lookup in H1, H2. simpl in H1, H2. rewrite !keq_refl in H1, H2. simpl in H1, H2.
      destruct (keq (GetKeyFromValue v') (GetKeyFromValue v)) eqn:Ek; [by simplify_eq/=|].
      assert (forall (x : Value) k l, head (occurrences l k) = Some x -> x ∈ l /\ GetKeyFromValue x = k)
        as Hin.
      { intros x k l Hx. destruct (occurrences l k) as [|y o] eqn:Eo; simplify_eq/=.
        assert (x ∈ occurrences l k) as Hx by (rewrite Eo; constructor).
        apply list_elem_of_In, filter_In in Hx as [Hx Hk]. apply keq_spec in Hk.
        by apply list_elem_of_In in Hx. }
      symmetry in H1. apply Hin in H1 as [H1 _].
      assert (keq (GetKeyFromValue v) (GetKeyFromValue v') = false) as Ek'
        by (unfold keq in *; by rewrite andb_comm).
      rewrite Ek' in H2. apply Hin in H2 as [H2 _]. rewrite Forall_forall in Hv, Hv'.
      specialize (Hv' v H1). specialize (Hv v' H2). unfold value_comp in *.
      apply (ltb_asym KeyCompare) in Hv. congruence. }
    f_equal. apply IH; try done. intros k. specialize (Heq k). unfold ft_lookup in *. simpl in Heq.
    destruct (keq (GetKeyFromValue v) k) eqn:Ek; [|done]. by rewrite !(Hocc v _ k).
Qed.

(** ** Sorting and removing duplicates *)

Definition sorted_le (l : list Value) : Prop := StronglySorted (fun a b => value_comp b a = false) l.

Lemma value_comp_le_trans a b c : value_comp a b = true -> value_comp c b = false -> value_comp a c = true.
Proof.
  unfold value_comp. intros Hab Hcb. destruct (KeyCompare (GetKeyFromValue b) (GetKeyFromValue c)) eqn:E.
  - by apply (ltb_trans _ (GetKeyFromValue b)).
  - by rewrite (ltb_total (GetKeyFromValue c) (GetKeyFromValue b)).
Qed.

Lemma stable_insert_Forall (P : Value -> Prop) x l :
  P x -> Forall P l -> Forall P (stable_insert value_comp x l).
Proof.
  intros Hx. induction 1 as [|y l Hy Hl IH]; simpl; [by constructor|].
  case_if; repeat constructor; done.
Qed.

Lemma stable_insert_spec x l :
  sorted_le l ->
  sorted_le (stable_insert value_comp x l) /\
  forall k, occurrences (stable_insert value_comp x l) k = occurrences (x :: l) k.
Proof.
  unfold sorted_le. induction l as [|y l IH]; intros Hs; simpl.
  { split; [repeat constructor|done]. }
  pose proof Hs as [Hl Hy]%StronglySorted_inv. destruct (value_comp y x) eqn:E.
  - destruct (IH Hl) as [IH1 IH2]. split.
    + constructor; [done|]. apply stable_insert_Forall; [|done]. by apply (ltb_asym KeyCompare).
    + intros k. simpl. rewrite IH2. simpl. unfold value_comp in E. apply keq_lt in E as [E _].
      destruct (keq (GetKeyFromValue y) k) eqn:E1, (keq (GetKeyFromValue x) k) eqn:E2; try done.
      apply keq_spec in E1, E2. rewrite E1, E2, keq_refl in E. done.
  - split; [|done]. constructor; [done|]. constructor; [done|].
    eapply Forall_impl; [exact Hy|]. intros z Hz. simpl in Hz.
    destruct (value_comp z x) eqn:Ez; [|done]. rewrite <- E. symmetry.
    destruct (value_comp y z) eqn:Eyz.
    + unfold value_comp in *. by apply (ltb_trans _ (GetKeyFromValue z)).
    + unfold value_comp in *. by rewrite (ltb_total (GetKeyFromValue y) (GetKeyFromValue z)).
Qed.

Lemma stable_sort_spec l :
  sorted_le (stable_sort value_comp l) /\
  forall k, occurrences (stable_sort value_comp l) k = occurrences l k.
Proof.
  induction l as [|x l [IH1 IH2]]; simpl; [split; [constructor|done]|].
  destruct (stable_insert_spec x _ IH1) as [H1 H2]. split; [done|]. intros k. rewrite H2. simpl.
  by rewrite IH2.
Qed.

(** The test that the code passes to the two unique algorithms. *)
Definition same_key (lhs rhs : Value) : bool := negb (value_comp lhs rhs).

Lemma same_key_spec a b : value_comp b a = false -> same_key a b = true -> GetKeyFromValue a = GetKeyFromValue b.
Proof. unfold same_key. intros H1 H2%negb_true_iff. by apply ltb_total. Qed.

Lemma occurrences_greater v l k :
  Forall (fun b => value_comp v b = true) l -> keq (GetKeyFromValue v) k = true -> occurrences l k = [].
Proof.
  intros Hx Hk. apply occurrences_none. eapply Forall_impl; [exact Hx|].
  intros w Hw. apply keq_spec in Hk as <-. by destruct (keq_lt _ _ Hw).
Qed.

Lemma unique_from_Forall (P : Value -> Prop) x l :
  P x -> Forall P l -> Forall P (unique_from same_key x l).
Proof.
  intros Hx Hl. revert x Hx. induction Hl as [|y l Hy _ IH]; intros x Hx; simpl; [by constructor|].
  case_if; [by apply IH|]. constructor; [done|]. by apply IH.
Qed.

Lemma unique_from_spec x l :
  sorted_le (x :: l) ->
  ft_ok (unique_from same_key x l) /\
  forall k, occurrences (unique_from same_key x l) k = take 1 (occurrences (x :: l) k).
Proof.
  unfold sorted_le, ft_ok. revert x. induction l as [|y l IH]; intros x Hs; simpl.
  { split; [repeat constructor|]. intros k. by destruct (keq (GetKeyFromValue x) k). }
  apply StronglySorted_inv in Hs as [Hs Hx]. apply Forall_cons in Hx as Hx'. destruct Hx' as [Hxy Hxl].
  destruct (same_key x y) eqn:E.
  - pose proof (same_key_spec x y Hxy E) as Hk. pose proof Hs as [Hl _]%StronglySorted_inv.
    destruct (IH x) as [IH1 IH2]; [by constructor|]. split; [done|]. intros k. rewrite IH2. simpl.
    rewrite <- Hk. by destruct (keq (GetKeyFromValue x) k).
  - unfold same_key in E. apply negb_false_iff in E. destruct (IH y Hs) as [IH1 IH2].
    pose proof Hs as [_ Hy]%StronglySorted_inv.
    assert (Forall (fun b => value_comp x b = true) (unique_from same_key y l)) as Hgt.
    { apply unique_from_Forall; [done|]. eapply Forall_impl; [exact Hy|]. intros z Hz.
      by apply (value_comp_le_trans x y z). }
    split; [by constructor|]. intros k. simpl. destruct (keq (GetKeyFromValue x) k) eqn:Ek.
    + simpl. f_equal. by rewrite (occurrences_greater x).
    + by rewrite IH2.
Qed.

(** What [LastUnique] keeps: the last element of every run. *)
Fixpoint last_unique (l : list Value) : list Value :=
  match l with
  | x :: (y :: _) as l' => if same_key x y then last_unique l' else x :: last_unique l'
  | _ => l
  end.

Lemma last_unique_Forall (P : Value -> Prop) l : Forall P l -> Forall P (last_unique l).
Proof.
  induction 1 as [|x l Hx Hl IH]; [constructor|]. destruct l as [|y l]; [by constructor|].
  change (last_unique (x :: y :: l)) with
    (if same_key x y then last_unique (y :: l) else x :: last_unique (y :: l)).
  case_if; [done|by constructor].
Qed.

Definition last_list (l : list Value) : list Value := match last l with Some x => [x] | None => [] end.

Lemma last_unique_spec l :
  sorted_le l ->
  ft_ok (last_unique l) /\ forall k, occurrences (last_unique l) k = last_list (occurrences l k).
Proof.
  unfold sorted_le, ft_ok. induction l as [|x l IH]; intros Hs.
  { split; [constructor|done]. }
  destruct l as [|y l].
  { simpl. split; [repeat constructor|]. intros k. by destruct (keq (GetKeyFromValue x) k). }
  change (last_unique (x :: y :: l)) with
    (if same_key x y then last_unique (y :: l) else x :: last_unique (y :: l)).
  apply StronglySorted_inv in Hs as [Hs Hx]. destruct (IH Hs) as [IH1 IH2].
  apply Forall_cons in Hx as Hx'. destruct Hx' as [Hxy Hxl]. destruct (same_key x y) eqn:E.
  - pose proof (same_key_spec x y Hxy E) as Hk. split; [done|]. intros k. rewrite IH2. simpl.
    rewrite <- Hk. by destruct (keq (GetKeyFromValue x) k).
  - unfold same_key in E. apply negb_false_iff in E. pose proof Hs as [_ Hy]%StronglySorted_inv.
    assert (Forall (fun b => value_comp x b = true) (y :: l)) as Hgt.
    { constructor; [done|]. eapply Forall_impl; [exact Hy|]. intros z Hz.
      by apply (value_comp_le_trans x y z). }
    split; [constructor; [done|by apply last_unique_Forall]|]. intros k.
    change (occurrences (x :: last_unique (y :: l)) k) with
      (if keq (GetKeyFromValue x) k then x :: occurrences (last_unique (y :: l)) k
       else occurrences (last_unique (y :: l)) k).
    change (occurrences (x :: y :: l) k) with
      (if keq (GetKeyFromValue x) k then x :: occurrences (y :: l) k else occurrences (y :: l) k).
    destruct (keq (GetKeyFromValue x) k) eqn:Ek; [|by rewrite IH2].
    rewrite IH2. by rewrite (occurrences_greater x (y :: l) k).
Qed.

(** The in-place algorithm computes it. *)
Lemma LastUnique_loop_spec n a repl first :
  repl <= first -> first + n + 1 = length a ->
  exists a' e, LastUnique_loop same_key n a repl first = Some (a', e) /\
    take e a' = take repl a ++ last_unique (drop first a).
Proof.
  revert a repl first. induction n as [|n IH]; intros a repl first Hr Hn; simpl.
  - destruct (lookup_lt_is_Some_2 a first) as [x Hx]; [lia|]. rewrite Hx. simpl.
    eexists _, _. split; [done|]. rewrite (drop_S a x first) by done.
    rewrite (drop_ge a (S first)) by lia. simpl.
    rewrite (take_S_r _ repl x) by (by apply list_lookup_insert_eq; lia).
    by rewrite take_insert_ge by lia.
  - destruct (lookup_lt_is_Some_2 a first) as [x Hx]; [lia|]. rewrite Hx. simpl.
    destruct (lookup_lt_is_Some_2 a (S first)) as [y Hy]; [lia|]. rewrite Hy. simpl.
    assert (drop first a = x :: y :: drop (S (S first)) a) as Ed
      by (by rewrite (drop_S a x first), (drop_S a y (S first))).
    rewrite Ed. cbn [last_unique]. destruct (same_key x y) eqn:E; simpl.
    + destruct (IH a repl (S first)) as (a' & e & -> & Ht); [lia..|].
      exists a', e. split; [done|]. by rewrite Ht, (drop_S a y (S first)).
    + destruct (IH (<[repl := x]> a) (S repl) (S first)) as (a' & e & -> & Ht);
        [lia|rewrite length_insert; lia|].
      exists a', e. split; [done|]. rewrite Ht, drop_insert_lt by lia.
      rewrite (take_S_r _ repl x) by (by apply list_lookup_insert_eq; lia).
      rewrite take_insert_ge by lia. by rewrite <- app_assoc, (drop_S a y (S first)).
Qed.

Lemma adjacent_find_spec l :
  match adjacent_find same_key l with
  | None => last_unique l = l
  | Some i => S i < length l /\ last_unique l = take i l ++ last_unique (drop (S i) l)
  end.
Proof.
  induction l as [|x l IH]; [done|]. destruct l as [|y l]; [done|].
  change (adjacent_find same_key (x :: y :: l)) with
    (if same_key x y then Some 0 else i ← adjacent_find same_key (y :: l); Some (S i)).
  change (last_unique (x :: y :: l)) with
    (if same_key x y then last_unique (y :: l) else x :: last_unique (y :: l)).
  destruct (same_key x y); [split; [simpl; lia|done]|].
  destruct (adjacent_find same_key (y :: l)) as [i|]; cbn [mbind option_bind].
  - destruct IH as [IH1 IH2]. rewrite IH2. split; [simpl in *; lia|done].
  - by rewrite IH.
Qed.

Lemma LastUnique_spec l :
  exists a e, LastUnique same_key l = Some (a, e) /\ take e a = last_unique l.
Proof.
  unfold LastUnique. pose proof (adjacent_find_spec l) as H.
  destruct (adjacent_find same_key l) as [i|].
  - destruct H as [Hi ->]. destruct (Nat.eqb_spec (S i) (length l)) as [?|_]; [lia|].
    destruct (LastUnique_loop_spec (length l - S (S i)) l i (S i)) as (a & e & -> & Ht); [lia..|].
    by exists a, e.
  - exists l, (length l). split; [done|]. by rewrite take_ge, H.
Qed.

(** Both policies of [sort_and_unique] on the part after [first]. *)
Definition keep (dupes : FlatContainerDupes) (l : list Value) : list Value :=
  match dupes with KEEP_FIRST_OF_DUPES => take 1 l | KEEP_LAST_OF_DUPES => last_list l end.

Lemma sort_and_unique_spec o n dupes :
  exists n', ft_sort_and_unique (o ++ n) (length o) dupes = Some (o ++ n') /\ ft_ok n' /\
    forall k, occurrences n' k = keep dupes (occurrences n k).
Proof.
  unfold ft_sort_and_unique. rewrite drop_app_length, take_mid.
  destruct (stable_sort_spec n) as [Hs Ho]. set (r := stable_sort value_comp n) in *.
  change (fun lhs rhs => negb (value_comp lhs rhs)) with same_key. destruct dupes; simpl.
  - exists (unique same_key r). split; [done|]. setoid_rewrite <- Ho.
    destruct r as [|x r]; [split; [constructor|done]|]. by apply unique_from_spec.
  - destruct (LastUnique_spec r) as (a & e & -> & Ht). simpl. exists (last_unique r).
    rewrite Ht. split; [done|]. setoid_rewrite <- Ho. by apply last_unique_spec.
Qed.

(** ** Merging *)

Lemma merge_ranges_Forall (P : Value -> Prop) l k :
  Forall P l -> Forall P k -> Forall P (merge_ranges value_comp l k).
Proof.
  intros Hl. revert k. induction Hl as [|x l Hx Hl IH]; intros k Hk; [by destruct k|].
  induction Hk as [|y k Hy Hk IHk]; simpl; [by constructor|].
  destruct (value_comp y x); constructor; try done. apply IH. by constructor.
Qed.

Lemma merge_ranges_spec l k :
  ft_ok l -> ft_ok k -> (forall x y, x ∈ l -> y ∈ k -> GetKeyFromValue x <> GetKeyFromValue y) ->
  ft_ok (merge_ranges value_comp l k) /\
  forall key, Permutation (occurrences (merge_ranges value_comp l k) key)
                (occurrences l key ++ occurrences k key).
Proof.
  unfold ft_ok. revert k. induction l as [|x l IH]; intros k Hl Hk Hd; [by destruct k|].
  induction k as [|y k IHk].
  { simpl. split; [done|]. intros key. by rewrite app_nil_r. }
  pose proof Hl as [Hl' Hx]%StronglySorted_inv. pose proof Hk as [Hk' Hy]%StronglySorted_inv.
  change (merge_ranges value_comp (x :: l) (y :: k)) with
    (if value_comp y x then y :: merge_ranges value_comp (x :: l) k
     else x :: merge_ranges value_comp l (y :: k)).
  destruct (value_comp y x) eqn:E.
  - destruct IHk as [H1 H2]; [done|set_solver|]. split.
    + constructor; [done|]. apply merge_ranges_Forall; [|done]. constructor; [done|].
      eapply Forall_impl; [exact Hx|]. intros z Hz. unfold value_comp in *.
      by apply (ltb_trans _ (GetKeyFromValue x)).
    + intros key. cbn [occurrences List.filter]. specialize (H2 key). cbn [occurrences List.filter] in H2.
      fold (occurrences k key) in *. fold (occurrences l key) in *.
      fold (occurrences (merge_ranges value_comp (x :: l) k) key) in *.
      destruct (keq (GetKeyFromValue y) key); [|done]. rewrite H2. apply Permutation_middle.
  - assert (value_comp x y = true) as E'.
    { destruct (value_comp x y) eqn:E2; [done|]. exfalso. apply (Hd x y); [constructor..|].
      by apply ltb_total. }
    destruct (IH (y :: k)) as [H1 H2]; [done..|set_solver|]. split.
    + constructor; [done|]. apply merge_ranges_Forall; [done|]. constructor; [done|].
      eapply Forall_impl; [exact Hy|]. intros z Hz. unfold value_comp in *.
      by apply (ltb_trans _ (GetKeyFromValue y)).
    + intros key. specialize (H2 key).
      change (occurrences (x :: ?m) key) with
        (if keq (GetKeyFromValue x) key then x :: occurrences m key else occurrences m key).
      destruct (keq (GetKeyFromValue x) key); [|done]. simpl. by rewrite H2.
Qed.

(** ** Batch insertion *)

(** The values whose key the tree does not hold. *)
Definition new_values (o : list Value) (vals : list Value) : list Value :=
  List.filter (fun v => match ft_lookup o (GetKeyFromValue v) with None => true | _ => false end) vals.

Lemma absent_lookup o key :
  ft_ok o ->
  absent_at o (ft_lower_bound o key) key = match ft_lookup o key with None => true | _ => false end.
Proof.
  intros Ho. destruct (ft_split o key Ho) as (l & m & r & -> & Hl & Hr & Hm).
  destruct (ft_lower_bound_split l m r _ Hl Hr Hm) as (-> & -> & _).
  destruct (ft_lookup_split l m r _ Hl Hr Hm) as [-> _]. by destruct m.
Qed.

Lemma batch_unique_spec o vals n pos :
  ft_ok o ->
  exists pos', batch_loop ft_append_unique (length o) vals (o ++ n) pos
               = (o ++ n ++ new_values o vals, pos') /\ pos' <= pos /\
    Forall (fun v => pos' <= ft_lower_bound o (GetKeyFromValue v)) (new_values o vals).
Proof.
  intros Ho. revert n pos. induction vals as [|v vals IH]; intros n pos; simpl.
  - exists pos. rewrite app_nil_r. split_and!; try done.
  - unfold ft_append_unique at 1. rewrite take_mid, absent_lookup by done.
    destruct (ft_lookup o (GetKeyFromValue v)).
    + destruct (IH n pos) as (pos' & E & ? & ?). by exists pos'.
    + rewrite <- app_assoc.
      destruct (IH (n ++ [v]) (min pos (ft_lower_bound o (GetKeyFromValue v)))) as (pos' & -> & ? & ?).
      exists pos'. rewrite <- !app_assoc. split_and!; try done; [lia|]. constructor; [lia|done].
Qed.

(** Overwriting the value of a key that is present. *)
Lemma overwrite_spec o v w :
  ft_ok o -> ft_lookup o (GetKeyFromValue v) = Some w ->
  let o' := <[ft_lower_bound o (GetKeyFromValue v) := v]> o in
  ft_ok o' /\ length o' = length o /\ (forall k, ft_lower_bound o' k = ft_lower_bound o k) /\
  (forall k, ft_lookup o' k = update_lookup (ft_lookup o) (GetKeyFromValue v) (Some v) k) /\
  ft_lower_bound o (GetKeyFromValue v) < length o.
Proof.
  intros Ho Hw. destruct (ft_split o (GetKeyFromValue v) Ho) as (l & m & r & -> & Hl & Hr & Hm).
  destruct (ft_lower_bound_split l m r _ Hl Hr Hm) as (-> & _).
  destruct (ft_lookup_split l m r _ Hl Hr Hm) as [E3 E4]. rewrite E3 in Hw.
  destruct Hm as [->|(x & -> & Hx)]; [done|]. change (l ++ [x] ++ r) with (l ++ x :: r) at 1.
  simpl. rewrite insert_mid. split_and!.
  - apply (ft_ok_replace l [x] r (GetKeyFromValue v) [v]); try done. right. by exists v.
  - rewrite !length_app. done.
  - intros k. unfold ft_lower_bound. clear -Hx. induction l as [|y l IH]; simpl; [by rewrite Hx|].
    by rewrite IH.
  - intros k. exact (E4 [v] k (mem_single v _ eq_refl)).
  - rewrite length_app. simpl. lia.
Qed.

(** Lookups after overwriting the present keys with [vals]. *)
Definition overwritten (f : Key -> option Value) (vals : list Value) (k : Key) : option Value :=
  match f k with None => None | Some w => Some (default w (last (occurrences vals k))) end.

Lemma new_values_ext o o' vals :
  (forall k, is_Some (ft_lookup o k) <-> is_Some (ft_lookup o' k)) -> new_values o vals = new_values o' vals.
Proof.
  intros H. unfold new_values. apply filter_ext. intros v. specialize (H (GetKeyFromValue v)).
  unfold is_Some in H. destruct (ft_lookup o _), (ft_lookup o' _); naive_solver.
Qed.

Lemma batch_assign_spec o vals n pos :
  ft_ok o ->
  exists o' pos', batch_loop ft_append_or_assign (length o) vals (o ++ n) pos
                  = (o' ++ n ++ new_values o vals, pos') /\ pos' <= pos /\
    ft_ok o' /\ length o' = length o /\
    (forall k, ft_lower_bound o' k = ft_lower_bound o k) /\
    (forall k, ft_lookup o' k = overwritten (ft_lookup o) vals k) /\
    Forall (fun v => pos' <= ft_lower_bound o' (GetKeyFromValue v)) (new_values o vals).
Proof.
  revert o n pos. induction vals as [|v vals IH]; intros o n pos Ho; simpl.
  - exists o, pos. rewrite app_nil_r. split_and!; try done. intros k. unfold overwritten. simpl.
    by destruct (ft_lookup o k).
  - unfold ft_append_or_assign at 1. rewrite take_mid, absent_lookup by done.
    destruct (ft_lookup o (GetKeyFromValue v)) as [w|] eqn:Ew.
    + destruct (overwrite_spec o v w Ho Ew) as (Ho1 & Hl1 & Hlb & Hlk & Hlt).
      set (o1 := <[ft_lower_bound o (GetKeyFromValue v) := v]> o) in *.
      rewrite insert_app_l by done. fold o1. rewrite <- Hl1.
      assert (new_values o vals = new_values o1 vals) as ->.
      { apply new_values_ext. intros k. rewrite Hlk. unfold update_lookup.
        destruct (keq (GetKeyFromValue v) k) eqn:Ek; [|done]. apply keq_spec in Ek as <-.
        rewrite Ew. split; eauto. }
      destruct (IH o1 n pos Ho1) as (o' & pos' & -> & Hp & Hok & Hlen & Hlb' & Hlk' & Hall).
      exists o', pos'. split_and!; try done; try lia.
      { intros k. by rewrite Hlb', Hlb. }
      intros k. rewrite Hlk'. unfold overwritten.
      rewrite Hlk. unfold update_lookup. simpl. destruct (keq (GetKeyFromValue v) k) eqn:Ek; [|done].
      apply keq_spec in Ek as <-. rewrite Ew. f_equal.
      rewrite last_cons. by destruct (last (occurrences vals (GetKeyFromValue v))).
    + rewrite <- app_assoc.
      destruct (IH o (n ++ [v]) (min pos (ft_lower_bound o (GetKeyFromValue v))) Ho)
        as (o' & pos' & -> & Hp & Hok & Hlen & Hlb & Hlk & Hall).
      exists o', pos'. rewrite <- !app_assoc. split_and!; try done; try lia.
      * intros k. rewrite Hlk. unfold overwritten. destruct (ft_lookup o k) eqn:Eo; [|done].
        f_equal. f_equal. simpl. destruct (keq (GetKeyFromValue v) k) eqn:Ek; [|done].
        apply keq_spec in Ek as <-. congruence.
      * constructor; [|done]. rewrite Hlb. lia.
Qed.

(** The keys before the lower bound of a key are smaller. *)
Lemma take_lower_bound o key n :
  n <= ft_lower_bound o key ->
  Forall (fun x => KeyCompare (GetKeyFromValue x) key = true) (take n o).
Proof.
  unfold ft_lower_bound. revert n. induction o as [|x o IH]; intros n Hn; simpl in *.
  { by destruct n; constructor. }
  destruct n as [|n]; [constructor|]. destruct (KeyCompare (GetKeyFromValue x) key) eqn:E; [|lia].
  constructor; [done|]. apply IH. lia.
Qed.

Lemma occurrence_elem v l : v ∈ occurrences l (GetKeyFromValue v) <-> v ∈ l.
Proof.
  unfold occurrences. rewrite !list_elem_of_In, filter_In. rewrite keq_refl. tauto.
Qed.

Lemma keep_elem dupes v l : v ∈ keep dupes l -> v ∈ l.
Proof.
  destruct dupes; simpl.
  - destruct l as [|x l]; simpl; [done|]. intros ->%list_elem_of_singleton. constructor.
  - unfold last_list. destruct (last l) eqn:E; [|by intros ?%elem_of_nil].
    intros ->%list_elem_of_singleton. by apply last_Some_elem_of.
Qed.

(** A key occurs at most once. *)
Lemma occurrences_le_1 t k : ft_ok t -> length (occurrences t k) <= 1.
Proof.
  intros Ht. destruct (ft_split t k Ht) as (a & m & b & -> & Ha & Hb & Hmm).
  rewrite (occurrences_split a m b k k), keq_refl; try done.
  - destruct Hmm as [->|(? & -> & _)]; simpl; lia.
  - destruct Hmm as [->|(w & -> & Hw)]; [by intros ? ?%elem_of_nil|by apply mem_single].
Qed.

(** The last step of the batch: the new values, sorted and without duplicates,
    are merged into the old ones behind [pos]. *)
Lemma batch_merge o n pos :
  ft_ok o -> ft_ok n -> (forall v, v ∈ n -> ft_lookup o (GetKeyFromValue v) = None) ->
  Forall (fun v => pos <= ft_lower_bound o (GetKeyFromValue v)) n -> pos <= length o ->
  let t := take pos (o ++ n) ++ merge_ranges value_comp (drop pos (take (length o) (o ++ n)))
             (drop (length o) (o ++ n)) in
  ft_ok t /\ forall k, ft_lookup t k = match ft_lookup o k with Some w => Some w | None => head (occurrences n k) end.
Proof.
  intros Ho Hn Hnew Hpos Hle. simpl. rewrite take_mid, drop_app_length, take_app_le by done.
  pose proof Ho as Ho'. rewrite <- (take_drop pos o) in Ho'. apply ft_ok_app in Ho' as (Ht & Hd & Htd).
  assert (forall x y, x ∈ drop pos o -> y ∈ n -> GetKeyFromValue x <> GetKeyFromValue y) as Hdis.
  { intros x y Hx Hy Heq. specialize (Hnew y Hy). unfold ft_lookup in Hnew.
    destruct (occurrences o (GetKeyFromValue y)) as [|z l] eqn:Eo; [|done].
    assert (x ∈ occurrences o (GetKeyFromValue y)) as Hin; [|rewrite Eo in Hin; by apply elem_of_nil in Hin].
    apply list_elem_of_In, filter_In. split; [|by apply keq_spec].
    apply list_elem_of_In. rewrite <- (take_drop pos o). set_solver. }
  destruct (merge_ranges_spec (drop pos o) n Hd Hn Hdis) as [Hm Hocc]. split.
  - apply ft_ok_app. split_and!; try done. rewrite Forall_forall in Htd |- *. intros x Hx.
    apply merge_ranges_Forall; [by apply Htd|]. apply Forall_forall. intros v Hv.
    rewrite Forall_forall in Hpos. pose proof (take_lower_bound o _ pos (Hpos v Hv)) as Htk.
    rewrite Forall_forall in Htk. exact (Htk x Hx).
  - intros k. unfold ft_lookup. rewrite occurrences_app.
    assert (occurrences o k = occurrences (take pos o) k ++ occurrences (drop pos o) k) as Eo
      by (by rewrite <- occurrences_app, take_drop).
    specialize (Hocc k). destruct (occurrences n k) as [|v l] eqn:En.
    + rewrite app_nil_r in Hocc. rewrite Eo.
      assert (occurrences (merge_ranges value_comp (drop pos o) n) k = occurrences (drop pos o) k) as ->.
      { assert (length (occurrences (drop pos o) k) <= 1) as Hlen.
        { by apply occurrences_le_1. }
        destruct (occurrences (drop pos o) k) as [|x [|y q]]; simpl in Hlen; [| |lia].
        - by apply Permutation_nil_r.
        - by apply Permutation_singleton_r. }
      by destruct (occurrences (take pos o) k ++ _).
    + assert (occurrences o k = []) as Hnone.
      { assert (v ∈ occurrences n k) as Hv by (rewrite En; constructor).
        apply list_elem_of_In, filter_In in Hv as [Hv Hk]. apply keq_spec in Hk.
        apply list_elem_of_In in Hv. specialize (Hnew v Hv). rewrite Hk in Hnew.
        unfold ft_lookup in Hnew. by destruct (occurrences o k). }
      rewrite Hnone. rewrite Hnone in Eo. symmetry in Eo. apply app_eq_nil in Eo as [E1 E2].
      rewrite E1. rewrite E2 in Hocc. simpl in *.
      assert (length (occurrences n k) <= 1) as Hlen by (by apply occurrences_le_1).
      rewrite En in Hlen. destruct l; simpl in Hlen; [|lia].
      by apply Permutation_singleton_r in Hocc as ->.
Qed.

(** ** The batch insertion against one insertion after the other *)

(** The reference: the values inserted one by one. *)
Definition insert_all (dupes : FlatContainerDupes) (vals : list Value) (t : flat_tree) : flat_tree :=
  fold_left (fun t v =>
    match dupes with
    | KEEP_FIRST_OF_DUPES => (ft_insert t v).1.1
    | KEEP_LAST_OF_DUPES => (ft_insert_or_assign t v).1.1
    end) vals t.

(** What a key is bound to afterwards. *)
Definition all_lookup (dupes : FlatContainerDupes) (f : Key -> option Value) (vals : list Value)
    (k : Key) : option Value :=
  match dupes with
  | KEEP_FIRST_OF_DUPES => match f k with Some w => Some w | None => head (occurrences vals k) end
  | KEEP_LAST_OF_DUPES => match last (occurrences vals k) with Some w => Some w | None => f k end
  end.

Lemma insert_one_spec dupes t v :
  ft_ok t ->
  ft_ok (insert_all dupes [v] t) /\
  forall k, ft_lookup (insert_all dupes [v] t) k = all_lookup dupes (ft_lookup t) [v] k.
Proof.
  intros Ht. unfold insert_all, all_lookup. simpl. destruct dupes.
  - pose proof (insert_spec t v Ht) as H. destruct (ft_insert t v) as [[t' pos] b].
    destruct H as (Hok & _ & _ & Hlk). split; [done|]. intros k. simpl. rewrite Hlk. unfold update_lookup.
    destruct (keq (GetKeyFromValue v) k) eqn:E; [|by destruct (ft_lookup t k)].
    apply keq_spec in E as <-. by destruct (ft_lookup t (GetKeyFromValue v)).
  - pose proof (insert_or_assign_spec t v Ht) as H. destruct (ft_insert_or_assign t v) as [[t' pos] b].
    destruct H as (Hok & _ & Hlk). split; [done|]. intros k. simpl. rewrite Hlk. unfold update_lookup.
    by destruct (keq (GetKeyFromValue v) k).
Qed.

Lemma insert_all_spec dupes vals t :
  ft_ok t ->
  ft_ok (insert_all dupes vals t) /\
  forall k, ft_lookup (insert_all dupes vals t) k = all_lookup dupes (ft_lookup t) vals k.
Proof.
  revert t. induction vals as [|v vals IH]; intros t Ht.
  { split; [done|]. intros k. unfold all_lookup. destruct dupes; simpl; [by destruct (ft_lookup t k)|done]. }
  change (insert_all dupes (v :: vals) t) with (insert_all dupes vals (insert_all dupes [v] t)).
  destruct (insert_one_spec dupes t v Ht) as [Ht1 H1]. destruct (IH _ Ht1) as [Ht2 H2].
  split; [done|]. intros k. rewrite H2. unfold all_lookup in *. specialize (H1 k). destruct dupes; simpl in *.
  - rewrite H1. destruct (ft_lookup t k); [done|]. by destruct (keq (GetKeyFromValue v) k).
  - rewrite H1. destruct (keq (GetKeyFromValue v) k); [|done]. simpl. rewrite last_cons.
    by destruct (last (occurrences vals k)).
Qed.

Lemma occurrences_new_values o vals k :
  occurrences (new_values o vals) k
  = match ft_lookup o k with None => occurrences vals k | Some _ => [] end.
Proof.
  unfold new_values, occurrences. induction vals as [|v vals IH]; simpl; [by destruct (ft_lookup o k)|].
  destruct (keq (GetKeyFromValue v) k) eqn:Ek.
  - pose proof Ek as ->%keq_spec. destruct (ft_lookup o k); simpl; [done|]. rewrite Ek. by f_equal.
  - destruct (ft_lookup o (GetKeyFromValue v)); simpl; [done|]. by rewrite Ek.
Qed.

Lemma head_keep dupes l :
  head (keep dupes l) = match dupes with KEEP_FIRST_OF_DUPES => head l | KEEP_LAST_OF_DUPES => last l end.
Proof.
  destruct dupes; simpl; [by destruct l|]. unfold last_list. by destruct (last l).
Qed.

(** After the loop: sort, remove duplicates, merge. *)
Lemma batch_finish dupes o vals pos :
  ft_ok o -> Forall (fun v => pos <= ft_lower_bound o (GetKeyFromValue v)) (new_values o vals) ->
  pos <= length o ->
  exists t', (t ← ft_sort_and_unique (o ++ new_values o vals) (length o) dupes;
     Some (take pos t ++ merge_ranges value_comp (drop pos (take (length o) t)) (drop (length o) t)))
     = Some t' /\ ft_ok t' /\
  forall k, ft_lookup t' k
    = match ft_lookup o k with Some w => Some w
      | None => head (keep dupes (occurrences vals k)) end.
Proof.
  intros Ho Hpos Hle.
  destruct (sort_and_unique_spec o (new_values o vals) dupes) as (n' & -> & Hn' & Hocc). simpl.
  assert (forall v, v ∈ n' -> v ∈ new_values o vals) as Hsub.
  { intros v Hv. apply (proj2 (occurrence_elem v _)) in Hv. rewrite Hocc in Hv.
    exact (proj1 (occurrence_elem v _) (keep_elem dupes _ _ Hv)). }
  destruct (batch_merge o n' pos) as [H1 H2]; try done.
  - intros v Hv. apply Hsub, list_elem_of_In, filter_In in Hv as [_ Hv].
    by destruct (ft_lookup o (GetKeyFromValue v)).
  - rewrite Forall_forall in Hpos |- *. intros v Hv. by apply Hpos, Hsub.
  - eexists. split; [done|]. split; [done|]. intros k. rewrite H2, Hocc, occurrences_new_values.
    by destruct (ft_lookup o k).
Qed.

Lemma ft_insert_one dupes t v :
  ft_ok t ->
  (match dupes with KEEP_LAST_OF_DUPES => (ft_insert_or_assign t v).1.1
   | _ => fst (ft_insert_hint t (length t) v) end) = insert_all dupes [v] t.
Proof. intros Ht. destruct dupes; simpl; [by rewrite insert_hint_spec|done]. Qed.

Lemma insert_range_spec dupes t vals multipass :
  ft_ok t ->
  exists t', ft_insert_range t vals dupes multipass = Some t' /\ ft_ok t' /\
    forall k, ft_lookup t' k = all_lookup dupes (ft_lookup t) vals k.
Proof.
  intros Ht. unfold ft_insert_range. destruct vals as [|v rest].
  { exists t. split; [done|]. exact (insert_all_spec dupes [] t Ht). }
  destruct (multipass && _) eqn:Em.
  { apply andb_true_iff in Em as [_ Em]. destruct rest; [|done]. eexists. split; [done|].
    pose proof (ft_insert_one dupes t v Ht) as E. destruct dupes; rewrite E; exact (insert_one_spec _ t v Ht). }
  clear Em. set (vals := v :: rest). destruct dupes.
  - destruct (batch_unique_spec t vals [] (length t) Ht) as (pos & E & Hle & Hall).
    rewrite app_nil_r in E. rewrite E, app_nil_l.
    destruct (batch_finish KEEP_FIRST_OF_DUPES t vals pos Ht Hall Hle) as (t' & -> & Hok & Hlk).
    exists t'. split_and!; try done. intros k. rewrite Hlk, head_keep. done.
  - destruct (batch_assign_spec t vals [] (length t) Ht) as (o' & pos & E & Hle & Hok & Hlen & _ & Hlk & Hall).
    rewrite app_nil_r in E. rewrite E, app_nil_l.
    assert (new_values t vals = new_values o' vals) as Hnv.
    { apply new_values_ext. intros k. rewrite Hlk. unfold overwritten. destruct (ft_lookup t k); [|done].
      split; eauto. }
    rewrite Hnv in Hall |- *. rewrite <- Hlen in Hle |- *.
    destruct (batch_finish KEEP_LAST_OF_DUPES o' vals pos Hok Hall Hle) as (t' & -> & Hok' & Hlk').
    exists t'. split_and!; try done. intros k. rewrite Hlk', head_keep, Hlk. unfold overwritten, all_lookup.
    destruct (ft_lookup t k); [|by destruct (last _)]. by destruct (last _).
Qed.

Lemma flat_tree_of_spec dupes items :
  exists t, flat_tree_of items dupes = Some t /\ ft_ok t /\
    forall k, ft_lookup t k = all_lookup dupes (fun _ => None) items k.
Proof.
  unfold flat_tree_of. destruct (sort_and_unique_spec [] items dupes) as (t & E & Hok & Hocc).
  exists t. split_and!; try done. intros k. unfold ft_lookup. rewrite Hocc, head_keep.
  unfold all_lookup. destruct dupes; [done|]. by destruct (last _).
Qed.

Lemma occurrences_filter (p : Value -> bool) l k :
  occurrences (List.filter p l) k = List.filter p (occurrences l k).
Proof.
  unfold occurrences. induction l as [|v l IH]; simpl; [done|].
  destruct (p v) eqn:Ep, (keq (GetKeyFromValue v) k) eqn:Ek; simpl; rewrite ?Ep, ?Ek, ?IH; done.
Qed.

Lemma EraseIf_spec t pred :
  ft_ok t ->
  ft_ok (EraseIf t pred) /\
  forall k, ft_lookup (EraseIf t pred) k
    = match ft_lookup t k with Some v => if pred v then None else Some v | None => None end.
Proof.
  unfold ft_ok, EraseIf. intros Ht. split.
  - induction Ht as [|v t Ht IH Hv]; simpl; [constructor|]. destruct (negb (pred v)); [|done].
    constructor; [done|]. rewrite Forall_forall in Hv |- *. intros w [Hw _]%list_elem_of_In%filter_In.
    apply Hv. by apply list_elem_of_In.
  - intros k. pose proof (occurrences_le_1 t k Ht) as H1. unfold ft_lookup. rewrite occurrences_filter.
    destruct (occurrences t k) as [|w [|]]; simpl in *; [done| |lia].
    by destruct (pred w).
Qed.

(** The bounds of a key cut the sorted vector. *)
Lemma bounds_spec t key :
  ft_ok t ->
  let lo := ft_lower_bound t key in let hi := ft_upper_bound t key in
  ft_equal_range t key = (lo, hi) /\
  Forall (fun v => KeyCompare (GetKeyFromValue v) key = true) (take lo t) /\
  Forall (fun v => KeyCompare (GetKeyFromValue v) key = false) (drop lo t) /\
  Forall (fun v => KeyCompare key (GetKeyFromValue v) = true) (drop hi t).
Proof.
  intros Ht. simpl. destruct (ft_split t key Ht) as (l & m & r & -> & Hl & Hr & Hm).
  destruct (ft_lower_bound_split l m r _ Hl Hr Hm) as (E1 & E2 & E3).
  unfold ft_equal_range. rewrite E1, E2, E3, take_mid, drop_app_length. split_and!; try done.
  - destruct Hm as [->|(v & -> & _)]; simpl; do 2 f_equal; lia.
  - apply Forall_app. split.
    + destruct Hm as [->|(v & -> & <-)]; [done|]. constructor; [apply ltb_irrefl|done].
    + eapply Forall_impl; [exact Hr|]. intros v Hv. by apply (ltb_asym KeyCompare).
  - rewrite app_assoc, <- length_app, drop_app_length. done.
Qed.

(** ** Theorems *)

(** A flat tree behaves as a finite map from keys to values, on a vector
    that stays sorted without duplicate keys: [insert] keeps a value that is
    present and reports whether it inserted, a hint never changes its result,
    [insert_or_assign] overwrites, [erase(key)] removes the key and counts it,
    [find] points at the value of the key or to the end, [count] is 0 or 1,
    [equal_range] is the pair of bounds and the bounds cut the vector, and
    [EraseIf] drops the values that satisfy the predicate. *)
Lemma flat_tree_is_map (t : flat_tree) (v : Value) (key : Key) (hint : nat) (pred : Value -> bool) :
  ft_ok t ->
  (let '(t', pos, inserted) := ft_insert t v in
   ft_ok t' /\ inserted = match ft_lookup t (GetKeyFromValue v) with None => true | _ => false end /\
   (exists w, t' !! pos = Some w /\ GetKeyFromValue w = GetKeyFromValue v) /\
   forall k, ft_lookup t' k = update_lookup (ft_lookup t) (GetKeyFromValue v)
     (Some (default v (ft_lookup t (GetKeyFromValue v)))) k) /\
  ft_insert_hint t hint v = (ft_insert t v).1 /\
  (let '(t', pos, inserted) := ft_insert_or_assign t v in
   ft_ok t' /\ inserted = match ft_lookup t (GetKeyFromValue v) with None => true | _ => false end /\
   forall k, ft_lookup t' k = update_lookup (ft_lookup t) (GetKeyFromValue v) (Some v) k) /\
  (let '(t', n) := ft_erase_key t key in
   ft_ok t' /\ n = match ft_lookup t key with None => 0 | _ => 1 end /\
   forall k, ft_lookup t' k = update_lookup (ft_lookup t) key None k) /\
  (ft_count t key = match ft_lookup t key with None => 0 | _ => 1 end /\
   t !! ft_find t key = ft_lookup t key /\ (ft_lookup t key = None -> ft_find t key = length t)) /\
  (let lo := ft_lower_bound t key in let hi := ft_upper_bound t key in
   ft_equal_range t key = (lo, hi) /\
   Forall (fun v => KeyCompare (GetKeyFromValue v) key = true) (take lo t) /\
   Forall (fun v => KeyCompare (GetKeyFromValue v) key = false) (drop lo t) /\
   Forall (fun v => KeyCompare key (GetKeyFromValue v) = true) (drop hi t)) /\
  ft_ok (EraseIf t pred) /\
  (forall k, ft_lookup (EraseIf t pred) k
    = match ft_lookup t k with Some v => if pred v then None else Some v | None => None end).
Proof.
  intros Ht.
  exact (conj (insert_spec t v Ht) (conj (insert_hint_spec t hint v Ht)
    (conj (insert_or_assign_spec t v Ht) (conj (erase_key_spec t key Ht)
    (conj (find_spec t key Ht) (conj (bounds_spec t key Ht) (EraseIf_spec t pred Ht))))))).
Qed.

(** The batch insertion of a range (append the values whose key is new,
    sort them, drop duplicates by the policy and merge them in from the first
    insertion point) gives the vector that inserting the values one after the
    other gives: with [insert] for [KEEP_FIRST_OF_DUPES], with
    [insert_or_assign] for [KEEP_LAST_OF_DUPES]; and the constructor from a range
    is the batch insertion into an empty tree.  Neither runs off its range. *)
Lemma flat_tree_insert_range_sequential (t : flat_tree) (vals : list Value)
    (dupes : FlatContainerDupes) (multipass : bool) :
  ft_ok t ->
  ft_insert_range t vals dupes multipass = Some (insert_all dupes vals t) /\
  flat_tree_of vals dupes = Some (insert_all dupes vals []) /\
  ft_ok (insert_all dupes vals t) /\
  forall k, ft_lookup (insert_all dupes vals t) k = all_lookup dupes (ft_lookup t) vals k.
Proof.
  intros Ht. destruct (insert_all_spec dupes vals t Ht) as [H1 H2]. split_and!; try done.
  - destruct (insert_range_spec dupes t vals multipass Ht) as (t' & -> & H1' & H2'). f_equal.
    apply ft_ext; try done. intros k. by rewrite H2, H2'.
  - destruct (flat_tree_of_spec dupes vals) as (t' & -> & H1' & H2'). f_equal.
    destruct (insert_all_spec dupes vals [] (SSorted_nil _)) as [H3 H4].
    apply ft_ext; try done. intros k. by rewrite H2', H4.
Qed.

End FlatTree.

(** ** flat_map *)

Section FlatMap.
Context {Key Mapped : Type} (KeyCompare : Key -> Key -> bool) (Mapped_default : Mapped).

(** [operator\[\]]: the map and the position of the element whose second
    component the returned reference names. *)
Definition flat_map_index (t : list (Key * Mapped)) (key : Key) : list (Key * Mapped) * nat :=
  let found := ft_lower_bound fst KeyCompare t key in
  if absent_at fst KeyCompare t found key
  then (ft_unsafe_emplace t found (key, Mapped_default), found)
  else (t, found).

Lemma flat_map_index_insert t key :
  flat_map_index t key = (ft_insert fst KeyCompare t (key, Mapped_default)).1.
Proof.
  unfold flat_map_index, ft_insert. simpl. by destruct (absent_at fst KeyCompare t _ key).
Qed.

End FlatMap.

Lemma nat_ltb_strict_order : StrictOrderBool Nat.ltb.
Proof.
  split; [apply Nat.ltb_irrefl| |]; intros x y.
  - intros z. rewrite !Nat.ltb_lt. lia.
  - rewrite !Nat.ltb_ge. lia.
Qed.

Lemma sample_tree_ok : ft_ok fst Nat.ltb [(1, 10); (3, 30)].
Proof. unfold ft_ok. repeat constructor. Qed.

Lemma flat_tree_is_map_witness :
  ft_erase_key fst Nat.ltb [(1, 10); (3, 30)] 3 = ([(1, 10)], 1) /\
  ft_insert_hint fst Nat.ltb [(1, 10); (3, 30)] 0 (2, 20)
  = (ft_insert fst Nat.ltb [(1, 10); (3, 30)] (2, 20)).1.
Proof.
  split; [reflexivity|].
  exact (proj1 (proj2 (@flat_tree_is_map _ _ fst Nat.ltb nat_ltb_strict_order _ (2, 20) 3 0
                         (fun _ => true) sample_tree_ok))).
Defined.

Lemma flat_tree_insert_range_sequential_witness :
  ft_insert_range fst Nat.ltb [(1, 10); (3, 30)] [(3, 31); (2, 20); (0, 1); (2, 21)]
    KEEP_LAST_OF_DUPES true
  = Some (insert_all fst Nat.ltb KEEP_LAST_OF_DUPES [(3, 31); (2, 20); (0, 1); (2, 21)]
            [(1, 10); (3, 30)]) /\
  insert_all fst Nat.ltb KEEP_LAST_OF_DUPES [(3, 31); (2, 20); (0, 1); (2, 21)] [(1, 10); (3, 30)]
  = [(0, 1); (1, 10); (2, 21); (3, 31)].
Proof.
  split; [|reflexivity].
  exact (proj1 (@flat_tree_insert_range_sequential _ _ fst Nat.ltb nat_ltb_strict_order _
                  [(3, 31); (2, 20); (0, 1); (2, 21)] KEEP_LAST_OF_DUPES true sample_tree_ok)).
Defined.
