(* ===== verification/LinkedHashMap.v ===== *)
(** * net/base/linked_hash_map.h: a map that remembers insertion order

    [list_] holds the pairs in insertion order, [map_] the list iterator of every
    key.  [next_node] names the node the next allocation returns.  Dereferencing
    [end()], and a failed [CHECK], is [None]. *)

From S2P Require Import Prelude StdList.
From stdpp Require Import gmap.
#[local] Open Scope nat_scope.

Section LinkedHashMap.
Context {Key Value : Type} `{Countable Key} (Value_default : Value).

Record linked_hash_map := MkLinkedHashMap {
  map_ : gmap Key nat;
  list_ : list (nat * (Key * Value));
  next_node : nat
}.

Definition lhm_new : linked_hash_map := MkLinkedHashMap ∅ [] 0.

Definition lhm_begin (m : linked_hash_map) : option nat := node_begin (list_ m).
Definition lhm_front (m : linked_hash_map) : option (Key * Value) := snd <$> head (list_ m).
Definition lhm_back (m : linked_hash_map) : option (Key * Value) := snd <$> last (list_ m).
Definition lhm_clear (m : linked_hash_map) : linked_hash_map := MkLinkedHashMap ∅ [] (next_node m).
Definition lhm_empty (m : linked_hash_map) : bool := match list_ m with [] => true | _ => false end.
Definition lhm_size (m : linked_hash_map) : nat := length (list_ m).

Definition lhm_erase_key (m : linked_hash_map) (key : Key) : linked_hash_map * nat :=
  match map_ m !! key with
  | None => (m, 0)
  | Some n => (MkLinkedHashMap (delete key (map_ m)) (node_erase n (list_ m)) (next_node m), 1)
  end.

(** [erase(position)]: gives the iterator to the next item. *)
Definition lhm_erase (m : linked_hash_map) (position : nat) : option (linked_hash_map * option nat) :=
  item ← node_get position (list_ m);
  found ← map_ m !! item.1;
  if Nat.eqb found position then
    next ← node_next position (list_ m);
    Some (MkLinkedHashMap (delete item.1 (map_ m)) (node_erase position (list_ m)) (next_node m), next)
  else None.

Definition lhm_pop_front (m : linked_hash_map) : option linked_hash_map :=
  n ← lhm_begin m; fst <$> lhm_erase m n.

(** [erase(first, last)]; the list shrinks in every round. *)
Fixpoint erase_range_loop (fuel : nat) (m : linked_hash_map) (first last : option nat)
    : option (linked_hash_map * option nat) :=
  match first with
  | None => Some (m, first)
  | Some n =>
      if bool_decide (first = last) then Some (m, first)
      else match fuel with
           | 0 => None
           | S fuel => '(m, first) ← lhm_erase m n; erase_range_loop fuel m first last
           end
  end.
Definition lhm_erase_range (m : linked_hash_map) (first last : option nat)
    : option (linked_hash_map * option nat) :=
  erase_range_loop (lhm_size m) m first last.

Definition lhm_find (m : linked_hash_map) (key : Key) : option nat := map_ m !! key.

Definition lhm_insert (m : linked_hash_map) (pair : Key * Value)
    : option (linked_hash_map * nat * bool) :=
  match map_ m !! pair.1 with
  | Some n => Some (m, n, false)
  | None =>
      let last := next_node m in
      let list := list_ m ++ [(last, pair)] in
      match map_ m !! pair.1 with
      | None => Some (MkLinkedHashMap (<[pair.1 := last]> (map_ m)) list (S last), last, true)
      | Some _ => None
      end
  end.

(** [emplace]: the node is made in a list of its own and spliced in. *)
Definition lhm_emplace (m : linked_hash_map) (pair : Key * Value)
    : linked_hash_map * nat * bool :=
  let node_pos := next_node m in
  match map_ m !! pair.1 with
  | Some n => (MkLinkedHashMap (map_ m) (list_ m) (S node_pos), n, false)
  | None => (MkLinkedHashMap (<[pair.1 := node_pos]> (map_ m)) (list_ m ++ [(node_pos, pair)]) (S node_pos),
             node_pos, true)
  end.

(** [operator\[\]]: the map and the value referred to. *)
Definition lhm_index (m : linked_hash_map) (key : Key) : option (linked_hash_map * Value) :=
  '(m, n, _) ← lhm_insert m (key, Value_default);
  item ← node_get n (list_ m); Some (m, item.2).

Definition lhm_swap (m other : linked_hash_map) : linked_hash_map * linked_hash_map := (other, m).

(** ** Invariant: the index is the list *)

Definition items (m : linked_hash_map) : list (Key * Value) := snd <$> list_ m.
Definition keys (l : list (Key * Value)) : list Key := fst <$> l.

Record lhm_ok (m : linked_hash_map) : Prop := {
  lo_nodes : NoDup (nodes (list_ m));
  lo_keys : NoDup (keys (items m));
  lo_fresh : Forall (fun n => n < next_node m) (nodes (list_ m));
  lo_map : forall k n, map_ m !! k = Some n <-> exists v, (n, (k, v)) ∈ list_ m
}.

Lemma lhm_new_ok : lhm_ok lhm_new.
Proof.
  split; simpl; [constructor|constructor|constructor|]. intros k n. rewrite lookup_empty. split; [done|].
  by intros (v & ?%elem_of_nil).
Qed.

Lemma items_split m a n p b : list_ m = a ++ (n, p) :: b -> items m = (snd <$> a) ++ p :: (snd <$> b).
Proof. unfold items. intros ->. by rewrite fmap_app. Qed.

(** Removing one node and its key. *)
Lemma erase_node_ok m a n k v b :
  lhm_ok m -> list_ m = a ++ (n, (k, v)) :: b ->
  lhm_ok (MkLinkedHashMap (delete k (map_ m)) (a ++ b) (next_node m)).
Proof.
  intros [Hn Hk Hf Hm] E. pose proof (items_split m _ _ _ _ E) as Ei. rewrite E in Hn, Hf. rewrite Ei in Hk.
  split; simpl.
  - by apply nodes_erased in Hn.
  - unfold items, keys in *. simpl. rewrite !fmap_app in *. simpl in Hk.
    apply NoDup_app in Hk as (H1 & H2 & [_ H3]%NoDup_cons). apply NoDup_app. split_and!; try done.
    intros y Hy Hb. apply (H2 y Hy). by constructor.
  - rewrite nodes_app in *. apply Forall_app in Hf as [? [_ ?]%Forall_cons]. by apply Forall_app.
  - intros k' n'. unfold keys in Hk. rewrite fmap_app in Hk. simpl in Hk.
    apply NoDup_app in Hk as (_ & Hd & [Hkb _]%NoDup_cons).
    destruct (decide (k' = k)) as [->|Hne].
    + rewrite lookup_delete_eq. split; [done|]. intros (v' & [Hin|Hin]%elem_of_app); exfalso.
      * apply (Hd k); [|constructor]. rewrite <- list_fmap_compose.
        by apply (list_elem_of_fmap_2 (fst ∘ snd) a (n', (k, v'))).
      * apply Hkb. rewrite <- list_fmap_compose. by apply (list_elem_of_fmap_2 (fst ∘ snd) b (n', (k, v'))).
    + rewrite lookup_delete_ne by done. rewrite Hm, E. split; intros (v' & Hin); exists v'.
      * apply elem_of_app in Hin as [Hin|[Hin|Hin]%elem_of_cons]; [|by simplify_eq|]; apply elem_of_app; auto.
      * apply elem_of_app in Hin as [Hin|Hin]; apply elem_of_app; [by left|right]. by constructor.
Qed.

(** Appending a fresh node for a new key. *)
Lemma append_node_ok m k v :
  lhm_ok m -> map_ m !! k = None ->
  lhm_ok (MkLinkedHashMap (<[k := next_node m]> (map_ m)) (list_ m ++ [(next_node m, (k, v))]) (S (next_node m))).
Proof.
  intros [Hn Hk Hf Hm] Hnone. split; simpl.
  - apply nodes_snoc_fresh; [done|]. intros Hin. rewrite Forall_forall in Hf. specialize (Hf _ Hin). lia.
  - unfold items, keys in *. simpl. rewrite !fmap_app. apply NoDup_app. split_and!; [done| |apply NoDup_singleton].
    simpl. intros y Hy ->%list_elem_of_singleton. apply list_elem_of_fmap in Hy as ([k' v'] & Ek & Hy).
    simpl in Ek. subst k'. apply list_elem_of_fmap in Hy as ([n p] & Ep & Hy). simpl in Ep. subst p.
    assert (map_ m !! k = Some n) as Hs by (apply Hm; eauto). congruence.
  - rewrite nodes_app. apply Forall_app. split; [|constructor; [simpl; lia|constructor]].
    eapply Forall_impl; [exact Hf|]. intros x Hx. simpl in *. lia.
  - intros k' n'. destruct (decide (k' = k)) as [->|Hne].
    + rewrite lookup_insert_eq. split.
      * intros [= <-]. exists v. apply elem_of_app. right. constructor.
      * intros (v' & [Hin|Hin%list_elem_of_singleton]%elem_of_app); [|by simplify_eq].
        assert (map_ m !! k = Some n') by (apply Hm; eauto). congruence.
    + rewrite lookup_insert_ne by done. rewrite Hm. split; intros (v' & Hin); exists v'.
      * apply elem_of_app. by left.
      * apply elem_of_app in Hin as [Hin|Hin%list_elem_of_singleton]; [done|]. by simplify_eq.
Qed.

Lemma keys_elem m k : lhm_ok m -> k ∈ keys (items m) <-> exists n, map_ m !! k = Some n.
Proof.
  intros Hok. unfold keys, items. rewrite <- list_fmap_compose, list_elem_of_fmap. split.
  - intros ([n [k' v]] & -> & Hin). exists n. apply (lo_map m Hok). by exists v.
  - intros (n & (v & Hin)%(lo_map m Hok)). by exists (n, (k, v)).
Qed.

Lemma map_split m k n :
  lhm_ok m -> map_ m !! k = Some n -> exists a v b, list_ m = a ++ (n, (k, v)) :: b.
Proof. intros Hok (v & Hin)%(lo_map m Hok). apply list_elem_of_split in Hin as (a & b & ->). eauto. Qed.

Lemma erase_split m a n k v b :
  lhm_ok m -> list_ m = a ++ (n, (k, v)) :: b ->
  map_ m !! k = Some n /\
  lhm_erase m n = Some (MkLinkedHashMap (delete k (map_ m)) (a ++ b) (next_node m), node_begin b).
Proof.
  intros Hok E. assert (map_ m !! k = Some n) as Hk.
  { apply (lo_map m Hok). exists v. rewrite E. apply elem_of_app. right. constructor. }
  split; [done|]. pose proof (lo_nodes m Hok) as Hn. rewrite E in Hn. unfold lhm_erase. rewrite E.
  rewrite node_get_split by done. simpl. rewrite Hk. simpl. rewrite Nat.eqb_refl.
  rewrite node_next_split, node_erase_split by done. done.
Qed.

(** ** The specification: pairs with distinct keys, in insertion order *)

Inductive lhm_op :=
  | LInsert (k : Key) (v : Value) | LEmplace (k : Key) (v : Value) | LEraseKey (k : Key)
  | LPopFront | LClear | LIndex (k : Key).

Definition assoc (l : list (Key * Value)) (k : Key) : option Value :=
  snd <$> List.find (fun p => bool_decide (p.1 = k)) l.

Definition spec_insert (l : list (Key * Value)) (k : Key) (v : Value) : list (Key * Value) * nat :=
  match assoc l k with Some _ => (l, 0) | None => (l ++ [(k, v)], 1) end.

(** A step gives the new state and what the call returned: the count or flag,
    and the value referred to. *)
Definition lhm_spec (l : list (Key * Value)) (op : lhm_op)
    : option (list (Key * Value) * (nat * option Value)) :=
  match op with
  | LInsert k v | LEmplace k v => let '(l', r) := spec_insert l k v in Some (l', (r, assoc l' k))
  | LEraseKey k =>
      Some (List.filter (fun p => negb (bool_decide (p.1 = k))) l,
            (match assoc l k with Some _ => 1 | None => 0 end, None))
  | LPopFront => match l with [] => None | _ :: l => Some (l, (0, None)) end
  | LClear => Some ([], (0, None))
  | LIndex k => let '(l', r) := spec_insert l k Value_default in Some (l', (r, assoc l' k))
  end.

Definition flag (b : bool) : nat := if b then 1 else 0.

Definition lhm_step (m : linked_hash_map) (op : lhm_op) : option (linked_hash_map * (nat * option Value)) :=
  match op with
  | LInsert k v => '(m, n, b) ← lhm_insert m (k, v); Some (m, (flag b, snd <$> node_get n (list_ m)))
  | LEmplace k v => let '(m, n, b) := lhm_emplace m (k, v) in
                    Some (m, (flag b, snd <$> node_get n (list_ m)))
  | LEraseKey k => let '(m, r) := lhm_erase_key m k in Some (m, (r, None))
  | LPopFront => m ← lhm_pop_front m; Some (m, (0, None))
  | LClear => Some (lhm_clear m, (0, None))
  | LIndex k => '(m', v) ← lhm_index m k;
                Some (m', (match lhm_find m k with Some _ => 0 | None => 1 end, Some v))
  end.

Lemma assoc_app_skip l k p : p ∉ keys l -> assoc (l ++ k) p = assoc k p.
Proof.
  intros Hp. unfold assoc. rewrite find_app_skip; [done|]. apply Forall_forall. intros x Hx.
  apply bool_decide_eq_false_2. intros <-. apply Hp. by apply list_elem_of_fmap_2.
Qed.

Lemma assoc_none l k : k ∉ keys l -> assoc l k = None.
Proof. intros Hk. rewrite <- (app_nil_r l). by rewrite assoc_app_skip. Qed.

Lemma assoc_split l k v b : k ∉ keys l -> assoc (l ++ (k, v) :: b) k = Some v.
Proof. intros Hk. rewrite assoc_app_skip by done. unfold assoc. simpl. by rewrite bool_decide_eq_true_2. Qed.

(** The index and the items agree on every key. *)
Lemma lookup_items m k :
  lhm_ok m ->
  match map_ m !! k with
  | Some n => exists a v b, list_ m = a ++ (n, (k, v)) :: b /\ assoc (items m) k = Some v /\
      List.filter (fun p => negb (bool_decide (p.1 = k))) (items m) = (snd <$> a) ++ (snd <$> b)
  | None => assoc (items m) k = None /\
      List.filter (fun p => negb (bool_decide (p.1 = k))) (items m) = items m
  end.
Proof.
  intros Hok.
  assert (forall l, k ∉ keys l -> List.filter (fun p => negb (bool_decide (p.1 = k))) l = l) as Hf.
  { intros l Hl. induction l as [|p l IH]; simpl; [done|]. unfold keys in Hl. simpl in Hl.
    apply not_elem_of_cons in Hl as [Hp Hl]. rewrite bool_decide_eq_false_2 by congruence. simpl.
    by rewrite IH. }
  destruct (map_ m !! k) as [n|] eqn:E.
  - destruct (map_split m k n Hok E) as (a & v & b & El). exists a, v, b. split; [done|].
    pose proof (lo_keys m Hok) as Hnd. rewrite (items_split m _ _ _ _ El) in *. unfold keys in Hnd.
    rewrite fmap_app in Hnd. simpl in Hnd. apply NoDup_app in Hnd as (_ & Hd & [Hb _]%NoDup_cons).
    assert (k ∉ keys (snd <$> a)) as Ha by (intros Hin; apply (Hd k Hin); constructor).
    split; [by apply assoc_split|]. rewrite List.filter_app. simpl. rewrite bool_decide_eq_true_2 by done. simpl.
    by rewrite !Hf.
  - assert (k ∉ keys (items m)) as Hn.
    { rewrite keys_elem by done. intros (n & Hn). congruence. }
    split; [by apply assoc_none|by apply Hf].
Qed.

Lemma items_app_snoc mp l n nx p :
  items (MkLinkedHashMap mp (l ++ [(n, p)]) nx) = (snd <$> l) ++ [p].
Proof. unfold items. simpl. by rewrite fmap_app. Qed.

(** [insert] and [emplace] after the search differ only in the node counter. *)
Lemma insert_step_ok m k v :
  lhm_ok m ->
  let '(l', r) := spec_insert (items m) k v in
  (exists m' n b, lhm_insert m (k, v) = Some (m', n, b) /\ lhm_ok m' /\ items m' = l' /\
     flag b = r /\ (snd <$> node_get n (list_ m')) = assoc l' k) /\
  (let '(m', n, b) := lhm_emplace m (k, v) in
     lhm_ok m' /\ items m' = l' /\ flag b = r /\ (snd <$> node_get n (list_ m')) = assoc l' k).
Proof.
  intros Hok. unfold spec_insert, lhm_insert, lhm_emplace. simpl.
  pose proof (lookup_items m k Hok) as Hl. destruct (map_ m !! k) as [n|] eqn:E.
  - destruct Hl as (a & w & b & El & Ha & _). rewrite Ha.
    assert ((snd <$> node_get n (list_ m)) = Some w) as Hg.
    { pose proof (lo_nodes m Hok) as Hn. rewrite El in Hn |- *. by rewrite node_get_split. }
    split.
    + exists m, n, false. split_and!; try done. by rewrite Hg, Ha.
    + split_and!; try done; [|by simpl; rewrite Hg, Ha]. destruct Hok as [H1 H2 H3 H4]. split; try done.
      simpl. eapply Forall_impl; [exact H3|]. intros x Hx. simpl in *. lia.
  - destruct Hl as [Ha _]. rewrite Ha. pose proof (append_node_ok m k v Hok E) as Hok'.
    assert (k ∉ keys (items m)) as Hk by (rewrite keys_elem by done; intros (n & ?); congruence).
    assert ((snd <$> node_get (next_node m) (list_ m ++ [(next_node m, (k, v))]))
            = assoc (items m ++ [(k, v)]) k) as Hg.
    { rewrite assoc_split by done. pose proof (lo_nodes _ Hok') as Hn. simpl in Hn.
      by rewrite (node_get_split (list_ m) []). }
    split; [eexists _, _, _; split; [done|]|]; (split_and!; [done| |done|done]); apply items_app_snoc.
Qed.

Lemma lhm_step_refines m op :
  lhm_ok m ->
  match lhm_step m op with
  | Some (m', r) => lhm_ok m' /\ lhm_spec (items m) op = Some (items m', r)
  | None => lhm_spec (items m) op = None
  end.
Proof.
  intros Hok. destruct op as [k v|k v|k| | |k]; simpl.
  - pose proof (insert_step_ok m k v Hok) as Hs. destruct (spec_insert (items m) k v) as [l' r].
    destruct Hs as ((m' & n & b & -> & Hok' & <- & <- & <-) & _). simpl. done.
  - pose proof (insert_step_ok m k v Hok) as Hs. destruct (spec_insert (items m) k v) as [l' r].
    destruct Hs as (_ & Hs). destruct (lhm_emplace m (k, v)) as [[m' n] b].
    destruct Hs as (Hok' & <- & <- & <-). done.
  - unfold lhm_erase_key. pose proof (lookup_items m k Hok) as Hl. destruct (map_ m !! k) as [n|] eqn:E.
    + destruct Hl as (a & v & b & El & -> & ->). pose proof (lo_nodes m Hok) as Hn. rewrite El in Hn |- *.
      rewrite node_erase_split by done. split; [by eapply erase_node_ok|]. unfold items. simpl. by rewrite fmap_app.
    + destruct Hl as [-> ->]. done.
  - unfold lhm_pop_front, lhm_begin. destruct (list_ m) as [|[n [k v]] b] eqn:El; simpl.
    + unfold items. by rewrite El.
    + destruct (erase_split m [] n k v b Hok El) as [_ ->]. simpl.
      split; [by apply (erase_node_ok m [] n k v b)|]. unfold items. by rewrite El.
  - split; [|done]. destruct lhm_new_ok. by split.
  - unfold lhm_index. pose proof (insert_step_ok m k Value_default Hok) as Hs. unfold lhm_find.
    destruct (spec_insert (items m) k Value_default) as [l' r] eqn:Es.
    destruct Hs as ((m' & n & b & -> & Hok' & <- & <- & Hg) & _). simpl.
    destruct (node_get n (list_ m')) as [[k' w]|]; simpl in *.
    + split; [done|]. rewrite <- Hg. assert (flag b = match map_ m !! k with Some _ => 0 | None => 1 end) as ->; [|done].
      unfold spec_insert in Es. pose proof (lookup_items m k Hok) as Hl. destruct (map_ m !! k).
      * destruct Hl as (? & ? & ? & _ & Ea & _). rewrite Ea in Es. by injection Es.
      * destruct Hl as [Ea _]. rewrite Ea in Es. by injection Es.
    + exfalso. unfold spec_insert in Es. pose proof (lookup_items m k Hok) as Hl. destruct (map_ m !! k) eqn:E.
      * destruct Hl as (? & w & ? & _ & Ea & _). rewrite Ea in Es. injection Es as Ei _.
        rewrite <- Ei in Hg. congruence.
      * destruct Hl as [Ea _]. rewrite Ea in Es. injection Es as Ei _. rewrite <- Ei in Hg.
        rewrite assoc_split in Hg; [done|]. rewrite keys_elem by done. intros (? & ?). congruence.
Qed.

Lemma lhm_run_refines ops m :
  lhm_ok m ->
  match run_steps lhm_step m ops with
  | Some (m', rs) => lhm_ok m' /\ run_steps lhm_spec (items m) ops = Some (items m', rs)
  | None => run_steps lhm_spec (items m) ops = None
  end.
Proof.
  intros Hok.
  assert (simulates (fun m l => lhm_ok m /\ l = items m)
            (run_steps lhm_step m ops) (run_steps lhm_spec (items m) ops)) as Hrun.
  { apply run_steps_simulates; [|done]. intros d l op [Hd ->]. pose proof (lhm_step_refines d op Hd) as H1.
    destruct (lhm_step d op) as [[d' r]|]; [|done]. destruct H1 as [? ->]. eexists. eauto. }
  destruct (run_steps lhm_step m ops) as [[m' rs]|]; [|exact Hrun]. by destruct Hrun as (l & -> & ? & ->).
Qed.

Lemma erase_range_loop_spec fuel m a mid b :
  lhm_ok m -> list_ m = a ++ mid ++ b -> length mid <= fuel ->
  exists m', erase_range_loop fuel m (node_begin (mid ++ b)) (node_begin b) = Some (m', node_begin b) /\
    lhm_ok m' /\ list_ m' = a ++ b.
Proof.
  revert m fuel. induction mid as [|[n [k v]] mid IH]; intros m fuel Hok El Hf.
  - exists m. split; [|done]. simpl. destruct fuel; simpl; (destruct (node_begin b) eqn:Eb; [|done]);
      by rewrite bool_decide_eq_true_2.
  - destruct fuel as [|fuel]; simpl in Hf; [lia|]. cbn [node_begin head app fmap option_fmap option_map fst erase_range_loop].
    pose proof (lo_nodes m Hok) as Hn. rewrite El in Hn. simpl in Hn.
    assert (Some n <> node_begin b) as Hne.
    { intros Eb. apply split_nodes in Hn as [_ Hn]. apply Hn. rewrite nodes_app. apply elem_of_app. right.
      destruct b as [|y b]; simpl in Eb; [done|]. injection Eb as ->. constructor. }
    rewrite bool_decide_eq_false_2 by done.
    destruct (erase_split m a n k v (mid ++ b) Hok El) as [_ ->]. cbn [mbind option_bind].
    apply IH; [by eapply erase_node_ok|done|lia].
Qed.

(** ** Theorems *)

(** After any operations on a new [linked_hash_map] the calls have returned
    what a list of pairs with distinct keys in insertion order returns, the items
    are that list, front and back are its ends, and [find] leads to the value of
    the key; an operation is undefined only where it is for the list (removing
    the front of an empty map).  In particular the index and the list never
    disagree, so no [CHECK] fails. *)
Lemma linked_hash_map_refines (ops : list lhm_op) :
  match run_steps lhm_step lhm_new ops with
  | Some (m, results) =>
      run_steps lhm_spec [] ops = Some (items m, results) /\
      lhm_size m = length (items m) /\ lhm_front m = head (items m) /\ lhm_back m = last (items m) /\
      forall k, (n ← lhm_find m k; snd <$> node_get n (list_ m)) = assoc (items m) k
  | None => run_steps lhm_spec [] ops = None
  end.
Proof.
  pose proof (lhm_run_refines ops lhm_new lhm_new_ok) as Hr.
  destruct (run_steps lhm_step lhm_new ops) as [[m rs]|]; [|done]. destruct Hr as [Hok Hr].
  split; [exact Hr|]. unfold lhm_size, lhm_front, lhm_back, lhm_find, items.
  rewrite length_fmap, fmap_last. split_and!; [done|by destruct (list_ m)|done|].
  intros k. pose proof (lookup_items m k Hok) as Hl. destruct (map_ m !! k) as [n|]; simpl.
  - destruct Hl as (a & v & b & El & Ha & _). unfold items in Ha. rewrite Ha.
    pose proof (lo_nodes m Hok) as Hn. rewrite El in Hn |- *. by rewrite node_get_split.
  - destruct Hl as [Ha _]. unfold items in Ha. by rewrite Ha.
Qed.

(** [erase(first, last)] removes exactly the items from [first] up to [last]
    (or to the end) and returns [last]; index and list stay consistent. *)
Lemma linked_hash_map_erase_range (m : linked_hash_map) (a mid b : list (nat * (Key * Value))) :
  lhm_ok m -> list_ m = a ++ mid ++ b ->
  exists m', lhm_erase_range m (node_begin (mid ++ b)) (node_begin b) = Some (m', node_begin b) /\
    lhm_ok m' /\ list_ m' = a ++ b.
Proof.
  intros Hok El. apply erase_range_loop_spec; [done|done|]. unfold lhm_size. rewrite El, !length_app. lia.
Qed.

End LinkedHashMap.

Definition example_lhm : @linked_hash_map nat nat _ _ :=
  default lhm_new (fst <$> run_steps (lhm_step 0) lhm_new [LInsert 5 50; LInsert 3 30; LInsert 9 90]).

Lemma example_lhm_ok : lhm_ok example_lhm.
Proof.
  pose proof (lhm_run_refines 0 [LInsert 5 50; LInsert 3 30; LInsert 9 90] lhm_new lhm_new_ok) as H.
  exact (proj1 H).
Qed.

Lemma linked_hash_map_erase_range_witness :
  exists m', lhm_erase_range example_lhm (Some 0) (Some 2) = Some (m', Some 2) /\
    lhm_ok m' /\ list_ m' = [(2, (9, 90))].
Proof.
  exact (linked_hash_map_erase_range example_lhm [] [(0, (5, 50)); (1, (3, 30))] [(2, (9, 90))]
           example_lhm_ok eq_refl).
Defined.
