(* ===== verification/MruCache.v ===== *)
(** * base/containers/mru_cache.h: a cache in order of last use

    [ordering_] holds the pairs, the most recently used first; [index_] the list
    iterator of every key.  An iterator is a node, [None] being [end()]; a reverse
    iterator is its [base()].  [next_node] names the node the next allocation
    returns.  Dereferencing or erasing [end()] is [None]. *)

From stdpp Require Import gmap.
From S2P Require Import Prelude StdList LinkedHashMap.
#[local] Open Scope nat_scope.

Section MruCache.
Context {Key Payload : Type} `{Countable Key}.

Record MRUCacheBase := MkMRUCache {
  ordering_ : list (nat * (Key * Payload));
  index_ : gmap Key nat;
  max_size_ : nat;
  mru_next_node : nat
}.

Definition NO_AUTO_EVICT : nat := 0.

Definition mru_new (max_size : nat) : MRUCacheBase := MkMRUCache [] ∅ max_size 0.

Definition mru_begin (c : MRUCacheBase) : option nat := node_begin (ordering_ c).
Definition mru_end (c : MRUCacheBase) : option nat := None.
(** [rbegin().base() == end()], [rend().base() == begin()]. *)
Definition mru_rbegin (c : MRUCacheBase) : option nat := mru_end c.
Definition mru_rend (c : MRUCacheBase) : option nat := mru_begin c.
Definition mru_size (c : MRUCacheBase) : nat := size (index_ c).
Definition mru_empty (c : MRUCacheBase) : bool := match ordering_ c with [] => true | _ => false end.
Definition mru_max_size (c : MRUCacheBase) : nat := max_size_ c.

(** [Erase(iterator pos)]: gives the iterator to the following item. *)
Definition mru_Erase (c : MRUCacheBase) (pos : option nat) : option (MRUCacheBase * option nat) :=
  n ← pos;
  item ← node_get n (ordering_ c);
  next ← node_next n (ordering_ c);
  Some (MkMRUCache (node_erase n (ordering_ c)) (delete item.1 (index_ c)) (max_size_ c) (mru_next_node c), next).

(** [Erase(reverse_iterator pos)] erases [(++pos).base()], the node before [pos.base()]. *)
Definition mru_Erase_reverse (c : MRUCacheBase) (pos : option nat) : option (MRUCacheBase * option nat) :=
  n ← node_prev pos (ordering_ c); mru_Erase c (Some n).

Fixpoint ShrinkToSize_loop (count : nat) (c : MRUCacheBase) : option MRUCacheBase :=
  match count with
  | 0 => Some c
  | S count => '(c, _) ← mru_Erase_reverse c (mru_rbegin c); ShrinkToSize_loop count c
  end.
Definition ShrinkToSize (c : MRUCacheBase) (new_size : nat) : option MRUCacheBase :=
  ShrinkToSize_loop (mru_size c - new_size) c.

(** [ordering_.emplace_front] and [index_.emplace], which keeps an entry that is there. *)
Definition mru_emplace_front (c : MRUCacheBase) (key : Key) (payload : Payload) : MRUCacheBase :=
  let n := mru_next_node c in
  MkMRUCache ((n, (key, payload)) :: ordering_ c)
    (match index_ c !! key with Some _ => index_ c | None => <[key := n]> (index_ c) end)
    (max_size_ c) (S n).

Definition mru_Put (c : MRUCacheBase) (key : Key) (payload : Payload) : option (MRUCacheBase * option nat) :=
  c ← match index_ c !! key with
      | Some n => fst <$> mru_Erase c (Some n)
      | None => if Nat.eqb (max_size_ c) NO_AUTO_EVICT then Some c else ShrinkToSize c (max_size_ c - 1)
      end;
  let c := mru_emplace_front c key payload in
  Some (c, mru_begin c).

(** [Get]: [splice] moves the node itself, so iterators to it stay valid. *)
Definition mru_Get (c : MRUCacheBase) (key : Key) : option (MRUCacheBase * option nat) :=
  match index_ c !! key with
  | None => Some (c, mru_end c)
  | Some n =>
      item ← node_get n (ordering_ c);
      let c := MkMRUCache ((n, item) :: node_erase n (ordering_ c)) (index_ c) (max_size_ c) (mru_next_node c) in
      Some (c, mru_begin c)
  end.

Definition mru_Peek (c : MRUCacheBase) (key : Key) : option nat :=
  match index_ c !! key with None => mru_end c | Some n => Some n end.

Definition mru_Swap (c other : MRUCacheBase) : MRUCacheBase * MRUCacheBase :=
  (MkMRUCache (ordering_ other) (index_ other) (max_size_ other) (mru_next_node other),
   MkMRUCache (ordering_ c) (index_ c) (max_size_ c) (mru_next_node c)).

Definition mru_Clear (c : MRUCacheBase) : MRUCacheBase := MkMRUCache [] ∅ (max_size_ c) (mru_next_node c).

(** ** Invariant: the index is the list, as in [linked_hash_map] *)

Definition mru_view (c : MRUCacheBase) : linked_hash_map :=
  MkLinkedHashMap (index_ c) (ordering_ c) (mru_next_node c).
Definition mru_items (c : MRUCacheBase) : list (Key * Payload) := items (mru_view c).

Record mru_ok (c : MRUCacheBase) : Prop := {
  mo_view : lhm_ok (mru_view c);
  mo_bound : max_size_ c <> NO_AUTO_EVICT -> length (ordering_ c) <= max_size_ c
}.

(** The invariant does not depend on the order of the list. *)
Lemma lhm_ok_perm mp l k nx :
  l ≡ₚ k -> lhm_ok (MkLinkedHashMap mp l nx) -> lhm_ok (MkLinkedHashMap mp k nx : @linked_hash_map Key Payload _ _).
Proof.
  intros Hp [H1 H2 H3 H4]. unfold items, keys, nodes in *. simpl in *.
  split; unfold items, keys, nodes in *; simpl in *.
  - by rewrite <- Hp.
  - by rewrite <- Hp.
  - by rewrite <- Hp.
  - intros ky n. rewrite H4. split; intros (v & Hin); exists v; [rewrite <- Hp|rewrite Hp]; done.
Qed.

Lemma mru_size_length c : lhm_ok (mru_view c) -> mru_size c = length (ordering_ c).
Proof.
  intros Hok. unfold mru_size.
  assert (length (ordering_ c) = size (list_to_set (keys (mru_items c)) : gset Key)) as ->.
  { rewrite size_list_to_set by apply (lo_keys _ Hok). unfold keys, mru_items, items. by rewrite !length_fmap. }
  rewrite <- size_dom. f_equal. apply set_eq. intros k. rewrite elem_of_dom, elem_of_list_to_set.
  unfold mru_items. rewrite (keys_elem _ k Hok). done.
Qed.

(** ** One operation at a time *)

Definition with_items (c : MRUCacheBase) (l : list (nat * (Key * Payload))) (ix : gmap Key nat) : MRUCacheBase :=
  MkMRUCache l ix (max_size_ c) (mru_next_node c).

Lemma mru_erase_split c a n k v b :
  mru_ok c -> ordering_ c = a ++ (n, (k, v)) :: b ->
  let c' := with_items c (a ++ b) (delete k (index_ c)) in
  mru_Erase c (Some n) = Some (c', node_begin b) /\ mru_ok c' /\ index_ c !! k = Some n.
Proof.
  intros [Hok Hb] E c'. destruct (erase_split (mru_view c) a n k v b Hok E) as [Hk _].
  pose proof (lo_nodes _ Hok) as Hn. simpl in Hn. rewrite E in Hn. split_and!; [| |exact Hk].
  - unfold mru_Erase. rewrite E. cbn [mbind option_bind].
    rewrite node_get_split, node_next_split, node_erase_split by done. done.
  - split; [exact (erase_node_ok (mru_view c) a n k v b Hok E)|]. simpl. intros Hm. specialize (Hb Hm).
    rewrite E in Hb. rewrite length_app in *. simpl in Hb. lia.
Qed.

Lemma shrink_loop_spec count c :
  mru_ok c -> count <= length (ordering_ c) ->
  exists c', ShrinkToSize_loop count c = Some c' /\ mru_ok c' /\ max_size_ c' = max_size_ c /\
    ordering_ c' = take (length (ordering_ c) - count) (ordering_ c) /\
    forall k, index_ c !! k = None -> index_ c' !! k = None.
Proof.
  revert c. induction count as [|count IH]; intros c Hok Hc.
  - exists c. split_and!; try done. rewrite Nat.sub_0_r. by rewrite firstn_all.
  - destruct (ordering_ c) as [|[n [k v]] a _] eqn:E using rev_ind; [simpl in Hc; lia|].
    rewrite length_app in *. simpl in *. unfold mru_Erase_reverse, mru_rbegin, mru_end, node_prev, node_last.
    rewrite E, last_snoc. cbn [fmap option_fmap option_map mbind option_bind fst].
    destruct (mru_erase_split c a n k v [] Hok E) as (-> & Hok' & Hk). cbn [mbind option_bind].
    destruct (IH _ Hok') as (c' & -> & Hc' & Hm & Ho & Hi); [simpl; rewrite app_nil_r; lia|].
    exists c'. split_and!; try done.
    + rewrite Ho. simpl. rewrite app_nil_r. rewrite take_app_le by lia. f_equal. lia.
    + intros j Hj. apply Hi. simpl. destruct (decide (j = k)) as [->|]; [by rewrite lookup_delete_eq|].
      by rewrite lookup_delete_ne.
Qed.

Lemma ShrinkToSize_spec c new_size :
  mru_ok c ->
  exists c', ShrinkToSize c new_size = Some c' /\ mru_ok c' /\ max_size_ c' = max_size_ c /\
    ordering_ c' = take new_size (ordering_ c) /\
    forall k, index_ c !! k = None -> index_ c' !! k = None.
Proof.
  intros Hok. unfold ShrinkToSize. rewrite mru_size_length by apply Hok.
  destruct (shrink_loop_spec (length (ordering_ c) - new_size) c Hok) as (c' & -> & H1 & H2 & H3 & H4); [lia|].
  exists c'. split_and!; try done. rewrite H3. destruct (decide (new_size <= length (ordering_ c))).
  - f_equal. lia.
  - rewrite !take_ge by lia. done.
Qed.

Lemma mru_emplace_front_spec c k v :
  mru_ok c -> index_ c !! k = None ->
  (max_size_ c <> NO_AUTO_EVICT -> length (ordering_ c) < max_size_ c) ->
  mru_ok (mru_emplace_front c k v) /\ mru_items (mru_emplace_front c k v) = (k, v) :: mru_items c.
Proof.
  intros [Hok Hb] Hk Hlt. split; [|done]. unfold mru_emplace_front. rewrite Hk. split; simpl.
  - eapply lhm_ok_perm; [|exact (append_node_ok (mru_view c) k v Hok Hk)]. simpl. by rewrite Permutation_app_comm.
  - intros Hm. specialize (Hlt Hm). lia.
Qed.

Lemma splice_front_spec c a n k v b :
  mru_ok c -> ordering_ c = a ++ (n, (k, v)) :: b ->
  let c' := with_items c ((n, (k, v)) :: a ++ b) (index_ c) in
  mru_Get c k = Some (c', Some n) /\ mru_ok c'.
Proof.
  intros Hok E c'. destruct (mru_erase_split c a n k v b Hok E) as (_ & _ & Hk).
  destruct Hok as [Hv Hb]. pose proof (lo_nodes _ Hv) as Hn. simpl in Hn. rewrite E in Hn. split.
  - unfold mru_Get. rewrite Hk, E, node_get_split, node_erase_split by done. done.
  - split; simpl.
    + eapply lhm_ok_perm; [|exact Hv]. simpl. rewrite E. by rewrite Permutation_middle.
    + intros Hm. specialize (Hb Hm). rewrite E in Hb. rewrite length_app in *. simpl in *. lia.
Qed.

(** ** The specification: pairs with distinct keys, the most recently used first *)

Inductive mru_op :=
  | MPut (k : Key) (v : Payload)
  | MGet (k : Key)
  | MPeek (k : Key)
  | MErase (k : Key)       (* [Erase(Peek(k))] *)
  | MEraseOldest           (* [Erase(rbegin())] *)
  | MShrink (new_size : nat)
  | MClear.

Definition remove_key (l : list (Key * Payload)) (k : Key) : list (Key * Payload) :=
  List.filter (fun p => negb (bool_decide (p.1 = k))) l.

Fixpoint item_after (l : list (Key * Payload)) (k : Key) : option (Key * Payload) :=
  match l with
  | [] => None
  | p :: l => if bool_decide (p.1 = k) then head l else item_after l k
  end.

(** A step gives the new state and the item the returned iterator refers to. *)
Definition mru_spec (max_size : nat) (l : list (Key * Payload)) (op : mru_op)
    : option (list (Key * Payload) * option (Key * Payload)) :=
  match op with
  | MPut k v =>
      let kept := match assoc l k with
                  | Some _ => remove_key l k
                  | None => if Nat.eqb max_size NO_AUTO_EVICT then l else take (max_size - 1) l
                  end in
      Some ((k, v) :: kept, Some (k, v))
  | MGet k => match assoc l k with
              | None => Some (l, None)
              | Some v => Some ((k, v) :: remove_key l k, Some (k, v))
              end
  | MPeek k => Some (l, pair k <$> assoc l k)
  | MErase k => match assoc l k with None => None | Some _ => Some (remove_key l k, item_after l k) end
  | MEraseOldest =>
      match l with [] => None | _ => let l' := take (length l - 1) l in Some (l', last l') end
  | MShrink n => Some (take n l, None)
  | MClear => Some ([], None)
  end.

Definition mru_item (c : MRUCacheBase) (it : option nat) : option (Key * Payload) :=
  n ← it; node_get n (ordering_ c).

Definition mru_step (c : MRUCacheBase) (op : mru_op) : option (MRUCacheBase * option (Key * Payload)) :=
  match op with
  | MPut k v => '(c, it) ← mru_Put c k v; Some (c, mru_item c it)
  | MGet k => '(c, it) ← mru_Get c k; Some (c, mru_item c it)
  | MPeek k => Some (c, mru_item c (mru_Peek c k))
  | MErase k => '(c, it) ← mru_Erase c (mru_Peek c k); Some (c, mru_item c it)
  | MEraseOldest => '(c, it) ← mru_Erase_reverse c (mru_rbegin c);
                    Some (c, mru_item c (node_prev it (ordering_ c)))
  | MShrink n => c ← ShrinkToSize c n; Some (c, None)
  | MClear => Some (mru_Clear c, None)
  end.

(** Looking a key up in the index and in the items. *)
Lemma mru_lookup c k :
  mru_ok c ->
  match index_ c !! k with
  | Some n => exists a v b, ordering_ c = a ++ (n, (k, v)) :: b /\ assoc (mru_items c) k = Some v /\
      remove_key (mru_items c) k = snd <$> (a ++ b) /\
      item_after (mru_items c) k = snd <$> head b
  | None => assoc (mru_items c) k = None
  end.
Proof.
  intros [Hok _]. pose proof (lookup_items (mru_view c) k Hok) as Hl. simpl in Hl.
  destruct (index_ c !! k) as [n|]; [|by destruct Hl].
  destruct Hl as (a & v & b & E & Ha & Hr). exists a, v, b. split_and!; [done|done| |].
  - rewrite fmap_app. exact Hr.
  - pose proof (lo_keys _ Hok) as Hk. unfold mru_items. rewrite (items_split (mru_view c) _ _ _ _ E) in *. clear -Hk.
    unfold keys in Hk. rewrite fmap_app in Hk. apply NoDup_app in Hk as (_ & Hd & _).
    induction a as [|[m [j w]] a IH]; simpl in *.
    + rewrite bool_decide_eq_true_2 by done. by destruct b.
    + rewrite bool_decide_eq_false_2; [apply IH; intros x Hx; apply Hd; by constructor|].
      intros ->. apply (Hd k); constructor.
Qed.

Lemma mru_item_begin c a b :
  mru_ok c -> ordering_ c = a ++ b -> mru_item c (node_begin b) = snd <$> head b.
Proof.
  intros [Hok _] E. destruct b as [|[n p] b]; [done|]. simpl.
  apply node_get_elem; [exact (lo_nodes _ Hok)|]. rewrite E. apply elem_of_app. right. constructor.
Qed.

Lemma mru_Put_refines c k v :
  mru_ok c ->
  exists c', mru_Put c k v = Some (c', mru_begin c') /\ mru_ok c' /\ max_size_ c' = max_size_ c /\
    mru_spec (max_size_ c) (mru_items c) (MPut k v) = Some (mru_items c', Some (k, v)).
Proof.
  intros Hok. unfold mru_Put, mru_spec. pose proof (mru_lookup c k Hok) as Hl.
  destruct (index_ c !! k) as [n|] eqn:E.
  - destruct Hl as (a & w & b & Eo & -> & -> & _).
    destruct (mru_erase_split c a n k w b Hok Eo) as (-> & Hok' & _). cbn [mbind option_bind fmap option_fmap option_map fst].
    eexists. split; [done|]. destruct (mru_emplace_front_spec _ k v Hok') as [H1 H2].
    + simpl. apply lookup_delete_eq.
    + simpl. intros Hm. pose proof (mo_bound c Hok Hm) as Hb. rewrite Eo in Hb. rewrite length_app in *. simpl in Hb. lia.
    + split_and!; [exact H1|done|]. by rewrite H2.
  - rewrite Hl. destruct (Nat.eqb_spec (max_size_ c) NO_AUTO_EVICT) as [Em|Em].
    + cbn [mbind option_bind]. eexists. split; [done|]. destruct (mru_emplace_front_spec c k v Hok E) as [H1 H2]; [done|].
      split_and!; [exact H1|done|]. by rewrite H2.
    + destruct (ShrinkToSize_spec c (max_size_ c - 1) Hok) as (c1 & -> & Hok1 & Hm1 & Ho1 & Hi1).
      cbn [mbind option_bind]. eexists. split; [done|].
      destruct (mru_emplace_front_spec c1 k v Hok1 (Hi1 k E)) as [H1 H2].
      { rewrite Ho1, Hm1, length_take. unfold NO_AUTO_EVICT. lia. }
      split_and!; [exact H1|done|]. rewrite H2. unfold mru_items at 2, items. simpl. rewrite Ho1.
      by rewrite fmap_take.
Qed.

Lemma mru_EraseOldest_refines c :
  mru_ok c ->
  match mru_step c MEraseOldest with
  | Some (c', r) => mru_ok c' /\ max_size_ c' = max_size_ c /\
      mru_spec (max_size_ c) (mru_items c) MEraseOldest = Some (mru_items c', r)
  | None => mru_spec (max_size_ c) (mru_items c) MEraseOldest = None
  end.
Proof.
  intros Hok. cbn [mru_step]. unfold mru_Erase_reverse, mru_rbegin, mru_end.
  destruct (ordering_ c) as [|[n [k v]] a _] eqn:E using rev_ind.
  - unfold mru_items, items. simpl. by rewrite E.
  - unfold node_prev, node_last. rewrite last_snoc. cbn [fmap option_fmap option_map mbind option_bind fst].
    destruct (mru_erase_split c a n k v [] Hok E) as (-> & Hok' & _). cbn [mbind option_bind node_begin head fmap option_fmap option_map].
    split_and!; [done|done|]. assert (mru_items c = (snd <$> a) ++ [(k, v)]) as ->.
    { unfold mru_items, items. simpl. rewrite E. by rewrite fmap_app. }
    unfold mru_items at 1, items. simpl. rewrite app_nil_r, length_app. simpl. rewrite Nat.add_sub, take_mid.
    destruct ((snd <$> a) ++ [(k, v)]) eqn:Ea; [by destruct (snd <$> a)|]. f_equal. f_equal. clear Ea.
    rewrite fmap_last. pose proof (lo_nodes _ (mo_view _ Hok')) as Hn. simpl in Hn. rewrite app_nil_r in Hn.
    destruct a as [|[m [j w]] a _] using rev_ind; [done|]. rewrite last_snoc. simpl.
    symmetry. by apply node_get_split.
Qed.

Lemma mru_step_refines c op :
  mru_ok c ->
  match mru_step c op with
  | Some (c', r) => mru_ok c' /\ max_size_ c' = max_size_ c /\
      mru_spec (max_size_ c) (mru_items c) op = Some (mru_items c', r)
  | None => mru_spec (max_size_ c) (mru_items c) op = None
  end.
Proof.
  intros Hok. destruct op as [k v|k|k|k| |n|]; [..|exact (mru_EraseOldest_refines c Hok)| |]; cbn [mru_step].
  - destruct (mru_Put_refines c k v Hok) as (c' & -> & Hok' & Hm & Hs). cbn [mbind option_bind].
    split_and!; [done|done|]. rewrite Hs. do 2 f_equal. unfold mru_begin. rewrite (mru_item_begin c' [] _ Hok' eq_refl).
    cbn [mru_spec] in Hs. injection Hs as Hi. change (mru_items c') with (snd <$> ordering_ c') in Hi.
    destruct (ordering_ c'); simpl in Hi; [done|]. injection Hi as Hi _. simpl. by rewrite <- Hi.
  - unfold mru_spec. pose proof (mru_lookup c k Hok) as Hl. destruct (index_ c !! k) as [n|] eqn:E.
    + destruct Hl as (a & v & b & Eo & -> & -> & _).
      destruct (splice_front_spec c a n k v b Hok Eo) as (-> & Hok'). cbn [mbind option_bind].
      split_and!; [done|done|]. do 2 f_equal. symmetry. apply (mru_item_begin _ [] _ Hok' eq_refl).
    + unfold mru_Get. rewrite E, Hl. simpl. done.
  - unfold mru_Peek, mru_spec. pose proof (mru_lookup c k Hok) as Hl. destruct (index_ c !! k) as [n|] eqn:E.
    + destruct Hl as (a & v & b & Eo & -> & _). split_and!; [done|done|]. simpl.
      pose proof (lo_nodes _ (mo_view _ Hok)) as Hn. simpl in Hn. rewrite Eo in Hn |- *. by rewrite node_get_split.
    + rewrite Hl. done.
  - unfold mru_Peek, mru_spec. pose proof (mru_lookup c k Hok) as Hl. destruct (index_ c !! k) as [n|] eqn:E.
    + destruct Hl as (a & v & b & Eo & -> & -> & ->).
      destruct (mru_erase_split c a n k v b Hok Eo) as (-> & Hok' & _). cbn [mbind option_bind].
      split_and!; [done|done|]. by rewrite (mru_item_begin _ a b Hok').
    + rewrite Hl. done.
  - destruct (ShrinkToSize_spec c n Hok) as (c' & -> & Hok' & Hm & Ho & _). cbn [mbind option_bind mru_spec].
    split_and!; [done|done|]. unfold mru_items, items. simpl. by rewrite Ho, fmap_take.
  - split_and!; [|done|done]. split; [|simpl; lia]. destruct (lhm_new_ok (Key:=Key) (Value:=Payload)). by split.
Qed.

Lemma mru_run_refines ops c :
  mru_ok c ->
  match run_steps mru_step c ops with
  | Some (c', rs) => mru_ok c' /\ max_size_ c' = max_size_ c /\
      run_steps (mru_spec (max_size_ c)) (mru_items c) ops = Some (mru_items c', rs)
  | None => run_steps (mru_spec (max_size_ c)) (mru_items c) ops = None
  end.
Proof.
  intros Hok.
  assert (simulates (fun d l => mru_ok d /\ max_size_ d = max_size_ c /\ l = mru_items d)
            (run_steps mru_step c ops) (run_steps (mru_spec (max_size_ c)) (mru_items c) ops)) as Hrun.
  { apply run_steps_simulates; [|done]. intros d l op (Hd & Hm & ->). pose proof (mru_step_refines d op Hd) as H1. rewrite <- Hm.
    destruct (mru_step d op) as [[d' r]|]; [|done]. destruct H1 as (? & ? & ->). eexists. split_and!; eauto. }
  destruct (run_steps mru_step c ops) as [[c' rs]|]; [|exact Hrun].
  destruct Hrun as (l & -> & ? & ? & ->). done.
Qed.

(** ** The most recently used keys *)

Lemma remove_key_absent (l : list (Key * Payload)) k : k ∉ keys l -> remove_key l k = l.
Proof.
  unfold remove_key, keys. induction l as [|p l IH]; simpl; [done|]. intros [Hp Hl]%not_elem_of_cons.
  rewrite bool_decide_eq_false_2 by congruence. simpl. by rewrite IH.
Qed.

Lemma assoc_none_elem (l : list (Key * Payload)) k : assoc l k = None -> k ∉ keys l.
Proof.
  unfold assoc. intros Hf%fmap_None ([k' v'] & -> & Hin)%list_elem_of_fmap.
  apply list_elem_of_In in Hin. apply (List.find_none _ _ Hf) in Hin. simpl in Hin.
  by rewrite bool_decide_eq_true_2 in Hin.
Qed.

(** Removing a key among the first [S n] items, or one that is not there. *)
Lemma remove_key_take (l : list (Key * Payload)) k n :
  NoDup (keys l) ->
  take n (remove_key l k) =
    match assoc (take (S n) l) k with Some _ => remove_key (take (S n) l) k | None => take n l end.
Proof.
  revert n. induction l as [|[j w] l IH]; intros n Hnd; [by destruct n|].
  unfold keys in Hnd. simpl in Hnd. apply NoDup_cons in Hnd as [Hj Hnd]. unfold assoc, remove_key. simpl.
  destruct (decide (j = k)) as [->|Hne].
  - rewrite !bool_decide_eq_true_2 by done. simpl. fold (remove_key l k). rewrite (remove_key_absent l k Hj).
    fold (remove_key (take n l) k). rewrite remove_key_absent; [done|]. intros Hin. apply Hj.
    unfold keys in Hin. rewrite <- (firstn_skipn n l), fmap_app. apply elem_of_app. by left.
  - rewrite !bool_decide_eq_false_2 by done. simpl. destruct n as [|n]; [done|]. simpl.
    specialize (IH n Hnd). unfold assoc, remove_key in IH. rewrite IH. simpl.
    by destruct (List.find _ (take (S n) l)).
Qed.

(** A limited and an unlimited cache that agree on the most recent items still do
    after the same [Put]. *)
Lemma put_most_recent c u k v :
  mru_ok c -> mru_ok u -> max_size_ c <> NO_AUTO_EVICT -> max_size_ u = NO_AUTO_EVICT ->
  mru_items c = take (max_size_ c) (mru_items u) ->
  exists c' u', mru_step c (MPut k v) = Some (c', Some (k, v)) /\ mru_step u (MPut k v) = Some (u', Some (k, v)) /\
    mru_ok c' /\ mru_ok u' /\ max_size_ c' = max_size_ c /\ max_size_ u' = NO_AUTO_EVICT /\
    mru_items c' = take (max_size_ c) (mru_items u').
Proof.
  intros Hc Hu Em Eu E. pose proof (mru_step_refines c (MPut k v) Hc) as Sc.
  pose proof (mru_step_refines u (MPut k v) Hu) as Su. unfold mru_spec in Sc, Su.
  destruct (mru_step c (MPut k v)) as [[c' r]|]; [|done]. destruct (mru_step u (MPut k v)) as [[u' r']|]; [|done].
  destruct Sc as (Hc' & Mc' & Ic). destruct Su as (Hu' & Mu' & Iu). injection Ic as Ic <-. injection Iu as Iu <-.
  exists c', u'. split_and!; try done; [congruence|]. rewrite <- Ic, <- Iu, E, Eu. cbn [Nat.eqb NO_AUTO_EVICT].
  assert (match assoc (mru_items u) k with Some _ => remove_key (mru_items u) k | None => mru_items u end
          = remove_key (mru_items u) k) as ->.
  { destruct (assoc (mru_items u) k) eqn:Ea; [done|]. by rewrite remove_key_absent by (by apply assoc_none_elem). }
  destruct (max_size_ c) as [|n]; [done|]. simpl Nat.eqb. cbn [firstn]. f_equal.
  rewrite remove_key_take by apply (lo_keys _ (mo_view _ Hu)).
  replace (S n - 1) with n by lia. rewrite take_take. by replace (n `min` S n) with n by lia.
Qed.

(** ** Theorems *)

(** After any operations on a new cache the calls have returned what the
    list of pairs in order of last use returns, and the cache holds that list:
    [Put] and [Get] move to the front, [Put] of a new key first drops the least
    recently used items down to the limit, [Peek] changes nothing, erasing and
    shrinking remove exactly the items named.  An operation is undefined only
    where it is for the list (erasing what is not there).  The index and the list
    never disagree ([size()]'s [DCHECK]), and a limited cache never exceeds its
    limit. *)
Lemma mru_cache_refines (max_size : nat) (ops : list mru_op) :
  match run_steps mru_step (mru_new max_size) ops with
  | Some (c, results) =>
      run_steps (mru_spec max_size) [] ops = Some (mru_items c, results) /\
      NoDup (keys (mru_items c)) /\
      mru_size c = length (ordering_ c) /\
      (max_size = NO_AUTO_EVICT \/ mru_size c <= max_size) /\
      (mru_empty c = true <-> mru_size c = 0)
  | None => run_steps (mru_spec max_size) [] ops = None
  end.
Proof.
  assert (mru_ok (mru_new max_size)) as Hn by (split; [exact lhm_new_ok|simpl; lia]).
  pose proof (mru_run_refines ops (mru_new max_size) Hn) as Hr.
  destruct (run_steps mru_step (mru_new max_size) ops) as [[c rs]|]; [|done].
  destruct Hr as ([Hv Hb] & Hm & Hr). split; [exact Hr|]. rewrite mru_size_length by done.
  split_and!; [exact (lo_keys _ Hv)|done| |].
  - simpl in Hm. rewrite Hm in Hb. destruct (decide (max_size = NO_AUTO_EVICT)); auto.
  - unfold mru_empty. by destruct (ordering_ c).
Qed.

(** However many items are put into a cache with limit [max_size], it holds
    exactly the [max_size] keys put most recently, each with its last payload:
    the first [max_size] items of what a cache without limit holds after the same
    calls. *)
Lemma mru_cache_keeps_most_recent (max_size : nat) (puts : list (Key * Payload)) :
  max_size <> NO_AUTO_EVICT ->
  let run limit := run_steps mru_step (mru_new limit) ((fun p => MPut p.1 p.2) <$> puts) in
  exists c u rs, run max_size = Some (c, rs) /\ run NO_AUTO_EVICT = Some (u, rs) /\
    mru_items c = take max_size (mru_items u).
Proof.
  intros Hmax run. unfold run. clear run.
  enough (forall c u, mru_ok c -> mru_ok u -> max_size_ c = max_size -> max_size_ u = NO_AUTO_EVICT ->
    mru_items c = take max_size (mru_items u) ->
    exists c' u' rs, run_steps mru_step c ((fun p => MPut p.1 p.2) <$> puts) = Some (c', rs) /\
      run_steps mru_step u ((fun p => MPut p.1 p.2) <$> puts) = Some (u', rs) /\
      mru_items c' = take max_size (mru_items u')) as Hgen.
  { apply Hgen; try done; [split; [exact lhm_new_ok|simpl; lia]..|by destruct max_size]. }
  induction puts as [|[k v] puts IH]; intros c u Hc Hu Emc Emu E; [eexists _, _, _; eauto|].
  cbn [fmap list_fmap run_steps fst snd]. rewrite <- Emc in Hmax, E.
  destruct (put_most_recent c u k v Hc Hu Hmax Emu E) as (c1 & u1 & -> & -> & Hc1 & Hu1 & M1 & M2 & E1).
  cbn [mbind option_bind]. rewrite Emc in E1, M1.
  destruct (IH c1 u1 Hc1 Hu1 M1 M2 E1) as (c2 & u2 & rs & -> & -> & E2). cbn [mbind option_bind].
  by eexists _, _, _.
Qed.
End MruCache.

Lemma mru_cache_keeps_most_recent_witness :
  let run limit := run_steps mru_step (mru_new limit) ((fun p => MPut p.1 p.2) <$> [(1, 10); (2, 20); (1, 11); (3, 30)]) in
  exists c u rs, run 2 = Some (c, rs) /\ run 0 = Some (u, rs) /\ mru_items c = take 2 (mru_items u).
Proof.
  exact (mru_cache_keeps_most_recent 2 [(1, 10); (2, 20); (1, 11); (3, 30)] ltac:(discriminate)).
Defined.
