(* ===== verification/SmallMap.v ===== *)
(** * base/containers/small_map.h: an inline array that turns into a map

    Up to [kArraySize] pairs live in an array inside the object; one more moves
    them into a [NormalMap].  Array and map share memory (a union) and their
    objects are constructed and destroyed by hand through
    base/memory/manual_constructor.h, so the array is modelled slot by slot as in
    [CircularDeque]: [None] is raw memory.  Constructing over a live object,
    reading or destroying raw memory, using the member of the union that is not
    active and abandoning a live object are undefined ([None] as the result).

    A [NormalMap] is its pairs in iteration order; where a new pair goes is the
    map's own business ([place]): the sorted position for [std::map], any position
    for a hash map.  Its iterator is a key, [None] being [end()]. *)

From stdpp Require Import gmap.
From S2P Require Import Prelude StdSet CircularDeque.
#[local] Open Scope nat_scope.

(** ** The wrapped map and the key equality *)

Class MapPlacement {P : Type} (place : list P -> P -> list P) : Prop :=
  place_perm : forall l x, place l x ≡ₚ x :: l.

Class EqualKey {K : Type} (key_equal : K -> K -> bool) : Prop :=
  key_equal_spec : forall a b, key_equal a b = true <-> a = b.

(** [select_equal_key]: equality from a strict weak ordering. *)
Definition equal_key {K} (comp : K -> K -> bool) (left right : K) : bool :=
  negb (comp left right) && negb (comp right left).

#[export] Instance equal_key_ok {K} (comp : K -> K -> bool) `{!StrictOrderBool comp} : EqualKey (equal_key comp).
Proof.
  intros a b. unfold equal_key. rewrite andb_true_iff, !negb_true_iff.
  split; [intros [? ?]; by apply ltb_total|]. intros ->. by rewrite ltb_irrefl.
Qed.

(** The position of a new pair in a [std::map] ordered by [comp]. *)
Fixpoint std_map_place {K V} (comp : K -> K -> bool) (l : list (K * V)) (x : K * V) : list (K * V) :=
  match l with
  | [] => [x]
  | y :: l => if comp x.1 y.1 then x :: y :: l else y :: std_map_place comp l x
  end.

#[export] Instance std_map_placement {K V} (comp : K -> K -> bool) : MapPlacement (std_map_place (V:=V) comp).
Proof.
  intros l x. induction l as [|y l IH]; simpl; [done|]. destruct (comp x.1 y.1); [done|].
  rewrite IH. apply Permutation_swap.
Qed.

Section SmallMap.
Context {K V : Type} `{Countable K} (data_default : V).
Context (key_equal : K -> K -> bool) `{!EqualKey key_equal}.
Context (place : list (K * V) -> K * V -> list (K * V)) `{!MapPlacement place}.
Context (kArraySize : nat).

#[local] Abbreviation value_type := (K * V)%type.
#[local] Abbreviation NormalMap := (list value_type).
#[local] Abbreviation array := (list (option value_type)).

Definition nm_find (m : NormalMap) (key : K) : option K := fst <$> List.find (fun x => bool_decide (x.1 = key)) m.
Definition nm_insert (m : NormalMap) (x : value_type) : NormalMap * option K * bool :=
  match nm_find m x.1 with Some k => (m, Some k, false) | None => (place m x, Some x.1, true) end.
Definition nm_begin (m : NormalMap) : option K := fst <$> head m.
Definition nm_get (m : NormalMap) (it : option K) : option value_type :=
  k ← it; List.find (fun x => bool_decide (x.1 = k)) m.
Fixpoint nm_next (m : NormalMap) (k : K) : option (option K) :=
  match m with [] => None | x :: m => if bool_decide (x.1 = k) then Some (nm_begin m) else nm_next m k end.
Fixpoint nm_prev_from (before : option K) (m : NormalMap) (it : option K) : option K :=
  match m with
  | [] => match it with None => before | Some _ => None end
  | x :: m => if bool_decide (Some x.1 = it) then before else nm_prev_from (Some x.1) m it
  end.
Definition nm_prev (m : NormalMap) (it : option K) : option K := nm_prev_from None m it.
Definition nm_erase (m : NormalMap) (it : option K) : option (NormalMap * option K) :=
  k ← it; next ← nm_next m k; Some (List.filter (fun x => negb (bool_decide (x.1 = k))) m, next).
Definition nm_assign (m : NormalMap) (it : option K) (v : V) : option NormalMap :=
  k ← it; _ ← nm_get m it; Some ((fun x => if bool_decide (x.1 = k) then (x.1, v) else x) <$> m).

(** ** ManualConstructor *)

Definition mc_get (a : array) (i : nat) : option value_type := slot_read a i.
Definition mc_Init (a : array) (i : nat) (x : value_type) : option array := slot_construct a i x.
Definition mc_InitFromMove (a : array) (i : nat) (from : array) (j : nat) : option array :=
  x ← mc_get from j; mc_Init a i x.
Definition mc_Destroy (a : array) (i : nat) : option array := slot_destroy a i.

(** ** The object *)

Inductive storage := array_ (a : array) | map_ (m : NormalMap).
Record small_map := MkSmallMap { size_ : Z; union_ : storage }.

Definition get_array (m : small_map) : option array := match union_ m with array_ a => Some a | map_ _ => None end.
Definition get_map (m : small_map) : option NormalMap := match union_ m with map_ n => Some n | array_ _ => None end.
Definition raw_array : array := replicate kArraySize None.
Definition all_raw (a : array) : bool := forallb (fun s => match s with None => true | Some _ => false end) a.

Definition UsingFullMap (m : small_map) : bool := (size_ m <? 0)%Z.

(** [map()] with its [CHECK]. *)
Definition sm_map (m : small_map) : option NormalMap := if UsingFullMap m then get_map m else None.

Definition small_map_new : small_map := MkSmallMap 0 (array_ raw_array).

(** ** Iterators *)

Record iterator := MkIterator { array_iter_ : option nat; hash_iter_ : option K }.

Definition iterator_array (i : nat) : iterator := MkIterator (Some i) None.
Definition iterator_map (k : option K) : iterator := MkIterator None k.

Definition it_next (m : small_map) (it : iterator) : option iterator :=
  match array_iter_ it with
  | Some i => Some (MkIterator (Some (S i)) (hash_iter_ it))
  | None => n ← get_map m; k ← hash_iter_ it; k' ← nm_next n k; Some (MkIterator None k')
  end.

Definition it_prev (m : small_map) (it : iterator) : option iterator :=
  match array_iter_ it with
  | Some 0 => None
  | Some (S i) => Some (MkIterator (Some i) (hash_iter_ it))
  | None => n ← get_map m; k ← nm_prev n (hash_iter_ it); Some (MkIterator None (Some k))
  end.

Definition it_deref (m : small_map) (it : iterator) : option value_type :=
  match array_iter_ it with
  | Some i => a ← get_array m; mc_get a i
  | None => n ← get_map m; nm_get n (hash_iter_ it)
  end.

Definition it_eqb (it other : iterator) : bool :=
  match array_iter_ it with
  | Some i => bool_decide (Some i = array_iter_ other)
  | None => bool_decide (array_iter_ other = None) && bool_decide (hash_iter_ it = hash_iter_ other)
  end.

Definition sm_begin (m : small_map) : option iterator :=
  if (0 <=? size_ m)%Z then Some (iterator_array 0) else n ← get_map m; Some (iterator_map (nm_begin n)).

Definition sm_end (m : small_map) : option iterator :=
  if (0 <=? size_ m)%Z then Some (iterator_array (Z.to_nat (size_ m))) else _ ← get_map m; Some (iterator_map None).

(** Writing through a reference to the pair at [it]. *)
Definition it_assign (m : small_map) (it : iterator) (v : V) : option small_map :=
  match array_iter_ it with
  | Some i => a ← get_array m; x ← mc_get a i; Some (MkSmallMap (size_ m) (array_ (<[i := Some (x.1, v)]> a)))
  | None => n ← get_map m; n ← nm_assign n (hash_iter_ it) v; Some (MkSmallMap (size_ m) (map_ n))
  end.

(** ** Operations *)

(** The forward search of [find], [insert] and [emplace], and the backward search
    of [operator\[\]]. *)
Fixpoint find_loop (n i : nat) (a : array) (key : K) : option (option nat) :=
  match n with
  | 0 => Some None
  | S n => x ← mc_get a i; if key_equal x.1 key then Some (Some i) else find_loop n (S i) a key
  end.
Fixpoint find_back_loop (n : nat) (a : array) (key : K) : option (option nat) :=
  match n with
  | 0 => Some None
  | S n => x ← mc_get a n; if key_equal x.1 key then Some (Some n) else find_back_loop n a key
  end.

Definition sm_find (m : small_map) (key : K) : option iterator :=
  if (0 <=? size_ m)%Z then
    a ← get_array m;
    r ← find_loop (Z.to_nat (size_ m)) 0 a key;
    Some (match r with Some i => iterator_array i | None => iterator_array (Z.to_nat (size_ m)) end)
  else n ← sm_map m; Some (iterator_map (nm_find n key)).

(** The two loops of [ConvertToRealMap]. *)
Fixpoint move_out_loop (n i : nat) (a temp : array) : option (array * array) :=
  match n with
  | 0 => Some (a, temp)
  | S n =>
      temp ← mc_InitFromMove temp i a i;
      a ← mc_Destroy a i;
      move_out_loop n (S i) a temp
  end.
Fixpoint insert_loop (n i : nat) (m : NormalMap) (temp : array) : option (NormalMap * array) :=
  match n with
  | 0 => Some (m, temp)
  | S n =>
      x ← mc_get temp i;
      let m := fst (fst (nm_insert m x)) in
      temp ← mc_Destroy temp i;
      insert_loop n (S i) m temp
  end.
Definition ConvertToRealMap (m : small_map) : option small_map :=
  a ← get_array m;
  '(a, temp_array) ← move_out_loop kArraySize 0 a raw_array;
  if all_raw a then
    '(n, temp_array) ← insert_loop kArraySize 0 [] temp_array;
    if all_raw temp_array then Some (MkSmallMap (-1) (map_ n)) else None
  else None.

(** [map_->insert(x)]. *)
Definition map_insert (m : small_map) (x : value_type) : option (small_map * iterator * bool) :=
  n ← get_map m;
  let '(n, it, b) := nm_insert n x in
  Some (MkSmallMap (size_ m) (map_ n), iterator_map it, b).

Definition sm_insert (m : small_map) (x : value_type) : option (small_map * iterator * bool) :=
  if (0 <=? size_ m)%Z then
    a ← get_array m;
    r ← find_loop (Z.to_nat (size_ m)) 0 a x.1;
    match r with
    | Some i => Some (m, iterator_array i, false)
    | None =>
        if (size_ m =? Z.of_nat kArraySize)%Z then
          m ← ConvertToRealMap m; map_insert m x
        else
          a ← mc_Init a (Z.to_nat (size_ m)) x;
          Some (MkSmallMap (size_ m + 1) (array_ a), iterator_array (Z.to_nat (size_ m)), true)
    end
  else map_insert m x.

(** [emplace] makes the pair first; for the map case the arguments are forwarded. *)
Definition sm_emplace (m : small_map) (key : K) (data : V) : option (small_map * iterator * bool) :=
  if (0 <=? size_ m)%Z then
    let x := (key, data) in
    a ← get_array m;
    r ← find_loop (Z.to_nat (size_ m)) 0 a x.1;
    match r with
    | Some i => Some (m, iterator_array i, false)
    | None =>
        if (size_ m =? Z.of_nat kArraySize)%Z then
          m ← ConvertToRealMap m; map_insert m x
        else
          a ← mc_Init a (Z.to_nat (size_ m)) x;
          Some (MkSmallMap (size_ m + 1) (array_ a), iterator_array (Z.to_nat (size_ m)), true)
    end
  else map_insert m (key, data).

(** [insert(f, l)]. *)
Fixpoint sm_insert_range (m : small_map) (xs : list value_type) : option small_map :=
  match xs with [] => Some m | x :: xs => '(m, _, _) ← sm_insert m x; sm_insert_range m xs end.

(** [operator\[\]] of the wrapped map inserts a default value for a new key. *)
Definition map_index (m : small_map) (key : K) : option (small_map * iterator) :=
  fst <$> map_insert m (key, data_default).

(** [operator\[\]]: the map, and where the reference points. *)
Definition sm_index (m : small_map) (key : K) : option (small_map * iterator) :=
  if (0 <=? size_ m)%Z then
    a ← get_array m;
    r ← find_back_loop (Z.to_nat (size_ m)) a key;
    match r with
    | Some i => Some (m, iterator_array i)
    | None =>
        if (size_ m =? Z.of_nat kArraySize)%Z then
          m ← ConvertToRealMap m; map_index m key
        else
          a ← mc_Init a (Z.to_nat (size_ m)) (key, data_default);
          Some (MkSmallMap (size_ m + 1) (array_ a), iterator_array (Z.to_nat (size_ m)))
    end
  else map_index m key.

Fixpoint destroy_loop (n i : nat) (a : array) : option array :=
  match n with 0 => Some a | S n => a ← mc_Destroy a i; destroy_loop n (S i) a end.

(** [Destroy] leaves raw memory; [clear] is the same with [size_ = 0]. *)
Definition sm_Destroy (m : small_map) : option storage :=
  if (0 <=? size_ m)%Z then
    a ← get_array m; a ← destroy_loop (Z.to_nat (size_ m)) 0 a; Some (array_ a)
  else _ ← get_map m; Some (array_ raw_array).

Definition sm_clear (m : small_map) : option small_map :=
  s ← (if (0 <=? size_ m)%Z then
         a ← get_array m; a ← destroy_loop (Z.to_nat (size_ m)) 0 a; Some (array_ a)
       else _ ← get_map m; Some (array_ raw_array));
  Some (MkSmallMap 0 s).

Definition sm_erase (m : small_map) (position : iterator) : option (small_map * iterator) :=
  if (0 <=? size_ m)%Z then
    i ← array_iter_ position;
    a ← get_array m;
    a ← mc_Destroy a i;
    let size := (size_ m - 1)%Z in
    if (Z.of_nat i =? size)%Z then
      let m := MkSmallMap size (array_ a) in
      e ← sm_end m; Some (m, e)
    else
      a ← mc_InitFromMove a i a (Z.to_nat size);
      a ← mc_Destroy a (Z.to_nat size);
      Some (MkSmallMap size (array_ a), iterator_array i)
  else
    n ← get_map m;
    '(n, it) ← nm_erase n (hash_iter_ position);
    Some (MkSmallMap (size_ m) (map_ n), iterator_map it).

Definition sm_erase_key (m : small_map) (key : K) : option (small_map * nat) :=
  it ← sm_find m key;
  e ← sm_end m;
  if it_eqb it e then Some (m, 0) else '(m, _) ← sm_erase m it; Some (m, 1).

Definition sm_count (m : small_map) (key : K) : option nat :=
  it ← sm_find m key; e ← sm_end m; Some (if it_eqb it e then 0 else 1).

Definition sm_size (m : small_map) : option nat :=
  if (0 <=? size_ m)%Z then Some (Z.to_nat (size_ m)) else length <$> get_map m.

Definition sm_empty (m : small_map) : option bool :=
  if (0 <=? size_ m)%Z then Some (size_ m =? 0)%Z
  else n ← get_map m; Some (match n with [] => true | _ => false end).

Fixpoint copy_loop (n i : nat) (a src : array) : option array :=
  match n with
  | 0 => Some a
  | S n => x ← mc_get src i; a ← mc_Init a i x; copy_loop n (S i) a src
  end.

(** [InitFrom(src)] into raw memory [s]. *)
Definition InitFrom (s : storage) (src : small_map) : option small_map :=
  match s with
  | map_ _ => None
  | array_ a =>
      if (0 <=? size_ src)%Z then
        b ← get_array src; a ← copy_loop (Z.to_nat (size_ src)) 0 a b; Some (MkSmallMap (size_ src) (array_ a))
      else
        n ← get_map src; if all_raw a then Some (MkSmallMap (size_ src) (map_ n)) else None
  end.

Definition sm_copy (src : small_map) : option small_map := InitFrom (array_ raw_array) src.

(** [operator=]; [self] says that [src] is the object assigned to. *)
Definition sm_assign (m src : small_map) (self : bool) : option small_map :=
  if self then Some m else s ← sm_Destroy m; InitFrom s src.

(** ** The slots *)

#[local] Abbreviation raw n := (replicate n (@None value_type)).

Lemma get_mid (p : array) x q : mc_get (p ++ Some x :: q) (length p) = Some x.
Proof. unfold mc_get, slot_read. by rewrite lookup_mid. Qed.
Lemma init_mid (p : array) x q : mc_Init (p ++ None :: q) (length p) x = Some (p ++ Some x :: q).
Proof. unfold mc_Init, slot_construct. by rewrite lookup_mid, insert_mid. Qed.
Lemma destroy_mid (p : array) x q : mc_Destroy (p ++ Some x :: q) (length p) = Some (p ++ None :: q).
Proof. unfold mc_Destroy, slot_destroy. by rewrite lookup_mid, insert_mid. Qed.

Lemma get_at (p : array) x q i : i = length p -> mc_get (p ++ Some x :: q) i = Some x.
Proof. intros ->. apply get_mid. Qed.
Lemma init_at (p : array) x q i : i = length p -> mc_Init (p ++ None :: q) i x = Some (p ++ Some x :: q).
Proof. intros ->. apply init_mid. Qed.
Lemma destroy_at (p : array) x q i : i = length p -> mc_Destroy (p ++ Some x :: q) i = Some (p ++ None :: q).
Proof. intros ->. apply destroy_mid. Qed.

(** A loop at slot [length p] goes on at slot [length (p ++ \[s\])]. *)
Lemma length_next {A} (p : list A) s : S (length p) = length (p ++ [s]).
Proof. rewrite length_app. simpl. lia. Qed.

Lemma move_out_loop_spec xs (p q p' q' : array) :
  length p' = length p ->
  move_out_loop (length xs) (length p) (p ++ (Some <$> xs) ++ q) (p' ++ raw (length xs) ++ q')
  = Some (p ++ raw (length xs) ++ q, p' ++ (Some <$> xs) ++ q').
Proof.
  revert p p'. induction xs as [|x xs IH]; intros p p' Hp; [done|]. rewrite fmap_cons. cbn [length replicate app move_out_loop foldl]. unfold mc_InitFromMove.
  rewrite get_mid. cbn [mbind option_bind]. rewrite <- Hp at 1. rewrite init_mid. cbn [mbind option_bind].
  rewrite destroy_mid. cbn [mbind option_bind]. rewrite (snoc_app p None), (snoc_app p' (Some x)), (length_next p None).
  rewrite IH by (rewrite !length_app; simpl; lia). by rewrite <- ?snoc_app.
Qed.

Lemma insert_loop_spec xs (p q : array) n :
  insert_loop (length xs) (length p) n (p ++ (Some <$> xs) ++ q)
  = Some (foldl (fun n x => fst (fst (nm_insert n x))) n xs, p ++ raw (length xs) ++ q).
Proof.
  revert p n. induction xs as [|x xs IH]; intros p n; [done|]. rewrite fmap_cons. cbn [length replicate app insert_loop foldl]. rewrite get_mid. cbn [mbind option_bind].
  rewrite destroy_mid. cbn [mbind option_bind]. rewrite (snoc_app p None), (length_next p None).
  rewrite IH. by rewrite <- ?snoc_app.
Qed.

Lemma destroy_loop_spec (xs : list value_type) (p q : array) :
  destroy_loop (length xs) (length p) (p ++ (Some <$> xs) ++ q) = Some (p ++ raw (length xs) ++ q).
Proof.
  revert p. induction xs as [|x xs IH]; intros p; [done|]. rewrite fmap_cons. cbn [length replicate app destroy_loop foldl]. rewrite destroy_mid. cbn [mbind option_bind].
  rewrite (snoc_app p None), (length_next p None), IH. by rewrite <- ?snoc_app.
Qed.

Lemma copy_loop_spec (xs : list value_type) (p q p' q' : array) :
  length p' = length p ->
  copy_loop (length xs) (length p) (p ++ raw (length xs) ++ q) (p' ++ (Some <$> xs) ++ q')
  = Some (p ++ (Some <$> xs) ++ q).
Proof.
  revert p p'. induction xs as [|x xs IH]; intros p p' Hp; [done|]. rewrite fmap_cons. cbn [length replicate app copy_loop foldl]. rewrite <- Hp at 1. rewrite get_mid.
  cbn [mbind option_bind]. rewrite init_mid. cbn [mbind option_bind].
  rewrite (snoc_app p (Some x)), (snoc_app p' (Some x)), (length_next p (Some x)).
  rewrite IH by (rewrite !length_app; simpl; lia). by rewrite <- ?snoc_app.
Qed.

Lemma all_raw_raw n : all_raw (raw n) = true.
Proof. by induction n. Qed.

(** ** The pairs an object holds *)

Definition slots (items : list value_type) : array := (Some <$> items) ++ raw (kArraySize - length items).

Inductive sm_repr : small_map -> list value_type -> Prop :=
  | repr_array items : length items <= kArraySize -> NoDup (items.*1) ->
      sm_repr (MkSmallMap (Z.of_nat (length items)) (array_ (slots items))) items
  | repr_map items : NoDup (items.*1) -> sm_repr (MkSmallMap (-1) (map_ items)) items.

Lemma repr_nodup m items : sm_repr m items -> NoDup (items.*1).
Proof. by destruct 1. Qed.

Lemma slots_get items i : mc_get (slots items) i = items !! i.
Proof.
  unfold mc_get, slot_read, slots. destruct (decide (i < length items)) as [Hi|Hi].
  - rewrite lookup_app_l by (by rewrite length_fmap). rewrite list_lookup_fmap.
    by destruct (items !! i).
  - rewrite lookup_app_r by (rewrite length_fmap; lia). rewrite (lookup_ge_None_2 items) by lia.
    destruct (replicate _ None !! _) as [[x|]|] eqn:E; try done. apply lookup_replicate in E. by destruct E.
Qed.

Lemma raw_slots : raw_array = slots [].
Proof. unfold slots, raw_array. simpl. by rewrite Nat.sub_0_r. Qed.

Lemma slots_init items x :
  length items < kArraySize -> mc_Init (slots items) (length items) x = Some (slots (items ++ [x])).
Proof.
  intros Hl. unfold slots. rewrite length_app. simpl.
  replace (kArraySize - length items) with (S (kArraySize - (length items + 1))) by lia. simpl.
  rewrite <- (length_fmap Some items), init_mid, fmap_app. simpl. by rewrite <- app_assoc.
Qed.

(** Destroying the last live slot, or moving it into a slot just destroyed. *)
Lemma slots_erase_last a x :
  length a < kArraySize -> mc_Destroy (slots (a ++ [x])) (length a) = Some (slots a).
Proof.
  intros Hl. unfold slots. rewrite fmap_app, length_app. simpl. rewrite <- app_assoc. simpl.
  rewrite destroy_at by (by rewrite length_fmap). f_equal. f_equal.
  by replace (kArraySize - length a) with (S (kArraySize - (length a + 1))) by lia.
Qed.

Lemma slots_erase_mid a x b y :
  length a + length b + 2 <= kArraySize ->
  (s ← mc_Destroy (slots (a ++ x :: b ++ [y])) (length a);
   s ← mc_InitFromMove s (length a) s (S (length a + length b));
   mc_Destroy s (S (length a + length b))) = Some (slots (a ++ y :: b)).
Proof.
  intros Hl. set (q := raw (kArraySize - length (a ++ x :: b ++ [y]))).
  assert (slots (a ++ x :: b ++ [y]) = (Some <$> a) ++ Some x :: (Some <$> b) ++ Some y :: q) as ->.
  { unfold slots. rewrite fmap_app. simpl. rewrite fmap_app. rewrite <- app_assoc. simpl. by rewrite <- app_assoc. }
  rewrite destroy_at by (by rewrite length_fmap). cbn [mbind option_bind]. unfold mc_InitFromMove.
  assert (forall s t (r : array), (Some <$> a) ++ s :: (Some <$> b) ++ t :: r
                      = ((Some <$> a) ++ s :: (Some <$> b)) ++ t :: r) as Ha by (intros; by rewrite <- app_assoc).
  assert (forall s : option value_type, S (length a + length b) = length ((Some <$> a) ++ s :: (Some <$> b))) as Hn.
  { intros s. rewrite length_app. simpl. rewrite !length_fmap. lia. }
  assert (mc_get ((Some <$> a) ++ None :: (Some <$> b) ++ Some y :: q) (S (length a + length b)) = Some y) as ->.
  { rewrite Ha. by apply get_at. }
  cbn [mbind option_bind]. rewrite init_at by (by rewrite length_fmap). cbn [mbind option_bind].
  rewrite Ha, destroy_at by done. f_equal.
  unfold slots. rewrite fmap_app. simpl. rewrite <- !app_assoc. simpl. do 3 f_equal. unfold q.
  rewrite !length_app. simpl. rewrite length_app. simpl.
  replace (kArraySize - (length a + S (length b))) with (S (kArraySize - (length a + S (length b + 1)))) by lia. done.
Qed.

(** ** Searches *)

Definition found_at (items : list value_type) (key : K) (r : option nat) : Prop :=
  match r with Some j => exists v, items !! j = Some (key, v) | None => key ∉ items.*1 end.

Lemma absent_keys (items : list value_type) key :
  (forall j x, items !! j = Some x -> x.1 <> key) -> key ∉ items.*1.
Proof. intros Ha ([k v] & -> & (j & Hj)%list_elem_of_lookup)%list_elem_of_fmap. by apply (Ha j _ Hj). Qed.

Lemma key_equal_cases (x : value_type) key :
  (key_equal x.1 key = true /\ x = (key, x.2)) \/ (key_equal x.1 key = false /\ x.1 <> key).
Proof.
  destruct x as [k v]. simpl. destruct (key_equal k key) eqn:E; [left|right]; split; try done.
  - apply key_equal_spec in E. by subst.
  - intros ->. assert (key_equal key key = true) by (by apply key_equal_spec). congruence.
Qed.

Lemma find_loop_spec items key n i :
  i + n = length items -> (forall j x, j < i -> items !! j = Some x -> x.1 <> key) ->
  exists r, find_loop n i (slots items) key = Some r /\ found_at items key r.
Proof.
  revert i. induction n as [|n IH]; intros i Hl Ha; simpl.
  - exists None. split; [done|]. apply absent_keys. intros j x Hj. apply (Ha j x); [|done].
    apply lookup_lt_Some in Hj. lia.
  - rewrite slots_get. destruct (lookup_lt_is_Some_2 items i) as [x Hx]; [lia|]. rewrite Hx. cbn [mbind option_bind].
    destruct (key_equal_cases x key) as [[-> Ex]|[-> Ex]].
    + exists (Some i). split; [done|]. exists x.2. congruence.
    + apply IH; [lia|]. intros j y Hj Hy. destruct (decide (j = i)) as [->|]; [congruence|]. apply (Ha j y); [lia|done].
Qed.

Lemma find_back_loop_spec items key n :
  n <= length items -> (forall j x, n <= j -> items !! j = Some x -> x.1 <> key) ->
  exists r, find_back_loop n (slots items) key = Some r /\ found_at items key r.
Proof.
  induction n as [|n IH]; intros Hl Ha; simpl.
  - exists None. split; [done|]. apply absent_keys. intros j x Hj. apply (Ha j x); [lia|done].
  - rewrite slots_get. destruct (lookup_lt_is_Some_2 items n) as [x Hx]; [lia|]. rewrite Hx. cbn [mbind option_bind].
    destruct (key_equal_cases x key) as [[-> Ex]|[-> Ex]].
    + exists (Some n). split; [done|]. exists x.2. congruence.
    + apply IH; [lia|]. intros j y Hj Hy. destruct (decide (j = n)) as [->|]; [congruence|]. apply (Ha j y); [lia|done].
Qed.

(** A list of pairs with distinct keys, split at one pair. *)
Lemma split_keys (a b : list value_type) k v :
  NoDup ((a ++ (k, v) :: b).*1) -> (k ∉ a.*1) /\ (k ∉ b.*1) /\ NoDup ((a ++ b).*1).
Proof.
  rewrite !fmap_app. simpl. intros (H1 & H2 & [H3 H4]%NoDup_cons)%NoDup_app. split_and!; [|done|].
  - intros Hk. apply (H2 k Hk). constructor.
  - apply NoDup_app. split_and!; try done. intros x Hx Hb. apply (H2 x Hx). by constructor.
Qed.

Lemma other_keys (a : list value_type) k : k ∉ a.*1 -> Forall (fun x => bool_decide (x.1 = k) = false) a.
Proof.
  intros Hk. apply Forall_forall. intros x Hx. apply bool_decide_eq_false_2. intros <-. apply Hk.
  by apply list_elem_of_fmap_2.
Qed.

Lemma map_find_split (a : list value_type) k v b :
  NoDup ((a ++ (k, v) :: b).*1) -> List.find (fun x => bool_decide (x.1 = k)) (a ++ (k, v) :: b) = Some (k, v).
Proof.
  intros (Ha%other_keys & _ & _)%split_keys. rewrite find_app_skip by done. simpl. by rewrite bool_decide_eq_true_2.
Qed.

Lemma nm_next_split (a : list value_type) k v b :
  NoDup ((a ++ (k, v) :: b).*1) -> nm_next (a ++ (k, v) :: b) k = Some (nm_begin b).
Proof.
  intros (Ha%other_keys & _ & _)%split_keys. induction Ha as [|x a Hx _ IH]; simpl.
  - by rewrite bool_decide_eq_true_2.
  - by rewrite Hx.
Qed.

Lemma nm_erase_split (a : list value_type) k v b :
  NoDup ((a ++ (k, v) :: b).*1) -> nm_erase (a ++ (k, v) :: b) (Some k) = Some (a ++ b, nm_begin b).
Proof.
  intros Hnd. unfold nm_erase. cbn [mbind option_bind]. rewrite (nm_next_split a k v b Hnd). cbn [mbind option_bind].
  apply split_keys in Hnd as (Ha%other_keys & Hb%other_keys & _). do 2 f_equal.
  assert (forall l : list value_type, Forall (fun x => bool_decide (x.1 = k) = false) l ->
            List.filter (fun x => negb (bool_decide (x.1 = k))) l = l) as Hf.
  { intros l Hl. apply filter_all. eapply Forall_impl; [exact Hl|]. intros x Hx. simpl in *. by rewrite Hx. }
  rewrite List.filter_app. simpl. rewrite bool_decide_eq_true_2 by done. simpl. by rewrite !Hf.
Qed.

Lemma nm_assign_split (a : list value_type) k v b w :
  NoDup ((a ++ (k, v) :: b).*1) -> nm_assign (a ++ (k, v) :: b) (Some k) w = Some (a ++ (k, w) :: b).
Proof.
  intros Hnd. unfold nm_assign, nm_get. cbn [mbind option_bind]. rewrite map_find_split by done.
  cbn [mbind option_bind]. apply split_keys in Hnd as (Ha%other_keys & Hb%other_keys & _). f_equal.
  assert (forall l : list value_type, Forall (fun x => bool_decide (x.1 = k) = false) l ->
            ((fun x => if bool_decide (x.1 = k) then (x.1, w) else x) <$> l) = l) as Hf.
  { induction 1 as [|x l Hx _ IH]; [done|]. rewrite fmap_cons, Hx. by rewrite IH. }
  rewrite fmap_app, fmap_cons, !Hf by done. simpl. by rewrite bool_decide_eq_true_2.
Qed.

Lemma nm_find_cases (n : NormalMap) key :
  NoDup (n.*1) ->
  (exists a v b, n = a ++ (key, v) :: b /\ nm_find n key = Some key) \/ ((key ∉ n.*1) /\ nm_find n key = None).
Proof.
  intros Hnd. destruct (decide (key ∈ n.*1)) as [Hin|Hn]; [left|right].
  - apply list_elem_of_fmap in Hin as ([k v] & -> & (a & b & ->)%list_elem_of_split). exists a, v, b. split; [done|].
    unfold nm_find. by rewrite map_find_split.
  - split; [done|]. unfold nm_find. rewrite <- (app_nil_r n), find_app_skip; [done|]. by apply other_keys.
Qed.

Lemma nm_insert_absent (n : NormalMap) x :
  NoDup (n.*1) -> x.1 ∉ n.*1 -> nm_insert n x = (place n x, Some x.1, true).
Proof.
  intros Hnd Hx. unfold nm_insert. destruct (nm_find_cases n x.1 Hnd) as [(a & v & b & -> & _)|[_ ->]]; [|done].
  exfalso. apply Hx. rewrite fmap_app. apply elem_of_app. right. constructor.
Qed.

Lemma foldl_insert_perm xs (n : NormalMap) :
  NoDup ((n ++ xs).*1) -> foldl (fun n x => fst (fst (nm_insert n x))) n xs ≡ₚ n ++ xs.
Proof.
  revert n. induction xs as [|[k v] xs IH]; intros n Hnd; simpl; [by rewrite app_nil_r|].
  pose proof Hnd as (Hk & _ & Hnd')%split_keys. rewrite nm_insert_absent; [|rewrite fmap_app in Hnd; by apply NoDup_app in Hnd as [? _]|done].
  simpl. rewrite IH; rewrite place_perm; [by rewrite <- Permutation_middle|].
  by rewrite <- Permutation_middle in Hnd.
Qed.

Lemma convert_spec items :
  length items = kArraySize -> NoDup (items.*1) ->
  exists items', ConvertToRealMap (MkSmallMap (Z.of_nat (length items)) (array_ (slots items)))
                 = Some (MkSmallMap (-1) (map_ items')) /\ items' ≡ₚ items.
Proof.
  intros Hl Hnd. unfold ConvertToRealMap. cbn [get_array union_ mbind option_bind].
  unfold slots, raw_array. rewrite <- Hl, Nat.sub_diag. cbn [replicate].
  pose proof (move_out_loop_spec items [] [] [] [] eq_refl) as Hm. simpl in Hm. rewrite app_nil_r in Hm |- *.
  rewrite app_nil_r in Hm. rewrite Hm. cbn [mbind option_bind]. rewrite all_raw_raw.
  pose proof (insert_loop_spec items [] [] []) as Hi. simpl in Hi. rewrite !app_nil_r in Hi. rewrite Hi.
  cbn [mbind option_bind]. rewrite all_raw_raw. eexists. split; [done|].
  by rewrite foldl_insert_perm.
Qed.

(** ** Iterators as positions in the pairs *)

Definition it_at (m : small_map) (items : list value_type) (j : nat) : iterator :=
  if (0 <=? size_ m)%Z then iterator_array j else iterator_map (fst <$> items !! j).

Lemma of_nat_leb n : (0 <=? Z.of_nat n)%Z = true.
Proof. apply Z.leb_le. lia. Qed.

(** Case analysis on the representation, with the tests on [size_] decided. *)
Ltac repr_cases :=
  match goal with H : sm_repr _ _ |- _ => destruct H as [items Hlen Hnd|items Hnd] end;
  cbn [size_ union_ get_array get_map mbind option_bind]; rewrite ?of_nat_leb, ?Nat2Z.id;
  cbn [Z.leb Z.compare].

Lemma deref_at m items j : sm_repr m items -> it_deref m (it_at m items j) = items !! j.
Proof.
  intros Hr. unfold it_at, it_deref. repr_cases.
  - apply slots_get.
  - destruct (items !! j) as [[k v]|] eqn:E; [|done]. simpl.
    apply list_elem_of_split_length in E as (a & b & -> & _). by apply map_find_split.
Qed.

Lemma begin_at m items : sm_repr m items -> sm_begin m = Some (it_at m items 0).
Proof. intros Hr. unfold sm_begin, it_at. repr_cases; [done|]. by destruct items. Qed.

Lemma end_at m items : sm_repr m items -> sm_end m = Some (it_at m items (length items)).
Proof.
  intros Hr. unfold sm_end, it_at. repr_cases; [done|]. by rewrite lookup_ge_None_2.
Qed.

Lemma next_at m items j :
  sm_repr m items -> j < length items -> it_next m (it_at m items j) = Some (it_at m items (S j)).
Proof.
  intros Hr Hj. unfold it_at, it_next. repr_cases; [done|].
  destruct (lookup_lt_is_Some_2 items j Hj) as [[k v] E]. rewrite E. simpl.
  apply list_elem_of_split_length in E as (a & b & -> & ->). rewrite nm_next_split by done. simpl.
  rewrite snoc_app, lookup_app_r by (rewrite length_app; simpl; lia). unfold iterator_map, nm_begin.
  replace (S (length a) - length (a ++ [(k, v)])) with 0 by (rewrite length_app; simpl; lia). by destruct b.
Qed.

Lemma eqb_end m items j :
  sm_repr m items -> j <= length items ->
  it_eqb (it_at m items j) (it_at m items (length items)) = (j =? length items).
Proof.
  intros Hr Hj. unfold it_at, it_eqb. repr_cases; simpl.
  - destruct (Nat.eqb_spec j (length items)) as [->|]; [by apply bool_decide_eq_true_2|].
    apply bool_decide_eq_false_2. congruence.
  - rewrite (lookup_ge_None_2 items (length items)) by done. destruct (Nat.eqb_spec j (length items)) as [->|].
    + by rewrite lookup_ge_None_2.
    + destruct (lookup_lt_is_Some_2 items j) as [x ->]; [lia|]. done.
Qed.

(** ** Operations on the pairs *)

Definition position (items : list value_type) (key : K) (j : nat) : Prop :=
  (exists v, items !! j = Some (key, v)) \/ (j = length items /\ (key ∉ items.*1)).

Lemma sm_find_spec m items key :
  sm_repr m items -> exists j, sm_find m key = Some (it_at m items j) /\ position items key j.
Proof.
  intros Hr. unfold sm_find, it_at. repr_cases.
  - destruct (find_loop_spec items key (length items) 0) as (r & -> & Hf); [lia|lia|].
    destruct r as [j|]; simpl in Hf; [exists j|exists (length items)]; (split; [done|]); [by left|by right].
  - unfold sm_map, UsingFullMap. cbn [size_ union_ get_map Z.ltb Z.compare mbind option_bind].
    destruct (nm_find_cases items key Hnd) as [(a & v & b & -> & ->)|[Hk ->]].
    + exists (length a). rewrite lookup_mid. split; [done|]. left. exists v. apply lookup_mid.
    + exists (length items). rewrite lookup_ge_None_2 by done. split; [done|]. by right.
Qed.

(** What an insertion did: [b] says whether the pair is new; [j] is its position. *)
Definition inserted (items : list value_type) (k : K) (v : V) (items' : list value_type) (j : nat) (b : bool) : Prop :=
  if b then (k ∉ items.*1) /\ items' ≡ₚ (k, v) :: items /\ items' !! j = Some (k, v)
  else items' = items /\ exists w, items !! j = Some (k, w).

Lemma inserted_nodup items k v items' j :
  NoDup (items.*1) -> inserted items k v items' j true -> NoDup (items'.*1).
Proof. intros Hnd (Hk & Hp & _). rewrite Hp. simpl. by apply NoDup_cons. Qed.

Lemma map_insert_spec items k v :
  NoDup (items.*1) ->
  exists m' items' j b, map_insert (MkSmallMap (-1) (map_ items)) (k, v) = Some (m', it_at m' items' j, b) /\
    sm_repr m' items' /\ inserted items k v items' j b.
Proof.
  intros Hnd. unfold map_insert. cbn [get_map union_ size_ mbind option_bind].
  destruct (nm_find_cases items k Hnd) as [(a & w & b & E & Hf)|[Hk Hf]].
  - unfold nm_insert. simpl. rewrite Hf. exists (MkSmallMap (-1) (map_ items)), items, (length a), false. unfold it_at. simpl.
    assert (items !! length a = Some (k, w)) as Hl by (rewrite E; apply lookup_mid). rewrite Hl.
    split_and!; [done|by constructor|done|by exists w].
  - rewrite nm_insert_absent by done. simpl. set (items' := place items (k, v)).
    assert (items' ≡ₚ (k, v) :: items) as Hp by apply place_perm.
    assert ((k, v) ∈ items') as (j & Hj)%list_elem_of_lookup by (rewrite Hp; constructor).
    exists (MkSmallMap (-1) (map_ items')), items', j, true. unfold it_at. simpl. rewrite Hj. split_and!; [done| |done|done|done].
    constructor. rewrite Hp. simpl. by apply NoDup_cons.
Qed.

(** After an unsuccessful search of the array. *)
Lemma array_add_spec items k v :
  length items <= kArraySize -> NoDup (items.*1) -> k ∉ items.*1 ->
  let m := MkSmallMap (Z.of_nat (length items)) (array_ (slots items)) in
  exists m' items' j,
    (if (Z.of_nat (length items) =? Z.of_nat kArraySize)%Z then m ← ConvertToRealMap m; map_insert m (k, v)
     else a ← mc_Init (slots items) (length items) (k, v);
          Some (MkSmallMap (Z.of_nat (length items) + 1) (array_ a), iterator_array (length items), true))
    = Some (m', it_at m' items' j, true) /\ sm_repr m' items' /\ inserted items k v items' j true.
Proof.
  intros Hl Hnd Hk m. subst m. destruct (Z.eqb_spec (Z.of_nat (length items)) (Z.of_nat kArraySize)) as [E|E].
  - destruct (convert_spec items) as (items1 & -> & Hp); [lia|done|]. cbn [mbind option_bind].
    assert (NoDup (items1.*1)) as Hnd1 by (by rewrite Hp).
    destruct (map_insert_spec items1 k v Hnd1) as (m' & items' & j & b & -> & Hr & Hi).
    destruct b; [|exfalso; destruct Hi as (-> & w & Hj); apply Hk; rewrite <- Hp;
      apply list_elem_of_lookup_2 in Hj; by apply (list_elem_of_fmap_2 fst) in Hj].
    exists m', items', j. split_and!; [done|done|]. destruct Hi as (_ & Hi & Hj). split_and!; [done|by rewrite Hi, Hp|done].
  - rewrite slots_init by lia. cbn [mbind option_bind].
    replace (Z.of_nat (length items) + 1)%Z with (Z.of_nat (length (items ++ [(k, v)]))) by (rewrite length_app; simpl; lia).
    exists (MkSmallMap (Z.of_nat (length (items ++ [(k, v)]))) (array_ (slots (items ++ [(k, v)])))), (items ++ [(k, v)]), (length items).
    unfold it_at. cbn [size_]. rewrite of_nat_leb.
    assert (items ++ [(k, v)] ≡ₚ (k, v) :: items) as Hp by (by rewrite Permutation_app_comm).
    split_and!; [done| |split_and!; [done|done|apply lookup_mid]].
    apply repr_array; [rewrite length_app; simpl; lia|].
    rewrite Hp. simpl. by apply NoDup_cons.
Qed.

Lemma sm_insert_spec m items k v :
  sm_repr m items ->
  exists m' items' j b, sm_insert m (k, v) = Some (m', it_at m' items' j, b) /\ sm_repr m' items' /\
    inserted items k v items' j b.
Proof.
  intros Hr. unfold sm_insert. repr_cases; [|by apply map_insert_spec].
  destruct (find_loop_spec items k (length items) 0) as (r & Hf & Hs); [lia|lia|]. cbn [fst]. rewrite Hf.
  cbn [mbind option_bind]. destruct r as [j|]; simpl in Hs.
  - exists (MkSmallMap (Z.of_nat (length items)) (array_ (slots items))), items, j, false. unfold it_at. cbn [size_]. rewrite of_nat_leb. split_and!; [done|by apply repr_array|done].
  - destruct (array_add_spec items k v Hlen Hnd Hs) as (m' & items' & j & -> & ?). by exists m', items', j, true.
Qed.

Lemma sm_index_spec m items k :
  sm_repr m items ->
  exists m' items' j b, sm_index m k = Some (m', it_at m' items' j) /\ sm_repr m' items' /\
    inserted items k data_default items' j b.
Proof.
  intros Hr. unfold sm_index, map_index. repr_cases.
  2: { destruct (map_insert_spec items k data_default Hnd) as (m' & items' & j & b & -> & ?). by exists m', items', j, b. }
  destruct (find_back_loop_spec items k (length items)) as (r & Hf & Hs); [lia| |].
  { intros j x Hj Hx%lookup_lt_Some. lia. }
  rewrite Hf. cbn [mbind option_bind]. destruct r as [j|]; simpl in Hs.
  - exists (MkSmallMap (Z.of_nat (length items)) (array_ (slots items))), items, j, false. unfold it_at. cbn [size_]. rewrite of_nat_leb. split_and!; [done|by apply repr_array|done].
  - destruct (array_add_spec items k data_default Hlen Hnd Hs) as (m' & items' & j & Ha & ?).
    exists m', items', j, true. split; [|done].
    destruct (Z.of_nat (length items) =? Z.of_nat kArraySize)%Z.
    + destruct (ConvertToRealMap _) as [m1|]; [|done]. cbn [mbind option_bind] in *. by rewrite Ha.
    + destruct (mc_Init _ _ _) as [a|]; [|done]. cbn [mbind option_bind] in *. by injection Ha as <- <-.
Qed.

(** [erase(position)] keeps what comes before, and returns the position of what
    has not been visited yet. *)
Lemma sm_erase_spec m a k v b :
  sm_repr m (a ++ (k, v) :: b) ->
  exists m' b', sm_erase m (it_at m (a ++ (k, v) :: b) (length a)) = Some (m', it_at m' (a ++ b') (length a)) /\
    sm_repr m' (a ++ b') /\ b' ≡ₚ b.
Proof.
  intros Hr. remember (a ++ (k, v) :: b) as l eqn:El. unfold sm_erase, it_at at 1. repr_cases; subst items.
  - pose proof Hnd as (_ & _ & Hnd')%split_keys. cbn [array_iter_ iterator_array mbind option_bind].
    rewrite length_app in *. simpl in Hlen |- *. destruct b as [|y b _] using rev_ind.
    + rewrite slots_erase_last by (simpl in Hlen; lia). cbn [mbind option_bind]. simpl.
      replace (Z.of_nat (length a + 1) - 1)%Z with (Z.of_nat (length a)) by lia. rewrite Z.eqb_refl.
      exists (MkSmallMap (Z.of_nat (length a)) (array_ (slots a))), []. unfold sm_end, it_at. cbn [size_].
      rewrite of_nat_leb, Nat2Z.id, app_nil_r in *. split_and!; [done|apply repr_array; [lia|done]|done].
    + rewrite length_app in *. simpl in Hlen |- *.
      replace (Z.of_nat (length a + S (length b + 1)) - 1)%Z with (Z.of_nat (S (length a + length b))) by lia.
      pose proof (slots_erase_mid a (k, v) b y) as He. destruct (mc_Destroy _ (length a)) as [s1|]; [|exfalso].
      2: { discriminate He. lia. }
      cbn [mbind option_bind] in *. rewrite Nat2Z.id. rewrite (proj2 (Z.eqb_neq _ _)) by lia.
      destruct (mc_InitFromMove s1 (length a) s1 _) as [s2|]; [|exfalso; discriminate He; lia].
      cbn [mbind option_bind] in *. rewrite He by lia. cbn [mbind option_bind].
      exists (MkSmallMap (Z.of_nat (length (a ++ y :: b))) (array_ (slots (a ++ y :: b)))), (y :: b).
      assert (y :: b ≡ₚ b ++ [y]) as Hp by (by rewrite Permutation_app_comm).
      unfold it_at. cbn [size_]. rewrite of_nat_leb. split_and!; [|apply repr_array|done].
      * do 4 f_equal. rewrite length_app. simpl. lia.
      * rewrite length_app. simpl. lia.
      * by rewrite Hp.
  - unfold it_at at 1. cbn [size_ Z.leb Z.compare iterator_map hash_iter_]. rewrite lookup_mid.
    cbn [fmap option_fmap option_map fst]. rewrite nm_erase_split by done. cbn [mbind option_bind].
    exists (MkSmallMap (-1) (map_ (a ++ b))), b. unfold it_at. simpl. apply split_keys in Hnd as (_ & _ & Hnd).
    split_and!; [|by apply repr_map|done]. do 3 f_equal. rewrite lookup_app_r, Nat.sub_diag by done. by destruct b.
Qed.

Lemma it_assign_spec m a k v b w :
  sm_repr m (a ++ (k, v) :: b) ->
  exists m', it_assign m (it_at m (a ++ (k, v) :: b) (length a)) w = Some m' /\ sm_repr m' (a ++ (k, w) :: b).
Proof.
  intros Hr. remember (a ++ (k, v) :: b) as l eqn:El. unfold it_assign, it_at. repr_cases; subst items.
  - cbn [array_iter_ iterator_array]. rewrite slots_get, lookup_mid. cbn [mbind option_bind].
    eexists. split; [done|].
    assert (<[length a := Some ((k, v).1, w)]> (slots (a ++ (k, v) :: b)) = slots (a ++ (k, w) :: b)) as ->.
    { unfold slots. rewrite !fmap_app, !fmap_cons, <- !app_assoc, !length_app. simpl.
      rewrite <- (length_fmap Some a). by rewrite insert_mid. }
    replace (length (a ++ (k, v) :: b)) with (length (a ++ (k, w) :: b)) in * by (by rewrite !length_app).
    apply repr_array; [done|]. rewrite fmap_app in *. done.
  - rewrite lookup_mid. cbn [fmap option_fmap option_map fst array_iter_ hash_iter_ iterator_map].
    rewrite nm_assign_split by done. cbn [mbind option_bind]. eexists. split; [done|]. apply repr_map.
    rewrite fmap_app in *. done.
Qed.

Lemma destroy_slots items :
  length items <= kArraySize -> destroy_loop (length items) 0 (slots items) = Some raw_array.
Proof.
  intros Hl. pose proof (destroy_loop_spec items [] (raw (kArraySize - length items))) as Hd. simpl in Hd.
  unfold slots. rewrite Hd. f_equal. unfold raw_array. rewrite <- replicate_add. f_equal. lia.
Qed.

Lemma sm_Destroy_spec m items : sm_repr m items -> sm_Destroy m = Some (array_ raw_array).
Proof. intros Hr. unfold sm_Destroy. repr_cases; [|done]. by rewrite destroy_slots. Qed.

Lemma small_map_new_repr : sm_repr small_map_new [].
Proof.
  unfold small_map_new. rewrite raw_slots. apply (repr_array []); [simpl; lia|constructor].
Qed.

Lemma sm_clear_spec m items : sm_repr m items -> sm_clear m = Some small_map_new.
Proof. intros Hr. unfold sm_clear. repr_cases; [|done]. by rewrite destroy_slots. Qed.

Lemma InitFrom_spec m items : sm_repr m items -> InitFrom (array_ raw_array) m = Some m.
Proof.
  intros Hr. unfold InitFrom. repr_cases.
  - pose proof (copy_loop_spec items [] (raw (kArraySize - length items)) [] (raw (kArraySize - length items)) eq_refl) as Hc.
    simpl in Hc. rewrite <- replicate_add in Hc. replace (length items + (kArraySize - length items)) with kArraySize in Hc by lia.
    unfold raw_array, slots. by rewrite Hc.
  - unfold raw_array. by rewrite all_raw_raw.
Qed.

Lemma sm_size_spec m items : sm_repr m items -> sm_size m = Some (length items).
Proof. intros Hr. unfold sm_size. by repr_cases. Qed.

Lemma sm_empty_spec m items : sm_repr m items -> sm_empty m = Some (length items =? 0).
Proof. intros Hr. unfold sm_empty. repr_cases; by destruct items. Qed.

(** ** Walking from [begin()] to [end()] *)

Fixpoint walk_loop (fuel : nat) (m : small_map) (it e : iterator) : option (list value_type) :=
  if it_eqb it e then Some []
  else match fuel with
       | 0 => None
       | S fuel => x ← it_deref m it; it ← it_next m it; xs ← walk_loop fuel m it e; Some (x :: xs)
       end.
Definition sm_walk (m : small_map) : option (list value_type) :=
  b ← sm_begin m; e ← sm_end m; n ← sm_size m; walk_loop n m b e.

Lemma walk_loop_spec m items fuel j :
  sm_repr m items -> j + fuel = length items ->
  walk_loop fuel m (it_at m items j) (it_at m items (length items)) = Some (drop j items).
Proof.
  intros Hr. revert j. induction fuel as [|fuel IH]; intros j Hj; simpl; rewrite (eqb_end m items j Hr) by lia.
  - replace j with (length items) by lia. by rewrite Nat.eqb_refl, skipn_all.
  - destruct (Nat.eqb_spec j (length items)); [lia|]. rewrite (deref_at m items j Hr).
    destruct (lookup_lt_is_Some_2 items j) as [x Hx]; [lia|]. rewrite Hx. cbn [mbind option_bind].
    rewrite (next_at m items j Hr) by lia. cbn [mbind option_bind]. rewrite IH by lia. cbn [mbind option_bind].
    by rewrite (drop_S items x j Hx).
Qed.

Lemma sm_walk_spec m items : sm_repr m items -> sm_walk m = Some items.
Proof.
  intros Hr. unfold sm_walk. rewrite (begin_at m items Hr), (end_at m items Hr), (sm_size_spec m items Hr).
  cbn [mbind option_bind]. by rewrite walk_loop_spec.
Qed.

(** ** The specification: a finite map *)

Inductive sm_op :=
  | SInsert (k : K) (v : V) | SEmplace (k : K) (v : V)
  | SSet (k : K) (v : V)                 (* [m\[k\] = v] *)
  | SGet (k : K)                         (* reads [m\[k\]] *)
  | SFind (k : K) | SCount (k : K) | SErase (k : K) | SClear
  | SCopy                                (* replaces the object by a copy *)
  | SAssign (xs : list (K * V))          (* assigns a map filled by [insert(f, l)] *)
  | SSelfAssign.

#[local] Abbreviation result := (nat * option V)%type.

Definition gm_insert (g : gmap K V) (x : K * V) : gmap K V :=
  match g !! x.1 with Some _ => g | None => <[x.1 := x.2]> g end.
Definition absent (g : gmap K V) (k : K) : nat := match g !! k with Some _ => 0 | None => 1 end.

Definition gm_step (g : gmap K V) (op : sm_op) : option (gmap K V * result) :=
  Some match op with
  | SInsert k v | SEmplace k v => (gm_insert g (k, v), (absent g k, gm_insert g (k, v) !! k))
  | SSet k v => (<[k := v]> g, (0, None))
  | SGet k => (gm_insert g (k, data_default), (0, gm_insert g (k, data_default) !! k))
  | SFind k => (g, (1 - absent g k, g !! k))
  | SCount k => (g, (1 - absent g k, None))
  | SErase k => (delete k g, (1 - absent g k, None))
  | SClear => (∅, (0, None))
  | SCopy | SSelfAssign => (g, (0, None))
  | SAssign xs => (foldl gm_insert ∅ xs, (0, None))
  end.

Definition inserted_result (r : option (small_map * iterator * bool)) : option (small_map * result) :=
  '(m, it, b) ← r; x ← it_deref m it; Some (m, (Nat.b2n b, Some x.2)).

Definition sm_step (m : small_map) (op : sm_op) : option (small_map * result) :=
  match op with
  | SInsert k v => inserted_result (sm_insert m (k, v))
  | SEmplace k v => inserted_result (sm_emplace m k v)
  | SSet k v => '(m, it) ← sm_index m k; m ← it_assign m it v; Some (m, (0, None))
  | SGet k => '(m, it) ← sm_index m k; x ← it_deref m it; Some (m, (0, Some x.2))
  | SFind k => it ← sm_find m k; e ← sm_end m;
               if it_eqb it e then Some (m, (0, None)) else x ← it_deref m it; Some (m, (1, Some x.2))
  | SCount k => n ← sm_count m k; Some (m, (n, None))
  | SErase k => '(m, n) ← sm_erase_key m k; Some (m, (n, None))
  | SClear => m ← sm_clear m; Some (m, (0, None))
  | SCopy => c ← sm_copy m; _ ← sm_Destroy m; Some (c, (0, None))
  | SAssign xs => o ← sm_insert_range small_map_new xs; m ← sm_assign m o false; _ ← sm_Destroy o;
                  Some (m, (0, None))
  | SSelfAssign => m ← sm_assign m m true; Some (m, (0, None))
  end.

Definition to_map (items : list value_type) : gmap K V := list_to_map items.

Lemma to_map_at items j k v : NoDup (items.*1) -> items !! j = Some (k, v) -> to_map items !! k = Some v.
Proof. intros Hnd Hj%list_elem_of_lookup_2. by apply elem_of_list_to_map_1. Qed.

Lemma to_map_absent items k : k ∉ items.*1 -> to_map items !! k = None.
Proof. apply not_elem_of_list_to_map_1. Qed.

Lemma to_map_split (a b : list value_type) k v :
  NoDup ((a ++ (k, v) :: b).*1) ->
  to_map (a ++ (k, v) :: b) = <[k := v]> (to_map (a ++ b)) /\ to_map (a ++ b) !! k = None.
Proof.
  intros Hnd. split.
  - unfold to_map. rewrite <- list_to_map_cons. apply list_to_map_proper; [done|]. by rewrite Permutation_middle.
  - apply split_keys in Hnd as (Ha & Hb & _). apply to_map_absent. rewrite fmap_app. by intros [|]%elem_of_app.
Qed.

Lemma inserted_map items k v items' j b :
  NoDup (items.*1) -> inserted items k v items' j b ->
  to_map items' = gm_insert (to_map items) (k, v) /\ Nat.b2n b = absent (to_map items) k /\
  exists w, items' !! j = Some (k, w) /\ to_map items' !! k = Some w.
Proof.
  intros Hnd Hi. unfold gm_insert, absent. destruct b; simpl in *.
  - assert (NoDup (items'.*1)) as Hnd' by (by eapply inserted_nodup). destruct Hi as (Hk & Hp & Hj).
    rewrite (to_map_absent items k Hk). split_and!; [|done|exists v; split; [done|by eapply to_map_at]].
    unfold to_map. by rewrite (list_to_map_proper items' ((k, v) :: items)).
  - destruct Hi as (-> & w & Hj). rewrite (to_map_at items j k w Hnd Hj). split_and!; try done.
    exists w. done.
Qed.

Lemma to_map_update a b k v w :
  NoDup ((a ++ (k, v) :: b).*1) -> to_map (a ++ (k, w) :: b) = <[k := w]> (to_map (a ++ (k, v) :: b)).
Proof.
  intros Hnd. rewrite (proj1 (to_map_split a b k v Hnd)), insert_insert_eq.
  apply to_map_split. rewrite fmap_app in *. done.
Qed.

Lemma to_map_remove a b b' k v :
  NoDup ((a ++ (k, v) :: b).*1) -> b' ≡ₚ b -> to_map (a ++ b') = delete k (to_map (a ++ (k, v) :: b)).
Proof.
  intros Hnd Hb. destruct (to_map_split a b k v Hnd) as [-> Hk]. rewrite delete_insert_id by done.
  apply split_keys in Hnd as (_ & _ & Hnd). apply list_to_map_proper; by rewrite Hb.
Qed.

(** The relation of the simulation. *)
Definition sm_rel (m : small_map) (g : gmap K V) : Prop := exists items, sm_repr m items /\ g = to_map items.

Lemma insert_step_spec m items k v :
  sm_repr m items ->
  simulates sm_rel (inserted_result (sm_insert m (k, v))) (gm_step (to_map items) (SInsert k v)).
Proof.
  intros Hr. destruct (sm_insert_spec m items k v Hr) as (m' & items' & j & b & -> & Hr' & Hi).
  destruct (inserted_map items k v items' j b (repr_nodup m items Hr) Hi) as (Em & Eb & w & Hj & Hw).
  unfold inserted_result. cbn [mbind option_bind]. rewrite (deref_at m' items' j Hr'), Hj. cbn [mbind option_bind].
  exists (to_map items'). unfold gm_step. rewrite <- Em, Eb, Hw. split; [done|]. by exists items'.
Qed.

Lemma index_step_spec m items k :
  sm_repr m items ->
  exists m' a w b, sm_index m k = Some (m', it_at m' (a ++ (k, w) :: b) (length a)) /\
    sm_repr m' (a ++ (k, w) :: b) /\ to_map (a ++ (k, w) :: b) = gm_insert (to_map items) (k, data_default).
Proof.
  intros Hr. destruct (sm_index_spec m items k Hr) as (m' & items' & j & b & -> & Hr' & Hi).
  destruct (inserted_map items k data_default items' j b (repr_nodup m items Hr) Hi) as (Em & _ & w & Hj & _).
  apply list_elem_of_split_length in Hj as (a & c & -> & ->). eauto 10.
Qed.

(** What [find] says of the map. *)
Lemma find_step_spec m items k :
  sm_repr m items ->
  exists it e, sm_find m k = Some it /\ sm_end m = Some e /\
  ((it_eqb it e = true /\ to_map items !! k = None) \/
   (it_eqb it e = false /\ exists a v b, items = a ++ (k, v) :: b /\ it = it_at m items (length a) /\
      to_map items !! k = Some v)).
Proof.
  intros Hr. destruct (sm_find_spec m items k Hr) as (j & -> & Hp). rewrite (end_at m items Hr).
  eexists _, _. split_and!; [done|done|]. destruct Hp as [(v & Hj)|[-> Hk]].
  - right. pose proof (lookup_lt_Some _ _ _ Hj) as Hlt. rewrite (eqb_end m items j Hr) by lia.
    split; [apply Nat.eqb_neq; lia|]. pose proof (to_map_at items j k v (repr_nodup m items Hr) Hj) as Hv.
    apply list_elem_of_split_length in Hj as (a & b & -> & ->). eauto 10.
  - left. rewrite (eqb_end m items _ Hr) by lia. split; [apply Nat.eqb_refl|]. by apply to_map_absent.
Qed.

Lemma sm_insert_range_spec m items xs :
  sm_repr m items ->
  exists m' items', sm_insert_range m xs = Some m' /\ sm_repr m' items' /\
    to_map items' = foldl gm_insert (to_map items) xs.
Proof.
  revert m items. induction xs as [|[k v] xs IH]; intros m items Hr; [by exists m, items|]. cbn [sm_insert_range foldl].
  destruct (sm_insert_spec m items k v Hr) as (m1 & items1 & j & b & -> & Hr1 & Hi). cbn [mbind option_bind].
  destruct (inserted_map items k v items1 j b (repr_nodup m items Hr) Hi) as (<- & _). by apply IH.
Qed.

Lemma sm_step_simulates m g op : sm_rel m g -> simulates sm_rel (sm_step m op) (gm_step g op).
Proof.
  intros (items & Hr & ->). pose proof (repr_nodup m items Hr) as Hnd.
  destruct op as [k v|k v|k v|k|k|k|k| | |xs|]; cbn [sm_step].
  - by apply insert_step_spec.
  - exact (insert_step_spec m items k v Hr).
  - destruct (index_step_spec m items k Hr) as (m' & a & w & b & -> & Hr' & Em). cbn [mbind option_bind].
    destruct (it_assign_spec m' a k w b v Hr') as (m2 & -> & Hr2). cbn [mbind option_bind].
    eexists. split; [done|]. exists (a ++ (k, v) :: b). split; [done|].
    rewrite (to_map_update a b k w v) by (by eapply repr_nodup). rewrite Em. unfold gm_insert. simpl.
    destruct (to_map items !! k) eqn:E; [done|]. by rewrite insert_insert_eq.
  - destruct (index_step_spec m items k Hr) as (m' & a & w & b & -> & Hr' & Em). cbn [mbind option_bind].
    rewrite (deref_at m' _ _ Hr'), lookup_mid. cbn [mbind option_bind].
    exists (to_map (a ++ (k, w) :: b)). unfold gm_step. rewrite <- Em.
    split; [|by eexists]. rewrite (to_map_at _ (length a) k w) ; [done|by eapply repr_nodup|apply lookup_mid].
  - destruct (find_step_spec m items k Hr) as (it & e & -> & -> & Hc). cbn [mbind option_bind]. unfold gm_step, absent.
    destruct Hc as [[-> ->]|[-> (a & v & b & Ei & -> & ->)]]; [eexists; split; [done|by exists items]|].
    rewrite (deref_at m _ _ Hr). rewrite Ei at 1. rewrite lookup_mid. eexists. split; [done|by exists items].
  - destruct (find_step_spec m items k Hr) as (it & e & Hf & He & Hc). unfold sm_count. rewrite Hf, He.
    cbn [mbind option_bind]. unfold gm_step, absent. destruct Hc as [[-> ->]|[-> (a & v & b & _ & _ & ->)]];
      (eexists; split; [done|by exists items]).
  - destruct (find_step_spec m items k Hr) as (it & e & Hf & He & Hc). unfold sm_erase_key. rewrite Hf, He.
    cbn [mbind option_bind]. unfold gm_step, absent. destruct Hc as [[-> Hn]|[-> (a & v & b & -> & -> & ->)]].
    + eexists. rewrite Hn. split; [done|]. exists items. split; [done|]. by rewrite delete_id.
    + destruct (sm_erase_spec m a k v b Hr) as (m' & b' & -> & Hr' & Hb). cbn [mbind option_bind].
      eexists. split; [done|]. exists (a ++ b'). split; [done|]. symmetry. by apply to_map_remove.
  - rewrite (sm_clear_spec m items Hr). eexists. split; [done|]. exists []. split; [exact small_map_new_repr|done].
  - unfold sm_copy. rewrite (InitFrom_spec m items Hr), (sm_Destroy_spec m items Hr).
    eexists. split; [done|]. by exists items.
  - destruct (sm_insert_range_spec _ [] xs small_map_new_repr) as (o & items' & -> & Ho & Em). cbn [mbind option_bind sm_assign].
    rewrite (sm_Destroy_spec m items Hr). cbn [mbind option_bind]. rewrite (InitFrom_spec o items' Ho).
    cbn [mbind option_bind]. rewrite (sm_Destroy_spec o items' Ho). eexists. split; [done|]. by exists items'.
  - eexists. split; [done|]. by exists items.
Qed.

(** ** Theorems *)

(** Any operations on a new [small_map], through the array, the conversion
    to the wrapped map and back by [clear] or assignment, are defined (no slot is
    constructed twice, read or destroyed while raw, or abandoned live) and return
    what they return on a finite map.  Afterwards walking from [begin()] to
    [end()] gives every pair of that map once, [size] and [empty] agree with it,
    the inline array is in use only for at most [kArraySize] pairs, and the
    destructor leaves raw memory. *)
Lemma small_map_refines (ops : list sm_op) :
  exists m g results pairs,
    run_steps sm_step small_map_new ops = Some (m, results) /\
    run_steps gm_step ∅ ops = Some (g, results) /\
    sm_walk m = Some pairs /\ pairs ≡ₚ map_to_list g /\
    sm_size m = Some (size g) /\ sm_empty m = Some (size g =? 0) /\
    (UsingFullMap m = false -> size g <= kArraySize) /\
    sm_Destroy m = Some (array_ raw_array).
Proof.
  pose proof (run_steps_simulates sm_step gm_step sm_rel small_map_new ∅ ops sm_step_simulates) as Hs.
  assert (simulates sm_rel (run_steps sm_step small_map_new ops) (run_steps gm_step ∅ ops)) as Hr.
  { apply Hs. exists []. split; [exact small_map_new_repr|done]. }
  assert (exists r, run_steps gm_step ∅ ops = Some r) as [[g results] Hg].
  { generalize (∅ : gmap K V). clear. induction ops as [|op ops IH]; intros g; [by eexists|]. cbn [run_steps].
    destruct (gm_step g op) as [[g' r]|] eqn:E; [|done]. cbn [mbind option_bind]. destruct (IH g') as [[g2 rs] ->].
    by eexists. }
  destruct (run_steps sm_step small_map_new ops) as [[m rs]|]; simpl in Hr; [|congruence].
  destruct Hr as (g' & Eg & items & Hm & ->). pose proof (repr_nodup m items Hm) as Hnd.
  assert (items ≡ₚ map_to_list (to_map items)) as Hp by (symmetry; by apply map_to_list_to_map).
  assert (length items = size (to_map items)) as Hl by (rewrite <- length_map_to_list; by apply Permutation_length).
  exists m, (to_map items), rs, items.
  rewrite (sm_walk_spec m items Hm), (sm_size_spec m items Hm), (sm_empty_spec m items Hm), (sm_Destroy_spec m items Hm), Hl.
  split_and!; try done. rewrite <- Hl. destruct Hm; [done|]. discriminate.
Qed.
End SmallMap.

(** Two slots, keys in order: the third pair moves all of them into the map,
    [clear] goes back to the array. *)
Example small_map_run :
  let run := run_steps (sm_step 0 Nat.eqb (std_map_place Nat.ltb) 2) (small_map_new 2) in
  (('(m, rs) ← run [SInsert 7 70; SGet 5; SSet 3 30; SErase 5; SFind 7]; Some (UsingFullMap m, sm_walk m, rs))
   = Some (true, Some [(3, 30); (7, 70)], [(1, Some 70); (0, Some 0); (0, None); (1, None); (1, Some 70)])) /\
  (('(m, rs) ← run [SInsert 7 70; SInsert 5 50; SErase 7; SCopy]; Some (UsingFullMap m, sm_walk m, rs))
   = Some (false, Some [(5, 50)], [(1, Some 70); (1, Some 50); (1, None); (0, None)])).
Proof. split; vm_compute; reflexivity. Qed.

#[export] Instance nat_equal_key : EqualKey Nat.eqb.
Proof. exact Nat.eqb_eq. Qed.

Lemma small_map_refines_witness :
  exists m g results pairs,
    run_steps (sm_step 0 Nat.eqb (std_map_place Nat.ltb) 2) (small_map_new 2) [SInsert 7 70; SGet 5; SSet 3 30; SErase 5]
      = Some (m, results) /\
    run_steps (gm_step 0) ∅ [SInsert 7 70; SGet 5; SSet 3 30; SErase 5] = Some (g, results) /\
    sm_walk m = Some pairs /\ pairs ≡ₚ map_to_list g /\
    sm_size m = Some (size g) /\ sm_empty m = Some (size g =? 0) /\
    (UsingFullMap m = false -> size g <= 2) /\
    sm_Destroy 2 m = Some (array_ (raw_array 2)).
Proof.
  exact (small_map_refines 0 Nat.eqb (std_map_place Nat.ltb) 2 [SInsert 7 70; SGet 5; SSet 3 30; SErase 5]).
Defined.
