(* ===== verification/PriorityQueue.v ===== *)
(** * net/base/priority_queue.h: FIFO queues by priority, with erasure

    One [std::list] per priority level; a [Pointer] is a priority and a list
    iterator.  This is the build with [NDEBUG], in which the lists hold the values
    only; indexing [lists_] out of range, and using an iterator that is not in its
    list, is [None].  [next_node] names the node the next allocation returns. *)

From S2P Require Import Prelude StdList.

Section PriorityQueue.
Context {T : Type}.

Record PriorityQueue := MkPriorityQueue {
  lists_ : list (list (nat * T));
  size_ : nat;
  next_node : nat
}.

(** ** Pointers *)

Record Pointer := MkPointer { priority_ : Z; iterator_ : option nat }.

Definition kNullPriority : Z := 2 ^ 32 - 1.
Definition Pointer_null : Pointer := MkPointer kNullPriority None.
Definition is_null (p : Pointer) : bool := priority_ p =? kNullPriority.
Definition Pointer_Equals (p other : Pointer) : bool :=
  (priority_ p =? priority_ other) && bool_decide (iterator_ p = iterator_ other).
Definition Pointer_Reset (p : Pointer) : Pointer := Pointer_null.

Definition level (q : PriorityQueue) (priority : Z) : option (list (nat * T)) :=
  lists_ q !! Z.to_nat priority.

Definition Pointer_value (q : PriorityQueue) (p : Pointer) : option T :=
  l ← level q (priority_ p); n ← iterator_ p; node_get n l.

(** ** Operations *)

Definition PriorityQueue_new (num_priorities : nat) : PriorityQueue :=
  MkPriorityQueue (replicate num_priorities []) 0 0.

Definition pq_Insert (q : PriorityQueue) (value : T) (priority : Z) : option (PriorityQueue * Pointer) :=
  l ← level q priority;
  let n := next_node q in
  Some (MkPriorityQueue (<[Z.to_nat priority := l ++ [(n, value)]]> (lists_ q)) (S (size_ q)) (S n),
        MkPointer priority (Some n)).

Definition pq_InsertAtFront (q : PriorityQueue) (value : T) (priority : Z) : option (PriorityQueue * Pointer) :=
  l ← level q priority;
  let n := next_node q in
  Some (MkPriorityQueue (<[Z.to_nat priority := (n, value) :: l]> (lists_ q)) (S (size_ q)) (S n),
        MkPointer priority (Some n)).

Definition pq_Erase (q : PriorityQueue) (pointer : Pointer) : option PriorityQueue :=
  l ← level q (priority_ pointer);
  n ← iterator_ pointer;
  _ ← node_get n l;
  Some (MkPriorityQueue (<[Z.to_nat (priority_ pointer) := node_erase n l]> (lists_ q))
          (size_ q - 1) (next_node q)).

(** The loops that look for a level with values, from below and from above;
    [pick] is [begin()] or [--end()]. *)
Fixpoint scan_up (pick : list (nat * T) -> option nat) (i : Z) (ls : list (list (nat * T))) : Pointer :=
  match ls with
  | [] => Pointer_null
  | [] :: ls => scan_up pick (i + 1) ls
  | l :: _ => MkPointer i (pick l)
  end.
Fixpoint scan_down (pick : list (nat * T) -> option nat) (i : nat) (ls : list (list (nat * T))) : Pointer :=
  match i with
  | O => Pointer_null
  | S index =>
      match ls !! index with
      | Some (x :: l) => MkPointer (Z.of_nat index) (pick (x :: l))
      | _ => scan_down pick index ls
      end
  end.

Definition pq_FirstMin (q : PriorityQueue) : Pointer := scan_up node_begin 0 (lists_ q).
Definition pq_LastMin (q : PriorityQueue) : Pointer := scan_up node_last 0 (lists_ q).
Definition pq_FirstMax (q : PriorityQueue) : Pointer := scan_down node_begin (length (lists_ q)) (lists_ q).
Definition pq_LastMax (q : PriorityQueue) : Pointer := scan_down node_last (length (lists_ q)) (lists_ q).

(** The [while (it == lists_[priority].end())]. *)
Fixpoint next_loop (priority : nat) (it : option nat) (ls : list (list (nat * T))) : option Pointer :=
  match it with
  | Some n => Some (MkPointer (Z.of_nat priority) (Some n))
  | None =>
      match priority with
      | O => Some Pointer_null
      | S priority => l ← ls !! priority; next_loop priority (node_begin l) ls
      end
  end.
Definition GetNextTowardsLastMin (q : PriorityQueue) (pointer : Pointer) : option Pointer :=
  l ← level q (priority_ pointer);
  n ← iterator_ pointer;
  it ← node_next n l;
  next_loop (Z.to_nat (priority_ pointer)) it (lists_ q).

Definition pq_Clear (q : PriorityQueue) : PriorityQueue :=
  MkPriorityQueue (replicate (length (lists_ q)) []) 0 (next_node q).
Definition num_priorities (q : PriorityQueue) : nat := length (lists_ q).
Definition pq_empty (q : PriorityQueue) : bool := (size_ q =? 0)%nat.
Definition pq_size (q : PriorityQueue) : nat := size_ q.

(** ** The orders: by priority, then FIFO *)

(** Decreasing and increasing priority, each element with its level. *)
Fixpoint desc (i : nat) (ls : list (list (nat * T))) : list (nat * (nat * T)) :=
  match ls with [] => [] | l :: ls => desc (S i) ls ++ (pair i <$> l) end.
Fixpoint asc (i : nat) (ls : list (list (nat * T))) : list (nat * (nat * T)) :=
  match ls with [] => [] | l :: ls => (pair i <$> l) ++ asc (S i) ls end.

Definition pointer_to (x : option (nat * (nat * T))) : Pointer :=
  match x with Some (p, (n, _)) => MkPointer (Z.of_nat p) (Some n) | None => Pointer_null end.

Record pq_ok (q : PriorityQueue) : Prop := {
  po_nodes : NoDup (nodes (concat (lists_ q)));
  po_size : size_ q = length (concat (lists_ q));
  po_fresh : Forall (fun n => n < next_node q)%nat (nodes (concat (lists_ q)));
  po_levels : Z.of_nat (length (lists_ q)) < kNullPriority
}.

Lemma desc_snoc i ls l : desc i (ls ++ [l]) = (pair (i + length ls)%nat <$> l) ++ desc i ls.
Proof.
  revert i. induction ls as [|l' ls IH]; intros i; simpl.
  - by rewrite Nat.add_0_r, app_nil_r.
  - rewrite IH, <- app_assoc. by replace (i + S (length ls))%nat with (S i + length ls)%nat by lia.
Qed.

Lemma asc_snoc i ls l : asc i (ls ++ [l]) = asc i ls ++ (pair (i + length ls)%nat <$> l).
Proof.
  revert i. induction ls as [|l' ls IH]; intros i; simpl.
  - by rewrite Nat.add_0_r, app_nil_r.
  - rewrite IH, <- app_assoc. by replace (i + S (length ls))%nat with (S i + length ls)%nat by lia.
Qed.

Lemma take_S_snoc {A} (l : list A) i x : l !! i = Some x -> take (S i) l = take i l ++ [x].
Proof. intros. by apply take_S_r. Qed.

(** The scans find the ends of the orders. *)
Lemma scan_up_first i ls : scan_up node_begin (Z.of_nat i) ls = pointer_to (head (asc i ls)).
Proof.
  revert i. induction ls as [|[|[n x] l] ls IH]; intros i; simpl; [done| |done].
  rewrite <- IH. f_equal. lia.
Qed.

Lemma scan_up_last i ls : scan_up node_last (Z.of_nat i) ls = pointer_to (last (desc i ls)).
Proof.
  revert i. induction ls as [|l ls IH]; intros i; [done|]. cbn [desc scan_up]. rewrite last_app.
  destruct l as [|x l] using rev_ind; [simpl; rewrite <- IH; f_equal; lia|]. clear IHl.
  rewrite fmap_app. cbn [fmap list_fmap]. rewrite last_snoc. destruct (l ++ [x]) as [|y k] eqn:E; [by destruct l|]. rewrite <- E.
  unfold node_last. rewrite last_snoc. by destruct x.
Qed.

Lemma scan_down_first i ls : (i <= length ls)%nat ->
  scan_down node_begin i ls = pointer_to (head (desc 0 (take i ls))).
Proof.
  induction i as [|i IH]; intros Hi; simpl; [done|].
  destruct (lookup_lt_is_Some_2 ls i ltac:(lia)) as [l Hl]. rewrite Hl, (take_S_snoc _ _ _ Hl), desc_snoc.
  rewrite length_take_le by lia. destruct l as [|[n x] l]; [apply IH; lia|done].
Qed.

Lemma scan_down_last i ls : (i <= length ls)%nat ->
  scan_down node_last i ls = pointer_to (last (asc 0 (take i ls))).
Proof.
  induction i as [|i IH]; intros Hi; [done|]. cbn [scan_down].
  destruct (lookup_lt_is_Some_2 ls i ltac:(lia)) as [l Hl]. rewrite Hl, (take_S_snoc _ _ _ Hl), asc_snoc.
  rewrite length_take_le by lia. rewrite last_app.
  destruct l as [|x l] using rev_ind; [simpl; apply IH; lia|]. clear IHl.
  rewrite fmap_app. cbn [fmap list_fmap]. rewrite last_snoc. destruct (l ++ [x]) as [|y k] eqn:E; [by destruct l|]. rewrite <- E.
  unfold node_last. rewrite last_snoc. by destruct x.
Qed.

Lemma next_loop_spec p b ls : (p <= length ls)%nat ->
  next_loop p (node_begin b) ls = Some (pointer_to (head ((pair p <$> b) ++ desc 0 (take p ls)))).
Proof.
  revert b. induction p as [|p IH]; intros [|[n x] b] Hp; try done.
  cbn [next_loop node_begin head fmap option_fmap option_map list_fmap app].
  destruct (lookup_lt_is_Some_2 ls p ltac:(lia)) as [l Hl]. rewrite Hl. cbn [mbind option_bind].
  rewrite IH by lia. rewrite (take_S_snoc _ _ _ Hl), desc_snoc, length_take_le by lia. done.
Qed.

(** Where an element of the order sits, and what comes after it. *)
Lemma desc_split N ls pre p n x rest :
  (N <= length ls)%nat -> desc 0 (take N ls) = pre ++ (p, (n, x)) :: rest ->
  exists a b, ls !! p = Some (a ++ (n, x) :: b) /\ rest = (pair p <$> b) ++ desc 0 (take p ls).
Proof.
  revert pre. induction N as [|N IH]; intros pre HN E; [by destruct pre|].
  destruct (lookup_lt_is_Some_2 ls N ltac:(lia)) as [l Hl].
  rewrite (take_S_snoc _ _ _ Hl), desc_snoc, length_take_le in E by lia. simpl in E.
  apply app_eq_inv in E as [(k & E1 & E2)|(k & E1 & E2)].
  - destruct k as [|y k].
    + simpl in E2. symmetry in E2. apply (IH []); [lia|done].
    + injection E2 as <- ->. apply fmap_app_inv in E1 as (a & b & -> & E1 & ->).
      destruct b as [|z b]; simplify_eq/=. exists a, b. done.
  - apply (IH k); [lia|done].
Qed.

(** ** The traversal *)

(** Following [GetNextTowardsLastMin] to the null pointer. *)
Fixpoint traverse (fuel : nat) (q : PriorityQueue) (ptr : Pointer) : option (list (Z * T)) :=
  if is_null ptr then Some []
  else match fuel with
       | O => None
       | S fuel =>
           v ← Pointer_value q ptr;
           next ← GetNextTowardsLastMin q ptr;
           rest ← traverse fuel q next; Some ((priority_ ptr, v) :: rest)
       end.

Definition entry (x : nat * (nat * T)) : Z * T := (Z.of_nat x.1, x.2.2).

Lemma level_nodes q p l : pq_ok q -> lists_ q !! p = Some l -> NoDup (nodes l).
Proof.
  intros Hq Hl. pose proof (po_nodes q Hq) as Hn. apply list_elem_of_lookup_2, list_elem_of_split in Hl as (a & b & E).
  rewrite E, concat_app, nodes_app in Hn. simpl in Hn. rewrite nodes_app in Hn.
  apply NoDup_app in Hn as (_ & _ & Hn). by apply NoDup_app in Hn as (? & _).
Qed.

Lemma traverse_spec q pre rest fuel :
  pq_ok q -> desc 0 (lists_ q) = pre ++ rest -> (length rest <= fuel)%nat ->
  traverse fuel q (pointer_to (head rest)) = Some (entry <$> rest).
Proof.
  intros Hq. revert pre fuel. induction rest as [|[p [n x]] rest IH]; intros pre fuel E Hf.
  { by destruct fuel. }
  assert (desc 0 (take (length (lists_ q)) (lists_ q)) = pre ++ (p, (n, x)) :: rest) as E'
    by (by rewrite take_ge).
  destruct (desc_split _ _ _ _ _ _ _ ltac:(done) E') as (a & b & Hl & Er).
  pose proof (level_nodes q p _ Hq Hl) as Hn. pose proof (lookup_lt_Some _ _ _ Hl) as Hlt.
  pose proof (po_levels q Hq) as Hlev. simpl in Hf. destruct fuel as [|fuel]; [lia|].
  cbn [pointer_to head traverse]. unfold is_null at 1. cbn [priority_].
  destruct (Z.eqb_spec (Z.of_nat p) kNullPriority); [lia|].
  unfold Pointer_value, GetNextTowardsLastMin, level. cbn [priority_ iterator_]. rewrite Nat2Z.id, Hl.
  cbn [mbind option_bind]. rewrite node_get_split, node_next_split by done. cbn [mbind option_bind].
  rewrite next_loop_spec by lia. rewrite <- Er. cbn [mbind option_bind].
  rewrite (IH (pre ++ [(p, (n, x))])); [done|by rewrite <- app_assoc|lia].
Qed.

(** ** Operations keep the invariant *)

Lemma concat_level (ls : list (list (nat * T))) p l l' :
  ls !! p = Some l ->
  exists a b, concat ls = a ++ l ++ b /\ concat (<[p := l']> ls) = a ++ l' ++ b.
Proof.
  intros Hl. exists (concat (take p ls)), (concat (drop (S p) ls)).
  pose proof (lookup_lt_Some _ _ _ Hl). split.
  - rewrite <- (take_drop_middle ls p l Hl) at 1. by rewrite concat_app.
  - rewrite insert_take_drop by done. by rewrite concat_app.
Qed.

Lemma concat_no_levels n : concat (replicate n []) = ([] : list (nat * T)).
Proof. by induction n. Qed.

Lemma pq_new_ok n : Z.of_nat n < kNullPriority -> pq_ok (PriorityQueue_new n).
Proof.
  intros Hn. split; simpl; rewrite ?concat_no_levels, ?length_replicate; try done; constructor.
Qed.

(** A fresh node among the elements of a level. *)
Lemma pq_add_ok q p l l1 l2 v :
  pq_ok q -> lists_ q !! p = Some l -> l = l1 ++ l2 ->
  pq_ok (MkPriorityQueue (<[p := l1 ++ (next_node q, v) :: l2]> (lists_ q)) (S (size_ q)) (S (next_node q))).
Proof.
  intros [Hn Hs Hf Hlev] Hl ->. destruct (concat_level _ _ _ (l1 ++ (next_node q, v) :: l2) Hl) as (a & b & E1 & E2).
  assert (concat (lists_ q) = (a ++ l1) ++ (l2 ++ b)) as E1' by (by rewrite E1, <- !app_assoc).
  assert (concat (<[p := l1 ++ (next_node q, v) :: l2]> (lists_ q)) = (a ++ l1) ++ (next_node q, v) :: (l2 ++ b)) as E2'
    by (rewrite E2, <- !app_assoc; done).
  rewrite E1' in Hn, Hs, Hf. split; simpl; rewrite ?E2', ?length_insert; try done.
  - rewrite nodes_app in *. change (nodes ((next_node q, v) :: l2 ++ b)) with (next_node q :: nodes (l2 ++ b)).
    rewrite <- Permutation_middle. constructor; [|done].
    rewrite Forall_forall in Hf. intros Hin. specialize (Hf _ Hin). simpl in Hf. lia.
  - rewrite Hs, !length_app. simpl. rewrite !length_app. lia.
  - rewrite nodes_app in *. apply Forall_app in Hf as [H1 H2]. apply Forall_app. split; [|constructor; [simpl; lia|]].
    + eapply Forall_impl; [exact H1|]. intros z Hz. simpl in *. lia.
    + eapply Forall_impl; [exact H2|]. intros z Hz. simpl in *. lia.
Qed.

Lemma pq_remove_ok q p n v l1 l2 :
  pq_ok q -> lists_ q !! p = Some (l1 ++ (n, v) :: l2) ->
  pq_ok (MkPriorityQueue (<[p := l1 ++ l2]> (lists_ q)) (size_ q - 1) (next_node q)).
Proof.
  intros [Hn Hs Hf Hlev] Hl. destruct (concat_level _ _ _ (l1 ++ l2) Hl) as (a & b & E1 & E2).
  assert (concat (lists_ q) = (a ++ l1) ++ (n, v) :: (l2 ++ b)) as E1' by (by rewrite E1, <- !app_assoc).
  assert (concat (<[p := l1 ++ l2]> (lists_ q)) = (a ++ l1) ++ (l2 ++ b)) as E2' by (by rewrite E2, <- !app_assoc).
  rewrite E1' in Hn, Hs, Hf. split; simpl; rewrite ?E2', ?length_insert; try done.
  - by apply nodes_erased in Hn.
  - rewrite Hs, !length_app. simpl. rewrite !length_app. lia.
  - rewrite nodes_app in *. apply Forall_app in Hf as [H1 [_ H2]%Forall_cons]. by apply Forall_app.
Qed.

Lemma desc_length i ls : length (desc i ls) = length (concat ls).
Proof.
  revert i. induction ls as [|l ls IH]; intros i; simpl; [done|]. rewrite !length_app, length_fmap, IH. lia.
Qed.

(** ** Theorems *)

(** The order of a [PriorityQueue]: starting at [FirstMax] and following
    [GetNextTowardsLastMin] visits every queued value exactly once, by decreasing
    priority and FIFO within a priority, and then reaches the null pointer;
    [FirstMax] and [LastMin] are the ends of that order, [FirstMin] and [LastMax]
    those of the order by increasing priority, [size] counts its elements. *)
Lemma PriorityQueue_order (q : PriorityQueue) :
  pq_ok q ->
  traverse (pq_size q) q (pq_FirstMax q) = Some (entry <$> desc 0 (lists_ q)) /\
  pq_FirstMax q = pointer_to (head (desc 0 (lists_ q))) /\
  pq_LastMin q = pointer_to (last (desc 0 (lists_ q))) /\
  pq_FirstMin q = pointer_to (head (asc 0 (lists_ q))) /\
  pq_LastMax q = pointer_to (last (asc 0 (lists_ q))) /\
  pq_size q = length (desc 0 (lists_ q)).
Proof.
  intros Hq. unfold pq_FirstMax, pq_LastMin, pq_FirstMin, pq_LastMax, pq_size.
  rewrite scan_down_first, scan_down_last, !take_ge by lia.
  rewrite (scan_up_first 0), (scan_up_last 0), desc_length. split_and!; try done; [|by apply po_size].
  apply (traverse_spec q []); [done|done|]. rewrite desc_length. by rewrite <- po_size.
Qed.

(** A pointer to a value that is in the queue. *)
Definition points_to (q : PriorityQueue) (ptr : Pointer) (v : T) : Prop :=
  is_null ptr = false /\ Pointer_value q ptr = Some v.

(** [Insert] and [InsertAtFront] add the value at the end and the front of
    its level and return a pointer to it, [Erase] of a pointer to a queued value
    removes that value only, [Clear] empties every level; each leaves the other
    levels alone and keeps count, so that the queue stays consistent. *)
Lemma PriorityQueue_operations (q : PriorityQueue) (v : T) (p : Z) (l : list (nat * T)) :
  pq_ok q -> 0 <= p -> level q p = Some l ->
  (exists q' ptr n, pq_Insert q v p = Some (q', ptr) /\ pq_ok q' /\ points_to q' ptr v /\
     lists_ q' = <[Z.to_nat p := l ++ [(n, v)]]> (lists_ q) /\ pq_size q' = S (pq_size q)) /\
  (exists q' ptr n, pq_InsertAtFront q v p = Some (q', ptr) /\ pq_ok q' /\ points_to q' ptr v /\
     lists_ q' = <[Z.to_nat p := (n, v) :: l]> (lists_ q) /\ pq_size q' = S (pq_size q)) /\
  (forall a n w b, l = a ++ (n, w) :: b ->
     points_to q (MkPointer p (Some n)) w /\
     exists q', pq_Erase q (MkPointer p (Some n)) = Some q' /\ pq_ok q' /\
       lists_ q' = <[Z.to_nat p := a ++ b]> (lists_ q) /\ S (pq_size q') = pq_size q) /\
  pq_ok (pq_Clear q) /\ pq_empty (pq_Clear q) = true /\ num_priorities (pq_Clear q) = num_priorities q.
Proof.
  intros Hq Hp Hl. unfold level in Hl. pose proof (lookup_lt_Some _ _ _ Hl) as Hlt.
  pose proof (po_levels q Hq) as Hlev.
  assert (is_null (MkPointer p (Some (next_node q))) = false /\
          forall n, is_null (MkPointer p (Some n)) = false) as [Hnull Hnull']
    by (unfold is_null; simpl; split; intros; apply Z.eqb_neq; lia).
  unfold pq_Insert, pq_InsertAtFront, points_to, Pointer_value, level. rewrite Hl. cbn [mbind option_bind].
  split_and!.
  - pose proof (pq_add_ok q _ l l [] v Hq Hl ltac:(by rewrite app_nil_r)) as Hq'.
    eexists _, _, _. split; [reflexivity|]. split_and!; try done.
    simpl. rewrite list_lookup_insert_eq by done. simpl.
    apply node_get_split. exact (level_nodes _ _ _ Hq' (list_lookup_insert_eq _ _ _ Hlt)).
  - pose proof (pq_add_ok q _ l [] l v Hq Hl eq_refl) as Hq'.
    eexists _, _, _. split; [reflexivity|]. split_and!; try done.
    simpl. rewrite list_lookup_insert_eq by done. simpl.
    apply (node_get_split []). exact (level_nodes _ _ _ Hq' (list_lookup_insert_eq _ _ _ Hlt)).
  - intros a n w b ->. pose proof (level_nodes q _ _ Hq Hl) as Hn. split.
    + split; [done|]. simpl. rewrite Hl. simpl. by apply node_get_split.
    + unfold pq_Erase, level. simpl. rewrite Hl. simpl. rewrite node_get_split, node_erase_split by done. simpl.
      eexists. split; [reflexivity|]. split; [by eapply pq_remove_ok|]. split; [done|]. simpl.
      unfold pq_size. simpl. pose proof (po_size q Hq) as Hs.
      destruct (concat_level _ _ _ [] Hl) as (c & d & Ec & _). rewrite Ec, !length_app in Hs. simpl in Hs. lia.
  - pose proof (pq_new_ok (length (lists_ q)) Hlev) as [H1 H2 H3 H4]. split; try done.
    simpl. by rewrite concat_no_levels.
  - done.
  - unfold num_priorities. simpl. by rewrite length_replicate.
Qed.

End PriorityQueue.

Definition example_pq : @PriorityQueue nat :=
  MkPriorityQueue [[(0%nat, 10%nat)]; []; [(1%nat, 20%nat); (2%nat, 30%nat)]] 3 3.

Lemma example_pq_ok : pq_ok example_pq.
Proof.
  split; [|done| |done].
  - by apply (bool_decide_unpack _).
  - repeat (apply Forall_nil_2 || (apply Forall_cons_2; [simpl; lia|])).
Qed.

Lemma PriorityQueue_order_witness :
  traverse 3 example_pq (MkPointer 2 (Some 1%nat)) = Some [(2, 20%nat); (2, 30%nat); (0, 10%nat)].
Proof. exact (proj1 (PriorityQueue_order example_pq example_pq_ok)). Defined.

Lemma PriorityQueue_operations_witness :
  exists q' ptr n, pq_Insert example_pq 40%nat 1 = Some (q', ptr) /\ pq_ok q' /\ points_to q' ptr 40%nat /\
    lists_ q' = [[(0%nat, 10%nat)]; [(n, 40%nat)]; [(1%nat, 20%nat); (2%nat, 30%nat)]] /\ pq_size q' = 4%nat.
Proof.
  exact (proj1 (PriorityQueue_operations example_pq 40%nat 1 [] example_pq_ok ltac:(lia) eq_refl)).
Defined.
