(* ===== verification/DecodeBuffer.v ===== *)
(** * net/http2/decoder/decode_buffer.h: a cursor over input bytes

    A [DecodeBuffer] is the bytes between [buffer_] and [beyond_] and the offset
    of [cursor_].  Reading past the end, and advancing past it, is [None]; the
    theorems show when that does not happen.  A [char] is the byte reduced to a
    signed 8-bit number. *)

From S2P Require Import Prelude.

Record DecodeBuffer := MkDecodeBuffer { db_bytes : list Z; db_cursor : nat }.

Definition DecodeBuffer_new (s : list Z) : DecodeBuffer := MkDecodeBuffer s 0.

Definition FullSize (db : DecodeBuffer) : nat := length (db_bytes db).
Definition Offset (db : DecodeBuffer) : nat := db_cursor db.
Definition Empty (db : DecodeBuffer) : bool := (FullSize db <=? db_cursor db)%nat.
Definition HasData (db : DecodeBuffer) : bool := (db_cursor db <? FullSize db)%nat.
Definition Remaining (db : DecodeBuffer) : nat := (FullSize db - db_cursor db)%nat.
Definition MinLengthRemaining (db : DecodeBuffer) (length : nat) : nat := min length (Remaining db).

(** The bytes at the cursor, as [OnStringData(db->cursor(), len)] hands them on. *)
Definition cursor_bytes (db : DecodeBuffer) (len : nat) : list Z :=
  take len (drop (db_cursor db) (db_bytes db)).

Definition AdvanceCursor (db : DecodeBuffer) (amount : nat) : option DecodeBuffer :=
  if (amount <=? Remaining db)%nat then Some (MkDecodeBuffer (db_bytes db) (db_cursor db + amount))
  else None.

Definition DecodeChar (db : DecodeBuffer) : option (Z * DecodeBuffer) :=
  c ← db_bytes db !! db_cursor db;
  Some (wrapS 8 c, MkDecodeBuffer (db_bytes db) (S (db_cursor db))).

Definition DecodeUInt8 (db : DecodeBuffer) : option (Z * DecodeBuffer) :=
  '(c, db) ← DecodeChar db; Some (wrapU 8 c, db).

Definition DecodeUInt16 (db : DecodeBuffer) : option (Z * DecodeBuffer) :=
  '(b1, db) ← DecodeUInt8 db;
  '(b2, db) ← DecodeUInt8 db;
  Some (Z.lor (Z.shiftl b1 8) b2, db).

Definition DecodeUInt24 (db : DecodeBuffer) : option (Z * DecodeBuffer) :=
  '(b1, db) ← DecodeUInt8 db;
  '(b2, db) ← DecodeUInt8 db;
  '(b3, db) ← DecodeUInt8 db;
  Some (Z.lor (Z.lor (Z.shiftl b1 16) (Z.shiftl b2 8)) b3, db).

Definition DecodeUInt31 (db : DecodeBuffer) : option (Z * DecodeBuffer) :=
  '(b1, db) ← DecodeUInt8 db;
  let b1 := Z.land b1 0x7f in
  '(b2, db) ← DecodeUInt8 db;
  '(b3, db) ← DecodeUInt8 db;
  '(b4, db) ← DecodeUInt8 db;
  Some (u32 (Z.lor (Z.lor (Z.lor (Z.shiftl b1 24) (Z.shiftl b2 16)) (Z.shiftl b3 8)) b4), db).

Definition DecodeUInt32 (db : DecodeBuffer) : option (Z * DecodeBuffer) :=
  '(b1, db) ← DecodeUInt8 db;
  '(b2, db) ← DecodeUInt8 db;
  '(b3, db) ← DecodeUInt8 db;
  '(b4, db) ← DecodeUInt8 db;
  Some (u32 (Z.lor (Z.lor (Z.lor (Z.shiftl b1 24) (Z.shiftl b2 16)) (Z.shiftl b3 8)) b4), db).

(** [DecodeBufferSubset]: a buffer over the next bytes of [base]; when it goes,
    the cursor of the base moves by what was read from it. *)
Definition DecodeBufferSubset_new (base : DecodeBuffer) (subset_len : nat) : DecodeBuffer :=
  DecodeBuffer_new (cursor_bytes base (MinLengthRemaining base subset_len)).
Definition DecodeBufferSubset_destroy (base subset : DecodeBuffer) : option DecodeBuffer :=
  AdvanceCursor base (Offset subset).

(** ** Buffers as what was read and what is left *)

Definition at_ (read left_ : list Z) : DecodeBuffer := MkDecodeBuffer (read ++ left_) (length read).

Lemma at_new s : DecodeBuffer_new s = at_ [] s.
Proof. done. Qed.

Lemma Remaining_at p l : Remaining (at_ p l) = length l.
Proof. unfold Remaining, FullSize. simpl. rewrite length_app. lia. Qed.

Lemma Empty_at p l : Empty (at_ p l) = match l with [] => true | _ => false end.
Proof.
  unfold Empty, FullSize. simpl. rewrite length_app. destruct l; simpl;
    [apply Nat.leb_le|apply Nat.leb_gt]; lia.
Qed.

Lemma HasData_at p l : HasData (at_ p l) = match l with [] => false | _ => true end.
Proof.
  unfold HasData, FullSize. simpl. rewrite length_app. destruct l; simpl;
    [apply Nat.ltb_ge|apply Nat.ltb_lt]; lia.
Qed.

Lemma cursor_bytes_at p l n : cursor_bytes (at_ p l) n = take n l.
Proof. unfold cursor_bytes. simpl. by rewrite drop_app_length. Qed.

Lemma AdvanceCursor_at p l k : AdvanceCursor (at_ p (l ++ k)) (length l) = Some (at_ (p ++ l) k).
Proof.
  unfold AdvanceCursor. rewrite Remaining_at, length_app.
  rewrite (proj2 (Nat.leb_le _ _)) by lia. unfold at_. simpl. by rewrite <- app_assoc, length_app.
Qed.

Lemma wrap_octet b : is_octet b -> wrapU 8 (wrapS 8 b) = b.
Proof.
  intros Hb. unfold wrapU, wrapS, is_octet in *. change (2 ^ (8 - 1)) with 128. change (2 ^ 8) with 256.
  destruct (decide (b < 128)).
  - rewrite (Z.mod_small (b + 128)) by lia. rewrite Z.add_simpl_r. apply Z.mod_small. lia.
  - replace ((b + 128) mod 256) with (b - 128).
    + replace (b - 128 - 128) with (b + -1 * 256) by lia. rewrite Z.mod_add by lia. apply Z.mod_small. lia.
    + apply (Z.mod_unique _ _ 1); lia.
Qed.

Lemma DecodeUInt8_at p b l : is_octet b -> DecodeUInt8 (at_ p (b :: l)) = Some (b, at_ (p ++ [b]) l).
Proof.
  intros Hb. unfold DecodeUInt8, DecodeChar, at_. simpl. rewrite lookup_mid. simpl.
  rewrite wrap_octet by done. rewrite <- app_assoc, length_app. simpl. do 3 f_equal. lia.
Qed.

Lemma DecodeUInt8_end p : DecodeUInt8 (at_ p []) = None.
Proof.
  unfold DecodeUInt8, DecodeChar, at_. simpl. rewrite app_nil_r, lookup_ge_None_2 by lia. done.
Qed.

(** A subset sees the next bytes of its base; dropping it after [c] was read
    moves the base past [c]. *)
Lemma DecodeBufferSubset_at p l n c k :
  take n l = c ++ k ->
  DecodeBufferSubset_new (at_ p l) n = at_ [] (c ++ k) /\
  DecodeBufferSubset_destroy (at_ p l) (at_ c k) = Some (at_ (p ++ c) (k ++ drop n l)).
Proof.
  intros E. unfold DecodeBufferSubset_new, DecodeBufferSubset_destroy, MinLengthRemaining.
  rewrite cursor_bytes_at, Remaining_at, at_new. split.
  - f_equal. rewrite <- E. destruct (decide (n <= length l)%nat); [by rewrite Nat.min_l|].
    rewrite Nat.min_r by lia. by rewrite !take_ge by lia.
  - rewrite <- (take_drop n l) at 1. rewrite E, <- app_assoc. apply AdvanceCursor_at.
Qed.

(** ** Multi-byte integers are big-endian *)

Fixpoint be_value (acc : Z) (l : list Z) : Z :=
  match l with [] => acc | b :: l => be_value (acc * 256 + b) l end.

(** One more octet below the ones read. *)
Lemma lor_octet x b : is_octet b -> Z.lor (Z.shiftl x 8) b = x * 256 + b.
Proof. intros Hb. rewrite Z.shiftl_mul_pow2 by lia. by apply lor_disjoint. Qed.

Lemma land_7f b : Z.land b 0x7f = b mod 128.
Proof. exact (Z.land_ones b 7 ltac:(lia)). Qed.

Lemma be_word b1 b2 b3 b4 :
  is_octet b2 -> is_octet b3 -> is_octet b4 ->
  Z.lor (Z.lor (Z.lor (Z.shiftl b1 24) (Z.shiftl b2 16)) (Z.shiftl b3 8)) b4 = be_value b1 [b2; b3; b4].
Proof.
  intros H2 H3 H4.
  replace (Z.shiftl b1 24) with (Z.shiftl (Z.shiftl (Z.shiftl b1 8) 8) 8)
    by (rewrite !Z.shiftl_shiftl by lia; done).
  replace (Z.shiftl b2 16) with (Z.shiftl (Z.shiftl b2 8) 8) by (rewrite !Z.shiftl_shiftl by lia; done).
  by rewrite <- !Z.shiftl_lor, !lor_octet.
Qed.

(** A buffer's multi-byte reads give the big-endian number of the next two,
    three or four bytes (the 31-bit read drops the top bit) and leave the rest;
    with too few bytes left the read is outside the buffer. *)
Lemma DecodeBuffer_big_endian (p l : list Z) (b1 b2 b3 b4 : Z) :
  Forall is_octet [b1; b2; b3; b4] ->
  DecodeUInt16 (at_ p (b1 :: b2 :: l)) = Some (be_value 0 [b1; b2], at_ (p ++ [b1; b2]) l) /\
  DecodeUInt24 (at_ p (b1 :: b2 :: b3 :: l))
  = Some (be_value 0 [b1; b2; b3], at_ (p ++ [b1; b2; b3]) l) /\
  DecodeUInt32 (at_ p (b1 :: b2 :: b3 :: b4 :: l))
  = Some (be_value 0 [b1; b2; b3; b4], at_ (p ++ [b1; b2; b3; b4]) l) /\
  DecodeUInt31 (at_ p (b1 :: b2 :: b3 :: b4 :: l))
  = Some (be_value 0 [b1; b2; b3; b4] mod 2 ^ 31, at_ (p ++ [b1; b2; b3; b4]) l) /\
  DecodeUInt32 (at_ p [b1; b2; b3]) = None.
Proof.
  rewrite !Forall_cons. intros (H1 & H2 & H3 & H4 & _).
  assert (is_octet (Z.land b1 0x7f)) as H1' by (rewrite land_7f; unfold is_octet; pose proof (Z.mod_pos_bound b1 128); lia).
  unfold DecodeUInt16, DecodeUInt24, DecodeUInt32, DecodeUInt31.
  rewrite !DecodeUInt8_at by done. simpl. repeat (rewrite !DecodeUInt8_at by done; simpl).
  rewrite DecodeUInt8_end, <- !app_assoc. rewrite !be_word by done. simpl. split_and!; try done.
  - rewrite lor_octet by done. done.
  - replace (Z.shiftl b1 16) with (Z.shiftl (Z.shiftl b1 8) 8) by (rewrite !Z.shiftl_shiftl by lia; done).
    rewrite <- Z.shiftl_lor, !lor_octet by done. done.
  - do 2 f_equal. unfold u32. apply wrapU_id. unfold is_octet in *. lia.
  - do 2 f_equal. unfold u32. rewrite wrapU_id by (unfold is_octet in *; lia). rewrite land_7f.
    apply (Z.mod_unique _ _ (b1 / 128)); unfold is_octet in *;
      pose proof (Z.div_mod b1 128); pose proof (Z.mod_pos_bound b1 128); lia.
Qed.

Lemma DecodeBuffer_big_endian_witness :
  DecodeUInt31 (DecodeBuffer_new [0x80; 0; 1; 2; 9]) = Some (258, at_ [0x80; 0; 1; 2] [9]).
Proof.
  refine (proj1 (proj2 (proj2 (proj2 (DecodeBuffer_big_endian [] [9] 0x80 0 1 2 _))))).
  unfold is_octet. forall_lia.
Defined.
