(* ===== verification/HpackVarint.v ===== *)
(** * HPACK variable-length integers

    [HpackVarintDecoder] of net/http2/hpack/decoder/hpack_varint_decoder.h, which
    can stop at the end of a buffer and resume in the next one, and its
    counterpart, the [HpackOutputStream] of net/spdy/core/hpack that encodes them.
    [debug] is the build without [NDEBUG], in which finished decoders are marked
    and resuming one aborts ([None]). *)

From S2P Require Import Prelude DecodeBuffer.

(** ** The decoder *)

Inductive DecodeStatus := kDecodeDone | kDecodeInProgress | kDecodeError.

#[export] Instance DecodeStatus_eq_dec : EqDecision DecodeStatus.
Proof. solve_decision. Defined.

Record HpackVarintDecoder := MkHpackVarintDecoder { value_ : Z; offset_ : Z }.

Definition HpackVarintDecoder_new : HpackVarintDecoder := MkHpackVarintDecoder 0 0.

Definition MaxExtensionBytes : Z := 5.
Definition MaxOffset : Z := 7 * (MaxExtensionBytes - 1).

Section Decoder.
Context (debug : bool).

Definition MarkDone (d : HpackVarintDecoder) : HpackVarintDecoder :=
  if debug then MkHpackVarintDecoder (value_ d) (MaxOffset + 7) else d.
Definition CheckNotDone (d : HpackVarintDecoder) : bool := negb debug || (offset_ d <=? MaxOffset).
Definition CheckDone (d : HpackVarintDecoder) : bool := negb debug || (offset_ d >? MaxOffset).

(** The [do]-[while] of [Resume].  A shift of an [int] by 32 or more is undefined. *)
Fixpoint Resume_loop (fuel : nat) (d : HpackVarintDecoder) (db : DecodeBuffer)
    : option (DecodeStatus * HpackVarintDecoder * DecodeBuffer) :=
  match fuel with
  | O => None
  | S fuel =>
      if Empty db then Some (kDecodeInProgress, d, db)
      else
        '(byte, db) ← DecodeUInt8 db;
        if (offset_ d =? MaxOffset) && negb (byte =? 0) then Some (kDecodeError, MarkDone d, db)
        else if offset_ d >? 31 then None
        else
          let d := MkHpackVarintDecoder
                     (u32 (value_ d + Z.shiftl (Z.land byte 0x7f) (offset_ d))) (offset_ d) in
          if Z.land byte 0x80 =? 0 then Some (kDecodeDone, MarkDone d, db)
          else
            let d := MkHpackVarintDecoder (value_ d) (u32 (offset_ d + 7)) in
            if offset_ d <=? MaxOffset then Resume_loop fuel d db
            else Some (kDecodeError, MarkDone d, db)
  end.

Definition varint_Resume (d : HpackVarintDecoder) (db : DecodeBuffer)
    : option (DecodeStatus * HpackVarintDecoder * DecodeBuffer) :=
  if CheckNotDone d then Resume_loop (Z.to_nat MaxExtensionBytes) d db else None.

Definition varint_Start (d : HpackVarintDecoder) (prefix_value prefix_mask : Z) (db : DecodeBuffer)
    : option (DecodeStatus * HpackVarintDecoder * DecodeBuffer) :=
  let value := Z.land prefix_value prefix_mask in
  if value <? prefix_mask then Some (kDecodeDone, MarkDone (MkHpackVarintDecoder value (offset_ d)), db)
  else varint_Resume (MkHpackVarintDecoder value 0) db.

Definition varint_StartExtended (d : HpackVarintDecoder) (prefix_mask : Z) (db : DecodeBuffer)
    : option (DecodeStatus * HpackVarintDecoder * DecodeBuffer) :=
  varint_Resume (MkHpackVarintDecoder prefix_mask 0) db.

Definition varint_value (d : HpackVarintDecoder) : option Z :=
  if CheckDone d then Some (value_ d) else None.

Definition varint_set_value (d : HpackVarintDecoder) (v : Z) : HpackVarintDecoder :=
  MkHpackVarintDecoder v (offset_ (MarkDone d)).

Definition HiValueOfExtensionBytes (extension_bytes prefix_length : Z) : Z :=
  Z.shiftl 1 prefix_length - 2
  + (if extension_bytes =? 0 then 0 else Z.shiftl 1 (extension_bytes * 7)).

(** ** One byte at a time *)

Definition varint_step (d : HpackVarintDecoder) (byte : Z) : DecodeStatus * HpackVarintDecoder :=
  let v := value_ d + (byte mod 128) * 2 ^ offset_ d in
  if (offset_ d =? MaxOffset) && negb (byte =? 0) then (kDecodeError, MarkDone d)
  else if byte <? 128 then (kDecodeDone, MarkDone (MkHpackVarintDecoder v (offset_ d)))
  else if offset_ d + 7 <=? MaxOffset then (kDecodeInProgress, MkHpackVarintDecoder v (offset_ d + 7))
  else (kDecodeError, MarkDone (MkHpackVarintDecoder v (offset_ d + 7))).

(** Feeding a list of bytes; gives what is left. *)
Fixpoint varint_feed (d : HpackVarintDecoder) (l : list Z)
    : DecodeStatus * HpackVarintDecoder * list Z :=
  match l with
  | [] => (kDecodeInProgress, d, [])
  | b :: l =>
      match varint_step d b with
      | (kDecodeInProgress, d) => varint_feed d l
      | (st, d) => (st, d, l)
      end
  end.

(** A decoder that waits for its [k]-th extension byte: the value is that of a
    prefix of at most seven bits and [k] groups. *)
Definition varint_waits (d : HpackVarintDecoder) (k : Z) : Prop :=
  0 <= k <= 4 /\ offset_ d = 7 * k /\ 0 <= value_ d < 128 + 2 ^ (7 * k).

Lemma varint_step_next d b k :
  varint_waits d k -> is_octet b ->
  match varint_step d b with (kDecodeInProgress, d') => varint_waits d' (k + 1) /\ k < 4 | _ => True end.
Proof.
  intros (Hk & Ho & Hv) Hb. unfold varint_step, MaxOffset, MaxExtensionBytes. rewrite Ho.
  repeat case_if; try done. bool_to_prop. split; [|lia]. unfold varint_waits. simpl. split_and!; [lia|lia|lia| |].
  - pose proof (Z.mod_pos_bound b 128). pose proof (Z.pow_pos_nonneg 2 (7 * k)). nia.
  - replace (7 * (k + 1)) with (7 + 7 * k) by lia. rewrite Z.pow_add_r by lia. change (2 ^ 7) with 128.
    pose proof (Z.mod_pos_bound b 128). pose proof (Z.pow_pos_nonneg 2 (7 * k)). nia.
Qed.

Lemma varint_feed_app d l k :
  varint_feed d (l ++ k) =
  match varint_feed d l with
  | (kDecodeInProgress, d', _) => varint_feed d' k
  | (st, d', r) => (st, d', r ++ k)
  end.
Proof.
  revert d. induction l as [|b l IH]; intros d; simpl; [done|].
  destruct (varint_step d b) as [[] d']; [done|apply IH|done].
Qed.

(** ** The loop is that feeding *)

Lemma land_80 b : is_octet b -> (Z.land b 0x80 =? 0) = (b <? 128).
Proof.
  intros Hb. unfold is_octet in Hb.
  assert (forall x, 0 <= x < 256 -> (Z.land x 0x80 =? 0) = (x <? 128)) as H; [|by apply H].
  intros x Hx. replace x with (Z.of_nat (Z.to_nat x)) by lia. assert (Z.to_nat x < 256)%nat as Hn by lia.
  revert Hn. generalize (Z.to_nat x). intros n Hn.
  do 256 (destruct n as [|n]; [reflexivity|]). lia.
Qed.

Lemma Resume_loop_spec fuel d k p l :
  varint_waits d k -> Forall is_octet l -> (Z.to_nat (5 - k) <= fuel)%nat ->
  let '(st, d', r) := varint_feed d l in
  exists c, l = c ++ r /\ Resume_loop fuel d (at_ p l) = Some (st, d', at_ (p ++ c) r) /\
    (st = kDecodeInProgress -> r = [] /\ exists k', varint_waits d' k').
Proof.
  revert d k p l. induction fuel as [|fuel IH]; intros d k p l Hw Hl Hf; [destruct Hw as [? _]; lia|].
  destruct l as [|b l]; simpl.
  { exists []. rewrite Empty_at, !app_nil_r. eauto. }
  apply Forall_cons in Hl as [Hb Hl]. rewrite Empty_at, DecodeUInt8_at by done. simpl.
  pose proof (varint_step_next d b k Hw Hb) as Hnext. destruct Hw as (Hk & Ho & Hv).
  unfold varint_step in Hnext |- *. rewrite land_80, land_7f by done.
  destruct (_ && _) eqn:Em.
  { exists [b]. done. }
  assert ((offset_ d >? 31) = false) as -> by (rewrite Z.gtb_ltb; apply Z.ltb_ge; lia).
  assert (u32 (value_ d + Z.shiftl (b mod 128) (offset_ d)) = value_ d + b mod 128 * 2 ^ offset_ d) as ->.
  { rewrite Z.shiftl_mul_pow2 by lia. unfold u32. apply wrapU_id. rewrite Ho.
    pose proof (Z.mod_pos_bound b 128). unfold MaxOffset, MaxExtensionBytes in Em.
    destruct (decide (k = 4)) as [->|?].
    { assert (b = 0) as -> by (destruct (Z.eqb_spec (offset_ d) (7 * (5 - 1))); [|lia];
        destruct (Z.eqb_spec b 0); [done|discriminate]).
      change (2 ^ (7 * 4)) with 268435456 in *. change (0 mod 128) with 0. lia. }
    assert (2 ^ (7 * k) <= 2 ^ 21) by (apply Z.pow_le_mono_r; lia).
    pose proof (Z.pow_pos_nonneg 2 (7 * k)). change (2 ^ 21) with 2097152 in *. nia. }
  simpl. destruct (b <? 128); [exists [b]; done|].
  assert (u32 (offset_ d + 7) = offset_ d + 7) as -> by (unfold u32; apply wrapU_id; lia).
  destruct (offset_ d + 7 <=? MaxOffset); [|exists [b]; done].
  destruct Hnext as [Hw' Hlt]. specialize (IH _ _ (p ++ [b]) l Hw' Hl ltac:(lia)).
  destruct (varint_feed _ l) as [[st d'] r]. destruct IH as (c & -> & -> & Hc).
  exists (b :: c). rewrite <- app_assoc. done.
Qed.

Lemma Resume_spec d k p l :
  varint_waits d k -> Forall is_octet l ->
  let '(st, d', r) := varint_feed d l in
  exists c, l = c ++ r /\ varint_Resume d (at_ p l) = Some (st, d', at_ (p ++ c) r) /\
    (st = kDecodeInProgress -> r = [] /\ exists k', varint_waits d' k').
Proof.
  intros Hw Hl. unfold varint_Resume. assert (CheckNotDone d = true) as ->.
  { destruct Hw as (Hk & Ho & _). unfold CheckNotDone, MaxOffset, MaxExtensionBytes. rewrite Ho.
    apply orb_true_iff. right. apply Z.leb_le. lia. }
  apply (Resume_loop_spec _ d k); try done. destruct Hw as [? _]. unfold MaxExtensionBytes. lia.
Qed.

(** Decoding may be cut anywhere: resuming over the bytes of two buffers in
    turn gives the status, the decoder and the unread bytes that one buffer with
    all of them gives; no byte is read outside the buffers, and it ends. *)
Lemma varint_fragments (d : HpackVarintDecoder) (k : Z) (p q s a b : list Z) :
  varint_waits d k -> Forall is_octet (a ++ b) ->
  exists st d' c r, a ++ b = c ++ r /\
    varint_Resume d (at_ p (a ++ b)) = Some (st, d', at_ (p ++ c) r) /\
    match varint_Resume d (at_ q a) with
    | Some (kDecodeInProgress, d1, _) =>
        exists c', varint_Resume d1 (at_ s b) = Some (st, d', at_ (s ++ c') r)
    | Some (st1, d1, db1) => st1 = st /\ d1 = d' /\ exists c1 r1, db1 = at_ (q ++ c1) r1 /\ r = r1 ++ b
    | None => False
    end.
Proof.
  intros Hw Hab. pose proof Hab as [Ha Hb]%Forall_app.
  pose proof (Resume_spec d k p _ Hw Hab) as H. rewrite varint_feed_app in H.
  pose proof (Resume_spec d k q a Hw Ha) as H1.
  destruct (varint_feed d a) as [[st1 d1] r1]. destruct H1 as (c1 & Ea & -> & Hp).
  destruct st1.
  - destruct H as (c & E & -> & _). exists kDecodeDone, d1, c, (r1 ++ b). eauto 10.
  - destruct (Hp eq_refl) as (-> & k1 & Hw1). pose proof (Resume_spec d1 k1 s b Hw1 Hb) as H2.
    destruct (varint_feed d1 b) as [[st2 d2] r2]. destruct H as (c & E & -> & _).
    destruct H2 as (c2 & _ & -> & _). exists st2, d2, c, r2. eauto 10.
  - destruct H as (c & E & -> & _). exists kDecodeError, d1, c, (r1 ++ b). eauto 10.
Qed.

End Decoder.

(** ** The encoder *)

Record HpackOutputStream := MkHpackOutputStream { buffer_ : list Z; bit_offset_ : Z }.

Definition HpackOutputStream_new : HpackOutputStream := MkHpackOutputStream [] 0.

(** [*buffer_.rbegin() |= x]. *)
Definition or_last (buf : list Z) (x : Z) : option (list Z) :=
  match last buf with
  | Some b => Some (take (length buf - 1) buf ++ [wrapU 8 (Z.lor b x)])
  | None => None
  end.

Definition AppendBits (s : HpackOutputStream) (bits bit_size : Z) : option HpackOutputStream :=
  let new_bit_offset := bit_offset_ s + bit_size in
  if bit_offset_ s =? 0 then
    Some (MkHpackOutputStream (buffer_ s ++ [wrapU 8 (Z.shiftl bits (8 - bit_size))]) (new_bit_offset mod 8))
  else if new_bit_offset <=? 8 then
    buf ← or_last (buffer_ s) (Z.shiftl bits (8 - new_bit_offset));
    Some (MkHpackOutputStream buf (new_bit_offset mod 8))
  else
    buf ← or_last (buffer_ s) (Z.shiftr bits (new_bit_offset - 8));
    Some (MkHpackOutputStream (buf ++ [wrapU 8 (Z.shiftl bits (16 - new_bit_offset))]) (new_bit_offset mod 8)).

Record HpackPrefix := MkHpackPrefix { bits : Z; bit_size : Z }.

Definition AppendPrefix (s : HpackOutputStream) (prefix : HpackPrefix) : option HpackOutputStream :=
  AppendBits s (bits prefix) (bit_size prefix).

Definition AppendBytes (s : HpackOutputStream) (buffer : list Z) : HpackOutputStream :=
  MkHpackOutputStream (buffer_ s ++ buffer) (bit_offset_ s).

(** The loop of [AppendUint32]; five rounds exhaust 32 bits. *)
Fixpoint AppendUint32_loop (fuel : nat) (s : HpackOutputStream) (I : Z) : option HpackOutputStream :=
  match fuel with
  | O => None
  | S fuel =>
      if negb (Z.land I (u32 (Z.lnot 0x7f)) =? 0) then
        AppendUint32_loop fuel
          (MkHpackOutputStream (buffer_ s ++ [Z.lor (Z.land I 0x7f) 0x80]) (bit_offset_ s)) (Z.shiftr I 7)
      else AppendBits s (wrapU 8 I) 8
  end.

Definition AppendUint32 (s : HpackOutputStream) (I : Z) : option HpackOutputStream :=
  let N := 8 - bit_offset_ s in
  let max_first_byte := wrapU 8 (Z.shiftl 1 N - 1) in
  if I <? max_first_byte then AppendBits s (wrapU 8 I) N
  else
    s ← AppendBits s max_first_byte N;
    AppendUint32_loop 5 s (u32 (I - max_first_byte)).

Definition TakeString (s : HpackOutputStream) : list Z * HpackOutputStream :=
  (buffer_ s, MkHpackOutputStream [] 0).

Definition BoundedTakeString (s : HpackOutputStream) (max_size : nat) : list Z * HpackOutputStream :=
  if (max_size <? length (buffer_ s))%nat
  then (take max_size (buffer_ s), MkHpackOutputStream (drop max_size (buffer_ s)) (bit_offset_ s))
  else TakeString s.

(** The extension bytes of a number. *)
Fixpoint ext_bytes (fuel : nat) (J : Z) : list Z :=
  match fuel with
  | O => [J]
  | S fuel => if J <? 128 then [J] else (J mod 128 + 128) :: ext_bytes fuel (J / 128)
  end.

Lemma high_bits J : 0 <= J < 2 ^ 32 -> (Z.land J (u32 (Z.lnot 0x7f)) =? 0) = (J <? 128).
Proof.
  intros HJ. change (u32 (Z.lnot 0x7f)) with (Z.ldiff (Z.ones 32) (Z.ones 7)).
  assert (Z.land J (Z.ldiff (Z.ones 32) (Z.ones 7)) = J / 128 * 128) as ->.
  { rewrite Z.ldiff_land, Z.land_assoc, <- Z.ldiff_land, Z.land_ones, Z.mod_small by lia.
    rewrite Z.ldiff_ones_r, Z.shiftr_div_pow2, Z.shiftl_mul_pow2 by lia. done. }
  destruct (Z.ltb_spec J 128).
  - rewrite Z.div_small by lia. done.
  - apply Z.eqb_neq. pose proof (Z.div_le_mono 128 J 128 ltac:(lia) ltac:(lia)). change (128 / 128) with 1 in *. lia.
Qed.

Lemma AppendBits_byte buf x :
  is_octet x -> AppendBits (MkHpackOutputStream buf 0) x 8 = Some (MkHpackOutputStream (buf ++ [x]) 0).
Proof.
  intros Hx. unfold AppendBits. simpl. rewrite Z.shiftl_0_r, wrapU_id; [done|]. exact Hx.
Qed.

Lemma AppendUint32_loop_S fuel s J :
  AppendUint32_loop (S fuel) s J =
  if negb (Z.land J (u32 (Z.lnot 0x7f)) =? 0) then
    AppendUint32_loop fuel
      (MkHpackOutputStream (buffer_ s ++ [Z.lor (Z.land J 0x7f) 0x80]) (bit_offset_ s)) (Z.shiftr J 7)
  else AppendBits s (wrapU 8 J) 8.
Proof. done. Qed.

Lemma AppendUint32_loop_spec n buf J :
  0 <= J < 2 ^ 32 -> J < 2 ^ (7 * (Z.of_nat n + 1)) ->
  AppendUint32_loop (S n) (MkHpackOutputStream buf 0) J = Some (MkHpackOutputStream (buf ++ ext_bytes n J) 0).
Proof.
  revert buf J. induction n as [|n IH]; intros buf J HJ Hn;
    rewrite AppendUint32_loop_S, high_bits by done; cbn [ext_bytes buffer_ bit_offset_].
  - change (2 ^ (7 * (Z.of_nat 0 + 1))) with 128 in Hn. rewrite (proj2 (Z.ltb_lt _ _)) by lia. simpl.
    rewrite wrapU_id by lia. apply AppendBits_byte. unfold is_octet. lia.
  - destruct (Z.ltb_spec J 128); cbn [negb].
    { rewrite wrapU_id by lia. apply AppendBits_byte. unfold is_octet. lia. }
    pose proof (Z.mod_pos_bound J 128 ltac:(lia)) as Hm. rewrite land_7f, Z.lor_comm.
    assert (Z.lor 128 (J mod 128) = J mod 128 + 128) as ->
      by (rewrite Z.add_comm; apply (lor_disjoint 1 _ 7); [lia|exact Hm]).
    rewrite Z.shiftr_div_pow2 by lia. change (2 ^ 7) with 128.
    rewrite IH; [|pose proof (Z.div_lt_upper_bound J 128 (2 ^ 32)); pose proof (Z.div_pos J 128); lia|].
    + by rewrite <- app_assoc.
    + apply Z.div_lt_upper_bound; [lia|]. change 128 with (2 ^ 7). rewrite <- Z.pow_add_r by lia.
      replace (7 + 7 * (Z.of_nat n + 1)) with (7 * (Z.of_nat (S n) + 1)) by lia. done.
Qed.

(** The bytes of a number after a prefix of [8 - N] bits. *)
Definition varint_bytes (pre N I : Z) : list Z :=
  let mask := 2 ^ N - 1 in
  if I <? mask then [pre * 2 ^ N + I] else (pre * 2 ^ N + mask) :: ext_bytes 4 (I - mask).

Lemma or_last_snoc buf b x : or_last (buf ++ [b]) x = Some (buf ++ [wrapU 8 (Z.lor b x)]).
Proof.
  unfold or_last. rewrite last_snoc, length_app. simpl. rewrite Nat.add_sub.
  by rewrite take_mid.
Qed.

Lemma prefix_bounds pre size : 1 <= size <= 7 -> 0 <= pre < 2 ^ size ->
  0 <= pre * 2 ^ (8 - size) /\ pre * 2 ^ (8 - size) + 2 ^ (8 - size) <= 256 /\ 2 <= 2 ^ (8 - size).
Proof.
  intros Hs Hp. assert (2 ^ size * 2 ^ (8 - size) = 256) as E
    by (rewrite <- Z.pow_add_r by lia; by replace (size + (8 - size)) with 8 by lia).
  pose proof (Z.pow_le_mono_r 2 1 (8 - size)). nia.
Qed.

Lemma AppendUint32_spec buf pre size I :
  1 <= size <= 7 -> 0 <= pre < 2 ^ size -> 0 <= I < 2 ^ 32 ->
  (s ← AppendPrefix (MkHpackOutputStream buf 0) (MkHpackPrefix pre size); AppendUint32 s I)
  = Some (MkHpackOutputStream (buf ++ varint_bytes pre (8 - size) I) 0).
Proof.
  intros Hs Hp HI. destruct (prefix_bounds pre size Hs Hp) as (Hb1 & Hb2 & Hb3).
  set (m := 2 ^ (8 - size)) in *.
  assert (forall x, 0 <= x < m -> AppendBits (MkHpackOutputStream (buf ++ [pre * m]) size) x (8 - size)
            = Some (MkHpackOutputStream (buf ++ [pre * m + x]) 0)) as Hfirst.
  { intros x Hx. unfold AppendBits. simpl. destruct (Z.eqb_spec size 0); [lia|].
    replace (size + (8 - size)) with 8 by lia. simpl. rewrite or_last_snoc. simpl.
    rewrite Z.shiftl_0_r. unfold m. rewrite lor_disjoint by (fold m; lia). fold m.
    rewrite wrapU_id by (change (2 ^ 8) with 256; lia). done. }
  unfold AppendPrefix, AppendBits at 1. cbn [bits bit_size bit_offset_ buffer_ Z.eqb].
  rewrite Z.add_0_l, Z.shiftl_mul_pow2 by lia. fold m.
  rewrite (Z.mod_small size 8), (wrapU_id 8 (pre * m)) by (change (2 ^ 8) with 256; lia).
  cbn [mbind option_bind]. unfold AppendUint32, varint_bytes. cbn [bit_offset_]. fold m. rewrite Z.shiftl_1_l. fold m.
  rewrite (wrapU_id 8 (m - 1)) by (change (2 ^ 8) with 256; nia).
  destruct (Z.ltb_spec I (m - 1)).
  - rewrite wrapU_id by (change (2 ^ 8) with 256; nia). rewrite Hfirst by lia. done.
  - rewrite Hfirst by lia. cbn [mbind option_bind]. unfold u32. rewrite wrapU_id by lia.
    rewrite (snoc_app buf _ (ext_bytes _ _)). apply (AppendUint32_loop_spec 4); [lia|].
    apply (Z.lt_trans _ (2 ^ 32)); [lia|]. done.
Qed.

(** ** Decoding what was encoded *)

Lemma ext_bytes_octets n J :
  0 <= J -> J < 2 ^ (7 * (Z.of_nat n + 1)) -> Forall is_octet (ext_bytes n J).
Proof.
  revert J. induction n as [|n IH]; intros J H0 HJ; simpl.
  - constructor; [|done]. change (2 ^ (7 * (Z.of_nat 0 + 1))) with 128 in HJ. unfold is_octet. lia.
  - destruct (Z.ltb_spec J 128); constructor; try done; unfold is_octet; try lia.
    + pose proof (Z.mod_pos_bound J 128). lia.
    + apply IH; [apply Z.div_pos; lia|]. apply Z.div_lt_upper_bound; [lia|].
      change 128 with (2 ^ 7). rewrite <- Z.pow_add_r by lia.
      by replace (7 + 7 * (Z.of_nat n + 1)) with (7 * (Z.of_nat (S n) + 1)) by lia.
Qed.

Lemma feed_ext_bytes debug n k v J rest :
  k = 4 - Z.of_nat n -> (n <= 4)%nat -> 0 <= J -> J < 2 ^ (7 * (Z.of_nat n + 1)) ->
  let '(st, d, r) := varint_feed debug (MkHpackVarintDecoder v (7 * k)) (ext_bytes n J ++ rest) in
  if J <? 2 ^ (28 - 7 * k) then
    st = kDecodeDone /\ value_ d = v + J * 2 ^ (7 * k) /\ r = rest /\ varint_value debug d = Some (value_ d)
  else st = kDecodeError.
Proof.
  assert (forall d, varint_value debug (MarkDone debug d) = Some (value_ (MarkDone debug d))) as Hval.
  { intros d. unfold varint_value, CheckDone, MarkDone. by destruct debug. }
  assert (forall d, value_ (MarkDone debug d) = value_ d) as Hv.
  { intros d. unfold MarkDone. by destruct debug. }
  revert k v J. induction n as [|n IH]; intros k v J Hk Hn H0 HJ.
  - change (Z.of_nat 0) with 0 in *. subst k. change (2 ^ (28 - 7 * (4 - 0))) with 1.
    change (2 ^ (7 * (0 + 1))) with 128 in HJ. unfold varint_feed, ext_bytes, app, varint_step.
    cbn [offset_ value_]. change (7 * (4 - 0) =? MaxOffset) with true.
    destruct (Z.eqb_spec J 0) as [->|?]; cbn [negb andb].
    + change (0 <? 128) with true. change (0 <? 1) with true. cbn iota. rewrite Hval, Hv. done.
    + rewrite (proj2 (Z.ltb_ge _ _)) by lia. done.
  - assert (0 <= k < 4) as Hk4 by lia. cbn [ext_bytes].
    assert (2 ^ (28 - 7 * k) = 128 * 2 ^ (28 - 7 * (k + 1))) as Epow.
    { change 128 with (2 ^ 7). rewrite <- Z.pow_add_r by lia. f_equal. lia. }
    assert (0 < 2 ^ (28 - 7 * (k + 1))) by (apply Z.pow_pos_nonneg; lia).
    assert ((7 * k =? MaxOffset) = false) as Eo
      by (apply Z.eqb_neq; unfold MaxOffset, MaxExtensionBytes; lia).
    destruct (Z.ltb_spec J 128); cbn [app varint_feed]; unfold varint_step; cbn [offset_ value_];
      rewrite Eo; cbn [andb].
    + rewrite (proj2 (Z.ltb_lt J 128)), (proj2 (Z.ltb_lt J (2 ^ _))) by lia.
      rewrite Hval, Hv. cbn [value_]. by rewrite Z.mod_small by lia.
    + pose proof (Z.mod_pos_bound J 128 ltac:(lia)) as Hm. pose proof (Z.div_mod J 128 ltac:(lia)) as Hd.
      rewrite (proj2 (Z.ltb_ge (J mod 128 + 128) 128)) by lia.
      assert ((7 * k + 7 <=? MaxOffset) = true) as ->
        by (apply Z.leb_le; unfold MaxOffset, MaxExtensionBytes; lia).
      assert ((J mod 128 + 128) mod 128 = J mod 128) as ->.
      { rewrite <- (Z.mul_1_l 128) at 2. rewrite Z.mod_add, Z.mod_mod by lia. done. }
      replace (7 * k + 7) with (7 * (k + 1)) by lia.
      specialize (IH (k + 1) (v + J mod 128 * 2 ^ (7 * k)) (J / 128) ltac:(lia) ltac:(lia)
        ltac:(apply Z.div_pos; lia)).
      destruct (varint_feed debug _ _) as [[st d] r].
      assert ((J / 128 <? 2 ^ (28 - 7 * (k + 1))) = (J <? 2 ^ (28 - 7 * k))) as E.
      { rewrite Epow. destruct (Z.ltb_spec J (128 * 2 ^ (28 - 7 * (k + 1)))).
        - apply Z.ltb_lt. apply Z.div_lt_upper_bound; lia.
        - apply Z.ltb_ge. apply Z.div_le_lower_bound; lia. }
      rewrite E in IH.
      assert (v + J mod 128 * 2 ^ (7 * k) + J / 128 * 2 ^ (7 * (k + 1)) = v + J * 2 ^ (7 * k)) as Ev.
      { replace (7 * (k + 1)) with (7 + 7 * k) by lia. rewrite Z.pow_add_r by lia. change (2 ^ 7) with 128. nia. }
      rewrite Ev in IH. apply IH. apply Z.div_lt_upper_bound; [lia|].
      change 128 with (2 ^ 7). rewrite <- Z.pow_add_r by lia.
      by replace (7 + 7 * (Z.of_nat n + 1)) with (7 * (Z.of_nat (S n) + 1)) by lia.
Qed.

(** The first byte, masked, is the number or the mask. *)
Lemma land_prefix pre N x : 0 <= N -> 0 <= x < 2 ^ N -> Z.land (pre * 2 ^ N + x) (2 ^ N - 1) = x.
Proof.
  intros HN Hx. replace (2 ^ N - 1) with (Z.ones N) by (rewrite Z.ones_equiv; lia).
  rewrite Z.land_ones, Z.add_comm, Z.mod_add by lia. by apply Z.mod_small.
Qed.

(** What [AppendPrefix] and [AppendUint32] write after a prefix of one to
    four bits, [Start] reads back: the same number, exactly the bytes written,
    for every number up to the documented maximum of four full extension bytes;
    for a greater 32-bit number decoding ends in an error. *)
Lemma varint_roundtrip (debug : bool) (buf p rest : list Z) (pre size I : Z) (d : HpackVarintDecoder) :
  1 <= size <= 4 -> 0 <= pre < 2 ^ size -> 0 <= I < 2 ^ 32 -> Forall is_octet rest ->
  exists first ext,
    (s ← AppendPrefix (MkHpackOutputStream buf 0) (MkHpackPrefix pre size); AppendUint32 s I)
    = Some (MkHpackOutputStream (buf ++ first :: ext) 0) /\
    exists st d' c r,
      varint_Start debug d first (2 ^ (8 - size) - 1) (at_ p (ext ++ rest)) = Some (st, d', at_ (p ++ c) r) /\
      if I <=? HiValueOfExtensionBytes 4 (8 - size)
      then st = kDecodeDone /\ varint_value debug d' = Some I /\ c = ext /\ r = rest
      else st = kDecodeError.
Proof.
  intros Hs Hp HI Hrest. pose proof (AppendUint32_spec buf pre size I ltac:(lia) Hp HI) as Henc.
  destruct (prefix_bounds pre size ltac:(lia) Hp) as (_ & _ & Hb3). set (N := 8 - size) in *.
  assert (2 ^ N <= 128) as Hm by (apply (Z.pow_le_mono_r 2 N 7); lia).
  unfold varint_bytes in Henc. unfold varint_Start, HiValueOfExtensionBytes. rewrite !Z.shiftl_1_l.
  change (if 4 =? 0 then 0 else 2 ^ (4 * 7)) with 268435456. destruct (Z.ltb_spec I (2 ^ N - 1)).
  - exists (pre * 2 ^ N + I), []. split; [exact Henc|]. rewrite land_prefix by lia.
    rewrite (proj2 (Z.ltb_lt I _)), (proj2 (Z.leb_le I _)) by lia.
    eexists _, _, [], rest. rewrite app_nil_r. split; [reflexivity|]. split_and!; try done.
    unfold varint_value, CheckDone, MarkDone. by destruct debug.
  - exists (pre * 2 ^ N + (2 ^ N - 1)), (ext_bytes 4 (I - (2 ^ N - 1))). split; [exact Henc|].
    rewrite land_prefix by lia. rewrite Z.ltb_irrefl.
    set (J := I - (2 ^ N - 1)) in *. assert (0 <= J /\ J < 2 ^ (7 * (Z.of_nat 4 + 1))) as [HJ0 HJ].
    { change (2 ^ (7 * (Z.of_nat 4 + 1))) with 34359738368. lia. }
    pose proof (feed_ext_bytes debug 4 0 (2 ^ N - 1) J rest eq_refl ltac:(lia) HJ0 HJ) as Hf.
    pose proof (Resume_spec debug (MkHpackVarintDecoder (2 ^ N - 1) 0) 0 p (ext_bytes 4 J ++ rest)) as Hr.
    change (7 * 0) with 0 in Hf. destruct (varint_feed debug _ _) as [[st d'] r].
    destruct Hr as (c & Ec & -> & _).
    { unfold varint_waits. simpl. lia. }
    { apply Forall_app. split; [by apply ext_bytes_octets|done]. }
    exists st, d', c, r. split; [done|]. change (2 ^ (28 - 0)) with 268435456 in Hf.
    replace (I <=? 2 ^ N - 2 + 268435456) with (J <? 268435456)
      by (destruct (Z.ltb_spec J 268435456); symmetry; [apply Z.leb_le|apply Z.leb_gt]; lia).
    destruct (J <? 268435456); [|done]. destruct Hf as (-> & Hv & -> & ->).
    split_and!; try done; [|by apply app_inv_tail in Ec]. f_equal. rewrite Hv. change (2 ^ 0) with 1. lia.
Qed.

Lemma varint_fragments_witness :
  exists st d' c r, [0x9a; 0x0a; 7] = c ++ r /\
    varint_Resume true (MkHpackVarintDecoder 127 0) (at_ [] [0x9a; 0x0a; 7]) = Some (st, d', at_ c r) /\
    exists c', varint_Resume true (MkHpackVarintDecoder 153 7) (at_ [] [0x0a; 7]) = Some (st, d', at_ c' r).
Proof.
  refine (varint_fragments true (MkHpackVarintDecoder 127 0) 0 [] [] [] [0x9a] [0x0a; 7] _ _).
  - unfold varint_waits. simpl. lia.
  - unfold is_octet. simpl. forall_lia.
Defined.

Lemma varint_roundtrip_witness :
  exists first ext,
    (s ← AppendPrefix HpackOutputStream_new (MkHpackPrefix 0 3); AppendUint32 s 1337)
    = Some (MkHpackOutputStream (first :: ext) 0) /\
    exists st d' c r,
      varint_Start true HpackVarintDecoder_new first 31 (at_ [] (ext ++ [])) = Some (st, d', at_ ([] ++ c) r) /\
      (st = kDecodeDone /\ varint_value true d' = Some 1337 /\ c = ext /\ r = []).
Proof.
  refine (varint_roundtrip true [] [] [] 0 3 1337 HpackVarintDecoder_new _ _ _ _); [lia|lia|lia|done].
Defined.
