(* ===== verification/HpackString.v ===== *)
(** * HPACK string literals: net/http2/hpack/decoder/hpack_string_decoder.h

    The resumable [HpackStringDecoder]: a length varint whose first byte carries
    the Huffman bit, then the bytes, each part possibly cut by the end of a
    buffer.  The listener's callbacks are the events it receives, in order.  The
    encoder's [EmitString] (net/spdy/core/hpack/hpack_encoder.cc) is the
    counterpart; its Huffman table is a parameter. *)

From S2P Require Import Prelude DecodeBuffer HpackVarint.

Inductive StringDecoderState := kStartDecodingLength | kDecodingString | kResumeDecodingLength.

Record HpackStringDecoder := MkHpackStringDecoder {
  length_decoder_ : HpackVarintDecoder;
  remaining_ : Z;
  state_ : StringDecoderState;
  huffman_encoded_ : bool
}.

Definition HpackStringDecoder_new : HpackStringDecoder :=
  MkHpackStringDecoder HpackVarintDecoder_new 0 kStartDecodingLength false.

(** The callbacks of the listener. *)
Inductive StringEvent :=
  | OnStringStart (huffman_encoded : bool) (len : Z)
  | OnStringData (data : list Z)
  | OnStringEnd.

Definition with_state (d : HpackStringDecoder) (s : StringDecoderState) : HpackStringDecoder :=
  MkHpackStringDecoder (length_decoder_ d) (remaining_ d) s (huffman_encoded_ d).
Definition with_remaining (d : HpackStringDecoder) (n : Z) : HpackStringDecoder :=
  MkHpackStringDecoder (length_decoder_ d) n (state_ d) (huffman_encoded_ d).
Definition with_length (d : HpackStringDecoder) (v : HpackVarintDecoder) : HpackStringDecoder :=
  MkHpackStringDecoder v (remaining_ d) (state_ d) (huffman_encoded_ d).
Definition with_huffman (d : HpackStringDecoder) (h : bool) : HpackStringDecoder :=
  MkHpackStringDecoder (length_decoder_ d) (remaining_ d) (state_ d) h.

(** What a call changes: the decoder, the buffer and the events so far. *)
Abbreviation string_io := (HpackStringDecoder * DecodeBuffer * list StringEvent)%type.

Section StringDecoder.
Context (debug : bool).

Definition sd_OnStringStart (d : HpackStringDecoder) (cb : list StringEvent)
    : option (HpackStringDecoder * list StringEvent) :=
  len ← varint_value debug (length_decoder_ d);
  Some (with_remaining d len, cb ++ [OnStringStart (huffman_encoded_ d) len]).

Definition StartDecodingLength (io : string_io) : option (bool * DecodeStatus * string_io) :=
  let '(d, db, cb) := io in
  if Empty db then Some (false, kDecodeInProgress, (with_state d kStartDecodingLength, db, cb))
  else
    '(h_and_prefix, db) ← DecodeUInt8 db;
    let d := with_huffman d (Z.land h_and_prefix 0x80 =? 0x80) in
    '(status, v, db) ← varint_Start debug (length_decoder_ d) h_and_prefix 0x7f db;
    let d := with_length d v in
    match status with
    | kDecodeDone => '(d, cb) ← sd_OnStringStart d cb; Some (true, status, (d, db, cb))
    | _ => Some (false, status, (with_state d kResumeDecodingLength, db, cb))
    end.

Definition ResumeDecodingLength (io : string_io) : option (bool * DecodeStatus * string_io) :=
  let '(d, db, cb) := io in
  '(status, v, db) ← varint_Resume debug (length_decoder_ d) db;
  let d := with_length d v in
  match status with
  | kDecodeDone =>
      '(d, cb) ← sd_OnStringStart (with_state d kDecodingString) cb; Some (true, status, (d, db, cb))
  | _ => Some (false, status, (d, db, cb))
  end.

Definition DecodeString (io : string_io) : option (DecodeStatus * string_io) :=
  let '(d, db, cb) := io in
  let len := Z.min (remaining_ d) (Z.of_nat (Remaining db)) in
  '(d, db, cb) ←
    (if 0 <? len then
       db' ← AdvanceCursor db (Z.to_nat len);
       Some (with_remaining d (u64 (remaining_ d - len)), db',
             cb ++ [OnStringData (cursor_bytes db (Z.to_nat len))])
     else Some (d, db, cb));
  if remaining_ d =? 0 then Some (kDecodeDone, (d, db, cb ++ [OnStringEnd]))
  else Some (kDecodeInProgress, (with_state d kDecodingString, db, cb)).

(** The [while (true)] of [Resume]; the second round always returns. *)
Fixpoint sd_Resume_loop (fuel : nat) (io : string_io) : option (DecodeStatus * string_io) :=
  match fuel with
  | O => None
  | S fuel =>
      match state_ io.1.1 with
      | kStartDecodingLength =>
          '(continue_, status, io) ← StartDecodingLength io;
          if (continue_ : bool) then DecodeString io else Some (status, io)
      | kDecodingString => DecodeString io
      | kResumeDecodingLength =>
          '(continue_, status, io) ← ResumeDecodingLength io;
          if (continue_ : bool) then sd_Resume_loop fuel io else Some (status, io)
      end
  end.
Definition sd_Resume (io : string_io) : option (DecodeStatus * string_io) := sd_Resume_loop 2 io.

Definition StartOnly (io : string_io) : option (DecodeStatus * string_io) :=
  let '(d, db, cb) := io in sd_Resume (with_state d kStartDecodingLength, db, cb).

Definition StartAndDecodeLength (io : string_io) : option (DecodeStatus * string_io) :=
  '(continue_, status, io) ← StartDecodingLength io;
  if (continue_ : bool) then
    let '(d, db, cb) := io in DecodeString (with_state d kDecodingString, db, cb)
  else Some (status, io).

Definition StartSpecialCaseShort (io : string_io) : option (DecodeStatus * string_io) :=
  let '(d, db, cb) := io in
  if HasData db && match cursor_bytes db 1 with c :: _ => negb (Z.land (wrapS 8 c) 0x7f =? 0x7f) | [] => false end
  then
    '(h_and_prefix, db) ← DecodeUInt8 db;
    let length := Z.land h_and_prefix 0x7f in
    let huffman_encoded := Z.land h_and_prefix 0x80 =? 0x80 in
    let cb := cb ++ [OnStringStart huffman_encoded length] in
    if length <=? Z.of_nat (Remaining db) then
      let cb := cb ++ [OnStringData (cursor_bytes db (Z.to_nat length))] in
      db ← AdvanceCursor db (Z.to_nat length);
      Some (kDecodeDone, (d, db, cb ++ [OnStringEnd]))
    else
      sd_Resume (MkHpackStringDecoder (length_decoder_ d) length kDecodingString huffman_encoded, db, cb)
  else sd_Resume (with_state d kStartDecodingLength, db, cb).

Definition sd_Start (io : string_io) : option (DecodeStatus * string_io) := StartSpecialCaseShort io.

(** ** What the listener has heard *)

Definition hear (v : option (bool * Z) * list Z * bool) (e : StringEvent)
    : option (bool * Z) * list Z * bool :=
  match e with
  | OnStringStart h n => (Some (h, n), v.1.2, v.2)
  | OnStringData x => (v.1.1, v.1.2 ++ x, v.2)
  | OnStringEnd => (v.1, true)
  end.
Definition view (cb : list StringEvent) : option (bool * Z) * list Z * bool :=
  fold_left hear cb (None, [], false).

Lemma view_snoc cb e : view (cb ++ [e]) = hear (view cb) e.
Proof. unfold view. by rewrite fold_left_app. Qed.

(** ** The literal as a function of all its bytes *)

Definition length_feed (b : Z) (l : list Z) : DecodeStatus * HpackVarintDecoder * list Z :=
  if b mod 128 <? 127 then (kDecodeDone, MkHpackVarintDecoder (b mod 128) 0, l)
  else varint_feed debug (MkHpackVarintDecoder 127 0) l.

Abbreviation outcome := (DecodeStatus * (option (bool * Z) * list Z * bool) * list Z)%type.

(** Status, what the listener has heard, and the bytes left. *)
Definition string_spec (l : list Z) : outcome :=
  match l with
  | [] => (kDecodeInProgress, (None, [], false), [])
  | b :: l =>
      match length_feed b l with
      | (kDecodeInProgress, _, _) => (kDecodeInProgress, (None, [], false), [])
      | (kDecodeError, _, r) => (kDecodeError, (None, [], false), r)
      | (kDecodeDone, v, r) =>
          let n := Z.to_nat (value_ v) in
          if (n <=? length r)%nat
          then (kDecodeDone, (Some (128 <=? b, value_ v), take n r, true), drop n r)
          else (kDecodeInProgress, (Some (128 <=? b, value_ v), r, false), [])
      end
  end.

(** ** Correctness of every call *)

Lemma varint_feed_done d k l d' r :
  varint_waits d k -> Forall is_octet l -> varint_feed debug d l = (kDecodeDone, d', r) ->
  0 <= value_ d' < 2 ^ 40 /\ varint_value debug d' = Some (value_ d').
Proof.
  intros Hw Hl. revert d k Hw. induction Hl as [|b l Hb Hl IH]; intros d k Hw; simpl; [done|].
  pose proof (varint_step_next debug d b k Hw Hb) as Hn.
  destruct (varint_step debug d b) as [[] d1] eqn:E; [|intros; by eapply IH; [apply Hn|]|done].
  intros [= <- <-]. unfold varint_step in E.
  destruct (_ && _); [done|]. destruct (b <? 128); [|by destruct (_ <=? _)]. injection E as <-.
  destruct Hw as (Hk & Ho & Hv). rewrite Ho in *. pose proof (Z.mod_pos_bound b 128 ltac:(lia)).
  assert (0 < 2 ^ (7 * k) <= 2 ^ 28) by (split; [apply Z.pow_pos_nonneg; lia|apply Z.pow_le_mono_r; lia]).
  change (2 ^ 28) with 268435456 in *. change (2 ^ 40) with 1099511627776.
  assert (0 <= b mod 128 * 2 ^ (7 * k) <= 127 * 2 ^ (7 * k)) by nia.
  unfold varint_value, CheckDone, MarkDone, MaxOffset, MaxExtensionBytes; destruct debug; cbn [value_ offset_];
    (split; [lia|done]).
Qed.

Lemma land_80_bit b : is_octet b -> (Z.land b 0x80 =? 0x80) = (128 <=? b).
Proof.
  intros Hb. pose proof (Z.land_ones b 7 ltac:(lia)) as Hm. unfold is_octet in Hb.
  destruct (Z.leb_spec 128 b).
  - replace b with (1 * 2 ^ 7 + (b - 128)) by lia. rewrite <- lor_disjoint by lia.
    rewrite Z.land_lor_distr_l. apply Z.eqb_eq. change (1 * 2 ^ 7) with 128.
    rewrite Z.land_diag. apply Z.bits_inj'. intros i Hi. rewrite Z.lor_spec, Z.land_spec.
    destruct (Z.testbit 128 i) eqn:E; [done|]. by rewrite andb_false_r.
  - pose proof (land_80 b Hb) as E. rewrite (proj2 (Z.ltb_lt b 128)) in E by lia.
    apply Z.eqb_eq in E. rewrite E. done.
Qed.

(** The decoder after the length is known, with [r] of the body received. *)
Lemma DecodeString_spec d p m cb h n r :
  remaining_ d = n - Z.of_nat (length r) -> 0 <= remaining_ d -> n < 2 ^ 40 ->
  view cb = (Some (h, n), r, false) ->
  exists st d' c m' cb', DecodeString (d, at_ p m, cb) = Some (st, (d', at_ (p ++ c) m', cb')) /\
    m = c ++ m' /\
    (st, view cb', m') =
      (if (Z.to_nat n <=? length (r ++ m))%nat
       then (kDecodeDone, (Some (h, n), take (Z.to_nat n) (r ++ m), true), drop (Z.to_nat n) (r ++ m))
       else (kDecodeInProgress, (Some (h, n), r ++ m, false), [])) /\
    (st = kDecodeInProgress ->
       state_ d' = kDecodingString /\ remaining_ d' = n - Z.of_nat (length (r ++ m)) /\ 0 < remaining_ d').
Proof.
  intros Hrem H0 Hn Hv. unfold DecodeString. rewrite Remaining_at, length_app.
  set (k := Z.to_nat (Z.min (remaining_ d) (Z.of_nat (length m)))).
  assert (Z.of_nat k = Z.min (remaining_ d) (Z.of_nat (length m))) as Hk by lia. clearbody k.
  assert (AdvanceCursor (at_ p m) k = Some (at_ (p ++ take k m) (drop k m))) as Hadv.
  { pose proof (AdvanceCursor_at p (take k m) (drop k m)) as E. by rewrite take_drop, length_take_le in E by lia. }
  assert (exists d1 db1 cb1,
    (if 0 <? Z.min (remaining_ d) (Z.of_nat (length m)) then
       db' ← AdvanceCursor (at_ p m) k;
       Some (with_remaining d (u64 (remaining_ d - Z.min (remaining_ d) (Z.of_nat (length m)))), db',
             cb ++ [OnStringData (cursor_bytes (at_ p m) k)])
     else Some (d, at_ p m, cb)) = Some (d1, db1, cb1) /\
    db1 = at_ (p ++ take k m) (drop k m) /\ view cb1 = (Some (h, n), r ++ take k m, false) /\
    remaining_ d1 = remaining_ d - Z.of_nat k) as (d1 & db1 & cb1 & -> & -> & Hv1 & Hr1).
  { destruct (Z.ltb_spec 0 (Z.min (remaining_ d) (Z.of_nat (length m)))).
    - rewrite Hadv. cbn [mbind option_bind]. eexists _, _, _. split; [reflexivity|]. split_and!; [done| |].
      + rewrite view_snoc, Hv, cursor_bytes_at. done.
      + cbn [with_remaining remaining_]. rewrite u64_id by (unfold is_u64; lia). lia.
    - assert (k = 0%nat) as E by lia. eexists _, _, _. split; [reflexivity|]. rewrite E. simpl.
      rewrite !app_nil_r. split_and!; [done|done|lia]. }
  cbn [mbind option_bind]. rewrite Hr1. destruct (Z.eqb_spec (remaining_ d - Z.of_nat k) 0).
  - eexists _, _, (take k m), (drop k m), _. split; [reflexivity|]. rewrite take_drop. split; [done|].
    assert (Z.to_nat n = (length r + k)%nat) as En' by lia. rewrite (proj2 (Nat.leb_le _ _)) by lia.
    rewrite view_snoc, Hv1, En'. simpl. split; [|done]. by rewrite take_app_add, drop_app_add.
  - assert (k = length m) as Ek by lia. rewrite Ek, take_ge, drop_ge in * by lia.
    eexists _, _, m, [], _. split; [reflexivity|]. rewrite app_nil_r. split; [done|].
    rewrite (proj2 (Nat.leb_gt _ _)) by lia. rewrite Hv1. split; [done|]. intros _. simpl.
    split_and!; [done|lia|lia].
Qed.

(** A decoder that has consumed the bytes [c] and waits for more. *)
Inductive awaits (d : HpackStringDecoder) (cb : list StringEvent) : list Z -> Prop :=
  | awaits_start : state_ d = kStartDecodingLength -> view cb = (None, [], false) -> awaits d cb []
  | awaits_length b l k :
      state_ d = kResumeDecodingLength -> huffman_encoded_ d = (128 <=? b) ->
      view cb = (None, [], false) -> (b mod 128 <? 127) = false ->
      varint_feed debug (MkHpackVarintDecoder 127 0) l = (kDecodeInProgress, length_decoder_ d, []) ->
      varint_waits (length_decoder_ d) k -> awaits d cb (b :: l)
  | awaits_body b l v r :
      state_ d = kDecodingString -> length_feed b l = (kDecodeDone, v, r) ->
      remaining_ d = value_ v - Z.of_nat (length r) -> 0 <= remaining_ d -> value_ v < 2 ^ 40 ->
      view cb = (Some (128 <=? b, value_ v), r, false) -> (Z.to_nat (value_ v) <=? length r)%nat = false ->
      awaits d cb (b :: l).

(** The result of a call on a buffer with [m], when [c] was consumed before. *)
Definition call_ok (c m p : list Z) (res : option (DecodeStatus * string_io)) : Prop :=
  exists st d' c' m' cb', res = Some (st, (d', at_ (p ++ c') m', cb')) /\ m = c' ++ m' /\
    (st, view cb', m') = string_spec (c ++ m) /\
    (st = kDecodeInProgress -> m' = [] /\ awaits d' cb' (c ++ m)).

Lemma length_feed_app b l m :
  length_feed b (l ++ m) =
  match length_feed b l with
  | (kDecodeInProgress, d, _) => varint_feed debug d m
  | (st, d, r) => (st, d, r ++ m)
  end.
Proof. unfold length_feed. destruct (_ <? _); [done|]. apply varint_feed_app. Qed.

Lemma varint_feed_consumed d l st d' r :
  varint_feed debug d l = (st, d', r) -> exists c, l = c ++ r /\ varint_feed debug d c = (st, d', []).
Proof.
  revert d. induction l as [|b l IH]; intros d; simpl; [intros [= <- <- <-]; by exists []|].
  destruct (varint_step debug d b) as [[] d1] eqn:E.
  - intros [= <- <- <-]. exists [b]. simpl. by rewrite E.
  - intros H. destruct (IH _ H) as (c & -> & Hc). exists (b :: c). simpl. by rewrite E.
  - intros [= <- <- <-]. exists [b]. simpl. by rewrite E.
Qed.

Lemma length_feed_consumed b c st v r :
  length_feed b (c ++ r) = (st, v, r) -> length_feed b c = (st, v, []).
Proof.
  unfold length_feed. destruct (_ <? _).
  - intros [= <- <- E]. assert (c = []) as -> by (by apply (app_inv_tail r)). done.
  - intros H. destruct (varint_feed_consumed _ _ _ _ _ H) as (c' & E & Hc). by apply app_inv_tail in E as ->.
Qed.

(** The length is known: [b :: l] was consumed, [r] of it being body. *)
Lemma body_call_ok d cb c c0 m p b l v r :
  c ++ c0 = b :: l -> length_feed b l = (kDecodeDone, v, r) ->
  remaining_ d = value_ v - Z.of_nat (length r) -> 0 <= remaining_ d -> value_ v < 2 ^ 40 ->
  view cb = (Some (128 <=? b, value_ v), r, false) ->
  call_ok c (c0 ++ m) p (DecodeString (d, at_ (p ++ c0) m, cb)).
Proof.
  intros Hc Hf Hrem H0 Hn Hv.
  destruct (DecodeString_spec d (p ++ c0) m cb _ _ r Hrem H0 Hn Hv)
    as (st & d' & c1 & m' & cb' & -> & -> & Hout & Hprog).
  assert (length_feed b (l ++ c1 ++ m') = (kDecodeDone, v, r ++ c1 ++ m')) as Hf'
    by (by rewrite length_feed_app, Hf).
  exists st, d', (c0 ++ c1), m', cb'. rewrite <- !app_assoc. split_and!; [done|done| |].
  - rewrite Hout, (app_assoc c c0), Hc. simpl. by rewrite Hf'.
  - intros ->. destruct (Hprog eq_refl) as (H1 & H2 & H3). destruct (_ <=? _)%nat eqn:El; [done|].
    injection Hout as Hview ->. split; [done|]. rewrite app_nil_r in *. rewrite (app_assoc c c0), Hc.
    apply (awaits_body _ _ b (l ++ c1) v (r ++ c1)); try done. lia.
Qed.

(** A first byte and what follows of the length. *)
Lemma varint_Start_spec d p b l :
  is_octet b -> Forall is_octet l ->
  let '(st, v, r) := length_feed b l in
  exists c v', l = c ++ r /\ varint_Start debug d b 0x7f (at_ p l) = Some (st, v', at_ (p ++ c) r) /\
    value_ v' = value_ v /\
    match st with
    | kDecodeDone => varint_value debug v' = Some (value_ v) /\ 0 <= value_ v < 2 ^ 40
    | kDecodeInProgress => r = [] /\ v' = v /\ (b mod 128 <? 127) = false /\ exists k, varint_waits v k
    | kDecodeError => True
    end.
Proof.
  intros Hb Hl. unfold varint_Start, length_feed. rewrite land_7f.
  pose proof (Z.mod_pos_bound b 128 ltac:(lia)). destruct (Z.ltb_spec (b mod 128) 127).
  - eexists [], _. rewrite app_nil_r. split; [done|]. split; [reflexivity|].
    change (2 ^ 40) with 1099511627776. unfold varint_value, CheckDone, MarkDone.
    destruct debug; cbn [value_]; split_and!; try done; lia.
  - replace (b mod 128) with 127 by lia. assert (varint_waits (MkHpackVarintDecoder 127 0) 0) as Hw
      by (unfold varint_waits; simpl; lia).
    pose proof (Resume_spec debug _ 0 p l Hw Hl) as Hr. destruct (varint_feed debug _ l) as [[st v] r] eqn:E.
    destruct Hr as (c & -> & -> & Hp). exists c, v. split_and!; try done. destruct st; [| |done].
    + by destruct (varint_feed_done _ _ _ _ _ Hw Hl E).
    + destruct (Hp eq_refl) as [-> Hk]. done.
Qed.

(** [StartDecodingLength], continued with [DecodeString] when it says so. *)
Lemma start_call_ok d p m cb (f : HpackStringDecoder -> HpackStringDecoder) :
  view cb = (None, [], false) -> Forall is_octet m ->
  (forall x, remaining_ (f x) = remaining_ x) ->
  call_ok [] m p
    ('(continue_, status, io) ← StartDecodingLength (d, at_ p m, cb);
     if (continue_ : bool) then let '(d, db, cb) := io in DecodeString (f d, db, cb) else Some (status, io)).
Proof.
  intros Hv Hm Hf. unfold StartDecodingLength. rewrite Empty_at. destruct m as [|b l].
  { exists kDecodeInProgress, (with_state d kStartDecodingLength), [], [], cb. rewrite !app_nil_r.
    split_and!; [done|done|by rewrite Hv|]. intros _. split; [done|]. by apply awaits_start. }
  apply Forall_cons in Hm as [Hb Hl]. rewrite DecodeUInt8_at by done. cbn [mbind option_bind].
  pose proof (varint_Start_spec (length_decoder_ (with_huffman d (Z.land b 0x80 =? 0x80)))
                (p ++ [b]) b l Hb Hl) as Hs.
  destruct (length_feed b l) as [[st v] r] eqn:El. destruct Hs as (c & v' & -> & -> & Hval & Hst).
  cbn [mbind option_bind]. rewrite land_80_bit by done. destruct st.
  - destruct Hst as (Hv' & Hbound). unfold sd_OnStringStart. simpl length_decoder_. rewrite Hv'.
    cbn [mbind option_bind]. rewrite <- app_assoc. change (b :: c ++ r) with (([b] ++ c) ++ r).
    apply (body_call_ok _ _ [] _ _ _ b c v []); try done.
    + by apply length_feed_consumed in El.
    + rewrite Hf. simpl. lia.
    + rewrite Hf. simpl. lia.
    + lia.
    + rewrite view_snoc, Hv. done.
  - destruct Hst as (-> & -> & Hb7 & k & Hk). rewrite app_nil_r in *.
    eexists _, _, (b :: c), [], cb. rewrite <- app_assoc. split; [reflexivity|]. rewrite app_nil_r.
    split; [done|]. simpl. rewrite El, Hv. split; [done|]. intros _. split; [done|].
    apply (awaits_length _ _ b c k); try done. unfold length_feed in El. by rewrite Hb7 in El.
  - eexists _, _, (b :: c), r, cb. rewrite <- app_assoc. split; [reflexivity|]. split; [done|].
    simpl. by rewrite El, Hv.
Qed.

Lemma sd_Resume_ok d p m cb c :
  awaits d cb c -> Forall is_octet m -> call_ok c m p (sd_Resume (d, at_ p m, cb)).
Proof.
  intros Hw Hm. unfold sd_Resume. cbn [sd_Resume_loop fst]. destruct Hw as [Hs Hv|b l k Hs Hh Hv Hb Hf Hk|b l v r Hs Hf Hr H0 Hn Hv _];
    rewrite Hs.
  - pose proof (start_call_ok d p m cb id Hv Hm (fun _ => eq_refl)) as H.
    destruct (StartDecodingLength _) as [[[[] st] [[d1 db1] cb1]]|]; exact H.
  - unfold ResumeDecodingLength. pose proof (Resume_spec debug _ k p m Hk Hm) as Hr.
    destruct (varint_feed debug (length_decoder_ d) m) as [[st v] r] eqn:E.
    destruct Hr as (c & -> & -> & Hp). cbn [mbind option_bind].
    assert (length_feed b (l ++ c ++ r) = (st, v, r)) as Ef.
    { unfold length_feed. by rewrite Hb, varint_feed_app, Hf. }
    destruct st.
    + destruct (varint_feed_done _ _ _ _ _ Hk Hm E) as (Hbound & Hval).
      unfold sd_OnStringStart. cbn [with_length with_state length_decoder_]. rewrite Hval.
      cbn [mbind option_bind sd_Resume_loop fst state_ with_remaining].
      apply (body_call_ok _ _ _ _ _ _ b (l ++ c) v []); try done.
      * apply (length_feed_consumed _ _ _ _ r). by rewrite <- app_assoc.
      * simpl. lia.
      * simpl. lia.
      * lia.
      * rewrite view_snoc, Hv. simpl. by rewrite Hh.
    + destruct (Hp eq_refl) as (-> & k' & Hk'). rewrite app_nil_r in *.
      eexists _, _, c, [], cb. split; [reflexivity|]. rewrite app_nil_r. split; [done|].
      simpl. rewrite Ef, Hv. split; [done|]. intros _. split; [done|].
      apply (awaits_length _ _ b (l ++ c) k'); try done. unfold length_feed in Ef. by rewrite Hb in Ef.
    + eexists _, _, c, r, cb. split; [reflexivity|]. split; [done|]. simpl. by rewrite Ef, Hv.
  - replace (at_ p m) with (at_ (p ++ []) m) by (by rewrite app_nil_r).
    apply (body_call_ok d cb (b :: l) [] m p b l v r); try done. by rewrite app_nil_r.
Qed.

Lemma StartSpecialCaseShort_ok d p m cb :
  view cb = (None, [], false) -> Forall is_octet m ->
  call_ok [] m p (StartSpecialCaseShort (d, at_ p m, cb)).
Proof.
  intros Hv Hm. unfold StartSpecialCaseShort. rewrite HasData_at, cursor_bytes_at.
  destruct m as [|b l]; [by apply sd_Resume_ok; [apply awaits_start|]|].
  cbn [andb take]. apply Forall_cons in Hm as Hm'. destruct Hm' as [Hb Hl].
  assert (Z.land (wrapS 8 b) 0x7f = b mod 128) as ->.
  { rewrite land_7f. unfold wrapS. change (2 ^ (8 - 1)) with 128. change (2 ^ 8) with 256.
    rewrite (Z.mod_eq (b + 128) 256) by lia. replace (b + 128 - 256 * ((b + 128) / 256) - 128)
      with (b + (-2 * ((b + 128) / 256)) * 128) by lia. by rewrite Z.mod_add by lia. }
  destruct (Z.eqb_spec (b mod 128) 0x7f) as [?|Hne]; cbn [negb]; [by apply sd_Resume_ok; [apply awaits_start|]|].
  rewrite DecodeUInt8_at by done. cbn [mbind option_bind].
  rewrite land_7f, land_80_bit, Remaining_at by done.
  pose proof (Z.mod_pos_bound b 128 ltac:(lia)) as Hmod.
  assert (length_feed b l = (kDecodeDone, MkHpackVarintDecoder (b mod 128) 0, l)) as Hf
    by (unfold length_feed; by rewrite (proj2 (Z.ltb_lt _ _)) by lia).
  destruct (Z.leb_spec (b mod 128) (Z.of_nat (length l))).
  - set (n := Z.to_nat (b mod 128)). pose proof (AdvanceCursor_at (p ++ [b]) (take n l) (drop n l)) as Ha.
    rewrite take_drop, length_take_le in Ha by lia. rewrite Ha. cbn [mbind option_bind].
    eexists _, _, (b :: take n l), (drop n l), _. rewrite <- app_assoc. split; [reflexivity|].
    simpl. rewrite take_drop, Hf. split; [done|]. cbn [value_]. fold n.
    rewrite (proj2 (Nat.leb_le n _)) by lia. split; [|done].
    by rewrite !view_snoc, Hv, cursor_bytes_at.
  - pose proof (body_call_ok (MkHpackStringDecoder (length_decoder_ d) (b mod 128) kDecodingString (128 <=? b))
      (cb ++ [OnStringStart (128 <=? b) (b mod 128)]) [] [b] l p b [] (MkHpackVarintDecoder (b mod 128) 0) []) as H1.
    unfold sd_Resume. cbn [sd_Resume_loop fst state_]. apply H1; try done.
    + unfold length_feed. by rewrite (proj2 (Z.ltb_lt _ _)) by lia.
    + simpl. lia.
    + simpl. lia.
    + cbn [value_]. change (2 ^ 40) with 1099511627776. lia.
    + by rewrite view_snoc, Hv.
Qed.

(** ** A literal that arrives in several buffers *)

(** The three variants of [Start]. *)
Inductive start_variant := VStartOnly | VStartAndDecodeLength | VStartSpecialCaseShort.
Definition run_start (v : start_variant) : string_io -> option (DecodeStatus * string_io) :=
  match v with
  | VStartOnly => StartOnly
  | VStartAndDecodeLength => StartAndDecodeLength
  | VStartSpecialCaseShort => StartSpecialCaseShort
  end.

(** [Resume] on the following buffers while the decoder is in progress; gives
    the bytes that are not read. *)
Fixpoint resume_chunks (res : DecodeStatus * string_io) (chunks : list (list Z))
    : option (DecodeStatus * HpackStringDecoder * list StringEvent * list Z) :=
  let '(st, (d, db, cb)) := res in
  match st, chunks with
  | kDecodeInProgress, m :: ms =>
      res ← sd_Resume (d, DecodeBuffer_new m, cb); resume_chunks res ms
  | _, _ => Some (st, d, cb, cursor_bytes db (Remaining db) ++ concat chunks)
  end.
Definition decode_chunks (v : start_variant) (d : HpackStringDecoder) (m : list Z) (ms : list (list Z))
    : option (DecodeStatus * HpackStringDecoder * list StringEvent * list Z) :=
  res ← run_start v (d, DecodeBuffer_new m, []); resume_chunks res ms.

Lemma run_start_ok v d p m cb :
  view cb = (None, [], false) -> Forall is_octet m -> call_ok [] m p (run_start v (d, at_ p m, cb)).
Proof.
  intros Hv Hm. destruct v; simpl.
  - by apply sd_Resume_ok; [apply awaits_start|].
  - pose proof (start_call_ok d p m cb (fun x => with_state x kDecodingString) Hv Hm (fun _ => eq_refl)) as H.
    unfold StartAndDecodeLength. destruct (StartDecodingLength _) as [[[[] st] [[d1 db1] cb1]]|]; exact H.
  - by apply StartSpecialCaseShort_ok.
Qed.

(** An outcome that is final does not depend on what follows. *)
Lemma string_spec_final l k st v r :
  string_spec l = (st, v, r) -> st <> kDecodeInProgress -> string_spec (l ++ k) = (st, v, r ++ k).
Proof.
  intros H Hst. destruct l as [|b l]; simpl in *; [by injection H as <- <- <-|].
  rewrite length_feed_app. destruct (length_feed b l) as [[[] d] q].
  - destruct (Nat.leb_spec (Z.to_nat (value_ d)) (length q)); [|by injection H as <- <- <-].
    injection H as <- <- <-. rewrite length_app, (proj2 (Nat.leb_le _ _)) by lia.
    by rewrite take_app_le, drop_app_le by lia.
  - by injection H as <- <- <-.
  - by injection H as <- <- <-.
Qed.

Lemma resume_chunks_ok c m p res ms :
  call_ok c m p (Some res) -> Forall (Forall is_octet) ms ->
  exists st d cb left_, resume_chunks res ms = Some (st, d, cb, left_) /\
    (st, view cb, left_) = string_spec (c ++ m ++ concat ms).
Proof.
  intros Hc Hms. revert c m p res Hc. induction Hms as [|m1 ms Hm1 Hms IH]; intros c m p res;
    intros (st & d & c' & m' & cb & [= ->] & -> & Hout & Hp); cbn [resume_chunks].
  - exists st, d, cb, (m' ++ []). rewrite Remaining_at, cursor_bytes_at, take_ge by lia.
    rewrite !app_nil_r. by destruct st.
  - destruct (decide (st = kDecodeInProgress)) as [->|Hne].
    + destruct (Hp eq_refl) as [-> Hw]. rewrite at_new.
      pose proof (sd_Resume_ok d [] m1 cb _ Hw Hm1) as Hcall.
      destruct (sd_Resume (d, at_ [] m1, cb)) as [res1|];
        [|by destruct Hcall as (? & ? & ? & ? & ? & ? & _)]. cbn [mbind option_bind].
      destruct (IH _ _ _ _ Hcall) as (st2 & d2 & cb2 & left2 & -> & E). eexists _, _, _, _. split; [done|].
      rewrite E. simpl. by rewrite !app_assoc.
    + exists st, d, cb, (m' ++ concat (m1 :: ms)). rewrite Remaining_at, cursor_bytes_at, take_ge by lia.
      split; [by destruct st|]. rewrite (app_assoc c). symmetry. by apply string_spec_final.
Qed.

(** A string literal is decoded the same whichever variant of [Start] is
    called and however the bytes are cut into buffers: status, the start event,
    the bytes handed to the listener in total, the end event and the unread bytes
    are those of the whole input, and every call is within its buffer. *)
Lemma string_decode_chunks (v : start_variant) (d : HpackStringDecoder) (m : list Z) (ms : list (list Z)) :
  Forall is_octet m -> Forall (Forall is_octet) ms ->
  exists st d' cb left_, decode_chunks v d m ms = Some (st, d', cb, left_) /\
    (st, view cb, left_) = string_spec (m ++ concat ms).
Proof.
  intros Hm Hms. unfold decode_chunks. rewrite at_new.
  pose proof (run_start_ok v d [] m [] eq_refl Hm) as Hc.
  destruct (run_start v (d, at_ [] m, [])) as [res|]; [|by destruct Hc as (? & ? & ? & ? & ? & ? & _)].
  cbn [mbind option_bind]. exact (resume_chunks_ok [] m [] res ms Hc Hms).
Qed.

End StringDecoder.

(** ** The encoder's string literals *)

Definition kStringLiteralIdentityEncoded : HpackPrefix := MkHpackPrefix 0 1.
Definition kStringLiteralHuffmanEncoded : HpackPrefix := MkHpackPrefix 1 1.

(** [EmitString]; the Huffman table's two methods are arguments. *)
Definition EmitString (enable_compression_ : bool) (EncodedSize : list Z -> Z)
    (EncodeString : list Z -> HpackOutputStream -> option HpackOutputStream)
    (output_stream_ : HpackOutputStream) (str : list Z) : option HpackOutputStream :=
  let size := Z.of_nat (length str) in
  let encoded_size := if enable_compression_ then EncodedSize str else size in
  if encoded_size <? size then
    s ← AppendPrefix output_stream_ kStringLiteralHuffmanEncoded;
    s ← AppendUint32 s (u32 encoded_size);
    EncodeString str s
  else
    s ← AppendPrefix output_stream_ kStringLiteralIdentityEncoded;
    s ← AppendUint32 s (u32 size);
    Some (AppendBytes s str).

Definition kMaxStringLength : Z := HiValueOfExtensionBytes 4 7.

Lemma EmitString_identity comp EncodedSize EncodeString buf str :
  Z.of_nat (length str) <= kMaxStringLength ->
  (comp = true -> Z.of_nat (length str) <= EncodedSize str) ->
  EmitString comp EncodedSize EncodeString (MkHpackOutputStream buf 0) str
  = Some (MkHpackOutputStream (buf ++ varint_bytes 0 7 (Z.of_nat (length str)) ++ str) 0).
Proof.
  intros Hlen Hcomp. change kMaxStringLength with 268435582 in Hlen. unfold EmitString.
  assert (((if comp then EncodedSize str else Z.of_nat (length str)) <? Z.of_nat (length str)) = false) as ->
    by (apply Z.ltb_ge; destruct comp; [by apply Hcomp|lia]).
  unfold u32. rewrite wrapU_id by lia.
  pose proof (AppendUint32_spec buf 0 1 (Z.of_nat (length str)) ltac:(lia) ltac:(lia) ltac:(lia)) as H.
  unfold kStringLiteralIdentityEncoded. destruct (AppendPrefix _ _) as [s|]; [|done].
  cbn [mbind option_bind] in H |- *. rewrite H. cbn [mbind option_bind]. unfold AppendBytes.
  cbn [buffer_ bit_offset_]. by rewrite <- app_assoc.
Qed.

Lemma string_spec_encoded debug str rest :
  Z.of_nat (length str) <= kMaxStringLength ->
  string_spec debug (varint_bytes 0 7 (Z.of_nat (length str)) ++ str ++ rest)
  = (kDecodeDone, (Some (false, Z.of_nat (length str)), str, true), rest).
Proof.
  intros Hlen. change kMaxStringLength with 268435582 in Hlen. set (n := Z.of_nat (length str)) in *.
  assert (exists v r, (let '(b, l) := (Z.min n 127, drop 1 (varint_bytes 0 7 n ++ str ++ rest)) in
            length_feed debug b l = (kDecodeDone, v, r) /\ value_ v = n /\ r = str ++ rest) /\
          varint_bytes 0 7 n ++ str ++ rest = Z.min n 127 :: drop 1 (varint_bytes 0 7 n ++ str ++ rest))
    as (v & r & (Hf & Hv & ->) & ->).
  { unfold varint_bytes, length_feed. change (2 ^ 7) with 128. destruct (Z.ltb_spec n (128 - 1)).
    - rewrite Z.min_l, Z.mod_small, (proj2 (Z.ltb_lt n 127)) by lia. eexists _, _. split; [split_and!; try reflexivity; by simpl|].
      simpl. by rewrite Z.add_0_l.
    - rewrite Z.min_r by lia. change (127 mod 128 <? 127) with false. cbn [app drop].
      pose proof (feed_ext_bytes debug 4 0 127 (n - 127) (str ++ rest) eq_refl ltac:(lia) ltac:(lia)) as Hf.
      change (7 * 0) with 0 in Hf. change (128 - 1) with 127.
      destruct (varint_feed debug _ _) as [[st d] r].
      change (2 ^ (28 - 0)) with 268435456 in Hf. rewrite (proj2 (Z.ltb_lt (n - 127) _)) in Hf by lia.
      destruct Hf as (-> & Hv & -> & _); [change (2 ^ (7 * (Z.of_nat 4 + 1))) with 34359738368; lia|].
      exists d, (str ++ rest). split; [|done]. split_and!; try done. rewrite Hv. change (2 ^ 0) with 1. lia. }
  unfold string_spec. rewrite Hf, Hv. assert (Z.to_nat n = length str) as -> by lia.
  rewrite length_app, (proj2 (Nat.leb_le _ _)) by lia. rewrite take_mid, drop_app_length.
  by rewrite (proj2 (Z.leb_gt 128 _)) by lia.
Qed.

(** C38: a string that the encoder emits without Huffman coding is decoded to
    the same bytes, in any cutting into buffers and by any variant of [Start],
    for every string of at most 268435582 bytes; the bytes after it are left. *)
Theorem string_roundtrip (debug comp : bool) (EncodedSize : list Z -> Z)
    (EncodeString : list Z -> HpackOutputStream -> option HpackOutputStream)
    (buf str rest : list Z) (v : start_variant) (d : HpackStringDecoder) (m : list Z) (ms : list (list Z)) :
  Z.of_nat (length str) <= kMaxStringLength ->
  (comp = true -> Z.of_nat (length str) <= EncodedSize str) ->
  Forall is_octet m -> Forall (Forall is_octet) ms ->
  exists bytes,
    EmitString comp EncodedSize EncodeString (MkHpackOutputStream buf 0) str
    = Some (MkHpackOutputStream (buf ++ bytes) 0) /\
    (m ++ concat ms = bytes ++ rest ->
     exists d' cb, decode_chunks debug v d m ms = Some (kDecodeDone, d', cb, rest) /\
       view cb = (Some (false, Z.of_nat (length str)), str, true)).
Proof.
  intros Hlen Hcomp Hm Hms. exists (varint_bytes 0 7 (Z.of_nat (length str)) ++ str).
  split; [by apply EmitString_identity|]. intros E.
  pose proof (resume_chunks_ok debug [] m []) as Hr.
  pose proof (run_start_ok debug v d [] m [] eq_refl Hm) as Hc. unfold decode_chunks. rewrite at_new.
  destruct (run_start debug v (d, at_ [] m, [])) as [res|]; [|by destruct Hc as (? & ? & ? & ? & ? & ? & _)].
  cbn [mbind option_bind]. destruct (Hr res ms Hc Hms) as (st & d' & cb & l & -> & Hs).
  simpl in Hs. rewrite E, <- app_assoc, string_spec_encoded in Hs by done. injection Hs as -> Hview ->.
  by exists d', cb.
Qed.

Lemma string_decode_chunks_witness :
  exists st d' cb left_,
    decode_chunks true VStartSpecialCaseShort HpackStringDecoder_new [3; 97] [[98]; [99; 7]]
    = Some (st, d', cb, left_) /\
    (st, view cb, left_) = (kDecodeDone, (Some (false, 3), [97; 98; 99], true), [7]).
Proof.
  refine (string_decode_chunks true VStartSpecialCaseShort HpackStringDecoder_new [3; 97] [[98]; [99; 7]] _ _);
    unfold is_octet; repeat (apply Forall_nil_2 || apply Forall_cons_2); lia.
Defined.

Lemma string_roundtrip_witness :
  exists bytes,
    EmitString false (fun _ => 0) (fun _ s => Some s) HpackOutputStream_new [104; 105]
    = Some (MkHpackOutputStream ([] ++ bytes) 0) /\
    ([2; 104] ++ concat [[105]; [9]] = bytes ++ [9] ->
     exists d' cb, decode_chunks true VStartOnly HpackStringDecoder_new [2; 104] [[105]; [9]]
       = Some (kDecodeDone, d', cb, [9]) /\ view cb = (Some (false, 2), [104; 105], true)).
Proof.
  refine (string_roundtrip true false (fun _ => 0) (fun _ s => Some s) [] [104; 105] [9] VStartOnly
            HpackStringDecoder_new [2; 104] [[105]; [9]] _ _ _ _).
  - vm_compute. discriminate.
  - discriminate.
  - unfold is_octet. repeat (apply Forall_nil_2 || apply Forall_cons_2); lia.
  - unfold is_octet. repeat (apply Forall_nil_2 || apply Forall_cons_2); lia.
Defined.
