(* ===== verification/QuicData.v ===== *)
(** * quic_data_writer.cc and quic_data_reader.cc: integers and strings on the wire

    A writer fills a buffer of fixed capacity, a reader walks over received bytes;
    both reverse integers between host and network order
    (platform/api/quic_endian.h over base/sys_byteorder.h) according to their
    [Endianness].  The byte order of the host is a parameter ([HostOrder]).  An
    operation of the writer gives its [bool] and the new writer; a reading
    operation gives [None] on failure, which also moves the reader to its end.

    A byte is a [Z] in [0, 256). *)

From S2P Require Import Prelude.
#[local] Open Scope nat_scope.

Inductive Endianness := NETWORK_BYTE_ORDER | HOST_BYTE_ORDER.

(** Whether the host is little endian ([ARCH_CPU_LITTLE_ENDIAN]). *)
Class HostOrder := HostIsLittleEndian : bool.

(** ** Bytes of an integer *)

(** The low [n] bytes of [v], the lowest first. *)
Fixpoint le_bytes (n : nat) (v : Z) : list Z :=
  match n with 0 => [] | S n => (v mod 256)%Z :: le_bytes n (v / 256) end.
Fixpoint le_value (bs : list Z) : Z :=
  match bs with [] => 0 | b :: bs => b + 256 * le_value bs end%Z.
Definition be_bytes (n : nat) (v : Z) : list Z := rev (le_bytes n v).

Section QuicData.
Context `{host : HostOrder}.

(** The memory of an [n]-byte integer, and the integer in such memory. *)
Definition mem_bytes (n : nat) (v : Z) : list Z := if HostIsLittleEndian then le_bytes n v else be_bytes n v.
Definition mem_value (bs : list Z) : Z := if HostIsLittleEndian then le_value bs else le_value (rev bs).

Definition ByteSwap (n : nat) (x : Z) : Z := le_value (rev (le_bytes n x)).
Definition HostToNet (n : nat) (x : Z) : Z := if HostIsLittleEndian then ByteSwap n x else x.
Definition NetToHost (n : nat) (x : Z) : Z := if HostIsLittleEndian then ByteSwap n x else x.

(** ** 16-bit floating point *)

Definition kUFloat16ExponentBits : Z := 5.
Definition kUFloat16MaxExponent : Z := Z.shiftl 1 kUFloat16ExponentBits - 2.
Definition kUFloat16MantissaBits : Z := 16 - kUFloat16ExponentBits.
Definition kUFloat16MantissaEffectiveBits : Z := kUFloat16MantissaBits + 1.
Definition kUFloat16MaxValue : Z :=
  Z.shiftl (Z.shiftl 1 kUFloat16MantissaEffectiveBits - 1) kUFloat16MaxExponent.

(** The binary search of [WriteUFloat16] over [offset = 16, 8, 4, 2, 1]. *)
Fixpoint ufloat16_search (offsets : list Z) (exponent value : Z) : Z * Z :=
  match offsets with
  | [] => (exponent, value)
  | offset :: offsets =>
      if (value >=? Z.shiftl 1 (kUFloat16MantissaBits + offset))%Z
      then ufloat16_search offsets (exponent + offset) (Z.shiftr value offset)
      else ufloat16_search offsets exponent value
  end.

Definition ufloat16_encode (value : Z) : Z :=
  if (value <? Z.shiftl 1 kUFloat16MantissaEffectiveBits)%Z then wrapU 16 value
  else if (value >=? kUFloat16MaxValue)%Z then 65535
  else let '(exponent, value) := ufloat16_search [16; 8; 4; 2; 1]%Z 0 value in
       wrapU 16 (value + Z.shiftl exponent kUFloat16MantissaBits).

Definition ufloat16_decode (value : Z) : Z :=
  if (value <? Z.shiftl 1 kUFloat16MantissaEffectiveBits)%Z then value
  else let exponent := (Z.shiftr value kUFloat16MantissaBits - 1)%Z in
       u64 (Z.shiftl (value - Z.shiftl exponent kUFloat16MantissaBits) exponent).

(** ** QuicDataWriter *)

Record QuicDataWriter := MkWriter { dw_buffer_ : list Z; dw_length_ : nat; dw_endianness_ : Endianness }.

Definition Wr : Type := QuicDataWriter -> bool * QuicDataWriter.

Definition dw_capacity (w : QuicDataWriter) : nat := length (dw_buffer_ w).

(** [a && b]. *)
Definition wr_and (a b : Wr) : Wr := fun w => let '(ok, w) := a w in if ok then b w else (false, w).
Definition wr_true : Wr := fun w => (true, w).
Definition wr_false : Wr := fun w => (false, w).
(** A statement whose result depends on the writer. *)
Definition wr_with (f : QuicDataWriter -> Wr) : Wr := fun w => f w w.

Definition BeginWrite (w : QuicDataWriter) (length : nat) : option nat :=
  if dw_capacity w <? dw_length_ w then None
  else if dw_capacity w - dw_length_ w <? length then None
  else Some (dw_length_ w).

(** [memcpy] of [bs] to [dest]. *)
Definition copy_at (buf : list Z) (dest : nat) (bs : list Z) : list Z :=
  take dest buf ++ bs ++ drop (dest + length bs) buf.

Definition WriteBytes (data : list Z) : Wr := fun w =>
  match BeginWrite w (length data) with
  | None => (false, w)
  | Some dest => (true, MkWriter (copy_at (dw_buffer_ w) dest data) (dw_length_ w + length data) (dw_endianness_ w))
  end.

Definition to_wire (e : Endianness) (n : nat) (value : Z) : Z :=
  match e with NETWORK_BYTE_ORDER => HostToNet n value | HOST_BYTE_ORDER => value end.

Definition WriteUInt8 (value : Z) : Wr := WriteBytes (mem_bytes 1 value).
Definition WriteUInt16 (value : Z) : Wr := fun w =>
  WriteBytes (mem_bytes 2 (to_wire (dw_endianness_ w) 2 value)) w.
Definition WriteUInt32 (value : Z) : Wr := fun w =>
  WriteBytes (mem_bytes 4 (to_wire (dw_endianness_ w) 4 value)) w.
Definition WriteUInt64 (value : Z) : Wr := fun w =>
  WriteBytes (mem_bytes 8 (to_wire (dw_endianness_ w) 8 value)) w.

Definition WriteUInt8AtOffset (value : Z) (offset : nat) : Wr := fun w =>
  if dw_length_ w <? offset then (false, w)
  else
    let old_length := dw_length_ w in
    let '(result, w) := WriteUInt8 value (MkWriter (dw_buffer_ w) offset (dw_endianness_ w)) in
    (result, MkWriter (dw_buffer_ w) old_length (dw_endianness_ w)).

Definition WriteBytesToUInt64 (num_bytes : nat) (value : Z) : Wr := fun w =>
  if 8 <? num_bytes then (false, w)
  else match dw_endianness_ w with
       | HOST_BYTE_ORDER => WriteBytes (take num_bytes (mem_bytes 8 value)) w
       | NETWORK_BYTE_ORDER => WriteBytes (drop (8 - num_bytes) (mem_bytes 8 (HostToNet 8 value))) w
       end.

Definition WriteUFloat16 (value : Z) : Wr := fun w =>
  WriteBytes (mem_bytes 2 (to_wire (dw_endianness_ w) 2 (ufloat16_encode value))) w.

Definition WriteStringPiece16 (val : list Z) : Wr :=
  if (65535 <? Z.of_nat (length val))%Z then wr_false
  else wr_and (WriteUInt16 (Z.of_nat (length val))) (WriteBytes val).

Definition WriteRepeatedByte (byte : Z) (count : nat) : Wr := fun w =>
  match BeginWrite w count with
  | None => (false, w)
  | Some dest => (true, MkWriter (copy_at (dw_buffer_ w) dest (replicate count byte)) (dw_length_ w + count) (dw_endianness_ w))
  end.

Definition WritePadding (w : QuicDataWriter) : QuicDataWriter :=
  if dw_capacity w <? dw_length_ w then w
  else MkWriter (copy_at (dw_buffer_ w) (dw_length_ w) (replicate (dw_capacity w - dw_length_ w) 0%Z)) (dw_capacity w)
         (dw_endianness_ w).

Definition WritePaddingBytes (count : nat) : Wr := WriteRepeatedByte 0 count.

Definition WriteConnectionId (connection_id : Z) : Wr := WriteBytes (mem_bytes 8 (HostToNet 8 connection_id)).
Definition WriteTag (tag : Z) : Wr := WriteBytes (mem_bytes 4 tag).

(** ** QuicDataReader *)

Record QuicDataReader := MkReader { dr_data_ : list Z; dr_pos_ : nat; dr_endianness_ : Endianness }.

Definition Rd (A : Type) : Type := QuicDataReader -> option A * QuicDataReader.

Definition rd_ret {A} (x : A) : Rd A := fun r => (Some x, r).
Definition rd_fail {A} : Rd A := fun r => (None, r).
(** Going on only after success; the reader moves in any case. *)
Definition rd_bind {A B} (m : Rd A) (k : A -> Rd B) : Rd B := fun r =>
  let '(x, r) := m r in match x with Some x => k x r | None => (None, r) end.

Definition dr_len_ (r : QuicDataReader) : nat := length (dr_data_ r).
Definition CanRead (r : QuicDataReader) (bytes : nat) : bool := bytes <=? dr_len_ r - dr_pos_ r.
Definition OnFailure (r : QuicDataReader) : QuicDataReader := MkReader (dr_data_ r) (dr_len_ r) (dr_endianness_ r).
Definition IsDoneReading (r : QuicDataReader) : bool := dr_len_ r =? dr_pos_ r.
Definition BytesRemaining (r : QuicDataReader) : nat := dr_len_ r - dr_pos_ r.

Definition ReadBytes (size : nat) : Rd (list Z) := fun r =>
  if CanRead r size
  then (Some (take size (drop (dr_pos_ r) (dr_data_ r))), MkReader (dr_data_ r) (dr_pos_ r + size) (dr_endianness_ r))
  else (None, OnFailure r).

Definition from_wire (e : Endianness) (n : nat) (value : Z) : Z :=
  match e with NETWORK_BYTE_ORDER => NetToHost n value | HOST_BYTE_ORDER => value end.

Definition ReadUInt8 : Rd Z := rd_bind (ReadBytes 1) (fun bs => rd_ret (mem_value bs)).
Definition ReadUInt16 : Rd Z := fun r =>
  rd_bind (ReadBytes 2) (fun bs => rd_ret (from_wire (dr_endianness_ r) 2 (mem_value bs))) r.
Definition ReadUInt32 : Rd Z := fun r =>
  rd_bind (ReadBytes 4) (fun bs => rd_ret (from_wire (dr_endianness_ r) 4 (mem_value bs))) r.
Definition ReadUInt64 : Rd Z := fun r =>
  rd_bind (ReadBytes 8) (fun bs => rd_ret (from_wire (dr_endianness_ r) 8 (mem_value bs))) r.

(** [ReadBytesToUInt64] fills part of [*result]; the other bytes keep what the
    caller left there. *)
Definition ReadBytesToUInt64 (num_bytes : nat) (result : Z) : Rd Z := fun r =>
  if 8 <? num_bytes then (None, r)
  else match dr_endianness_ r with
       | HOST_BYTE_ORDER =>
           rd_bind (ReadBytes num_bytes) (fun bs => rd_ret (mem_value (bs ++ drop num_bytes (mem_bytes 8 result)))) r
       | NETWORK_BYTE_ORDER =>
           rd_bind (ReadBytes num_bytes)
             (fun bs => rd_ret (NetToHost 8 (mem_value (take (8 - num_bytes) (mem_bytes 8 result) ++ bs)))) r
       end.

Definition ReadUFloat16 : Rd Z := rd_bind ReadUInt16 (fun value => rd_ret (ufloat16_decode value)).

Definition ReadStringPiece (size : nat) : Rd (list Z) := fun r =>
  if CanRead r size
  then (Some (take size (drop (dr_pos_ r) (dr_data_ r))), MkReader (dr_data_ r) (dr_pos_ r + size) (dr_endianness_ r))
  else (None, OnFailure r).
Definition ReadStringPiece16 : Rd (list Z) := rd_bind ReadUInt16 (fun result_len => ReadStringPiece (Z.to_nat result_len)).

Definition ReadConnectionId : Rd Z := rd_bind (ReadBytes 8) (fun bs => rd_ret (NetToHost 8 (mem_value bs))).
Definition ReadTag : Rd Z := rd_bind (ReadBytes 4) (fun bs => rd_ret (mem_value bs)).

Definition PeekRemainingPayload (r : QuicDataReader) : list Z :=
  take (BytesRemaining r) (drop (dr_pos_ r) (dr_data_ r)).
Definition ReadRemainingPayload (r : QuicDataReader) : list Z * QuicDataReader :=
  (PeekRemainingPayload r, MkReader (dr_data_ r) (dr_len_ r) (dr_endianness_ r)).
(** Zero when there is nothing left. *)
Definition PeekByte (r : QuicDataReader) : Z :=
  if dr_len_ r <=? dr_pos_ r then 0%Z else nth (dr_pos_ r) (dr_data_ r) 0%Z.

(** ** Bytes and integers *)

Lemma le_bytes_length n v : length (le_bytes n v) = n.
Proof. revert v. induction n as [|n IH]; intros v; simpl; [done|]. by rewrite IH. Qed.

Lemma le_bytes_octets n v : Forall is_octet (le_bytes n v).
Proof.
  revert v. induction n as [|n IH]; intros v; simpl; constructor; [|done]. unfold is_octet.
  apply Z.mod_pos_bound. lia.
Qed.

Lemma le_value_bytes n v : le_value (le_bytes n v) = (v mod 256 ^ Z.of_nat n)%Z.
Proof.
  revert v. induction n as [|n IH]; intros v; [by rewrite Z.mod_1_r|]. cbn [le_bytes le_value]. rewrite IH.
  rewrite Nat2Z.inj_succ, Z.pow_succ_r, Z.rem_mul_r by lia. done.
Qed.

Lemma le_bytes_value bs : Forall is_octet bs -> le_bytes (length bs) (le_value bs) = bs.
Proof.
  unfold is_octet. induction 1 as [|b bs Hb _ IH]; simpl; [done|].
  rewrite (Z.mul_comm 256), Z.mod_add, Z.div_add, (Z.mod_small b), (Z.div_small b), Z.add_0_l by lia. by rewrite IH.
Qed.

Lemma le_bytes_take k n v : k <= n -> take k (le_bytes n v) = le_bytes k v.
Proof.
  revert n v. induction k as [|k IH]; intros n v Hk; [done|]. destruct n as [|n]; [lia|]. simpl.
  by rewrite IH by lia.
Qed.

Lemma le_value_zeros bs n : le_value (bs ++ replicate n 0%Z) = le_value bs.
Proof.
  induction bs as [|b bs IH]; simpl; [|by rewrite IH]. induction n as [|n IH]; simpl; [done|]. by rewrite IH.
Qed.

Lemma le_bytes_zero n : le_bytes n 0 = replicate n 0%Z.
Proof.
  induction n as [|n IH]; [done|]. cbn [le_bytes replicate]. rewrite Z.mod_0_l, Z.div_0_l by lia. by rewrite IH.
Qed.

Lemma rev_octets bs : Forall is_octet bs -> Forall is_octet (rev bs).
Proof. by apply Forall_rev. Qed.

(** The bytes of an [n]-byte integer as they are on the wire. *)
Definition wire_bytes (e : Endianness) (n : nat) (v : Z) : list Z :=
  match e with NETWORK_BYTE_ORDER => be_bytes n v | HOST_BYTE_ORDER => mem_bytes n v end.

Lemma mem_bytes_net n v : mem_bytes n (HostToNet n v) = be_bytes n v.
Proof.
  unfold mem_bytes, HostToNet, ByteSwap, be_bytes. destruct HostIsLittleEndian; [|done].
  rewrite <- (le_bytes_length n v) at 1. rewrite <- length_rev. apply le_bytes_value, rev_octets, le_bytes_octets.
Qed.

Lemma mem_bytes_wire e n v : mem_bytes n (to_wire e n v) = wire_bytes e n v.
Proof. destruct e; [apply mem_bytes_net|done]. Qed.

Lemma wire_bytes_length e n v : length (wire_bytes e n v) = n.
Proof.
  unfold wire_bytes, mem_bytes, be_bytes. destruct e; [|destruct HostIsLittleEndian];
    rewrite ?length_rev; apply le_bytes_length.
Qed.

Lemma mem_bytes_length n v : length (mem_bytes n v) = n.
Proof. exact (wire_bytes_length HOST_BYTE_ORDER n v). Qed.

Definition fits (n : nat) (v : Z) : Prop := (0 <= v < 256 ^ Z.of_nat n)%Z.

Lemma mem_value_bytes n v : fits n v -> mem_value (mem_bytes n v) = v.
Proof.
  intros Hv. unfold mem_value, mem_bytes, be_bytes. destruct HostIsLittleEndian; rewrite ?rev_involutive;
    rewrite le_value_bytes; by apply Z.mod_small.
Qed.

Lemma net_value_bytes n v : fits n v -> NetToHost n (mem_value (be_bytes n v)) = v.
Proof.
  intros Hv. unfold mem_value, NetToHost, ByteSwap, be_bytes. destruct HostIsLittleEndian.
  - rewrite <- (le_bytes_length n v) at 1. rewrite <- length_rev, le_bytes_value, rev_involutive, le_value_bytes.
    + by apply Z.mod_small.
    + apply rev_octets, le_bytes_octets.
  - rewrite rev_involutive, le_value_bytes. by apply Z.mod_small.
Qed.

Lemma from_wire_bytes e n v : fits n v -> from_wire e n (mem_value (wire_bytes e n v)) = v.
Proof. intros Hv. destruct e; [by apply net_value_bytes|by apply mem_value_bytes]. Qed.

(** ** Writing and reading a sequence of bytes *)

Definition dw_ok (w : QuicDataWriter) : Prop := dw_length_ w <= dw_capacity w.
(** What has been written. *)
Definition dw_data (w : QuicDataWriter) : list Z := take (dw_length_ w) (dw_buffer_ w).
Definition dw_put (w : QuicDataWriter) (bs : list Z) : QuicDataWriter :=
  MkWriter (copy_at (dw_buffer_ w) (dw_length_ w) bs) (dw_length_ w + length bs) (dw_endianness_ w).

(** [wr] writes exactly [bs] if they fit, and fails otherwise. *)
Definition appends (e : Endianness) (wr : Wr) (bs : list Z) : Prop :=
  forall w, dw_ok w -> dw_endianness_ w = e ->
  if dw_length_ w + length bs <=? dw_capacity w then wr w = (true, dw_put w bs) else fst (wr w) = false.

(** Before [post], [rd] reads exactly [bs] and gives [x]. *)
Definition parses {A} (e : Endianness) (post : list Z) (rd : Rd A) (bs : list Z) (x : A) : Prop :=
  forall pre, rd (MkReader (pre ++ bs ++ post) (length pre) e)
              = (Some x, MkReader (pre ++ bs ++ post) (length pre + length bs) e).

Lemma copy_at_length buf dest bs : dest + length bs <= length buf -> length (copy_at buf dest bs) = length buf.
Proof. intros Hl. unfold copy_at. rewrite !length_app, length_take, length_drop. lia. Qed.

Lemma dw_put_ok w bs : dw_length_ w + length bs <= dw_capacity w -> dw_ok (dw_put w bs) /\ dw_capacity (dw_put w bs) = dw_capacity w.
Proof.
  intros Hl. unfold dw_ok, dw_capacity, dw_put in *. simpl. rewrite copy_at_length by done. done.
Qed.

Lemma dw_put_data w bs : dw_length_ w + length bs <= dw_capacity w -> dw_data (dw_put w bs) = dw_data w ++ bs.
Proof.
  unfold dw_capacity. intros Hl. unfold dw_data, dw_put, copy_at. simpl. rewrite app_assoc.
  assert (length (take (dw_length_ w) (dw_buffer_ w) ++ bs) = dw_length_ w + length bs) as Hn
    by (rewrite length_app, length_take; lia).
  rewrite <- Hn. apply take_mid.
Qed.

Lemma dw_put_put w a b :
  dw_length_ w + length (a ++ b) <= dw_capacity w -> dw_put (dw_put w a) b = dw_put w (a ++ b).
Proof.
  unfold dw_capacity. intros Hl. unfold dw_put. simpl. rewrite length_app in *. f_equal; [|lia].
  unfold copy_at. set (l := dw_length_ w) in *. set (buf := dw_buffer_ w) in *.
  assert (length (take l buf ++ a) = l + length a) as Hn by (rewrite length_app, length_take; lia).
  assert (take (l + length a) (take l buf ++ a ++ drop (l + length a) buf) = take l buf ++ a) as ->.
  { rewrite app_assoc, <- Hn. apply take_mid. }
  assert (drop (l + length a + length b) (take l buf ++ a ++ drop (l + length a) buf) = drop (l + (length a + length b)) buf) as ->.
  { rewrite app_assoc, drop_app_ge by lia. rewrite Hn, drop_drop. f_equal. lia. }
  rewrite length_app. by rewrite <- !app_assoc.
Qed.

Lemma appends_bytes e bs : appends e (WriteBytes bs) bs.
Proof.
  intros w Hok <-. unfold WriteBytes, BeginWrite. unfold dw_ok in Hok.
  destruct (Nat.leb_spec (dw_length_ w + length bs) (dw_capacity w)), (Nat.ltb_spec (dw_capacity w) (dw_length_ w)),
    (Nat.ltb_spec (dw_capacity w - dw_length_ w) (length bs)); try lia; done.
Qed.

Lemma appends_true e : appends e wr_true [].
Proof.
  intros w Hok <-. unfold dw_ok in Hok. simpl. destruct (Nat.leb_spec (dw_length_ w + 0) (dw_capacity w)); [|lia].
  unfold wr_true, dw_put, copy_at. simpl. rewrite Nat.add_0_r, firstn_skipn. by destruct w.
Qed.

Lemma appends_and e a b x y : appends e a x -> appends e b y -> appends e (wr_and a b) (x ++ y).
Proof.
  intros Ha Hb w Hok He. specialize (Ha w Hok He). unfold wr_and. rewrite length_app.
  destruct (Nat.leb_spec (dw_length_ w + length x) (dw_capacity w)) as [Hx|Hx].
  - rewrite Ha. destruct (dw_put_ok w x Hx) as [Hok' Hcap]. specialize (Hb (dw_put w x) Hok' He). rewrite Hcap in Hb.
    simpl in Hb. rewrite <- Nat.add_assoc in Hb. destruct (Nat.leb_spec (dw_length_ w + (length x + length y)) (dw_capacity w)); [|done].
    rewrite Hb, dw_put_put; [done|]. by rewrite length_app.
  - destruct (a w) as [ok w']. simpl in Ha. subst ok. destruct (Nat.leb_spec (dw_length_ w + (length x + length y)) (dw_capacity w)); [lia|done].
Qed.

Lemma appends_ext e wr wr' bs : (forall w, dw_endianness_ w = e -> wr w = wr' w) -> appends e wr' bs -> appends e wr bs.
Proof. intros Hx H w Hok He. rewrite (Hx w He). by apply H. Qed.

Lemma parses_ret {A} e post (x : A) : parses e post (rd_ret x) [] x.
Proof. intros pre. unfold rd_ret. simpl. by rewrite Nat.add_0_r. Qed.

Lemma parses_bind {A B} e post (m : Rd A) (k : A -> Rd B) bs bs' x y :
  parses e (bs' ++ post) m bs x -> parses e post (k x) bs' y -> parses e post (rd_bind m k) (bs ++ bs') y.
Proof.
  intros Hm Hk pre. unfold rd_bind. specialize (Hm pre). rewrite <- app_assoc. rewrite Hm.
  specialize (Hk (pre ++ bs)). rewrite length_app in Hk. rewrite <- app_assoc in Hk.
  rewrite Hk. f_equal. f_equal. rewrite length_app. lia.
Qed.

Lemma parses_bytes e post bs : parses e post (ReadBytes (length bs)) bs bs.
Proof.
  intros pre. unfold ReadBytes, CanRead, dr_len_. simpl. rewrite !length_app.
  destruct (Nat.leb_spec (length bs) (length pre + (length bs + length post) - length pre)); [|lia].
  rewrite drop_app_length. by rewrite take_mid.
Qed.

Lemma parses_map {A B} e post (m : Rd A) (f : A -> B) bs x :
  parses e post m bs x -> parses e post (rd_bind m (fun x => rd_ret (f x))) bs (f x).
Proof. intros Hm. rewrite <- (app_nil_r bs). apply (parses_bind _ _ _ _ _ _ x); [done|apply parses_ret]. Qed.

Lemma parses_ext {A} e post (m m' : Rd A) bs x :
  (forall r, dr_endianness_ r = e -> m r = m' r) -> parses e post m' bs x -> parses e post m bs x.
Proof. intros Hx H pre. rewrite Hx by done. apply H. Qed.

(** ** Integers and strings *)

Lemma appends_u8 e v : appends e (WriteUInt8 v) (mem_bytes 1 v).
Proof. apply appends_bytes. Qed.
Lemma appends_u16 e v : appends e (WriteUInt16 v) (wire_bytes e 2 v).
Proof. eapply appends_ext; [|apply appends_bytes]. intros w <-. unfold WriteUInt16. by rewrite mem_bytes_wire. Qed.
Lemma appends_u32 e v : appends e (WriteUInt32 v) (wire_bytes e 4 v).
Proof. eapply appends_ext; [|apply appends_bytes]. intros w <-. unfold WriteUInt32. by rewrite mem_bytes_wire. Qed.
Lemma appends_u64 e v : appends e (WriteUInt64 v) (wire_bytes e 8 v).
Proof. eapply appends_ext; [|apply appends_bytes]. intros w <-. unfold WriteUInt64. by rewrite mem_bytes_wire. Qed.

Lemma parses_raw {A} e post bs n (f : list Z -> A) :
  length bs = n -> parses e post (rd_bind (ReadBytes n) (fun bs => rd_ret (f bs))) bs (f bs).
Proof. intros <-. apply parses_map, parses_bytes. Qed.

Lemma parses_wire {A} e post n v (f : list Z -> A) :
  parses e post (rd_bind (ReadBytes n) (fun bs => rd_ret (f bs))) (wire_bytes e n v) (f (wire_bytes e n v)).
Proof.
  apply parses_raw, wire_bytes_length.
Qed.

Lemma parses_u8 e post v : fits 1 v -> parses e post ReadUInt8 (mem_bytes 1 v) v.
Proof.
  intros Hv. rewrite <- (mem_value_bytes 1 v Hv) at 2.
  apply (parses_raw e post (mem_bytes 1 v) 1 mem_value), (wire_bytes_length HOST_BYTE_ORDER).
Qed.

Lemma parses_u16 e post v : fits 2 v -> parses e post ReadUInt16 (wire_bytes e 2 v) v.
Proof.
  intros Hv. rewrite <- (from_wire_bytes e 2 v Hv) at 2.
  eapply parses_ext; [|apply (parses_wire e post 2 v (fun bs => from_wire e 2 (mem_value bs)))]. by intros r <-.
Qed.
Lemma parses_u32 e post v : fits 4 v -> parses e post ReadUInt32 (wire_bytes e 4 v) v.
Proof.
  intros Hv. rewrite <- (from_wire_bytes e 4 v Hv) at 2.
  eapply parses_ext; [|apply (parses_wire e post 4 v (fun bs => from_wire e 4 (mem_value bs)))]. by intros r <-.
Qed.
Lemma parses_u64 e post v : fits 8 v -> parses e post ReadUInt64 (wire_bytes e 8 v) v.
Proof.
  intros Hv. rewrite <- (from_wire_bytes e 8 v Hv) at 2.
  eapply parses_ext; [|apply (parses_wire e post 8 v (fun bs => from_wire e 8 (mem_value bs)))]. by intros r <-.
Qed.

Lemma appends_string16 e val :
  (Z.of_nat (length val) <= 65535)%Z ->
  appends e (WriteStringPiece16 val) (wire_bytes e 2 (Z.of_nat (length val)) ++ val).
Proof.
  intros Hl. unfold WriteStringPiece16. rewrite (proj2 (Z.ltb_ge _ _)) by lia.
  apply appends_and; [apply appends_u16|apply appends_bytes].
Qed.

Lemma parses_string e post val : parses e post (ReadStringPiece (length val)) val val.
Proof. apply parses_bytes. Qed.

Lemma parses_string16 e post val :
  (Z.of_nat (length val) <= 65535)%Z ->
  parses e post ReadStringPiece16 (wire_bytes e 2 (Z.of_nat (length val)) ++ val) val.
Proof.
  intros Hl. apply (parses_bind _ _ _ _ _ _ (Z.of_nat (length val))).
  - apply parses_u16. unfold fits. lia.
  - rewrite Nat2Z.id. apply parses_string.
Qed.

(** Partial integers: in network order on any host, in host order on a little
    endian one. *)
Definition partial_ok (e : Endianness) : Prop := e = HOST_BYTE_ORDER -> HostIsLittleEndian = true.

Lemma be_bytes_drop n v : n <= 8 -> drop (8 - n) (be_bytes 8 v) = be_bytes n v.
Proof.
  intros Hn. unfold be_bytes. rewrite <- (le_bytes_take n 8 v Hn).
  pose proof (skipn_rev (8 - n) (le_bytes 8 v)) as H. rewrite le_bytes_length in H.
  replace (8 - (8 - n)) with n in H by lia. exact H.
Qed.

Lemma appends_partial e n v :
  partial_ok e -> n <= 8 -> appends e (WriteBytesToUInt64 n v) (wire_bytes e n v).
Proof.
  intros Hp Hn. eapply appends_ext; [|apply appends_bytes]. intros w <-. unfold WriteBytesToUInt64.
  destruct (Nat.ltb_spec 8 n); [lia|]. destruct (dw_endianness_ w); simpl.
  - by rewrite mem_bytes_net, be_bytes_drop.
  - unfold mem_bytes. rewrite (Hp eq_refl). by rewrite le_bytes_take.
Qed.

Lemma be_bytes_zeros n v : n <= 8 -> fits n v -> replicate (8 - n) 0%Z ++ be_bytes n v = be_bytes 8 v.
Proof.
  intros Hn Hv. rewrite <- (firstn_skipn (8 - n) (be_bytes 8 v)), (be_bytes_drop n v Hn). f_equal.
  unfold be_bytes. rewrite firstn_rev, le_bytes_length. replace (8 - (8 - n)) with n by lia.
  assert (skipn n (le_bytes 8 v) = replicate (8 - n) 0%Z) as ->.
  2: { generalize (8 - n) as k. intros k. induction k as [|k IH]; [done|]. simpl. rewrite <- IH.
       by rewrite replicate_cons_app. }
  unfold fits in Hv. clear -Hv Hn. replace 8 with (n + (8 - n)) at 1 by lia. generalize (8 - n) as k. intros k.
  clear Hn. revert v Hv. induction n as [|n IH]; intros v Hv.
  - simpl in *. assert (v = 0%Z) as -> by lia. apply le_bytes_zero.
  - simpl. apply IH. rewrite Nat2Z.inj_succ, Z.pow_succ_r in Hv by lia.
    pose proof (Z.div_lt_upper_bound v 256 (256 ^ Z.of_nat n)). pose proof (Z.div_pos v 256). lia.
Qed.

Lemma parses_partial e post n v :
  partial_ok e -> n <= 8 -> fits n v -> parses e post (ReadBytesToUInt64 n 0) (wire_bytes e n v) v.
Proof.
  intros Hp Hn Hv. set (f := fun bs => match e with
    | HOST_BYTE_ORDER => mem_value (bs ++ drop n (mem_bytes 8 0))
    | NETWORK_BYTE_ORDER => NetToHost 8 (mem_value (take (8 - n) (mem_bytes 8 0) ++ bs)) end).
  assert (f (wire_bytes e n v) = v) as Hf.
  { unfold f. assert (mem_bytes 8 0 = replicate 8 0%Z) as -> by (unfold mem_bytes, be_bytes; by destruct HostIsLittleEndian).
    destruct e; simpl wire_bytes.
    - assert (take (8 - n) (replicate 8 0%Z) = replicate (8 - n) 0%Z) as ->.
      { rewrite take_replicate. f_equal. lia. }
      rewrite be_bytes_zeros by done. apply net_value_bytes. unfold fits in *.
      pose proof (Z.pow_le_mono_r 256 (Z.of_nat n) (Z.of_nat 8)). lia.
    - unfold mem_value, mem_bytes. rewrite (Hp eq_refl).
      rewrite drop_replicate, le_value_zeros, le_value_bytes. by apply Z.mod_small. }
  rewrite <- Hf at 2. eapply parses_ext; [|apply (parses_wire e post n v f)].
  intros r <-. unfold ReadBytesToUInt64, f. destruct (Nat.ltb_spec 8 n); [lia|]. by destruct (dr_endianness_ r).
Qed.

(** ** 16-bit floats *)

#[local] Open Scope Z_scope.

Lemma kUFloat16MaxValue_val : kUFloat16MaxValue = 4095 * 2 ^ 30.
Proof. reflexivity. Qed.

(** One round of the search halves the range of the highest bit. *)
Lemma ufloat16_search_step o rest e v m :
  0 <= o -> 0 <= e -> m = Z.shiftr v e -> 2048 <= m < 2048 * 2 ^ (2 * o) ->
  exists e' m', ufloat16_search (o :: rest) e m = ufloat16_search rest e' m' /\
    e <= e' <= e + o /\ m' = Z.shiftr v e' /\ 2048 <= m' < 2048 * 2 ^ o.
Proof.
  intros Ho He Hm Hr. cbn [ufloat16_search]. rewrite Z.shiftl_1_l.
  replace (kUFloat16MantissaBits + o) with (11 + o) by done. rewrite Z.pow_add_r by lia. change (2 ^ 11) with 2048.
  pose proof (Z.pow_pos_nonneg 2 o). destruct (Z.geb_spec m (2048 * 2 ^ o)) as [Hg|Hg].
  - exists (e + o), (Z.shiftr m o). split; [done|]. split; [lia|]. split; [subst m; apply Z.shiftr_shiftr; lia|].
    rewrite Z.shiftr_div_pow2 by lia. replace (2 * o) with (o + o) in Hr by lia. rewrite Z.pow_add_r in Hr by lia. split.
    + apply Z.div_le_lower_bound; lia.
    + apply Z.div_lt_upper_bound; [lia|]. nia.
  - exists e, m. split_and!; try done; lia.
Qed.

Lemma ufloat16_search_spec v :
  4096 <= v < kUFloat16MaxValue ->
  exists e m, ufloat16_search [16; 8; 4; 2; 1] 0 v = (e, m) /\ 1 <= e <= 30 /\ 2048 <= m < 4096 /\
    m * 2 ^ e <= v < (m + 1) * 2 ^ e.
Proof.
  rewrite kUFloat16MaxValue_val. intros Hv.
  destruct (ufloat16_search_step 16 [8; 4; 2; 1] 0 v v) as (e1 & m1 & -> & H1 & E1 & R1); try lia.
  { by rewrite Z.shiftr_0_r. }
  destruct (ufloat16_search_step 8 [4; 2; 1] e1 v m1) as (e2 & m2 & -> & H2 & E2 & R2); try done; try lia.
  destruct (ufloat16_search_step 4 [2; 1] e2 v m2) as (e3 & m3 & -> & H3 & E3 & R3); try done; try lia.
  destruct (ufloat16_search_step 2 [1] e3 v m3) as (e4 & m4 & -> & H4 & E4 & R4); try done; try lia.
  destruct (ufloat16_search_step 1 [] e4 v m4) as (e & m & -> & H5 & E5 & R5); try done; try lia.
  exists e, m. split; [done|]. rewrite Z.shiftr_div_pow2 in E5 by lia.
  pose proof (Z.pow_pos_nonneg 2 e). pose proof (Z.mul_div_le v (2 ^ e)). pose proof (Z.mul_succ_div_gt v (2 ^ e)).
  assert (m * 2 ^ e <= v < (m + 1) * 2 ^ e) as Hb by (subst m; lia). split; [|split; [simpl in R5; lia|done]].
  split; [destruct (Z.eq_dec e 0) as [->|]; lia|].
  destruct (Z.le_gt_cases e 30); [done|]. exfalso. pose proof (Z.pow_le_mono_r 2 31 e). lia.
Qed.

Lemma ufloat16_decode_parts e m :
  1 <= e <= 30 -> 2048 <= m < 4096 -> ufloat16_decode (m + 2048 * e) = m * 2 ^ e.
Proof.
  intros He Hm. unfold ufloat16_decode. change (Z.shiftl 1 kUFloat16MantissaEffectiveBits) with 4096.
  change kUFloat16MantissaBits with 11. destruct (Z.ltb_spec (m + 2048 * e) 4096); [lia|].
  assert (Z.shiftr (m + 2048 * e) 11 - 1 = e) as ->.
  { rewrite Z.shiftr_div_pow2 by lia. change (2 ^ 11) with 2048. rewrite (Z.mul_comm 2048), Z.div_add by lia.
    assert (m / 2048 = 1) by (symmetry; apply (Z.div_unique m 2048 1 (m - 2048)); lia). lia. }
  rewrite !Z.shiftl_mul_pow2 by lia. change (2 ^ 11) with 2048. replace (m + 2048 * e - e * 2048) with m by lia.
  apply u64_id. unfold is_u64. pose proof (Z.pow_le_mono_r 2 e 30). pose proof (Z.pow_pos_nonneg 2 e).
  split; [nia|]. assert (m * 2 ^ e <= 4096 * 2 ^ 30) by nia. lia.
Qed.

Lemma ufloat16_encode_large v :
  4096 <= v < kUFloat16MaxValue ->
  exists e m, ufloat16_encode v = m + 2048 * e /\ 1 <= e <= 30 /\ 2048 <= m < 4096 /\ m * 2 ^ e <= v < (m + 1) * 2 ^ e.
Proof.
  intros Hv. destruct (ufloat16_search_spec v Hv) as (e & m & Hs & He & Hm & Hb). exists e, m. split; [|done].
  unfold ufloat16_encode. change (Z.shiftl 1 kUFloat16MantissaEffectiveBits) with 4096.
  destruct (Z.ltb_spec v 4096); [lia|]. destruct (Z.geb_spec v kUFloat16MaxValue); [lia|]. rewrite Hs.
  rewrite Z.shiftl_mul_pow2 by (unfold kUFloat16MantissaBits, kUFloat16ExponentBits; lia). change (2 ^ kUFloat16MantissaBits) with 2048.
  rewrite (Z.mul_comm e). apply wrapU_id. lia.
Qed.

Lemma ufloat16_encode_small v : 0 <= v < 4096 -> ufloat16_encode v = v /\ ufloat16_decode v = v.
Proof.
  intros Hv. unfold ufloat16_encode, ufloat16_decode. change (Z.shiftl 1 kUFloat16MantissaEffectiveBits) with 4096.
  destruct (Z.ltb_spec v 4096); [|lia]. split; [|done]. apply wrapU_id. lia.
Qed.

Lemma ufloat16_encode_huge v : kUFloat16MaxValue <= v -> ufloat16_encode v = 65535.
Proof.
  rewrite kUFloat16MaxValue_val. intros Hv. unfold ufloat16_encode. rewrite kUFloat16MaxValue_val.
  change (Z.shiftl 1 kUFloat16MantissaEffectiveBits) with 4096. destruct (Z.ltb_spec v 4096); [lia|].
  destruct (Z.geb_spec v (4095 * 2 ^ 30)); [done|lia].
Qed.

Lemma ufloat16_encode_range v : 0 <= v -> fits 2 (ufloat16_encode v).
Proof.
  intros Hv. unfold fits. destruct (Z.lt_ge_cases v 4096).
  - rewrite (proj1 (ufloat16_encode_small v ltac:(lia))). lia.
  - destruct (Z.lt_ge_cases v kUFloat16MaxValue).
    + destruct (ufloat16_encode_large v) as (e & m & -> & ? & ? & _); lia.
    + rewrite ufloat16_encode_huge by done. lia.
Qed.

(** Writing and reading a 16-bit float: the value read is at most the value
    written, by less than a 2048th; small values are exact and large ones give
    the maximum; every 16-bit code is the code of the value it stands for. *)
Lemma ufloat16_rounding v :
  0 <= v -> let d := ufloat16_decode (ufloat16_encode v) in
  0 <= d <= v /\ (v < 4096 -> d = v) /\ (v <= kUFloat16MaxValue -> (v - d) * 2048 <= v) /\
  (kUFloat16MaxValue <= v -> d = kUFloat16MaxValue).
Proof.
  intros Hv d. subst d. destruct (Z.lt_ge_cases v 4096) as [H|H].
  - destruct (ufloat16_encode_small v) as [-> ->]; [lia|]. rewrite kUFloat16MaxValue_val. lia.
  - destruct (Z.lt_ge_cases v kUFloat16MaxValue) as [Hm|Hm].
    + destruct (ufloat16_encode_large v) as (e & m & -> & He & Hr & Hb); [lia|]. rewrite ufloat16_decode_parts by done.
      pose proof (Z.pow_pos_nonneg 2 e). split_and!; try lia; nia.
    + rewrite ufloat16_encode_huge by done. change (ufloat16_decode 65535) with kUFloat16MaxValue.
      rewrite kUFloat16MaxValue_val in *. lia.
Qed.

Lemma ufloat16_codes w : 0 <= w < 65536 -> ufloat16_encode (ufloat16_decode w) = w.
Proof.
  intros Hw. destruct (Z.lt_ge_cases w 4096) as [H|H].
  - destruct (ufloat16_encode_small w) as [He Hd]; [lia|]. by rewrite Hd.
  - set (e := w / 2048 - 1). assert (1 <= e <= 30 /\ 2048 <= w - 2048 * e < 4096) as [He Hr].
    { unfold e. pose proof (Z.mul_div_le w 2048). pose proof (Z.mul_succ_div_gt w 2048). lia. }
    replace w with (w - 2048 * e + 2048 * e) at 1 by lia. rewrite ufloat16_decode_parts by done.
    set (m := w - 2048 * e) in *. pose proof (Z.pow_pos_nonneg 2 e). pose proof (Z.pow_le_mono_r 2 1 e).
    destruct (Z.eq_dec w 65535) as [->|Hne].
    { replace m with 4095 by lia. replace e with 30 by lia. by rewrite ufloat16_encode_huge by (rewrite kUFloat16MaxValue_val; lia). }
    pose proof (Z.pow_le_mono_r 2 e 30).
    destruct (ufloat16_encode_large (m * 2 ^ e)) as (e' & m' & -> & He' & Hr' & Hb').
    { rewrite kUFloat16MaxValue_val. split; [nia|]. destruct (Z.eq_dec e 30) as [->|]; [lia|].
      pose proof (Z.pow_le_mono_r 2 e 29). change (2 ^ 29) with 536870912 in *. nia. }
    assert (e' = e) as ->; [|nia]. destruct (Z.lt_trichotomy e' e) as [Hlt|[->|Hlt]]; [exfalso|done|exfalso].
    + pose proof (Z.pow_le_mono_r 2 (e' + 1) e). rewrite Z.pow_add_r in * by lia. nia.
    + pose proof (Z.pow_le_mono_r 2 (e + 1) e'). rewrite Z.pow_add_r in * by lia. nia.
Qed.

Lemma appends_ufloat16 e v : appends e (WriteUFloat16 v) (wire_bytes e 2 (ufloat16_encode v)).
Proof. eapply appends_ext; [|apply appends_bytes]. intros w <-. unfold WriteUFloat16. by rewrite mem_bytes_wire. Qed.

Lemma parses_ufloat16 e post v :
  0 <= v -> parses e post ReadUFloat16 (wire_bytes e 2 (ufloat16_encode v)) (ufloat16_decode (ufloat16_encode v)).
Proof. intros Hv. apply parses_map, parses_u16, ufloat16_encode_range, Hv. Qed.

(** ** Any sequence of fields *)

#[local] Open Scope nat_scope.

Inductive field :=
  | FUInt8 (v : Z) | FUInt16 (v : Z) | FUInt32 (v : Z) | FUInt64 (v : Z)
  | FPartial (num_bytes : nat) (v : Z) | FUFloat16 (v : Z)
  | FString16 (s : list Z) | FBytes (s : list Z) | FConnectionId (v : Z) | FTag (v : Z).

Definition field_ok (f : field) : Prop :=
  match f with
  | FUInt8 v => fits 1 v
  | FUInt16 v => fits 2 v
  | FUInt32 v | FTag v => fits 4 v
  | FUInt64 v | FConnectionId v => fits 8 v
  | FPartial n v => n <= 8 /\ fits n v
  | FUFloat16 v => (0 <= v)%Z
  | FString16 s => (Z.of_nat (length s) <= 65535)%Z
  | FBytes _ => True
  end.

Definition write_field (f : field) : Wr :=
  match f with
  | FUInt8 v => WriteUInt8 v | FUInt16 v => WriteUInt16 v | FUInt32 v => WriteUInt32 v | FUInt64 v => WriteUInt64 v
  | FPartial n v => WriteBytesToUInt64 n v | FUFloat16 v => WriteUFloat16 v | FString16 s => WriteStringPiece16 s
  | FBytes s => WriteBytes s | FConnectionId v => WriteConnectionId v | FTag v => WriteTag v
  end.

(** Reads a field of the same kind (and, for partial integers and bytes, length). *)
Definition read_field (f : field) : Rd field :=
  match f with
  | FUInt8 _ => rd_bind ReadUInt8 (fun v => rd_ret (FUInt8 v))
  | FUInt16 _ => rd_bind ReadUInt16 (fun v => rd_ret (FUInt16 v))
  | FUInt32 _ => rd_bind ReadUInt32 (fun v => rd_ret (FUInt32 v))
  | FUInt64 _ => rd_bind ReadUInt64 (fun v => rd_ret (FUInt64 v))
  | FPartial n _ => rd_bind (ReadBytesToUInt64 n 0) (fun v => rd_ret (FPartial n v))
  | FUFloat16 _ => rd_bind ReadUFloat16 (fun v => rd_ret (FUFloat16 v))
  | FString16 _ => rd_bind ReadStringPiece16 (fun s => rd_ret (FString16 s))
  | FBytes s => rd_bind (ReadStringPiece (length s)) (fun s => rd_ret (FBytes s))
  | FConnectionId _ => rd_bind ReadConnectionId (fun v => rd_ret (FConnectionId v))
  | FTag _ => rd_bind ReadTag (fun v => rd_ret (FTag v))
  end.

Definition field_bytes (e : Endianness) (f : field) : list Z :=
  match f with
  | FUInt8 v => mem_bytes 1 v | FUInt16 v => wire_bytes e 2 v | FUInt32 v => wire_bytes e 4 v | FUInt64 v => wire_bytes e 8 v
  | FPartial n v => wire_bytes e n v | FUFloat16 v => wire_bytes e 2 (ufloat16_encode v)
  | FString16 s => wire_bytes e 2 (Z.of_nat (length s)) ++ s | FBytes s => s
  | FConnectionId v => be_bytes 8 v | FTag v => mem_bytes 4 v
  end.

Definition field_read (f : field) : field :=
  match f with FUFloat16 v => FUFloat16 (ufloat16_decode (ufloat16_encode v)) | _ => f end.

Fixpoint write_fields (fs : list field) : Wr :=
  match fs with [] => wr_true | f :: fs => wr_and (write_field f) (write_fields fs) end.
Fixpoint read_fields (fs : list field) : Rd (list field) :=
  match fs with
  | [] => rd_ret []
  | f :: fs => rd_bind (read_field f) (fun x => rd_bind (read_fields fs) (fun xs => rd_ret (x :: xs)))
  end.

Lemma appends_field e f : partial_ok e -> field_ok f -> appends e (write_field f) (field_bytes e f).
Proof.
  intros Hp Hf. destruct f; simpl in *.
  - apply appends_u8.
  - apply appends_u16.
  - apply appends_u32.
  - apply appends_u64.
  - destruct Hf. by apply appends_partial.
  - apply appends_ufloat16.
  - by apply appends_string16.
  - apply appends_bytes.
  - unfold WriteConnectionId. rewrite mem_bytes_net. apply appends_bytes.
  - apply appends_bytes.
Qed.

Lemma parses_field e post f : partial_ok e -> field_ok f -> parses e post (read_field f) (field_bytes e f) (field_read f).
Proof.
  intros Hp Hf. destruct f; simpl in *; apply parses_map.
  - by apply parses_u8.
  - by apply parses_u16.
  - by apply parses_u32.
  - by apply parses_u64.
  - destruct Hf. by apply parses_partial.
  - by apply parses_ufloat16.
  - by apply parses_string16.
  - apply parses_string.
  - rewrite <- (net_value_bytes 8 v Hf) at 2.
    apply (parses_raw e post (be_bytes 8 v) 8 (fun bs => NetToHost 8 (mem_value bs))), (wire_bytes_length NETWORK_BYTE_ORDER).
  - rewrite <- (mem_value_bytes 4 v Hf) at 2.
    apply (parses_raw e post (mem_bytes 4 v) 4 mem_value), (wire_bytes_length HOST_BYTE_ORDER).
Qed.

Lemma appends_fields e fs :
  partial_ok e -> Forall field_ok fs -> appends e (write_fields fs) (concat (field_bytes e <$> fs)).
Proof.
  intros Hp. induction 1 as [|f fs Hf _ IH]; [apply appends_true|]. simpl. apply appends_and; [by apply appends_field|done].
Qed.

Lemma parses_fields e post fs :
  partial_ok e -> Forall field_ok fs -> parses e post (read_fields fs) (concat (field_bytes e <$> fs)) (field_read <$> fs).
Proof.
  intros Hp. induction 1 as [|f fs Hf _ IH]; [apply parses_ret|]. simpl.
  eapply parses_bind; [by apply parses_field|]. by apply parses_map.
Qed.

(** ** Theorems *)

(** Any sequence of fields, integers of every width, 16-bit floats, strings
    and raw bytes, in either byte order, is written exactly when it fits the
    buffer, and reading fields of the same kinds from what was written gives the
    values back (floats rounded) and ends at the end of the data.  Partial
    integers in host order are covered for little endian hosts. *)
Lemma quic_data_roundtrip (e : Endianness) (fs : list field) (buffer : list Z) :
  partial_ok e -> Forall field_ok fs ->
  let size := length (concat (field_bytes e <$> fs)) in
  let '(ok, w) := write_fields fs (MkWriter buffer 0 e) in
  (ok = true <-> size <= length buffer) /\
  (ok = true -> dw_length_ w = size /\
     read_fields fs (MkReader (dw_data w) 0 e) = (Some (field_read <$> fs), MkReader (dw_data w) size e)).
Proof.
  intros Hp Hfs. set (bs := concat (field_bytes e <$> fs)). cbv zeta.
  assert (dw_ok (MkWriter buffer 0 e)) as Hok by (unfold dw_ok; simpl; lia).
  pose proof (appends_fields e fs Hp Hfs (MkWriter buffer 0 e) Hok eq_refl) as Hw. fold bs in Hw. simpl in Hw.
  change (dw_capacity (MkWriter buffer 0 e)) with (length buffer) in Hw.
  destruct (Nat.leb_spec (length bs) (length buffer)) as [Hl|Hl].
  - rewrite Hw. split; [done|]. intros _. split; [done|].
    rewrite dw_put_data by (simpl; exact Hl). change (dw_data (MkWriter buffer 0 e)) with (@nil Z).
    pose proof (parses_fields e [] fs Hp Hfs []) as Hr. fold bs in Hr. rewrite app_nil_r in Hr. exact Hr.
  - destruct (write_fields fs (MkWriter buffer 0 e)) as [ok w]. simpl in Hw. subst ok. split; [|done].
    split; [done|lia].
Qed.

(** The unsigned 16-bit float format.  The value read back is at most the
    value written and differs by at most a 2048th of it; values below 4096 are
    exact, values beyond the largest give the largest; and every 16-bit code is
    the code of the value it stands for, so no two codes mean the same. *)
Lemma ufloat16_format (v w : Z) :
  (0 <= v -> 0 <= w < 65536 ->
  let d := ufloat16_decode (ufloat16_encode v) in
  (0 <= d <= v) /\ (v < 4096 -> d = v) /\ (v <= kUFloat16MaxValue -> (v - d) * 2048 <= v) /\
  (kUFloat16MaxValue <= v -> d = kUFloat16MaxValue) /\ ufloat16_encode (ufloat16_decode w) = w)%Z.
Proof.
  intros Hv Hw d. destruct (ufloat16_rounding v Hv) as (H1 & H2 & H3 & H4). split_and!; try done; try lia.
  by apply ufloat16_codes.
Qed.
End QuicData.

Lemma quic_data_roundtrip_witness :
  let fs := [FUInt8 7; FPartial 3 70000; FUFloat16 5001; FString16 [104; 105]%Z; FUInt64 9] in
  (fst (write_fields (host := true) fs (MkWriter (replicate 20 0%Z) 0 NETWORK_BYTE_ORDER)) = true <->
   length (concat (field_bytes (host := true) NETWORK_BYTE_ORDER <$> fs)) <= 20).
Proof.
  intros fs. pose proof (quic_data_roundtrip (host := true) NETWORK_BYTE_ORDER fs (replicate 20 0%Z)) as H.
  assert (partial_ok (host := true) NETWORK_BYTE_ORDER) as Hp by (intros ?; discriminate).
  assert (Forall field_ok fs) as Hf.
  { repeat constructor; unfold field_ok, fits; simpl; lia. }
  specialize (H Hp Hf). exact (proj1 H).
Defined.

Lemma ufloat16_format_witness :
  (let d := ufloat16_decode (ufloat16_encode 5001) in
  (0 <= d <= 5001) /\ (5001 < 4096 -> d = 5001) /\ (5001 <= kUFloat16MaxValue -> (5001 - d) * 2048 <= 5001) /\
  (kUFloat16MaxValue <= 5001 -> d = kUFloat16MaxValue) /\ ufloat16_encode (ufloat16_decode 61000) = 61000)%Z.
Proof. exact (ufloat16_format 5001 61000 ltac:(lia) ltac:(lia)). Defined.

Declare Scope wire_scope.
Notation "a >&> b" := (wr_and a b) (at level 60, right associativity) : wire_scope.
Notation "x <~ m ;; k" := (rd_bind m (fun x => k)) (at level 65, m at next level, right associativity) : wire_scope.
