(* ===== verification/Framer.v ===== *)
(** * quic/core/quic_framer.cc: frames and packet headers on the wire

    The writing half ([BuildDataPacket] and its Append functions, over
    [QuicDataWriter]) and the reading half ([ProcessPublicHeader],
    [ProcessFrameData] and its Process functions, over [QuicDataReader]) for
    every supported version.  A version is its number (35 to 41), an enumeration
    of lengths is the number of bytes.  The visitor is an object of its own
    ([QuicFramerVisitor]) whose calls may ask to stop; the producer of stream
    data is a function.  Texts of errors are left out, their codes are kept. *)

From S2P Require Import Prelude Interval IntervalSet PacketNumberQueue PacketNumberQueueFacts PacketSet.
From S2P Require Import QuicTime ReceivedPacketManager QuicData.
#[local] Open Scope Z_scope.
#[local] Open Scope wire_scope.

Definition u8 (x : Z) : Z := wrapU 8 x.
Definition u16 (x : Z) : Z := wrapU 16 x.

(** ** Constants *)

Definition kQuicFrameTypeSpecialMask : Z := 224.
Definition kQuicFrameTypeStreamMask_Pre40 : Z := 128.
Definition kQuicFrameTypeStreamMask : Z := 192.
Definition kQuicFrameTypeAckMask_Pre40 : Z := 64.
Definition kQuicFrameTypeAckMask : Z := 160.
Definition kQuicStreamIdShift_Pre40 : Z := 2.
Definition kQuicStreamIDLengthMask_Pre40 : Z := 3.
Definition kQuicStreamIDLengthOffsetShift : Z := 3.
Definition kQuicStreamIDLengthNumBits : Z := 2.
Definition kQuicStreamOffsetShift_Pre40 : Z := 3.
Definition kQuicStreamOffsetMask_Pre40 : Z := 7.
Definition kQuicStreamOffsetNumBits : Z := 2.
Definition kQuicStreamOffsetOffsetShift : Z := 1.
Definition kQuicStreamDataLengthShift_Pre40 : Z := 1.
Definition kQuicStreamDataLengthMask_Pre40 : Z := 1.
Definition kQuicStreamDataLengthNumBits : Z := 1.
Definition kQuicStreamDataLengthOffsetShift : Z := 0.
Definition kQuicStreamFinShift_Pre40 : Z := 1.
Definition kQuicStreamFinMask_Pre40 : Z := 1.
Definition kQuicStreamFinNumBits : Z := 1.
Definition kQuicStreamFinOffsetShift : Z := 5.
Definition kQuicSequenceNumberLengthNumBits : Z := 2.
Definition kActBlockLengthOffset : Z := 0.
Definition kLargestAckedOffset : Z := 2.
Definition kQuicHasMultipleAckBlocksOffset_Pre40 : Z := 5.
Definition kQuicHasMultipleAckBlocksOffset : Z := 4.
Definition kBooleanNumBits : Z := 1.
Definition kPublicHeaderSequenceNumberShift : Z := 4.

Definition kQuicFrameTypeSize : nat := 1.
Definition kQuicErrorCodeSize : nat := 4.
Definition kQuicErrorDetailsLengthSize : nat := 2.
Definition kQuicMaxStreamIdSize : nat := 4.
Definition kQuicMaxStreamOffsetSize : nat := 8.
Definition kQuicStreamPayloadLengthSize : nat := 2.
Definition kQuicDeltaTimeLargestObservedSize : nat := 2.
Definition kQuicNumTimestampsSize : nat := 1.
Definition kNumberOfAckBlocksSize : nat := 1.
Definition kMaxAckBlocks : Z := Z.shiftl 1 (Z.of_nat kNumberOfAckBlocksSize * 8) - 1.
Definition kPublicFlagsSize : nat := 1.
Definition kQuicVersionSize : nat := 4.
Definition kDiversificationNonceSize : nat := 32.

Definition PACKET_FLAGS_1BYTE_PACKET : Z := 0.
Definition PACKET_FLAGS_2BYTE_PACKET : Z := 1.
Definition PACKET_FLAGS_4BYTE_PACKET : Z := 2.
Definition PACKET_FLAGS_8BYTE_PACKET : Z := 3.
Definition PACKET_PUBLIC_FLAGS_VERSION : Z := 1.
Definition PACKET_PUBLIC_FLAGS_RST : Z := 2.
Definition PACKET_PUBLIC_FLAGS_NONCE : Z := 4.
Definition PACKET_PUBLIC_FLAGS_0BYTE_CONNECTION_ID : Z := 0.
Definition PACKET_PUBLIC_FLAGS_8BYTE_CONNECTION_ID : Z := 8.
Definition PACKET_PUBLIC_FLAGS_8BYTE_CONNECTION_ID_OLD : Z := 12.
Definition PACKET_PUBLIC_FLAGS_MAX : Z := 63.

Definition PADDING_FRAME : Z := 0.
Definition RST_STREAM_FRAME : Z := 1.
Definition CONNECTION_CLOSE_FRAME : Z := 2.
Definition GOAWAY_FRAME : Z := 3.
Definition WINDOW_UPDATE_FRAME : Z := 4.
Definition BLOCKED_FRAME : Z := 5.
Definition STOP_WAITING_FRAME : Z := 6.
Definition PING_FRAME : Z := 7.

Definition QUIC_STREAM_LAST_ERROR : Z := 16.
Definition QUIC_LAST_ERROR : Z := 98.
Definition QUIC_NO_ERROR : Z := 0.
Definition QUIC_INVALID_PACKET_HEADER : Z := 3.
Definition QUIC_INVALID_FRAME_DATA : Z := 4.
Definition QUIC_INVALID_RST_STREAM_DATA : Z := 6.
Definition QUIC_INVALID_CONNECTION_CLOSE_DATA : Z := 7.
Definition QUIC_INVALID_GOAWAY_DATA : Z := 8.
Definition QUIC_INVALID_ACK_DATA : Z := 9.
Definition QUIC_INVALID_STREAM_DATA : Z := 46.
Definition QUIC_MISSING_PAYLOAD : Z := 48.
Definition QUIC_INVALID_WINDOW_UPDATE_DATA : Z := 57.
Definition QUIC_INVALID_BLOCKED_DATA : Z := 58.
Definition QUIC_INVALID_STOP_WAITING_DATA : Z := 60.

(** ** Frames and headers *)

Record QuicStreamFrame := MkStreamFrame {
  sf_stream_id : Z; sf_fin : bool; sf_data_length : nat; sf_data_buffer : list Z; sf_offset : Z }.
Record QuicRstStreamFrame := MkRstStreamFrame { rf_stream_id : Z; rf_error_code : Z; rf_byte_offset : Z }.
Record QuicConnectionCloseFrame := MkConnectionCloseFrame { cf_error_code : Z; cf_error_details : list Z }.
Record QuicGoAwayFrame := MkGoAwayFrame { gf_error_code : Z; gf_last_good_stream_id : Z; gf_reason_phrase : list Z }.
Record QuicWindowUpdateFrame := MkWindowUpdateFrame { wf_stream_id : Z; wf_byte_offset : Z }.

Definition AckFrame_t : Type := @QuicAckFrame PacketNumberQueue.

Inductive QuicFrame :=
  | PaddingFrame (num_padding_bytes : Z)
  | RstStreamFrame (f : QuicRstStreamFrame)
  | ConnectionCloseFrame (f : QuicConnectionCloseFrame)
  | GoAwayFrame (f : QuicGoAwayFrame)
  | WindowUpdateFrame (f : QuicWindowUpdateFrame)
  | BlockedFrame (stream_id : Z)
  | StopWaitingFrame (least_unacked : Z)
  | PingFrame
  | StreamFrame (f : QuicStreamFrame)
  | AckFrame (f : AckFrame_t)
  | MtuDiscoveryFrame.

Inductive Perspective := IS_SERVER | IS_CLIENT.

Record QuicPacketPublicHeader := MkPublicHeader {
  ph_connection_id : Z;
  ph_connection_id_length : nat;
  ph_reset_flag : bool;
  ph_version_flag : bool;
  ph_packet_number_length : nat;
  ph_versions : list Z;
  ph_nonce : option (list Z) }.

Record QuicPacketHeader := MkPacketHeader { public_header : QuicPacketPublicHeader; packet_number : Z }.

(** ** The framer *)

Record QuicFramer := MkFramer {
  error_ : Z;
  last_packet_number_ : Z;
  largest_packet_number_ : Z;
  last_serialized_connection_id_ : Z;
  last_version_tag_ : Z;
  quic_version_ : Z;
  perspective_ : Perspective;
  validate_flags_ : bool;
  creation_time_ : Z;
  last_timestamp_ : Z;
  last_nonce_ : list Z;
  data_producer_ : option (Z -> Z -> nat -> Wr) }.

Definition with_last_timestamp (f : QuicFramer) (t : Z) : QuicFramer :=
  MkFramer (error_ f) (last_packet_number_ f) (largest_packet_number_ f) (last_serialized_connection_id_ f)
    (last_version_tag_ f) (quic_version_ f) (perspective_ f) (validate_flags_ f) (creation_time_ f) t (last_nonce_ f)
    (data_producer_ f).
Definition with_error (f : QuicFramer) (e : Z) : QuicFramer :=
  MkFramer e (last_packet_number_ f) (largest_packet_number_ f) (last_serialized_connection_id_ f)
    (last_version_tag_ f) (quic_version_ f) (perspective_ f) (validate_flags_ f) (creation_time_ f) (last_timestamp_ f)
    (last_nonce_ f) (data_producer_ f).
Definition with_connection_id (f : QuicFramer) (id : Z) : QuicFramer :=
  MkFramer (error_ f) (last_packet_number_ f) (largest_packet_number_ f) id
    (last_version_tag_ f) (quic_version_ f) (perspective_ f) (validate_flags_ f) (creation_time_ f) (last_timestamp_ f)
    (last_nonce_ f) (data_producer_ f).
Definition with_version_tag (f : QuicFramer) (t : Z) : QuicFramer :=
  MkFramer (error_ f) (last_packet_number_ f) (largest_packet_number_ f) (last_serialized_connection_id_ f)
    t (quic_version_ f) (perspective_ f) (validate_flags_ f) (creation_time_ f) (last_timestamp_ f)
    (last_nonce_ f) (data_producer_ f).
Definition with_nonce (f : QuicFramer) (n : list Z) : QuicFramer :=
  MkFramer (error_ f) (last_packet_number_ f) (largest_packet_number_ f) (last_serialized_connection_id_ f)
    (last_version_tag_ f) (quic_version_ f) (perspective_ f) (validate_flags_ f) (creation_time_ f) (last_timestamp_ f)
    n (data_producer_ f).
Definition SetLastPacketNumber (f : QuicFramer) (header : QuicPacketHeader) : QuicFramer :=
  MkFramer (error_ f) (packet_number header) (Z.max (packet_number header) (largest_packet_number_ f))
    (last_serialized_connection_id_ f) (last_version_tag_ f) (quic_version_ f) (perspective_ f) (validate_flags_ f)
    (creation_time_ f) (last_timestamp_ f) (last_nonce_ f) (data_producer_ f).

Definition kSupportedQuicVersions : list Z := [41; 40; 39; 38; 37; 36; 35].

Definition endianness_of (version : Z) : Endianness :=
  if version >? 38 then NETWORK_BYTE_ORDER else HOST_BYTE_ORDER.
Definition endianness (f : QuicFramer) : Endianness := endianness_of (quic_version_ f).

Definition MakeQuicTag (a b c d : Z) : Z :=
  Z.lor (Z.lor (Z.lor a (Z.shiftl b 8)) (Z.shiftl c 16)) (Z.shiftl d 24).

(** ['Q'], ['0'] and the two digits; zero for an unsupported version. *)
Definition QuicVersionToQuicTag (version : Z) : Z :=
  if version =? 35 then MakeQuicTag 81 48 51 53
  else if version =? 36 then MakeQuicTag 81 48 51 54
  else if version =? 37 then MakeQuicTag 81 48 51 55
  else if version =? 38 then MakeQuicTag 81 48 51 56
  else if version =? 39 then MakeQuicTag 81 48 51 57
  else if version =? 40 then MakeQuicTag 81 48 52 48
  else if version =? 41 then MakeQuicTag 81 48 52 49
  else 0.

Definition QuicTagToQuicVersion (version_tag : Z) : Z :=
  default 0 (List.find (fun v => version_tag =? QuicVersionToQuicTag v) kSupportedQuicVersions).

(** ** Packet numbers *)

Definition Delta (a b : Z) : Z := if a <? b then b -64 a else a -64 b.
Definition ClosestTo (target a b : Z) : Z := if Delta target a <? Delta target b then a else b.

Definition ReadSequenceNumberLength (flags : Z) : nat :=
  let f := Z.land flags PACKET_FLAGS_8BYTE_PACKET in
  if f =? PACKET_FLAGS_8BYTE_PACKET then 6%nat
  else if f =? PACKET_FLAGS_4BYTE_PACKET then 4%nat
  else if f =? PACKET_FLAGS_2BYTE_PACKET then 2%nat
  else if f =? PACKET_FLAGS_1BYTE_PACKET then 1%nat
  else 6%nat.

Definition ReadAckPacketNumberLength (version flags : Z) : nat :=
  let f := Z.land flags PACKET_FLAGS_8BYTE_PACKET in
  if f =? PACKET_FLAGS_8BYTE_PACKET then (if version <=? 39 then 6%nat else 8%nat)
  else if f =? PACKET_FLAGS_4BYTE_PACKET then 4%nat
  else if f =? PACKET_FLAGS_2BYTE_PACKET then 2%nat
  else if f =? PACKET_FLAGS_1BYTE_PACKET then 1%nat
  else 6%nat.

Definition GetMinPacketNumberLength (version packet_number : Z) : nat :=
  if packet_number <? Z.shiftl 1 8 then 1%nat
  else if packet_number <? Z.shiftl 1 16 then 2%nat
  else if packet_number <? Z.shiftl 1 32 then 4%nat
  else if version <=? 39 then 6%nat else 8%nat.

Definition GetPacketNumberFlags (packet_number_length : nat) : Z :=
  match packet_number_length with
  | 1%nat => PACKET_FLAGS_1BYTE_PACKET
  | 2%nat => PACKET_FLAGS_2BYTE_PACKET
  | 4%nat => PACKET_FLAGS_4BYTE_PACKET
  | _ => PACKET_FLAGS_8BYTE_PACKET
  end.

(** Lengths are at most six bytes here: a shift by 64 is undefined. *)
Definition CalculatePacketNumberFromWire (packet_number_length : nat) (base_packet_number packet_number : Z) : Z :=
  let epoch_delta := u64 (Z.shiftl 1 (8 * Z.of_nat packet_number_length)) in
  let next_packet_number := base_packet_number +64 1 in
  let epoch := Z.land base_packet_number (u64 (Z.lnot (epoch_delta -64 1))) in
  let prev_epoch := epoch -64 epoch_delta in
  let next_epoch := epoch +64 epoch_delta in
  ClosestTo next_packet_number (epoch +64 packet_number)
    (ClosestTo next_packet_number (prev_epoch +64 packet_number) (next_epoch +64 packet_number)).

(** [last_timestamp_.ToMicroseconds()] converts to [uint64_t]. *)
Definition CalculateTimestampFromWire (last_timestamp time_delta_us : Z) : Z :=
  let last := u64 (Delta_ToMicroseconds last_timestamp) in
  let epoch_delta := u64 (Z.shiftl 1 32) in
  let epoch := Z.land last (u64 (Z.lnot (epoch_delta -64 1))) in
  let prev_epoch := epoch -64 epoch_delta in
  let next_epoch := epoch +64 epoch_delta in
  let time := ClosestTo last (epoch +64 time_delta_us)
                (ClosestTo last (prev_epoch +64 time_delta_us) (next_epoch +64 time_delta_us)) in
  Delta_FromMicroseconds (i64 time).

(** ** Sizes *)

(** [for (int i = 1; i <= 4; ++i)]. *)
Fixpoint GetStreamIdSize_loop (sizes : list nat) (stream_id : Z) : nat :=
  match sizes with
  | [] => 4
  | i :: sizes => let stream_id := Z.shiftr stream_id 8 in
                  if (stream_id =? 0)%Z then i else GetStreamIdSize_loop sizes stream_id
  end%nat.
Definition GetStreamIdSize (stream_id : Z) : nat := GetStreamIdSize_loop [1; 2; 3; 4]%nat stream_id.

(** [for (int i = 2; i <= 8; ++i)]. *)
Fixpoint GetStreamOffsetSize_loop (sizes : list nat) (offset : Z) : nat :=
  match sizes with
  | [] => 8
  | i :: sizes => let offset := Z.shiftr offset 8 in
                  if (offset =? 0)%Z then i else GetStreamOffsetSize_loop sizes offset
  end%nat.
Definition GetStreamOffsetSize (version offset : Z) : nat :=
  if version <? 40 then
    if offset =? 0 then 0%nat else GetStreamOffsetSize_loop [2; 3; 4; 5; 6; 7; 8]%nat (Z.shiftr offset 8)
  else if Z.shiftr offset (8 * 0) =? 0 then 0%nat
  else if Z.shiftr offset (8 * 2) =? 0 then 2%nat
  else if Z.shiftr offset (8 * 4) =? 0 then 4%nat
  else 8%nat.

Section Sizes.
#[local] Open Scope nat_scope.

Definition GetMinStreamFrameSize (version stream_id offset : Z) (last_frame_in_packet : bool) : nat :=
  kQuicFrameTypeSize + GetStreamIdSize stream_id + GetStreamOffsetSize version offset
  + (if last_frame_in_packet then 0 else kQuicStreamPayloadLengthSize).
Definition GetMinAckFrameSize (largest_observed_length : nat) : nat :=
  kQuicFrameTypeSize + largest_observed_length + kQuicDeltaTimeLargestObservedSize + kQuicNumTimestampsSize.
Definition GetStopWaitingFrameSize (packet_number_length : nat) : nat := kQuicFrameTypeSize + packet_number_length.
Definition GetRstStreamFrameSize : nat :=
  kQuicFrameTypeSize + kQuicMaxStreamIdSize + kQuicMaxStreamOffsetSize + kQuicErrorCodeSize.
Definition GetMinConnectionCloseFrameSize : nat :=
  kQuicFrameTypeSize + kQuicErrorCodeSize + kQuicErrorDetailsLengthSize.
Definition GetMinGoAwayFrameSize : nat :=
  kQuicFrameTypeSize + kQuicErrorCodeSize + kQuicErrorDetailsLengthSize + kQuicMaxStreamIdSize.
Definition GetWindowUpdateFrameSize : nat := kQuicFrameTypeSize + kQuicMaxStreamIdSize + kQuicMaxStreamOffsetSize.
Definition GetBlockedFrameSize : nat := kQuicFrameTypeSize + kQuicMaxStreamIdSize.
Definition GetVersionNegotiationPacketSize (number_versions : nat) : nat :=
  kPublicFlagsSize + 8 + number_versions * kQuicVersionSize.

Definition GetPacketHeaderSize (connection_id_length : nat) (include_version include_diversification_nonce : bool)
    (packet_number_length : nat) : nat :=
  kPublicFlagsSize + connection_id_length + (if include_version then kQuicVersionSize else 0) + packet_number_length
  + (if include_diversification_nonce then kDiversificationNonceSize else 0).
End Sizes.

Record AckFrameInfo := MkAckFrameInfo { max_block_length : Z; first_block_length : Z; num_ack_blocks : Z }.

(** [(total_gap + 254) / 255]. *)
Definition encoded_gaps (total_gap : Z) : Z := (total_gap +64 254) / 255.

(** The loop of [GetAckFrameInfo] over the intervals below the last one, in
    descending order. *)
Fixpoint GetAckFrameInfo_loop (itr : list Interval) (previous_start : Z) (new_ack_info : AckFrameInfo) : AckFrameInfo :=
  match itr with
  | [] => new_ack_info
  | interval :: itr =>
      if num_ack_blocks new_ack_info <? 255 then
        let total_gap := previous_start -64 max_ interval in
        GetAckFrameInfo_loop itr (min_ interval)
          (MkAckFrameInfo (Z.max (max_block_length new_ack_info) (Interval_Length interval))
             (first_block_length new_ack_info) (num_ack_blocks new_ack_info +64 encoded_gaps total_gap))
      else new_ack_info
  end.

Definition GetAckFrameInfo (frame : AckFrame_t) : AckFrameInfo :=
  match rev (pnq_list (packets frame)) with
  | [] => MkAckFrameInfo 0 0 0
  | last :: itr =>
      GetAckFrameInfo_loop itr (min_ last) (MkAckFrameInfo (Interval_Length last) (Interval_Length last) 0)
  end.

Definition GetAckFrameTimeStampSize (ack : AckFrame_t) : nat :=
  match received_packet_times ack with [] => 0 | _ :: ts => 5 + 3 * length ts end%nat.

Definition GetAckFrameSize (version : Z) (ack : AckFrame_t) : nat :=
  let ack_info := GetAckFrameInfo ack in
  let largest_acked_length := GetMinPacketNumberLength version (largest_observed ack) in
  let ack_block_length := GetMinPacketNumberLength version (max_block_length ack_info) in
  (GetMinAckFrameSize largest_acked_length + ack_block_length
   + (if (num_ack_blocks ack_info =? 0)%Z then 0
      else kNumberOfAckBlocksSize + Z.to_nat (Z.min (num_ack_blocks ack_info) kMaxAckBlocks) * (ack_block_length + 1))
   + GetAckFrameTimeStampSize ack)%nat.

Definition ComputeFrameLength (version : Z) (frame : QuicFrame) (last_frame_in_packet : bool) (packet_number_length : nat)
    : nat :=
  (match frame with
   | StreamFrame f =>
       GetMinStreamFrameSize version (sf_stream_id f) (sf_offset f) last_frame_in_packet + sf_data_length f
   | AckFrame f => GetAckFrameSize version f
   | StopWaitingFrame _ => GetStopWaitingFrameSize packet_number_length
   | MtuDiscoveryFrame | PingFrame => kQuicFrameTypeSize
   | RstStreamFrame _ => GetRstStreamFrameSize
   | ConnectionCloseFrame f => GetMinConnectionCloseFrameSize + length (cf_error_details f)
   | GoAwayFrame f => GetMinGoAwayFrameSize + length (gf_reason_phrase f)
   | WindowUpdateFrame _ => GetWindowUpdateFrameSize
   | BlockedFrame _ => GetBlockedFrameSize
   | PaddingFrame _ => 0
   end)%nat.

(** The branch for null stream and ack frames has no counterpart. *)
Definition GetSerializedFrameLength (version : Z) (frame : QuicFrame) (free_bytes : nat) (first_frame last_frame : bool)
    (packet_number_length : nat) : nat :=
  match frame with
  | PaddingFrame num_padding_bytes =>
      if num_padding_bytes =? -1 then free_bytes
      else if Z.of_nat free_bytes <? u64 num_padding_bytes then free_bytes else Z.to_nat (u64 num_padding_bytes)
  | _ =>
      let frame_len := ComputeFrameLength version frame last_frame packet_number_length in
      if (frame_len <=? free_bytes)%nat then frame_len
      else if negb first_frame then 0%nat
      else match frame with
           | AckFrame _ => if (GetMinAckFrameSize 6 <=? free_bytes)%nat then free_bytes else 0%nat
           | _ => 0%nat
           end
  end.

Definition GetMaskFromNumBits (num_bits : Z) : Z := u8 (Z.shiftl 1 num_bits - 1).
Definition ExtractBits (flags num_bits offset : Z) : Z := Z.land (Z.shiftr flags offset) (GetMaskFromNumBits num_bits).
Definition SetBits (flags val offset : Z) : Z := u8 (Z.lor flags (Z.shiftl val offset)).

(** ** Writing *)

Section Append.
Context `{host : HostOrder}.
Variable quic_version : Z.

Definition stream_type_byte (frame : QuicStreamFrame) (no_stream_frame_length : bool) : Z :=
  if quic_version <? 40 then
    let type_byte := if sf_fin frame then kQuicStreamFinMask_Pre40 else 0 in
    let type_byte := u8 (Z.shiftl type_byte kQuicStreamDataLengthShift_Pre40) in
    let type_byte := Z.lor type_byte (if no_stream_frame_length then 0 else kQuicStreamDataLengthMask_Pre40) in
    let type_byte := u8 (Z.shiftl type_byte kQuicStreamOffsetShift_Pre40) in
    let offset_len := GetStreamOffsetSize quic_version (sf_offset frame) in
    let type_byte := if (0 <? offset_len)%nat then u8 (Z.lor type_byte (Z.of_nat offset_len - 1)) else type_byte in
    let type_byte := u8 (Z.shiftl type_byte kQuicStreamIdShift_Pre40) in
    let type_byte := u8 (Z.lor type_byte (Z.of_nat (GetStreamIdSize (sf_stream_id frame)) - 1)) in
    Z.lor type_byte kQuicFrameTypeStreamMask_Pre40
  else
    let type_byte := SetBits 0 (if sf_fin frame then 1 else 0) kQuicStreamFinOffsetShift in
    let type_byte := SetBits type_byte (if no_stream_frame_length then 0 else 1) kQuicStreamDataLengthOffsetShift in
    let offset_len_encode :=
      match GetStreamOffsetSize quic_version (sf_offset frame) with
      | 0%nat => 0 | 2%nat => 1 | 4%nat => 2 | 8%nat => 3 | _ => 3
      end in
    let type_byte := SetBits type_byte offset_len_encode kQuicStreamOffsetOffsetShift in
    let type_byte := SetBits type_byte (Z.of_nat (GetStreamIdSize (sf_stream_id frame)) - 1) kQuicStreamIDLengthOffsetShift in
    Z.lor type_byte kQuicFrameTypeStreamMask.

Definition AppendTypeByte (frame : QuicFrame) (no_stream_frame_length : bool) : Wr :=
  match frame with
  | StreamFrame f => WriteUInt8 (stream_type_byte f no_stream_frame_length)
  | AckFrame _ => wr_true
  | MtuDiscoveryFrame => WriteUInt8 PING_FRAME
  | PaddingFrame _ => WriteUInt8 PADDING_FRAME
  | RstStreamFrame _ => WriteUInt8 RST_STREAM_FRAME
  | ConnectionCloseFrame _ => WriteUInt8 CONNECTION_CLOSE_FRAME
  | GoAwayFrame _ => WriteUInt8 GOAWAY_FRAME
  | WindowUpdateFrame _ => WriteUInt8 WINDOW_UPDATE_FRAME
  | BlockedFrame _ => WriteUInt8 BLOCKED_FRAME
  | StopWaitingFrame _ => WriteUInt8 STOP_WAITING_FRAME
  | PingFrame => WriteUInt8 PING_FRAME
  end.

Definition AppendPacketNumber (packet_number_length : nat) (packet_number : Z) : Wr :=
  match packet_number_length with
  | 1%nat | 2%nat | 4%nat | 6%nat | 8%nat => WriteBytesToUInt64 packet_number_length packet_number
  | _ => wr_false
  end.

Definition AppendStreamId (stream_id_length : nat) (stream_id : Z) : Wr :=
  if (stream_id_length =? 0)%nat || (4 <? stream_id_length)%nat then wr_false
  else WriteBytesToUInt64 stream_id_length stream_id.

Definition AppendStreamOffset (offset_length : nat) (offset : Z) : Wr :=
  if (offset_length =? 1)%nat || (8 <? offset_length)%nat then wr_false
  else WriteBytesToUInt64 offset_length offset.

Definition AppendAckBlock (gap : Z) (length_length : nat) (length : Z) : Wr :=
  WriteUInt8 gap >&> AppendPacketNumber length_length length.

(** [data_length] is a [uint16_t], so the test that it exceeds one is false. *)
Definition AppendStreamFrame (data_producer : option (Z -> Z -> nat -> Wr)) (frame : QuicStreamFrame)
    (no_stream_frame_length : bool) : Wr :=
  (if negb no_stream_frame_length && (quic_version >? 39)
   then WriteUInt16 (Z.of_nat (sf_data_length frame)) else wr_true) >&>
  AppendStreamId (GetStreamIdSize (sf_stream_id frame)) (sf_stream_id frame) >&>
  AppendStreamOffset (GetStreamOffsetSize quic_version (sf_offset frame)) (sf_offset frame) >&>
  (if negb no_stream_frame_length && (quic_version <=? 39)
   then WriteUInt16 (Z.of_nat (sf_data_length frame)) else wr_true) >&>
  match data_producer with
  | Some WriteStreamData =>
      if (sf_data_length frame =? 0)%nat then wr_true
      else WriteStreamData (sf_stream_id frame) (sf_offset frame) (sf_data_length frame)
  | None => WriteBytes (take (sf_data_length frame) (sf_data_buffer frame))
  end.

(** The loop that appends blocks of length zero; gives the number of blocks
    written so far.  At most 255 blocks are written. *)
Fixpoint AppendEmptyBlocks (fuel : nat) (ack_block_length : nat) (i num_encoded_gaps num_ack_blocks_written num_ack_blocks : Z)
    (w : QuicDataWriter) : bool * Z * QuicDataWriter :=
  match fuel with
  | O => (true, num_ack_blocks_written, w)
  | S fuel =>
      if (i <? num_encoded_gaps) && (num_ack_blocks_written <? num_ack_blocks) then
        let '(ok, w) := AppendAckBlock 255 ack_block_length 0 w in
        if ok : bool
        then AppendEmptyBlocks fuel ack_block_length (i + 1) num_encoded_gaps (num_ack_blocks_written + 1) num_ack_blocks w
        else (false, num_ack_blocks_written, w)
      else (true, num_ack_blocks_written, w)
  end.

Fixpoint AppendAckBlocks (itr : list Interval) (previous_start : Z) (ack_block_length : nat)
    (num_ack_blocks_written num_ack_blocks : Z) (w : QuicDataWriter) : bool * QuicDataWriter :=
  match itr with
  | [] => (true, w)
  | interval :: itr =>
      if num_ack_blocks_written <? num_ack_blocks then
        let total_gap := previous_start -64 max_ interval in
        let num_encoded_gaps := encoded_gaps total_gap in
        let '(ok, written, w) :=
          AppendEmptyBlocks 255 ack_block_length 1 num_encoded_gaps num_ack_blocks_written num_ack_blocks w in
        if negb ok then (false, w)
        else if written >=? num_ack_blocks then (true, w)
        else
          let last_gap := u8 (total_gap - (num_encoded_gaps - 1) * 255) in
          let '(ok, w) := AppendAckBlock last_gap ack_block_length (Interval_Length interval) w in
          if ok : bool then AppendAckBlocks itr (min_ interval) ack_block_length (written + 1) num_ack_blocks w
          else (false, w)
      else (true, w)
  end.

(** The times after the first one. *)
Fixpoint AppendMoreTimestamps (largest : Z) (times : list (Z * Z)) (prev_time : Z) : Wr :=
  match times with
  | [] => wr_true
  | (packet_number, time) :: times =>
      let delta_from_largest_observed := largest -64 packet_number in
      if delta_from_largest_observed >? 255 then wr_false
      else
        WriteUInt8 delta_from_largest_observed >&>
        WriteUFloat16 (u64 (Delta_ToMicroseconds (QuicTime_diff time prev_time))) >&>
        AppendMoreTimestamps largest times time
  end.

Definition AppendTimestampsToAckFrame (creation_time : Z) (frame : AckFrame_t) (num_timestamps_offset : nat) : Wr :=
  let num := Z.of_nat (length (received_packet_times frame)) in
  if num >? 255 then wr_false
  else
    (if quic_version <=? 39 then WriteBytes (mem_bytes 1 num) else WriteUInt8AtOffset num num_timestamps_offset) >&>
    match received_packet_times frame with
    | [] => wr_true
    | (packet_number, time) :: times =>
        let delta_from_largest_observed := largest_observed frame -64 packet_number in
        if delta_from_largest_observed >? 255 then wr_false
        else
          WriteUInt8 delta_from_largest_observed >&>
          WriteUInt32 (Z.land (u64 (Delta_ToMicroseconds (QuicTime_diff time creation_time))) (Z.shiftl 1 32 - 1)) >&>
          AppendMoreTimestamps (largest_observed frame) times time
    end.

Definition ack_type_byte (has_blocks : bool) (largest_acked_length ack_block_length : nat) : Z :=
  let type_byte := SetBits 0 (if has_blocks then 1 else 0)
    (if quic_version <? 40 then kQuicHasMultipleAckBlocksOffset_Pre40 else kQuicHasMultipleAckBlocksOffset) in
  let type_byte := SetBits type_byte (GetPacketNumberFlags largest_acked_length) kLargestAckedOffset in
  let type_byte := SetBits type_byte (GetPacketNumberFlags ack_block_length) kActBlockLengthOffset in
  Z.lor type_byte (if quic_version <? 40 then kQuicFrameTypeAckMask_Pre40 else kQuicFrameTypeAckMask).

(** [WriteBytes(&num_ack_blocks, 1)]: the first byte in memory of a [size_t]. *)
Definition write_num_ack_blocks (num_ack_blocks : Z) : Wr := WriteBytes (take 1 (mem_bytes 8 num_ack_blocks)).

Definition AppendAckFrameAndTypeByte (creation_time : Z) (frame : AckFrame_t) : Wr := wr_with (fun writer =>
  let new_ack_info := GetAckFrameInfo frame in
  let largest_acked := largest_observed frame in
  let largest_acked_length := GetMinPacketNumberLength quic_version largest_acked in
  let ack_block_length := GetMinPacketNumberLength quic_version (max_block_length new_ack_info) in
  let available_timestamp_and_ack_block_bytes :=
    i32 (Z.of_nat (dw_capacity writer) - Z.of_nat (dw_length_ writer) - Z.of_nat ack_block_length
         - Z.of_nat (GetMinAckFrameSize largest_acked_length)
         - (if num_ack_blocks new_ack_info =? 0 then 0 else Z.of_nat kNumberOfAckBlocksSize)) in
  let max_num_ack_blocks := u64 (Z.quot available_timestamp_and_ack_block_bytes (Z.of_nat ack_block_length + 1)) in
  let num_blocks := Z.min (Z.min (num_ack_blocks new_ack_info) max_num_ack_blocks) 255 in
  WriteUInt8 (ack_type_byte (negb (num_ack_blocks new_ack_info =? 0)) largest_acked_length ack_block_length) >&>
  (if (quic_version >? 39) && (num_blocks >? 0) then write_num_ack_blocks num_blocks else wr_true) >&>
  wr_with (fun writer =>
    let num_timestamps_offset := if quic_version >? 39 then dw_length_ writer else 0%nat in
    (if quic_version >? 39 then WriteUInt8 0 else wr_true) >&>
    AppendPacketNumber largest_acked_length largest_acked >&>
    WriteUFloat16 (if Delta_IsInfinite (ack_delay_time frame) then kUFloat16MaxValue
                   else u64 (Delta_ToMicroseconds (ack_delay_time frame))) >&>
    (if (quic_version <=? 39) && (num_blocks >? 0) then write_num_ack_blocks num_blocks else wr_true) >&>
    AppendPacketNumber ack_block_length (first_block_length new_ack_info) >&>
    (if num_blocks >? 0 then
       match rev (pnq_list (packets frame)) with
       | [] => wr_true
       | last :: itr => AppendAckBlocks itr (min_ last) ack_block_length 0 num_blocks
       end
     else wr_true) >&>
    wr_with (fun writer =>
      if (GetAckFrameTimeStampSize frame <=? dw_capacity writer - dw_length_ writer)%nat
      then AppendTimestampsToAckFrame creation_time frame num_timestamps_offset
      else WriteBytes (mem_bytes 1 0)))).

Definition AppendStopWaitingFrame (header : QuicPacketHeader) (least_unacked : Z) : Wr :=
  let least_unacked_delta := packet_number header -64 least_unacked in
  let length_shift := Z.of_nat (ph_packet_number_length (public_header header)) * 8 in
  if Z.shiftr least_unacked_delta length_shift >? 0 then wr_false
  else AppendPacketNumber (ph_packet_number_length (public_header header)) least_unacked_delta.

Definition AppendRstStreamFrame (frame : QuicRstStreamFrame) : Wr :=
  WriteUInt32 (rf_stream_id frame) >&>
  (if quic_version <=? 39 then WriteUInt64 (rf_byte_offset frame) else wr_true) >&>
  WriteUInt32 (u32 (rf_error_code frame)) >&>
  (if quic_version >? 39 then WriteUInt64 (rf_byte_offset frame) else wr_true).

Definition AppendConnectionCloseFrame (frame : QuicConnectionCloseFrame) : Wr :=
  WriteUInt32 (u32 (cf_error_code frame)) >&> WriteStringPiece16 (cf_error_details frame).

Definition AppendGoAwayFrame (frame : QuicGoAwayFrame) : Wr :=
  WriteUInt32 (u32 (gf_error_code frame)) >&> WriteUInt32 (u32 (gf_last_good_stream_id frame)) >&>
  WriteStringPiece16 (gf_reason_phrase frame).

Definition AppendWindowUpdateFrame (frame : QuicWindowUpdateFrame) : Wr :=
  WriteUInt32 (u32 (wf_stream_id frame)) >&> WriteUInt64 (wf_byte_offset frame).

Definition AppendBlockedFrame (stream_id : Z) : Wr := WriteUInt32 (u32 stream_id).

Definition AppendPaddingFrame (num_padding_bytes : Z) : Wr :=
  if quic_version <=? 37 then (fun w => (true, WritePadding w))
  else if num_padding_bytes =? 0 then wr_false
  else if num_padding_bytes <? 0 then (fun w => (true, WritePadding w))
  else WritePaddingBytes (Z.to_nat (num_padding_bytes - 1)).
End Append.

(** Header and frames of a packet. *)
Section BuildPacket.
Context `{host : HostOrder}.
(** FLAGS_quic_reloadable_flag_quic_remove_v33_hacks2. *)
Variable remove_v33_hacks2 : bool.

Definition header_flags (f : QuicFramer) (header : QuicPacketPublicHeader) : Z :=
  let public_flags := 0 in
  let public_flags := if ph_reset_flag header then Z.lor public_flags PACKET_PUBLIC_FLAGS_RST else public_flags in
  let public_flags := if ph_version_flag header then Z.lor public_flags PACKET_PUBLIC_FLAGS_VERSION else public_flags in
  let public_flags :=
    u8 (Z.lor public_flags (Z.shiftl (GetPacketNumberFlags (ph_packet_number_length header)) kPublicHeaderSequenceNumberShift)) in
  let public_flags :=
    match ph_nonce header with Some _ => Z.lor public_flags PACKET_PUBLIC_FLAGS_NONCE | None => public_flags end in
  match ph_connection_id_length header with
  | O => Z.lor public_flags PACKET_PUBLIC_FLAGS_0BYTE_CONNECTION_ID
  | _ =>
      let public_flags := Z.lor public_flags PACKET_PUBLIC_FLAGS_8BYTE_CONNECTION_ID in
      match perspective_ f with
      | IS_CLIENT =>
          if remove_v33_hacks2 then public_flags else Z.lor public_flags PACKET_PUBLIC_FLAGS_8BYTE_CONNECTION_ID_OLD
      | IS_SERVER => public_flags
      end
  end.

(** A header whose connection ID is zero or eight bytes long. *)
Definition AppendPacketHeader (f : QuicFramer) (header : QuicPacketHeader) (w : QuicDataWriter)
    : bool * QuicFramer * QuicDataWriter :=
  let public := public_header header in
  let '(ok, w) :=
    (WriteUInt8 (header_flags f public) >&>
     match ph_connection_id_length public with O => wr_true | _ => WriteConnectionId (ph_connection_id public) end) w in
  if negb ok then (false, f, w)
  else
    let f := with_connection_id f (ph_connection_id public) in
    let '(ok, w) :=
      ((if ph_version_flag public then WriteTag (QuicVersionToQuicTag (quic_version_ f)) else wr_true) >&>
       match ph_nonce public with Some nonce => WriteBytes (take kDiversificationNonceSize nonce) | None => wr_true end >&>
       AppendPacketNumber (ph_packet_number_length public) (packet_number header)) w in
    (ok, f, w).

(** One round of the loop of [BuildDataPacket]. *)
Definition AppendFrame (f : QuicFramer) (header : QuicPacketHeader) (frame : QuicFrame) (no_stream_frame_length : bool)
    : Wr :=
  let v := quic_version_ f in
  AppendTypeByte v frame no_stream_frame_length >&>
  match frame with
  | PaddingFrame num_padding_bytes => AppendPaddingFrame v num_padding_bytes
  | StreamFrame frame => AppendStreamFrame v (data_producer_ f) frame no_stream_frame_length
  | AckFrame frame => AppendAckFrameAndTypeByte v (creation_time_ f) frame
  | StopWaitingFrame least_unacked => AppendStopWaitingFrame header least_unacked
  | MtuDiscoveryFrame | PingFrame => wr_true
  | RstStreamFrame frame => AppendRstStreamFrame v frame
  | ConnectionCloseFrame frame => AppendConnectionCloseFrame frame
  | GoAwayFrame frame => AppendGoAwayFrame frame
  | WindowUpdateFrame frame => AppendWindowUpdateFrame frame
  | BlockedFrame stream_id => AppendBlockedFrame stream_id
  end.

Fixpoint AppendFrames (f : QuicFramer) (header : QuicPacketHeader) (frames : list QuicFrame) : Wr :=
  match frames with
  | [] => wr_true
  | frame :: frames =>
      AppendFrame f header frame (match frames with [] => true | _ => false end) >&> AppendFrames f header frames
  end.

(** The length of the packet, zero on failure, with the buffer. *)
Definition BuildDataPacket (f : QuicFramer) (header : QuicPacketHeader) (frames : list QuicFrame) (buffer : list Z)
    : nat * QuicFramer * list Z :=
  let '(ok, f, w) := AppendPacketHeader f header (MkWriter buffer 0 (endianness f)) in
  if negb ok then (0%nat, f, dw_buffer_ w)
  else
    let '(ok, w) := AppendFrames f header frames w in
    (if ok : bool then dw_length_ w else 0%nat, f, dw_buffer_ w).

Fixpoint WriteTags (versions : list Z) : Wr :=
  match versions with [] => wr_true | v :: versions => WriteTag (QuicVersionToQuicTag v) >&> WriteTags versions end.

Definition BuildVersionNegotiationPacket (connection_id : Z) (versions : list Z) (fresh : list Z) : option (list Z) :=
  let len := GetVersionNegotiationPacketSize (length versions) in
  let flags := Z.lor (Z.lor PACKET_PUBLIC_FLAGS_VERSION PACKET_PUBLIC_FLAGS_8BYTE_CONNECTION_ID)
                 PACKET_PUBLIC_FLAGS_8BYTE_CONNECTION_ID_OLD in
  let '(ok, w) := (WriteUInt8 flags >&> WriteConnectionId connection_id >&> WriteTags versions)
                    (MkWriter (take len fresh) 0 NETWORK_BYTE_ORDER) in
  if ok : bool then Some (dw_buffer_ w) else None.
End BuildPacket.

(** ** Reading *)

(** Reading with the state of the framer. *)
Definition Fr (A : Type) : Type := QuicFramer -> QuicDataReader -> option A * QuicFramer * QuicDataReader.
Definition fr_lift {A} (m : Rd A) : Fr A := fun f r => let '(x, r) := m r in (x, f, r).
Definition fr_ret {A} (x : A) : Fr A := fun f r => (Some x, f, r).
Definition fr_fail {A} : Fr A := fun f r => (None, f, r).
Definition fr_bind {A B} (m : Fr A) (k : A -> Fr B) : Fr B := fun f r =>
  let '(x, f, r) := m f r in match x with Some x => k x f r | None => (None, f, r) end.
Notation "x <<~ m ;; k" := (fr_bind m (fun x => k)) (at level 65, m at next level, right associativity) : wire_scope.

Section Process.
Context `{host : HostOrder}.
(** FLAGS_quic_reloadable_flag_quic_frames_deque2. *)
Variable frames_deque2 : bool.

Definition ProcessPublicHeader : Fr QuicPacketPublicHeader := fun f =>
  (public_flags <<~ fr_lift ReadUInt8 ;;
   let reset_flag := negb (Z.land public_flags PACKET_PUBLIC_FLAGS_RST =? 0) in
   let version_flag := negb (Z.land public_flags PACKET_PUBLIC_FLAGS_VERSION =? 0) in
   if validate_flags_ f && negb version_flag && (public_flags >? PACKET_PUBLIC_FLAGS_MAX) then fr_fail
   else if reset_flag && version_flag then fr_fail
   else
     let has_id := negb (Z.land public_flags PACKET_PUBLIC_FLAGS_8BYTE_CONNECTION_ID =? 0) in
     connection_id <<~ (if has_id then fr_lift ReadConnectionId else fr_ret (last_serialized_connection_id_ f)) ;;
     let packet_number_length := ReadSequenceNumberLength (Z.shiftr public_flags kPublicHeaderSequenceNumberShift) in
     versions <<~ (if version_flag && (match perspective_ f with IS_SERVER => true | IS_CLIENT => false end) then
                     version_tag <<~ fr_lift ReadTag ;;
                     fun f r =>
                       let f := with_version_tag f version_tag in
                       let version := QuicTagToQuicVersion version_tag in
                       if (version =? quic_version_ f) && (public_flags >? PACKET_PUBLIC_FLAGS_MAX)
                       then (None, f, r) else (Some [version], f, r)
                   else fr_ret []) ;;
     nonce <<~ (if negb (Z.land public_flags PACKET_PUBLIC_FLAGS_NONCE =? 0)
                   && (Z.land public_flags PACKET_PUBLIC_FLAGS_VERSION =? 0)
                   && (Z.land public_flags PACKET_PUBLIC_FLAGS_RST =? 0)
                   && (match perspective_ f with IS_CLIENT => true | IS_SERVER => false end) then
                  bs <<~ fr_lift (ReadBytes kDiversificationNonceSize) ;;
                  fun f r => (Some (Some bs), with_nonce f bs, r)
                else fr_ret None) ;;
     fr_ret (MkPublicHeader connection_id (if has_id then 8 else 0) reset_flag version_flag packet_number_length versions nonce))
  f.

Definition ProcessAndCalculatePacketNumber (packet_number_length : nat) (base_packet_number : Z) : Rd Z :=
  wire_packet_number <~ ReadBytesToUInt64 packet_number_length 0 ;;
  rd_ret (CalculatePacketNumberFromWire packet_number_length base_packet_number wire_packet_number).

(** The flags of a stream frame's type byte: the lengths of stream ID and
    offset, whether the data length is given, and the fin bit. *)
Definition stream_flags_decode (quic_version frame_type : Z) : Z * Z * bool * bool :=
  if quic_version <? 40 then
    let stream_flags := Z.land frame_type (u8 (Z.lnot kQuicFrameTypeStreamMask_Pre40)) in
    let stream_id_length := Z.land stream_flags kQuicStreamIDLengthMask_Pre40 + 1 in
    let stream_flags := Z.shiftr stream_flags kQuicStreamIdShift_Pre40 in
    let offset_length := Z.land stream_flags kQuicStreamOffsetMask_Pre40 in
    let offset_length := if offset_length >? 0 then offset_length + 1 else offset_length in
    let stream_flags := Z.shiftr stream_flags kQuicStreamOffsetShift_Pre40 in
    let has_data_length := Z.land stream_flags kQuicStreamDataLengthMask_Pre40 =? kQuicStreamDataLengthMask_Pre40 in
    let stream_flags := Z.shiftr stream_flags kQuicStreamDataLengthShift_Pre40 in
    (stream_id_length, offset_length, has_data_length,
     Z.land stream_flags kQuicStreamFinMask_Pre40 =? kQuicStreamFinShift_Pre40)
  else
    let stream_flags := Z.land frame_type (u8 (Z.lnot kQuicFrameTypeStreamMask)) in
    let stream_id_length := 1 + ExtractBits stream_flags kQuicStreamIDLengthNumBits kQuicStreamIDLengthOffsetShift in
    let offset_length := Z.shiftl 1 (ExtractBits stream_flags kQuicStreamOffsetNumBits kQuicStreamOffsetOffsetShift) in
    let offset_length := if offset_length =? 1 then 0 else offset_length in
    (stream_id_length, offset_length,
     negb (ExtractBits stream_flags kQuicStreamDataLengthNumBits kQuicStreamDataLengthOffsetShift =? 0),
     negb (ExtractBits stream_flags kQuicStreamFinNumBits kQuicStreamFinOffsetShift =? 0)).

Definition ProcessStreamFrame (quic_version frame_type : Z) : Rd QuicStreamFrame :=
  let '(stream_id_length, offset_length, has_data_length, fin) := stream_flags_decode quic_version frame_type in
  data_len <~ (if has_data_length && (quic_version >? 39) then ReadUInt16 else rd_ret 0) ;;
  stream_id <~ ReadBytesToUInt64 (Z.to_nat stream_id_length) 0 ;;
  offset <~ ReadBytesToUInt64 (Z.to_nat offset_length) 0 ;;
  data <~ (if has_data_length then
             if quic_version >? 39 then ReadStringPiece (Z.to_nat data_len) else ReadStringPiece16
           else fun r => ReadStringPiece (BytesRemaining r) r) ;;
  rd_ret (MkStreamFrame (u32 stream_id) fin (Z.to_nat (u16 (Z.of_nat (length data)))) data offset).

(** [creation_time_ + last_timestamp_] of each further packet. *)
Fixpoint ProcessMoreTimestamps (n : nat) (largest : Z) (times : list (Z * Z)) : Fr (list (Z * Z)) :=
  match n with
  | O => fr_ret times
  | S n =>
      delta_from_largest_observed <<~ fr_lift ReadUInt8 ;;
      let seq_num := largest -64 delta_from_largest_observed in
      incremental_time_delta_us <<~ fr_lift ReadUFloat16 ;;
      fun f =>
        let f := with_last_timestamp f
                   (Delta_add (last_timestamp_ f) (Delta_FromMicroseconds (i64 incremental_time_delta_us))) in
        ProcessMoreTimestamps n largest (times ++ [(seq_num, QuicTime_add (creation_time_ f) (last_timestamp_ f))]) f
  end.

Definition ProcessTimestampsInAckFrame (num_received_packets largest : Z) : Fr (list (Z * Z)) :=
  if num_received_packets >? 0 then
    delta_from_largest_observed <<~ fr_lift ReadUInt8 ;;
    let seq_num := largest -64 delta_from_largest_observed in
    time_delta_us <<~ fr_lift ReadUInt32 ;;
    fun f =>
      let f := with_last_timestamp f (CalculateTimestampFromWire (last_timestamp_ f) time_delta_us) in
      ProcessMoreTimestamps (Z.to_nat (num_received_packets - 1)) largest
        [(seq_num, QuicTime_add (creation_time_ f) (last_timestamp_ f))] f
  else fr_ret [].

Definition rd_option {A} (x : option A) : Rd A := match x with Some x => rd_ret x | None => rd_fail end.

Fixpoint ProcessAckBlocks (n : nat) (ack_block_length : nat) (first_received : Z) (q : PacketNumberQueue)
    : Rd PacketNumberQueue :=
  match n with
  | O => rd_ret q
  | S n =>
      gap <~ ReadUInt8 ;;
      current_block_length <~ ReadBytesToUInt64 ack_block_length 0 ;;
      let first_received := first_received -64 (gap +64 current_block_length) in
      q <~ (if current_block_length >? 0
            then rd_option (PacketNumberQueue_AddRange q first_received (first_received +64 current_block_length))
            else rd_ret q) ;;
      ProcessAckBlocks n ack_block_length first_received q
  end.

Definition ProcessAckFrame (frame_type : Z) : Fr AckFrame_t := fun f =>
  let quic_version := quic_version_ f in
  let has_ack_blocks := negb (ExtractBits frame_type kBooleanNumBits
    (if quic_version <? 40 then kQuicHasMultipleAckBlocksOffset_Pre40 else kQuicHasMultipleAckBlocksOffset) =? 0) in
  let ack_block_length := ReadAckPacketNumberLength quic_version
    (ExtractBits frame_type kQuicSequenceNumberLengthNumBits kActBlockLengthOffset) in
  let largest_acked_length := ReadAckPacketNumberLength quic_version
    (ExtractBits frame_type kQuicSequenceNumberLengthNumBits kLargestAckedOffset) in
  (num_ack_blocks <<~ fr_lift (if (quic_version >? 39) && has_ack_blocks then ReadUInt8 else rd_ret 0) ;;
   num_received_packets <<~ fr_lift (if quic_version >? 39 then ReadUInt8 else rd_ret 0) ;;
   largest <<~ fr_lift (ReadBytesToUInt64 largest_acked_length 0) ;;
   ack_delay_time_us <<~ fr_lift ReadUFloat16 ;;
   let delay := if ack_delay_time_us =? kUFloat16MaxValue then Delta_Infinite
                else Delta_FromMicroseconds (i64 ack_delay_time_us) in
   num_ack_blocks <<~ fr_lift (if (quic_version <=? 39) && has_ack_blocks then ReadUInt8 else rd_ret num_ack_blocks) ;;
   first_block_length <<~ fr_lift (ReadBytesToUInt64 ack_block_length 0) ;;
   let first_received := (largest +64 1) -64 first_block_length in
   q <<~ fr_lift (rd_option (PacketNumberQueue_AddRange (PacketNumberQueue_new frames_deque2) first_received (largest +64 1))) ;;
   q <<~ fr_lift (ProcessAckBlocks (Z.to_nat num_ack_blocks) ack_block_length first_received q) ;;
   num_received_packets <<~ fr_lift (if quic_version <=? 39 then ReadUInt8 else rd_ret num_received_packets) ;;
   times <<~ ProcessTimestampsInAckFrame num_received_packets largest ;;
   fr_ret (MkQuicAckFrame largest delay times q)) f.

Definition ProcessStopWaitingFrame (header : QuicPacketHeader) : Rd Z :=
  least_unacked_delta <~ ReadBytesToUInt64 (ph_packet_number_length (public_header header)) 0 ;;
  if packet_number header <? least_unacked_delta then rd_fail
  else rd_ret (packet_number header -64 least_unacked_delta).

Definition ProcessRstStreamFrame (quic_version : Z) : Rd QuicRstStreamFrame :=
  stream_id <~ ReadUInt32 ;;
  byte_offset <~ (if quic_version <=? 39 then ReadUInt64 else rd_ret 0) ;;
  error_code <~ ReadUInt32 ;;
  let error_code := if error_code >=? QUIC_STREAM_LAST_ERROR then QUIC_STREAM_LAST_ERROR else error_code in
  byte_offset <~ (if quic_version >? 39 then ReadUInt64 else rd_ret byte_offset) ;;
  rd_ret (MkRstStreamFrame stream_id error_code byte_offset).

Definition ProcessConnectionCloseFrame : Rd QuicConnectionCloseFrame :=
  error_code <~ ReadUInt32 ;;
  let error_code := if error_code >=? QUIC_LAST_ERROR then QUIC_LAST_ERROR else error_code in
  error_details <~ ReadStringPiece16 ;;
  rd_ret (MkConnectionCloseFrame error_code error_details).

Definition ProcessGoAwayFrame : Rd QuicGoAwayFrame :=
  error_code <~ ReadUInt32 ;;
  let error_code := if error_code >=? QUIC_LAST_ERROR then QUIC_LAST_ERROR else error_code in
  stream_id <~ ReadUInt32 ;;
  reason_phrase <~ ReadStringPiece16 ;;
  rd_ret (MkGoAwayFrame error_code stream_id reason_phrase).

Definition ProcessWindowUpdateFrame : Rd QuicWindowUpdateFrame :=
  stream_id <~ ReadUInt32 ;;
  byte_offset <~ ReadUInt64 ;;
  rd_ret (MkWindowUpdateFrame stream_id byte_offset).

Definition ProcessBlockedFrame : Rd Z := ReadUInt32.

(** The loop over zero bytes; [n] is the number of bytes left. *)
Fixpoint ProcessPadding_loop (n : nat) (num_padding_bytes : Z) (r : QuicDataReader) : Z * QuicDataReader :=
  match n with
  | O => (num_padding_bytes, r)
  | S n =>
      if negb (IsDoneReading r) && (PeekByte r =? 0)
      then ProcessPadding_loop n (num_padding_bytes + 1) (snd (ReadBytes 1 r))
      else (num_padding_bytes, r)
  end.

Definition ProcessPaddingFrame (quic_version : Z) : Rd Z := fun r =>
  if quic_version <=? 37
  then (Some (i32 (Z.of_nat (BytesRemaining r) + 1)), snd (ReadRemainingPayload r))
  else let '(n, r) := ProcessPadding_loop (BytesRemaining r) 1 r in (Some n, r).

(** ** Dispatch *)

(** What one round of the loop reads: a frame or the error it raises. *)
Definition raise {A B} (code : Z) (mk : A -> B) (m : Fr A) (f : QuicFramer) (r : QuicDataReader)
    : (Z + B) * QuicFramer * QuicDataReader :=
  let '(x, f, r) := m f r in (match x with Some x => inr (mk x) | None => inl code end, f, r).

Definition ProcessFrameOfType (header : QuicPacketHeader) (frame_type : Z) (f : QuicFramer) (r : QuicDataReader)
    : (Z + QuicFrame) * QuicFramer * QuicDataReader :=
  let v := quic_version_ f in
  if negb (Z.land frame_type kQuicFrameTypeSpecialMask =? 0) then
    if ((v <? 40) && negb (Z.land frame_type kQuicFrameTypeStreamMask_Pre40 =? 0))
       || ((v >=? 40) && (Z.land frame_type kQuicFrameTypeStreamMask =? kQuicFrameTypeStreamMask))
    then raise QUIC_INVALID_STREAM_DATA StreamFrame (fr_lift (ProcessStreamFrame v frame_type)) f r
    else if ((v <? 40) && negb (Z.land frame_type kQuicFrameTypeAckMask_Pre40 =? 0))
       || ((v >=? 40) && (Z.land frame_type kQuicFrameTypeSpecialMask =? kQuicFrameTypeAckMask))
    then raise QUIC_INVALID_ACK_DATA AckFrame (ProcessAckFrame frame_type) f r
    else (inl QUIC_INVALID_FRAME_DATA, f, r)
  else if frame_type =? PADDING_FRAME then
    raise QUIC_INVALID_FRAME_DATA PaddingFrame (fr_lift (ProcessPaddingFrame v)) f r
  else if frame_type =? RST_STREAM_FRAME then
    raise QUIC_INVALID_RST_STREAM_DATA RstStreamFrame (fr_lift (ProcessRstStreamFrame v)) f r
  else if frame_type =? CONNECTION_CLOSE_FRAME then
    raise QUIC_INVALID_CONNECTION_CLOSE_DATA ConnectionCloseFrame (fr_lift ProcessConnectionCloseFrame) f r
  else if frame_type =? GOAWAY_FRAME then
    raise QUIC_INVALID_GOAWAY_DATA GoAwayFrame (fr_lift ProcessGoAwayFrame) f r
  else if frame_type =? WINDOW_UPDATE_FRAME then
    raise QUIC_INVALID_WINDOW_UPDATE_DATA WindowUpdateFrame (fr_lift ProcessWindowUpdateFrame) f r
  else if frame_type =? BLOCKED_FRAME then
    raise QUIC_INVALID_BLOCKED_DATA BlockedFrame (fr_lift ProcessBlockedFrame) f r
  else if frame_type =? STOP_WAITING_FRAME then
    raise QUIC_INVALID_STOP_WAITING_DATA StopWaitingFrame (fr_lift (ProcessStopWaitingFrame header)) f r
  else if frame_type =? PING_FRAME then (inr PingFrame, f, r)
  else (inl QUIC_INVALID_FRAME_DATA, f, r).

Definition ProcessFrame (header : QuicPacketHeader) (f : QuicFramer) (r : QuicDataReader)
    : (Z + QuicFrame) * QuicFramer * QuicDataReader :=
  let '(frame_type, r) := ReadUInt8 r in
  match frame_type with
  | None => (inl QUIC_INVALID_FRAME_DATA, f, r)
  | Some frame_type => ProcessFrameOfType header frame_type f r
  end.

(** What the framer asks of its visitor while it reads frames: one call per
    frame, which may stop the processing, and the report of an error. *)
Class QuicFramerVisitor (V : Type) := {
  OnFrame : QuicFrame -> V -> bool * V;
  OnError : Z -> V -> V }.

Context {V : Type} `{QuicFramerVisitor V}.

Definition RaiseError (error : Z) (f : QuicFramer) (v : V) : QuicFramer * V := (with_error f error, OnError error v).

(** The loop of [ProcessFrameData]; [None] if the fuel does not suffice. *)
Fixpoint ProcessFrameData_loop (fuel : nat) (header : QuicPacketHeader) (f : QuicFramer) (r : QuicDataReader) (v : V)
    : option (bool * QuicFramer * V) :=
  if IsDoneReading r then Some (true, f, v)
  else match fuel with
       | O => None
       | S fuel =>
           let '(x, f, r) := ProcessFrame header f r in
           match x with
           | inl error => let '(f, v) := RaiseError error f v in Some (false, f, v)
           | inr frame =>
               let '(go_on, v) := OnFrame frame v in
               if go_on : bool then ProcessFrameData_loop fuel header f r v else Some (true, f, v)
           end
       end.

(** Every frame takes at least a byte. *)
Definition ProcessFrameData (header : QuicPacketHeader) (f : QuicFramer) (r : QuicDataReader) (v : V)
    : option (bool * QuicFramer * V) :=
  if IsDoneReading r then let '(f, v) := RaiseError QUIC_MISSING_PAYLOAD f v in Some (false, f, v)
  else ProcessFrameData_loop (BytesRemaining r) header f r v.
End Process.
