(* ===== verification/FramerFacts.v ===== *)
(** * Packet numbers, headers and frames: what is written is what is read

    A [codec] pairs a writing and a reading operation: the first writes a fixed
    number of bytes and the second reads them back.  Codecs compose like the
    operations do, so each frame's round trip follows the shape of its code. *)

From S2P Require Import Prelude Interval IntervalSet PacketNumberQueue PacketNumberQueueFacts PacketSet.
From S2P Require Import QuicTime ReceivedPacketManager QuicData Framer.
#[local] Open Scope Z_scope.
#[local] Open Scope wire_scope.

(** ** Codecs *)

Section Codec.
Context `{host : HostOrder}.

Definition any (_ : list Z) : Prop := True.

(** [wr] writes [n] bytes, from which [rd] reads [x] whatever follows, as long
    as it satisfies [P]. *)
Definition codec {A} (P : list Z -> Prop) (e : Endianness) (n : nat) (wr : Wr) (rd : Rd A) (x : A) : Prop :=
  exists bs, length bs = n /\ appends e wr bs /\ forall post, P post -> parses e post rd bs x.

Lemma codec_weaken {A} (P Q : list Z -> Prop) e n wr (rd : Rd A) x :
  (forall post, Q post -> P post) -> codec P e n wr rd x -> codec Q e n wr rd x.
Proof. intros HPQ (bs & ? & ? & Hr). exists bs. split_and!; auto. Qed.

Lemma codec_true {A} P e (x : A) : codec P e 0 wr_true (rd_ret x) x.
Proof. exists []. split_and!; [done|apply appends_true|intros; apply parses_ret]. Qed.

Lemma codec_bind {A B} P e n k wr wr' (m : Rd A) (f : A -> Rd B) x y :
  codec any e n wr m x -> codec P e k wr' (f x) y -> codec P e (n + k) (wr >&> wr') (rd_bind m f) y.
Proof.
  intros (bs & <- & Ha & Hp) (bs' & <- & Ha' & Hp'). exists (bs ++ bs'). split_and!; [apply length_app|by apply appends_and|].
  intros post HP. eapply parses_bind; [by apply Hp|by apply Hp'].
Qed.

(** The last operation of a sequence, whose result is only transformed. *)
Lemma codec_last {A B} P e n wr (m : Rd A) (f : A -> Rd B) x y :
  codec P e n wr m x -> f x = rd_ret y -> codec P e n wr (rd_bind m f) y.
Proof.
  intros (bs & <- & Ha & Hp) Hf. exists bs. split_and!; [done..|]. intros post HP.
  rewrite <- (app_nil_r bs). eapply parses_bind; [by apply Hp|]. rewrite Hf. apply parses_ret.
Qed.

(** A reading operation that succeeds without reading. *)
Lemma codec_skip {A B} P e n wr (m : Rd A) (f : A -> Rd B) x y :
  m = rd_ret x -> codec P e n wr (f x) y -> codec P e n wr (rd_bind m f) y.
Proof.
  intros -> (bs & <- & Ha & Hp). exists bs. split_and!; [done..|]. intros post HP. rewrite <- (app_nil_l bs).
  eapply parses_bind; [apply parses_ret|by apply Hp].
Qed.

Lemma codec_nothing {A} P e n wr wr' (m : Rd A) x :
  wr = wr_true -> codec P e n wr' m x -> codec P e n (wr >&> wr') m x.
Proof.
  intros -> (bs & Hn & Ha & Hp). exists bs. split_and!; [done|exact (appends_and e _ _ [] bs (appends_true e) Ha)|done].
Qed.

Lemma codec_u8 e v : fits 1 v -> codec any e 1 (WriteUInt8 v) ReadUInt8 v.
Proof.
  intros Hv. exists (mem_bytes 1 v). split_and!; [exact (wire_bytes_length HOST_BYTE_ORDER 1 v)|apply appends_u8|].
  intros; by apply parses_u8.
Qed.
Lemma codec_u16 e v : fits 2 v -> codec any e 2 (WriteUInt16 v) ReadUInt16 v.
Proof. intros Hv. exists (wire_bytes e 2 v). split_and!; [apply wire_bytes_length|apply appends_u16|intros; by apply parses_u16]. Qed.
Lemma codec_u32 e v : fits 4 v -> codec any e 4 (WriteUInt32 v) ReadUInt32 v.
Proof. intros Hv. exists (wire_bytes e 4 v). split_and!; [apply wire_bytes_length|apply appends_u32|intros; by apply parses_u32]. Qed.
Lemma codec_u64 e v : fits 8 v -> codec any e 8 (WriteUInt64 v) ReadUInt64 v.
Proof. intros Hv. exists (wire_bytes e 8 v). split_and!; [apply wire_bytes_length|apply appends_u64|intros; by apply parses_u64]. Qed.
Lemma codec_partial e n v :
  partial_ok e -> (n <= 8)%nat -> fits n v -> codec any e n (WriteBytesToUInt64 n v) (ReadBytesToUInt64 n 0) v.
Proof.
  intros Hp Hn Hv. exists (wire_bytes e n v). split_and!; [apply wire_bytes_length|by apply appends_partial|].
  intros; by apply parses_partial.
Qed.
Lemma codec_ufloat16 e v :
  0 <= v -> codec any e 2 (WriteUFloat16 v) ReadUFloat16 (ufloat16_decode (ufloat16_encode v)).
Proof.
  intros Hv. eexists. split_and!; [|apply appends_ufloat16|intros; by apply parses_ufloat16]. apply wire_bytes_length.
Qed.
Lemma codec_string16 e s :
  Z.of_nat (length s) <= 65535 -> codec any e (2 + length s) (WriteStringPiece16 s) ReadStringPiece16 s.
Proof.
  intros Hs. eexists. split_and!; [|by apply appends_string16|intros; by apply parses_string16].
  by rewrite length_app, wire_bytes_length.
Qed.
Lemma codec_string e s : codec any e (length s) (WriteBytes s) (ReadStringPiece (length s)) s.
Proof. exists s. split_and!; [done|apply appends_bytes|intros; apply parses_string]. Qed.

Lemma codec_packet_number e n v :
  partial_ok e -> In n [1; 2; 4; 6; 8]%nat -> fits n v -> codec any e n (AppendPacketNumber n v) (ReadBytesToUInt64 n 0) v.
Proof.
  intros Hp Hn Hv. assert (AppendPacketNumber n v = WriteBytesToUInt64 n v /\ (n <= 8)%nat) as [-> Hle].
  { simpl in Hn. destruct Hn as [<-|[<-|[<-|[<-|[<-|[]]]]]]; (split; [done|lia]). }
  by apply codec_partial.
Qed.
End Codec.

(** ** Sizes *)

Lemma fits_pow n v : 0 <= v < 2 ^ (8 * Z.of_nat n) -> fits n v.
Proof. intros Hv. unfold fits. rewrite Z.pow_mul_r in Hv by lia. exact Hv. Qed.

Lemma shiftr_zero v n : 0 <= v -> 0 <= n -> Z.shiftr v n = 0 -> v < 2 ^ n.
Proof.
  intros Hv Hn H. rewrite Z.shiftr_div_pow2 in H by done. pose proof (Z.pow_pos_nonneg 2 n).
  apply Z.div_small_iff in H; lia.
Qed.

(** Both size loops stop at the first size that holds the value. *)
Lemma size_loop_fits (loop : list nat -> Z -> nat) i k v :
  (forall i l x, loop (i :: l) x = if Z.shiftr x 8 =? 0 then i else loop l (Z.shiftr x 8)) ->
  0 <= v < 2 ^ (8 * Z.of_nat (S k)) ->
  let n := loop (seq i (S k)) v in (i <= n <= i + k)%nat /\ v < 2 ^ (8 * Z.of_nat (S (n - i))).
Proof.
  intros Hloop. revert i v. induction k as [|k IH]; intros i v Hv; cbv zeta; change (seq i (S ?k)) with (i :: seq (S i) k);
    rewrite Hloop; destruct (Z.eqb_spec (Z.shiftr v 8) 0) as [E|E].
  - split; [lia|]. replace (S (i - i)) with 1%nat by lia. by apply shiftr_zero in E; [|lia..].
  - exfalso. apply E. rewrite Z.shiftr_div_pow2 by lia. apply Z.div_small. exact Hv.
  - split; [lia|]. replace (S (i - i)) with 1%nat by lia. by apply shiftr_zero in E; [|lia..].
  - specialize (IH (S i) (Z.shiftr v 8)). cbv zeta in IH. set (n := loop (seq (S i) (S k)) (Z.shiftr v 8)) in *.
    assert (0 <= Z.shiftr v 8 < 2 ^ (8 * Z.of_nat (S k))) as Hr.
    { rewrite Z.shiftr_div_pow2 by lia. split; [apply Z.div_pos; lia|]. apply Z.div_lt_upper_bound; [lia|].
      rewrite <- Z.pow_add_r by lia. replace (8 + 8 * Z.of_nat (S k)) with (8 * Z.of_nat (S (S k))) by lia. lia. }
    destruct (IH Hr) as [Hn Hb]. split; [lia|].
    rewrite Z.shiftr_div_pow2 in Hb by lia. replace (S (n - i)) with (S (S (n - S i))) by lia.
    replace (8 * Z.of_nat (S (S (n - S i)))) with (8 + 8 * Z.of_nat (S (n - S i))) by lia.
    rewrite Z.pow_add_r by lia. pose proof (Z.mul_succ_div_gt v (2 ^ 8)). nia.
Qed.

Lemma GetStreamIdSize_fits id :
  0 <= id < 2 ^ 32 -> (1 <= GetStreamIdSize id <= 4)%nat /\ fits (GetStreamIdSize id) id.
Proof.
  intros Hid. destruct (size_loop_fits GetStreamIdSize_loop 1 3 id) as [Hn Hb]; [done|done|].
  change (GetStreamIdSize_loop (seq 1 4) id) with (GetStreamIdSize id) in *. split; [lia|]. apply fits_pow.
  replace (S (GetStreamIdSize id - 1)) with (GetStreamIdSize id) in Hb by lia. lia.
Qed.

Definition offset_sizes (version : Z) : list nat :=
  if version <? 40 then [0; 2; 3; 4; 5; 6; 7; 8]%nat else [0; 2; 4; 8]%nat.

Lemma GetStreamOffsetSize_fits v offset :
  is_u64 offset -> In (GetStreamOffsetSize v offset) (offset_sizes v) /\ fits (GetStreamOffsetSize v offset) offset.
Proof.
  intros Ho. unfold GetStreamOffsetSize, offset_sizes. destruct (v <? 40).
  - destruct (Z.eqb_spec offset 0) as [->|Hne]; [split; [by left|unfold fits; lia]|].
    assert (0 <= Z.shiftr offset 8 < 2 ^ (8 * Z.of_nat 7)) as Hr.
    { rewrite Z.shiftr_div_pow2 by lia. unfold is_u64 in Ho. split; [apply Z.div_pos; lia|]. apply Z.div_lt_upper_bound; lia. }
    destruct (size_loop_fits GetStreamOffsetSize_loop 2 6 (Z.shiftr offset 8) ltac:(done) Hr) as [Hn Hb].
    change (seq 2 7) with [2; 3; 4; 5; 6; 7; 8]%nat in *.
    set (n := GetStreamOffsetSize_loop _ _) in *. split.
    + assert (n = 2 \/ n = 3 \/ n = 4 \/ n = 5 \/ n = 6 \/ n = 7 \/ n = 8)%nat as Hc by lia. simpl. intuition.
    + apply fits_pow. unfold is_u64 in Ho. split; [lia|]. rewrite Z.shiftr_div_pow2 in Hb by lia.
      replace (S (n - 2)) with (n - 1)%nat in Hb by lia.
      replace (8 * Z.of_nat n) with (8 + 8 * Z.of_nat (n - 1)) by lia. rewrite Z.pow_add_r by lia.
      pose proof (Z.mul_succ_div_gt offset (2 ^ 8)). nia.
  - unfold is_u64 in Ho. repeat match goal with |- context [?a =? 0] => destruct (Z.eqb_spec a 0) as [E|?] end;
      try (apply shiftr_zero in E; [|lia..]); (split; [simpl; tauto|apply fits_pow; lia]).
Qed.

(** Packet numbers of versions before 40 have at most six bytes. *)
Definition pn_max (version : Z) : Z := if version <=? 39 then 2 ^ 48 else 2 ^ 64.

Lemma GetMinPacketNumberLength_fits v pn :
  0 <= pn < pn_max v ->
  let n := GetMinPacketNumberLength v pn in In n (if v <=? 39 then [1; 2; 4; 6]%nat else [1; 2; 4; 8]%nat) /\ fits n pn.
Proof.
  intros Hpn. unfold GetMinPacketNumberLength, pn_max in *. cbv zeta.
  change (Z.shiftl 1 8) with (2 ^ 8). change (Z.shiftl 1 16) with (2 ^ 16). change (Z.shiftl 1 32) with (2 ^ 32).
  repeat match goal with |- context [pn <? ?b] => destruct (Z.ltb_spec pn b) end;
    destruct (v <=? 39); (split; [simpl; tauto|apply fits_pow; simpl; lia]).
Qed.

Lemma ReadAckPacketNumberLength_flags v n :
  In n (if v <=? 39 then [1; 2; 4; 6]%nat else [1; 2; 4; 8]%nat) ->
  ReadAckPacketNumberLength v (GetPacketNumberFlags n) = n.
Proof.
  unfold ReadAckPacketNumberLength. destruct (v <=? 39); simpl; intros [<-|[<-|[<-|[<-|[]]]]]; done.
Qed.

(** ** Frames other than acknowledgements *)

Section Frames.
Context `{host : HostOrder}.

(** Error codes are values of their enumeration. *)
Lemma clamp_code x last : x <= last -> (if x >=? last then last else x) = x.
Proof. intros Hx. destruct (Z.geb_spec x last); lia. Qed.

Lemma u32_fits x : fits 4 x -> u32 x = x.
Proof. intros Hx. apply wrapU_id. exact Hx. Qed.

Definition rst_ok (f : QuicRstStreamFrame) : Prop :=
  fits 4 (rf_stream_id f) /\ 0 <= rf_error_code f <= QUIC_STREAM_LAST_ERROR /\ fits 8 (rf_byte_offset f).

Lemma code_fits x last : 0 <= x <= last -> last <= 98 -> fits 4 x.
Proof. intros. unfold fits. lia. Qed.

Lemma codec_rst e v f : rst_ok f -> codec any e 16 (AppendRstStreamFrame v f) (ProcessRstStreamFrame v) f.
Proof.
  intros (Hi & Hc & Ho). unfold AppendRstStreamFrame, ProcessRstStreamFrame. pose proof (code_fits _ _ Hc ltac:(done)) as Hf.
  rewrite (u32_fits _ Hf). apply (codec_bind any e 4 12 _ _ _ _ (rf_stream_id f)); [by apply codec_u32|].
  destruct (Z.leb_spec v 39), (Z.gtb_spec v 39); try lia.
  - apply (codec_bind any e 8 4 _ _ _ _ (rf_byte_offset f)); [by apply codec_u64|].
    apply (codec_bind any e 4 0 _ _ _ _ (rf_error_code f)); [by apply codec_u32|].
    eapply codec_skip; [done|]. rewrite clamp_code by lia. destruct f. apply codec_true.
  - apply codec_nothing; [done|]. eapply codec_skip; [done|].
    apply (codec_bind any e 4 8 _ _ _ _ (rf_error_code f)); [by apply codec_u32|].
    eapply codec_last; [by apply codec_u64|]. rewrite clamp_code by lia. by destruct f.
Qed.

Definition close_ok (f : QuicConnectionCloseFrame) : Prop :=
  0 <= cf_error_code f <= QUIC_LAST_ERROR /\ Z.of_nat (length (cf_error_details f)) <= 65535.

Lemma codec_close e f :
  close_ok f -> codec any e (6 + length (cf_error_details f)) (AppendConnectionCloseFrame f) ProcessConnectionCloseFrame f.
Proof.
  intros [Hc Hd]. unfold AppendConnectionCloseFrame. pose proof (code_fits _ _ Hc ltac:(done)) as Hf. rewrite (u32_fits _ Hf).
  apply (codec_bind any e 4 (2 + length (cf_error_details f)) _ _ _ _ (cf_error_code f)); [by apply codec_u32|].
  eapply codec_last; [by apply codec_string16|]. rewrite clamp_code by lia. by destruct f.
Qed.

Definition goaway_ok (f : QuicGoAwayFrame) : Prop :=
  0 <= gf_error_code f <= QUIC_LAST_ERROR /\ fits 4 (gf_last_good_stream_id f) /\
  Z.of_nat (length (gf_reason_phrase f)) <= 65535.

Lemma codec_goaway e f :
  goaway_ok f -> codec any e (10 + length (gf_reason_phrase f)) (AppendGoAwayFrame f) ProcessGoAwayFrame f.
Proof.
  intros (Hc & Hi & Hd). unfold AppendGoAwayFrame. pose proof (code_fits _ _ Hc ltac:(done)) as Hf.
  rewrite (u32_fits _ Hf), (u32_fits _ Hi).
  apply (codec_bind any e 4 (4 + (2 + length (gf_reason_phrase f))) _ _ _ _ (gf_error_code f)); [by apply codec_u32|].
  apply (codec_bind any e 4 (2 + length (gf_reason_phrase f)) _ _ _ _ (gf_last_good_stream_id f)); [by apply codec_u32|].
  eapply codec_last; [by apply codec_string16|]. rewrite clamp_code by lia. by destruct f.
Qed.

Definition window_ok (f : QuicWindowUpdateFrame) : Prop := fits 4 (wf_stream_id f) /\ fits 8 (wf_byte_offset f).

Lemma codec_window e f : window_ok f -> codec any e 12 (AppendWindowUpdateFrame f) ProcessWindowUpdateFrame f.
Proof.
  intros [Hi Ho]. unfold AppendWindowUpdateFrame. rewrite (u32_fits _ Hi).
  apply (codec_bind any e 4 8 _ _ _ _ (wf_stream_id f)); [by apply codec_u32|].
  eapply codec_last; [by apply codec_u64|]. by destruct f.
Qed.

Lemma codec_blocked e id : fits 4 id -> codec any e 4 (AppendBlockedFrame id) ProcessBlockedFrame id.
Proof. intros Hi. unfold AppendBlockedFrame. rewrite (u32_fits _ Hi). by apply codec_u32. Qed.

(** The least unacked packet is at most the packet's own number, and their
    distance fits the packet number length (which the code checks). *)
Definition stop_waiting_ok (header : QuicPacketHeader) (least_unacked : Z) : Prop :=
  let n := ph_packet_number_length (public_header header) in
  In n [1; 2; 4; 6]%nat /\ 0 <= least_unacked <= packet_number header /\ is_u64 (packet_number header) /\
  packet_number header - least_unacked < 256 ^ Z.of_nat n.

Lemma codec_stop_waiting e header lu :
  partial_ok e -> stop_waiting_ok header lu ->
  codec any e (ph_packet_number_length (public_header header)) (AppendStopWaitingFrame header lu)
    (ProcessStopWaitingFrame header) lu.
Proof.
  intros Hp (Hn & Hl & Hh & Hd). unfold AppendStopWaitingFrame, ProcessStopWaitingFrame.
  set (n := ph_packet_number_length _) in *. set (pn := packet_number header) in *. unfold is_u64 in Hh.
  rewrite (u64_id (pn - lu)) by (unfold is_u64; lia).
  assert (Z.shiftr (pn - lu) (Z.of_nat n * 8) = 0) as ->.
  { rewrite Z.shiftr_div_pow2 by lia. apply Z.div_small. rewrite Z.mul_comm, Z.pow_mul_r by lia. change (2 ^ 8) with 256. lia. }
  cbn [Z.gtb Z.compare]. eapply codec_last.
  - apply codec_packet_number; [done| |unfold fits; lia]. simpl in *. tauto.
  - destruct (Z.ltb_spec pn (pn - lu)); [lia|]. f_equal. rewrite u64_id; unfold is_u64; lia.
Qed.

(** *** Stream frames *)

Lemma stream_type_byte_spec v f no_length :
  fits 4 (sf_stream_id f) -> is_u64 (sf_offset f) ->
  let t := stream_type_byte v f no_length in
  stream_flags_decode v t = (Z.of_nat (GetStreamIdSize (sf_stream_id f)), Z.of_nat (GetStreamOffsetSize v (sf_offset f)),
                             negb no_length, sf_fin f) /\
  fits 1 t /\ Z.land t kQuicFrameTypeSpecialMask <> 0 /\
  (if v <? 40 then Z.land t kQuicFrameTypeStreamMask_Pre40 <> 0
   else Z.land t kQuicFrameTypeStreamMask = kQuicFrameTypeStreamMask).
Proof.
  intros Hi Ho. destruct (GetStreamIdSize_fits (sf_stream_id f) Hi) as [Hn _].
  destruct (GetStreamOffsetSize_fits v (sf_offset f) Ho) as [Hk _].
  unfold stream_type_byte, stream_flags_decode. set (n := GetStreamIdSize _) in *. set (k := GetStreamOffsetSize _ _) in *.
  clearbody n k. unfold offset_sizes in Hk. assert (n = 1 \/ n = 2 \/ n = 3 \/ n = 4)%nat as Hn' by lia. clear Hn.
  destruct (v <? 40); simpl in Hk;
    repeat match type of Hk with _ \/ _ => destruct Hk as [<-|Hk] end; try done;
    destruct Hn' as [ -> | [ -> | [ -> | -> ] ] ]; destruct (sf_fin f), no_length; (split; [reflexivity|]);
    (split; [unfold fits; vm_compute; split; discriminate || reflexivity|]); split; vm_compute; done.
Qed.

(** The data of a stream frame, from its buffer or from the producer. *)
Definition stream_data (e : Endianness) (producer : option (Z -> Z -> nat -> Wr)) (f : QuicStreamFrame) (data : list Z) : Prop :=
  length data = sf_data_length f /\ (Z.of_nat (sf_data_length f) <= 65535) /\
  match producer with
  | None => sf_data_buffer f = data
  | Some WriteStreamData =>
      (0 < sf_data_length f)%nat -> appends e (WriteStreamData (sf_stream_id f) (sf_offset f) (sf_data_length f)) data
  end.

Lemma parses_rest e data : parses e [] (fun r => ReadStringPiece (BytesRemaining r) r) data data.
Proof.
  intros pre. assert (BytesRemaining (MkReader (pre ++ data ++ []) (length pre) e) = length data) as ->.
  { unfold BytesRemaining, dr_len_. simpl. rewrite !length_app. simpl. lia. }
  apply parses_string.
Qed.

Lemma appends_stream_data e producer f data :
  stream_data e producer f data ->
  appends e (match producer with
             | Some WriteStreamData => if (sf_data_length f =? 0)%nat then wr_true
                                       else WriteStreamData (sf_stream_id f) (sf_offset f) (sf_data_length f)
             | None => WriteBytes (take (sf_data_length f) (sf_data_buffer f))
             end) data.
Proof.
  intros (Hl & _ & Hd). destruct producer as [W|].
  - destruct (Nat.eqb_spec (sf_data_length f) 0) as [E|E]; [|apply Hd; lia].
    rewrite E in Hl. apply nil_length_inv in Hl as ->. apply appends_true.
  - rewrite Hd, <- Hl, take_ge by lia. apply appends_bytes.
Qed.

(** A frame without data length must end the packet. *)
Definition nothing_follows (last : bool) (post : list Z) : Prop := last = true -> post = [].

Definition received_stream (f : QuicStreamFrame) (data : list Z) : QuicStreamFrame :=
  MkStreamFrame (sf_stream_id f) (sf_fin f) (sf_data_length f) data (sf_offset f).

Lemma codec_stream e v producer f last data :
  partial_ok e -> fits 4 (sf_stream_id f) -> is_u64 (sf_offset f) -> stream_data e producer f data ->
  codec (nothing_follows last) e
    (GetStreamIdSize (sf_stream_id f) + GetStreamOffsetSize v (sf_offset f) + (if last then 0 else 2) + sf_data_length f)
    (AppendStreamFrame v producer f last) (ProcessStreamFrame v (stream_type_byte v f last)) (received_stream f data).
Proof.
  intros Hp Hi Ho Hd. destruct (stream_type_byte_spec v f last Hi Ho) as [Hdec _].
  destruct (GetStreamIdSize_fits (sf_stream_id f) Hi) as [Hn Hfi]. destruct (GetStreamOffsetSize_fits v (sf_offset f) Ho) as [Hk Hfo].
  pose proof (appends_stream_data e producer f data Hd) as Ha. destruct Hd as (Hl & Hl16 & _).
  unfold AppendStreamFrame, ProcessStreamFrame. rewrite Hdec. set (wd := match producer with Some _ => _ | None => _ end) in *.
  unfold AppendStreamId, AppendStreamOffset. set (n := GetStreamIdSize _) in *. set (k := GetStreamOffsetSize _ _) in *.
  assert (k <= 8 /\ k <> 1)%nat as [Hk8 Hk1].
  { unfold offset_sizes in Hk. destruct (v <? 40); simpl in Hk; clear -Hk; intuition lia. }
  rewrite !Nat2Z.id. rewrite (proj2 (Nat.eqb_neq n 0)), (proj2 (Nat.ltb_ge 4 n)) by lia.
  rewrite (proj2 (Nat.eqb_neq k 1)), (proj2 (Nat.ltb_ge 8 k)) by lia. cbn [orb].
  assert (forall x, rd_ret (MkStreamFrame (u32 (sf_stream_id f)) (sf_fin f) (Z.to_nat (u16 (Z.of_nat (length data)))) data x)
    = rd_ret (A := QuicStreamFrame) (MkStreamFrame (sf_stream_id f) (sf_fin f) (sf_data_length f) data x)) as Hret.
  { intros x. rewrite (u32_fits _ Hi). unfold u16. rewrite wrapU_id by lia. by rewrite Nat2Z.id, Hl. }
  assert (fits 2 (Z.of_nat (sf_data_length f))) as Hf2 by (unfold fits; lia).
  assert (forall P wr (m : Rd (list Z)), appends e wr data -> (forall post, P post -> parses e post m data data) ->
    codec P e (sf_data_length f) wr (data <~ m ;; rd_ret (MkStreamFrame (u32 (sf_stream_id f)) (sf_fin f)
      (Z.to_nat (u16 (Z.of_nat (length data)))) data (sf_offset f))) (received_stream f data)) as Hend.
  { intros P wr m Hw Hm. eapply codec_last; [exists data; split_and!; [done|exact Hw|exact Hm]|]. apply Hret. }
  destruct last; cbn [negb andb].
  - eapply codec_weaken with (P := fun post => post = []); [intros post; unfold nothing_follows; auto|].
    apply codec_nothing; [done|]. eapply codec_skip; [done|].
    replace (n + k + 0 + sf_data_length f)%nat with (n + (k + sf_data_length f))%nat by lia.
    eapply codec_bind; [apply codec_partial; [done|lia|done]|]. eapply codec_bind; [apply codec_partial; [done|lia|done]|].
    apply codec_nothing; [done|]. apply Hend; [done|]. intros post ->. apply parses_rest.
  - eapply codec_weaken with (P := any); [done|].
    destruct (Z.leb_spec v 39), (Z.gtb_spec v 39); try lia.
    + apply codec_nothing; [done|]. eapply codec_skip; [done|].
      replace (n + k + 2 + sf_data_length f)%nat with (n + (k + (2 + sf_data_length f)))%nat by lia.
      eapply codec_bind; [apply codec_partial; [done|lia|done]|]. eapply codec_bind; [apply codec_partial; [done|lia|done]|].
      eapply codec_last; [|apply Hret]. rewrite <- Hl in *. eexists. split_and!; [|apply appends_and; [apply appends_u16|exact Ha]|].
      * by rewrite length_app, wire_bytes_length.
      * intros post _. by apply parses_string16.
    + replace (n + k + 2 + sf_data_length f)%nat with (2 + (n + (k + sf_data_length f)))%nat by lia.
      eapply codec_bind; [by apply codec_u16|].
      eapply codec_bind; [apply codec_partial; [done|lia|done]|]. eapply codec_bind; [apply codec_partial; [done|lia|done]|].
      apply codec_nothing; [done|]. apply Hend; [done|]. intros post _. rewrite Nat2Z.id, <- Hl. apply parses_string.
Qed.
End Frames.

(** ** Truncated packet numbers and times *)

Lemma land_epoch x k : 0 <= k <= 64 -> is_u64 x -> Z.land x (u64 (Z.lnot (u64 (Z.shiftl 1 k) -64 1))) = x - x mod 2 ^ k \/ k = 64.
Proof.
  intros Hk Hx. destruct (Z.eq_dec k 64) as [|Hne]; [by right|left]. unfold is_u64 in Hx.
  pose proof (Z.pow_pos_nonneg 2 k). assert (2 ^ k <= 2 ^ 63) by (apply Z.pow_le_mono_r; lia).
  rewrite Z.shiftl_1_l, (u64_id (2 ^ k)) by (unfold is_u64; lia). rewrite (u64_id (2 ^ k - 1)) by (unfold is_u64; lia).
  assert (u64 (Z.lnot (2 ^ k - 1)) = Z.shiftl (Z.ones (64 - k)) k) as ->.
  { assert (Z.ones (64 - k) * 2 ^ k = 2 ^ 64 - 2 ^ k) as Ho.
    { rewrite Z.ones_equiv. unfold Z.pred. rewrite Z.mul_add_distr_r, <- Z.pow_add_r by lia.
      replace (64 - k + k) with 64 by lia. lia. }
    rewrite Z.shiftl_mul_pow2, Ho by lia. unfold Z.lnot, u64, wrapU. symmetry. apply (Z.mod_unique_pos _ _ (-1)); lia. }
  replace (x - x mod 2 ^ k) with (Z.shiftl (Z.shiftr x k) k).
  2: { rewrite Z.shiftl_mul_pow2, Z.shiftr_div_pow2 by lia. pose proof (Z.div_mod x (2 ^ k)). lia. }
  apply Z.bits_inj'. intros m Hm. rewrite Z.land_spec, !Z.shiftl_spec by done.
  destruct (Z.lt_ge_cases m k) as [Hlt|Hge].
  - rewrite !(Z.testbit_neg_r _ (m - k)) by lia. by rewrite andb_false_r.
  - rewrite Z.shiftr_spec by lia. replace (m - k + k) with m by lia. rewrite Z.testbit_ones_nonneg by lia.
    destruct (Z.ltb_spec (m - k) (64 - k)); [by rewrite andb_true_r|]. rewrite andb_false_r.
    symmetry. rewrite <- (Z.mod_small x (2 ^ 64)) by lia. apply Z.mod_pow2_bits_high. lia.
Qed.

Lemma Delta_abs a b : is_u64 a -> is_u64 b -> Delta a b = Z.abs (a - b).
Proof.
  unfold is_u64, Delta. intros Ha Hb. destruct (Z.ltb_spec a b); rewrite u64_id; unfold is_u64; lia.
Qed.

Lemma u64_shift x n : is_u64 (x + n * 2 ^ 64) -> u64 x = x + n * 2 ^ 64.
Proof.
  intros Hx. unfold u64, wrapU. symmetry. apply (Z.mod_unique_pos _ _ (- n)); [exact Hx|lia].
Qed.

(** The closest of the three candidates is the number that was truncated. *)
Lemma closest_epoch k base target y :
  0 <= k <= 48 -> is_u64 base -> is_u64 target -> is_u64 y -> base <= target <= base + 1 ->
  2 * Z.abs (y - target) < 2 ^ k ->
  let epoch := base - base mod 2 ^ k in
  let w := y mod 2 ^ k in
  ClosestTo target (epoch +64 w) (ClosestTo target ((epoch -64 2 ^ k) +64 w) ((epoch +64 2 ^ k) +64 w)) = y.
Proof.
  intros Hk Hb Ht Hy Hbt Hc epoch w. pose proof (Z.pow_pos_nonneg 2 k).
  assert (2 ^ k <= 2 ^ 48) as HD by (apply Z.pow_le_mono_r; lia). set (D := 2 ^ k) in *.
  pose proof (Z.mod_pos_bound base D ltac:(lia)) as Hm. pose proof (Z.mod_pos_bound y D ltac:(lia)) as Hw. fold w in Hw.
  pose proof (Z.div_mod base D ltac:(lia)) as Eb. pose proof (Z.div_mod y D ltac:(lia)) as Ey.
  set (q := base / D) in *. set (p := y / D) in *. assert (epoch = D * q) as He by (unfold epoch; lia).
  assert (y = D * p + w) as Ey' by exact Ey.
  assert (p - q < 2) as Hp1.
  { apply (Z.mul_lt_mono_pos_l D); [lia|]. rewrite Z.mul_sub_distr_l. lia. }
  assert (-2 < p - q) as Hp2.
  { apply (Z.mul_lt_mono_pos_l D); [lia|]. rewrite Z.mul_sub_distr_l. lia. }
  assert (y = epoch - D + w \/ y = epoch + w \/ y = epoch + D + w) as Hp.
  { assert (p = q - 1 \/ p = q \/ p = q + 1) as [Hp|[Hp|Hp]] by lia; rewrite Hp in Ey'; lia. }
  clear Hp1 Hp2.
  pose proof (Z.mod_le base D) as Hml. assert (is_u64 epoch) as Heu by (unfold is_u64, epoch in *; lia).
  unfold is_u64 in *. unfold u64, wrapU.
  rewrite (Zplus_mod_idemp_l (epoch - D)), (Zplus_mod_idemp_l (epoch + D)). fold (wrapU 64) .
  change ((epoch + w) mod 2 ^ 64) with (u64 (epoch + w)). change ((epoch - D + w) mod 2 ^ 64) with (u64 (epoch - D + w)).
  change ((epoch + D + w) mod 2 ^ 64) with (u64 (epoch + D + w)).
  assert (Hprev : u64 (epoch - D + w) = epoch - D + w \/ (epoch = 0 /\ u64 (epoch - D + w) = epoch - D + w + 2 ^ 64)).
  { destruct (Z.lt_ge_cases (epoch - D) 0) as [Hn|Hn].
    - right. assert (q < 1) by (apply (Z.mul_lt_mono_pos_l D); lia).
      assert (0 <= q) by (apply Z.div_pos; lia). assert (epoch = 0) as E0 by (rewrite He; replace q with 0 by lia; lia). split; [done|]. rewrite (u64_shift _ 1); unfold is_u64; lia.
    - left. apply u64_id. unfold is_u64. lia. }
  assert (Hnext : u64 (epoch + D + w) = epoch + D + w \/ (2 ^ 64 <= epoch + D + w /\ u64 (epoch + D + w) = epoch + D + w - 2 ^ 64)).
  { destruct (Z.lt_ge_cases (epoch + D + w) (2 ^ 64)) as [Hn|Hn].
    - left. apply u64_id. unfold is_u64. lia.
    - right. split; [done|]. rewrite (u64_shift _ (-1)); unfold is_u64; lia. }
  assert (Hcur : u64 (epoch + w) = epoch + w \/ (2 ^ 64 <= epoch + w /\ u64 (epoch + w) = epoch + w - 2 ^ 64)).
  { destruct (Z.lt_ge_cases (epoch + w) (2 ^ 64)) as [Hn|Hn].
    - left. apply u64_id. unfold is_u64. lia.
    - right. split; [done|]. rewrite (u64_shift _ (-1)); unfold is_u64; lia. }
  pose proof (u64_range (epoch + w)) as R1. pose proof (u64_range (epoch - D + w)) as R2. pose proof (u64_range (epoch + D + w)) as R3.
  unfold ClosestTo. rewrite !Delta_abs by (try done; repeat case_if; done).
  set (A := u64 (epoch + w)) in *. set (B := u64 (epoch - D + w)) in *. set (C := u64 (epoch + D + w)) in *.
  clearbody A B C. clear R1 R2 R3.
  destruct (Z.ltb_spec (Z.abs (target - B)) (Z.abs (target - C))) as [HBC|HBC];
    (match goal with |- (if ?c then _ else _) = _ => destruct c eqn:E end); bool_to_prop;
    clearbody epoch w; clear Eb Ey Ey' He; lia.
Qed.

Section Truncation.
Context `{host : HostOrder}.

Lemma le_bytes_mod n v : le_bytes n (v mod 256 ^ Z.of_nat n) = le_bytes n v.
Proof.
  rewrite <- le_value_bytes. rewrite <- (le_bytes_length n v) at 1. apply le_bytes_value, le_bytes_octets.
Qed.

Lemma wire_bytes_mod e n v : wire_bytes e n (v mod 256 ^ Z.of_nat n) = wire_bytes e n v.
Proof. unfold wire_bytes, be_bytes, mem_bytes, be_bytes. rewrite le_bytes_mod. done. Qed.

Lemma CalculatePacketNumberFromWire_spec n base pn :
  (n <= 6)%nat -> 0 <= base < kU64Max -> is_u64 pn -> 2 * Z.abs (pn - (base + 1)) < 256 ^ Z.of_nat n ->
  CalculatePacketNumberFromWire n base (pn mod 256 ^ Z.of_nat n) = pn.
Proof.
  intros Hn Hb Hpn Hc. unfold CalculatePacketNumberFromWire, kU64Max in *. set (k := 8 * Z.of_nat n).
  assert (256 ^ Z.of_nat n = 2 ^ k) as Hp by (unfold k; by rewrite Z.pow_mul_r by lia). rewrite Hp in *.
  assert (0 <= k <= 48) as Hk by lia. destruct (land_epoch base k ltac:(lia)) as [->|]; [unfold is_u64; lia| |lia].
  assert (u64 (Z.shiftl 1 k) = 2 ^ k) as ->.
  { rewrite Z.shiftl_1_l. apply u64_id. unfold is_u64. pose proof (Z.pow_pos_nonneg 2 k).
    pose proof (Z.pow_le_mono_r 2 k 48). lia. }
  rewrite (u64_id (base + 1)) by (unfold is_u64; lia). apply closest_epoch; try done; unfold is_u64; lia.
Qed.

Lemma CalculateTimestampFromWire_spec last t :
  0 <= last <= kI64Max -> 0 <= t <= kI64Max -> 2 * Z.abs (t - last) < 2 ^ 32 ->
  CalculateTimestampFromWire last (t mod 2 ^ 32) = t.
Proof.
  unfold kI64Max. intros Hl Ht Hc. unfold CalculateTimestampFromWire, Delta_ToMicroseconds, Delta_FromMicroseconds.
  rewrite (u64_id last) by (unfold is_u64; lia). destruct (land_epoch last 32) as [->|]; [lia|unfold is_u64; lia| |lia].
  change (u64 (Z.shiftl 1 32)) with (2 ^ 32). rewrite closest_epoch; try done; try (unfold is_u64; lia).
  apply i64_id. unfold is_i64. lia.
Qed.

Lemma parses_truncated e n base pn post :
  partial_ok e -> (n <= 6)%nat -> 0 <= base < kU64Max -> is_u64 pn -> 2 * Z.abs (pn - (base + 1)) < 256 ^ Z.of_nat n ->
  parses e post (ProcessAndCalculatePacketNumber n base) (wire_bytes e n pn) pn.
Proof.
  intros Hp Hn Hb Hpn Hc. assert (fits n (pn mod 256 ^ Z.of_nat n)) as Hf by (apply Z.mod_pos_bound; lia).
  rewrite <- (CalculatePacketNumberFromWire_spec n base pn) at 2 by done. unfold ProcessAndCalculatePacketNumber.
  apply (parses_map e post _ (CalculatePacketNumberFromWire n base)). rewrite <- wire_bytes_mod. apply parses_partial; [done|lia|done].
Qed.

(** A packet number is sent as its low one, two, four or six bytes.  The
    receiver, which knows the largest packet number so far, recovers the full
    number whenever it lies within half an epoch of the next expected one,
    across the epoch's boundaries and at both ends of the 64-bit range, and for
    either byte order. *)
Lemma packet_number_decoding (e : Endianness) (n : nat) (base pn : Z) :
  partial_ok e -> In n [1; 2; 4; 6]%nat -> 0 <= base < kU64Max -> is_u64 pn ->
  2 * Z.abs (pn - (base + 1)) < 256 ^ Z.of_nat n ->
  codec any e n (AppendPacketNumber n pn) (ProcessAndCalculatePacketNumber n base) pn.
Proof.
  intros Hp Hn Hb Hpn Hc. assert (AppendPacketNumber n pn = WriteBytesToUInt64 n pn /\ (n <= 6)%nat) as [-> Hn6].
  { simpl in Hn. destruct Hn as [<-|[<-|[<-|[<-|[]]]]]; (split; [done|lia]). }
  exists (wire_bytes e n pn). split_and!; [apply wire_bytes_length|apply appends_partial; [done|lia]|].
  intros post _. by apply parses_truncated.
Qed.
End Truncation.

Lemma packet_number_decoding_witness :
  codec any NETWORK_BYTE_ORDER 1 (AppendPacketNumber (host := true) 1 (2 ^ 40 + 3))
    (ProcessAndCalculatePacketNumber (host := true) 1 (2 ^ 40 - 20)) (2 ^ 40 + 3).
Proof.
  apply packet_number_decoding; [intros ?; discriminate|simpl; tauto|unfold kU64Max; lia|unfold is_u64; lia|simpl; lia].
Defined.

(** ** Headers *)

Section Header.
Context `{host : HostOrder}.

(** Reading with the framer's state. *)
Definition fparses {A} (e : Endianness) (post : list Z) (m : Fr A) (f f' : QuicFramer) (bs : list Z) (x : A) : Prop :=
  forall pre, m f (MkReader (pre ++ bs ++ post) (length pre) e)
              = (Some x, f', MkReader (pre ++ bs ++ post) (length pre + length bs) e).

Lemma fparses_lift {A} e post (m : Rd A) f bs x : parses e post m bs x -> fparses e post (fr_lift m) f f bs x.
Proof. intros Hm pre. unfold fr_lift. by rewrite Hm. Qed.

Lemma fparses_ret {A} e post f (x : A) : fparses e post (fr_ret x) f f [] x.
Proof. intros pre. unfold fr_ret. simpl. by rewrite Nat.add_0_r. Qed.

Lemma fparses_bind {A B} e post (m : Fr A) (k : A -> Fr B) f g h bs bs' x y :
  fparses e (bs' ++ post) m f g bs x -> fparses e post (k x) g h bs' y -> fparses e post (fr_bind m k) f h (bs ++ bs') y.
Proof.
  intros Hm Hk pre. unfold fr_bind. specialize (Hm pre). rewrite <- app_assoc. rewrite Hm.
  specialize (Hk (pre ++ bs)). rewrite length_app in Hk. rewrite <- app_assoc in Hk.
  rewrite Hk. f_equal. f_equal. rewrite length_app. lia.
Qed.

Lemma fparses_bind_lift {A B} e post (m : Rd A) (k : A -> Fr B) f h bs bs' x y :
  parses e (bs' ++ post) m bs x -> fparses e post (k x) f h bs' y ->
  fparses e post (fr_bind (fr_lift m) k) f h (bs ++ bs') y.
Proof. intros Hm Hk. eapply fparses_bind; [by apply fparses_lift|done]. Qed.

Lemma fparses_skip {A B} e post (m : Fr A) (k : A -> Fr B) f h bs x y :
  (forall r, m f r = (Some x, f, r)) -> fparses e post (k x) f h bs y -> fparses e post (fr_bind m k) f h bs y.
Proof. intros Hm Hk pre. unfold fr_bind. rewrite Hm. apply Hk. Qed.

(** The last step, which reads nothing more but may change the framer. *)
Lemma fparses_end {A B} e post (m : Fr A) (k : A -> Fr B) f g h bs x y :
  fparses e post m f g bs x -> (forall r, k x g r = (Some y, h, r)) -> fparses e post (fr_bind m k) f h bs y.
Proof. intros Hm Hk pre. unfold fr_bind. rewrite Hm. apply Hk. Qed.

Definition supported (version : Z) : Prop := In version kSupportedQuicVersions.

Lemma QuicTag_inverse version : supported version -> QuicTagToQuicVersion (QuicVersionToQuicTag version) = version /\ fits 4 (QuicVersionToQuicTag version).
Proof.
  unfold supported. simpl. intros H. repeat destruct H as [<-|H]; try done;
    (split; [reflexivity|unfold fits; vm_compute; split; discriminate || reflexivity]).
Qed.

Definition opposite (p : Perspective) : Perspective := match p with IS_SERVER => IS_CLIENT | IS_CLIENT => IS_SERVER end.

(** Headers of data packets: the version comes from clients and the nonce from
    servers only. *)
Definition header_ok (p : Perspective) (h : QuicPacketPublicHeader) : Prop :=
  In (ph_connection_id_length h) [0; 8]%nat /\ fits 8 (ph_connection_id h) /\ ph_reset_flag h = false /\
  In (ph_packet_number_length h) [1; 2; 4; 6]%nat /\
  match p with
  | IS_SERVER => ph_version_flag h = false /\ match ph_nonce h with Some n => length n = 32%nat | None => True end
  | IS_CLIENT => ph_nonce h = None
  end.

Lemma header_flags_spec hacks f h :
  header_ok (perspective_ f) h ->
  let flags := header_flags hacks f h in
  fits 1 flags /\ flags <= PACKET_PUBLIC_FLAGS_MAX /\
  Z.land flags PACKET_PUBLIC_FLAGS_RST = 0 /\
  (Z.land flags PACKET_PUBLIC_FLAGS_VERSION =? 0) = negb (ph_version_flag h) /\
  (Z.land flags PACKET_PUBLIC_FLAGS_8BYTE_CONNECTION_ID =? 0) = (ph_connection_id_length h =? 0)%nat /\
  ReadSequenceNumberLength (Z.shiftr flags kPublicHeaderSequenceNumberShift) = ph_packet_number_length h /\
  (perspective_ f = IS_SERVER ->
     (Z.land flags PACKET_PUBLIC_FLAGS_NONCE =? 0) = match ph_nonce h with Some _ => false | None => true end).
Proof.
  intros (Hc & _ & Hr & Hn & Hp). unfold header_flags. rewrite Hr. simpl in Hc, Hn.
  destruct Hc as [<-|[<-|[]]], Hn as [<-|[<-|[<-|[<-|[]]]]], (perspective_ f);
    (lazymatch type of Hp with _ /\ _ => destruct Hp as [-> _] | _ => rewrite Hp end); try destruct (ph_nonce h); try destruct (ph_version_flag h); try destruct hacks;
    (split; [unfold fits; vm_compute; split; discriminate || reflexivity|]);
    (split; [vm_compute; discriminate|]); split_and!; vm_compute; done.
Qed.

Definition received_header (g : QuicFramer) (version : Z) (h : QuicPacketPublicHeader) : QuicPacketPublicHeader :=
  MkPublicHeader (if (ph_connection_id_length h =? 0)%nat then last_serialized_connection_id_ g else ph_connection_id h)
    (ph_connection_id_length h) false (ph_version_flag h) (ph_packet_number_length h)
    (if ph_version_flag h then [version] else []) (ph_nonce h).

Definition receiver_after (g : QuicFramer) (version : Z) (h : QuicPacketPublicHeader) : QuicFramer :=
  let g := if ph_version_flag h then with_version_tag g (QuicVersionToQuicTag version) else g in
  match ph_nonce h with Some n => with_nonce g n | None => g end.

(** The bytes of the header before the packet number. *)
Definition public_bytes (hacks : bool) (f : QuicFramer) (h : QuicPacketPublicHeader) : list Z :=
  mem_bytes 1 (header_flags hacks f h)
  ++ (if (ph_connection_id_length h =? 0)%nat then [] else be_bytes 8 (ph_connection_id h))
  ++ (if ph_version_flag h then mem_bytes 4 (QuicVersionToQuicTag (quic_version_ f)) else [])
  ++ (match ph_nonce h with Some n => n | None => [] end).

Lemma parses_connection_id e post v : fits 8 v -> parses e post ReadConnectionId (be_bytes 8 v) v.
Proof.
  intros Hv. rewrite <- (net_value_bytes 8 v Hv) at 2.
  apply (parses_raw e post (be_bytes 8 v) 8 (fun bs => NetToHost 8 (mem_value bs))), (wire_bytes_length NETWORK_BYTE_ORDER).
Qed.

Lemma parses_tag e post v : fits 4 v -> parses e post ReadTag (mem_bytes 4 v) v.
Proof.
  intros Hv. rewrite <- (mem_value_bytes 4 v Hv) at 2.
  apply (parses_raw e post (mem_bytes 4 v) 4 mem_value), (wire_bytes_length HOST_BYTE_ORDER).
Qed.

Lemma ProcessPublicHeader_spec hacks f g h e post :
  header_ok (perspective_ f) h -> perspective_ g = opposite (perspective_ f) -> supported (quic_version_ f) ->
  fparses e post ProcessPublicHeader g (receiver_after g (quic_version_ f) h) (public_bytes hacks f h)
    (received_header g (quic_version_ f) h).
Proof.
  intros Hok Hpg Hv. destruct (header_flags_spec hacks f h Hok) as (Hf & Hmax & Hrst & Hver & Hid & Hlen & Hnon).
  destruct Hok as (Hc & Hcid & _ & _ & Hp). destruct (QuicTag_inverse _ Hv) as [Htag Htagf].
  unfold public_bytes. intros pre. unfold ProcessPublicHeader. revert pre.
  eapply fparses_bind_lift; [by apply parses_u8|]. rewrite Hrst, Hver, Hid, Hlen, Hpg. cbn [Z.eqb negb andb].
  destruct (Z.gtb_spec (header_flags hacks f h) PACKET_PUBLIC_FLAGS_MAX); [lia|]. rewrite !andb_false_r.
  eapply fparses_bind with (x := ph_connection_id (received_header g (quic_version_ f) h)).
  { destruct (Nat.eqb_spec (ph_connection_id_length h) 0) as [E|E]; simpl; rewrite ?(proj2 (Nat.eqb_eq _ _) E), ?(proj2 (Nat.eqb_neq _ _) E).
    - apply fparses_ret.
    - by apply fparses_lift, parses_connection_id. }
  assert ((if negb (ph_connection_id_length h =? 0)%nat then 8%nat else 0%nat) = ph_connection_id_length h) as ->.
  { simpl in Hc. by destruct Hc as [<-|[<-|[]]]. }
  destruct (perspective_ f) eqn:Ep; cbn [opposite].
  - destruct Hp as [Hvf Hnonce]. unfold received_header, receiver_after. rewrite Hvf. cbn [negb andb]. eapply fparses_skip; [done|].
    rewrite (Hnon eq_refl). destruct (ph_nonce h) as [n|]; cbn [negb andb].
    + eapply fparses_end; [|done]. eapply fparses_end; [|done]. apply fparses_lift.
      unfold kDiversificationNonceSize. rewrite <- Hnonce. apply parses_bytes.
    + eapply fparses_skip; [done|]. apply fparses_ret.
  - unfold received_header, receiver_after. rewrite Hp, app_nil_r. rewrite andb_false_r. destruct (ph_version_flag h); cbn [negb andb].
    + eapply fparses_end; [|intros r; unfold fr_bind, fr_ret; done]. eapply fparses_end; [apply fparses_lift; by apply parses_tag|].
      intros r. by rewrite andb_false_r, Htag.
    + eapply fparses_skip; [done|]. eapply fparses_skip; [done|]. apply fparses_ret.
Qed.

Lemma appends_header hacks f header e :
  header_ok (perspective_ f) (public_header header) -> partial_ok e ->
  appends e (fun w => let '(ok, _, w) := AppendPacketHeader hacks f header w in (ok, w))
    (public_bytes hacks f (public_header header) ++ wire_bytes e (ph_packet_number_length (public_header header)) (packet_number header)).
Proof.
  intros (Hc & Hcid & _ & Hn & Hp) He. set (h := public_header header) in *. set (n := ph_packet_number_length h) in *.
  assert (forall v, AppendPacketNumber n v = WriteBytesToUInt64 n v /\ (n <= 8)%nat) as HA.
  { intros v. simpl in Hn. destruct Hn as [<-|[<-|[<-|[<-|[]]]]]; (split; [done|lia]). }
  set (w1 := WriteUInt8 (header_flags hacks f h) >&>
             match ph_connection_id_length h with O => wr_true | _ => WriteConnectionId (ph_connection_id h) end).
  set (w2 := (if ph_version_flag h then WriteTag (QuicVersionToQuicTag (quic_version_ f)) else wr_true) >&>
       match ph_nonce h with Some nonce => WriteBytes (take kDiversificationNonceSize nonce) | None => wr_true end >&>
       AppendPacketNumber n (packet_number header)).
  apply appends_ext with (wr' := w1 >&> w2).
  { intros w _. unfold AppendPacketHeader. fold h. fold w1.
    change (quic_version_ (with_connection_id f (ph_connection_id h))) with (quic_version_ f). fold n. fold w2. unfold wr_and.
    destruct (w1 w) as [ok w']. destruct ok; cbn [negb]; [|done]. by destruct (w2 w'). }
  unfold public_bytes. rewrite <- !app_assoc. rewrite app_assoc. apply appends_and; [apply appends_and|apply appends_and; [|apply appends_and]].
  - apply appends_u8.
  - simpl in Hc. destruct Hc as [<-|[<-|[]]]; cbn [Nat.eqb]; [apply appends_true|].
    unfold WriteConnectionId. rewrite mem_bytes_net. apply appends_bytes.
  - destruct (ph_version_flag h); [apply appends_bytes|apply appends_true].
  - assert (match ph_nonce h with Some nonce => length nonce = 32%nat | None => True end) as Hnon.
    { destruct (perspective_ f); [by destruct Hp|by rewrite Hp]. }
    destruct (ph_nonce h) as [nonce|]; [|apply appends_true]. unfold kDiversificationNonceSize. rewrite take_ge by lia. apply appends_bytes.
  - rewrite (proj1 (HA _)). apply appends_partial; [done|]. exact (proj2 (HA 0)).
Qed.

Lemma public_bytes_length hacks f h :
  header_ok (perspective_ f) h ->
  (length (public_bytes hacks f h) + ph_packet_number_length h)%nat =
  GetPacketHeaderSize (ph_connection_id_length h) (ph_version_flag h) (match ph_nonce h with Some _ => true | None => false end)
    (ph_packet_number_length h).
Proof.
  intros (Hc & _ & _ & _ & Hp). unfold public_bytes, GetPacketHeaderSize, kPublicFlagsSize, kQuicVersionSize, kDiversificationNonceSize.
  rewrite !length_app. change (mem_bytes 1) with (wire_bytes HOST_BYTE_ORDER 1). change (be_bytes 8) with (wire_bytes NETWORK_BYTE_ORDER 8).
  rewrite wire_bytes_length.
  assert (match ph_nonce h with Some nonce => length nonce = 32%nat | None => True end) as Hnon.
  { destruct (perspective_ f); [by destruct Hp|by rewrite Hp]. }
  assert (length (if ph_version_flag h then mem_bytes 4 (QuicVersionToQuicTag (quic_version_ f)) else [])
          = if ph_version_flag h then 4%nat else 0%nat) as ->.
  { destruct (ph_version_flag h); [exact (wire_bytes_length HOST_BYTE_ORDER 4 _)|done]. }
  simpl in Hc. destruct Hc as [<-|[<-|[]]]; cbn [Nat.eqb]; [|rewrite wire_bytes_length];
    destruct (ph_nonce h); simpl; lia.
Qed.
End Header.

(** The header of a data packet of either endpoint, in every supported
    version: it is written exactly when [GetPacketHeaderSize] bytes are free,
    and the peer reads from those bytes the same connection ID (or, when it is
    omitted, the one it last used), flags, version, nonce and packet number,
    the number within half an epoch of what it expects. *)
Lemma packet_header_roundtrip `{host : HostOrder} (hacks : bool) (f g : QuicFramer) (header : QuicPacketHeader) (buffer : list Z) :
  let h := public_header header in
  let n := ph_packet_number_length h in
  let size := GetPacketHeaderSize (ph_connection_id_length h) (ph_version_flag h) (match ph_nonce h with Some _ => true | None => false end) n in
  partial_ok (endianness f) -> supported (quic_version_ f) -> header_ok (perspective_ f) h ->
  perspective_ g = opposite (perspective_ f) -> quic_version_ g = quic_version_ f ->
  0 <= largest_packet_number_ g < kU64Max -> is_u64 (packet_number header) ->
  2 * Z.abs (packet_number header - (largest_packet_number_ g + 1)) < 256 ^ Z.of_nat n ->
  let '(ok, _, w) := AppendPacketHeader hacks f header (MkWriter buffer 0 (endianness f)) in
  (ok = true <-> (size <= length buffer)%nat) /\
  (ok = true ->
    let r := MkReader (dw_data w) 0 (endianness g) in
    fr_bind ProcessPublicHeader (fun h' => fr_bind
      (fr_lift (ProcessAndCalculatePacketNumber (ph_packet_number_length h') (largest_packet_number_ g)))
      (fun pn => fr_ret (MkPacketHeader h' pn))) g r
    = (Some (MkPacketHeader (received_header g (quic_version_ f) h) (packet_number header)),
       receiver_after g (quic_version_ f) h, MkReader (dw_data w) size (endianness g))).
Proof.
  intros h n size He Hv Hok Hp Hvg Hb Hpn Hc. set (e := endianness f) in *.
  assert (endianness g = e) as -> by (unfold e, endianness; by rewrite Hvg).
  pose proof (appends_header hacks f header e Hok He (MkWriter buffer 0 e)) as Hw. fold h n in Hw.
  set (bs := public_bytes hacks f h ++ wire_bytes e n (packet_number header)) in *.
  assert (length bs = size) as Hl by (unfold bs; rewrite length_app, wire_bytes_length; by apply public_bytes_length).
  assert (dw_ok (MkWriter buffer 0 e)) as Hdw by (unfold dw_ok; simpl; lia).
  specialize (Hw Hdw eq_refl). cbn [dw_length_] in Hw. change (dw_capacity (MkWriter buffer 0 e)) with (length buffer) in Hw.
  rewrite Hl in Hw. rewrite Nat.add_0_l in Hw.
  destruct (AppendPacketHeader hacks f header (MkWriter buffer 0 e)) as [[ok f'] w].
  destruct (Nat.leb_spec size (length buffer)) as [Hle|Hle]; [|cbn [fst] in Hw; subst ok; split; [split; [done|lia]|done]].
  injection Hw as -> ->. split; [done|]. intros _.
  rewrite dw_put_data by (change (dw_capacity (MkWriter buffer 0 e)) with (length buffer); simpl; lia).
  change (dw_data (MkWriter buffer 0 e)) with (@nil Z). rewrite app_nil_l.
  assert (fparses e [] (fr_bind ProcessPublicHeader (fun h' => fr_bind
      (fr_lift (ProcessAndCalculatePacketNumber (ph_packet_number_length h') (largest_packet_number_ g)))
      (fun pn => fr_ret (MkPacketHeader h' pn)))) g (receiver_after g (quic_version_ f) h) bs
      (MkPacketHeader (received_header g (quic_version_ f) h) (packet_number header))) as HR.
  { eapply fparses_bind; [by apply ProcessPublicHeader_spec|]. eapply fparses_end; [|done]. apply fparses_lift.
    change (ph_packet_number_length (received_header g (quic_version_ f) h)) with n. destruct Hok as (_ & _ & _ & Hn & _).
    apply parses_truncated; try done. clear -Hn. simpl in Hn. intuition lia. }
  specialize (HR []). rewrite app_nil_r in HR. cbn [app length] in HR. rewrite Nat.add_0_l, Hl in HR. exact HR.
Qed.

Lemma packet_header_roundtrip_witness :
  let f := MkFramer 0 0 0 0 0 39 IS_CLIENT true 0 0 [] None in
  let g := MkFramer 0 0 500 0 0 39 IS_SERVER true 0 0 [] None in
  let header := MkPacketHeader (MkPublicHeader 77 8 false true 1 [] None) 600 in
  let '(ok, _, w) := AppendPacketHeader (host := true) true f header (MkWriter (replicate 20 0) 0 NETWORK_BYTE_ORDER) in
  (ok = true <-> (14 <= 20)%nat) /\
  (ok = true ->
    fr_bind (ProcessPublicHeader (host := true)) (fun h' => fr_bind
      (fr_lift (ProcessAndCalculatePacketNumber (host := true) (ph_packet_number_length h') 500))
      (fun pn => fr_ret (MkPacketHeader h' pn))) g (MkReader (dw_data w) 0 NETWORK_BYTE_ORDER)
    = (Some (MkPacketHeader (MkPublicHeader 77 8 false true 1 [39] None) 600),
       with_version_tag g (QuicVersionToQuicTag 39), MkReader (dw_data w) 14 NETWORK_BYTE_ORDER)).
Proof.
  intros f g header. apply (packet_header_roundtrip (host := true) true f g header (replicate 20 0)).
  - intros ?; discriminate.
  - unfold supported. cbn. tauto.
  - unfold header_ok, fits. cbn. split_and!; (tauto || lia || reflexivity).
  - reflexivity.
  - reflexivity.
  - unfold kU64Max. cbn. lia.
  - unfold is_u64. cbn. lia.
  - cbn. lia.
Defined.
