(* ===== verification/FramerAck.v ===== *)
(** * Acknowledgement frames on the wire

    The blocks of an ack frame describe the packet numbers received, newest
    first, as gaps and lengths.  [blocks] is the full list of blocks for a list
    of intervals; the code writes its first 255 at most.  Reading them adds the
    ranges to an empty queue. *)

From S2P Require Import Prelude Interval IntervalSet IntervalSetFacts PacketNumberQueue PacketNumberQueueFacts PacketSet.
From S2P Require Import QuicTime ReceivedPacketManager QuicData Framer FramerFacts.
#[local] Open Scope Z_scope.
#[local] Open Scope wire_scope.

(** ** Intervals in descending order *)

Fixpoint descending (prev : Z) (l : list Interval) : Prop :=
  match l with
  | [] => True
  | i :: l => 0 <= min_ i < max_ i /\ max_ i < prev /\ descending (min_ i) l
  end.

Lemma descending_rev s x : iset_ok (s ++ [x]) -> pn_range (s ++ [x]) -> descending (min_ x) (rev s).
Proof.
  revert x. induction s as [|y s IH] using rev_ind; intros x Hok Hr; [done|]. rewrite rev_app_distr. cbn [rev app descending].
  apply iset_ok_app in Hok as (Hs & Hx & Hg). apply Forall_app in Hr as [Hr _].
  rewrite Forall_app in Hg. destruct Hg as [_ Hg]. apply Forall_inv in Hg. apply Forall_inv in Hg. unfold gap in Hg.
  apply iset_ok_app in Hs as H. destruct H as (_ & Hy & _). apply iset_ok_single in Hy. unfold ival_nonempty in Hy.
  apply Forall_app in Hr as H. destruct H as [_ Hry]. apply Forall_inv in Hry. split; [lia|]. split; [lia|]. by apply IH.
Qed.

Lemma descending_below prev l v : descending prev l -> iset_mem v l -> 0 <= v < prev.
Proof.
  revert prev. induction l as [|i l IH]; intros prev; [by rewrite iset_mem_nil|]. cbn [descending].
  intros (Hi & Hp & Hl). rewrite iset_mem_cons. unfold ival_mem. intros [Hv|Hv]; [lia|]. specialize (IH _ Hl Hv). lia.
Qed.

Lemma Interval_Length_nonempty i : min_ i < max_ i -> Interval_Length i = max_ i - min_ i.
Proof. intros Hi. unfold Interval_Length. destruct (Z.geb_spec (min_ i) (max_ i)); lia. Qed.

(** ** Blocks *)

Definition gap_blocks (total_gap len : Z) : list (Z * Z) :=
  replicate (Z.to_nat (encoded_gaps total_gap - 1)) (255, 0) ++ [(total_gap - (encoded_gaps total_gap - 1) * 255, len)].

Fixpoint blocks (prev : Z) (l : list Interval) : list (Z * Z) :=
  match l with
  | [] => []
  | i :: l => gap_blocks (prev - max_ i) (max_ i - min_ i) ++ blocks (min_ i) l
  end.

(** Gaps whose sum with 254 does not overflow. *)
Lemma encoded_gaps_spec g :
  0 < g -> g < 2 ^ 64 - 256 ->
  1 <= encoded_gaps g /\ 0 < g - (encoded_gaps g - 1) * 255 <= 255 /\ encoded_gaps g = (g + 254) / 255 /\ encoded_gaps g < 2 ^ 58.
Proof.
  intros Hg Hb. unfold encoded_gaps. rewrite u64_id by (unfold is_u64; lia).
  pose proof (Z.mul_div_le (g + 254) 255). pose proof (Z.mul_succ_div_gt (g + 254) 255). lia.
Qed.

Lemma gap_blocks_length g len : 0 < g -> g < 2 ^ 64 - 256 -> Z.of_nat (length (gap_blocks g len)) = encoded_gaps g.
Proof.
  intros Hg Hb. unfold gap_blocks. rewrite length_app, length_replicate. pose proof (encoded_gaps_spec g Hg Hb). simpl. lia.
Qed.

(** The packet numbers a sequence of blocks describes, below [first]. *)
Fixpoint blocks_mem (v first : Z) (bl : list (Z * Z)) : Prop :=
  match bl with
  | [] => False
  | (gap, len) :: bl => first - gap - len <= v < first - gap \/ blocks_mem v (first - gap - len) bl
  end.

Fixpoint blocks_span (bl : list (Z * Z)) : Z :=
  match bl with [] => 0 | (gap, len) :: bl => gap + len + blocks_span bl end.

Lemma blocks_mem_app v first a b :
  blocks_mem v first (a ++ b) <-> blocks_mem v first a \/ blocks_mem v (first - blocks_span a) b.
Proof.
  revert first. induction a as [|[g l] a IH]; intros first; simpl; [rewrite Z.sub_0_r; tauto|]. rewrite IH.
  replace (first - (g + l + blocks_span a)) with (first - g - l - blocks_span a) by lia. tauto.
Qed.

Lemma blocks_span_app a b : blocks_span (a ++ b) = blocks_span a + blocks_span b.
Proof. induction a as [|[g l] a IH]; simpl; lia. Qed.

Lemma empty_blocks_mem v first k : ~ blocks_mem v first (replicate k (255, 0)).
Proof. revert first. induction k as [|k IH]; intros first; simpl; [tauto|]. intros [?|H]; [lia|]. by apply IH in H. Qed.

Lemma empty_blocks_span k : blocks_span (replicate k (255, 0)) = 255 * Z.of_nat k.
Proof. induction k as [|k IH]; [done|]. cbn [replicate blocks_span]. lia. Qed.

(** The first [n] blocks describe the first intervals completely, and the
    others not at all. *)
Lemma blocks_take prev l n :
  descending prev l -> prev < 2 ^ 64 - 256 ->
  exists k, (forall v, blocks_mem v prev (take n (blocks prev l)) <-> iset_mem v (take k l)) /\
    ((length (blocks prev l) <= n)%nat -> k = length l).
Proof.
  revert prev n. induction l as [|i l IH]; intros prev n; cbn [descending].
  { intros _ _. exists 0%nat. simpl. rewrite take_nil. split; [intros v; rewrite iset_mem_nil; done|done]. }
  intros (Hi & Hp & Hl) Hb. cbn [blocks]. set (g := prev - max_ i). set (len := max_ i - min_ i).
  destruct (encoded_gaps_spec g ltac:(lia) ltac:(lia)) as (He & Hlast & _).
  pose proof (gap_blocks_length g len ltac:(lia) ltac:(lia)) as Hlen.
  destruct (Nat.lt_ge_cases n (length (gap_blocks g len))) as [Hn|Hn].
  - exists 0%nat. split.
    + intros v. simpl. rewrite take_app_le by lia. unfold gap_blocks. rewrite take_app_le.
      * rewrite take_replicate. rewrite iset_mem_nil. split; [apply empty_blocks_mem|done].
      * rewrite length_replicate. lia.
    + rewrite length_app. lia.
  - destruct (IH (min_ i) (n - length (gap_blocks g len))%nat Hl ltac:(lia)) as (k & Hk & Hall). exists (S k). split.
    + intros v. rewrite take_app_ge by done. cbn [take]. rewrite blocks_mem_app, iset_mem_cons. unfold gap_blocks at 1.
      rewrite blocks_mem_app, empty_blocks_span. unfold gap_blocks. rewrite blocks_span_app, empty_blocks_span.
      rewrite Z2Nat.id by lia. cbn [blocks_mem blocks_span]. unfold ival_mem.
      replace (prev - (255 * (encoded_gaps g - 1) + (g - (encoded_gaps g - 1) * 255 + len + 0))) with (min_ i) by lia.
      rewrite Hk. pose proof (empty_blocks_mem v prev (Z.to_nat (encoded_gaps g - 1))).
      assert (prev - 255 * (encoded_gaps g - 1) - (g - (encoded_gaps g - 1) * 255) - len <= v <
        prev - 255 * (encoded_gaps g - 1) - (g - (encoded_gaps g - 1) * 255) <-> min_ i <= v < max_ i) as -> by lia.
      tauto.
    + rewrite length_app. intros Hle. simpl. f_equal. apply Hall. lia.
Qed.

Lemma GetAckFrameInfo_loop_spec l prev info :
  descending prev l -> prev < 2 ^ 64 - 256 -> 0 <= num_ack_blocks info < 2 ^ 60 -> 0 <= max_block_length info ->
  let r := GetAckFrameInfo_loop l prev info in
  first_block_length r = first_block_length info /\
  Z.min (num_ack_blocks r) 255 = Z.min (num_ack_blocks info + Z.of_nat (length (blocks prev l))) 255 /\ 0 <= num_ack_blocks r /\
  max_block_length info <= max_block_length r <= Z.max (max_block_length info) prev /\
  Forall (fun b => 0 <= snd b <= max_block_length r) (take (Z.to_nat (255 - num_ack_blocks info)) (blocks prev l)).
Proof.
  revert prev info. induction l as [|i l IH]; intros prev info; cbn [descending].
  { intros _ Hp Hn Hm. simpl. rewrite take_nil. split_and!; try done; lia. }
  intros (Hi & Hp & Hl) Hb Hn Hm. cbn [GetAckFrameInfo_loop blocks].
  destruct (Z.ltb_spec (num_ack_blocks info) 255) as [Hlt|Hge].
  2: { replace (Z.to_nat (255 - num_ack_blocks info)) with 0%nat by lia. split_and!; try done; lia. }
  set (g := prev - max_ i). rewrite (u64_id g) by (unfold is_u64; lia).
  destruct (encoded_gaps_spec g ltac:(lia) ltac:(lia)) as (He & Hlast & _ & Hub).
  rewrite Interval_Length_nonempty by lia. set (len := max_ i - min_ i).
  pose proof (gap_blocks_length g len ltac:(lia) ltac:(lia)) as Hlen.
  set (info' := MkAckFrameInfo _ _ _). assert (num_ack_blocks info' = num_ack_blocks info + encoded_gaps g) as Hn'.
  { unfold info'. simpl. apply u64_id. unfold is_u64. lia. }
  assert (max_block_length info' = Z.max (max_block_length info) len) as Hm' by done.
  destruct (IH (min_ i) info' Hl ltac:(lia)) as (H1 & H2 & H3 & H4 & H5).
  { lia. } { lia. }
  cbn [first_block_length max_block_length] in *. rewrite length_app.
  assert (0 <= len < prev) as Hlp by (unfold len; lia). split_and!; try done; try lia.
  rewrite take_app, Forall_app. split.
  - apply Forall_take. unfold gap_blocks. rewrite Forall_app. split; [apply Forall_replicate; simpl; lia|].
    apply Forall_singleton. simpl. lia.
  - replace (Z.to_nat (255 - num_ack_blocks info) - length (gap_blocks g len))%nat with (Z.to_nat (255 - num_ack_blocks info')) by lia.
    exact H5.
Qed.

(** ** Writing the blocks *)

Section Blocks.
Context `{host : HostOrder}.

(** [wr] writes [bs], given the room. *)
Definition emits (e : Endianness) (wr : Wr) (bs : list Z) : Prop :=
  forall w, dw_ok w -> dw_endianness_ w = e -> (dw_length_ w + length bs <= dw_capacity w)%nat -> wr w = (true, dw_put w bs).

Lemma appends_emits e wr bs : appends e wr bs -> emits e wr bs.
Proof. intros H w Hok He Hr. specialize (H w Hok He). by rewrite (proj2 (Nat.leb_le _ _) Hr) in H. Qed.

Lemma dw_put_nil w : dw_ok w -> dw_put w [] = w.
Proof.
  intros Hok. pose proof (appends_true (dw_endianness_ w) w Hok eq_refl) as H. unfold dw_ok in Hok.
  rewrite (proj2 (Nat.leb_le _ _)) in H by (simpl; lia). by injection H.
Qed.

Lemma emits_and e a b x y : emits e a x -> emits e b y -> emits e (a >&> b) (x ++ y).
Proof.
  intros Ha Hb w Hok He Hr. rewrite length_app in Hr. unfold wr_and. rewrite Ha by (done || lia).
  destruct (dw_put_ok w x ltac:(lia)) as [Hok' Hcap]. rewrite Hb; [|done|done|rewrite Hcap; simpl; lia].
  by rewrite dw_put_put by (rewrite length_app; lia).
Qed.

Definition block_bytes (e : Endianness) (n : nat) (b : Z * Z) : list Z := mem_bytes 1 (fst b) ++ wire_bytes e n (snd b).
Definition blocks_bytes (e : Endianness) (n : nat) (bl : list (Z * Z)) : list Z := concat (block_bytes e n <$> bl).

Lemma block_bytes_length e n b : length (block_bytes e n b) = S n.
Proof. unfold block_bytes. by rewrite length_app, mem_bytes_length, wire_bytes_length. Qed.

Lemma blocks_bytes_length e n bl : length (blocks_bytes e n bl) = (S n * length bl)%nat.
Proof.
  unfold blocks_bytes. induction bl as [|b bl IH]; [simpl; lia|]. rewrite fmap_cons. cbn [concat].
  rewrite length_app, block_bytes_length, IH. cbn [length]. lia.
Qed.

Lemma blocks_bytes_app e n a b : blocks_bytes e n (a ++ b) = blocks_bytes e n a ++ blocks_bytes e n b.
Proof. unfold blocks_bytes. by rewrite fmap_app, concat_app. Qed.

Lemma emits_block e n g len :
  partial_ok e -> In n [1; 2; 4; 6; 8]%nat -> emits e (AppendAckBlock g n len) (block_bytes e n (g, len)).
Proof.
  intros Hp Hn. apply emits_and; apply appends_emits; [apply appends_u8|].
  assert (AppendPacketNumber n len = WriteBytesToUInt64 n len /\ (n <= 8)%nat) as [-> ?].
  { simpl in Hn. destruct Hn as [<-|[<-|[<-|[<-|[<-|[]]]]]]; (split; [done|lia]). }
  by apply appends_partial.
Qed.

Lemma AppendEmptyBlocks_spec e n fuel i gaps written limit w :
  partial_ok e -> In n [1; 2; 4; 6; 8]%nat -> dw_ok w -> dw_endianness_ w = e ->
  let k := Z.to_nat (Z.min (gaps - i) (limit - written)) in
  (k <= fuel)%nat -> (dw_length_ w + S n * k <= dw_capacity w)%nat ->
  AppendEmptyBlocks fuel n i gaps written limit w
  = (true, written + Z.of_nat k, dw_put w (blocks_bytes e n (replicate k (255, 0)))).
Proof.
  intros Hp Hn. revert i written w. induction fuel as [|fuel IH]; intros i written w Hok He k Hk Hr; cbn [AppendEmptyBlocks].
  - replace k with 0%nat by lia. rewrite Z.add_0_r. by rewrite dw_put_nil.
  - destruct (Z.ltb_spec i gaps) as [Hi|Hi], (Z.ltb_spec written limit) as [Hw|Hw]; cbn [andb].
    2-4: replace k with 0%nat by lia; rewrite Z.add_0_r; by rewrite dw_put_nil.
    assert (k = S (Z.to_nat (Z.min (gaps - (i + 1)) (limit - (written + 1)))))%nat as Hk' by lia.
    set (k' := Z.to_nat _) in Hk'. rewrite Hk' in Hr.
    rewrite (emits_block e n 255 0 Hp Hn w Hok He) by (rewrite block_bytes_length; lia).
    destruct (dw_put_ok w (block_bytes e n (255, 0))) as [Hok' Hcap]; [rewrite block_bytes_length; lia|].
    rewrite IH; [|done|done|fold k'; lia|rewrite Hcap; unfold dw_put; cbn [dw_length_]; rewrite block_bytes_length; fold k'; lia].
    fold k'. rewrite Hk'. cbn [replicate]. f_equal; [f_equal; lia|].
    change ((255, 0) :: replicate k' (255, 0)) with ([(255, 0)] ++ replicate k' (255, 0)). rewrite blocks_bytes_app.
    change (blocks_bytes e n [(255, 0)]) with (block_bytes e n (255, 0) ++ []). rewrite app_nil_r.
    apply dw_put_put. rewrite length_app, block_bytes_length, blocks_bytes_length, length_replicate. lia.
Qed.

Lemma AppendAckBlocks_spec e n l prev written limit w :
  partial_ok e -> In n [1; 2; 4; 6; 8]%nat -> dw_ok w -> dw_endianness_ w = e ->
  descending prev l -> prev < 2 ^ 64 - 256 -> 0 <= written -> limit <= 255 ->
  let bl := take (Z.to_nat (limit - written)) (blocks prev l) in
  (dw_length_ w + S n * length bl <= dw_capacity w)%nat ->
  AppendAckBlocks l prev n written limit w = (true, dw_put w (blocks_bytes e n bl)).
Proof.
  intros Hp Hn. revert prev written w. induction l as [|i l IH]; intros prev written w Hok He; cbn [descending].
  - intros _ _ _ _ Hr. cbn [AppendAckBlocks blocks]. rewrite take_nil. by rewrite dw_put_nil.
  - intros (Hi & Hpr & Hl) Hb Hw0 Hlim. set (bl := take _ _). intros Hr. cbn [AppendAckBlocks]. destruct (Z.ltb_spec written limit) as [Hw|Hw].
    2: { replace bl with (@nil (Z * Z)); [by rewrite dw_put_nil|].
         subst bl. by replace (Z.to_nat (limit - written)) with 0%nat by lia. }
    rewrite (u64_id (prev - max_ i)) by (unfold is_u64; lia). set (g := prev - max_ i) in *.
    destruct (encoded_gaps_spec g ltac:(lia) ltac:(lia)) as (Hen & Hlast & _ & Hub).
    rewrite Interval_Length_nonempty by lia. set (len := max_ i - min_ i).
    assert (bl = take (Z.to_nat (limit - written)) (gap_blocks g len ++ blocks (min_ i) l)) as Hbl by done. clearbody bl.
    unfold gap_blocks in Hbl. set (m := Z.to_nat (encoded_gaps g - 1)) in *.
    set (k := Z.to_nat (Z.min (encoded_gaps g - 1) (limit - written))).
    assert (k = m `min` Z.to_nat (limit - written))%nat as Hk by (unfold k, m; lia).
    assert (k <= length bl)%nat as Hkb.
    { rewrite Hbl, length_take, !length_app, length_replicate. simpl. lia. }
    rewrite (AppendEmptyBlocks_spec e n); [|done|done|done|done|lia|fold k; nia]. fold k. cbn [negb].
    destruct (dw_put_ok w (blocks_bytes e n (replicate k (255, 0)))) as [Hok' Hcap].
    { rewrite blocks_bytes_length, length_replicate. nia. }
    destruct (Z.geb_spec (written + Z.of_nat k) limit) as [Hge|Hlt].
    { assert (Z.to_nat (limit - written) = k) as Hkk by lia. rewrite Hkk in Hbl. rewrite Hbl. f_equal. f_equal. f_equal.
      rewrite <- app_assoc, take_app_le by (rewrite length_replicate; lia). rewrite take_replicate. f_equal. lia. }
    assert (k = m) as -> by lia. clear Hk Hkb.
    rewrite <- app_assoc, take_app_ge, length_replicate in Hbl by (rewrite length_replicate; lia).
    set (j := (Z.to_nat (limit - written) - m)%nat) in *. cbn [app] in Hbl.
    destruct j as [|j'] eqn:Ej; [lia|]. cbn [take] in Hbl.
    set (b := (g - (encoded_gaps g - 1) * 255, len)) in *.
    assert (length bl = m + S (length (take j' (blocks (min_ i) l))))%nat as Hlb by (rewrite Hbl, length_app, length_replicate; done).
    assert (u8 (g - (encoded_gaps g - 1) * 255) = g - (encoded_gaps g - 1) * 255) as -> by (apply wrapU_id; lia).
    assert (dw_length_ (dw_put w (blocks_bytes e n (replicate m (255, 0)))) = (dw_length_ w + S n * m)%nat) as Hl1.
    { unfold dw_put. cbn [dw_length_]. by rewrite blocks_bytes_length, length_replicate. }
    rewrite (emits_block e n _ len Hp Hn _ Hok' He) by (rewrite Hcap, Hl1, block_bytes_length; nia). fold b.
    destruct (dw_put_ok (dw_put w (blocks_bytes e n (replicate m (255, 0)))) (block_bytes e n b)) as [Hok2 Hcap2].
    { rewrite Hcap, Hl1, block_bytes_length. nia. }
    rewrite (IH (min_ i) (written + Z.of_nat m + 1)); [|done|done|done|lia|lia|done|].
    + replace (Z.to_nat (limit - (written + Z.of_nat m + 1))) with j' by lia. f_equal.
      rewrite dw_put_put; [rewrite dw_put_put; [f_equal|]|].
      * rewrite Hbl, blocks_bytes_app. change (b :: ?t) with ([b] ++ t). rewrite blocks_bytes_app.
        change (blocks_bytes e n [b]) with (block_bytes e n b ++ []). rewrite app_nil_r. by rewrite app_assoc.
      * rewrite !length_app, !blocks_bytes_length, block_bytes_length, length_replicate. nia.
      * rewrite length_app, block_bytes_length, blocks_bytes_length, Hcap, Hl1. nia.
    + replace (Z.to_nat (limit - (written + Z.of_nat m + 1))) with j' by lia. rewrite Hcap2, Hcap.
      change (dw_length_ (dw_put (dw_put w ?a) ?c)) with (dw_length_ (dw_put w a) + length c)%nat. rewrite Hl1, block_bytes_length. nia.
Qed.

(** ** Reading the blocks *)

Lemma blocks_bounds prev l :
  descending prev l -> prev < 2 ^ 64 - 256 ->
  Forall (fun b => 0 < fst b <= 255 /\ 0 <= snd b) (blocks prev l) /\ blocks_span (blocks prev l) <= Z.max 0 prev.
Proof.
  revert prev. induction l as [|i l IH]; intros prev; cbn [descending blocks]; [intros; split; [constructor|simpl; lia]|].
  intros (Hi & Hp & Hl) Hb. set (g := prev - max_ i). destruct (encoded_gaps_spec g ltac:(lia) ltac:(lia)) as (He & Hlast & _).
  destruct (IH (min_ i) Hl ltac:(lia)) as [H1 H2]. unfold gap_blocks. rewrite !Forall_app, !blocks_span_app, empty_blocks_span. split.
  - split; [split|done]; [apply Forall_replicate; simpl; lia|]. apply Forall_singleton. simpl. lia.
  - cbn [blocks_span]. rewrite Z2Nat.id by lia. lia.
Qed.

Lemma blocks_span_take bl n :
  Forall (fun b => 0 < fst b <= 255 /\ 0 <= snd b) bl -> 0 <= blocks_span (take n bl) <= blocks_span bl.
Proof.
  intros Hb. revert n. induction Hb as [|[g len] bl Hb _ IH]; intros n; [rewrite take_nil; simpl; lia|].
  destruct n as [|n]; simpl in *; [|specialize (IH n); lia]. specialize (IH 0%nat). simpl in IH. lia.
Qed.

Lemma ProcessAckBlocks_parses e n bl first q :
  partial_ok e -> (n <= 8)%nat -> pnq_ok q -> first <= kU64Max -> blocks_span bl <= first ->
  Forall (fun b => 0 < fst b <= 255 /\ 0 <= snd b) bl -> Forall (fun b => fits n (snd b)) bl ->
  exists q', (forall post, parses e post (ProcessAckBlocks (length bl) n first q) (blocks_bytes e n bl) q') /\
    pnq_result q q' (fun v => pnq_mem v q \/ blocks_mem v first bl).
Proof.
  intros Hp Hn Hq Hf Hs Hb Hfit. revert first q Hq Hf Hs.
  induction bl as [|[g len] bl IH]; intros first q Hq Hf Hs.
  { exists q. split; [intros post; apply parses_ret|]. unfold pnq_result. cbn [blocks_mem]. split_and!; try done. intros v. tauto. }
  inversion Hb as [|x y Hgl Hb' E]; subst. inversion Hfit as [|x y Hl Hfit' E]; subst. cbn [fst snd] in *. cbn [blocks_span] in Hs.
  pose proof (blocks_span_take bl 0 Hb') as Hs0. simpl in Hs0. unfold kU64Max in Hf.
  assert (first -64 (g +64 len) = first - g - len) as Efirst.
  { rewrite (u64_id (g + len)) by (unfold is_u64; lia). rewrite u64_id by (unfold is_u64; lia). lia. }
  assert (exists q1, (if len >? 0 then rd_option (PacketNumberQueue_AddRange q (first - g - len) ((first - g - len) +64 len))
     else rd_ret q) = rd_ret q1 /\ pnq_result q q1 (fun v => pnq_mem v q \/ first - g - len <= v < first - g)) as (q1 & Hq1 & HR1).
  { destruct (Z.gtb_spec len 0) as [Hpos|Hz].
    - rewrite u64_id by (unfold is_u64; lia).
      destruct (AddRange_result q (first - g - len) (first - g - len + len)) as (q1 & -> & HR); [done|lia|unfold kU64Max; lia|].
      exists q1. split; [done|]. destruct HR as (H1 & H2 & H3). split_and!; try done. intros v. rewrite H3.
      split; intros [?|?]; [tauto|right; lia|tauto|right; lia].
    - exists q. split; [done|]. unfold pnq_result. split_and!; try done. intros v. split; [tauto|]. intros [?|?]; [done|lia]. }
  destruct HR1 as (Hok1 & Hd1 & Hm1).
  destruct (IH Hb' Hfit' (first - g - len) q1 Hok1) as (q' & Hpar & Hok' & Hd' & Hm'); [unfold kU64Max; lia|lia|].
  exists q'. split.
  - intros post. cbn [length ProcessAckBlocks]. unfold blocks_bytes. rewrite fmap_cons. cbn [concat]. unfold block_bytes at 1. cbn [fst snd].
    rewrite <- app_assoc. eapply parses_bind; [apply parses_u8; unfold fits; lia|].
    eapply parses_bind; [by apply parses_partial|]. rewrite Efirst.
    eapply parses_ext; [|exact (Hpar post)]. intros r _. unfold rd_bind at 1. by rewrite Hq1.
  - split_and!; [done|congruence|]. intros v. rewrite Hm', Hm1. cbn [blocks_mem]. tauto.
Qed.
End Blocks.

(** ** Timestamps *)

Section Timestamps.
Context `{host : HostOrder}.

(** The value of a duration after its journey as a 16-bit float. *)
Definition rounded (us : Z) : Z := ufloat16_decode (ufloat16_encode us).

Lemma rounded_le us : 0 <= us -> 0 <= rounded us <= us.
Proof. intros Hus. by apply ufloat16_rounding. Qed.

(** Packets within 255 of the largest, at times that do not go back. *)
Fixpoint times_ok (largest prev : Z) (times : list (Z * Z)) : Prop :=
  match times with
  | [] => True
  | (pn, t) :: times => (0 <= pn <= largest /\ largest <= pn + 255) /\ prev <= t < 2 ^ 62 /\ times_ok largest t times
  end.

Fixpoint more_times_bytes (e : Endianness) (largest prev : Z) (times : list (Z * Z)) : list Z :=
  match times with
  | [] => []
  | (pn, t) :: times =>
      mem_bytes 1 (largest - pn) ++ wire_bytes e 2 (ufloat16_encode (t - prev)) ++ more_times_bytes e largest t times
  end.

(** What the receiver makes of the further times: the time since its own
    creation grows by the rounded differences. *)
Fixpoint received_times (creation since prev : Z) (times : list (Z * Z)) : list (Z * Z) :=
  match times with
  | [] => []
  | (pn, t) :: times =>
      let since := since + rounded (t - prev) in (pn, creation + since) :: received_times creation since t times
  end.
Fixpoint received_since (since prev : Z) (times : list (Z * Z)) : Z :=
  match times with [] => since | (pn, t) :: times => received_since (since + rounded (t - prev)) t times end.

Lemma more_times_length e largest prev times : length (more_times_bytes e largest prev times) = (3 * length times)%nat.
Proof.
  revert prev. induction times as [|[pn t] times IH]; intros prev; [done|]. cbn [more_times_bytes length].
  rewrite !length_app, mem_bytes_length, wire_bytes_length, IH. lia.
Qed.

Lemma largest_delta largest pn : 0 <= largest < 2 ^ 64 -> 0 <= pn <= largest /\ largest <= pn + 255 ->
  largest -64 pn = largest - pn /\ (largest - pn >? 255) = false /\ fits 1 (largest - pn).
Proof.
  intros Hl Hd. rewrite u64_id by (unfold is_u64; lia). split_and!; [done| |unfold fits; lia].
  destruct (Z.gtb_spec (largest - pn) 255); [lia|done].
Qed.

Lemma time_diff a b : 0 <= b <= a -> a < 2 ^ 62 -> u64 (Delta_ToMicroseconds (QuicTime_diff a b)) = a - b.
Proof.
  intros H1 H2. unfold QuicTime_diff, Delta_ToMicroseconds. rewrite i64_id by (unfold is_i64; lia). apply u64_id. unfold is_u64. lia.
Qed.

Lemma appends_more_times e largest prev times :
  0 <= largest < 2 ^ 64 -> 0 <= prev -> times_ok largest prev times ->
  appends e (AppendMoreTimestamps largest times prev) (more_times_bytes e largest prev times).
Proof.
  intros Hl. revert prev. induction times as [|[pn t] times IH]; intros prev Hprev; cbn [times_ok]; [intros; apply appends_true|].
  intros (Hd & Ht & Hr). cbn [AppendMoreTimestamps more_times_bytes].
  destruct (largest_delta largest pn Hl Hd) as (E & Hgt & Hf). rewrite E, Hgt, time_diff by lia.
  apply appends_and; [apply appends_u8|]. apply appends_and; [apply appends_ufloat16|]. apply IH; [lia|done].
Qed.

Lemma with_last_timestamp_twice f a b : with_last_timestamp (with_last_timestamp f a) b = with_last_timestamp f b.
Proof. done. Qed.

Lemma fparses_more_times e post largest prev times f since acc :
  0 <= largest < 2 ^ 64 -> times_ok largest prev times -> 0 <= creation_time_ f < 2 ^ 62 -> 0 <= since <= prev -> prev < 2 ^ 62 ->
  fparses e post (ProcessMoreTimestamps (length times) largest acc) (with_last_timestamp f since)
    (with_last_timestamp f (received_since since prev times)) (more_times_bytes e largest prev times)
    (acc ++ received_times (creation_time_ f) since prev times).
Proof.
  intros Hl. revert prev since acc. induction times as [|[pn t] times IH]; intros prev since acc; cbn [times_ok].
  { intros _ _ _ _. simpl. rewrite app_nil_r. apply fparses_ret. }
  intros (Hd & Ht & Hr) Hc Hs Hprev. cbn [length ProcessMoreTimestamps more_times_bytes received_times received_since].
  destruct (largest_delta largest pn Hl Hd) as (_ & _ & Hf). pose proof (rounded_le (t - prev) ltac:(lia)) as Hro.
  eapply fparses_bind_lift; [by apply parses_u8|]. eapply fparses_bind_lift; [apply parses_ufloat16; lia|]. fold (rounded (t - prev)).
  assert (largest -64 (largest - pn) = pn) as ->.
  { rewrite u64_id by (unfold is_u64 in *; lia). lia. }
  cbn [last_timestamp_ with_last_timestamp creation_time_]. unfold Delta_FromMicroseconds, Delta_add, QuicTime_add.
  intros pre. rewrite (i64_id (rounded (t - prev))) by (unfold is_i64; lia).
  rewrite with_last_timestamp_twice. rewrite (i64_id (since + _)) by (unfold is_i64; lia).
  cbn [last_timestamp_ with_last_timestamp creation_time_]. rewrite (i64_id (creation_time_ f + _)) by (unfold is_i64; lia).
  specialize (IH t (since + rounded (t - prev)) (acc ++ [(pn, creation_time_ f + (since + rounded (t - prev)))]) Hr Hc ltac:(lia) ltac:(lia) pre).
  rewrite <- app_assoc in IH. cbn [app] in IH. exact IH.
Qed.
End Timestamps.

(** ** The whole frame *)

(** The smallest number of the newest interval, and the older intervals. *)
Definition ack_top (a : AckFrame_t) : Z :=
  match rev (pnq_list (packets a)) with [] => largest_observed a + 1 | i :: _ => min_ i end.
Definition ack_rest (a : AckFrame_t) : list Interval := tail (rev (pnq_list (packets a))).
Definition ack_blocks (a : AckFrame_t) : list (Z * Z) := blocks (ack_top a) (ack_rest a).

(** A frame as the receiving side builds it: the largest observed packet ends
    the newest interval, and numbers, delay and times are in range. *)
Definition ack_ok (version : Z) (creation_time : Z) (a : AckFrame_t) : Prop :=
  pnq_ok (packets a) /\ 0 <= largest_observed a /\ largest_observed a + 1 < pn_max version /\ largest_observed a < 2 ^ 64 - 512 /\
  (forall i, last (pnq_list (packets a)) = Some i -> max_ i = largest_observed a + 1) /\
  0 <= ack_delay_time a <= kI64Max /\ (length (received_packet_times a) <= 255)%nat /\
  times_ok (largest_observed a) creation_time (received_packet_times a) /\ 0 <= creation_time.

Lemma ack_top_spec v c a :
  ack_ok v c a ->
  0 <= ack_top a <= largest_observed a + 1 /\ descending (ack_top a) (ack_rest a) /\
  (forall x, iset_mem x (rev (pnq_list (packets a))) <-> ack_top a <= x < largest_observed a + 1 \/ iset_mem x (ack_rest a)) /\
  length (rev (pnq_list (packets a))) = (length (ack_rest a) + (if decide (pnq_list (packets a) = []) then 0 else 1))%nat.
Proof.
  intros ([Hok Hr] & Hl0 & _ & _ & Hlast & _). unfold ack_top, ack_rest. set (s := pnq_list (packets a)) in *. clearbody s.
  destruct s as [|x s _] using rev_ind.
  { simpl. split_and!; try done; try lia. intros v'. rewrite iset_mem_nil. split; [done|]. intros [?|?]; [lia|done]. }
  rewrite rev_app_distr. cbn [rev app tail]. specialize (Hlast x ltac:(by apply last_snoc)).
  apply iset_ok_app in Hok as H. destruct H as (_ & Hx & _). apply iset_ok_single in Hx. unfold ival_nonempty in Hx.
  apply Forall_app in Hr as H. destruct H as [_ Hrx]. apply Forall_inv in Hrx.
  split_and!; [lia|lia|by apply descending_rev| |].
  - intros v'. rewrite iset_mem_cons. unfold ival_mem. rewrite Hlast. tauto.
  - cbn [length]. destruct (decide (s ++ [x] = [])) as [E|_]; [by destruct s|lia].
Qed.

Lemma ack_info_spec v c a :
  ack_ok v c a ->
  let info := GetAckFrameInfo a in
  first_block_length info = largest_observed a + 1 - ack_top a /\
  0 <= num_ack_blocks info /\ Z.min (num_ack_blocks info) 255 = Z.min (Z.of_nat (length (ack_blocks a))) 255 /\
  0 <= first_block_length info <= max_block_length info /\ max_block_length info < pn_max v /\
  Forall (fun b => 0 <= snd b <= max_block_length info) (take 255 (ack_blocks a)).
Proof.
  intros Hok. destruct (ack_top_spec v c a Hok) as (Ht & Hd & _). destruct Hok as (Hpn & Hl0 & Hl & Hlb & Hlast & _).
  unfold ack_blocks. revert Ht Hd. unfold GetAckFrameInfo, ack_top, ack_rest. set (s := pnq_list (packets a)) in *.
  destruct Hpn as [Hiok _]. fold s in Hiok. clearbody s. destruct s as [|x s _] using rev_ind.
  { simpl. intros _ _. split_and!; try done; lia. }
  rewrite rev_app_distr. cbn [rev app tail]. intros Ht Hd. specialize (Hlast x ltac:(by apply last_snoc)).
  apply iset_ok_app in Hiok as (_ & Hx & _). apply iset_ok_single in Hx. unfold ival_nonempty in Hx.
  rewrite Interval_Length_nonempty by done.
  destruct (GetAckFrameInfo_loop_spec (rev s) (min_ x) (MkAckFrameInfo (max_ x - min_ x) (max_ x - min_ x) 0) Hd)
    as (H1 & H2 & H3 & H4 & H5); try (cbn [num_ack_blocks max_block_length]; lia).
  cbn [first_block_length num_ack_blocks max_block_length] in *. rewrite H1. split_and!; try lia. exact H5.
Qed.

Section AckFrame.
Context `{host : HostOrder}.

(** [wr] writes [x] and then does what [k] does. *)
Definition leads (e : Endianness) (wr : Wr) (x : list Z) (k : Wr) : Prop :=
  forall w, dw_ok w -> dw_endianness_ w = e -> (dw_length_ w + length x <= dw_capacity w)%nat -> wr w = k (dw_put w x).

Lemma leads_done e k : leads e k [] k.
Proof. intros w Hok _ _. by rewrite dw_put_nil. Qed.

Lemma leads_step e a b x y k : emits e a x -> leads e b y k -> leads e (a >&> b) (x ++ y) k.
Proof.
  intros Ha Hb w Hok He Hr. rewrite length_app in Hr. unfold wr_and. rewrite Ha by (done || lia).
  destruct (dw_put_ok w x ltac:(lia)) as [Hok' Hcap]. rewrite Hb; [|done|done|rewrite Hcap; simpl; lia].
  by rewrite dw_put_put by (rewrite length_app; lia).
Qed.

Lemma emits_packet_number e n v :
  partial_ok e -> In n [1; 2; 4; 6; 8]%nat -> emits e (AppendPacketNumber n v) (wire_bytes e n v).
Proof.
  intros Hp Hn. apply appends_emits. assert (AppendPacketNumber n v = WriteBytesToUInt64 n v /\ (n <= 8)%nat) as [-> ?].
  { simpl in Hn. destruct Hn as [<-|[<-|[<-|[<-|[<-|[]]]]]]; (split; [done|lia]). }
  by apply appends_partial.
Qed.

(** A byte replaced after more has been written. *)
Lemma copy_at_replace buf l a (x y : Z) b :
  (l + length (a ++ x :: b) <= length buf)%nat ->
  copy_at (copy_at buf l (a ++ x :: b)) (l + length a) [y] = copy_at buf l (a ++ y :: b).
Proof.
  intros Hl. unfold copy_at. rewrite !length_app in *. cbn [length] in *.
  set (pre := take l buf). set (post := drop (l + (length a + S (length b))) buf).
  assert (length pre = l) as Hpre by (unfold pre; rewrite length_take; lia). rewrite <- !app_assoc. cbn [app].
  rewrite (app_assoc pre a), (app_assoc pre a (y :: _)). rewrite <- Hpre, <- length_app.
  rewrite take_mid. f_equal. f_equal. rewrite Nat.add_1_r. by rewrite drop_mid.
Qed.

Lemma WriteUInt8AtOffset_spec w a x b v :
  dw_ok w -> (dw_length_ w + length (a ++ x :: b) <= dw_capacity w)%nat -> fits 1 v ->
  WriteUInt8AtOffset v (dw_length_ w + length a) (dw_put w (a ++ x :: b)) = (true, dw_put w (a ++ v :: b)).
Proof.
  intros Hok Hr Hv. unfold WriteUInt8AtOffset, dw_put. cbn [dw_length_ dw_buffer_ dw_endianness_].
  rewrite length_app in *. cbn [length] in *.
  destruct (Nat.ltb_spec (dw_length_ w + (length a + S (length b))) (dw_length_ w + length a)); [lia|].
  unfold WriteUInt8, WriteBytes, BeginWrite, dw_capacity in *. cbn [dw_length_ dw_buffer_ dw_endianness_].
  rewrite copy_at_length by (rewrite length_app; simpl; lia). rewrite mem_bytes_length.
  destruct (Nat.ltb_spec (length (dw_buffer_ w)) (dw_length_ w + length a)); [lia|].
  destruct (Nat.ltb_spec (length (dw_buffer_ w) - (dw_length_ w + length a)) 1); [lia|]. cbn [dw_buffer_ dw_endianness_].
  f_equal. f_equal; [|rewrite length_app; simpl; lia].
  assert (mem_bytes 1 v = [v]) as ->.
  { unfold mem_bytes, be_bytes. unfold fits in Hv. simpl. rewrite Z.mod_small by lia. by destruct HostIsLittleEndian. }
  apply copy_at_replace. rewrite length_app. simpl. lia.
Qed.

Lemma num_blocks_byte n : partial_ok HOST_BYTE_ORDER -> fits 1 n -> take 1 (mem_bytes 8 n) = mem_bytes 1 n.
Proof. intros Hp _. unfold mem_bytes. rewrite (Hp eq_refl). by rewrite le_bytes_take by lia. Qed.

Definition pn_lengths (version : Z) : list nat := if version <=? 39 then [1; 2; 4; 6]%nat else [1; 2; 4; 8]%nat.

Lemma ack_type_byte_spec v has lal abl :
  In lal (pn_lengths v) -> In abl (pn_lengths v) ->
  let t := ack_type_byte v has lal abl in
  (ExtractBits t kBooleanNumBits (if v <? 40 then kQuicHasMultipleAckBlocksOffset_Pre40 else kQuicHasMultipleAckBlocksOffset) =? 0)
    = negb has /\
  ReadAckPacketNumberLength v (ExtractBits t kQuicSequenceNumberLengthNumBits kActBlockLengthOffset) = abl /\
  ReadAckPacketNumberLength v (ExtractBits t kQuicSequenceNumberLengthNumBits kLargestAckedOffset) = lal /\
  fits 1 t /\ Z.land t kQuicFrameTypeSpecialMask <> 0 /\
  (if v <? 40 then Z.land t kQuicFrameTypeStreamMask_Pre40 = 0 /\ Z.land t kQuicFrameTypeAckMask_Pre40 <> 0
   else Z.land t kQuicFrameTypeStreamMask <> kQuicFrameTypeStreamMask /\ Z.land t kQuicFrameTypeSpecialMask = kQuicFrameTypeAckMask).
Proof.
  unfold pn_lengths, ack_type_byte, ReadAckPacketNumberLength.
  destruct (Z.leb_spec v 39), (Z.ltb_spec v 40); try lia; intros Hl Ha; simpl in Hl, Ha;
    destruct Hl as [<-|[<-|[<-|[<-|[]]]]], Ha as [<-|[<-|[<-|[<-|[]]]]], has;
    (split; [reflexivity|]); (split; [reflexivity|]); (split; [reflexivity|]);
    (split; [unfold fits; vm_compute; split; discriminate || reflexivity|]); split_and!; vm_compute; done.
Qed.

Lemma pn_lengths_all v n : In n (pn_lengths v) -> In n [1; 2; 4; 6; 8]%nat /\ (n <= 8)%nat.
Proof. unfold pn_lengths. destruct (v <=? 39); simpl; intuition lia. Qed.

(** The parts of the frame. *)
Definition ack_lal (v : Z) (a : AckFrame_t) : nat := GetMinPacketNumberLength v (largest_observed a).
Definition ack_abl (v : Z) (a : AckFrame_t) : nat := GetMinPacketNumberLength v (max_block_length (GetAckFrameInfo a)).
Definition ack_written (a : AckFrame_t) : list (Z * Z) := take 255 (ack_blocks a).
Definition ack_delay_us (a : AckFrame_t) : Z :=
  if Delta_IsInfinite (ack_delay_time a) then kUFloat16MaxValue else ack_delay_time a.
Definition ack_times_bytes (e : Endianness) (creation : Z) (a : AckFrame_t) : list Z :=
  match received_packet_times a with
  | [] => []
  | (pn, t) :: times =>
      mem_bytes 1 (largest_observed a - pn) ++ wire_bytes e 4 ((t - creation) mod 2 ^ 32)
      ++ more_times_bytes e (largest_observed a) t times
  end.
Definition ack_count_bytes (a : AckFrame_t) : list Z :=
  match ack_written a with [] => [] | _ => mem_bytes 1 (Z.of_nat (length (ack_written a))) end.
Definition ack_type (v : Z) (a : AckFrame_t) : Z :=
  ack_type_byte v (match ack_written a with [] => false | _ => true end) (ack_lal v a) (ack_abl v a).

Definition ack_front (v : Z) (a : AckFrame_t) : list Z :=
  mem_bytes 1 (ack_type v a) ++ (if v <=? 39 then [] else ack_count_bytes a).
Definition ack_middle (v : Z) (e : Endianness) (a : AckFrame_t) : list Z :=
  wire_bytes e (ack_lal v a) (largest_observed a) ++ wire_bytes e 2 (ufloat16_encode (ack_delay_us a))
  ++ (if v <=? 39 then ack_count_bytes a else [])
  ++ wire_bytes e (ack_abl v a) (largest_observed a + 1 - ack_top a) ++ blocks_bytes e (ack_abl v a) (ack_written a).
Definition ack_num_times (a : AckFrame_t) : Z := Z.of_nat (length (received_packet_times a)).
Definition ack_bytes (v : Z) (e : Endianness) (creation : Z) (a : AckFrame_t) : list Z :=
  if v <=? 39 then ack_front v a ++ ack_middle v e a ++ mem_bytes 1 (ack_num_times a) ++ ack_times_bytes e creation a
  else ack_front v a ++ ack_num_times a :: ack_middle v e a ++ ack_times_bytes e creation a.

Lemma ack_count_length a : length (ack_count_bytes a) = match ack_written a with [] => 0 | _ => 1 end%nat.
Proof. unfold ack_count_bytes. destruct (ack_written a); [done|]. apply mem_bytes_length. Qed.

Lemma ack_times_length e c a : length (ack_times_bytes e c a) = GetAckFrameTimeStampSize a.
Proof.
  unfold ack_times_bytes, GetAckFrameTimeStampSize. destruct (received_packet_times a) as [|[pn t] times]; [done|].
  rewrite !length_app, mem_bytes_length, wire_bytes_length, more_times_length. lia.
Qed.

Lemma ack_num_blocks v c a :
  ack_ok v c a ->
  Z.min (num_ack_blocks (GetAckFrameInfo a)) kMaxAckBlocks = Z.of_nat (length (ack_written a)) /\
  (num_ack_blocks (GetAckFrameInfo a) =? 0) = match ack_written a with [] => true | _ => false end /\
  (length (ack_written a) <= 255)%nat.
Proof.
  intros Hok. destruct (ack_info_spec v c a Hok) as (_ & H0 & Hmin & _). change kMaxAckBlocks with 255.
  assert (length (ack_written a) = length (ack_blocks a) `min` 255)%nat as Hlen by (unfold ack_written; rewrite length_take; lia).
  split_and!; [lia| |lia]. destruct (Z.eqb_spec (num_ack_blocks (GetAckFrameInfo a)) 0), (ack_written a); simpl in *; try done; lia.
Qed.

Lemma ack_bytes_length v e c a : ack_ok v c a -> length (ack_bytes v e c a) = GetAckFrameSize v a.
Proof.
  intros Hok. destruct (ack_num_blocks v c a Hok) as (Hn & Hz & _).
  unfold ack_bytes, ack_front, ack_middle, GetAckFrameSize. fold (ack_lal v a) (ack_abl v a). rewrite Hn, Hz, Nat2Z.id.
  unfold GetMinAckFrameSize, kQuicFrameTypeSize, kQuicDeltaTimeLargestObservedSize, kQuicNumTimestampsSize, kNumberOfAckBlocksSize.
  pose proof (blocks_bytes_length e (ack_abl v a) (ack_written a)) as Hb.
  destruct (v <=? 39); repeat (rewrite ?length_app; cbn [length]);
    rewrite ?mem_bytes_length, ?wire_bytes_length, ack_count_length, ack_times_length, Hb; destruct (ack_written a); cbn [length]; lia.
Qed.

Lemma emits_count v c a :
  partial_ok HOST_BYTE_ORDER -> ack_ok v c a -> forall e,
  emits e (if Z.of_nat (length (ack_written a)) >? 0 then write_num_ack_blocks (Z.of_nat (length (ack_written a))) else wr_true)
    (ack_count_bytes a).
Proof.
  intros Hp Hok e. destruct (ack_num_blocks v c a Hok) as (_ & _ & Hle). unfold ack_count_bytes, write_num_ack_blocks.
  destruct (ack_written a) as [|b bl] eqn:E; [apply appends_emits, appends_true|].
  destruct (Z.gtb_spec (Z.of_nat (length (b :: bl))) 0) as [_|?]; [|simpl in *; lia].
  rewrite num_blocks_byte; [apply appends_emits, appends_bytes|done|unfold fits; lia].
Qed.

Lemma emits_true e : emits e wr_true [].
Proof. apply appends_emits, appends_true. Qed.

Lemma appends_ack_times v e c a :
  ack_ok v c a ->
  appends e (match received_packet_times a with
    | [] => wr_true
    | (packet_number, time) :: times =>
        let delta_from_largest_observed := largest_observed a -64 packet_number in
        if delta_from_largest_observed >? 255 then wr_false
        else
          WriteUInt8 delta_from_largest_observed >&>
          WriteUInt32 (Z.land (u64 (Delta_ToMicroseconds (QuicTime_diff time c))) (Z.shiftl 1 32 - 1)) >&>
          AppendMoreTimestamps (largest_observed a) times time
    end) (ack_times_bytes e c a).
Proof.
  intros (_ & Hl0 & _ & Hl & _ & _ & _ & Ht & Hc). unfold ack_times_bytes. destruct (received_packet_times a) as [|[pn t] times]; [apply appends_true|].
  cbn [times_ok] in Ht. destruct Ht as (Hd & Ht & Hr). destruct (largest_delta (largest_observed a) pn ltac:(lia) Hd) as (E & Hgt & _).
  cbv zeta. rewrite E, Hgt, time_diff by lia. change (Z.shiftl 1 32 - 1) with (Z.ones 32). rewrite Z.land_ones by lia.
  apply appends_and; [apply appends_u8|]. apply appends_and; [apply appends_u32|]. apply appends_more_times; [lia|lia|done].
Qed.

Lemma num_times_byte v c a : ack_ok v c a -> fits 1 (ack_num_times a) /\ (ack_num_times a >? 255) = false.
Proof.
  intros (_ & _ & _ & _ & _ & _ & Hn & _). unfold ack_num_times, fits. split; [simpl; lia|].
  destruct (Z.gtb_spec (Z.of_nat (length (received_packet_times a))) 255); [lia|done].
Qed.

Lemma AppendTimestamps_old v e c a off : ack_ok v c a -> v <= 39 ->
  emits e (AppendTimestampsToAckFrame v c a off) (mem_bytes 1 (ack_num_times a) ++ ack_times_bytes e c a).
Proof.
  intros Hok Hv. destruct (num_times_byte v c a Hok) as [_ Hgt]. unfold AppendTimestampsToAckFrame. fold (ack_num_times a).
  rewrite Hgt, (proj2 (Z.leb_le v 39)) by lia. apply emits_and; apply appends_emits; [apply appends_bytes|by eapply appends_ack_times].
Qed.

Lemma AppendTimestamps_new v e c a w front middle x :
  ack_ok v c a -> 39 < v -> dw_ok w -> dw_endianness_ w = e ->
  (dw_length_ w + length (front ++ x :: middle) + GetAckFrameTimeStampSize a <= dw_capacity w)%nat ->
  AppendTimestampsToAckFrame v c a (dw_length_ w + length front) (dw_put w (front ++ x :: middle))
  = (true, dw_put w (front ++ ack_num_times a :: middle ++ ack_times_bytes e c a)).
Proof.
  intros Hok Hv Hdw He Hr. destruct (num_times_byte v c a Hok) as [Hf Hgt]. unfold AppendTimestampsToAckFrame. fold (ack_num_times a).
  rewrite Hgt. destruct (Z.leb_spec v 39); [lia|]. unfold wr_and at 1.
  rewrite (WriteUInt8AtOffset_spec w front x middle) by (done || lia).
  assert (length (front ++ ack_num_times a :: middle) = length (front ++ x :: middle)) as Hlen by (rewrite !length_app; done).
  destruct (dw_put_ok w (front ++ ack_num_times a :: middle)) as [Hok' Hcap]; [rewrite Hlen; lia|].
  rewrite (appends_emits e _ _ (appends_ack_times v e c a Hok)); [|done|done|].
  - rewrite dw_put_put; [by rewrite <- app_assoc|]. rewrite length_app, Hlen, ack_times_length. lia.
  - rewrite Hcap, ack_times_length. unfold dw_put. cbn [dw_length_]. rewrite Hlen. lia.
Qed.

Lemma ack_lengths v c a : ack_ok v c a -> In (ack_lal v a) (pn_lengths v) /\ In (ack_abl v a) (pn_lengths v) /\
  fits (ack_lal v a) (largest_observed a) /\ fits (ack_abl v a) (largest_observed a + 1 - ack_top a) /\
  Forall (fun b => fits (ack_abl v a) (snd b)) (ack_written a).
Proof.
  intros Hok. destruct (ack_info_spec v c a Hok) as (Hf & _ & _ & Hfm & Hmax & Hall). destruct Hok as (_ & Hl0 & Hl & _).
  destruct (GetMinPacketNumberLength_fits v (largest_observed a)) as [H1 H2]; [lia|].
  destruct (GetMinPacketNumberLength_fits v (max_block_length (GetAckFrameInfo a))) as [H3 H4]; [lia|].
  fold (ack_lal v a) in H1, H2. fold (ack_abl v a) in H3, H4. unfold fits in *. split_and!; try done; try lia.
  unfold ack_written. eapply Forall_impl; [exact Hall|]. intros b Hb. simpl in Hb. lia.
Qed.

Lemma emits_delay e a :
  0 <= ack_delay_time a <= kI64Max ->
  emits e (WriteUFloat16 (if Delta_IsInfinite (ack_delay_time a) then kUFloat16MaxValue
                          else u64 (Delta_ToMicroseconds (ack_delay_time a)))) (wire_bytes e 2 (ufloat16_encode (ack_delay_us a))).
Proof.
  intros Hd. unfold ack_delay_us, Delta_ToMicroseconds. rewrite u64_id by (unfold is_u64, kI64Max in *; lia).
  apply appends_emits, appends_ufloat16.
Qed.

(** With room for [GetAckFrameSize] bytes, the space left limits nothing. *)
Lemma ack_room v c a w :
  ack_ok v c a -> (dw_length_ w + GetAckFrameSize v a <= dw_capacity w)%nat -> Z.of_nat (dw_capacity w) < 2 ^ 31 ->
  let avail := i32 (Z.of_nat (dw_capacity w) - Z.of_nat (dw_length_ w) - Z.of_nat (ack_abl v a)
     - Z.of_nat (GetMinAckFrameSize (ack_lal v a)) - (if num_ack_blocks (GetAckFrameInfo a) =? 0 then 0 else Z.of_nat kNumberOfAckBlocksSize)) in
  Z.min (Z.min (num_ack_blocks (GetAckFrameInfo a)) (u64 (Z.quot avail (Z.of_nat (ack_abl v a) + 1)))) 255
  = Z.of_nat (length (ack_written a)).
Proof.
  intros Hok Hr Hcap. destruct (ack_num_blocks v c a Hok) as (Hnb & Hnz & Hn255). change kMaxAckBlocks with 255 in Hnb.
  destruct (ack_lengths v c a Hok) as (_ & Habl & _). destruct (pn_lengths_all _ _ Habl) as [_ Habl_le].
  unfold GetAckFrameSize in Hr. fold (ack_lal v a) (ack_abl v a) in Hr. change kMaxAckBlocks with 255 in Hr. rewrite Hnb, Nat2Z.id in Hr.
  set (k := if num_ack_blocks (GetAckFrameInfo a) =? 0 then 0 else Z.of_nat kNumberOfAckBlocksSize). set (N := length (ack_written a)) in *.
  assert (N = 0%nat <-> num_ack_blocks (GetAckFrameInfo a) = 0) as HN0.
  { unfold N. revert Hnz. destruct (Z.eqb_spec (num_ack_blocks (GetAckFrameInfo a)) 0), (ack_written a); simpl; intros; try done; split; intros; lia. }
  unfold kNumberOfAckBlocksSize in *. set (ab := ack_abl v a) in *. set (mi := GetMinAckFrameSize _) in *. set (ts := GetAckFrameTimeStampSize a) in *.
  assert (0 <= k <= 1 /\ (dw_length_ w + (mi + ab + Z.to_nat k + N * (ab + 1) + ts) <= dw_capacity w)%nat) as [Hk Hr'].
  { unfold k. destruct (Z.eqb_spec (num_ack_blocks (GetAckFrameInfo a)) 0) as [E|E]; simpl in *; [|lia].
    rewrite (proj2 HN0 E) in *. lia. }
  cbv zeta. assert (Z.of_nat N * (Z.of_nat ab + 1) = Z.of_nat (N * (ab + 1))) as Emul by lia.
  set (M := (N * (ab + 1))%nat) in *. clearbody M. set (x := Z.of_nat (dw_capacity w) - _ - _ - _ - k).
  assert (Z.of_nat M <= x < 2 ^ 31) as Hx by (unfold x; lia). unfold i32.
  rewrite wrapS_id by (change (2 ^ (32 - 1)) with (2 ^ 31); lia). rewrite Z.quot_div_nonneg by lia.
  assert (Z.of_nat N <= x / (Z.of_nat ab + 1)) by (apply Z.div_le_lower_bound; lia).
  assert (x / (Z.of_nat ab + 1) <= x) by (apply Z.div_le_upper_bound; nia).
  rewrite u64_id by (unfold is_u64; lia). lia.
Qed.

Lemma emits_ack_blocks v e c a :
  partial_ok e -> ack_ok v c a ->
  emits e (if Z.of_nat (length (ack_written a)) >? 0 then
             match rev (pnq_list (packets a)) with
             | [] => wr_true
             | last :: itr => AppendAckBlocks itr (min_ last) (ack_abl v a) 0 (Z.of_nat (length (ack_written a)))
             end
           else wr_true) (blocks_bytes e (ack_abl v a) (ack_written a)).
Proof.
  intros Hp Hok. destruct (ack_lengths v c a Hok) as (_ & Habl & _). destruct (pn_lengths_all _ _ Habl) as [Habl8 _].
  destruct (ack_top_spec v c a Hok) as (Htop & Hdesc & _). destruct (ack_num_blocks v c a Hok) as (_ & _ & Hn255).
  destruct Hok as (_ & _ & _ & Hlb & _). destruct (Z.gtb_spec (Z.of_nat (length (ack_written a))) 0) as [Hpos|Hz].
  2: { assert (ack_written a = []) as -> by (apply nil_length_inv; lia). apply appends_emits, appends_true. }
  revert Hdesc Htop Hn255 Hpos. unfold ack_written, ack_blocks, ack_top, ack_rest in *.
  destruct (rev (pnq_list (packets a))) as [|i itr]; [simpl; lia|].
  cbn [tail]. intros Hdesc Htop Hn255 Hpos w' Hok' He' Hr'. rewrite blocks_bytes_length in Hr'.
  set (bl := blocks (min_ i) itr) in *.
  assert (take (Z.to_nat (Z.of_nat (length (take 255 bl)) - 0)) bl = take 255 bl) as Et.
  { rewrite Z.sub_0_r, Nat2Z.id, length_take. destruct (Nat.le_ge_cases (length bl) 255).
    - rewrite Nat.min_r, !take_ge by lia. done.
    - by rewrite Nat.min_l by lia. }
  pose proof (AppendAckBlocks_spec e (ack_abl v a) itr (min_ i) 0 (Z.of_nat (length (take 255 bl))) w' Hp Habl8 Hok' He' Hdesc) as HA.
  cbv zeta in HA. fold bl in HA. rewrite Et in HA. apply HA; lia.
Qed.

(** The frame from the number of received packets on. *)
Definition ack_timestamps (v c : Z) (a : AckFrame_t) (off : nat) : Wr := wr_with (fun writer =>
  if (GetAckFrameTimeStampSize a <=? dw_capacity writer - dw_length_ writer)%nat
  then AppendTimestampsToAckFrame v c a off else WriteBytes (mem_bytes 1 0)).

Lemma ack_timestamps_spec v e c a w front middle :
  ack_ok v c a -> dw_ok w -> dw_endianness_ w = e ->
  (dw_length_ w + (length front + S (length middle) + GetAckFrameTimeStampSize a) <= dw_capacity w)%nat ->
  (v <= 39 -> ack_timestamps v c a 0 (dw_put w (front ++ middle))
     = (true, dw_put w (front ++ middle ++ mem_bytes 1 (ack_num_times a) ++ ack_times_bytes e c a))) /\
  (39 < v -> ack_timestamps v c a (dw_length_ w + length front) (dw_put w (front ++ 0 :: middle))
     = (true, dw_put w (front ++ ack_num_times a :: middle ++ ack_times_bytes e c a))).
Proof.
  intros Hok Hdw He Hr. unfold ack_timestamps, wr_with. split; intros Hv.
  - destruct (dw_put_ok w (front ++ middle)) as [Hok2 Hcap2]; [rewrite length_app; lia|].
    assert (dw_length_ (dw_put w (front ++ middle)) = (dw_length_ w + (length front + length middle))%nat) as Hl2
      by (unfold dw_put; cbn [dw_length_]; by rewrite length_app).
    rewrite Hl2, Hcap2, (proj2 (Nat.leb_le _ _)) by lia.
    rewrite (AppendTimestamps_old v e c a _ Hok Hv _ Hok2 He); [|rewrite Hl2, Hcap2, length_app, mem_bytes_length, ack_times_length; lia].
    rewrite dw_put_put; [by rewrite <- app_assoc|]. rewrite !length_app, mem_bytes_length, ack_times_length. lia.
  - assert (length (front ++ 0 :: middle) = (length front + S (length middle))%nat) as Hlf by (by rewrite length_app).
    destruct (dw_put_ok w (front ++ 0 :: middle)) as [Hok2 Hcap2]; [rewrite Hlf; lia|].
    assert (dw_length_ (dw_put w (front ++ 0 :: middle)) = (dw_length_ w + (length front + S (length middle)))%nat) as Hl2
      by (unfold dw_put; cbn [dw_length_]; by rewrite Hlf).
    rewrite Hl2, Hcap2, (proj2 (Nat.leb_le _ _)) by lia. apply AppendTimestamps_new; try done. rewrite Hlf. lia.
Qed.

(** With room for [GetAckFrameSize] bytes the whole frame is written. *)
Lemma AppendAckFrame_spec v e c a w :
  HostIsLittleEndian = true -> ack_ok v c a -> dw_ok w -> dw_endianness_ w = e ->
  (dw_length_ w + GetAckFrameSize v a <= dw_capacity w)%nat -> (Z.of_nat (dw_capacity w) < 2 ^ 31) ->
  AppendAckFrameAndTypeByte v c a w = (true, dw_put w (ack_bytes v e c a)).
Proof.
  intros Hle Hok Hdw He Hr Hcap. assert (forall e, partial_ok e) as Hpo by (intros ??; done).
  pose proof (ack_room v c a w Hok Hr Hcap) as HN. cbv zeta in HN.
  pose proof (emits_ack_blocks v e c a (Hpo e) Hok) as Hblocks. pose proof (emits_count v c a (Hpo HOST_BYTE_ORDER) Hok e) as Hcount.
  destruct (ack_num_blocks v c a Hok) as (_ & Hnz & _). destruct (ack_lengths v c a Hok) as (Hlal & Habl & _).
  destruct (pn_lengths_all _ _ Hlal) as [Hlal8 _]. destruct (pn_lengths_all _ _ Habl) as [Habl8 _].
  destruct (ack_info_spec v c a Hok) as (Hfirst & _). rewrite <- (ack_bytes_length v e c a Hok) in Hr.
  pose proof (emits_packet_number e (ack_abl v a) (first_block_length (GetAckFrameInfo a)) (Hpo e) Habl8) as Hfb. rewrite Hfirst in Hfb at 2.
  pose proof (emits_packet_number e (ack_lal v a) (largest_observed a) (Hpo e) Hlal8) as Hlargest.
  assert (0 <= ack_delay_time a <= kI64Max) as Hdel by (destruct Hok as (_ & _ & _ & _ & _ & ? & _); done).
  pose proof (emits_delay e a Hdel) as Hdelay.
  assert (emits e (WriteUInt8 (ack_type_byte v (negb (num_ack_blocks (GetAckFrameInfo a) =? 0)) (ack_lal v a) (ack_abl v a)))
           (mem_bytes 1 (ack_type v a))) as Htype.
  { rewrite Hnz. unfold ack_type. destruct (ack_written a); apply appends_emits, appends_u8. }
  unfold AppendAckFrameAndTypeByte, wr_with at 1. fold (ack_lal v a) (ack_abl v a). rewrite HN. clear HN.
  set (N := Z.of_nat (length (ack_written a))) in *. unfold ack_bytes, ack_front, ack_middle in *.
  destruct (Z.leb_spec v 39) as [Hv|Hv], (Z.gtb_spec v 39) as [Hv'|Hv']; try lia; cbn [andb]; rewrite !length_app in Hr; cbn [length] in Hr;
    rewrite ?length_app, ?mem_bytes_length, ?ack_times_length, ?wire_bytes_length in Hr.
  - erewrite (leads_step e _ _ _ _ _ Htype (leads_step e _ _ _ _ _ (emits_true e) (leads_done e _)) w Hdw He);
      [|rewrite !length_app, mem_bytes_length; simpl; lia].
    set (front := _ ++ [] ++ []). assert (length front = 1%nat) as Hlf by (unfold front; rewrite !length_app, mem_bytes_length; done).
    destruct (dw_put_ok w front ltac:(lia)) as [Hok1 Hcap1]. unfold wr_with at 1.
    erewrite (leads_step e _ _ _ _ _ (emits_true e) (leads_step e _ _ _ _ _ Hlargest (leads_step e _ _ _ _ _ Hdelay
      (leads_step e _ _ _ _ _ Hcount (leads_step e _ _ _ _ _ Hfb (leads_step e _ _ _ _ _ Hblocks (leads_done e _)))))) _ Hok1 He);
      [|rewrite Hcap1, !length_app, !wire_bytes_length; unfold dw_put; cbn [dw_length_]; rewrite Hlf; simpl; lia].
    rewrite dw_put_put by (rewrite !length_app, !wire_bytes_length; simpl; lia). rewrite !app_nil_l, !app_nil_r.
    change (wr_with _) with (ack_timestamps v c a 0). unfold front. rewrite !app_nil_r.
    apply (ack_timestamps_spec v e c a w (mem_bytes 1 (ack_type v a))); try done; try lia.
    rewrite !length_app, !wire_bytes_length, mem_bytes_length. lia.
  - erewrite (leads_step e _ _ _ _ _ Htype (leads_step e _ _ _ _ _ Hcount (leads_done e _)) w Hdw He);
      [|rewrite !length_app, mem_bytes_length; simpl; lia]. rewrite app_nil_r.
    set (front := mem_bytes 1 _ ++ _). assert (length front = 1 + length (ack_count_bytes a))%nat as Hlf by (unfold front; by rewrite !length_app, mem_bytes_length).
    destruct (dw_put_ok w front ltac:(lia)) as [Hok1 Hcap1]. unfold wr_with at 1.
    change (dw_length_ (dw_put w front)) with (dw_length_ w + length front)%nat.
    erewrite (leads_step e _ _ _ _ _ (appends_emits e _ _ (appends_u8 e 0)) (leads_step e _ _ _ _ _ Hlargest (leads_step e _ _ _ _ _ Hdelay
      (leads_step e _ _ _ _ _ (emits_true e) (leads_step e _ _ _ _ _ Hfb (leads_step e _ _ _ _ _ Hblocks (leads_done e _)))))) _ Hok1 He);
      [|rewrite Hcap1, !length_app, !wire_bytes_length, mem_bytes_length; unfold dw_put; cbn [dw_length_]; rewrite Hlf; simpl; lia].
    rewrite dw_put_put by (rewrite !length_app, !wire_bytes_length, mem_bytes_length; simpl; lia). rewrite !app_nil_l, !app_nil_r.
    change (wr_with _) with (ack_timestamps v c a (dw_length_ w + length front)).
    assert (mem_bytes 1 0 = [0]) as -> by (unfold mem_bytes, be_bytes; by destruct HostIsLittleEndian). cbn [app].
    apply (ack_timestamps_spec v e c a w front); try done; try lia. rewrite !length_app, !wire_bytes_length. lia.
Qed.

(** ** Reading the frame *)

(** What the receiver [g] makes of the times of a frame sent by an endpoint
    created at [c]. *)
Definition ack_received_times (c : Z) (g : QuicFramer) (a : AckFrame_t) : list (Z * Z) :=
  match received_packet_times a with
  | [] => []
  | (pn, t) :: times => (pn, creation_time_ g + (t - c)) :: received_times (creation_time_ g) (t - c) t times
  end.
Definition after_ack (c : Z) (g : QuicFramer) (a : AckFrame_t) : QuicFramer :=
  match received_packet_times a with
  | [] => g
  | (pn, t) :: times => with_last_timestamp g (received_since (t - c) t times)
  end.

(** The receiver's clock is in range and the first time is within half an epoch
    of the last one it saw. *)
Definition ack_receiver_ok (c : Z) (g : QuicFramer) (a : AckFrame_t) : Prop :=
  match received_packet_times a with
  | [] => True
  | (pn, t) :: _ =>
      0 <= creation_time_ g < 2 ^ 62 /\ 0 <= last_timestamp_ g <= kI64Max /\ 2 * Z.abs (t - c - last_timestamp_ g) < 2 ^ 32
  end.

Lemma fparses_ack_times v e c g a post :
  ack_ok v c a -> ack_receiver_ok c g a ->
  fparses e post (ProcessTimestampsInAckFrame (ack_num_times a) (largest_observed a)) g (after_ack c g a)
    (ack_times_bytes e c a) (ack_received_times c g a).
Proof.
  intros (_ & Hl0 & _ & Hl & _ & _ & _ & Ht & Hc) Hg. unfold ProcessTimestampsInAckFrame, ack_num_times, ack_receiver_ok,
    after_ack, ack_times_bytes, ack_received_times in *. destruct (received_packet_times a) as [|[pn t] times]; [apply fparses_ret|].
  cbn [times_ok] in Ht. destruct Ht as (Hd & Ht & Hr). destruct Hg as (Hcg & Hlg & Hclose).
  destruct (largest_delta (largest_observed a) pn ltac:(lia) Hd) as (_ & _ & Hf).
  destruct (Z.gtb_spec (Z.of_nat (length ((pn, t) :: times))) 0) as [_|?]; [|simpl in *; lia].
  replace (Z.to_nat (Z.of_nat (length ((pn, t) :: times)) - 1)) with (length times) by (cbn [length]; lia).
  eapply fparses_bind_lift; [by apply parses_u8|].
  eapply fparses_bind_lift; [apply parses_u32; unfold fits; apply Z.mod_pos_bound; lia|].
  assert (largest_observed a -64 (largest_observed a - pn) = pn) as -> by (rewrite u64_id; unfold is_u64; lia).
  intros pre. unfold kI64Max in *. rewrite CalculateTimestampFromWire_spec by (unfold kI64Max; lia).
  cbn [last_timestamp_ with_last_timestamp creation_time_]. unfold QuicTime_add. rewrite i64_id by (unfold is_i64; lia).
  apply (fparses_more_times e post (largest_observed a) t times g (t - c) [(pn, creation_time_ g + (t - c))]); try done; lia.
Qed.

Definition received_delay (a : AckFrame_t) : Z :=
  if rounded (ack_delay_us a) =? kUFloat16MaxValue then Delta_Infinite else rounded (ack_delay_us a).

(** [b] is what is received of [a]: the newest intervals, all of them if at most
    255 blocks describe them. *)
Definition received_ack (c : Z) (g : QuicFramer) (a b : AckFrame_t) : Prop :=
  largest_observed b = largest_observed a /\ ack_delay_time b = received_delay a /\
  received_packet_times b = ack_received_times c g a /\ pnq_ok (packets b) /\
  (exists k, forall x, pnq_mem x (packets b) <-> iset_mem x (take k (rev (pnq_list (packets a))))) /\
  ((length (ack_blocks a) <= 255)%nat -> forall x, pnq_mem x (packets b) <-> pnq_mem x (packets a)).

Definition ack_body (v : Z) (e : Endianness) (c : Z) (a : AckFrame_t) : list Z :=
  if v <=? 39 then ack_middle v e a ++ mem_bytes 1 (ack_num_times a) ++ ack_times_bytes e c a
  else ack_count_bytes a ++ mem_bytes 1 (ack_num_times a) ++ ack_middle v e a ++ ack_times_bytes e c a.

Lemma ack_bytes_body v e c a : ack_ok v c a -> ack_bytes v e c a = mem_bytes 1 (ack_type v a) ++ ack_body v e c a.
Proof.
  intros Hok. destruct (num_times_byte v c a Hok) as [Hf _]. unfold ack_bytes, ack_body, ack_front. destruct (v <=? 39).
  - by rewrite app_nil_r.
  - rewrite <- app_assoc. f_equal. f_equal. unfold fits in Hf. unfold mem_bytes, be_bytes. simpl. rewrite Z.mod_small by lia.
    by destruct HostIsLittleEndian.
Qed.

(** The packets: first the newest interval, then the blocks. *)
Lemma ack_packets_read v c a deque :
  ack_ok v c a ->
  exists q0, PacketNumberQueue_AddRange (PacketNumberQueue_new deque) (ack_top a) (largest_observed a + 1) = Some q0 /\
    pnq_result (PacketNumberQueue_new deque) q0 (fun v => ack_top a <= v < largest_observed a + 1).
Proof.
  intros Hok. destruct (ack_top_spec v c a Hok) as (Htop & _). destruct Hok as (_ & _ & _ & Hl & _).
  assert (pnq_ok (PacketNumberQueue_new deque)) as Hnew by (destruct deque; (split; [apply iset_ok_nil|constructor])).
  destruct (AddRange_result _ (ack_top a) (largest_observed a + 1) Hnew) as (q0 & -> & H1 & H2 & H3); [lia|unfold kU64Max; lia|].
  exists q0. split; [done|]. split_and!; try done. intros x. rewrite H3. split; [|tauto]. intros [Hm|]; [|done].
  exfalso. revert Hm. unfold pnq_mem. destruct deque; simpl; by rewrite iset_mem_nil.
Qed.

Lemma ack_packets_received v c a q' (P : Z -> Prop) :
  ack_ok v c a ->
  (forall x, P x <-> ack_top a <= x < largest_observed a + 1 \/ blocks_mem x (ack_top a) (ack_written a)) ->
  (forall x, pnq_mem x q' <-> P x) ->
  (exists k, forall x, pnq_mem x q' <-> iset_mem x (take k (rev (pnq_list (packets a))))) /\
  ((length (ack_blocks a) <= 255)%nat -> forall x, pnq_mem x q' <-> pnq_mem x (packets a)).
Proof.
  intros Hok HP Hq. destruct (ack_top_spec v c a Hok) as (Htop & Hdesc & Hall & Hlen). destruct Hok as (_ & _ & _ & Hl & Hlast & _).
  destruct (blocks_take (ack_top a) (ack_rest a) 255 Hdesc ltac:(lia)) as (k & Hk & Hfull). fold (ack_blocks a) (ack_written a) in *.
  assert (forall x, iset_mem x (rev (pnq_list (packets a))) <-> pnq_mem x (packets a)) as Hrev.
  { intros x. unfold pnq_mem, iset_mem. split; intros Hx; [|by apply List.Exists_rev].
    rewrite <- (rev_involutive (pnq_list (packets a))). by apply List.Exists_rev. }
  split.
  - unfold ack_rest in *. destruct (rev (pnq_list (packets a))) as [|i itr] eqn:E.
    + exists 0%nat. intros x. rewrite Hq, HP, Hk. cbn [tail take] in *. rewrite take_nil, iset_mem_nil.
      specialize (Hall x). rewrite iset_mem_nil in Hall. tauto.
    + exists (S k). intros x. rewrite Hq, HP, Hk. cbn [tail take]. rewrite iset_mem_cons.
      assert (ival_mem x i <-> ack_top a <= x < largest_observed a + 1) as ->; [|done].
      unfold ack_top, ival_mem. rewrite E, (Hlast i); [done|].
      rewrite <- (rev_involutive (pnq_list (packets a))), E. cbn [rev]. by apply last_snoc.
  - intros Hle x. rewrite Hq, HP, Hk, (Hfull Hle), take_ge by done. rewrite <- Hall. apply Hrev.
Qed.

Lemma parses_count e post v c a :
  ack_ok v c a ->
  parses e post (if (match ack_written a with [] => false | _ => true end) then ReadUInt8 else rd_ret 0) (ack_count_bytes a)
    (Z.of_nat (length (ack_written a))).
Proof.
  intros Hok. destruct (ack_num_blocks v c a Hok) as (_ & _ & Hle). unfold ack_count_bytes.
  destruct (ack_written a) eqn:E; [apply parses_ret|]. rewrite <- E in *. apply parses_u8. unfold fits. lia.
Qed.

Lemma parses_delay e post a :
  0 <= ack_delay_time a <= kI64Max ->
  parses e post ReadUFloat16 (wire_bytes e 2 (ufloat16_encode (ack_delay_us a))) (rounded (ack_delay_us a)) /\
  (if rounded (ack_delay_us a) =? kUFloat16MaxValue then Delta_Infinite else Delta_FromMicroseconds (i64 (rounded (ack_delay_us a))))
   = received_delay a.
Proof.
  intros Hd. assert (0 <= ack_delay_us a) as H0.
  { unfold ack_delay_us. rewrite kUFloat16MaxValue_val. destruct (Delta_IsInfinite _); lia. }
  split; [by apply parses_ufloat16|]. unfold received_delay, Delta_FromMicroseconds. case_if; [done|]. apply i64_id.
  destruct (ufloat16_rounding (ack_delay_us a) H0) as (Hr & _ & _ & Hbig). fold (rounded (ack_delay_us a)) in *.
  unfold is_i64. destruct (Z.le_gt_cases kUFloat16MaxValue (ack_delay_us a)) as [Hm|Hm]; [rewrite (Hbig Hm)|];
    rewrite kUFloat16MaxValue_val in *; lia.
Qed.

Lemma fparses_ack v e c g a deque :
  partial_ok e -> ack_ok v c a -> ack_receiver_ok c g a -> quic_version_ g = v ->
  exists b, received_ack c g a b /\ forall post,
    fparses e post (ProcessAckFrame deque (ack_type v a)) g (after_ack c g a) (ack_body v e c a) b.
Proof.
  intros Hp Hok Hg Hv. destruct (ack_lengths v c a Hok) as (Hlal & Habl & Hfl & Hff & Hfb).
  destruct (pn_lengths_all _ _ Hlal) as [_ Hlal8]. destruct (pn_lengths_all _ _ Habl) as [_ Habl8].
  destruct (ack_packets_read v c a deque Hok) as (q0 & Hq0 & Hok0 & _ & Hm0). destruct (ack_top_spec v c a Hok) as (Htop & Hdesc & _).
  assert (largest_observed a < 2 ^ 64 - 512 /\ 0 <= ack_delay_time a <= kI64Max) as [Hl Hdel] by (destruct Hok as (_ & _ & _ & ? & _ & ? & _); done).
  destruct (blocks_bounds (ack_top a) (ack_rest a) Hdesc ltac:(lia)) as [Hbb Hbs]. fold (ack_blocks a) in Hbb, Hbs.
  pose proof (blocks_span_take _ 255 Hbb) as Hspan. fold (ack_written a) in Hspan.
  destruct (ProcessAckBlocks_parses e (ack_abl v a) (ack_written a) (ack_top a) q0 Hp Habl8 Hok0
    ltac:(unfold kU64Max; lia) ltac:(lia) ltac:(by apply Forall_take) Hfb) as (q' & Hblocks & Hok' & _ & Hm').
  exists (MkQuicAckFrame (largest_observed a) (received_delay a) (ack_received_times c g a) q'). split.
  { destruct (ack_packets_received v c a q' _ Hok (fun x => iff_trans (or_iff_compat_r _ (Hm0 x)) (iff_refl _)) Hm') as [H1 H2].
    unfold received_ack. simpl. split_and!; done. }
  set (has := match ack_written a with [] => false | _ => true end).
  destruct (ack_type_byte_spec v has (ack_lal v a) (ack_abl v a) Hlal Habl) as (Hhas & Hrabl & Hrlal & _).
  intros post pre. unfold ProcessAckFrame, ack_type. fold has. rewrite Hv, Hhas, Hrabl, Hrlal, negb_involutive. revert pre.
  assert (0 <= largest_observed a) as Hl0 by (destruct Hok as (_ & ? & _); done).
  assert (largest_observed a +64 1 = largest_observed a + 1) as Es by (apply u64_id; unfold is_u64; lia).
  assert (((largest_observed a + 1) -64 (largest_observed a + 1 - ack_top a)) = ack_top a) as Et by (rewrite u64_id; unfold is_u64; lia).
  destruct (num_times_byte v c a Hok) as [Hnt _]. pose proof (fun post => proj1 (parses_delay e post a Hdel)) as Hpd.
  pose proof (proj2 (parses_delay e [] a Hdel)) as Hdv. pose proof (fun post => parses_count e post v c a Hok) as Hcount. fold has in Hcount.
  unfold ack_body, ack_middle. destruct (Z.leb_spec v 39) as [Hv39|Hv39], (Z.gtb_spec v 39) as [Hv39'|Hv39']; try lia; cbn [andb].
  - eapply fparses_skip; [done|]. eapply fparses_skip; [done|]. rewrite <- !app_assoc.
    eapply fparses_bind_lift; [by apply parses_partial|]. eapply fparses_bind_lift; [apply Hpd|]. rewrite Hdv.
    eapply fparses_bind_lift; [apply Hcount|]. eapply fparses_bind_lift; [by apply parses_partial|].
    rewrite Es, Et, Nat2Z.id. eapply fparses_skip; [intros r; unfold fr_lift; by rewrite Hq0|].
    eapply fparses_bind_lift; [apply Hblocks|]. eapply fparses_bind_lift; [by apply parses_u8|].
    eapply fparses_end; [by eapply fparses_ack_times|done].
  - eapply fparses_bind_lift; [apply Hcount|]. eapply fparses_bind_lift; [by apply parses_u8|]. rewrite <- !app_assoc. cbn [app].
    eapply fparses_bind_lift; [by apply parses_partial|]. eapply fparses_bind_lift; [apply Hpd|]. rewrite Hdv.
    eapply fparses_skip; [done|]. eapply fparses_bind_lift; [by apply parses_partial|].
    rewrite Es, Et, Nat2Z.id. eapply fparses_skip; [intros r; unfold fr_lift; by rewrite Hq0|].
    eapply fparses_bind_lift; [apply Hblocks|]. eapply fparses_skip; [done|].
    eapply fparses_end; [by eapply fparses_ack_times|done].
Qed.
End AckFrame.

(** ** Reading back a written frame *)

Section ReadFrame.
Context `{host : HostOrder}.

(** Before [post], the framer [f] reads the frame [x] from [bs] and becomes [f']. *)
Definition reads_frame (deque : bool) (header : QuicPacketHeader) (e : Endianness) (post : list Z) (f f' : QuicFramer)
    (bs : list Z) (x : QuicFrame) : Prop :=
  forall pre, ProcessFrame deque header f (MkReader (pre ++ bs ++ post) (length pre) e)
              = (inr x, f', MkReader (pre ++ bs ++ post) (length pre + length bs) e).

Lemma reads_frame_intro {A} deque header e post f f' t code (mk : A -> QuicFrame) (m : Fr A) bs x :
  fits 1 t -> (forall r, ProcessFrameOfType deque header t f r = raise code mk m f r) -> fparses e post m f f' bs x ->
  reads_frame deque header e post f f' (mem_bytes 1 t ++ bs) (mk x).
Proof.
  intros Ht Hm Hp pre. unfold ProcessFrame. pose proof (parses_u8 e (bs ++ post) t Ht pre) as Hr. rewrite <- app_assoc, Hr, Hm.
  unfold raise. specialize (Hp (pre ++ mem_bytes 1 t)). rewrite length_app in Hp. rewrite <- app_assoc in Hp. rewrite Hp.
  f_equal. f_equal. rewrite length_app. lia.
Qed.

Lemma ack_dispatch deque header v has lal abl g r :
  In lal (pn_lengths v) -> In abl (pn_lengths v) -> quic_version_ g = v ->
  let t := ack_type_byte v has lal abl in
  ProcessFrameOfType deque header t g r = raise QUIC_INVALID_ACK_DATA AckFrame (ProcessAckFrame deque t) g r.
Proof.
  intros Hl Ha Hv. destruct (ack_type_byte_spec v has lal abl Hl Ha) as (_ & _ & _ & _ & Hs & Hd). cbv zeta.
  set (t := ack_type_byte v has lal abl) in *. unfold ProcessFrameOfType. rewrite Hv, (proj2 (Z.eqb_neq _ _) Hs). cbn [negb].
  revert Hd. rewrite Z.geb_leb. destruct (Z.ltb_spec v 40), (Z.leb_spec 40 v); try lia; intros [H1 H2]; cbn [andb orb].
  - rewrite H1, (proj2 (Z.eqb_neq _ _) H2). done.
  - rewrite (proj2 (Z.eqb_neq _ _) H1), H2. done.
Qed.

Lemma ack_frame_reads v c g a deque header e :
  partial_ok e -> ack_ok v c a -> ack_receiver_ok c g a -> quic_version_ g = v ->
  exists b, received_ack c g a b /\ forall post, reads_frame deque header e post g (after_ack c g a) (ack_bytes v e c a) (AckFrame b).
Proof.
  intros Hp Hok Hg Hv. destruct (fparses_ack v e c g a deque Hp Hok Hg Hv) as (b & Hb & Hread). exists b. split; [done|]. intros post.
  destruct (ack_lengths v c a Hok) as (Hlal & Habl & _). rewrite (ack_bytes_body v e c a Hok).
  eapply reads_frame_intro; [|intros r; by apply ack_dispatch|done].
  by destruct (ack_type_byte_spec v (match ack_written a with [] => false | _ => true end) _ _ Hlal Habl) as (_ & _ & _ & Hf & _).
Qed.
End ReadFrame.

(** C34: acknowledgement frames, in every version.  With the space that
    [GetAckFrameSize] asks for, the frame takes exactly that many bytes, and a
    receiver that reads them (whatever follows) gets the same largest observed
    packet, the delay and the timestamps up to the rounding of the 16-bit
    floats, and as packet numbers those of the newest intervals: exactly the
    same set whenever 255 blocks suffice.  Hosts are little endian, since the
    number of blocks is written as the first byte of an integer in memory. *)
Theorem ack_frame_roundtrip `{host : HostOrder} (deque : bool) (f g : QuicFramer) (header : QuicPacketHeader) (a : AckFrame_t) (w : QuicDataWriter) :
  let v := quic_version_ f in
  HostIsLittleEndian = true -> ack_ok v (creation_time_ f) a -> ack_receiver_ok (creation_time_ f) g a -> quic_version_ g = v ->
  dw_ok w -> dw_endianness_ w = endianness f ->
  (dw_length_ w + GetAckFrameSize v a <= dw_capacity w)%nat -> Z.of_nat (dw_capacity w) < 2 ^ 31 ->
  exists bs b, AppendAckFrameAndTypeByte v (creation_time_ f) a w = (true, dw_put w bs) /\
    length bs = GetAckFrameSize v a /\ received_ack (creation_time_ f) g a b /\
    forall post, reads_frame deque header (endianness f) post g (after_ack (creation_time_ f) g a) bs (AckFrame b).
Proof.
  intros v Hle Hok Hg Hv Hdw He Hr Hcap. assert (partial_ok (endianness f)) as Hpo by (intros ?; done).
  destruct (ack_frame_reads v (creation_time_ f) g a deque header (endianness f) Hpo Hok Hg Hv) as (b & Hb & Hread).
  exists (ack_bytes v (endianness f) (creation_time_ f) a), b. split_and!; try done.
  - by apply AppendAckFrame_spec.
  - by apply ack_bytes_length.
Qed.

Definition example_framer (version : Z) (p : Perspective) : QuicFramer :=
  MkFramer 0 0 0 0 0 version p true 1000 0 [] None.
Definition example_header : QuicPacketHeader := MkPacketHeader (MkPublicHeader 7 8 false false 2 [] None) 400.
Definition example_queue : PacketNumberQueue := MkPacketNumberQueue [] [MkInterval 1 5; MkInterval 7 9; MkInterval 300 303] true.
Definition example_ack (times : list (Z * Z)) : AckFrame_t := MkQuicAckFrame 302 5001 times example_queue.

Lemma example_ack_ok version : 35 <= version <= 41 -> ack_ok version 1000 (example_ack [(300, 1200); (302, 9000)]).
Proof.
  intros Hv. assert (2 ^ 48 <= pn_max version) as Hm by (unfold pn_max; case_if; lia).
  unfold ack_ok, example_ack. cbn [packets largest_observed ack_delay_time received_packet_times].
  split_and!; try (unfold kI64Max; simpl; lia); try lia.
  - split; [change (iset_ok [MkInterval 1 5; MkInterval 7 9; MkInterval 300 303]); rewrite !iset_ok_cons|].
    + pose proof iset_ok_nil. unfold ival_nonempty, gap. split_and!; try done; repeat constructor; simpl; lia.
    + change (pn_range [MkInterval 1 5; MkInterval 7 9; MkInterval 300 303]). unfold pn_range, kU64Max. repeat constructor; simpl; lia.
  - simpl. intros i [= <-]. reflexivity.
Qed.

Lemma ack_frame_roundtrip_witness :
  exists bs b, AppendAckFrameAndTypeByte (host := true) 40 1000 (example_ack [(300, 1200); (302, 9000)])
      (MkWriter (replicate 100 0) 0 NETWORK_BYTE_ORDER) = (true, dw_put (MkWriter (replicate 100 0) 0 NETWORK_BYTE_ORDER) bs) /\
    length bs = GetAckFrameSize 40 (example_ack [(300, 1200); (302, 9000)]) /\
    received_ack 1000 (example_framer 40 IS_SERVER) (example_ack [(300, 1200); (302, 9000)]) b /\
    forall post, reads_frame (host := true) true example_header NETWORK_BYTE_ORDER post (example_framer 40 IS_SERVER)
      (after_ack 1000 (example_framer 40 IS_SERVER) (example_ack [(300, 1200); (302, 9000)])) bs (AckFrame b).
Proof.
  apply (ack_frame_roundtrip (host := true) true (example_framer 40 IS_CLIENT) (example_framer 40 IS_SERVER)).
  - reflexivity.
  - apply (example_ack_ok 40). lia.
  - unfold ack_receiver_ok, kI64Max. simpl. lia.
  - reflexivity.
  - unfold dw_ok. simpl. lia.
  - reflexivity.
  - vm_compute. repeat constructor.
  - reflexivity.
Defined.

(** What a receiver makes of a frame written into [capacity] bytes: whether it
    was written, the first frame or error, and the bytes left after it. *)
Definition written_and_read (version : Z) (a : AckFrame_t) (capacity : nat) : bool * (Z + QuicFrame) * list Z :=
  let e := endianness_of version in
  let '(ok, w) := AppendAckFrameAndTypeByte (host := true) version 1000 a (MkWriter (replicate capacity 0) 0 e) in
  let '(x, _, r) := ProcessFrame (host := true) true example_header (example_framer version IS_SERVER) (MkReader (dw_data w) 0 e) in
  (ok, x, PeekRemainingPayload r).

(** Truncated acknowledgement frames that do not read back.  With ten free
    bytes [GetSerializedFrameLength] lets a first ack frame be truncated; when no
    block fits, the type byte still announces blocks but their number is not
    written, and the receiver rejects the frame.  When the blocks fit and the timestamps do not, versions from 40 on
    write a zero byte after the frame, because the number of timestamps was
    already written, and the receiver reads it as padding. *)
Lemma ack_frame_truncation_errors :
  let old := MkQuicAckFrame 402 0 [] (MkPacketNumberQueue [] [MkInterval 1 5; MkInterval 100 403] true) in
  GetSerializedFrameLength 39 (AckFrame old) 10 true true 2 = 10%nat /\
  (exists r, written_and_read 39 old 10 = (true, inl QUIC_INVALID_ACK_DATA, r)) /\
  GetSerializedFrameLength 40 (AckFrame old) 10 true true 2 = 10%nat /\
  (exists r, written_and_read 40 old 10 = (true, inl QUIC_INVALID_ACK_DATA, r)) /\
  (exists b, written_and_read 40 (example_ack [(300, 1200); (302, 9000)]) 20 = (true, inr (AckFrame b), [0]) /\
     received_packet_times b = []).
Proof.
  split_and!; try reflexivity.
  - eexists. vm_compute. reflexivity.
  - eexists. vm_compute. reflexivity.
  - eexists. vm_compute. split; reflexivity.
Qed.
