(* ===== verification/FramerPacket.v ===== *)
(** * Whole packets: BuildDataPacket and ProcessFrameData

    Every frame of a packet, in order, is read back by the peer; reading ends for
    any input; and the size computed for a frame is the size it takes. *)

From S2P Require Import Prelude Interval IntervalSet IntervalSetFacts PacketNumberQueue PacketNumberQueueFacts PacketSet.
From S2P Require Import QuicTime ReceivedPacketManager QuicData Framer FramerFacts FramerAck.
#[local] Open Scope Z_scope.
#[local] Open Scope wire_scope.

Section Padding.
Context `{host : HostOrder}.

Definition no_zero_first (post : list Z) : Prop := match post with [] => True | b :: _ => b <> 0 end.

Lemma padding_loop e k fuel n pre post :
  no_zero_first post -> (k + length post <= fuel)%nat ->
  ProcessPadding_loop fuel n (MkReader (pre ++ replicate k 0 ++ post) (length pre) e)
  = (n + Z.of_nat k, MkReader (pre ++ replicate k 0 ++ post) (length pre + k) e).
Proof.
  intros Hz. revert n pre fuel. induction k as [|k IH]; intros n pre fuel Hf.
  - rewrite Z.add_0_r, Nat.add_0_r. cbn [replicate app]. destruct fuel as [|fuel]; [done|]. cbn [ProcessPadding_loop].
    unfold IsDoneReading, PeekByte, dr_len_. cbn [dr_data_ dr_pos_]. rewrite length_app.
    destruct post as [|b post]; [simpl length; rewrite Nat.add_0_r, Nat.eqb_refl; done|].
    destruct (Nat.eqb_spec (length pre + length (b :: post)) (length pre)); [done|]. cbn [negb andb].
    destruct (Nat.leb_spec (length pre + length (b :: post)) (length pre)) as [?|_]; [simpl in *; lia|].
    rewrite app_nth2, Nat.sub_diag by lia. cbn [nth]. simpl in Hz. by rewrite (proj2 (Z.eqb_neq _ _) Hz).
  - destruct fuel as [|fuel]; [lia|]. cbn [ProcessPadding_loop replicate app].
    unfold IsDoneReading, PeekByte, dr_len_. cbn [dr_data_ dr_pos_]. rewrite length_app. cbn [length].
    destruct (Nat.eqb_spec (length pre + S (length (replicate k 0 ++ post))) (length pre)); [lia|]. cbn [negb andb].
    destruct (Nat.leb_spec (length pre + S (length (replicate k 0 ++ post))) (length pre)) as [?|_]; [lia|].
    rewrite app_nth2, Nat.sub_diag by lia. cbn [nth Z.eqb].
    unfold ReadBytes, CanRead, dr_len_. cbn [dr_data_ dr_pos_]. rewrite length_app. cbn [length].
    destruct (Nat.leb_spec 1 (length pre + S (length (replicate k 0 ++ post)) - length pre)); [|lia]. cbn [snd dr_endianness_].
    rewrite (snoc_app pre 0 (replicate k 0 ++ post)). replace (length pre + 1)%nat with (length (pre ++ [0])) by (rewrite length_app; simpl; lia).
    rewrite IH by lia. rewrite length_app. cbn [length]. f_equal; [lia|]. f_equal. lia.
Qed.

Lemma parses_padding_new v e k post :
  37 < v -> no_zero_first post -> parses e post (ProcessPaddingFrame v) (replicate k 0) (1 + Z.of_nat k).
Proof.
  intros Hv Hz pre. unfold ProcessPaddingFrame. destruct (Z.leb_spec v 37); [lia|].
  rewrite padding_loop; [by rewrite length_replicate|done|]. unfold BytesRemaining, dr_len_. cbn [dr_data_ dr_pos_].
  rewrite !length_app, length_replicate. lia.
Qed.

Lemma parses_padding_old v e k : v <= 37 -> (Z.of_nat k + 1 < 2 ^ 31) -> parses e [] (ProcessPaddingFrame v) (replicate k 0) (1 + Z.of_nat k).
Proof.
  intros Hv Hk pre. unfold ProcessPaddingFrame. rewrite (proj2 (Z.leb_le v 37)) by lia.
  unfold ReadRemainingPayload, BytesRemaining, dr_len_. cbn [dr_data_ dr_pos_ snd dr_endianness_].
  rewrite app_nil_r, length_app, length_replicate. replace (length pre + k - length pre)%nat with k by lia.
  unfold i32. rewrite wrapS_id by (change (2 ^ (32 - 1)) with (2 ^ 31); lia). f_equal. f_equal. lia.
Qed.

(** How many zero bytes follow the type byte of a padding frame. *)
Definition padding_count (v n : Z) (w : QuicDataWriter) : nat :=
  if (v <=? 37) || (n <? 0) then (dw_capacity w - dw_length_ w)%nat else Z.to_nat (n - 1).

Lemma AppendPaddingFrame_spec v n w :
  dw_ok w -> (v <= 37 \/ n <> 0) -> (dw_length_ w + padding_count v n w <= dw_capacity w)%nat ->
  AppendPaddingFrame v n w = (true, dw_put w (replicate (padding_count v n w) 0)).
Proof.
  intros Hok Hn Hr. unfold dw_ok in Hok. assert (WritePadding w = dw_put w (replicate (dw_capacity w - dw_length_ w) 0)) as Hpad.
  { unfold WritePadding, dw_put. rewrite (proj2 (Nat.ltb_ge _ _)) by lia. rewrite length_replicate. f_equal. lia. }
  unfold AppendPaddingFrame, padding_count in *. destruct (Z.leb_spec v 37); cbn [orb] in *; [by rewrite Hpad|].
  destruct (Z.eqb_spec n 0); [lia|]. destruct (Z.ltb_spec n 0); [by rewrite Hpad|].
  unfold WritePaddingBytes, WriteRepeatedByte, BeginWrite, dw_put. rewrite (proj2 (Nat.ltb_ge _ _)) by lia.
  rewrite (proj2 (Nat.ltb_ge _ _)) by lia. by rewrite length_replicate.
Qed.
End Padding.

(** ** Any frame *)

Section Frame.
Context `{host : HostOrder}.
Variables (hacks deque : bool).

Definition is_padding (frame : QuicFrame) : bool := match frame with PaddingFrame _ => true | _ => false end.
Definition full_padding (v : Z) (frame : QuicFrame) : bool :=
  match frame with PaddingFrame n => (v <=? 37) || (n <? 0) | _ => false end.

(** The bytes a frame needs; padding to the end of the packet needs its type. *)
Definition frame_size (v : Z) (header : QuicPacketHeader) (frame : QuicFrame) (last : bool) : nat :=
  match frame with
  | PaddingFrame n => if full_padding v frame then 1 else Z.to_nat n
  | _ => ComputeFrameLength v frame last (ph_packet_number_length (public_header header))
  end.

(** A frame that [f] may send to [g]. *)
Definition frame_ok (f g : QuicFramer) (header : QuicPacketHeader) (frame : QuicFrame) (last : bool) : Prop :=
  match frame with
  | PaddingFrame n => (full_padding (quic_version_ f) frame = true -> last = true) /\ (37 < quic_version_ f -> n <> 0)
  | RstStreamFrame x => rst_ok x
  | ConnectionCloseFrame x => close_ok x
  | GoAwayFrame x => goaway_ok x
  | WindowUpdateFrame x => window_ok x
  | BlockedFrame id => fits 4 id
  | StopWaitingFrame least_unacked => stop_waiting_ok header least_unacked
  | PingFrame | MtuDiscoveryFrame => True
  | StreamFrame x =>
      fits 4 (sf_stream_id x) /\ is_u64 (sf_offset x) /\ exists data, stream_data (endianness f) (data_producer_ f) x data
  | AckFrame a => ack_ok (quic_version_ f) (creation_time_ f) a /\ ack_receiver_ok (creation_time_ f) g a
  end.

(** What [g] receives for a frame of [f]. *)
Definition frame_received (f g : QuicFramer) (frame x : QuicFrame) : Prop :=
  match frame with
  | PaddingFrame n => exists m, x = PaddingFrame m /\ 1 <= m /\ (full_padding (quic_version_ f) frame = false -> m = n)
  | MtuDiscoveryFrame => x = PingFrame
  | StreamFrame s => exists data, stream_data (endianness f) (data_producer_ f) s data /\ x = StreamFrame (received_stream s data)
  | AckFrame a => exists b, x = AckFrame b /\ received_ack (creation_time_ f) g a b
  | _ => x = frame
  end.

Definition after_frame (f g : QuicFramer) (frame : QuicFrame) : QuicFramer :=
  match frame with AckFrame a => after_ack (creation_time_ f) g a | _ => g end.

(** The frame written at [w] and what is read from its bytes. *)
Definition frame_travels (f g : QuicFramer) (header : QuicPacketHeader) (frame : QuicFrame) (last : bool) (w : QuicDataWriter) : Prop :=
  exists t bs x, AppendFrame f header frame last w = (true, dw_put w (t :: bs)) /\
    (dw_length_ w + S (length bs) <= dw_capacity w)%nat /\
    (full_padding (quic_version_ f) frame = false -> S (length bs) = frame_size (quic_version_ f) header frame last) /\
    (is_padding frame = false -> t <> 0) /\ frame_received f g frame x /\
    forall post, (last = true -> post = []) -> (is_padding frame = true -> no_zero_first post) ->
      reads_frame deque header (endianness f) post g (after_frame f g frame) (t :: bs) x.

Lemma mem_bytes_octet t : fits 1 t -> mem_bytes 1 t = [t].
Proof. unfold fits, mem_bytes, be_bytes. intros Ht. simpl. rewrite Z.mod_small by lia. by destruct HostIsLittleEndian. Qed.

(** Frames whose content is a codec. *)
Lemma codec_frame_travels {A} f g header frame last w t n wr (m : Rd A) code mk x :
  is_padding frame = false -> after_frame f g frame = g -> fits 1 t -> t <> 0 ->
  AppendFrame f header frame last = (WriteUInt8 t >&> wr) ->
  (forall r, ProcessFrameOfType deque header t g r = raise code mk (fr_lift m) g r) ->
  codec (nothing_follows last) (endianness f) n wr m x -> frame_size (quic_version_ f) header frame last = S n ->
  frame_received f g frame (mk x) ->
  dw_ok w -> dw_endianness_ w = endianness f -> (dw_length_ w + frame_size (quic_version_ f) header frame last <= dw_capacity w)%nat ->
  frame_travels f g header frame last w.
Proof.
  intros Hnp Haft Ht Ht0 HA Hdisp (bs & Hlen & Ha & Hp) Hsz Hrec Hok He Hr. exists t, bs, (mk x).
  pose proof (mem_bytes_octet t Ht) as Hmt. rewrite HA, Haft. split_and!; try done.
  - change (t :: bs) with ([t] ++ bs). rewrite <- Hmt. eapply appends_emits; [|done|done|rewrite length_app, mem_bytes_length; lia].
    apply appends_and; [apply appends_u8|done].
  - lia.
  - intros _. lia.
  - intros post Hpost _. change (t :: bs) with ([t] ++ bs). rewrite <- Hmt.
    eapply reads_frame_intro; [done|exact Hdisp|]. by apply fparses_lift, Hp.
Qed.

Lemma stream_dispatch header v s last g r :
  fits 4 (sf_stream_id s) -> is_u64 (sf_offset s) -> quic_version_ g = v ->
  let t := stream_type_byte v s last in
  ProcessFrameOfType deque header t g r = raise QUIC_INVALID_STREAM_DATA StreamFrame (fr_lift (ProcessStreamFrame v t)) g r.
Proof.
  intros Hi Ho Hv. destruct (stream_type_byte_spec v s last Hi Ho) as (_ & _ & Hs & Hd). cbv zeta.
  set (t := stream_type_byte v s last) in *. unfold ProcessFrameOfType. rewrite Hv, (proj2 (Z.eqb_neq _ _) Hs). cbn [negb].
  revert Hd. rewrite Z.geb_leb. destruct (Z.ltb_spec v 40), (Z.leb_spec 40 v); try lia; intros H1; cbn [andb orb].
  - by rewrite (proj2 (Z.eqb_neq _ _) H1).
  - by rewrite H1.
Qed.

Lemma padding_travels f g header n last w :
  quic_version_ g = quic_version_ f -> frame_ok f g header (PaddingFrame n) last -> -1 <= n ->
  dw_ok w -> dw_endianness_ w = endianness f -> Z.of_nat (dw_capacity w) < 2 ^ 31 ->
  (dw_length_ w + frame_size (quic_version_ f) header (PaddingFrame n) last <= dw_capacity w)%nat ->
  frame_travels f g header (PaddingFrame n) last w.
Proof.
  intros Hv [Hlast Hn0] Hn Hok He Hcap Hr. set (v := quic_version_ f) in *. cbn [frame_size full_padding] in *.
  pose proof (mem_bytes_octet PADDING_FRAME ltac:(by split)) as Hmt.
  assert (dw_length_ w + 1 <= dw_capacity w)%nat as Hr1.
  { destruct ((v <=? 37) || (n <? 0)) eqn:Ef; [lia|]. apply orb_false_iff in Ef as [? ?]. bool_to_prop. lia. }
  set (w' := dw_put w [PADDING_FRAME]). destruct (dw_put_ok w [PADDING_FRAME]) as [Hok' Hcap']; [simpl; lia|]. fold w' in Hok', Hcap'.
  assert (dw_length_ w' = dw_length_ w + 1)%nat as Hl' by done. set (k := padding_count v n w').
  assert (dw_length_ w' + k <= dw_capacity w' /\ (full_padding v (PaddingFrame n) = false -> Z.of_nat (S k) = n))%nat as [Hk Hkn].
  { unfold k, padding_count. cbn [full_padding] in *. rewrite Hcap', Hl'.
    destruct ((v <=? 37) || (n <? 0)) eqn:Ef; [split; [lia|done]|]. apply orb_false_iff in Ef as [? ?]. bool_to_prop. split; lia. }
  exists PADDING_FRAME, (replicate k 0), (PaddingFrame (1 + Z.of_nat k)).
  unfold frame_travels, AppendFrame. cbn [AppendTypeByte after_frame is_padding frame_received full_padding] in *. fold v.
  rewrite length_replicate in *. split_and!; try done.
  - unfold wr_and. rewrite (appends_emits _ _ _ (appends_u8 (endianness f) PADDING_FRAME) w Hok He) by (rewrite mem_bytes_length; lia).
    rewrite Hmt. fold w'. rewrite AppendPaddingFrame_spec; [|done|lia|done]. fold k. unfold w'.
    rewrite dw_put_put; [done|]. rewrite length_app, length_replicate. simpl. lia.
  - lia.
  - intros Hf. cbn [frame_size full_padding]. rewrite Hf. specialize (Hkn Hf). lia.
  - exists (1 + Z.of_nat k). split_and!; [done|lia|]. intros Hf. specialize (Hkn Hf). lia.
  - intros post Hpost Hz. change (PADDING_FRAME :: ?l) with ([PADDING_FRAME] ++ l). rewrite <- Hmt.
    eapply reads_frame_intro; [by split|intros r; unfold ProcessFrameOfType; cbn; reflexivity|]. rewrite Hv.
    apply fparses_lift. destruct (Z.le_gt_cases v 37) as [Hold|Hnew].
    + rewrite (Hpost (Hlast ltac:(by rewrite (proj2 (Z.leb_le v 37))))). apply parses_padding_old; lia.
    + apply parses_padding_new; [done|by apply Hz].
Qed.

Lemma ack_travels f g header a last w :
  HostIsLittleEndian = true -> quic_version_ g = quic_version_ f -> ack_ok (quic_version_ f) (creation_time_ f) a ->
  ack_receiver_ok (creation_time_ f) g a ->
  dw_ok w -> dw_endianness_ w = endianness f -> Z.of_nat (dw_capacity w) < 2 ^ 31 ->
  (dw_length_ w + frame_size (quic_version_ f) header (AckFrame a) last <= dw_capacity w)%nat ->
  frame_travels f g header (AckFrame a) last w.
Proof.
  intros Hle Hv Ha Hg Hok He Hcap Hr. cbn [frame_size ComputeFrameLength] in Hr. set (v := quic_version_ f) in *. set (c := creation_time_ f) in *.
  destruct (ack_frame_reads v c g a deque header (endianness f) ltac:(by intros ?) Ha Hg Hv) as (b & Hb & Hread).
  pose proof (ack_bytes_length v (endianness f) c a Ha) as Hlen. pose proof (ack_bytes_body v (endianness f) c a Ha) as Hbody.
  destruct (ack_lengths v c a Ha) as (Hlal & Habl & _).
  destruct (ack_type_byte_spec v (match ack_written a with [] => false | _ => true end) _ _ Hlal Habl) as (_ & _ & _ & Hf & Hs & _).
  fold (ack_type v a) in Hf, Hs. rewrite (mem_bytes_octet _ Hf) in Hbody. cbn [app] in Hbody. rewrite Hbody in Hlen, Hread. cbn [length] in Hlen.
  exists (ack_type v a), (ack_body v (endianness f) c a), (AckFrame b).
  unfold AppendFrame. cbn [AppendTypeByte is_padding full_padding frame_size ComputeFrameLength frame_received after_frame]. fold v c.
  split_and!; try done.
  - unfold wr_and, wr_true. rewrite <- Hbody. by apply AppendAckFrame_spec.
  - lia.
  - intros _ E. rewrite E in Hs. done.
  - by exists b.
Qed.

Lemma AppendFrame_travels f g header frame last w :
  HostIsLittleEndian = true -> quic_version_ g = quic_version_ f -> frame_ok f g header frame last ->
  (forall n, frame = PaddingFrame n -> -1 <= n) ->
  dw_ok w -> dw_endianness_ w = endianness f -> Z.of_nat (dw_capacity w) < 2 ^ 31 ->
  (dw_length_ w + frame_size (quic_version_ f) header frame last <= dw_capacity w)%nat ->
  frame_travels f g header frame last w.
Proof.
  intros Hle Hv Hf Hpad Hok He Hcap Hr. assert (forall e, partial_ok e) as Hp by (intros ??; done).
  pose proof (fun A n wr (m : Rd A) x => codec_weaken any (nothing_follows last) (endianness f) n wr m x (fun _ _ => I)) as Hany.
  destruct frame as [n|x|x|x|x|id|lu| |x|a|].
  - apply padding_travels; try done. by apply Hpad.
  - apply (codec_frame_travels f g header _ last w RST_STREAM_FRAME 16 (AppendRstStreamFrame (quic_version_ f) x)
      (ProcessRstStreamFrame (quic_version_ f)) QUIC_INVALID_RST_STREAM_DATA RstStreamFrame x); try done.
    + intros r. unfold ProcessFrameOfType. by rewrite Hv.
    + by apply Hany, codec_rst.
  - apply (codec_frame_travels f g header _ last w CONNECTION_CLOSE_FRAME (6 + length (cf_error_details x)) (AppendConnectionCloseFrame x)
      ProcessConnectionCloseFrame QUIC_INVALID_CONNECTION_CLOSE_DATA ConnectionCloseFrame x); try done. by apply Hany, codec_close.
  - apply (codec_frame_travels f g header _ last w GOAWAY_FRAME (10 + length (gf_reason_phrase x)) (AppendGoAwayFrame x)
      ProcessGoAwayFrame QUIC_INVALID_GOAWAY_DATA GoAwayFrame x); try done. by apply Hany, codec_goaway.
  - apply (codec_frame_travels f g header _ last w WINDOW_UPDATE_FRAME 12 (AppendWindowUpdateFrame x)
      ProcessWindowUpdateFrame QUIC_INVALID_WINDOW_UPDATE_DATA WindowUpdateFrame x); try done. by apply Hany, codec_window.
  - apply (codec_frame_travels f g header _ last w BLOCKED_FRAME 4 (AppendBlockedFrame id)
      ProcessBlockedFrame QUIC_INVALID_BLOCKED_DATA BlockedFrame id); try done. by apply Hany, codec_blocked.
  - apply (codec_frame_travels f g header _ last w STOP_WAITING_FRAME (ph_packet_number_length (public_header header))
      (AppendStopWaitingFrame header lu) (ProcessStopWaitingFrame header) QUIC_INVALID_STOP_WAITING_DATA StopWaitingFrame lu); try done.
    by apply Hany, codec_stop_waiting.
  - apply (codec_frame_travels f g header PingFrame last w PING_FRAME 0 wr_true (rd_ret tt) 0 (fun _ => PingFrame) tt); try done.
    by apply Hany, codec_true.
  - destruct Hf as (Hi & Ho & data & Hd). destruct (stream_type_byte_spec (quic_version_ f) x last Hi Ho) as (_ & Ht & Hs & _).
    eapply (codec_frame_travels f g header _ last w (stream_type_byte (quic_version_ f) x last) _ (AppendStreamFrame (quic_version_ f) (data_producer_ f) x last)
      (ProcessStreamFrame (quic_version_ f) (stream_type_byte (quic_version_ f) x last)) QUIC_INVALID_STREAM_DATA StreamFrame (received_stream x data)); try done.
    + intros E. rewrite E in Hs. done.
    + intros r. by apply stream_dispatch.
    + by apply codec_stream.
    + exists data. done.
  - destruct Hf as [Ha Hg]. by apply ack_travels.
  - apply (codec_frame_travels f g header MtuDiscoveryFrame last w PING_FRAME 0 wr_true (rd_ret tt) 0 (fun _ => PingFrame) tt); try done. by apply Hany, codec_true.
Qed.

(** ** Sequences of frames *)

Definition is_last (rest : list QuicFrame) : bool := match rest with [] => true | _ => false end.

(** Frames that [f] may put in one packet for [g]; padding is not followed by
    more padding. *)
Fixpoint frames_ok (f g : QuicFramer) (header : QuicPacketHeader) (frames : list QuicFrame) : Prop :=
  match frames with
  | [] => True
  | frame :: rest =>
      frame_ok f g header frame (is_last rest) /\ (forall n, frame = PaddingFrame n -> -1 <= n) /\
      (is_padding frame = true -> match rest with next :: _ => is_padding next = false | [] => True end) /\
      frames_ok f (after_frame f g frame) header rest
  end.

Fixpoint frames_size (v : Z) (header : QuicPacketHeader) (frames : list QuicFrame) : nat :=
  match frames with
  | [] => 0
  | frame :: rest => frame_size v header frame (is_last rest) + frames_size v header rest
  end.

(** The calls of the visitor for a list of frames, until it asks to stop. *)
Fixpoint deliver {V} `{QuicFramerVisitor V} (frames : list QuicFrame) (v : V) : V :=
  match frames with
  | [] => v
  | x :: frames => let '(go_on, v) := OnFrame x v in if go_on : bool then deliver frames v else v
  end.

Lemma after_frame_same f g frame :
  quic_version_ (after_frame f g frame) = quic_version_ g /\ creation_time_ (after_frame f g frame) = creation_time_ g.
Proof. destruct frame; try done. cbn [after_frame]. unfold after_ack. by destruct (received_packet_times f0) as [|[]]. Qed.

Lemma frame_received_same f g g' frame x :
  creation_time_ g' = creation_time_ g -> frame_received f g' frame x -> frame_received f g frame x.
Proof.
  intros Hc. destruct frame; try done. cbn [frame_received]. intros (b & -> & Hb). exists b. split; [done|].
  unfold received_ack, ack_received_times in *. by rewrite Hc in Hb.
Qed.

Lemma AppendFrame_Frames f header frame rest :
  AppendFrames f header (frame :: rest) = (AppendFrame f header frame (is_last rest) >&> AppendFrames f header rest).
Proof. by destruct rest. Qed.

(** What reading the rest of a packet gives. *)
Definition reads_frames (header : QuicPacketHeader) (e : Endianness) (g : QuicFramer) (bs : list Z) (xs : list QuicFrame) : Prop :=
  forall V (visitor : QuicFramerVisitor V) (v : V) pre fuel, (length bs <= fuel)%nat ->
  exists g', ProcessFrameData_loop deque fuel header g (MkReader (pre ++ bs) (length pre) e) v = Some (true, g', deliver xs v).

Lemma reads_frames_nil header e g : reads_frames header e g [] [].
Proof.
  intros V visitor v pre fuel _. exists g. destruct fuel; simpl; unfold IsDoneReading, dr_len_; simpl; rewrite app_nil_r, Nat.eqb_refl; done.
Qed.

Lemma reads_frames_cons header e g g' t bs rest x xs :
  reads_frame deque header e rest g g' (t :: bs) x -> reads_frames header e g' rest xs ->
  reads_frames header e g ((t :: bs) ++ rest) (x :: xs).
Proof.
  intros Hx Hrest V visitor v pre fuel Hf. destruct fuel as [|fuel]; [simpl in Hf; lia|]. cbn [ProcessFrameData_loop].
  unfold IsDoneReading, dr_len_. cbn [dr_data_ dr_pos_]. rewrite length_app. cbn [length app].
  destruct (Nat.eqb_spec (length pre + S (length (bs ++ rest))) (length pre)); [lia|].
  specialize (Hx pre). cbn [app] in Hx. rewrite Hx. cbn [deliver]. destruct (OnFrame x v) as [go v']. destruct go; [|by exists g'].
  destruct (Hrest V visitor v' (pre ++ t :: bs) fuel) as (g'' & Hg); [rewrite length_app in Hf; simpl in Hf; lia|].
  exists g''. rewrite <- app_assoc in Hg. rewrite length_app in Hg. exact Hg.
Qed.

Lemma AppendFrames_travel f g header frames w :
  HostIsLittleEndian = true -> quic_version_ g = quic_version_ f -> frames_ok f g header frames ->
  dw_ok w -> dw_endianness_ w = endianness f -> Z.of_nat (dw_capacity w) < 2 ^ 31 ->
  (dw_length_ w + frames_size (quic_version_ f) header frames <= dw_capacity w)%nat ->
  exists bs xs, AppendFrames f header frames w = (true, dw_put w bs) /\ (dw_length_ w + length bs <= dw_capacity w)%nat /\
    (Forall (fun fr => full_padding (quic_version_ f) fr = false) frames -> length bs = frames_size (quic_version_ f) header frames) /\
    match frames with [] => bs = [] | fr :: _ => exists t bs', bs = t :: bs' /\ (is_padding fr = false -> t <> 0) end /\
    Forall2 (frame_received f g) frames xs /\ reads_frames header (endianness f) g bs xs.
Proof.
  intros Hle Hv Hok Hdw He Hcap. revert g w Hv Hok Hdw He Hcap. induction frames as [|fr rest IH]; intros g w Hv Hok Hdw He Hcap Hr.
  { exists [], []. unfold dw_ok in Hdw. cbn [AppendFrames length frames_size] in *.
    split_and!; [by rewrite dw_put_nil|lia|done|done|constructor|apply reads_frames_nil]. }
  cbn [frames_ok frames_size] in *. destruct Hok as (Hfr & Hneg & Hpp & Hrest).
  destruct (AppendFrame_travels f g header fr (is_last rest) w) as (t & bs & x & HA & Hfit & Hsz & Ht & Hrec & Hread); try done; [lia|].
  destruct (after_frame_same f g fr) as [Hv' Hc']. destruct (dw_put_ok w (t :: bs) Hfit) as [Hdw' Hcap'].
  assert (rest <> [] -> full_padding (quic_version_ f) fr = false) as Hnf.
  { intros Hne. destruct fr; try done. destruct Hfr as [Hl _]. cbn [full_padding] in *. destruct ((quic_version_ f <=? 37) || _); [|done].
    destruct rest; [done|]. by specialize (Hl eq_refl). }
  assert (dw_length_ (dw_put w (t :: bs)) + frames_size (quic_version_ f) header rest <= dw_capacity w)%nat as Hr'.
  { change (dw_length_ (dw_put w (t :: bs))) with (dw_length_ w + S (length bs))%nat. destruct rest as [|y rest]; [simpl; lia|].
    rewrite (Hsz (Hnf ltac:(done))). lia. }
  destruct (IH (after_frame f g fr) (dw_put w (t :: bs))) as (bs2 & xs & HA2 & Hfit2 & Hsz2 & Hhd & Hrecs & Hreads);
    [congruence|done|done|done|by rewrite Hcap'|by rewrite Hcap'|].
  rewrite Hcap' in Hfit2. change (dw_length_ (dw_put w (t :: bs))) with (dw_length_ w + S (length bs))%nat in Hfit2.
  exists ((t :: bs) ++ bs2), (x :: xs). rewrite AppendFrame_Frames. split_and!.
  - unfold wr_and. rewrite HA, HA2. by rewrite dw_put_put by (rewrite length_app; simpl; lia).
  - rewrite length_app. simpl. lia.
  - intros Hall. inversion Hall; subst. rewrite length_app. cbn [length]. rewrite Hsz, Hsz2 by done. done.
  - exists t, (bs ++ bs2). done.
  - constructor; [done|]. eapply Forall2_impl; [exact Hrecs|]. intros. by eapply frame_received_same.
  - eapply reads_frames_cons; [|exact Hreads]. apply Hread.
    + destruct rest; [done|done].
    + intros Hp. specialize (Hpp Hp). destruct rest as [|y rest]; [by rewrite Hhd|]. destruct Hhd as (t2 & bs3 & -> & Hz). by apply Hz.
Qed.
End Frame.

(** ** Any input *)

(** A reading operation moves forward over the same data, whatever the data. *)
Definition moves (r r' : QuicDataReader) : Prop :=
  dr_data_ r' = dr_data_ r /\ dr_endianness_ r' = dr_endianness_ r /\ (dr_pos_ r <= dr_pos_ r' <= dr_len_ r')%nat.

Class Forward {A} (m : Rd A) : Prop := forward r : (dr_pos_ r <= dr_len_ r)%nat -> moves r (snd (m r)).
Class FForward {A} (m : Fr A) : Prop := fforward f r : (dr_pos_ r <= dr_len_ r)%nat ->
  let '(_, f', r') := m f r in moves r r' /\ error_ f' = error_ f.

Lemma moves_refl r : (dr_pos_ r <= dr_len_ r)%nat -> moves r r.
Proof. unfold moves. intros. split_and!; done || lia. Qed.

Lemma moves_len r r' : moves r r' -> dr_len_ r' = dr_len_ r.
Proof. intros (H & _). unfold dr_len_. by rewrite H. Qed.

Lemma moves_trans a b c : moves a b -> moves b c -> moves a c.
Proof. intros Hab Hbc. pose proof (moves_len _ _ Hab). unfold moves in *. destruct Hab as (? & ? & ?), Hbc as (? & ? & ?). split_and!; try congruence; lia. Qed.

Section Forward.
Context `{host : HostOrder}.

#[export] Instance ret_forward {A} (x : A) : Forward (rd_ret x).
Proof. intros r. by apply moves_refl. Qed.
#[export] Instance fail_forward {A} : Forward (@rd_fail A).
Proof. intros r. by apply moves_refl. Qed.
#[export] Instance bind_forward {A B} (m : Rd A) (k : A -> Rd B) : Forward m -> (forall x, Forward (k x)) -> Forward (rd_bind m k).
Proof.
  intros Hm Hk r Hr. unfold rd_bind. specialize (Hm r Hr). destruct (m r) as [[x|] r1]; [|done]. simpl in Hm.
  eapply moves_trans; [exact Hm|]. apply Hk. destruct Hm as (_ & _ & ?). lia.
Qed.
#[export] Instance bytes_forward n : Forward (ReadBytes n).
Proof.
  intros r Hr. unfold ReadBytes, CanRead. destruct (Nat.leb_spec n (dr_len_ r - dr_pos_ r)) as [H|H]; simpl;
    unfold moves, dr_len_ in *; simpl; unfold dr_len_ in *; split_and!; try done; lia.
Qed.
#[export] Instance piece_forward n : Forward (ReadStringPiece n).
Proof. apply (bytes_forward n). Qed.
#[export] Instance rest_forward : Forward (fun r => ReadStringPiece (BytesRemaining r) r).
Proof. intros r Hr. by apply piece_forward. Qed.
#[export] Instance if_forward {A} (b : bool) (x y : Rd A) : Forward x -> Forward y -> Forward (if b then x else y).
Proof. by destruct b. Qed.
#[export] Instance option_forward {A} (x : option A) : Forward (rd_option x).
Proof. destruct x; apply _. Qed.
#[export] Instance u8_forward : Forward ReadUInt8.
Proof. apply _. Qed.
#[export] Instance u16_forward : Forward ReadUInt16.
Proof. intros r Hr. unfold ReadUInt16. by apply bind_forward; [apply _..|]. Qed.
#[export] Instance u32_forward : Forward ReadUInt32.
Proof. intros r Hr. unfold ReadUInt32. by apply bind_forward; [apply _..|]. Qed.
#[export] Instance u64_forward : Forward ReadUInt64.
Proof. intros r Hr. unfold ReadUInt64. by apply bind_forward; [apply _..|]. Qed.
#[export] Instance partial_forward n x : Forward (ReadBytesToUInt64 n x).
Proof.
  unfold ReadBytesToUInt64. intros r Hr. destruct (8 <? n)%nat; [by apply moves_refl|].
  destruct (dr_endianness_ r); by apply bind_forward; [apply _..|].
Qed.
#[export] Instance ufloat_forward : Forward ReadUFloat16.
Proof. apply _. Qed.
#[export] Instance string16_forward : Forward ReadStringPiece16.
Proof. apply _. Qed.

#[export] Instance padding_forward v : Forward (ProcessPaddingFrame v).
Proof.
  intros r Hr. unfold ProcessPaddingFrame. destruct (v <=? 37).
  - unfold moves, ReadRemainingPayload, dr_len_. simpl. unfold dr_len_ in *. split_and!; try done; lia.
  - generalize (BytesRemaining r) as fuel, 1 as n. intros fuel. revert r Hr. induction fuel as [|fuel IH]; intros r Hr n; [by apply moves_refl|].
    cbn [ProcessPadding_loop]. destruct (negb (IsDoneReading r) && (PeekByte r =? 0)); [|by apply moves_refl].
    pose proof (bytes_forward 1 r Hr) as Hm. eapply moves_trans; [exact Hm|]. apply IH. destruct Hm as (_ & _ & ?). lia.
Qed.

#[export] Instance stream_forward v t : Forward (ProcessStreamFrame v t).
Proof.
  unfold ProcessStreamFrame. destruct (stream_flags_decode v t) as [[[? ?] ?] ?].
  repeat (apply bind_forward; [try apply _|intros ?]); apply _.
Qed.

#[export] Instance blocks_forward n k first q : Forward (ProcessAckBlocks n k first q).
Proof. revert first q. induction n as [|n IH]; intros first q; cbn [ProcessAckBlocks]; apply _. Qed.

#[export] Instance lift_fforward {A} (m : Rd A) : Forward m -> FForward (fr_lift m).
Proof. intros Hm f r Hr. unfold fr_lift. specialize (Hm r Hr). by destruct (m r). Qed.
#[export] Instance ret_fforward {A} (x : A) : FForward (fr_ret x).
Proof. intros f r Hr. split; [by apply moves_refl|done]. Qed.
#[export] Instance bind_fforward {A B} (m : Fr A) (k : A -> Fr B) : FForward m -> (forall x, FForward (k x)) -> FForward (fr_bind m k).
Proof.
  intros Hm Hk f r Hr. unfold fr_bind. specialize (Hm f r Hr). destruct (m f r) as [[[x|] f1] r1]; [|done]. destruct Hm as [Hm He].
  assert (dr_pos_ r1 <= dr_len_ r1)%nat as Hr1 by (destruct Hm as (_ & _ & ?); lia).
  specialize (Hk x f1 r1 Hr1). destruct (k x f1 r1) as [[y f2] r2]. destruct Hk as [Hk He2].
  split; [by eapply moves_trans|congruence].
Qed.
#[export] Instance update_fforward {A} (k : QuicFramer -> Fr A) (u : QuicFramer -> QuicFramer) :
  (forall f, FForward (k f)) -> (forall f, error_ (u f) = error_ f) -> FForward (fun f => k f (u f)).
Proof. intros Hk Hu f r Hr. specialize (Hk f (u f) r Hr). destruct (k f (u f) r) as [[x f'] r']. by rewrite Hu in Hk. Qed.

#[export] Instance more_times_fforward n largest acc : FForward (ProcessMoreTimestamps n largest acc).
Proof.
  revert acc. induction n as [|n IH]; intros acc; cbn [ProcessMoreTimestamps]; [apply _|]. apply bind_fforward; [apply _|]. intros d.
  apply bind_fforward; [apply _|]. intros t f r Hr. cbv zeta. exact (IH _ _ r Hr).
Qed.
#[export] Instance times_fforward n largest : FForward (ProcessTimestampsInAckFrame n largest).
Proof.
  unfold ProcessTimestampsInAckFrame. destruct (n >? 0); [|apply _]. apply bind_fforward; [apply _|]. intros d.
  apply bind_fforward; [apply _|]. intros t f r Hr. cbv zeta. exact (more_times_fforward _ _ _ _ r Hr).
Qed.
#[export] Instance ack_fforward deque t : FForward (ProcessAckFrame deque t).
Proof.
  intros f. unfold ProcessAckFrame. cbv zeta.
  exact (bind_fforward _ _ _ _ f).
Qed.

#[export] Instance rststream_forward v : Forward (ProcessRstStreamFrame v).
Proof. unfold ProcessRstStreamFrame. apply _. Qed.
#[export] Instance connectionclose_forward : Forward (ProcessConnectionCloseFrame).
Proof. unfold ProcessConnectionCloseFrame. apply _. Qed.
#[export] Instance goaway_forward : Forward (ProcessGoAwayFrame).
Proof. unfold ProcessGoAwayFrame. apply _. Qed.
#[export] Instance windowupdate_forward : Forward (ProcessWindowUpdateFrame).
Proof. unfold ProcessWindowUpdateFrame. apply _. Qed.
#[export] Instance blocked_forward : Forward (ProcessBlockedFrame).
Proof. unfold ProcessBlockedFrame. apply _. Qed.
#[export] Instance stopwaiting_forward header : Forward (ProcessStopWaitingFrame header).
Proof. unfold ProcessStopWaitingFrame. apply _. Qed.

Lemma raise_forward {A B} code (mk : A -> B) (m : Fr A) f r :
  FForward m -> (dr_pos_ r <= dr_len_ r)%nat -> let '(_, f', r') := raise code mk m f r in moves r r' /\ error_ f' = error_ f.
Proof. intros Hm Hr. unfold raise. specialize (Hm f r Hr). by destruct (m f r) as [[? ?] ?]. Qed.

Lemma of_type_forward deque header t f r :
  (dr_pos_ r <= dr_len_ r)%nat -> let '(_, f', r') := ProcessFrameOfType deque header t f r in moves r r' /\ error_ f' = error_ f.
Proof.
  intros Hr. assert (moves r r /\ error_ f = error_ f) as Hsame by (split; [by apply moves_refl|done]).
  unfold ProcessFrameOfType. repeat match goal with |- context [if ?b then _ else _] => destruct b end;
    first [exact Hsame | apply raise_forward; [apply _|done]].
Qed.

(** A frame takes at least its type byte. *)
Lemma frame_forward deque header f r :
  (dr_pos_ r < dr_len_ r)%nat ->
  let '(_, f', r') := ProcessFrame deque header f r in moves r r' /\ error_ f' = error_ f /\ (dr_pos_ r < dr_pos_ r')%nat.
Proof.
  intros Hr. unfold ProcessFrame. pose proof (u8_forward r ltac:(lia)) as Hm.
  assert (dr_pos_ (snd (ReadUInt8 r)) = dr_pos_ r + 1)%nat as Hp.
  { unfold ReadUInt8, rd_bind, ReadBytes, CanRead. destruct (Nat.leb_spec 1 (dr_len_ r - dr_pos_ r)); [done|lia]. }
  destruct (ReadUInt8 r) as [[t|] r1]; cbn [snd] in *; [|split_and!; [done|done|lia]].
  assert (dr_pos_ r1 <= dr_len_ r1)%nat as Hr1 by (destruct Hm as (_ & _ & ?); lia).
  pose proof (of_type_forward deque header t f r1 Hr1) as H. destruct (ProcessFrameOfType deque header t f r1) as [[x f'] r'].
  destruct H as [H He]. split_and!; [by eapply moves_trans|done|]. destruct H as (_ & _ & ?). lia.
Qed.

Lemma loop_total deque header {V} {visitor : QuicFramerVisitor V} fuel f r (v : V) :
  (dr_pos_ r <= dr_len_ r)%nat -> (BytesRemaining r <= fuel)%nat ->
  exists ok f' v', ProcessFrameData_loop deque fuel header f r v = Some (ok, f', v') /\
    (ok = true -> error_ f' = error_ f) /\ (ok = false -> exists code v0, error_ f' = code /\ v' = OnError code v0).
Proof.
  revert f r v. induction fuel as [|fuel IH]; intros f r v Hr Hf; unfold BytesRemaining in Hf; cbn [ProcessFrameData_loop]; unfold IsDoneReading.
  - destruct (Nat.eqb_spec (dr_len_ r) (dr_pos_ r)); [|lia]. exists true, f, v. split_and!; done.
  - destruct (Nat.eqb_spec (dr_len_ r) (dr_pos_ r)); [exists true, f, v; split_and!; done|].
    pose proof (frame_forward deque header f r ltac:(lia)) as Hp. destruct (ProcessFrame deque header f r) as [[x f1] r1].
    destruct Hp as (Hm & He & Hlt). destruct x as [code|frame].
    + cbn. exists false, (with_error f1 code), (OnError code v). split_and!; try done. intros _. by exists code, v.
    + destruct (OnFrame frame v) as [go v1]. destruct go; [|exists true, f1, v1; split_and!; done].
      pose proof (moves_len _ _ Hm) as Hlen. destruct (IH f1 r1 v1) as (ok & f' & v' & Hrun & Ht & Hfl).
      { destruct Hm as (_ & _ & ?). lia. }
      { unfold BytesRemaining. destruct Hm as (_ & _ & ?). lia. }
      exists ok, f', v'. split_and!; try done. intros Hok. rewrite (Ht Hok). done.
Qed.
End Forward.


(** A visitor that collects the frames. *)
#[export] Instance collector : QuicFramerVisitor (list QuicFrame * list Z) := {|
  OnFrame x '(xs, errors) := (true, (xs ++ [x], errors));
  OnError code '(xs, errors) := (xs, errors ++ [code]) |}.


(** ** Data packets *)

Section DataPacket.
Context `{host : HostOrder}.

Definition header_size (h : QuicPacketPublicHeader) : nat :=
  GetPacketHeaderSize (ph_connection_id_length h) (ph_version_flag h) (match ph_nonce h with Some _ => true | None => false end)
    (ph_packet_number_length h).

(** The bytes of a data packet's header. *)
Definition header_bytes (hacks : bool) (f : QuicFramer) (header : QuicPacketHeader) : list Z :=
  public_bytes hacks f (public_header header) ++ wire_bytes (endianness f) (ph_packet_number_length (public_header header)) (packet_number header).

Lemma header_bytes_length hacks f header :
  header_ok (perspective_ f) (public_header header) -> length (header_bytes hacks f header) = header_size (public_header header).
Proof. intros Hok. unfold header_bytes. rewrite length_app, wire_bytes_length. by apply public_bytes_length. Qed.

Lemma appends_header_bytes hacks f header buffer :
  header_ok (perspective_ f) (public_header header) -> partial_ok (endianness f) -> (header_size (public_header header) <= length buffer)%nat ->
  AppendPacketHeader hacks f header (MkWriter buffer 0 (endianness f))
  = (true, with_connection_id f (ph_connection_id (public_header header)), dw_put (MkWriter buffer 0 (endianness f)) (header_bytes hacks f header)).
Proof.
  intros Hok Hp Hr. pose proof (header_bytes_length hacks f header Hok) as Hl. set (h := public_header header) in *. set (e := endianness f) in *.
  pose proof (appends_emits _ _ _ (appends_header hacks f header e Hok Hp) (MkWriter buffer 0 e)) as Hw. fold h in Hw.
  change (public_bytes hacks f h ++ _) with (header_bytes hacks f header) in Hw.
  specialize (Hw ltac:(unfold dw_ok; simpl; lia) eq_refl ltac:(rewrite Hl; exact Hr)).
  revert Hw. unfold AppendPacketHeader. fold h. destruct ((_ >&> _) (MkWriter buffer 0 e)) as [ok w]. destruct ok; cbn [negb]; [|done].
  destruct ((_ >&> _) w) as [ok w']. by intros [= -> ->].
Qed.

(** Frames do not depend on the sender's record of its connection ID. *)
Lemma frames_ok_connection_id f g header frames id :
  frames_ok f g header frames -> frames_ok (with_connection_id f id) g header frames.
Proof. revert g. induction frames as [|fr rest IH]; intros g; [done|]. cbn [frames_ok]. intros (? & ? & ? & ?). split_and!; try done. by apply IH. Qed.

(** What [BuildDataPacket] writes and how it is read after the header. *)
Lemma build_data_packet (hacks deque : bool) (f g : QuicFramer) (header : QuicPacketHeader) (frames : list QuicFrame) (buffer : list Z) :
  HostIsLittleEndian = true -> header_ok (perspective_ f) (public_header header) -> quic_version_ g = quic_version_ f ->
  frames <> [] -> frames_ok f g header frames -> Z.of_nat (length buffer) < 2 ^ 31 ->
  (header_size (public_header header) + frames_size (quic_version_ f) header frames <= length buffer)%nat ->
  exists bs xs packet,
    BuildDataPacket hacks f header frames buffer =
      ((header_size (public_header header) + length bs)%nat, with_connection_id f (ph_connection_id (public_header header)), packet) /\
    take (header_size (public_header header) + length bs) packet = header_bytes hacks f header ++ bs /\ length packet = length buffer /\
    (header_size (public_header header) + length bs <= length buffer)%nat /\ (0 < length bs)%nat /\
    (Forall (fun fr => full_padding (quic_version_ f) fr = false) frames -> length bs = frames_size (quic_version_ f) header frames) /\
    Forall2 (frame_received f g) frames xs /\
    forall V (visitor : QuicFramerVisitor V) (v : V), exists g',
      ProcessFrameData deque header g (MkReader bs 0 (endianness g)) v = Some (true, g', deliver xs v).
Proof.
  intros Hle Hh Hv Hne Hfr Hcap Hneed. assert (partial_ok (endianness f)) as Hp by (intros ?; done).
  assert (endianness g = endianness f) as -> by (unfold endianness; by rewrite Hv).
  pose proof (header_bytes_length hacks f header Hh) as Hhb. pose proof (appends_header_bytes hacks f header buffer Hh Hp ltac:(lia)) as HA.
  set (hb := header_bytes hacks f header) in *. unfold BuildDataPacket. rewrite HA. cbn [negb].
  set (w0 := MkWriter buffer 0 (endianness f)) in *. set (f' := with_connection_id f _). set (hs := header_size (public_header header)) in *.
  assert (dw_length_ w0 + length hb <= dw_capacity w0)%nat as Hfit by (unfold w0, dw_capacity; simpl; lia).
  destruct (dw_put_ok w0 hb Hfit) as [Hdw Hc]. change (dw_capacity w0) with (length buffer) in *.
  destruct (AppendFrames_travel deque f' g header frames (dw_put w0 hb)) as (bs & xs & HF & Hroom & Hsz & Hhd & Hrec & Hread); try done.
  { by apply frames_ok_connection_id. } { by rewrite Hc. } { rewrite Hc. change (dw_length_ (dw_put w0 hb)) with (0 + length hb)%nat. rewrite Hhb. exact Hneed. }
  rewrite HF. rewrite Hc in Hroom. change (dw_length_ (dw_put w0 hb)) with (0 + length hb)%nat in Hroom. rewrite Hhb in Hroom.
  assert (dw_put (dw_put w0 hb) bs = dw_put w0 (hb ++ bs)) as ->.
  { apply dw_put_put. change (dw_capacity w0) with (length buffer). rewrite length_app. simpl. lia. }
  exists bs, xs, (dw_buffer_ (dw_put w0 (hb ++ bs))).
  assert (dw_length_ (dw_put w0 (hb ++ bs)) = (hs + length bs)%nat) as Hlen by (change (dw_length_ (dw_put w0 (hb ++ bs))) with (0 + length (hb ++ bs))%nat; rewrite length_app; lia).
  assert (0 < length bs)%nat as Hpos.
  { destruct frames as [|fr rest]; [done|]. destruct Hhd as (t & bs' & -> & _). simpl. lia. }
  split_and!; try done.
  - by rewrite Hlen.
  - rewrite <- Hlen. fold (dw_data (dw_put w0 (hb ++ bs))). rewrite dw_put_data; [done|]. change (dw_capacity w0) with (length buffer).
    rewrite length_app. simpl. lia.
  - apply copy_at_length. rewrite length_app. simpl. lia.
  - intros V visitor v. unfold ProcessFrameData, IsDoneReading, dr_len_. cbn [dr_data_ dr_pos_].
    destruct (Nat.eqb_spec (length bs) 0); [lia|]. apply (Hread V visitor v []). unfold BytesRemaining, dr_len_. simpl. lia.
Qed.
End DataPacket.

(** Data packets.  When the header and the sizes [ComputeFrameLength] gives
    for the frames fit the buffer, [BuildDataPacket] succeeds; without padding to
    the end the packet has exactly that length.  The receiver that processes the
    bytes after the header hands the frames to its visitor one by one and in
    order, each equal to what was sent (ping for MTU discovery, data from the
    producer, acknowledgements as in their round trip, a padding frame at least
    one byte long), and stops early only if the visitor asks for it. *)
Lemma data_packet_roundtrip `{host : HostOrder} (hacks deque : bool) (f g : QuicFramer) (header : QuicPacketHeader)
    (frames : list QuicFrame) (buffer : list Z) :
  HostIsLittleEndian = true -> header_ok (perspective_ f) (public_header header) -> quic_version_ g = quic_version_ f ->
  frames <> [] -> frames_ok f g header frames -> Z.of_nat (length buffer) < 2 ^ 31 ->
  let need := (header_size (public_header header) + frames_size (quic_version_ f) header frames)%nat in
  (need <= length buffer)%nat ->
  let '(len, _, packet) := BuildDataPacket hacks f header frames buffer in
  (0 < len <= length buffer)%nat /\
  (Forall (fun fr => full_padding (quic_version_ f) fr = false) frames -> len = need) /\
  exists xs, Forall2 (frame_received f g) frames xs /\
    forall V (visitor : QuicFramerVisitor V) (v : V), exists g',
      ProcessFrameData deque header g (MkReader (drop (header_size (public_header header)) (take len packet)) 0 (endianness g)) v
      = Some (true, g', deliver xs v).
Proof.
  intros Hle Hh Hv Hne Hfr Hcap need Hneed.
  destruct (build_data_packet hacks deque f g header frames buffer Hle Hh Hv Hne Hfr Hcap Hneed) as (bs & xs & packet & -> & -> & _ & Hl & Hpos & Hsz & Hrec & Hread).
  split; [lia|]. split; [intros Hall; by rewrite (Hsz Hall)|]. exists xs. split; [exact Hrec|].
  by rewrite <- (header_bytes_length hacks f header Hh), drop_app_length.
Qed.

Definition example_frames : list QuicFrame :=
  [AckFrame (example_ack [(300, 1200); (302, 9000)]); StopWaitingFrame 350; MtuDiscoveryFrame;
   StreamFrame (MkStreamFrame 5 false 3 [9; 8; 7] 70000); RstStreamFrame (MkRstStreamFrame 9 6 12345);
   PaddingFrame 4; StreamFrame (MkStreamFrame 70000 true 2 [1; 2] 0)].

Lemma example_header_ok : header_ok IS_CLIENT (public_header example_header).
Proof. unfold header_ok, fits. cbn. split_and!; (tauto || lia || reflexivity). Qed.

Lemma example_frames_ok : frames_ok (example_framer 40 IS_CLIENT) (example_framer 40 IS_SERVER) example_header example_frames.
Proof.
  cbn [frames_ok example_frames frame_ok is_last after_frame].
  assert (forall n fr, (match fr with PaddingFrame _ => false | _ => true end) = true -> fr = PaddingFrame n -> -1 <= n) as Hnp
    by (intros n fr Hx ->; discriminate).
  split; [split; [apply (example_ack_ok 40); lia|unfold ack_receiver_ok, kI64Max; cbn; lia]|]. split; [intros n; by apply Hnp|].
  split; [discriminate|]. split; [unfold stop_waiting_ok, is_u64; cbn; split_and!; (tauto || lia)|]. split; [intros n; by apply Hnp|].
  split; [discriminate|]. split; [exact I|]. split; [intros n; by apply Hnp|]. split; [discriminate|].
  split; [unfold fits, is_u64; cbn [sf_stream_id sf_offset]; split_and!; try lia; exists [9; 8; 7]; split_and!; cbn; done|].
  split; [intros n; by apply Hnp|]. split; [discriminate|].
  split; [unfold rst_ok, fits, QUIC_STREAM_LAST_ERROR; cbn [rf_stream_id rf_error_code rf_byte_offset]; lia|].
  split; [intros n; by apply Hnp|]. split; [discriminate|].
  split; [cbn; split; [discriminate|lia]|]. split; [intros n [= <-]; lia|]. split; [done|].
  split; [unfold fits, is_u64; cbn [sf_stream_id sf_offset]; split_and!; try lia; exists [1; 2]; split_and!; cbn; done|].
  split; [intros n; by apply Hnp|]. split; [discriminate|exact I].
Qed.

Lemma data_packet_roundtrip_witness :
  let '(len, _, packet) := BuildDataPacket (host := true) true (example_framer 40 IS_CLIENT) example_header example_frames (replicate 200 0) in
  (0 < len <= 200)%nat /\
  exists xs, Forall2 (frame_received (example_framer 40 IS_CLIENT) (example_framer 40 IS_SERVER)) example_frames xs /\
    forall V (visitor : QuicFramerVisitor V) (v : V), exists g',
      ProcessFrameData (host := true) true example_header (example_framer 40 IS_SERVER)
        (MkReader (drop 11 (take len packet)) 0 NETWORK_BYTE_ORDER) v = Some (true, g', deliver xs v).
Proof.
  pose proof (data_packet_roundtrip (host := true) true true (example_framer 40 IS_CLIENT) (example_framer 40 IS_SERVER) example_header
    example_frames (replicate 200 0)) as H.
  specialize (H eq_refl example_header_ok eq_refl ltac:(done) example_frames_ok ltac:(done)). cbv zeta in H.
  assert (header_size (public_header example_header) + frames_size 40 example_header example_frames <= 200)%nat as Hr by (vm_compute; lia).
  specialize (H Hr). destruct (BuildDataPacket _ _ _ _ _) as [[len f'] packet]. destruct H as (H1 & _ & H3). split; [exact H1|exact H3].
Defined.
