(* ===== verification/SequencerBuffer.v ===== *)
(** * The receive buffer of a stream

    quic/core/quic_stream_sequencer_buffer.cc: data of a stream arrives in frames
    at any offsets and is kept in a circular buffer of 8 KB blocks, allocated
    when data arrives for them and freed when their data has been read.  The
    missing parts of the stream are the list [gaps_]; the frames received, with
    their arrival times, are the map [frame_arrival_time_map_].

    [blocks_] is [None] for the null pointer, else one entry per block, [None] for
    a block that is not allocated.  Results are [None] where the code would
    dereference a null pointer or [end()], copy outside a block, or not terminate.
    The debug check of [destruction_indicator_] is left out. *)

From S2P Require Import Prelude QuicData Framer.

Notation "'let*' p ':=' m 'in' k" := (match m with Some p => k | None => None end)
  (at level 10, p pattern, m at level 200, k at level 200).

Definition kMaxPacketGap : Z := 5000.
Definition kMaxNumGapsAllowed : Z := 2 * kMaxPacketGap.
Definition kBlockSizeBytes : Z := 8 * 1024.

Definition QUIC_INTERNAL_ERROR : Z := 1.
Definition QUIC_EMPTY_STREAM_FRAME_NO_FIN : Z := 50.
Definition QUIC_OVERLAPPING_STREAM_DATA : Z := 87.
Definition QUIC_TOO_MANY_FRAME_GAPS : Z := 93.
Definition QUIC_STREAM_SEQUENCER_INVALID_STATE : Z := 95.

Record Gap := MkGap { begin_offset : Z; end_offset : Z }.
Record FrameInfo := MkFrameInfo { fi_length : Z; fi_timestamp : Z }.

Record SequencerBuffer := MkSequencerBuffer {
  max_buffer_capacity_bytes_ : Z;
  blocks_count_ : Z;
  total_bytes_read_ : Z;
  gaps_ : list Gap;
  blocks_ : option (list (option (list Z)));
  num_bytes_buffered_ : Z;
  frame_arrival_time_map_ : list (Z * FrameInfo) }.

Definition with_gaps (s : SequencerBuffer) (g : list Gap) : SequencerBuffer :=
  MkSequencerBuffer (max_buffer_capacity_bytes_ s) (blocks_count_ s) (total_bytes_read_ s) g (blocks_ s)
    (num_bytes_buffered_ s) (frame_arrival_time_map_ s).
Definition with_blocks (s : SequencerBuffer) (b : option (list (option (list Z)))) : SequencerBuffer :=
  MkSequencerBuffer (max_buffer_capacity_bytes_ s) (blocks_count_ s) (total_bytes_read_ s) (gaps_ s) b
    (num_bytes_buffered_ s) (frame_arrival_time_map_ s).
Definition with_frames (s : SequencerBuffer) (m : list (Z * FrameInfo)) : SequencerBuffer :=
  MkSequencerBuffer (max_buffer_capacity_bytes_ s) (blocks_count_ s) (total_bytes_read_ s) (gaps_ s) (blocks_ s)
    (num_bytes_buffered_ s) m.
Definition with_read (s : SequencerBuffer) (total buffered : Z) : SequencerBuffer :=
  MkSequencerBuffer (max_buffer_capacity_bytes_ s) (blocks_count_ s) total (gaps_ s) (blocks_ s)
    buffered (frame_arrival_time_map_ s).

(** ** [std::map<QuicStreamOffset, FrameInfo>]: entries in the order of their keys *)

(** [m.insert(e)] leaves an entry with the same key alone. *)
Fixpoint fm_insert (e : Z * FrameInfo) (m : list (Z * FrameInfo)) : list (Z * FrameInfo) :=
  match m with
  | [] => [e]
  | x :: m' => if fst e <? fst x then e :: m else if fst x <? fst e then x :: fm_insert e m' else m
  end.
Definition fm_find (k : Z) (m : list (Z * FrameInfo)) : option FrameInfo := snd <$> List.find (fun x => fst x =? k) m.
Definition fm_erase (k : Z) (m : list (Z * FrameInfo)) : list (Z * FrameInfo) := List.filter (fun x => negb (fst x =? k)) m.
(** An iterator is the key of its entry, [None] for [end()]. *)
Definition fm_upper_bound (k : Z) (m : list (Z * FrameInfo)) : option Z := fst <$> List.find (fun x => k <? fst x) m.

(** ** Positions *)

Section Positions.
Context (s : SequencerBuffer).

Definition GetBlockIndex (offset : Z) : Z := (offset mod max_buffer_capacity_bytes_ s) / kBlockSizeBytes.
Definition GetInBlockOffset (offset : Z) : Z := (offset mod max_buffer_capacity_bytes_ s) mod kBlockSizeBytes.
Definition ReadOffset : Z := GetInBlockOffset (total_bytes_read_ s).
Definition NextBlockToRead : Z := GetBlockIndex (total_bytes_read_ s).
Definition GetBlockCapacity (block_index : Z) : Z :=
  if block_index + 1 =? blocks_count_ s then
    let result := max_buffer_capacity_bytes_ s mod kBlockSizeBytes in
    if result =? 0 then kBlockSizeBytes else result
  else kBlockSizeBytes.

(** [gaps_.front()] and [gaps_.back()]. *)
Definition ReadableBytes : option Z := let* front := head (gaps_ s) in Some (begin_offset front -64 total_bytes_read_ s).
Definition HasBytesToRead : option bool := let* n := ReadableBytes in Some (n >? 0).
Definition BytesConsumed : Z := total_bytes_read_ s.
Definition BytesBuffered : Z := num_bytes_buffered_ s.
Definition Empty : option bool :=
  let* front := head (gaps_ s) in Some ((length (gaps_ s) =? 1)%nat && (begin_offset front =? total_bytes_read_ s)).

(** [blocks_[idx]]. *)
Definition block_ptr (idx : Z) : option (option (list Z)) :=
  let* blocks := blocks_ s in if idx <? 0 then None else blocks !! Z.to_nat idx.
End Positions.

Definition set_block (s : SequencerBuffer) (idx : Z) (b : option (list Z)) : SequencerBuffer :=
  with_blocks s ((fun blocks => <[Z.to_nat idx := b]> blocks) <$> blocks_ s).

Definition RetireBlock (s : SequencerBuffer) (idx : Z) : option (bool * SequencerBuffer) :=
  let* b := block_ptr s idx in
  match b with
  | None => Some (false, s)
  | Some _ => Some (true, set_block s idx None)
  end.

Definition Clear (s : SequencerBuffer) : SequencerBuffer :=
  MkSequencerBuffer (max_buffer_capacity_bytes_ s) (blocks_count_ s) (total_bytes_read_ s)
    [MkGap (total_bytes_read_ s) kU64Max]
    (option_map (List.map (fun _ => None)) (blocks_ s)) 0 [].

(** The number of blocks is computed in double precision, exactly below 2^53. *)
Definition SequencerBuffer_new (max_capacity_bytes : Z) : option SequencerBuffer :=
  let count := (max_capacity_bytes + kBlockSizeBytes - 1) / kBlockSizeBytes in
  if count >? 1 then Some (Clear (MkSequencerBuffer max_capacity_bytes count 0 [] None 0 [])) else None.

(** ** Receiving *)

(** The first gap that does not end at or before [offset]. *)
Fixpoint find_gap (gaps : list Gap) (offset : Z) : nat :=
  match gaps with
  | [] => 0
  | g :: gaps => if end_offset g <=? offset then S (find_gap gaps offset) else 0
  end.

Definition UpdateGapList (s : SequencerBuffer) (it : nat) (start_offset bytes_written : Z) : option SequencerBuffer :=
  let* g := gaps_ s !! it in
  let new_end := start_offset +64 bytes_written in
  Some (
    if (begin_offset g =? start_offset) && (end_offset g >? new_end) then
      with_gaps s (<[it := MkGap new_end (end_offset g)]> (gaps_ s))
    else if (begin_offset g <? start_offset) && (end_offset g =? new_end) then
      with_gaps s (<[it := MkGap (begin_offset g) start_offset]> (gaps_ s))
    else if (begin_offset g <? start_offset) && (end_offset g >? new_end) then
      with_gaps s (take it (gaps_ s) ++ MkGap (begin_offset g) start_offset ::
                   MkGap new_end (end_offset g) :: drop (S it) (gaps_ s))
    else if (begin_offset g =? start_offset) && (end_offset g =? new_end) then
      with_gaps s (take it (gaps_ s) ++ drop (S it) (gaps_ s))
    else s).

(** [memcpy] into the buffer of a block. *)
Definition copy_block (block : list Z) (offset : Z) (bytes : list Z) : option (list Z) :=
  if offset + Z.of_nat (length bytes) <=? Z.of_nat (length block)
  then Some (take (Z.to_nat offset) block ++ bytes ++ drop (Z.to_nat offset + length bytes) block)
  else None.

(** Write [source] block by block; the result is the error, the buffer and the
    number of bytes written. *)
Fixpoint write_blocks (fuel : nat) (s : SequencerBuffer) (offset : Z) (source : list Z) (total_written : Z)
    : option (Z * SequencerBuffer * Z) :=
  match source, fuel with
  | [], _ => Some (QUIC_NO_ERROR, s, total_written)
  | _, O => None
  | _, S fuel =>
      let write_block_num := GetBlockIndex s offset in
      let write_block_offset := GetInBlockOffset s offset in
      let bytes_avail := GetBlockCapacity s write_block_num -64 write_block_offset in
      let limit := total_bytes_read_ s +64 max_buffer_capacity_bytes_ s in
      let bytes_avail := if offset +64 bytes_avail >? limit then limit -64 offset else bytes_avail in
      let s := match blocks_ s with
               | None => with_blocks s (Some (replicate (Z.to_nat (blocks_count_ s)) None))
               | Some _ => s
               end in
      if write_block_num >=? blocks_count_ s then Some (QUIC_STREAM_SEQUENCER_INVALID_STATE, s, total_written)
      else
        let* b := block_ptr s write_block_num in
        let block := default (replicate (Z.to_nat kBlockSizeBytes) 0) b in
        let bytes_to_copy := Z.min bytes_avail (Z.of_nat (length source)) in
        let* block := copy_block block write_block_offset (take (Z.to_nat bytes_to_copy) source) in
        write_blocks fuel (set_block s write_block_num (Some block)) (offset +64 bytes_to_copy)
          (drop (Z.to_nat bytes_to_copy) source) (total_written +64 bytes_to_copy)
  end.

(** The result is the error code, [*bytes_buffered] and the buffer. *)
Definition OnStreamData (s : SequencerBuffer) (starting_offset : Z) (data : list Z) (timestamp : Z)
    : option (Z * Z * SequencerBuffer) :=
  let offset := starting_offset in
  let size := Z.of_nat (length data) in
  if size =? 0 then Some (QUIC_EMPTY_STREAM_FRAME_NO_FIN, 0, s) else
  let it := find_gap (gaps_ s) offset in
  let* current_gap := gaps_ s !! it in
  if (offset <? begin_offset current_gap) && (offset +64 size <=? begin_offset current_gap) then
    Some (QUIC_NO_ERROR, 0, s)
  else if (offset <? begin_offset current_gap) && (offset +64 size >? begin_offset current_gap) then
    Some (QUIC_OVERLAPPING_STREAM_DATA, 0, s)
  else if offset +64 size >? end_offset current_gap then Some (QUIC_OVERLAPPING_STREAM_DATA, 0, s)
  else if offset +64 size >? total_bytes_read_ s +64 max_buffer_capacity_bytes_ s then Some (QUIC_INTERNAL_ERROR, 0, s)
  else if negb (begin_offset current_gap =? starting_offset) && negb (end_offset current_gap =? starting_offset +64 size) &&
          (Z.of_nat (length (gaps_ s)) >=? kMaxNumGapsAllowed) then Some (QUIC_TOO_MANY_FRAME_GAPS, 0, s)
  else
    let* (error, s, total_written) := write_blocks (length data) s offset data 0 in
    if negb (error =? QUIC_NO_ERROR) then Some (error, 0, s) else
    let* s := UpdateGapList s it starting_offset total_written in
    let s := with_frames s (fm_insert (starting_offset, MkFrameInfo size timestamp) (frame_arrival_time_map_ s)) in
    Some (QUIC_NO_ERROR, total_written, with_read s (total_bytes_read_ s) (num_bytes_buffered_ s +64 total_written)).

(** ** Reading *)

Definition RetireBlockIfEmpty (s : SequencerBuffer) (block_index : Z) : option (bool * SequencerBuffer) :=
  let* empty := Empty s in
  if empty then RetireBlock s block_index else
  let* back := last (gaps_ s) in
  if GetBlockIndex s (begin_offset back -64 1) =? block_index then Some (true, s) else
  let* first_gap := head (gaps_ s) in
  if (NextBlockToRead s =? block_index) && (GetBlockIndex s (end_offset first_gap) =? block_index) then Some (true, s)
  else RetireBlock s block_index.

Fixpoint update_frames (fuel : nat) (iter next_frame : option Z) (offset : Z) (m : list (Z * FrameInfo))
    : option (list (Z * FrameInfo)) :=
  if bool_decide (iter = next_frame) then Some m else
  match iter, fuel with
  | Some k, S fuel =>
      let* erased := fm_find k m in
      let iter := fm_upper_bound k m in
      let m := fm_erase k m in
      let m := if k +64 fi_length erased >? offset
               then fm_insert (offset, MkFrameInfo (k +64 fi_length erased -64 offset) (fi_timestamp erased)) m else m in
      update_frames fuel iter next_frame offset m
  | _, _ => None
  end.
Definition UpdateFrameArrivalMap (s : SequencerBuffer) (offset : Z) : option SequencerBuffer :=
  let m := frame_arrival_time_map_ s in
  let* m := update_frames (length m) (fst <$> head m) (fm_upper_bound offset m) offset m in
  Some (with_frames s m).

(** One destination of [Readv]: the error, the bytes copied and the buffer. *)
Fixpoint read_one (fuel : nat) (s : SequencerBuffer) (dest_remaining : Z) (copied : list Z)
    : option (Z * list Z * SequencerBuffer) :=
  let* readable := ReadableBytes s in
  if (dest_remaining >? 0) && (readable >? 0) then
    match fuel with
    | O => None
    | S fuel =>
        let block_idx := NextBlockToRead s in
        let start_offset_in_block := ReadOffset s in
        let bytes_available_in_block := Z.min readable (GetBlockCapacity s block_idx -64 start_offset_in_block) in
        let bytes_to_copy := Z.min bytes_available_in_block dest_remaining in
        let* b := block_ptr s block_idx in
        match b with
        | None => Some (QUIC_STREAM_SEQUENCER_INVALID_STATE, copied, s)
        | Some block =>
            if start_offset_in_block + bytes_to_copy >? Z.of_nat (length block) then None else
            let copied := copied ++ take (Z.to_nat bytes_to_copy) (drop (Z.to_nat start_offset_in_block) block) in
            let s := with_read s (total_bytes_read_ s +64 bytes_to_copy) (num_bytes_buffered_ s -64 bytes_to_copy) in
            if bytes_to_copy =? bytes_available_in_block then
              let* (retired, s) := RetireBlockIfEmpty s block_idx in
              if negb retired then Some (QUIC_STREAM_SEQUENCER_INVALID_STATE, copied, s)
              else read_one fuel s (dest_remaining - bytes_to_copy) copied
            else read_one fuel s (dest_remaining - bytes_to_copy) copied
        end
    end
  else Some (QUIC_NO_ERROR, copied, s).
Fixpoint read_all (s : SequencerBuffer) (dest_iov : list Z) : option (Z * list (list Z) * SequencerBuffer) :=
  match dest_iov with
  | [] => Some (QUIC_NO_ERROR, [], s)
  | iov_len :: dest_iov =>
      let* readable := ReadableBytes s in
      if readable >? 0 then
        let* (error, copied, s) := read_one (Z.to_nat iov_len) s iov_len [] in
        if negb (error =? QUIC_NO_ERROR) then Some (error, [copied], s) else
        let* (error, rest, s) := read_all s dest_iov in
        Some (error, copied :: rest, s)
      else Some (QUIC_NO_ERROR, [], s)
  end.

(** [dest_iov] gives the lengths of the destinations; the result is the error
    code, the bytes copied to the destinations used, [*bytes_read] and the
    buffer. *)
Definition Readv (s : SequencerBuffer) (dest_iov : list Z) : option (Z * list (list Z) * Z * SequencerBuffer) :=
  let* (error, copied, s) := read_all s dest_iov in
  let bytes_read := Z.of_nat (length (concat copied)) in
  if negb (error =? QUIC_NO_ERROR) then Some (error, copied, bytes_read, s)
  else if bytes_read >? 0 then
    let* s := UpdateFrameArrivalMap s (total_bytes_read_ s) in
    Some (QUIC_NO_ERROR, copied, bytes_read, s)
  else Some (QUIC_NO_ERROR, copied, bytes_read, s).

(** An [iovec] into a block: its block, the offset in it and the length. *)
Record Region := MkRegion { rg_block : Z; rg_offset : Z; rg_len : Z }.

(** [blocks_[idx]->buffer] must not dereference null. *)
Definition region (s : SequencerBuffer) (idx offset len : Z) : option Region :=
  let* b := block_ptr s idx in let* _ := b in Some (MkRegion idx offset len).

(** Whole blocks up to the last one, while [iov] has room. *)
Fixpoint middle_regions (fuel : nat) (s : SequencerBuffer) (start_block_idx end_block_idx iov_used iov_count : Z)
    : option (list Region * Z) :=
  let block_idx := (start_block_idx + iov_used) mod blocks_count_ s in
  if negb (block_idx =? end_block_idx) && (iov_used <? iov_count) then
    match fuel with
    | O => None
    | S fuel =>
        let* r := region s block_idx 0 (GetBlockCapacity s block_idx) in
        let* (rs, iov_used) := middle_regions fuel s start_block_idx end_block_idx (iov_used + 1) iov_count in
        Some (r :: rs, iov_used)
    end
  else Some ([], iov_used).

(** The regions written to [iov]; their number is what the code returns. *)
Definition GetReadableRegions (s : SequencerBuffer) (iov_count : Z) : option (list Region) :=
  let* readable := ReadableBytes s in
  if readable =? 0 then Some [] else
  let start_block_idx := NextBlockToRead s in
  let* front := head (gaps_ s) in
  let readable_offset_end := begin_offset front -64 1 in
  let end_block_offset := GetInBlockOffset s readable_offset_end in
  let end_block_idx := GetBlockIndex s readable_offset_end in
  if (start_block_idx =? end_block_idx) && (ReadOffset s <=? end_block_offset) then
    let* r := region s start_block_idx (ReadOffset s) readable in Some [r]
  else
    let* first := region s start_block_idx (ReadOffset s) (GetBlockCapacity s start_block_idx -64 ReadOffset s) in
    let* (rs, iov_used) := middle_regions (Z.to_nat (blocks_count_ s)) s start_block_idx end_block_idx 1 iov_count in
    if iov_used <? iov_count then
      let* last := region s end_block_idx 0 (end_block_offset +64 1) in Some (first :: rs ++ [last])
    else Some (first :: rs).

(** The frames that arrived at the time of the first and fit the block: the
    length they cover and the frames left. *)
Fixpoint same_time (m : list (Z * FrameInfo)) (timestamp region_len readable_bytes_in_block : Z) : Z * list (Z * FrameInfo) :=
  match m with
  | [] => (region_len, [])
  | x :: m' =>
      if region_len +64 fi_length (snd x) <=? readable_bytes_in_block then
        if negb (fi_timestamp (snd x) =? timestamp) then (region_len, m)
        else same_time m' timestamp (region_len +64 fi_length (snd x)) readable_bytes_in_block
      else (region_len, m)
  end.
Definition GetReadableRegion (s : SequencerBuffer) : option (option (Region * Z)) :=
  let* readable := ReadableBytes s in
  if readable =? 0 then Some None else
  let start_block_idx := NextBlockToRead s in
  let* r := region s start_block_idx (ReadOffset s) 0 in
  let readable_bytes_in_block := Z.min (GetBlockCapacity s start_block_idx -64 ReadOffset s) readable in
  let* iter := head (frame_arrival_time_map_ s) in
  let timestamp := fi_timestamp (snd iter) in
  let '(region_len, iter) := same_time (frame_arrival_time_map_ s) timestamp 0 readable_bytes_in_block in
  let whole := match iter with [] => true | x :: _ => fi_timestamp (snd x) =? timestamp end in
  let region_len := if whole then readable_bytes_in_block else region_len in
  Some (Some (MkRegion (rg_block r) (rg_offset r) region_len, timestamp)).

Fixpoint consume_loop (fuel : nat) (s : SequencerBuffer) (bytes_to_consume : Z) : option SequencerBuffer :=
  if bytes_to_consume >? 0 then
    match fuel with
    | O => None
    | S fuel =>
        let* readable := ReadableBytes s in
        let block_idx := NextBlockToRead s in
        let offset_in_block := ReadOffset s in
        let bytes_available := Z.min readable (GetBlockCapacity s block_idx -64 offset_in_block) in
        let bytes_read := Z.min bytes_to_consume bytes_available in
        let s := with_read s (total_bytes_read_ s +64 bytes_read) (num_bytes_buffered_ s -64 bytes_read) in
        let* s := (if bytes_available =? bytes_read then snd <$> RetireBlockIfEmpty s block_idx else Some s) in
        consume_loop fuel s (bytes_to_consume -64 bytes_read)
    end
  else Some s.
Definition MarkConsumed (s : SequencerBuffer) (bytes_used : Z) : option (bool * SequencerBuffer) :=
  let* readable := ReadableBytes s in
  if bytes_used >? readable then Some (false, s) else
  let* s := consume_loop (Z.to_nat bytes_used) s bytes_used in
  if bytes_used >? 0 then let* s := UpdateFrameArrivalMap s (total_bytes_read_ s) in Some (true, s) else Some (true, s).

Definition FlushBufferedFrames (s : SequencerBuffer) : option (Z * SequencerBuffer) :=
  let* back := last (gaps_ s) in
  let prev_total_bytes_read := total_bytes_read_ s in
  let s := Clear (with_read s (begin_offset back) (num_bytes_buffered_ s)) in
  Some (total_bytes_read_ s -64 prev_total_bytes_read, s).

Definition ReleaseWholeBuffer (s : SequencerBuffer) : SequencerBuffer := with_blocks (Clear s) None.
