(* ===== verification/SequencerBufferFacts.v ===== *)
(** * The stream's receive buffer refines a partial map from offsets to bytes

    The abstract state of a [SequencerBuffer] is the offset of the next byte to
    read and a finite map from the offsets received and not yet read to their
    bytes with the times they arrived.  [represents] relates the two; every
    operation is shown to compute the operation on the map. *)

From stdpp Require Import gmap.
From S2P Require Import Prelude QuicData Framer SequencerBuffer.

(** ** Positions in the circular buffer *)

(** The constructor's choice of the number of blocks, and its [CHECK]. *)
Definition geometry (s : SequencerBuffer) : Prop :=
  let c := max_buffer_capacity_bytes_ s in
  kBlockSizeBytes < c < 2 ^ 53 /\ blocks_count_ s = (c + kBlockSizeBytes - 1) / kBlockSizeBytes.

Section Geometry.
Context (s : SequencerBuffer) (Hg : geometry s).
Abbreviation c := (max_buffer_capacity_bytes_ s).
Abbreviation B := kBlockSizeBytes.

Lemma index_range o : 0 <= GetBlockIndex s o < blocks_count_ s.
Proof using Hg.
  destruct Hg as [Hc ->]. unfold GetBlockIndex. pose proof (Z.mod_pos_bound o c ltac:(unfold B in *; lia)).
  unfold kBlockSizeBytes in *. Z.to_euclidean_division_equations. lia.
Qed.

Lemma address o : o mod c = GetBlockIndex s o * B + GetInBlockOffset s o.
Proof. unfold GetBlockIndex, GetInBlockOffset. pose proof (Z.div_mod (o mod c) B ltac:(done)). lia. Qed.

Lemma capacity_sum i : 0 <= i < blocks_count_ s -> i * B + GetBlockCapacity s i = Z.min ((i + 1) * B) c.
Proof using Hg.
  destruct Hg as [Hc Hn]. unfold GetBlockCapacity. rewrite Hn. unfold kBlockSizeBytes in *. intros Hi.
  destruct (Z.eqb_spec (i + 1) ((c + 8 * 1024 - 1) / (8 * 1024))) as [E|E];
    [destruct (Z.eqb_spec (c mod (8 * 1024)) 0)|]; Z.to_euclidean_division_equations; lia.
Qed.

Lemma capacity_range i : 0 <= i < blocks_count_ s -> 0 < GetBlockCapacity s i <= B.
Proof using Hg.
  intros Hi. pose proof (capacity_sum i Hi). destruct Hg as [Hc Hn]. rewrite Hn in Hi. unfold kBlockSizeBytes in *.
  Z.to_euclidean_division_equations. lia.
Qed.

Lemma in_block_range o : 0 <= GetInBlockOffset s o < GetBlockCapacity s (GetBlockIndex s o).
Proof using Hg.
  pose proof (index_range o) as Hi. pose proof (capacity_sum _ Hi). pose proof (address o).
  pose proof (Z.mod_pos_bound o c ltac:(destruct Hg; unfold B in *; lia)).
  unfold GetInBlockOffset in *. pose proof (Z.mod_pos_bound (o mod c) B ltac:(done)). lia.
Qed.

Lemma mod_shift o d : 0 <= d < c -> (o + d) mod c = if o mod c + d <? c then o mod c + d else o mod c + d - c.
Proof using Hg.
  intros Hd. assert (0 < c) by (destruct Hg; unfold B in *; lia).
  pose proof (Z.mod_pos_bound o c ltac:(lia)). rewrite <- Z.add_mod_idemp_l by lia.
  destruct (Z.ltb_spec (o mod c + d) c); [apply Z.mod_small; lia|].
  symmetry. apply (Z.mod_unique _ _ 1); lia.
Qed.

(** What the block of [o] holds of the window that begins [n] bytes after [o]. *)
Lemma same_block o n d :
  let K := GetBlockCapacity s (GetBlockIndex s o) in let a := GetInBlockOffset s o in
  0 <= n <= K - a -> 0 <= d < c ->
  GetBlockIndex s (o + n + d) = GetBlockIndex s o <-> d < K - a - n \/ c - a - n <= d.
Proof using Hg.
  intros K a Hn Hd. pose proof (index_range o) as Hi. pose proof (capacity_sum _ Hi) as HK. pose proof (address o) as Ha.
  pose proof (in_block_range o) as Hb. fold K a in HK, Ha, Hb. pose proof (capacity_range _ Hi) as HKB. fold K in HKB.
  set (i := GetBlockIndex s o) in *. assert (B < c) as HBc by (destruct Hg; lia).
  assert (0 < B) as HB0 by done.
  assert (o + n + d = o + (n + d)) as E by lia. unfold GetBlockIndex at 1.
  assert ((o + n + d) mod c = if i * B + a + n + d <? c then i * B + a + n + d else i * B + a + n + d - c) as Hm.
  { rewrite E. destruct (Z.lt_ge_cases (n + d) c).
    - rewrite mod_shift by lia. rewrite Ha. repeat case_if; lia.
    - assert (o + (n + d) = o + (n + d - c) + 1 * c) as -> by lia. rewrite Z.mod_add by lia. rewrite mod_shift by lia.
      rewrite Ha. repeat case_if; lia. }
  rewrite Hm. generalize dependent B. intros B HK Ha HKB HBc HB0 Hm. clear E Hm Ha Hg.
  destruct (Z.ltb_spec (i * B + a + n + d) c).
  - split; intros H1.
    + left. assert ((i * B + a + n + d) < (i + 1) * B) by (rewrite <- H1 at 2; pose proof (Z.mul_succ_div_gt (i * B + a + n + d) B); lia). lia.
    + symmetry. apply (Z.div_unique _ _ _ (a + n + d)); lia.
  - split; intros H1.
    + right. assert (i * B <= i * B + a + n + d - c) by (rewrite <- H1 at 1; pose proof (Z.mul_div_le (i * B + a + n + d - c) B); lia). lia.
    + symmetry. apply (Z.div_unique _ _ _ (a + n + d - c)); lia.
Qed.

Lemma in_block_run o j :
  0 <= j < GetBlockCapacity s (GetBlockIndex s o) - GetInBlockOffset s o ->
  GetBlockIndex s (o + j) = GetBlockIndex s o /\ GetInBlockOffset s (o + j) = GetInBlockOffset s o + j.
Proof using Hg.
  intros Hj. pose proof (capacity_range _ (index_range o)) as HK. pose proof (in_block_range o).
  assert (GetBlockIndex s (o + j) = GetBlockIndex s o) as E.
  { replace (o + j) with (o + 0 + j) by lia. apply same_block; [lia| |lia]. destruct Hg; lia. }
  split; [done|]. pose proof (address o) as A1. pose proof (address (o + j)) as A2. rewrite E in A2.
  pose proof (capacity_sum _ (index_range o)). rewrite mod_shift in A2 by (destruct Hg; lia).
  revert A2. case_if; lia.
Qed.

Lemma position_inj o o' : GetBlockIndex s o = GetBlockIndex s o' -> GetInBlockOffset s o = GetInBlockOffset s o' ->
  Z.abs (o - o') < c -> o = o'.
Proof using Hg.
  intros H1 H2 H3. assert (o mod c = o' mod c) as E by (rewrite !address, H1, H2; done).
  assert (0 < c) by (destruct Hg; unfold B in *; lia).
  pose proof (Z.div_mod o c ltac:(lia)) as D1. pose proof (Z.div_mod o' c ltac:(lia)) as D2. rewrite E in D1.
  assert (o - o' = c * (o / c - o' / c)) as D by lia. assert (o / c - o' / c = 0) by nia. lia.
Qed.
End Geometry.

(** ** Gaps *)

Definition missing (gs : list Gap) (o : Z) : Prop := Exists (fun g => begin_offset g <= o < end_offset g) gs.

(** Gaps are in order, not empty, with received data between them, and the last
    one extends to the largest offset. *)
Fixpoint gaps_ok (lo : Z) (gs : list Gap) : Prop :=
  match gs with
  | [] => lo = kU64Max + 1
  | g :: gs => lo <= begin_offset g < end_offset g /\ end_offset g <= kU64Max /\ gaps_ok (end_offset g + 1) gs
  end.

Lemma gaps_ok_le lo gs : gaps_ok lo gs -> lo <= kU64Max + 1.
Proof. destruct gs; simpl; [lia|]. intros (? & ? & ?). lia. Qed.

Lemma gaps_ok_lower lo lo' g gs : gaps_ok lo (g :: gs) -> lo' <= begin_offset g -> gaps_ok lo' (g :: gs).
Proof. simpl. intros (? & ? & ?) ?. split_and!; try done; lia. Qed.

Lemma gaps_ok_missing lo gs o : gaps_ok lo gs -> missing gs o -> lo <= o < kU64Max.
Proof.
  intros Hok Hm. revert lo Hok. induction Hm as [g gs H|g gs H IH]; simpl; intros lo (H1 & H2 & H3); [lia|].
  apply IH in H3. lia.
Qed.

Lemma gaps_ok_split lo pre g post : gaps_ok lo (pre ++ g :: post) ->
  lo <= begin_offset g < end_offset g /\ end_offset g <= kU64Max /\ gaps_ok (end_offset g + 1) post /\
  Forall (fun h => end_offset h < begin_offset g) pre /\ Forall (fun h => end_offset g < begin_offset h) post.
Proof.
  revert lo. induction pre as [|h pre IH]; intros lo; simpl.
  - intros (H1 & H2 & H3). split_and!; try done; try lia. clear H1 H2.
    assert (forall x, gaps_ok x post -> Forall (fun h => x <= begin_offset h) post) as Hx.
    { clear. induction post as [|h post IH]; intros x H; constructor; simpl in H; destruct H as (H1 & H2 & H3); [lia|].
      eapply Forall_impl; [apply (IH _ H3)|]. simpl. lia. }
    eapply Forall_impl; [apply (Hx _ H3)|]. simpl. lia.
  - intros (H1 & H2 & H3). destruct (IH _ H3) as (? & ? & ? & ? & ?). split_and!; try done; try lia. constructor; [lia|done].
Qed.

Lemma gaps_ok_replace lo pre g post news :
  (forall x, x <= begin_offset g -> gaps_ok x (g :: post) -> gaps_ok x (news ++ post)) ->
  gaps_ok lo (pre ++ g :: post) -> gaps_ok lo (pre ++ news ++ post).
Proof.
  intros Hn. revert lo. induction pre as [|h pre IH]; intros lo; simpl.
  - intros H. apply Hn; [|done]. simpl in H. lia.
  - intros (H1 & H2 & H3). split; [done|]. split; [done|]. by apply IH.
Qed.

(** The gap the search finds. *)
Lemma find_gap_split lo gs o : gaps_ok lo gs -> lo <= kU64Max -> o < kU64Max -> exists pre g post,
  gs = pre ++ g :: post /\ find_gap gs o = length pre /\ Forall (fun h => end_offset h <= o) pre /\ o < end_offset g.
Proof.
  intros Hok Hlo Ho. revert lo Hok Hlo. induction gs as [|g gs IH]; intros lo Hok Hlo; simpl in *; [lia|].
  destruct Hok as (H1 & H2 & H3). destruct (Z.leb_spec (end_offset g) o).
  - destruct (IH _ H3 ltac:(lia)) as (pre & h & post & -> & -> & Hpre & Hh).
    exists (g :: pre), h, post. split_and!; try done. by constructor.
  - exists [], g, gs. by split_and!.
Qed.

(** Where the offsets below the end of that gap are missing. *)
Lemma missing_split lo pre g post o : gaps_ok lo (pre ++ g :: post) ->
  Forall (fun h => end_offset h <= o) pre -> o <= end_offset g ->
  missing (pre ++ g :: post) o <-> begin_offset g <= o < end_offset g.
Proof.
  intros Hok Hpre Ho. destruct (gaps_ok_split _ _ _ _ Hok) as (_ & _ & _ & _ & Hpost).
  unfold missing. rewrite Exists_app, Exists_cons. split; [|by right; left].
  intros [H|[H|H]]; [|done|]; exfalso; revert H; apply Forall_not_Exists.
  - eapply Forall_impl; [apply Hpre|]. simpl. lia.
  - eapply Forall_impl; [apply Hpost|]. simpl. lia.
Qed.

(** A gap replaced by what new data leaves of it. *)
Lemma missing_replace lo pre g post news off e : gaps_ok lo (pre ++ g :: post) ->
  begin_offset g <= off -> e <= end_offset g ->
  (forall o, missing news o <-> begin_offset g <= o < end_offset g /\ ~ off <= o < e) ->
  forall o, missing (pre ++ news ++ post) o <-> missing (pre ++ g :: post) o /\ ~ off <= o < e.
Proof.
  intros Hok Hoff He Hn o. destruct (gaps_ok_split _ _ _ _ Hok) as (_ & _ & _ & Hpre & Hpost).
  specialize (Hn o). unfold missing in *. rewrite !Exists_app, Exists_cons.
  assert (Exists (fun h => begin_offset h <= o < end_offset h) pre -> ~ off <= o < e) as H1.
  { intros H. apply Exists_exists in H as (h & Hin & Hh). rewrite Forall_forall in Hpre. specialize (Hpre h Hin). simpl in Hpre. lia. }
  assert (Exists (fun h => begin_offset h <= o < end_offset h) post -> ~ off <= o < e) as H2.
  { intros H. apply Exists_exists in H as (h & Hin & Hh). rewrite Forall_forall in Hpost. specialize (Hpost h Hin). simpl in Hpost. lia. }
  rewrite Hn. tauto.
Qed.

(** [UpdateGapList] removes the data written from the gaps. *)
Lemma UpdateGapList_spec s pre g post off n :
  gaps_ok (total_bytes_read_ s) (gaps_ s) -> 0 <= total_bytes_read_ s ->
  gaps_ s = pre ++ g :: post -> begin_offset g <= off -> 0 < n -> off + n <= end_offset g -> off + n < kU64Max ->
  exists gs, UpdateGapList s (length pre) off n = Some (with_gaps s gs) /\ gaps_ok (total_bytes_read_ s) gs /\
    (forall o, missing gs o <-> missing (gaps_ s) o /\ ~ off <= o < off + n) /\ (length gs <= S (length (gaps_ s)))%nat.
Proof.
  intros Hok Hp Hgs Hb Hn He Hk. unfold UpdateGapList. rewrite Hgs, lookup_mid. cbn beta iota zeta.
  rewrite Hgs in Hok. destruct (gaps_ok_split _ _ _ _ Hok) as (H1 & H2 & H3 & H4 & H5).
  rewrite u64_id by (unfold is_u64, kU64Max in *; lia).
  assert (forall news, (length news <= 2)%nat -> (forall x, x <= begin_offset g -> gaps_ok x (g :: post) -> gaps_ok x (news ++ post)) ->
    (forall o, missing news o <-> begin_offset g <= o < end_offset g /\ ~ off <= o < off + n) ->
    gaps_ok (total_bytes_read_ s) (pre ++ news ++ post) /\
    (forall o, missing (pre ++ news ++ post) o <-> missing (pre ++ g :: post) o /\ ~ off <= o < off + n) /\
    (length (pre ++ news ++ post) <= S (length (pre ++ g :: post)))%nat) as Hnews.
  { intros news Hl Ha Hm. split; [by eapply gaps_ok_replace|]. split; [by eapply missing_replace|]. rewrite !length_app. simpl. lia. }
  rewrite insert_mid, insert_mid, take_mid, drop_mid.
  assert (missing [] off <-> False) as Hnil by (unfold missing; rewrite Exists_nil; done).
  destruct (Z.eqb_spec (begin_offset g) off) as [E1|E1], (Z.ltb_spec (begin_offset g) off) as [E2|E2]; try lia;
    destruct (Z.gtb_spec (end_offset g) (off + n)) as [E3|E3], (Z.eqb_spec (end_offset g) (off + n)) as [E4|E4]; try lia; cbn [andb];
    eexists; (split; [reflexivity|]).
  - apply (Hnews [MkGap (off + n) (end_offset g)]); [simpl; lia|..].
    + simpl. intros. split_and!; try done; lia.
    + intros o. unfold missing. rewrite Exists_cons, Exists_nil. simpl. lia.
  - apply (Hnews []); [simpl; lia|..].
    + intros x Hx Hx'. destruct post as [|h post]; [simpl in H3; lia|]. simpl in *. inversion H5; subst. split_and!; try tauto; lia.
    + intros o. unfold missing. rewrite Exists_nil. lia.
  - apply (Hnews [MkGap (begin_offset g) off; MkGap (off + n) (end_offset g)]); [simpl; lia|..].
    + simpl. intros. split_and!; try done; lia.
    + intros o. unfold missing. rewrite !Exists_cons, Exists_nil. simpl. lia.
  - apply (Hnews [MkGap (begin_offset g) off]); [simpl; lia|..].
    + simpl. intros x Hx Hx'. destruct post as [|h post]; [simpl in H3; lia|]. simpl in *. inversion H5; subst. split_and!; try tauto; lia.
    + intros o. unfold missing. rewrite Exists_cons, Exists_nil. simpl. lia.
Qed.

(** ** Frames *)

Fixpoint frames_ok (lo : Z) (fs : list (Z * FrameInfo)) : Prop :=
  match fs with
  | [] => True
  | (k, i) :: fs => lo <= k /\ 0 < fi_length i /\ frames_ok (k + fi_length i) fs
  end.

(** A frame that arrived at time [ts] brought the byte at [o]. *)
Definition covers (fs : list (Z * FrameInfo)) (o ts : Z) : Prop :=
  exists x, x ∈ fs /\ fst x <= o < fst x + fi_length (snd x) /\ fi_timestamp (snd x) = ts.

Lemma covers_cons x fs o ts :
  covers (x :: fs) o ts <-> (fst x <= o < fst x + fi_length (snd x) /\ fi_timestamp (snd x) = ts) \/ covers fs o ts.
Proof. unfold covers. setoid_rewrite elem_of_cons. naive_solver. Qed.

Lemma covers_nil o ts : ~ covers [] o ts.
Proof. intros (x & H & _). by apply elem_of_nil in H. Qed.

Lemma frames_ok_lower lo lo' fs : frames_ok lo fs -> lo' <= lo -> frames_ok lo' fs.
Proof. destruct fs as [|[k i] fs]; simpl; [done|]. intros (? & ? & ?) ?. split_and!; try done; lia. Qed.

Lemma frames_ok_covers lo fs o ts : frames_ok lo fs -> covers fs o ts -> lo <= o.
Proof.
  revert lo. induction fs as [|[k i] fs IH]; intros lo Hok Hc; [by apply covers_nil in Hc|].
  simpl in Hok. destruct Hok as (H1 & H2 & H3). apply covers_cons in Hc as [Hc|Hc]; simpl in *; [lia|].
  pose proof (IH _ H3 Hc). lia.
Qed.

Lemma fm_insert_spec lo fs k i : frames_ok lo fs -> lo <= k -> 0 < fi_length i ->
  (forall o ts, covers fs o ts -> ~ k <= o < k + fi_length i) ->
  frames_ok lo (fm_insert (k, i) fs) /\
  forall o ts, covers (fm_insert (k, i) fs) o ts <-> (k <= o < k + fi_length i /\ fi_timestamp i = ts) \/ covers fs o ts.
Proof.
  revert lo. induction fs as [|[k' i'] fs IH]; intros lo Hok Hlo Hi Hd; simpl in *.
  - split; [done|]. intros o ts. by rewrite covers_cons.
  - destruct Hok as (H1 & H2 & H3).
    assert (~ k <= k' < k + fi_length i) as Hk'.
    { apply (Hd k' (fi_timestamp i')). apply covers_cons. left. simpl. split; [lia|done]. }
    destruct (Z.ltb_spec k k').
    + split; [simpl; split_and!; try done; lia|]. intros o ts. by rewrite covers_cons.
    + assert (k' + fi_length i' <= k) as Hle.
      { destruct (Z.le_gt_cases (k' + fi_length i') k); [done|]. exfalso.
        eapply (Hd k (fi_timestamp i')); [|lia]. apply covers_cons. left. simpl. split; [lia|done]. }
      destruct (Z.ltb_spec k' k); [|lia].
      destruct (IH (k' + fi_length i') H3 Hle Hi) as [Ha Hb].
      { intros o ts Hc. eapply Hd. apply covers_cons. by right. }
      split; [simpl; split_and!; done|]. intros o ts. rewrite !covers_cons, Hb. tauto.
Qed.

(** What [UpdateFrameArrivalMap] leaves: the frames from [offset] on. *)
Fixpoint trim (offset : Z) (fs : list (Z * FrameInfo)) : list (Z * FrameInfo) :=
  match fs with
  | [] => []
  | (k, i) :: fs' =>
      if offset <? k then fs
      else if k + fi_length i >? offset then (offset, MkFrameInfo (k + fi_length i - offset) (fi_timestamp i)) :: fs'
      else trim offset fs'
  end.

Lemma trim_spec lo offset fs : frames_ok lo fs ->
  frames_ok offset (trim offset fs) /\ forall o ts, covers (trim offset fs) o ts <-> offset <= o /\ covers fs o ts.
Proof.
  revert lo. induction fs as [|[k i] fs IH]; intros lo Hok; simpl in *.
  - split; [done|]. intros o ts. split; [by intros ?%covers_nil|by intros [_ ?%covers_nil]].
  - destruct Hok as (H1 & H2 & H3). destruct (Z.ltb_spec offset k).
    + split; [simpl; split_and!; try done; lia|]. intros o ts. split; [|tauto]. intros Hc. split; [|done].
      assert (k <= o) by (apply (frames_ok_covers k ((k, i) :: fs) o ts); [simpl; split_and!; try done; lia|done]). lia.
    + destruct (Z.gtb_spec (k + fi_length i) offset).
      * split.
        { simpl. split_and!; try lia. by replace (offset + (k + fi_length i - offset)) with (k + fi_length i) by lia. }
        intros o ts. rewrite !covers_cons. simpl. pose proof (frames_ok_covers (k + fi_length i) fs o ts H3) as Hlow.
        split; [intros [[Ho <-]|Hc]|intros [Ho [[Ho' <-]|Hc]]].
        -- split; [lia|]. left. split; [lia|done].
        -- specialize (Hlow Hc). split; [lia|by right].
        -- left. split; [lia|done].
        -- by right.
      * destruct (IH _ H3) as [Ha Hb]. split; [done|]. intros o ts. rewrite Hb, covers_cons. simpl.
        split; [tauto|]. intros [Ho [H'|H']]; [lia|tauto].
Qed.

Lemma fm_upper_bound_sorted k fs : frames_ok (k + 1) fs -> fm_upper_bound k fs = fst <$> head fs.
Proof.
  destruct fs as [|[k' i] fs]; [done|]. simpl. intros [H _]. unfold fm_upper_bound. simpl.
  destruct (Z.ltb_spec k k'); [done|lia].
Qed.
Lemma fm_erase_sorted k fs : frames_ok (k + 1) fs -> fm_erase k fs = fs.
Proof.
  intros H. unfold fm_erase. assert (forall lo, k + 1 <= lo -> frames_ok lo fs -> List.filter (fun x => negb (fst x =? k)) fs = fs) as Hx.
  { clear H. induction fs as [|[k' i] fs IH]; intros lo Hlo Hok; simpl in *; [done|]. destruct Hok as (H1 & H2 & H3).
    destruct (Z.eqb_spec k' k); [lia|]. simpl. f_equal. apply (IH (k' + fi_length i)); [lia|done]. }
  by apply (Hx (k + 1)).
Qed.

Lemma update_frames_trim lo fs offset fuel : 0 <= lo -> frames_ok lo fs ->
  (forall o ts, covers fs o ts -> o < kU64Max) -> (length fs <= fuel)%nat ->
  update_frames fuel (fst <$> head fs) (fm_upper_bound offset fs) offset fs = Some (trim offset fs).
Proof.
  revert lo fuel. induction fs as [|[k i] fs IH]; intros lo fuel Hlo Hok Hb Hf.
  - destruct fuel; done.
  - simpl in Hok. destruct Hok as (H1 & H2 & H3).
    assert (k + fi_length i <= kU64Max) as Hk.
    { assert (k + fi_length i - 1 < kU64Max); [|lia]. apply (Hb _ (fi_timestamp i)). apply covers_cons. left. simpl. split; [lia|done]. }
    assert (frames_ok (k + 1) fs) as Hs by (eapply frames_ok_lower; [apply H3|lia]).
    simpl in Hf. destruct fuel as [|fuel]; [lia|]. cbn [head fmap option_fmap option_map fst]. cbn [update_frames trim].
    destruct (Z.ltb_spec offset k).
    { unfold fm_upper_bound. simpl. destruct (Z.ltb_spec offset k); [|lia]. simpl. by rewrite bool_decide_eq_true_2. }
    assert (fm_upper_bound offset ((k, i) :: fs) = fm_upper_bound offset fs) as ->.
    { unfold fm_upper_bound. simpl. destruct (Z.ltb_spec offset k); [lia|done]. }
    assert (fm_upper_bound k ((k, i) :: fs) = fst <$> head fs) as ->.
    { unfold fm_upper_bound at 1. simpl. destruct (Z.ltb_spec k k); [lia|]. by apply fm_upper_bound_sorted. }
    assert (Some k <> fm_upper_bound offset fs) as Hne.
    { unfold fm_upper_bound. destruct (List.find _ fs) as [x|] eqn:E; [|done]. apply List.find_some in E as [_ E].
      apply Z.ltb_lt in E. simpl. intros [= ->]. lia. }
    rewrite bool_decide_eq_false_2 by done. unfold fm_find. cbn [List.find fst]. rewrite Z.eqb_refl. cbn [fmap option_fmap option_map snd].
    rewrite !u64_id by (unfold is_u64, kU64Max in *; lia).
    assert (fm_erase k ((k, i) :: fs) = fs) as ->.
    { unfold fm_erase. simpl. rewrite Z.eqb_refl. simpl. by apply fm_erase_sorted. }
    destruct (Z.gtb_spec (k + fi_length i) offset) as [Hgt|Hgt].
    + rewrite u64_id by (unfold is_u64, kU64Max in *; lia).
      assert (frames_ok (offset + 1) fs) as Hs' by (eapply frames_ok_lower; [apply H3|lia]).
      rewrite (fm_upper_bound_sorted offset fs) by done.
      destruct fs as [|[k' i'] fs].
      * destruct fuel; done.
      * simpl in Hs'. cbn [fm_insert fst]. destruct (Z.ltb_spec offset k'); [|lia].
        destruct fuel; cbn [update_frames head fmap option_fmap option_map fst]; by rewrite bool_decide_eq_true_2.
    + apply (IH (k + fi_length i)); [lia|done| |lia]. intros o ts Hc. apply (Hb o ts). apply covers_cons. by right.
Qed.

(** ** Blocks *)

Definition blocks_ok (s : SequencerBuffer) : Prop :=
  match blocks_ s with
  | None => True
  | Some bs => Z.of_nat (length bs) = blocks_count_ s /\
      forall i blk, bs !! i = Some (Some blk) -> Z.of_nat (length blk) = kBlockSizeBytes
  end.

(** The block [i] is allocated; the byte kept for an offset. *)
Definition allocated (s : SequencerBuffer) (i : Z) : Prop := exists blk, block_ptr s i = Some (Some blk).
Definition cell (s : SequencerBuffer) (o : Z) : option Z :=
  match block_ptr s (GetBlockIndex s o) with Some (Some blk) => blk !! Z.to_nat (GetInBlockOffset s o) | _ => None end.

Lemma block_ptr_set s i j b : geometry s -> blocks_ok s -> blocks_ s <> None -> 0 <= i < blocks_count_ s ->
  block_ptr (set_block s i b) j = if j =? i then Some b else block_ptr s j.
Proof.
  intros Hg Hok Hn Hi. unfold block_ptr, set_block, blocks_ok in *. destruct (blocks_ s) as [bs|] eqn:E; [|done].
  cbn. destruct Hok as [Hlen _]. destruct (Z.ltb_spec j 0), (Z.eqb_spec j i); try lia; [done|subst j|].
  - apply list_lookup_insert_eq. lia.
  - apply list_lookup_insert_ne. lia.
Qed.

Lemma block_length s i blk : blocks_ok s -> block_ptr s i = Some (Some blk) -> Z.of_nat (length blk) = kBlockSizeBytes.
Proof.
  unfold block_ptr, blocks_ok. destruct (blocks_ s) as [bs|]; [|done]. intros [_ Hok]. destruct (i <? 0); [done|]. apply Hok.
Qed.

Lemma block_ptr_valid s i : blocks_ok s -> blocks_ s <> None -> 0 <= i < blocks_count_ s -> is_Some (block_ptr s i).
Proof.
  unfold block_ptr, blocks_ok. destruct (blocks_ s) as [bs|]; [|done]. intros [Hl _] _ Hi.
  destruct (Z.ltb_spec i 0); [lia|]. apply lookup_lt_is_Some. lia.
Qed.

Lemma blocks_ok_set s i b : blocks_ok s ->
  match b with Some blk => Z.of_nat (length blk) = kBlockSizeBytes | None => True end -> blocks_ok (set_block s i b).
Proof.
  unfold blocks_ok, set_block. destruct (blocks_ s) as [bs|]; cbn; [|done]. intros [Hl Hok] Hb.
  rewrite length_insert. split; [done|]. intros j blk Hj. apply list_lookup_insert_Some in Hj as [(_ & -> & _)|[_ Hj]]; [done|by apply (Hok j)].
Qed.

(** Allocating the array of pointers does not change what they point to. *)
Definition alloc_array (s : SequencerBuffer) : SequencerBuffer :=
  match blocks_ s with
  | None => with_blocks s (Some (replicate (Z.to_nat (blocks_count_ s)) None))
  | Some _ => s
  end.
Lemma alloc_array_spec s : geometry s -> blocks_ok s ->
  blocks_ok (alloc_array s) /\ blocks_ (alloc_array s) <> None /\ alloc_array s = with_blocks s (blocks_ (alloc_array s)) /\
  (forall i, allocated (alloc_array s) i <-> allocated s i) /\ (forall o, cell (alloc_array s) o = cell s o).
Proof.
  intros Hg Hok. unfold alloc_array. destruct (blocks_ s) as [bs|] eqn:E.
  { rewrite E. split_and!; try done. by destruct s; simpl in *; subst. }
  assert (0 <= blocks_count_ s) as Hc by (pose proof (index_range s Hg 0); lia).
  assert (forall i, ~ exists blk, block_ptr (with_blocks s (Some (replicate (Z.to_nat (blocks_count_ s)) None))) i = Some (Some blk)) as Hn.
  { intros i [blk H]. unfold block_ptr in H. simpl in H. destruct (i <? 0); [done|]. by apply lookup_replicate in H as [? _]. }
  assert (forall i, block_ptr s i = None) as Hp by (intros i; unfold block_ptr; by rewrite E).
  split_and!; try done.
  - unfold blocks_ok. simpl. rewrite length_replicate. split; [lia|]. intros i blk H. by apply lookup_replicate in H as [? _].
  - intros i. split; [intros H; by apply Hn in H|]. intros [blk H]. by rewrite Hp in H.
  - intros o. unfold cell. rewrite Hp. change (GetBlockIndex (with_blocks s ?x) o) with (GetBlockIndex s o).
    destruct (block_ptr _ _) as [[blk|]|] eqn:E2; try done. exfalso. eapply Hn. eauto.
Qed.

Lemma copy_block_spec blk off bs : 0 <= off -> off + Z.of_nat (length bs) <= Z.of_nat (length blk) ->
  exists blk', copy_block blk off bs = Some blk' /\ length blk' = length blk /\
    forall k, 0 <= k -> blk' !! Z.to_nat k =
      if (off <=? k) && (k <? off + Z.of_nat (length bs)) then bs !! Z.to_nat (k - off) else blk !! Z.to_nat k.
Proof.
  intros Hoff Hl. unfold copy_block. destruct (Z.leb_spec (off + Z.of_nat (length bs)) (Z.of_nat (length blk))); [|lia].
  eexists. split; [done|]. split.
  - rewrite !length_app, length_take, length_drop. lia.
  - intros k Hk. destruct (Z.leb_spec off k); cbn [andb].
    + rewrite lookup_app_r by (rewrite length_take; lia). rewrite length_take.
      replace (Z.to_nat k - Z.to_nat off `min` length blk)%nat with (Z.to_nat (k - off)) by lia.
      destruct (Z.ltb_spec k (off + Z.of_nat (length bs))).
      * by rewrite lookup_app_l by lia.
      * rewrite lookup_app_r by lia. rewrite lookup_drop. f_equal. lia.
    + rewrite lookup_app_l by (rewrite length_take; lia). apply lookup_take_lt. lia.
Qed.

(** One round of the writing loop. *)
Lemma write_step s off bs : geometry s -> blocks_ok s -> blocks_ s <> None ->
  Z.of_nat (length bs) <= GetBlockCapacity s (GetBlockIndex s off) - GetInBlockOffset s off -> 0 < Z.of_nat (length bs) ->
  exists b blk, block_ptr s (GetBlockIndex s off) = Some b /\
    copy_block (default (replicate (Z.to_nat kBlockSizeBytes) 0) b) (GetInBlockOffset s off) bs = Some blk /\
    let s' := set_block s (GetBlockIndex s off) (Some blk) in
    blocks_ok s' /\ blocks_ s' <> None /\ s' = with_blocks s (blocks_ s') /\
    (forall i, allocated s' i <-> allocated s i \/ i = GetBlockIndex s off) /\
    (forall j, 0 <= j < Z.of_nat (length bs) -> cell s' (off + j) = bs !! Z.to_nat j) /\
    (forall p o b, let c := max_buffer_capacity_bytes_ s in p <= off -> off + Z.of_nat (length bs) <= p + c -> p <= o < p + c ->
       ~ off <= o < off + Z.of_nat (length bs) -> cell s o = Some b -> cell s' o = Some b).
Proof.
  intros Hg Hok Hn Hlen Hpos. pose proof (index_range s Hg off) as Hi. pose proof (in_block_range s Hg off) as Hin.
  pose proof (capacity_range s Hg _ Hi) as HK.
  destruct (block_ptr_valid s _ Hok Hn Hi) as [b Hb]. set (blk0 := default (replicate (Z.to_nat kBlockSizeBytes) 0) b).
  assert (Z.of_nat (length blk0) = kBlockSizeBytes) as Hblk0.
  { unfold blk0. destruct b as [blk|]; cbn [from_option id]; [by eapply block_length|].
    rewrite length_replicate. unfold kBlockSizeBytes. lia. }
  destruct (copy_block_spec blk0 (GetInBlockOffset s off) bs ltac:(lia) ltac:(lia)) as (blk & Hcopy & Hl & Hlook).
  exists b, blk. split; [done|]. split; [done|]. intros s'.
  assert (forall j, block_ptr s' j = if j =? GetBlockIndex s off then Some (Some blk) else block_ptr s j) as Hptr
    by (intros j; by apply block_ptr_set).
  split_and!.
  - apply blocks_ok_set; [done|]. lia.
  - unfold s', set_block. simpl. by destruct (blocks_ s).
  - done.
  - intros i. unfold allocated. rewrite Hptr. destruct (Z.eqb_spec i (GetBlockIndex s off)); [naive_solver|]. naive_solver.
  - intros j Hj. unfold cell. change (GetBlockIndex s' ?x) with (GetBlockIndex s x). change (GetInBlockOffset s' ?x) with (GetInBlockOffset s x).
    destruct (in_block_run s Hg off j ltac:(lia)) as [-> ->]. rewrite Hptr, Z.eqb_refl, Hlook by lia.
    destruct (Z.leb_spec (GetInBlockOffset s off) (GetInBlockOffset s off + j)); [|lia].
    destruct (Z.ltb_spec (GetInBlockOffset s off + j) (GetInBlockOffset s off + Z.of_nat (length bs))); [|lia].
    simpl. f_equal. lia.
  - intros p o x c Hp1 Hp2 Hd Ho. unfold cell. change (GetBlockIndex s' ?x) with (GetBlockIndex s x). change (GetInBlockOffset s' ?x) with (GetInBlockOffset s x).
    rewrite Hptr. destruct (Z.eqb_spec (GetBlockIndex s o) (GetBlockIndex s off)) as [E|E]; [|done]. rewrite E, Hb.
    destruct b as [blk1|]; [|done]. intros Hx. rewrite Hlook by (pose proof (in_block_range s Hg o); lia).
    destruct (Z.leb_spec (GetInBlockOffset s off) (GetInBlockOffset s o)); [|done].
    destruct (Z.ltb_spec (GetInBlockOffset s o) (GetInBlockOffset s off + Z.of_nat (length bs))); [|done]. exfalso. apply Ho.
    destruct (in_block_run s Hg off (GetInBlockOffset s o - GetInBlockOffset s off) ltac:(lia)) as [E1 E2].
    set (q := off + (GetInBlockOffset s o - GetInBlockOffset s off)) in *.
    assert (o = q); [|unfold q in *; lia].
    apply (position_inj s Hg); [congruence|lia|]. fold c. unfold q. lia.
Qed.

Lemma write_round s off bs : geometry s -> blocks_ok s ->
  let i := GetBlockIndex s off in let a := GetInBlockOffset s off in let c := max_buffer_capacity_bytes_ s in
  let k := Z.of_nat (length bs) in
  0 < k <= GetBlockCapacity s i - a ->
  exists b blk, block_ptr (alloc_array s) i = Some b /\
    copy_block (default (replicate (Z.to_nat kBlockSizeBytes) 0) b) a bs = Some blk /\
    let s' := set_block (alloc_array s) i (Some blk) in
    blocks_ok s' /\ s' = with_blocks s (blocks_ s') /\ (forall j, allocated s' j <-> allocated s j \/ j = i) /\
    (forall j, 0 <= j < k -> cell s' (off + j) = bs !! Z.to_nat j) /\
    (forall p o b, p <= off -> off + k <= p + c -> p <= o < p + c -> ~ off <= o < off + k -> cell s o = Some b -> cell s' o = Some b).
Proof.
  cbv zeta. intros Hg Hok Hk. destruct (alloc_array_spec s Hg Hok) as (Ha1 & Ha2 & Ha3 & Ha4 & Ha5).
  assert (forall o, GetBlockIndex (alloc_array s) o = GetBlockIndex s o) as Hidx by (intros o; by rewrite Ha3).
  assert (forall o, GetInBlockOffset (alloc_array s) o = GetInBlockOffset s o) as Hinb by (intros o; by rewrite Ha3).
  assert (max_buffer_capacity_bytes_ (alloc_array s) = max_buffer_capacity_bytes_ s) as Hc1 by (by rewrite Ha3).
  destruct (write_step (alloc_array s) off bs) as (b & blk & Hb & Hcopy & H1 & H2 & H3 & H4 & H5 & H6); try done.
  { rewrite Ha3. exact Hg. }
  { rewrite Hidx, Hinb. rewrite Ha3 at 1. apply Hk. }
  { apply Hk. }
  rewrite Hidx in *. rewrite Hinb in *. exists b, blk. split; [done|]. split; [done|]. cbv zeta. split_and!; try done.
  - by rewrite H3, Ha3.
  - intros j. rewrite H4, Ha4. done.
  - intros p o x Hp1 Hp2 Ho Hno Hx. eapply H6; try done; rewrite ?Hc1; try done. by rewrite Ha5.
Qed.

Lemma write_blocks_nil fuel s off tw : write_blocks fuel s off [] tw = Some (QUIC_NO_ERROR, s, tw).
Proof. by destruct fuel. Qed.
Lemma write_blocks_step fuel s off source tw : source <> [] ->
  write_blocks (S fuel) s off source tw =
  (let i := GetBlockIndex s off in
   let a := GetInBlockOffset s off in
   let avail := GetBlockCapacity s i -64 a in
   let limit := total_bytes_read_ s +64 max_buffer_capacity_bytes_ s in
   let avail := if off +64 avail >? limit then limit -64 off else avail in
   let s := alloc_array s in
   if i >=? blocks_count_ s then Some (QUIC_STREAM_SEQUENCER_INVALID_STATE, s, tw)
   else let* b := block_ptr s i in
        let n := Z.min avail (Z.of_nat (length source)) in
        let* block := copy_block (default (replicate (Z.to_nat kBlockSizeBytes) 0) b) a (take (Z.to_nat n) source) in
        write_blocks fuel (set_block s i (Some block)) (off +64 n) (drop (Z.to_nat n) source) (tw +64 n)).
Proof. by destruct source. Qed.

(** The writing loop copies [source] to the offsets from [off] on. *)
Lemma write_blocks_spec fuel s off source tw p : geometry s -> blocks_ok s ->
  0 <= p -> total_bytes_read_ s = p -> p + max_buffer_capacity_bytes_ s + kBlockSizeBytes < 2 ^ 64 -> p <= off ->
  let n := Z.of_nat (length source) in let c := max_buffer_capacity_bytes_ s in
  off + n <= p + c -> (length source <= fuel)%nat -> 0 <= tw -> tw + n < 2 ^ 64 ->
  exists s', write_blocks fuel s off source tw = Some (QUIC_NO_ERROR, s', tw + n) /\
    blocks_ok s' /\ s' = with_blocks s (blocks_ s') /\
    (forall i, allocated s' i <-> allocated s i \/ exists o, off <= o < off + n /\ GetBlockIndex s o = i) /\
    (forall j, 0 <= j < n -> cell s' (off + j) = source !! Z.to_nat j) /\
    (forall o b, p <= o < p + c -> ~ off <= o < off + n -> cell s o = Some b -> cell s' o = Some b).
Proof.
  revert s off source tw. induction fuel as [|fuel IH]; intros s off source tw Hg Hok Hp Ht Hpc Hoff n c Hn Hf Htw Htn.
  all: destruct (decide (source = [])) as [Es|Es]; [|try (destruct source; [done|simpl in Hf; lia])].
  1, 2: subst source; simpl in n; exists s; rewrite write_blocks_nil; subst n; rewrite !Z.add_0_r; split_and!; try done;
    [by destruct s| |lia]; intros i; split; [by left|]; intros [H|(o & H & _)]; [done|lia].
  assert (0 < n) as Hpos by (subst n; destruct source; [done|simpl; lia]).
  pose proof (index_range s Hg off) as Hi. pose proof (in_block_range s Hg off) as Hin. pose proof (capacity_range s Hg _ Hi) as HK.
  assert (kBlockSizeBytes = 8192) as HB by done.
  rewrite write_blocks_step by done. cbv zeta.
  set (K := GetBlockCapacity s (GetBlockIndex s off)) in *. set (a := GetInBlockOffset s off) in *. set (i := GetBlockIndex s off) in *.
  set (k := Z.min (K - a) n).
  assert (length (take (Z.to_nat k) source) = Z.to_nat k) as Hlk by (rewrite length_take; lia).
  assert (Hcount : blocks_count_ (alloc_array s) = blocks_count_ s) by (unfold alloc_array; by destruct (blocks_ s)).
  destruct (write_round s off (take (Z.to_nat k) source) Hg Hok) as (b & blk & Hb & Hcopy & H1 & H2 & H3 & H4 & H5).
  { rewrite Hlk. fold i a K. lia. }
  rewrite Hlk, Z2Nat.id in H4, H5 by lia. fold i in Hb, Hcopy, H1, H2, H3, H4, H5. fold a in Hcopy. fold c in H5. fold c.
  assert (Z.min (if off +64 (K -64 a) >? total_bytes_read_ s +64 c then (total_bytes_read_ s +64 c) -64 off else K -64 a) n = k) as Hk.
  { rewrite (u64_id (K - a)) by (unfold is_u64; lia). rewrite (u64_id (total_bytes_read_ s + c)) by (unfold is_u64; lia).
    assert (off + (K - a) < 2 ^ 64) by (fold c in Hpc; lia).
    rewrite (u64_id (off + (K - a))) by (unfold is_u64; lia). case_if; [|done]. rewrite u64_id by (unfold is_u64; lia). unfold k. lia. }
  fold n. rewrite Hk, Hcount. destruct (Z.geb_spec i (blocks_count_ s)); [lia|]. rewrite Hb, Hcopy.
  set (s2 := set_block (alloc_array s) i (Some blk)) in *.
  assert (forall o, GetBlockIndex s2 o = GetBlockIndex s o) as Hidx by (intros o; by rewrite H2).
  rewrite !u64_id by (unfold is_u64; fold c in Hpc; lia).
  assert (geometry s2) as Hg2 by (rewrite H2; exact Hg).
  assert (total_bytes_read_ s2 = p) as Ht2 by (by rewrite H2).
  assert (max_buffer_capacity_bytes_ s2 = c) as Hc2 by (by rewrite H2).
  destruct (IH s2 (off + k) (drop (Z.to_nat k) source) (tw + k)) as (s' & Hrun & HH1 & HH2 & HH3 & HH4 & HH5);
    rewrite ?Hc2, ?length_drop; try done; try lia.
  rewrite length_drop in Hrun, HH3, HH4, HH5. replace (Z.of_nat (length source - Z.to_nat k)) with (n - k) in Hrun, HH3, HH4, HH5 by lia.
  rewrite Hc2 in HH5.
  exists s'. split; [rewrite Hrun; do 2 f_equal; lia|]. split_and!; try done.
  - rewrite HH2, H2. done.
  - intros j. rewrite HH3, H3. split.
    + intros [[H'|H']|(o & H' & H'')]; [by left| |].
      * right. exists off. split; [lia|]. done.
      * right. exists o. rewrite <- Hidx. split; [lia|done].
    + intros [H'|(o & H' & H'')]; [by left; left|].
      destruct (Z.lt_ge_cases o (off + k)).
      * left. right. subst j. replace o with (off + (o - off)) by lia. apply in_block_run; [done|]. fold i K a. lia.
      * right. exists o. rewrite Hidx. split; [lia|done].
  - intros j Hj. destruct (Z.lt_ge_cases j k) as [Hjk|Hjk].
    + assert (is_Some (source !! Z.to_nat j)) as [x Hx] by (apply lookup_lt_is_Some; lia). rewrite Hx. apply HH5; [lia|lia|].
      rewrite H4 by lia. rewrite lookup_take_lt by lia. done.
    + replace (off + j) with (off + k + (j - k)) by lia. rewrite HH4 by lia. rewrite lookup_drop. f_equal. lia.
  - intros o x Ho Hno Hx. apply HH5; [lia|lia|]. apply (H5 p); try lia. done.
Qed.
