(* ===== verification/SequencerRefine.v ===== *)
(** * The operations of the receive buffer on its abstract state

    [represents]: the relation between a [SequencerBuffer] and the map of bytes
    received and not yet read; what each operation of the buffer does to it. *)

From stdpp Require Import gmap.
From S2P Require Import Prelude QuicData Framer SequencerBuffer SequencerBufferFacts.

(** Received bytes and the times they arrived, by offset. *)
Abbreviation arrivals := (gmap Z (Z * Z)).

(** Streams are shorter than 2^63 bytes; beyond, the offsets computed wrap. *)
Definition kOffsetLimit : Z := 2 ^ 63.

Record holds (s : SequencerBuffer) (m : arrivals) : Prop := {
  r_geometry : geometry s;
  r_read : 0 <= total_bytes_read_ s <= kOffsetLimit;
  r_gaps : gaps_ok (total_bytes_read_ s) (gaps_ s);
  r_received : forall o, is_Some (m !! o) <-> total_bytes_read_ s <= o < kU64Max /\ ~ missing (gaps_ s) o;
  r_window : forall o, is_Some (m !! o) -> o < total_bytes_read_ s + max_buffer_capacity_bytes_ s /\ o < kOffsetLimit;
  r_blocks : blocks_ok s;
  r_cells : forall o b ts, m !! o = Some (b, ts) -> cell s o = Some b;
  r_allocated : forall i, allocated s i -> exists o, is_Some (m !! o) /\ GetBlockIndex s o = i;
  r_buffered : num_bytes_buffered_ s = Z.of_nat (size m) }.

(** The map of frames is brought up to date at the end of an operation. *)
Record represents (s : SequencerBuffer) (m : arrivals) : Prop := {
  r_holds : holds s m;
  r_frames : frames_ok (total_bytes_read_ s) (frame_arrival_time_map_ s);
  r_covers : forall o ts, covers (frame_arrival_time_map_ s) o ts <-> exists b, m !! o = Some (b, ts) }.

(** ** The operations on the abstract state *)

Definition absent (p : Z) (m : arrivals) (o : Z) : bool := (p <=? o) && bool_decide (m !! o = None).
Definition store (m : arrivals) (off : Z) (data : list Z) (ts : Z) : arrivals :=
  map_seqZ off ((fun b => (b, ts)) <$> data) ∪ m.

(** Data at [off]: duplicates are ignored; data that overlaps what is there or was
    read, is too far ahead, or makes one gap too many is refused. *)
Definition receive (capacity gaps p : Z) (m : arrivals) (off : Z) (data : list Z) (ts : Z) : Z * Z * arrivals :=
  let n := Z.of_nat (length data) in
  let range := seqZ off n in
  if n =? 0 then (QUIC_EMPTY_STREAM_FRAME_NO_FIN, 0, m)
  else if forallb (fun o => negb (absent p m o)) range then (QUIC_NO_ERROR, 0, m)
  else if existsb (fun o => negb (absent p m o)) range then (QUIC_OVERLAPPING_STREAM_DATA, 0, m)
  else if off + n >? p + capacity then (QUIC_INTERNAL_ERROR, 0, m)
  else if absent p m (off - 1) && absent p m (off + n) && (gaps >=? kMaxNumGapsAllowed) then (QUIC_TOO_MANY_FRAME_GAPS, 0, m)
  else (QUIC_NO_ERROR, n, store m off data ts).

(** What is left when the bytes before [p] have been read. *)
Definition remaining (p : Z) (m : arrivals) : arrivals := filter (fun x => p <= fst x) m.

(** The bytes that can be read: those received from [p] on without a gap. *)
Fixpoint run_from (fuel : nat) (m : arrivals) (p : Z) : list Z :=
  match fuel, m !! p with
  | S fuel, Some (b, _) => b :: run_from fuel m (p + 1)
  | _, _ => []
  end.
Definition readable (p : Z) (m : arrivals) : list Z := run_from (size m) m p.

(** Bytes distributed over destinations of given lengths. *)
Fixpoint scatter (lens : list Z) (bytes : list Z) : list (list Z) :=
  match lens, bytes with
  | [], _ | _, [] => []
  | l :: lens, _ => take (Z.to_nat l) bytes :: scatter lens (drop (Z.to_nat l) bytes)
  end.

(** ** Facts about the abstract state *)

Lemma lookup_store m off data ts o : store m off data ts !! o =
  if (off <=? o) && (o <? off + Z.of_nat (length data)) then (fun b => (b, ts)) <$> data !! Z.to_nat (o - off) else m !! o.
Proof.
  unfold store. destruct (Z.leb_spec off o), (Z.ltb_spec o (off + Z.of_nat (length data))); cbn [andb].
  2-4: apply lookup_union_r, lookup_map_seqZ_None; rewrite length_fmap; lia.
  assert (is_Some (data !! Z.to_nat (o - off))) as [b Hb] by (apply lookup_lt_is_Some; lia).
  rewrite Hb. apply lookup_union_Some_l, lookup_map_seqZ_Some. split; [done|]. by rewrite list_lookup_fmap, Hb.
Qed.

Lemma size_map_seqZ {A} (off : Z) (xs : list A) : size (map_seqZ off xs : gmap Z A) = length xs.
Proof.
  revert off. induction xs as [|x xs IH]; intros off; simpl; [apply map_size_empty|].
  rewrite map_size_insert_None; [by rewrite IH|]. apply lookup_map_seqZ_None. lia.
Qed.

Lemma size_store m off data ts : (forall o, off <= o < off + Z.of_nat (length data) -> m !! o = None) ->
  size (store m off data ts) = (length data + size m)%nat.
Proof.
  intros H. unfold store. rewrite map_size_disj_union, size_map_seqZ, length_fmap; [done|].
  apply map_disjoint_spec. intros o x y H1 H2.
  assert (is_Some ((map_seqZ off ((fun b => (b, ts)) <$> data) : arrivals) !! o)) as Hs by eauto.
  apply lookup_map_seqZ_is_Some in Hs. rewrite length_fmap in Hs. rewrite H in H2; [done|lia].
Qed.

Lemma size_window p n m : (forall o, is_Some (m !! o) -> p <= o < p + Z.of_nat n) -> (size (m : arrivals) <= n)%nat.
Proof.
  revert m. induction n as [|n IH]; intros m Hm.
  - assert (m = ∅) as ->; [|by rewrite map_size_empty]. apply map_empty. intros o. apply eq_None_not_Some. intros H%Hm. lia.
  - assert (size (delete (p + Z.of_nat n)%Z m) <= n)%nat as Hd.
    { apply IH. intros o Ho. destruct (decide (o = p + Z.of_nat n)) as [->|]; [by rewrite lookup_delete_eq in Ho; destruct Ho|].
      rewrite lookup_delete_ne in Ho by done. specialize (Hm o Ho). lia. }
    rewrite map_size_delete in Hd. destruct (m !! (p + Z.of_nat n)); simpl in Hd; lia.
Qed.

Lemma lookup_remaining p m o : remaining p m !! o = if p <=? o then m !! o else None.
Proof.
  unfold remaining. destruct (Z.leb_spec p o).
  - destruct (m !! o) eqn:E; [by apply map_lookup_filter_Some_2|]. apply map_lookup_filter_None. by left.
  - apply map_lookup_filter_None. right. simpl. lia.
Qed.

(** Reading the [n] bytes at [p] removes [n] entries. *)
Lemma size_remaining p n m : (forall o, is_Some (m !! o) -> p <= o) -> (forall o, p <= o < p + Z.of_nat n -> is_Some (m !! o)) ->
  size m = (n + size (remaining (p + Z.of_nat n) m))%nat.
Proof.
  revert p m. induction n as [|n IH]; intros p m Hlo Hn.
  - simpl. f_equal. apply map_eq. intros o. rewrite lookup_remaining. destruct (Z.leb_spec (p + Z.of_nat 0) o); [done|].
    destruct (m !! o) eqn:E; [|done]. specialize (Hlo o ltac:(eauto)). lia.
  - destruct (Hn p ltac:(lia)) as [x Hx].
    rewrite <- (insert_delete_id m p x Hx) at 1. rewrite map_size_insert_None by apply lookup_delete_eq.
    rewrite (IH (p + 1) (delete p m)).
    + simpl. do 3 f_equal. apply map_eq. intros o. rewrite !lookup_remaining. replace (p + 1 + Z.of_nat n) with (p + Z.of_nat (S n)) by lia.
      destruct (Z.leb_spec (p + Z.of_nat (S n)) o); [|done]. apply lookup_delete_ne. lia.
    + intros o Ho. destruct (decide (o = p)) as [->|]; [by rewrite lookup_delete_eq in Ho; destruct Ho|].
      rewrite lookup_delete_ne in Ho by done. specialize (Hlo o Ho). lia.
    + intros o Ho. rewrite lookup_delete_ne by lia. apply Hn. lia.
Qed.

Lemma remaining_remaining p q m : p <= q -> remaining q (remaining p m) = remaining q m.
Proof. intros H. apply map_eq. intros o. rewrite !lookup_remaining. destruct (Z.leb_spec q o), (Z.leb_spec p o); try done; lia. Qed.

(** The readable bytes, when [n] bytes from [p] on are there and no more. *)
Lemma readable_spec p n m : (forall o, is_Some (m !! o) -> p <= o) -> (forall o, p <= o < p + Z.of_nat n -> is_Some (m !! o)) ->
  m !! (p + Z.of_nat n) = None ->
  length (readable p m) = n /\ forall j, (j < n)%nat -> exists b ts, readable p m !! j = Some b /\ m !! (p + Z.of_nat j) = Some (b, ts).
Proof.
  intros Hlo Hn Hend. unfold readable. pose proof (size_remaining p n m Hlo Hn) as Hsz.
  assert (n <= size m)%nat as Hf by lia. clear Hlo Hsz. revert Hf. generalize (size m). revert p Hn Hend.
  induction n as [|n IH]; intros p Hn Hend fuel Hf.
  - replace (p + Z.of_nat 0) with p in Hend by lia. destruct fuel; simpl; [split; [done|lia]|]. rewrite Hend. split; [done|lia].
  - destruct fuel as [|fuel]; [lia|]. simpl. destruct (Hn p ltac:(lia)) as [[b ts] Hb]. rewrite Hb.
    destruct (IH (p + 1) ltac:(intros o Ho; apply Hn; lia) ltac:(by replace (p + 1 + Z.of_nat n) with (p + Z.of_nat (S n)) by lia) fuel ltac:(lia)) as [IH1 IH2].
    split; [simpl; by rewrite IH1|]. intros [|j] Hj.
    + exists b, ts. replace (p + Z.of_nat 0) with p by lia. done.
    + destruct (IH2 j ltac:(lia)) as (b' & ts' & H1 & H2). exists b', ts'. split; [done|]. by replace (p + Z.of_nat (S j)) with (p + 1 + Z.of_nat j) by lia.
Qed.

Lemma forallb_seqZ f off n : forallb f (seqZ off n) = true <-> forall o, off <= o < off + n -> f o = true.
Proof.
  rewrite forallb_forall. split; intros H o Ho; apply H.
  - apply list_elem_of_In, elem_of_seqZ. lia.
  - apply list_elem_of_In, elem_of_seqZ in Ho. lia.
Qed.
Lemma existsb_seqZ f off n : existsb f (seqZ off n) = true <-> exists o, off <= o < off + n /\ f o = true.
Proof.
  rewrite existsb_exists. split; intros (o & H1 & H2); exists o; (split; [|done]).
  - apply list_elem_of_In, elem_of_seqZ in H1. lia.
  - apply list_elem_of_In, elem_of_seqZ. lia.
Qed.

(** ** Receiving *)

Section Receive.
Context (s : SequencerBuffer) (m : arrivals) (Hrep : represents s m).
Abbreviation p := (total_bytes_read_ s).

Lemma absent_missing o : o < kU64Max -> absent p m o = true <-> missing (gaps_ s) o.
Proof using Hrep.
  intros Ho. unfold absent. rewrite andb_true_iff, Z.leb_le, bool_decide_eq_true, eq_None_not_Some, (r_received _ _ (r_holds _ _ Hrep)).
  split; [|intros Hm; pose proof (gaps_ok_missing _ _ _ (r_gaps _ _ (r_holds _ _ Hrep)) Hm); tauto].
  intros [H1 H2]. destruct (decide (Exists (fun g => begin_offset g <= o < end_offset g) (gaps_ s))); [done|].
  exfalso. apply H2. split; [lia|done].
Qed.
Lemma absent_false o : o < kU64Max -> negb (absent p m o) = true <-> ~ missing (gaps_ s) o.
Proof using Hrep. intros Ho. rewrite <- absent_missing by done. by destruct (absent p m o). Qed.

(** The state after data has been stored in one gap. *)
Lemma store_represents off data ts pre g post : data <> [] ->
  0 <= off -> let n := Z.of_nat (length data) in off + n <= kOffsetLimit -> off + n <= p + max_buffer_capacity_bytes_ s ->
  gaps_ s = pre ++ g :: post -> begin_offset g <= off -> off + n <= end_offset g ->
  exists s', (let* (error, s, total_written) := write_blocks (length data) s off data 0 in
    if negb (error =? QUIC_NO_ERROR) then Some (error, 0, s) else
    let* s := UpdateGapList s (length pre) off total_written in
    let s := with_frames s (fm_insert (off, MkFrameInfo n ts) (frame_arrival_time_map_ s)) in
    Some (QUIC_NO_ERROR, total_written, with_read s (total_bytes_read_ s) (num_bytes_buffered_ s +64 total_written)))
    = Some (QUIC_NO_ERROR, n, s') /\ represents s' (store m off data ts) /\
    total_bytes_read_ s' = p /\ max_buffer_capacity_bytes_ s' = max_buffer_capacity_bytes_ s /\
    (length (gaps_ s') <= S (length (gaps_ s)))%nat.
Proof using Hrep.
  intros Hd Hoff n Hlim Hcap Hgs Hb He. assert (0 < n) as Hpos by (subst n; destruct data; [done|simpl; lia]).
  destruct Hrep as [[Hg Hp Hgaps Hrec Hwin Hblk Hcell Hall Hnum] Hfr Hcov].
  pose proof Hgaps as Hgaps'. rewrite Hgs in Hgaps'. destruct (gaps_ok_split _ _ _ _ Hgaps') as (G1 & G2 & G3 & G4 & G5).
  assert (kOffsetLimit = 2 ^ 63) as HL by done. assert (kBlockSizeBytes = 8192) as HB by done. assert (kU64Max = 2 ^ 64 - 1) as HU by done.
  pose proof Hg as [Hc _].
  destruct (write_blocks_spec (length data) s off data 0 p Hg Hblk) as (s1 & Hrun & W1 & W2 & W3 & W4 & W5); try lia; try done.
  rewrite Hrun. cbn [negb Z.eqb]. change (negb (QUIC_NO_ERROR =? QUIC_NO_ERROR)) with false. cbv iota. rewrite Z.add_0_l.
  assert (gaps_ s1 = gaps_ s) as E1 by (by rewrite W2). assert (total_bytes_read_ s1 = p) as E2 by (by rewrite W2).
  destruct (UpdateGapList_spec s1 pre g post off n) as (gs & Hupd & U1 & U2 & U3); rewrite ?E1, ?E2; try done; try lia.
  fold n. rewrite Hupd. cbv zeta. eexists. split; [reflexivity|].
  assert (forall o, off <= o < off + n -> missing (gaps_ s) o) as Hmiss.
  { intros o Ho. rewrite Hgs. apply Exists_app. right. left. lia. }
  assert (forall o, off <= o < off + n -> m !! o = None) as Hnone.
  { intros o Ho. apply eq_None_not_Some. rewrite Hrec. intros [_ H]. by apply H, Hmiss. }
  destruct (fm_insert_spec p (frame_arrival_time_map_ s) off (MkFrameInfo n ts) Hfr ltac:(lia) ltac:(simpl; lia)) as [F1 F2].
  { intros o t Hc'. apply Hcov in Hc' as [b Hb']. simpl. intros Ho. rewrite Hnone in Hb' by lia. done. }
  assert (forall o, is_Some (store m off data ts !! o) <-> off <= o < off + n \/ is_Some (m !! o)) as Hst.
  { intros o. rewrite lookup_store. fold n. destruct (Z.leb_spec off o), (Z.ltb_spec o (off + n)); cbn [andb].
    - rewrite fmap_is_Some, lookup_lt_is_Some. split; [left; lia|intros _; lia].
    - split; [by right|]. intros [?|?]; [lia|done].
    - split; [by right|]. intros [?|?]; [lia|done].
    - split; [by right|]. intros [?|?]; [lia|done]. }
  rewrite E1 in U2, U3. rewrite E2 in U1.
  remember (blocks_ s1) as bl eqn:Ebl. clear Ebl. subst s1. split; [|done].
  split; [split|..]; cbn [with_blocks with_gaps with_frames with_read frame_arrival_time_map_ total_bytes_read_ num_bytes_buffered_ gaps_
    max_buffer_capacity_bytes_]; try done.
  - intros o. cbn. rewrite Hst, U2, Hrec. split.
    + intros [H|H]; [split; [lia|tauto]|tauto].
    + intros [H1 H2]. destruct (decide (off <= o < off + n)); [by left|]. right. split; [lia|]. tauto.
  - intros o Ho. cbn. apply Hst in Ho as [?|?]; [lia|by apply Hwin].
  - intros o b t. cbn. rewrite lookup_store. fold n.
    change (cell _ o) with (cell (with_blocks s bl) o).
    destruct (Z.leb_spec off o), (Z.ltb_spec o (off + n)); cbn [andb].
    + intros H'. apply fmap_Some in H' as (b' & Hb' & [= -> ->]). replace o with (off + (o - off)) by lia. rewrite W4 by lia. done.
    + intros H'. apply W5; [|lia|by eapply Hcell]. destruct (Hwin o ltac:(eauto)). assert (is_Some (m !! o)) as H'' by eauto. apply Hrec in H''. lia.
    + intros H'. apply W5; [|lia|by eapply Hcell]. destruct (Hwin o ltac:(eauto)). assert (is_Some (m !! o)) as H'' by eauto. apply Hrec in H''. lia.
    + intros H'. apply W5; [|lia|by eapply Hcell]. destruct (Hwin o ltac:(eauto)). assert (is_Some (m !! o)) as H'' by eauto. apply Hrec in H''. lia.
  - intros i. cbn. change (allocated _ i) with (allocated (with_blocks s bl) i). rewrite W3. intros [H|(o & Ho & Hi)].
    + destruct (Hall i H) as (o & Ho & Hi). exists o. split; [apply Hst; by right|done].
    + exists o. split; [apply Hst; by left|done].
  - cbn. rewrite size_store by done. rewrite u64_id; [lia|]. unfold is_u64. rewrite Hnum.
    assert (size m <= Z.to_nat (max_buffer_capacity_bytes_ s))%nat; [|lia].
    apply (size_window p). intros o Ho. destruct (Hwin o Ho). apply Hrec in Ho. lia.
  - intros o t. cbn. rewrite F2. simpl. rewrite Hcov, lookup_store. fold n.
    destruct (Z.leb_spec off o), (Z.ltb_spec o (off + n)); cbn [andb].
    + split; [intros [[_ <-]|[b Hb']]|intros [b Hb']].
      * assert (is_Some (data !! Z.to_nat (o - off))) as [b Hb'] by (apply lookup_lt_is_Some; lia). exists b. by rewrite Hb'.
      * rewrite Hnone in Hb' by lia. done.
      * apply fmap_Some in Hb' as (b' & _ & [= _ <-]). left. split; [lia|done].
    + split; [intros [?|?]; [lia|done]|by right].
    + split; [intros [?|?]; [lia|done]|by right].
    + split; [intros [?|?]; [lia|done]|by right].
Qed.

(** Data that arrives.  Whatever the offset and the data (streams below 2^63
    bytes), the buffer answers as the abstract state demands on every branch:
    empty frame, duplicate, overlap, beyond the window, too many gaps, stored;
    the new state represents the bytes received with their times, and the blocks
    allocated are exactly those that hold unread data. *)
Lemma OnStreamData_spec off data ts :
  0 <= off -> off + Z.of_nat (length data) <= kOffsetLimit ->
  let '(code, n, m') := receive (max_buffer_capacity_bytes_ s) (Z.of_nat (length (gaps_ s))) p m off data ts in
  exists s', OnStreamData s off data ts = Some (code, n, s') /\ represents s' m' /\
    total_bytes_read_ s' = p /\ max_buffer_capacity_bytes_ s' = max_buffer_capacity_bytes_ s /\
    (length (gaps_ s') <= S (length (gaps_ s)))%nat /\ (n = 0 -> s' = s).
Proof using Hrep.
  intros Hoff Hlim. unfold OnStreamData, receive. set (n := Z.of_nat (length data)) in *.
  destruct (Z.eqb_spec n 0) as [|Hn]; [exists s; split_and!; (done || lia)|].
  assert (data <> []) as Hd by (intros ->; done).
  assert (kU64Max = 2 ^ 64 - 1) as HU by done. assert (kOffsetLimit = 2 ^ 63) as HL by done.
  destruct (find_gap_split p (gaps_ s) off (r_gaps _ _ (r_holds _ _ Hrep))) as (pre & g & post & Hgs & -> & Hpre & Hog).
  { pose proof (r_read _ _ (r_holds _ _ Hrep)). lia. } { lia. }
  rewrite Hgs, lookup_mid, <- Hgs. pose proof (r_gaps _ _ (r_holds _ _ Hrep)) as Hok. rewrite Hgs in Hok.
  destruct (gaps_ok_split _ _ _ _ Hok) as (G1 & G2 & G3 & G4 & G5).
  assert (forall o, off <= o <= end_offset g -> missing (gaps_ s) o <-> begin_offset g <= o < end_offset g) as Hm.
  { intros o Ho. rewrite Hgs. apply (missing_split p); [done| |lia]. eapply Forall_impl; [apply Hpre|]. simpl. lia. }
  pose proof (r_read _ _ (r_holds _ _ Hrep)) as Hp. pose proof (r_geometry _ _ (r_holds _ _ Hrep)) as [Hc _]. assert (kBlockSizeBytes = 8192) as HB by done.
  rewrite !(u64_id (off + n)) by (unfold is_u64; lia). rewrite (u64_id (p + _)) by (unfold is_u64; lia).
  destruct (Z.ltb_spec off (begin_offset g)) as [H1|H1]; cbn [andb].
  - destruct (Z.leb_spec (off + n) (begin_offset g)) as [H2|H2].
    + assert (forallb (fun o => negb (absent p m o)) (seqZ off n) = true) as ->; [|exists s; split_and!; (done || lia)].
      apply forallb_seqZ. intros o Ho. apply absent_false; [lia|]. rewrite Hm by lia. lia.
    + assert (forallb (fun o => negb (absent p m o)) (seqZ off n) = false) as ->.
      { apply not_true_iff_false. rewrite forallb_seqZ. intros H. specialize (H (begin_offset g) ltac:(lia)).
        apply absent_false in H; [|lia]. rewrite Hm in H by lia. lia. }
      assert (existsb (fun o => negb (absent p m o)) (seqZ off n) = true) as ->.
      { apply existsb_seqZ. exists off. split; [lia|]. apply absent_false; [lia|]. rewrite Hm by lia. lia. }
      destruct (Z.gtb_spec (off + n) (begin_offset g)); [|lia]. exists s. split_and!; (done || lia).
  - assert (forallb (fun o => negb (absent p m o)) (seqZ off n) = false) as ->.
    { apply not_true_iff_false. rewrite forallb_seqZ. intros H. specialize (H off ltac:(lia)).
      apply absent_false in H; [|lia]. rewrite Hm in H by lia. lia. }
    destruct (Z.gtb_spec (off + n) (end_offset g)) as [H2|H2].
    + assert (existsb (fun o => negb (absent p m o)) (seqZ off n) = true) as ->; [|exists s; split_and!; (done || lia)].
      apply existsb_seqZ. exists (end_offset g). split; [lia|]. apply absent_false; [lia|]. rewrite Hm by lia. lia.
    + assert (existsb (fun o => negb (absent p m o)) (seqZ off n) = false) as ->.
      { apply not_true_iff_false. rewrite existsb_seqZ. intros (o & Ho & H). apply absent_false in H; [|lia]. apply H, Hm; lia. }
      destruct (off + n >? p + max_buffer_capacity_bytes_ s) eqn:E; [exists s; split_and!; (done || lia)|]. rewrite Z.gtb_ltb, Z.ltb_ge in E.
      assert (absent p m (off - 1) = negb (begin_offset g =? off)) as ->.
      { apply eq_true_iff_eq. rewrite absent_missing by lia. rewrite negb_true_iff, Z.eqb_neq. split.
        - intros H Heq. rewrite Hgs, (missing_split p) in H; [lia|done| |lia]. eapply Forall_impl; [apply G4|]. simpl. lia.
        - intros H. rewrite Hgs. apply Exists_app. right. left. lia. }
      assert (absent p m (off + n) = negb (end_offset g =? off + n)) as ->.
      { apply eq_true_iff_eq. rewrite absent_missing by lia. rewrite negb_true_iff, Z.eqb_neq, Hm by lia. lia. }
      destruct (negb (begin_offset g =? off) && negb (end_offset g =? off + n) && (Z.of_nat (length (gaps_ s)) >=? kMaxNumGapsAllowed)); [exists s; split_and!; (done || lia)|].
      destruct (store_represents off data ts pre g post) as (s' & Hs' & Hrep' & Ht & Hc' & Hl'); try done.
      exists s'. split; [exact Hs'|]. by split_and!.
Qed.
End Receive.

(** ** Reading *)

Section Read.
Context (s : SequencerBuffer) (m : arrivals) (Hh : holds s m).
Abbreviation p := (total_bytes_read_ s).
Abbreviation c := (max_buffer_capacity_bytes_ s).

(** The first gap and what comes before it. *)
Lemma front_spec : exists front rest, gaps_ s = front :: rest /\ ReadableBytes s = Some (begin_offset front - p) /\
  p <= begin_offset front < end_offset front /\ end_offset front <= kU64Max /\
  (forall o, p <= o < begin_offset front -> is_Some (m !! o)) /\ m !! begin_offset front = None.
Proof using Hh.
  pose proof (r_gaps _ _ Hh) as Hok. pose proof (r_read _ _ Hh) as Hp. assert (kU64Max = 2 ^ 64 - 1) as HU by done.
  assert (kOffsetLimit = 2 ^ 63) as HL by done.
  destruct (gaps_ s) as [|front rest] eqn:E; [simpl in Hok; lia|]. exists front, rest. split; [done|].
  destruct (gaps_ok_split p [] front rest Hok) as (G1 & G2 & _ & _ & _). unfold ReadableBytes. rewrite E. simpl.
  rewrite u64_id by (unfold is_u64; lia). split_and!; try done; try lia.
  - intros o Ho. apply (r_received _ _ Hh). split; [lia|]. rewrite E, (missing_split p [] front rest); [lia|done|done|lia].
  - apply eq_None_not_Some. rewrite (r_received _ _ Hh), E. intros [_ H]. apply H. left. lia.
Qed.

(** The last gap and what is received before it. *)
Lemma back_spec front rest : gaps_ s = front :: rest -> exists back, last (gaps_ s) = Some back /\ p <= begin_offset back < kU64Max /\
  (forall o, is_Some (m !! o) -> o < begin_offset back) /\
  (rest = [] /\ back = front \/ rest <> [] /\ end_offset front < begin_offset back) /\
  (p < begin_offset back -> is_Some (m !! (begin_offset back - 1))).
Proof using Hh.
  intros E. pose proof Hh as [_ Hp Hok Hrec _ _ _ _ _].
  destruct (last (gaps_ s)) as [back|] eqn:El; [|apply last_None in El; by rewrite E in El].
  apply last_Some in El as [pre El]. exists back. split; [done|]. pose proof Hok as Hok'. rewrite El in Hok'.
  destruct (gaps_ok_split p pre back [] Hok') as (G1 & G2 & G3 & G4 & _). simpl in G3.
  split; [lia|]. split; [|split].
  - intros o Ho. apply Hrec in Ho as [Ho Hn]. destruct (Z.lt_ge_cases o (begin_offset back)); [done|]. exfalso. apply Hn. rewrite El.
    apply Exists_app. right. left. lia.
  - rewrite E in El. destruct pre as [|x pre]; simplify_eq El; intros; subst; [by left|]. right. split; [by destruct pre|].
    inversion G4; subst. done.
  - intros Hb. apply Hrec. split; [lia|]. rewrite El. rewrite (missing_split p pre back []); [lia|done| |lia].
    eapply Forall_impl; [apply G4|]. simpl. lia.
Qed.

Lemma front_readable : exists front rest, gaps_ s = front :: rest /\ ReadableBytes s = Some (begin_offset front - p) /\
  Z.of_nat (length (readable p m)) = begin_offset front - p /\
  forall j, 0 <= j < begin_offset front - p -> exists b ts, readable p m !! Z.to_nat j = Some b /\ m !! (p + j) = Some (b, ts).
Proof using Hh.
  destruct front_spec as (front & rest & E & Hr & Hb & He & Hin & Hnone). exists front, rest.
  destruct (readable_spec p (Z.to_nat (begin_offset front - p)) m) as [H1 H2].
  - intros o Ho. apply (r_received _ _ Hh) in Ho. lia.
  - intros o Ho. apply Hin. lia.
  - by replace (p + Z.of_nat (Z.to_nat (begin_offset front - p))) with (begin_offset front) by lia.
  - split_and!; try done; try lia. intros j Hj. destruct (H2 (Z.to_nat j) ltac:(lia)) as (b & ts & Ha & Hb').
    exists b, ts. split; [done|]. by replace (p + j) with (p + Z.of_nat (Z.to_nat j)) by lia.
Qed.

(** After [n] readable bytes have been read, with the blocks [bl]. *)
Definition advanced (n : Z) (bl : option (list (option (list Z)))) : SequencerBuffer :=
  with_blocks (with_read s (p + n) (num_bytes_buffered_ s - n)) bl.

Lemma advanced_holds n bl : 0 <= n <= Z.of_nat (length (readable p m)) ->
  let s' := advanced n bl in let m' := remaining (p + n) m in
  blocks_ok s' -> (forall o, is_Some (m' !! o) -> cell s' o = cell s o) ->
  (forall i, allocated s' i -> exists o, is_Some (m' !! o) /\ GetBlockIndex s o = i) -> holds s' m'.
Proof using Hh.
  intros Hn s' m' Hbl Hcell Hall. destruct front_readable as (front & rest & E & _ & Hlen & _).
  destruct front_spec as (front' & rest' & E' & _ & Hb & He & Hin & _). rewrite E in E'. simplify_eq.
  pose proof Hh as [Hg Hp Hgaps Hrec Hwin Hblk Hc Ha Hnum].
  assert (forall o, is_Some (m' !! o) <-> p + n <= o /\ is_Some (m !! o)) as Hm'.
  { intros o. unfold m'. rewrite lookup_remaining. destruct (Z.leb_spec (p + n) o); [tauto|].
    split; [by intros [? ?]|lia]. }
  split; try done; cbn.
  - destruct (decide (n = 0)) as [->|]; [lia|]. assert (p + n - 1 < kOffsetLimit); [|lia]. apply Hwin, Hin. lia.
  - rewrite E in *. eapply gaps_ok_lower; [apply Hgaps|lia].
  - intros o. rewrite Hm', Hrec. split; [intros (? & ? & ?); split; [lia|done]|]. intros [? ?]. split; [lia|]. split; [lia|done].
  - intros o Ho. apply Hm' in Ho as [? Ho]. destruct (Hwin o Ho). lia.
  - intros o b ts Ho. rewrite Hcell by eauto. unfold m' in Ho. rewrite lookup_remaining in Ho.
    destruct (Z.leb_spec (p + n) o); [|done]. by eapply Hc.
  - rewrite Hnum. pose proof (size_remaining p (Z.to_nat n) m) as Hsz. rewrite Z2Nat.id in Hsz by lia. fold m' in Hsz.
    rewrite Hsz; [lia| |].
    + intros o Ho. apply Hrec in Ho. lia.
    + intros o Ho. apply Hin. lia.
Qed.

Abbreviation i := (NextBlockToRead s).
Abbreviation space := (GetBlockCapacity s i - ReadOffset s).

(** The bytes of the first block come from it alone. *)
Lemma other_block o n : n <= space -> is_Some (m !! o) -> GetBlockIndex s o <> i -> p + n <= o.
Proof using Hh.
  intros Hn Ho Hi. pose proof (r_received _ _ Hh o) as Hr. apply Hr in Ho as [Ho _].
  destruct (Z.lt_ge_cases o (p + n)); [|lia]. exfalso. apply Hi. replace o with (p + (o - p)) by lia.
  apply in_block_run; [apply (r_geometry _ _ Hh)|]. fold i. fold (ReadOffset s). lia.
Qed.

Lemma space_pos : 0 < space.
Proof using Hh. pose proof (in_block_range s (r_geometry _ _ Hh) p). unfold i, ReadOffset. lia. Qed.

(** When the data of a block up to its end or the next gap has been read, the
    block is freed if and only if it holds no more unread data. *)
Lemma retire_spec n : n = Z.min (Z.of_nat (length (readable p m))) space -> 0 < n ->
  let s1 := with_read s (p + n) (num_bytes_buffered_ s - n) in let m' := remaining (p + n) m in
  (RetireBlockIfEmpty s1 i = Some (true, s1) /\ exists o, is_Some (m' !! o) /\ GetBlockIndex s o = i) \/
  (RetireBlockIfEmpty s1 i = Some (true, set_block s1 i None) /\ forall o, is_Some (m' !! o) -> GetBlockIndex s o <> i).
Proof using Hh.
  intros Hn Hpos s1 m'. destruct front_readable as (front & rest & E & _ & Hlen & Hbytes).
  destruct front_spec as (front' & rest' & E' & _ & Hb & He & Hin & _). rewrite E in E'. simplify_eq E'. intros <- <-.
  pose proof Hh as [Hg Hp Hgaps Hrec Hwin Hblk Hc Ha Hnum].
  assert (forall o, is_Some (m' !! o) <-> p + n <= o /\ is_Some (m !! o)) as Hm'.
  { intros o. unfold m'. rewrite lookup_remaining. destruct (Z.leb_spec (p + n) o); [tauto|]. split; [by intros [? ?]|lia]. }
  assert (RetireBlock s1 i = Some (true, set_block s1 i None)) as Hretire.
  { unfold RetireBlock. destruct (Hin p ltac:(lia)) as [[b ts] Hb0]. apply Hc in Hb0. unfold cell in Hb0.
    change (block_ptr s1 i) with (block_ptr s (GetBlockIndex s p)). by destruct (block_ptr s (GetBlockIndex s p)) as [[blk|]|]. }
  assert (forall o, is_Some (m' !! o) -> GetBlockIndex s o = i <-> o - (p + n) < space - n \/ c - ReadOffset s - n <= o - (p + n)) as Hblock.
  { intros o Ho. apply Hm' in Ho as [Ho Ho']. destruct (Hwin o Ho'). pose proof space_pos.
    pose proof (same_block s Hg p n (o - (p + n))) as Hsb. fold i in Hsb. fold (ReadOffset s) in Hsb.
    replace (p + n + (o - (p + n))) with o in Hsb by lia. apply Hsb; lia. }
  assert (kU64Max = 2 ^ 64 - 1) as HU by done. assert (kOffsetLimit = 2 ^ 63) as HL by done.
  unfold RetireBlockIfEmpty, Empty. cbn [gaps_ s1 with_read total_bytes_read_]. rewrite E. cbn [head].
  destruct ((length (front :: rest) =? 1)%nat && (begin_offset front =? p + n)) eqn:Hempty.
  { right. split; [done|]. intros o Ho. exfalso. apply andb_true_iff in Hempty as [Hl Hbn]. apply Nat.eqb_eq in Hl.
    destruct rest; [|done]. apply Z.eqb_eq in Hbn. apply Hm' in Ho as [Ho Ho']. apply Hrec in Ho' as [Ho' Hmiss]. apply Hmiss.
    rewrite E in *. simpl in Hgaps. left. lia. }
  destruct (back_spec front rest E) as (back & Hlast & Hback & Hbefore & Hshape & Hlastbyte).
  rewrite <- E, Hlast. set (L := begin_offset back - 1).
  assert (is_Some (m' !! L) /\ p + n <= L) as [HL' HLn].
  { assert (p + n <= L) as HLn; [|split; [apply Hm'; split; [done|apply Hlastbyte; lia]|done]].
    destruct Hshape as [[-> ->]|[_ ?]]; [|lia]. apply andb_false_iff in Hempty as [?|?%Z.eqb_neq]; [done|lia]. }
  rewrite u64_id by (unfold is_u64; lia). fold L. change (GetBlockIndex s1 ?o) with (GetBlockIndex s o).
  destruct (Z.eqb_spec (GetBlockIndex s L) i) as [EL|EL].
  { left. split; [done|]. by exists L. }
  rewrite Hblock in EL by done.
  assert (forall o, is_Some (m' !! o) -> o <= L) as Hle.
  { intros o Ho. apply Hm' in Ho as [_ Ho]. apply Hbefore in Ho. unfold L. lia. }
  assert (NextBlockToRead s1 = i -> n < space /\ is_Some (m' !! end_offset front) /\ begin_offset front = p + n) as Hgap.
  { intros Hnx. change (NextBlockToRead s1) with (GetBlockIndex s (p + n)) in Hnx. pose proof space_pos as Hsp.
    pose proof (same_block s Hg p n 0) as Hsb. fold i in Hsb. fold (ReadOffset s) in Hsb. rewrite Z.add_0_r in Hsb.
    apply Hsb in Hnx; [|lia|destruct Hg; unfold kBlockSizeBytes in *; lia].
    assert (n < space) by lia. assert (begin_offset front = p + n) as Hbf by lia. split_and!; try done.
    destruct Hshape as [[-> ->]|[Hrest Hshape]]; [unfold L in *; lia|].
    destruct rest as [|g2 rest]; [done|]. rewrite E in Hgaps. pose proof Hgaps as (_ & _ & Hg2). simpl in Hg2.
    apply Hm'. split; [lia|]. apply Hrec. split; [lia|]. rewrite E, (missing_split p [] front (g2 :: rest)); [lia|done|done|lia]. }
  destruct ((NextBlockToRead s1 =? i) && (GetBlockIndex s (end_offset front) =? i)) eqn:Hnext.
  - apply andb_true_iff in Hnext as [Hnx%Z.eqb_eq Hend%Z.eqb_eq]. left. split; [done|]. exists (end_offset front). by destruct (Hgap Hnx) as (_ & ? & _).
  - right. split; [done|]. intros o Ho Hoi. rewrite Hblock in Hoi by done. specialize (Hle o Ho).
    assert (o - (p + n) < space - n) as Hos by lia.
    assert (NextBlockToRead s1 = i) as Hnx.
    { apply Hm' in Ho as [Ho _]. change (NextBlockToRead s1) with (GetBlockIndex s (p + n)). apply in_block_run; [done|]. fold (ReadOffset s) i. lia. }
    destruct (Hgap Hnx) as (_ & Hend & Hbf). rewrite Hnx, Z.eqb_refl in Hnext. cbn [andb] in Hnext. apply Z.eqb_neq in Hnext.
    apply Hnext, Hblock; [done|]. left. assert (end_offset front <= o); [|lia].
    apply Hm' in Ho as [Ho Ho']. apply Hrec in Ho' as [_ Hmiss]. destruct (Z.lt_ge_cases o (end_offset front)); [|lia].
    exfalso. apply Hmiss. rewrite E. left. lia.
Qed.

(** One round of the reading loops. *)
Lemma advance n : 0 < n <= Z.min (Z.of_nat (length (readable p m))) space ->
  let s1 := with_read s (p +64 n) (num_bytes_buffered_ s -64 n) in let m' := remaining (p + n) m in
  if n =? Z.min (Z.of_nat (length (readable p m))) space
  then exists s2, RetireBlockIfEmpty s1 i = Some (true, s2) /\ holds s2 m' /\ exists bl, s2 = with_blocks s1 bl
  else holds s1 m'.
Proof using Hh.
  intros Hn s1' m'. pose proof Hh as [Hg Hp Hgaps Hrec Hwin Hblk Hc Ha Hnum].
  destruct front_readable as (front & rest & E & _ & Hlen & Hbytes). destruct front_spec as (front' & rest' & E' & _ & Hb & He & Hin & _).
  rewrite E in E'. simplify_eq E'. intros <- <-.
  assert (forall o, is_Some (m' !! o) <-> p + n <= o /\ is_Some (m !! o)) as Hm'.
  { intros o. unfold m'. rewrite lookup_remaining. destruct (Z.leb_spec (p + n) o); [tauto|]. split; [by intros [? ?]|lia]. }
  assert (n <= num_bytes_buffered_ s < 2 ^ 64) as Hnn.
  { rewrite Hnum. pose proof (size_remaining p (Z.to_nat n) m) as Hsz. rewrite Z2Nat.id in Hsz by lia.
    assert (size m <= Z.to_nat c)%nat by (apply (size_window p); intros o Ho; destruct (Hwin o Ho); apply Hrec in Ho; lia).
    pose proof (proj1 Hg). specialize (Hsz ltac:(intros o Ho; apply Hrec in Ho; lia) ltac:(intros o Ho; apply Hin; lia)). lia. }
  assert (kU64Max = 2 ^ 64 - 1) as HU by done.
  assert (s1' = advanced n (blocks_ s)) as ->.
  { unfold s1'. rewrite !u64_id by (unfold is_u64; lia). done. }
  set (s1 := advanced n (blocks_ s)).
  assert (forall j, allocated s j -> j <> i -> exists o, is_Some (m' !! o) /\ GetBlockIndex s o = j) as Hother.
  { intros j Hj Hne. destruct (Ha j Hj) as (o & Ho & <-). exists o. split; [|done]. apply Hm'. split; [|done].
    apply other_block; [lia|done|done]. }
  assert ((exists o, is_Some (m' !! o) /\ GetBlockIndex s o = i) -> holds s1 m') as Hkeep.
  { intros Hw. apply advanced_holds; [lia|done|done|]. intros j Hj. destruct (decide (j = i)) as [->|]; [done|by apply Hother]. }
  destruct (Z.eqb_spec n (Z.min (Z.of_nat (length (readable p m))) space)) as [En|En].
  - destruct (retire_spec n En ltac:(lia)) as [[Hr Hw]|[Hr Hw]].
    + exists s1. split; [done|]. split; [by apply Hkeep|by exists (blocks_ s)].
    + eexists. split; [exact Hr|]. split; [|by eexists].
      set (s2 := set_block _ i None). change s2 with (advanced n (blocks_ s2)).
      assert (forall j, block_ptr s2 j = if j =? i then Some None else block_ptr s j) as Hptr.
      { intros j. change (block_ptr s j) with (block_ptr s1 j). apply block_ptr_set; [done|done| |apply (index_range s Hg)].
        destruct (Hin p ltac:(lia)) as [[b ts] Hb0]. apply Hc in Hb0. unfold cell, block_ptr in Hb0. simpl. by destruct (blocks_ s). }
      apply advanced_holds; [lia| | |].
      * change (blocks_ok (set_block s1 i None)). by apply blocks_ok_set.
      * intros o Ho. unfold cell. change (block_ptr (advanced n (blocks_ s2))) with (block_ptr s2).
        change (GetBlockIndex (advanced n (blocks_ s2)) o) with (GetBlockIndex s o). rewrite Hptr.
        destruct (Z.eqb_spec (GetBlockIndex s o) i); [by apply Hw in Ho|done].
      * intros j [blk Hj]. change (block_ptr (advanced n (blocks_ s2))) with (block_ptr s2) in Hj. rewrite Hptr in Hj.
        destruct (Z.eqb_spec j i); [done|]. apply Hother; [by exists blk|done].
  - apply Hkeep. exists (p + n). split; [apply Hm'; split; [lia|apply Hin; lia]|].
    apply in_block_run; [done|]. fold (ReadOffset s) i. lia.
Qed.
End Read.

Lemma readable_remaining p n m k : (forall o, is_Some (m !! o) -> p <= o) -> (forall o, p <= o < p + Z.of_nat n -> is_Some (m !! o)) ->
  m !! (p + Z.of_nat n) = None -> 0 <= k <= Z.of_nat n ->
  readable (p + k) (remaining (p + k) m) = drop (Z.to_nat k) (readable p m).
Proof.
  intros Hlo Hin Hend Hk. destruct (readable_spec p n m Hlo Hin Hend) as [L1 R1].
  destruct (readable_spec (p + k) (n - Z.to_nat k) (remaining (p + k) m)) as [L2 R2].
  - intros o. rewrite lookup_remaining. destruct (Z.leb_spec (p + k) o); [done|by intros [? ?]].
  - intros o Ho. rewrite lookup_remaining. destruct (Z.leb_spec (p + k) o); [|lia]. apply Hin. lia.
  - rewrite lookup_remaining. replace (p + k + Z.of_nat (n - Z.to_nat k)) with (p + Z.of_nat n) by lia. by rewrite Hend; case_if.
  - apply list_eq_same_length with (n - Z.to_nat k)%nat; [rewrite length_drop; lia|done|].
    intros j x y Hj Hx Hy. destruct (R2 j Hj) as (b & ts & E1 & E2). rewrite lookup_drop in Hy.
    destruct (R1 (Z.to_nat k + j)%nat ltac:(lia)) as (b' & ts' & E1' & E2'). rewrite lookup_remaining in E2.
    destruct (Z.leb_spec (p + k) (p + k + Z.of_nat j)); [|lia].
    replace (p + Z.of_nat (Z.to_nat k + j)) with (p + k + Z.of_nat j) in E2' by lia. congruence.
Qed.

(** What reading leaves alone. *)
Definition kept (s s' : SequencerBuffer) : Prop :=
  gaps_ s' = gaps_ s /\ frame_arrival_time_map_ s' = frame_arrival_time_map_ s /\
  max_buffer_capacity_bytes_ s' = max_buffer_capacity_bytes_ s.

Section Loops.
Context (s : SequencerBuffer) (m : arrivals) (Hh : holds s m).
Abbreviation p := (total_bytes_read_ s).
Abbreviation i := (NextBlockToRead s).
Abbreviation space := (GetBlockCapacity s i - ReadOffset s).

Lemma holds_remaining k : 0 <= k <= Z.of_nat (length (readable p m)) ->
  readable (p + k) (remaining (p + k) m) = drop (Z.to_nat k) (readable p m).
Proof using Hh.
  intros Hk. destruct (front_readable s m Hh) as (front & rest & E & _ & Hlen & _). destruct (front_spec s m Hh) as (front' & rest' & E' & _ & Hb & He & Hin & Hn).
  rewrite E in E'. simplify_eq E'. intros <- <-. apply (readable_remaining p (Z.to_nat (begin_offset front - p))); [| | |lia].
  - intros o Ho. apply (r_received _ _ Hh) in Ho. lia.
  - intros o Ho. apply Hin. lia.
  - by replace (p + Z.of_nat (Z.to_nat (begin_offset front - p))) with (begin_offset front) by lia.
Qed.

Lemma space_u64 : GetBlockCapacity s i -64 ReadOffset s = space /\ 0 < space /\ ReadOffset s + space <= kBlockSizeBytes /\ 0 <= ReadOffset s.
Proof using Hh.
  pose proof (r_geometry _ _ Hh) as Hg. pose proof (in_block_range s Hg p). pose proof (capacity_range s Hg _ (index_range s Hg p)).
  assert (kBlockSizeBytes = 8192) by done. unfold ReadOffset, i. rewrite u64_id by (unfold is_u64; lia). lia.
Qed.

Lemma ReadableBytes_spec : ReadableBytes s = Some (Z.of_nat (length (readable p m))).
Proof using Hh. destruct (front_readable s m Hh) as (front & rest & E & -> & -> & _). done. Qed.

Lemma remaining_all : remaining p m = m.
Proof using Hh.
  apply map_eq. intros o. rewrite lookup_remaining. destruct (Z.leb_spec p o); [done|]. destruct (m !! o) eqn:E; [|done].
  assert (is_Some (m !! o)) as Ho by eauto. apply (r_received _ _ Hh) in Ho. lia.
Qed.

(** The readable bytes of the first block are in it, from the read offset on. *)
Lemma first_block : readable p m <> [] -> exists blk, block_ptr s i = Some (Some blk) /\ Z.of_nat (length blk) = kBlockSizeBytes /\
  forall n, 0 <= n <= Z.min (Z.of_nat (length (readable p m))) space ->
  take (Z.to_nat n) (drop (Z.to_nat (ReadOffset s)) blk) = take (Z.to_nat n) (readable p m).
Proof using Hh.
  intros Hne. assert (0 < Z.of_nat (length (readable p m))) as Hpos by (destruct (readable p m); [done|simpl; lia]).
  destruct (front_readable s m Hh) as (front & rest & E & _ & Hlen & Hbytes).
  destruct (Hbytes 0 ltac:(lia)) as (b0 & ts0 & _ & Hb0). rewrite Z.add_0_r in Hb0. apply (r_cells _ _ Hh) in Hb0. unfold cell in Hb0.
  fold i in Hb0. destruct (block_ptr s i) as [[blk|]|] eqn:Ep; [|done..]. exists blk.
  pose proof (block_length s i blk (r_blocks _ _ Hh) Ep) as Hl. split; [done|]. split; [done|].
  destruct space_u64 as (_ & H1 & H2 & H3). intros n Hn.
  apply list_eq_same_length with (Z.to_nat n); [rewrite length_take; lia|rewrite length_take, length_drop; lia|].
  intros j x y Hj. rewrite !lookup_take_lt by lia. rewrite lookup_drop. intros Hx Hy.
  destruct (Hbytes (Z.of_nat j) ltac:(lia)) as (b & ts & R & M). rewrite Nat2Z.id in R. apply (r_cells _ _ Hh) in M. unfold cell in M.
  destruct (in_block_run s (r_geometry _ _ Hh) p (Z.of_nat j)) as [E1 E2]; [fold i; fold (ReadOffset s); lia|].
  rewrite E1, E2 in M. fold i in M. fold (ReadOffset s) in M. rewrite Ep in M.
  replace (Z.to_nat (ReadOffset s + Z.of_nat j)) with (Z.to_nat (ReadOffset s) + j)%nat in M by lia. congruence.
Qed.
End Loops.

Lemma read_one_spec fuel s m dest copied : holds s m -> 0 <= dest -> (Z.to_nat dest <= fuel)%nat ->
  let avail := readable (total_bytes_read_ s) m in let n := Z.min dest (Z.of_nat (length avail)) in
  exists s', read_one fuel s dest copied = Some (QUIC_NO_ERROR, copied ++ take (Z.to_nat dest) avail, s') /\
    holds s' (remaining (total_bytes_read_ s + n) m) /\ total_bytes_read_ s' = total_bytes_read_ s + n /\ kept s s'.
Proof.
  revert s m dest copied. induction fuel as [|fuel IH]; intros s m dest copied Hh Hd Hf avail n.
  all: cbn [read_one]; rewrite (ReadableBytes_spec s m Hh); fold avail.
  all: destruct (Z.gtb_spec dest 0), (Z.gtb_spec (Z.of_nat (length avail)) 0); cbn [andb]; try lia.
  all: try (exists s; replace n with 0 by lia; rewrite Z.add_0_r, (remaining_all s m Hh); split_and!; try done;
    do 3 f_equal; destruct avail; [by rewrite take_nil, app_nil_r|simpl in *; replace (Z.to_nat dest) with 0%nat by lia; by rewrite app_nil_r]).
  destruct (space_u64 s m Hh) as (-> & Hs1 & Hs2 & Hs3).
  destruct (first_block s m Hh) as (blk & -> & Hlblk & Hbytes); [by fold avail; destruct avail|]. fold avail in Hbytes.
  set (space := GetBlockCapacity s (NextBlockToRead s) - ReadOffset s) in *.
  set (k := Z.min (Z.min (Z.of_nat (length avail)) space) dest).
  destruct (Z.gtb_spec (ReadOffset s + k) (Z.of_nat (length blk))); [lia|]. rewrite Hbytes by lia.
  pose proof (advance s m Hh k ltac:(fold avail; fold space; lia)) as Hadv. fold avail in Hadv. fold space in Hadv. cbv zeta in Hadv.
  set (s1 := with_read s (total_bytes_read_ s +64 k) (num_bytes_buffered_ s -64 k)) in *.
  assert (total_bytes_read_ s +64 k = total_bytes_read_ s + k) as Ek.
  { destruct (front_spec s m Hh) as (front & rest & E & Hr & Hb & He & _). rewrite (ReadableBytes_spec s m Hh) in Hr. injection Hr as Hr. fold avail in Hr.
    apply u64_id. pose proof (r_read _ _ Hh). unfold is_u64, kU64Max in *. lia. }
  assert (forall s2 bl, s2 = with_blocks s1 bl -> holds s2 (remaining (total_bytes_read_ s + k) m) ->
    exists s', read_one fuel s2 (dest - k) (copied ++ take (Z.to_nat k) avail) = Some (QUIC_NO_ERROR, copied ++ take (Z.to_nat dest) avail, s') /\
      holds s' (remaining (total_bytes_read_ s + n) m) /\ total_bytes_read_ s' = total_bytes_read_ s + n /\ kept s s') as Hnext.
  { intros s2 bl Hs2' Hh2. assert (total_bytes_read_ s2 = total_bytes_read_ s + k) as Ht2 by (rewrite Hs2'; exact Ek).
    destruct (IH s2 _ (dest - k) (copied ++ take (Z.to_nat k) avail) Hh2) as (s' & Hrun & Hh' & Ht' & Hkept); [lia|lia|].
    rewrite Ht2, (holds_remaining s m Hh k) in Hrun, Hh', Ht' by (fold avail; lia). fold avail in Hrun, Hh', Ht'. rewrite length_drop in Hh', Ht'.
    exists s'. split_and!.
    - rewrite Hrun, <- app_assoc, take_take_drop. by replace (Z.to_nat k + Z.to_nat (dest - k))%nat with (Z.to_nat dest) by lia.
    - rewrite remaining_remaining in Hh' by lia. by replace (total_bytes_read_ s + n) with (total_bytes_read_ s + k + Z.min (dest - k) (Z.of_nat (length avail - Z.to_nat k))) by lia.
    - rewrite Ht'. lia.
    - destruct Hkept as (K1 & K2 & K3). rewrite Hs2' in K1, K2, K3. done. }
  destruct (Z.eqb_spec k (Z.min (Z.of_nat (length avail)) space)).
  - destruct Hadv as (s2 & Hret & Hh2 & bl & Hs2'). change (NextBlockToRead s) with (NextBlockToRead s) in Hret. rewrite Hret. cbn [negb]. by eapply Hnext.
  - apply (Hnext s1 (blocks_ s1)); [done|done].
Qed.

Lemma read_all_spec s m lens : holds s m -> Forall (fun l => 0 <= l) lens ->
  let avail := readable (total_bytes_read_ s) m in
  exists s' n, read_all s lens = Some (QUIC_NO_ERROR, scatter lens avail, s') /\ n = Z.of_nat (length (concat (scatter lens avail))) /\
    n <= Z.of_nat (length avail) /\ holds s' (remaining (total_bytes_read_ s + n) m) /\ total_bytes_read_ s' = total_bytes_read_ s + n /\ kept s s'.
Proof.
  intros Hh Hl. revert s m Hh. induction Hl as [|l lens Hl0 Hl IH]; intros s m Hh avail.
  - exists s, 0. simpl. split_and!; try done; [lia| |lia]. by rewrite Z.add_0_r, (remaining_all s m Hh).
  - cbn [read_all]. rewrite (ReadableBytes_spec s m Hh). fold avail. destruct (Z.gtb_spec (Z.of_nat (length avail)) 0).
    + destruct (read_one_spec (Z.to_nat l) s m l [] Hh Hl0 ltac:(lia)) as (s1 & -> & Hh1 & Ht1 & K1 & K2 & K3). fold avail in Hh1, Ht1 |- *.
      cbn [app negb Z.eqb]. change (negb (QUIC_NO_ERROR =? QUIC_NO_ERROR)) with false. cbv iota.
      set (k := Z.min l (Z.of_nat (length avail))) in *.
      destruct (IH s1 _ Hh1) as (s' & n & Hrun & Hn & Hle & Hh' & Ht' & K1' & K2' & K3'). rewrite Ht1 in Hrun, Hn, Hle, Hh', Ht'.
      rewrite (holds_remaining s m Hh) in Hrun, Hn, Hle by (fold avail; lia). fold avail in Hrun, Hn, Hle. rewrite Hrun. exists s', (k + n).
      assert (drop (Z.to_nat l) avail = drop (Z.to_nat k) avail) as Edrop.
      { destruct (Z.le_ge_cases l (Z.of_nat (length avail))); [f_equal; lia|]. rewrite !drop_ge by lia. done. }
      assert (avail <> []) as Ea by (intros Ea; rewrite Ea in *; simpl in *; lia).
      assert (scatter (l :: lens) avail = take (Z.to_nat l) avail :: scatter lens (drop (Z.to_nat k) avail)) as ->.
      { rewrite <- Edrop. by destruct avail. }
      rewrite length_drop in Hle. split_and!; try done; try lia.
      * cbn [concat]. rewrite length_app, length_take. lia.
      * rewrite remaining_remaining in Hh' by lia. by rewrite Z.add_assoc.
      * unfold kept. split_and!; congruence.
    + exists s, 0. assert (avail = []) as E by (destruct avail; [done|simpl in *; lia]). rewrite E. simpl.
      split_and!; try done; [|lia]. by rewrite Z.add_0_r, (remaining_all s m Hh).
Qed.

(** Dropping the frames that were read. *)
Lemma UpdateFrameArrivalMap_represents s s' m n : represents s m -> 0 <= n ->
  kept s s' -> total_bytes_read_ s' = total_bytes_read_ s + n -> holds s' (remaining (total_bytes_read_ s + n) m) ->
  exists fs, UpdateFrameArrivalMap s' (total_bytes_read_ s') = Some (with_frames s' fs) /\
    represents (with_frames s' fs) (remaining (total_bytes_read_ s + n) m).
Proof.
  intros [Hh Hf Hc] Hn (K1 & K2 & K3) Ht Hh'. set (q := total_bytes_read_ s + n) in *.
  unfold UpdateFrameArrivalMap. rewrite K2, Ht. pose proof (r_read _ _ Hh) as Hp.
  rewrite (update_frames_trim (total_bytes_read_ s)); [|lia|done| |lia].
  - eexists. split; [done|]. destruct (trim_spec _ q _ Hf) as [T1 T2]. split.
    + destruct Hh'. split; done.
    + simpl. by rewrite Ht.
    + intros o ts. simpl. rewrite T2, Hc. setoid_rewrite lookup_remaining. destruct (Z.leb_spec q o); [tauto|].
      split; [lia|by intros [? ?]].
  - intros o ts Hcov. apply Hc in Hcov as [b Hb]. assert (is_Some (m !! o)) as Ho by eauto. apply (r_received _ _ Hh) in Ho. lia.
Qed.

(** Reading.  [Readv] never reports an invalid state; it fills the destinations
    in order with the bytes that can be read, from the next one on up to the first
    gap or the end of the destinations, and leaves the rest of the data. *)
Lemma Readv_spec s m lens : represents s m -> Forall (fun l => 0 <= l) lens ->
  let p := total_bytes_read_ s in let out := scatter lens (readable p m) in let n := Z.of_nat (length (concat out)) in
  exists s', Readv s lens = Some (QUIC_NO_ERROR, out, n, s') /\
    represents s' (remaining (p + n) m) /\ total_bytes_read_ s' = p + n /\ kept (with_frames s' (frame_arrival_time_map_ s)) s.
Proof.
  intros Hrep Hl p out n. destruct (read_all_spec s m lens (r_holds _ _ Hrep) Hl) as (s1 & k & Hrun & -> & Hle & Hh & Ht & Hk).
  unfold Readv. rewrite Hrun. change (negb (QUIC_NO_ERROR =? QUIC_NO_ERROR)) with false. cbv iota. fold p. fold out. fold n.
  fold p in Ht, Hh, Hle. fold out in Ht, Hh, Hle. fold n in Ht, Hh, Hle. pose proof Hk as (K1 & K2 & K3).
  destruct (Z.gtb_spec n 0).
  - destruct (UpdateFrameArrivalMap_represents s s1 m n Hrep ltac:(lia) Hk Ht Hh) as (fs & -> & Hrep').
    exists (with_frames s1 fs). by split_and!.
  - assert (n = 0) as En by lia. rewrite En, Z.add_0_r in *. exists s1. split_and!; try done.
    unfold p in *. rewrite (remaining_all s m (r_holds _ _ Hrep)) in *. destruct Hrep as [_ Hf Hc]. split; [done|by rewrite K2, Ht|by rewrite K2].
Qed.

(** ** Consuming without copying *)

Lemma consume_loop_spec fuel s m n : holds s m -> 0 <= n <= Z.of_nat (length (readable (total_bytes_read_ s) m)) -> (Z.to_nat n <= fuel)%nat ->
  exists s', consume_loop fuel s n = Some s' /\ holds s' (remaining (total_bytes_read_ s + n) m) /\
    total_bytes_read_ s' = total_bytes_read_ s + n /\ kept s s'.
Proof.
  revert s m n. induction fuel as [|fuel IH]; intros s m n Hh Hn Hf; cbn [consume_loop].
  all: destruct (Z.gtb_spec n 0); [|exists s; replace n with 0 by lia; rewrite Z.add_0_r, (remaining_all s m Hh); by split_and!].
  { lia. }
  rewrite (ReadableBytes_spec s m Hh). destruct (space_u64 s m Hh) as (-> & Hs1 & Hs2 & Hs3).
  set (avail := readable (total_bytes_read_ s) m) in *. set (space := GetBlockCapacity s (NextBlockToRead s) - ReadOffset s) in *.
  set (k := Z.min n (Z.min (Z.of_nat (length avail)) space)).
  pose proof (advance s m Hh k ltac:(fold avail; fold space; lia)) as Hadv. fold avail in Hadv. fold space in Hadv. cbv zeta in Hadv.
  set (s1 := with_read s (total_bytes_read_ s +64 k) (num_bytes_buffered_ s -64 k)) in *.
  destruct (front_spec s m Hh) as (front & rest & E & Hr & Hb & He & _). rewrite (ReadableBytes_spec s m Hh) in Hr. injection Hr as Hr. fold avail in Hr.
  pose proof (r_read _ _ Hh) as Hp.
  assert (total_bytes_read_ s +64 k = total_bytes_read_ s + k) as Ek by (apply u64_id; unfold is_u64, kU64Max in *; lia).
  assert (n -64 k = n - k) as -> by (apply u64_id; unfold is_u64, kU64Max in *; lia).
  assert (forall s2 bl, s2 = with_blocks s1 bl -> holds s2 (remaining (total_bytes_read_ s + k) m) ->
    exists s', consume_loop fuel s2 (n - k) = Some s' /\ holds s' (remaining (total_bytes_read_ s + n) m) /\
      total_bytes_read_ s' = total_bytes_read_ s + n /\ kept s s') as Hnext.
  { intros s2 bl Hs2' Hh2. assert (total_bytes_read_ s2 = total_bytes_read_ s + k) as Ht2 by (rewrite Hs2'; exact Ek).
    destruct (IH s2 _ (n - k) Hh2) as (s' & Hrun & Hh' & Ht' & K1 & K2 & K3).
    { rewrite Ht2, (holds_remaining s m Hh k), length_drop by (fold avail; lia). fold avail. lia. } { lia. }
    rewrite Ht2 in Hh', Ht'. rewrite remaining_remaining in Hh' by lia. replace (total_bytes_read_ s + k + (n - k)) with (total_bytes_read_ s + n) in * by lia.
    exists s'. split_and!; try done. rewrite Hs2' in K1, K2, K3. done. }
  rewrite (Z.eqb_sym k) in Hadv. destruct (Z.eqb_spec (Z.min (Z.of_nat (length avail)) space) k).
  - destruct Hadv as (s2 & Hret & Hh2 & bl & Hs2'). rewrite Hret. cbn [fmap option_fmap option_map snd]. by eapply Hnext.
  - apply (Hnext s1 (blocks_ s1)); [done|done].
Qed.

Lemma MarkConsumed_spec s m n : represents s m -> 0 <= n ->
  let p := total_bytes_read_ s in
  if n <=? Z.of_nat (length (readable p m)) then
    exists s', MarkConsumed s n = Some (true, s') /\ represents s' (remaining (p + n) m) /\ total_bytes_read_ s' = p + n /\
      max_buffer_capacity_bytes_ s' = max_buffer_capacity_bytes_ s
  else MarkConsumed s n = Some (false, s).
Proof.
  intros Hrep Hn p. unfold MarkConsumed. rewrite (ReadableBytes_spec s m (r_holds _ _ Hrep)). fold p. rewrite Z.gtb_ltb, Z.ltb_antisym.
  destruct (Z.leb_spec n (Z.of_nat (length (readable p m)))); cbn [negb]; [|done].
  destruct (consume_loop_spec (Z.to_nat n) s m n (r_holds _ _ Hrep) ltac:(fold p; lia) ltac:(lia)) as (s1 & -> & Hh & Ht & Hk).
  destruct (Z.gtb_spec n 0).
  - destruct (UpdateFrameArrivalMap_represents s s1 m n Hrep ltac:(lia) Hk Ht Hh) as (fs & -> & Hrep'). exists (with_frames s1 fs).
    destruct Hk as (_ & _ & K3). by split_and!.
  - assert (n = 0) as -> by lia. fold p in Ht, Hh |- *. rewrite Z.add_0_r in *. exists s1. destruct Hk as (K1 & K2 & K3). split_and!; try done.
    unfold p in *. rewrite (remaining_all s m (r_holds _ _ Hrep)) in *. destruct Hrep as [_ Hf Hc].
    split; [done|by rewrite K2, Ht|by rewrite K2].
Qed.

(** ** Emptying the buffer *)

Lemma cleared_represents s : geometry s -> blocks_ok s -> 0 <= total_bytes_read_ s <= kOffsetLimit ->
  represents (Clear s) ∅ /\ represents (ReleaseWholeBuffer s) ∅.
Proof.
  intros Hg Hb Hp. assert (kU64Max = 2 ^ 64 - 1) as HU by done. assert (kOffsetLimit = 2 ^ 63) as HL by done.
  assert (forall bl, match bl with None => True | Some bs => Z.of_nat (length bs) = blocks_count_ s /\ forall i blk, bs !! i <> Some (Some blk) end ->
    represents (with_blocks (Clear s) bl) ∅) as H.
  { intros bl Hbl. assert (forall o, is_Some ((∅ : arrivals) !! o) -> False) as Hn by (intros o; rewrite lookup_empty; by intros [? ?]).
    split; [split|..]; cbn; try done.
    - split_and!; try done; lia.
    - intros o. split; [by intros ?%Hn|]. intros [H1 H2]. exfalso. apply H2. left. simpl. lia.
    - intros o Ho. by apply Hn in Ho.
    - unfold blocks_ok. simpl. destruct bl as [bs|]; [|done]. destruct Hbl as [H1 H2]. split; [done|]. intros j blk Hj. by apply H2 in Hj.
    - intros i [blk Hi]. exfalso. unfold block_ptr in Hi. simpl in Hi. destruct bl as [bs|]; [|done]. destruct (i <? 0); [done|]. by apply Hbl in Hi.
    - intros o ts. split; [by intros ?%covers_nil|]. intros [b Hb']. by rewrite lookup_empty in Hb'. }
  split; [|by apply (H None)].
  apply (H (blocks_ (Clear s))). unfold Clear. simpl. unfold blocks_ok in Hb. destruct (blocks_ s) as [bs|]; [|done]. simpl.
  rewrite length_map. split; [apply Hb|]. intros i blk Hi. rewrite (list_lookup_fmap (fun _ => None)) in Hi. by destruct (bs !! i).
Qed.

(** Flushing skips to the end of what was received. *)
Lemma FlushBufferedFrames_spec s m : represents s m -> exists q s',
  FlushBufferedFrames s = Some (q - total_bytes_read_ s, s') /\ represents s' ∅ /\ total_bytes_read_ s' = q /\
  (forall o, is_Some (m !! o) -> o < q) /\ (q = total_bytes_read_ s \/ is_Some (m !! (q - 1))) /\ max_buffer_capacity_bytes_ s' = max_buffer_capacity_bytes_ s.
Proof.
  intros Hrep. pose proof (r_holds _ _ Hrep) as Hh. destruct (front_spec s m Hh) as (front & rest & E & _).
  destruct (back_spec s m Hh front rest E) as (back & Hl & Hb & Hlt & _ & Hlast).
  assert (kU64Max = 2 ^ 64 - 1) as HU by done. pose proof (r_read _ _ Hh) as Hp.
  unfold FlushBufferedFrames. rewrite Hl. simpl. rewrite u64_id by (unfold is_u64; lia).
  assert (begin_offset back = total_bytes_read_ s \/ is_Some (m !! (begin_offset back - 1))) as Hq.
  { destruct (decide (begin_offset back = total_bytes_read_ s)); [by left|]. right. apply Hlast. lia. }
  eexists _, _. split; [done|]. split_and!; try done.
  eapply cleared_represents; [apply (r_geometry _ _ Hh)|apply (r_blocks _ _ Hh)|]. simpl. split; [lia|].
  destruct Hq as [->|Hq]; [lia|]. apply (r_window _ _ Hh) in Hq. lia.
Qed.

Lemma new_represents c : kBlockSizeBytes < c < 2 ^ 53 -> exists s, SequencerBuffer_new c = Some s /\ represents s ∅ /\
  total_bytes_read_ s = 0 /\ max_buffer_capacity_bytes_ s = c.
Proof.
  intros Hc. unfold SequencerBuffer_new. assert (1 < (c + kBlockSizeBytes - 1) / kBlockSizeBytes) as Hn.
  { unfold kBlockSizeBytes in *. Z.to_euclidean_division_equations. lia. }
  rewrite Z.gtb_ltb. destruct (Z.ltb_spec 1 ((c + kBlockSizeBytes - 1) / kBlockSizeBytes)); [|lia].
  eexists. split; [done|]. split; [|done]. apply cleared_represents; [done|done|]. simpl. unfold kOffsetLimit. lia.
Qed.

(** ** Gaps counted on the abstract state *)

(** The offsets where gaps begin: missing, and first or after a received byte. *)
Definition gap_starts (p : Z) (m : arrivals) : gset Z :=
  filter (fun o => absent p m o = true) ({[p]} ∪ set_map (fun o => o + 1) (dom m)).

Lemma gap_starts_spec s m : holds s m ->
  gap_starts (total_bytes_read_ s) m = list_to_set (begin_offset <$> gaps_ s) /\ NoDup (begin_offset <$> gaps_ s).
Proof.
  intros Hh. pose proof Hh as [Hg Hp Hgaps Hrec Hwin _ _ _ _]. set (p := total_bytes_read_ s) in *.
  assert (kU64Max = 2 ^ 64 - 1) as HU by done. assert (kOffsetLimit = 2 ^ 63) as HL by done.
  assert (forall o, absent p m o = true <-> p <= o /\ ~ is_Some (m !! o)) as Habs.
  { intros o. unfold absent. by rewrite andb_true_iff, Z.leb_le, bool_decide_eq_true, eq_None_not_Some. }
  split.
  - apply set_eq. intros o. unfold gap_starts. rewrite elem_of_filter, elem_of_union, elem_of_singleton, elem_of_map, elem_of_list_to_set.
    rewrite list_elem_of_fmap. setoid_rewrite elem_of_dom. rewrite Habs. split.
    + intros [[Ho Hno] Hor]. assert (o < kU64Max) as Hlt.
      { destruct Hor as [->|(x & -> & Hx)]; [lia|]. destruct (Hwin x Hx). lia. }
      assert (missing (gaps_ s) o) as Hm.
      { destruct (decide (Exists (fun g => begin_offset g <= o < end_offset g) (gaps_ s))); [done|]. exfalso. apply Hno, Hrec. split; [lia|done]. }
      apply Exists_exists in Hm as (g & Hg' & Hin). exists g. split; [|done].
      apply list_elem_of_split in Hg' as (pre & post & E). rewrite E in Hgaps. destruct (gaps_ok_split _ _ _ _ Hgaps) as (G1 & _).
      destruct (decide (begin_offset g = o)); [done|]. exfalso. destruct Hor as [->|(x & -> & Hx)]; [lia|].
      apply Hrec in Hx as [_ Hx]. apply Hx. rewrite E. apply Exists_app. right. left. lia.
    + intros (g & -> & Hin). apply list_elem_of_split in Hin as (pre & post & E). pose proof Hgaps as Hgaps'. rewrite E in Hgaps'.
      destruct (gaps_ok_split _ _ _ _ Hgaps') as (G1 & G2 & G3 & G4 & G5). split.
      * split; [lia|]. rewrite Hrec. intros [_ Hx]. apply Hx. rewrite E. apply Exists_app. right. left. lia.
      * destruct (decide (begin_offset g = p)); [by left|]. right. exists (begin_offset g - 1). split; [lia|]. apply Hrec. split; [lia|].
        rewrite E. rewrite (missing_split p); [lia|done| |lia]. eapply Forall_impl; [apply G4|]. simpl. lia.
  - clear -Hgaps. revert Hgaps. generalize p. induction (gaps_ s) as [|g gs IH]; intros q Hq; [by apply NoDup_nil|]. simpl. apply NoDup_cons. split.
    + intros Hin. apply list_elem_of_fmap in Hin as (h & E & Hin). apply list_elem_of_split in Hin as (pre & post & ->).
      destruct (gaps_ok_split q [] g (pre ++ h :: post) Hq) as (G1 & _ & _ & _ & G5). apply Forall_app in G5 as [_ G5]. inversion G5; subst. lia.
    + simpl in Hq. destruct Hq as (_ & _ & Hq). by apply (IH _ Hq).
Qed.

Lemma gap_count s m : holds s m -> Z.of_nat (length (gaps_ s)) = Z.of_nat (size (gap_starts (total_bytes_read_ s) m)).
Proof.
  intros Hh. destruct (gap_starts_spec s m Hh) as [-> Hnd]. rewrite size_list_to_set by done. by rewrite length_fmap.
Qed.

(** The end of what was received. *)
Definition received_end (p : Z) (m : arrivals) : Z := map_fold (fun o _ e => Z.max (o + 1) e) p m.
Lemma received_end_spec p m : (forall o, is_Some (m !! o) -> p <= o) ->
  (forall o, is_Some (m !! o) -> o < received_end p m) /\ (received_end p m = p \/ is_Some (m !! (received_end p m - 1))) /\ p <= received_end p m.
Proof.
  intros _. unfold received_end. apply (map_fold_weak_ind (fun e m => (forall o, is_Some (m !! o) -> o < e) /\ (e = p \/ is_Some (m !! (e - 1))) /\ p <= e)).
  - split_and!; [|by left|lia]. intros o [x Hx]. by rewrite lookup_empty in Hx.
  - intros k x m' e Hk (H1 & H2 & H3). split_and!; [| |lia].
    + intros o Ho. destruct (decide (o = k)) as [->|]; [lia|]. rewrite lookup_insert_ne in Ho by done. specialize (H1 o Ho). lia.
    + destruct (Z.le_gt_cases e (k + 1)).
      * right. replace (Z.max (k + 1) e - 1) with k by lia. rewrite lookup_insert_eq. eauto.
      * destruct H2 as [->|H2]; [lia|]. right. replace (Z.max (k + 1) e - 1) with (e - 1) by lia.
        destruct (decide (k = e - 1)); [subst; rewrite lookup_insert_eq; eauto|]. by rewrite lookup_insert_ne.
Qed.

(** ** The buffer refines the abstract machine *)

Inductive sb_op := OpReceive (off : Z) (data : list Z) (ts : Z) | OpRead (lens : list Z) | OpConsume (n : Z) | OpFlush | OpClear | OpRelease.
Inductive sb_out := OutReceive (error bytes_buffered : Z) | OutRead (error : Z) (copied : list (list Z)) (bytes_read : Z) | OutConsume (result : bool)
  | OutFlush (bytes : Z) | OutNone.

Definition sb_step (s : SequencerBuffer) (op : sb_op) : option (SequencerBuffer * sb_out) :=
  match op with
  | OpReceive off data ts => let* (e, n, s) := OnStreamData s off data ts in Some (s, OutReceive e n)
  | OpRead lens => let* (e, out, n, s) := Readv s lens in Some (s, OutRead e out n)
  | OpConsume n => let* (r, s) := MarkConsumed s n in Some (s, OutConsume r)
  | OpFlush => let* (n, s) := FlushBufferedFrames s in Some (s, OutFlush n)
  | OpClear => Some (Clear s, OutNone)
  | OpRelease => Some (ReleaseWholeBuffer s, OutNone)
  end.

Definition abs_step (capacity : Z) (st : Z * arrivals) (op : sb_op) : option ((Z * arrivals) * sb_out) :=
  let '(p, m) := st in
  Some match op with
  | OpReceive off data ts => let '(e, n, m) := receive capacity (Z.of_nat (size (gap_starts p m))) p m off data ts in ((p, m), OutReceive e n)
  | OpRead lens => let out := scatter lens (readable p m) in let n := Z.of_nat (length (concat out)) in
      ((p + n, remaining (p + n) m), OutRead QUIC_NO_ERROR out n)
  | OpConsume n => if n <=? Z.of_nat (length (readable p m)) then ((p + n, remaining (p + n) m), OutConsume true) else ((p, m), OutConsume false)
  | OpFlush => let q := received_end p m in ((q, ∅), OutFlush (q - p))
  | OpClear | OpRelease => ((p, ∅), OutNone)
  end.

Definition op_ok (op : sb_op) : Prop :=
  match op with
  | OpReceive off data _ => 0 <= off /\ off + Z.of_nat (length data) <= kOffsetLimit
  | OpRead lens => Forall (fun l => 0 <= l) lens
  | OpConsume n => 0 <= n
  | _ => True
  end.

Definition abstracts (c : Z) (s : SequencerBuffer) (st : Z * arrivals) : Prop :=
  represents s (snd st) /\ total_bytes_read_ s = fst st /\ max_buffer_capacity_bytes_ s = c.

Lemma sb_step_refines c s st op : abstracts c s st -> op_ok op ->
  exists s' st' out, sb_step s op = Some (s', out) /\ abs_step c st op = Some (st', out) /\ abstracts c s' st'.
Proof.
  destruct st as [p m]. intros (Hrep & Hp & Hc) Hop. simpl in *. pose proof (r_holds _ _ Hrep) as Hh.
  destruct op as [off data ts|lens|n| | |]; simpl.
  - rewrite <- Hp, <- (gap_count s m Hh), <- Hc. pose proof (OnStreamData_spec s m Hrep off data ts (proj1 Hop) (proj2 Hop)) as H.
    destruct (receive _ _ _ _ _ _ _) as [[e n] m']. destruct H as (s' & -> & Hrep' & Ht & Hc' & _). eexists s', (_, _), _. split; [done|]. split; [done|]. by split_and!.
  - destruct (Readv_spec s m lens Hrep Hop) as (s' & -> & Hrep' & Ht & _ & _ & K3). rewrite Hp in *. eexists s', (_, _), _. split; [done|]. split; [done|].
    split_and!; try done. simpl in K3. congruence.
  - pose proof (MarkConsumed_spec s m n Hrep Hop) as H. rewrite Hp in H. cbv zeta in H.
    destruct (n <=? Z.of_nat (length (readable p m))).
    + destruct H as (s' & -> & Hrep' & Ht & Hc'). eexists s', (_, _), _. split; [done|]. split; [done|]. split_and!; try done. by rewrite Hc'.
    + rewrite H. eexists s, (_, _), _. split; [done|]. split; [done|]. by split_and!.
  - destruct (FlushBufferedFrames_spec s m Hrep) as (q & s' & -> & Hrep' & Ht & Hlt & Hq & Hc').
    destruct (received_end_spec p m) as (E1 & E2 & E3).
    { intros o Ho. apply (r_received _ _ Hh) in Ho. lia. }
    rewrite Hp in *. assert (q = received_end p m) as ->.
    { destruct Hq as [->|Hq0], E2 as [E2|E2]; try (pose proof (E1 _ Hq0)); try (apply Hlt in E2); try lia.
      apply (r_received _ _ Hh) in Hq0. lia. }
    eexists s', (_, _), _. split; [done|]. split; [done|]. split_and!; try done. by rewrite Hc'.
  - destruct (cleared_represents s (r_geometry _ _ Hh) (r_blocks _ _ Hh) (r_read _ _ Hh)) as [H1 _]. eexists _, (_, _), _. split; [done|]. split; [done|]. by split_and!.
  - destruct (cleared_represents s (r_geometry _ _ Hh) (r_blocks _ _ Hh) (r_read _ _ Hh)) as [_ H1]. eexists _, (_, _), _. split; [done|]. split; [done|]. by split_and!.
Qed.

Lemma sb_run_refines c s0 st0 ops : abstracts c s0 st0 -> Forall op_ok ops ->
  exists s st outs, run_steps sb_step s0 ops = Some (s, outs) /\ run_steps (abs_step c) st0 ops = Some (st, outs) /\ abstracts c s st.
Proof.
  intros Habs Hops. revert s0 st0 Habs. induction Hops as [|op ops Hop Hops IH]; intros s0 st Habs; [by exists s0, st, []|].
  destruct (sb_step_refines c s0 st op Habs Hop) as (s1 & st1 & out & E1 & E2 & Habs1).
  destruct (IH s1 st1 Habs1) as (s & st' & outs & E3 & E4 & Habs'). exists s, st', (out :: outs).
  cbn [run_steps]. rewrite E1, E2. cbn [mbind option_bind]. by rewrite E3, E4.
Qed.



(** A buffer that holds five bytes from two arrivals. *)
Lemma example_buffer : exists s m, represents s m /\ total_bytes_read_ s = 0 /\ readable 0 m = [1; 2; 3; 4; 5] /\
  m = store (store ∅ 3 [4; 5] 10) 0 [1; 2; 3] 20.
Proof.
  destruct (new_represents 20000 ltac:(unfold kBlockSizeBytes; lia)) as (s0 & _ & Hrep & Ht & Hc).
  destruct (sb_run_refines 20000 s0 (0, ∅) [OpReceive 3 [4; 5] 10; OpReceive 0 [1; 2; 3] 20]) as (s & [p m] & outs & _ & H2 & Hr & Hp & _).
  - done.
  - repeat (apply Forall_cons_2; [cbn; unfold kOffsetLimit; split; lia|]). apply Forall_nil_2.
  - exists s, m. split; [done|]. assert ((p, m) = (0, store (store ∅ 3 [4; 5] 10) 0 [1; 2; 3] 20)) as E.
    { assert (fst <$> run_steps (abs_step 20000) (0, ∅) [OpReceive 3 [4; 5] 10; OpReceive 0 [1; 2; 3] 20] = Some (p, m)) as E by (by rewrite H2).
      clear -E. injection E as <- <-. vm_compute. reflexivity. }
    injection E as -> ->. split_and!; [done|vm_compute; reflexivity|done].
Qed.

(** Offsets that wrap.  The offsets of a frame come from the peer and are not
    checked: for data that ends beyond 2^64 the end wraps, passes all checks, and
    the gaps recorded afterwards overlap; at the largest offset the search for the
    gap runs off the list. *)
Lemma OnStreamData_wraps : exists s0 s, SequencerBuffer_new 20000 = Some s0 /\
  OnStreamData s0 (2 ^ 64 - 5) [1; 2; 3; 4; 5; 6; 7; 8; 9; 10] 7 = Some (QUIC_NO_ERROR, 10, s) /\
  gaps_ s = [MkGap 0 (2 ^ 64 - 5); MkGap 5 kU64Max] /\ OnStreamData s0 kU64Max [1] 7 = None.
Proof. eexists _, _. split; [reflexivity|]. split; [vm_compute; reflexivity|]. split; reflexivity. Qed.
