(* ===== verification/SequencerRegions.v ===== *)
(** * The readable regions of the receive buffer

    [GetReadableRegions] and [GetReadableRegion] give out pointers into the
    blocks; the bytes they point to are the readable bytes of the stream. *)

From stdpp Require Import gmap.
From S2P Require Import Prelude QuicData Framer SequencerBuffer SequencerBufferFacts SequencerRefine.

(** What an [iovec] points to. *)
Definition region_bytes (s : SequencerBuffer) (r : Region) : list Z :=
  match block_ptr s (rg_block r) with
  | Some (Some blk) => take (Z.to_nat (rg_len r)) (drop (Z.to_nat (rg_offset r)) blk)
  | _ => []
  end.

Section Regions.
Context (s : SequencerBuffer) (m : arrivals) (Hh : holds s m).
Abbreviation p := (total_bytes_read_ s).
Abbreviation c := (max_buffer_capacity_bytes_ s).
Abbreviation N := (blocks_count_ s).
Abbreviation B := kBlockSizeBytes.
Abbreviation i := (NextBlockToRead s).
Abbreviation a := (ReadOffset s).
Abbreviation avail := (readable p m).
Abbreviation r := (Z.of_nat (length avail)).

Lemma block_bytes o : p <= o < p + r -> exists blk, block_ptr s (GetBlockIndex s o) = Some (Some blk) /\
  forall n, 0 <= n <= p + r - o -> n <= GetBlockCapacity s (GetBlockIndex s o) - GetInBlockOffset s o ->
  take (Z.to_nat n) (drop (Z.to_nat (GetInBlockOffset s o)) blk) = take (Z.to_nat n) (drop (Z.to_nat (o - p)) avail).
Proof using Hh.
  intros Ho. destruct (front_readable s m Hh) as (front & rest & E & _ & Hlen & Hbytes). pose proof (r_geometry _ _ Hh) as Hg.
  destruct (Hbytes (o - p) ltac:(lia)) as (b0 & ts0 & _ & Hb0). replace (p + (o - p)) with o in Hb0 by lia.
  apply (r_cells _ _ Hh) in Hb0. unfold cell in Hb0. destruct (block_ptr s (GetBlockIndex s o)) as [[blk|]|] eqn:Ep; [|done..].
  exists blk. split; [done|]. pose proof (block_length s _ blk (r_blocks _ _ Hh) Ep) as Hl.
  pose proof (in_block_range s Hg o). pose proof (capacity_range s Hg _ (index_range s Hg o)). intros n Hn Hn'.
  apply list_eq_same_length with (Z.to_nat n); [rewrite length_take, length_drop; lia|rewrite length_take, length_drop; lia|].
  intros j x y Hj. rewrite !lookup_take_lt by lia. rewrite !lookup_drop. intros Hx Hy.
  destruct (Hbytes (o - p + Z.of_nat j) ltac:(lia)) as (b & ts & R & M). replace (p + (o - p + Z.of_nat j)) with (o + Z.of_nat j) in M by lia.
  apply (r_cells _ _ Hh) in M. unfold cell in M. destruct (in_block_run s Hg o (Z.of_nat j)) as [E1 E2]; [lia|]. rewrite E1, E2, Ep in M.
  replace (Z.to_nat (GetInBlockOffset s o + Z.of_nat j)) with (Z.to_nat (GetInBlockOffset s o) + j)%nat in M by lia.
  replace (Z.to_nat (o - p + Z.of_nat j)) with (Z.to_nat (o - p) + j)%nat in R by lia. congruence.
Qed.

(** A region that begins at the readable offset [o]. *)
Lemma region_spec o n : p <= o < p + r -> 0 <= n <= p + r - o -> n <= GetBlockCapacity s (GetBlockIndex s o) - GetInBlockOffset s o ->
  let reg := MkRegion (GetBlockIndex s o) (GetInBlockOffset s o) n in
  region s (GetBlockIndex s o) (GetInBlockOffset s o) n = Some reg /\
  region_bytes s reg = take (Z.to_nat n) (drop (Z.to_nat (o - p)) avail).
Proof using Hh.
  intros Ho Hn Hn' reg. destruct (block_bytes o Ho) as (blk & Hp & Hb). unfold region, region_bytes. cbn [reg rg_block rg_offset rg_len].
  rewrite Hp. split; [done|]. by apply Hb.
Qed.

Lemma readable_window : 0 <= p /\ p + r <= kOffsetLimit /\ r <= c.
Proof using Hh.
  destruct (front_readable s m Hh) as (front & rest & E & _ & Hlen & Hbytes). pose proof (r_read _ _ Hh) as Hp.
  pose proof (r_geometry _ _ Hh) as [Hc _]. assert (B = 8192) by done.
  destruct (decide (r = 0)); [lia|]. destruct (Hbytes (r - 1) ltac:(lia)) as (b & ts & _ & M).
  destruct (r_window _ _ Hh (p + (r - 1)) ltac:(eauto)). lia.
Qed.

(** The offset where the [j]th block after the first begins. *)
Definition block_start (j : Z) : Z := p - a + (if i + j <? N then j * B else c - (N - j) * B).

Lemma last_capacity : GetBlockCapacity s (N - 1) = c - (N - 1) * B /\ 1 < N.
Proof using Hh.
  pose proof (r_geometry _ _ Hh) as Hg. pose proof (index_range s Hg 0). pose proof (capacity_sum s Hg (N - 1) ltac:(lia)).
  destruct Hg as [Hc Hn]. unfold kBlockSizeBytes in *. Z.to_euclidean_division_equations. lia.
Qed.

Lemma mod_index x : 0 <= x mod N < N.
Proof using Hh. destruct last_capacity as [_ HN]. apply Z.mod_pos_bound. lia. Qed.

Lemma block_start_position j : 1 <= j <= N ->
  GetBlockIndex s (block_start j) = (i + j) mod N /\ GetInBlockOffset s (block_start j) = 0.
Proof using Hh.
  intros Hj. pose proof (r_geometry _ _ Hh) as Hg. pose proof (index_range s Hg p) as Hi. fold i in Hi. pose proof (address s p) as Ha.
  fold i in Ha. fold a in Ha. destruct last_capacity as [HK HN]. pose proof (capacity_range s Hg (N - 1) ltac:(lia)) as HKr.
  assert (0 < c) by (destruct Hg as [? _]; unfold B in *; lia). assert (B = 8192) as HB by done.
  pose proof (Z.div_mod p c ltac:(lia)) as Hdm.
  assert (exists q, 0 <= q < N /\ q = (i + j) mod N /\ block_start j mod c = q * B) as (q & Hq & Hqm & Hm).
  { unfold block_start. destruct (Z.ltb_spec (i + j) N).
    - exists (i + j). split; [lia|]. split; [rewrite Z.mod_small; lia|].
      symmetry. apply (Z.mod_unique _ _ (p / c)); [left; nia|]. lia.
    - exists (i + j - N). split; [lia|]. split; [apply (Z.mod_unique _ _ 1); lia|].
      symmetry. apply (Z.mod_unique _ _ (p / c + 1)); [left; nia|]. lia. }
  unfold GetBlockIndex, GetInBlockOffset. rewrite Hm, <- Hqm, HB. rewrite Z.div_mul, Z.mod_mul by lia. done.
Qed.

Lemma block_start_next j : 1 <= j < N -> block_start (j + 1) = block_start j + GetBlockCapacity s ((i + j) mod N).
Proof using Hh.
  intros Hj. pose proof (r_geometry _ _ Hh) as Hg. pose proof (index_range s Hg p) as Hi. fold i in Hi.
  destruct last_capacity as [HK HN]. unfold block_start. destruct (Z.ltb_spec (i + j) N) as [H1|H1].
  - rewrite Z.mod_small by lia. destruct (Z.ltb_spec (i + (j + 1)) N).
    + unfold GetBlockCapacity. destruct (Z.eqb_spec (i + j + 1) N); lia.
    + replace (i + j) with (N - 1) by lia. rewrite HK. lia.
  - assert ((i + j) mod N = i + j - N) as -> by (symmetry; apply (Z.mod_unique _ _ 1); lia).
    unfold GetBlockCapacity. destruct (Z.eqb_spec (i + j - N + 1) N); [lia|]. destruct (Z.ltb_spec (i + (j + 1)) N); lia.
Qed.

Lemma block_start_first : block_start 1 = p + (GetBlockCapacity s i - a).
Proof using Hh.
  pose proof (r_geometry _ _ Hh) as Hg. pose proof (index_range s Hg p) as Hi. fold i in Hi.
  destruct last_capacity as [HK HN]. unfold block_start. destruct (Z.ltb_spec (i + 1) N) as [H1|H1].
  - unfold GetBlockCapacity. destruct (Z.eqb_spec (i + 1) N); lia.
  - replace i with (N - 1) by lia. rewrite HK. lia.
Qed.

Lemma block_start_after j : 1 <= j <= N -> p < block_start j.
Proof using Hh.
  intros Hj. pose proof (r_geometry _ _ Hh) as Hg. pose proof (index_range s Hg p) as Hi. fold i in Hi.
  destruct last_capacity as [HK HN]. pose proof (in_block_range s Hg p) as Hin. fold i in Hin. fold a in Hin.
  pose proof (capacity_range s Hg _ Hi) as HKi. pose proof (capacity_range s Hg (N - 1) ltac:(lia)) as HKl. assert (B = 8192) as HB by done.
  unfold block_start. destruct (Z.ltb_spec (i + j) N); [lia|]. destruct (decide (j = 1)) as [->|]; [|lia].
  replace i with (N - 1) in * by lia. lia.
Qed.

Abbreviation last_offset := (p + r - 1).

(** Within the window a whole block separates two offsets of different blocks. *)
Lemma last_block_distance j : 1 <= j <= N -> block_start j <= last_offset ->
  GetBlockIndex s last_offset = (i + j) mod N <-> last_offset - block_start j < GetBlockCapacity s ((i + j) mod N).
Proof using Hh.
  intros Hj Hle. pose proof (r_geometry _ _ Hh) as Hg. destruct (block_start_position j Hj) as [Ei Eo]. destruct readable_window as (_ & _ & Hr).
  pose proof (same_block s Hg (block_start j) 0 (last_offset - block_start j)) as Hsb. rewrite Ei, Eo in Hsb.
  replace (block_start j + 0 + (last_offset - block_start j)) with last_offset in Hsb by lia.
  destruct last_capacity as [HK HN]. pose proof (capacity_range s Hg ((i + j) mod N) (mod_index _)) as HKj.
  pose proof (block_start_after j Hj).
  rewrite Hsb by lia. lia.
Qed.

Lemma last_round : ~ GetBlockCapacity s ((i + N) mod N) <= last_offset - block_start N.
Proof using Hh.
  pose proof (r_geometry _ _ Hh) as Hg. pose proof (index_range s Hg p) as Hi. fold i in Hi. destruct readable_window as (_ & _ & Hr).
  pose proof (in_block_range s Hg p) as Hin. fold i in Hin. fold a in Hin.
  assert ((i + N) mod N = i) as -> by (symmetry; apply (Z.mod_unique _ _ 1); lia).
  unfold block_start. destruct (Z.ltb_spec (i + N) N); lia.
Qed.

Lemma middle_regions_spec fuel j count : 1 <= j <= N -> N - j <= Z.of_nat fuel -> block_start j <= last_offset ->
  exists rs, middle_regions fuel s i (GetBlockIndex s last_offset) j count = Some (rs, j + Z.of_nat (length rs)) /\
    let j' := j + Z.of_nat (length rs) in j' <= Z.max j count /\ 1 <= j' <= N /\ p <= block_start j <= block_start j' /\ block_start j' <= last_offset /\
    concat (region_bytes s <$> rs) = take (Z.to_nat (block_start j' - block_start j)) (drop (Z.to_nat (block_start j - p)) avail) /\
    (j' < count -> GetBlockIndex s last_offset = (i + j') mod N) /\ Forall (fun x => 0 < rg_len x) rs.
Proof using Hh.
  revert j. induction fuel as [|fuel IH]; intros j Hj Hf Hle; cbn [middle_regions].
  all: destruct (block_start_position j Hj) as [Ei Eo]; pose proof (block_start_after j Hj) as Hp.
  all: destruct (Z.eqb_spec ((i + j) mod N) (GetBlockIndex s last_offset)) as [E|E]; cbn [negb andb];
    [exists []; simpl; rewrite Z.add_0_r, Z.sub_diag; split_and!; try done; lia|].
  all: destruct (Z.ltb_spec j count) as [Hc|Hc]; cbn [andb];
    [|exists []; simpl; rewrite Z.add_0_r, Z.sub_diag; split_and!; try done; lia].
  all: pose proof (r_geometry _ _ Hh) as Hg; destruct last_capacity as [_ HN];
    pose proof (capacity_range s Hg ((i + j) mod N) (mod_index _)) as HK.
  all: assert (GetBlockCapacity s ((i + j) mod N) <= last_offset - block_start j) as Hfar
    by (destruct (Z.lt_ge_cases (last_offset - block_start j) (GetBlockCapacity s ((i + j) mod N))) as [H|H]; [|lia];
        apply last_block_distance in H; [congruence|done|done]).
  all: assert (j < N) as HjN by (destruct (Z.eq_dec j N) as [->|]; [exfalso; by apply last_round in Hfar|lia]).
  - lia.
  - destruct (region_spec (block_start j) (GetBlockCapacity s ((i + j) mod N))) as [Hreg Hbytes]; [lia|lia|rewrite Ei, Eo; lia|].
    rewrite Ei, Eo in Hreg, Hbytes. rewrite Hreg.
    destruct (IH (j + 1)) as (rs & -> & Hrs); [lia|lia|rewrite block_start_next; lia|]. cbv zeta in Hrs. rewrite block_start_next in Hrs by lia.
    set (K := GetBlockCapacity s ((i + j) mod N)) in *. set (j' := j + 1 + Z.of_nat (length rs)) in *.
    destruct Hrs as (H1 & H2 & H3 & H4 & H5 & H6 & H7). eexists (_ :: rs). cbn [length fmap list_fmap concat].
    replace (j + Z.of_nat (S (length rs))) with j' by lia. split; [done|]. split_and!; try done; try lia.
    + rewrite Hbytes, H5.
      replace (Z.to_nat (block_start j + K - p)) with (Z.to_nat (block_start j - p) + Z.to_nat K)%nat by lia.
      rewrite <- drop_drop, take_take_drop. f_equal. lia.
    + constructor; [simpl; lia|done].
Qed.

(** The regions of [GetReadableRegions].  Every region is a non-empty part of an
    allocated block, there are at most as many as asked for, and what they hold is
    the readable data from the next byte on: all of it when fewer regions than
    asked for are returned, and none exactly when there is nothing to read. *)
Lemma GetReadableRegions_correct (count : Z) : 1 <= count ->
  exists rs, GetReadableRegions s count = Some rs /\ Z.of_nat (length rs) <= count /\ Forall (fun x => 0 < rg_len x) rs /\
    (exists rest, avail = concat (region_bytes s <$> rs) ++ rest /\ (Z.of_nat (length rs) < count -> rest = [])) /\ (rs = [] <-> avail = []).
Proof using Hh.
  intros Hcount. unfold GetReadableRegions. rewrite (ReadableBytes_spec s m Hh). destruct (Z.eqb_spec r 0) as [E0|E0].
  { exists []. assert (avail = []) as -> by (by destruct avail). split_and!; try done; [simpl; lia|]. by exists []. }
  destruct (front_readable s m Hh) as (front & rest & Eg & _ & Hlen & _). rewrite Eg. cbn [head].
  pose proof (r_geometry _ _ Hh) as Hg. destruct readable_window as (Hp & Hlim & Hr). destruct (space_u64 s m Hh) as (Hsp & Hs1 & Hs2 & Hs3).
  assert (kOffsetLimit = 2 ^ 63) as HL by done. assert (B = 8192) as HB by done.
  assert (begin_offset front -64 1 = last_offset) as -> by (rewrite u64_id; unfold is_u64; lia).
  assert (avail <> []) as Hne by (intros E; by rewrite E in E0).
  pose proof (region_spec p) as Hfirst. fold i in Hfirst. fold a in Hfirst. rewrite Z.sub_diag in Hfirst. cbn [Z.to_nat drop] in Hfirst.
  destruct ((i =? GetBlockIndex s last_offset) && (a <=? GetInBlockOffset s last_offset)) eqn:Hone.
  - apply andb_true_iff in Hone as [E1%Z.eqb_eq E2%Z.leb_le]. assert (r <= GetBlockCapacity s i - a) as Hle.
    { pose proof (same_block s Hg p 0 (r - 1)) as Hsb. fold i in Hsb. fold a in Hsb. replace (p + 0 + (r - 1)) with last_offset in Hsb by lia.
      destruct Hsb as [Hsb _]; [lia|lia|]. destruct (Hsb ltac:(congruence)) as [?|Hw]; [lia|exfalso].
      pose proof (address s p) as A1. pose proof (address s last_offset) as A2. rewrite <- E1 in A2. fold i in A1. fold a in A1.
      replace last_offset with (p + (r - 1)) in A2 by lia. rewrite mod_shift in A2 by (done || lia).
      assert (0 <= i * B) by (pose proof (index_range s Hg p) as Hir; fold i in Hir; nia).
      pose proof (capacity_sum s Hg i (index_range s Hg p)). revert A2. case_if; replace (p + (r - 1)) with last_offset by lia; lia. }
    destruct (Hfirst r) as [-> Hb]; [lia|lia|lia|]. eexists. split; [done|]. split_and!; [simpl; lia|apply Forall_singleton; simpl; lia| |done].
    exists []. cbn [fmap list_fmap concat]. rewrite Hb, !app_nil_r. split; [|done]. symmetry. apply take_ge. lia.
  - assert (GetBlockCapacity s i - a < r) as Hgt.
    { destruct (Z.lt_ge_cases (GetBlockCapacity s i - a) r); [done|]. exfalso.
      destruct (in_block_run s Hg p (r - 1)) as [E1 E2]; [fold i; fold a; lia|]. fold i in E1. fold a in E2.
      replace (p + (r - 1)) with last_offset in E1, E2 by lia. rewrite E1, E2, Z.eqb_refl in Hone. cbn [andb] in Hone. apply Z.leb_gt in Hone. lia. }
    rewrite Hsp. destruct (Hfirst (GetBlockCapacity s i - a)) as [-> Hb]; [lia|lia|lia|]. change (drop (Z.to_nat 0) avail) with avail in Hb. destruct last_capacity as [_ HN].
    destruct (middle_regions_spec (Z.to_nat N) 1 count) as (rs & -> & Hrs); [lia|lia|rewrite block_start_first; lia|]. cbv zeta in Hrs.
    set (j := 1 + Z.of_nat (length rs)) in *. destruct Hrs as (H1 & H2 & H3 & H4 & H5 & H6 & H7). rewrite block_start_first in H3, H5.
    replace (p + (GetBlockCapacity s i - a) - p) with (GetBlockCapacity s i - a) in H5 by lia.
    assert (take (Z.to_nat (GetBlockCapacity s i - a)) avail ++ concat (region_bytes s <$> rs) = take (Z.to_nat (block_start j - p)) avail) as Hpre.
    { rewrite H5, take_take_drop. f_equal. lia. }
    destruct (Z.ltb_spec j count) as [Hj|Hj].
    + destruct (block_start_position j H2) as [Ei Eo]. specialize (H6 Hj). pose proof H6 as H6'. rewrite last_block_distance in H6' by done.
      destruct (in_block_run s Hg (block_start j) (last_offset - block_start j)) as [_ Eoff]; [rewrite Ei, Eo; lia|].
      replace (block_start j + (last_offset - block_start j)) with last_offset in Eoff by lia. rewrite Eo, Z.add_0_l in Eoff. rewrite Eoff.
      pose proof (capacity_range s Hg _ (mod_index (i + j))). rewrite u64_id by (unfold is_u64; lia).
      destruct (region_spec (block_start j) (last_offset - block_start j + 1)) as [Hreg Hbytes]; [lia|lia|rewrite Ei, Eo; lia|].
      rewrite Ei, Eo, <- H6 in Hreg, Hbytes. rewrite Hreg. eexists. split; [done|].
      rewrite length_cons, length_app. split_and!.
      * simpl. lia.
      * constructor; [simpl; lia|]. apply Forall_app. split; [done|]. apply Forall_singleton. simpl. lia.
      * exists []. rewrite app_nil_r. split; [|done]. rewrite fmap_cons, fmap_app, concat_cons, concat_app. cbn [fmap list_fmap concat].
        rewrite Hb, Hbytes, app_nil_r, app_assoc, Hpre, take_take_drop. symmetry. apply take_ge. lia.
      * done.
    + eexists. split; [done|]. split_and!.
      * simpl. lia.
      * constructor; [simpl; lia|done].
      * exists (drop (Z.to_nat (block_start j - p)) avail). rewrite fmap_cons, concat_cons, Hb, Hpre, take_drop. split; [done|]. simpl. lia.
      * done.
Qed.
End Regions.

(** ** The region of one arrival time *)

(** The loop over the frames, from the byte [q] on; all bytes before [e] were
    received. *)
Lemma same_time_spec fs ts len lim q e : frames_ok q fs -> 0 <= len <= lim -> e = q + (lim - len) -> lim < 2 ^ 63 ->
  (forall o, q <= o < e -> exists t, covers fs o t) -> (forall o t, covers fs o t -> o < kOffsetLimit) -> 0 <= q ->
  let '(len', rest) := same_time fs ts len lim in let q' := q + (len' - len) in
  len <= len' <= lim /\ (forall o, q <= o < q' -> covers fs o ts) /\
  match rest with
  | [] => len' = lim
  | x :: _ => (len' < lim -> covers fs q' (fi_timestamp (snd x))) /\
              (fi_timestamp (snd x) = ts -> forall o, q' <= o < e -> covers fs o ts)
  end.
Proof.
  revert q len. induction fs as [|[k i] fs IH]; intros q len Hok Hlen He Hlim Hall Hbnd Hq; cbn [same_time].
  - split_and!; try lia. destruct (decide (len = lim)); [done|]. destruct (Hall q ltac:(lia)) as [t Ht]. by apply covers_nil in Ht.
  - cbn [snd]. simpl in Hok. destruct Hok as (H1 & H2 & H3).
    assert (k + fi_length i - 1 < kOffsetLimit) as Hk.
    { apply (Hbnd _ (fi_timestamp i)). apply covers_cons. left. simpl. split; [lia|done]. }
    assert (len < lim -> k = q) as Hkq.
    { intros Hlt. destruct (Hall q ltac:(lia)) as [t Ht]. apply covers_cons in Ht as [[Ht _]|Ht]; simpl in *; [lia|].
      apply (frames_ok_covers _ _ _ _ H3) in Ht. lia. }
    rewrite u64_id by (unfold is_u64, kOffsetLimit in *; lia).
    assert (forall o, k <= o < k + fi_length i -> covers ((k, i) :: fs) o (fi_timestamp i)) as Hcov.
    { intros o Ho. apply covers_cons. left. simpl. split; [lia|done]. }
    destruct (Z.leb_spec (len + fi_length i) lim) as [Hfit|Hfit].
    + destruct (Z.eqb_spec (fi_timestamp i) ts) as [Ht|Ht]; cbn [negb].
      * assert (k = q) as -> by (apply Hkq; lia).
        assert (forall o, q + fi_length i <= o < e -> exists t, covers fs o t) as Hall'.
        { intros o Ho. destruct (Hall o ltac:(lia)) as [t Hc]. exists t. apply covers_cons in Hc as [[Hc _]|Hc]; simpl in *; [lia|done]. }
        assert (forall o t, covers fs o t -> o < kOffsetLimit) as Hbnd'.
        { intros o t Hc. apply (Hbnd o t). apply covers_cons. by right. }
        specialize (IH (q + fi_length i) (len + fi_length i) H3 ltac:(lia) ltac:(lia) Hlim Hall' Hbnd' ltac:(lia)).
        revert IH. destruct (same_time fs ts (len + fi_length i) lim) as [len' rest]. cbv zeta. intros (I1 & I2 & I3).
        replace (q + fi_length i + (len' - (len + fi_length i))) with (q + (len' - len)) in * by lia.
        assert (forall o t, covers fs o t -> covers ((q, i) :: fs) o t) as Hmore by (intros o t Hc; apply covers_cons; by right).
        split_and!; try lia.
        -- intros o Ho. destruct (Z.lt_ge_cases o (q + fi_length i)); [rewrite <- Ht; apply Hcov; lia|apply Hmore, I2; lia].
        -- destruct rest as [|x rest]; [done|]. destruct I3 as [I3 I4]. split; [intros Hl; apply Hmore, I3; lia|].
           intros Hx o Ho. apply Hmore, I4; [done|lia].
      * split; [lia|]. split; [intros; lia|]. cbn [snd]. replace (q + (len - len)) with q by lia. split; [|done].
        intros Hl. rewrite <- (Hkq Hl). apply Hcov. lia.
    + split; [lia|]. split; [intros; lia|]. cbn [snd]. replace (q + (len - len)) with q by lia. split.
      * intros Hl. rewrite <- (Hkq Hl) at 1. apply Hcov. lia.
      * intros Ht o Ho. rewrite <- Ht. apply Hcov. assert (k = q) by (apply Hkq; lia). lia.
Qed.

(** The region of [GetReadableRegion]: a non-empty prefix of the readable data
    within the first block, all of whose bytes arrived at the time returned; it
    ends at the end of the block, at the end of the readable data, or before a byte
    that arrived at another time. *)
Lemma GetReadableRegion_correct (s : SequencerBuffer) (m : arrivals) : represents s m ->
  let p := total_bytes_read_ s in let bytes := readable p m in
  (bytes = [] -> GetReadableRegion s = Some None) /\
  (bytes <> [] -> exists reg ts, GetReadableRegion s = Some (Some (reg, ts)) /\
     rg_block reg = NextBlockToRead s /\ rg_offset reg = ReadOffset s /\ 0 < rg_len reg /\
     region_bytes s reg = take (Z.to_nat (rg_len reg)) bytes /\
     (forall o, p <= o < p + rg_len reg -> exists b, m !! o = Some (b, ts)) /\
     (rg_len reg = Z.of_nat (length bytes) \/ rg_len reg = GetBlockCapacity s (NextBlockToRead s) - ReadOffset s \/
      exists b ts', m !! (p + rg_len reg) = Some (b, ts') /\ ts' <> ts)).
Proof.
  intros [Hh Hf Hc]. cbv zeta. unfold GetReadableRegion. rewrite (ReadableBytes_spec s m Hh).
  pose proof (region_spec s m Hh (total_bytes_read_ s)) as Hreg. rewrite Z.sub_diag in Hreg. destruct (readable_window s m Hh) as (Hp & Hlim & Hrc).
  destruct (front_readable s m Hh) as (front & rest & Eg & _ & Hlen & Hbytes).
  remember (total_bytes_read_ s) as p eqn:Ep. remember (readable p m) as bytes eqn:Ebytes. clear Ebytes.
  split; [by intros ->|]. intros Hne.
  assert (0 < Z.of_nat (length bytes)) as Hr by (destruct bytes; [done|simpl; lia]).
  remember (Z.of_nat (length bytes)) as r eqn:Er. destruct (Z.eqb_spec r 0) as [E0|_]; [lia|].
  destruct (space_u64 s m Hh) as (Hsp & Hs1 & Hs2 & Hs3). rewrite Hsp.
  assert (GetBlockIndex s p = NextBlockToRead s) as E1 by (by rewrite Ep).
  assert (GetInBlockOffset s p = ReadOffset s) as E2 by (by rewrite Ep). rewrite E1, E2 in Hreg.
  set (i := NextBlockToRead s) in *. set (a := ReadOffset s) in *. set (space := GetBlockCapacity s i - a) in *.
  specialize (fun n H1 H2 => Hreg n ltac:(lia) H1 H2). cbv zeta in Hreg.
  destruct (Hreg 0 ltac:(lia) ltac:(lia)) as [-> _]. set (lim := Z.min space r).
  assert (forall o t, covers (frame_arrival_time_map_ s) o t -> o < kOffsetLimit) as Hbnd.
  { intros o t Ht. apply Hc in Ht as [b Hb]. destruct (r_window _ _ Hh o ltac:(eauto)). done. }
  assert (forall o, p <= o < p + r -> exists t, covers (frame_arrival_time_map_ s) o t) as Hall.
  { intros o Ho. destruct (Hbytes (o - p) ltac:(lia)) as (b & t & _ & M). replace (p + (o - p)) with o in M by lia.
    exists t. apply Hc. eauto. }
  remember (frame_arrival_time_map_ s) as fs eqn:Efs. destruct (head fs) as [x|] eqn:Ehead.
  2: { destruct fs; [|done]. destruct (Hall p ltac:(lia)) as [t Ht]. by apply covers_nil in Ht. }
  set (ts := fi_timestamp (snd x)). pose proof (proj1 (r_geometry _ _ Hh)) as Hgc.
  pose proof (same_time_spec fs ts 0 lim p (p + lim) Hf ltac:(lia) ltac:(lia) ltac:(unfold kOffsetLimit in *; lia)
    ltac:(intros o Ho; apply Hall; lia) Hbnd Hp) as Hst. revert Hst.
  destruct (same_time fs ts 0 lim) as [len rest'] eqn:Est. cbv zeta. intros (T1 & T2 & T3).
  rewrite Z.sub_0_r in T2, T3. cbn [rg_block rg_offset].
  set (whole := match rest' with [] => true | y :: _ => fi_timestamp (snd y) =? ts end).
  set (len2 := if whole then lim else len).
  assert (covers fs p ts) as Hfirst.
  { destruct (Hall p ltac:(lia)) as [t Ht]. destruct fs as [|[k fi] fs']; [done|]. simpl in Ehead, Hf. injection Ehead as <-.
    pose proof Ht as Ht'. apply covers_cons in Ht' as [[_ Et]|Ht']; simpl in *; [by unfold ts; simpl; rewrite Et|].
    apply (frames_ok_covers (k + fi_length fi)) in Ht'; [lia|tauto]. }
  assert ((forall o, p <= o < p + len2 -> covers fs o ts) /\ (len2 < lim -> exists t, covers fs (p + len2) t /\ t <> ts) /\ len2 <= lim) as (C1 & C2 & C3).
  { unfold len2, whole. destruct rest' as [|y rest'].
    - subst len. split_and!; [intros o Ho; apply T2; lia|lia|lia].
    - destruct T3 as [T3 T4]. destruct (Z.eqb_spec (fi_timestamp (snd y)) ts) as [Ey|Ey].
      + split_and!; [|lia|lia]. intros o Ho. destruct (Z.lt_ge_cases o (p + len)); [apply T2; lia|apply T4; [done|lia]].
      + split_and!; [intros o Ho; apply T2; lia| |lia]. intros Hl. exists (fi_timestamp (snd y)). split; [by apply T3|done]. }
  assert (0 < len2) as Hpos.
  { destruct (Z.lt_ge_cases 0 len2); [done|]. exfalso. assert (len2 = 0) as E0 by (unfold len2 in *; destruct whole; lia). rewrite E0, Z.add_0_r in C2.
    destruct C2 as (t & Ht & Hts); [lia|]. apply Hts. apply Hc in Ht as [b Hb]. apply Hc in Hfirst as [b' Hb']. congruence. }
  exists (MkRegion i a len2), ts. cbn [rg_block rg_offset rg_len]. split_and!; try done.
  - apply Hreg; lia.
  - intros o Ho. apply Hc, C1. lia.
  - destruct (Z.lt_ge_cases len2 lim) as [Hl|Hl]; [|lia]. right. right.
    destruct (C2 Hl) as (t & Ht & Hts). apply Hc in Ht as [b Hb]. by exists b, t.
Qed.

Lemma GetReadableRegions_correct_witness : exists s m rs rest, represents s m /\
  GetReadableRegions s 1 = Some rs /\ [1; 2; 3; 4; 5] = concat (region_bytes s <$> rs) ++ rest.
Proof.
  destruct example_buffer as (s & m & Hrep & Ht & Hr & _).
  destruct (GetReadableRegions_correct s m (r_holds _ _ Hrep) 1 ltac:(lia)) as (rs & H1 & _ & _ & (rest & H2 & _) & _).
  exists s, m, rs, rest. rewrite Ht, Hr in H2. by split_and!.
Defined.

Lemma GetReadableRegion_correct_witness : exists s m reg, represents s m /\
  GetReadableRegion s = Some (Some (reg, 20)) /\ rg_len reg = 3 /\ region_bytes s reg = [1; 2; 3].
Proof.
  destruct example_buffer as (s & m & Hrep & Ht & Hr & Hm). exists s, m.
  destruct (GetReadableRegion_correct s m Hrep) as [_ H]. rewrite Ht, Hr in H.
  destruct (H ltac:(done)) as (reg & ts & H1 & _ & _ & H2 & H3 & H4 & H5). exists reg.
  assert (m !! 0 = Some (1, 20) /\ m !! 1 = Some (2, 20) /\ m !! 2 = Some (3, 20) /\ m !! 3 = Some (4, 10)) as (M0 & M1 & M2 & M3).
  { rewrite Hm. split_and!; vm_compute; reflexivity. }
  destruct (H4 0 ltac:(lia)) as [b Hb]. rewrite M0 in Hb. injection Hb as _ <-.
  assert (rg_len reg <= 3).
  { destruct (Z.le_gt_cases (rg_len reg) 3); [done|]. destruct (H4 3 ltac:(lia)) as [b3 Hb3]. rewrite M3 in Hb3. done. }
  assert (rg_len reg = 3) as E.
  { destruct H5 as [H5|[H5|(b' & ts' & Hb' & Hts)]].
    - simpl in H5. lia.
    - exfalso. assert (1 <= rg_len reg <= 3) as Hr3 by lia. pose proof (in_block_range s (r_geometry _ _ (r_holds _ _ Hrep)) 0) as Hin.
      assert (GetBlockCapacity s (NextBlockToRead s) - ReadOffset s = 8192); [|lia].
      unfold NextBlockToRead, ReadOffset, GetBlockCapacity, GetBlockIndex, GetInBlockOffset. rewrite Ht, Z.mod_0_l, Z.div_0_l, Z.mod_0_l.
      all: destruct (r_geometry _ _ (r_holds _ _ Hrep)) as [Hc Hn]; unfold kBlockSizeBytes in *; try lia.
      rewrite Hn. destruct (Z.eqb_spec (0 + 1) ((max_buffer_capacity_bytes_ s + 8 * 1024 - 1) / (8 * 1024))); [|lia].
      exfalso. Z.to_euclidean_division_equations. lia.
    - destruct (decide (rg_len reg = 3)); [done|]. exfalso. apply Hts.
      assert (rg_len reg = 1 \/ rg_len reg = 2) as [E|E] by lia; rewrite E in Hb'; rewrite Z.add_0_l in Hb'; congruence. }
  split_and!; [done|done|done|]. by rewrite H3, E.
Defined.
