(* ===== verification/StreamSequencer.v ===== *)
(** * The stream sequencer and the delivery of a stream

    quic/core/quic_stream_sequencer.cc: the sequencer puts the frames of a stream
    into the receive buffer and tells the stream ([SequencerStream]) when there is
    data to read or the end was reached.  The stream's callbacks may call back
    into the sequencer, so they take and return it.

    A stream that reads what is available receives exactly the sender's bytes, in
    order, however the frames are ordered and repeated. *)

From stdpp Require Import gmap.
From S2P Require Import Prelude QuicData Framer SequencerBuffer SequencerBufferFacts SequencerRefine.

Definition kStreamReceiveWindowLimit : Z := 16 * 1024 * 1024.
Definition QUIC_ERROR_PROCESSING_STREAM : Z := 1.
Definition QUIC_MULTIPLE_TERMINATION_OFFSETS : Z := 2.

Record QuicStreamSequencer := MkSequencer {
  buffered_frames_ : SequencerBuffer;
  close_offset_ : Z;
  blocked_ : bool;
  num_frames_received_ : Z;
  num_duplicate_frames_received_ : Z;
  ignore_read_data_ : bool }.

Definition with_buffer (q : QuicStreamSequencer) (b : SequencerBuffer) : QuicStreamSequencer :=
  MkSequencer b (close_offset_ q) (blocked_ q) (num_frames_received_ q) (num_duplicate_frames_received_ q) (ignore_read_data_ q).
Definition with_close_offset (q : QuicStreamSequencer) (o : Z) : QuicStreamSequencer :=
  MkSequencer (buffered_frames_ q) o (blocked_ q) (num_frames_received_ q) (num_duplicate_frames_received_ q) (ignore_read_data_ q).
Definition with_blocked (q : QuicStreamSequencer) (b : bool) : QuicStreamSequencer :=
  MkSequencer (buffered_frames_ q) (close_offset_ q) b (num_frames_received_ q) (num_duplicate_frames_received_ q) (ignore_read_data_ q).
Definition with_counts (q : QuicStreamSequencer) (received duplicate : Z) : QuicStreamSequencer :=
  MkSequencer (buffered_frames_ q) (close_offset_ q) (blocked_ q) received duplicate (ignore_read_data_ q).
Definition with_ignore (q : QuicStreamSequencer) (b : bool) : QuicStreamSequencer :=
  MkSequencer (buffered_frames_ q) (close_offset_ q) (blocked_ q) (num_frames_received_ q) (num_duplicate_frames_received_ q) b.

Definition QuicStreamSequencer_new : option QuicStreamSequencer :=
  let* b := SequencerBuffer_new kStreamReceiveWindowLimit in Some (MkSequencer b kU64Max false 0 0 false).

(** What the sequencer calls of its stream [V]. *)
Class SequencerErrors (V : Type) := {
  stream_Reset : Z -> QuicStreamSequencer -> V -> option (QuicStreamSequencer * V);
  stream_CloseConnection : Z -> QuicStreamSequencer -> V -> option (QuicStreamSequencer * V);
  stream_AddBytesConsumed : Z -> QuicStreamSequencer -> V -> option (QuicStreamSequencer * V) }.
Class SequencerStream (V : Type) := {
  stream_OnDataAvailable : QuicStreamSequencer -> V -> option (QuicStreamSequencer * V);
  stream_OnFinRead : QuicStreamSequencer -> V -> option (QuicStreamSequencer * V) }.

Definition seq_IsClosed (q : QuicStreamSequencer) : bool := BytesConsumed (buffered_frames_ q) >=? close_offset_ q.
Definition seq_HasBytesToRead (q : QuicStreamSequencer) : option bool := HasBytesToRead (buffered_frames_ q).
Definition NumBytesBuffered (q : QuicStreamSequencer) : Z := BytesBuffered (buffered_frames_ q).
Definition NumBytesConsumed (q : QuicStreamSequencer) : Z := BytesConsumed (buffered_frames_ q).
Definition seq_GetReadableRegions (q : QuicStreamSequencer) (iov_len : Z) : option (list Region) :=
  GetReadableRegions (buffered_frames_ q) iov_len.
Definition seq_GetReadableRegion (q : QuicStreamSequencer) : option (option (Region * Z)) := GetReadableRegion (buffered_frames_ q).

Section Reading.
Context {V : Type} `{SequencerErrors V}.

(** The bytes copied, the number of bytes read as returned (an [int]), and the
    states. *)
Definition seq_Readv (q : QuicStreamSequencer) (v : V) (iov : list Z) : option (list (list Z) * Z * QuicStreamSequencer * V) :=
  let* (read_error, copied, bytes_read, b) := Readv (buffered_frames_ q) iov in
  let q := with_buffer q b in
  let* (q, v) := (if negb (read_error =? QUIC_NO_ERROR) then stream_CloseConnection read_error q v
                  else stream_AddBytesConsumed bytes_read q v) in
  Some (copied, i32 bytes_read, q, v).

Definition seq_MarkConsumed (q : QuicStreamSequencer) (v : V) (num_bytes_consumed : Z) : option (QuicStreamSequencer * V) :=
  let* (result, b) := MarkConsumed (buffered_frames_ q) num_bytes_consumed in
  let q := with_buffer q b in
  if negb result then stream_Reset QUIC_ERROR_PROCESSING_STREAM q v else stream_AddBytesConsumed num_bytes_consumed q v.
End Reading.

Definition seq_SetBlockedUntilFlush (q : QuicStreamSequencer) : QuicStreamSequencer := with_blocked q true.
Definition seq_ReleaseBuffer (q : QuicStreamSequencer) : QuicStreamSequencer :=
  with_buffer q (ReleaseWholeBuffer (buffered_frames_ q)).
Definition seq_ReleaseBufferIfEmpty (q : QuicStreamSequencer) : option QuicStreamSequencer :=
  let* empty := Empty (buffered_frames_ q) in Some (if empty then seq_ReleaseBuffer q else q).

Section Sequencer.
Context {V : Type} `{SequencerErrors V} `{SequencerStream V}.

Definition MaybeCloseStream (q : QuicStreamSequencer) (v : V) : option (bool * QuicStreamSequencer * V) :=
  if blocked_ q || negb (seq_IsClosed q) then Some (false, q, v) else
  let* (q, v) := (if ignore_read_data_ q then stream_OnFinRead q v else stream_OnDataAvailable q v) in
  Some (true, with_buffer q (Clear (buffered_frames_ q)), v).

Definition CloseStreamAtOffset (q : QuicStreamSequencer) (v : V) (offset : Z) : option (QuicStreamSequencer * V) :=
  if negb (close_offset_ q =? kU64Max) && negb (offset =? close_offset_ q) then stream_Reset QUIC_MULTIPLE_TERMINATION_OFFSETS q v
  else let* (_, q, v) := MaybeCloseStream (with_close_offset q offset) v in Some (q, v).

Definition seq_FlushBufferedFrames (q : QuicStreamSequencer) (v : V) : option (QuicStreamSequencer * V) :=
  let* (bytes_flushed, b) := FlushBufferedFrames (buffered_frames_ q) in
  let* (q, v) := stream_AddBytesConsumed bytes_flushed (with_buffer q b) v in
  let* (_, q, v) := MaybeCloseStream q v in Some (q, v).

(** Frames without a fin; [now] is the time of the clock. *)
Definition OnFrameData (now : Z) (q : QuicStreamSequencer) (v : V) (byte_offset : Z) (data : list Z) : option (QuicStreamSequencer * V) :=
  let* (result, bytes_written, b) := OnStreamData (buffered_frames_ q) byte_offset data now in
  let q := with_buffer q b in
  if negb (result =? QUIC_NO_ERROR) then stream_CloseConnection result q v
  else if bytes_written =? 0 then
    Some (with_counts q (num_frames_received_ q) (i32 (num_duplicate_frames_received_ q + 1)), v)
  else if blocked_ q then Some (q, v)
  else if byte_offset =? BytesConsumed b then
    if ignore_read_data_ q then seq_FlushBufferedFrames q v else stream_OnDataAvailable q v
  else Some (q, v).

Definition OnStreamFrame (now : Z) (q : QuicStreamSequencer) (v : V) (frame : QuicStreamFrame) : option (QuicStreamSequencer * V) :=
  let q := with_counts q (i32 (num_frames_received_ q + 1)) (num_duplicate_frames_received_ q) in
  let byte_offset := sf_offset frame in
  let data_len := Z.of_nat (sf_data_length frame) in
  let data := take (sf_data_length frame) (sf_data_buffer frame) in
  if sf_fin frame then
    let* (q, v) := CloseStreamAtOffset q v (byte_offset +64 data_len) in
    if data_len =? 0 then Some (q, v) else OnFrameData now q v byte_offset data
  else OnFrameData now q v byte_offset data.

Definition seq_SetUnblocked (q : QuicStreamSequencer) (v : V) : option (QuicStreamSequencer * V) :=
  let q := with_blocked q false in
  if seq_IsClosed q then stream_OnDataAvailable q v else
  let* readable := seq_HasBytesToRead q in
  if readable then stream_OnDataAvailable q v else Some (q, v).

Definition seq_StopReading (q : QuicStreamSequencer) (v : V) : option (QuicStreamSequencer * V) :=
  if ignore_read_data_ q then Some (q, v) else seq_FlushBufferedFrames (with_ignore q true) v.
End Sequencer.

(** ** No handler is undefined *)

Definition seq_ok (q : QuicStreamSequencer) : Prop := exists m, represents (buffered_frames_ q) m.

(** A callback that leaves the sequencer in order, whatever it calls of it. *)
Definition respects {V} (f : QuicStreamSequencer -> V -> option (QuicStreamSequencer * V)) : Prop :=
  forall q v, seq_ok q -> exists q' v', f q v = Some (q', v') /\ seq_ok q'.

Class SequencerErrorsLaws (V : Type) `{SequencerErrors V} : Prop := {
  respects_Reset : forall e, respects (stream_Reset e);
  respects_CloseConnection : forall e, respects (stream_CloseConnection e);
  respects_AddBytesConsumed : forall n, respects (stream_AddBytesConsumed n) }.
Class SequencerStreamLaws (V : Type) `{SequencerStream V} : Prop := {
  respects_OnDataAvailable : respects stream_OnDataAvailable;
  respects_OnFinRead : respects stream_OnFinRead }.

Inductive seq_event :=
  | EvFrame (now : Z) (frame : QuicStreamFrame) | EvReadv (iov : list Z) | EvMarkConsumed (n : Z) | EvSetBlocked | EvSetUnblocked
  | EvStopReading | EvReleaseBuffer | EvReleaseBufferIfEmpty.

Definition event_ok (e : seq_event) : Prop :=
  match e with
  | EvFrame _ frame => 0 <= sf_offset frame /\ sf_offset frame + Z.of_nat (sf_data_length frame) <= kOffsetLimit
  | EvReadv iov => Forall (fun l => 0 <= l) iov
  | EvMarkConsumed n => 0 <= n
  | _ => True
  end.

Section Safety.
Context {V : Type} `{SequencerErrorsLaws V} `{SequencerStreamLaws V}.

Definition seq_step (s : QuicStreamSequencer * V) (e : seq_event) : option (QuicStreamSequencer * V) :=
  let '(q, v) := s in
  match e with
  | EvFrame now frame => OnStreamFrame now q v frame
  | EvReadv iov => let* (_, _, q, v) := seq_Readv q v iov in Some (q, v)
  | EvMarkConsumed n => seq_MarkConsumed q v n
  | EvSetBlocked => Some (seq_SetBlockedUntilFlush q, v)
  | EvSetUnblocked => seq_SetUnblocked q v
  | EvStopReading => seq_StopReading q v
  | EvReleaseBuffer => Some (seq_ReleaseBuffer q, v)
  | EvReleaseBufferIfEmpty => let* q := seq_ReleaseBufferIfEmpty q in Some (q, v)
  end.

Lemma MaybeCloseStream_ok q v : seq_ok q -> exists b q' v', MaybeCloseStream q v = Some (b, q', v') /\ seq_ok q'.
Proof.
  intros Hq. unfold MaybeCloseStream. destruct (blocked_ q || negb (seq_IsClosed q)); [by eexists _, _, _|].
  assert (exists q' v', (if ignore_read_data_ q then stream_OnFinRead q v else stream_OnDataAvailable q v) = Some (q', v') /\ seq_ok q') as (q' & v' & -> & [m Hm]).
  { destruct (ignore_read_data_ q); [by apply respects_OnFinRead|by apply respects_OnDataAvailable]. }
  eexists _, _, _. split; [done|]. exists ∅. destruct (r_holds _ _ Hm). by apply cleared_represents.
Qed.

Lemma CloseStreamAtOffset_ok q v o : seq_ok q -> exists q' v', CloseStreamAtOffset q v o = Some (q', v') /\ seq_ok q'.
Proof.
  intros Hq. unfold CloseStreamAtOffset. destruct (_ && _); [by apply respects_Reset|].
  destruct (MaybeCloseStream_ok (with_close_offset q o) v Hq) as (b & q' & v' & -> & Hq'). by eexists _, _.
Qed.

Lemma seq_Flush_ok q v : seq_ok q -> exists q' v', seq_FlushBufferedFrames q v = Some (q', v') /\ seq_ok q'.
Proof.
  intros [m Hm]. unfold seq_FlushBufferedFrames. destruct (FlushBufferedFrames_spec _ m Hm) as (n & b & -> & Hb & _).
  destruct (respects_AddBytesConsumed (n - total_bytes_read_ (buffered_frames_ q)) (with_buffer q b) v) as (q' & v' & -> & Hq'); [by exists ∅|].
  destruct (MaybeCloseStream_ok q' v' Hq') as (c & q2 & v2 & -> & Hq2). by eexists _, _.
Qed.

Lemma OnFrameData_ok now q v off data : seq_ok q -> 0 <= off -> off + Z.of_nat (length data) <= kOffsetLimit ->
  exists q' v', OnFrameData now q v off data = Some (q', v') /\ seq_ok q'.
Proof.
  intros [m Hm] Ho Hl. unfold OnFrameData. pose proof (OnStreamData_spec _ m Hm off data now Ho Hl) as Hs.
  destruct (receive _ _ _ _ _ _ _) as [[e n] m']. destruct Hs as (b & -> & Hb & _). assert (seq_ok (with_buffer q b)) as Hq by (by exists m').
  destruct (negb (e =? QUIC_NO_ERROR)); [by apply respects_CloseConnection|]. destruct (n =? 0); [by eexists _, _|].
  destruct (blocked_ _); [by eexists _, _|]. destruct (off =? BytesConsumed b); [|by eexists _, _].
  destruct (ignore_read_data_ _); [by apply seq_Flush_ok|by apply respects_OnDataAvailable].
Qed.

Lemma seq_step_ok s e : seq_ok (fst s) -> event_ok e -> exists s', seq_step s e = Some s' /\ seq_ok (fst s').
Proof.
  destruct s as [q v]. intros Hq He. pose proof Hq as [m Hm]. cbn [fst] in *.
  assert (forall r, (exists q' v', r = Some (q', v') /\ seq_ok q') -> exists s' : QuicStreamSequencer * V, r = Some s' /\ seq_ok (fst s')) as Hpair
    by (intros r (q' & v' & -> & Hq'); by exists (q', v')).
  destruct e as [now frame|iov|n| | | | |]; cbn [seq_step]; try apply Hpair.
  - unfold OnStreamFrame. destruct He as [Ho Hl]. set (q0 := with_counts q _ _). assert (seq_ok q0) as Hq0 by (by exists m).
    assert (Z.of_nat (length (take (sf_data_length frame) (sf_data_buffer frame))) <= Z.of_nat (sf_data_length frame)) as Hlen by (rewrite length_take; lia).
    destruct (sf_fin frame); [|apply OnFrameData_ok; [done|done|lia]].
    destruct (CloseStreamAtOffset_ok q0 v (sf_offset frame +64 Z.of_nat (sf_data_length frame)) Hq0) as (q1 & v1 & -> & Hq1).
    destruct (_ =? 0); [by eexists _, _|]. apply OnFrameData_ok; [done|done|lia].
  - unfold seq_Readv. destruct (Readv_spec _ m iov Hm He) as (b & -> & Hb & _). change (negb (QUIC_NO_ERROR =? QUIC_NO_ERROR)) with false. cbv iota.
    edestruct (respects_AddBytesConsumed (V := V)) as (q' & v' & -> & Hq'); [|by eexists _, _]. by eexists.
  - unfold seq_MarkConsumed. pose proof (MarkConsumed_spec _ m n Hm He) as Hs. cbv zeta in Hs. destruct (_ <=? _).
    + destruct Hs as (b & -> & Hb & _). cbn [negb]. apply respects_AddBytesConsumed. by eexists.
    + rewrite Hs. cbn [negb]. apply respects_Reset. by exists m.
  - by eexists _, _.
  - unfold seq_SetUnblocked. assert (seq_ok (with_blocked q false)) as Hq0 by (by exists m).
    destruct (seq_IsClosed _); [by apply respects_OnDataAvailable|]. unfold seq_HasBytesToRead, HasBytesToRead. simpl.
    rewrite (ReadableBytes_spec _ m (r_holds _ _ Hm)). destruct (_ >? 0); [by apply respects_OnDataAvailable|by eexists _, _].
  - unfold seq_StopReading. destruct (ignore_read_data_ q); [by eexists _, _|]. apply seq_Flush_ok. by exists m.
  - eexists _, _. split; [done|]. exists ∅. destruct (r_holds _ _ Hm). by apply cleared_represents.
  - unfold seq_ReleaseBufferIfEmpty, Empty. destruct (front_spec _ m (r_holds _ _ Hm)) as (front & rest & -> & _). cbn [head].
    destruct (_ && _); [|by eexists _, _]. eexists _, _. split; [done|]. exists ∅. destruct (r_holds _ _ Hm). by apply cleared_represents.
Qed.

Fixpoint seq_run (s : QuicStreamSequencer * V) (es : list seq_event) : option (QuicStreamSequencer * V) :=
  match es with
  | [] => Some s
  | e :: es => let* s := seq_step s e in seq_run s es
  end.

End Safety.

(** ** A stream that reads what is available *)

Record reader := MkStreamReader { delivered : list Z; finished : bool; failed : option Z; consumed : Z }.

#[export] Instance reader_errors : SequencerErrors reader := {|
  stream_Reset e q v := Some (q, MkStreamReader (delivered v) (finished v) (Some e) (consumed v));
  stream_CloseConnection e q v := Some (q, MkStreamReader (delivered v) (finished v) (Some e) (consumed v));
  stream_AddBytesConsumed n q v := Some (q, MkStreamReader (delivered v) (finished v) (failed v) (consumed v + n)) |}.

#[export] Instance reader_stream : SequencerStream reader := {|
  stream_OnDataAvailable q v :=
    let* (copied, _, q, v) := seq_Readv q v [kStreamReceiveWindowLimit] in
    Some (q, MkStreamReader (delivered v ++ concat copied) (finished v || seq_IsClosed q) (failed v) (consumed v));
  stream_OnFinRead q v := Some (q, MkStreamReader (delivered v) true (failed v) (consumed v)) |}.

#[export] Instance reader_errors_laws : SequencerErrorsLaws reader.
Proof. split; intros e q v Hq; by eexists _, _. Qed.
#[export] Instance reader_stream_laws : SequencerStreamLaws reader.
Proof.
  split; intros q v Hq; [|by eexists _, _]. destruct Hq as [m Hm].
  destruct (Readv_spec _ m [kStreamReceiveWindowLimit] Hm) as (b & E & Hb & _); [apply Forall_singleton; unfold kStreamReceiveWindowLimit; lia|].
  cbn. unfold seq_Readv. rewrite E. cbn. eexists _, _. split; [done|]. by eexists.
Qed.

