(* ===== verification/StreamDelivery.v ===== *)
(** * Delivery of a stream

    A stream cut into pieces, sent as frames that arrive in any order and any
    number of times, is handed to its reader byte for byte and in order. *)

From stdpp Require Import gmap.
From S2P Require Import Prelude QuicData Framer SequencerBuffer SequencerBufferFacts SequencerRefine StreamSequencer.

Section Pieces.
Context (pieces : list (list Z)).

Definition piece_offset (k : nat) : Z := Z.of_nat (length (concat (take k pieces))).
Definition stream_bytes : list Z := concat pieces.
(** The frame that carries a piece; the last one has the fin bit. *)
Definition piece_frame (id : Z) (k : nat) : QuicStreamFrame :=
  let data := default [] (pieces !! k) in
  MkStreamFrame id (S k =? length pieces)%nat (length data) data (piece_offset k).
Definition in_piece (k : nat) (o : Z) : Prop :=
  exists d, pieces !! k = Some d /\ piece_offset k <= o < piece_offset k + Z.of_nat (length d).

Lemma piece_offset_S k d : pieces !! k = Some d -> piece_offset (S k) = piece_offset k + Z.of_nat (length d).
Proof. intros H. unfold piece_offset. rewrite (take_S_r _ _ _ H), concat_app, length_app. simpl. rewrite app_nil_r. lia. Qed.

Lemma piece_offset_mono j k : (j <= k)%nat -> piece_offset j <= piece_offset k.
Proof.
  intros H. unfold piece_offset. replace (take j pieces) with (take j (take k pieces)) by (rewrite take_take; f_equal; lia).
  rewrite <- (take_drop j (take k pieces)) at 2. rewrite concat_app, length_app. lia.
Qed.

Lemma in_piece_unique j k o : in_piece j o -> in_piece k o -> j = k.
Proof.
  assert (forall j k, (j < k)%nat -> in_piece j o -> in_piece k o -> False) as H.
  { clear j k. intros j k Hlt (d & Hd & Ho) (d' & _ & Ho'). pose proof (piece_offset_S j d Hd). pose proof (piece_offset_mono (S j) k ltac:(lia)). lia. }
  intros Hj Hk. destruct (lt_eq_lt_dec j k) as [[?|?]|?]; [exfalso; by eapply H|done|exfalso; by eapply H].
Qed.

Lemma piece_offset_all : piece_offset (length pieces) = Z.of_nat (length stream_bytes).
Proof. unfold piece_offset, stream_bytes. by rewrite firstn_all. Qed.

Lemma in_some_piece o : 0 <= o < Z.of_nat (length stream_bytes) -> exists k, in_piece k o.
Proof.
  intros Ho. rewrite <- piece_offset_all in Ho.
  assert (forall n, (n <= length pieces)%nat -> o < piece_offset n -> exists k, in_piece k o) as H.
  { induction n as [|n IH]; intros Hn Hlt; [unfold piece_offset in Hlt; simpl in Hlt; lia|].
    destruct (Z.lt_ge_cases o (piece_offset n)); [apply IH; [lia|done]|].
    destruct (lookup_lt_is_Some_2 pieces n) as [d Hd]; [lia|]. rewrite (piece_offset_S n d Hd) in Hlt. exists n, d. split; [done|lia]. }
  apply (H (length pieces)); [lia|]. lia.
Qed.

Lemma in_piece_byte k o d : pieces !! k = Some d -> piece_offset k <= o < piece_offset k + Z.of_nat (length d) ->
  stream_bytes !! Z.to_nat o = d !! Z.to_nat (o - piece_offset k).
Proof.
  intros Hd Ho. unfold stream_bytes. rewrite <- (take_drop_middle pieces k d Hd). rewrite concat_app. cbn [concat].
  unfold piece_offset in *. rewrite lookup_app_r by lia. rewrite lookup_app_l by lia. f_equal. lia.
Qed.

Lemma in_piece_range k o : in_piece k o -> 0 <= o < Z.of_nat (length stream_bytes) /\ (k < length pieces)%nat.
Proof.
  intros (d & Hd & Ho). pose proof (lookup_lt_Some _ _ _ Hd). pose proof (piece_offset_mono (S k) (length pieces) ltac:(lia)) as Hm.
  rewrite piece_offset_all, (piece_offset_S k d Hd) in Hm. unfold piece_offset in *. lia.
Qed.
End Pieces.

Section Delivery.
Context (pieces : list (list Z)).
Context (Hne : Forall (fun d => d <> []) pieces).
Context (Hlen : Z.of_nat (length (stream_bytes pieces)) <= kStreamReceiveWindowLimit).
Context (Hcount : Z.of_nat (length pieces) < kMaxNumGapsAllowed).
Abbreviation total := (Z.of_nat (length (stream_bytes pieces))).

(** The pieces in [arrived] have been received; [fin] says whether the end is known. *)
Record receiving (arrived : gset nat) (fin : bool) (q : QuicStreamSequencer) (v : reader) (m : arrivals) : Prop := {
  d_represents : represents (buffered_frames_ q) m;
  d_capacity : max_buffer_capacity_bytes_ (buffered_frames_ q) = kStreamReceiveWindowLimit;
  d_dom : forall o, is_Some (m !! o) <-> total_bytes_read_ (buffered_frames_ q) <= o /\ exists k, k ∈ arrived /\ in_piece pieces k o;
  d_bytes : forall o b ts, m !! o = Some (b, ts) -> stream_bytes pieces !! Z.to_nat o = Some b;
  d_read : forall o, 0 <= o < total_bytes_read_ (buffered_frames_ q) -> exists k, k ∈ arrived /\ in_piece pieces k o;
  d_arrived : forall k, k ∈ arrived -> (k < length pieces)%nat;
  d_delivered : delivered v = take (Z.to_nat (total_bytes_read_ (buffered_frames_ q))) (stream_bytes pieces);
  d_consumed : consumed v = total_bytes_read_ (buffered_frames_ q);
  d_gaps : (length (gaps_ (buffered_frames_ q)) <= S (size arrived))%nat;
  d_flags : blocked_ q = false /\ ignore_read_data_ q = false;
  d_close : close_offset_ q = if fin then total else kU64Max;
  d_finished : finished v = true -> fin = true /\ total_bytes_read_ (buffered_frames_ q) = total;
  d_failed : failed v = None }.

(** Everything that can be read has been read. *)
Definition settled (arrived : gset nat) (fin : bool) (q : QuicStreamSequencer) (v : reader) : Prop := exists m,
  receiving arrived fin q v m /\ m !! total_bytes_read_ (buffered_frames_ q) = None /\
  (fin = true -> total_bytes_read_ (buffered_frames_ q) = total -> finished v = true).

Lemma read_le_total arrived fin q v m : receiving arrived fin q v m -> 0 <= total_bytes_read_ (buffered_frames_ q) <= total.
Proof.
  intros H. pose proof (r_read _ _ (r_holds _ _ (d_represents _ _ _ _ _ H))) as Hp. split; [lia|].
  destruct (Z.le_gt_cases (total_bytes_read_ (buffered_frames_ q)) total); [done|].
  destruct (d_read _ _ _ _ _ H (total_bytes_read_ (buffered_frames_ q) - 1) ltac:(lia)) as (k & _ & Hk). apply in_piece_range in Hk. lia.
Qed.

(** The reader is told that data is available. *)
Lemma available arrived fin q v m : receiving arrived fin q v m ->
  exists q' v', stream_OnDataAvailable q v = Some (q', v') /\ settled arrived fin q' v' /\
    total_bytes_read_ (buffered_frames_ q) <= total_bytes_read_ (buffered_frames_ q').
Proof using Hlen.
  intros H. pose proof (read_le_total _ _ _ _ _ H) as Hpt. destruct H as [Hrep Hcap Hdom Hbytes Hread Harr Hdel Hcons Hgaps Hflags Hclose Hfin Hfail].
  set (b := buffered_frames_ q) in *. set (p := total_bytes_read_ b) in *.
  destruct (Readv_spec b m [kStreamReceiveWindowLimit] Hrep) as (b' & Hr & Hrep' & Ht & K1 & _ & K3); [apply Forall_singleton; unfold kStreamReceiveWindowLimit; lia|].
  destruct (front_readable b m (r_holds _ _ Hrep)) as (front & rest & Eg & _ & Hrl & Hrb). fold p in Hrl, Hrb, Hr, Hrep', Ht.
  destruct (front_spec b m (r_holds _ _ Hrep)) as (front' & rest' & Eg' & _ & _ & _ & _ & Hnone). rewrite Eg in Eg'. simplify_eq Eg'. intros <- <-.
  cbn in K1, K3. set (rd := readable p m) in *. set (n := Z.of_nat (length rd)) in *.
  assert (p + n <= total) as Hpn.
  { destruct (decide (n = 0)); [lia|]. destruct (Hrb (n - 1) ltac:(lia)) as (x & ts & _ & Hx). assert (is_Some (m !! (p + (n - 1)))) as Hs by eauto.
    apply Hdom in Hs as (_ & k & _ & Hk). apply in_piece_range in Hk. lia. }
  assert (concat (scatter [kStreamReceiveWindowLimit] rd) = rd) as Hall.
  { destruct (decide (rd = [])) as [->|Hrd]; [done|].
    assert (scatter [kStreamReceiveWindowLimit] rd = [take (Z.to_nat kStreamReceiveWindowLimit) rd]) as -> by (by destruct rd).
    cbn [concat]. rewrite app_nil_r. apply take_ge. lia. }
  rewrite Hall in *. fold n in Hr, Hrep', Ht.
  cbn [stream_OnDataAvailable reader_stream]. unfold seq_Readv. fold b. rewrite Hr. change (negb (QUIC_NO_ERROR =? QUIC_NO_ERROR)) with false. cbv iota.
  cbn [stream_AddBytesConsumed reader_errors]. eexists _, _. split; [done|]. cbn [delivered finished failed consumed].
  assert (take (Z.to_nat p) (stream_bytes pieces) ++ rd = take (Z.to_nat (p + n)) (stream_bytes pieces)) as Htake.
  { replace (Z.to_nat (p + n)) with (Z.to_nat p + length rd)%nat by lia. rewrite <- take_take_drop. f_equal. symmetry.
    apply list_eq_same_length with (length rd); [done|rewrite length_take, length_drop; lia|]. intros j x y Hj Hx Hy.
    rewrite lookup_take_lt, lookup_drop in Hx by done. destruct (Hrb (Z.of_nat j) ltac:(lia)) as (z & ts & R & M). rewrite Nat2Z.id in R.
    apply Hbytes in M. replace (Z.to_nat (p + Z.of_nat j)) with (Z.to_nat p + j)%nat in M by lia. congruence. }
  split; [|cbn; fold b; fold p; lia]. exists (remaining (p + n) m). split; [split|]; cbn; rewrite ?Ht; try done.
  - congruence.
  - intros o. rewrite lookup_remaining. destruct (Z.leb_spec (p + n) o).
    + rewrite Hdom. split; [intros [_ ?]; done|]. intros [_ ?]. split; [lia|done].
    + split; [by intros [? ?]|lia].
  - intros o x ts. rewrite lookup_remaining. destruct (Z.leb_spec (p + n) o); [|done]. apply Hbytes.
  - intros o Ho. destruct (Z.lt_ge_cases o p); [apply Hread; lia|]. destruct (Hrb (o - p) ltac:(lia)) as (x & ts & _ & M).
    replace (p + (o - p)) with o in M by lia. assert (is_Some (m !! o)) as Hs by eauto. by apply Hdom in Hs as [_ ?].
  - rewrite Hdel, <- Htake. f_equal. exact Hall.
  - lia.
  - congruence.
  - intros Hf. apply orb_true_iff in Hf as [Hf|Hf].
    + destruct (Hfin Hf) as [-> E]. split; [done|]. lia.
    + unfold seq_IsClosed, BytesConsumed in Hf. cbn in Hf. rewrite Ht, Hclose in Hf. apply Z.geb_le in Hf.
      destruct fin; [split; [done|lia]|]. unfold kU64Max, kStreamReceiveWindowLimit in *. lia.
  - rewrite lookup_remaining. replace (p + n) with (begin_offset front) by lia. rewrite Hnone. split; [by destruct (_ <=? _)|].
    intros -> E. apply orb_true_iff. right. unfold seq_IsClosed, BytesConsumed. cbn. rewrite Ht, Hclose. apply Z.geb_le. lia.
Qed.

(** The end of the stream is announced. *)
Lemma close_step arrived fin q v : settled arrived fin q v -> Forall (fun d => d <> []) pieces -> pieces <> [] ->
  exists q' v', CloseStreamAtOffset q v total = Some (q', v') /\ settled arrived true q' v'.
Proof using Hlen.
  intros (m & H & Hnone & Hfin') _ Hp. pose proof (read_le_total _ _ _ _ _ H) as Hpt. pose proof H as [Hrep Hcap Hdom Hbytes Hread Harr Hdel Hcons Hgaps Hflags Hclose Hfin Hfail].
  unfold CloseStreamAtOffset. assert (total < kU64Max) as Hlt by (unfold kU64Max, kStreamReceiveWindowLimit in *; lia).
  assert (negb (close_offset_ q =? kU64Max) && negb (total =? close_offset_ q) = false) as ->.
  { rewrite Hclose. destruct fin; [by rewrite Z.eqb_refl, andb_false_r|by rewrite Z.eqb_refl]. }
  set (q0 := with_close_offset q total). unfold MaybeCloseStream. destruct Hflags as [Hb Hi].
  assert (receiving arrived true q0 v m) as H0.
  { split; try done. intros Hf. split; [done|]. by apply Hfin in Hf as [_ ?]. }
  change (blocked_ q0) with (blocked_ q). change (ignore_read_data_ q0) with (ignore_read_data_ q). rewrite Hb, Hi. cbn [orb].
  assert (seq_IsClosed q0 = (total_bytes_read_ (buffered_frames_ q) >=? total)) as -> by done.
  destruct (Z.geb_spec (total_bytes_read_ (buffered_frames_ q)) total) as [Ec|Ec]; cbn [negb].
  - destruct (available arrived true q0 v m H0) as (q1 & v1 & -> & (m1 & H1 & Hn1 & Hf1) & Hle). eexists _, _. split; [done|].
    pose proof (read_le_total _ _ _ _ _ H1) as Hpt1. destruct H1 as [Hrep1 Hcap1 Hdom1 Hbytes1 Hread1 Harr1 Hdel1 Hcons1 Hgaps1 Hflags1 Hclose1 Hfin1 Hfail1].
    change (buffered_frames_ q0) with (buffered_frames_ q) in Hle. assert (total_bytes_read_ (buffered_frames_ q1) = total) as Ep by lia.
    assert (forall o, ~ (total <= o /\ exists k, k ∈ arrived /\ in_piece pieces k o)) as Hpast.
    { intros o (Ho & k & _ & Hk). apply in_piece_range in Hk. lia. }
    exists ∅. split; [split|]; try done.
    + destruct (r_holds _ _ Hrep1). by apply cleared_represents.
    + intros o. cbn. rewrite Ep. split; [by intros [? ?]|intros Ho; by apply Hpast in Ho].
    + simpl. lia.
  - eexists _, _. split; [done|]. exists m. split; [done|]. split; [done|]. intros _ E. exfalso. cbn in E. lia.
Qed.

(** The data of one piece arrives. *)
Lemma data_step now arrived fin q v k d : settled arrived fin q v -> pieces !! k = Some d ->
  exists q' v', OnFrameData now q v (piece_offset pieces k) d = Some (q', v') /\ settled ({[k]} ∪ arrived) fin q' v'.
Proof using Hlen Hcount Hne.
  intros (m & H & Hnone & Hfin') Hd. pose proof (read_le_total _ _ _ _ _ H) as Hpt. pose proof H as [Hrep Hcap Hdom Hbytes Hread Harr Hdel Hcons Hgaps Hflags Hclose Hfin Hfail].
  set (off := piece_offset pieces k). set (b := buffered_frames_ q) in *. set (p := total_bytes_read_ b) in *.
  assert (d <> []) as Hdne by (rewrite Forall_forall in Hne; apply Hne; by eapply list_elem_of_lookup_2).
  assert (0 < Z.of_nat (length d)) as Hdl by (destruct d; [done|simpl; lia]).
  assert (forall o, off <= o < off + Z.of_nat (length d) -> in_piece pieces k o) as Hin by (intros o Ho; by exists d).
  assert (0 <= off /\ off + Z.of_nat (length d) <= total) as [Hoff Hend].
  { destruct (in_piece_range _ _ _ (Hin off ltac:(lia))). destruct (in_piece_range _ _ _ (Hin (off + Z.of_nat (length d) - 1) ltac:(lia))). lia. }
  unfold OnFrameData. fold b.
  pose proof (OnStreamData_spec b m Hrep off d now Hoff ltac:(unfold kOffsetLimit, kStreamReceiveWindowLimit in *; lia)) as Hs. fold p in Hs.
  assert (forall o, off <= o < off + Z.of_nat (length d) -> absent p m o = negb (bool_decide (k ∈ arrived))) as Habs.
  { intros o Ho. specialize (Hin o Ho). unfold absent. destruct (bool_decide_reflect (k ∈ arrived)) as [Hk|Hk]; cbn [negb].
    - destruct (Z.leb_spec p o); [|done]. cbn [andb]. apply bool_decide_eq_false. intros E. assert (is_Some (m !! o)) as [x Hx] by (apply Hdom; eauto). congruence.
    - apply andb_true_iff. rewrite Z.leb_le, bool_decide_eq_true, eq_None_not_Some. split.
      + destruct (Z.le_gt_cases p o); [done|]. exfalso. destruct (in_piece_range _ _ _ Hin). destruct (Hread o ltac:(lia)) as (k' & Hk' & Hin').
        by rewrite (in_piece_unique _ _ _ _ Hin Hin') in Hk.
      + rewrite Hdom. intros (_ & k' & Hk' & Hin'). by rewrite (in_piece_unique _ _ _ _ Hin Hin') in Hk. }
  unfold receive in Hs. destruct (Z.eqb_spec (Z.of_nat (length d)) 0); [lia|].
  destruct (decide (k ∈ arrived)) as [Hk|Hk].
  - (* a duplicate *)
    assert (forallb (fun o => negb (absent p m o)) (seqZ off (Z.of_nat (length d))) = true) as E.
    { apply forallb_seqZ. intros o Ho. rewrite Habs by done. by rewrite bool_decide_eq_true_2. }
    rewrite E in Hs. destruct Hs as (b' & -> & _ & _ & _ & _ & Eb). rewrite (Eb eq_refl). change (negb (QUIC_NO_ERROR =? QUIC_NO_ERROR)) with false. cbv iota.
    change (0 =? 0) with true. cbv iota. eexists _, _. split; [done|].
    assert ({[k]} ∪ arrived = arrived) as -> by set_solver. exists m. split; [split; done|done].
  - (* a new piece *)
    assert (forallb (fun o => negb (absent p m o)) (seqZ off (Z.of_nat (length d))) = false) as E1.
    { apply not_true_iff_false. rewrite forallb_seqZ. intros Hall. specialize (Hall off ltac:(lia)). rewrite Habs in Hall by lia.
      by rewrite bool_decide_eq_false_2 in Hall. }
    assert (existsb (fun o => negb (absent p m o)) (seqZ off (Z.of_nat (length d))) = false) as E2.
    { apply not_true_iff_false. rewrite existsb_seqZ. intros (o & Ho & Hex). rewrite Habs in Hex by done. by rewrite bool_decide_eq_false_2 in Hex. }
    rewrite E1, E2, Hcap in Hs. destruct (Z.gtb_spec (off + Z.of_nat (length d)) (p + kStreamReceiveWindowLimit)); [lia|].
    assert (size ({[k]} ∪ arrived) = S (size arrived)) as Hsz by (rewrite size_union by set_solver; by rewrite size_singleton).
    assert (size ({[k]} ∪ arrived) <= length pieces)%nat as Hle.
    { assert (length pieces = size (list_to_set (seq 0 (length pieces)) : gset nat)) as -> by (rewrite size_list_to_set by apply NoDup_seq; by rewrite length_seq).
      apply subseteq_size. intros j Hj. apply elem_of_list_to_set, elem_of_seq. pose proof (lookup_lt_Some _ _ _ Hd).
      apply elem_of_union in Hj as [->%elem_of_singleton|Hj%Harr]; lia. }
    destruct (Z.geb_spec (Z.of_nat (length (gaps_ b))) kMaxNumGapsAllowed); [lia|]. rewrite andb_false_r in Hs.
    destruct Hs as (b' & -> & Hrep' & Ht' & Hc' & Hl' & _). change (negb (QUIC_NO_ERROR =? QUIC_NO_ERROR)) with false. cbv iota.
    destruct (Z.eqb_spec (Z.of_nat (length d)) 0); [lia|]. destruct Hflags as [Hb Hi].
    set (q1 := with_buffer q b'). change (blocked_ q1) with (blocked_ q). change (ignore_read_data_ q1) with (ignore_read_data_ q). rewrite Hb, Hi.
    assert (receiving ({[k]} ∪ arrived) fin q1 v (store m off d now)) as Hnew.
    { split; cbn; rewrite ?Ht'; fold p; try done; try congruence; try lia.
      - intros o. rewrite lookup_store. destruct (Z.leb_spec off o), (Z.ltb_spec o (off + Z.of_nat (length d))); cbn [andb].
        { rewrite fmap_is_Some, lookup_lt_is_Some. split; [|intros _; lia]. intros _. pose proof (Habs o ltac:(lia)) as Ha.
          rewrite bool_decide_eq_false_2 in Ha by done. unfold absent in Ha. apply andb_true_iff in Ha as [Ha%Z.leb_le _].
          split; [done|]. exists k. split; [set_solver|]. apply Hin. lia. }
        all: rewrite Hdom; split; [intros (Ho & j & Hj & Hj'); split; [done|]; exists j; split; [set_solver|done]|].
        all: intros (Ho & j & [->%elem_of_singleton|Hj]%elem_of_union & Hj'); [|split; [done|by exists j]].
        all: destruct Hj' as (d' & Hd' & Hj'); rewrite Hd in Hd'; injection Hd' as <-; fold off in Hj'; lia.
      - intros o x ts. rewrite lookup_store. destruct (Z.leb_spec off o), (Z.ltb_spec o (off + Z.of_nat (length d))); cbn [andb]; try apply Hbytes.
        intros Hx. apply fmap_Some in Hx as (y & Hy & [= -> _]). rewrite (in_piece_byte pieces k o d Hd) by (fold off; lia). done.
      - intros o Ho. destruct (Hread o Ho) as (j & Hj & Hj'). exists j. split; [set_solver|done].
      - intros j [->%elem_of_singleton|Hj]%elem_of_union; [by eapply lookup_lt_Some|by apply Harr]. }
    unfold BytesConsumed. rewrite Ht'. fold p. destruct (Z.eqb_spec off p) as [Eo|Eo].
    + destruct (available _ _ _ _ _ Hnew) as (q2 & v2 & -> & Hset & _). by eexists _, _.
    + eexists _, _. split; [done|]. exists (store m off d now). split; [done|]. cbn. rewrite Ht'. fold p. split; [|done].
      rewrite lookup_store. destruct (Z.leb_spec off p), (Z.ltb_spec p (off + Z.of_nat (length d))); cbn [andb]; try done.
      exfalso. destruct (Hread off ltac:(lia)) as (j & Hj & Hj'). by rewrite (in_piece_unique _ _ _ _ (Hin off ltac:(lia)) Hj') in Hk.
Qed.

Definition last_piece : nat := pred (length pieces).

(** A whole frame arrives. *)
Lemma frame_step id now arrived fin q v k : settled arrived fin q v -> (k < length pieces)%nat ->
  exists q' v', OnStreamFrame now q v (piece_frame pieces id k) = Some (q', v') /\
    settled ({[k]} ∪ arrived) (fin || (k =? last_piece)%nat) q' v'.
Proof using Hlen Hcount Hne.
  intros Hs Hk. destruct (lookup_lt_is_Some_2 pieces k Hk) as [d Hd]. unfold OnStreamFrame, piece_frame. rewrite Hd.
  change (default [] (Some d)) with d. cbn [sf_offset sf_data_length sf_data_buffer sf_fin]. rewrite firstn_all.
  set (q0 := with_counts q _ _). assert (settled arrived fin q0 v) as Hs0 by (destruct Hs as (m & H & H'); exists m; split; [by destruct H; split|done]).
  replace (k =? last_piece)%nat with (S k =? length pieces)%nat by (unfold last_piece; destruct (Nat.eqb_spec (S k) (length pieces)), (Nat.eqb_spec k (pred (length pieces))); lia).
  destruct (Nat.eqb_spec (S k) (length pieces)) as [E|E].
  - assert (piece_offset pieces k +64 Z.of_nat (length d) = total) as ->.
    { rewrite <- (piece_offset_S pieces k d Hd), E, piece_offset_all. apply u64_id. unfold is_u64, kStreamReceiveWindowLimit in *. lia. }
    destruct (close_step arrived fin q0 v Hs0) as (q1 & v1 & -> & Hs1); [done|by destruct pieces|]. rewrite orb_true_r.
    destruct (Z.eqb_spec (Z.of_nat (length d)) 0) as [E0|_]; [|by apply data_step].
    rewrite Forall_forall in Hne. specialize (Hne d ltac:(by eapply list_elem_of_lookup_2)). destruct d; [done|simpl in E0; lia].
  - rewrite orb_false_r. by apply data_step.
Qed.

(** Frames in the order of their arrival, with the times. *)
Fixpoint arrive (id : Z) (s : QuicStreamSequencer * reader) (frames : list (nat * Z)) : option (QuicStreamSequencer * reader) :=
  match frames with
  | [] => Some s
  | (k, now) :: frames => let* s := OnStreamFrame now (fst s) (snd s) (piece_frame pieces id k) in arrive id s frames
  end.

Lemma arrive_settled id frames arrived fin q v : settled arrived fin q v -> Forall (fun x => fst x < length pieces)%nat frames ->
  exists q' v', arrive id (q, v) frames = Some (q', v') /\
    settled (list_to_set (fst <$> frames) ∪ arrived) (fin || existsb (fun x => fst x =? last_piece)%nat frames) q' v'.
Proof using Hlen Hcount Hne.
  intros Hs Hf. revert arrived fin q v Hs. induction Hf as [|[k now] frames Hk Hf IH]; intros arrived fin q v Hs.
  - exists q, v. split; [done|]. rewrite orb_false_r. by assert (list_to_set (fst <$> []) ∪ arrived = arrived) as -> by set_solver.
  - destruct (frame_step id now arrived fin q v k Hs Hk) as (q1 & v1 & E & Hs1). cbn [arrive fst snd]. rewrite E.
    destruct (IH _ _ _ _ Hs1) as (q2 & v2 & E2 & Hs2). exists q2, v2. split; [done|]. cbn [existsb fmap list_fmap list_to_set fst]. rewrite orb_assoc.
    by assert ({[k]} ∪ list_to_set (fst <$> frames) ∪ arrived = list_to_set (fst <$> frames) ∪ ({[k]} ∪ arrived)) as -> by set_solver.
Qed.
End Delivery.

Lemma new_settled pieces : pieces <> [] -> Forall (fun d => d <> []) pieces ->
  exists q, QuicStreamSequencer_new = Some q /\ settled pieces ∅ false q (MkStreamReader [] false None 0).
Proof.
  intros Hp Hne. unfold QuicStreamSequencer_new. destruct (new_represents kStreamReceiveWindowLimit) as (b & E & Hb & Ht & Hc).
  { unfold kStreamReceiveWindowLimit, kBlockSizeBytes. lia. }
  rewrite E. eexists. split; [done|]. exists ∅. split; [split|]; cbn; rewrite ?Ht; try done; try set_solver.
  - intros o. split; [by intros [? ?]|]. intros (_ & k & Hk & _). set_solver.
  - lia.
  - clear -E. vm_compute in E. injection E as <-. simpl. lia.
Qed.


