(* ===== verification/StreamSendBuffer.v ===== *)
(** * The send buffer of a stream

    quic/core/quic_stream_send_buffer.cc: data given to a stream is copied into
    slices and kept until it is acknowledged, so that it can be written into
    packets again.  The framer asks for it by offset ([WriteStreamData] is the data
    producer of [Framer]).  QuicUtils::CopyToBuffer (quic_utils.cc) gathers the data
    from an array of buffers.

    The memory that [NewStreamBuffer] allocates is not initialised; its contents are
    the parameter [uninitialised].  [max_data_slice_size] is the value of the flag
    FLAGS_quic_send_buffer_max_data_slice_size. *)

From stdpp Require Import gmap.
From S2P Require Import Prelude QuicData Framer FramerFacts.

#[local] Open Scope wire_scope.

(** ** Gathering *)

(** Skip the buffers before [iov_offset]. *)
Fixpoint skip_iov (iov : list (list Z)) (iov_offset : nat) : list (list Z) * nat :=
  match iov with
  | [] => ([], iov_offset)
  | buf :: rest => if (length buf <=? iov_offset)%nat then skip_iov rest (iov_offset - length buf) else (iov, iov_offset)
  end.
(** The copying loop; [src] is the rest of the current buffer. *)
Fixpoint copy_iov (src : list Z) (iov : list (list Z)) (n : nat) : list Z :=
  let copy_len := Nat.min n (length src) in
  take copy_len src ++
  (if (n - copy_len =? 0)%nat then []
   else match iov with [] => [] | src :: iov => copy_iov src iov (n - copy_len) end).
(** The bytes copied to [buffer]. *)
Definition CopyToBuffer (iov : list (list Z)) (iov_offset n : nat) : list Z :=
  match skip_iov iov iov_offset with
  | ([], _) => []
  | (src :: rest, iov_offset) => if (n =? 0)%nat then [] else copy_iov (drop iov_offset src) rest n
  end.

(** ** The buffer *)

Record QuicStreamDataSlice := MkSlice { sl_data : list Z; sl_offset : Z; sl_data_length : Z; sl_outstanding_data_length : Z }.
Record QuicStreamSendBuffer := MkSendBuffer { send_buffer_ : list QuicStreamDataSlice; stream_offset_ : Z }.
Definition SendBuffer_new : QuicStreamSendBuffer := MkSendBuffer [] 0.

Section SendBuffer.
Context (uninitialised : nat -> list Z) (max_data_slice_size : nat).

Definition SaveStreamDataOneSlice (b : QuicStreamSendBuffer) (iov : list (list Z)) (iov_offset data_length : nat) : QuicStreamSendBuffer :=
  let copied := CopyToBuffer iov iov_offset data_length in
  let buffer := copied ++ drop (length copied) (uninitialised data_length) in
  MkSendBuffer (send_buffer_ b ++ [MkSlice buffer (stream_offset_ b) (Z.of_nat data_length) (Z.of_nat data_length)])
    (stream_offset_ b +64 Z.of_nat data_length).

Fixpoint SaveStreamData_loop (fuel : nat) (b : QuicStreamSendBuffer) (iov : list (list Z)) (iov_offset data_length : nat)
    : option QuicStreamSendBuffer :=
  if (0 <? data_length)%nat then
    match fuel with
    | O => None
    | S fuel =>
        let slice_len := Nat.min data_length max_data_slice_size in
        SaveStreamData_loop fuel (SaveStreamDataOneSlice b iov iov_offset slice_len) iov (iov_offset + slice_len) (data_length - slice_len)
    end
  else Some b.
Definition SaveStreamData (b : QuicStreamSendBuffer) (iov : list (list Z)) (iov_offset data_length : nat) : option QuicStreamSendBuffer :=
  SaveStreamData_loop data_length b iov iov_offset data_length.
End SendBuffer.

Fixpoint WriteStreamData_loop (slices : list QuicStreamDataSlice) (offset data_length : Z) : Wr :=
  match slices with
  | [] => if data_length =? 0 then wr_true else wr_false
  | slice :: rest =>
      if offset <? sl_offset slice then (if data_length =? 0 then wr_true else wr_false)
      else if offset >=? sl_offset slice +64 sl_data_length slice then WriteStreamData_loop rest offset data_length
      else
        let slice_offset := offset -64 sl_offset slice in
        let copy_length := Z.min data_length (sl_data_length slice -64 slice_offset) in
        WriteBytes (take (Z.to_nat copy_length) (drop (Z.to_nat slice_offset) (sl_data slice))) >&>
        WriteStreamData_loop rest (offset +64 copy_length) (data_length -64 copy_length)
  end.
Definition WriteStreamData (b : QuicStreamSendBuffer) (offset data_length : Z) : Wr :=
  WriteStreamData_loop (send_buffer_ b) offset data_length.

(** The slices with the acknowledged bytes subtracted. *)
Fixpoint RemoveStreamFrame_loop (slices : list QuicStreamDataSlice) (offset data_length : Z) : list QuicStreamDataSlice :=
  match slices with
  | [] => []
  | slice :: rest =>
      if offset <? sl_offset slice then slices
      else if offset >=? sl_offset slice +64 sl_data_length slice then slice :: RemoveStreamFrame_loop rest offset data_length
      else
        let slice_offset := offset -64 sl_offset slice in
        let removing_length := Z.min data_length (sl_data_length slice -64 slice_offset) in
        MkSlice (sl_data slice) (sl_offset slice) (sl_data_length slice) (sl_outstanding_data_length slice -64 removing_length) ::
        RemoveStreamFrame_loop rest (offset +64 removing_length) (data_length -64 removing_length)
  end.
Fixpoint pop_acked (slices : list QuicStreamDataSlice) : list QuicStreamDataSlice :=
  match slices with
  | slice :: rest => if sl_outstanding_data_length slice =? 0 then pop_acked rest else slices
  | [] => []
  end.
Definition RemoveStreamFrame (b : QuicStreamSendBuffer) (offset data_length : Z) : QuicStreamSendBuffer :=
  MkSendBuffer (pop_acked (RemoveStreamFrame_loop (send_buffer_ b) offset data_length)) (stream_offset_ b).

Definition send_buffer_size (b : QuicStreamSendBuffer) : nat := length (send_buffer_ b).

(** ** Gathering is slicing the concatenation *)

Lemma copy_iov_spec src iov n : copy_iov src iov n = take n (src ++ concat iov).
Proof.
  revert src n. induction iov as [|buf iov IH]; intros src n; cbn [copy_iov concat].
  - rewrite app_nil_r. assert (forall b : bool, (if b then [] else [] : list Z) = []) as -> by (by intros []). rewrite app_nil_r.
    destruct (Nat.le_ge_cases n (length src)); [by rewrite Nat.min_l by lia|]. rewrite Nat.min_r by lia. by rewrite !take_ge by lia.
  - destruct (Nat.eqb_spec (n - Nat.min n (length src)) 0).
    + rewrite app_nil_r, take_app_le by lia. by rewrite Nat.min_l by lia.
    + rewrite IH, Nat.min_r by lia. rewrite (take_app_ge src) by lia. by rewrite (take_ge src (length src)).
Qed.

Lemma CopyToBuffer_spec iov off n : CopyToBuffer iov off n = take n (drop off (concat iov)).
Proof.
  unfold CopyToBuffer. revert off. induction iov as [|buf iov IH]; intros off; cbn [skip_iov concat].
  - by rewrite drop_nil, take_nil.
  - destruct (Nat.leb_spec (length buf) off).
    + rewrite IH. by rewrite drop_app_ge by lia.
    + destruct (Nat.eqb_spec n 0) as [E|E]; [by rewrite E|]. by rewrite copy_iov_spec, drop_app_le by lia.
Qed.

(** ** What the buffer keeps *)

Definition range (off len : Z) : gset Z := list_to_set (seqZ off len).
Lemma elem_of_range off len o : o ∈ range off len <-> off <= o < off + len.
Proof. unfold range. rewrite elem_of_list_to_set, elem_of_seqZ. lia. Qed.
Lemma size_range off len : Z.of_nat (size (range off len)) = Z.max 0 len.
Proof. unfold range. rewrite size_list_to_set by apply NoDup_seqZ. rewrite length_seqZ. lia. Qed.

(** Bytes [off, off + len) of the data saved. *)
Definition slice_of (saved : list Z) (off len : Z) : list Z := take (Z.to_nat len) (drop (Z.to_nat off) saved).

(** Slices follow one another from [lo] to [hi]; each holds its part of [saved] and
    counts its bytes that are not in [acked]. *)
Fixpoint slices_ok (saved : list Z) (acked : gset Z) (lo hi : Z) (slices : list QuicStreamDataSlice) : Prop :=
  match slices with
  | [] => lo = hi
  | s :: rest =>
      sl_offset s = lo /\ 0 < sl_data_length s /\ lo + sl_data_length s <= hi /\ sl_data s = slice_of saved lo (sl_data_length s) /\
      sl_outstanding_data_length s = Z.of_nat (size (range lo (sl_data_length s) ∖ acked)) /\
      slices_ok saved acked (lo + sl_data_length s) hi rest
  end.

Record sending (b : QuicStreamSendBuffer) (saved : list Z) (acked : gset Z) : Prop := {
  s_offset : stream_offset_ b = Z.of_nat (length saved);
  s_small : Z.of_nat (length saved) < 2 ^ 63;
  s_acked : forall o, o ∈ acked -> 0 <= o < Z.of_nat (length saved);
  s_slices : exists lo, 0 <= lo /\ slices_ok saved acked lo (Z.of_nat (length saved)) (send_buffer_ b) /\ (forall o, 0 <= o < lo -> o ∈ acked);
  s_front : match send_buffer_ b with s :: _ => sl_outstanding_data_length s <> 0 | [] => True end }.

Lemma slices_ok_le saved acked lo hi slices : slices_ok saved acked lo hi slices -> lo <= hi.
Proof. destruct slices; simpl; [lia|]. intros (_ & ? & ? & _). lia. Qed.

Lemma slice_of_app saved more off len : 0 <= off -> off + len <= Z.of_nat (length saved) -> slice_of (saved ++ more) off len = slice_of saved off len.
Proof.
  intros H1 H2. unfold slice_of. destruct (Z.le_gt_cases len 0) as [Hl|Hl]; [by replace (Z.to_nat len) with 0%nat by lia|].
  rewrite drop_app_le by lia. rewrite take_app_le by (rewrite length_drop; lia). done.
Qed.
Lemma slice_of_split saved off n m : 0 <= off -> 0 <= n -> 0 <= m -> slice_of saved off (n + m) = slice_of saved off n ++ slice_of saved (off + n) m.
Proof.
  intros H0 H1 H2. unfold slice_of. rewrite !Z2Nat.inj_add by lia. rewrite <- drop_drop. by rewrite take_take_drop.
Qed.
Lemma slice_of_slice saved lo dl off n : 0 <= lo <= off -> off + n <= lo + dl ->
  take (Z.to_nat n) (drop (Z.to_nat (off - lo)) (slice_of saved lo dl)) = slice_of saved off n.
Proof.
  intros H1 H2. unfold slice_of. rewrite skipn_firstn_comm, drop_drop, take_take. f_equal; [lia|]. f_equal. lia.
Qed.
Lemma length_slice_of saved off len : 0 <= off -> 0 <= len -> off + len <= Z.of_nat (length saved) -> length (slice_of saved off len) = Z.to_nat len.
Proof. intros. unfold slice_of. rewrite length_take, length_drop. lia. Qed.

Lemma slices_ok_ext saved acked acked' lo hi slices : (forall o, lo <= o < hi -> o ∈ acked <-> o ∈ acked') ->
  slices_ok saved acked lo hi slices -> slices_ok saved acked' lo hi slices.
Proof.
  revert lo. induction slices as [|s rest IH]; intros lo Heq; simpl; [done|]. intros (H1 & H2 & H3 & H4 & H5 & H6).
  split_and!; try done.
  - rewrite H5. do 2 f_equal. apply set_eq. intros o. rewrite !elem_of_difference, elem_of_range.
    split; intros [Hr Hn]; (split; [done|]); [by rewrite <- Heq by lia|by rewrite Heq by lia].
  - apply IH; [|done]. intros o Ho. apply Heq. lia.
Qed.

Lemma slices_ok_more saved more acked lo hi slices : 0 <= lo -> hi <= Z.of_nat (length saved) ->
  slices_ok saved acked lo hi slices -> slices_ok (saved ++ more) acked lo hi slices.
Proof.
  revert lo. induction slices as [|s rest IH]; intros lo Hlo Hhi; simpl; [done|]. intros (H1 & H2 & H3 & H4 & H5 & H6).
  split_and!; try done; [by rewrite slice_of_app by lia|apply IH; [lia|done|done]].
Qed.

Lemma slices_ok_app saved acked lo mid hi l k : slices_ok saved acked lo mid l -> slices_ok saved acked mid hi k -> slices_ok saved acked lo hi (l ++ k).
Proof.
  revert lo. induction l as [|s l IH]; intros lo; simpl; [by intros -> ?|]. intros (H1 & H2 & H3 & H4 & H5 & H6) Hk.
  pose proof (slices_ok_le _ _ _ _ _ Hk). split_and!; try done; [lia|by apply IH].
Qed.

Lemma SendBuffer_new_sending : sending SendBuffer_new [] ∅.
Proof. split; [done|done|set_solver| |done]. exists 0. split_and!; [lia|done|lia]. Qed.

(** ** Saving *)

Section Saving.
Context (uninitialised : nat -> list Z) (max_data_slice_size : nat).
Context (Hu : forall n, length (uninitialised n) = n) (Hmax : (0 < max_data_slice_size)%nat).

Lemma save_slice b saved acked iov off n : sending b saved acked -> (0 < n)%nat -> (off + n <= length (concat iov))%nat ->
  Z.of_nat (length saved) + Z.of_nat n < 2 ^ 63 ->
  sending (SaveStreamDataOneSlice uninitialised b iov off n) (saved ++ take n (drop off (concat iov))) acked.
Proof.
  intros [Ho Hs Hack (lo & Hlo & Hsl & Hbelow) Hf] Hn Hle Hlim. set (bytes := take n (drop off (concat iov))).
  assert (length bytes = n) as Hlb by (unfold bytes; rewrite length_take, length_drop; lia).
  unfold SaveStreamDataOneSlice. rewrite CopyToBuffer_spec. fold bytes. rewrite Hlb, drop_ge, app_nil_r by (by rewrite Hu).
  set (len := Z.of_nat (length saved)) in *.
  assert (Z.of_nat (length (saved ++ bytes)) = len + Z.of_nat n) as Hl by (rewrite length_app, Hlb; lia).
  split; cbn [stream_offset_ send_buffer_].
  - rewrite Ho, Hl. apply u64_id. unfold is_u64. lia.
  - lia.
  - intros o Hin. apply Hack in Hin. lia.
  - exists lo. split; [done|]. split; [|done]. apply slices_ok_app with len; [by apply slices_ok_more|]. cbn.
    split_and!; try lia.
    + unfold slice_of, len. rewrite !Nat2Z.id, drop_app_length, take_ge by lia. done.
    + assert (range len (Z.of_nat n) ∖ acked = range len (Z.of_nat n)) as ->; [|rewrite size_range; lia].
      apply set_eq. intros o. rewrite elem_of_difference, elem_of_range. split; [tauto|]. intros H. split; [done|]. intros ?%Hack. lia.
  - destruct (send_buffer_ b); simpl in *; [lia|done].
Qed.

Lemma save_loop fuel b saved acked iov off n : (n <= fuel)%nat -> sending b saved acked -> (off + n <= length (concat iov))%nat ->
  Z.of_nat (length saved) + Z.of_nat n < 2 ^ 63 ->
  exists b', SaveStreamData_loop uninitialised max_data_slice_size fuel b iov off n = Some b' /\
             sending b' (saved ++ take n (drop off (concat iov))) acked.
Proof.
  revert b saved off n. induction fuel as [|fuel IH]; intros b saved off n Hn Hs Hle Hlim; cbn [SaveStreamData_loop].
  - assert (n = 0)%nat as -> by lia. exists b. by rewrite app_nil_r.
  - destruct (Nat.ltb_spec 0 n) as [Hpos|Hpos]; [|assert (n = 0)%nat as -> by lia; exists b; by rewrite app_nil_r].
    set (k := Nat.min n max_data_slice_size). assert (0 < k <= n)%nat as Hk by (unfold k; lia).
    destruct (IH (SaveStreamDataOneSlice uninitialised b iov off k) (saved ++ take k (drop off (concat iov))) (off + k)%nat (n - k)%nat) as (b' & H1 & H2);
      [lia|apply save_slice; [done|lia|lia|lia]|lia|rewrite length_app, length_take, length_drop; lia|].
    exists b'. split; [done|]. rewrite <- app_assoc, <- drop_drop in H2. 
    rewrite take_take_drop in H2. by replace (k + (n - k))%nat with n in H2 by lia.
Qed.
End Saving.

(** ** Writing *)

Lemma write_loop e saved acked lo hi slices off len : 0 <= lo -> hi <= Z.of_nat (length saved) < 2 ^ 63 ->
  slices_ok saved acked lo hi slices -> 0 <= off -> 0 <= len -> (len = 0 \/ lo <= off) -> off + len <= hi ->
  appends e (WriteStreamData_loop slices off len) (slice_of saved off len).
Proof.
  intros Hlo Hhi. revert lo off len Hlo. induction slices as [|s rest IH]; intros lo off len Hlo Hok Hoff Hlen Hst Hend; cbn [WriteStreamData_loop].
  - simpl in Hok. assert (len = 0) as -> by lia. apply appends_true.
  - destruct Hok as (H1 & H2 & H3 & H4 & _ & H6). rewrite H1.
    destruct (Z.ltb_spec off lo) as [Hl|Hl]; [assert (len = 0) as -> by lia; apply appends_true|].
    rewrite (u64_id (lo + _)) by (unfold is_u64; lia). destruct (Z.geb_spec off (lo + sl_data_length s)) as [Hg|Hg].
    + apply (IH (lo + sl_data_length s)); [lia|done|lia|lia|lia|lia].
    + rewrite (u64_id (off - lo)) by (unfold is_u64; lia). rewrite (u64_id (_ - (off - lo))) by (unfold is_u64; lia).
      set (n := Z.min len _). assert (0 <= n <= len /\ n <= sl_data_length s - (off - lo) /\ (n = len \/ n = sl_data_length s - (off - lo))) as Hn by lia.
      clearbody n. rewrite !u64_id by (unfold is_u64; lia). replace len with (n + (len - n)) at 2 by lia. rewrite slice_of_split by lia.
      apply appends_and; [|apply (IH (lo + sl_data_length s)); [lia|done|lia|lia|lia|lia]].
      rewrite H4, slice_of_slice by lia. apply appends_bytes.
Qed.

Lemma WriteStreamData_spec e b saved acked off len : sending b saved acked -> 0 <= off -> 0 <= len -> off ∉ acked ->
  off + len <= Z.of_nat (length saved) -> appends e (WriteStreamData b off len) (slice_of saved off len).
Proof.
  intros [_ Hs _ (lo & Hlo & Hsl & Hb) _] H0 H1 H2 H3. apply (write_loop e saved acked lo (Z.of_nat (length saved))); try done; try lia.
  right. destruct (Z.le_gt_cases lo off); [done|]. destruct H2. apply Hb. lia.
Qed.

(** ** Acknowledging *)

Lemma outstanding_remove acked lo dl off len rm : lo <= off < lo + dl -> 0 <= len -> rm = Z.min len (dl - (off - lo)) ->
  range off len ## acked ->
  Z.of_nat (size (range lo dl ∖ (acked ∪ range off len))) = Z.of_nat (size (range lo dl ∖ acked)) - rm.
Proof.
  intros H1 H2 -> Hd. set (rm := Z.min _ _).
  assert (range lo dl ∖ acked = (range lo dl ∖ (acked ∪ range off len)) ∪ range off rm) as ->.
  { apply set_eq. intros o. specialize (Hd o). rewrite elem_of_range in Hd.
    rewrite elem_of_union, !elem_of_difference, elem_of_union, !elem_of_range.
    split; [|intros [?|?]; [tauto|split; [lia|intros ?; apply Hd; [lia|done]]]].
    intros [Ho Hn]. destruct (decide (off <= o < off + len)); [right; lia|left; tauto]. }
  pose proof (size_union (range lo dl ∖ (acked ∪ range off len)) (range off rm)) as Hu.
  rewrite Hu, Nat2Z.inj_add, size_range by (intros o; rewrite elem_of_difference, elem_of_union, !elem_of_range; lia). lia.
Qed.

Lemma remove_loop saved acked lo hi slices off len : 0 <= lo -> hi <= Z.of_nat (length saved) < 2 ^ 63 ->
  slices_ok saved acked lo hi slices -> 0 <= off -> 0 <= len -> (len = 0 \/ lo <= off) -> off + len <= hi -> range off len ## acked ->
  slices_ok saved (acked ∪ range off len) lo hi (RemoveStreamFrame_loop slices off len).
Proof.
  intros Hlo Hhi. revert lo off len Hlo. induction slices as [|s rest IH]; intros lo off len Hlo Hok Hoff Hlen Hst Hend Hd; cbn [RemoveStreamFrame_loop].
  - done.
  - pose proof Hok as (H1 & H2 & H3 & H4 & H5 & H6). rewrite H1.
    destruct (Z.ltb_spec off lo) as [Hl|Hl].
    { assert (len = 0) as -> by lia. change (range off 0) with (∅ : gset Z). by rewrite union_empty_r_L. }
    rewrite (u64_id (lo + _)) by (unfold is_u64; lia). destruct (Z.geb_spec off (lo + sl_data_length s)) as [Hg|Hg].
    + cbn [slices_ok]. split_and!; try done; [|apply IH; try done; lia].
      rewrite H5. do 2 f_equal. apply set_eq. intros o. rewrite !elem_of_difference, elem_of_union, !elem_of_range. lia || intuition lia.
    + rewrite (u64_id (off - lo)) by (unfold is_u64; lia). rewrite (u64_id (_ - (off - lo))) by (unfold is_u64; lia).
      pose proof (outstanding_remove acked lo (sl_data_length s) off len _ ltac:(lia) Hlen eq_refl Hd) as Hsz.
      assert (Z.of_nat (size (range lo (sl_data_length s) ∖ acked)) <= sl_data_length s) as Hub.
      { rewrite <- (Z.max_r 0 (sl_data_length s)) at 2 by lia. rewrite <- (size_range lo). apply Nat2Z.inj_le, subseteq_size. set_solver. }
      set (n := Z.min len _) in *. assert (0 <= n <= len /\ n <= sl_data_length s - (off - lo) /\ (n = len \/ n = sl_data_length s - (off - lo))) as Hn by lia.
      clearbody n. rewrite !u64_id by (unfold is_u64; lia). cbn [slices_ok sl_offset sl_data_length sl_data sl_outstanding_data_length].
      split_and!; try done; [lia|].
      apply slices_ok_ext with (acked ∪ range (off + n) (len - n)).
      * intros o Ho. rewrite !elem_of_union, !elem_of_range. intuition lia.
      * apply IH; try done; try lia. intros o. specialize (Hd o). rewrite elem_of_range in *. intros ?. apply Hd. lia.
Qed.

Lemma pop_acked_ok saved acked lo hi slices : slices_ok saved acked lo hi slices ->
  exists lo', lo <= lo' /\ slices_ok saved acked lo' hi (pop_acked slices) /\ (forall o, lo <= o < lo' -> o ∈ acked) /\
  match pop_acked slices with s :: _ => sl_outstanding_data_length s <> 0 | [] => True end.
Proof.
  revert lo. induction slices as [|s rest IH]; intros lo Hok; cbn [pop_acked]; [exists lo; split_and!; [lia|done|lia|done]|].
  destruct (Z.eqb_spec (sl_outstanding_data_length s) 0) as [Hz|Hz]; [|exists lo; split_and!; [lia|done|lia|done]].
  destruct Hok as (H1 & H2 & H3 & H4 & H5 & H6). destruct (IH _ H6) as (lo' & Hle & Hok' & Hb & Hf).
  exists lo'. split_and!; [lia|done| |done]. intros o Ho. destruct (Z.lt_ge_cases o (lo + sl_data_length s)); [|apply Hb; lia].
  rewrite Hz in H5. symmetry in H5. apply (Nat2Z.inj _ 0), size_empty_inv in H5.
  destruct (decide (o ∈ acked)) as [|Hn]; [done|]. exfalso. apply (not_elem_of_empty (C := gset Z) o), H5. rewrite elem_of_difference, elem_of_range. split; [lia|done].
Qed.

Lemma RemoveStreamFrame_spec b saved acked off len : sending b saved acked -> 0 <= off -> 0 <= len -> range off len ## acked ->
  off + len <= Z.of_nat (length saved) -> sending (RemoveStreamFrame b off len) saved (acked ∪ range off len).
Proof.
  intros [Ho Hs Ha (lo & Hlo & Hsl & Hb) Hf] H0 H1 Hd H3.
  assert (len = 0 \/ lo <= off) as Hst.
  { destruct (decide (len = 0)); [by left|right]. destruct (Z.le_gt_cases lo off); [done|].
    destruct (Hd off); [rewrite elem_of_range; lia|apply Hb; lia]. }
  assert (slices_ok saved (acked ∪ range off len) lo (Z.of_nat (length saved)) (RemoveStreamFrame_loop (send_buffer_ b) off len)) as Hr
    by (apply remove_loop; done || lia).
  destruct (pop_acked_ok _ _ _ _ _ Hr) as (lo' & Hle & Hok' & Hb' & Hf').
  split; cbn [RemoveStreamFrame stream_offset_ send_buffer_]; [done|done| | |done].
  - intros o. rewrite elem_of_union, elem_of_range. intros [?%Ha|?]; lia.
  - exists lo'. split_and!; [lia|done|]. intros o Hlt. destruct (Z.lt_ge_cases o lo); [|apply Hb'; lia].
    apply elem_of_union_l, Hb. lia.
Qed.

Lemma sending_empty b saved acked : sending b saved acked ->
  (send_buffer_size b = 0%nat <-> forall o, 0 <= o < Z.of_nat (length saved) -> o ∈ acked).
Proof.
  intros [_ _ _ (lo & Hlo & Hsl & Hb) Hf]. unfold send_buffer_size. destruct (send_buffer_ b) as [|s rest]; simpl in *.
  - split; [intros _; by subst lo|done].
  - destruct Hsl as (H1 & H2 & H3 & H4 & H5 & _). split; [done|]. intros Hall. destruct Hf. rewrite H5.
    assert (range lo (sl_data_length s) ∖ acked = ∅) as ->; [|done]. apply set_eq. intros o.
    rewrite elem_of_difference, elem_of_range, elem_of_empty. split; [|done]. intros [? []]. apply Hall. lia.
Qed.

(** ** Every sequence of saves and acknowledgements *)

Section Sends.
Context (uninitialised : nat -> list Z) (max_data_slice_size : nat).

(** What a stream does to its buffer: it appends data to what it saved, and the
    acknowledgement of a frame covers saved bytes for the first time. *)
Inductive sends : QuicStreamSendBuffer -> list Z -> gset Z -> Prop :=
| sends_new : sends SendBuffer_new [] ∅
| sends_save b saved acked iov off n b' :
    sends b saved acked -> (off + n <= length (concat iov))%nat -> Z.of_nat (length saved) + Z.of_nat n < 2 ^ 63 ->
    SaveStreamData uninitialised max_data_slice_size b iov off n = Some b' ->
    sends b' (saved ++ take n (drop off (concat iov))) acked
| sends_ack b saved acked off len :
    sends b saved acked -> 0 <= off -> 0 <= len -> off + len <= Z.of_nat (length saved) -> range off len ## acked ->
    sends (RemoveStreamFrame b off len) saved (acked ∪ range off len).

(** NewStreamBuffer allocates the size asked for; the flag is a positive size. *)
Class SendBufferEnv : Prop := {
  allocated : forall n, length (uninitialised n) = n;
  slices_positive : (0 < max_data_slice_size)%nat }.

Lemma sends_sending `{SendBufferEnv} b saved acked : sends b saved acked -> sending b saved acked.
Proof.
  destruct H as [Hu Hm]. induction 1 as [|b saved acked iov off n b' _ IH Hle Hlim Hs|b saved acked off len _ IH H0 H1 H2 Hd].
  - apply SendBuffer_new_sending.
  - destruct (save_loop uninitialised max_data_slice_size Hu Hm n b saved acked iov off n) as (b'' & E & Hok); [done|done|done|done|].
    unfold SaveStreamData in Hs. rewrite E in Hs. by injection Hs as <-.
  - by apply RemoveStreamFrame_spec.
Qed.
End Sends.

(** C30: Until a byte of a stream is acknowledged it can be sent again: after any
    sequence of SaveStreamData (which always terminates) and of acknowledgements in
    any order, WriteStreamData writes exactly the bytes saved at any range whose
    first byte is not acknowledged, across slices, so the framer's stream frames
    carry the stream's data; the next offset is the number of bytes saved; and the
    buffer is empty exactly when everything saved is acknowledged. *)
Theorem send_buffer_retransmits (uninitialised : nat -> list Z) (max_data_slice_size : nat) (e : Endianness)
    (b : QuicStreamSendBuffer) (saved : list Z) (acked : gset Z) :
  SendBufferEnv uninitialised max_data_slice_size -> sends uninitialised max_data_slice_size b saved acked ->
  stream_offset_ b = Z.of_nat (length saved) /\
  (forall off len, 0 <= off -> 0 <= len -> off + len <= Z.of_nat (length saved) -> off ∉ acked ->
    appends e (WriteStreamData b off len) (slice_of saved off len) /\ length (slice_of saved off len) = Z.to_nat len) /\
  (forall f, 0 <= sf_offset f -> Z.of_nat (sf_data_length f) <= 65535 ->
    sf_offset f + Z.of_nat (sf_data_length f) <= Z.of_nat (length saved) -> sf_offset f ∉ acked ->
    stream_data e (Some (fun _ off len => WriteStreamData b off (Z.of_nat len))) f
      (slice_of saved (sf_offset f) (Z.of_nat (sf_data_length f)))) /\
  (send_buffer_size b = 0%nat <-> forall o, 0 <= o < Z.of_nat (length saved) -> o ∈ acked) /\
  (forall iov off n, (off + n <= length (concat iov))%nat -> Z.of_nat (length saved) + Z.of_nat n < 2 ^ 63 ->
    is_Some (SaveStreamData uninitialised max_data_slice_size b iov off n)).
Proof.
  intros He Hs. pose proof (sends_sending _ _ _ _ _ Hs) as Hok. split_and!.
  - apply Hok.
  - intros off len H0 H1 H2 H3. split; [by eapply WriteStreamData_spec|by apply length_slice_of].
  - intros f H0 H1 H2 H3. split_and!; [rewrite length_slice_of by lia; lia|done|]. intros _. eapply WriteStreamData_spec; eauto with lia.
  - by eapply sending_empty.
  - intros iov off n H0 H1. destruct He as [Hu Hm].
    destruct (save_loop uninitialised max_data_slice_size Hu Hm n b saved acked iov off n) as (b' & E & _); [done|done|done|done|]. by exists b'.
Qed.

(** Seven bytes from two buffers in slices of three; bytes 2 to 4 are
    acknowledged, so nothing is released, and then byte 1 is sent again. *)
Lemma send_buffer_retransmits_witness :
  exists b, send_buffer_size b = 3%nat /\ appends NETWORK_BYTE_ORDER (WriteStreamData b 1 5) [2; 3; 4; 5; 6].
Proof.
  set (zeros := fun n => repeat 0 n).
  assert (SendBufferEnv zeros 3) as He by (split; [intros n; apply repeat_length|lia]).
  destruct (SaveStreamData zeros 3 SendBuffer_new [[9; 1; 2]; [3; 4; 5; 6; 7; 8]] 1 7) as [b|] eqn:E; [|discriminate E].
  assert (sends zeros 3 b [1; 2; 3; 4; 5; 6; 7] ∅) as Hs
    by (apply (sends_save zeros 3 SendBuffer_new [] ∅ [[9; 1; 2]; [3; 4; 5; 6; 7; 8]] 1 7 b); [apply sends_new|simpl; lia|done|exact E]).
  pose proof (sends_ack zeros 3 _ _ _ 2 3 Hs ltac:(lia) ltac:(lia) ltac:(done) ltac:(set_solver)) as Hs'.
  exists (RemoveStreamFrame b 2 3). split; [by injection E as <-|].
  apply (send_buffer_retransmits zeros 3 NETWORK_BYTE_ORDER _ _ _ He Hs'); [lia|lia|done|].
  rewrite elem_of_union, elem_of_range. intros [H|H]; [set_solver|lia].
Defined.
