(* ===== verification/FlowController.v ===== *)
(** * Flow control

    quic/core/quic_flow_controller.cc: how many bytes a stream or a connection may
    send, how many it has granted to its peer, and when it grants more.

    The connection (its clock, its smoothed RTT, the frames it sends, its closing)
    is an interface, as is the session's controller that a stream's controller asks
    to keep up with it; [session_interface] implements the latter by a controller of
    the same class.  Times are microseconds as in [QuicTime]; the product with
    [kSessionFlowControlMultiplier] is computed in single precision. *)

From stdpp Require Import gmap.
From S2P Require Import Prelude QuicTime StreamPrecedence StreamSequencer.

Definition kConnectionLevelId : Z := 0.
Definition kSessionReceiveWindowLimit : Z := 24 * 1024 * 1024.
Definition QUIC_FLOW_CONTROL_SENT_TOO_MUCH_DATA : Z := 63.
(** 1.5 *)
Definition kSessionFlowControlMultiplier := float_div (float_of_int 3) (float_of_int 2).

Record QuicFlowController := MkFlow {
  id_ : Z;
  bytes_sent_ : Z;
  send_window_offset_ : Z;
  bytes_consumed_ : Z;
  highest_received_byte_offset_ : Z;
  receive_window_offset_ : Z;
  receive_window_size_ : Z;
  receive_window_size_limit_ : Z;
  auto_tune_receive_window_ : bool;
  (** whether the pointer is not null *)
  session_flow_controller_ : bool;
  last_blocked_send_window_offset_ : Z;
  prev_window_update_time_ : Z }.

Definition with_sent (c : QuicFlowController) (sent send_offset last_blocked : Z) : QuicFlowController :=
  MkFlow (id_ c) sent send_offset (bytes_consumed_ c) (highest_received_byte_offset_ c) (receive_window_offset_ c)
    (receive_window_size_ c) (receive_window_size_limit_ c) (auto_tune_receive_window_ c) (session_flow_controller_ c)
    last_blocked (prev_window_update_time_ c).
Definition with_received (c : QuicFlowController) (consumed highest : Z) : QuicFlowController :=
  MkFlow (id_ c) (bytes_sent_ c) (send_window_offset_ c) consumed highest (receive_window_offset_ c)
    (receive_window_size_ c) (receive_window_size_limit_ c) (auto_tune_receive_window_ c) (session_flow_controller_ c)
    (last_blocked_send_window_offset_ c) (prev_window_update_time_ c).
Definition with_window (c : QuicFlowController) (offset size limit : Z) : QuicFlowController :=
  MkFlow (id_ c) (bytes_sent_ c) (send_window_offset_ c) (bytes_consumed_ c) (highest_received_byte_offset_ c) offset
    size limit (auto_tune_receive_window_ c) (session_flow_controller_ c)
    (last_blocked_send_window_offset_ c) (prev_window_update_time_ c).
Definition with_update_time (c : QuicFlowController) (t : Z) : QuicFlowController :=
  MkFlow (id_ c) (bytes_sent_ c) (send_window_offset_ c) (bytes_consumed_ c) (highest_received_byte_offset_ c)
    (receive_window_offset_ c) (receive_window_size_ c) (receive_window_size_limit_ c) (auto_tune_receive_window_ c)
    (session_flow_controller_ c) (last_blocked_send_window_offset_ c) t.

(** ** What a controller calls *)

Class FlowConnection (W : Type) := {
  fc_ApproximateNow : W -> Z;
  fc_smoothed_rtt : W -> Z;
  fc_SendWindowUpdate : Z -> Z -> W -> W;
  fc_SendBlocked : Z -> W -> W;
  fc_CloseConnection : Z -> W -> W }.
Class QuicFlowControllerInterface (W : Type) := { fc_EnsureWindowAtLeast : Z -> W -> W }.

Definition QuicFlowController_new (id send_window_offset receive_window_offset : Z)
    (should_auto_tune_receive_window session_flow_controller : bool) : QuicFlowController :=
  MkFlow id 0 send_window_offset 0 0 receive_window_offset receive_window_offset
    (if id =? kConnectionLevelId then kSessionReceiveWindowLimit else kStreamReceiveWindowLimit)
    should_auto_tune_receive_window session_flow_controller 0 QuicTime_Zero.

(** ** Sending *)

Definition SendWindowSize (c : QuicFlowController) : Z :=
  if bytes_sent_ c >? send_window_offset_ c then 0 else send_window_offset_ c -64 bytes_sent_ c.
Definition IsBlocked (c : QuicFlowController) : bool := SendWindowSize c =? 0.

(** Whether the update unblocks the flow. *)
Definition UpdateSendWindowOffset (c : QuicFlowController) (new_send_window_offset : Z) : bool * QuicFlowController :=
  if new_send_window_offset <=? send_window_offset_ c then (false, c)
  else (IsBlocked c, with_sent c (bytes_sent_ c) new_send_window_offset (last_blocked_send_window_offset_ c)).

(** ** Receiving *)

Definition UpdateHighestReceivedOffset (c : QuicFlowController) (new_offset : Z) : bool * QuicFlowController :=
  if new_offset <=? highest_received_byte_offset_ c then (false, c)
  else (true, with_received c (bytes_consumed_ c) new_offset).
Definition FlowControlViolation (c : QuicFlowController) : bool := highest_received_byte_offset_ c >? receive_window_offset_ c.

Definition IncreaseWindowSize (c : QuicFlowController) : QuicFlowController :=
  let size := u64 (receive_window_size_ c * 2) in
  with_window c (receive_window_offset_ c) (Z.min size (receive_window_size_limit_ c)) (receive_window_size_limit_ c).
Definition WindowUpdateThreshold (c : QuicFlowController) : Z := receive_window_size_ c / 2.

Definition set_receive_window_size_limit (c : QuicFlowController) (limit : Z) : QuicFlowController :=
  with_window c (receive_window_offset_ c) (receive_window_size_ c) limit.
Definition UpdateReceiveWindowSize (c : QuicFlowController) (size : Z) : QuicFlowController :=
  if negb (receive_window_size_ c =? receive_window_offset_ c) then c
  else with_window c size size (receive_window_size_limit_ c).

Section Controller.
Context {W : Type} `{FlowConnection W}.

Definition AddBytesSent (c : QuicFlowController) (w : W) (bytes_sent : Z) : QuicFlowController * W :=
  if bytes_sent_ c +64 bytes_sent >? send_window_offset_ c then
    (with_sent c (send_window_offset_ c) (send_window_offset_ c) (last_blocked_send_window_offset_ c),
     fc_CloseConnection QUIC_FLOW_CONTROL_SENT_TOO_MUCH_DATA w)
  else (with_sent c (bytes_sent_ c +64 bytes_sent) (send_window_offset_ c) (last_blocked_send_window_offset_ c), w).

Definition MaybeSendBlocked (c : QuicFlowController) (w : W) : QuicFlowController * W :=
  if (SendWindowSize c =? 0) && (last_blocked_send_window_offset_ c <? send_window_offset_ c) then
    (with_sent c (bytes_sent_ c) (send_window_offset_ c) (send_window_offset_ c), fc_SendBlocked (id_ c) w)
  else (c, w).

Definition SendWindowUpdate (c : QuicFlowController) (w : W) : W := fc_SendWindowUpdate (id_ c) (receive_window_offset_ c) w.

Definition UpdateReceiveWindowOffsetAndSendWindowUpdate (c : QuicFlowController) (w : W) (available_window : Z)
    : QuicFlowController * W :=
  let c := with_window c (receive_window_offset_ c +64 (receive_window_size_ c -64 available_window))
             (receive_window_size_ c) (receive_window_size_limit_ c) in
  (c, SendWindowUpdate c w).

Definition EnsureWindowAtLeast (c : QuicFlowController) (w : W) (window_size : Z) : QuicFlowController * W :=
  if receive_window_size_limit_ c >=? window_size then (c, w)
  else
    let available_window := receive_window_offset_ c -64 bytes_consumed_ c in
    UpdateReceiveWindowOffsetAndSendWindowUpdate (IncreaseWindowSize c) w available_window.

Context `{QuicFlowControllerInterface W}.

Definition MaybeIncreaseMaxWindowSize (c : QuicFlowController) (w : W) : QuicFlowController * W :=
  let now := fc_ApproximateNow w in
  let prev := prev_window_update_time_ c in
  let c := with_update_time c now in
  if negb (QuicTime_IsInitialized prev) then (c, w)
  else if negb (auto_tune_receive_window_ c) then (c, w)
  else
    let rtt := fc_smoothed_rtt w in
    if Delta_IsZero rtt then (c, w)
    else
      let since_last := QuicTime_diff now prev in
      let two_rtt := Delta_mul_int rtt 2 in
      if Delta_geb since_last two_rtt then (c, w)
      else
        let old_window := receive_window_size_ c in
        let c := IncreaseWindowSize c in
        if (receive_window_size_ c >? old_window) && session_flow_controller_ c then
          (c, fc_EnsureWindowAtLeast
                (float_to_int (float_mul kSessionFlowControlMultiplier (float_of_int (receive_window_size_ c)))) w)
        else (c, w).

Definition MaybeSendWindowUpdate (c : QuicFlowController) (w : W) : QuicFlowController * W :=
  let available_window := receive_window_offset_ c -64 bytes_consumed_ c in
  let threshold := WindowUpdateThreshold c in
  let c := if negb (QuicTime_IsInitialized (prev_window_update_time_ c)) then with_update_time c (fc_ApproximateNow w) else c in
  if available_window >=? threshold then (c, w)
  else
    let '(c, w) := MaybeIncreaseMaxWindowSize c w in
    UpdateReceiveWindowOffsetAndSendWindowUpdate c w available_window.

Definition AddBytesConsumed (c : QuicFlowController) (w : W) (bytes_consumed : Z) : QuicFlowController * W :=
  MaybeSendWindowUpdate (with_received c (bytes_consumed_ c +64 bytes_consumed) (highest_received_byte_offset_ c)) w.
End Controller.

(** The session's controller beside the connection. *)
#[export] Instance session_connection {W} `{FlowConnection W} : FlowConnection (QuicFlowController * W) := {|
  fc_ApproximateNow w := fc_ApproximateNow (snd w);
  fc_smoothed_rtt w := fc_smoothed_rtt (snd w);
  fc_SendWindowUpdate id offset w := (fst w, fc_SendWindowUpdate id offset (snd w));
  fc_SendBlocked id w := (fst w, fc_SendBlocked id (snd w));
  fc_CloseConnection error w := (fst w, fc_CloseConnection error (snd w)) |}.
#[export] Instance session_interface {W} `{FlowConnection W} : QuicFlowControllerInterface (QuicFlowController * W) := {|
  fc_EnsureWindowAtLeast window_size w := EnsureWindowAtLeast (fst w) (snd w) window_size |}.

(** ** What the connection does with the calls *)

Class FlowConnectionLaws (W : Type) `{FlowConnection W} `{QuicFlowControllerInterface W} := {
  (** window updates handed to the network, and reasons for closing *)
  flow_updates : W -> list (Z * Z);
  flow_closed : W -> list Z;
  flow_env : W -> Prop;
  env_update i o w : flow_env w -> flow_env (fc_SendWindowUpdate i o w);
  env_ensure n w : flow_env w -> flow_env (fc_EnsureWindowAtLeast n w);
  updates_update i o w : flow_updates (fc_SendWindowUpdate i o w) = (i, o) :: flow_updates w;
  updates_ensure n w i o : flow_env w -> i <> kConnectionLevelId ->
    (i, o) ∈ flow_updates (fc_EnsureWindowAtLeast n w) <-> (i, o) ∈ flow_updates w;
  closed_blocked i w : flow_closed (fc_SendBlocked i w) = flow_closed w }.

(** The bounds that both window sizes and byte counts respect. *)
Definition kFlowLimit : Z := 2 ^ 62.

Record window_ok (c : QuicFlowController) : Prop := {
  wo_consumed : 0 <= bytes_consumed_ c <= highest_received_byte_offset_ c;
  wo_highest : highest_received_byte_offset_ c <= receive_window_offset_ c;
  wo_bound : highest_received_byte_offset_ c <= kFlowLimit;
  wo_size : 2 <= receive_window_size_ c <= receive_window_size_limit_ c;
  wo_limit : receive_window_size_limit_ c <= kFlowLimit;
  wo_low : receive_window_size_ c / 2 <= receive_window_offset_ c - bytes_consumed_ c;
  wo_high : receive_window_offset_ c - bytes_consumed_ c <= receive_window_size_ c }.

Ltac flow_arith := unfold is_u64, kFlowLimit in *; lia.

Lemma IncreaseWindowSize_size c : 2 <= receive_window_size_ c <= receive_window_size_limit_ c -> receive_window_size_limit_ c <= kFlowLimit ->
  receive_window_size_ c <= receive_window_size_ (IncreaseWindowSize c) <= receive_window_size_limit_ c.
Proof. intros H1 H2. unfold IncreaseWindowSize. cbn. rewrite u64_id by flow_arith. lia. Qed.

Section Windows.
Context {W : Type} `{FlowConnectionLaws W}.

(** What changes when a controller grants more. *)
Record granted (c c' : QuicFlowController) (w w' : W) : Prop := {
  g_id : id_ c' = id_ c;
  g_session : session_flow_controller_ c' = session_flow_controller_ c;
  g_consumed : bytes_consumed_ c' = bytes_consumed_ c;
  g_highest : highest_received_byte_offset_ c' = highest_received_byte_offset_ c;
  g_limit : receive_window_size_limit_ c' = receive_window_size_limit_ c;
  g_size : receive_window_size_ c <= receive_window_size_ c' <= receive_window_size_limit_ c;
  g_env : flow_env w';
  g_updates : forall o, (id_ c, o) ∈ flow_updates w' <-> (id_ c, o) ∈ flow_updates w }.

Lemma MaybeIncreaseMaxWindowSize_granted c w c' w' : id_ c <> kConnectionLevelId \/ session_flow_controller_ c = false ->
  flow_env w -> 2 <= receive_window_size_ c <= receive_window_size_limit_ c -> receive_window_size_limit_ c <= kFlowLimit ->
  MaybeIncreaseMaxWindowSize c w = (c', w') ->
  granted c c' w w' /\ receive_window_offset_ c' = receive_window_offset_ c.
Proof.
  intros Hid He Hs Hl E. pose proof (IncreaseWindowSize_size c Hs Hl) as Hi. revert E. unfold MaybeIncreaseMaxWindowSize.
  repeat case_match; cbn [auto_tune_receive_window_ with_update_time] in *; intros [= <- <-];
    try (split; [split; cbn; try done; lia|done]).
  match goal with Hc : _ && _ = true |- _ => apply andb_prop in Hc as [_ Hc]; cbn in Hc; rewrite Hc in Hid end.
  destruct Hid as [Hid|]; [|done]. split; [split; cbn; try done|done]; [by apply env_ensure|]. intros o. by apply updates_ensure.
Qed.

(** The window moves forward and the peer is told. *)
Record advances (c c' : QuicFlowController) (w w' : W) : Prop := {
  a_env : flow_env w';
  a_id : id_ c' = id_ c;
  a_session : session_flow_controller_ c' = session_flow_controller_ c;
  a_consumed : bytes_consumed_ c' = bytes_consumed_ c;
  a_highest : highest_received_byte_offset_ c' = highest_received_byte_offset_ c;
  a_limit : receive_window_size_limit_ c' = receive_window_size_limit_ c;
  a_offset : receive_window_offset_ c <= receive_window_offset_ c';
  a_old : forall o, (id_ c, o) ∈ flow_updates w -> (id_ c, o) ∈ flow_updates w';
  a_new : forall o, (id_ c, o) ∈ flow_updates w' -> o = receive_window_offset_ c' \/ (id_ c, o) ∈ flow_updates w;
  a_told : receive_window_offset_ c' = receive_window_offset_ c \/ (id_ c, receive_window_offset_ c') ∈ flow_updates w' }.

(** What holds between a change of the consumed count and the grant. *)
Record grantable (c : QuicFlowController) : Prop := {
  gr_consumed : 0 <= bytes_consumed_ c <= highest_received_byte_offset_ c;
  gr_highest : highest_received_byte_offset_ c <= receive_window_offset_ c;
  gr_bound : highest_received_byte_offset_ c <= kFlowLimit;
  gr_size : 2 <= receive_window_size_ c <= receive_window_size_limit_ c;
  gr_limit : receive_window_size_limit_ c <= kFlowLimit;
  gr_high : receive_window_offset_ c - bytes_consumed_ c <= receive_window_size_ c }.

Lemma grant_ok c w c' w' : grantable c -> granted c c' w w' -> receive_window_offset_ c' = receive_window_offset_ c ->
  forall d v, UpdateReceiveWindowOffsetAndSendWindowUpdate c' w' (receive_window_offset_ c - bytes_consumed_ c) = (d, v) ->
  window_ok d /\ advances c d w v.
Proof.
  intros [A1 A2 A3 A4 A5 A6] [G1 G0 G2 G3 G4 G5 G6 G7] Ho d v [= <- <-].
  set (d := with_window _ _ _ _). assert (receive_window_offset_ d = bytes_consumed_ c + receive_window_size_ c') as Hd.
  { unfold d. cbn. rewrite Ho, !u64_id by (rewrite ?u64_id; flow_arith). lia. }
  assert (receive_window_size_ d = receive_window_size_ c') as Hs by done.
  assert (bytes_consumed_ d = bytes_consumed_ c) as Hc by done.
  assert (highest_received_byte_offset_ d = highest_received_byte_offset_ c) as Hh by done.
  assert (receive_window_size_limit_ d = receive_window_size_limit_ c) as Hl by done.
  split.
  - pose proof (Z.div_le_upper_bound (receive_window_size_ c') 2 (receive_window_size_ c')).
    split; rewrite ?Hd, ?Hs, ?Hc, ?Hh, ?Hl; lia.
  - unfold SendWindowUpdate. change (id_ d) with (id_ c'). rewrite G1. split; try done; try lia.
    + by apply env_update.
    + intros o Hin. rewrite updates_update, elem_of_cons, G7. by right.
    + intros o. rewrite updates_update, elem_of_cons, G7. intros [[=]|?]; [by left|by right].
    + right. rewrite updates_update. by left.
Qed.

Definition session_safe (c : QuicFlowController) : Prop := id_ c <> kConnectionLevelId \/ session_flow_controller_ c = false.

Lemma AddBytesConsumed_ok c w n c' w' : session_safe c ->
  flow_env w -> window_ok c -> 0 <= n -> bytes_consumed_ c + n <= highest_received_byte_offset_ c ->
  AddBytesConsumed c w n = (c', w') ->
  window_ok c' /\ advances (with_received c (bytes_consumed_ c + n) (highest_received_byte_offset_ c)) c' w w'.
Proof.
  intros Hid He [B1 B2 B3 B4 B5 B6 B7] Hn Hle. unfold AddBytesConsumed, MaybeSendWindowUpdate.
  rewrite (u64_id (bytes_consumed_ c + n)) by flow_arith. set (c0 := with_received c _ _).
  set (c1 := if negb _ then with_update_time c0 _ else c0).
  assert (granted c0 c1 w w /\ granted c1 c0 w w /\ receive_window_offset_ c1 = receive_window_offset_ c0 /\ session_safe c1) as (G & _ & Ho & Hid1).
  { unfold c1. case_match; (split_and!; [split; cbn; try done; lia|split; cbn; try done; lia|done|done]). }
  assert (grantable c0) as Hg by (split; cbn; lia).
  change (receive_window_offset_ c0) with (receive_window_offset_ c). change (bytes_consumed_ c0) with (bytes_consumed_ c + n).
  rewrite u64_id by flow_arith. change (WindowUpdateThreshold c0) with (receive_window_size_ c / 2).
  destruct (Z.geb_spec (receive_window_offset_ c - (bytes_consumed_ c + n)) (receive_window_size_ c / 2)) as [Hge|Hlt].
  - intros [= <- <-]. destruct G as [G1 G0 G2 G3 G4 G5 G6 G7].
    assert (receive_window_size_ c1 = receive_window_size_ c) as Hs by (unfold c1; by case_match).
    split; [split|split]; rewrite ?G1, ?G2, ?G3, ?G4, ?Ho, ?Hs; try done; cbn; try lia; try (by left); by right.
  - destruct (MaybeIncreaseMaxWindowSize c1 w) as [c2 w2] eqn:E. intros E2.
    assert (receive_window_size_ c1 = receive_window_size_ c) as Hs by (unfold c1; by case_match).
    assert (receive_window_size_limit_ c1 = receive_window_size_limit_ c) as Hl by (unfold c1; by case_match).
    destruct (MaybeIncreaseMaxWindowSize_granted c1 w c2 w2) as [G2 Ho2]; [done|done|rewrite Hs, Hl; lia|by rewrite Hl|done|].
    apply (grant_ok c0 w c2 w2 Hg); [|congruence|done].
    destruct G as [X1 X0 X2 X3 X4 X5 X6 X7], G2 as [Y1 Y0 Y2 Y3 Y4 Y5 Y6 Y7].
    split; try congruence; try done; [lia|]. intros o. rewrite <- X1. rewrite Y7, X1. done.
Qed.

Lemma EnsureWindowAtLeast_ok c w n c' w' : flow_env w -> window_ok c -> EnsureWindowAtLeast c w n = (c', w') ->
  window_ok c' /\ advances c c' w w'.
Proof.
  intros He Hok. unfold EnsureWindowAtLeast. destruct (_ >=? n).
  { intros [= <- <-]. split; [done|]. split; try done; [by right|by left]. }
  destruct Hok as [B1 B2 B3 B4 B5 B6 B7]. rewrite u64_id by flow_arith. intros E.
  pose proof (IncreaseWindowSize_size c B4 B5). apply (grant_ok c w (IncreaseWindowSize c) w); [split; lia|by split|done|exact E].
Qed.
End Windows.

(** ** Two endpoints *)

(** One direction of a flow: the controller of the sending endpoint and that of the
    receiving one, each with its connection.  Anything handed to the network may
    arrive late, again, out of order or never. *)
Section Protocol.
Context {W : Type} `{FlowConnectionLaws W}.

Record flow := MkFlowState { sender : QuicFlowController; sender_conn : W; receiver : QuicFlowController; receiver_conn : W }.

Inductive flow_step : flow -> flow -> Prop :=
| step_send s v r w n s' v' : 0 < n <= SendWindowSize s -> bytes_sent_ s + n <= kFlowLimit -> AddBytesSent s v n = (s', v') ->
    flow_step (MkFlowState s v r w) (MkFlowState s' v' r w)
| step_blocked s v r w s' v' : MaybeSendBlocked s v = (s', v') -> flow_step (MkFlowState s v r w) (MkFlowState s' v' r w)
| step_data s v r w off r' b : 0 <= off <= bytes_sent_ s -> UpdateHighestReceivedOffset r off = (b, r') ->
    flow_step (MkFlowState s v r w) (MkFlowState s v r' w)
| step_consume s v r w n r' w' : 0 <= n -> bytes_consumed_ r + n <= highest_received_byte_offset_ r ->
    AddBytesConsumed r w n = (r', w') -> flow_step (MkFlowState s v r w) (MkFlowState s v r' w')
| step_update s v r w off b s' : (id_ r, off) ∈ flow_updates w -> UpdateSendWindowOffset s off = (b, s') ->
    flow_step (MkFlowState s v r w) (MkFlowState s' v r w)
| step_ensure s v r w n r' w' : EnsureWindowAtLeast r w n = (r', w') -> flow_step (MkFlowState s v r w) (MkFlowState s v r' w')
| step_environment s v r w w' : flow_env w' -> flow_updates w' = flow_updates w ->
    flow_step (MkFlowState s v r w) (MkFlowState s v r w').

(** The endpoints begin with an agreed window, which the sender may learn of by an
    update. *)
Record flow_start (f : flow) : Prop := {
  fs_new : exists id w0 w1 tune session, receiver f = QuicFlowController_new id w0 w1 tune session /\
    (id <> kConnectionLevelId \/ session = false) /\ 2 <= w1 <= receive_window_size_limit_ (receiver f) /\
    exists id' w2 w3 tune' session', sender f = QuicFlowController_new id' w2 w3 tune' session' /\
    0 <= w2 <= w1 /\ (w2 = w1 \/ (id, w1) ∈ flow_updates (receiver_conn f)) /\
    (forall o, (id, o) ∈ flow_updates (receiver_conn f) -> o <= w1);
  fs_env : flow_env (receiver_conn f);
  fs_open : flow_closed (sender_conn f) = [] }.

Record flow_ok (f : flow) : Prop := {
  fo_window : window_ok (receiver f);
  fo_session : session_safe (receiver f);
  fo_env : flow_env (receiver_conn f);
  fo_sent : 0 <= bytes_sent_ (sender f) <= send_window_offset_ (sender f);
  fo_sent_bound : bytes_sent_ (sender f) <= kFlowLimit;
  fo_highest : highest_received_byte_offset_ (receiver f) <= bytes_sent_ (sender f);
  fo_send : send_window_offset_ (sender f) <= receive_window_offset_ (receiver f);
  fo_told : send_window_offset_ (sender f) = receive_window_offset_ (receiver f) \/
            (id_ (receiver f), receive_window_offset_ (receiver f)) ∈ flow_updates (receiver_conn f);
  fo_updates : forall o, (id_ (receiver f), o) ∈ flow_updates (receiver_conn f) -> o <= receive_window_offset_ (receiver f);
  fo_open : flow_closed (sender_conn f) = [] }.

Lemma flow_start_ok f : flow_start f -> flow_ok f.
Proof.
  intros [(id & w0 & w1 & tune & session & Er & Hs & Hw & id' & w2 & w3 & tune' & session' & Es & Hw2 & Ht & Hu) He Ho].
  destruct f as [s v r w]; cbn in *; subst r s. cbn in *.
  assert (w1 <= kFlowLimit) as Hlim by (revert Hw; unfold kSessionReceiveWindowLimit, kStreamReceiveWindowLimit, kFlowLimit; destruct (id =? _); lia).
  assert (w1 / 2 <= w1) by (apply Z.div_le_upper_bound; lia).
  assert ((if id =? kConnectionLevelId then kSessionReceiveWindowLimit else kStreamReceiveWindowLimit) <= kFlowLimit)
    by (unfold kSessionReceiveWindowLimit, kStreamReceiveWindowLimit, kFlowLimit; destruct (id =? _); lia).
  split; cbn; try done; try lia; try flow_arith. split; cbn; try done; try lia; flow_arith.
Qed.

(** The receiver's side of a step that moves its window. *)
Lemma advances_ok s v r r' w w' rest : flow_ok (MkFlowState s v r w) -> window_ok r' ->
  advances (with_received r rest (highest_received_byte_offset_ r)) r' w w' -> flow_ok (MkFlowState s v r' w').
Proof.
  intros [F1 F2 F3 F4 F5 F6 F7 F8 F9 F10] Hw [A1 A2 A3 A4 A5 A6 A7 A8 A9 A10]. cbn in *.
  split; cbn; try done; try lia.
  - unfold session_safe in *. by rewrite A2, A3.
  - rewrite A2. destruct A10 as [E|?]; [|by right]. rewrite E. destruct F8 as [?|?]; [by left|right]. by apply A8.
  - intros o. rewrite A2. intros [->|Ho]%A9; [lia|]. apply F9 in Ho. lia.
Qed.

Lemma flow_step_ok f g : flow_step f g -> flow_ok f -> flow_ok g.
Proof.
  intros [s v r w n s' v' Hn Hl E|s v r w s' v' E|s v r w off r' b Ho E|s v r w n r' w' Hn Hle E|s v r w off b s' Hin E|
          s v r w n r' w' E|s v r w w' He Hu] Hok; pose proof Hok as [F1 F2 F3 F4 F5 F6 F7 F8 F9 F10]; cbn in *;
    pose proof F1 as [B1 B2 B3 B4 B5 B6 B7].
  - revert E. unfold AddBytesSent, SendWindowSize in *. destruct (Z.gtb_spec (bytes_sent_ s) (send_window_offset_ s)); [lia|].
    rewrite u64_id in Hn by flow_arith. rewrite u64_id by flow_arith. destruct (Z.gtb_spec (bytes_sent_ s + n) (send_window_offset_ s)); [lia|].
    intros [= <- <-]. split; cbn; try done; lia.
  - revert E. unfold MaybeSendBlocked. destruct (_ && _); intros [= <- <-]; split; cbn; try done. by rewrite closed_blocked.
  - revert E. unfold UpdateHighestReceivedOffset. destruct (Z.leb_spec off (highest_received_byte_offset_ r)); intros [= <- <-]; [done|].
    split; cbn; try done; try lia. split; cbn; try done; lia.
  - destruct (AddBytesConsumed_ok r w n r' w') as [Hw Ha]; [done|done|done|done|done|done|]. by eapply advances_ok.
  - revert E. unfold UpdateSendWindowOffset. destruct (Z.leb_spec off (send_window_offset_ s)); intros [= <- <-]; [done|].
    pose proof (F9 _ Hin). split; cbn; try done; try lia. destruct F8 as [?|?]; [lia|by right].
  - destruct (EnsureWindowAtLeast_ok r w n r' w') as [Hw Ha]; [done|done|done|].
    apply (advances_ok s v r r' w w' (bytes_consumed_ r) Hok Hw). by destruct r.
  - split; cbn; rewrite ?Hu; done.
Qed.

Lemma flow_reachable_ok f g : flow_start f -> rtc flow_step f g -> flow_ok g.
Proof. intros Hs Hr. apply flow_start_ok in Hs. induction Hr as [|f g h Hfg _ IH]; [done|]. by apply IH, (flow_step_ok f g). Qed.
End Protocol.

(** A connection that keeps what it is told to send, with the session's controller. *)
Record net := MkNet { net_now : Z; net_rtt : Z; net_updates : list (Z * Z); net_blocked : list Z; net_closed : list Z }.
#[export] Instance net_connection : FlowConnection net := {|
  fc_ApproximateNow := net_now;
  fc_smoothed_rtt := net_rtt;
  fc_SendWindowUpdate i o w := MkNet (net_now w) (net_rtt w) ((i, o) :: net_updates w) (net_blocked w) (net_closed w);
  fc_SendBlocked i w := MkNet (net_now w) (net_rtt w) (net_updates w) (i :: net_blocked w) (net_closed w);
  fc_CloseConnection e w := MkNet (net_now w) (net_rtt w) (net_updates w) (net_blocked w) (e :: net_closed w) |}.
#[export] Program Instance session_laws : FlowConnectionLaws (QuicFlowController * net) := {|
  flow_updates w := net_updates (snd w);
  flow_closed w := net_closed (snd w);
  flow_env w := id_ (fst w) = kConnectionLevelId |}.
Next Obligation. done. Qed.
Next Obligation. intros n [c w] Hid. cbn. unfold EnsureWindowAtLeast. by destruct (_ >=? _). Qed.
Next Obligation. done. Qed.
Next Obligation.
  intros n [c w] i o Hid Hi. cbn in *. unfold EnsureWindowAtLeast. destruct (_ >=? _); [done|]. cbn.
  rewrite elem_of_cons. split; [|by right]. intros [[=]|?]; [|done]. congruence.
Qed.
Next Obligation. done. Qed.

(** The session's window does not follow the streams' windows: the test compares
    the requested window with the limit, which is as large as the largest request a
    stream makes, so a session at its initial window stays there. *)
Lemma EnsureWindowAtLeast_no_growth :
  let request := float_to_int (float_mul kSessionFlowControlMultiplier (float_of_int kStreamReceiveWindowLimit)) in
  let session := QuicFlowController_new kConnectionLevelId 16384 16384 true false in
  let w := MkNet 1000 50 [] [] [] in
  receive_window_size_ session < request /\ EnsureWindowAtLeast session w request = (session, w).
Proof. vm_compute. done. Qed.

(** C26: Flow control keeps its promises whatever the network loses, repeats or
    reorders.  In every reachable state of a flow the receiver sees no violation and
    the sender never closes the connection for sending too much; what is received
    and not consumed fits the receive window, which stays within its limit; and the
    flow does not deadlock: when the sender is blocked and all it sent is consumed,
    an update has been sent whose arrival unblocks it with at least half a window. *)
Theorem flow_control_protocol {W : Type} `{FlowConnectionLaws W} (f g : flow) :
  flow_start f -> rtc flow_step f g ->
  FlowControlViolation (receiver g) = false /\ flow_closed (sender_conn g) = [] /\
  highest_received_byte_offset_ (receiver g) - bytes_consumed_ (receiver g) <= receive_window_size_ (receiver g) /\
  receive_window_size_ (receiver g) <= receive_window_size_limit_ (receiver g) /\
  (IsBlocked (sender g) = true -> bytes_consumed_ (receiver g) = bytes_sent_ (sender g) ->
   exists off s, (id_ (receiver g), off) ∈ flow_updates (receiver_conn g) /\ UpdateSendWindowOffset (sender g) off = (true, s) /\
     receive_window_size_ (receiver g) / 2 <= SendWindowSize s /\ IsBlocked s = false).
Proof.
  intros Hs Hr. destruct (flow_reachable_ok f g Hs Hr) as [[B1 B2 B3 B4 B5 B6 B7] F2 F3 F4 F5 F6 F7 F8 F9 F10].
  split_and!; [|done|lia|lia|].
  - unfold FlowControlViolation. destruct (Z.gtb_spec (highest_received_byte_offset_ (receiver g)) (receive_window_offset_ (receiver g))); [lia|done].
  - intros Hb Hc. pose proof Hb as Hz. unfold IsBlocked, SendWindowSize in Hz.
    destruct (Z.gtb_spec (bytes_sent_ (sender g)) (send_window_offset_ (sender g))); [lia|]. rewrite u64_id in Hz by flow_arith.
    apply Z.eqb_eq in Hz. assert (1 <= receive_window_size_ (receiver g) / 2) as Hhalf by (apply Z.div_le_lower_bound; lia).
    destruct F8 as [E|Hin]; [lia|]. exists (receive_window_offset_ (receiver g)). eexists. split; [done|].
    unfold UpdateSendWindowOffset. destruct (Z.leb_spec (receive_window_offset_ (receiver g)) (send_window_offset_ (sender g))); [lia|].
    rewrite Hb. split; [done|]. unfold IsBlocked, SendWindowSize. cbn.
    destruct (Z.gtb_spec (bytes_sent_ (sender g)) (receive_window_offset_ (receiver g))); [lia|]. rewrite u64_id by flow_arith.
    split; [lia|]. apply Z.eqb_neq. lia.
Qed.

(** A window of eight bytes is used up in a round trip, so it is doubled; the
    update that grants sixteen more unblocks the sender. *)
Lemma flow_control_protocol_witness :
  let session := QuicFlowController_new 0 100 100 true false in
  let w := (session, MkNet 1000 50 [] [] []) in
  let s := QuicFlowController_new 5 8 8 true true in
  exists g, rtc flow_step (MkFlowState s w s w) g /\ IsBlocked (sender g) = true /\
    receive_window_size_ (receiver g) = 16 /\ FlowControlViolation (receiver g) = false /\
    exists off s', (5, off) ∈ flow_updates (receiver_conn g) /\ UpdateSendWindowOffset (sender g) off = (true, s') /\ 8 <= SendWindowSize s'.
Proof.
  intros session w s. destruct (AddBytesSent s w 8) as [s1 w1] eqn:E1. destruct (UpdateHighestReceivedOffset s 8) as [b r1] eqn:E2.
  destruct (AddBytesConsumed r1 w 8) as [r2 w2] eqn:E3.
  assert (rtc flow_step (MkFlowState s w s w) (MkFlowState s1 w1 r2 w2)) as Hr.
  { eapply rtc_l; [apply (step_send s w s w 8); [|done|exact E1]; vm_compute; split; [done|discriminate]|]. injection E1 as <- <-.
    eapply rtc_l; [eapply step_data; [|exact E2]; vm_compute; split; discriminate|]. injection E2 as <- <-.
    eapply rtc_l; [eapply step_consume; [| |exact E3]; vm_compute; discriminate|]. apply rtc_refl. }
  assert (flow_start (MkFlowState s w s w)) as Hs.
  { split; [|done|done]. exists 5, 8, 8, true, true. split; [done|]. split; [by left|]. split; [vm_compute; split; discriminate|].
    exists 5, 8, 8, true, true. split; [done|]. split; [lia|]. split; [by left|]. intros o Ho. by apply elem_of_nil in Ho. }
  destruct (flow_control_protocol _ _ Hs Hr) as (H1 & _ & _ & _ & H2).
  injection E1 as <- <-. injection E2 as <- <-. vm_compute in E3. injection E3 as <- <-.
  exists (MkFlowState (with_sent s 8 8 0) w (MkFlow 5 0 8 8 8 24 16 16777216 true true 0 1000)
    (session, MkNet 1000 50 [(5, 24)] [] [])). 
  destruct H2 as (off & s' & Hin & Hu & Hw & _); [done|done|]. split_and!; try done. by exists off, s'.
Defined.
