(* ===== verification/QuicStream.v ===== *)
(** * A stream

    quic/core/quic_stream.cc: a stream joins its sequencer, its send buffer and its
    flow controller, and shares the connection's flow controller with the other
    streams.

    The session (with its connection and its other streams) is the interface
    [QuicSession]; methods of it that can call the stream back take the stream and
    return it.  The session's flow controller is part of the session's state.  The
    frames that flow controllers send are queued by the connection, which does not
    call back; a flow controller's request to close the connection is the last thing
    it does, so it is carried out after the controller's own update.  The methods a
    subclass must or may override ([OnDataAvailable], [OnCanWriteNewData],
    [OnDataBuffered]) belong to the interface too.  Acknowledgement listeners are
    identified by numbers. *)

From stdpp Require Import gmap.
From S2P Require Import Prelude QuicTime QuicData Framer FramerFacts SequencerBuffer StreamSequencer StreamSendBuffer FlowController.

Definition QUIC_STREAM_NO_ERROR : Z := 0.
Definition QUIC_STREAM_CONNECTION_ERROR : Z := 4.
Definition QUIC_RST_ACKNOWLEDGEMENT : Z := 7.
Definition QUIC_FLOW_CONTROL_RECEIVED_TOO_MUCH_DATA : Z := 59.

Record QuicConsumedData := MkConsumed { bytes_consumed : Z; fin_consumed : bool }.
Record QuicIOVector := MkIov { iov : list (list Z); total_length : Z }.
Variant StreamSendingState := NO_FIN | FIN | FIN_AND_PADDING.

Record PendingData := MkPending { pd_data : list Z; pd_offset : Z; pd_ack_listener : option Z }.

Record QuicStream := MkStream {
  queued_data_ : list PendingData;
  queued_data_bytes_ : Z;
  sequencer_ : QuicStreamSequencer;
  stream_id_ : Z;
  stream_bytes_read_ : Z;
  stream_bytes_written_ : Z;
  stream_bytes_outstanding_ : Z;
  stream_error_ : Z;
  connection_error_ : Z;
  read_side_closed_ : bool;
  write_side_closed_ : bool;
  fin_buffered_ : bool;
  fin_sent_ : bool;
  fin_outstanding_ : bool;
  fin_received_ : bool;
  rst_sent_ : bool;
  rst_received_ : bool;
  flow_controller_ : QuicFlowController;
  stream_contributes_to_connection_flow_control_ : bool;
  busy_counter_ : Z;
  add_random_padding_after_fin_ : bool;
  ack_listener_ : option Z;
  out_buffer_ : QuicStreamSendBuffer;
  buffered_data_threshold_ : Z }.

Definition set_queued_data (s : QuicStream) (x : list PendingData) : QuicStream :=
  MkStream
    x (queued_data_bytes_ s) (sequencer_ s) (stream_id_ s) (stream_bytes_read_ s) (stream_bytes_written_ s)
    (stream_bytes_outstanding_ s) (stream_error_ s) (connection_error_ s) (read_side_closed_ s)
    (write_side_closed_ s) (fin_buffered_ s) (fin_sent_ s) (fin_outstanding_ s) (fin_received_ s) (rst_sent_ s)
    (rst_received_ s) (flow_controller_ s) (stream_contributes_to_connection_flow_control_ s) (busy_counter_ s)
    (add_random_padding_after_fin_ s) (ack_listener_ s) (out_buffer_ s) (buffered_data_threshold_ s).
Definition set_queued_data_bytes (s : QuicStream) (x : Z) : QuicStream :=
  MkStream
    (queued_data_ s) x (sequencer_ s) (stream_id_ s) (stream_bytes_read_ s) (stream_bytes_written_ s)
    (stream_bytes_outstanding_ s) (stream_error_ s) (connection_error_ s) (read_side_closed_ s)
    (write_side_closed_ s) (fin_buffered_ s) (fin_sent_ s) (fin_outstanding_ s) (fin_received_ s) (rst_sent_ s)
    (rst_received_ s) (flow_controller_ s) (stream_contributes_to_connection_flow_control_ s) (busy_counter_ s)
    (add_random_padding_after_fin_ s) (ack_listener_ s) (out_buffer_ s) (buffered_data_threshold_ s).
Definition set_sequencer (s : QuicStream) (x : QuicStreamSequencer) : QuicStream :=
  MkStream
    (queued_data_ s) (queued_data_bytes_ s) x (stream_id_ s) (stream_bytes_read_ s) (stream_bytes_written_ s)
    (stream_bytes_outstanding_ s) (stream_error_ s) (connection_error_ s) (read_side_closed_ s)
    (write_side_closed_ s) (fin_buffered_ s) (fin_sent_ s) (fin_outstanding_ s) (fin_received_ s) (rst_sent_ s)
    (rst_received_ s) (flow_controller_ s) (stream_contributes_to_connection_flow_control_ s) (busy_counter_ s)
    (add_random_padding_after_fin_ s) (ack_listener_ s) (out_buffer_ s) (buffered_data_threshold_ s).
Definition set_stream_bytes_read (s : QuicStream) (x : Z) : QuicStream :=
  MkStream
    (queued_data_ s) (queued_data_bytes_ s) (sequencer_ s) (stream_id_ s) x (stream_bytes_written_ s)
    (stream_bytes_outstanding_ s) (stream_error_ s) (connection_error_ s) (read_side_closed_ s)
    (write_side_closed_ s) (fin_buffered_ s) (fin_sent_ s) (fin_outstanding_ s) (fin_received_ s) (rst_sent_ s)
    (rst_received_ s) (flow_controller_ s) (stream_contributes_to_connection_flow_control_ s) (busy_counter_ s)
    (add_random_padding_after_fin_ s) (ack_listener_ s) (out_buffer_ s) (buffered_data_threshold_ s).
Definition set_stream_bytes_written (s : QuicStream) (x : Z) : QuicStream :=
  MkStream
    (queued_data_ s) (queued_data_bytes_ s) (sequencer_ s) (stream_id_ s) (stream_bytes_read_ s) x
    (stream_bytes_outstanding_ s) (stream_error_ s) (connection_error_ s) (read_side_closed_ s)
    (write_side_closed_ s) (fin_buffered_ s) (fin_sent_ s) (fin_outstanding_ s) (fin_received_ s) (rst_sent_ s)
    (rst_received_ s) (flow_controller_ s) (stream_contributes_to_connection_flow_control_ s) (busy_counter_ s)
    (add_random_padding_after_fin_ s) (ack_listener_ s) (out_buffer_ s) (buffered_data_threshold_ s).
Definition set_stream_bytes_outstanding (s : QuicStream) (x : Z) : QuicStream :=
  MkStream
    (queued_data_ s) (queued_data_bytes_ s) (sequencer_ s) (stream_id_ s) (stream_bytes_read_ s)
    (stream_bytes_written_ s) x (stream_error_ s) (connection_error_ s) (read_side_closed_ s)
    (write_side_closed_ s) (fin_buffered_ s) (fin_sent_ s) (fin_outstanding_ s) (fin_received_ s) (rst_sent_ s)
    (rst_received_ s) (flow_controller_ s) (stream_contributes_to_connection_flow_control_ s) (busy_counter_ s)
    (add_random_padding_after_fin_ s) (ack_listener_ s) (out_buffer_ s) (buffered_data_threshold_ s).
Definition set_stream_error (s : QuicStream) (x : Z) : QuicStream :=
  MkStream
    (queued_data_ s) (queued_data_bytes_ s) (sequencer_ s) (stream_id_ s) (stream_bytes_read_ s)
    (stream_bytes_written_ s) (stream_bytes_outstanding_ s) x (connection_error_ s) (read_side_closed_ s)
    (write_side_closed_ s) (fin_buffered_ s) (fin_sent_ s) (fin_outstanding_ s) (fin_received_ s) (rst_sent_ s)
    (rst_received_ s) (flow_controller_ s) (stream_contributes_to_connection_flow_control_ s) (busy_counter_ s)
    (add_random_padding_after_fin_ s) (ack_listener_ s) (out_buffer_ s) (buffered_data_threshold_ s).
Definition set_connection_error (s : QuicStream) (x : Z) : QuicStream :=
  MkStream
    (queued_data_ s) (queued_data_bytes_ s) (sequencer_ s) (stream_id_ s) (stream_bytes_read_ s)
    (stream_bytes_written_ s) (stream_bytes_outstanding_ s) (stream_error_ s) x (read_side_closed_ s)
    (write_side_closed_ s) (fin_buffered_ s) (fin_sent_ s) (fin_outstanding_ s) (fin_received_ s) (rst_sent_ s)
    (rst_received_ s) (flow_controller_ s) (stream_contributes_to_connection_flow_control_ s) (busy_counter_ s)
    (add_random_padding_after_fin_ s) (ack_listener_ s) (out_buffer_ s) (buffered_data_threshold_ s).
Definition set_read_side_closed (s : QuicStream) (x : bool) : QuicStream :=
  MkStream
    (queued_data_ s) (queued_data_bytes_ s) (sequencer_ s) (stream_id_ s) (stream_bytes_read_ s)
    (stream_bytes_written_ s) (stream_bytes_outstanding_ s) (stream_error_ s) (connection_error_ s) x
    (write_side_closed_ s) (fin_buffered_ s) (fin_sent_ s) (fin_outstanding_ s) (fin_received_ s) (rst_sent_ s)
    (rst_received_ s) (flow_controller_ s) (stream_contributes_to_connection_flow_control_ s) (busy_counter_ s)
    (add_random_padding_after_fin_ s) (ack_listener_ s) (out_buffer_ s) (buffered_data_threshold_ s).
Definition set_write_side_closed (s : QuicStream) (x : bool) : QuicStream :=
  MkStream
    (queued_data_ s) (queued_data_bytes_ s) (sequencer_ s) (stream_id_ s) (stream_bytes_read_ s)
    (stream_bytes_written_ s) (stream_bytes_outstanding_ s) (stream_error_ s) (connection_error_ s)
    (read_side_closed_ s) x (fin_buffered_ s) (fin_sent_ s) (fin_outstanding_ s) (fin_received_ s) (rst_sent_ s)
    (rst_received_ s) (flow_controller_ s) (stream_contributes_to_connection_flow_control_ s) (busy_counter_ s)
    (add_random_padding_after_fin_ s) (ack_listener_ s) (out_buffer_ s) (buffered_data_threshold_ s).
Definition set_fin_buffered (s : QuicStream) (x : bool) : QuicStream :=
  MkStream
    (queued_data_ s) (queued_data_bytes_ s) (sequencer_ s) (stream_id_ s) (stream_bytes_read_ s)
    (stream_bytes_written_ s) (stream_bytes_outstanding_ s) (stream_error_ s) (connection_error_ s)
    (read_side_closed_ s) (write_side_closed_ s) x (fin_sent_ s) (fin_outstanding_ s) (fin_received_ s)
    (rst_sent_ s) (rst_received_ s) (flow_controller_ s) (stream_contributes_to_connection_flow_control_ s)
    (busy_counter_ s) (add_random_padding_after_fin_ s) (ack_listener_ s) (out_buffer_ s)
    (buffered_data_threshold_ s).
Definition set_fin_sent (s : QuicStream) (x : bool) : QuicStream :=
  MkStream
    (queued_data_ s) (queued_data_bytes_ s) (sequencer_ s) (stream_id_ s) (stream_bytes_read_ s)
    (stream_bytes_written_ s) (stream_bytes_outstanding_ s) (stream_error_ s) (connection_error_ s)
    (read_side_closed_ s) (write_side_closed_ s) (fin_buffered_ s) x (fin_outstanding_ s) (fin_received_ s)
    (rst_sent_ s) (rst_received_ s) (flow_controller_ s) (stream_contributes_to_connection_flow_control_ s)
    (busy_counter_ s) (add_random_padding_after_fin_ s) (ack_listener_ s) (out_buffer_ s)
    (buffered_data_threshold_ s).
Definition set_fin_outstanding (s : QuicStream) (x : bool) : QuicStream :=
  MkStream
    (queued_data_ s) (queued_data_bytes_ s) (sequencer_ s) (stream_id_ s) (stream_bytes_read_ s)
    (stream_bytes_written_ s) (stream_bytes_outstanding_ s) (stream_error_ s) (connection_error_ s)
    (read_side_closed_ s) (write_side_closed_ s) (fin_buffered_ s) (fin_sent_ s) x (fin_received_ s) (rst_sent_
    s) (rst_received_ s) (flow_controller_ s) (stream_contributes_to_connection_flow_control_ s) (busy_counter_
    s) (add_random_padding_after_fin_ s) (ack_listener_ s) (out_buffer_ s) (buffered_data_threshold_ s).
Definition set_fin_received (s : QuicStream) (x : bool) : QuicStream :=
  MkStream
    (queued_data_ s) (queued_data_bytes_ s) (sequencer_ s) (stream_id_ s) (stream_bytes_read_ s)
    (stream_bytes_written_ s) (stream_bytes_outstanding_ s) (stream_error_ s) (connection_error_ s)
    (read_side_closed_ s) (write_side_closed_ s) (fin_buffered_ s) (fin_sent_ s) (fin_outstanding_ s) x
    (rst_sent_ s) (rst_received_ s) (flow_controller_ s) (stream_contributes_to_connection_flow_control_ s)
    (busy_counter_ s) (add_random_padding_after_fin_ s) (ack_listener_ s) (out_buffer_ s)
    (buffered_data_threshold_ s).
Definition set_rst_sent (s : QuicStream) (x : bool) : QuicStream :=
  MkStream
    (queued_data_ s) (queued_data_bytes_ s) (sequencer_ s) (stream_id_ s) (stream_bytes_read_ s)
    (stream_bytes_written_ s) (stream_bytes_outstanding_ s) (stream_error_ s) (connection_error_ s)
    (read_side_closed_ s) (write_side_closed_ s) (fin_buffered_ s) (fin_sent_ s) (fin_outstanding_ s)
    (fin_received_ s) x (rst_received_ s) (flow_controller_ s) (stream_contributes_to_connection_flow_control_
    s) (busy_counter_ s) (add_random_padding_after_fin_ s) (ack_listener_ s) (out_buffer_ s)
    (buffered_data_threshold_ s).
Definition set_rst_received (s : QuicStream) (x : bool) : QuicStream :=
  MkStream
    (queued_data_ s) (queued_data_bytes_ s) (sequencer_ s) (stream_id_ s) (stream_bytes_read_ s)
    (stream_bytes_written_ s) (stream_bytes_outstanding_ s) (stream_error_ s) (connection_error_ s)
    (read_side_closed_ s) (write_side_closed_ s) (fin_buffered_ s) (fin_sent_ s) (fin_outstanding_ s)
    (fin_received_ s) (rst_sent_ s) x (flow_controller_ s) (stream_contributes_to_connection_flow_control_ s)
    (busy_counter_ s) (add_random_padding_after_fin_ s) (ack_listener_ s) (out_buffer_ s)
    (buffered_data_threshold_ s).
Definition set_flow_controller (s : QuicStream) (x : QuicFlowController) : QuicStream :=
  MkStream
    (queued_data_ s) (queued_data_bytes_ s) (sequencer_ s) (stream_id_ s) (stream_bytes_read_ s)
    (stream_bytes_written_ s) (stream_bytes_outstanding_ s) (stream_error_ s) (connection_error_ s)
    (read_side_closed_ s) (write_side_closed_ s) (fin_buffered_ s) (fin_sent_ s) (fin_outstanding_ s)
    (fin_received_ s) (rst_sent_ s) (rst_received_ s) x (stream_contributes_to_connection_flow_control_ s)
    (busy_counter_ s) (add_random_padding_after_fin_ s) (ack_listener_ s) (out_buffer_ s)
    (buffered_data_threshold_ s).
Definition set_stream_contributes_to_connection_flow_control (s : QuicStream) (x : bool) : QuicStream :=
  MkStream
    (queued_data_ s) (queued_data_bytes_ s) (sequencer_ s) (stream_id_ s) (stream_bytes_read_ s)
    (stream_bytes_written_ s) (stream_bytes_outstanding_ s) (stream_error_ s) (connection_error_ s)
    (read_side_closed_ s) (write_side_closed_ s) (fin_buffered_ s) (fin_sent_ s) (fin_outstanding_ s)
    (fin_received_ s) (rst_sent_ s) (rst_received_ s) (flow_controller_ s) x (busy_counter_ s)
    (add_random_padding_after_fin_ s) (ack_listener_ s) (out_buffer_ s) (buffered_data_threshold_ s).
Definition set_busy_counter (s : QuicStream) (x : Z) : QuicStream :=
  MkStream
    (queued_data_ s) (queued_data_bytes_ s) (sequencer_ s) (stream_id_ s) (stream_bytes_read_ s)
    (stream_bytes_written_ s) (stream_bytes_outstanding_ s) (stream_error_ s) (connection_error_ s)
    (read_side_closed_ s) (write_side_closed_ s) (fin_buffered_ s) (fin_sent_ s) (fin_outstanding_ s)
    (fin_received_ s) (rst_sent_ s) (rst_received_ s) (flow_controller_ s)
    (stream_contributes_to_connection_flow_control_ s) x (add_random_padding_after_fin_ s) (ack_listener_ s)
    (out_buffer_ s) (buffered_data_threshold_ s).
Definition set_add_random_padding_after_fin (s : QuicStream) (x : bool) : QuicStream :=
  MkStream
    (queued_data_ s) (queued_data_bytes_ s) (sequencer_ s) (stream_id_ s) (stream_bytes_read_ s)
    (stream_bytes_written_ s) (stream_bytes_outstanding_ s) (stream_error_ s) (connection_error_ s)
    (read_side_closed_ s) (write_side_closed_ s) (fin_buffered_ s) (fin_sent_ s) (fin_outstanding_ s)
    (fin_received_ s) (rst_sent_ s) (rst_received_ s) (flow_controller_ s)
    (stream_contributes_to_connection_flow_control_ s) (busy_counter_ s) x (ack_listener_ s) (out_buffer_ s)
    (buffered_data_threshold_ s).
Definition set_ack_listener (s : QuicStream) (x : option Z) : QuicStream :=
  MkStream
    (queued_data_ s) (queued_data_bytes_ s) (sequencer_ s) (stream_id_ s) (stream_bytes_read_ s)
    (stream_bytes_written_ s) (stream_bytes_outstanding_ s) (stream_error_ s) (connection_error_ s)
    (read_side_closed_ s) (write_side_closed_ s) (fin_buffered_ s) (fin_sent_ s) (fin_outstanding_ s)
    (fin_received_ s) (rst_sent_ s) (rst_received_ s) (flow_controller_ s)
    (stream_contributes_to_connection_flow_control_ s) (busy_counter_ s) (add_random_padding_after_fin_ s) x
    (out_buffer_ s) (buffered_data_threshold_ s).
Definition set_out_buffer (s : QuicStream) (x : QuicStreamSendBuffer) : QuicStream :=
  MkStream
    (queued_data_ s) (queued_data_bytes_ s) (sequencer_ s) (stream_id_ s) (stream_bytes_read_ s)
    (stream_bytes_written_ s) (stream_bytes_outstanding_ s) (stream_error_ s) (connection_error_ s)
    (read_side_closed_ s) (write_side_closed_ s) (fin_buffered_ s) (fin_sent_ s) (fin_outstanding_ s)
    (fin_received_ s) (rst_sent_ s) (rst_received_ s) (flow_controller_ s)
    (stream_contributes_to_connection_flow_control_ s) (busy_counter_ s) (add_random_padding_after_fin_ s)
    (ack_listener_ s) x (buffered_data_threshold_ s).

(** ** The session *)

Class QuicSession (W : Type) := {
  session_conn :: FlowConnection W;
  save_data_before_consumption : bool;
  connection_flow_controller : W -> QuicFlowController;
  set_connection_flow_controller : W -> QuicFlowController -> W;
  session_ShouldYield : Z -> W -> bool;
  session_MarkConnectionLevelWriteBlocked : Z -> W -> W;
  session_StreamDraining : Z -> W -> W;
  session_OnStreamDoneWaitingForAcks : Z -> W -> W;
  listener_OnPacketAcked : Z -> Z -> Z -> W -> W;
  listener_OnPacketRetransmitted : Z -> Z -> W -> W;
  session_CloseStream : QuicStream -> W -> option (QuicStream * W);
  session_SendRstStream : QuicStream -> W -> Z -> Z -> option (QuicStream * W);
  session_CloseConnection : QuicStream -> W -> Z -> option (QuicStream * W);
  session_WritevData : QuicStream -> W -> QuicIOVector -> Z -> StreamSendingState -> option Z -> option (QuicConsumedData * QuicStream * W);
  subclass_OnDataAvailable : QuicStream -> W -> option (QuicStream * W);
  subclass_OnCanWriteNewData : QuicStream -> W -> option (QuicStream * W);
  subclass_OnDataBuffered : QuicStream -> W -> Z -> Z -> option Z -> option (QuicStream * W) }.

(** The session's controller, for the streams' controllers. *)
#[export] Instance session_controller {W} `{QuicSession W} : QuicFlowControllerInterface W := {|
  fc_EnsureWindowAtLeast window_size w :=
    let '(c, w) := EnsureWindowAtLeast (connection_flow_controller w) w window_size in set_connection_flow_controller w c |}.
(** The connection with the error it was asked to close with. *)
#[export] Instance closing_connection {W} `{FlowConnection W} : FlowConnection (W * option Z) := {|
  fc_ApproximateNow w := fc_ApproximateNow (fst w);
  fc_smoothed_rtt w := fc_smoothed_rtt (fst w);
  fc_SendWindowUpdate id offset w := (fc_SendWindowUpdate id offset (fst w), snd w);
  fc_SendBlocked id w := (fc_SendBlocked id (fst w), snd w);
  fc_CloseConnection error w := (fst w, Some error) |}.

Section Stream.
Context {W : Type} `{QuicSession W}.
(** The allocator's memory and the slice size of the send buffer. *)
Context (uninitialised : nat -> list Z) (max_data_slice_size : nat).

Definition QuicStream_new (id : Z) (received_window window_to_send : Z) (buffered_data_threshold : Z) (w : W) : option QuicStream :=
  let* sequencer := QuicStreamSequencer_new in
  Some (MkStream [] 0 sequencer id 0 0 0 QUIC_STREAM_NO_ERROR QUIC_NO_ERROR false false false false false false false false
    (QuicFlowController_new id received_window window_to_send (auto_tune_receive_window_ (connection_flow_controller w)) true)
    true 0 false None SendBuffer_new buffered_data_threshold).

(** ** Closing *)

Definition qs_CloseReadSide (s : QuicStream) (w : W) : option (QuicStream * W) :=
  if read_side_closed_ s then Some (s, w) else
  let s := set_read_side_closed s true in
  let s := set_sequencer s (seq_ReleaseBuffer (sequencer_ s)) in
  if write_side_closed_ s then session_CloseStream s w else Some (s, w).

Definition qs_CloseWriteSide (s : QuicStream) (w : W) : option (QuicStream * W) :=
  if write_side_closed_ s then Some (s, w) else
  let s := set_write_side_closed s true in
  if read_side_closed_ s then session_CloseStream s w else Some (s, w).

Definition qs_CloseConnectionWithDetails (s : QuicStream) (w : W) (error : Z) : option (QuicStream * W) := session_CloseConnection s w error.

Definition qs_OnConnectionClosed (s : QuicStream) (w : W) (error : Z) : option (QuicStream * W) :=
  if read_side_closed_ s && write_side_closed_ s then Some (s, w) else
  let s := if negb (error =? QUIC_NO_ERROR) then set_connection_error (set_stream_error s QUIC_STREAM_CONNECTION_ERROR) error else s in
  let* (s, w) := qs_CloseWriteSide s w in qs_CloseReadSide s w.

Definition qs_OnFinRead (s : QuicStream) (w : W) : option (QuicStream * W) := qs_CloseReadSide (set_fin_received s true) w.

Definition qs_Reset (s : QuicStream) (w : W) (error : Z) : option (QuicStream * W) :=
  let s := set_stream_error s error in
  let* (s, w) := session_SendRstStream s w error (stream_bytes_written_ s) in
  Some (set_rst_sent s true, w).

(** ** Flow control *)

Definition close_if (closing : option Z) (s : QuicStream) (w : W) : option (QuicStream * W) :=
  match closing with Some error => session_CloseConnection s w error | None => Some (s, w) end.

Definition qs_AddBytesSent (s : QuicStream) (w : W) (bytes : Z) : option (QuicStream * W) :=
  let '(c, (w, closing)) := AddBytesSent (flow_controller_ s) (w, None) bytes in
  let* (s, w) := close_if closing (set_flow_controller s c) w in
  if stream_contributes_to_connection_flow_control_ s then
    let '(c, (w, closing)) := AddBytesSent (connection_flow_controller w) (w, None) bytes in
    close_if closing s (set_connection_flow_controller w c)
  else Some (s, w).

Definition qs_AddBytesConsumed (s : QuicStream) (w : W) (bytes : Z) : QuicStream * W :=
  let '(s, w) := (if negb (read_side_closed_ s) then
                    let '(c, w) := AddBytesConsumed (flow_controller_ s) w bytes in (set_flow_controller s c, w)
                  else (s, w)) in
  if stream_contributes_to_connection_flow_control_ s then
    let '(c, w) := AddBytesConsumed (connection_flow_controller w) w bytes in (s, set_connection_flow_controller w c)
  else (s, w).

Definition qs_MaybeIncreaseHighestReceivedOffset (s : QuicStream) (w : W) (new_offset : Z) : bool * QuicStream * W :=
  let increment := new_offset -64 highest_received_byte_offset_ (flow_controller_ s) in
  let '(increased, c) := UpdateHighestReceivedOffset (flow_controller_ s) new_offset in
  if negb increased then (false, s, w) else
  let s := set_flow_controller s c in
  (true, s,
   if stream_contributes_to_connection_flow_control_ s then
     let cc := connection_flow_controller w in
     set_connection_flow_controller w (snd (UpdateHighestReceivedOffset cc (highest_received_byte_offset_ cc +64 increment)))
   else w).

Definition qs_MaybeSendBlocked (s : QuicStream) (w : W) : QuicStream * W :=
  let '(c, w) := MaybeSendBlocked (flow_controller_ s) w in
  let s := set_flow_controller s c in
  if negb (stream_contributes_to_connection_flow_control_ s) then (s, w) else
  let '(cc, w) := MaybeSendBlocked (connection_flow_controller w) w in
  let w := set_connection_flow_controller w cc in
  (s, if IsBlocked cc && negb (IsBlocked (flow_controller_ s)) then session_MarkConnectionLevelWriteBlocked (stream_id_ s) w else w).

(** ** Receiving *)

#[export] Instance stream_errors : SequencerErrors (QuicStream * W) := {|
  stream_Reset e q v := let* (s, w) := qs_Reset (set_sequencer (fst v) q) (snd v) e in Some (sequencer_ s, (s, w));
  stream_CloseConnection e q v :=
    let* (s, w) := qs_CloseConnectionWithDetails (set_sequencer (fst v) q) (snd v) e in Some (sequencer_ s, (s, w));
  stream_AddBytesConsumed n q v := let '(s, w) := qs_AddBytesConsumed (set_sequencer (fst v) q) (snd v) n in Some (sequencer_ s, (s, w)) |}.
#[export] Instance stream_callbacks : SequencerStream (QuicStream * W) := {|
  stream_OnDataAvailable q v :=
    let* (s, w) := subclass_OnDataAvailable (set_sequencer (fst v) q) (snd v) in Some (sequencer_ s, (s, w));
  stream_OnFinRead q v := let* (s, w) := qs_OnFinRead (set_sequencer (fst v) q) (snd v) in Some (sequencer_ s, (s, w)) |}.

Definition qs_OnStreamFrame (s : QuicStream) (w : W) (frame : QuicStreamFrame) : option (QuicStream * W) :=
  let '(s, w) := (if sf_fin frame then
                    (set_fin_received s true, if fin_sent_ s then session_StreamDraining (stream_id_ s) w else w)
                  else (s, w)) in
  if read_side_closed_ s then Some (s, w) else
  let frame_payload_size := Z.of_nat (sf_data_length frame) in
  let s := set_stream_bytes_read s (stream_bytes_read_ s +64 frame_payload_size) in
  let '(increased, s, w) :=
    (if frame_payload_size >? 0 then qs_MaybeIncreaseHighestReceivedOffset s w (sf_offset frame +64 frame_payload_size)
     else (false, s, w)) in
  if increased && (FlowControlViolation (flow_controller_ s) || FlowControlViolation (connection_flow_controller w)) then
    qs_CloseConnectionWithDetails s w QUIC_FLOW_CONTROL_RECEIVED_TOO_MUCH_DATA
  else
    let* (q, (s, w)) := OnStreamFrame (fc_ApproximateNow w) (sequencer_ s) (s, w) frame in
    Some (set_sequencer s q, w).

Definition qs_OnStreamReset (s : QuicStream) (w : W) (error_code byte_offset : Z) : option (QuicStream * W) :=
  let s := set_rst_received s true in
  let '(_, s, w) := qs_MaybeIncreaseHighestReceivedOffset s w byte_offset in
  let s := set_stream_error s error_code in
  let* (s, w) := qs_CloseWriteSide s w in qs_CloseReadSide s w.

Definition qs_StopReading (s : QuicStream) (w : W) : option (QuicStream * W) :=
  let* (q, (s, w)) := seq_StopReading (sequencer_ s) (s, w) in Some (set_sequencer s q, w).

Definition qs_OnClose (s : QuicStream) (w : W) : option (QuicStream * W) :=
  let* (s, w) := qs_CloseReadSide s w in
  let* (s, w) := qs_CloseWriteSide s w in
  let* (s, w) := (if negb (fin_sent_ s) && negb (rst_sent_ s) then
                    let* (s, w) := session_SendRstStream s w QUIC_RST_ACKNOWLEDGEMENT (stream_bytes_written_ s) in
                    Some (set_rst_sent s true, w)
                  else Some (s, w)) in
  let bytes_to_consume := highest_received_byte_offset_ (flow_controller_ s) -64 bytes_consumed_ (flow_controller_ s) in
  Some (qs_AddBytesConsumed s w bytes_to_consume).

(** ** Sending *)

Definition qs_queued_data_bytes (s : QuicStream) : Z :=
  if save_data_before_consumption then StreamSendBuffer.stream_offset_ (out_buffer_ s) -64 stream_bytes_written_ s
  else queued_data_bytes_ s.
Definition qs_HasBufferedData (s : QuicStream) : bool :=
  if save_data_before_consumption then StreamSendBuffer.stream_offset_ (out_buffer_ s) >? stream_bytes_written_ s
  else match queued_data_ s with [] => false | _ => true end.
Definition qs_CanWriteNewData (s : QuicStream) : bool := qs_queued_data_bytes s <? buffered_data_threshold_ s.
Definition qs_IsWaitingForAcks (s : QuicStream) : bool := negb (stream_bytes_outstanding_ s =? 0) || fin_outstanding_ s.

Definition qs_WritevDataInner (s : QuicStream) (w : W) (v : QuicIOVector) (offset : Z) (fin : bool) (ack_listener : option Z)
    : option (QuicConsumedData * QuicStream * W) :=
  let state := if fin then (if add_random_padding_after_fin_ s then FIN_AND_PADDING else FIN) else NO_FIN in
  session_WritevData s w v offset state ack_listener.

(** What flow control permits. *)
Definition qs_send_window (s : QuicStream) (w : W) : Z :=
  if stream_contributes_to_connection_flow_control_ s
  then Z.min (SendWindowSize (flow_controller_ s)) (SendWindowSize (connection_flow_controller w))
  else SendWindowSize (flow_controller_ s).

(** What follows a write that left the stream open: [whole] says whether everything
    offered was consumed. *)
Definition qs_after_write (s : QuicStream) (w : W) (fin whole fin_with_zero_data : bool) (consumed : QuicConsumedData)
    : option (QuicStream * W) :=
  if whole then
    let '(s, w) := (if negb fin_with_zero_data then qs_MaybeSendBlocked s w else (s, w)) in
    if fin && fin_consumed consumed then
      let s := set_fin_outstanding (set_fin_sent s true) true in
      qs_CloseWriteSide s (if fin_received_ s then session_StreamDraining (stream_id_ s) w else w)
    else if fin && negb (fin_consumed consumed) then Some (s, session_MarkConnectionLevelWriteBlocked (stream_id_ s) w)
    else Some (s, w)
  else Some (s, session_MarkConnectionLevelWriteBlocked (stream_id_ s) w).

(** The common part of [WritevData] and [WriteBufferedData], after the checks:
    [write_length] bytes at most, with the fin if all of them go. *)
Definition qs_write (s : QuicStream) (w : W) (buffers : list (list Z)) (write_length : Z) (fin : bool) (ack_listener : option Z)
    : option (QuicConsumedData * QuicStream * W) :=
  let fin_with_zero_data := fin && (write_length =? 0) in
  let send_window := qs_send_window s w in
  if (send_window =? 0) && negb fin_with_zero_data then
    let '(s, w) := qs_MaybeSendBlocked s w in Some (MkConsumed 0 false, s, w)
  else
    let '(fin, write_length) := (if write_length >? send_window then (false, send_window) else (fin, write_length)) in
    let* (consumed, s, w) := qs_WritevDataInner s w (MkIov buffers write_length) (stream_bytes_written_ s) fin ack_listener in
    let s := set_stream_bytes_written s (stream_bytes_written_ s +64 bytes_consumed consumed) in
    let s := set_stream_bytes_outstanding s (stream_bytes_outstanding_ s +64 bytes_consumed consumed) in
    let* (s, w) := qs_AddBytesSent s w (bytes_consumed consumed) in
    if write_side_closed_ s then Some (consumed, s, w) else
    let* (s, w) := qs_after_write s w fin (bytes_consumed consumed =? write_length) fin_with_zero_data consumed in
    Some (consumed,
          if (bytes_consumed consumed >? 0) || fin_consumed consumed then set_busy_counter s 0 else s, w).

Definition qs_WriteBufferedData (s : QuicStream) (w : W) : option (QuicStream * W) :=
  if session_ShouldYield (stream_id_ s) w then Some (s, session_MarkConnectionLevelWriteBlocked (stream_id_ s) w) else
  let* (_, s, w) := qs_write s w [] (qs_queued_data_bytes s) (fin_buffered_ s) None in Some (s, w).

(** Save data in the send buffer and tell the subclass. *)
Definition qs_save (s : QuicStream) (w : W) (buffers : list (list Z)) (length : nat) (ack_listener : option Z) : option (QuicStream * W) :=
  let offset := StreamSendBuffer.stream_offset_ (out_buffer_ s) in
  let* b := SaveStreamData uninitialised max_data_slice_size (out_buffer_ s) buffers 0 length in
  subclass_OnDataBuffered (set_out_buffer s b) w offset (Z.of_nat length) ack_listener.

Definition qs_WritevData (s : QuicStream) (w : W) (buffers : list (list Z)) (fin : bool) (ack_listener : option Z)
    : option (QuicConsumedData * QuicStream * W) :=
  if write_side_closed_ s then Some (MkConsumed 0 false, s, w) else
  let write_length := length (concat buffers) in
  if save_data_before_consumption then
    if fin_buffered_ s then Some (MkConsumed 0 false, s, w) else
    let had_buffered_data := qs_HasBufferedData s in
    let* (n, s, w) :=
      (if qs_CanWriteNewData s then
         let* (s, w) := (if (0 <? write_length)%nat then qs_save s w buffers write_length ack_listener else Some (s, w)) in
         Some (Z.of_nat write_length, s, w)
       else Some (0, s, w)) in
    let consumed := MkConsumed n ((n =? Z.of_nat write_length) && fin) in
    let s := set_fin_buffered s (fin_consumed consumed) in
    let* (s, w) := (if negb had_buffered_data && (qs_HasBufferedData s || fin_buffered_ s) then qs_WriteBufferedData s w else Some (s, w)) in
    Some (consumed, s, w)
  else if session_ShouldYield (stream_id_ s) w then
    Some (MkConsumed 0 false, s, session_MarkConnectionLevelWriteBlocked (stream_id_ s) w)
  else qs_write s w buffers (Z.of_nat write_length) fin ack_listener.

Definition qs_WriteOrBufferData (s : QuicStream) (w : W) (data : list Z) (fin : bool) (ack_listener : option Z) : option (QuicStream * W) :=
  if (length data =? 0)%nat && negb fin then Some (s, w)
  else if fin_buffered_ s then Some (s, w)
  else if write_side_closed_ s then Some (s, w)
  else
    let s := set_fin_buffered s fin in
    if save_data_before_consumption then
      let had_buffered_data := qs_HasBufferedData s in
      let* (s, w) := (if (0 <? length data)%nat then qs_save s w [data] (length data) ack_listener else Some (s, w)) in
      if negb had_buffered_data && (qs_HasBufferedData s || fin_buffered_ s) then qs_WriteBufferedData s w else Some (s, w)
    else
      let* (consumed, s, w) :=
        (match queued_data_ s with [] => qs_WritevData s w [data] fin ack_listener | _ => Some (MkConsumed 0 false, s, w) end) in
      if (bytes_consumed consumed <? Z.of_nat (length data)) || (fin && negb (fin_consumed consumed)) then
        let remainder := drop (Z.to_nat (bytes_consumed consumed)) data in
        let s := set_queued_data_bytes s (queued_data_bytes_ s +64 Z.of_nat (length remainder)) in
        Some (set_queued_data s (queued_data_ s ++ [MkPending remainder 0 ack_listener]), w)
      else Some (s, w).

(** The loop over the queue; every round but the last pops the front. *)
Fixpoint qs_write_queued (fuel : nat) (s : QuicStream) (w : W) (fin : bool) : option (QuicStream * W) :=
  match queued_data_ s with
  | [] => Some (s, w)
  | pending :: _ =>
      match fuel with
      | O => None
      | S fuel =>
          let fin := if (length (queued_data_ s) =? 1)%nat && fin_buffered_ s then true else fin in
          let size := Z.of_nat (length (pd_data pending)) in
          if (pd_offset pending >? 0) && (pd_offset pending >=? size) then Some (s, w) else
          let remaining_len := size -64 pd_offset pending in
          let buffer := drop (Z.to_nat (pd_offset pending)) (pd_data pending) in
          let* (consumed, s, w) := qs_WritevData s w [buffer] fin (pd_ack_listener pending) in
          let s := set_queued_data_bytes s (queued_data_bytes_ s -64 bytes_consumed consumed) in
          if (bytes_consumed consumed =? remaining_len) && Bool.eqb fin (fin_consumed consumed) then
            qs_write_queued fuel (set_queued_data s (tail (queued_data_ s))) w fin
          else if bytes_consumed consumed >? 0 then
            Some (set_queued_data s (MkPending (pd_data pending) (pd_offset pending +64 bytes_consumed consumed) (pd_ack_listener pending) ::
                                     tail (queued_data_ s)), w)
          else Some (s, w)
      end
  end.

Definition qs_OnCanWrite (s : QuicStream) (w : W) : option (QuicStream * W) :=
  if save_data_before_consumption then
    if write_side_closed_ s then Some (s, w) else
    let* (s, w) := (if qs_HasBufferedData s || (fin_buffered_ s && negb (fin_sent_ s)) then qs_WriteBufferedData s w else Some (s, w)) in
    if negb (fin_buffered_ s) && negb (fin_sent_ s) && qs_CanWriteNewData s then subclass_OnCanWriteNewData s w else Some (s, w)
  else qs_write_queued (length (queued_data_ s)) s w false.

Definition qs_UpdateSendWindowOffset (s : QuicStream) (w : W) (new_window : Z) : option (QuicStream * W) :=
  let '(unblocked, c) := UpdateSendWindowOffset (flow_controller_ s) new_window in
  let s := set_flow_controller s c in
  if unblocked then qs_OnCanWrite s w else Some (s, w).
Definition qs_OnWindowUpdateFrame (s : QuicStream) (w : W) (byte_offset : Z) : option (QuicStream * W) :=
  qs_UpdateSendWindowOffset s w byte_offset.
Definition qs_AddRandomPaddingAfterFin (s : QuicStream) : QuicStream := set_add_random_padding_after_fin s true.

(** ** Acknowledgements *)

Definition qs_OnStreamFrameDiscarded (s : QuicStream) (w : W) (frame : QuicStreamFrame) : option (QuicStream * W) :=
  let data_length := Z.of_nat (sf_data_length frame) in
  if (stream_bytes_outstanding_ s <? data_length) || (negb (fin_outstanding_ s) && sf_fin frame) then
    qs_CloseConnectionWithDetails s w QUIC_INTERNAL_ERROR
  else
    let s := set_stream_bytes_outstanding s (stream_bytes_outstanding_ s -64 data_length) in
    let s := if sf_fin frame then set_fin_outstanding s false else s in
    let s := if save_data_before_consumption && (data_length >? 0)
             then set_out_buffer s (RemoveStreamFrame (out_buffer_ s) (sf_offset frame) data_length) else s in
    Some (s, if negb (qs_IsWaitingForAcks s) then session_OnStreamDoneWaitingForAcks (stream_id_ s) w else w).

Definition qs_OnStreamFrameAcked (s : QuicStream) (w : W) (frame : QuicStreamFrame) (ack_delay_time : Z) : option (QuicStream * W) :=
  let* (s, w) := qs_OnStreamFrameDiscarded s w frame in
  Some (s, match ack_listener_ s with
           | Some l => listener_OnPacketAcked l (Z.of_nat (sf_data_length frame)) ack_delay_time w
           | None => w
           end).
Definition qs_OnStreamFrameRetransmitted (s : QuicStream) (w : W) (frame : QuicStreamFrame) : W :=
  match ack_listener_ s with Some l => listener_OnPacketRetransmitted l (Z.of_nat (sf_data_length frame)) w | None => w end.
Definition qs_WriteStreamData (s : QuicStream) (offset data_length : Z) : Wr := WriteStreamData (out_buffer_ s) offset data_length.
End Stream.
