(* ===== verification/QuicStreamFacts.v ===== *)
(** * What a stream writes

    For any session that consumes a prefix of what a stream offers, the stream hands
    over the application's bytes once and in order, within both flow-control
    windows, keeps the rest, and sends the end of the stream after all of it. *)

From stdpp Require Import gmap.
From S2P Require Import Prelude QuicData Framer FramerFacts SequencerBuffer StreamSequencer StreamSendBuffer FlowController QuicStream.

(** ** The session's promises *)

Definition send_half (c : QuicFlowController) : Z * Z := (bytes_sent_ c, send_window_offset_ c).

(** What a call into the session leaves of the stream: it may close it, for reading
    or for writing. *)
Record keeps (s s' : QuicStream) : Prop := {
  k_queue : queued_data_ s' = queued_data_ s;
  k_queue_bytes : queued_data_bytes_ s' = queued_data_bytes_ s;
  k_id : stream_id_ s' = stream_id_ s;
  k_written : stream_bytes_written_ s' = stream_bytes_written_ s;
  k_outstanding : stream_bytes_outstanding_ s' = stream_bytes_outstanding_ s;
  k_fin_buffered : fin_buffered_ s' = fin_buffered_ s;
  k_fin_sent : fin_sent_ s' = fin_sent_ s;
  k_fin_outstanding : fin_outstanding_ s' = fin_outstanding_ s;
  k_contributes : stream_contributes_to_connection_flow_control_ s' = stream_contributes_to_connection_flow_control_ s;
  k_flow : send_half (flow_controller_ s') = send_half (flow_controller_ s);
  k_out : out_buffer_ s' = out_buffer_ s;
  k_closed : write_side_closed_ s = true -> write_side_closed_ s' = true }.

#[export] Instance keeps_preorder : PreOrder keeps.
Proof.
  split; [intros s; by split|]. intros s t u [] []. split; try congruence. auto.
Qed.

(** A piece of the stream that the session consumed. *)
Record piece := MkPiece { wp_offset : Z; wp_length : Z; wp_bytes : list Z; wp_fin : bool }.

Class QuicSessionLaws (W : Type) `{QuicSession W} := {
  (** what the session consumed of the stream, and why the stream closed the
      connection *)
  session_log : W -> list piece;
  session_errors : W -> list Z;
  quiet (w w' : W) := session_log w' = session_log w /\ session_errors w' = session_errors w /\
    send_half (connection_flow_controller w') = send_half (connection_flow_controller w);
  get_set w c : connection_flow_controller (set_connection_flow_controller w c) = c;
  log_set w c : session_log (set_connection_flow_controller w c) = session_log w;
  errors_set w c : session_errors (set_connection_flow_controller w c) = session_errors w;
  quiet_update i o w : quiet w (fc_SendWindowUpdate i o w);
  quiet_blocked i w : quiet w (fc_SendBlocked i w);
  quiet_mark i w : quiet w (session_MarkConnectionLevelWriteBlocked i w);
  quiet_draining i w : quiet w (session_StreamDraining i w);
  quiet_done i w : quiet w (session_OnStreamDoneWaitingForAcks i w);
  CloseStream_law s w : exists s' w', session_CloseStream s w = Some (s', w') /\ keeps s s' /\ quiet w w';
  OnDataBuffered_law s w o n l : exists s' w', subclass_OnDataBuffered s w o n l = Some (s', w') /\ keeps s s' /\
    write_side_closed_ s' = write_side_closed_ s /\ quiet w w';
  OnCanWriteNewData_law s w : exists s' w', subclass_OnCanWriteNewData s w = Some (s', w') /\ keeps s s' /\ quiet w w';
  (** a prefix is consumed; the fin is if all is consumed, unless there is nothing else *)
  WritevData_law s w v offset state l : 0 <= total_length v ->
    exists c s' w', session_WritevData s w v offset state l = Some (c, s', w') /\ keeps s s' /\
      0 <= bytes_consumed c <= total_length v /\
      (fin_consumed c = true -> state <> NO_FIN /\ bytes_consumed c = total_length v) /\
      (state <> NO_FIN -> 0 < total_length v -> bytes_consumed c = total_length v -> fin_consumed c = true) /\
      session_log w' = session_log w ++ [MkPiece offset (bytes_consumed c) (take (Z.to_nat (bytes_consumed c)) (concat (iov v))) (fin_consumed c)] /\
      session_errors w' = session_errors w /\
      send_half (connection_flow_controller w') = send_half (connection_flow_controller w) }.

Section Writing.
Context {W : Type} `{QuicSessionLaws W}.

#[local] Instance quiet_preorder : PreOrder (quiet (W := W)).
Proof. split; [intros w; by split_and!|]. intros w v u (?&?&?) (?&?&?). split_and!; congruence. Qed.

Lemma quiet_set w c : send_half c = send_half (connection_flow_controller w) -> quiet w (set_connection_flow_controller w c).
Proof. intros E. split_and!; [apply log_set|apply errors_set|by rewrite get_set]. Qed.

(** ** Windows *)

(** The stream's window, and the connection's when the stream counts for it. *)
Definition sendable (c : QuicFlowController) : Prop := 0 <= bytes_sent_ c <= send_window_offset_ c /\ send_window_offset_ c < 2 ^ 64.
Record windows_ok (s : QuicStream) (w : W) : Prop := {
  wi_written : bytes_sent_ (flow_controller_ s) = stream_bytes_written_ s;
  wi_stream : sendable (flow_controller_ s);
  wi_connection : stream_contributes_to_connection_flow_control_ s = true -> sendable (connection_flow_controller w);
  wi_outstanding : 0 <= stream_bytes_outstanding_ s <= stream_bytes_written_ s }.

Lemma sendable_half c c' : send_half c' = send_half c -> sendable c -> sendable c'.
Proof. unfold sendable. intros [= -> ->]. done. Qed.
Lemma SendWindowSize_sendable c : sendable c -> SendWindowSize c = send_window_offset_ c - bytes_sent_ c.
Proof. intros [? ?]. unfold SendWindowSize. destruct (Z.gtb_spec (bytes_sent_ c) (send_window_offset_ c)); [lia|]. apply u64_id. unfold is_u64. lia. Qed.

Lemma windows_keep s w s' w' : windows_ok s w -> keeps s s' -> quiet w w' -> windows_ok s' w'.
Proof.
  intros [H1 H2 H3 H4] K (_ & _ & Q). destruct K. pose proof k_flow0 as Hf. injection Hf as E1 E2. split.
  - congruence.
  - by eapply sendable_half.
  - rewrite k_contributes0. intros ?. eapply sendable_half; [done|auto].
  - by rewrite k_outstanding0, k_written0.
Qed.

Lemma MaybeSendBlocked_quiet s w s' w' : qs_MaybeSendBlocked s w = (s', w') -> keeps s s' /\ quiet w w'.
Proof.
  unfold qs_MaybeSendBlocked. destruct (MaybeSendBlocked (flow_controller_ s) w) as [c v] eqn:E1.
  assert (send_half c = send_half (flow_controller_ s) /\ quiet w v) as [Hc Hv].
  { revert E1. unfold MaybeSendBlocked. destruct (_ && _); intros [= <- <-]; split; try done; [apply quiet_blocked]. }
  assert (keeps s (set_flow_controller s c)) as Hk by (by split).
  change (stream_contributes_to_connection_flow_control_ (set_flow_controller s c)) with (stream_contributes_to_connection_flow_control_ s).
  destruct (negb _); [by intros [= <- <-]|].
  destruct (MaybeSendBlocked (connection_flow_controller v) v) as [cc u] eqn:E2.
  assert (quiet v (set_connection_flow_controller u cc)) as Hu.
  { revert E2. unfold MaybeSendBlocked. destruct (_ && _); intros [= <- <-].
    - etrans; [apply quiet_blocked|]. apply quiet_set. unfold send_half. cbn. symmetry.
      apply (quiet_blocked (id_ (connection_flow_controller v)) v).
    - by apply quiet_set. }
  intros [= <- <-]. split; [done|]. etrans; [done|]. etrans; [done|]. destruct (_ && _); [apply quiet_mark|done].
Qed.

Lemma AddBytesSent_within {V} `{FlowConnection V} c (v : V) n : sendable c -> 0 <= n <= SendWindowSize c ->
  AddBytesSent c v n = (with_sent c (bytes_sent_ c + n) (send_window_offset_ c) (last_blocked_send_window_offset_ c), v).
Proof.
  intros Hs Hn. rewrite SendWindowSize_sendable in Hn by done. destruct Hs as [? ?]. unfold AddBytesSent.
  rewrite u64_id by (unfold is_u64; lia). destruct (Z.gtb_spec (bytes_sent_ c + n) (send_window_offset_ c)); [lia|done].
Qed.

(** The stream after the accounting of [n] bytes. *)
Definition charged (s : QuicStream) (n : Z) : QuicStream :=
  set_flow_controller s (with_sent (flow_controller_ s) (bytes_sent_ (flow_controller_ s) + n) (send_window_offset_ (flow_controller_ s))
    (last_blocked_send_window_offset_ (flow_controller_ s))).

Lemma qs_AddBytesSent_within s w n : sendable (flow_controller_ s) ->
  (stream_contributes_to_connection_flow_control_ s = true -> sendable (connection_flow_controller w)) ->
  0 <= n <= qs_send_window s w -> exists w',
  qs_AddBytesSent s w n = Some (charged s n, w') /\ session_log w' = session_log w /\ session_errors w' = session_errors w /\
  (stream_contributes_to_connection_flow_control_ s = true -> sendable (connection_flow_controller w')).
Proof.
  intros Hs Hc Hn. unfold qs_send_window in Hn. unfold qs_AddBytesSent.
  rewrite AddBytesSent_within by (done || (destruct (stream_contributes_to_connection_flow_control_ s); lia)).
  fold (charged s n). cbn [close_if].
  change (stream_contributes_to_connection_flow_control_ (charged s n)) with (stream_contributes_to_connection_flow_control_ s).
  destruct (stream_contributes_to_connection_flow_control_ s); [|by exists w].
  rewrite AddBytesSent_within by (auto || lia). cbn [close_if]. eexists. split; [done|]. rewrite log_set, errors_set, get_set.
  split_and!; [done|done|]. intros _. specialize (Hc eq_refl). assert (n <= SendWindowSize (connection_flow_controller w)) as Hle by lia.
  rewrite SendWindowSize_sendable in Hle by done. unfold sendable in *. cbn. lia.
Qed.

(** ** One write *)

(** The fields that a write of [n] bytes changes and those that it keeps. *)
Record moved (n : Z) (s s' : QuicStream) : Prop := {
  m_queue : queued_data_ s' = queued_data_ s;
  m_queue_bytes : queued_data_bytes_ s' = queued_data_bytes_ s;
  m_id : stream_id_ s' = stream_id_ s;
  m_written : stream_bytes_written_ s' = stream_bytes_written_ s + n;
  m_outstanding : stream_bytes_outstanding_ s' = stream_bytes_outstanding_ s + n;
  m_fin_buffered : fin_buffered_ s' = fin_buffered_ s;
  m_out : out_buffer_ s' = out_buffer_ s;
  m_closed : write_side_closed_ s = true -> write_side_closed_ s' = true }.

Lemma keeps_moved s s' : keeps s s' -> moved 0 s s'.
Proof. intros []. split; try done; lia. Qed.
Lemma moved_keeps n s s' s'' : moved n s s' -> keeps s' s'' -> moved n s s''.
Proof. intros [] []. split; try congruence; auto. Qed.
Lemma keeps_then_moved n s s' s'' : keeps s s' -> moved n s' s'' -> moved n s s''.
Proof. intros [] []. split; try congruence; auto. Qed.

Lemma CloseWriteSide_spec s w : exists s' w', qs_CloseWriteSide s w = Some (s', w') /\ keeps s s' /\ quiet w w' /\ write_side_closed_ s' = true.
Proof.
  unfold qs_CloseWriteSide. destruct (write_side_closed_ s) eqn:E; [by exists s, w|].
  set (s1 := set_write_side_closed s true). assert (keeps s s1) as Hk by (by split).
  change (read_side_closed_ s1) with (read_side_closed_ s). destruct (read_side_closed_ s); [|by exists s1, w].
  destruct (CloseStream_law s1 w) as (s' & w' & -> & Hk' & Hq). exists s', w'. split_and!; [done|by etrans|done|]. by apply (k_closed _ _ Hk').
Qed.

(** The outcome of offering [len] bytes, [fin] with them. *)
Record offered (s s' : QuicStream) (w w' : W) (bytes : list Z) (len : Z) (fin : bool) (c : QuicConsumedData) : Prop := {
  o_windows : windows_ok s' w';
  o_moved : moved (bytes_consumed c) s s';
  o_bytes : 0 <= bytes_consumed c <= len;
  o_fin : fin_consumed c = true -> fin = true /\ bytes_consumed c = len /\ write_side_closed_ s' = true;
  o_all : fin = true -> 0 < len -> bytes_consumed c = len -> fin_consumed c = true;
  o_fin_sent : fin_sent_ s' = true -> fin_sent_ s = true \/ fin_consumed c = true;
  o_fin_kept : fin_sent_ s = true -> fin_sent_ s' = true;
  o_errors : session_errors w' = session_errors w;
  o_log : session_log w' = session_log w /\ bytes_consumed c = 0 /\ fin_consumed c = false \/
          session_log w' = session_log w ++
            [MkPiece (stream_bytes_written_ s) (bytes_consumed c) (take (Z.to_nat (bytes_consumed c)) bytes) (fin_consumed c)] }.

(** The last part of a write, after the accounting. *)
Lemma write_end s w fin whole c zero : windows_ok s w ->
  (fin_consumed c = true -> fin = true /\ whole = true) ->
  exists s' w', qs_after_write s w fin whole zero c = Some (s', w') /\
    windows_ok s' w' /\ moved 0 s s' /\ quiet w w' /\ (fin_consumed c = true -> write_side_closed_ s' = true) /\
    (fin_sent_ s' = true -> fin_sent_ s = true \/ fin_consumed c = true) /\ (fin_sent_ s = true -> fin_sent_ s' = true).
Proof.
  intros Hw Hfin. unfold qs_after_write. assert (forall v, quiet w v -> windows_ok s v) as Hwv by (intros v Hv; by apply (windows_keep s w)).
  destruct whole; [|eexists _, _; split; [done|]; split_and!; [apply Hwv, quiet_mark|by apply keeps_moved|apply quiet_mark|naive_solver|auto|auto]].
  assert (exists s1 w1, (if negb zero then qs_MaybeSendBlocked s w else (s, w)) = (s1, w1) /\ keeps s s1 /\ quiet w w1) as (s1 & w1 & -> & Hk & Hq).
  { destruct (negb zero); [|by eexists _, _]. destruct (qs_MaybeSendBlocked s w) as [s1 w1] eqn:E. exists s1, w1. split; [done|]. by apply MaybeSendBlocked_quiet. }
  assert (windows_ok s1 w1) as Hw1 by (by apply (windows_keep s w)).
  destruct (fin && fin_consumed c) eqn:Ef.
  - apply andb_prop in Ef as [-> Hc]. cbv zeta. set (s2 := set_fin_outstanding _ _). set (w2 := if fin_received_ s2 then _ else _).
    assert (quiet w1 w2) as Hq2 by (unfold w2; destruct (fin_received_ s2); [apply quiet_draining|done]).
    destruct (CloseWriteSide_spec s2 w2) as (s3 & w3 & -> & Hk3 & Hq3 & Hc3). exists s3, w3. split; [done|].
    assert (windows_ok s2 w2) as Hw2 by (apply (windows_keep s1 w1 s1 w2) in Hw1; [by destruct Hw1|done|done]).
    assert (moved 0 s s2) as Hm2 by (eapply keeps_then_moved; [done|]; split; try done; cbn; lia).
    split_and!; [by apply (windows_keep s2 w2)|by eapply moved_keeps|etrans; [done|]; by etrans|done|auto|].
    intros _. by rewrite (k_fin_sent _ _ Hk3).
  - assert (fin_consumed c = false) as Hc by (destruct fin, (fin_consumed c); naive_solver).
    assert (exists w2, (if fin && negb (fin_consumed c) then Some (s1, session_MarkConnectionLevelWriteBlocked (stream_id_ s1) w1) else Some (s1, w1)) =
      Some (s1, w2) /\ quiet w1 w2) as (w2 & -> & Hq2) by (destruct (fin && negb (fin_consumed c)); eexists; (split; [reflexivity|]); [apply quiet_mark|reflexivity]).
    exists s1, w2. split; [done|]. rewrite (k_fin_sent _ _ Hk), Hc.
    split_and!; [by apply (windows_keep s1 w1)|by apply keeps_moved|by etrans|done|auto|auto].
Qed.

Lemma qs_send_window_nonneg s w : windows_ok s w -> 0 <= qs_send_window s w <= SendWindowSize (flow_controller_ s).
Proof.
  intros [H1 H2 H3 _]. unfold qs_send_window. pose proof (SendWindowSize_sendable _ H2) as E. destruct H2 as [? ?].
  destruct (stream_contributes_to_connection_flow_control_ s); [|lia]. specialize (H3 eq_refl).
  pose proof (SendWindowSize_sendable _ H3). destruct H3. lia.
Qed.

Lemma qs_write_spec s w buffers len fin l : windows_ok s w -> 0 <= len ->
  exists c s' w', qs_write s w buffers len fin l = Some (c, s', w') /\ offered s s' w w' (concat buffers) len fin c.
Proof.
  intros Hw Hlen. unfold qs_write. set (zero := fin && (len =? 0)). pose proof (qs_send_window_nonneg s w Hw) as Hsw.
  set (window := qs_send_window s w) in *. cbv zeta. destruct ((window =? 0) && negb zero) eqn:Ez.
  { destruct (qs_MaybeSendBlocked s w) as [s' w'] eqn:E. apply MaybeSendBlocked_quiet in E as [Hk Hq]. eexists _, _, _. split; [done|].
    apply andb_prop in Ez as [_ Hz]. destruct Hq as (Hl & He & Hf) eqn:Eq. clear Eq.
    split; cbn; try done; [by apply (windows_keep s w)|by apply keeps_moved|intros ->; unfold zero in Hz; lia| | |by left];
      rewrite (k_fin_sent _ _ Hk); auto. }
  set (limited := if len >? window then (false, window) else (fin, len)).
  assert (exists fin' len', limited = (fin', len') /\ 0 <= len' <= window /\ len' <= len /\ (len' = len \/ fin' = false /\ len' < len) /\ (fin' = true -> fin = true) /\
    (len' = len -> fin' = fin)) as (fin' & len' & -> & Hb & Hle & Hlf & Hff & Heq).
  { unfold limited. destruct (Z.gtb_spec len window); eexists _, _; (split; [done|]); split_and!; try lia; auto; try done. }
  unfold qs_WritevDataInner. set (state := if fin' then _ else _).
  assert (state <> NO_FIN <-> fin' = true) as Hst by (unfold state; destruct fin', (add_random_padding_after_fin_ s); naive_solver).
  destruct (WritevData_law s w (MkIov buffers len') (stream_bytes_written_ s) state l) as (c & s1 & w1 & -> & Hk & Hc & Hfc & Hall & Hlog & Herr & Hhalf); [cbn; lia|].
  cbn [total_length iov] in *. set (n := bytes_consumed c) in *.
  assert (fin_consumed c = true -> fin = true /\ n = len) as Hfull.
  { intros [Hs Hn]%Hfc. apply Hst in Hs. destruct Hlf as [?|[? ?]]; [|congruence]. split; [auto|lia]. }
  assert (fin = true -> 0 < len -> n = len -> fin_consumed c = true) as Hall'.
  { intros -> Hpos Hn. destruct Hlf as [E|[_ ?]]; [|lia]. apply Hall; [apply Hst; rewrite Heq; done|lia|lia]. }
  destruct Hw as [Hw1 Hw2 Hw3 Hw4]. assert (sendable (flow_controller_ s1)) as Hs1 by (eapply sendable_half; [apply Hk|done]).
  assert (stream_contributes_to_connection_flow_control_ s1 = true -> sendable (connection_flow_controller w1)) as Hc1
    by (rewrite (k_contributes _ _ Hk); intros ?; eapply sendable_half; [done|auto]).
  pose proof (k_flow _ _ Hk) as [= Hb1 Ho1].
  assert (bytes_sent_ (flow_controller_ s) + n <= send_window_offset_ (flow_controller_ s)) as Hfit
    by (rewrite SendWindowSize_sendable in Hsw by done; lia).
  destruct Hw2 as [Hw2 Hw2'].
  set (s2 := set_stream_bytes_outstanding _ _).
  assert (stream_bytes_written_ s2 = stream_bytes_written_ s + n) as E2 by (cbn; rewrite (k_written _ _ Hk); apply u64_id; unfold is_u64; lia).
  assert (stream_bytes_outstanding_ s2 = stream_bytes_outstanding_ s + n) as E2' by (cbn; rewrite (k_outstanding _ _ Hk); apply u64_id; unfold is_u64; lia).
  destruct (qs_AddBytesSent_within s2 w1 n) as (w2 & -> & Hlog2 & Herr2 & Hsend2); [done|done| |].
  { split; [lia|]. replace (qs_send_window s2 w1) with window; [lia|]. unfold window, qs_send_window. change (flow_controller_ s2) with (flow_controller_ s1).
    change (stream_contributes_to_connection_flow_control_ s2) with (stream_contributes_to_connection_flow_control_ s1).
    rewrite (k_contributes _ _ Hk). injection Hhalf as Hh1 Hh2. unfold SendWindowSize. by rewrite Hb1, Ho1, Hh1, Hh2. }
  set (s3 := charged s2 n).
  assert (moved n s s3) as Hm by (split; try apply Hk; done).
  assert (windows_ok s3 w2) as Hw'.
  { split; [change (bytes_sent_ (flow_controller_ s1) + n = stream_bytes_written_ s2); lia| |done|change (0 <= stream_bytes_outstanding_ s2 <= stream_bytes_written_ s2); lia].
    unfold sendable. cbn. lia. }
  assert (fin_sent_ s3 = fin_sent_ s) as Hfs by apply Hk.
  destruct (write_side_closed_ s3) eqn:Ecl.
  - exists c, s3, w2. split; [done|]. split; try done; try lia.
    + intros [? ?]%Hfull. by split_and!.
    + rewrite Hfs. auto.
    + by rewrite Hfs.
    + congruence.
    + right. by rewrite Hlog2, Hlog.
  - destruct (write_end s3 w2 fin' (n =? len') c zero Hw') as (s4 & w4 & -> & Hw4' & Hm4 & (Hl4 & He4 & _) & Hc4 & Hf4 & Hf4').
    { intros [? ?]%Hfc. split; [by apply Hst|lia]. }
    exists c. eexists. exists w4. split; [done|]. set (s5 := if (n >? 0) || fin_consumed c then set_busy_counter s4 0 else s4).
    assert (windows_ok s5 w4 /\ moved n s s5 /\ fin_sent_ s5 = fin_sent_ s4 /\ write_side_closed_ s5 = write_side_closed_ s4) as (G1 & G2 & G3 & G4).
    { assert (moved n s s4) as Hms by (destruct Hm, Hm4; split; try congruence; [lia|lia|auto]).
      unfold s5. destruct (_ || _); split_and!; try done; [by destruct Hw4'|by destruct Hms]. }
    split; try done; try lia.
    + intros Hf. destruct (Hfull Hf) as [? ?]. split_and!; [done|done|rewrite G4; auto].
    + rewrite G3. intros [?|?]%Hf4; [left; congruence|by right].
    + rewrite G3. intros ?. apply Hf4'. congruence.
    + congruence.
    + right. by rewrite Hl4, Hlog2, Hlog.
Qed.

(** ** The log of what was consumed *)

Fixpoint contiguous (o : Z) (l : list piece) (e : Z) : Prop :=
  match l with
  | [] => o = e
  | p :: l => wp_offset p = o /\ 0 <= wp_length p /\ contiguous (o + wp_length p) l e
  end.
Definition fins (l : list piece) : nat := length (List.filter wp_fin l).
Definition log_bytes (l : list piece) : list Z := concat (map wp_bytes l).

Lemma contiguous_snoc o l e n bytes fin : contiguous o l e -> 0 <= n -> contiguous o (l ++ [MkPiece e n bytes fin]) (e + n).
Proof. revert o. induction l as [|p l IH]; intros o; simpl; [by intros -> ?|]. intros (? & ? & ?) ?. split_and!; auto. Qed.
Lemma fins_snoc l p : fins (l ++ [p]) = (fins l + (if wp_fin p then 1 else 0))%nat.
Proof. unfold fins. rewrite List.filter_app, length_app. simpl. by destruct (wp_fin p). Qed.
Lemma log_bytes_snoc l p : log_bytes (l ++ [p]) = log_bytes l ++ wp_bytes p.
Proof. unfold log_bytes. rewrite map_app, concat_app. simpl. by rewrite app_nil_r. Qed.

(** The stream after [total] bytes from the application. *)
Record logged (s : QuicStream) (w : W) (total : Z) : Prop := {
  l_windows : windows_ok s w;
  l_contiguous : contiguous 0 (session_log w) (stream_bytes_written_ s);
  l_written : stream_bytes_written_ s <= total;
  l_small : total < 2 ^ 62;
  l_once : (fins (session_log w) <= 1)%nat;
  l_fin : fins (session_log w) = 1%nat -> write_side_closed_ s = true /\ fin_buffered_ s = true /\ stream_bytes_written_ s = total;
  l_fin_sent : fin_sent_ s = true -> fins (session_log w) = 1%nat;
  l_errors : session_errors w = [] }.

Lemma logged_keep s w total s' w' : logged s w total -> keeps s s' -> quiet w w' -> logged s' w' total.
Proof.
  intros [L1 L2 L3 L4 L5 L6 L7 L8] Hk Hq. pose proof (windows_keep _ _ _ _ L1 Hk Hq). destruct Hk, Hq as (Hl & He & _).
  split; rewrite ?Hl, ?He, ?k_written0, ?k_fin_sent0, ?k_fin_buffered0; try done. intros (? & ? & ?)%L6. auto.
Qed.

Lemma logged_offer s w total s' w' bytes len fin c : logged s w total -> write_side_closed_ s = false ->
  offered s s' w w' bytes len fin c -> stream_bytes_written_ s + len <= total ->
  (fin = true -> stream_bytes_written_ s + len = total /\ fin_buffered_ s = true) -> logged s' w' total.
Proof.
  intros [L1 L2 L3 L4 L5 L6 L7 L8] Hopen [O1 O2 O3 O4 O5 O6 O7 O8 O9] Hle Hfin.
  assert (fins (session_log w) = 0%nat) as Hf0.
  { destruct (fins (session_log w)) as [|[|k]] eqn:E; [done| |lia]. destruct (L6 eq_refl) as [Hc _]. congruence. }
  assert (fin_sent_ s = false) as Hs0 by (destruct (fin_sent_ s) eqn:E; [|done]; specialize (L7 eq_refl); lia).
  assert (fins (session_log w') = if fin_consumed c then 1 else 0)%nat as Hfins.
  { destruct O9 as [(-> & _ & ->)| ->]; [done|]. rewrite fins_snoc, Hf0. done. }
  split; rewrite ?(m_written _ _ _ O2), ?(m_fin_buffered _ _ _ O2), ?Hfins; try done; try lia.
  - destruct O9 as [(-> & -> & _)| ->]; [by rewrite Z.add_0_r|]. apply contiguous_snoc; [done|lia].
  - destruct (fin_consumed c); lia.
  - destruct (fin_consumed c) eqn:Ec; [|done]. intros _. destruct (O4 eq_refl) as (-> & Hn & Hcl). destruct (Hfin eq_refl). split_and!; [done|done|lia].
  - intros [?|Hf]%O6; [congruence|]. by rewrite Hf.
  - congruence.
Qed.

(** ** Data kept in the send buffer *)

Definition saved_mode (s : QuicStream) (app : list Z) (acked : gset Z) : Prop :=
  queued_data_ s = [] /\ sending (out_buffer_ s) app acked.
Definition unsent (q : list PendingData) : list Z := concat (map (fun p => drop (Z.to_nat (pd_offset p)) (pd_data p)) q).
Definition pending_ok (p : PendingData) : Prop :=
  Z.of_nat (length (pd_data p)) < 2 ^ 62 /\ (pd_offset p = 0 \/ 0 < pd_offset p < Z.of_nat (length (pd_data p))).
(** Data kept in the queue. *)
Definition queued_mode (s : QuicStream) (w : W) (app : list Z) : Prop :=
  take (Z.to_nat (stream_bytes_written_ s)) app = log_bytes (session_log w) /\
  unsent (queued_data_ s) = drop (Z.to_nat (stream_bytes_written_ s)) app /\
  Forall pending_ok (queued_data_ s) /\
  queued_data_bytes_ s = Z.of_nat (length app) - stream_bytes_written_ s.

Record writing (s : QuicStream) (w : W) (app : list Z) (acked : gset Z) : Prop := {
  wr_logged : logged s w (Z.of_nat (length app));
  wr_acked : forall o, o ∈ acked -> 0 <= o < stream_bytes_written_ s;
  wr_outstanding : stream_bytes_outstanding_ s = stream_bytes_written_ s - Z.of_nat (size acked);
  wr_data : if save_data_before_consumption then saved_mode s app acked else queued_mode s w app }.

Lemma logged_open s w total : logged s w total -> write_side_closed_ s = false -> fins (session_log w) = 0%nat.
Proof.
  intros L Hopen. destruct (fins (session_log w)) as [|[|k]] eqn:E; [done| |].
  - destruct (l_fin _ _ _ L E). congruence.
  - pose proof (l_once _ _ _ L). lia.
Qed.

(** More data, or the decision to end, from the application. *)
Lemma logged_more s w total total' fin : logged s w total -> write_side_closed_ s = false -> total <= total' < 2 ^ 62 ->
  logged (set_fin_buffered s fin) w total'.
Proof.
  intros L Hopen Ht. pose proof (logged_open _ _ _ L Hopen) as Hf0. destruct L as [L1 L2 L3 L4 L5 L6 L7 L8].
  split; cbn; try done; try lia. by destruct L1.
Qed.

(** Offering the application's next bytes. *)
Lemma logged_offers s w total s' w' bytes len fin c : logged s w total ->
  (write_side_closed_ s = true -> s' = s /\ w' = w) ->
  offered s s' w w' bytes len fin c -> stream_bytes_written_ s + len <= total ->
  (fin = true -> stream_bytes_written_ s + len = total /\ fin_buffered_ s = true) -> logged s' w' total.
Proof.
  intros L Hcl Ho Hle Hfin. destruct (write_side_closed_ s) eqn:E; [destruct (Hcl eq_refl) as [-> ->]; done|].
  by eapply logged_offer.
Qed.

Lemma writing_keep s w app acked s' w' : writing s w app acked -> keeps s s' -> quiet w w' -> writing s' w' app acked.
Proof.
  intros [L A O D] Hk Hq. split; [by eapply logged_keep| | |].
  - intros o. rewrite (k_written _ _ Hk). auto.
  - by rewrite (k_written _ _ Hk), (k_outstanding _ _ Hk).
  - destruct Hk, Hq as (Hl & _ & _). destruct save_data_before_consumption.
    + unfold saved_mode. by rewrite k_queue0, k_out0.
    + unfold queued_mode. by rewrite k_queue0, k_written0, k_queue_bytes0, Hl.
Qed.

Lemma writing_fin_buffered s w app acked fin : writing s w app acked -> write_side_closed_ s = false ->
  writing (set_fin_buffered s fin) w app acked.
Proof.
  intros [L A O D] Hopen. split; try done. apply (logged_more s w _ _ fin L Hopen). destruct L. lia.
Qed.

(** What the stream takes of a write. *)
Definition accepted (s : QuicStream) (data : list Z) : list Z := if fin_buffered_ s || write_side_closed_ s then [] else data.

(** ** Saving before consumption *)

Section Saved.
Context (uninitialised : nat -> list Z) (max_data_slice_size : nat).
Context `{!SendBufferEnv uninitialised max_data_slice_size}.
Context (Hsave : save_data_before_consumption = true).

Lemma writing_saved s w app acked : writing s w app acked -> saved_mode s app acked.
Proof. intros []. by rewrite Hsave in *. Qed.

Lemma queued_data_bytes_saved s w app acked : writing s w app acked ->
  qs_queued_data_bytes s = Z.of_nat (length app) - stream_bytes_written_ s.
Proof.
  intros Hw. destruct (writing_saved _ _ _ _ Hw) as [_ Hs]. unfold qs_queued_data_bytes. rewrite Hsave, (s_offset _ _ _ Hs).
  destruct Hw as [[[? ? ? ?] ? ? ? ? ? ? ?] _ _ _]. apply u64_id. unfold is_u64. lia.
Qed.

Lemma WriteBufferedData_saved s w app acked : writing s w app acked -> write_side_closed_ s = false ->
  exists s' w', qs_WriteBufferedData s w = Some (s', w') /\ writing s' w' app acked.
Proof.
  intros Hw Hopen. unfold qs_WriteBufferedData. destruct (session_ShouldYield _ _).
  { eexists _, _. split; [done|]. eapply writing_keep; [done|done|apply quiet_mark]. }
  rewrite (queued_data_bytes_saved _ _ _ _ Hw). pose proof Hw as [L A O D]. pose proof L as [L1 L2 L3 L4 L5 L6 L7 L8].
  destruct (qs_write_spec s w [] (Z.of_nat (length app) - stream_bytes_written_ s) (fin_buffered_ s) None L1) as (c & s' & w' & -> & Ho); [lia|].
  eexists _, _. split; [done|]. pose proof (o_moved _ _ _ _ _ _ _ _ Ho) as [M1 M2 M3 M4 M5 M6 M7 M8]. pose proof (o_bytes _ _ _ _ _ _ _ _ Ho).
  split.
  - eapply logged_offer; [done|done|done|lia|]. intros ?. split; [lia|done].
  - intros o Ho'. specialize (A o Ho'). lia.
  - lia.
  - rewrite Hsave in *. destruct D as [D1 D2]. split; congruence.
Qed.

Lemma save_saved s w app acked data l fin : writing s w app acked -> write_side_closed_ s = false ->
  Z.of_nat (length app) + Z.of_nat (length data) < 2 ^ 62 ->
  exists s' w', qs_save uninitialised max_data_slice_size (set_fin_buffered s fin) w [data] (length data) l = Some (s', w') /\
    writing s' w' (app ++ data) acked /\ write_side_closed_ s' = false.
Proof.
  intros Hw Hopen Hlim. pose proof (writing_saved _ _ _ _ Hw) as [D1 D2]. pose proof Hw as [L A O _]. unfold qs_save.
  assert (SendBufferEnv uninitialised max_data_slice_size) as [Hu Hm] by done.
  destruct (save_loop uninitialised max_data_slice_size Hu Hm (length data) (out_buffer_ s) app acked [data] 0 (length data))
    as (b & Hb & Hsb); [done|done|simpl; rewrite app_nil_r; lia|lia|].
  unfold SaveStreamData. cbn [out_buffer_ set_fin_buffered]. rewrite Hb.
  simpl in Hsb. rewrite app_nil_r, drop_0, firstn_all in Hsb.
  set (s1 := set_out_buffer _ b). destruct (OnDataBuffered_law s1 w (StreamSendBuffer.stream_offset_ (out_buffer_ s)) (Z.of_nat (length data)) l)
    as (s' & w' & -> & Hk & Hcl & Hq). exists s', w'. split; [done|]. split; [|by rewrite Hcl].
  - apply writing_keep with s1 w; [|done|done]. split; cbn.
    + rewrite length_app. pose proof (logged_more s w _ (Z.of_nat (length app + length data)) fin L Hopen ltac:(lia)) as [X1 X2 X3 X4 X5 X6 X7 X8].
      split; try done. by destruct X1.
    + done.
    + done.
    + rewrite Hsave. by split.
Qed.

Lemma WriteOrBufferData_saved s w app acked data fin l : writing s w app acked ->
  Z.of_nat (length app) + Z.of_nat (length data) < 2 ^ 62 ->
  exists s' w', qs_WriteOrBufferData uninitialised max_data_slice_size s w data fin l = Some (s', w') /\
    writing s' w' (app ++ accepted s data) acked.
Proof.
  intros Hw Hlim. unfold qs_WriteOrBufferData, accepted.
  destruct ((length data =? 0)%nat && negb fin) eqn:E0.
  { apply andb_prop in E0 as [E0%Nat.eqb_eq _]. apply nil_length_inv in E0 as ->. eexists _, _. split; [done|]. destruct (_ || _); by rewrite app_nil_r. }
  destruct (fin_buffered_ s) eqn:Ef; [eexists _, _; split; [done|]; by rewrite app_nil_r|].
  destruct (write_side_closed_ s) eqn:Ec; [eexists _, _; split; [done|]; by rewrite app_nil_r|]. cbn [orb]. cbv zeta. rewrite Hsave.
  set (s0 := set_fin_buffered s fin).
  assert (exists s1 w1, (if (0 <? length data)%nat then qs_save uninitialised max_data_slice_size s0 w [data] (length data) l else Some (s0, w)) = Some (s1, w1) /\
    writing s1 w1 (app ++ data) acked /\ write_side_closed_ s1 = false) as (s1 & w1 & -> & Hw1 & Hc1).
  { destruct (Nat.ltb_spec 0 (length data)) as [Hpos|Hz]; [by apply save_saved|].
    destruct data; [|simpl in Hz; lia]. rewrite app_nil_r. eexists _, _. split; [done|]. split; [by apply writing_fin_buffered|done]. }
  destruct (negb _ && _); [by apply WriteBufferedData_saved|by eexists _, _].
Qed.

Lemma OnCanWrite_saved s w app acked : writing s w app acked ->
  exists s' w', qs_OnCanWrite uninitialised max_data_slice_size s w = Some (s', w') /\ writing s' w' app acked.
Proof.
  intros Hw. unfold qs_OnCanWrite. rewrite Hsave. destruct (write_side_closed_ s) eqn:Ec; [by eexists _, _|].
  assert (exists s1 w1, (if qs_HasBufferedData s || (fin_buffered_ s && negb (fin_sent_ s)) then qs_WriteBufferedData s w else Some (s, w)) = Some (s1, w1) /\
    writing s1 w1 app acked) as (s1 & w1 & -> & Hw1) by (destruct (_ || _); [by apply WriteBufferedData_saved|by eexists _, _]).
  destruct (negb _ && _ && _); [|by eexists _, _]. destruct (OnCanWriteNewData_law s1 w1) as (s2 & w2 & -> & Hk & Hq).
  eexists _, _. split; [done|]. by eapply writing_keep.
Qed.
End Saved.

(** ** Queueing what was not consumed *)

Section Queued.
Context (uninitialised : nat -> list Z) (max_data_slice_size : nat).
Context (Hsave : save_data_before_consumption = false).

Lemma writing_queued s w app acked : writing s w app acked -> queued_mode s w app.
Proof. intros []. by rewrite Hsave in *. Qed.

Lemma offered_nothing s w bytes len fin : windows_ok s w -> 0 <= len -> offered s s w w bytes len fin (MkConsumed 0 false).
Proof. intros Hw Hl. split; cbn; try done; auto; try lia. apply keeps_moved. done. Qed.

Lemma WritevData_queued s w buffers fin l : windows_ok s w -> exists c s' w',
  qs_WritevData uninitialised max_data_slice_size s w buffers fin l = Some (c, s', w') /\
  offered s s' w w' (concat buffers) (Z.of_nat (length (concat buffers))) fin c /\
  (write_side_closed_ s = true -> s' = s /\ w' = w).
Proof.
  intros Hw. unfold qs_WritevData. rewrite Hsave. destruct (write_side_closed_ s) eqn:Ec.
  { eexists _, _, _. split; [done|]. split; [apply offered_nothing; [done|lia]|done]. }
  destruct (session_ShouldYield _ _).
  - eexists _, _, _. split; [done|]. split; [|done]. pose proof (quiet_mark (stream_id_ s) w) as Hq. pose proof Hq as (Hl & He & _).
    split; cbn; try done; auto; try lia; [by eapply windows_keep|apply keeps_moved; done].
  - destruct (qs_write_spec s w buffers (Z.of_nat (length (concat buffers))) fin l Hw) as (c & s' & w' & E & Ho); [lia|].
    exists c, s', w'. by split_and!.
Qed.

(** The bytes after what was written, after an offer of the first of them. *)
Lemma queued_offer s w s' w' app bytes rest fin c : 0 <= stream_bytes_written_ s -> take (Z.to_nat (stream_bytes_written_ s)) app = log_bytes (session_log w) ->
  drop (Z.to_nat (stream_bytes_written_ s)) app = bytes ++ rest -> offered s s' w w' bytes (Z.of_nat (length bytes)) fin c ->
  take (Z.to_nat (stream_bytes_written_ s')) app = log_bytes (session_log w') /\
  drop (Z.to_nat (stream_bytes_written_ s')) app = drop (Z.to_nat (bytes_consumed c)) bytes ++ rest.
Proof.
  intros Hpos Ht Hd [_ O2 O3 _ _ _ _ _ O9]. rewrite (m_written _ _ _ O2). set (n := bytes_consumed c) in *. rewrite Z2Nat.inj_add by lia. split.
  - rewrite <- take_take_drop, Ht, Hd, take_app_le by lia. destruct O9 as [(-> & E & _)| ->]; [by rewrite E, app_nil_r|].
    by rewrite log_bytes_snoc.
  - rewrite <- drop_drop, Hd, drop_app_le by lia. done.
Qed.

(** Offer the first of the unsent bytes and keep [q'] in the queue. *)
Lemma offered_writing s w app acked s1 w1 bytes rest fin c q' qb :
  logged s w (Z.of_nat (length app)) -> (forall o, o ∈ acked -> 0 <= o < stream_bytes_written_ s) ->
  stream_bytes_outstanding_ s = stream_bytes_written_ s - Z.of_nat (size acked) ->
  take (Z.to_nat (stream_bytes_written_ s)) app = log_bytes (session_log w) ->
  drop (Z.to_nat (stream_bytes_written_ s)) app = bytes ++ rest ->
  offered s s1 w w1 bytes (Z.of_nat (length bytes)) fin c -> (write_side_closed_ s = true -> s1 = s /\ w1 = w) ->
  (fin = true -> rest = [] /\ fin_buffered_ s = true) ->
  unsent q' = drop (Z.to_nat (bytes_consumed c)) bytes ++ rest -> Forall pending_ok q' ->
  qb = Z.of_nat (length app) - stream_bytes_written_ s - bytes_consumed c ->
  writing (set_queued_data (set_queued_data_bytes s1 qb) q') w1 app acked.
Proof.
  intros L A O Ht Hd Ho Hcl Hfin Hun Hok ->.
  assert (0 <= stream_bytes_written_ s) as Hpos by (destruct L as [[? [? ?] ? ?] ? ? ? ? ? ? ?]; lia).
  assert (Z.of_nat (length app) = stream_bytes_written_ s + Z.of_nat (length bytes) + Z.of_nat (length rest)) as Hlen.
  { apply (f_equal length) in Hd. rewrite length_drop, length_app in Hd. pose proof (l_written _ _ _ L). lia. }
  assert (logged s1 w1 (Z.of_nat (length app))) as L1.
  { eapply logged_offers; [done|done|done|lia|]. intros Hf. destruct (Hfin Hf) as [-> ?]. simpl in Hlen. split; [lia|done]. }
  destruct (queued_offer s w s1 w1 app bytes rest fin c Hpos Ht Hd Ho) as [Ht1 Hd1].
  destruct (o_moved _ _ _ _ _ _ _ _ Ho) as [M1 M2 M3 M4 M5 M6 M7 M8]. pose proof (o_bytes _ _ _ _ _ _ _ _ Ho) as Hb.
  split.
  - destruct L1 as [X1 X2 X3 X4 X5 X6 X7 X8]. split; try done. by destruct X1.
  - intros o Hin. cbn. specialize (A o Hin). lia.
  - cbn. lia.
  - rewrite Hsave. split_and!; [done|exact (eq_trans Hun (eq_sym Hd1))|done|cbn; lia].
Qed.

Lemma write_queued_ok fuel s w app acked fin : (length (queued_data_ s) <= fuel)%nat -> (fin = true -> queued_data_ s = []) ->
  writing s w app acked ->
  exists s' w', qs_write_queued uninitialised max_data_slice_size fuel s w fin = Some (s', w') /\ writing s' w' app acked.
Proof.
  revert s w fin. induction fuel as [|fuel IH]; intros s w fin Hl Hfin Hw; cbn [qs_write_queued];
    destruct (queued_data_ s) as [|p q] eqn:Eq; try (by eexists _, _); [simpl in Hl; lia|].
  assert (fin = false) as -> by (destruct fin; [specialize (Hfin eq_refl); done|done]).
  pose proof (writing_queued _ _ _ _ Hw) as (Ht & Hd & Hok & Hqb). pose proof Hw as [L A O _].
  rewrite Eq in Hd, Hok. apply Forall_cons in Hok as [[Hsz Hp] Hq].
  set (fin1 := if (length (p :: q) =? 1)%nat && fin_buffered_ s then true else false). set (size := Z.of_nat (length (pd_data p))). set (B := drop (Z.to_nat (pd_offset p)) (pd_data p)).
  assert (fin1 = true -> q = [] /\ fin_buffered_ s = true) as Hf1.
  { unfold fin1. destruct (_ && _) eqn:E; [|done]. apply andb_prop in E as [E1%Nat.eqb_eq E2]. intros _. split; [|done]. by destruct q. }
  destruct ((pd_offset p >? 0) && (pd_offset p >=? size)) eqn:Eb.
  { apply andb_prop in Eb as [?%Z.gtb_lt ?%Z.geb_le]. destruct Hp as [Hp|Hp]; unfold size in *; lia. }
  assert (size -64 pd_offset p = Z.of_nat (length B)) as HlB.
  { unfold B. rewrite length_drop. destruct L as [_ _ _ Hs _ _ _ _]. apply (f_equal length) in Hd. unfold unsent in Hd. cbn in Hd.
    rewrite length_app, !length_drop in Hd. rewrite u64_id; unfold size, is_u64; destruct Hp; lia. }
  rewrite HlB. pose proof L as [Lw _ Lle Lsm _ _ _ _].
  assert (0 <= stream_bytes_written_ s) as Hwpos by (destruct Lw as [? [? _] _ _]; lia).
  destruct (WritevData_queued s w [B] fin1 (pd_ack_listener p) Lw) as (c & s1 & w1 & -> & Ho & Hcl).
  simpl in Ho. rewrite app_nil_r in Ho. pose proof (o_bytes _ _ _ _ _ _ _ _ Ho) as Hn. set (n := bytes_consumed c) in *.
  destruct (o_moved _ _ _ _ _ _ _ _ Ho) as [M1 M2 M3 M4 M5 M6 M7 M8].
  change (unsent (p :: q)) with (B ++ unsent q) in Hd. symmetry in Hd.
  assert (queued_data_bytes_ s -64 n = Z.of_nat (length app) - stream_bytes_written_ s - n) as Hqb'.
  { rewrite Hqb. apply u64_id. apply (f_equal length) in Hd. rewrite length_drop, length_app in Hd. unfold is_u64. lia. }
  rewrite M2, Hqb'. set (qb := _ - n). cbn [queued_data_ set_queued_data_bytes]. rewrite M1, Eq. cbn [tail].
  assert (forall q', unsent q' = drop (Z.to_nat n) B ++ unsent q -> Forall pending_ok q' ->
    writing (set_queued_data (set_queued_data_bytes s1 qb) q') w1 app acked) as Hstep.
  { intros q' Hq' Hok'. eapply (offered_writing s w); try done. intros Hf. destruct (Hf1 Hf) as [-> ?]. done. }
  destruct ((n =? Z.of_nat (length B)) && Bool.eqb fin1 (fin_consumed c)) eqn:Ew.
  - apply andb_prop in Ew as [En%Z.eqb_eq _]. apply IH.
    + cbn. simpl in Hl. lia.
    + intros Hf. cbn. by destruct (Hf1 Hf).
    + apply Hstep; [|done]. rewrite drop_ge by lia. done.
  - destruct (Z.gtb_spec n 0) as [Hpos|Hz].
    + assert (n < Z.of_nat (length B)) as Hlt.
      { destruct (Z.eq_dec n (Z.of_nat (length B))) as [E|]; [|lia]. exfalso. rewrite (proj2 (Z.eqb_eq _ _) E) in Ew. cbn [andb] in Ew.
        apply eqb_false_iff in Ew. destruct fin1 eqn:Ef.
        - apply Ew. symmetry. apply (o_all _ _ _ _ _ _ _ _ Ho); [done|lia|done].
        - destruct (fin_consumed c) eqn:Ec; [|done]. destruct (o_fin _ _ _ _ _ _ _ _ Ho Ec) as [? _]. done. }
      eexists _, _. split; [done|]. apply Hstep.
      * unfold unsent. cbn. f_equal. unfold B. rewrite drop_drop. f_equal.
        assert (pd_offset p +64 n = pd_offset p + n) as ->; [|destruct Hp; lia].
        unfold B in Hlt. rewrite length_drop in Hlt. apply u64_id. unfold is_u64.
        apply (f_equal length) in Hd. rewrite length_drop, length_app in Hd. unfold B in Hd. rewrite length_drop in Hd.
        destruct Hp; lia.
      * constructor; [|done]. split; [done|]. right. cbn. unfold B in Hlt. rewrite length_drop in Hlt.
        apply (f_equal length) in Hd. rewrite length_drop, length_app in Hd. unfold B in Hd. rewrite length_drop in Hd.
        rewrite u64_id by (unfold is_u64; destruct Hp; lia). destruct Hp; lia.
    + assert (n = 0) as E0 by lia. eexists _, _. split; [done|].
      assert (set_queued_data (set_queued_data_bytes s1 qb) (p :: q) = set_queued_data_bytes s1 qb) as <-.
      { rewrite <- Eq, <- M1. by destruct s1. }
      apply Hstep; [by rewrite E0|by constructor].
Qed.

Lemma OnCanWrite_queued s w app acked : writing s w app acked ->
  exists s' w', qs_OnCanWrite uninitialised max_data_slice_size s w = Some (s', w') /\ writing s' w' app acked.
Proof. intros Hw. unfold qs_OnCanWrite. rewrite Hsave. by apply write_queued_ok. Qed.

Lemma unsent_app q q' : unsent (q ++ q') = unsent q ++ unsent q'.
Proof. unfold unsent. by rewrite map_app, concat_app. Qed.

Lemma WriteOrBufferData_queued s w app acked data fin l : writing s w app acked ->
  Z.of_nat (length app) + Z.of_nat (length data) < 2 ^ 62 ->
  exists s' w', qs_WriteOrBufferData uninitialised max_data_slice_size s w data fin l = Some (s', w') /\
    writing s' w' (app ++ accepted s data) acked.
Proof.
  intros Hw Hlim. unfold qs_WriteOrBufferData, accepted.
  destruct ((length data =? 0)%nat && negb fin) eqn:E0.
  { apply andb_prop in E0 as [E0%Nat.eqb_eq _]. apply nil_length_inv in E0 as ->. eexists _, _. split; [done|]. destruct (_ || _); by rewrite app_nil_r. }
  destruct (fin_buffered_ s) eqn:Ef; [eexists _, _; split; [done|]; by rewrite app_nil_r|].
  destruct (write_side_closed_ s) eqn:Ec; [eexists _, _; split; [done|]; by rewrite app_nil_r|]. cbn [orb]. cbv zeta. rewrite Hsave.
  pose proof (writing_queued _ _ _ _ Hw) as (Ht & Hd & Hok & Hqb). pose proof Hw as [L A O _]. pose proof L as [Lw _ Lle Lsm _ _ _ _].
  assert (0 <= stream_bytes_written_ s) as Hwpos by (destruct Lw as [? [? _] _ _]; lia).
  set (s0 := set_fin_buffered s fin).
  pose proof (logged_more s w _ (Z.of_nat (length (app ++ data))) fin L Ec ltac:(rewrite length_app; lia)) as L0. fold s0 in L0.
  assert (take (Z.to_nat (stream_bytes_written_ s0)) (app ++ data) = log_bytes (session_log w)) as Ht0 by (cbn; rewrite take_app_le by lia; done).
  assert (drop (Z.to_nat (stream_bytes_written_ s0)) (app ++ data) = unsent (queued_data_ s) ++ data) as Hd0 by (cbn; rewrite drop_app_le by lia; by rewrite Hd).
  assert (forall s1 w1 bytes rest fin' c q' qb, drop (Z.to_nat (stream_bytes_written_ s0)) (app ++ data) = bytes ++ rest ->
    offered s0 s1 w w1 bytes (Z.of_nat (length bytes)) fin' c -> (fin' = true -> rest = [] /\ fin = true) ->
    unsent q' = drop (Z.to_nat (bytes_consumed c)) bytes ++ rest -> Forall pending_ok q' ->
    qb = Z.of_nat (length (app ++ data)) - stream_bytes_written_ s - bytes_consumed c ->
    writing (set_queued_data (set_queued_data_bytes s1 qb) q') w1 (app ++ data) acked) as Hstep.
  { intros s1 w1 bytes rest fin' c q' qb Hb Ho Hfin Hun Hok' Hq. eapply (offered_writing s0 w); try done. cbn. congruence. }
  rewrite length_app in Hstep. change (queued_data_ s0) with (queued_data_ s).
  destruct (queued_data_ s) as [|p q] eqn:Eq.
  - destruct (WritevData_queued s0 w [data] fin l (l_windows _ _ _ L0)) as (c & s1 & w1 & -> & Ho & _).
    simpl in Ho. rewrite app_nil_r in Ho. pose proof (o_bytes _ _ _ _ _ _ _ _ Ho) as Hn. set (n := bytes_consumed c) in *.
    destruct (o_moved _ _ _ _ _ _ _ _ Ho) as [M1 M2 M3 M4 M5 M6 M7 M8]. cbn in M1, M2. rewrite Eq in M1.
    cbn in Hd. symmetry in Hd. apply (f_equal length) in Hd. rewrite length_drop in Hd. cbn in Hd.
    change (unsent []) with ([] : list Z) in Hd0. rewrite app_nil_l in Hd0.
    destruct ((n <? Z.of_nat (length data)) || (fin && negb (fin_consumed c))) eqn:Ep; eexists _, _; (split; [done|]).
    + apply (Hstep s1 w1 data [] fin c); try done; [by rewrite app_nil_r| | |].
      * unfold unsent. cbn. rewrite M1. cbn. by rewrite !app_nil_r.
      * cbn. rewrite M1. constructor; [|done]. split; [cbn; rewrite length_drop; lia|by left].
      * rewrite M2, Hqb, length_drop. fold n. rewrite u64_id by (unfold is_u64; lia). lia.
    + apply orb_false_elim in Ep as [En%Z.ltb_ge _].
      replace s1 with (set_queued_data (set_queued_data_bytes s1 (queued_data_bytes_ s)) []) by (rewrite <- M1, <- M2; by destruct s1).
      apply (Hstep s1 w1 data [] fin c); try done; [by rewrite app_nil_r| |].
      * fold n. rewrite drop_ge by lia. done.
      * rewrite Hqb. fold n. lia.
  - cbn [bytes_consumed fin_consumed negb]. change (drop (Z.to_nat 0) data) with data.
    assert ((0 <? Z.of_nat (length data)) || (fin && true) = true) as ->.
    { destruct data, fin; try done. }
    eexists _, _. split; [done|]. apply (Hstep s0 w (unsent (p :: q)) data false (MkConsumed 0 false)); try done.
    + apply offered_nothing; [apply L0|lia].
    + cbn [queued_data_ set_queued_data_bytes]. change (queued_data_ s0) with (queued_data_ s). rewrite Eq, unsent_app. f_equal. apply app_nil_r.
    + cbn [queued_data_ set_queued_data_bytes]. change (queued_data_ s0) with (queued_data_ s). rewrite Eq. apply Forall_app. split; [done|]. constructor; [|done]. split; [cbn; lia|by left].
    + cbn. rewrite Hqb. rewrite u64_id by (unfold is_u64; lia). lia.
Qed.
End Queued.

(** ** Acknowledgements and windows *)

Lemma acked_room (acked : gset Z) written off len : (forall o, o ∈ acked -> 0 <= o < written) -> range off len ## acked ->
  0 <= off -> 0 <= len -> off + len <= written -> Z.of_nat (size (acked ∪ range off len)) = Z.of_nat (size acked) + len /\
  Z.of_nat (size acked) + len <= written.
Proof.
  intros Ha Hd H0' H1 H2. assert (Z.of_nat (size (acked ∪ range off len)) = Z.of_nat (size acked) + len) as E.
  { rewrite (size_union acked (range off len)) by done. pose proof (size_range off len). lia. }
  split; [done|]. rewrite <- E. pose proof (size_range 0 written) as Hr.
  assert (size (acked ∪ range off len) <= size (range 0 written))%nat; [|lia].
  apply subseteq_size. intros o. rewrite elem_of_union, !elem_of_range. intros [Ho|Ho]; [apply Ha in Ho|]; lia.
Qed.

Lemma OnStreamFrameDiscarded_ok s w app acked frame : writing s w app acked ->
  let len := Z.of_nat (sf_data_length frame) in
  0 <= sf_offset frame -> sf_offset frame + len <= stream_bytes_written_ s -> range (sf_offset frame) len ## acked ->
  (sf_fin frame = true -> fin_outstanding_ s = true) ->
  exists s' w', qs_OnStreamFrameDiscarded s w frame = Some (s', w') /\ writing s' w' app (acked ∪ range (sf_offset frame) len).
Proof.
  intros [L A O D] len H0' Hle Hd Hfin. unfold qs_OnStreamFrameDiscarded. fold len.
  destruct (acked_room acked (stream_bytes_written_ s) (sf_offset frame) len A Hd H0' ltac:(lia) Hle) as [Hsz Hroom].
  destruct (Z.ltb_spec (stream_bytes_outstanding_ s) len) as [Hlt|Hge]; [lia|]. cbn [orb].
  assert (negb (fin_outstanding_ s) && sf_fin frame = false) as -> by (destruct (sf_fin frame); [rewrite Hfin by done; done|by rewrite andb_false_r]).
  pose proof L as [Lw _ Lle Lsm _ _ _ _]. rewrite u64_id by (destruct Lw; unfold is_u64; lia).
  set (s1 := set_stream_bytes_outstanding s (stream_bytes_outstanding_ s - len)). set (s2 := if sf_fin frame then set_fin_outstanding s1 false else s1).
  set (s3 := if save_data_before_consumption && (len >? 0) then _ else s2).
  eexists _, _. split; [done|]. set (w' := if negb (qs_IsWaitingForAcks s3) then _ else w).
  assert (quiet w w') as Hq by (unfold w'; destruct (negb _); [apply quiet_done|done]).
  apply writing_keep with s3 w; [|reflexivity|exact Hq]. clear Hq w'.
  assert (stream_bytes_outstanding_ s3 = stream_bytes_outstanding_ s - len /\ stream_bytes_written_ s3 = stream_bytes_written_ s /\
    queued_data_ s3 = queued_data_ s /\ queued_data_bytes_ s3 = queued_data_bytes_ s /\ logged s3 w (Z.of_nat (length app))) as (E1 & E2 & E3 & E4 & L3).
  { assert (logged s1 w (Z.of_nat (length app))) as L1.
    { destruct L as [X1 X2 X3 X4 X5 X6 X7 X8]. split; try done. destruct X1. split; try done. cbn. lia. }
    assert (logged s2 w (Z.of_nat (length app))) as L2.
    { unfold s2. destruct (sf_fin frame); [|done]. destruct L1 as [X1 X2 X3 X4 X5 X6 X7 X8]. split; try done. by destruct X1. }
    unfold s3, s2. destruct (_ && _), (sf_fin frame); split_and!; try done; destruct L2 as [X1 X2 X3 X4 X5 X6 X7 X8]; split; try done; by destruct X1. }
  split; [done| | |].
  - intros o. rewrite elem_of_union, elem_of_range, E2. intros [?%A|?]; lia.
  - rewrite E1, E2, Hsz, O. lia.
  - destruct save_data_before_consumption eqn:Es.
    + destruct D as [D1 D2]. split; [by rewrite E3|]. unfold s3. destruct (Z.gtb_spec len 0) as [Hpos|Hz]; cbn [andb].
      * replace (out_buffer_ s2) with (out_buffer_ s) by (unfold s2; by destruct (sf_fin frame)). apply RemoveStreamFrame_spec; try done; try lia.
      * replace (out_buffer_ s2) with (out_buffer_ s) by (unfold s2; by destruct (sf_fin frame)).
        assert (len = 0) as -> by lia. change (range (sf_offset frame) 0) with (∅ : gset Z). by rewrite union_empty_r_L.
    + unfold queued_mode. by rewrite E2, E3, E4.
Qed.

Lemma writing_window s w app acked off : writing s w app acked -> off < 2 ^ 64 ->
  writing (set_flow_controller s (snd (UpdateSendWindowOffset (flow_controller_ s) off))) w app acked.
Proof.
  intros [L A O D] Hoff. split; try done. destruct L as [[X1 [X2 X2'] X3 X4] L2 L3 L4 L5 L6 L7 L8]. split; try done. unfold UpdateSendWindowOffset.
  destruct (Z.leb_spec off (send_window_offset_ (flow_controller_ s))); split; try done; unfold sendable; cbn; lia.
Qed.
Lemma writing_connection_window s w app acked off : writing s w app acked -> off < 2 ^ 64 ->
  writing s (set_connection_flow_controller w (snd (UpdateSendWindowOffset (connection_flow_controller w) off))) app acked.
Proof.
  intros [L A O D] Hoff. set (w' := set_connection_flow_controller _ _).
  assert (session_log w' = session_log w) as El by apply log_set. assert (session_errors w' = session_errors w) as Ee by apply errors_set.
  split; try done.
  - destruct L as [[X1 X2 X3 X4] L2 L3 L4 L5 L6 L7 L8]. split; rewrite ?El, ?Ee; try done. split; try done.
    intros [X5 X6]%X3. unfold w'. rewrite get_set. unfold UpdateSendWindowOffset.
    destruct (Z.leb_spec off (send_window_offset_ (connection_flow_controller w))); unfold sendable; cbn; lia.
  - destruct save_data_before_consumption; [done|]. unfold queued_mode. by rewrite El.
Qed.

(** ** Any sequence of operations *)

Section Runs.
Context (uninitialised : nat -> list Z) (max_data_slice_size : nat).
Context `{!SendBufferEnv uninitialised max_data_slice_size}.

Inductive stream_run : QuicStream -> W -> list Z -> gset Z -> Prop :=
| run_new id received_window window_to_send threshold w s :
    QuicStream_new id received_window window_to_send threshold w = Some s -> 0 <= received_window < 2 ^ 64 ->
    sendable (connection_flow_controller w) -> session_log w = [] -> session_errors w = [] -> stream_run s w [] ∅
| run_write s w app acked data fin l s' w' : stream_run s w app acked -> Z.of_nat (length app) + Z.of_nat (length data) < 2 ^ 62 ->
    qs_WriteOrBufferData uninitialised max_data_slice_size s w data fin l = Some (s', w') ->
    stream_run s' w' (app ++ accepted s data) acked
| run_can_write s w app acked s' w' : stream_run s w app acked ->
    qs_OnCanWrite uninitialised max_data_slice_size s w = Some (s', w') -> stream_run s' w' app acked
| run_window s w app acked off s' w' : stream_run s w app acked -> off < 2 ^ 64 ->
    qs_OnWindowUpdateFrame uninitialised max_data_slice_size s w off = Some (s', w') -> stream_run s' w' app acked
| run_connection_window s w app acked off : stream_run s w app acked -> off < 2 ^ 64 ->
    stream_run s (set_connection_flow_controller w (snd (UpdateSendWindowOffset (connection_flow_controller w) off))) app acked
| run_ack s w app acked frame s' w' : stream_run s w app acked ->
    0 <= sf_offset frame -> sf_offset frame + Z.of_nat (sf_data_length frame) <= stream_bytes_written_ s ->
    range (sf_offset frame) (Z.of_nat (sf_data_length frame)) ## acked -> (sf_fin frame = true -> fin_outstanding_ s = true) ->
    qs_OnStreamFrameDiscarded s w frame = Some (s', w') ->
    stream_run s' w' app (acked ∪ range (sf_offset frame) (Z.of_nat (sf_data_length frame))).

Lemma WriteOrBufferData_ok s w app acked data fin l : writing s w app acked ->
  Z.of_nat (length app) + Z.of_nat (length data) < 2 ^ 62 ->
  exists s' w', qs_WriteOrBufferData uninitialised max_data_slice_size s w data fin l = Some (s', w') /\
    writing s' w' (app ++ accepted s data) acked.
Proof. destruct save_data_before_consumption eqn:E; [by apply WriteOrBufferData_saved|by apply WriteOrBufferData_queued]. Qed.
Lemma OnCanWrite_ok s w app acked : writing s w app acked ->
  exists s' w', qs_OnCanWrite uninitialised max_data_slice_size s w = Some (s', w') /\ writing s' w' app acked.
Proof. destruct save_data_before_consumption eqn:E; [by apply OnCanWrite_saved|by apply OnCanWrite_queued]. Qed.

Lemma new_writing id rw ws thr w s : QuicStream_new id rw ws thr w = Some s -> 0 <= rw < 2 ^ 64 ->
  sendable (connection_flow_controller w) -> session_log w = [] -> session_errors w = [] -> writing s w [] ∅.
Proof.
  unfold QuicStream_new. destruct QuicStreamSequencer_new as [q|]; [|done]. intros [= <-] Hr Hc Hl He. split.
  - split; rewrite ?Hl; cbn; try done; try (unfold fins; cbn; lia). split; cbn; try done. unfold sendable. cbn. lia.
  - set_solver.
  - done.
  - destruct save_data_before_consumption; [split; [done|apply SendBuffer_new_sending]|]. unfold queued_mode. rewrite Hl. by split_and!.
Qed.

Lemma stream_run_writing s w app acked : stream_run s w app acked -> writing s w app acked.
Proof.
  induction 1 as [|s w app acked data fin l s' w' _ IH Hl E|s w app acked s' w' _ IH E|s w app acked off s' w' _ IH Ho E|s w app acked off _ IH Ho|
    s w app acked frame s' w' _ IH H0' H1 H2 H3 E].
  - by eapply new_writing.
  - destruct (WriteOrBufferData_ok s w app acked data fin l IH Hl) as (s2 & w2 & E2 & Hw). rewrite E in E2. by injection E2 as -> ->.
  - destruct (OnCanWrite_ok s w app acked IH) as (s2 & w2 & E2 & Hw). rewrite E in E2. by injection E2 as -> ->.
  - revert E. unfold qs_OnWindowUpdateFrame, qs_UpdateSendWindowOffset. pose proof (writing_window s w app acked off IH Ho) as Hw.
    destruct (UpdateSendWindowOffset (flow_controller_ s) off) as [[] c]; cbn [snd] in Hw; [|by intros [= <- <-]].
    destruct (OnCanWrite_ok _ w app acked Hw) as (s2 & w2 & -> & Hw2). by intros [= <- <-].
  - by apply writing_connection_window.
  - destruct (OnStreamFrameDiscarded_ok s w app acked frame IH H0' H1 H2 H3) as (s2 & w2 & E2 & Hw). rewrite E in E2. by injection E2 as -> ->.
Qed.

Lemma writing_bytes_queued s w app acked : writing s w app acked -> qs_queued_data_bytes s = Z.of_nat (length app) - stream_bytes_written_ s.
Proof.
  intros Hw. destruct save_data_before_consumption eqn:E; [by eapply queued_data_bytes_saved|].
  unfold qs_queued_data_bytes. rewrite E. by destruct (writing_queued E _ _ _ _ Hw) as (_ & _ & _ & ?).
Qed.

Lemma writing_waits s w app acked : writing s w app acked ->
  (qs_IsWaitingForAcks s = true <-> (exists o, 0 <= o < stream_bytes_written_ s /\ o ∉ acked) \/ fin_outstanding_ s = true).
Proof.
  intros [L A O _]. unfold qs_IsWaitingForAcks. rewrite orb_true_iff, negb_true_iff, Z.eqb_neq, O.
  assert (stream_bytes_written_ s - Z.of_nat (size acked) <> 0 <-> exists o, 0 <= o < stream_bytes_written_ s /\ o ∉ acked) as ->; [|done].
  pose proof (size_range 0 (stream_bytes_written_ s)) as Hr. destruct L as [[_ [? _] _ ?] _ _ _ _ _ _ _].
  assert (acked ⊆ range 0 (stream_bytes_written_ s)) as Hsub by (intros o Ho; apply elem_of_range; apply A in Ho; lia).
  split.
  - intros Hne. assert (size acked < size (range 0 (stream_bytes_written_ s)))%nat as Hlt by (pose proof (subseteq_size _ _ Hsub); lia).
    destruct (set_choose_L (range 0 (stream_bytes_written_ s) ∖ acked)) as [o Ho].
    { intros Hemp. apply (f_equal size) in Hemp. rewrite size_difference in Hemp by done. rewrite size_empty in Hemp. lia. }
    exists o. rewrite elem_of_difference, elem_of_range in Ho. split; [lia|tauto].
  - intros (o & Ho & Hn) Heq. destruct Hn. assert (acked = range 0 (stream_bytes_written_ s)) as ->; [|apply elem_of_range; lia].
    apply (set_subseteq_size_eq (C := gset Z)); [done|]. lia.
Qed.
End Runs.
End Writing.


(** ** A session with room for a few bytes per write *)

Record demo := MkDemo { demo_flow : QuicFlowController; demo_room : Z; demo_log : list piece; demo_errors : list Z }.
#[export] Instance demo_connection : FlowConnection demo := {|
  fc_ApproximateNow _ := 1; fc_smoothed_rtt _ := 0;
  fc_SendWindowUpdate _ _ w := w; fc_SendBlocked _ w := w;
  fc_CloseConnection e w := MkDemo (demo_flow w) (demo_room w) (demo_log w) (e :: demo_errors w) |}.
#[export] Instance demo_session : QuicSession demo := {|
  save_data_before_consumption := false;
  connection_flow_controller := demo_flow;
  set_connection_flow_controller w c := MkDemo c (demo_room w) (demo_log w) (demo_errors w);
  session_ShouldYield _ _ := false;
  session_MarkConnectionLevelWriteBlocked _ w := w;
  session_StreamDraining _ w := w;
  session_OnStreamDoneWaitingForAcks _ w := w;
  listener_OnPacketAcked _ _ _ w := w;
  listener_OnPacketRetransmitted _ _ w := w;
  session_CloseStream s w := Some (s, w);
  session_SendRstStream s w _ _ := Some (s, w);
  session_CloseConnection s w e := Some (s, MkDemo (demo_flow w) (demo_room w) (demo_log w) (e :: demo_errors w));
  session_WritevData s w v offset state _ :=
    let n := Z.min (total_length v) (Z.max 0 (demo_room w)) in
    let fin := (n =? total_length v) && negb (match state with NO_FIN => true | _ => false end) in
    Some (MkConsumed n fin, s, MkDemo (demo_flow w) (demo_room w) (demo_log w ++ [MkPiece offset n (take (Z.to_nat n) (concat (iov v))) fin]) (demo_errors w));
  subclass_OnDataAvailable s w := Some (s, w);
  subclass_OnCanWriteNewData s w := Some (s, w);
  subclass_OnDataBuffered s w _ _ _ := Some (s, w) |}.
#[export] Program Instance demo_laws : QuicSessionLaws demo := {| session_log := demo_log; session_errors := demo_errors |}.
Next Obligation. done. Qed.
Next Obligation. done. Qed.
Next Obligation. done. Qed.
Next Obligation. done. Qed.
Next Obligation. done. Qed.
Next Obligation. done. Qed.
Next Obligation. done. Qed.
Next Obligation. done. Qed.
Next Obligation. intros s w. by exists s, w. Qed.
Next Obligation. intros s w o n l. by exists s, w. Qed.
Next Obligation. intros s w. by exists s, w. Qed.
Next Obligation.
  intros s w v offset state l Hv. cbn. set (n := Z.min _ _). eexists _, _, _. split; [done|]. split_and!; cbn; try done; try lia.
  - intros [? ?]%andb_prop. split; [by destruct state|lia].
  - intros Hs _ E. rewrite (proj2 (Z.eqb_eq _ _) E). by destruct state.
Qed.

