(* ===== verification/UnackedPacketMap.v ===== *)
(** * Packets that were sent and not yet acknowledged

    quic/core/quic_unacked_packet_map.cc with quic_transmission_info.h: a deque with
    an entry for every packet number from the least one of interest to the last one
    sent.  When the data of a packet is sent again, its frames move to the entry of
    the new packet, and the old entry points to it ([retransmission]).

    Pointers to entries are packet numbers.  The stream notifier and the listeners of
    acknowledgements are an interface ([StreamNotifierInterface]); listeners are
    identified by numbers.  Packet numbers do not come near 2^64, so they are added
    without wrapping; the byte and packet counters wrap. *)

From stdpp Require Import gmap sorting.
From S2P Require Import Prelude QuicTime QuicData Framer SequencerBuffer.

Inductive TransmissionType :=
  | NOT_RETRANSMISSION | HANDSHAKE_RETRANSMISSION | ALL_UNACKED_RETRANSMISSION | ALL_INITIAL_RETRANSMISSION
  | LOSS_RETRANSMISSION | RTO_RETRANSMISSION | TLP_RETRANSMISSION.
#[export] Instance TransmissionType_eq : EqDecision TransmissionType.
Proof. solve_decision. Defined.
Inductive EncryptionLevel := ENCRYPTION_NONE | ENCRYPTION_INITIAL | ENCRYPTION_FORWARD_SECURE.
#[export] Instance EncryptionLevel_eq : EqDecision EncryptionLevel.
Proof. solve_decision. Defined.

Record AckListenerWrapper := MkListener { ack_listener : Z; al_length : Z }.
Record SerializedPacket := MkSerialized {
  sp_packet_number : Z; sp_packet_number_length : Z; sp_encrypted_length : Z; sp_encryption_level : EncryptionLevel;
  sp_has_crypto_handshake : bool; sp_num_padding_bytes : Z; sp_largest_acked : Z;
  sp_retransmittable_frames : list QuicFrame; sp_listeners : list AckListenerWrapper }.

Record QuicTransmissionInfo := MkInfo {
  retransmittable_frames : list QuicFrame;
  encryption_level : EncryptionLevel;
  ti_packet_number_length : Z;
  bytes_sent : Z;
  sent_time : Z;
  transmission_type : TransmissionType;
  in_flight : bool;
  is_unackable : bool;
  has_crypto_handshake : bool;
  num_padding_bytes : Z;
  retransmission : Z;
  ack_listeners : list AckListenerWrapper;
  largest_acked : Z }.

Definition set_retransmittable_frames (i : QuicTransmissionInfo) (x : list QuicFrame) : QuicTransmissionInfo :=
  MkInfo
    x (encryption_level i) (ti_packet_number_length i) (bytes_sent i) (sent_time i) (transmission_type i)
    (in_flight i) (is_unackable i) (has_crypto_handshake i) (num_padding_bytes i) (retransmission i)
    (ack_listeners i) (largest_acked i).
Definition set_in_flight (i : QuicTransmissionInfo) (x : bool) : QuicTransmissionInfo :=
  MkInfo
    (retransmittable_frames i) (encryption_level i) (ti_packet_number_length i) (bytes_sent i) (sent_time i)
    (transmission_type i) x (is_unackable i) (has_crypto_handshake i) (num_padding_bytes i) (retransmission i)
    (ack_listeners i) (largest_acked i).
Definition set_is_unackable (i : QuicTransmissionInfo) (x : bool) : QuicTransmissionInfo :=
  MkInfo
    (retransmittable_frames i) (encryption_level i) (ti_packet_number_length i) (bytes_sent i) (sent_time i)
    (transmission_type i) (in_flight i) x (has_crypto_handshake i) (num_padding_bytes i) (retransmission i)
    (ack_listeners i) (largest_acked i).
Definition set_has_crypto_handshake (i : QuicTransmissionInfo) (x : bool) : QuicTransmissionInfo :=
  MkInfo
    (retransmittable_frames i) (encryption_level i) (ti_packet_number_length i) (bytes_sent i) (sent_time i)
    (transmission_type i) (in_flight i) (is_unackable i) x (num_padding_bytes i) (retransmission i)
    (ack_listeners i) (largest_acked i).
Definition set_num_padding_bytes (i : QuicTransmissionInfo) (x : Z) : QuicTransmissionInfo :=
  MkInfo
    (retransmittable_frames i) (encryption_level i) (ti_packet_number_length i) (bytes_sent i) (sent_time i)
    (transmission_type i) (in_flight i) (is_unackable i) (has_crypto_handshake i) x (retransmission i)
    (ack_listeners i) (largest_acked i).
Definition set_retransmission (i : QuicTransmissionInfo) (x : Z) : QuicTransmissionInfo :=
  MkInfo
    (retransmittable_frames i) (encryption_level i) (ti_packet_number_length i) (bytes_sent i) (sent_time i)
    (transmission_type i) (in_flight i) (is_unackable i) (has_crypto_handshake i) (num_padding_bytes i) x
    (ack_listeners i) (largest_acked i).
Definition set_ack_listeners (i : QuicTransmissionInfo) (x : list AckListenerWrapper) : QuicTransmissionInfo :=
  MkInfo
    (retransmittable_frames i) (encryption_level i) (ti_packet_number_length i) (bytes_sent i) (sent_time i)
    (transmission_type i) (in_flight i) (is_unackable i) (has_crypto_handshake i) (num_padding_bytes i)
    (retransmission i) x (largest_acked i).
Definition set_largest_acked (i : QuicTransmissionInfo) (x : Z) : QuicTransmissionInfo :=
  MkInfo
    (retransmittable_frames i) (encryption_level i) (ti_packet_number_length i) (bytes_sent i) (sent_time i)
    (transmission_type i) (in_flight i) (is_unackable i) (has_crypto_handshake i) (num_padding_bytes i)
    (retransmission i) (ack_listeners i) x.

Definition QuicTransmissionInfo_default : QuicTransmissionInfo :=
  MkInfo [] ENCRYPTION_NONE 1 0 QuicTime_Zero NOT_RETRANSMISSION false false false 0 0 [] 0.
Definition QuicTransmissionInfo_new (level : EncryptionLevel) (packet_number_length : Z) (type : TransmissionType) (time bytes : Z)
    (crypto : bool) (padding : Z) : QuicTransmissionInfo :=
  MkInfo [] level packet_number_length bytes time type false false crypto padding 0 [] 0.

Record QuicUnackedPacketMap := MkUnacked {
  largest_sent_packet_ : Z;
  largest_sent_retransmittable_packet_ : Z;
  largest_observed_ : Z;
  unacked_packets_ : list QuicTransmissionInfo;
  least_unacked_ : Z;
  bytes_in_flight_ : Z;
  pending_crypto_packet_count_ : Z;
  (** whether the pointer is not null *)
  stream_notifier_ : bool }.

Definition with_packets (u : QuicUnackedPacketMap) (l : list QuicTransmissionInfo) (least : Z) : QuicUnackedPacketMap :=
  MkUnacked (largest_sent_packet_ u) (largest_sent_retransmittable_packet_ u) (largest_observed_ u) l least (bytes_in_flight_ u) (pending_crypto_packet_count_ u) (stream_notifier_ u).
Definition with_in_flight (u : QuicUnackedPacketMap) (bytes : Z) : QuicUnackedPacketMap :=
  MkUnacked (largest_sent_packet_ u) (largest_sent_retransmittable_packet_ u) (largest_observed_ u) (unacked_packets_ u) (least_unacked_ u) bytes (pending_crypto_packet_count_ u) (stream_notifier_ u).
Definition with_crypto_count (u : QuicUnackedPacketMap) (n : Z) : QuicUnackedPacketMap :=
  MkUnacked (largest_sent_packet_ u) (largest_sent_retransmittable_packet_ u) (largest_observed_ u) (unacked_packets_ u) (least_unacked_ u) (bytes_in_flight_ u) n (stream_notifier_ u).
Definition with_largest_sent (u : QuicUnackedPacketMap) (sent retransmittable : Z) : QuicUnackedPacketMap :=
  MkUnacked sent retransmittable (largest_observed_ u) (unacked_packets_ u) (least_unacked_ u) (bytes_in_flight_ u) (pending_crypto_packet_count_ u) (stream_notifier_ u).
Definition with_observed (u : QuicUnackedPacketMap) (n : Z) : QuicUnackedPacketMap :=
  MkUnacked (largest_sent_packet_ u) (largest_sent_retransmittable_packet_ u) n (unacked_packets_ u) (least_unacked_ u) (bytes_in_flight_ u) (pending_crypto_packet_count_ u) (stream_notifier_ u).
Definition SetStreamNotifier (u : QuicUnackedPacketMap) (b : bool) : QuicUnackedPacketMap :=
  MkUnacked (largest_sent_packet_ u) (largest_sent_retransmittable_packet_ u) (largest_observed_ u) (unacked_packets_ u) (least_unacked_ u) (bytes_in_flight_ u) (pending_crypto_packet_count_ u) b.

Definition QuicUnackedPacketMap_new : QuicUnackedPacketMap := MkUnacked 0 0 0 [] 1 0 0 false.

(** ** Frames *)

Definition is_stream_frame_of (stream_id : Z) (f : QuicFrame) : bool :=
  match f with StreamFrame s => sf_stream_id s =? stream_id | _ => false end.
Definition RemoveFramesForStream (frames : list QuicFrame) (stream_id : Z) : list QuicFrame :=
  List.filter (fun f => negb (is_stream_frame_of stream_id f)) frames.
Definition stream_frames (frames : list QuicFrame) : list QuicStreamFrame :=
  omap (fun f => match f with StreamFrame s => Some s | _ => None end) frames.

(** ** Entries *)

Definition GetTransmissionInfo (u : QuicUnackedPacketMap) (packet_number : Z) : option QuicTransmissionInfo :=
  if packet_number <? least_unacked_ u then None else unacked_packets_ u !! Z.to_nat (packet_number - least_unacked_ u).
Definition set_info (u : QuicUnackedPacketMap) (packet_number : Z) (i : QuicTransmissionInfo) : QuicUnackedPacketMap :=
  with_packets u (<[Z.to_nat (packet_number - least_unacked_ u) := i]> (unacked_packets_ u)) (least_unacked_ u).
Definition end_packet (u : QuicUnackedPacketMap) : Z := least_unacked_ u + Z.of_nat (length (unacked_packets_ u)).

Definition HasRetransmittableFrames (u : QuicUnackedPacketMap) (packet_number : Z) : option bool :=
  let* i := GetTransmissionInfo u packet_number in Some (negb (bool_decide (retransmittable_frames i = []))).
Definition IsPacketUsefulForMeasuringRtt (u : QuicUnackedPacketMap) (packet_number : Z) (i : QuicTransmissionInfo) : bool :=
  negb (is_unackable i) && (packet_number >? largest_observed_ u).
Definition IsPacketUsefulForCongestionControl (i : QuicTransmissionInfo) : bool := in_flight i.
Definition IsPacketUsefulForRetransmittableData (u : QuicUnackedPacketMap) (i : QuicTransmissionInfo) : bool :=
  match retransmittable_frames i with [] => retransmission i >? largest_observed_ u | _ => true end.
Definition IsPacketUseless (u : QuicUnackedPacketMap) (packet_number : Z) (i : QuicTransmissionInfo) : bool :=
  negb (IsPacketUsefulForMeasuringRtt u packet_number i) && negb (IsPacketUsefulForCongestionControl i) &&
  negb (IsPacketUsefulForRetransmittableData u i).
Definition IsUnacked (u : QuicUnackedPacketMap) (packet_number : Z) : bool :=
  if (packet_number <? least_unacked_ u) || (packet_number >=? end_packet u) then false
  else match GetTransmissionInfo u packet_number with Some i => negb (IsPacketUseless u packet_number i) | None => false end.

(** Pop the front while it is useless. *)
Fixpoint drop_useless (u : QuicUnackedPacketMap) (l : list QuicTransmissionInfo) (least : Z) : list QuicTransmissionInfo * Z :=
  match l with
  | i :: l' => if IsPacketUseless u least i then drop_useless u l' (least + 1) else (l, least)
  | [] => ([], least)
  end.
Definition RemoveObsoletePackets (u : QuicUnackedPacketMap) : QuicUnackedPacketMap :=
  let '(l, least) := drop_useless u (unacked_packets_ u) (least_unacked_ u) in with_packets u l least.

Definition IncreaseLargestObserved (u : QuicUnackedPacketMap) (largest_observed : Z) : QuicUnackedPacketMap := with_observed u largest_observed.

Definition RemoveFromInFlight (u : QuicUnackedPacketMap) (packet_number : Z) : option QuicUnackedPacketMap :=
  let* i := GetTransmissionInfo u packet_number in
  if in_flight i then
    Some (set_info (with_in_flight u (bytes_in_flight_ u -64 bytes_sent i)) packet_number (set_in_flight i false))
  else Some u.
Definition RestoreToInFlight (u : QuicUnackedPacketMap) (packet_number : Z) : option QuicUnackedPacketMap :=
  let* i := GetTransmissionInfo u packet_number in
  Some (set_info (with_in_flight u (bytes_in_flight_ u +64 bytes_sent i)) packet_number (set_in_flight i true)).

(** Follow the retransmissions to the newest one and delete its frames. *)
Fixpoint RemoveRetransmittability_loop (fuel : nat) (u : QuicUnackedPacketMap) (packet_number : Z) : option QuicUnackedPacketMap :=
  let* i := GetTransmissionInfo u packet_number in
  if negb (retransmission i =? 0) then
    match fuel with
    | O => None
    | S fuel => RemoveRetransmittability_loop fuel (set_info u packet_number (set_retransmission i 0)) (retransmission i)
    end
  else
    let '(u, i) := (if has_crypto_handshake i then
                      (with_crypto_count u (pending_crypto_packet_count_ u -64 1), set_has_crypto_handshake i false)
                    else (u, i)) in
    Some (set_info u packet_number (set_retransmittable_frames i [])).
Definition RemoveRetransmittability (u : QuicUnackedPacketMap) (packet_number : Z) : option QuicUnackedPacketMap :=
  RemoveRetransmittability_loop (length (unacked_packets_ u)) u packet_number.

(** quic_sent_packet_manager.cc: the newest transmission of the data of a packet. *)
Fixpoint GetNewestRetransmission_loop (fuel : nat) (u : QuicUnackedPacketMap) (packet_number next : Z) : option Z :=
  if next =? 0 then Some packet_number
  else match fuel with
       | O => None
       | S fuel => let* i := GetTransmissionInfo u next in GetNewestRetransmission_loop fuel u next (retransmission i)
       end.
Definition GetNewestRetransmission (u : QuicUnackedPacketMap) (packet_number : Z) (i : QuicTransmissionInfo) : option Z :=
  GetNewestRetransmission_loop (length (unacked_packets_ u)) u packet_number (retransmission i).

(** ** Notifications *)

Class StreamNotifierInterface (E : Type) := {
  OnStreamFrameAcked : QuicStreamFrame -> Z -> E -> E;
  OnStreamFrameRetransmitted : QuicStreamFrame -> E -> E;
  OnStreamFrameDiscarded : QuicStreamFrame -> E -> E;
  OnPacketAcked : Z -> Z -> Z -> E -> E;
  OnPacketRetransmitted : Z -> Z -> E -> E }.

Section Notifying.
Context {E : Type} `{StreamNotifierInterface E}.

Definition notify {A} (f : A -> E -> E) (l : list A) (e : E) : E := fold_left (fun e x => f x e) l e.

Definition NotifyAndClearListeners (u : QuicUnackedPacketMap) (e : E) (packet_number ack_delay_time : Z) : option (QuicUnackedPacketMap * E) :=
  let* i := GetTransmissionInfo u packet_number in
  Some (set_info u packet_number (set_ack_listeners i []),
        notify (fun l => OnPacketAcked (ack_listener l) (al_length l) ack_delay_time) (ack_listeners i) e).
Definition NotifyStreamFramesAcked (u : QuicUnackedPacketMap) (e : E) (i : QuicTransmissionInfo) (ack_delay : Z) : E :=
  if stream_notifier_ u then notify (fun f => OnStreamFrameAcked f ack_delay) (stream_frames (retransmittable_frames i)) e else e.

(** [info] is the entry of the new packet. *)
Definition TransferRetransmissionInfo (u : QuicUnackedPacketMap) (e : E) (old_packet_number new_packet_number : Z) (type : TransmissionType)
    (info : QuicTransmissionInfo) : option (QuicUnackedPacketMap * E * QuicTransmissionInfo) :=
  if old_packet_number <? least_unacked_ u then Some (u, e, info)
  else if old_packet_number >? largest_sent_packet_ u then Some (u, e, info)
  else
    let* t := GetTransmissionInfo u old_packet_number in
    let frames := retransmittable_frames t in
    let e := if stream_notifier_ u then notify OnStreamFrameRetransmitted (stream_frames frames) e else e in
    let e := notify (fun l => OnPacketRetransmitted (ack_listener l) (al_length l)) (ack_listeners t) e in
    let t' := set_has_crypto_handshake (set_retransmittable_frames t (retransmittable_frames info)) false in
    let info' := set_num_padding_bytes (set_has_crypto_handshake (set_retransmittable_frames info frames) (has_crypto_handshake t))
                   (num_padding_bytes t) in
    let t' := set_ack_listeners t' (ack_listeners info) in
    let info' := set_ack_listeners info' (ack_listeners t) in
    let t' := if bool_decide (type = ALL_INITIAL_RETRANSMISSION) || bool_decide (type = ALL_UNACKED_RETRANSMISSION)
              then set_is_unackable t' true else set_retransmission t' new_packet_number in
    Some (RemoveObsoletePackets (set_info u old_packet_number t'), e, info').

Definition AddSentPacket (u : QuicUnackedPacketMap) (e : E) (packet : SerializedPacket) (old_packet_number : Z) (type : TransmissionType)
    (time : Z) (set_in_flight_ : bool) : option (QuicUnackedPacketMap * E) :=
  let packet_number := sp_packet_number packet in
  let bytes := sp_encrypted_length packet in
  (** entries for the numbers that were skipped *)
  let u := with_packets u (unacked_packets_ u ++
             replicate (Z.to_nat (packet_number - end_packet u)) (set_is_unackable QuicTransmissionInfo_default true)) (least_unacked_ u) in
  let info := QuicTransmissionInfo_new (sp_encryption_level packet) (sp_packet_number_length packet) type time bytes
                (sp_has_crypto_handshake packet) (sp_num_padding_bytes packet) in
  let info := set_largest_acked info (sp_largest_acked packet) in
  let* (u, e, info) := (if old_packet_number >? 0 then TransferRetransmissionInfo u e old_packet_number packet_number type info
                        else Some (u, e, info)) in
  let u := with_largest_sent u packet_number (if set_in_flight_ then packet_number else largest_sent_retransmittable_packet_ u) in
  let '(u, info) := (if set_in_flight_ then (with_in_flight u (bytes_in_flight_ u +64 bytes), set_in_flight info true) else (u, info)) in
  if old_packet_number =? 0 then
    let u := if sp_has_crypto_handshake packet then with_crypto_count u (pending_crypto_packet_count_ u +64 1) else u in
    let info := set_ack_listeners (set_retransmittable_frames info (sp_retransmittable_frames packet)) (sp_listeners packet) in
    Some (with_packets u (unacked_packets_ u ++ [info]) (least_unacked_ u), e)
  else Some (with_packets u (unacked_packets_ u ++ [info]) (least_unacked_ u), e).

(** The loop over the packets from [packet_number]. *)
Fixpoint CancelRetransmissions_loop (n : nat) (u : QuicUnackedPacketMap) (e : E) (packet_number stream_id : Z) : option (QuicUnackedPacketMap * E) :=
  match n with
  | O => Some (u, e)
  | S n =>
      let* i := GetTransmissionInfo u packet_number in
      match retransmittable_frames i with
      | [] => CancelRetransmissions_loop n u e (packet_number + 1) stream_id
      | frames =>
          let e := if stream_notifier_ u
                   then notify OnStreamFrameDiscarded (List.filter (fun f => sf_stream_id f =? stream_id) (stream_frames frames)) e else e in
          let frames := RemoveFramesForStream frames stream_id in
          let u := set_info u packet_number (set_retransmittable_frames i frames) in
          let* u := (match frames with [] => RemoveRetransmittability u packet_number | _ => Some u end) in
          CancelRetransmissions_loop n u e (packet_number + 1) stream_id
      end
  end.
Definition CancelRetransmissionsForStream (u : QuicUnackedPacketMap) (e : E) (stream_id : Z) : option (QuicUnackedPacketMap * E) :=
  CancelRetransmissions_loop (length (unacked_packets_ u)) u e (least_unacked_ u) stream_id.
End Notifying.

(** ** Queries *)

Definition kDefaultTCPMSS : Z := 1460.
Definition HasUnackedPackets (u : QuicUnackedPacketMap) : bool := match unacked_packets_ u with [] => false | _ => true end.
Definition HasInFlightPackets (u : QuicUnackedPacketMap) : bool := bytes_in_flight_ u >? 0.
Definition GetLeastUnacked (u : QuicUnackedPacketMap) : Z := least_unacked_ u.
Definition GetLastPacketSentTime (u : QuicUnackedPacketMap) : Z :=
  match List.find in_flight (rev (unacked_packets_ u)) with Some i => sent_time i | None => QuicTime_Zero end.
Definition HasMultipleInFlightPackets (u : QuicUnackedPacketMap) : bool :=
  (bytes_in_flight_ u >? kDefaultTCPMSS) || (1 <? length (List.filter in_flight (unacked_packets_ u)))%nat.
Definition HasPendingCryptoPackets (u : QuicUnackedPacketMap) : bool := pending_crypto_packet_count_ u >? 0.
Definition HasUnackedRetransmittableFrames (u : QuicUnackedPacketMap) : bool :=
  existsb (fun i => in_flight i && negb (bool_decide (retransmittable_frames i = []))) (unacked_packets_ u).
Fixpoint count_unacked (u : QuicUnackedPacketMap) (l : list QuicTransmissionInfo) (packet_number : Z) : nat :=
  match l with
  | i :: l => (if IsPacketUseless u packet_number i then 0 else 1) + count_unacked u l (packet_number + 1)
  | [] => 0
  end.
Definition GetNumUnackedPacketsDebugOnly (u : QuicUnackedPacketMap) : nat := count_unacked u (unacked_packets_ u) (least_unacked_ u).
