(* ===== verification/UnackedFacts.v ===== *)
(** * The unacknowledged packets: invariant and abstract view

    The state of quic_unacked_packet_map.cc seen from its clients: for every packet
    number the frames it holds for retransmission ([held]), whether it is in flight
    ([flying]) and whether it is a handshake packet ([crypto_at]).  Every operation is
    total on well-formed maps and acts on these views in the way its name says; old
    entries that are dropped, chains of retransmissions and the counters are details
    below the view. *)

From stdpp Require Import gmap sorting.
From S2P Require Import Prelude QuicTime QuicData Framer SequencerBuffer UnackedPacketMap.

(** ** Sums over the entries *)

Definition total (f : QuicTransmissionInfo -> Z) (l : list QuicTransmissionInfo) : Z := foldr (fun i a => f i + a) 0 l.
Definition flight_bytes (i : QuicTransmissionInfo) : Z := if in_flight i then bytes_sent i else 0.
Definition crypto_weight (i : QuicTransmissionInfo) : Z := if has_crypto_handshake i then 1 else 0.

Lemma total_app f l k : total f (l ++ k) = total f l + total f k.
Proof. induction l as [|i l IH]; simpl; [done|]. unfold total in *. lia. Qed.
Lemma total_insert f l n i j : l !! n = Some i -> total f (<[n := j]> l) = total f l - f i + f j.
Proof.
  unfold total. revert n. induction l as [|k l IH]; intros [|n] Hl; simplify_eq/=; [lia|]. specialize (IH n Hl). lia.
Qed.
Lemma total_drop_zero f l n : (forall k i, (k < n)%nat -> l !! k = Some i -> f i = 0) -> total f (drop n l) = total f l.
Proof.
  revert l. induction n as [|n IH]; intros [|i l] H; try done. cbn [drop].
  rewrite (IH l) by (intros k j Hk Hl; apply (H (S k)); [lia|done]). pose proof (H O i ltac:(lia) eq_refl). unfold total. simpl. lia.
Qed.
Lemma total_replicate_zero f n i : f i = 0 -> total f (replicate n i) = 0.
Proof. intros Hf. induction n; simpl; [done|]. unfold total in *. lia. Qed.
Lemma total_bounds f l b : (forall i, i ∈ l -> 0 <= f i <= b) -> 0 <= total f l <= b * Z.of_nat (length l).
Proof.
  induction l as [|i l IH]; intros H; simpl; [lia|]. unfold total in *.
  pose proof (H i (list_elem_of_here _ _)). assert (forall j, j ∈ l -> 0 <= f j <= b) by (intros; apply H; by right).
  specialize (IH ltac:(done)). lia.
Qed.
Lemma total_member f l i : (forall j, j ∈ l -> 0 <= f j) -> i ∈ l -> f i <= total f l.
Proof.
  intros H Hi. apply list_elem_of_split in Hi as (l1 & l2 & ->). rewrite total_app. simpl.
  assert (forall k, (forall j, j ∈ k -> 0 <= f j) -> 0 <= total f k) as Hpos.
  { clear. induction k as [|j k IH]; intros Hk; simpl; [lia|]. unfold total in *.
    pose proof (Hk j (list_elem_of_here _ _)). specialize (IH ltac:(intros; apply Hk; by right)). lia. }
  assert (0 <= total f l1) by (apply Hpos; intros; apply H; set_solver).
  assert (0 <= total f l2) by (apply Hpos; intros; apply H; set_solver). unfold total in *. lia.
Qed.

(** ** The views *)

Definition held (u : QuicUnackedPacketMap) (pn : Z) : list QuicFrame :=
  match GetTransmissionInfo u pn with Some i => retransmittable_frames i | None => [] end.
Definition flying (u : QuicUnackedPacketMap) (pn : Z) : bool :=
  match GetTransmissionInfo u pn with Some i => in_flight i | None => false end.
Definition crypto_at (u : QuicUnackedPacketMap) (pn : Z) : bool :=
  match GetTransmissionInfo u pn with Some i => has_crypto_handshake i | None => false end.

Lemma GetTransmissionInfo_range u pn i : GetTransmissionInfo u pn = Some i -> least_unacked_ u <= pn < end_packet u.
Proof. unfold GetTransmissionInfo, end_packet. case_if; [done|]. intros H%lookup_lt_Some. blia. Qed.
Lemma GetTransmissionInfo_inside u pn : least_unacked_ u <= pn < end_packet u -> exists i, GetTransmissionInfo u pn = Some i.
Proof. unfold GetTransmissionInfo, end_packet. intros H. case_if; [blia|]. apply lookup_lt_is_Some_2. lia. Qed.
Lemma GetTransmissionInfo_elem u pn i : GetTransmissionInfo u pn = Some i -> i ∈ unacked_packets_ u.
Proof. unfold GetTransmissionInfo. case_if; [done|]. apply list_elem_of_lookup_2. Qed.
Lemma elem_GetTransmissionInfo u i : i ∈ unacked_packets_ u -> exists pn, GetTransmissionInfo u pn = Some i.
Proof.
  intros (k & Hk)%list_elem_of_lookup_1. exists (least_unacked_ u + Z.of_nat k). unfold GetTransmissionInfo. case_if; [blia|].
  by replace (Z.to_nat _) with k by lia.
Qed.

(** Two maps with the same entries have the same views. *)
Lemma views_ext u v : unacked_packets_ u = unacked_packets_ v -> least_unacked_ u = least_unacked_ v ->
  forall pn, GetTransmissionInfo u pn = GetTransmissionInfo v pn.
Proof. intros H1 H2 pn. unfold GetTransmissionInfo. by rewrite H1, H2. Qed.

Section SetInfo.
Context (u : QuicUnackedPacketMap) (pn : Z) (i : QuicTransmissionInfo) (Hi : GetTransmissionInfo u pn = Some i).

Lemma set_info_end j : end_packet (set_info u pn j) = end_packet u.
Proof using. unfold end_packet. simpl. by rewrite length_insert. Qed.
Lemma set_info_lookup j q : GetTransmissionInfo (set_info u pn j) q = if q =? pn then Some j else GetTransmissionInfo u q.
Proof using Hi.
  pose proof (GetTransmissionInfo_range u pn i Hi) as [H1 H2]. unfold GetTransmissionInfo, end_packet in *. cbn [set_info with_packets least_unacked_ unacked_packets_].
  case_if; [case_if; [blia|done]|]. case_if; bool_to_prop.
  - subst. rewrite list_lookup_insert_eq by lia. done.
  - apply list_lookup_insert_ne. lia.
Qed.
Lemma set_info_total f j : total f (unacked_packets_ (set_info u pn j)) = total f (unacked_packets_ u) - f i + f j.
Proof using Hi. apply total_insert. unfold GetTransmissionInfo in Hi. revert Hi. case_if; done. Qed.
End SetInfo.

(** ** The invariant *)

(** [lim] is the largest packet number an entry may point to. *)
Record entry_ok (lim pn : Z) (i : QuicTransmissionInfo) : Prop := {
  eo_bytes : 0 <= bytes_sent i < 2 ^ 16;
  eo_sent : in_flight i = true \/ retransmittable_frames i <> [] -> 0 < bytes_sent i;
  eo_crypto : has_crypto_handshake i = true -> retransmittable_frames i <> [];
  eo_framed : retransmittable_frames i <> [] -> is_unackable i = false /\ retransmission i = 0;
  eo_next : retransmission i <> 0 -> pn < retransmission i <= lim }.

(** The counters are the sums over the entries; [extra] handshake packets are counted
    and not in the table. *)
Record table_ok (lim extra : Z) (u : QuicUnackedPacketMap) : Prop := {
  to_least : 1 <= least_unacked_ u;
  to_end : end_packet u <= lim + 1;
  to_limit : lim < 2 ^ 48;
  to_extra : 0 <= extra <= 1;
  to_bytes : bytes_in_flight_ u = total flight_bytes (unacked_packets_ u);
  to_crypto : pending_crypto_packet_count_ u = total crypto_weight (unacked_packets_ u) + extra;
  to_entries : forall pn i, GetTransmissionInfo u pn = Some i -> entry_ok lim pn i }.

Definition map_ok (u : QuicUnackedPacketMap) : Prop :=
  table_ok (largest_sent_packet_ u) 0 u /\ end_packet u = largest_sent_packet_ u + 1.

Lemma map_ok_new : map_ok QuicUnackedPacketMap_new.
Proof.
  split; [|done]. split; try (vm_compute; intuition congruence). intros pn i. unfold GetTransmissionInfo.
  case_if; [done|]. simpl. by rewrite lookup_nil.
Qed.

Lemma entry_flight_bytes lim pn i : entry_ok lim pn i -> 0 <= flight_bytes i <= 65535.
Proof. intros []. unfold flight_bytes. destruct (in_flight i); lia. Qed.
Lemma crypto_weight_bounds i : 0 <= crypto_weight i <= 1.
Proof. unfold crypto_weight. destruct (has_crypto_handshake i); lia. Qed.

Section Totals.
Context (lim : Z) (u : QuicUnackedPacketMap).
Context (Hleast : 1 <= least_unacked_ u) (Hend : end_packet u <= lim + 1) (Hlim : lim < 2 ^ 48).
Context (Hentries : forall pn i, GetTransmissionInfo u pn = Some i -> entry_ok lim pn i).

Lemma totals_bounded : is_u64 (total flight_bytes (unacked_packets_ u)) /\ 0 <= total crypto_weight (unacked_packets_ u) < 2 ^ 48.
Proof.
  assert (Z.of_nat (length (unacked_packets_ u)) < 2 ^ 48) by (unfold end_packet in Hend; lia).
  pose proof (total_bounds flight_bytes (unacked_packets_ u) 65535) as H1. pose proof (total_bounds crypto_weight (unacked_packets_ u) 1) as H2.
  specialize (H2 (fun i _ => crypto_weight_bounds i)). split; [|lia].
  specialize (H1 ltac:(intros i (pn & Hpn)%elem_GetTransmissionInfo; eapply entry_flight_bytes, Hentries, Hpn)). unfold is_u64. lia.
Qed.
End Totals.

(** A change of one entry, with the counters changed to match. *)
Lemma table_ok_update lim x x' u u' pn i j : table_ok lim x u -> GetTransmissionInfo u pn = Some i -> entry_ok lim pn j ->
  unacked_packets_ u' = unacked_packets_ (set_info u pn j) -> least_unacked_ u' = least_unacked_ u -> 0 <= x' <= 1 ->
  bytes_in_flight_ u' = u64 (bytes_in_flight_ u - flight_bytes i + flight_bytes j) ->
  pending_crypto_packet_count_ u' = u64 (pending_crypto_packet_count_ u - x - crypto_weight i + crypto_weight j + x') ->
  table_ok lim x' u'.
Proof.
  intros Hu Hi Hj Hl Hleast Hx' Hb Hc.
  assert (end_packet u' = end_packet u) as He by (rewrite <-(set_info_end u pn j); unfold end_packet; by rewrite Hl, Hleast).
  assert (forall q k, GetTransmissionInfo u' q = Some k -> entry_ok lim q k) as Hent.
  { intros q k Hk. rewrite (views_ext u' (set_info u pn j)) in Hk by done. rewrite (set_info_lookup u pn i Hi) in Hk.
    revert Hk. case_if; bool_to_prop; [intros [= <-]; by subst|]. apply Hu. }
  destruct Hu as [H1 H2 H3 H4 H5 H6 H7].
  destruct (totals_bounded lim u') as [B1 B2]; rewrite ?Hleast, ?He; try done.
  rewrite Hl, (set_info_total u pn i Hi) in B1, B2. split; rewrite ?Hleast, ?He; try done.
  - rewrite Hb, Hl, (set_info_total u pn i Hi), H5. by apply u64_id.
  - rewrite Hc, Hl, (set_info_total u pn i Hi), H6. rewrite u64_id; [lia|]. unfold is_u64. lia.
Qed.

Lemma map_ok_entry u pn i : map_ok u -> GetTransmissionInfo u pn = Some i -> entry_ok (largest_sent_packet_ u) pn i.
Proof. intros [H _]. apply H. Qed.
Lemma map_ok_inside u pn : map_ok u -> least_unacked_ u <= pn <= largest_sent_packet_ u -> exists i, GetTransmissionInfo u pn = Some i.
Proof. intros [_ H] Hpn. apply GetTransmissionInfo_inside. lia. Qed.

(** An operation that changes one entry of a well-formed map keeps it well-formed. *)
Lemma map_ok_update u u' pn i j : map_ok u -> GetTransmissionInfo u pn = Some i -> entry_ok (largest_sent_packet_ u) pn j ->
  unacked_packets_ u' = unacked_packets_ (set_info u pn j) -> least_unacked_ u' = least_unacked_ u ->
  largest_sent_packet_ u' = largest_sent_packet_ u ->
  bytes_in_flight_ u' = u64 (bytes_in_flight_ u - flight_bytes i + flight_bytes j) ->
  pending_crypto_packet_count_ u' = u64 (pending_crypto_packet_count_ u - crypto_weight i + crypto_weight j) ->
  map_ok u'.
Proof.
  intros [Hu He] Hi Hj Hl Hleast Hs Hb Hc. split.
  - rewrite Hs. apply (table_ok_update _ 0 0 u u' pn i j); try done. rewrite Hc. f_equal. lia.
  - rewrite Hs, <-He, <-(set_info_end u pn j). unfold end_packet. by rewrite Hl, Hleast.
Qed.

Lemma map_ok_counters u : map_ok u -> is_u64 (bytes_in_flight_ u) /\ is_u64 (pending_crypto_packet_count_ u).
Proof.
  intros [[H1 H2 H3 H4 H5 H6 H7] _]. destruct (totals_bounded (largest_sent_packet_ u) u) as [B1 B2]; try done.
  rewrite H5, H6. split; [done|]. unfold is_u64. lia.
Qed.

(** Fields that no operation on the entries changes. *)
Record same_frame (u u' : QuicUnackedPacketMap) : Prop := {
  sf_largest_sent : largest_sent_packet_ u' = largest_sent_packet_ u;
  sf_retransmittable : largest_sent_retransmittable_packet_ u' = largest_sent_retransmittable_packet_ u;
  sf_observed : largest_observed_ u' = largest_observed_ u;
  sf_notifier : stream_notifier_ u' = stream_notifier_ u }.
#[export] Instance same_frame_preorder : PreOrder same_frame.
Proof. split; [by intros u|]. intros u v w [] []. split; congruence. Qed.

(** [u'] is well-formed and its views are the given functions. *)
Record acts (u u' : QuicUnackedPacketMap) (h : Z -> list QuicFrame) (fl cr : Z -> bool) : Prop := {
  ac_ok : map_ok u';
  ac_frame : same_frame u u';
  ac_held : forall q, held u' q = h q;
  ac_flying : forall q, flying u' q = fl q;
  ac_crypto : forall q, crypto_at u' q = cr q }.

(** ** Changing one entry *)

Section OneEntry.
Context (u u' : QuicUnackedPacketMap) (pn : Z) (i j : QuicTransmissionInfo).
Context (Hok : map_ok u) (Hi : GetTransmissionInfo u pn = Some i) (Hj : entry_ok (largest_sent_packet_ u) pn j).
Context (Hl : unacked_packets_ u' = unacked_packets_ (set_info u pn j)) (Hleast : least_unacked_ u' = least_unacked_ u) (Hf : same_frame u u').
Context (Hb : bytes_in_flight_ u' = u64 (bytes_in_flight_ u - flight_bytes i + flight_bytes j)).
Context (Hc : pending_crypto_packet_count_ u' = u64 (pending_crypto_packet_count_ u - crypto_weight i + crypto_weight j)).

Lemma acts_one_entry :
  acts u u' (fun q => if q =? pn then retransmittable_frames j else held u q)
            (fun q => if q =? pn then in_flight j else flying u q)
            (fun q => if q =? pn then has_crypto_handshake j else crypto_at u q).
Proof.
  assert (forall q, GetTransmissionInfo u' q = if q =? pn then Some j else GetTransmissionInfo u q) as Hlook.
  { intros q. rewrite (views_ext u' (set_info u pn j)) by done. by apply set_info_lookup with i. }
  split; [|done| | |]; [|intros q; unfold held, flying, crypto_at; rewrite Hlook; by case_if..].
  apply (map_ok_update u u' pn i j); try done. apply Hf.
Qed.
End OneEntry.

Lemma view_here u pn i : GetTransmissionInfo u pn = Some i ->
  held u pn = retransmittable_frames i /\ flying u pn = in_flight i /\ crypto_at u pn = has_crypto_handshake i.
Proof. intros H. unfold held, flying, crypto_at. by rewrite H. Qed.

(** Views that agree everywhere are the same action. *)
Lemma acts_ext u u' h fl cr h' fl' cr' : acts u u' h fl cr ->
  (forall q, h q = h' q) -> (forall q, fl q = fl' q) -> (forall q, cr q = cr' q) -> acts u u' h' fl' cr'.
Proof. intros [] H1 H2 H3. split; intros; rewrite <-?H1, <-?H2, <-?H3; auto. Qed.
Lemma acts_refl u : map_ok u -> acts u u (held u) (flying u) (crypto_at u).
Proof. intros H. by split. Qed.

(** An entry of which some fields were cleared. *)
Ltac entry_cleared := split; simpl; try done; try (intros [?|?]; try done; auto).
(** Close the equality of a view that is changed at one packet number only. *)
Ltac view_cases := intros ?q; cbv beta; try case_if; bool_to_prop; subst; try done.

Lemma RemoveFromInFlight_acts u pn : map_ok u -> least_unacked_ u <= pn <= largest_sent_packet_ u -> exists u',
  RemoveFromInFlight u pn = Some u' /\ least_unacked_ u' = least_unacked_ u /\
  acts u u' (held u) (fun q => if q =? pn then false else flying u q) (crypto_at u).
Proof.
  intros Hok Hpn. destruct (map_ok_inside u pn Hok Hpn) as [i Hi]. unfold RemoveFromInFlight. rewrite Hi. cbn [mbind option_bind].
  destruct (view_here u pn i Hi) as (V1 & V2 & V3). pose proof (map_ok_entry u pn i Hok Hi) as [E1 E0 E2 E3 E4].
  destruct (in_flight i) eqn:Hf; eexists; (split; [done|]); (split; [done|]).
  - eapply acts_ext; [apply (acts_one_entry u _ pn i (set_in_flight i false)); try done| | |]; [..|view_cases|view_cases|view_cases].
    + entry_cleared.
    + simpl. f_equal. unfold flight_bytes. simpl. rewrite Hf. lia.
    + simpl. destruct (map_ok_counters u Hok). unfold crypto_weight. simpl. rewrite <-(u64_id (pending_crypto_packet_count_ u)) at 1 by done. f_equal. lia.
  - eapply acts_ext; [by apply acts_refl|done| |done]. view_cases.
Qed.

Lemma RestoreToInFlight_acts u pn : map_ok u -> held u pn <> [] -> flying u pn = false -> exists u',
  RestoreToInFlight u pn = Some u' /\ least_unacked_ u' = least_unacked_ u /\
  acts u u' (held u) (fun q => if q =? pn then true else flying u q) (crypto_at u).
Proof.
  intros Hok Hpn Hfl. unfold RestoreToInFlight. destruct (GetTransmissionInfo u pn) as [i|] eqn:Hi; [|unfold held in Hpn; by rewrite Hi in Hpn].
  cbn [mbind option_bind].
  destruct (view_here u pn i Hi) as (V1 & V2 & V3). pose proof (map_ok_entry u pn i Hok Hi) as [E1 E0 E2 E3 E4].
  eexists; (split; [done|]); (split; [done|]).
  eapply acts_ext; [apply (acts_one_entry u _ pn i (set_in_flight i true)); try done| | |]; [..|view_cases|view_cases|view_cases].
  - split; simpl; try done. intros _. apply E0. right. by rewrite <-V1.
  - simpl. f_equal. unfold flight_bytes. simpl. rewrite <-V2, Hfl. lia.
  - simpl. destruct (map_ok_counters u Hok). unfold crypto_weight. simpl. rewrite <-(u64_id (pending_crypto_packet_count_ u)) at 1 by done. f_equal. lia.
Qed.

(** ** Chains of retransmissions *)

Lemma newest_ext fuel u v pn next lim : (forall q, next <= q -> GetTransmissionInfo v q = GetTransmissionInfo u q) ->
  (forall q i, GetTransmissionInfo u q = Some i -> entry_ok lim q i) ->
  GetNewestRetransmission_loop fuel v pn next = GetNewestRetransmission_loop fuel u pn next.
Proof.
  intros Heq Hent. revert pn next Heq. induction fuel as [|fuel IH]; intros pn next Heq; simpl; case_if; try done.
  rewrite Heq by lia. destruct (GetTransmissionInfo u next) as [i|] eqn:Hi; [|done]. cbn [mbind option_bind].
  destruct (decide (retransmission i = 0)) as [Hz|Hz]; [destruct fuel; simpl; by rewrite Hz|].
  apply IH. intros q Hq. apply Heq. pose proof (eo_next _ _ _ (Hent _ _ Hi) Hz). lia.
Qed.

(** The end of the chain: the entry whose frames go away. *)
Lemma RemoveRetransmittability_here fuel u pn i : map_ok u -> GetTransmissionInfo u pn = Some i -> retransmission i = 0 -> exists u',
  RemoveRetransmittability_loop fuel u pn = Some u' /\ least_unacked_ u' = least_unacked_ u /\
  acts u u' (fun q => if q =? pn then [] else held u q) (flying u) (fun q => if q =? pn then false else crypto_at u q).
Proof.
  intros Hok Hi Hz. destruct (view_here u pn i Hi) as (V1 & V2 & V3). pose proof (map_ok_entry u pn i Hok Hi) as [E1 E0 E2 E3 E4].
  destruct (map_ok_counters u Hok) as [B1 B2].
  assert (RemoveRetransmittability_loop fuel u pn =
    (let '(v, k) := (if has_crypto_handshake i then (with_crypto_count u (pending_crypto_packet_count_ u -64 1), set_has_crypto_handshake i false)
                     else (u, i)) in Some (set_info v pn (set_retransmittable_frames k [])))) as ->.
  { destruct fuel; simpl; rewrite Hi; cbn [mbind option_bind]; by rewrite Hz. }
  destruct (has_crypto_handshake i) eqn:Hcr; eexists; (split; [done|]); (split; [done|]).
  - eapply acts_ext; [apply (acts_one_entry u _ pn i (set_retransmittable_frames (set_has_crypto_handshake i false) [])); try done| | |];
      [..|view_cases|view_cases|view_cases].
    + entry_cleared.
    + simpl. rewrite <-(u64_id (bytes_in_flight_ u)) at 1 by done. f_equal. unfold flight_bytes. simpl. lia.
    + simpl. f_equal. unfold crypto_weight. simpl. rewrite Hcr. lia.
  - eapply acts_ext; [apply (acts_one_entry u _ pn i (set_retransmittable_frames i [])); try done| | |]; [..|view_cases|view_cases|view_cases].
    + entry_cleared. congruence.
    + simpl. rewrite <-(u64_id (bytes_in_flight_ u)) at 1 by done. f_equal. unfold flight_bytes. simpl. lia.
    + simpl. rewrite <-(u64_id (pending_crypto_packet_count_ u)) at 1 by done. f_equal. unfold crypto_weight. simpl. lia.
Qed.

(** Unlinking an entry from its retransmission. *)
Lemma set_retransmission_acts u pn i : map_ok u -> GetTransmissionInfo u pn = Some i ->
  acts u (set_info u pn (set_retransmission i 0)) (held u) (flying u) (crypto_at u).
Proof.
  intros Hok Hi. destruct (view_here u pn i Hi) as (V1 & V2 & V3). pose proof (map_ok_entry u pn i Hok Hi) as [E1 E0 E2 E3 E4].
  destruct (map_ok_counters u Hok) as [B1 B2].
  eapply acts_ext; [apply (acts_one_entry u _ pn i (set_retransmission i 0)); try done| | |]; [..|view_cases|view_cases|view_cases].
  - split; simpl; try done. intros H. split; [apply E3; done|done].
  - simpl. rewrite <-(u64_id (bytes_in_flight_ u)) at 1 by done. f_equal. unfold flight_bytes. simpl. lia.
  - simpl. rewrite <-(u64_id (pending_crypto_packet_count_ u)) at 1 by done. f_equal. unfold crypto_weight. simpl. lia.
Qed.

Lemma acts_trans u v w h fl cr : same_frame u v -> acts v w h fl cr -> acts u w h fl cr.
Proof. intros H []. split; try done. by transitivity v. Qed.

Lemma RemoveRetransmittability_loop_acts fuel u pn i : map_ok u -> GetTransmissionInfo u pn = Some i ->
  end_packet u - pn <= Z.of_nat fuel + 1 -> exists u' n j,
  RemoveRetransmittability_loop fuel u pn = Some u' /\ least_unacked_ u' = least_unacked_ u /\
  GetNewestRetransmission_loop fuel u pn (retransmission i) = Some n /\ pn <= n /\
  GetTransmissionInfo u n = Some j /\ retransmission j = 0 /\
  acts u u' (fun q => if q =? n then [] else held u q) (flying u) (fun q => if q =? n then false else crypto_at u q).
Proof.
  revert u pn i. induction fuel as [|fuel IH]; intros u pn i Hok Hi Hfuel; pose proof (GetTransmissionInfo_range u pn i Hi) as Hr;
    pose proof (map_ok_entry u pn i Hok Hi) as He; destruct (decide (retransmission i = 0)) as [Hz|Hz].
  - destruct (RemoveRetransmittability_here 0 u pn i Hok Hi Hz) as (u' & R). exists u', pn, i. rewrite Hz. split_and!; (apply R || done || lia).
  - pose proof (eo_next _ _ _ He Hz). destruct Hok as [_ Hend]. lia.
  - destruct (RemoveRetransmittability_here (S fuel) u pn i Hok Hi Hz) as (u' & R). exists u', pn, i. rewrite Hz. split_and!; (apply R || done || lia).
  - cbn [RemoveRetransmittability_loop GetNewestRetransmission_loop]. rewrite Hi. cbn [mbind option_bind].
    pose proof (eo_next _ _ _ He Hz) as Hn. destruct (map_ok_inside u (retransmission i) Hok ltac:(lia)) as [k Hk].
    rewrite (proj2 (Z.eqb_neq _ _) Hz), Hk. cbn [negb mbind option_bind]. pose proof (set_retransmission_acts u pn i Hok Hi) as A.
    set (v := set_info u pn (set_retransmission i 0)) in *. pose proof (set_info_lookup u pn i Hi (set_retransmission i 0)) as Hlook. fold v in Hlook.
    assert (GetTransmissionInfo v (retransmission i) = Some k) as Hkv by (rewrite Hlook; case_if; [blia|done]).
    destruct (IH v (retransmission i) k (ac_ok _ _ _ _ _ A) Hkv) as (u' & n & j & I1 & I2 & I3 & I4 & I5 & I6 & I7).
    { unfold v. rewrite set_info_end. lia. }
    exists u', n, j. split; [done|]. split; [done|]. split.
    { rewrite <-I3. symmetry. destruct (decide (retransmission k = 0)) as [Hkz|Hkz]; [destruct fuel; simpl; by rewrite Hkz|].
      apply (newest_ext fuel u v _ _ (largest_sent_packet_ u)); [|intros q l; by apply map_ok_entry].
      intros q Hq. rewrite Hlook. case_if; [|done]. pose proof (eo_next _ _ _ (map_ok_entry _ _ _ Hok Hk) Hkz). blia. }
    split; [lia|]. rewrite Hlook in I5. split; [revert I5; case_if; [blia|done]|]. split; [done|].
    apply (acts_trans u v); [apply A|]. eapply acts_ext; [exact I7| | |]; intros q; cbv beta; try case_if; try done; apply A.
Qed.

Lemma RemoveRetransmittability_acts u pn i : map_ok u -> GetTransmissionInfo u pn = Some i -> exists u' n j,
  RemoveRetransmittability u pn = Some u' /\ least_unacked_ u' = least_unacked_ u /\
  GetNewestRetransmission u pn i = Some n /\ pn <= n /\ GetTransmissionInfo u n = Some j /\ retransmission j = 0 /\
  acts u u' (fun q => if q =? n then [] else held u q) (flying u) (fun q => if q =? n then false else crypto_at u q).
Proof.
  intros Hok Hi. apply RemoveRetransmittability_loop_acts; [done..|].
  pose proof (GetTransmissionInfo_range u pn i Hi). unfold end_packet in *. lia.
Qed.

(** ** Changes that no view shows *)

Section Invisible.
Context (f : QuicTransmissionInfo -> QuicTransmissionInfo).
Context (Hf : forall i, retransmittable_frames (f i) = retransmittable_frames i /\ in_flight (f i) = in_flight i /\
  has_crypto_handshake (f i) = has_crypto_handshake i /\ bytes_sent (f i) = bytes_sent i).

Lemma invisible_acts u pn i : map_ok u -> GetTransmissionInfo u pn = Some i -> entry_ok (largest_sent_packet_ u) pn (f i) ->
  acts u (set_info u pn (f i)) (held u) (flying u) (crypto_at u).
Proof.
  intros Hok Hi Hj. destruct (view_here u pn i Hi) as (V1 & V2 & V3), (Hf i) as (F1 & F2 & F3 & F4).
  destruct (map_ok_counters u Hok) as [B1 B2].
  eapply acts_ext; [apply (acts_one_entry u _ pn i (f i)); try done| | |]; [..|view_cases; congruence|view_cases; congruence|view_cases; congruence].
  - simpl. rewrite <-(u64_id (bytes_in_flight_ u)) at 1 by done. f_equal. unfold flight_bytes. rewrite F2, F4. lia.
  - simpl. rewrite <-(u64_id (pending_crypto_packet_count_ u)) at 1 by done. f_equal. unfold crypto_weight. rewrite F3. lia.
Qed.
End Invisible.

Lemma set_is_unackable_acts u pn i : map_ok u -> GetTransmissionInfo u pn = Some i -> retransmittable_frames i = [] ->
  acts u (set_info u pn (set_is_unackable i true)) (held u) (flying u) (crypto_at u).
Proof.
  intros Hok Hi Hz. apply (invisible_acts (fun i => set_is_unackable i true)); [done..|].
  destruct (map_ok_entry u pn i Hok Hi). split; simpl; try done.
Qed.
Lemma set_ack_listeners_acts u pn i x : map_ok u -> GetTransmissionInfo u pn = Some i ->
  acts u (set_info u pn (set_ack_listeners i x)) (held u) (flying u) (crypto_at u).
Proof.
  intros Hok Hi. apply (invisible_acts (fun i => set_ack_listeners i x)); [done..|].
  destruct (map_ok_entry u pn i Hok Hi). by split.
Qed.

Lemma IncreaseLargestObserved_ok u n : map_ok u ->
  map_ok (IncreaseLargestObserved u n) /\ (forall q, GetTransmissionInfo (IncreaseLargestObserved u n) q = GetTransmissionInfo u q).
Proof. intros [[] He]. split; [|done]. split; [|done]. by split. Qed.

(** ** Dropping obsolete packets *)

Lemma drop_useless_spec u l least : exists n, (n <= length l)%nat /\ drop_useless u l least = (drop n l, least + Z.of_nat n) /\
  (forall k i, (k < n)%nat -> l !! k = Some i -> IsPacketUseless u (least + Z.of_nat k) i = true) /\
  (forall i, l !! n = Some i -> IsPacketUseless u (least + Z.of_nat n) i = false).
Proof.
  revert least. induction l as [|i l IH]; intros least; simpl.
  - exists O. split; [lia|]. split; [by rewrite Z.add_0_r|]. split; [lia|done].
  - destruct (IsPacketUseless u least i) eqn:Hu.
    + destruct (IH (least + 1)) as (n & H1 & H2 & H3 & H4). exists (S n). split; [lia|]. split; [rewrite H2; f_equal; lia|]. split.
      * intros [|k] j Hk Hl; simplify_eq/=; [by rewrite Z.add_0_r|].
        replace (least + Z.of_nat (S k)) with (least + 1 + Z.of_nat k) by lia. apply H3; [lia|done].
      * intros j Hl. replace (least + Z.of_nat (S n)) with (least + 1 + Z.of_nat n) by lia. by apply H4.
    + exists O. split; [lia|]. split; [by rewrite Z.add_0_r|]. split; [lia|]. intros j [= <-]. by rewrite Z.add_0_r.
Qed.

Lemma IsPacketUseless_blank u pn i : IsPacketUseless u pn i = true -> retransmittable_frames i = [] /\ in_flight i = false.
Proof.
  unfold IsPacketUseless, IsPacketUsefulForRetransmittableData, IsPacketUsefulForCongestionControl.
  intros [[_ H1]%andb_true_iff H2]%andb_true_iff. destruct (retransmittable_frames i); [|done]. by destruct (in_flight i).
Qed.

(** What remains is what it was; what is dropped is useless. *)
Lemma RemoveObsoletePackets_spec u lim x : table_ok lim x u ->
  let u' := RemoveObsoletePackets u in
  table_ok lim x u' /\ same_frame u u' /\ end_packet u' = end_packet u /\ least_unacked_ u <= least_unacked_ u' <= end_packet u /\
  bytes_in_flight_ u' = bytes_in_flight_ u /\
  (forall q, GetTransmissionInfo u' q = if q <? least_unacked_ u' then None else GetTransmissionInfo u q) /\
  (forall q i, q < least_unacked_ u' -> GetTransmissionInfo u q = Some i -> IsPacketUseless u q i = true) /\
  (forall i, GetTransmissionInfo u' (least_unacked_ u') = Some i -> IsPacketUseless u (least_unacked_ u') i = false).
Proof.
  intros Hok u'. destruct (drop_useless_spec u (unacked_packets_ u) (least_unacked_ u)) as (n & Hn & Hd & Hz & Hs).
  assert (u' = with_packets u (drop n (unacked_packets_ u)) (least_unacked_ u + Z.of_nat n)) as -> by (unfold u', RemoveObsoletePackets; by rewrite Hd).
  set (u' := with_packets _ _ _).
  assert (least_unacked_ u' = least_unacked_ u + Z.of_nat n) as HL by done.
  assert (end_packet u' = end_packet u) as He by (unfold end_packet; simpl; rewrite length_drop; lia).
  assert (forall q, GetTransmissionInfo u' q = if q <? least_unacked_ u' then None else GetTransmissionInfo u q) as Hlook.
  { intros q. unfold GetTransmissionInfo. rewrite HL. case_if; [done|]. case_if; [blia|]. simpl. rewrite lookup_drop. f_equal. blia. }
  assert (forall q i, q < least_unacked_ u' -> GetTransmissionInfo u q = Some i -> IsPacketUseless u q i = true) as Hless.
  { intros q i Hq. unfold GetTransmissionInfo. case_if; [done|]. intros Hi.
    replace q with (least_unacked_ u + Z.of_nat (Z.to_nat (q - least_unacked_ u))) by blia. apply Hz; [blia|done]. }
  assert (forall k i, (k < n)%nat -> unacked_packets_ u !! k = Some i -> flight_bytes i = 0 /\ crypto_weight i = 0) as Hzero.
  { intros k i Hk Hi. destruct (IsPacketUseless_blank _ _ _ (Hz k i Hk Hi)) as [B1 B2].
    destruct (elem_GetTransmissionInfo u i (list_elem_of_lookup_2 _ _ _ Hi)) as [q Hq]. pose proof (to_entries _ _ _ Hok q i Hq) as [_ _ E _ _].
    unfold flight_bytes, crypto_weight. rewrite B2. destruct (has_crypto_handshake i); [by destruct (E eq_refl)|done]. }
  destruct Hok as [T1 T2 T3 T4 T5 T6 T7]. split_and!; try done; [|unfold end_packet; lia..|].
  - split; simpl; try done; [lia|by rewrite He| | |].
    + rewrite total_drop_zero; [done|]. intros k i Hk Hi. by apply (Hzero k i).
    + rewrite total_drop_zero; [done|]. intros k i Hk Hi. by apply (Hzero k i).
    + intros q i. rewrite Hlook. case_if; [done|]. apply T7.
  - intros i Hi. rewrite HL. apply Hs. unfold GetTransmissionInfo in Hi. revert Hi. case_if; [done|]. rewrite HL. simpl. rewrite lookup_drop.
    by replace (n + Z.to_nat _)%nat with n by lia.
Qed.

Lemma RemoveObsoletePackets_views u lim x q : table_ok lim x u ->
  held (RemoveObsoletePackets u) q = held u q /\ flying (RemoveObsoletePackets u) q = flying u q /\
  crypto_at (RemoveObsoletePackets u) q = crypto_at u q.
Proof.
  intros Hok. destruct (RemoveObsoletePackets_spec u _ _ Hok) as (_ & _ & _ & _ & _ & R6 & R7 & _).
  unfold held, flying, crypto_at. rewrite R6. case_if; [|done].
  destruct (GetTransmissionInfo u q) as [i|] eqn:Hi; [|done]. destruct (IsPacketUseless_blank _ _ _ (R7 q i ltac:(blia) Hi)) as [B1 B2].
  split; [done|]. split; [done|]. pose proof (eo_crypto _ _ _ (to_entries _ _ _ Hok q i Hi)) as C.
  destruct (has_crypto_handshake i); [|done]. by destruct (C eq_refl).
Qed.
Lemma RemoveObsoletePackets_acts u : map_ok u -> acts u (RemoveObsoletePackets u) (held u) (flying u) (crypto_at u).
Proof.
  intros [Hok He]. destruct (RemoveObsoletePackets_spec u _ _ Hok) as (R1 & R2 & R3 & _).
  split; [split; [by rewrite (sf_largest_sent _ _ R2)|rewrite (sf_largest_sent _ _ R2); lia]|done|..]; intros q;
    apply (RemoveObsoletePackets_views u _ _ q Hok).
Qed.

(** ** Sending *)

Definition skipped : QuicTransmissionInfo := set_is_unackable QuicTransmissionInfo_default true.

(** Entries for the packet numbers up to [pn]. *)
Lemma fill_spec u pn : map_ok u -> largest_sent_packet_ u < pn < 2 ^ 48 ->
  let u' := with_packets u (unacked_packets_ u ++ replicate (Z.to_nat (pn - end_packet u)) skipped) (least_unacked_ u) in
  table_ok pn 0 u' /\ end_packet u' = pn /\
  (forall q, GetTransmissionInfo u' q = if q <? end_packet u then GetTransmissionInfo u q else if q <? pn then Some skipped else None).
Proof.
  intros [[T1 T2 T3 T4 T5 T6 T7] He] Hpn u'.
  assert (end_packet u' = pn) as He' by (unfold end_packet in *; simpl; rewrite length_app, length_replicate; lia).
  assert (forall q, GetTransmissionInfo u' q = if q <? end_packet u then GetTransmissionInfo u q else if q <? pn then Some skipped else None) as Hlook.
  { intros q. unfold GetTransmissionInfo, end_packet in *. simpl. case_if; [by repeat case_if; try done; blia|]. case_if.
    - rewrite lookup_app_l by blia. done.
    - rewrite lookup_app_r by blia. case_if; bool_to_prop; [|apply lookup_replicate_None; lia].
      apply lookup_replicate. split; [done|lia]. }
  split; [|done]. split; simpl; try done; [lia..| | |].
  - rewrite total_app, total_replicate_zero by done. lia.
  - rewrite total_app, total_replicate_zero by done. lia.
  - intros q i. rewrite Hlook. case_if; [intros Hi; destruct (T7 q i Hi); split; try done; intros; split; [naive_solver|naive_solver lia]|].
    case_if; [|done]. intros [= <-]. split; try done. intros [?|?]; done.
Qed.

(** A new entry at the end. *)
Lemma push_spec u v pn x i : table_ok pn x u -> end_packet u = pn -> 1 <= pn -> entry_ok pn pn i ->
  unacked_packets_ v = unacked_packets_ u ++ [i] -> least_unacked_ v = least_unacked_ u -> largest_sent_packet_ v = pn ->
  bytes_in_flight_ v = u64 (bytes_in_flight_ u + flight_bytes i) ->
  pending_crypto_packet_count_ v = u64 (pending_crypto_packet_count_ u - x + crypto_weight i) ->
  map_ok v /\ (forall q, GetTransmissionInfo v q = if q =? pn then Some i else GetTransmissionInfo u q).
Proof.
  intros [T1 T2 T3 T4 T5 T6 T7] He Hpn Hi Hl Hleast Hs Hb Hc.
  assert (end_packet v = pn + 1) as He' by (unfold end_packet in *; rewrite Hl, Hleast, length_app; simpl; lia).
  assert (forall q, GetTransmissionInfo v q = if q =? pn then Some i else GetTransmissionInfo u q) as Hlook.
  { intros q. unfold GetTransmissionInfo, end_packet in *. rewrite Hl, Hleast. case_if; [case_if; [blia|done]|]. case_if; bool_to_prop.
    - rewrite lookup_app_r by lia. by replace (_ - _)%nat with O by lia.
    - destruct (decide (Z.to_nat (q - least_unacked_ u) < length (unacked_packets_ u))%nat); [by rewrite lookup_app_l|].
      rewrite lookup_app_r by lia. rewrite (proj2 (lookup_ge_None (unacked_packets_ u) _)) by lia. apply lookup_ge_None. simpl. lia. }
  assert (forall q j, GetTransmissionInfo v q = Some j -> entry_ok pn q j) as Hent.
  { intros q j. rewrite Hlook. case_if; bool_to_prop; [|apply T7]. intros [= <-]. by subst. }
  destruct (totals_bounded pn v) as [B1 B2]; rewrite ?Hleast; try done; [lia|]. rewrite Hl, total_app in B1, B2.
  split; [|done]. split; [|lia]. rewrite Hs. split; rewrite ?Hleast, ?Hl; try done; [lia| |].
  - rewrite Hb, total_app, T5. unfold total in *. simpl in *. rewrite Z.add_0_r in *. by apply u64_id.
  - rewrite Hc, total_app, T6. unfold total in *. simpl in *. rewrite u64_id; [lia|]. unfold is_u64. lia.
Qed.

(** ** Retransmitting *)

(** What a packet that is sent must satisfy: a new packet number, and a handshake packet
    has frames or repeats a packet that is still in the map. *)
Record send_ok (u : QuicUnackedPacketMap) (p : SerializedPacket) (old : Z) : Prop := {
  so_fresh : largest_sent_packet_ u < sp_packet_number p < 2 ^ 48;
  so_bytes : 0 < sp_encrypted_length p < 2 ^ 16;
  so_old : 0 <= old;
  so_crypto : sp_has_crypto_handshake p = true ->
    if old =? 0 then sp_retransmittable_frames p <> [] else least_unacked_ u <= old <= largest_sent_packet_ u }.

(** The frames of [old] have moved from the table to [info']. *)
Record transferred (u : QuicUnackedPacketMap) (old pn : Z) (info : QuicTransmissionInfo) (u' : QuicUnackedPacketMap)
    (info' : QuicTransmissionInfo) : Prop := {
  tr_ok : table_ok pn (crypto_weight info') u';
  tr_end : end_packet u' = pn;
  tr_frame : same_frame u u';
  tr_bytes : bytes_in_flight_ u' = bytes_in_flight_ u;
  tr_count : pending_crypto_packet_count_ u' = pending_crypto_packet_count_ u;
  tr_least : least_unacked_ u <= least_unacked_ u';
  tr_info : retransmittable_frames info' = held u old /\ has_crypto_handshake info' = crypto_at u old;
  tr_rest : bytes_sent info' = bytes_sent info /\ in_flight info' = in_flight info /\ is_unackable info' = is_unackable info /\
    retransmission info' = retransmission info;
  tr_held : forall q, held u' q = if q =? old then [] else held u q;
  tr_flying : forall q, flying u' q = flying u q;
  tr_crypto : forall q, crypto_at u' q = if q =? old then false else crypto_at u q }.

Section Sending.
Context {E : Type} `{StreamNotifierInterface E}.

Lemma TransferRetransmissionInfo_none u e old pn type info : table_ok pn 0 u -> end_packet u = pn ->
  ~ least_unacked_ u <= old <= largest_sent_packet_ u -> held u old = [] -> crypto_at u old = false ->
  retransmittable_frames info = [] -> has_crypto_handshake info = false ->
  TransferRetransmissionInfo u e old pn type info = Some (u, e, info) /\ transferred u old pn info u info.
Proof.
  intros Hok He Hout Hh Hcr Hinfo Hcrypto. split; [unfold TransferRetransmissionInfo; repeat case_if; try done; blia|].
  split; try done; try view_cases; rewrite ?Hh, ?Hcr; try done. unfold crypto_weight. by rewrite Hcrypto.
Qed.

Lemma TransferRetransmissionInfo_some u e old pn type info : table_ok pn 0 u -> end_packet u = pn ->
  1 <= old -> least_unacked_ u <= old <= largest_sent_packet_ u -> largest_sent_packet_ u < pn ->
  retransmittable_frames info = [] ->
  exists u' e' info', TransferRetransmissionInfo u e old pn type info = Some (u', e', info') /\ transferred u old pn info u' info'.
Proof.
  intros Hok He H1 Hin Hsent Hinfo. unfold TransferRetransmissionInfo.
  destruct (GetTransmissionInfo_inside u old ltac:(lia)) as [t Ht]. destruct (view_here u old t Ht) as (V1 & V2 & V3).
  case_if; [blia|]. case_if; [blia|]. rewrite Ht. cbn [mbind option_bind].
  match goal with |- context [set_info u old ?x] => set (t' := x) end.
  match goal with |- context [Some (RemoveObsoletePackets _, _, ?x)] => set (info' := x) end.
  pose proof (to_entries _ _ _ Hok old t Ht) as [X1 X0 X2 X3 X4].
  assert (retransmittable_frames t' = [] /\ has_crypto_handshake t' = false /\ in_flight t' = in_flight t /\ bytes_sent t' = bytes_sent t /\
          (retransmission t' <> 0 -> old < retransmission t' <= pn)) as (F1 & F2 & F3 & F4 & F5).
  { unfold t'. case_if; simpl; rewrite Hinfo; split_and!; try done; try apply X4; lia. }
  assert (crypto_weight info' = crypto_weight t) as Hcw by done.
  assert (table_ok pn (crypto_weight t) (set_info u old t')) as Hv.
  { apply (table_ok_update pn 0 (crypto_weight t) u _ old t t'); try done.
    - split; rewrite ?F1, ?F2, ?F3, ?F4; try done. intros [?|?]; [auto|done].
    - apply crypto_weight_bounds.
    - simpl. destruct Hok as [T1 T2 T3 T4 T5 T6 T7]. destruct (totals_bounded pn u) as [B1 B2]; try done.
      rewrite T5 in *. rewrite <-(u64_id (total flight_bytes (unacked_packets_ u))) at 1 by done. f_equal. unfold flight_bytes. rewrite F3, F4. lia.
    - simpl. destruct Hok as [T1 T2 T3 T4 T5 T6 T7]. destruct (totals_bounded pn u) as [B1 B2]; try done.
      replace (crypto_weight t') with 0 by (unfold crypto_weight; by rewrite F2). rewrite u64_id; [lia|]. unfold is_u64. lia. }
  destruct (RemoveObsoletePackets_spec _ _ _ Hv) as (R1 & R2 & R3 & R4 & R5 & _).
  eexists _, _, _. split; [done|]. pose proof (RemoveObsoletePackets_views (set_info u old t')) as RV.
  pose proof (set_info_lookup u old t Ht t') as Hlook. 
  split; try done.
  - by rewrite R3, set_info_end.
  - transitivity (set_info u old t'); [done|exact R2].
  - unfold RemoveObsoletePackets. by destruct (drop_useless _ _ _).
  - apply R4.
  - intros q. rewrite (proj1 (RV _ _ q Hv)). unfold held. rewrite Hlook. by case_if.
  - intros q. rewrite (proj1 (proj2 (RV _ _ q Hv))). unfold flying. rewrite Hlook. case_if; [|done]. bool_to_prop. subst q. by rewrite Ht, F3.
  - intros q. rewrite (proj2 (proj2 (RV _ _ q Hv))). unfold crypto_at. rewrite Hlook. by case_if.
Qed.

Lemma views_of_fill u pn q : map_ok u -> largest_sent_packet_ u < pn < 2 ^ 48 ->
  let u' := with_packets u (unacked_packets_ u ++ replicate (Z.to_nat (pn - end_packet u)) skipped) (least_unacked_ u) in
  held u' q = held u q /\ flying u' q = flying u q /\ crypto_at u' q = crypto_at u q.
Proof.
  intros Hok Hpn u'. destruct (fill_spec u pn Hok Hpn) as (_ & _ & Hlook). fold u' in Hlook. unfold held, flying, crypto_at. rewrite Hlook.
  case_if; [done|]. assert (GetTransmissionInfo u q = None) as ->; [|by case_if].
  destruct (GetTransmissionInfo u q) as [i|] eqn:Hi; [|done]. pose proof (GetTransmissionInfo_range u q i Hi). blia.
Qed.

(** The frames, the flag and the listeners of a packet that repeats another come from
    the packet it repeats. *)
Lemma AddSentPacket_prepare u e p old type info : map_ok u -> send_ok u p old ->
  retransmittable_frames info = [] -> retransmission info = 0 -> has_crypto_handshake info = sp_has_crypto_handshake p ->
  let pn := sp_packet_number p in
  let u1 := with_packets u (unacked_packets_ u ++ replicate (Z.to_nat (pn - end_packet u)) skipped) (least_unacked_ u) in
  0 < old -> exists u' e' info', TransferRetransmissionInfo u1 e old pn type info = Some (u', e', info') /\ transferred u1 old pn info u' info'.
Proof.
  intros Hok [S1 S2 S3 S4] Hi1 Hi2 Hi3 pn u1 Hold. destruct (fill_spec u pn Hok S1) as (F1 & F2 & _). fold u1 in F1, F2.
  destruct (decide (least_unacked_ u <= old <= largest_sent_packet_ u)) as [Hin|Hout].
  - apply TransferRetransmissionInfo_some; try done; simpl; lia.
  - destruct (views_of_fill u pn old Hok S1) as (V1 & _ & V3). fold u1 in V1, V3.
    assert (GetTransmissionInfo u old = None) as Hnone.
    { destruct (GetTransmissionInfo u old) as [i|] eqn:Hi; [|done]. pose proof (GetTransmissionInfo_range u old i Hi).
      destruct Hok as [_ He]. lia. }
    eexists u1, e, info. apply TransferRetransmissionInfo_none; try done.
    + rewrite V1. unfold held. by rewrite Hnone.
    + rewrite V3. unfold crypto_at. by rewrite Hnone.
    + rewrite Hi3. destruct (sp_has_crypto_handshake p); [|done]. specialize (S4 eq_refl). revert S4. case_if; [blia|]. intros. blia.
Qed.

Record added (u : QuicUnackedPacketMap) (p : SerializedPacket) (old : Z) (fl : bool) (u' : QuicUnackedPacketMap) : Prop := {
  ad_ok : map_ok u';
  ad_sent : largest_sent_packet_ u' = sp_packet_number p;
  ad_retransmittable : largest_sent_retransmittable_packet_ u' =
    if fl then sp_packet_number p else largest_sent_retransmittable_packet_ u;
  ad_observed : largest_observed_ u' = largest_observed_ u;
  ad_notifier : stream_notifier_ u' = stream_notifier_ u;
  ad_least : least_unacked_ u <= least_unacked_ u';
  ad_bytes : bytes_in_flight_ u' = bytes_in_flight_ u + (if fl then sp_encrypted_length p else 0);
  ad_held : forall q, held u' q =
    if q =? sp_packet_number p then (if old =? 0 then sp_retransmittable_frames p else held u old)
    else if q =? old then [] else held u q;
  ad_flying : forall q, flying u' q = if q =? sp_packet_number p then fl else flying u q;
  ad_crypto : forall q, crypto_at u' q =
    if q =? sp_packet_number p then (if old =? 0 then sp_has_crypto_handshake p else crypto_at u old)
    else if q =? old then false else crypto_at u q }.

Lemma views_zero u : map_ok u -> held u 0 = [] /\ flying u 0 = false /\ crypto_at u 0 = false.
Proof.
  intros [[T1 _ _ _ _ _ _] _]. unfold held, flying, crypto_at, GetTransmissionInfo. case_if; [done|blia].
Qed.

(** The new entry at the end of a table the frames of [old] have left. *)
Lemma added_push u p old fl base u' x i : map_ok u -> send_ok u p old ->
  table_ok (sp_packet_number p) x base -> end_packet base = sp_packet_number p -> least_unacked_ u <= least_unacked_ base ->
  bytes_in_flight_ base = bytes_in_flight_ u -> same_frame u base ->
  (forall q, held base q = if q =? old then [] else held u q) -> (forall q, flying base q = flying u q) ->
  (forall q, crypto_at base q = if q =? old then false else crypto_at u q) ->
  bytes_sent i = sp_encrypted_length p -> in_flight i = fl -> is_unackable i = false -> retransmission i = 0 ->
  retransmittable_frames i = (if old =? 0 then sp_retransmittable_frames p else held u old) ->
  has_crypto_handshake i = (if old =? 0 then sp_has_crypto_handshake p else crypto_at u old) ->
  unacked_packets_ u' = unacked_packets_ base ++ [i] -> least_unacked_ u' = least_unacked_ base ->
  largest_sent_packet_ u' = sp_packet_number p ->
  largest_sent_retransmittable_packet_ u' = (if fl then sp_packet_number p else largest_sent_retransmittable_packet_ u) ->
  largest_observed_ u' = largest_observed_ u -> stream_notifier_ u' = stream_notifier_ u ->
  bytes_in_flight_ u' = u64 (bytes_in_flight_ base + flight_bytes i) ->
  pending_crypto_packet_count_ u' = u64 (pending_crypto_packet_count_ base - x + crypto_weight i) ->
  added u p old fl u'.
Proof.
  intros Hok [S1 S2 S3 S4] T Hend Hleast Hbb Hsf Hh Hfl Hcr I1 I2 I3 I4 I5 I6 U1 U2 U3 U4 U5 U6 U7 U8.
  set (pn := sp_packet_number p) in *.
  assert (0 < pn) as Hpos. { destruct Hok as [[H1 _ _ _ _ _ _] He]. unfold end_packet in He. lia. }
  assert (entry_ok pn pn i) as Hent.
  { split; rewrite ?I1, ?I3, ?I4; try done; [lia| |].
    { intros _. lia. }
    rewrite I5, I6. destruct (old =? 0); [done|].
    unfold crypto_at, held. destruct (GetTransmissionInfo u old) as [t|] eqn:Ht; [|done]. by apply (map_ok_entry u old t Hok Ht). }
  destruct (push_spec base u' pn x i T Hend ltac:(lia) Hent U1 U2 U3 U7 U8) as [Hok' Hlook].
  split; try done.
  - lia.
  - destruct (map_ok_counters u' Hok') as [B _]. rewrite U7, Hbb. unfold flight_bytes. rewrite I1, I2. apply u64_id.
    destruct (map_ok_counters u Hok) as [B' _]. pose proof Hok' as [[_ _ _ _ T5 _ _] _]. rewrite T5, U1, total_app in B.
    rewrite <-Hbb, (to_bytes _ _ _ T). unfold total in *. simpl in B. rewrite Z.add_0_r in B. unfold flight_bytes in B at 2. by rewrite I1, I2 in B.
  - intros q. fold pn. unfold held at 1. rewrite Hlook. destruct (q =? pn); [done|apply Hh].
  - intros q. fold pn. unfold flying at 1. rewrite Hlook. destruct (q =? pn); [done|apply Hfl].
  - intros q. fold pn. unfold crypto_at at 1. rewrite Hlook. destruct (q =? pn); [done|apply Hcr].
Qed.

Lemma AddSentPacket_added u e p old type time fl : map_ok u -> send_ok u p old -> exists u' e',
  AddSentPacket u e p old type time fl = Some (u', e') /\ added u p old fl u'.
Proof.
  intros Hok Hs. pose proof Hs as [S1 S2 S3 S4]. unfold AddSentPacket. fold skipped.
  set (info := set_largest_acked _ _). set (pn := sp_packet_number p) in *.
  destruct (fill_spec u pn Hok S1) as (F1 & F2 & _). pose proof (fun q => views_of_fill u pn q Hok S1) as FV.
  set (u1 := with_packets u _ _) in *. destruct (views_zero u Hok) as (Z1 & Z2 & Z3), (map_ok_counters u Hok) as [B1 B2].
  assert (forall q, held u1 q = held u q) as V1 by (intros q; apply FV).
  assert (forall q, flying u1 q = flying u q) as V2 by (intros q; apply FV).
  assert (forall q, crypto_at u1 q = crypto_at u q) as V3 by (intros q; apply FV).
  destruct (decide (old = 0)) as [->|Hold].
  - cbn [Z.gtb Z.compare Z.eqb mbind option_bind].
    destruct fl, (sp_has_crypto_handshake p) eqn:Hc; eexists _, _; (split; [done|]);
      eapply (added_push u p 0 _ u1 _ 0); try done; simpl; try (intros q; rewrite ?V1, ?V3; case_if; bool_to_prop; subst; done); try congruence.
    all: unfold crypto_weight, flight_bytes; simpl; rewrite ?Hc, ?Z.sub_0_r, ?Z.add_0_r; (done || by rewrite u64_id).
  - destruct (AddSentPacket_prepare u e p old type info Hok Hs eq_refl eq_refl eq_refl ltac:(lia)) as (u2 & e2 & i2 & Ht & T). fold pn u1 in Ht, T.
    case_if; [|blia]. rewrite Ht. cbn [mbind option_bind]. rewrite (proj2 (Z.eqb_neq old 0) Hold). destruct T as [T1 T2 T3 T4 T5 T6 [T7 T8] (T9 & T10 & T11 & T12) T13 T14 T15].
    assert (forall q, held u2 q = if q =? old then [] else held u q) as W1 by (intros q; by rewrite T13, V1).
    assert (forall q, crypto_at u2 q = if q =? old then false else crypto_at u q) as W3 by (intros q; by rewrite T15, V3).
    assert (forall q, flying u2 q = flying u q) as W2 by (intros q; by rewrite T14, V2).
    assert (same_frame u u2) as W4 by (transitivity u1; done).
    assert (in_flight i2 = false) as T10' by (by rewrite T10). rewrite V1 in T7. rewrite V3 in T8.
    destruct fl; eexists _, _; (split; [done|]).
    + eapply (added_push u p old true u2 _ (crypto_weight i2) (set_in_flight i2 true)); try done; simpl; try apply W4;
        try (by rewrite (proj2 (Z.eqb_neq old 0) Hold)); unfold crypto_weight, flight_bytes; simpl; [by rewrite T9|].
      rewrite T5. simpl. replace (_ - _ + _) with (pending_crypto_packet_count_ u) by lia. by rewrite u64_id.
    + eapply (added_push u p old false u2 _ (crypto_weight i2) i2); try done; simpl; try apply W4;
        try (by rewrite (proj2 (Z.eqb_neq old 0) Hold)).
      * unfold flight_bytes. rewrite T10', Z.add_0_r, T4. by rewrite u64_id.
      * rewrite T5. simpl. replace (_ - _ + _) with (pending_crypto_packet_count_ u) by lia. by rewrite u64_id.
Qed.
End Sending.

(** ** Cancelling a stream *)

Lemma set_info_set_info u pn i j : set_info (set_info u pn i) pn j = set_info u pn j.
Proof. unfold set_info, with_packets. simpl. by rewrite list_insert_insert_eq. Qed.

(** The frames are deleted anyway, whatever they are. *)
Lemma RemoveRetransmittability_again u pn i x : GetTransmissionInfo u pn = Some i -> retransmission i = 0 ->
  RemoveRetransmittability (set_info u pn (set_retransmittable_frames i x)) pn = RemoveRetransmittability u pn.
Proof.
  intros Hi Hz. unfold RemoveRetransmittability. cbn [set_info with_packets unacked_packets_]. rewrite length_insert.
  pose proof (set_info_lookup u pn i Hi (set_retransmittable_frames i x) pn) as Hl. rewrite Z.eqb_refl in Hl.
  destruct (length (unacked_packets_ u)); simpl; rewrite Hl, Hi; cbn [mbind option_bind]; simpl; rewrite Hz; simpl;
    destruct (has_crypto_handshake i); f_equal; unfold set_info, with_packets; simpl; by rewrite list_insert_insert_eq.
Qed.

Definition keeps (frames : list QuicFrame) : bool := match frames with [] => false | _ => true end.

Definition cancel_one (u : QuicUnackedPacketMap) (pn stream_id : Z) (i : QuicTransmissionInfo) : option QuicUnackedPacketMap :=
  let frames := RemoveFramesForStream (retransmittable_frames i) stream_id in
  let u := set_info u pn (set_retransmittable_frames i frames) in
  match frames with [] => RemoveRetransmittability u pn | _ => Some u end.

Lemma cancel_one_acts u pn stream_id i : map_ok u -> GetTransmissionInfo u pn = Some i -> retransmittable_frames i <> [] -> exists u',
  cancel_one u pn stream_id i = Some u' /\ least_unacked_ u' = least_unacked_ u /\ end_packet u' = end_packet u /\
  acts u u' (fun q => if q =? pn then RemoveFramesForStream (held u pn) stream_id else held u q) (flying u)
            (fun q => if q =? pn then crypto_at u q && keeps (RemoveFramesForStream (held u pn) stream_id) else crypto_at u q).
Proof.
  intros Hok Hi Hne. destruct (view_here u pn i Hi) as (V1 & V2 & V3). pose proof (map_ok_entry u pn i Hok Hi) as [E1 E0 E2 E3 E4].
  destruct (map_ok_counters u Hok) as [B1 B2]. unfold cancel_one. rewrite V1.
  destruct (RemoveFramesForStream (retransmittable_frames i) stream_id) as [|f fs] eqn:Hf.
  - destruct (E3 Hne) as [_ Hz]. rewrite RemoveRetransmittability_again by done.
    destruct (RemoveRetransmittability_here (length (unacked_packets_ u)) u pn i Hok Hi Hz) as (u' & R1 & R2 & R3).
    exists u'. split; [done|]. split; [done|]. split; [|eapply acts_ext; [exact R3|view_cases..]; by rewrite andb_false_r].
    destruct R3 as [[_ Hend] S _ _ _], Hok as [_ He]. rewrite Hend, He. by rewrite (sf_largest_sent _ _ S).
  - eexists. split; [done|]. split; [done|]. split; [apply set_info_end|].
    eapply acts_ext; [apply (acts_one_entry u _ pn i (set_retransmittable_frames i (f :: fs))); try done| | |];
      [..|view_cases|view_cases|view_cases; simpl; by rewrite V3, andb_true_r].
    + split; simpl; try done; intros _; [apply E0; by right|by apply E3].
    + simpl. rewrite <-(u64_id (bytes_in_flight_ u)) at 1 by done. f_equal. unfold flight_bytes. simpl. lia.
    + simpl. rewrite <-(u64_id (pending_crypto_packet_count_ u)) at 1 by done. f_equal. unfold crypto_weight. simpl. lia.
Qed.

Section Cancelling.
Context {E : Type} `{StreamNotifierInterface E}.

Lemma CancelRetransmissions_loop_acts n u e pn stream_id : map_ok u -> least_unacked_ u <= pn -> end_packet u = pn + Z.of_nat n ->
  exists u' e', CancelRetransmissions_loop n u e pn stream_id = Some (u', e') /\ least_unacked_ u' = least_unacked_ u /\
  acts u u' (fun q => if pn <=? q then RemoveFramesForStream (held u q) stream_id else held u q) (flying u)
            (fun q => if pn <=? q then crypto_at u q && keeps (RemoveFramesForStream (held u q) stream_id) else crypto_at u q).
Proof.
  revert u e pn. induction n as [|n IH]; intros u e pn Hok Hleast Hend.
  - exists u, e. split; [done|]. split; [done|]. 
    assert (forall q, pn <= q -> held u q = [] /\ crypto_at u q = false) as Hout.
    { intros q Hq. unfold held, crypto_at. destruct (GetTransmissionInfo u q) as [i|] eqn:Hi; [|done].
      pose proof (GetTransmissionInfo_range u q i Hi). lia. }
    eapply acts_ext; [by apply acts_refl| |done|]; view_cases; destruct (Hout q E0) as [O1 O2]; by rewrite ?O1, ?O2.
  - cbn [CancelRetransmissions_loop]. destruct (GetTransmissionInfo_inside u pn ltac:(lia)) as [i Hi]. rewrite Hi. cbn [mbind option_bind].
    destruct (view_here u pn i Hi) as (V1 & V2 & V3). pose proof (map_ok_entry u pn i Hok Hi) as [X1 X0 X2 X3 X4].
    destruct (retransmittable_frames i) as [|f fs] eqn:Hfr.
    + destruct (IH u e (pn + 1) Hok ltac:(lia) ltac:(lia)) as (u' & e' & I1 & I2 & I3). exists u', e'. split; [done|]. split; [done|].
      assert (crypto_at u pn = false) as Hcr. { rewrite V3. destruct (has_crypto_handshake i); [|done]. by destruct (X2 eq_refl). }
      eapply acts_ext; [exact I3| |done|]; intros q; cbv beta; repeat case_if; try done; try blia;
        assert (q = pn) as -> by blia; by rewrite ?V1, ?Hcr.
    + rewrite <-Hfr in *. destruct (cancel_one_acts u pn stream_id i Hok Hi ltac:(by rewrite Hfr)) as (v & C1 & C2 & C3 & C4).
      unfold cancel_one in C1. cbn zeta in C1. rewrite C1. cbn [mbind option_bind].
      match goal with |- context [CancelRetransmissions_loop n v ?e0 _ _] => destruct (IH v e0 (pn + 1) (ac_ok _ _ _ _ _ C4) ltac:(lia) ltac:(lia)) as (u' & e' & I1 & I2 & I3) end.
      exists u', e'. split; [done|]. split; [congruence|]. apply (acts_trans u v); [apply C4|].
      eapply acts_ext; [exact I3| |intros q; apply C4|]; intros q; cbv beta; rewrite ?(ac_held _ _ _ _ _ C4), ?(ac_crypto _ _ _ _ _ C4); cbv beta;
        repeat case_if; try done; try blia; by assert (q = pn) as -> by blia.
Qed.

Lemma CancelRetransmissionsForStream_acts u e stream_id : map_ok u -> exists u' e',
  CancelRetransmissionsForStream u e stream_id = Some (u', e') /\ least_unacked_ u' = least_unacked_ u /\
  acts u u' (fun q => RemoveFramesForStream (held u q) stream_id) (flying u)
            (fun q => crypto_at u q && keeps (RemoveFramesForStream (held u q) stream_id)).
Proof.
  intros Hok. destruct (CancelRetransmissions_loop_acts (length (unacked_packets_ u)) u e (least_unacked_ u) stream_id Hok) as (u' & e' & R1 & R2 & R3);
    [lia|done|]. exists u', e'. split; [done|]. split; [done|].
  assert (forall q, q < least_unacked_ u -> held u q = [] /\ crypto_at u q = false) as Hout.
  { intros q Hq. unfold held, crypto_at, GetTransmissionInfo. case_if; [done|blia]. }
  eapply acts_ext; [exact R3| |done|]; view_cases; destruct (Hout q ltac:(blia)) as [O1 O2]; by rewrite ?O1, ?O2.
Qed.
End Cancelling.

(** ** The map as an abstract table *)

Inductive unacked_op :=
  | OpAddSentPacket (p : SerializedPacket) (old : Z) (type : TransmissionType) (time : Z) (fl : bool)
  | OpRemoveFromInFlight (pn : Z)
  | OpRestoreToInFlight (pn : Z)
  | OpRemoveRetransmittability (pn : Z)
  | OpNotifyAndClearListeners (pn delay : Z)
  | OpIncreaseLargestObserved (n : Z)
  | OpRemoveObsoletePackets
  | OpCancelRetransmissionsForStream (stream_id : Z).

(** What the class assumes of its callers. *)
Definition unacked_pre (u : QuicUnackedPacketMap) (op : unacked_op) : Prop :=
  match op with
  | OpAddSentPacket p old _ _ _ => send_ok u p old
  | OpRemoveFromInFlight pn | OpRemoveRetransmittability pn | OpNotifyAndClearListeners pn _ => least_unacked_ u <= pn <= largest_sent_packet_ u
  | OpRestoreToInFlight pn => held u pn <> [] /\ flying u pn = false
  | _ => True
  end.

Definition with_env {E} (e : E) (r : option QuicUnackedPacketMap) : option (QuicUnackedPacketMap * E) := let* u := r in Some (u, e).
Definition unacked_exec {E} `{StreamNotifierInterface E} (u : QuicUnackedPacketMap) (e : E) (op : unacked_op) : option (QuicUnackedPacketMap * E) :=
  match op with
  | OpAddSentPacket p old type time fl => AddSentPacket u e p old type time fl
  | OpRemoveFromInFlight pn => with_env e (RemoveFromInFlight u pn)
  | OpRestoreToInFlight pn => with_env e (RestoreToInFlight u pn)
  | OpRemoveRetransmittability pn => with_env e (RemoveRetransmittability u pn)
  | OpNotifyAndClearListeners pn delay => NotifyAndClearListeners u e pn delay
  | OpIncreaseLargestObserved n => Some (IncreaseLargestObserved u n, e)
  | OpRemoveObsoletePackets => Some (RemoveObsoletePackets u, e)
  | OpCancelRetransmissionsForStream stream_id => CancelRetransmissionsForStream u e stream_id
  end.

(** For a packet number: the frames held, whether it is in flight, whether it is a
    handshake packet. *)
Abbreviation view := (list QuicFrame * bool * bool)%type.
Definition view_of (u : QuicUnackedPacketMap) (q : Z) : view := (held u q, flying u q, crypto_at u q).

(** The operations on the table of views; [newest] is the last link of the chain of
    retransmissions that starts at a packet. *)
Definition view_exec (newest : Z -> Z) (t : Z -> view) (op : unacked_op) (q : Z) : view :=
  let '(frames, fl, crypto) := t q in
  match op with
  | OpAddSentPacket p old _ _ fl' =>
      if q =? sp_packet_number p then
        if old =? 0 then (sp_retransmittable_frames p, fl', sp_has_crypto_handshake p) else ((t old).1.1, fl', (t old).2)
      else if q =? old then ([], fl, false) else t q
  | OpRemoveFromInFlight pn => if q =? pn then (frames, false, crypto) else t q
  | OpRestoreToInFlight pn => if q =? pn then (frames, true, crypto) else t q
  | OpRemoveRetransmittability pn => if q =? newest pn then ([], fl, false) else t q
  | OpCancelRetransmissionsForStream stream_id =>
      let frames := RemoveFramesForStream frames stream_id in (frames, fl, crypto && keeps frames)
  | OpNotifyAndClearListeners _ _ | OpIncreaseLargestObserved _ | OpRemoveObsoletePackets => t q
  end.
Definition newest (u : QuicUnackedPacketMap) (pn : Z) : Z :=
  match GetTransmissionInfo u pn with Some i => default pn (GetNewestRetransmission u pn i) | None => pn end.

Lemma acts_view u u' h fl cr : acts u u' h fl cr -> forall q, view_of u' q = (h q, fl q, cr q).
Proof. intros A q. unfold view_of. by rewrite (ac_held _ _ _ _ _ A), (ac_flying _ _ _ _ _ A), (ac_crypto _ _ _ _ _ A). Qed.

Lemma added_view u p old fl u' : map_ok u -> send_ok u p old -> added u p old fl u' -> forall q, view_of u' q =
  (if q =? sp_packet_number p then
     if old =? 0 then (sp_retransmittable_frames p, fl, sp_has_crypto_handshake p) else (held u old, fl, crypto_at u old)
   else if q =? old then ([], flying u q, false) else view_of u q).
Proof.
  intros Hok Hs A q. unfold view_of. rewrite (ad_held _ _ _ _ _ A), (ad_flying _ _ _ _ _ A), (ad_crypto _ _ _ _ _ A).
  repeat case_if; done.
Qed.


(** ** Two examples *)

#[local] Instance no_notifier : StreamNotifierInterface unit :=
  {| OnStreamFrameAcked := fun _ _ e => e; OnStreamFrameRetransmitted := fun _ e => e; OnStreamFrameDiscarded := fun _ e => e;
     OnPacketAcked := fun _ _ _ e => e; OnPacketRetransmitted := fun _ _ e => e |}.

(** A packet of 1000 bytes with a frame of the handshake stream. *)
Definition handshake_packet (pn : Z) : SerializedPacket :=
  MkSerialized pn 1 1000 ENCRYPTION_NONE true 0 0 [StreamFrame (MkStreamFrame 1 false 0 [] 0)] [].
Definition exec_ops (ops : list unacked_op) : option (QuicUnackedPacketMap * unit) :=
  foldl (fun r op => let* (u, e) := r in unacked_exec u e op) (Some (QuicUnackedPacketMap_new, tt)) ops.


(** The count of handshake packets can wrap.  A handshake packet is sent, serialized
    again for retransmission while the socket is blocked, and acknowledged before the
    retransmission is written.  When it is written, its original is no longer in the map:
    the new entry keeps the handshake mark of the packet, without frames and without
    being counted.  Its acknowledgement then takes the count of pending handshake packets
    from 0 to 2^64 - 1. *)
Lemma pending_crypto_count_wraps : exists u u',
  exec_ops [OpAddSentPacket (handshake_packet 1) 0 NOT_RETRANSMISSION 1000 true; OpRemoveFromInFlight 1; OpRemoveRetransmittability 1;
            OpIncreaseLargestObserved 1; OpRemoveObsoletePackets;
            OpAddSentPacket (handshake_packet 2) 1 HANDSHAKE_RETRANSMISSION 2000 true] = Some (u, tt) /\
  pending_crypto_packet_count_ u = 0 /\ crypto_at u 2 = true /\ held u 2 = [] /\
  RemoveRetransmittability u 2 = Some u' /\ pending_crypto_packet_count_ u' = 2 ^ 64 - 1 /\ HasPendingCryptoPackets u' = true.
Proof. eexists _, _. split; [vm_compute; reflexivity|]. split_and!; vm_compute; reflexivity. Qed.
