(* ===== verification/UnackedChains.v ===== *)
(** * Chains of retransmissions

    The entry of a packet that was sent again points to the entry of the new packet.
    [leads u pn n] is the relation the loops along these links compute: [n] is the end of
    the chain that starts at [pn].  Deleting the frames at the end of a chain cuts its
    links; what remains of other chains still ends where it did, or at an entry without
    frames. *)

From stdpp Require Import gmap sorting.
From S2P Require Import Prelude QuicTime QuicData Framer SequencerBuffer UnackedPacketMap UnackedFacts.

Definition link (u : QuicUnackedPacketMap) (pn : Z) : Z :=
  match GetTransmissionInfo u pn with Some i => retransmission i | None => 0 end.

Inductive leads (u : QuicUnackedPacketMap) : Z -> Z -> Prop :=
  | leads_end pn : link u pn = 0 -> leads u pn pn
  | leads_next pn n : link u pn <> 0 -> leads u (link u pn) n -> leads u pn n.

Lemma leads_det u pn n n' : leads u pn n -> leads u pn n' -> n = n'.
Proof. intros L. revert n'. induction L as [pn H|pn n H L IH]; intros n' L'; inversion L'; subst; try done. by apply IH. Qed.

Lemma leads_ext u v : (forall q, link v q = link u q) -> forall pn n, leads u pn n -> leads v pn n.
Proof.
  intros Heq pn n L. induction L as [pn H|pn n H L IH]; [by apply leads_end; rewrite Heq|].
  apply leads_next; [by rewrite Heq|]. by rewrite Heq.
Qed.

Lemma newest_loop_leads fuel u pn n : GetNewestRetransmission_loop fuel u pn (link u pn) = Some n -> leads u pn n.
Proof.
  revert pn. induction fuel as [|fuel IH]; intros pn; simpl; case_if; bool_to_prop; try done; [intros [= <-]; by apply leads_end..|].
  destruct (GetTransmissionInfo u (link u pn)) as [i|] eqn:Hi; [|done]. cbn [mbind option_bind]. intros Hn.
  apply leads_next; [done|]. apply IH. unfold link at 2. by rewrite Hi.
Qed.

Lemma map_ok_link u pn : map_ok u -> link u pn <> 0 -> pn < link u pn <= largest_sent_packet_ u /\ held u pn = [].
Proof.
  intros Hok. unfold link, held. destruct (GetTransmissionInfo u pn) as [i|] eqn:Hi; [|done]. intros Hne.
  pose proof (map_ok_entry u pn i Hok Hi) as [X1 X0 X2 X3 X4]. split; [by apply X4|].
  destruct (retransmittable_frames i); [done|]. by destruct (X3 ltac:(done)).
Qed.
Lemma leads_le u pn n : map_ok u -> leads u pn n -> pn <= n.
Proof. intros Hok L. induction L as [|pn n H L IH]; [lia|]. destruct (map_ok_link u pn Hok H). lia. Qed.

(** Every entry leads somewhere. *)
Lemma leads_total u pn i : map_ok u -> GetTransmissionInfo u pn = Some i ->
  exists n, GetNewestRetransmission u pn i = Some n /\ leads u pn n.
Proof.
  intros Hok Hi. destruct (RemoveRetransmittability_acts u pn i Hok Hi) as (u' & n & j & _ & _ & N & _).
  exists n. split; [done|]. apply (newest_loop_leads (length (unacked_packets_ u))). unfold link. by rewrite Hi.
Qed.

(** The links that are cut are those of the chain. *)
Definition cut (u u' : QuicUnackedPacketMap) (n : Z) : Prop :=
  forall x, link u' x = link u x \/ (link u' x = 0 /\ leads u x n).

Lemma set_info_link u pn i j x : GetTransmissionInfo u pn = Some i ->
  link (set_info u pn j) x = if x =? pn then retransmission j else link u x.
Proof. intros Hi. unfold link. rewrite (set_info_lookup u pn i Hi). by case_if. Qed.

Lemma leads_uncut u v pn n x : pn <> n -> (forall y, link v y = if y =? pn then 0 else link u y) -> leads v x n -> leads u x n.
Proof.
  intros Hne Hv L. remember n as n' eqn:Heq. revert Heq. induction L as [x Hx|x m Hx L IH]; intros ->.
  - apply leads_end. rewrite Hv in Hx. revert Hx. case_if; [blia|done].
  - rewrite Hv in Hx, L, IH. revert Hx L IH. case_if; [done|]. intros Hx L IH. apply leads_next; [done|]. by apply IH.
Qed.

(** A change of an entry that leaves its link alone. *)
Lemma set_info_same_link u w pn i j : (forall q, GetTransmissionInfo w q = GetTransmissionInfo u q) -> GetTransmissionInfo u pn = Some i ->
  retransmission j = retransmission i -> forall x, link (set_info w pn j) x = link u x.
Proof.
  intros Hw Hi Hj x. rewrite (set_info_link w pn i) by (by rewrite Hw). case_if; bool_to_prop; [|unfold link; by rewrite Hw].
  subst. unfold link. by rewrite Hi.
Qed.

Lemma leads_above u v pn x n : map_ok u -> (forall y, pn < y -> link v y = link u y) -> pn < x -> leads u x n -> leads v x n.
Proof.
  intros Hok Hv Hx L. induction L as [x H0|x n Hne L IH]; [apply leads_end; by rewrite Hv|].
  destruct (map_ok_link u x Hok Hne). apply leads_next; rewrite Hv by done; [done|]. apply IH. lia.
Qed.

Lemma RemoveRetransmittability_loop_cut fuel u pn i u' n : map_ok u -> GetTransmissionInfo u pn = Some i ->
  RemoveRetransmittability_loop fuel u pn = Some u' -> leads u pn n -> cut u u' n.
Proof.
  revert u pn i. induction fuel as [|fuel IH]; intros u pn i Hok Hi; simpl; rewrite Hi; cbn [mbind option_bind];
    (destruct (retransmission i =? 0) eqn:Hz; cbn [negb]; [|try done]).
  1,2: intros Hr L x; left; destruct (has_crypto_handshake i); injection Hr as <-; by eapply set_info_same_link.
  set (v := set_info u pn (set_retransmission i 0)). intros Hr L. assert (forall y, link v y = if y =? pn then 0 else link u y) as Hv.
  { intros y. unfold v. by rewrite (set_info_link u pn i _ y Hi). }
  pose proof (set_retransmission_acts u pn i Hok Hi) as A. fold v in A.
  assert (link u pn = retransmission i) as Hl by (unfold link; by rewrite Hi).
  destruct (map_ok_link u pn Hok ltac:(rewrite Hl; blia)) as [Hrange _]. rewrite Hl in Hrange.
  destruct (map_ok_inside u (retransmission i) Hok) as [k Hk]; [pose proof (GetTransmissionInfo_range u pn i Hi); lia|].
  assert (leads u (retransmission i) n) as Ln by (rewrite <-Hl; inversion L; subst; [blia|done]).
  pose proof (leads_le u _ _ Hok Ln) as Hle.
  assert (leads v (retransmission i) n) as Lv.
  { apply (leads_above u v pn); try done; [|lia]. intros y Hy. rewrite Hv. case_if; [blia|done]. }
  assert (GetTransmissionInfo v (retransmission i) = Some k) as Hkv.
  { unfold v. rewrite (set_info_lookup u pn i Hi). case_if; [blia|done]. }
  pose proof (IH v (retransmission i) k (ac_ok _ _ _ _ _ A) Hkv Hr Lv) as Hcut.
  intros x. specialize (Hcut x). rewrite Hv in Hcut. revert Hcut. case_if; bool_to_prop; [subst x|].
  - intros [Hc|[Hc _]]; right; (split; [done|]); done.
  - intros [Hc|[Hc Lx]]; [by left|right]. split; [done|]. apply (leads_uncut u v pn); [lia|exact Hv|done].
Qed.

Lemma RemoveRetransmittability_cut u pn i u' n : map_ok u -> GetTransmissionInfo u pn = Some i ->
  RemoveRetransmittability u pn = Some u' -> leads u pn n -> cut u u' n.
Proof. intros Hok Hi Hr L. by eapply RemoveRetransmittability_loop_cut. Qed.

(** After a cut, an entry leads where it did, or where it led no frames are left and it
    leads to an entry without frames. *)
Lemma cut_leads u u' n : map_ok u -> cut u u' n -> (forall q, q <> n -> held u' q = held u q) -> held u' n = [] ->
  forall x m, leads u x m -> leads u' x m \/ (m = n /\ exists y, leads u' x y /\ held u' y = []).
Proof.
  intros Hok Hcut Hheld Hn x m L. induction L as [x Hx|x m Hx L IH].
  - left. apply leads_end. destruct (Hcut x) as [->|[-> _]]; done.
  - destruct (Hcut x) as [Heq|[Hz Lx]].
    + destruct IH as [L'|(-> & y & L' & Hy)]; [left|right; split; [done|exists y; split; [|done]]]; (apply leads_next; rewrite Heq; done).
    + right. split; [apply (leads_det u x m n); [by apply leads_next|done]|]. exists x. split; [by apply leads_end|].
      destruct (decide (x = n)) as [->|Hne]; [done|]. rewrite Hheld by done. by apply map_ok_link.
Qed.
