(* ===== verification/RttStats.v ===== *)
(** * Round trip times

    quic/core/congestion_control/rtt_stats.{h,cc}: the minimal, latest and smoothed round
    trip time of a connection and their deviation, in microseconds.

    The smoothed time is computed in double precision, the deviation in single
    precision.  A floating point number that occurs here is a dyadic fraction far from
    the ends of the exponent range, so it is represented by its numerator over a fixed
    power of two, and an operation rounds the exact numerator to 53 or 24 significant
    bits, to nearest with ties to even ([round_to]). *)

From S2P Require Import Prelude QuicTime.

(** ** Floating point *)

(** [x] rounded to a multiple of [m], ties to even. *)
Definition round_even (x m : Z) : Z :=
  let q := x / m in
  let r := x mod m in
  if (2 * r <? m) || ((2 * r =? m) && Z.even q) then q * m else (q + 1) * m.
(** [x] rounded to [p] significant bits. *)
Definition round_to (p x : Z) : Z := round_even x (2 ^ (Z.max 0 (Z.log2 (Z.abs x) + 1 - p))).

Definition double_bits : Z := 53.
Definition float_bits : Z := 24.

(** [std::llround] of [n] over 2^[k]: to nearest, ties away from zero. *)
Definition llround (n k : Z) : Z := if 0 <=? n then (2 * n + 2 ^ k) / 2 ^ (k + 1) else - ((- (2 * n) + 2 ^ k) / 2 ^ (k + 1)).

(** A delta times the double [m] over 2^[k]. *)
Definition Delta_mul_double (lhs m k : Z) : Z := i64 (llround (round_to double_bits (round_to double_bits lhs * m)) k).

(** ** The class *)

Record RttStats := MkRtt {
  latest_rtt_ : Z; min_rtt_ : Z; smoothed_rtt_ : Z; previous_srtt_ : Z; mean_deviation_ : Z; initial_rtt_us_ : Z }.

Definition kInitialRttMs : Z := 100.
Definition kNumMicrosPerMilli : Z := 1000.
Definition RttStats_new : RttStats := MkRtt 0 0 0 0 0 (kInitialRttMs * kNumMicrosPerMilli).

Definition Delta_max (a b : Z) : Z := if Delta_ltb a b then b else a.

Definition ExpireSmoothedMetrics (r : RttStats) : RttStats :=
  MkRtt (latest_rtt_ r) (min_rtt_ r) (Delta_max (smoothed_rtt_ r) (latest_rtt_ r)) (previous_srtt_ r)
    (Delta_max (mean_deviation_ r) (Delta_FromMicroseconds (Z.abs (Delta_ToMicroseconds (Delta_sub (smoothed_rtt_ r) (latest_rtt_ r))))))
    (initial_rtt_us_ r).

(** Numerators over 4 and over 8: 1 - beta = 3/4, 1 - alpha = 7/8. *)
Definition new_mean_deviation (deviation difference : Z) : Z :=
  i64 (Z.quot (round_to float_bits (round_to float_bits (3 * round_to float_bits deviation) + round_to float_bits (Z.abs difference))) 4).
Definition new_smoothed_rtt (smoothed sample : Z) : Z := Delta_add (Delta_mul_double smoothed 7 3) (Delta_mul_double sample 1 3).

Definition UpdateRtt (r : RttStats) (send_delta ack_delay : Z) : RttStats :=
  if Delta_IsInfinite send_delta || Delta_leb send_delta Delta_Zero then r
  else
    let min_rtt := if Delta_IsZero (min_rtt_ r) || Delta_gtb (min_rtt_ r) send_delta then send_delta else min_rtt_ r in
    let rtt_sample := if Delta_gtb send_delta ack_delay then Delta_sub send_delta ack_delay else send_delta in
    if Delta_IsZero (smoothed_rtt_ r) then
      MkRtt rtt_sample min_rtt rtt_sample (smoothed_rtt_ r) (Z.quot rtt_sample 2) (initial_rtt_us_ r)
    else
      MkRtt rtt_sample min_rtt (new_smoothed_rtt (smoothed_rtt_ r) rtt_sample) (smoothed_rtt_ r)
        (new_mean_deviation (mean_deviation_ r) (Delta_sub (smoothed_rtt_ r) rtt_sample)) (initial_rtt_us_ r).

Definition RttStats_OnConnectionMigration (r : RttStats) : RttStats :=
  MkRtt 0 0 0 (previous_srtt_ r) 0 (kInitialRttMs * kNumMicrosPerMilli).

Definition set_initial_srtt_us (r : RttStats) (us : Z) : RttStats :=
  if us <=? 0 then r else MkRtt (latest_rtt_ r) (min_rtt_ r) us (previous_srtt_ r) (mean_deviation_ r) (initial_rtt_us_ r).
Definition set_initial_min_rtt_us (r : RttStats) (us : Z) : RttStats :=
  if us <=? 0 then r else MkRtt (latest_rtt_ r) us (smoothed_rtt_ r) (previous_srtt_ r) (mean_deviation_ r) (initial_rtt_us_ r).
Definition set_initial_rtt_us (r : RttStats) (us : Z) : RttStats :=
  if us <=? 0 then r else MkRtt (latest_rtt_ r) (min_rtt_ r) (smoothed_rtt_ r) (previous_srtt_ r) (mean_deviation_ r) us.

(** ** Rounding *)

Lemma round_even_one x : round_even x 1 = x.
Proof. unfold round_even. rewrite Z.div_1_r, Z.mod_1_r. simpl. lia. Qed.

Lemma round_to_small p x : 0 < p -> Z.abs x < 2 ^ p -> round_to p x = x.
Proof.
  intros Hp Hx. unfold round_to. replace (Z.max 0 _) with 0; [apply round_even_one|].
  destruct (decide (x = 0)) as [->|Hz].
  - simpl. lia.
  - assert (Z.log2 (Z.abs x) < p) by (apply Z.log2_lt_pow2; lia). lia.
Qed.

(** Times up to 2^49 microseconds (seventeen years) are multiplied exactly. *)
Lemma Delta_mul_double_exact x m k : 0 <= x < 2 ^ 49 -> 0 <= m < 16 -> 0 <= k <= 8 ->
  Delta_mul_double x m k = (2 * (x * m) + 2 ^ k) / 2 ^ (k + 1).
Proof.
  intros Hx Hm Hk. unfold Delta_mul_double, double_bits. assert (0 <= x * m < 2 ^ 53) by nia.
  rewrite (round_to_small 53 x), (round_to_small 53 (x * m)) by lia. unfold llround. case_if; [|blia].
  assert (1 <= 2 ^ k <= 2 ^ 8) by (split; [pose proof (Z.pow_pos_nonneg 2 k); lia|apply Z.pow_le_mono_r; lia]).
  apply i64_id. unfold is_i64. rewrite Z.pow_add_r by lia. change (2 ^ 1) with 2.
  assert (0 <= (2 * (x * m) + 2 ^ k) / (2 ^ k * 2)) by (apply Z.div_pos; lia).
  assert ((2 * (x * m) + 2 ^ k) / (2 ^ k * 2) <= 2 * (x * m) + 2 ^ k) by (apply Z.div_le_upper_bound; nia). lia.
Qed.

Lemma new_smoothed_rtt_exact x y : 0 <= x < 2 ^ 49 -> 0 <= y < 2 ^ 49 -> new_smoothed_rtt x y = (7 * x + 4) / 8 + (y + 4) / 8.
Proof.
  intros Hx Hy. unfold new_smoothed_rtt. rewrite !Delta_mul_double_exact by lia. unfold Delta_add.
  replace (2 * (x * 7) + 2 ^ 3) with (2 * (7 * x + 4)) by lia. replace (2 * (y * 1) + 2 ^ 3) with (2 * (y + 4)) by lia.
  change (2 ^ (3 + 1)) with (2 * 8). rewrite !Z.div_mul_cancel_l by lia. apply i64_id. unfold is_i64.
  Z.div_mod_to_equations. lia.
Qed.

Lemma new_mean_deviation_small d x : 0 <= d < 2 ^ 22 -> Z.abs x < 2 ^ 22 -> new_mean_deviation d x = (3 * d + Z.abs x) / 4.
Proof.
  intros Hd Hx. unfold new_mean_deviation, float_bits.
  rewrite (round_to_small 24 d), (round_to_small 24 (3 * d)), (round_to_small 24 (Z.abs x)), (round_to_small 24 (3 * d + Z.abs x)) by lia.
  rewrite Z.quot_div_nonneg by lia. apply i64_id. unfold is_i64. Z.div_mod_to_equations. lia.
Qed.

(** ** Estimates follow the samples *)

Abbreviation sample := (Z * Z)%type.
(** A sample: the time since the packet was sent, the delay the peer reports. *)
Definition sample_ok (s : sample) : Prop := 0 < s.1 < 2 ^ 48 /\ 0 <= s.2 < 2 ^ 63.
Definition sample_rtt (s : sample) : Z := if s.2 <? s.1 then s.1 - s.2 else s.1.
Definition UpdateRtt_all (r : RttStats) (l : list sample) : RttStats := fold_left (fun r s => UpdateRtt r s.1 s.2) l r.

Lemma sample_rtt_bounds s : sample_ok s -> 0 < sample_rtt s <= s.1.
Proof. intros [H1 H2]. unfold sample_rtt. case_if; blia. Qed.

Lemma UpdateRtt_eq r s : sample_ok s -> UpdateRtt r s.1 s.2 =
  let m := if (min_rtt_ r =? 0) || (s.1 <? min_rtt_ r) then s.1 else min_rtt_ r in
  if smoothed_rtt_ r =? 0 then
    MkRtt (sample_rtt s) m (sample_rtt s) (smoothed_rtt_ r) (Z.quot (sample_rtt s) 2) (initial_rtt_us_ r)
  else
    MkRtt (sample_rtt s) m (new_smoothed_rtt (smoothed_rtt_ r) (sample_rtt s)) (smoothed_rtt_ r)
      (new_mean_deviation (mean_deviation_ r) (Delta_sub (smoothed_rtt_ r) (sample_rtt s))) (initial_rtt_us_ r).
Proof.
  intros [H1 H2]. unfold UpdateRtt, Delta_IsInfinite, Delta_leb, Delta_gtb, Delta_ltb, Delta_IsZero, Delta_Zero.
  rewrite (proj2 (Z.eqb_neq _ _)) by (unfold kQuicInfiniteTimeUs, kI64Max; lia). rewrite (proj2 (Z.ltb_lt 0 _)) by lia. simpl.
  unfold sample_rtt. destruct (s.2 <? s.1) eqn:Hd; [|done]. replace (Delta_sub s.1 s.2) with (s.1 - s.2); [done|].
  symmetry. apply i64_id. unfold is_i64. blia.
Qed.

(** One step of the average stays within the samples, up to the rounding of its two
    terms. *)
Lemma new_smoothed_rtt_bounds lo hi x y : 0 < lo -> hi < 2 ^ 48 -> lo <= x <= hi + 1 -> lo <= y <= hi -> lo <= new_smoothed_rtt x y <= hi + 1.
Proof.
  intros H1 H2 Hx Hy. rewrite new_smoothed_rtt_exact by lia. Z.div_mod_to_equations. lia.
Qed.

Record rtt_within (lo hi : Z) (r : RttStats) (l : list sample) : Prop := {
  rw_smoothed : lo <= smoothed_rtt_ r <= hi + 1;
  rw_latest : lo <= latest_rtt_ r <= hi;
  rw_last : option_map sample_rtt (last l) = Some (latest_rtt_ r);
  rw_min : min_rtt_ r ∈ map fst l /\ Forall (fun s => min_rtt_ r <= s.1) l }.

Lemma UpdateRtt_within lo hi r l s : 0 < lo -> hi < 2 ^ 48 -> rtt_within lo hi r l -> sample_ok s -> lo <= sample_rtt s <= hi ->
  Forall sample_ok l -> rtt_within lo hi (UpdateRtt r s.1 s.2) (l ++ [s]).
Proof.
  intros H1 H2 [W1 W2 W3 [W4 W5]] Hs Hb Hl. rewrite UpdateRtt_eq by done.
  assert (0 < min_rtt_ r) as Hpos. { apply list_elem_of_fmap in W4 as (t & -> & Ht). rewrite Forall_forall in Hl. apply (Hl t Ht). }
  rewrite (proj2 (Z.eqb_neq (min_rtt_ r) 0)), (proj2 (Z.eqb_neq (smoothed_rtt_ r) 0)) by lia. cbn zeta. cbn [orb].
  split; simpl; [by apply new_smoothed_rtt_bounds|done|by rewrite last_snoc|].
  rewrite map_app. split; [case_if; set_solver|]. apply Forall_app. split; [|case_if; constructor; simpl; (blia || constructor)].
  eapply Forall_impl; [exact W5|]. intros t Ht. simpl in *. case_if; blia.
Qed.

Lemma UpdateRtt_all_within lo hi r l k : 0 < lo -> hi < 2 ^ 48 -> rtt_within lo hi r l -> Forall sample_ok l ->
  Forall (fun s => sample_ok s /\ lo <= sample_rtt s <= hi) k -> rtt_within lo hi (UpdateRtt_all r k) (l ++ k).
Proof.
  intros H1 H2. revert r l. induction k as [|s k IH]; intros r l Hw Hl Hk; [by rewrite app_nil_r|].
  apply Forall_cons in Hk as [[Hs Hb] Hk]. simpl. rewrite snoc_app. apply IH; [by apply UpdateRtt_within| |done].
  apply Forall_app. split; [done|]. by constructor.
Qed.

(** C29: the estimates of the round trip time follow the samples.  After any sequence of
    samples, each with a round trip time (corrected by the delay the peer reports)
    between [lo] and [hi], the smoothed time is at least [lo] and at most one microsecond
    above [hi], the latest time is that of the last sample, and the minimal time is the
    least of the uncorrected times.  The microsecond is the rounding of the two products
    of the average, computed in double precision. *)
Theorem rtt_follows_samples (lo hi : Z) (s : sample) (l : list sample) : 0 < lo -> hi < 2 ^ 48 ->
  Forall (fun s => sample_ok s /\ lo <= sample_rtt s <= hi) (s :: l) ->
  let r := UpdateRtt_all RttStats_new (s :: l) in
  lo <= smoothed_rtt_ r <= hi + 1 /\ option_map sample_rtt (last (s :: l)) = Some (latest_rtt_ r) /\
  min_rtt_ r ∈ map fst (s :: l) /\ Forall (fun t => min_rtt_ r <= t.1) (s :: l).
Proof.
  intros H1 H2 Hall r. pose proof Hall as [[Hs Hb] Hl]%Forall_cons.
  assert (rtt_within lo hi (UpdateRtt RttStats_new s.1 s.2) [s]) as Hw.
  { rewrite UpdateRtt_eq by done. cbn. split; simpl; try lia; [done|]. split; [by left|]. by constructor. }
  destruct (UpdateRtt_all_within lo hi _ [s] l H1 H2 Hw) as [W1 W2 W3 [W4 W5]]; [by constructor|done|]. done.
Qed.

Lemma rtt_follows_samples_witness :
  let l := [(100000, 20000); (90000, 0); (130000, 30000)] in
  let r := UpdateRtt_all RttStats_new l in
  smoothed_rtt_ r = 83594 /\ 80000 <= smoothed_rtt_ r <= 100001 /\ min_rtt_ r = 90000.
Proof.
  destruct (rtt_follows_samples 80000 100000 (100000, 20000) [(90000, 0); (130000, 30000)]) as (H1 & H2 & H3 & H4); [lia|lia| |].
  { repeat constructor; simpl; try lia; vm_compute; intuition discriminate. }
  split; [vm_compute; reflexivity|]. split; [exact H1|]. vm_compute. reflexivity.
Defined.
