(* ===== verification/LossAlgorithm.v ===== *)
(** * Loss detection

    quic/core/congestion_control/general_loss_algorithm.{h,cc}: which of the packets in
    flight are lost, after an acknowledgement or when the alarm of the previous call
    fires.  [None] is an access to an entry that is not in the packet map. *)

From stdpp Require Import gmap sorting.
From S2P Require Import Prelude QuicTime QuicData Framer SequencerBuffer UnackedPacketMap UnackedFacts RttStats.

Inductive LossDetectionType := kNack | kTime | kAdaptiveTime | kLazyFack.
#[export] Instance LossDetectionType_eq : EqDecision LossDetectionType.
Proof. solve_decision. Defined.

Record GeneralLossAlgorithm := MkLoss {
  loss_detection_timeout_ : Z;
  largest_sent_on_spurious_retransmit_ : Z;
  loss_type_ : LossDetectionType;
  reordering_shift_ : Z;
  largest_previously_acked_ : Z }.

Definition kMinLossDelayMs : Z := 5.
Definition kDefaultLossDelayShift : Z := 2.
Definition kDefaultAdaptiveLossDelayShift : Z := 4.
Definition kNumberOfNacksBeforeRetransmission : Z := 3.

Definition GeneralLossAlgorithm_new (loss_type : LossDetectionType) : GeneralLossAlgorithm :=
  MkLoss QuicTime_Zero 0 loss_type
    (if bool_decide (loss_type = kAdaptiveTime) then kDefaultAdaptiveLossDelayShift else kDefaultLossDelayShift) 0.
Definition GetLossDetectionType (a : GeneralLossAlgorithm) : LossDetectionType := loss_type_ a.
Definition SetLossDetectionType (a : GeneralLossAlgorithm) (loss_type : LossDetectionType) : GeneralLossAlgorithm :=
  MkLoss QuicTime_Zero 0 loss_type
    (if bool_decide (loss_type = kAdaptiveTime) then kDefaultAdaptiveLossDelayShift else kDefaultLossDelayShift) 0.
Definition GetLossTimeout (a : GeneralLossAlgorithm) : Z := loss_detection_timeout_ a.

Definition max_rtt (rtt : RttStats) : Z := Delta_max (previous_srtt_ rtt) (latest_rtt_ rtt).
Definition loss_delay (a : GeneralLossAlgorithm) (rtt : RttStats) : Z :=
  Delta_max (Delta_FromMilliseconds kMinLossDelayMs) (Delta_add (max_rtt rtt) (Delta_shr (max_rtt rtt) (reordering_shift_ a))).

(** Packet number and bytes. *)
Abbreviation CongestionVector := (list (Z * Z)).

(** The number of packets that were received out of order is too high. *)
Definition nack_lost (a : GeneralLossAlgorithm) (largest_newly_acked packet_number : Z) : bool :=
  match loss_type_ a with
  | kNack => largest_newly_acked - packet_number >=? kNumberOfNacksBeforeRetransmission
  | kLazyFack =>
      (largest_newly_acked >? largest_previously_acked_ a) && (largest_previously_acked_ a >? packet_number) &&
      (largest_previously_acked_ a - packet_number >=? kNumberOfNacksBeforeRetransmission - 1)
  | _ => false
  end.
(** Whether a packet is subject to the timer. *)
Definition early_retransmit (a : GeneralLossAlgorithm) (u : QuicUnackedPacketMap) (largest_newly_acked : Z) (i : QuicTransmissionInfo) : bool :=
  (negb (bool_decide (retransmittable_frames i = [])) && (largest_sent_retransmittable_packet_ u <=? largest_newly_acked)) ||
  (bool_decide (loss_type_ a = kTime) || bool_decide (loss_type_ a = kAdaptiveTime)).

(** The loop over the entries [l] from [packet_number]: the packets lost, and the
    timeout if the loop was left. *)
Fixpoint DetectLosses_loop (a : GeneralLossAlgorithm) (u : QuicUnackedPacketMap) (time : Z) (rtt : RttStats) (largest_newly_acked : Z)
    (l : list QuicTransmissionInfo) (packet_number : Z) : option (CongestionVector * Z) :=
  match l with
  | [] => Some ([], QuicTime_Zero)
  | i :: l =>
      if negb (packet_number <=? largest_newly_acked) then Some ([], QuicTime_Zero)
      else
        let continue := DetectLosses_loop a u time rtt largest_newly_acked l (packet_number + 1) in
        let lost := let* (lost, timeout) := continue in Some ((packet_number, bytes_sent i) :: lost, timeout) in
        if negb (in_flight i) then continue
        else if nack_lost a largest_newly_acked packet_number then lost
        else if early_retransmit a u largest_newly_acked i then
          let when_lost := QuicTime_add (sent_time i) (loss_delay a rtt) in
          if QuicTime_ltb time when_lost then Some ([], when_lost) else lost
        else
          let* acked := GetTransmissionInfo u largest_newly_acked in
          if QuicTime_ltb (QuicTime_add (sent_time i) (smoothed_rtt_ rtt)) (sent_time acked) then lost else continue
  end.

Definition DetectLosses (a : GeneralLossAlgorithm) (u : QuicUnackedPacketMap) (time : Z) (rtt : RttStats) (largest_newly_acked : Z)
    (packets_lost : CongestionVector) : option (GeneralLossAlgorithm * CongestionVector) :=
  let* (lost, timeout) := DetectLosses_loop a u time rtt largest_newly_acked (unacked_packets_ u) (least_unacked_ u) in
  Some (MkLoss timeout (largest_sent_on_spurious_retransmit_ a) (loss_type_ a) (reordering_shift_ a) largest_newly_acked,
        packets_lost ++ lost).

(** ** Spurious retransmissions *)

Definition with_shift (a : GeneralLossAlgorithm) (largest_sent shift : Z) : GeneralLossAlgorithm :=
  MkLoss (loss_detection_timeout_ a) largest_sent (loss_type_ a) shift (largest_previously_acked_ a).
(** [while ((max_rtt >> shift) <= extra && shift > 0) --shift] *)
Fixpoint lower_shift (fuel : nat) (rtt extra shift : Z) : Z :=
  match fuel with
  | O => shift
  | S fuel => if Delta_leb (Delta_shr rtt shift) extra && (shift >? 0) then lower_shift fuel rtt extra (shift - 1) else shift
  end.
(** [do { proposed = max_rtt >> shift; --shift; } while (proposed < extra && shift > 0)] *)
Fixpoint lower_shift_once (fuel : nat) (rtt extra shift : Z) : Z :=
  let proposed := Delta_shr rtt shift in
  let shift := shift - 1 in
  match fuel with
  | O => shift
  | S fuel => if Delta_ltb proposed extra && (shift >? 0) then lower_shift_once fuel rtt extra shift else shift
  end.

(** [fix_adaptive_time_loss] is the flag quic_reloadable_flag_quic_fix_adaptive_time_loss. *)
Definition SpuriousRetransmitDetected (fix_adaptive_time_loss : bool) (a : GeneralLossAlgorithm) (u : QuicUnackedPacketMap) (time : Z)
    (rtt : RttStats) (spurious_retransmission : Z) : option GeneralLossAlgorithm :=
  if negb (bool_decide (loss_type_ a = kAdaptiveTime)) || (reordering_shift_ a =? 0) then Some a
  else
    let* i := GetTransmissionInfo u spurious_retransmission in
    let extra_time_needed := QuicTime_diff time (sent_time i) in
    if fix_adaptive_time_loss then
      Some (with_shift a (largest_sent_on_spurious_retransmit_ a)
              (lower_shift (Z.to_nat (reordering_shift_ a)) (max_rtt rtt) extra_time_needed (reordering_shift_ a)))
    else if spurious_retransmission <=? largest_sent_on_spurious_retransmit_ a then Some a
    else
      Some (with_shift a (largest_sent_packet_ u)
              (lower_shift_once (Z.to_nat (reordering_shift_ a)) (max_rtt rtt) extra_time_needed (reordering_shift_ a))).

(** ** What is lost *)

(** At least three newer packets were acknowledged past [pn]; with lazy FACK, at least two
    by an earlier acknowledgement than this one. *)
Definition overtaken (a : GeneralLossAlgorithm) (lna pn : Z) : bool :=
  match loss_type_ a with
  | kNack => pn + 3 <=? lna
  | kLazyFack => (largest_previously_acked_ a <? lna) && (pn + 2 <=? largest_previously_acked_ a)
  | kTime | kAdaptiveTime => false
  end.
(** The timer decides: always with time based detection, otherwise for packets with data
    once the last packet sent is acknowledged. *)
Definition timed (a : GeneralLossAlgorithm) (u : QuicUnackedPacketMap) (lna : Z) (i : QuicTransmissionInfo) : bool :=
  match loss_type_ a with
  | kTime | kAdaptiveTime => true
  | kNack | kLazyFack => (largest_sent_retransmittable_packet_ u <=? lna) && match retransmittable_frames i with [] => false | _ => true end
  end.
Lemma nack_lost_overtaken a lna pn : nack_lost a lna pn = overtaken a lna pn.
Proof.
  unfold nack_lost, overtaken, kNumberOfNacksBeforeRetransmission. destruct (loss_type_ a); try done; apply eq_true_iff_eq; rewrite ?andb_true_iff; split; intros; bool_to_prop; lia.
Qed.
Lemma early_retransmit_timed a u lna i : early_retransmit a u lna i = timed a u lna i.
Proof.
  unfold early_retransmit, timed. destruct (loss_type_ a); simpl; rewrite ?orb_true_r, ?orb_false_r; try done; destruct (retransmittable_frames i);
    simpl; by rewrite ?andb_true_r, ?andb_false_r.
Qed.

Section Detect.
Context (a : GeneralLossAlgorithm) (u : QuicUnackedPacketMap) (time : Z) (rtt : RttStats) (lna : Z).

Definition when_lost (i : QuicTransmissionInfo) : Z := QuicTime_add (sent_time i) (loss_delay a rtt).
(** A packet waits for the timer. *)
Definition waits (pn : Z) (i : QuicTransmissionInfo) : bool :=
  in_flight i && negb (overtaken a lna pn) && timed a u lna i && (time <? when_lost i).
(** A packet in flight, not newer than the acknowledged one, is lost: too many packets
    overtook it, or its time is over, or it was sent more than a round trip before the
    acknowledged packet. *)
Definition is_lost (pn : Z) (i : QuicTransmissionInfo) : bool :=
  (pn <=? lna) && in_flight i &&
  (overtaken a lna pn ||
   (if timed a u lna i then negb (time <? when_lost i)
    else match GetTransmissionInfo u lna with
         | Some acked => QuicTime_add (sent_time i) (smoothed_rtt_ rtt) <? sent_time acked
         | None => false
         end)).

(** The packets before the first one that waits for the timer, and its time. *)
Fixpoint scan (l : list QuicTransmissionInfo) (pn : Z) : CongestionVector * Z :=
  match l with
  | [] => ([], 0)
  | i :: l =>
      if lna <? pn then ([], 0)
      else if waits pn i then ([], when_lost i)
      else let '(lost, t) := scan l (pn + 1) in (if is_lost pn i then (pn, bytes_sent i) :: lost else lost, t)
  end.

Lemma DetectLosses_loop_scan l pn : (pn <= lna -> l <> [] -> is_Some (GetTransmissionInfo u lna)) ->
  DetectLosses_loop a u time rtt lna l pn = Some (scan l pn).
Proof.
  revert pn. induction l as [|i l IH]; intros pn Hs; [done|]. cbn [DetectLosses_loop scan].
  destruct (lna <? pn) eqn:Hlt; [rewrite (proj2 (Z.leb_gt pn lna)) by blia; done|]. rewrite (proj2 (Z.leb_le pn lna)) by blia. cbn [negb].
  destruct (Hs ltac:(blia) ltac:(done)) as [k Hk]. rewrite IH by (intros; by exists k).
  rewrite nack_lost_overtaken, early_retransmit_timed. unfold waits, is_lost. rewrite Hk, (proj2 (Z.leb_le pn lna)) by blia. cbn [mbind option_bind]. destruct (scan l (pn + 1)) as [lost t].
  destruct (in_flight i); [|done]. destruct (overtaken a lna pn); [done|]. fold (when_lost i). unfold QuicTime_ltb.
  destruct (timed a u lna i); simpl; [by destruct (time <? when_lost i)|]. by destruct (_ <? sent_time k).
Qed.
End Detect.

(** A packet that fewer packets overtook is not lost for that reason if an older one is
    not. *)
Lemma overtaken_mono a lna p q : p <= q -> overtaken a lna q = true -> overtaken a lna p = true.
Proof.
  unfold overtaken. intros Hpq. destruct (loss_type_ a); try done; intros H; [blia|].
  bool_to_prop. rewrite !andb_true_iff. split_and!; blia.
Qed.

Section Scan.
Context (a : GeneralLossAlgorithm) (u : QuicUnackedPacketMap) (time : Z) (rtt : RttStats) (lna : Z).
#[local] Abbreviation scan := (scan a u time rtt lna).
#[local] Abbreviation waits := (waits a u time rtt lna).
#[local] Abbreviation is_lost := (is_lost a u time rtt lna).

Lemma scan_sound l pn q b : (q, b) ∈ (scan l pn).1 -> exists k i, l !! k = Some i /\ q = pn + Z.of_nat k /\ b = bytes_sent i /\ is_lost q i = true.
Proof.
  revert pn. induction l as [|i l IH]; intros pn; simpl; [set_solver|]. case_if; [set_solver|]. case_if; [set_solver|].
  destruct (scan l (pn + 1)) as [lost t] eqn:Hs. specialize (IH (pn + 1)). rewrite Hs in IH. simpl in *.
  assert ((q, b) ∈ lost -> exists k j, (i :: l) !! k = Some j /\ q = pn + Z.of_nat k /\ b = bytes_sent j /\ is_lost q j = true) as Hrest.
  { intros (k & j & K1 & K2 & K3)%IH. exists (S k), j. split; [done|]. split; [lia|done]. }
  case_if; [|done]. intros [[= -> ->]|Hin]%elem_of_cons; [|auto]. exists O, i. rewrite Z.add_0_r. by split_and!.
Qed.

Lemma scan_sorted l pn : StronglySorted Z.lt (map fst (scan l pn).1).
Proof.
  revert pn. induction l as [|i l IH]; intros pn; simpl; [constructor|]. case_if; [constructor|]. case_if; [constructor|].
  pose proof (IH (pn + 1)) as Hs. pose proof (scan_sound l (pn + 1)) as Hb. destruct (scan l (pn + 1)) as [lost t]. simpl in *.
  case_if; [|done]. simpl. constructor; [done|]. apply Forall_forall. intros q ([q' b] & -> & Hq)%list_elem_of_fmap.
  destruct (Hb q' b Hq) as (k & j & _ & -> & _). simpl. lia.
Qed.

(** Either everything lost is found, or the scan ended at a packet that waits. *)
Lemma scan_complete l pn :
  ((scan l pn).2 = 0 /\ (forall k i, l !! k = Some i -> is_lost (pn + Z.of_nat k) i = true -> (pn + Z.of_nat k, bytes_sent i) ∈ (scan l pn).1)) \/
  (exists k0 i0, l !! k0 = Some i0 /\ pn + Z.of_nat k0 <= lna /\ waits (pn + Z.of_nat k0) i0 = true /\ (scan l pn).2 = when_lost a rtt i0 /\
     forall k i, (k < k0)%nat -> l !! k = Some i ->
       waits (pn + Z.of_nat k) i = false /\
       (is_lost (pn + Z.of_nat k) i = true -> (pn + Z.of_nat k, bytes_sent i) ∈ (scan l pn).1)).
Proof.
  revert pn. induction l as [|i l IH]; intros pn; [by left|]. simpl. case_if.
  - left. split; [done|]. intros k j _. unfold LossAlgorithm.is_lost. rewrite (proj2 (Z.leb_gt _ _)) by blia. done.
  - destruct (waits pn i) eqn:Hw.
    + right. exists O, i. rewrite Z.add_0_r. split_and!; try done; [blia|lia].
    + destruct (IH (pn + 1)) as [[H1 H2]|(k0 & i0 & H1 & H2 & H3 & H4 & H5)]; destruct (scan l (pn + 1)) as [lost t] eqn:Hs; simpl in *.
      * left. split; [done|]. intros [|k] j Hl; simplify_eq/=; [rewrite Z.add_0_r; intros ->; by left|].
        replace (pn + Z.of_nat (S k)) with (pn + 1 + Z.of_nat k) by lia. intros Hi. case_if; [right|]; by apply H2.
      * right. exists (S k0), i0. replace (pn + Z.of_nat (S k0)) with (pn + 1 + Z.of_nat k0) by lia. split_and!; try done.
        intros [|k] j Hk Hl; simplify_eq/=; [rewrite Z.add_0_r; split; [done|intros ->; by left]|].
        replace (pn + Z.of_nat (S k)) with (pn + 1 + Z.of_nat k) by lia. destruct (H5 k j ltac:(lia) Hl) as [H6 H7].
        split; [done|]. intros Hi. case_if; [right|]; by apply H7.
Qed.

Lemma waits_inv pn i : waits pn i = true -> in_flight i = true /\ overtaken a lna pn = false /\ timed a u lna i = true /\ time < when_lost a rtt i.
Proof. unfold LossAlgorithm.waits. rewrite !andb_true_iff, negb_true_iff. intros [[[H1 H2] H3] H4]. split_and!; try done. blia. Qed.
End Scan.

Section Algorithm.
Context (a : GeneralLossAlgorithm) (u : QuicUnackedPacketMap) (time : Z) (rtt : RttStats) (lna : Z) (lost0 : CongestionVector).
Context (Hok : map_ok u) (Hlna : lna <= largest_sent_packet_ u).

Lemma DetectLosses_scan : DetectLosses a u time rtt lna lost0 =
  (let '(lost, t) := scan a u time rtt lna (unacked_packets_ u) (least_unacked_ u) in
   Some (MkLoss t (largest_sent_on_spurious_retransmit_ a) (loss_type_ a) (reordering_shift_ a) lna, lost0 ++ lost)).
Proof.
  unfold DetectLosses. rewrite DetectLosses_loop_scan; [by destruct (scan _ _ _ _ _ _ _)|].
  intros H1 _. destruct (map_ok_inside u lna Hok ltac:(lia)) as [i Hi]. by exists i.
Qed.
End Algorithm.

Lemma lookup_GetTransmissionInfo u k i : unacked_packets_ u !! k = Some i -> GetTransmissionInfo u (least_unacked_ u + Z.of_nat k) = Some i.
Proof. intros H. unfold GetTransmissionInfo. case_if; [blia|]. by replace (Z.to_nat _) with k by lia. Qed.
Lemma GetTransmissionInfo_lookup u q i : GetTransmissionInfo u q = Some i ->
  exists k, q = least_unacked_ u + Z.of_nat k /\ unacked_packets_ u !! k = Some i.
Proof. unfold GetTransmissionInfo. case_if; [done|]. intros H. exists (Z.to_nat (q - least_unacked_ u)). split; [blia|done]. Qed.

(** C28: loss detection finds the lost packets.  For a well-formed packet map and an
    acknowledged packet that was sent, [DetectLosses] never looks outside the map; it
    appends, in the order of their numbers, only packets that are in flight, are not newer
    than the acknowledged packet and are lost by one of the three rules, with their size;
    every packet that three newer packets overtook (for lazy FACK, that two overtook in an
    earlier acknowledgement) is among them.  Either no timer is set and all lost packets are
    reported, or the timer is set to the moment, in the future, at which the first
    unreported packet that waits for it will be lost, and everything lost before that
    packet is reported. *)
Theorem loss_detection_exact (a : GeneralLossAlgorithm) (u : QuicUnackedPacketMap) (time : Z) (rtt : RttStats) (lna : Z) (lost0 : CongestionVector) :
  map_ok u -> lna <= largest_sent_packet_ u -> exists a' lost, DetectLosses a u time rtt lna lost0 = Some (a', lost0 ++ lost) /\
  StronglySorted Z.lt (map fst lost) /\
  (forall q b, (q, b) ∈ lost -> exists i, GetTransmissionInfo u q = Some i /\ b = bytes_sent i /\ is_lost a u time rtt lna q i = true) /\
  (forall q i, GetTransmissionInfo u q = Some i -> in_flight i = true -> q <= lna -> overtaken a lna q = true -> (q, bytes_sent i) ∈ lost) /\
  (GetLossTimeout a' = 0 /\ (forall q i, GetTransmissionInfo u q = Some i -> is_lost a u time rtt lna q i = true -> (q, bytes_sent i) ∈ lost) \/
   exists q0 i0, GetTransmissionInfo u q0 = Some i0 /\ waits a u time rtt lna q0 i0 = true /\
     GetLossTimeout a' = when_lost a rtt i0 /\ time < GetLossTimeout a' /\
     (forall q i, q < q0 -> GetTransmissionInfo u q = Some i -> waits a u time rtt lna q i = false /\
        (is_lost a u time rtt lna q i = true -> (q, bytes_sent i) ∈ lost))).
Proof.
  intros Hok Hlna. rewrite DetectLosses_scan by done.
  pose proof (scan_sound a u time rtt lna (unacked_packets_ u) (least_unacked_ u)) as Hsound.
  pose proof (scan_sorted a u time rtt lna (unacked_packets_ u) (least_unacked_ u)) as Hsorted.
  pose proof (scan_complete a u time rtt lna (unacked_packets_ u) (least_unacked_ u)) as Hcompl.
  destruct (scan a u time rtt lna (unacked_packets_ u) (least_unacked_ u)) as [lost t]. simpl in *.
  eexists _, lost. split; [done|]. split; [done|]. split.
  { intros q b (k & i & H1 & -> & H3)%Hsound. exists i. split; [by apply lookup_GetTransmissionInfo|done]. }
  assert (forall q i, GetTransmissionInfo u q = Some i -> in_flight i = true -> q <= lna -> overtaken a lna q = true ->
            is_lost a u time rtt lna q i = true) as Hnack.
  { intros q i _ H1 H2 H3. unfold is_lost. by rewrite (proj2 (Z.leb_le _ _)), H1, H3. }
  destruct Hcompl as [[-> Hall]|(k0 & i0 & H1 & H2 & H3 & H4 & H5)].
  - assert (forall q i, GetTransmissionInfo u q = Some i -> is_lost a u time rtt lna q i = true -> (q, bytes_sent i) ∈ lost) as Hall'.
    { intros q i (k & -> & Hk)%GetTransmissionInfo_lookup. by apply Hall. }
    split; [|by left]. intros q i Hi. eauto.
  - destruct (waits_inv _ _ _ _ _ _ _ H3) as (W1 & W2 & W3 & W4). split.
    + intros q i Hi Hf Hle Hn. pose proof (Hnack q i Hi Hf Hle Hn) as Hlost. destruct (GetTransmissionInfo_lookup u q i Hi) as (k & -> & Hk).
      destruct (decide (k < k0)%nat) as [Hlt|Hge]; [by apply (H5 k i Hlt Hk)|].
      rewrite (overtaken_mono a lna (least_unacked_ u + Z.of_nat k0) (least_unacked_ u + Z.of_nat k)) in W2; [done|lia|done].
    + right. exists (least_unacked_ u + Z.of_nat k0), i0. split; [by apply lookup_GetTransmissionInfo|]. unfold GetLossTimeout. simpl. rewrite H4.
      split_and!; try done. intros q i Hq (k & -> & Hk)%GetTransmissionInfo_lookup. apply H5; [lia|done].
Qed.

Lemma loss_detection_exact_witness :
  let i := set_in_flight (QuicTransmissionInfo_new ENCRYPTION_NONE 1 NOT_RETRANSMISSION 1000 1200 false 0) true in
  let u := MkUnacked 5 5 0 [i; i; i; i; i] 1 6000 0 false in
  exists a', DetectLosses (GeneralLossAlgorithm_new kNack) u 2000 RttStats_new 5 [] = Some (a', [(1, 1200); (2, 1200)]) /\ GetLossTimeout a' = 0.
Proof.
  intros i u. assert (map_ok u) as Hok.
  { split; [|done]. split; try (vm_compute; intuition congruence). intros pn j Hj. apply GetTransmissionInfo_elem in Hj. simpl in Hj.
    assert (j = i) as -> by set_solver. by split. }
  destruct (loss_detection_exact (GeneralLossAlgorithm_new kNack) u 2000 RttStats_new 5 [] Hok) as (a' & lost & H1 & _); [simpl; lia|].
  exists a'. vm_compute in H1. injection H1 as <- <-. split; vm_compute; reflexivity.
Defined.

(** ** The alarm *)

(** Packets whose loss was reported are no longer in flight. *)
Record reported (u : QuicUnackedPacketMap) (lost : CongestionVector) (u' : QuicUnackedPacketMap) : Prop := {
  re_least : least_unacked_ u' = least_unacked_ u;
  re_sent : largest_sent_packet_ u' = largest_sent_packet_ u;
  re_retransmittable : largest_sent_retransmittable_packet_ u' = largest_sent_retransmittable_packet_ u;
  re_entries : forall q i, GetTransmissionInfo u q = Some i ->
    GetTransmissionInfo u' q = Some (if bool_decide (q ∈ map fst lost) then set_in_flight i false else i) }.

Lemma scan_skip a u time rtt lna l pn k0 i0 :
  (forall k i, (k < k0)%nat -> l !! k = Some i -> waits a u time rtt lna (pn + Z.of_nat k) i = false /\ is_lost a u time rtt lna (pn + Z.of_nat k) i = false) ->
  l !! k0 = Some i0 -> waits a u time rtt lna (pn + Z.of_nat k0) i0 = false -> is_lost a u time rtt lna (pn + Z.of_nat k0) i0 = true ->
  exists lost, (scan a u time rtt lna l pn).1 = (pn + Z.of_nat k0, bytes_sent i0) :: lost.
Proof.
  intros Hbefore Hl Hw Hi. assert (pn + Z.of_nat k0 <= lna) as Hle by (unfold is_lost in Hi; blia).
  revert l pn Hbefore Hl Hw Hi Hle. induction k0 as [|k0 IH]; intros [|i l] pn Hbefore Hl Hw Hi Hle; try done; cbn [scan].
  - injection Hl as ->. rewrite Z.add_0_r in *. rewrite (proj2 (Z.ltb_ge _ _)) by lia. rewrite Hw, Hi.
    destruct (scan _ _ _ _ _ l _) as [lost t]. by eexists.
  - rewrite (proj2 (Z.ltb_ge _ _)) by lia. destruct (Hbefore O i ltac:(lia) eq_refl) as [B1 B2]. rewrite Z.add_0_r in B1, B2. rewrite B1, B2.
    replace (pn + Z.of_nat (S k0)) with (pn + 1 + Z.of_nat k0) in * by lia.
    destruct (IH l (pn + 1)) as [lost H1]; try done.
    + intros k j Hk Hj. replace (pn + 1 + Z.of_nat k) with (pn + Z.of_nat (S k)) by lia. apply Hbefore; [lia|done].
    + exists lost. rewrite <-H1. by destruct (scan _ _ _ _ _ l _) as [lost' t].
Qed.

(** A packet in flight that was neither lost nor waiting is, after the losses were taken
    out of flight and nothing new was acknowledged, still neither, at any time. *)
Lemma silent_again a u u' t s time time' rtt lna q i : let a' := MkLoss t s (loss_type_ a) (reordering_shift_ a) lna in
  largest_sent_retransmittable_packet_ u' = largest_sent_retransmittable_packet_ u ->
  (exists x y, GetTransmissionInfo u lna = Some x /\ GetTransmissionInfo u' lna = Some y /\ sent_time y = sent_time x) -> q <= lna ->
  waits a u time rtt lna q i = false -> is_lost a u time rtt lna q i = false ->
  waits a' u' time' rtt lna q i = false /\ is_lost a' u' time' rtt lna q i = false.
Proof.
  intros a' Hr (x & y & Hx & Hy & Hxy) Hq Hw Hnl. unfold waits, is_lost in *. rewrite Hx in Hnl. rewrite Hy, Hxy.
  assert (timed a' u' lna i = timed a u lna i) as -> by (unfold timed; by rewrite Hr).
  rewrite (proj2 (Z.leb_le q lna)) in * by lia. destruct (in_flight i); [|done]. cbn [andb] in *. apply orb_false_iff in Hnl as [Hn Hrule].
  rewrite Hn in Hw. cbn [negb andb] in Hw. destruct (timed a u lna i); [by destruct (time <? when_lost a rtt i)|].
  assert (overtaken a' lna q = false) as ->.
  { revert Hn. unfold overtaken. change (largest_previously_acked_ a') with lna. change (loss_type_ a') with (loss_type_ a).
    destruct (loss_type_ a); try done. intros _. by rewrite Z.ltb_irrefl. }
  by rewrite Hrule.
Qed.

(** The loss alarm makes progress.  When [DetectLosses] sets the alarm, and the losses
    it reported are taken out of flight, then the next call, at or after the time of the
    alarm and with nothing acknowledged in between, reports at least one more packet as
    lost. *)
Lemma loss_alarm_progress (a : GeneralLossAlgorithm) (u u' : QuicUnackedPacketMap) (time time' : Z) (rtt : RttStats) (lna : Z)
    (a' : GeneralLossAlgorithm) (lost : CongestionVector) :
  map_ok u -> map_ok u' -> lna <= largest_sent_packet_ u ->
  DetectLosses a u time rtt lna [] = Some (a', lost) -> reported u lost u' ->
  GetLossTimeout a' <> 0 -> GetLossTimeout a' <= time' ->
  exists a'' q b lost', DetectLosses a' u' time' rtt lna [] = Some (a'', (q, b) :: lost') /\ q ∉ map fst lost.
Proof.
  intros Hok Hok' Hlna. rewrite DetectLosses_scan by done.
  pose proof (scan_complete a u time rtt lna (unacked_packets_ u) (least_unacked_ u)) as Hcompl.
  pose proof (scan_sound a u time rtt lna (unacked_packets_ u) (least_unacked_ u)) as Hsound.
  destruct (scan a u time rtt lna (unacked_packets_ u) (least_unacked_ u)) as [l t]. simpl in *. intros [= <- <-] [R1 R2 R3 R4] Ht Htime.
  unfold GetLossTimeout in *. simpl in *. destruct Hcompl as [[-> _]|(k0 & i0 & H1 & H2 & H3 & H4 & H5)]; [done|].
  destruct (waits_inv _ _ _ _ _ _ _ H3) as (W1 & W2 & W3 & W4).
  rewrite DetectLosses_scan by (done || lia). set (a' := MkLoss t _ _ _ lna).
  assert (forall k i, unacked_packets_ u !! k = Some i -> unacked_packets_ u' !! k =
            Some (if bool_decide (least_unacked_ u + Z.of_nat k ∈ map fst l) then set_in_flight i false else i)) as Hent.
  { intros k i Hk. pose proof (R4 _ _ (lookup_GetTransmissionInfo u k i Hk)) as Hi. simpl. rewrite <-Hi. unfold GetTransmissionInfo. rewrite R1.
    case_if; [blia|]. by replace (Z.to_nat _) with k by lia. }
  assert (forall q i, waits a u time rtt lna q i = true -> is_lost a u time rtt lna q i = false) as Hexcl.
  { intros q i (X1 & X2 & X3 & X4)%waits_inv. unfold is_lost. rewrite X2, X3, (proj2 (Z.ltb_lt _ _) X4). simpl. by rewrite andb_false_r. }
  set (q0 := least_unacked_ u + Z.of_nat k0) in *.
  assert (q0 ∉ map fst l) as Hq0.
  { intros ([q b] & Hq & Hin)%list_elem_of_fmap. simpl in Hq. subst q. destruct (Hsound _ _ Hin) as (k & i & K1 & K2 & _ & K4).
    assert (k = k0) as -> by lia. rewrite H1 in K1. injection K1 as <-. by rewrite (Hexcl _ _ H3) in K4. }
  assert (unacked_packets_ u' !! k0 = Some i0) as Hi0 by (rewrite (Hent k0 i0 H1); by rewrite bool_decide_eq_false_2).
  destruct (scan_skip a' u' time' rtt lna (unacked_packets_ u') (least_unacked_ u') k0 i0) as [lost' Hscan]; rewrite ?R1; fold q0; try done.
  - intros k j Hk Hj. destruct (lookup_lt_is_Some_2 (unacked_packets_ u) k) as [i Hi]; [apply lookup_lt_Some in H1; lia|].
    rewrite (Hent k i Hi) in Hj. injection Hj as <-. destruct (H5 k i Hk Hi) as [H6 H7]. set (q := least_unacked_ u + Z.of_nat k) in *.
    destruct (decide (q ∈ map fst l)) as [Hin|Hout].
    { rewrite bool_decide_eq_true_2 by done. unfold waits, is_lost. simpl. by rewrite andb_false_r. }
    rewrite bool_decide_eq_false_2 by done.
    assert (is_lost a u time rtt lna q i = false) as Hnl.
    { destruct (is_lost a u time rtt lna q i); [|done]. destruct Hout. apply list_elem_of_fmap. exists (q, bytes_sent i). split; [done|]. by apply H7. }
    destruct (map_ok_inside u lna Hok ltac:(lia)) as [x Hx]. apply silent_again with u time; try done; [|lia].
    eexists x, _. split; [done|]. split; [by apply R4|]. by case_if.
  - unfold waits. change (when_lost a' rtt i0) with (when_lost a rtt i0). rewrite (proj2 (Z.ltb_ge _ _)) by lia. by rewrite !andb_false_r.
  - unfold is_lost. assert (timed a' u' lna i0 = timed a u lna i0) as -> by (unfold timed; by rewrite R3). rewrite W3, W1. change (when_lost a' rtt i0) with (when_lost a rtt i0). rewrite (proj2 (Z.leb_le _ _) H2).
    rewrite (proj2 (Z.ltb_ge time' _)) by lia. simpl. by rewrite orb_true_r.
  - rewrite R1 in Hscan. destruct (scan a' u' time' rtt lna (unacked_packets_ u') (least_unacked_ u)) as [l' t'] eqn:Hs.
    simpl in Hscan. subst l'. eexists _, _, _, _. split; [done|]. exact Hq0.
Qed.

Lemma loss_alarm_progress_witness :
  let i time := set_in_flight (QuicTransmissionInfo_new ENCRYPTION_NONE 1 NOT_RETRANSMISSION time 1200 false 0) true in
  let u := MkUnacked 2 2 0 [i 1000; i 3000] 1 2400 0 false in
  let u' := MkUnacked 2 2 0 [set_in_flight (i 1000) false; i 3000] 1 1200 0 false in
  exists a' a'', DetectLosses (GeneralLossAlgorithm_new kTime) u 7000 RttStats_new 2 [] = Some (a', [(1, 1200)]) /\ GetLossTimeout a' = 8000 /\
    DetectLosses a' u' 8000 RttStats_new 2 [] = Some (a'', [(2, 1200)]).
Proof.
  intros i u u'. assert (forall w, w = u \/ w = u' -> map_ok w) as Hok.
  { intros w [-> | ->]; (split; [|done]); (split; try (vm_compute; intuition congruence)); intros pn j Hj; apply GetTransmissionInfo_elem in Hj;
      simpl in Hj; apply elem_of_cons in Hj as [->|[->|Hj]%elem_of_cons]; try (by split); by apply not_elem_of_nil in Hj. }
  destruct (loss_alarm_progress (GeneralLossAlgorithm_new kTime) u u' 7000 8000 RttStats_new 2
    (MkLoss 8000 0 kTime 2 2) [(1, 1200)] (Hok u (or_introl eq_refl)) (Hok u' (or_intror eq_refl))) as (a'' & q & b & lost' & H1 & H2);
    [simpl; lia|vm_compute; reflexivity| |discriminate|simpl; lia|].
  { split; try done. intros q j Hj. pose proof (GetTransmissionInfo_range u q j Hj) as Hr. unfold end_packet in Hr. simpl in Hr.
    assert (q = 1 \/ q = 2) as [-> | ->] by lia; vm_compute in Hj; injection Hj as <-; vm_compute; reflexivity. }
  eexists _, a''. split; [vm_compute; reflexivity|]. split; [reflexivity|]. vm_compute in H1. injection H1 as <- <- <- <-. vm_compute. reflexivity.
Defined.

(** ** The reordering threshold *)

Lemma lower_shift_spec fuel rtt extra shift : 0 <= shift <= Z.of_nat fuel ->
  let shift' := lower_shift fuel rtt extra shift in
  0 <= shift' <= shift /\ (shift' = 0 \/ extra < Z.shiftr rtt shift') /\ (forall k, shift' < k <= shift -> Z.shiftr rtt k <= extra).
Proof.
  revert shift. induction fuel as [|fuel IH]; intros shift Hs; simpl; [split; [lia|]; split; [lia|lia]|].
  unfold Delta_leb, Delta_ltb, Delta_shr. destruct (extra <? Z.shiftr rtt shift) eqn:H1; simpl; [split; [lia|]; split; [right; blia|lia]|].
  destruct (shift >? 0) eqn:H2; [|split; [lia|]; split; [left; blia|lia]].
  destruct (IH (shift - 1) ltac:(blia)) as (I1 & I2 & I3). split; [lia|]. split; [done|]. intros k Hk.
  destruct (decide (k = shift)) as [->|]; [blia|]. apply I3. lia.
Qed.
Lemma lower_shift_once_spec fuel rtt extra shift : 0 < shift <= Z.of_nat fuel -> 0 <= lower_shift_once fuel rtt extra shift < shift.
Proof.
  revert shift. induction fuel as [|fuel IH]; intros shift Hs; cbn [lower_shift_once]; [lia|]. case_if; [|lia].
  destruct (IH (shift - 1) ltac:(blia)). lia.
Qed.

(** A spurious retransmission never makes the detection more eager, and the shift stays
    within the width of the type. *)
Lemma SpuriousRetransmitDetected_shift fix_flag a u time rtt q : map_ok u -> least_unacked_ u <= q <= largest_sent_packet_ u ->
  0 <= reordering_shift_ a <= 4 -> exists a', SpuriousRetransmitDetected fix_flag a u time rtt q = Some a' /\
  0 <= reordering_shift_ a' <= reordering_shift_ a /\ loss_type_ a' = loss_type_ a /\ GetLossTimeout a' = GetLossTimeout a.
Proof.
  intros Hok Hq Hs. unfold SpuriousRetransmitDetected. destruct (map_ok_inside u q Hok Hq) as [i Hi]. rewrite Hi. cbn [mbind option_bind].
  destruct (negb _ || _) eqn:Hc; [exists a; split; [done|]; split; [lia|done]|]. apply orb_false_iff in Hc as [_ Hz].
  destruct fix_flag; [|case_if; [exists a; split; [done|]; split; [lia|done]|]]; eexists; (split; [done|]); simpl; (split; [|done]).
  - destruct (lower_shift_spec (Z.to_nat (reordering_shift_ a)) (max_rtt rtt) (QuicTime_diff time (sent_time i)) (reordering_shift_ a)); lia.
  - destruct (lower_shift_once_spec (Z.to_nat (reordering_shift_ a)) (max_rtt rtt) (QuicTime_diff time (sent_time i)) (reordering_shift_ a)); blia.
Qed.
