(* ===== verification/SentPacketManager.v ===== *)
(** * The manager of sent packets

    quic/core/quic_sent_packet_manager.{h,cc}: what is done when a packet is sent, when an
    acknowledgement arrives and when the retransmission alarm fires, and when that alarm
    is set.  The packet map, the loss detection and the round trip times are the
    components of the other files; quic_sustained_bandwidth_recorder.cc is here.

    The congestion controller, the pacing sender, the clock, the visitors and the
    notifiers are an interface ([SentPacketEnv]) with a state of type [E]: congestion
    control sees the packet map and the round trip times through pointers, so its
    operations get them as arguments.  [pending_retransmissions_], a linked hash map, is
    the list of its entries in their order.  [None] is an access outside the packet map. *)

From stdpp Require Import gmap sorting.
From S2P Require Import Prelude Interval IntervalSet PacketSet QuicTime ReceivedPacketManager QuicBandwidth QuicData Framer SequencerBuffer UnackedPacketMap RttStats LossAlgorithm.

(** ** quic_sustained_bandwidth_recorder.cc *)

Record QuicSustainedBandwidthRecorder := MkRecorder {
  has_estimate_ : bool; is_recording_ : bool; bandwidth_estimate_recorded_during_slow_start_ : bool;
  bandwidth_estimate_ : Z; max_bandwidth_estimate_ : Z; max_bandwidth_timestamp_ : Z; start_time_ : Z }.
Definition QuicSustainedBandwidthRecorder_new : QuicSustainedBandwidthRecorder :=
  MkRecorder false false false QuicBandwidth_Zero QuicBandwidth_Zero 0 QuicTime_Zero.
Definition RecordEstimate (r : QuicSustainedBandwidthRecorder) (in_recovery in_slow_start : bool) (bandwidth estimate_time wall_time srtt : Z)
    : QuicSustainedBandwidthRecorder :=
  if in_recovery then
    MkRecorder (has_estimate_ r) false (bandwidth_estimate_recorded_during_slow_start_ r) (bandwidth_estimate_ r)
      (max_bandwidth_estimate_ r) (max_bandwidth_timestamp_ r) (start_time_ r)
  else if negb (is_recording_ r) then
    MkRecorder (has_estimate_ r) true (bandwidth_estimate_recorded_during_slow_start_ r) (bandwidth_estimate_ r)
      (max_bandwidth_estimate_ r) (max_bandwidth_timestamp_ r) estimate_time
  else
    let sustained := Delta_geb (QuicTime_diff estimate_time (start_time_ r)) (Delta_mul_int srtt 3) in
    let larger := QuicBandwidth_gtb bandwidth (max_bandwidth_estimate_ r) in
    MkRecorder (if sustained then true else has_estimate_ r) (is_recording_ r)
      (if sustained then in_slow_start else bandwidth_estimate_recorded_during_slow_start_ r)
      (if sustained then bandwidth else bandwidth_estimate_ r)
      (if larger then bandwidth else max_bandwidth_estimate_ r)
      (if larger then QuicWallTime_ToUNIXSeconds wall_time else max_bandwidth_timestamp_ r) (start_time_ r).

(** ** State *)

Definition kDefaultRetransmissionTimeMs : Z := 500.
Definition kMaxRetransmissionTimeMs : Z := 60000.
Definition kMaxRetransmissions : Z := 10.
Definition kMaxRetransmissionsOnTimeout : Z := 2.
Definition kMinTimeoutsBeforePathDegrading : Z := 2.
Definition kMinHandshakeTimeoutMs : Z := 10.
Definition kMaxDelayedAckTimeMs : Z := 25.
Definition kConservativeMinHandshakeTimeoutMs : Z := kMaxDelayedAckTimeMs.
Definition kDefaultMaxTailLossProbes : Z := 2.
Definition kMinTailLossProbeTimeoutMs : Z := 10.
Definition kMinRetransmissionTimeMs : Z := 200.
Definition kMinInitialRoundTripTimeUs : Z := 10 * kNumMicrosPerMilli.
Definition kMaxInitialRoundTripTimeUs : Z := 15 * kNumMicrosPerSecond.

(** Set from the configuration; the last two say whether the pointers are not null. *)
Record SentPacketOptions := MkOptions {
  n_connection_simulation_ : bool; max_tail_loss_probes_ : Z; enable_half_rtt_tail_loss_probe_ : bool; using_pacing_ : bool;
  use_new_rto_ : bool; undo_pending_retransmits_ : bool; conservative_handshake_retransmits_ : bool;
  network_change_visitor_ : bool; debug_delegate_ : bool }.
Record RetransmissionCounters := MkTimers {
  first_rto_transmission_ : Z; consecutive_rto_count_ : Z; consecutive_tlp_count_ : Z; consecutive_crypto_retransmission_count_ : Z;
  pending_timer_transmission_count_ : Z }.
Record AckState := MkAcks {
  least_packet_awaited_by_peer_ : Z; largest_newly_acked_ : Z; largest_mtu_acked_ : Z; handshake_confirmed_ : bool;
  largest_packet_peer_knows_is_acked_ : Z }.
(** The counters of QuicConnectionStats the manager updates. *)
Record SentPacketStats := MkSentStats {
  st_packets_lost : Z; bytes_spuriously_retransmitted : Z; packets_spuriously_retransmitted : Z;
  crypto_retransmit_count : Z; loss_timeout_count : Z; tlp_count : Z; rto_count : Z }.

Record QuicSentPacketManager := MkSent {
  spm_unacked_packets_ : QuicUnackedPacketMap;
  pending_retransmissions_ : list (Z * TransmissionType);
  rtt_stats_ : RttStats;
  loss_algorithm_ : GeneralLossAlgorithm;
  sustained_bandwidth_recorder_ : QuicSustainedBandwidthRecorder;
  spm_options : SentPacketOptions;
  spm_timers : RetransmissionCounters;
  spm_acks : AckState;
  packets_acked_ : CongestionVector;
  packets_lost_ : CongestionVector;
  stats_ : SentPacketStats }.

Definition spm_set_unacked (m : QuicSentPacketManager) (x : QuicUnackedPacketMap) : QuicSentPacketManager :=
  MkSent x (pending_retransmissions_ m) (rtt_stats_ m) (loss_algorithm_ m) (sustained_bandwidth_recorder_ m) (spm_options m) (spm_timers m) (spm_acks m) (packets_acked_ m) (packets_lost_ m) (stats_ m).
Definition spm_set_pending (m : QuicSentPacketManager) (x : list (Z * TransmissionType)) : QuicSentPacketManager :=
  MkSent (spm_unacked_packets_ m) x (rtt_stats_ m) (loss_algorithm_ m) (sustained_bandwidth_recorder_ m) (spm_options m) (spm_timers m) (spm_acks m) (packets_acked_ m) (packets_lost_ m) (stats_ m).
Definition spm_set_rtt (m : QuicSentPacketManager) (x : RttStats) : QuicSentPacketManager :=
  MkSent (spm_unacked_packets_ m) (pending_retransmissions_ m) x (loss_algorithm_ m) (sustained_bandwidth_recorder_ m) (spm_options m) (spm_timers m) (spm_acks m) (packets_acked_ m) (packets_lost_ m) (stats_ m).
Definition spm_set_loss (m : QuicSentPacketManager) (x : GeneralLossAlgorithm) : QuicSentPacketManager :=
  MkSent (spm_unacked_packets_ m) (pending_retransmissions_ m) (rtt_stats_ m) x (sustained_bandwidth_recorder_ m) (spm_options m) (spm_timers m) (spm_acks m) (packets_acked_ m) (packets_lost_ m) (stats_ m).
Definition spm_set_recorder (m : QuicSentPacketManager) (x : QuicSustainedBandwidthRecorder) : QuicSentPacketManager :=
  MkSent (spm_unacked_packets_ m) (pending_retransmissions_ m) (rtt_stats_ m) (loss_algorithm_ m) x (spm_options m) (spm_timers m) (spm_acks m) (packets_acked_ m) (packets_lost_ m) (stats_ m).
Definition spm_set_options (m : QuicSentPacketManager) (x : SentPacketOptions) : QuicSentPacketManager :=
  MkSent (spm_unacked_packets_ m) (pending_retransmissions_ m) (rtt_stats_ m) (loss_algorithm_ m) (sustained_bandwidth_recorder_ m) x (spm_timers m) (spm_acks m) (packets_acked_ m) (packets_lost_ m) (stats_ m).
Definition spm_set_timers (m : QuicSentPacketManager) (x : RetransmissionCounters) : QuicSentPacketManager :=
  MkSent (spm_unacked_packets_ m) (pending_retransmissions_ m) (rtt_stats_ m) (loss_algorithm_ m) (sustained_bandwidth_recorder_ m) (spm_options m) x (spm_acks m) (packets_acked_ m) (packets_lost_ m) (stats_ m).
Definition spm_set_acks (m : QuicSentPacketManager) (x : AckState) : QuicSentPacketManager :=
  MkSent (spm_unacked_packets_ m) (pending_retransmissions_ m) (rtt_stats_ m) (loss_algorithm_ m) (sustained_bandwidth_recorder_ m) (spm_options m) (spm_timers m) x (packets_acked_ m) (packets_lost_ m) (stats_ m).
Definition spm_set_acked (m : QuicSentPacketManager) (x : CongestionVector) : QuicSentPacketManager :=
  MkSent (spm_unacked_packets_ m) (pending_retransmissions_ m) (rtt_stats_ m) (loss_algorithm_ m) (sustained_bandwidth_recorder_ m) (spm_options m) (spm_timers m) (spm_acks m) x (packets_lost_ m) (stats_ m).
Definition spm_set_lost (m : QuicSentPacketManager) (x : CongestionVector) : QuicSentPacketManager :=
  MkSent (spm_unacked_packets_ m) (pending_retransmissions_ m) (rtt_stats_ m) (loss_algorithm_ m) (sustained_bandwidth_recorder_ m) (spm_options m) (spm_timers m) (spm_acks m) (packets_acked_ m) x (stats_ m).
Definition spm_set_stats (m : QuicSentPacketManager) (x : SentPacketStats) : QuicSentPacketManager :=
  MkSent (spm_unacked_packets_ m) (pending_retransmissions_ m) (rtt_stats_ m) (loss_algorithm_ m) (sustained_bandwidth_recorder_ m) (spm_options m) (spm_timers m) (spm_acks m) (packets_acked_ m) (packets_lost_ m) x.

Definition QuicSentPacketManager_new (loss_type : LossDetectionType) (stats : SentPacketStats) : QuicSentPacketManager :=
  MkSent QuicUnackedPacketMap_new [] RttStats_new (GeneralLossAlgorithm_new loss_type) QuicSustainedBandwidthRecorder_new
    (MkOptions false kDefaultMaxTailLossProbes false false false false false false false) (MkTimers 0 0 0 0 0) (MkAcks 1 0 0 false 0) [] [] stats.

Definition set_timer_count (m : QuicSentPacketManager) (n : Z) : QuicSentPacketManager :=
  let t := spm_timers m in
  spm_set_timers m (MkTimers (first_rto_transmission_ t) (consecutive_rto_count_ t) (consecutive_tlp_count_ t) (consecutive_crypto_retransmission_count_ t) n).
Abbreviation timer_count m := (pending_timer_transmission_count_ (spm_timers m)).

Definition set_least_awaited (m : QuicSentPacketManager) (n : Z) : QuicSentPacketManager :=
  let a := spm_acks m in spm_set_acks m (MkAcks n (largest_newly_acked_ a) (largest_mtu_acked_ a) (handshake_confirmed_ a) (largest_packet_peer_knows_is_acked_ a)).
Definition set_largest_newly_acked (m : QuicSentPacketManager) (n : Z) : QuicSentPacketManager :=
  let a := spm_acks m in spm_set_acks m (MkAcks (least_packet_awaited_by_peer_ a) n (largest_mtu_acked_ a) (handshake_confirmed_ a) (largest_packet_peer_knows_is_acked_ a)).
Definition set_largest_mtu_acked (m : QuicSentPacketManager) (n : Z) : QuicSentPacketManager :=
  let a := spm_acks m in spm_set_acks m (MkAcks (least_packet_awaited_by_peer_ a) (largest_newly_acked_ a) n (handshake_confirmed_ a) (largest_packet_peer_knows_is_acked_ a)).
Definition set_peer_knows (m : QuicSentPacketManager) (n : Z) : QuicSentPacketManager :=
  let a := spm_acks m in spm_set_acks m (MkAcks (least_packet_awaited_by_peer_ a) (largest_newly_acked_ a) (largest_mtu_acked_ a) (handshake_confirmed_ a) n).
Definition SetHandshakeConfirmed (m : QuicSentPacketManager) : QuicSentPacketManager :=
  let a := spm_acks m in
  spm_set_acks m (MkAcks (least_packet_awaited_by_peer_ a) (largest_newly_acked_ a) (largest_mtu_acked_ a) true (largest_packet_peer_knows_is_acked_ a)).

Definition add_stats (m : QuicSentPacketManager) (lost bytes packets crypto timeouts tlps rtos : Z) : QuicSentPacketManager :=
  let s := stats_ m in
  spm_set_stats m (MkSentStats (st_packets_lost s +64 lost) (bytes_spuriously_retransmitted s +64 bytes) (packets_spuriously_retransmitted s +64 packets)
    (crypto_retransmit_count s +64 crypto) (loss_timeout_count s +64 timeouts) (tlp_count s +64 tlps) (rto_count s +64 rtos)).

(** ** Pending retransmissions *)

Definition pending_contains (l : list (Z * TransmissionType)) (packet_number : Z) : bool := existsb (fun p => p.1 =? packet_number) l.
Definition pending_erase (l : list (Z * TransmissionType)) (packet_number : Z) : list (Z * TransmissionType) :=
  List.filter (fun p => negb (p.1 =? packet_number)) l.

Definition HasPendingRetransmissions (m : QuicSentPacketManager) : bool := match pending_retransmissions_ m with [] => false | _ => true end.

Definition MarkForRetransmission (m : QuicSentPacketManager) (packet_number : Z) (type : TransmissionType) : option QuicSentPacketManager :=
  let* _ := GetTransmissionInfo (spm_unacked_packets_ m) packet_number in
  let* u := (if negb (bool_decide (type = TLP_RETRANSMISSION)) && negb (bool_decide (type = RTO_RETRANSMISSION))
             then RemoveFromInFlight (spm_unacked_packets_ m) packet_number else Some (spm_unacked_packets_ m)) in
  let m := spm_set_unacked m u in
  if pending_contains (pending_retransmissions_ m) packet_number then Some m
  else Some (spm_set_pending m (pending_retransmissions_ m ++ [(packet_number, type)])).

Record QuicPendingRetransmission := MkPendingRetransmission {
  pr_packet_number : Z; pr_transmission_type : TransmissionType; pr_retransmittable_frames : list QuicFrame;
  pr_has_crypto_handshake : bool; pr_num_padding_bytes : Z; pr_encryption_level : EncryptionLevel; pr_packet_number_length : Z }.

(** The first pending retransmission of a handshake packet. *)
Fixpoint find_crypto (u : QuicUnackedPacketMap) (l : list (Z * TransmissionType)) : option (option (Z * TransmissionType)) :=
  match l with
  | [] => Some None
  | p :: l => let* i := GetTransmissionInfo u p.1 in if has_crypto_handshake i then Some (Some p) else find_crypto u l
  end.
Definition NextPendingRetransmission (m : QuicSentPacketManager) : option QuicPendingRetransmission :=
  let u := spm_unacked_packets_ m in
  let* first := head (pending_retransmissions_ m) in
  let* crypto := (if HasPendingCryptoPackets u then find_crypto u (pending_retransmissions_ m) else Some None) in
  let '(packet_number, type) := default first crypto in
  let* i := GetTransmissionInfo u packet_number in
  Some (MkPendingRetransmission packet_number type (retransmittable_frames i) (has_crypto_handshake i) (num_padding_bytes i)
          (encryption_level i) (ti_packet_number_length i)).

(** ** The interfaces around the manager *)

Inductive CongestionControlType := kCubic | kCubicBytes | kReno | kRenoBytes | kBBR | kPCC.

(** [paced] says whether a call goes through the pacing sender. *)
Class SentPacketEnv (E : Type) := {
  spe_notifier :: StreamNotifierInterface E;
  sender_OnCongestionEvent : forall (paced : bool) (u : QuicUnackedPacketMap) (r : RttStats) (rtt_updated : bool) (prior_in_flight event_time : Z)
    (acked lost : CongestionVector), E -> E;
  sender_OnPacketSent : forall (paced : bool) (u : QuicUnackedPacketMap) (r : RttStats) (sent_time bytes_in_flight packet_number bytes : Z)
    (has_retransmittable_data : bool), E -> bool * E;
  sender_TimeUntilSend : forall (paced : bool) (u : QuicUnackedPacketMap) (r : RttStats) (now bytes_in_flight : Z), E -> Z * E;
  algorithm_OnRetransmissionTimeout : forall (u : QuicUnackedPacketMap) (r : RttStats) (packets_retransmitted : bool), E -> E;
  algorithm_OnConnectionMigration : forall (u : QuicUnackedPacketMap) (r : RttStats), E -> E;
  algorithm_SetNumEmulatedConnections : Z -> E -> E;
  algorithm_AdjustNetworkParameters : forall (u : QuicUnackedPacketMap) (r : RttStats) (bandwidth rtt : Z), E -> E;
  algorithm_OnApplicationLimited : forall (u : QuicUnackedPacketMap) (r : RttStats) (bytes_in_flight : Z), E -> E;
  algorithm_InRecovery : forall (u : QuicUnackedPacketMap) (r : RttStats), E -> bool;
  algorithm_InSlowStart : forall (u : QuicUnackedPacketMap) (r : RttStats), E -> bool;
  algorithm_BandwidthEstimate : forall (u : QuicUnackedPacketMap) (r : RttStats), E -> Z;
  algorithm_GetCongestionWindow : forall (u : QuicUnackedPacketMap) (r : RttStats), E -> Z;
  algorithm_GetSlowStartThreshold : forall (u : QuicUnackedPacketMap) (r : RttStats), E -> Z;
  create_send_algorithm : CongestionControlType -> E -> E;
  pacing_set_max_pacing_rate : Z -> E -> E;
  visitor_OnCongestionChange : E -> E;
  visitor_OnPathDegrading : E -> E;
  visitor_OnPathMtuIncreased : Z -> E -> E;
  delegate_OnSpuriousPacketRetransmission : TransmissionType -> Z -> E -> E;
  delegate_OnIncomingAck : forall (ack_receive_time largest_observed : Z) (rtt_updated : bool) (least_unacked : Z), E -> E;
  delegate_OnPacketLoss : Z -> TransmissionType -> Z -> E -> E;
  clock_Now : E -> Z;
  clock_ApproximateNow : E -> Z;
  clock_WallNow : E -> Z }.

Section Manager.
Context {E : Type} `{SentPacketEnv E}.
(** The flags quic_reloadable_flag_quic_handle_acks and
    quic_reloadable_flag_quic_fix_adaptive_time_loss. *)
Context (handle_acks fix_adaptive_time_loss : bool).

Definition to_delegate (m : QuicSentPacketManager) (f : E -> E) (e : E) : E := if debug_delegate_ (spm_options m) then f e else e.
Definition to_visitor (m : QuicSentPacketManager) (f : E -> E) (e : E) : E := if network_change_visitor_ (spm_options m) then f e else e.

(** ** Acknowledgements *)

Fixpoint RecordSpurious_loop (fuel : nat) (m : QuicSentPacketManager) (e : E) (next : Z) : option (QuicSentPacketManager * E) :=
  if next =? 0 then Some (m, e)
  else match fuel with
       | O => None
       | S fuel =>
           let* i := GetTransmissionInfo (spm_unacked_packets_ m) next in
           RecordSpurious_loop fuel (add_stats m 0 (bytes_sent i) 1 0 0 0 0)
             (to_delegate m (delegate_OnSpuriousPacketRetransmission (transmission_type i) (bytes_sent i)) e) (retransmission i)
       end.
Definition RecordSpuriousRetransmissions (m : QuicSentPacketManager) (e : E) (info : QuicTransmissionInfo) : option (QuicSentPacketManager * E) :=
  let u := spm_unacked_packets_ m in
  let* (m, e) := RecordSpurious_loop (length (unacked_packets_ u)) m e (retransmission info) in
  let* i := GetTransmissionInfo u (retransmission info) in
  if bool_decide (transmission_type i = LOSS_RETRANSMISSION) then
    let* a := SpuriousRetransmitDetected fix_adaptive_time_loss (loss_algorithm_ m) u (clock_Now e) (rtt_stats_ m) (retransmission info) in
    Some (spm_set_loss m a, e)
  else Some (m, e).

(** The first part of [MarkPacketHandled]: the listeners and the streams of the newest
    transmission are told, and a handshake packet that was sent again leaves flight. *)
Definition NotifyNewest (m : QuicSentPacketManager) (e : E) (packet_number newest_transmission ack_delay_time : Z) (info : QuicTransmissionInfo)
    : option (QuicSentPacketManager * E) :=
  if newest_transmission =? packet_number then
    let e := NotifyStreamFramesAcked (spm_unacked_packets_ m) e info ack_delay_time in
    let* (u, e) := NotifyAndClearListeners (spm_unacked_packets_ m) e packet_number ack_delay_time in
    Some (spm_set_unacked m u, e)
  else
    let* (u, e) := NotifyAndClearListeners (spm_unacked_packets_ m) e newest_transmission ack_delay_time in
    let* (m, e) := RecordSpuriousRetransmissions (spm_set_unacked m u) e info in
    let* newest := GetTransmissionInfo (spm_unacked_packets_ m) newest_transmission in
    let e := NotifyStreamFramesAcked (spm_unacked_packets_ m) e newest ack_delay_time in
    if has_crypto_handshake newest then
      let* u := RemoveFromInFlight (spm_unacked_packets_ m) newest_transmission in Some (spm_set_unacked m u, e)
    else Some (m, e).

Definition MarkPacketHandled (m : QuicSentPacketManager) (e : E) (packet_number ack_delay_time : Z) : option (QuicSentPacketManager * E) :=
  let* info := GetTransmissionInfo (spm_unacked_packets_ m) packet_number in
  let* newest_transmission := GetNewestRetransmission (spm_unacked_packets_ m) packet_number info in
  let m := spm_set_pending m (pending_erase (pending_retransmissions_ m) newest_transmission) in
  let* (m, e) := NotifyNewest m e packet_number newest_transmission ack_delay_time info in
  let '(m, e) := (if network_change_visitor_ (spm_options m) && (bytes_sent info >? largest_mtu_acked_ (spm_acks m)) then
                    (set_largest_mtu_acked m (bytes_sent info), visitor_OnPathMtuIncreased (bytes_sent info) e)
                  else (m, e)) in
  let* u := RemoveFromInFlight (spm_unacked_packets_ m) packet_number in
  let* u := RemoveRetransmittability u packet_number in
  let* info := GetTransmissionInfo u packet_number in
  Some (spm_set_unacked m (set_info u packet_number (set_is_unackable info true)), e).

Section Ack.
Context {Q : Type} `{PacketSet Q}.

Definition UpdatePacketInformationReceivedByPeer (m : QuicSentPacketManager) (ack_frame : @QuicAckFrame Q) : option QuicSentPacketManager :=
  if ps_empty (packets ack_frame) then Some (set_least_awaited m (largest_observed ack_frame + 1))
  else let* least := ps_min (packets ack_frame) in Some (set_least_awaited m least).

(** The loop over the [n] packets from [packet_number]. *)
Fixpoint HandleAck_loop (n : nat) (m : QuicSentPacketManager) (e : E) (ack_frame : @QuicAckFrame Q) (packet_number : Z)
    : option (QuicSentPacketManager * E) :=
  match n with
  | O => Some (m, e)
  | S n =>
      if packet_number >? largest_observed ack_frame then Some (m, e)
      else
        let* i := GetTransmissionInfo (spm_unacked_packets_ m) packet_number in
        if handle_acks && is_unackable i then HandleAck_loop n m e ack_frame (packet_number + 1)
        else
          let* contained := ps_contains (packets ack_frame) packet_number in
          if negb contained then HandleAck_loop n m e ack_frame (packet_number + 1)
          else
            let m := if largest_acked i >? 0 then set_peer_knows m (Z.max (largest_packet_peer_knows_is_acked_ (spm_acks m)) (largest_acked i)) else m in
            let m := if in_flight i then spm_set_acked m (packets_acked_ m ++ [(packet_number, bytes_sent i)])
                     else if handle_acks || negb (is_unackable i) then set_largest_newly_acked m packet_number else m in
            let* (m, e) := MarkPacketHandled m e packet_number (ack_delay_time ack_frame) in
            HandleAck_loop n m e ack_frame (packet_number + 1)
  end.
Definition HandleAckForSentPackets (m : QuicSentPacketManager) (e : E) (ack_frame : @QuicAckFrame Q) : option (QuicSentPacketManager * E) :=
  HandleAck_loop (length (unacked_packets_ (spm_unacked_packets_ m))) m e ack_frame (least_unacked_ (spm_unacked_packets_ m)).

Definition MaybeUpdateRTT (m : QuicSentPacketManager) (ack_frame : @QuicAckFrame Q) (ack_receive_time : Z) : option (QuicSentPacketManager * bool) :=
  let u := spm_unacked_packets_ m in
  if negb (IsUnacked u (largest_observed ack_frame)) then Some (m, false)
  else
    let* i := GetTransmissionInfo u (largest_observed ack_frame) in
    if QuicTime_eqb (sent_time i) QuicTime_Zero then Some (m, false)
    else
      Some (spm_set_rtt m (UpdateRtt (rtt_stats_ m) (QuicTime_diff ack_receive_time (sent_time i)) (ack_delay_time ack_frame)), true).
End Ack.

Definition MaybeInvokeCongestionEvent (m : QuicSentPacketManager) (e : E) (rtt_updated : bool) (prior_in_flight event_time : Z) : QuicSentPacketManager * E :=
  if negb rtt_updated && bool_decide (packets_acked_ m = []) && bool_decide (packets_lost_ m = []) then (m, e)
  else
    let e := sender_OnCongestionEvent (using_pacing_ (spm_options m)) (spm_unacked_packets_ m) (rtt_stats_ m) rtt_updated prior_in_flight event_time
               (packets_acked_ m) (packets_lost_ m) e in
    let m := spm_set_lost (spm_set_acked m []) [] in
    (m, to_visitor m visitor_OnCongestionChange e).

(** ** Losses *)

Fixpoint InvokeLoss_loop (m : QuicSentPacketManager) (e : E) (lost : CongestionVector) (time : Z) : option (QuicSentPacketManager * E) :=
  match lost with
  | [] => Some (m, e)
  | (packet_number, _) :: lost =>
      let m := add_stats m 1 0 0 0 0 0 0 in
      let e := to_delegate m (delegate_OnPacketLoss packet_number LOSS_RETRANSMISSION time) e in
      let* has_frames := HasRetransmittableFrames (spm_unacked_packets_ m) packet_number in
      let* m := (if has_frames : bool then MarkForRetransmission m packet_number LOSS_RETRANSMISSION
                 else let* u := RemoveFromInFlight (spm_unacked_packets_ m) packet_number in Some (spm_set_unacked m u)) in
      InvokeLoss_loop m e lost time
  end.
Definition InvokeLossDetection (m : QuicSentPacketManager) (e : E) (time : Z) : option (QuicSentPacketManager * E) :=
  let m := match last (packets_acked_ m) with Some (packet_number, _) => set_largest_newly_acked m packet_number | None => m end in
  let* (a, lost) := DetectLosses (loss_algorithm_ m) (spm_unacked_packets_ m) time (rtt_stats_ m) (largest_newly_acked_ (spm_acks m)) (packets_lost_ m) in
  InvokeLoss_loop (spm_set_lost (spm_set_loss m a) lost) e lost time.

(** Undo pending retransmissions of packets that are newer than the newest
    acknowledged one. *)
Fixpoint undo_pending (l : list (Z * TransmissionType)) (m : QuicSentPacketManager) : option QuicSentPacketManager :=
  match l with
  | (packet_number, type) :: l' =>
      if (packet_number >? largest_newly_acked_ (spm_acks m)) && bool_decide (type = LOSS_RETRANSMISSION) then
        let* u := RestoreToInFlight (spm_unacked_packets_ m) packet_number in
        undo_pending l' (spm_set_pending (spm_set_unacked m u) l')
      else Some m
  | [] => Some m
  end.

Definition set_timers_reset (m : QuicSentPacketManager) : QuicSentPacketManager :=
  spm_set_timers m (MkTimers (first_rto_transmission_ (spm_timers m)) 0 0 0 (timer_count m)).

(** [OnIncomingAck] after loss detection: congestion control, obsolete packets, the
    counters of the alarm. *)
Definition FinishIncomingAck (m : QuicSentPacketManager) (e : E) (rtt_updated : bool) (prior_in_flight frame_largest_observed ack_receive_time : Z)
    : option (QuicSentPacketManager * E) :=
  let m := if (consecutive_rto_count_ (spm_timers m) >? 0) && negb (use_new_rto_ (spm_options m)) then spm_set_lost m [] else m in
  let '(m, e) := MaybeInvokeCongestionEvent m e rtt_updated prior_in_flight ack_receive_time in
  let m := spm_set_unacked m (RemoveObsoletePackets (spm_unacked_packets_ m)) in
  let u := spm_unacked_packets_ m in
  let m := spm_set_recorder m (RecordEstimate (sustained_bandwidth_recorder_ m) (algorithm_InRecovery u (rtt_stats_ m) e)
             (algorithm_InSlowStart u (rtt_stats_ m) e) (algorithm_BandwidthEstimate u (rtt_stats_ m) e) ack_receive_time (clock_WallNow e)
             (smoothed_rtt_ (rtt_stats_ m))) in
  let '(m, e) := (if rtt_updated then
                    let '(m, e) := (if consecutive_rto_count_ (spm_timers m) >? 0 then
                                      if frame_largest_observed <? first_rto_transmission_ (spm_timers m)
                                      then (spm_set_rtt m (ExpireSmoothedMetrics (rtt_stats_ m)), e)
                                      else if negb (use_new_rto_ (spm_options m)) then (m, algorithm_OnRetransmissionTimeout u (rtt_stats_ m) true e)
                                      else (m, e)
                                    else (m, e)) in
                    (set_timers_reset m, e)
                  else (m, e)) in
  let* m := (if undo_pending_retransmits_ (spm_options m) then undo_pending (pending_retransmissions_ m) m else Some m) in
  let u := spm_unacked_packets_ m in
  Some (m, to_delegate m (delegate_OnIncomingAck ack_receive_time (largest_observed_ u) rtt_updated (least_unacked_ u)) e).

Definition OnIncomingAck {Q : Type} `{PacketSet Q} (m : QuicSentPacketManager) (e : E) (ack_frame : @QuicAckFrame Q) (ack_receive_time : Z)
    : option (QuicSentPacketManager * E) :=
  let prior_in_flight := bytes_in_flight_ (spm_unacked_packets_ m) in
  let* m := UpdatePacketInformationReceivedByPeer m ack_frame in
  let* (m, rtt_updated) := MaybeUpdateRTT m ack_frame ack_receive_time in
  let m := spm_set_unacked m (IncreaseLargestObserved (spm_unacked_packets_ m) (largest_observed ack_frame)) in
  let* (m, e) := HandleAckForSentPackets m e ack_frame in
  let* (m, e) := InvokeLossDetection m e ack_receive_time in
  FinishIncomingAck m e rtt_updated prior_in_flight (largest_observed ack_frame) ack_receive_time.

(** ** Sending *)

Definition OnPacketSent (m : QuicSentPacketManager) (e : E) (packet : SerializedPacket) (original_packet_number sent_time : Z)
    (type : TransmissionType) (has_retransmittable_data : bool) : option (QuicSentPacketManager * E * bool) :=
  let m := if negb (original_packet_number =? 0) then spm_set_pending m (pending_erase (pending_retransmissions_ m) original_packet_number) else m in
  let m := if timer_count m >? 0 then set_timer_count m (timer_count m - 1) else m in
  let '(in_flight, e) := sender_OnPacketSent (using_pacing_ (spm_options m)) (spm_unacked_packets_ m) (rtt_stats_ m) sent_time
                           (bytes_in_flight_ (spm_unacked_packets_ m)) (sp_packet_number packet) (sp_encrypted_length packet) has_retransmittable_data e in
  let* (u, e) := AddSentPacket (spm_unacked_packets_ m) e packet original_packet_number type sent_time in_flight in
  Some (spm_set_unacked m u, e, in_flight).

(** ** Retransmitting *)

Fixpoint RetransmitUnacked_loop (n : nat) (m : QuicSentPacketManager) (packet_number : Z) (type : TransmissionType) : option QuicSentPacketManager :=
  match n with
  | O => Some m
  | S n =>
      let* i := GetTransmissionInfo (spm_unacked_packets_ m) packet_number in
      let* m := (if negb (bool_decide (retransmittable_frames i = [])) &&
                    (bool_decide (type = ALL_UNACKED_RETRANSMISSION) || bool_decide (encryption_level i = ENCRYPTION_INITIAL))
                 then MarkForRetransmission m packet_number type else Some m) in
      RetransmitUnacked_loop n m (packet_number + 1) type
  end.
Definition packet_count (m : QuicSentPacketManager) : nat := length (unacked_packets_ (spm_unacked_packets_ m)).
Definition spm_GetLeastUnacked (m : QuicSentPacketManager) : Z := GetLeastUnacked (spm_unacked_packets_ m).
Definition RetransmitUnackedPackets (m : QuicSentPacketManager) (type : TransmissionType) : option QuicSentPacketManager :=
  RetransmitUnacked_loop (packet_count m) m (spm_GetLeastUnacked m) type.

Fixpoint Neuter_loop (n : nat) (m : QuicSentPacketManager) (packet_number : Z) : option QuicSentPacketManager :=
  match n with
  | O => Some m
  | S n =>
      let* i := GetTransmissionInfo (spm_unacked_packets_ m) packet_number in
      let* m := (if negb (bool_decide (retransmittable_frames i = [])) && bool_decide (encryption_level i = ENCRYPTION_NONE) then
                   let m := spm_set_pending m (pending_erase (pending_retransmissions_ m) packet_number) in
                   let* u := RemoveFromInFlight (spm_unacked_packets_ m) packet_number in
                   let* u := RemoveRetransmittability u packet_number in
                   Some (spm_set_unacked m u)
                 else Some m) in
      Neuter_loop n m (packet_number + 1)
  end.
Definition NeuterUnencryptedPackets (m : QuicSentPacketManager) : option QuicSentPacketManager :=
  Neuter_loop (packet_count m) m (spm_GetLeastUnacked m).

Fixpoint RetransmitCrypto_loop (n : nat) (m : QuicSentPacketManager) (packet_number : Z) : option QuicSentPacketManager :=
  match n with
  | O => Some m
  | S n =>
      let* i := GetTransmissionInfo (spm_unacked_packets_ m) packet_number in
      if negb (in_flight i) || bool_decide (retransmittable_frames i = []) || negb (has_crypto_handshake i)
      then RetransmitCrypto_loop n m (packet_number + 1)
      else
        let* m := MarkForRetransmission m packet_number HANDSHAKE_RETRANSMISSION in
        RetransmitCrypto_loop n (set_timer_count m (timer_count m +64 1)) (packet_number + 1)
  end.
Definition RetransmitCryptoPackets (m : QuicSentPacketManager) : option QuicSentPacketManager :=
  let t := spm_timers m in
  let m := spm_set_timers m (MkTimers (first_rto_transmission_ t) (consecutive_rto_count_ t) (consecutive_tlp_count_ t)
             (consecutive_crypto_retransmission_count_ t +64 1) (pending_timer_transmission_count_ t)) in
  RetransmitCrypto_loop (packet_count m) m (spm_GetLeastUnacked m).

Fixpoint TailLossProbe_loop (n : nat) (m : QuicSentPacketManager) (packet_number : Z) : option (QuicSentPacketManager * bool) :=
  match n with
  | O => Some (m, false)
  | S n =>
      let* i := GetTransmissionInfo (spm_unacked_packets_ m) packet_number in
      if negb (in_flight i) || bool_decide (retransmittable_frames i = []) then TailLossProbe_loop n m (packet_number + 1)
      else let* m := MarkForRetransmission m packet_number TLP_RETRANSMISSION in Some (m, true)
  end.
Definition MaybeRetransmitTailLossProbe (m : QuicSentPacketManager) : option (QuicSentPacketManager * bool) :=
  if timer_count m =? 0 then Some (m, false) else TailLossProbe_loop (packet_count m) m (spm_GetLeastUnacked m).

Fixpoint RetransmitRto_loop (n : nat) (m : QuicSentPacketManager) (e : E) (packet_number : Z) : option (QuicSentPacketManager * E) :=
  match n with
  | O => Some (m, e)
  | S n =>
      let* i := GetTransmissionInfo (spm_unacked_packets_ m) packet_number in
      let* m := (if negb (bool_decide (retransmittable_frames i = [])) && (timer_count m <? kMaxRetransmissionsOnTimeout) then
                   let* m := MarkForRetransmission m packet_number RTO_RETRANSMISSION in Some (set_timer_count m (timer_count m +64 1))
                 else Some m) in
      let* i := GetTransmissionInfo (spm_unacked_packets_ m) packet_number in
      let* (m, e) := (if bool_decide (retransmittable_frames i = []) && in_flight i && (retransmission i =? 0) then
                        let* u := RemoveFromInFlight (spm_unacked_packets_ m) packet_number in
                        Some (spm_set_unacked m u, to_delegate m (delegate_OnPacketLoss packet_number RTO_RETRANSMISSION (clock_Now e)) e)
                      else Some (m, e)) in
      RetransmitRto_loop n m e (packet_number + 1)
  end.
Definition RetransmitRtoPackets (m : QuicSentPacketManager) (e : E) : option (QuicSentPacketManager * E) :=
  let* (m, e) := RetransmitRto_loop (packet_count m) m e (spm_GetLeastUnacked m) in
  if timer_count m >? 0 then
    let t := spm_timers m in
    Some (spm_set_timers m
            (MkTimers (if consecutive_rto_count_ t =? 0 then largest_sent_packet_ (spm_unacked_packets_ m) + 1 else first_rto_transmission_ t)
               (consecutive_rto_count_ t +64 1) (consecutive_tlp_count_ t) (consecutive_crypto_retransmission_count_ t) (timer_count m)), e)
  else Some (m, e).

(** ** The alarm *)

Inductive RetransmissionTimeoutMode := RTO_MODE | TLP_MODE | HANDSHAKE_MODE | LOSS_MODE.
Definition GetRetransmissionMode (m : QuicSentPacketManager) : RetransmissionTimeoutMode :=
  let u := spm_unacked_packets_ m in
  if negb (handshake_confirmed_ (spm_acks m)) && HasPendingCryptoPackets u then HANDSHAKE_MODE
  else if negb (QuicTime_eqb (GetLossTimeout (loss_algorithm_ m)) QuicTime_Zero) then LOSS_MODE
  else if (consecutive_tlp_count_ (spm_timers m) <? max_tail_loss_probes_ (spm_options m)) && HasUnackedRetransmittableFrames u then TLP_MODE
  else RTO_MODE.

Definition OnRetransmissionTimeout (m : QuicSentPacketManager) (e : E) : option (QuicSentPacketManager * E) :=
  match GetRetransmissionMode m with
  | HANDSHAKE_MODE => let* m := RetransmitCryptoPackets (add_stats m 0 0 0 1 0 0 0) in Some (m, e)
  | LOSS_MODE =>
      let m := add_stats m 0 0 0 0 1 0 0 in
      let prior_in_flight := bytes_in_flight_ (spm_unacked_packets_ m) in
      let now := clock_Now e in
      let* (m, e) := InvokeLossDetection m e now in
      Some (MaybeInvokeCongestionEvent m e false prior_in_flight now)
  | TLP_MODE =>
      let m := add_stats m 0 0 0 0 0 1 0 in
      let t := spm_timers m in
      Some (spm_set_timers m (MkTimers (first_rto_transmission_ t) (consecutive_rto_count_ t) (consecutive_tlp_count_ t +64 1)
              (consecutive_crypto_retransmission_count_ t) 1), e)
  | RTO_MODE =>
      let* (m, e) := RetransmitRtoPackets (add_stats m 0 0 0 0 0 0 1) e in
      Some (m, if network_change_visitor_ (spm_options m) && (consecutive_rto_count_ (spm_timers m) =? kMinTimeoutsBeforePathDegrading)
               then visitor_OnPathDegrading e else e)
  end.

(** The double [m] over 2^[k] times an integer, truncated. *)
Definition double_mul_trunc (x m k : Z) : Z := i64 (Z.quot (round_to double_bits (round_to double_bits x * m)) (2 ^ k)).
Definition smoothed_or_initial (m : QuicSentPacketManager) : Z :=
  if Delta_IsZero (smoothed_rtt_ (rtt_stats_ m)) then Delta_FromMicroseconds (initial_rtt_us_ (rtt_stats_ m)) else smoothed_rtt_ (rtt_stats_ m).

Definition GetCryptoRetransmissionDelay (m : QuicSentPacketManager) : Z :=
  let srtt_ms := Delta_ToMilliseconds (smoothed_or_initial m) in
  let delay_ms := if conservative_handshake_retransmits_ (spm_options m) then Z.max kConservativeMinHandshakeTimeoutMs (i64 (2 * srtt_ms))
                  else Z.max kMinHandshakeTimeoutMs (double_mul_trunc srtt_ms 3 1) in
  Delta_FromMilliseconds (i64 (Z.shiftl delay_ms (consecutive_crypto_retransmission_count_ (spm_timers m)))).
Definition GetTailLossProbeDelay (m : QuicSentPacketManager) : Z :=
  let srtt := smoothed_or_initial m in
  if enable_half_rtt_tail_loss_probe_ (spm_options m) && (consecutive_tlp_count_ (spm_timers m) =? 0) then
    Delta_FromMilliseconds (Z.max kMinTailLossProbeTimeoutMs (double_mul_trunc (Delta_ToMilliseconds srtt) 1 1))
  else if negb (HasMultipleInFlightPackets (spm_unacked_packets_ m)) then
    Delta_max (Delta_mul_int srtt 2) (Delta_add (Delta_mul_double srtt 3 1) (Delta_FromMilliseconds (kMinRetransmissionTimeMs / 2)))
  else Delta_FromMilliseconds (Z.max kMinTailLossProbeTimeoutMs (i64 (2 * Delta_ToMilliseconds srtt))).
Definition GetRetransmissionDelay (m : QuicSentPacketManager) : Z :=
  let r := rtt_stats_ m in
  let delay := if Delta_IsZero (smoothed_rtt_ r) then Delta_FromMilliseconds kDefaultRetransmissionTimeMs
               else
                 let delay := Delta_add (smoothed_rtt_ r) (Delta_mul_int (mean_deviation_ r) 4) in
                 if Delta_ToMilliseconds delay <? kMinRetransmissionTimeMs then Delta_FromMilliseconds kMinRetransmissionTimeMs else delay in
  let delay := Delta_mul_int delay (Z.shiftl 1 (Z.min (consecutive_rto_count_ (spm_timers m)) kMaxRetransmissions)) in
  if Delta_ToMilliseconds delay >? kMaxRetransmissionTimeMs then Delta_FromMilliseconds kMaxRetransmissionTimeMs else delay.

(** The time of the alarm in a mode. *)
Definition mode_time (m : QuicSentPacketManager) (e : E) (mode : RetransmissionTimeoutMode) : Z :=
  let u := spm_unacked_packets_ m in
  match mode with
  | HANDSHAKE_MODE => QuicTime_add (clock_ApproximateNow e) (GetCryptoRetransmissionDelay m)
  | LOSS_MODE => GetLossTimeout (loss_algorithm_ m)
  | TLP_MODE => Delta_max (clock_ApproximateNow e) (QuicTime_add (GetLastPacketSentTime u) (GetTailLossProbeDelay m))
  | RTO_MODE =>
      Delta_max (QuicTime_add (GetLastPacketSentTime u) (GetTailLossProbeDelay m)) (QuicTime_add (GetLastPacketSentTime u) (GetRetransmissionDelay m))
  end.
Definition GetRetransmissionTime (m : QuicSentPacketManager) (e : E) : Z :=
  let u := spm_unacked_packets_ m in
  if negb (HasInFlightPackets u) || (timer_count m >? 0) then QuicTime_Zero
  else if negb (HasUnackedRetransmittableFrames u) then QuicTime_Zero
  else mode_time m e (GetRetransmissionMode m).

Definition spm_TimeUntilSend (m : QuicSentPacketManager) (e : E) (now : Z) : Z * E :=
  if timer_count m >? 0 then (Delta_Zero, e)
  else sender_TimeUntilSend (using_pacing_ (spm_options m)) (spm_unacked_packets_ m) (rtt_stats_ m) now (bytes_in_flight_ (spm_unacked_packets_ m)) e.

(** ** Streams, migration, configuration *)

Fixpoint prune_pending (u : QuicUnackedPacketMap) (l : list (Z * TransmissionType)) : option (list (Z * TransmissionType)) :=
  match l with
  | [] => Some []
  | p :: l =>
      let* has_frames := HasRetransmittableFrames u p.1 in
      let* l := prune_pending u l in
      Some (if has_frames : bool then p :: l else l)
  end.
Definition spm_CancelRetransmissionsForStream (m : QuicSentPacketManager) (e : E) (stream_id : Z) : option (QuicSentPacketManager * E) :=
  let* (u, e) := CancelRetransmissionsForStream (spm_unacked_packets_ m) e stream_id in
  let* l := prune_pending u (pending_retransmissions_ m) in
  Some (spm_set_pending (spm_set_unacked m u) l, e).

Inductive PeerAddressChangeType :=
  | NO_CHANGE | PORT_CHANGE | IPV4_SUBNET_CHANGE | IPV4_TO_IPV4_CHANGE | IPV4_TO_IPV6_CHANGE | IPV6_TO_IPV4_CHANGE | IPV6_TO_IPV6_CHANGE.
Definition spm_OnConnectionMigration (m : QuicSentPacketManager) (e : E) (type : PeerAddressChangeType) : QuicSentPacketManager * E :=
  match type with
  | PORT_CHANGE | IPV4_SUBNET_CHANGE => (m, e)
  | _ =>
      let t := spm_timers m in
      let m := spm_set_timers m (MkTimers (first_rto_transmission_ t) 0 0 (consecutive_crypto_retransmission_count_ t) (pending_timer_transmission_count_ t)) in
      let m := spm_set_rtt m (RttStats_OnConnectionMigration (rtt_stats_ m)) in
      (m, algorithm_OnConnectionMigration (spm_unacked_packets_ m) (rtt_stats_ m) e)
  end.

Definition SetNumOpenStreams (m : QuicSentPacketManager) (e : E) (num_streams : Z) : E :=
  if n_connection_simulation_ (spm_options m) then algorithm_SetNumEmulatedConnections (Z.min 5 (Z.max 1 num_streams)) e else e.
Definition SetMaxPacingRate (e : E) (rate : Z) : E := pacing_set_max_pacing_rate rate e.
Definition spm_OnApplicationLimited (m : QuicSentPacketManager) (e : E) : E :=
  algorithm_OnApplicationLimited (spm_unacked_packets_ m) (rtt_stats_ m) (bytes_in_flight_ (spm_unacked_packets_ m)) e.
Definition spm_SetStreamNotifier (m : QuicSentPacketManager) (notifier : bool) : QuicSentPacketManager :=
  spm_set_unacked m (SetStreamNotifier (spm_unacked_packets_ m) notifier).
Definition SetNetworkChangeVisitor (m : QuicSentPacketManager) : QuicSentPacketManager :=
  let o := spm_options m in
  spm_set_options m (MkOptions (n_connection_simulation_ o) (max_tail_loss_probes_ o) (enable_half_rtt_tail_loss_probe_ o) (using_pacing_ o)
    (use_new_rto_ o) (undo_pending_retransmits_ o) (conservative_handshake_retransmits_ o) true (debug_delegate_ o)).
Definition SetDebugDelegate (m : QuicSentPacketManager) (delegate : bool) : QuicSentPacketManager :=
  let o := spm_options m in
  spm_set_options m (MkOptions (n_connection_simulation_ o) (max_tail_loss_probes_ o) (enable_half_rtt_tail_loss_probe_ o) (using_pacing_ o)
    (use_new_rto_ o) (undo_pending_retransmits_ o) (conservative_handshake_retransmits_ o) (network_change_visitor_ o) delegate).

(** What the manager reads of QuicConfig: the two round trip times, if present, and the
    connection options. *)
Inductive ConnectionOption := kTBBR | kRENO | kBYTE | kQBIC | kTPCC | k1CON | kNCON | kNTLP | kTLPR | kNRTO | kTIME | kATIM | kLFAK | kUNDO | kCONH.
Record QuicConfig := MkConfig {
  ReceivedInitialRoundTripTimeUs : option Z;
  InitialRoundTripTimeUsToSend : option Z;
  HasClientRequestedIndependentOption : ConnectionOption -> bool;
  HasClientSentConnectionOption : ConnectionOption -> bool }.
Definition clamp_initial_rtt (us : Z) : Z := Z.max kMinInitialRoundTripTimeUs (Z.min kMaxInitialRoundTripTimeUs us).
Definition positive (o : option Z) : option Z := let* x := o in if x >? 0 then Some x else None.

(** [default_to_bbr], [enable_pcc] and [disable_pacing] are flags. *)
Definition configured_algorithm (c : QuicConfig) (default_to_bbr enable_pcc : bool) : list CongestionControlType :=
  let has := HasClientRequestedIndependentOption c in
  (if has kTBBR then [kBBR] else []) ++
  (if has kRENO then if has kBYTE then [kRenoBytes] else [kReno]
   else if has kBYTE then [kCubic]
   else if default_to_bbr && has kQBIC then [kCubicBytes]
   else if enable_pcc && has kTPCC then [kPCC] else []).
Definition SetFromConfig (m : QuicSentPacketManager) (e : E) (c : QuicConfig) (default_to_bbr enable_pcc disable_pacing : bool)
    (algorithm_SetFromConfig : E -> E) : QuicSentPacketManager * E :=
  let has := HasClientRequestedIndependentOption c in
  let sent := HasClientSentConnectionOption c in
  let m := match positive (ReceivedInitialRoundTripTimeUs c) with
           | Some us => spm_set_rtt m (set_initial_rtt_us (rtt_stats_ m) (clamp_initial_rtt us))
           | None => match positive (InitialRoundTripTimeUsToSend c) with
                     | Some us => spm_set_rtt m (set_initial_rtt_us (rtt_stats_ m) (clamp_initial_rtt us))
                     | None => m
                     end
           end in
  let e := fold_left (fun e t => create_send_algorithm t e) (configured_algorithm c default_to_bbr enable_pcc) e in
  let e := if sent k1CON then algorithm_SetNumEmulatedConnections 1 e else e in
  let o := spm_options m in
  let m := spm_set_options m
    (MkOptions (sent kNCON || n_connection_simulation_ o) (if sent kNTLP then 0 else max_tail_loss_probes_ o)
       (sent kTLPR || enable_half_rtt_tail_loss_probe_ o) (negb disable_pacing) (sent kNRTO || use_new_rto_ o)
       (sent kUNDO || undo_pending_retransmits_ o) (sent kCONH || conservative_handshake_retransmits_ o)
       (network_change_visitor_ o) (debug_delegate_ o)) in
  let m := if has kTIME then spm_set_loss m (SetLossDetectionType (loss_algorithm_ m) kTime) else m in
  let m := if has kATIM then spm_set_loss m (SetLossDetectionType (loss_algorithm_ m) kAdaptiveTime) else m in
  let m := if has kLFAK then spm_set_loss m (SetLossDetectionType (loss_algorithm_ m) kLazyFack) else m in
  let e := algorithm_SetFromConfig e in
  (m, to_visitor m visitor_OnCongestionChange e).

Record CachedNetworkParameters := MkCached {
  cached_min_rtt_ms : option Z; max_bandwidth_estimate_bytes_per_second : Z; bandwidth_estimate_bytes_per_second : Z }.
Definition ResumeConnectionState (m : QuicSentPacketManager) (e : E) (p : CachedNetworkParameters) (max_bandwidth_resumption : bool)
    : QuicSentPacketManager * E :=
  let m := match cached_min_rtt_ms p with
           | Some ms => spm_set_rtt m (set_initial_rtt_us (rtt_stats_ m) (clamp_initial_rtt (u32 (kNumMicrosPerMilli * ms))))
           | None => m
           end in
  let bandwidth := QuicBandwidth_FromBytesPerSecond
                     (if max_bandwidth_resumption then max_bandwidth_estimate_bytes_per_second p else bandwidth_estimate_bytes_per_second p) in
  (m, algorithm_AdjustNetworkParameters (spm_unacked_packets_ m) (rtt_stats_ m) bandwidth
        (Delta_FromMilliseconds (default 0 (cached_min_rtt_ms p))) e).

(** Queries. *)
Definition EstimateMaxPacketsInFlight (m : QuicSentPacketManager) (e : E) (max_packet_length : Z) : Z :=
  algorithm_GetCongestionWindow (spm_unacked_packets_ m) (rtt_stats_ m) e / max_packet_length.
Definition GetCongestionWindowInTcpMss (m : QuicSentPacketManager) (e : E) : Z :=
  algorithm_GetCongestionWindow (spm_unacked_packets_ m) (rtt_stats_ m) e / kDefaultTCPMSS.
Definition GetSlowStartThresholdInTcpMss (m : QuicSentPacketManager) (e : E) : Z :=
  algorithm_GetSlowStartThreshold (spm_unacked_packets_ m) (rtt_stats_ m) e / kDefaultTCPMSS.
Definition GetBytesInFlight (m : QuicSentPacketManager) : Z := bytes_in_flight_ (spm_unacked_packets_ m).
Definition GetLargestSentPacket (m : QuicSentPacketManager) : Z := largest_sent_packet_ (spm_unacked_packets_ m).
Definition spm_GetLargestObserved (m : QuicSentPacketManager) : Z := largest_observed_ (spm_unacked_packets_ m).
Definition GetLeastPacketAwaitedByPeer (m : QuicSentPacketManager) : Z := least_packet_awaited_by_peer_ (spm_acks m).
Definition GetConsecutiveRtoCount (m : QuicSentPacketManager) : Z := consecutive_rto_count_ (spm_timers m).
Definition GetConsecutiveTlpCount (m : QuicSentPacketManager) : Z := consecutive_tlp_count_ (spm_timers m).
Definition spm_HasUnackedPackets (m : QuicSentPacketManager) : bool := HasUnackedPackets (spm_unacked_packets_ m).
End Manager.
