(* ===== verification/SentPacketFacts.v ===== *)
(** * Sent packets: no data is lost

    The invariant of the manager of sent packets: every packet that holds frames is in
    flight or pending retransmission, every pending retransmission holds frames, and a
    packet that was declared lost is not in flight.  It is preserved by sending, by
    acknowledgements, by the alarm and by the cancellation of streams. *)

From stdpp Require Import gmap sorting.
From S2P Require Import Prelude Interval IntervalSet PacketSet QuicTime ReceivedPacketManager QuicBandwidth QuicData Framer SequencerBuffer UnackedPacketMap UnackedFacts UnackedChains RttStats LossAlgorithm SentPacketManager.

(** ** Pending retransmissions and the packet map *)

Abbreviation pendings := (list (Z * TransmissionType)).

Record pend_ok (u : QuicUnackedPacketMap) (l : pendings) : Prop := {
  po_map : map_ok u;
  po_frames : forall q t, (q, t) ∈ l -> held u q <> [];
  po_nodup : NoDup (map fst l);
  po_covered : forall q, held u q <> [] -> flying u q = true \/ q ∈ map fst l;
  po_loss : forall q, (q, LOSS_RETRANSMISSION) ∈ l -> flying u q = false }.

Lemma pending_erase_elem l n q t : (q, t) ∈ pending_erase l n <-> (q, t) ∈ l /\ q <> n.
Proof.
  unfold pending_erase. rewrite list_elem_of_In, filter_In, <-list_elem_of_In, negb_true_iff, Z.eqb_neq. done.
Qed.
Lemma pending_key l q : q ∈ map fst l <-> exists t, (q, t) ∈ (l : pendings).
Proof.
  rewrite list_elem_of_fmap. split; [intros ([q' t] & -> & H); by exists t|intros [t H]; by exists (q, t)].
Qed.
Lemma pending_erase_key l n q : q ∈ map fst (pending_erase l n) <-> q ∈ map fst l /\ q <> n.
Proof. rewrite !pending_key. setoid_rewrite pending_erase_elem. naive_solver. Qed.
Lemma pending_erase_nodup l n : NoDup (map fst l) -> NoDup (map fst (pending_erase l n)).
Proof.
  induction l as [|[q t] l IH]; simpl; [done|]. intros [Hq Hl]%NoDup_cons. case_if; [|by apply IH]. simpl. apply NoDup_cons. split; [|by apply IH].
  rewrite pending_erase_key. tauto.
Qed.
Lemma pending_contains_key l q : pending_contains l q = true <-> q ∈ map fst l.
Proof.
  unfold pending_contains. rewrite existsb_exists, pending_key. split.
  - intros ([q' t] & Hin & Heq%Z.eqb_eq). simpl in Heq. subst. exists t. by apply list_elem_of_In.
  - intros [t Ht]. exists (q, t). split; [by apply list_elem_of_In|]. apply Z.eqb_refl.
Qed.

(** Frames are held by packets that are in the map. *)
Lemma held_inside u q : held u q <> [] -> map_ok u -> least_unacked_ u <= q <= largest_sent_packet_ u.
Proof.
  unfold held. destruct (GetTransmissionInfo u q) as [i|] eqn:Hi; [|done]. intros _ [_ He].
  pose proof (GetTransmissionInfo_range u q i Hi). lia.
Qed.
Lemma flying_inside u q : flying u q = true -> map_ok u -> least_unacked_ u <= q <= largest_sent_packet_ u.
Proof.
  unfold flying. destruct (GetTransmissionInfo u q) as [i|] eqn:Hi; [|done]. intros _ [_ He].
  pose proof (GetTransmissionInfo_range u q i Hi). lia.
Qed.

(** The frames of one packet go away. *)
Lemma pend_ok_release u u' l n (out : Z -> bool) : pend_ok u l -> map_ok u' ->
  (forall q, held u' q = if q =? n then [] else held u q) -> (forall q, flying u' q = if out q then false else flying u q) ->
  (forall q, out q = true -> q = n \/ held u q = []) -> pend_ok u' (pending_erase l n).
Proof.
  intros [P1 P2 P3 P4 P5] Hok Hh Hf Hout. split; try done.
  - intros q t [Hin Hne]%pending_erase_elem. rewrite Hh, (proj2 (Z.eqb_neq q n)) by done. by eapply P2.
  - by apply pending_erase_nodup.
  - intros q. rewrite Hh. case_if; [done|]. intros Hq. bool_to_prop. rewrite Hf, pending_erase_key.
    destruct (out q) eqn:Ho; [destruct (Hout q Ho); done|]. destruct (P4 q Hq); [by left|by right].
  - intros q [Hin Hne]%pending_erase_elem. rewrite Hf. case_if; [done|]. by apply P5.
Qed.

(** A packet is marked for retransmission; [remove] says whether it leaves flight. *)
Lemma pend_ok_mark u u' l pn type (remove : bool) : pend_ok u l -> map_ok u' -> held u pn <> [] ->
  (forall q, held u' q = held u q) -> (forall q, flying u' q = if remove && (q =? pn) then false else flying u q) ->
  (type = LOSS_RETRANSMISSION -> remove = true) ->
  pend_ok u' (if pending_contains l pn then l else l ++ [(pn, type)]).
Proof.
  intros [P1 P2 P3 P4 P5] Hok Hpn Hh Hf Htype. destruct (pending_contains l pn) eqn:Hc.
  - apply pending_contains_key in Hc. split; try done.
    + intros q t Hin. rewrite Hh. by eapply P2.
    + intros q. rewrite Hh, Hf. intros Hq. destruct (P4 q Hq) as [Hfl|Hin]; [|by right]. case_if; [|by left]. right.
      apply andb_true_iff in E as [_ ->%Z.eqb_eq]. done.
    + intros q Hin. rewrite Hf. case_if; [done|]. by apply P5.
  - assert (pn ∉ map fst l) as Hnot by (rewrite <-pending_contains_key; congruence). split; try done.
    + intros q t [Hin|[= -> ->]%list_elem_of_singleton]%elem_of_app; rewrite Hh; [by eapply P2|done].
    + rewrite map_app. apply NoDup_app. split; [done|]. split; [|apply NoDup_singleton]. intros q Hq [= ->]%list_elem_of_singleton. done.
    + intros q. rewrite Hh, Hf, map_app, elem_of_app. intros Hq. destruct (P4 q Hq) as [Hfl|Hin]; [|by right; left]. case_if; [|by left].
      right; right. apply andb_true_iff in E as [_ ->%Z.eqb_eq]. by left.
    + intros q [Hin|[= -> <-]%list_elem_of_singleton]%elem_of_app; rewrite Hf; [case_if; [done|by apply P5]|].
      by rewrite (Htype eq_refl), Z.eqb_refl.
Qed.

(** A lost packet returns to flight. *)
Lemma pend_ok_restore u u' l pn : pend_ok u ((pn, LOSS_RETRANSMISSION) :: l) -> map_ok u' ->
  (forall q, held u' q = held u q) -> (forall q, flying u' q = if q =? pn then true else flying u q) -> pend_ok u' l.
Proof.
  intros [P1 P2 P3 P4 P5] Hok Hh Hf. simpl in P3. apply NoDup_cons in P3 as [Hnot Hnd]. split; try done.
  - intros q t Hin. rewrite Hh. eapply P2. by right.
  - intros q. rewrite Hh, Hf. intros Hq. case_if; [by left|]. destruct (P4 q Hq) as [Hfl|Hin]; [by left|]. right.
    apply elem_of_cons in Hin as [->|Hin]; [|done]. by rewrite Z.eqb_refl in E.
  - intros q Hin. rewrite Hf. case_if; bool_to_prop; [|apply P5; by right]. subst. destruct Hnot. apply pending_key. by eexists.
Qed.

(** A packet leaves flight that holds no frames. *)
Lemma pend_ok_unflight u u' l pn : pend_ok u l -> map_ok u' -> held u pn = [] ->
  (forall q, held u' q = held u q) -> (forall q, flying u' q = if q =? pn then false else flying u q) -> pend_ok u' l.
Proof.
  intros [P1 P2 P3 P4 P5] Hok Hpn Hh Hf. split; try done.
  - intros q t Hin. rewrite Hh. by eapply P2.
  - intros q. rewrite Hh, Hf. intros Hq. case_if; bool_to_prop; [by subst|]. by apply P4.
  - intros q Hin. rewrite Hf. case_if; [done|]. by apply P5.
Qed.

(** Nothing that matters changes. *)
Lemma pend_ok_same u u' l : pend_ok u l -> map_ok u' -> (forall q, held u' q = held u q) -> (forall q, flying u' q = flying u q) -> pend_ok u' l.
Proof.
  intros [P1 P2 P3 P4 P5] Hok Hh Hf. split; try done; intros q; rewrite ?Hf.
  - intros t Hin. rewrite Hh. by eapply P2.
  - rewrite Hh. apply P4.
  - apply P5.
Qed.

(** ** The manager *)

Record core (m : QuicSentPacketManager) : Prop := {
  co_pend : pend_ok (spm_unacked_packets_ m) (pending_retransmissions_ m);
  co_shift : 0 <= reordering_shift_ (loss_algorithm_ m) <= 4;
  co_newly : largest_newly_acked_ (spm_acks m) <= largest_sent_packet_ (spm_unacked_packets_ m);
  co_acked : Forall (fun p => p.1 <= largest_sent_packet_ (spm_unacked_packets_ m)) (packets_acked_ m) }.

(** Between the operations there are no packets left to report to congestion control. *)
Definition sent_ok (m : QuicSentPacketManager) : Prop := core m /\ packets_acked_ m = [] /\ packets_lost_ m = [].

(** The manager with another packet map and other pending retransmissions. *)
Definition with_data (m : QuicSentPacketManager) (u : QuicUnackedPacketMap) (l : pendings) : QuicSentPacketManager :=
  spm_set_pending (spm_set_unacked m u) l.

Lemma core_with_data m u l : core m -> pend_ok u l -> largest_sent_packet_ (spm_unacked_packets_ m) <= largest_sent_packet_ u -> core (with_data m u l).
Proof.
  intros [C1 C2 C3 C4] Hp Hs. split; simpl; try done; [lia|]. eapply Forall_impl; [exact C4|]. intros p. simpl. lia.
Qed.

Definition removes (type : TransmissionType) : bool :=
  negb (bool_decide (type = TLP_RETRANSMISSION)) && negb (bool_decide (type = RTO_RETRANSMISSION)).

Lemma MarkForRetransmission_ok m pn type : core m -> held (spm_unacked_packets_ m) pn <> [] -> exists u' l',
  MarkForRetransmission m pn type = Some (with_data m u' l') /\ core (with_data m u' l') /\
  least_unacked_ u' = least_unacked_ (spm_unacked_packets_ m) /\
  l' = (if pending_contains (pending_retransmissions_ m) pn then pending_retransmissions_ m else pending_retransmissions_ m ++ [(pn, type)]) /\
  acts (spm_unacked_packets_ m) u' (held (spm_unacked_packets_ m))
    (fun q => if removes type && (q =? pn) then false else flying (spm_unacked_packets_ m) q) (crypto_at (spm_unacked_packets_ m)).
Proof.
  intros Hc Hpn. pose proof (co_pend _ Hc) as Hp. pose proof (po_map _ _ Hp) as Hok. pose proof (held_inside _ _ Hpn Hok) as Hin.
  destruct (map_ok_inside _ pn Hok Hin) as [i Hi]. unfold MarkForRetransmission. rewrite Hi. cbn [mbind option_bind]. fold (removes type).
  set (u := spm_unacked_packets_ m) in *. set (l := pending_retransmissions_ m) in *.
  assert (exists u', (if removes type then RemoveFromInFlight u pn else Some u) = Some u' /\ least_unacked_ u' = least_unacked_ u /\
    acts u u' (held u) (fun q => if removes type && (q =? pn) then false else flying u q) (crypto_at u)) as (u' & R1 & R2 & R3).
  { destruct (removes type); [by apply RemoveFromInFlight_acts|]. exists u. split; [done|]. split; [done|]. by apply acts_refl. }
  rewrite R1. cbn [mbind option_bind]. cbn [spm_set_unacked pending_retransmissions_]. fold l.
  exists u', (if pending_contains l pn then l else l ++ [(pn, type)]). split; [by destruct (pending_contains l pn)|].
  split; [|done]. apply core_with_data; [done| |by rewrite (sf_largest_sent _ _ (ac_frame _ _ _ _ _ R3))].
  apply (pend_ok_mark u u' l pn type (removes type)); try done; [apply R3..|]. by intros ->.
Qed.

(** ** Acknowledged packets *)

Section Handled.
Context {E : Type} `{SentPacketEnv E} (fix_adaptive_time_loss : bool).

(** Counting spurious retransmissions changes the statistics, and the loss detection
    within its bounds. *)
Definition with_loss_stats (m : QuicSentPacketManager) (a : GeneralLossAlgorithm) (s : SentPacketStats) : QuicSentPacketManager :=
  spm_set_stats (spm_set_loss m a) s.

Lemma RecordSpurious_loop_ok fuel m e next n : GetNewestRetransmission_loop fuel (spm_unacked_packets_ m) 0 next = Some n ->
  exists s e', RecordSpurious_loop fuel m e next = Some (spm_set_stats m s, e').
Proof.
  revert m e next. enough (forall m e next k, GetNewestRetransmission_loop fuel (spm_unacked_packets_ m) k next = Some n ->
    exists s e', RecordSpurious_loop fuel m e next = Some (spm_set_stats m s, e')) by eauto.
  induction fuel as [|fuel IH]; intros m e next k; simpl; case_if; try done; try (intros _; exists (stats_ m), e; by destruct m).
  destruct (GetTransmissionInfo (spm_unacked_packets_ m) next) as [i|]; [|done]. cbn [mbind option_bind]. intros Hn.
  set (m1 := add_stats m _ _ _ _ _ _ _). destruct (IH m1 (to_delegate m (delegate_OnSpuriousPacketRetransmission (transmission_type i) (bytes_sent i)) e)
    (retransmission i) next Hn) as (s & e' & ->). by exists s, e'.
Qed.

Lemma newest_any fuel u k k' next n : GetNewestRetransmission_loop fuel u k next = Some n -> next <> 0 -> GetNewestRetransmission_loop fuel u k' next = Some n.
Proof. intros Hn Hz. destruct fuel; simpl in *; by rewrite (proj2 (Z.eqb_neq _ _) Hz) in *. Qed.

Lemma RecordSpuriousRetransmissions_ok m e info k n : map_ok (spm_unacked_packets_ m) -> 0 <= reordering_shift_ (loss_algorithm_ m) <= 4 ->
  retransmission info <> 0 -> GetNewestRetransmission (spm_unacked_packets_ m) k info = Some n ->
  least_unacked_ (spm_unacked_packets_ m) <= retransmission info <= largest_sent_packet_ (spm_unacked_packets_ m) ->
  exists a s e', RecordSpuriousRetransmissions fix_adaptive_time_loss m e info = Some (with_loss_stats m a s, e') /\ 0 <= reordering_shift_ a <= 4 /\
    GetLossTimeout a = GetLossTimeout (loss_algorithm_ m).
Proof.
  intros Hok Hshift Hz Hn Hin. unfold RecordSpuriousRetransmissions.
  assert (exists s e', RecordSpurious_loop (length (unacked_packets_ (spm_unacked_packets_ m))) m e (retransmission info) = Some (spm_set_stats m s, e')) as (s & e' & ->).
  { apply RecordSpurious_loop_ok with n. by eapply newest_any. }
  cbn [mbind option_bind]. destruct (map_ok_inside _ _ Hok Hin) as [i Hi]. rewrite Hi. cbn [mbind option_bind]. case_if.
  - cbn [spm_set_stats loss_algorithm_ rtt_stats_].
    destruct (SpuriousRetransmitDetected_shift fix_adaptive_time_loss (loss_algorithm_ m) (spm_unacked_packets_ m) (clock_Now e') (rtt_stats_ m)
      (retransmission info) Hok Hin Hshift) as (a & Ha & Hs & _ & Ht). rewrite Ha. cbn [mbind option_bind].
    exists a, s, e'. split; [done|]. split; [lia|done].
  - exists (loss_algorithm_ m), s, e'. split; [|done]. by destruct m.
Qed.

(** The end of [MarkPacketHandled]: the packet leaves flight, the frames at the end of its
    chain go away. *)
Lemma release_ok u pn n : map_ok u -> least_unacked_ u <= pn <= largest_sent_packet_ u -> leads u pn n -> exists u3 u4 i,
  RemoveFromInFlight u pn = Some u3 /\ RemoveRetransmittability u3 pn = Some u4 /\ GetTransmissionInfo u4 pn = Some i /\
  least_unacked_ (set_info u4 pn (set_is_unackable i true)) = least_unacked_ u /\
  acts u (set_info u4 pn (set_is_unackable i true)) (fun q => if q =? n then [] else held u q) (fun q => if q =? pn then false else flying u q)
    (fun q => if q =? n then false else crypto_at u q) /\
  cut u (set_info u4 pn (set_is_unackable i true)) n.
Proof.
  intros Hok Hpn L. destruct (RemoveFromInFlight_acts u pn Hok Hpn) as (u3 & R1 & R2 & R3).
  assert (forall q, link u3 q = link u q) as Hl3.
  { unfold RemoveFromInFlight in R1. destruct (GetTransmissionInfo u pn) as [j|] eqn:Hj; [|done]. cbn [mbind option_bind] in R1.
    destruct (in_flight j); injection R1 as <-; [|done]. by eapply set_info_same_link. }
  pose proof (ac_ok _ _ _ _ _ R3) as Hok3. pose proof (sf_largest_sent _ _ (ac_frame _ _ _ _ _ R3)) as Hs3.
  destruct (map_ok_inside u3 pn Hok3 ltac:(lia)) as [j Hj].
  destruct (RemoveRetransmittability_acts u3 pn j Hok3 Hj) as (u4 & n' & k & A1 & A2 & A3 & _ & _ & _ & A7).
  assert (leads u3 pn n) as L3 by (apply (leads_ext u); done).
  assert (n' = n) as ->. { destruct (leads_total u3 pn j Hok3 Hj) as (n'' & N1 & N2). rewrite A3 in N1. injection N1 as <-. by eapply leads_det. }
  pose proof (ac_ok _ _ _ _ _ A7) as Hok4. pose proof (sf_largest_sent _ _ (ac_frame _ _ _ _ _ A7)) as Hs4.
  destruct (map_ok_inside u4 pn Hok4 ltac:(lia)) as [i Hi]. exists u3, u4, i.
  assert (retransmittable_frames i = []) as Hfr.
  { destruct (view_here u4 pn i Hi) as (<- & _). rewrite (ac_held _ _ _ _ _ A7). case_if; [done|].
    destruct (decide (link u3 pn = 0)) as [Hz|Hz]; [inversion L3; subst; [blia|done]|by apply map_ok_link]. }
  pose proof (set_is_unackable_acts u4 pn i Hok4 Hi Hfr) as A8. split_and!; try done; [simpl; lia| |].
  - apply (acts_trans u u4); [transitivity u3; [apply R3|apply A7]|].
    eapply acts_ext; [exact A8| | |]; intros q; rewrite ?(ac_held _ _ _ _ _ A7), ?(ac_flying _ _ _ _ _ A7), ?(ac_crypto _ _ _ _ _ A7);
      rewrite ?(ac_held _ _ _ _ _ R3), ?(ac_flying _ _ _ _ _ R3), ?(ac_crypto _ _ _ _ _ R3); done.
  - intros x. rewrite (set_info_same_link u4 u4 pn i (set_is_unackable i true)) by done.
    destruct (RemoveRetransmittability_cut u3 pn j u4 n Hok3 Hj A1 L3 x) as [Hc|[Hc Lx]]; rewrite Hc; [left; apply Hl3|right; split; [done|]].
    by apply (leads_ext u3).
Qed.

(** What [MarkPacketHandled] leaves alone. *)
Record quiet (m m' : QuicSentPacketManager) : Prop := {
  qu_rtt : rtt_stats_ m' = rtt_stats_ m;
  qu_recorder : sustained_bandwidth_recorder_ m' = sustained_bandwidth_recorder_ m;
  qu_options : spm_options m' = spm_options m;
  qu_timers : spm_timers m' = spm_timers m;
  qu_newly : largest_newly_acked_ (spm_acks m') = largest_newly_acked_ (spm_acks m);
  qu_confirmed : handshake_confirmed_ (spm_acks m') = handshake_confirmed_ (spm_acks m);
  qu_timeout : GetLossTimeout (loss_algorithm_ m') = GetLossTimeout (loss_algorithm_ m);
  qu_acked : packets_acked_ m' = packets_acked_ m;
  qu_lost : packets_lost_ m' = packets_lost_ m }.
#[export] Instance quiet_preorder : PreOrder quiet.
Proof. split; [by intros m|]. intros m1 m2 m3 [] []. split; congruence. Qed.


Lemma NotifyNewest_ok m e pn n delay info : map_ok (spm_unacked_packets_ m) -> 0 <= reordering_shift_ (loss_algorithm_ m) <= 4 ->
  GetTransmissionInfo (spm_unacked_packets_ m) pn = Some info -> GetNewestRetransmission (spm_unacked_packets_ m) pn info = Some n ->
  exists m' e', NotifyNewest fix_adaptive_time_loss m e pn n delay info = Some (m', e') /\ quiet m m' /\
    pending_retransmissions_ m' = pending_retransmissions_ m /\ 0 <= reordering_shift_ (loss_algorithm_ m') <= 4 /\
    least_unacked_ (spm_unacked_packets_ m') = least_unacked_ (spm_unacked_packets_ m) /\
    (forall q, link (spm_unacked_packets_ m') q = link (spm_unacked_packets_ m) q) /\
    exists out, acts (spm_unacked_packets_ m) (spm_unacked_packets_ m') (held (spm_unacked_packets_ m))
      (fun q => if out && (q =? n) then false else flying (spm_unacked_packets_ m) q) (crypto_at (spm_unacked_packets_ m)).
Proof.
  intros Hok Hshift Hi Hn. set (u := spm_unacked_packets_ m) in *. unfold NotifyNewest. fold u.
  destruct (leads_total u pn info Hok Hi) as (n' & N1 & L). rewrite Hn in N1. injection N1 as <-.
  destruct (n =? pn) eqn:Heq.
  - unfold NotifyAndClearListeners. rewrite Hi. cbn [mbind option_bind]. pose proof (set_ack_listeners_acts u pn info [] Hok Hi) as A.
    eexists _, _. split; [done|]. split; [by split|]. split; [done|]. split; [exact Hshift|]. split; [done|].
    split; [by eapply set_info_same_link|]. by exists false.
  - bool_to_prop. assert (link u pn = retransmission info) as Hl by (unfold link; by rewrite Hi).
    assert (retransmission info <> 0) as Hz by (rewrite <-Hl; inversion L; subst; done).
    pose proof (GetTransmissionInfo_range u pn info Hi) as Hr. destruct (map_ok_link u pn Hok ltac:(by rewrite Hl)) as [Hrange _].
    pose proof (leads_le u pn n Hok L) as Hle.
    assert (exists j, GetTransmissionInfo u n = Some j) as [j Hj].
    { destruct (RemoveRetransmittability_acts u pn info Hok Hi) as (? & n' & j & _ & _ & N & _ & Hj & _). rewrite Hn in N. injection N as <-. by exists j. }
    unfold NotifyAndClearListeners. rewrite Hj. cbn [mbind option_bind]. set (u1 := set_info u n (set_ack_listeners j [])).
    pose proof (set_ack_listeners_acts u n j [] Hok Hj) as A. fold u1 in A. pose proof (ac_ok _ _ _ _ _ A) as Hok1.
    assert (GetTransmissionInfo u1 pn = Some info) as Hi1 by (unfold u1; rewrite (set_info_lookup u n j Hj); case_if; [blia|done]).
    assert (GetTransmissionInfo u1 n = Some (set_ack_listeners j [])) as Hj1 by (unfold u1; by rewrite (set_info_lookup u n j Hj), Z.eqb_refl).
    assert (forall q, link u1 q = link u q) as Hl1 by (by eapply set_info_same_link).
    destruct (leads_total u1 pn info Hok1 Hi1) as (n1 & N1 & _).
    match goal with |- context [RecordSpuriousRetransmissions _ ?m1 ?e1 info] =>
      destruct (RecordSpuriousRetransmissions_ok m1 e1 info pn n1) as (a & s & e' & R1 & R2 & R3) end; try done; [simpl; rewrite <-Hl; lia|].
    rewrite R1. cbn [mbind option_bind]. cbn [with_loss_stats spm_set_stats spm_set_loss spm_set_unacked spm_unacked_packets_].
    rewrite Hj1. cbn [mbind option_bind]. destruct (has_crypto_handshake _).
    + destruct (RemoveFromInFlight_acts u1 n Hok1) as (u2 & F1 & F2 & F3).
      { pose proof (GetTransmissionInfo_range u1 n _ Hj1). destruct Hok1 as [_ He]. lia. }
      rewrite F1. cbn [mbind option_bind]. eexists _, _. split; [done|]. split; [by split|]. split; [done|]. split; [exact R2|].
      split; [exact F2|]. split.
      * intros q. rewrite <-Hl1. unfold RemoveFromInFlight in F1. rewrite Hj1 in F1. cbn [mbind option_bind] in F1.
        destruct (in_flight _); injection F1 as <-; [by eapply set_info_same_link|done].
      * exists true. apply (acts_trans u u1); [apply A|]. eapply acts_ext; [exact F3| | |]; intros q; cbv beta; simpl;
          rewrite ?(ac_held _ _ _ _ _ A), ?(ac_flying _ _ _ _ _ A), ?(ac_crypto _ _ _ _ _ A); done.
    + eexists _, _. split; [done|]. split; [by split|]. split; [done|]. split; [exact R2|]. split; [done|]. split; [exact Hl1|]. by exists false.
Qed.

Record handled (m m' : QuicSentPacketManager) (pn n : Z) : Prop := {
  ha_leads : leads (spm_unacked_packets_ m) pn n;
  ha_core : core m';
  ha_quiet : quiet m m';
  ha_frame : same_frame (spm_unacked_packets_ m) (spm_unacked_packets_ m');
  ha_least : least_unacked_ (spm_unacked_packets_ m') = least_unacked_ (spm_unacked_packets_ m);
  ha_pending : pending_retransmissions_ m' = pending_erase (pending_retransmissions_ m) n;
  ha_held : forall q, held (spm_unacked_packets_ m') q = if q =? n then [] else held (spm_unacked_packets_ m) q;
  ha_flying : forall q, flying (spm_unacked_packets_ m') q = true -> flying (spm_unacked_packets_ m) q = true /\ q <> pn;
  ha_stays : forall q, q <> pn -> q <> n -> flying (spm_unacked_packets_ m') q = flying (spm_unacked_packets_ m) q;
  ha_cut : cut (spm_unacked_packets_ m) (spm_unacked_packets_ m') n }.

Lemma MarkPacketHandled_ok m e pn delay : core m -> least_unacked_ (spm_unacked_packets_ m) <= pn <= largest_sent_packet_ (spm_unacked_packets_ m) ->
  exists m' e' n, MarkPacketHandled fix_adaptive_time_loss m e pn delay = Some (m', e') /\ handled m m' pn n.
Proof.
  intros [C1 C2 C3 C4] Hpn. pose proof (po_map _ _ C1) as Hok. set (u := spm_unacked_packets_ m) in *.
  destruct (map_ok_inside u pn Hok Hpn) as [info Hi]. destruct (leads_total u pn info Hok Hi) as (n & Hn & L).
  unfold MarkPacketHandled. fold u. rewrite Hi. cbn [mbind option_bind]. rewrite Hn. cbn [mbind option_bind].
  set (m1 := spm_set_pending m _). destruct (NotifyNewest_ok m1 e pn n delay info Hok C2 Hi Hn) as (m2 & e2 & R1 & R2 & R3 & R4 & R5 & R6 & out & A).
  change (spm_unacked_packets_ m1) with u in R5, R6, A. rewrite R1. cbn [mbind option_bind].
  set (me := if _ && _ then _ else _). assert (exists m3 e3, me = (m3, e3) /\ quiet m2 m3 /\ spm_unacked_packets_ m3 = spm_unacked_packets_ m2 /\
    pending_retransmissions_ m3 = pending_retransmissions_ m2 /\ loss_algorithm_ m3 = loss_algorithm_ m2) as (m3 & e3 & -> & Q1 & Q2 & Q3 & Q4).
  { unfold me. case_if; eexists _, _; (split; [done|]); by split. }
  rewrite Q2. set (u2 := spm_unacked_packets_ m2) in *. pose proof (ac_ok _ _ _ _ _ A) as Hok2. pose proof (ac_frame _ _ _ _ _ A) as F2.
  destruct (release_ok u2 pn n Hok2) as (u3 & u4 & i & S1 & S2 & S3 & S4 & S5 & S6); [rewrite R5, (sf_largest_sent _ _ F2); done|by apply (leads_ext u)|].
  rewrite S1. cbn [mbind option_bind]. rewrite S2. cbn [mbind option_bind]. rewrite S3. cbn [mbind option_bind].
  set (u5 := set_info u4 pn _) in *. pose proof (ac_ok _ _ _ _ _ S5) as Hok5. pose proof (ac_frame _ _ _ _ _ S5) as F5.
  assert (same_frame u u5) as F by (by transitivity u2).
  assert (forall q, held u5 q = if q =? n then [] else held u q) as Hheld by (intros q; by rewrite (ac_held _ _ _ _ _ S5), (ac_held _ _ _ _ _ A)).
  assert (forall q, flying u5 q = if (q =? pn) || (out && (q =? n)) then false else flying u q) as Hfly.
  { intros q. rewrite (ac_flying _ _ _ _ _ S5), (ac_flying _ _ _ _ _ A). by destruct (q =? pn), (out && (q =? n)). }
  eexists _, _, n. split; [done|]. split; try done.
  - split; cbn [spm_unacked_packets_ pending_retransmissions_ loss_algorithm_ spm_acks packets_acked_ spm_set_unacked]; try done.
    + rewrite Q3, R3. apply (pend_ok_release u u5 _ n (fun q => (q =? pn) || (out && (q =? n)))); try done.
      intros q [Hq|[_ Hq]%andb_true_iff]%orb_true_iff; bool_to_prop; [subst q|by left].
      destruct (decide (link u pn = 0)) as [Hz|Hz]; [left; by inversion L; subst|right; by apply map_ok_link].
    + by rewrite Q4.
    + rewrite (qu_newly _ _ Q1), (qu_newly _ _ R2), (sf_largest_sent _ _ F). exact C3.
    + rewrite (qu_acked _ _ Q1), (qu_acked _ _ R2), (sf_largest_sent _ _ F). exact C4.
  - transitivity m1; [by split|]. transitivity m2; [done|]. transitivity m3; [done|by split].
  - simpl. fold u. rewrite <-R5. exact S4.
  - simpl. by rewrite Q3, R3.
  - simpl. intros q. fold u. rewrite Hfly. case_if; [done|]. apply orb_false_iff in E0 as [Hq _]. split; [done|blia].
  - simpl. intros q Hq1 Hq2. rewrite Hfly, (proj2 (Z.eqb_neq _ _) Hq1), (proj2 (Z.eqb_neq _ _) Hq2), andb_false_r. done.
  - simpl. intros x. destruct (S6 x) as [Hc|[Hc Lx]]; rewrite Hc; [left; by rewrite R6|right; split; [done|]]. by apply (leads_ext u2 u).
Qed.
End Handled.

(** ** All the packets an acknowledgement names *)

Lemma leads_exists u x : map_ok u -> exists z, leads u x z.
Proof.
  intros Hok. destruct (GetTransmissionInfo u x) as [i|] eqn:Hi; [|exists x; apply leads_end; unfold link; by rewrite Hi].
  destruct (leads_total u x i Hok Hi) as (n & _ & L). by exists n.
Qed.

(** The packets of [done] were handled: the frames their chains lead to are released,
    nothing else is. *)
Record released (u u' : QuicUnackedPacketMap) (done : list Z) : Prop := {
  rl_frame : same_frame u u';
  rl_least : least_unacked_ u' = least_unacked_ u;
  rl_freed : forall x q, x ∈ done -> leads u x q -> held u' q = [];
  rl_kept : forall q, held u' q = held u q \/ (held u' q = [] /\ exists x, x ∈ done /\ leads u x q);
  rl_chains : forall x z, leads u x z -> leads u' x z \/ (held u' z = [] /\ exists y, leads u' x y /\ held u' y = []);
  rl_flying : forall q, flying u' q = true -> flying u q = true /\ q ∉ done;
  rl_stays : forall q, held u' q <> [] -> flying u' q = flying u q }.

Lemma released_refl u : released u u [].
Proof. split; try done; [set_solver|by left|by left|]. intros q ->. split; [done|set_solver]. Qed.

Lemma released_empty u u' d q : released u u' d -> held u q = [] -> held u' q = [].
Proof. intros R Hq. destruct (rl_kept _ _ _ R q) as [->|[? _]]; done. Qed.

Lemma released_trans u v w d d' : map_ok u -> map_ok v -> released u v d -> released v w d' -> released u w (d ++ d').
Proof.
  intros Hu Hv R1 R2. pose proof (released_empty v w d') as Hemp. split.
  - transitivity v; [apply R1|apply R2].
  - rewrite (rl_least _ _ _ R2). apply R1.
  - intros x q [Hx|Hx]%elem_of_app L; [apply Hemp; [done|]; by eapply rl_freed|].
    destruct (rl_chains _ _ _ R1 x q L) as [L'|[Hz _]]; [by eapply rl_freed|by apply Hemp].
  - intros q. destruct (rl_kept _ _ _ R2 q) as [Hk|[Hz (x & Hx & L)]].
    + rewrite Hk. destruct (rl_kept _ _ _ R1 q) as [->|[-> (x & Hx & L)]]; [by left|right]. split; [done|]. exists x. set_solver.
    + destruct (leads_exists u x Hu) as [z Lz].
      destruct (rl_chains _ _ _ R1 x z Lz) as [Lv|[_ (y & Ly & Hy)]].
      * right. split; [done|]. exists x. split; [set_solver|]. by rewrite (leads_det v x q z L Lv).
      * rewrite (leads_det v x y q Ly L) in Hy. destruct (rl_kept _ _ _ R1 q) as [Hk|[_ (x' & Hx' & L')]]; [left; congruence|right].
        split; [done|]. exists x'. set_solver.
  - intros x z L. destruct (rl_chains _ _ _ R1 x z L) as [Lv|[Hz (y & Ly & Hy)]]; [by apply (rl_chains _ _ _ R2)|]. right.
    split; [by apply Hemp|]. destruct (rl_chains _ _ _ R2 x y Ly) as [Lw|[_ Hex]]; [|done]. exists y. split; [done|by apply Hemp].
  - intros q [H1 H2]%(rl_flying _ _ _ R2). destruct (rl_flying _ _ _ R1 q H1). set_solver.
  - intros q Hq. rewrite (rl_stays _ _ _ R2 q Hq). apply (rl_stays _ _ _ R1). intros Hz. by apply Hq, Hemp.
Qed.

Lemma handled_released m m' pn n : map_ok (spm_unacked_packets_ m) -> handled m m' pn n ->
  released (spm_unacked_packets_ m) (spm_unacked_packets_ m') [pn].
Proof.
  intros Hok [H1 H2 H3 H4 H5 H6 H7 H8 H9 H10]. set (u := spm_unacked_packets_ m) in *. set (u' := spm_unacked_packets_ m') in *.
  assert (held u' n = []) as Hn by (by rewrite H7, Z.eqb_refl). split; try done.
  - intros x q ->%list_elem_of_singleton L. by rewrite (leads_det u pn q n L H1).
  - intros q. destruct (decide (q = n)) as [->|Hne]; [right|left]; [|by rewrite H7, (proj2 (Z.eqb_neq _ _) Hne)].
    split; [done|]. exists pn. split; [by left|done].
  - intros x z L. destruct (cut_leads u u' n Hok H10) with x z as [L'|[-> (y & Ly & Hy)]]; try done; [|by left|right; split; [done|by exists y]].
    intros q Hne. by rewrite H7, (proj2 (Z.eqb_neq _ _) Hne).
  - intros q [Hf Hne]%H8. split; [done|]. set_solver.
  - intros q Hq. apply H9; intros ->; [|done].
    destruct (decide (link u pn = 0)) as [Hz|Hz]; [by inversion H1; subst|]. apply Hq. rewrite H7. case_if; [done|]. by apply map_ok_link.
Qed.

(** What the handling of an acknowledgement leaves alone. *)
Record calm (m m' : QuicSentPacketManager) : Prop := {
  ca_rtt : rtt_stats_ m' = rtt_stats_ m;
  ca_options : spm_options m' = spm_options m;
  ca_timers : spm_timers m' = spm_timers m;
  ca_confirmed : handshake_confirmed_ (spm_acks m') = handshake_confirmed_ (spm_acks m);
  ca_lost : packets_lost_ m' = packets_lost_ m }.
#[export] Instance calm_preorder : PreOrder calm.
Proof. split; [by intros m|]. intros m1 m2 m3 [] []. split; congruence. Qed.
Lemma quiet_calm m m' : quiet m m' -> calm m m'.
Proof. intros []. by split. Qed.

Section Acks.
Context {E : Type} `{SentPacketEnv E} (handle_acks fix_adaptive_time_loss : bool).
Context {Q : Type} `{PacketSet Q} `{!PacketSetLaws Q} (ack : @QuicAckFrame Q) (Hack : ps_ok (packets ack)).

Lemma HandleAck_loop_ok n m e pn : core m -> least_unacked_ (spm_unacked_packets_ m) <= pn ->
  pn + Z.of_nat n = largest_sent_packet_ (spm_unacked_packets_ m) + 1 -> exists m' e' done,
  HandleAck_loop handle_acks fix_adaptive_time_loss n m e ack pn = Some (m', e') /\ core m' /\ calm m m' /\
  released (spm_unacked_packets_ m) (spm_unacked_packets_ m') done /\
  (forall x, x ∈ done -> pn <= x <= largest_observed ack /\ ps_mem x (packets ack)) /\
  (handle_acks = false -> forall x, pn <= x <= largest_sent_packet_ (spm_unacked_packets_ m) -> x <= largest_observed ack ->
     ps_mem x (packets ack) -> x ∈ done).
Proof.
  revert m e pn. induction n as [|n IH]; intros m e pn Hc Hleast Hend; cbn [HandleAck_loop].
  - exists m, e, []. split_and!; try done; [apply released_refl|set_solver|intros _ x Hx; lia].
  - case_if; [exists m, e, []; split_and!; try done; [apply released_refl|set_solver|intros _ x Hx; blia]|].
    set (u := spm_unacked_packets_ m) in *. pose proof (po_map _ _ (co_pend _ Hc)) as Hok. fold u in Hok.
    destruct (map_ok_inside u pn Hok ltac:(lia)) as [i Hi]. rewrite Hi. cbn [mbind option_bind].
    destruct (handle_acks && is_unackable i) eqn:Hskip.
    + destruct (IH m e (pn + 1) Hc ltac:(fold u; lia) ltac:(fold u; lia)) as (m' & e' & d & R1 & R2 & R3 & R4 & R5 & R6).
      exists m', e', d. split_and!; try done; [intros x Hx; destruct (R5 x Hx); split; [lia|done]|].
      intros Hfl. by rewrite Hfl in Hskip.
    + destruct (ps_contains_law (packets ack) pn Hack) as (b & -> & Hb). cbn [mbind option_bind]. destruct b; cbn [negb].
      * match goal with |- context [MarkPacketHandled _ ?x e pn _] => set (m1 := x) end.
        assert (core m1 /\ calm m m1 /\ spm_unacked_packets_ m1 = u) as (Hc1 & Hcalm & Hu1).
        { destruct Hc as [C1 C2 C3 C4]. unfold m1. repeat case_if; (split; [split; simpl; try done; fold u; try lia|by split]);
            (apply Forall_app; split; [done|]; repeat constructor; simpl; lia). }
        destruct (MarkPacketHandled_ok fix_adaptive_time_loss m1 e pn (ack_delay_time ack) Hc1) as (m2 & e2 & k & K1 & K2); [rewrite Hu1; lia|].
        rewrite K1. cbn [mbind option_bind]. pose proof (handled_released m1 m2 pn k ltac:(by rewrite Hu1) K2) as Rel. rewrite Hu1 in Rel.
        destruct K2 as [_ Hc2 Hq2 Hf2 Hl2 _ _ _ _ _]. rewrite Hu1 in Hf2, Hl2.
        destruct (IH m2 e2 (pn + 1) Hc2) as (m' & e' & d & R1 & R2 & R3 & R4 & R5 & R6); [lia|rewrite (sf_largest_sent _ _ Hf2); lia|].
        exists m', e', (pn :: d). split; [done|]. split; [done|]. split; [transitivity m1; [done|]; transitivity m2; [by apply quiet_calm|done]|].
        split; [by apply (released_trans u (spm_unacked_packets_ m2) _ [pn] d); try done; apply (po_map _ _ (co_pend _ Hc2))|]. split.
        -- intros x [->|Hx]%elem_of_cons; [split; [blia|by apply Hb]|]. destruct (R5 x Hx). split; [lia|done].
        -- intros Hfl x Hx Hle Hm. destruct (decide (x = pn)) as [->|Hne]; [by left|right]. apply R6; try done. rewrite (sf_largest_sent _ _ Hf2). lia.
      * destruct (IH m e (pn + 1) Hc ltac:(fold u; lia) ltac:(fold u; lia)) as (m' & e' & d & R1 & R2 & R3 & R4 & R5 & R6).
        exists m', e', d. split_and!; try done; [intros x Hx; destruct (R5 x Hx); split; [lia|done]|].
        intros Hfl x Hx Hle Hm. destruct (decide (x = pn)) as [->|Hne]; [|apply R6; try done; fold u; lia]. by apply Hb in Hm.
Qed.
End Acks.

(** ** Losses *)

(** The packets of [out] have left flight, all frames are kept. *)
Record unflown (m m' : QuicSentPacketManager) (out : list Z) : Prop := {
  un_core : core m';
  un_frame : same_frame (spm_unacked_packets_ m) (spm_unacked_packets_ m');
  un_least : least_unacked_ (spm_unacked_packets_ m') = least_unacked_ (spm_unacked_packets_ m);
  un_held : forall q, held (spm_unacked_packets_ m') q = held (spm_unacked_packets_ m) q;
  un_crypto : forall q, crypto_at (spm_unacked_packets_ m') q = crypto_at (spm_unacked_packets_ m) q;
  un_flying : forall q, flying (spm_unacked_packets_ m') q = flying (spm_unacked_packets_ m) q && negb (bool_decide (q ∈ out)) }.

Lemma HasRetransmittableFrames_held u q : map_ok u -> least_unacked_ u <= q <= largest_sent_packet_ u ->
  HasRetransmittableFrames u q = Some (negb (bool_decide (held u q = []))).
Proof.
  intros Hok Hq. destruct (map_ok_inside u q Hok Hq) as [i Hi]. unfold HasRetransmittableFrames, held. by rewrite Hi.
Qed.

Lemma unflown_refl m : core m -> unflown m m [].
Proof. intros Hc. split; try done. intros q. by rewrite bool_decide_eq_false_2, andb_true_r by set_solver. Qed.
Lemma unflown_trans m1 m2 m3 l l' : unflown m1 m2 l -> unflown m2 m3 l' -> unflown m1 m3 (l ++ l').
Proof.
  intros [A1 A2 A3 A4 A5 A6] [B1 B2 B3 B4 B5 B6].
  split; [done|by transitivity (spm_unacked_packets_ m2)|congruence|intros q; by rewrite B4|intros q; by rewrite B5|].
  intros q. rewrite B6, A6, <-andb_assoc. f_equal. rewrite <-negb_orb. f_equal. apply eq_bool_prop_intro.
  rewrite orb_True, !bool_decide_spec. set_solver.
Qed.

(** What marking packets for retransmission leaves alone. *)
Record steady (m m' : QuicSentPacketManager) : Prop := {
  sd_rtt : rtt_stats_ m' = rtt_stats_ m;
  sd_loss : loss_algorithm_ m' = loss_algorithm_ m;
  sd_options : spm_options m' = spm_options m;
  sd_timers : spm_timers m' = spm_timers m;
  sd_acks : spm_acks m' = spm_acks m;
  sd_acked : packets_acked_ m' = packets_acked_ m;
  sd_lost : packets_lost_ m' = packets_lost_ m }.
#[export] Instance steady_preorder : PreOrder steady.
Proof. split; [by intros m|]. intros m1 m2 m3 [] []. split; congruence. Qed.

Section Losses.
Context {E : Type} `{SentPacketEnv E}.

Lemma InvokeLoss_one m pn : core m -> least_unacked_ (spm_unacked_packets_ m) <= pn <= largest_sent_packet_ (spm_unacked_packets_ m) -> exists m',
  (let* has_frames := HasRetransmittableFrames (spm_unacked_packets_ m) pn in
   if has_frames : bool then MarkForRetransmission m pn LOSS_RETRANSMISSION
   else let* u := RemoveFromInFlight (spm_unacked_packets_ m) pn in Some (spm_set_unacked m u)) = Some m' /\ unflown m m' [pn] /\ steady m m'.
Proof.
  intros Hc Hpn. pose proof (po_map _ _ (co_pend _ Hc)) as Hok. set (u := spm_unacked_packets_ m) in *.
  rewrite HasRetransmittableFrames_held by done. cbn [mbind option_bind].
  assert (forall q b, (if q =? pn then false else b) = b && negb (bool_decide (q ∈ [pn]))) as Hone.
  { intros q b. case_if; bool_to_prop; [subst; rewrite bool_decide_eq_true_2 by (by left); by rewrite andb_false_r|].
    rewrite bool_decide_eq_false_2 by set_solver. by rewrite andb_true_r. }
  destruct (decide (held u pn = [])) as [Hz|Hz].
  - rewrite bool_decide_eq_true_2 by done. cbn [negb]. destruct (RemoveFromInFlight_acts u pn Hok Hpn) as (u' & R1 & R2 & R3). rewrite R1. cbn [mbind option_bind].
    eexists. split; [done|]. split; [|by split]. split; simpl; try done; try apply R3.
    + apply (core_with_data m u' (pending_retransmissions_ m)); [done| |by rewrite (sf_largest_sent _ _ (ac_frame _ _ _ _ _ R3))].
      apply (pend_ok_unflight u u' _ pn); try done; try apply R3. apply Hc.
    + intros q. rewrite (ac_flying _ _ _ _ _ R3). apply Hone.
  - rewrite bool_decide_eq_false_2 by done. cbn [negb]. destruct (MarkForRetransmission_ok m pn LOSS_RETRANSMISSION Hc Hz) as (u' & l' & R1 & R2 & R3 & _ & R4).
    rewrite R1. eexists. split; [done|]. split; [|by split]. split; try done; try apply R4. intros q. simpl. rewrite (ac_flying _ _ _ _ _ R4). apply Hone.
Qed.

Lemma InvokeLoss_loop_ok m e lost time : core m ->
  (forall q b, (q, b) ∈ lost -> least_unacked_ (spm_unacked_packets_ m) <= q <= largest_sent_packet_ (spm_unacked_packets_ m)) -> exists m' e' s,
  InvokeLoss_loop m e lost time = Some (spm_set_stats m' s, e') /\ unflown m m' (map fst lost) /\ steady m m'.
Proof.
  revert m e. induction lost as [|[pn b] lost IH]; intros m e Hc Hin; cbn [InvokeLoss_loop].
  - exists m, e, (stats_ m). split; [by destruct m|]. split; [by apply unflown_refl|done].
  - set (m0 := add_stats m _ _ _ _ _ _ _).
    assert (core m0) as Hc0 by (destruct Hc; by split).
    destruct (InvokeLoss_one m0 pn Hc0) as (m1 & R1 & R2 & R3); [apply (Hin pn b); by left|].
    destruct (HasRetransmittableFrames (spm_unacked_packets_ m0) pn) as [f|]; [|done]. cbn [mbind option_bind] in R1 |- *. rewrite R1. cbn [mbind option_bind].
    match goal with |- context [InvokeLoss_loop m1 ?e1 lost time] => destruct (IH m1 e1) as (m' & e' & s & I1 & I2 & I3) end; [apply R2| |].
    { intros q b' Hq. rewrite (un_least _ _ _ R2), (sf_largest_sent _ _ (un_frame _ _ _ R2)). apply (Hin q b'). by right. }
    exists m', e', s. split; [done|]. split.
    + apply (unflown_trans m m1 m' [pn]); [|done]. destruct R2. by split.
    + transitivity m1; [|done]. destruct R3. by split.
Qed.

Lemma InvokeLossDetection_ok m e time : core m -> packets_lost_ m = [] -> exists m' e' a s lost,
  InvokeLossDetection m e time = Some (spm_set_stats m' s, e') /\
  unflown m m' (map fst lost) /\ packets_lost_ m' = lost /\ packets_acked_ m' = packets_acked_ m /\
  rtt_stats_ m' = rtt_stats_ m /\ spm_options m' = spm_options m /\ spm_timers m' = spm_timers m /\
  handshake_confirmed_ (spm_acks m') = handshake_confirmed_ (spm_acks m) /\ loss_algorithm_ m' = a /\
  DetectLosses (loss_algorithm_ m) (spm_unacked_packets_ m) time (rtt_stats_ m) (largest_newly_acked_ (spm_acks m')) [] = Some (a, lost) /\
  largest_newly_acked_ (spm_acks m') <= largest_sent_packet_ (spm_unacked_packets_ m) /\
  (packets_acked_ m = [] -> largest_newly_acked_ (spm_acks m') = largest_newly_acked_ (spm_acks m)).
Proof.
  intros Hc Hl. pose proof (po_map _ _ (co_pend _ Hc)) as Hok. unfold InvokeLossDetection.
  set (m1 := match last (packets_acked_ m) with Some _ => _ | None => _ end).
  assert (core m1 /\ spm_unacked_packets_ m1 = spm_unacked_packets_ m /\ loss_algorithm_ m1 = loss_algorithm_ m /\ steady (spm_set_acks m (spm_acks m1)) m1 /\
    largest_newly_acked_ (spm_acks m1) <= largest_sent_packet_ (spm_unacked_packets_ m) /\
    handshake_confirmed_ (spm_acks m1) = handshake_confirmed_ (spm_acks m)) as (Hc1 & Hu1 & Hlo1 & Hs1 & Hn1 & Hh1).
  { unfold m1. destruct (last (packets_acked_ m)) as [[q b]|] eqn:Hq; [|by split_and!; try done; apply Hc].
    destruct Hc as [C1 C2 C3 C4]. assert (q <= largest_sent_packet_ (spm_unacked_packets_ m)).
    { rewrite Forall_forall in C4. apply (C4 (q, b)). by apply last_Some_elem_of. }
    split_and!; try done; split; done. }
  rewrite Hu1, Hlo1, (sd_rtt _ _ Hs1), (sd_lost _ _ Hs1). cbn [spm_set_acks rtt_stats_ packets_lost_]. rewrite Hl.
  rewrite DetectLosses_scan by done. pose proof (scan_sound (loss_algorithm_ m) (spm_unacked_packets_ m) time (rtt_stats_ m)
    (largest_newly_acked_ (spm_acks m1)) (unacked_packets_ (spm_unacked_packets_ m)) (least_unacked_ (spm_unacked_packets_ m))) as Hsound.
  destruct (scan _ _ _ _ _ _ _) as [lost t] eqn:Hscan. simpl in Hsound. cbn [mbind option_bind app]. set (a := MkLoss t _ _ _ _).
  set (m2 := spm_set_lost (spm_set_loss m1 a) lost).
  assert (core m2) as Hc2 by (destruct Hc1 as [K1 K2 K3 K4]; split; [exact K1|apply (co_shift _ Hc)|exact K3|exact K4]).
  destruct (InvokeLoss_loop_ok m2 e lost time Hc2) as (m' & e' & s & R1 & R2 & R3).
  { change (spm_unacked_packets_ m2) with (spm_unacked_packets_ m1). rewrite Hu1. intros q b (k & i & Hk & -> & _)%Hsound. apply lookup_lt_Some in Hk.
    destruct Hok as [_ He]. unfold end_packet in He. lia. }
  exists m', e', a, s, lost. rewrite R1. split; [done|]. destruct R3 as [S1 S2 S3 S4 S5 S6 S7]. rewrite S5.
  split; [|split; [by rewrite S7|]; split_and!].
  - destruct R2 as [U1 U2 U3 U4 U5 U6]. change (spm_unacked_packets_ m2) with (spm_unacked_packets_ m1) in *. rewrite Hu1 in *. by split.
  - rewrite S6. unfold m2. simpl. by rewrite (sd_acked _ _ Hs1).
  - rewrite S1. unfold m2. simpl. by rewrite (sd_rtt _ _ Hs1).
  - rewrite S3. unfold m2. simpl. by rewrite (sd_options _ _ Hs1).
  - rewrite S4. unfold m2. simpl. by rewrite (sd_timers _ _ Hs1).
  - exact Hh1.
  - by rewrite S2.
  - change (spm_acks m2) with (spm_acks m1). rewrite DetectLosses_scan, Hscan by done. done.
  - exact Hn1.
  - intros Hnil. change (largest_newly_acked_ (spm_acks m1) = largest_newly_acked_ (spm_acks m)). unfold m1. by rewrite Hnil.
Qed.
End Losses.

(** ** An acknowledgement *)

Lemma undo_pending_ok l m : core m -> pending_retransmissions_ m = l -> exists u' l',
  undo_pending l m = Some (with_data m u' l') /\ core (with_data m u' l') /\ same_frame (spm_unacked_packets_ m) u' /\
  (forall q, held u' q = held (spm_unacked_packets_ m) q) /\
  (forall q, held u' q = [] -> flying u' q = flying (spm_unacked_packets_ m) q).
Proof.
  revert m. induction l as [|[pn type] l IH]; intros m Hc Hl; cbn [undo_pending].
  - exists (spm_unacked_packets_ m), []. rewrite <-Hl. assert (m = with_data m (spm_unacked_packets_ m) (pending_retransmissions_ m)) as Heq by (by destruct m).
    rewrite <-Heq. split_and!; try done.
  - assert (m = with_data m (spm_unacked_packets_ m) ((pn, type) :: l)) as Heq by (rewrite <-Hl; by destruct m).
    case_if; [|exists (spm_unacked_packets_ m), ((pn, type) :: l); rewrite <-Heq; by split_and!].
    apply andb_true_iff in E as [_ ->%bool_decide_eq_true]. pose proof (co_pend _ Hc) as Hp. rewrite Hl in Hp.
    assert (held (spm_unacked_packets_ m) pn <> []) as Hh by (eapply (po_frames _ _ Hp); by left).
    pose proof (po_map _ _ Hp) as Hok. destruct (RestoreToInFlight_acts _ pn Hok Hh) as (u1 & R1 & R2 & R3).
    { apply (po_loss _ _ Hp). by left. }
    rewrite R1. cbn [mbind option_bind]. fold (with_data m u1 l).
    assert (core (with_data m u1 l)) as Hc1.
    { apply core_with_data; [done| |by rewrite (sf_largest_sent _ _ (ac_frame _ _ _ _ _ R3))]. eapply pend_ok_restore; [exact Hp|apply R3..]. }
    destruct (IH (with_data m u1 l) Hc1 eq_refl) as (u' & l' & I1 & I2 & I3 & I4 & I5). exists u', l'. simpl in *.
    assert (forall q, held u' q = held (spm_unacked_packets_ m) q) as Hheld by (intros q; rewrite I4; apply R3).
    split_and!; try done; [by transitivity u1; [apply R3|]|].
    intros q Hq. rewrite I5, (ac_flying _ _ _ _ _ R3) by done. case_if; [|done]. bool_to_prop. subst q. by rewrite Hheld in Hq.
Qed.

Section Incoming.
Context {E : Type} `{SentPacketEnv E} (handle_acks fix_adaptive_time_loss : bool).

Lemma MaybeInvokeCongestionEvent_eq m e b prior time : exists e',
  MaybeInvokeCongestionEvent m e b prior time = (spm_set_lost (spm_set_acked m []) [], e').
Proof.
  unfold MaybeInvokeCongestionEvent. case_if; [|by eexists]. exists e. apply andb_true_iff in E0 as [[_ H1]%andb_true_iff H2].
  apply bool_decide_eq_true in H1, H2. destruct m. simpl in *. by subst.
Qed.

Context {Q : Type} `{PacketSet Q} `{!PacketSetLaws Q}.

(** The first steps, until the packets are handled. *)
Lemma ack_prologue m (ack : @QuicAckFrame Q) time : map_ok (spm_unacked_packets_ m) -> exists x r b,
  (let* m := UpdatePacketInformationReceivedByPeer m ack in MaybeUpdateRTT m ack time) = Some (spm_set_rtt (set_least_awaited m x) r, b).
Proof.
  intros Hok. assert (exists x, UpdatePacketInformationReceivedByPeer m ack = Some (set_least_awaited m x)) as [x ->].
  { unfold UpdatePacketInformationReceivedByPeer. destruct (ps_empty (packets ack)) eqn:He; [by eexists|].
    rewrite ps_min_law. destruct (ps_intervals (packets ack)) as [|i l] eqn:Hi; [|by eexists].
    rewrite (proj2 (ps_empty_law (packets ack)) Hi) in He. done. }
  exists x. cbn [mbind option_bind]. unfold MaybeUpdateRTT. set (m1 := set_least_awaited m x).
  assert (forall b : bool, exists r b', Some (m1, b) = Some (spm_set_rtt m1 r, b')) as Hsame by (intros b; by exists (rtt_stats_ m), b).
  destruct (IsUnacked _ _) eqn:Hu; simpl; [|apply Hsame]. unfold IsUnacked in Hu. revert Hu. case_if; [done|].
  destruct (GetTransmissionInfo _ _) as [i|]; [|done]. intros _. cbn [mbind option_bind]. case_if; [apply Hsame|]. by eexists _, _.
Qed.

Lemma FinishIncomingAck_ok m e b prior lo time : core m -> exists m' e',
  FinishIncomingAck m e b prior lo time = Some (m', e') /\ sent_ok m' /\ same_frame (spm_unacked_packets_ m) (spm_unacked_packets_ m') /\
  timer_count m' = timer_count m /\ (forall q, held (spm_unacked_packets_ m') q = held (spm_unacked_packets_ m) q) /\
  (forall q, held (spm_unacked_packets_ m') q = [] -> flying (spm_unacked_packets_ m') q = flying (spm_unacked_packets_ m) q).
Proof.
  intros Hc. pose proof (po_map _ _ (co_pend _ Hc)) as Hok. set (u := spm_unacked_packets_ m) in *. unfold FinishIncomingAck.
  set (m1 := if _ && _ then _ else _). destruct (MaybeInvokeCongestionEvent_eq m1 e b prior time) as [e1 ->].
  pose proof (RemoveObsoletePackets_acts u Hok) as A. cbn zeta.
  assert (spm_unacked_packets_ (spm_set_lost (spm_set_acked m1 []) []) = u) as -> by (unfold m1; by case_if).
  set (u2 := RemoveObsoletePackets u) in *. match goal with |- context [spm_set_recorder ?x ?y] => set (m2 := spm_set_recorder x y) end.
  assert (spm_unacked_packets_ m2 = u2 /\ pending_retransmissions_ m2 = pending_retransmissions_ m /\ loss_algorithm_ m2 = loss_algorithm_ m /\
    spm_acks m2 = spm_acks m /\ packets_acked_ m2 = [] /\ packets_lost_ m2 = [] /\ timer_count m2 = timer_count m) as (Y1 & Y2 & Y3 & Y4 & Y5 & Y6 & Y7).
  { unfold m2, m1. by case_if. }
  clearbody m2. match goal with |- context [if b then ?x else ?y] => set (me := if b then x else y) end.
  assert (exists r t e2, me = (spm_set_timers (spm_set_rtt m2 r) t, e2) /\ pending_timer_transmission_count_ t = timer_count m2) as (r & t & e2 & -> & Ht).
  { unfold me. destruct b; [|by exists (rtt_stats_ m2), (spm_timers m2), e1; destruct m2]. repeat case_if; by eexists _, _, _. }
  set (m3 := spm_set_timers _ t). assert (core m3) as Hc3.
  { destruct Hc as [C1 C2 C3 C4]. unfold m3. split; simpl; rewrite ?Y1, ?Y2, ?Y3, ?Y4, ?Y5; try done.
    - apply (pend_ok_same u); try done; apply A.
    - rewrite (sf_largest_sent _ _ (ac_frame _ _ _ _ _ A)). exact C3. }
  assert (exists u' l', (if undo_pending_retransmits_ (spm_options m3) then undo_pending (pending_retransmissions_ m3) m3 else Some m3) = Some (with_data m3 u' l') /\
    core (with_data m3 u' l') /\ same_frame u2 u' /\ (forall q, held u' q = held u2 q) /\ (forall q, held u' q = [] -> flying u' q = flying u2 q))
    as (u' & l' & Hun & Hcu & Fu & Hu & Hfl).
  { assert (spm_unacked_packets_ m3 = u2) as Hu3 by (unfold m3; simpl; done). case_if.
    - destruct (undo_pending_ok (pending_retransmissions_ m3) m3 Hc3 eq_refl) as (u' & l' & I). rewrite Hu3 in I. by exists u', l'.
    - exists u2, (pending_retransmissions_ m3). rewrite <-Hu3. assert (with_data m3 (spm_unacked_packets_ m3) (pending_retransmissions_ m3) = m3) as -> by done.
      by split_and!. }
  rewrite Hun. cbn [mbind option_bind]. eexists _, _. split; [done|]. split; [split; [done|]; split; [exact Y5|exact Y6]|].
  split; [transitivity u2; [apply A|exact Fu]|]. split; [simpl; by rewrite Ht|]. simpl. split.
  - intros q. rewrite Hu. apply A.
  - intros q Hq. rewrite (Hfl q Hq). apply A.
Qed.

(** [m'] results from [m] by an acknowledgement under which the packets of [done] were
    handled. *)
Record acked_by (m m' : QuicSentPacketManager) (ack : @QuicAckFrame Q) (done : list Z) : Prop := {
  ab_sent : largest_sent_packet_ (spm_unacked_packets_ m') = largest_sent_packet_ (spm_unacked_packets_ m);
  ab_timer : timer_count m' = timer_count m;
  ab_only : forall x, x ∈ done -> x <= largest_observed ack /\ ps_mem x (packets ack);
  ab_all : handle_acks = false -> forall x, least_unacked_ (spm_unacked_packets_ m) <= x <= largest_sent_packet_ (spm_unacked_packets_ m) ->
    x <= largest_observed ack -> ps_mem x (packets ack) -> x ∈ done;
  ab_freed : forall x q, x ∈ done -> leads (spm_unacked_packets_ m) x q -> held (spm_unacked_packets_ m') q = [];
  ab_kept : forall q, held (spm_unacked_packets_ m') q = held (spm_unacked_packets_ m) q \/
    (held (spm_unacked_packets_ m') q = [] /\ exists x, x ∈ done /\ leads (spm_unacked_packets_ m) x q);
  ab_landed : forall x, x ∈ done -> flying (spm_unacked_packets_ m') x = false }.

Lemma OnIncomingAck_ok m e (ack : @QuicAckFrame Q) time : sent_ok m -> ps_ok (packets ack) -> exists m' e' done,
  OnIncomingAck handle_acks fix_adaptive_time_loss m e ack time = Some (m', e') /\ sent_ok m' /\ acked_by m m' ack done.
Proof.
  intros (Hc & Ha & Hl) Hps. set (u := spm_unacked_packets_ m) in *. pose proof (po_map _ _ (co_pend _ Hc)) as Hok. fold u in Hok.
  unfold OnIncomingAck. destruct (ack_prologue m ack time Hok) as (x & r & b & Hpro).
  destruct (UpdatePacketInformationReceivedByPeer m ack) as [m0|]; [|done]. cbn [mbind option_bind] in Hpro |- *. rewrite Hpro. cbn [mbind option_bind]. clear m0 Hpro.
  match goal with |- context [HandleAckForSentPackets _ _ ?y e ack] => set (m1 := y) end.
  destruct (IncreaseLargestObserved_ok u (largest_observed ack) Hok) as [Hok1 Hsame].
  assert (spm_unacked_packets_ m1 = IncreaseLargestObserved u (largest_observed ack)) as Hu1 by done.
  set (u1 := IncreaseLargestObserved u (largest_observed ack)) in *.
  assert (core m1) as Hc1.
  { destruct Hc as [C1 C2 C3 C4]. split; try done. apply (pend_ok_same u); try done; intros q; unfold held, flying; by rewrite Hsame. }
  assert (packets_lost_ m1 = [] /\ timer_count m1 = timer_count m) as [Hl1 Ht1] by done. clearbody m1.
  destruct (HandleAck_loop_ok handle_acks fix_adaptive_time_loss ack Hps (length (unacked_packets_ u1)) m1 e (least_unacked_ u1) Hc1)
    as (m2 & e2 & done & R1 & R2 & R3 & R4 & R5 & R6); rewrite ?Hu1 in *; [lia|destruct Hok1 as [_ He]; unfold end_packet in He; lia|].
  unfold HandleAckForSentPackets. rewrite Hu1, R1. cbn [mbind option_bind].
  destruct (InvokeLossDetection_ok m2 e2 time R2) as (m3 & e3 & a & s & lost & I1 & I2 & I3 & I4 & I5 & I6 & I7 & _).
  { by rewrite (ca_lost _ _ R3). }
  rewrite I1. cbn [mbind option_bind]. destruct I2 as [U1 U2 U3 U4 U5 U6]. set (m3' := spm_set_stats m3 s).
  assert (core m3') as Hc3 by (destruct U1; by split).
  destruct (FinishIncomingAck_ok m3' e3 b (bytes_in_flight_ (spm_unacked_packets_ m)) (largest_observed ack) time Hc3) as (m' & e' & F1 & F2 & F3 & F4 & F5 & F6).
  rewrite F1. exists m', e', done. split; [done|]. split; [done|]. change (spm_unacked_packets_ m3') with (spm_unacked_packets_ m3) in *.
  assert (forall q, held (spm_unacked_packets_ m') q = held (spm_unacked_packets_ m2) q) as Hheld by (intros q; by rewrite F5, U4).
  assert (forall x q, leads u x q -> leads u1 x q) as Hlead by (apply leads_ext; intros q; unfold link; by rewrite Hsame).
  assert (forall x q, leads u1 x q -> leads u x q) as Hlead' by (apply leads_ext; intros q; unfold link; by rewrite Hsame).
  destruct R4 as [L1 L2 L3 L4 L5 L6 L7]. split.
  - by rewrite (sf_largest_sent _ _ F3), (sf_largest_sent _ _ U2), (sf_largest_sent _ _ L1).
  - rewrite F4. unfold m3'. simpl. by rewrite I7, (ca_timers _ _ R3).
  - intros y Hy. destruct (R5 y Hy). split; [lia|done].
  - exact R6.
  - intros y q Hy Ly. rewrite Hheld. by apply (L3 y); [|apply Hlead].
  - intros q. rewrite Hheld. destruct (L4 q) as [Hk|[Hz (y & Hy & Ly)]]; [left; rewrite Hk; unfold held; by rewrite Hsame|right].
    split; [done|]. exists y. split; [done|by apply Hlead'].
  - intros y Hy. assert (flying (spm_unacked_packets_ m2) y = false) as Hf2.
    { destruct (flying (spm_unacked_packets_ m2) y) eqn:Hf; [|done]. destruct (L6 y Hf). done. }
    assert (held (spm_unacked_packets_ m') y = []) as Hz.
    { rewrite Hheld. destruct (leads_exists u1 y Hok1) as [z Lz]. destruct (decide (link u1 y = 0)) as [Hl0|Hl0].
      - apply (L3 y y Hy). by apply leads_end.
      - destruct (map_ok_link u1 y Hok1 Hl0) as [_ Hh]. destruct (L4 y) as [->|[? _]]; done. }
    by rewrite F6, U6, Hf2.
Qed.
End Incoming.
