(* ===== verification/SentPacketRuns.v ===== *)
(** * Sent packets: runs of the manager

    The remaining operations of the manager preserve its invariant, so every state it
    can reach satisfies it; the alarm makes progress; its delays are bounded. *)

From stdpp Require Import gmap sorting.
From S2P Require Import Prelude Interval IntervalSet PacketNumberQueue PacketNumberQueueFacts PacketSet QuicTime ReceivedPacketManager QuicBandwidth QuicData Framer SequencerBuffer UnackedPacketMap UnackedFacts UnackedChains RttStats LossAlgorithm SentPacketManager SentPacketFacts.

(** Congestion control counts every packet with retransmittable data as in flight. *)
Class SenderLaws (E : Type) `{SentPacketEnv E} : Prop :=
  sender_tracks : forall paced u r sent_time bytes_in_flight packet_number bytes e,
    (sender_OnPacketSent paced u r sent_time bytes_in_flight packet_number bytes true e).1 = true.

(** ** Sending *)

(** A packet is sent as retransmittable if it, or the packet it repeats, holds frames. *)
Definition data_flag_ok (u : QuicUnackedPacketMap) (p : SerializedPacket) (old : Z) (has_retransmittable_data : bool) : Prop :=
  (if old =? 0 then sp_retransmittable_frames p else held u old) <> [] -> has_retransmittable_data = true.

Lemma pend_ok_added u l p old fl u' : pend_ok u l -> send_ok u p old -> added u p old fl u' -> data_flag_ok u p old fl ->
  pend_ok u' (if negb (old =? 0) then pending_erase l old else l).
Proof.
  intros [P1 P2 P3 P4 P5] [S1 S2 S3 S4] A Hfl. destruct A as [A1 A2 A3 A4 A5 A6 A7 A8 A9 A10].
  assert (forall q, held u q <> [] -> q <> sp_packet_number p) as Hfresh by (intros q Hq ->; pose proof (held_inside _ _ Hq P1); lia).
  assert (forall q t, (q, t) ∈ (if negb (old =? 0) then pending_erase l old else l) <-> (q, t) ∈ l /\ (old <> 0 -> q <> old)) as Hin.
  { intros q t. case_if; bool_to_prop; [rewrite pending_erase_elem; tauto|]. split; [split; [done|lia]|tauto]. }
  assert (forall q, (q =? old) = true -> old = 0 -> held u q = []) as Hzero.
  { intros q ->%Z.eqb_eq ->. by apply views_zero. }
  split; try done.
  - intros q t [Hq Hne]%Hin. pose proof (P2 q t Hq) as Hh. rewrite A8, (proj2 (Z.eqb_neq _ _) (Hfresh q Hh)).
    destruct (q =? old) eqn:He; [|done]. destruct (decide (old = 0)) as [Hz|Hz]; [by rewrite (Hzero q He Hz) in Hh|]. bool_to_prop. by destruct (Hne Hz).
  - case_if; [by apply pending_erase_nodup|done].
  - intros q. rewrite A8, A9, pending_key. setoid_rewrite Hin. case_if; [intros Hq; left; by apply Hfl|].
    destruct (q =? old) eqn:He; [done|]. intros Hq. destruct (P4 q Hq) as [Hf|[t Ht]%pending_key]; [by left|right]. exists t. split; [done|]. intros _. blia.
  - intros q [Hq _]%Hin. rewrite A9, (proj2 (Z.eqb_neq _ _) (Hfresh q (P2 _ _ Hq))). by apply P5.
Qed.

Section Sending.
Context {E : Type} `{SentPacketEnv E} `{!SenderLaws E}.

Lemma OnPacketSent_ok m e p old time type has : sent_ok m -> send_ok (spm_unacked_packets_ m) p old -> data_flag_ok (spm_unacked_packets_ m) p old has ->
  exists m' e' fl, OnPacketSent m e p old time type has = Some (m', e', fl) /\ sent_ok m' /\
  added (spm_unacked_packets_ m) p old fl (spm_unacked_packets_ m') /\ (has = true -> fl = true) /\
  pending_retransmissions_ m' = (if negb (old =? 0) then pending_erase (pending_retransmissions_ m) old else pending_retransmissions_ m) /\
  timer_count m' = (if timer_count m >? 0 then timer_count m - 1 else timer_count m).
Proof.
  intros (Hc & Ha & Hl) Hs Hd. unfold OnPacketSent. set (u := spm_unacked_packets_ m) in *. cbn zeta.
  match goal with |- context [sender_OnPacketSent _ (spm_unacked_packets_ ?x)] => set (m1 := x) end.
  assert (spm_unacked_packets_ m1 = u /\ pending_retransmissions_ m1 = (if negb (old =? 0) then pending_erase (pending_retransmissions_ m) old else pending_retransmissions_ m) /\
    loss_algorithm_ m1 = loss_algorithm_ m /\ spm_acks m1 = spm_acks m /\ packets_acked_ m1 = [] /\ packets_lost_ m1 = [] /\
    timer_count m1 = (if timer_count m >? 0 then timer_count m - 1 else timer_count m)) as (-> & Y2 & Y3 & Y4 & Y5 & Y6 & Y7).
  { unfold m1. by destruct (negb (old =? 0)), (timer_count m >? 0) eqn:Ht; simpl; rewrite ?Ht. }
  clearbody m1. pose proof (sender_tracks (using_pacing_ (spm_options m1)) u (rtt_stats_ m1) time (bytes_in_flight_ u) (sp_packet_number p) (sp_encrypted_length p) e) as Htr.
  destruct (sender_OnPacketSent _ _ _ _ _ _ _ has e) as [fl e1] eqn:Hsend.
  assert (has = true -> fl = true) as Hfl by (intros ->; by rewrite Hsend in Htr).
  destruct (AddSentPacket_added u e1 p old type time fl (po_map _ _ (co_pend _ Hc)) Hs) as (u' & e' & R & A). rewrite R. cbn [mbind option_bind].
  eexists _, _, _. split; [done|]. split; [|done]. split; [|done]. destruct Hc as [C1 C2 C3 C4]. split; simpl.
  - rewrite Y2. apply (pend_ok_added u _ p old fl); try done. intros Hne. by apply Hfl, Hd.
  - by rewrite Y3.
  - rewrite Y4, (ad_sent _ _ _ _ _ A). destruct Hs as [S1 _ _ _]. fold u in C3. lia.
  - by rewrite Y5.
Qed.
End Sending.

(** ** Marking packets *)

(** Packets were marked for retransmission, some packets left flight, no frames moved. *)
Record marked (m m' : QuicSentPacketManager) : Prop := {
  mk_core : core m';
  mk_frame : same_frame (spm_unacked_packets_ m) (spm_unacked_packets_ m');
  mk_least : least_unacked_ (spm_unacked_packets_ m') = least_unacked_ (spm_unacked_packets_ m);
  mk_held : forall q, held (spm_unacked_packets_ m') q = held (spm_unacked_packets_ m) q;
  mk_crypto : forall q, crypto_at (spm_unacked_packets_ m') q = crypto_at (spm_unacked_packets_ m) q;
  mk_flying : forall q, flying (spm_unacked_packets_ m') q = true -> flying (spm_unacked_packets_ m) q = true;
  mk_pending : exists k, pending_retransmissions_ m' = pending_retransmissions_ m ++ k;
  mk_acked : packets_acked_ m' = packets_acked_ m;
  mk_lost : packets_lost_ m' = packets_lost_ m }.
Lemma marked_refl m : core m -> marked m m.
Proof. intros Hc. split; try done. exists []. by rewrite app_nil_r. Qed.
Lemma marked_trans m1 m2 m3 : marked m1 m2 -> marked m2 m3 -> marked m1 m3.
Proof.
  intros [A1 A2 A3 A4 A5 A6 [k A7] A8 A9] [B1 B2 B3 B4 B5 B6 [j B7] B8 B9].
  split; [done|by transitivity (spm_unacked_packets_ m2)|congruence|intros q; by rewrite B4|intros q; by rewrite B5|auto| |congruence..].
  exists (k ++ j). by rewrite B7, A7, app_assoc.
Qed.
Lemma marked_key m m' q : marked m m' -> q ∈ map fst (pending_retransmissions_ m) -> q ∈ map fst (pending_retransmissions_ m').
Proof. intros M Hq. destruct (mk_pending _ _ M) as [k ->]. rewrite map_app. set_solver. Qed.

Lemma MarkForRetransmission_marked m pn type : core m -> held (spm_unacked_packets_ m) pn <> [] -> exists m',
  MarkForRetransmission m pn type = Some m' /\ marked m m' /\ pn ∈ map fst (pending_retransmissions_ m') /\ spm_timers m' = spm_timers m /\
  spm_options m' = spm_options m /\ (removes type = true -> flying (spm_unacked_packets_ m') pn = false) /\
  (forall q, q <> pn -> flying (spm_unacked_packets_ m') q = flying (spm_unacked_packets_ m) q).
Proof.
  intros Hc Hpn. destruct (MarkForRetransmission_ok m pn type Hc Hpn) as (u' & l' & R1 & R2 & R3 & R4 & R5).
  exists (with_data m u' l'). split; [done|]. split; [|split; [|split; [done|split; [done|split]]]]; simpl.
  - split; simpl; try done; try apply R5.
    + intros q. rewrite (ac_flying _ _ _ _ _ R5). by case_if.
    + rewrite R4. case_if; [exists []; by rewrite app_nil_r|by eexists].
  - rewrite R4. case_if; [by apply pending_contains_key|]. rewrite map_app. apply elem_of_app. right. by left.
  - intros Hr. by rewrite (ac_flying _ _ _ _ _ R5), Hr, Z.eqb_refl.
  - intros q Hq. by rewrite (ac_flying _ _ _ _ _ R5), (proj2 (Z.eqb_neq _ _) Hq), andb_false_r.
Qed.

Lemma core_timers m t : core m -> core (spm_set_timers m t).
Proof. intros []. by split. Qed.
Lemma marked_timers m m' t : marked m m' -> marked m (spm_set_timers m' t).
Proof. intros [A1 A2 A3 A4 A5 A6 A7 A8 A9]. split; try done. by apply core_timers. Qed.

(** The loops go over the packets [pn], ..., [pn + n - 1]. *)
Definition window (m : QuicSentPacketManager) (pn : Z) (n : nat) : Prop :=
  least_unacked_ (spm_unacked_packets_ m) <= pn /\ pn + Z.of_nat n = largest_sent_packet_ (spm_unacked_packets_ m) + 1.
Lemma window_next m m' pn n : window m pn (S n) -> marked m m' -> window m' (pn + 1) n.
Proof. intros [H1 H2] M. unfold window. rewrite (mk_least _ _ M), (sf_largest_sent _ _ (mk_frame _ _ M)). lia. Qed.
Lemma window_start m : core m -> window m (spm_GetLeastUnacked m) (packet_count m).
Proof.
  intros Hc. pose proof (po_map _ _ (co_pend _ Hc)) as [_ He]. unfold window, spm_GetLeastUnacked, GetLeastUnacked, packet_count, end_packet in *. lia.
Qed.
Lemma window_entry m pn n : core m -> window m pn (S n) -> exists i, GetTransmissionInfo (spm_unacked_packets_ m) pn = Some i /\
  retransmittable_frames i = held (spm_unacked_packets_ m) pn /\ in_flight i = flying (spm_unacked_packets_ m) pn /\
  has_crypto_handshake i = crypto_at (spm_unacked_packets_ m) pn.
Proof.
  intros Hc [H1 H2]. destruct (map_ok_inside _ pn (po_map _ _ (co_pend _ Hc)) ltac:(lia)) as [i Hi]. exists i. split; [done|].
  by destruct (view_here _ _ _ Hi) as (-> & -> & ->).
Qed.
(** A statement about the rest of a window, split at its first packet. *)
Lemma from_next (P : Z -> Prop) pn : P pn -> (forall q, pn + 1 <= q -> P q) -> forall q, pn <= q -> P q.
Proof. intros H0 H1 q Hq. destruct (decide (q = pn)) as [->|]; [done|]. apply H1. lia. Qed.

Lemma RetransmitUnacked_loop_ok n m pn type : core m -> window m pn n -> removes type = true -> exists m',
  RetransmitUnacked_loop n m pn type = Some m' /\ marked m m' /\ spm_timers m' = spm_timers m /\
  (type = ALL_UNACKED_RETRANSMISSION -> forall q, pn <= q -> held (spm_unacked_packets_ m) q <> [] ->
     q ∈ map fst (pending_retransmissions_ m') /\ flying (spm_unacked_packets_ m') q = false).
Proof.
  revert m pn. induction n as [|n IH]; intros m pn Hc Hw Hr; cbn [RetransmitUnacked_loop].
  - exists m. split; [done|]. split; [by apply marked_refl|]. split; [done|]. intros _ q Hq Hh.
    pose proof (held_inside _ _ Hh (po_map _ _ (co_pend _ Hc))). destruct Hw. lia.
  - destruct (window_entry m pn n Hc Hw) as (i & Hi & V1 & V2 & V3). rewrite Hi. cbn [mbind option_bind]. rewrite V1.
    assert (exists m1, (if negb (bool_decide (held (spm_unacked_packets_ m) pn = [])) &&
                           (bool_decide (type = ALL_UNACKED_RETRANSMISSION) || bool_decide (encryption_level i = ENCRYPTION_INITIAL))
                        then MarkForRetransmission m pn type else Some m) = Some m1 /\ marked m m1 /\ spm_timers m1 = spm_timers m /\
      (type = ALL_UNACKED_RETRANSMISSION -> held (spm_unacked_packets_ m) pn <> [] ->
         pn ∈ map fst (pending_retransmissions_ m1) /\ flying (spm_unacked_packets_ m1) pn = false)) as (m1 & R1 & R2 & R3 & R4).
    { case_if.
      - apply andb_true_iff in E as [Hh%negb_true_iff%bool_decide_eq_false _].
        destruct (MarkForRetransmission_marked m pn type Hc Hh) as (m1 & S1 & S2 & S3 & S4 & _ & S5 & _). exists m1. split_and!; try done. intros _ _. split; [done|by apply S5].
      - exists m. split; [done|]. split; [by apply marked_refl|]. split; [done|]. intros -> Hh. by rewrite bool_decide_eq_false_2 in E. }
    rewrite R1. cbn [mbind option_bind]. destruct (IH m1 (pn + 1) (mk_core _ _ R2) (window_next _ _ _ _ Hw R2) Hr) as (m' & I1 & I2 & I3 & I4).
    exists m'. split; [done|]. split; [by eapply marked_trans|]. split; [congruence|]. intros Ht. refine (from_next _ pn _ _).
    + intros Hh. destruct (R4 Ht Hh) as [K1 K2]. split; [by apply (marked_key m1)|].
      destruct (flying (spm_unacked_packets_ m') pn) eqn:Hf; [|done]. by rewrite (mk_flying _ _ I2 _ Hf) in K2.
    + intros q Hq Hh. apply I4; try done. by rewrite (mk_held _ _ R2).
Qed.

Lemma RetransmitCrypto_loop_ok n m pn : core m -> window m pn n -> 0 <= timer_count m -> timer_count m + Z.of_nat n < 2 ^ 63 -> exists m',
  RetransmitCrypto_loop n m pn = Some m' /\ marked m m' /\ timer_count m <= timer_count m' <= timer_count m + Z.of_nat n /\
  (forall q, pn <= q -> held (spm_unacked_packets_ m) q <> [] -> flying (spm_unacked_packets_ m) q = true -> crypto_at (spm_unacked_packets_ m) q = true ->
     q ∈ map fst (pending_retransmissions_ m') /\ flying (spm_unacked_packets_ m') q = false /\ timer_count m < timer_count m').
Proof.
  revert m pn. induction n as [|n IH]; intros m pn Hc Hw Ht1 Ht2; cbn [RetransmitCrypto_loop].
  - exists m. split; [done|]. split; [by apply marked_refl|]. split; [lia|]. intros q Hq Hh.
    pose proof (held_inside _ _ Hh (po_map _ _ (co_pend _ Hc))). destruct Hw. lia.
  - destruct (window_entry m pn n Hc Hw) as (i & Hi & V1 & V2 & V3). rewrite Hi. cbn [mbind option_bind]. rewrite V1, V2, V3.
    destruct (negb (flying _ pn) || _ || _) eqn:Hskip.
    + destruct (IH m (pn + 1) Hc) as (m' & I1 & I2 & I3 & I4); [destruct Hw; split; lia|lia..|].
      exists m'. split; [done|]. split; [done|]. split; [lia|]. refine (from_next _ pn _ _); [|done]. intros Hh Hf Hcr.
      rewrite Hf, Hcr, bool_decide_eq_false_2 in Hskip by done. done.
    + apply orb_false_iff in Hskip as [[Hf%negb_false_iff Hh%bool_decide_eq_false]%orb_false_iff Hcr%negb_false_iff].
      destruct (MarkForRetransmission_marked m pn HANDSHAKE_RETRANSMISSION Hc Hh) as (m1 & S1 & S2 & S3 & S4 & _ & S5 & S6).
      rewrite S1. cbn [mbind option_bind]. set (m2 := set_timer_count m1 _). assert (marked m m2) as M2 by (by apply marked_timers).
      assert (timer_count m2 = timer_count m + 1) as Ht. { unfold m2. simpl. rewrite S4. apply u64_id. unfold is_u64. lia. }
      destruct (IH m2 (pn + 1) (mk_core _ _ M2) (window_next _ _ _ _ Hw M2)) as (m' & I1 & I2 & I3 & I4); [lia|lia|].
      exists m'. split; [done|]. split; [by eapply marked_trans|]. split; [lia|]. refine (from_next _ pn _ _).
      * intros _ _ _. split; [by apply (marked_key m2)|]. split; [|lia].
        destruct (flying (spm_unacked_packets_ m') pn) eqn:Hfl; [|done]. specialize (S5 eq_refl).
        pose proof (mk_flying _ _ I2 _ Hfl : flying (spm_unacked_packets_ m1) pn = true). congruence.
      * intros q Hq Hh' Hf' Hc'. destruct (I4 q Hq) as (K1 & K2 & K3); [by rewrite (mk_held _ _ M2)|by change (flying (spm_unacked_packets_ m1) q = true); rewrite S6; [done|lia]|by rewrite (mk_crypto _ _ M2)|].
        split_and!; try done. lia.
Qed.

Lemma TailLossProbe_loop_ok n m pn : core m -> window m pn n -> exists m' b,
  TailLossProbe_loop n m pn = Some (m', b) /\ marked m m' /\ timer_count m' = timer_count m /\
  (forall q, pn <= q -> held (spm_unacked_packets_ m) q <> [] -> flying (spm_unacked_packets_ m) q = true -> b = true) /\
  (b = true -> exists q, q ∈ map fst (pending_retransmissions_ m') /\ held (spm_unacked_packets_ m) q <> [] /\ flying (spm_unacked_packets_ m) q = true /\
     forall q', pn <= q' < q -> held (spm_unacked_packets_ m) q' = [] \/ flying (spm_unacked_packets_ m) q' = false).
Proof.
  revert m pn. induction n as [|n IH]; intros m pn Hc Hw; cbn [TailLossProbe_loop].
  - exists m, false. split; [done|]. split; [by apply marked_refl|]. split; [done|]. split; [|done]. intros q Hq Hh.
    pose proof (held_inside _ _ Hh (po_map _ _ (co_pend _ Hc))). destruct Hw. lia.
  - destruct (window_entry m pn n Hc Hw) as (i & Hi & V1 & V2 & V3). rewrite Hi. cbn [mbind option_bind]. rewrite V1, V2.
    destruct (negb (flying _ pn) || _) eqn:Hskip.
    + destruct (IH m (pn + 1) Hc) as (m' & b & I1 & I2 & I3 & I4 & I5); [destruct Hw; split; lia|].
      assert (held (spm_unacked_packets_ m) pn = [] \/ flying (spm_unacked_packets_ m) pn = false) as Hpn.
      { apply orb_true_iff in Hskip as [?%negb_true_iff|?%bool_decide_eq_true]; [by right|by left]. }
      exists m', b. split; [done|]. split; [done|]. split; [done|]. split.
      * refine (from_next _ pn _ _); [|done]. intros Hh Hf. destruct Hpn; congruence.
      * intros (q & K1 & K2 & K3 & K4)%I5. exists q. split_and!; try done. intros q' Hq'. destruct (decide (q' = pn)) as [->|]; [done|]. apply K4. lia.
    + apply orb_false_iff in Hskip as [Hf%negb_false_iff Hh%bool_decide_eq_false].
      destruct (MarkForRetransmission_marked m pn TLP_RETRANSMISSION Hc Hh) as (m1 & S1 & S2 & S3 & S4 & _ & _ & S6).
      rewrite S1. cbn [mbind option_bind]. exists m1, true. split; [done|]. split; [done|]. split; [by rewrite S4|]. split; [done|].
      intros _. exists pn. split_and!; try done. lia.
Qed.

Section Rto.
Context {E : Type} `{SentPacketEnv E}.

Lemma RetransmitRto_loop_ok n m e pn : core m -> window m pn n -> 0 <= timer_count m <= 2 -> exists m' e',
  RetransmitRto_loop n m e pn = Some (m', e') /\ marked m m' /\ timer_count m <= timer_count m' <= 2 /\
  (forall q, pn <= q -> held (spm_unacked_packets_ m) q <> [] -> 0 < timer_count m') /\
  (timer_count m < timer_count m' -> exists q, q ∈ map fst (pending_retransmissions_ m') /\ held (spm_unacked_packets_ m) q <> []).
Proof.
  revert m e pn. induction n as [|n IH]; intros m e pn Hc Hw Ht; cbn [RetransmitRto_loop].
  - exists m, e. split; [done|]. split; [by apply marked_refl|]. split; [lia|]. split; [|lia]. intros q Hq Hh.
    pose proof (held_inside _ _ Hh (po_map _ _ (co_pend _ Hc))). destruct Hw. lia.
  - destruct (window_entry m pn n Hc Hw) as (i & Hi & V1 & V2 & V3). rewrite Hi. cbn [mbind option_bind]. rewrite V1.
    match goal with |- context [if negb ?c && ?d then ?x else ?y] => set (step1 := if negb c && d then x else y) end.
    assert (exists m1, step1 = Some m1 /\ marked m m1 /\ timer_count m <= timer_count m1 <= 2 /\
      (held (spm_unacked_packets_ m) pn <> [] -> 0 < timer_count m1) /\
      (timer_count m < timer_count m1 -> pn ∈ map fst (pending_retransmissions_ m1) /\ held (spm_unacked_packets_ m) pn <> [])) as (m1 & -> & R2 & R3 & R4 & R5).
    { unfold step1. case_if.
      - apply andb_true_iff in E0 as [Hh%negb_true_iff%bool_decide_eq_false Hlt%Z.ltb_lt]. unfold kMaxRetransmissionsOnTimeout in Hlt.
        destruct (MarkForRetransmission_marked m pn RTO_RETRANSMISSION Hc Hh) as (m1 & S1 & S2 & S3 & S4 & _ & _ & S6). rewrite S1. cbn [mbind option_bind].
        eexists. split; [done|]. split; [by apply marked_timers|].
        assert (timer_count m1 +64 1 = timer_count m + 1) as Hadd by (rewrite S4; apply u64_id; unfold is_u64; lia).
        simpl. rewrite Hadd. split; [lia|]. split; [lia|]. by intros _.
      - exists m. split; [done|]. split; [by apply marked_refl|]. split; [lia|]. split; [|lia]. intros Hh. rewrite bool_decide_eq_false_2 in E0 by done.
        cbn [negb andb] in E0. unfold kMaxRetransmissionsOnTimeout in E0. blia. }
    cbn [mbind option_bind]. destruct (window_entry m1 pn n (mk_core _ _ R2)) as (j & Hj & W1 & W2 & W3).
    { destruct Hw. unfold window. rewrite (mk_least _ _ R2), (sf_largest_sent _ _ (mk_frame _ _ R2)). lia. }
    rewrite Hj. cbn [mbind option_bind]. rewrite W1, W2.
    match goal with |- context [if ?c && (retransmission j =? 0) then ?x else ?y] => set (step2 := if c && (retransmission j =? 0) then x else y) end.
    assert (exists m2 e2, step2 = Some (m2, e2) /\ marked m1 m2 /\ timer_count m2 = timer_count m1) as (m2 & e2 & -> & R6 & R7).
    { unfold step2. case_if; [|exists m1, e; split; [done|]; split; [by apply marked_refl, R2|done]].
      apply andb_true_iff in E0 as [[Hz%bool_decide_eq_true Hf]%andb_true_iff _]. pose proof (mk_core _ _ R2) as Hc1. pose proof (po_map _ _ (co_pend _ Hc1)) as Hok1.
      destruct (RemoveFromInFlight_acts _ pn Hok1 (flying_inside _ _ Hf Hok1)) as (u' & F1 & F2 & F3). rewrite F1. cbn [mbind option_bind].
      eexists _, _. split; [done|]. split; [|done]. split; simpl; try done; try apply F3; [|intros q; rewrite (ac_flying _ _ _ _ _ F3); by case_if|exists []; by rewrite app_nil_r].
      apply (core_with_data m1 u' (pending_retransmissions_ m1)); [done| |by rewrite (sf_largest_sent _ _ (ac_frame _ _ _ _ _ F3))].
      apply (pend_ok_unflight (spm_unacked_packets_ m1) u' _ pn); try done; try apply F3. apply Hc1. }
    cbn [mbind option_bind]. assert (marked m m2) as M2 by (by eapply marked_trans).
    destruct (IH m2 e2 (pn + 1) (mk_core _ _ M2) (window_next _ _ _ _ Hw M2) ltac:(lia)) as (m' & e' & I1 & I2 & I3 & I4 & I5).
    exists m', e'. split; [done|]. split; [by eapply marked_trans|]. split; [lia|]. split.
    + refine (from_next _ pn _ _); [intros Hh; specialize (R4 Hh); lia|]. intros q Hq Hh. apply (I4 q Hq). by rewrite (mk_held _ _ M2).
    + intros Hlt. destruct (decide (timer_count m < timer_count m1)) as [H1|H1].
      * destruct (R5 H1) as [K1 K2]. exists pn. split; [|done]. apply (marked_key m2); [done|]. by apply (marked_key m1).
      * destruct (I5 ltac:(lia)) as (q & K1 & K2). exists q. split; [done|]. by rewrite (mk_held _ _ M2) in K2.
Qed.
End Rto.

(** ** Neutering and cancelling *)

(** The data of a manager changed; what it has to report and its alarm did not. *)
Record kept (m m' : QuicSentPacketManager) : Prop := {
  ke_core : core m';
  ke_frame : same_frame (spm_unacked_packets_ m) (spm_unacked_packets_ m');
  ke_least : least_unacked_ (spm_unacked_packets_ m') = least_unacked_ (spm_unacked_packets_ m);
  ke_timers : spm_timers m' = spm_timers m;
  ke_acked : packets_acked_ m' = packets_acked_ m;
  ke_lost : packets_lost_ m' = packets_lost_ m }.
Lemma kept_refl m : core m -> kept m m.
Proof. intros. by split. Qed.
Lemma kept_trans m1 m2 m3 : kept m1 m2 -> kept m2 m3 -> kept m1 m3.
Proof. intros [] []. split; try congruence. by transitivity (spm_unacked_packets_ m2). Qed.

Lemma Neuter_one m pn : core m -> held (spm_unacked_packets_ m) pn <> [] -> exists m',
  (let m := spm_set_pending m (pending_erase (pending_retransmissions_ m) pn) in
   let* u := RemoveFromInFlight (spm_unacked_packets_ m) pn in let* u := RemoveRetransmittability u pn in Some (spm_set_unacked m u)) = Some m' /\ kept m m' /\
  (forall q, held (spm_unacked_packets_ m') q = if q =? pn then [] else held (spm_unacked_packets_ m) q) /\
  flying (spm_unacked_packets_ m') pn = false.
Proof.
  intros Hc Hh. set (u := spm_unacked_packets_ m) in *. pose proof (po_map _ _ (co_pend _ Hc)) as Hok. fold u in Hok. cbn zeta.
  change (spm_unacked_packets_ (spm_set_pending m _)) with u.
  destruct (RemoveFromInFlight_acts u pn Hok (held_inside _ _ Hh Hok)) as (u1 & R1 & R2 & R3). rewrite R1. cbn [mbind option_bind].
  pose proof (ac_ok _ _ _ _ _ R3) as Hok1. assert (held u1 pn <> []) as Hh1 by (by rewrite (ac_held _ _ _ _ _ R3)).
  destruct (map_ok_inside u1 pn Hok1 (held_inside _ _ Hh1 Hok1)) as [i Hi]. destruct (view_here u1 pn i Hi) as (V1 & _ & _).
  destruct (eo_framed _ _ _ (map_ok_entry u1 pn i Hok1 Hi) ltac:(by rewrite <-V1)) as [_ Hz].
  destruct (RemoveRetransmittability_here (length (unacked_packets_ u1)) u1 pn i Hok1 Hi Hz) as (u2 & S1 & S2 & S3).
  fold (RemoveRetransmittability u1 pn) in S1. rewrite S1. cbn [mbind option_bind]. eexists. split; [done|].
  assert (forall q, held u2 q = if q =? pn then [] else held u q) as Hheld.
  { intros q. rewrite (ac_held _ _ _ _ _ S3). case_if; [done|]. apply R3. }
  assert (forall q, flying u2 q = if q =? pn then false else flying u q) as Hfly by (intros q; by rewrite (ac_flying _ _ _ _ _ S3), (ac_flying _ _ _ _ _ R3)).
  assert (same_frame u u2) as Hsf by (transitivity u1; [apply R3|apply S3]). split; [|split; [done|simpl; by rewrite Hfly, Z.eqb_refl]].
  split; try done; [|by simpl; rewrite S2].
  apply (core_with_data m u2 (pending_erase (pending_retransmissions_ m) pn)); [done| |by rewrite (sf_largest_sent _ _ Hsf)].
  apply (pend_ok_release u u2 _ pn (fun q => q =? pn)); try done; [apply Hc|apply S3|]. intros q Hq. left. blia.
Qed.

Lemma Neuter_loop_ok n m pn : core m -> window m pn n -> exists m', Neuter_loop n m pn = Some m' /\ kept m m'.
Proof.
  revert m pn. induction n as [|n IH]; intros m pn Hc Hw; cbn [Neuter_loop]; [exists m; split; [done|by apply kept_refl]|].
  destruct (window_entry m pn n Hc Hw) as (i & Hi & V1 & V2 & V3). rewrite Hi. cbn [mbind option_bind]. rewrite V1.
  match goal with |- context [if negb ?c && ?d then ?x else ?y] => set (step1 := if negb c && d then x else y) end.
  assert (exists m1, step1 = Some m1 /\ kept m m1) as (m1 & -> & K).
  { unfold step1. case_if; [|exists m; split; [done|by apply kept_refl]]. apply andb_true_iff in E as [Hh%negb_true_iff%bool_decide_eq_false _].
    destruct (Neuter_one m pn Hc Hh) as (m1 & N1 & N2 & _). by exists m1. }
  cbn [mbind option_bind]. destruct (IH m1 (pn + 1) (ke_core _ _ K)) as (m' & I1 & I2); [|exists m'; split; [done|by eapply kept_trans]].
  destruct Hw. unfold window. rewrite (ke_least _ _ K), (sf_largest_sent _ _ (ke_frame _ _ K)). lia.
Qed.

Lemma prune_pending_eq u l : map_ok u -> (forall q t, (q, t) ∈ l -> least_unacked_ u <= q <= largest_sent_packet_ u) ->
  prune_pending u l = Some (List.filter (fun p => negb (bool_decide (held u p.1 = []))) l).
Proof.
  intros Hok. induction l as [|[q t] l IH]; intros Hin; [done|]. cbn [prune_pending]. cbn [fst].
  rewrite HasRetransmittableFrames_held by (done || apply (Hin q t); by left). cbn [mbind option_bind].
  rewrite IH by (intros q' t' H'; apply (Hin q' t'); by right). done.
Qed.

Lemma filter_fst_nodup (f : Z * TransmissionType -> bool) l : NoDup (map fst l) -> NoDup (map fst (List.filter f l)).
Proof.
  induction l as [|p l IH]; simpl; [done|]. intros [Hp Hl]%NoDup_cons. case_if; [|by apply IH]. simpl. apply NoDup_cons. split; [|by apply IH].
  intros ([q t] & Hq & Hin)%list_elem_of_fmap. apply Hp. apply list_elem_of_fmap. exists (q, t). split; [done|].
  apply list_elem_of_In in Hin. apply filter_In in Hin as [Hin _]. by apply list_elem_of_In.
Qed.

Section Cancel.
Context {E : Type} `{SentPacketEnv E}.

Lemma spm_CancelRetransmissionsForStream_ok m e stream_id : core m -> exists m' e',
  spm_CancelRetransmissionsForStream m e stream_id = Some (m', e') /\ kept m m' /\
  (forall q, held (spm_unacked_packets_ m') q = RemoveFramesForStream (held (spm_unacked_packets_ m) q) stream_id).
Proof.
  intros Hc. set (u := spm_unacked_packets_ m) in *. pose proof (co_pend _ Hc) as [P1 P2 P3 P4 P5]. fold u in P1, P2, P4, P5.
  destruct (CancelRetransmissionsForStream_acts u e stream_id P1) as (u' & e' & R1 & R2 & R3).
  unfold spm_CancelRetransmissionsForStream. fold u. rewrite R1. cbn [mbind option_bind]. set (l := pending_retransmissions_ m) in *.
  pose proof (ac_ok _ _ _ _ _ R3) as Hok'. pose proof (sf_largest_sent _ _ (ac_frame _ _ _ _ _ R3)) as Hs.
  rewrite prune_pending_eq; [|done|intros q t Hq; rewrite R2, Hs; apply held_inside; [by eapply P2|done]]. cbn [mbind option_bind].
  eexists _, _. split; [done|]. split; [|apply R3].
  assert (forall p, p ∈ List.filter (fun p => negb (bool_decide (held u' p.1 = []))) l <-> p ∈ l /\ held u' p.1 <> []) as Hin.
  { intros p. by rewrite list_elem_of_In, filter_In, <-list_elem_of_In, negb_true_iff, bool_decide_eq_false. }
  assert (forall q, held u' q <> [] -> held u q <> []) as Hback.
  { intros q. rewrite (ac_held _ _ _ _ _ R3). intros Hq Hz. by rewrite Hz in Hq. }
  split; try done; [|apply R3]. apply core_with_data; [done| |by rewrite Hs]. split; try done.
  - intros q t [_ Hq]%Hin. done.
  - by apply filter_fst_nodup.
  - intros q Hq. rewrite (ac_flying _ _ _ _ _ R3). destruct (P4 q (Hback q Hq)) as [Hf|[t Ht]%pending_key]; [by left|right].
    apply pending_key. exists t. by apply Hin.
  - intros q [Hq _]%Hin. rewrite (ac_flying _ _ _ _ _ R3). by apply P5.
Qed.
End Cancel.

(** ** The alarm fires *)

Definition run_ok (m : QuicSentPacketManager) : Prop := sent_ok m /\ 0 <= timer_count m < 2 ^ 63.

Lemma core_stats m s : core m -> core (spm_set_stats m s).
Proof. intros []. by split. Qed.
Lemma marked_stats m m' s : marked (spm_set_stats m s) m' -> marked m m'.
Proof. intros []. by split. Qed.
Lemma marked_from_timers m m' t : marked (spm_set_timers m t) m' -> marked m m'.
Proof. intros []. by split. Qed.

Lemma sent_ok_marked m m' : sent_ok m -> marked m m' -> sent_ok m'.
Proof. intros (_ & H1 & H2) M. split; [apply M|]. rewrite (mk_acked _ _ M), (mk_lost _ _ M). done. Qed.

Lemma packet_count_bound m : core m -> Z.of_nat (packet_count m) < 2 ^ 48.
Proof.
  intros Hc. pose proof (po_map _ _ (co_pend _ Hc)) as [[T1 T2 T3 _ _ _ _] He]. unfold packet_count, end_packet in *. lia.
Qed.

Section Alarm.
Context {E : Type} `{SentPacketEnv E}.

(** What the alarm achieves in each mode. *)
Definition alarm_progress (m m' : QuicSentPacketManager) : Prop :=
  match GetRetransmissionMode m with
  | HANDSHAKE_MODE =>
      forall q, held (spm_unacked_packets_ m) q <> [] -> flying (spm_unacked_packets_ m) q = true -> crypto_at (spm_unacked_packets_ m) q = true ->
        q ∈ map fst (pending_retransmissions_ m') /\ flying (spm_unacked_packets_ m') q = false /\ 0 < timer_count m'
  | LOSS_MODE => timer_count m' = 0
  | TLP_MODE =>
      timer_count m' = 1 /\ exists m'' q, MaybeRetransmitTailLossProbe m' = Some (m'', true) /\ run_ok m'' /\
        q ∈ map fst (pending_retransmissions_ m'') /\ held (spm_unacked_packets_ m) q <> [] /\ flying (spm_unacked_packets_ m) q = true /\
        (forall q', q' < q -> held (spm_unacked_packets_ m) q' = [] \/ flying (spm_unacked_packets_ m) q' = false)
  | RTO_MODE =>
      timer_count m' <= 2 /\
      forall q, held (spm_unacked_packets_ m) q <> [] -> 0 < timer_count m' /\
        exists q', q' ∈ map fst (pending_retransmissions_ m') /\ held (spm_unacked_packets_ m) q' <> []
  end.

Lemma HasUnackedRetransmittableFrames_spec u : HasUnackedRetransmittableFrames u = true <-> exists q, held u q <> [] /\ flying u q = true.
Proof.
  unfold HasUnackedRetransmittableFrames. rewrite existsb_exists. split.
  - intros (i & Hi%list_elem_of_In & [Hf Hh]%andb_true_iff). destruct (elem_GetTransmissionInfo u i Hi) as [q Hq]. exists q.
    destruct (view_here u q i Hq) as (-> & -> & _). split; [|done]. by apply negb_true_iff, bool_decide_eq_false in Hh.
  - intros (q & Hh & Hf). unfold held, flying in *. destruct (GetTransmissionInfo u q) as [i|] eqn:Hi; [|done]. exists i.
    split; [apply list_elem_of_In; by eapply GetTransmissionInfo_elem|]. by rewrite Hf, bool_decide_eq_false_2.
Qed.

Lemma probe_ok m : run_ok m -> exists m' b, MaybeRetransmitTailLossProbe m = Some (m', b) /\ run_ok m' /\ marked m m' /\
  (timer_count m <> 0 -> (exists q, held (spm_unacked_packets_ m) q <> [] /\ flying (spm_unacked_packets_ m) q = true) -> b = true) /\
  (b = true -> exists q, q ∈ map fst (pending_retransmissions_ m') /\ held (spm_unacked_packets_ m) q <> [] /\ flying (spm_unacked_packets_ m) q = true /\
     forall q', q' < q -> held (spm_unacked_packets_ m) q' = [] \/ flying (spm_unacked_packets_ m) q' = false).
Proof.
  intros [Hs Ht]. pose proof (proj1 Hs) as Hc. unfold MaybeRetransmitTailLossProbe. case_if.
  - exists m, false. split; [done|]. split; [done|]. split; [by apply marked_refl|]. split; [blia|done].
  - destruct (TailLossProbe_loop_ok (packet_count m) m (spm_GetLeastUnacked m) Hc (window_start m Hc)) as (m' & b & R1 & R2 & R3 & R4 & R5).
    assert (forall q, held (spm_unacked_packets_ m) q <> [] -> spm_GetLeastUnacked m <= q) as Hge.
    { intros q Hq. by destruct (held_inside _ _ Hq (po_map _ _ (co_pend _ Hc))). }
    exists m', b. split; [done|]. split; [split; [by eapply sent_ok_marked|by rewrite R3]|]. split; [done|]. split.
    + intros _ (q & Hh & Hf). by apply (R4 q (Hge q Hh)).
    + intros (q & K1 & K2 & K3 & K4)%R5. exists q. split_and!; try done. intros q' Hq'.
      destruct (decide (spm_GetLeastUnacked m <= q')) as [|Hlt]; [apply K4; lia|]. left.
      destruct (decide (held (spm_unacked_packets_ m) q' = [])) as [|Hne]; [done|]. by destruct (Hlt (Hge q' Hne)).
Qed.

Lemma OnRetransmissionTimeout_ok m e : run_ok m -> timer_count m = 0 -> exists m' e',
  OnRetransmissionTimeout m e = Some (m', e') /\ run_ok m' /\ alarm_progress m m' /\
  same_frame (spm_unacked_packets_ m) (spm_unacked_packets_ m') /\ (forall q, held (spm_unacked_packets_ m') q = held (spm_unacked_packets_ m) q).
Proof.
  intros [Hs Ht] Hz. pose proof (proj1 Hs) as Hc. pose proof (packet_count_bound m Hc) as Hn. unfold OnRetransmissionTimeout, alarm_progress.
  assert (forall q, held (spm_unacked_packets_ m) q <> [] -> spm_GetLeastUnacked m <= q) as Hge.
  { intros q Hq. by destruct (held_inside _ _ Hq (po_map _ _ (co_pend _ Hc))). }
  destruct (GetRetransmissionMode m) eqn:Hmode.
  - unfold RetransmitRtoPackets. set (m1 := add_stats m _ _ _ _ _ _ _). assert (core m1) as Hc1 by (by apply core_stats).
    destruct (RetransmitRto_loop_ok (packet_count m1) m1 e (spm_GetLeastUnacked m1) Hc1 (window_start m1 Hc1)) as (m2 & e2 & R1 & R2 & R3 & R4 & R5); [change (timer_count m1) with (timer_count m); lia|].
    rewrite R1. cbn [mbind option_bind]. change (timer_count m1) with (timer_count m) in *. apply marked_stats in R2.
    match goal with |- context [if timer_count m2 >? 0 then Some ?x else ?y] => set (step := if timer_count m2 >? 0 then Some x else y) end.
    assert (exists t, step = Some (spm_set_timers m2 t, e2) /\ pending_timer_transmission_count_ t = timer_count m2) as (t & -> & Htt).
    { unfold step. case_if; [by eexists|]. exists (spm_timers m2). by destruct m2. }
    cbn [mbind option_bind]. assert (marked m (spm_set_timers m2 t)) as M by (by apply marked_timers).
    eexists _, _. split; [done|]. split; [split; [by eapply sent_ok_marked|simpl; rewrite Htt; lia]|]. split; [|split; [apply M|apply M]].
    split; [simpl; rewrite Htt; lia|]. intros q Hq. simpl. rewrite Htt. split; [by apply (R4 q (Hge q Hq))|].
    destruct R5 as (q' & K1 & K2); [pose proof (R4 q (Hge q Hq) Hq); lia|]. by exists q'.
  - eexists _, _. split; [done|]. set (m1 := spm_set_timers _ _).
    assert (marked m m1) as M by (apply marked_timers; apply marked_refl in Hc; by destruct Hc; split; try done; apply core_stats).
    assert (run_ok m1) as Hr1 by (split; [by eapply sent_ok_marked|simpl; lia]). split; [done|]. split; [|split; [apply M|apply M]]. split; [done|].
    destruct (probe_ok m1 Hr1) as (m'' & b & Q1 & Q2 & Q3 & Q4 & Q5).
    assert (HasUnackedRetransmittableFrames (spm_unacked_packets_ m) = true) as Hfr.
    { destruct (HasUnackedRetransmittableFrames _) eqn:Hx; [done|]. revert Hmode. unfold GetRetransmissionMode. rewrite Hx, andb_false_r. by repeat case_if. }
    apply HasUnackedRetransmittableFrames_spec in Hfr. assert (b = true) as -> by (by apply Q4). destruct (Q5 eq_refl) as (q & K1 & K2 & K3 & K4).
    exists m'', q. split_and!; done.
  - unfold RetransmitCryptoPackets. set (m1 := spm_set_timers _ _). assert (core m1) as Hc1 by (by apply core_timers, core_stats).
    destruct (RetransmitCrypto_loop_ok (packet_count m1) m1 (spm_GetLeastUnacked m1) Hc1 (window_start m1 Hc1)) as (m2 & R1 & R2 & R3 & R4);
      change (timer_count m1) with (timer_count m) in *; change (packet_count m1) with (packet_count m) in *; [lia|lia|].
    rewrite R1. cbn [mbind option_bind]. assert (marked m m2) as M by (apply marked_from_timers in R2; by apply marked_stats in R2).
    eexists _, _. split; [done|]. split; [split; [by eapply sent_ok_marked|lia]|]. split; [|split; [apply M|apply M]].
    intros q Hh Hf Hcr. destruct (R4 q (Hge q Hh) Hh Hf Hcr) as (K1 & K2 & K3). split_and!; try done. lia.
  - set (m1 := add_stats m _ _ _ _ _ _ _). destruct (InvokeLossDetection_ok m1 e (clock_Now e)) as (m2 & e2 & a & s & lost & R1 & R2 & R3 & R4 & R5 & R6 & R7 & R8);
      [by apply core_stats|apply Hs|]. rewrite R1. cbn [mbind option_bind].
    destruct (MaybeInvokeCongestionEvent_eq (spm_set_stats m2 s) e2 false (bytes_in_flight_ (spm_unacked_packets_ m1)) (clock_Now e)) as [e3 ->].
    eexists _, _. split; [done|]. destruct R2 as [U1 U2 U3 U4 U5 U6]. assert (timer_count m2 = timer_count m) as Htt by (by rewrite R7).
    split; [split; [split; [|done]|simpl; by rewrite Htt]|split; [simpl; by rewrite Htt|split; [apply U2|apply U4]]]. destruct U1; by split.
Qed.
End Alarm.
