(* ===== verification/SentPacketCorrect.v ===== *)
(** * Sent packets: correctness

    A program of the operations of the manager of sent packets, in any order, keeps the
    invariant of the other files: no frame is forgotten, an acknowledgement releases the
    frames it covers and no others, the alarm is set while there is something to
    retransmit and its expiry makes progress.  One corner where the alarm is not set is
    at the end. *)

From stdpp Require Import gmap sorting.
From S2P Require Import Prelude Interval IntervalSet IntervalSetFacts PacketNumberQueue PacketNumberQueueFacts PacketSet QuicTime ReceivedPacketManager QuicBandwidth QuicData Framer SequencerBuffer UnackedPacketMap UnackedFacts UnackedChains RttStats LossAlgorithm SentPacketManager SentPacketFacts SentPacketRuns.

Section Programs.
Context {E : Type} `{SentPacketEnv E} `{!SenderLaws E}.
Context {Q : Type} `{PacketSet Q} `{!PacketSetLaws Q}.
Context (handle_acks fix_adaptive_time_loss : bool).

Inductive sent_op :=
  | OpOnPacketSent (p : SerializedPacket) (original time : Z) (type : TransmissionType) (has_retransmittable_data : bool)
  | OpOnIncomingAck (ack : @QuicAckFrame Q) (time : Z)
  | OpOnRetransmissionTimeout
  | OpMaybeRetransmitTailLossProbe
  | OpRetransmitUnackedPackets (type : TransmissionType)
  | OpNeuterUnencryptedPackets
  | OpCancelStream (stream_id : Z)
  | OpOnConnectionMigration (type : PeerAddressChangeType)
  | OpSetHandshakeConfirmed
  | OpSetFromConfig (c : QuicConfig) (default_to_bbr enable_pcc disable_pacing : bool) (algorithm : E -> E)
  | OpSetStreamNotifier (notifier : bool)
  | OpSetNetworkChangeVisitor
  | OpSetDebugDelegate (delegate : bool)
  (** time passes, the congestion controller or a listener acts *)
  | OpEnvironment (f : E -> E).

(** How the connection calls the manager: packet numbers grow, retransmitted data is
    declared as such, the alarm fires only when no transmission of a previous expiry is
    outstanding, acknowledgement frames have a well-formed set of packets. *)
Definition sent_pre (m : QuicSentPacketManager) (op : sent_op) : Prop :=
  match op with
  | OpOnPacketSent p old _ _ has => send_ok (spm_unacked_packets_ m) p old /\ data_flag_ok (spm_unacked_packets_ m) p old has
  | OpOnIncomingAck ack _ => ps_ok (packets ack)
  | OpOnRetransmissionTimeout => timer_count m = 0
  | OpRetransmitUnackedPackets type => type = ALL_UNACKED_RETRANSMISSION \/ type = ALL_INITIAL_RETRANSMISSION
  | _ => True
  end.

Definition sent_exec (s : QuicSentPacketManager * E) (op : sent_op) : option (QuicSentPacketManager * E) :=
  let '(m, e) := s in
  match op with
  | OpOnPacketSent p old time type has => let* (m, e, _) := OnPacketSent m e p old time type has in Some (m, e)
  | OpOnIncomingAck ack time => OnIncomingAck handle_acks fix_adaptive_time_loss m e ack time
  | OpOnRetransmissionTimeout => OnRetransmissionTimeout m e
  | OpMaybeRetransmitTailLossProbe => let* (m, _) := MaybeRetransmitTailLossProbe m in Some (m, e)
  | OpRetransmitUnackedPackets type => let* m := RetransmitUnackedPackets m type in Some (m, e)
  | OpNeuterUnencryptedPackets => let* m := NeuterUnencryptedPackets m in Some (m, e)
  | OpCancelStream stream_id => spm_CancelRetransmissionsForStream m e stream_id
  | OpOnConnectionMigration type => Some (spm_OnConnectionMigration m e type)
  | OpSetHandshakeConfirmed => Some (SetHandshakeConfirmed m, e)
  | OpSetFromConfig c b1 b2 b3 f => Some (SetFromConfig m e c b1 b2 b3 f)
  | OpSetStreamNotifier b => Some (spm_SetStreamNotifier m b, e)
  | OpSetNetworkChangeVisitor => Some (SetNetworkChangeVisitor m, e)
  | OpSetDebugDelegate b => Some (SetDebugDelegate m b, e)
  | OpEnvironment f => Some (m, f e)
  end.

Inductive sent_reach (s : QuicSentPacketManager * E) : QuicSentPacketManager * E -> Prop :=
  | reach_start : sent_reach s s
  | reach_step t op t' : sent_reach s t -> sent_pre t.1 op -> sent_exec t op = Some t' -> sent_reach s t'.

Lemma run_ok_marked m m' : run_ok m -> marked m m' -> spm_timers m' = spm_timers m -> run_ok m'.
Proof. intros [H1 H2] M Ht. split; [by eapply sent_ok_marked|by rewrite Ht]. Qed.
Lemma run_ok_kept m m' : run_ok m -> kept m m' -> run_ok m'.
Proof. intros [(_ & H1 & H2) H3] []. split; [split; [done|split; congruence]|congruence]. Qed.

(** Operations that touch neither the packets nor what is pending. *)
Lemma run_ok_same m m' : run_ok m -> map_ok (spm_unacked_packets_ m') -> unacked_packets_ (spm_unacked_packets_ m') = unacked_packets_ (spm_unacked_packets_ m) ->
  least_unacked_ (spm_unacked_packets_ m') = least_unacked_ (spm_unacked_packets_ m) ->
  largest_sent_packet_ (spm_unacked_packets_ m') = largest_sent_packet_ (spm_unacked_packets_ m) ->
  pending_retransmissions_ m' = pending_retransmissions_ m -> 0 <= reordering_shift_ (loss_algorithm_ m') <= 4 ->
  largest_newly_acked_ (spm_acks m') = largest_newly_acked_ (spm_acks m) -> packets_acked_ m' = packets_acked_ m -> packets_lost_ m' = packets_lost_ m ->
  timer_count m' = timer_count m -> run_ok m'.
Proof.
  intros [(C & H1 & H2) H3] Hok U1 U2 U3 Hp Hs Hn Ha Hl Ht. destruct C as [C1 C2 C3 C4].
  split; [|by rewrite Ht]. split; [|by rewrite Ha, Hl]. split; rewrite ?Hp, ?Hn, ?Ha, ?U3; try done.
  apply (pend_ok_same (spm_unacked_packets_ m)); try done; intros q; unfold held, flying; by rewrite (views_ext _ (spm_unacked_packets_ m)).
Qed.

Lemma SetFromConfig_run_ok m e c b1 b2 b3 f : run_ok m -> run_ok (SetFromConfig m e c b1 b2 b3 f).1.
Proof.
  intros Hr. pose proof Hr as [(C & _ & _) _]. pose proof (po_map _ _ (co_pend _ C)) as Hok. pose proof (co_shift _ C) as Hshift.
  unfold SetFromConfig. cbn [fst].
  apply (run_ok_same m); try done; repeat case_if; repeat case_match; simpl; try done; try (vm_compute; intuition congruence).
Qed.

Lemma sent_exec_ok m e op : run_ok m -> sent_pre m op -> exists m' e', sent_exec (m, e) op = Some (m', e') /\ run_ok m'.
Proof.
  intros Hr Hpre. pose proof Hr as [(C & H1 & H2) H3]. pose proof (po_map _ _ (co_pend _ C)) as Hok.
  destruct op as [p old time type has|ack time| | |type| |id|type| |c b1 b2 b3 f|b| |b|f]; cbn [sent_exec sent_pre] in *.
  - destruct (OnPacketSent_ok m e p old time type has (proj1 Hr) (proj1 Hpre) (proj2 Hpre)) as (m' & e' & fl & R1 & R2 & _ & _ & _ & R3).
    rewrite R1. exists m', e'. split; [done|]. split; [done|]. rewrite R3. case_if; blia.
  - destruct (OnIncomingAck_ok handle_acks fix_adaptive_time_loss m e ack time (proj1 Hr) Hpre) as (m' & e' & d & R1 & R2 & R3).
    exists m', e'. split; [done|]. split; [done|]. by rewrite (ab_timer _ _ _ _ _ R3).
  - destruct (OnRetransmissionTimeout_ok m e Hr Hpre) as (m' & e' & R1 & R2 & _). by exists m', e'.
  - destruct (probe_ok m Hr) as (m' & b & R1 & R2 & _). rewrite R1. by exists m', e.
  - destruct (RetransmitUnacked_loop_ok (packet_count m) m (spm_GetLeastUnacked m) type C (window_start m C)) as (m' & R1 & R2 & R3 & _); [by destruct Hpre; subst|].
    unfold RetransmitUnackedPackets. rewrite R1. exists m', e. split; [done|]. by eapply run_ok_marked.
  - destruct (Neuter_loop_ok (packet_count m) m (spm_GetLeastUnacked m) C (window_start m C)) as (m' & R1 & R2).
    unfold NeuterUnencryptedPackets. rewrite R1. exists m', e. split; [done|]. by eapply run_ok_kept.
  - destruct (spm_CancelRetransmissionsForStream_ok m e id C) as (m' & e' & R1 & R2 & _). exists m', e'. split; [done|]. by eapply run_ok_kept.
  - destruct (spm_OnConnectionMigration m e type) as [m' e'] eqn:Hm. exists m', e'. split; [done|].
    assert (m' = (spm_OnConnectionMigration m e type).1) as -> by (by rewrite Hm). destruct type; cbn [spm_OnConnectionMigration fst]; try done;
      apply (run_ok_same m); try done; apply C.
  - exists (SetHandshakeConfirmed m), e. split; [done|]. apply (run_ok_same m); try done; apply C.
  - destruct (SetFromConfig m e c b1 b2 b3 f) as [m' e'] eqn:Hm. exists m', e'. split; [done|].
    assert (m' = (SetFromConfig m e c b1 b2 b3 f).1) as -> by (by rewrite Hm). by apply SetFromConfig_run_ok.
  - exists (spm_SetStreamNotifier m b), e. split; [done|]. apply (run_ok_same m); try done; [|apply C]. destruct Hok as [[] He]. split; [by split|done].
  - exists (SetNetworkChangeVisitor m), e. split; [done|]. apply (run_ok_same m); try done; apply C.
  - exists (SetDebugDelegate m b), e. split; [done|]. apply (run_ok_same m); try done; apply C.
  - by exists m, (f e).
Qed.

Lemma run_ok_new loss_type stats : run_ok (QuicSentPacketManager_new loss_type stats).
Proof.
  split; [|simpl; lia]. split; [|done]. split; simpl; try done; [|destruct loss_type; vm_compute; intuition congruence].
  split; try done; [apply map_ok_new|set_solver|constructor|intros q Hq|set_solver].
  destruct (held_inside _ _ Hq map_ok_new) as [Q1 Q2]. simpl in *. lia.
Qed.
Lemma sent_reach_ok s s' : run_ok s.1 -> sent_reach s s' -> run_ok s'.1.
Proof.
  intros Hs R. induction R as [|t op t' R IH Hpre Hex]; [done|]. destruct t as [m e]. destruct (sent_exec_ok m e op IH Hpre) as (m' & e' & Hm & Hr).
  rewrite Hm in Hex. by injection Hex as <-.
Qed.
Lemma reached_run_ok m e m' e' : run_ok m -> sent_reach (m, e) (m', e') -> run_ok m'.
Proof. intros Hm Hr. exact (sent_reach_ok (m, e) (m', e') Hm Hr). Qed.
End Programs.

(** ** Consequences of the invariant *)

Lemma flying_bytes u q : map_ok u -> flying u q = true -> HasInFlightPackets u = true.
Proof.
  intros [T _] Hf. unfold flying in Hf. destruct (GetTransmissionInfo u q) as [i|] eqn:Hi; [|done]. unfold HasInFlightPackets. apply Z.gtb_lt.
  rewrite (to_bytes _ _ _ T). pose proof (to_entries _ _ _ T q i Hi) as X. pose proof (eo_sent _ _ _ X (or_introl Hf)).
  enough (flight_bytes i <= total flight_bytes (unacked_packets_ u)) by (unfold flight_bytes in *; rewrite Hf in *; lia).
  apply total_member; [|by eapply GetTransmissionInfo_elem]. intros j (p & Hp)%elem_GetTransmissionInfo. by eapply entry_flight_bytes, (to_entries _ _ _ T).
Qed.

Lemma total_crypto_zero l : (forall i, i ∈ l -> has_crypto_handshake i = false) -> total crypto_weight l = 0.
Proof.
  induction l as [|i l IH]; intros Hl; [done|]. unfold total in *. simpl. rewrite IH by (intros; apply Hl; by right). unfold crypto_weight.
  rewrite (Hl i (list_elem_of_here _ _)). done.
Qed.
Lemma pending_crypto_exists u : map_ok u -> HasPendingCryptoPackets u = true -> exists q, crypto_at u q = true /\ held u q <> [].
Proof.
  intros [T _] Hp. unfold HasPendingCryptoPackets in Hp. apply Z.gtb_lt in Hp. rewrite (to_crypto _ _ _ T) in Hp.
  destruct (List.existsb has_crypto_handshake (unacked_packets_ u)) eqn:He.
  - apply existsb_exists in He as (i & Hi%list_elem_of_In & Hc). destruct (elem_GetTransmissionInfo u i Hi) as [q Hq]. exists q.
    destruct (view_here u q i Hq) as (-> & _ & ->). split; [done|]. by apply (to_entries _ _ _ T q i Hq).
  - rewrite total_crypto_zero in Hp; [lia|]. intros i Hi. destruct (has_crypto_handshake i) eqn:Hc; [|done].
    assert (List.existsb has_crypto_handshake (unacked_packets_ u) = true) by (apply existsb_exists; exists i; split; [by apply list_elem_of_In|done]). congruence.
Qed.

Lemma find_crypto_spec u l : map_ok u -> (forall q t, (q, t) ∈ l -> held u q <> []) -> exists r,
  find_crypto u l = Some r /\ match r with Some p => p ∈ l /\ crypto_at u p.1 = true | None => forall q t, (q, t) ∈ l -> crypto_at u q = false end.
Proof.
  intros Hok. induction l as [|[q t] l IH]; intros Hl; [exists None; split; [done|]; set_solver|]. cbn [find_crypto fst].
  assert (held u q <> []) as Hq by (apply (Hl q t); by left). destruct (map_ok_inside u q Hok (held_inside _ _ Hq Hok)) as [i Hi]. rewrite Hi.
  cbn [mbind option_bind]. destruct (view_here u q i Hi) as (_ & _ & V3). case_if; [exists (Some (q, t)); split; [done|]; split; [by left|cbn [fst]; by rewrite V3]|].
  destruct IH as (r & R1 & R2); [intros q' t' H'; apply (Hl q' t'); by right|]. exists r. split; [done|]. destruct r as [p|].
  - destruct R2. split; [by right|done].
  - intros q' t' [[= -> ->]|H']%elem_of_cons; [by rewrite V3|by eapply R2].
Qed.

(** The next packet to send again is one of those pending, a handshake packet if there is
    one, with its frames. *)
Lemma NextPendingRetransmission_spec m : core m -> pending_retransmissions_ m <> [] -> exists r,
  NextPendingRetransmission m = Some r /\ (pr_packet_number r, pr_transmission_type r) ∈ pending_retransmissions_ m /\
  pr_retransmittable_frames r = held (spm_unacked_packets_ m) (pr_packet_number r) /\ pr_retransmittable_frames r <> [] /\
  (forall q t, (q, t) ∈ pending_retransmissions_ m -> crypto_at (spm_unacked_packets_ m) q = true ->
     crypto_at (spm_unacked_packets_ m) (pr_packet_number r) = true).
Proof.
  intros Hc Hne. pose proof (co_pend _ Hc) as Hp. pose proof (po_map _ _ Hp) as Hok. set (u := spm_unacked_packets_ m) in *. set (l := pending_retransmissions_ m) in *.
  unfold NextPendingRetransmission. fold u l. destruct l as [|first l'] eqn:Hl; [done|]. cbn [head mbind option_bind]. rewrite <-Hl in *.
  destruct (find_crypto_spec u l Hok (po_frames _ _ Hp)) as (r & R1 & R2).
  set (crypto := if HasPendingCryptoPackets u then find_crypto u l else Some None).
  assert (exists r', crypto = Some r' /\ default first r' ∈ l /\ (forall q t, (q, t) ∈ l -> crypto_at u q = true -> crypto_at u (default first r').1 = true))
    as (r' & -> & K1 & K2).
  { unfold crypto. case_if.
    - exists r. split; [done|]. destruct r as [p|]; [by destruct R2|]. split; [rewrite Hl; by left|]. intros q t Hq Hcr. by rewrite (R2 q t Hq) in Hcr.
    - exists None. split; [done|]. split; [rewrite Hl; by left|]. intros q t Hq Hcr. exfalso. unfold crypto_at in Hcr.
      destruct (GetTransmissionInfo u q) as [i|] eqn:Hi; [|done]. destruct Hok as [T _].
      assert (crypto_weight i <= total crypto_weight (unacked_packets_ u)).
      { apply total_member; [intros; apply crypto_weight_bounds|by eapply GetTransmissionInfo_elem]. }
      unfold HasPendingCryptoPackets in E. rewrite (to_crypto _ _ _ T) in E. unfold crypto_weight in H at 1. rewrite Hcr in H. blia. }
  cbn [mbind option_bind]. destruct (default first r') as [q t]. pose proof (po_frames _ _ Hp q t K1) as Hq.
  destruct (map_ok_inside u q Hok (held_inside _ _ Hq Hok)) as [i Hi]. rewrite Hi. cbn [mbind option_bind]. destruct (view_here u q i Hi) as (V1 & _ & _).
  eexists. split; [done|]. simpl. rewrite <-V1. by split_and!.
Qed.

(** ** The theorems *)

Section Claims.
Context {E : Type} `{SentPacketEnv E} `{!SenderLaws E}.
Context {Q : Type} `{PacketSet Q} `{!PacketSetLaws Q}.
Context (handle_acks fix_adaptive_time_loss : bool).


(** C6: an acknowledgement releases the data it covers and no other.  Handling a frame that
    acknowledges packets succeeds.  There is a set of handled packets, all of them
    acknowledged by the frame and not above its largest observed packet (and, by default,
    all such packets that are in the map); they are no longer in flight, the frames of the
    newest transmission of each of them are gone, and the frames of every packet that is
    not the newest transmission of a handled packet are held as before. *)
Theorem ack_releases_exactly (m : QuicSentPacketManager) (e : E) (ack : @QuicAckFrame Q) (time : Z) : run_ok m -> ps_ok (packets ack) ->
  exists m' e' (handled : list Z), OnIncomingAck handle_acks fix_adaptive_time_loss m e ack time = Some (m', e') /\ run_ok m' /\
  (forall x, x ∈ handled -> x <= largest_observed ack /\ ps_mem x (packets ack) /\ flying (spm_unacked_packets_ m') x = false) /\
  (handle_acks = false -> forall x, least_unacked_ (spm_unacked_packets_ m) <= x <= largest_sent_packet_ (spm_unacked_packets_ m) ->
     x <= largest_observed ack -> ps_mem x (packets ack) -> x ∈ handled) /\
  (forall x q, x ∈ handled -> leads (spm_unacked_packets_ m) x q -> held (spm_unacked_packets_ m') q = []) /\
  (forall q, (forall x, x ∈ handled -> ~ leads (spm_unacked_packets_ m) x q) ->
     held (spm_unacked_packets_ m') q = held (spm_unacked_packets_ m) q).
Proof.
  intros [Hs Ht] Hps. destruct (OnIncomingAck_ok handle_acks fix_adaptive_time_loss m e ack time Hs Hps) as (m' & e' & d & R1 & R2 & [A1 A2 A3 A4 A5 A6 A7]).
  exists m', e', d. split; [done|]. split; [split; [done|by rewrite A2]|]. split; [|split; [exact A4|split; [exact A5|]]].
  - intros x Hx. destruct (A3 x Hx). split; [done|]. split; [done|]. by apply A7.
  - intros q Hq. destruct (A6 q) as [Hk|[_ (x & Hx & L)]]; [done|]. by destruct (Hq x Hx).
Qed.

End Claims.

(** ** The delays of the alarm *)

(** Round trip times below 2^40 microseconds (twelve days). *)
Record rtt_sane (r : RttStats) : Prop := {
  rs_smoothed : 0 <= smoothed_rtt_ r < 2 ^ 40;
  rs_deviation : 0 <= mean_deviation_ r < 2 ^ 40;
  rs_initial : 0 < initial_rtt_us_ r < 2 ^ 40 }.

Lemma smoothed_or_initial_sane m : rtt_sane (rtt_stats_ m) -> 0 < smoothed_or_initial m < 2 ^ 40.
Proof. intros []. unfold smoothed_or_initial, Delta_IsZero, Delta_FromMicroseconds. case_if; blia. Qed.
Lemma FromMilliseconds_exact ms : 0 <= ms < 2 ^ 50 -> Delta_FromMilliseconds ms = ms * 1000.
Proof. intros. apply i64_id. unfold is_i64. lia. Qed.
Lemma ToMilliseconds_bounds x : 0 <= x < 2 ^ 40 -> 0 <= Delta_ToMilliseconds x < 2 ^ 40.
Proof. intros. unfold Delta_ToMilliseconds. rewrite Z.quot_div_nonneg by lia. split; [apply Z.div_pos; lia|]. apply Z.div_lt_upper_bound; lia. Qed.
Lemma double_mul_trunc_bounds x k : 0 <= x < 2 ^ 40 -> 0 <= k < 8 -> 0 <= double_mul_trunc x k 1 < 2 ^ 43.
Proof.
  intros Hx Hk. unfold double_mul_trunc, double_bits. rewrite (round_to_small 53 x), (round_to_small 53 (x * k)) by nia.
  change (2 ^ 1) with 2. rewrite Z.quot_div_nonneg by nia. assert (0 <= x * k / 2 < 2 ^ 43) by (split; [apply Z.div_pos; nia|apply Z.div_lt_upper_bound; nia]).
  rewrite i64_id; [done|]. unfold is_i64. lia.
Qed.

Lemma rto_base_bounds r : rtt_sane r ->
  let base := if Delta_IsZero (smoothed_rtt_ r) then Delta_FromMilliseconds kDefaultRetransmissionTimeMs
              else let delay := Delta_add (smoothed_rtt_ r) (Delta_mul_int (mean_deviation_ r) 4) in
                   if Delta_ToMilliseconds delay <? kMinRetransmissionTimeMs then Delta_FromMilliseconds kMinRetransmissionTimeMs else delay in
  200000 <= base < 2 ^ 43.
Proof.
  intros [H1 H2 _]. cbn zeta. unfold kDefaultRetransmissionTimeMs, kMinRetransmissionTimeMs. rewrite !FromMilliseconds_exact by lia.
  case_if; [lia|]. unfold Delta_mul_int. rewrite (i64_id (_ * 4)) by (unfold is_i64; lia). unfold Delta_add. rewrite i64_id by (unfold is_i64; lia).
  unfold Delta_ToMilliseconds. rewrite Z.quot_div_nonneg by lia. case_if; [lia|]. bool_to_prop.
  assert (1000 * ((smoothed_rtt_ r + mean_deviation_ r * 4) / 1000) <= smoothed_rtt_ r + mean_deviation_ r * 4) by (apply Z.mul_div_le; lia). lia.
Qed.

Lemma GetRetransmissionDelay_bounds m : rtt_sane (rtt_stats_ m) -> 0 <= consecutive_rto_count_ (spm_timers m) ->
  200000 <= GetRetransmissionDelay m < 60001000.
Proof.
  intros Hs Hn. pose proof (rto_base_bounds _ Hs) as Hb. unfold GetRetransmissionDelay. cbn zeta in *.
  set (base := if Delta_IsZero _ then _ else _) in *. set (k := Z.min _ kMaxRetransmissions).
  assert (0 <= k <= 10) as Hk by (unfold k, kMaxRetransmissions; lia). assert (1 <= Z.shiftl 1 k <= 1024) as Hsh.
  { rewrite Z.shiftl_1_l. split; [pose proof (Z.pow_pos_nonneg 2 k); lia|]. change 1024 with (2 ^ 10). apply Z.pow_le_mono_r; lia. }
  unfold Delta_mul_int. rewrite (i64_id (base * _)) by (unfold is_i64; nia). unfold kMaxRetransmissionTimeMs. rewrite FromMilliseconds_exact by lia.
  unfold Delta_ToMilliseconds. rewrite Z.quot_div_nonneg by nia. case_if; [lia|]. bool_to_prop. split; [nia|].
  pose proof (Z.mul_succ_div_gt (base * Z.shiftl 1 k) 1000). lia.
Qed.

Lemma GetTailLossProbeDelay_bound m : rtt_sane (rtt_stats_ m) -> 10000 <= GetTailLossProbeDelay m.
Proof.
  intros Hs. pose proof (smoothed_or_initial_sane m Hs) as Hsrtt. unfold GetTailLossProbeDelay. set (srtt := smoothed_or_initial m) in *.
  pose proof (ToMilliseconds_bounds srtt ltac:(lia)) as Hms. unfold kMinTailLossProbeTimeoutMs, kMinRetransmissionTimeMs. case_if.
  - pose proof (double_mul_trunc_bounds (Delta_ToMilliseconds srtt) 1 Hms ltac:(lia)). rewrite FromMilliseconds_exact; lia.
  - case_if.
    + unfold Delta_max, Delta_ltb, Delta_mul_int, Delta_add. rewrite Delta_mul_double_exact by lia. rewrite (FromMilliseconds_exact (200 / 2)) by (vm_compute; intuition congruence).
      change (200 / 2 * 1000) with 100000. change (2 ^ (1 + 1)) with 4. change (2 ^ 1) with 2.
      assert (0 <= (2 * (srtt * 3) + 2) / 4 < 2 ^ 45) by (split; [apply Z.div_pos; lia|apply Z.div_lt_upper_bound; lia]).
      rewrite !i64_id by (unfold is_i64; lia). case_if; blia.
    + rewrite (i64_id (2 * _)) by (unfold is_i64; lia). rewrite FromMilliseconds_exact; lia.
Qed.

Lemma GetCryptoRetransmissionDelay_bound m : rtt_sane (rtt_stats_ m) -> 0 <= consecutive_crypto_retransmission_count_ (spm_timers m) <= 6 ->
  10000 <= GetCryptoRetransmissionDelay m.
Proof.
  intros Hs Hn. pose proof (smoothed_or_initial_sane m Hs) as Hsrtt. unfold GetCryptoRetransmissionDelay. set (srtt := smoothed_or_initial m) in *.
  pose proof (ToMilliseconds_bounds srtt ltac:(lia)) as Hms. pose proof (double_mul_trunc_bounds (Delta_ToMilliseconds srtt) 3 Hms ltac:(lia)) as Hd.
  set (delay := if conservative_handshake_retransmits_ _ then _ else _). assert (10 <= delay < 2 ^ 43) as Hdelay.
  { unfold delay, kConservativeMinHandshakeTimeoutMs, kMaxDelayedAckTimeMs, kMinHandshakeTimeoutMs. rewrite (i64_id (2 * _)) by (unfold is_i64; lia). case_if; lia. }
  rewrite Z.shiftl_mul_pow2 by lia. set (k := consecutive_crypto_retransmission_count_ _) in *.
  assert (1 <= 2 ^ k <= 64) by (split; [pose proof (Z.pow_pos_nonneg 2 k); lia|change 64 with (2 ^ 6); apply Z.pow_le_mono_r; lia]).
  rewrite (i64_id (delay * _)) by (unfold is_i64; nia). rewrite FromMilliseconds_exact by nia. nia.
Qed.

(** The delays of the alarm are bounded.  For round trip times below twelve days, the
    retransmission timeout is at least 200 milliseconds and at most one minute (rounded
    down to the millisecond) however often it has fired, the delay of a tail loss probe is
    at least 10 milliseconds, and so is the delay of a handshake retransmission in the
    first six doublings; none of the computations overflows. *)
Lemma alarm_delays_bounded (m : QuicSentPacketManager) : rtt_sane (rtt_stats_ m) -> 0 <= consecutive_rto_count_ (spm_timers m) ->
  0 <= consecutive_crypto_retransmission_count_ (spm_timers m) <= 6 ->
  200000 <= GetRetransmissionDelay m < 60001000 /\ 10000 <= GetTailLossProbeDelay m /\ 10000 <= GetCryptoRetransmissionDelay m.
Proof.
  intros H1 H2 H3. split; [by apply GetRetransmissionDelay_bounds|]. split; [by apply GetTailLossProbeDelay_bound|by apply GetCryptoRetransmissionDelay_bound].
Qed.

(** ** A concrete environment *)

(** The state of the environment is the time; congestion control counts the packets with
    data and never blocks. *)
#[local] Instance clock_notifier : StreamNotifierInterface Z :=
  {| OnStreamFrameAcked := fun _ _ e => e; OnStreamFrameRetransmitted := fun _ e => e; OnStreamFrameDiscarded := fun _ e => e;
     OnPacketAcked := fun _ _ _ e => e; OnPacketRetransmitted := fun _ _ e => e |}.
#[local] Instance clock_env : SentPacketEnv Z :=
  {| spe_notifier := clock_notifier;
     sender_OnCongestionEvent := fun _ _ _ _ _ _ _ _ e => e;
     sender_OnPacketSent := fun _ _ _ _ _ _ _ has e => (has, e);
     sender_TimeUntilSend := fun _ _ _ _ _ e => (0, e);
     algorithm_OnRetransmissionTimeout := fun _ _ _ e => e; algorithm_OnConnectionMigration := fun _ _ e => e;
     algorithm_SetNumEmulatedConnections := fun _ e => e; algorithm_AdjustNetworkParameters := fun _ _ _ _ e => e;
     algorithm_OnApplicationLimited := fun _ _ _ e => e; algorithm_InRecovery := fun _ _ _ => false; algorithm_InSlowStart := fun _ _ _ => true;
     algorithm_BandwidthEstimate := fun _ _ _ => 0; algorithm_GetCongestionWindow := fun _ _ _ => 14600;
     algorithm_GetSlowStartThreshold := fun _ _ _ => 14600; create_send_algorithm := fun _ e => e; pacing_set_max_pacing_rate := fun _ e => e;
     visitor_OnCongestionChange := fun e => e; visitor_OnPathDegrading := fun e => e; visitor_OnPathMtuIncreased := fun _ e => e;
     delegate_OnSpuriousPacketRetransmission := fun _ _ e => e; delegate_OnIncomingAck := fun _ _ _ _ e => e;
     delegate_OnPacketLoss := fun _ _ _ e => e; clock_Now := fun e => e; clock_ApproximateNow := fun e => e; clock_WallNow := fun e => e |}.
#[local] Instance clock_laws : SenderLaws Z.
Proof. done. Qed.
#[local] Instance example_queue : PacketSet PacketNumberQueue := PacketNumberQueue_set true.
#[local] Instance example_queue_laws : PacketSetLaws PacketNumberQueue := PacketNumberQueue_laws true.

(** A packet of 1000 bytes with data of stream 5. *)
Definition data_packet (pn : Z) : SerializedPacket :=
  MkSerialized pn 1 1000 ENCRYPTION_FORWARD_SECURE false 0 0 [StreamFrame (MkStreamFrame 5 false 100 [] (100 * pn))] [].
Definition new_manager : QuicSentPacketManager := QuicSentPacketManager_new kNack (MkSentStats 0 0 0 0 0 0 0).
Definition send_data (pn : Z) : @sent_op Z PacketNumberQueue := OpOnPacketSent (data_packet pn) 0 (1000 * pn) NOT_RETRANSMISSION true.
Definition ack_of (l : list Z) (largest : Z) : option (@QuicAckFrame PacketNumberQueue) :=
  let* q := foldl (fun r pn => let* q := r in ps_add q pn) (Some ps_new) l in Some (MkQuicAckFrame largest 0 [] q).
Definition sent_run (s : QuicSentPacketManager * Z) (ops : list (@sent_op Z PacketNumberQueue)) : option (QuicSentPacketManager * Z) :=
  foldl (fun r op => let* s := r in sent_exec false false s op) (Some s) ops.

(** The manager after packets 1, ..., [n]. *)
Definition after (n : Z) : QuicSentPacketManager * Z := default (new_manager, 5000) (sent_run (new_manager, 5000) (map send_data (seqZ 1 n))).
Definition three_sent : QuicSentPacketManager := (after 3).1.

Lemma send_data_pre m pn : largest_sent_packet_ (spm_unacked_packets_ m) < pn < 2 ^ 48 -> sent_pre m (send_data pn).
Proof. intros Hpn. split; [split; simpl; try lia; done|done]. Qed.

Lemma three_sent_reached : sent_reach false false (Q := PacketNumberQueue) (new_manager, 5000) (three_sent, 5000).
Proof.
  apply (reach_step _ _ _ (after 2) (send_data 3)); [apply (reach_step _ _ _ (after 1) (send_data 2)); [apply (reach_step _ _ _ (after 0) (send_data 1)); [apply reach_start|..]|..]|..].
  1,3,5: apply send_data_pre; vm_compute; intuition congruence.
  all: vm_compute; reflexivity.
Qed.
Lemma three_sent_ok : run_ok three_sent.
Proof.
  apply (reached_run_ok false false new_manager 5000 three_sent 5000); [apply run_ok_new|exact three_sent_reached].
Qed.


(** Acknowledgements of one packet. *)
Definition ack_frame_of (pn : Z) : @QuicAckFrame PacketNumberQueue := default QuicAckFrame_new (ack_of [pn] pn).
Lemma ack_frame_of_ok pn : 1 <= pn < 2 ^ 48 -> ps_ok (packets (ack_frame_of pn)).
Proof.
  intros Hpn. destruct (ps_add_law (Q := PacketNumberQueue) ps_new pn) as (q & Hq & Hok & _); [|unfold kU64Max; lia|].
  - unfold ps_ok. rewrite ps_new_law. split; [apply iset_ok_nil|constructor].
  - unfold ack_frame_of, ack_of. cbn [foldl mbind option_bind]. rewrite Hq. exact Hok.
Qed.

Lemma ack_releases_exactly_witness : exists m' e',
  OnIncomingAck false false three_sent 5000 (ack_frame_of 2) 6000 = Some (m', e') /\
  held (spm_unacked_packets_ m') 2 = [] /\ held (spm_unacked_packets_ m') 3 = held (spm_unacked_packets_ three_sent) 3.
Proof.
  destruct (ack_releases_exactly false false three_sent 5000 (ack_frame_of 2) 6000 three_sent_ok (ack_frame_of_ok 2 ltac:(lia)))
    as (m' & e' & handled & R1 & _ & _ & _). exists m', e'. split; [done|]. vm_compute in R1. injection R1 as <- <-. split; vm_compute; reflexivity.
Defined.



Lemma alarm_delays_bounded_witness : 200000 <= GetRetransmissionDelay three_sent < 60001000 /\ GetRetransmissionDelay three_sent = 500000.
Proof.
  split; [|vm_compute; reflexivity]. apply (alarm_delays_bounded three_sent); [split|..]; vm_compute; intuition congruence.
Defined.
