(* ===== verification/SoftFloat.v ===== *)
(** * Floating-point arithmetic on rationals

    The congestion control code computes back-off factors and window sizes in single
    precision.  A finite non-negative float is a pair of a numerator and a positive
    denominator; an operation computes the exact rational result and rounds it to [p]
    significant bits, to nearest with ties to even ([round_rat]).  The values of the code
    stay far from the limits of the exponent, which is therefore unbounded here. *)

From S2P Require Import Prelude QuicBandwidth RttStats.

Definition flt : Type := Z * Z.

(** The integer nearest to [a / b], ties to even. *)
Definition rne (a b : Z) : Z :=
  let q := a / b in let r := a mod b in
  if (2 * r <? b) || ((2 * r =? b) && Z.even q) then q else q + 1.

(** Whether [n / d] is at least 2^[e]; the exponent of the leading bit. *)
Definition ge_pow (n d e : Z) : bool := d * 2 ^ Z.max 0 e <=? n * 2 ^ Z.max 0 (- e).
Definition leading (n d : Z) : Z := let e := Z.log2 n - Z.log2 d in if ge_pow n d e then e else e - 1.

Definition round_rat (p n d : Z) : flt :=
  if n <=? 0 then (0, 1)
  else
    let u := leading n d - (p - 1) in
    if u <=? 0 then (rne (n * 2 ^ (- u)) d, 2 ^ (- u)) else (rne n (d * 2 ^ u) * 2 ^ u, 1).

(** Single precision. *)
Definition f32 (n d : Z) : flt := round_rat float_bits n d.
Definition f32_of_int (x : Z) : flt := f32 x 1.
Definition f32_add (x y : flt) : flt := f32 (x.1 * y.2 + y.1 * x.2) (x.2 * y.2).
Definition f32_sub (x y : flt) : flt := f32 (x.1 * y.2 - y.1 * x.2) (x.2 * y.2).
Definition f32_mul (x y : flt) : flt := f32 (x.1 * y.1) (x.2 * y.2).
Definition f32_div (x y : flt) : flt := f32 (x.1 * y.2) (x.2 * y.1).
(** Conversion to an integer type discards the fraction. *)
Definition f32_trunc (x : flt) : Z := x.1 / x.2.
(** [std::llround]: to nearest, ties away from zero. *)
Definition f32_llround (x : flt) : Z := (2 * x.1 + x.2) / (2 * x.2).

(** A bandwidth times a float. *)
Definition QuicBandwidth_mul_float (lhs : Z) (rhs : flt) : Z := QuicBandwidth_new (i64 (f32_llround (f32_mul (f32_of_int lhs) rhs))).

(** ** Rounding to an integer *)

Lemma rne_le a b k : 0 < b -> a <= k * b -> rne a b <= k.
Proof.
  intros Hb Ha. unfold rne. cbn zeta. pose proof (Z.div_mod a b ltac:(lia)) as E. pose proof (Z.mod_pos_bound a b Hb).
  assert (a / b <= k) by (apply Z.div_le_upper_bound; lia). destruct (_ || _) eqn:C; [done|].
  apply orb_false_iff in C as [C _]. assert (a / b <> k) by nia. lia.
Qed.
Lemma rne_ge a b k : 0 < b -> k * b <= a -> k <= rne a b.
Proof.
  intros Hb Ha. unfold rne. cbn zeta. assert (k <= a / b) by (apply Z.div_le_lower_bound; lia). case_if; lia.
Qed.
Lemma rne_err a b : 0 < b -> 2 * Z.abs (rne a b * b - a) <= b.
Proof.
  intros Hb. unfold rne. cbn zeta. pose proof (Z.div_mod a b ltac:(lia)) as E. pose proof (Z.mod_pos_bound a b Hb).
  destruct (_ || _) eqn:C; [apply orb_true_iff in C as [C|[C _]%andb_true_iff]; nia|]. apply orb_false_iff in C as [C _]. nia.
Qed.

(** ** The leading bit *)

Lemma ge_pow_scaled n d e K : 0 <= K -> 0 <= e + K -> ge_pow n d e = (d * 2 ^ (e + K) <=? n * 2 ^ K).
Proof.
  intros HK He. unfold ge_pow. apply eq_true_iff_eq. rewrite !Z.leb_le.
  replace (e + K) with (Z.max 0 e + (K - Z.max 0 (- e))) by lia.
  replace K with (Z.max 0 (- e) + (K - Z.max 0 (- e))) at 2 by lia.
  rewrite !Z.pow_add_r by lia. assert (0 < 2 ^ (K - Z.max 0 (- e))) by (apply Z.pow_pos_nonneg; lia). nia.
Qed.

Section Leading.
Context (n d : Z) (Hn : 0 < n) (Hd : 0 < d).

Lemma leading_bounds K : 0 <= K -> 0 <= leading n d + K -> d * 2 ^ (leading n d + K) <= n * 2 ^ K < d * 2 ^ (leading n d + K + 1).
Proof.
  pose proof (Z.log2_spec n Hn) as [N1 N2]. pose proof (Z.log2_spec d Hd) as [D1 D2].
  pose proof (Z.log2_nonneg n). pose proof (Z.log2_nonneg d). rewrite Z.pow_succ_r in N2, D2 by lia.
  set (a := Z.log2 n) in *. set (b := Z.log2 d) in *. intros HK. unfold leading. fold a b. cbn zeta.
  (** the two estimates from the bit lengths, scaled *)
  assert (forall K, 0 <= K -> 0 <= a - b + K -> n * 2 ^ K < d * (2 * 2 ^ (a - b + K))) as Hup.
  { intros k Hk Hk2. assert (2 ^ a * 2 ^ k = 2 ^ b * 2 ^ (a - b + k)) as E by (rewrite <- !Z.pow_add_r by lia; f_equal; lia).
    assert (0 < 2 ^ k) by (apply Z.pow_pos_nonneg; lia). assert (0 < 2 ^ (a - b + k)) by (apply Z.pow_pos_nonneg; lia). nia. }
  assert (forall K, 0 <= K -> 0 <= a - b - 1 + K -> d * 2 ^ (a - b - 1 + K) <= n * 2 ^ K) as Hlow.
  { intros k Hk Hk2. assert (2 ^ a * 2 ^ k = 2 * 2 ^ b * 2 ^ (a - b - 1 + k)) as E.
    { replace (2 * 2 ^ b) with (2 ^ (b + 1)) by (rewrite Z.pow_add_r; lia). rewrite <- !Z.pow_add_r by lia. f_equal. lia. }
    assert (0 < 2 ^ k) by (apply Z.pow_pos_nonneg; lia). assert (0 < 2 ^ (a - b - 1 + k)) by (apply Z.pow_pos_nonneg; lia). nia. }
  destruct (ge_pow n d (a - b)) eqn:G; intros He.
  - rewrite (ge_pow_scaled _ _ _ K) in G by lia. rewrite (Z.pow_add_r 2 (a - b + K) 1) by lia. change (2 ^ 1) with 2. specialize (Hup K HK He). apply Z.leb_le in G. nia.
  - split; [by apply Hlow|]. rewrite (ge_pow_scaled _ _ _ K) in G by lia.
    replace (a - b - 1 + K + 1) with (a - b + K) by lia. by apply Z.leb_gt in G.
Qed.
End Leading.

(** ** Rounding to [p] bits *)

Section Round.
Context (p : Z) (Hp : 0 < p).

(** The scaled numerator and denominator have a quotient of exactly [p] bits. *)
Lemma round_rat_cases n d : 0 < n -> 0 < d -> exists a b s t, round_rat p n d = (rne a b * s, t) /\ 0 < b /\ 0 < s /\ 0 < t /\
  a * s * d = n * b * t /\ b * 2 ^ (p - 1) <= a < b * 2 ^ p /\ (s = 1 \/ t = 1 /\ 2 <= s).
Proof.
  intros Hn Hd. unfold round_rat. rewrite (proj2 (Z.leb_gt n 0)) by lia. cbn zeta. set (u := leading n d - (p - 1)).
  destruct (u <=? 0) eqn:Hu.
  - exists (n * 2 ^ (- u)), d, 1, (2 ^ (- u)). assert (0 < 2 ^ (- u)) by (apply Z.pow_pos_nonneg; lia).
    destruct (leading_bounds n d Hn Hd (- u)) as [L1 L2]; [blia|unfold u; lia|]. replace (leading n d + - u) with (p - 1) in * by (unfold u; lia).
    replace (p - 1 + 1) with p in L2 by lia. split; [by rewrite Z.mul_1_r|]. split_and!; lia.
  - exists n, (d * 2 ^ u), (2 ^ u), 1. assert (0 < 2 ^ u) by (apply Z.pow_pos_nonneg; blia).
    destruct (leading_bounds n d Hn Hd 0) as [L1 L2]; [lia|unfold u in *; blia|].
    replace (leading n d + 0) with (u + (p - 1)) in * by (unfold u; lia). replace (u + (p - 1) + 1) with (u + p) in L2 by lia.
    rewrite Z.mul_1_r in L1, L2. rewrite Z.pow_add_r in L1, L2 by blia. split; [done|]. split_and!; try lia.
Qed.

Lemma round_rat_valid n d : 0 < d -> 0 <= (round_rat p n d).1 /\ 0 < (round_rat p n d).2.
Proof.
  intros Hd. destruct (decide (0 < n)) as [Hn|Hn].
  - destruct (round_rat_cases n d Hn Hd) as (a & b & s & t & -> & H1 & H2 & H3 & _ & [H4 _] & _). simpl.
    assert (0 < 2 ^ (p - 1)) by (apply Z.pow_pos_nonneg; lia). assert (0 <= rne a b) by (apply rne_ge; nia). nia.
  - unfold round_rat. rewrite (proj2 (Z.leb_le n 0)) by lia. simpl. lia.
Qed.

(** Rounding does not cross an integer of at most [p] bits. *)
Lemma round_rat_le n d x : 0 < d -> 0 <= x < 2 ^ p -> n <= x * d -> (round_rat p n d).1 <= x * (round_rat p n d).2.
Proof.
  intros Hd Hx Hle. destruct (decide (0 < n)) as [Hn|Hn]; [|unfold round_rat; rewrite (proj2 (Z.leb_le n 0)) by lia; simpl; lia].
  destruct (round_rat_cases n d Hn Hd) as (a & b & s & t & -> & H1 & H2 & H3 & H4 & [H5 H6] & [->|[-> H7]]); simpl.
  - rewrite Z.mul_1_r in *. apply rne_le; [done|]. apply (Zmult_le_reg_r _ _ d); [lia|]. rewrite H4. nia.
  - (** a number with a unit of at least 2 is at least 2^p *)
    exfalso. assert (2 ^ p = 2 * 2 ^ (p - 1)) as E by (rewrite <- Z.pow_succ_r by lia; f_equal; lia).
    assert (b * 2 ^ (p - 1) * s * d <= a * s * d) by (apply Z.mul_le_mono_nonneg_r; [lia|]; apply Z.mul_le_mono_nonneg_r; lia).
    assert (0 < 2 ^ (p - 1)) by (apply Z.pow_pos_nonneg; lia). assert (b * 2 ^ (p - 1) * 2 * d <= b * 2 ^ (p - 1) * s * d).
    { apply Z.mul_le_mono_nonneg_r; [lia|]. apply Z.mul_le_mono_nonneg_l; nia. }
    assert (n * b < b * 2 ^ p * d) by nia. nia.
Qed.
Lemma round_rat_ge n d x : 0 < d -> 0 <= x < 2 ^ p -> x * d <= n -> x * (round_rat p n d).2 <= (round_rat p n d).1.
Proof.
  intros Hd Hx Hle. destruct (decide (0 < n)) as [Hn|Hn].
  2: { unfold round_rat. rewrite (proj2 (Z.leb_le n 0)) by lia. simpl. nia. }
  destruct (round_rat_cases n d Hn Hd) as (a & b & s & t & -> & H1 & H2 & H3 & H4 & [H5 H6] & [->|[-> H7]]); simpl.
  - rewrite Z.mul_1_r in *. apply rne_ge; [done|]. apply (Zmult_le_reg_r _ _ d); [lia|]. rewrite H4. nia.
  - assert (2 ^ p = 2 * 2 ^ (p - 1)) as E by (rewrite <- Z.pow_succ_r by lia; f_equal; lia).
    assert (2 ^ (p - 1) <= rne a b) by (apply rne_ge; lia). nia.
Qed.

(** An integer of at most [p] bits is represented exactly. *)
Lemma round_rat_int x : 0 <= x < 2 ^ p -> (round_rat p x 1).1 = x * (round_rat p x 1).2.
Proof.
  intros Hx. pose proof (round_rat_le x 1 x ltac:(lia) Hx ltac:(lia)). pose proof (round_rat_ge x 1 x ltac:(lia) Hx ltac:(lia)). lia.
Qed.

(** The relative error is at most half a unit in the last place. *)
Lemma round_rat_err n d : 0 < n -> 0 < d -> 2 ^ p * Z.abs ((round_rat p n d).1 * d - n * (round_rat p n d).2) <= n * (round_rat p n d).2.
Proof.
  intros Hn Hd. destruct (round_rat_cases n d Hn Hd) as (a & b & s & t & -> & H1 & H2 & H3 & H4 & [H5 _] & _). simpl.
  pose proof (rne_err a b H1) as He. assert (0 < 2 ^ (p - 1)) by (apply Z.pow_pos_nonneg; lia).
  assert (2 ^ p = 2 * 2 ^ (p - 1)) as E by (rewrite <- Z.pow_succ_r by lia; f_equal; lia).
  assert (Z.abs (rne a b * s * d - n * t) * b = Z.abs (rne a b * b - a) * (s * d)) as Eq.
  { rewrite <- (Z.abs_eq b) at 2 by lia. rewrite <- (Z.abs_eq (s * d)) by nia. rewrite <- !Z.abs_mul. f_equal. nia. }
  apply (Zmult_le_reg_r _ _ b); [lia|]. rewrite <- Z.mul_assoc, Eq, E.
  assert (2 ^ (p - 1) * b * (s * d) <= n * t * b).
  { replace (n * t * b) with (a * (s * d)) by lia. apply Z.mul_le_mono_nonneg_r; nia. }
  assert (2 * Z.abs (rne a b * b - a) * (2 ^ (p - 1) * (s * d)) <= b * (2 ^ (p - 1) * (s * d))) by (apply Z.mul_le_mono_nonneg_r; nia). nia.
Qed.
End Round.
