(* ===== verification/SlowStart.v ===== *)
(** * Slow start exit and proportional rate reduction

    congestion_control/hybrid_slow_start.cc, which leaves slow start when the round trip
    times of a round rise, and congestion_control/prr_sender.cc, which spreads the
    reduction of the window over a recovery. *)

From S2P Require Import Prelude QuicTime UnackedPacketMap.

(** ** HybridSlowStart *)

Inductive HystartState := NOT_FOUND | DELAY.
#[global] Instance HystartState_eq_dec : EqDecision HystartState.
Proof. solve_decision. Defined.

Record HybridSlowStart := MkHss {
  started_ : bool; hystart_found_ : HystartState; last_sent_packet_number_ : Z;
  end_packet_number_ : Z; rtt_sample_count_ : Z; current_min_rtt_ : Z }.

Definition kHybridStartLowWindow : Z := 16.
Definition kHybridStartMinSamples : Z := 8.
Definition kHybridStartDelayFactorExp : Z := 3.
Definition kHybridStartDelayMinThresholdUs : Z := 4000.
Definition kHybridStartDelayMaxThresholdUs : Z := 16000.

Definition HybridSlowStart_new : HybridSlowStart := MkHss false NOT_FOUND 0 0 0 Delta_Zero.
Definition IsEndOfRound (h : HybridSlowStart) (ack : Z) : bool := end_packet_number_ h <=? ack.
Definition hss_OnPacketAcked (h : HybridSlowStart) (acked_packet_number : Z) : HybridSlowStart :=
  if IsEndOfRound h acked_packet_number
  then MkHss false (hystart_found_ h) (last_sent_packet_number_ h) (end_packet_number_ h) (rtt_sample_count_ h) (current_min_rtt_ h) else h.
Definition hss_OnPacketSent (h : HybridSlowStart) (packet_number : Z) : HybridSlowStart :=
  MkHss (started_ h) (hystart_found_ h) packet_number (end_packet_number_ h) (rtt_sample_count_ h) (current_min_rtt_ h).
Definition Restart (h : HybridSlowStart) : HybridSlowStart :=
  MkHss false NOT_FOUND (last_sent_packet_number_ h) (end_packet_number_ h) (rtt_sample_count_ h) (current_min_rtt_ h).
Definition StartReceiveRound (h : HybridSlowStart) (last_sent : Z) : HybridSlowStart :=
  MkHss true (hystart_found_ h) (last_sent_packet_number_ h) last_sent 0 Delta_Zero.

(** The increase over the minimal time that ends slow start. *)
Definition min_rtt_increase_threshold (min_rtt : Z) : Z :=
  Delta_FromMicroseconds (Z.max (Z.min (Z.shiftr (Delta_ToMicroseconds min_rtt) kHybridStartDelayFactorExp) kHybridStartDelayMaxThresholdUs)
                                kHybridStartDelayMinThresholdUs).
Definition ShouldExitSlowStart (h : HybridSlowStart) (latest_rtt min_rtt congestion_window : Z) : HybridSlowStart * bool :=
  let h := if started_ h then h else StartReceiveRound h (last_sent_packet_number_ h) in
  if negb (bool_decide (hystart_found_ h = NOT_FOUND)) then (h, true)
  else
    let count := u32 (rtt_sample_count_ h + 1) in
    let current := if (count <=? kHybridStartMinSamples) && (Delta_IsZero (current_min_rtt_ h) || Delta_gtb (current_min_rtt_ h) latest_rtt)
                   then latest_rtt else current_min_rtt_ h in
    let found := if (count =? kHybridStartMinSamples) && Delta_gtb current (Delta_add min_rtt (min_rtt_increase_threshold min_rtt))
                 then DELAY else hystart_found_ h in
    (MkHss (started_ h) found (last_sent_packet_number_ h) (end_packet_number_ h) count current,
     (congestion_window >=? kHybridStartLowWindow) && negb (bool_decide (found = NOT_FOUND))).

(** ** PrrSender *)

Record PrrSender := MkPrr {
  bytes_sent_since_loss_ : Z; bytes_delivered_since_loss_ : Z; ack_count_since_loss_ : Z; bytes_in_flight_before_loss_ : Z }.

Definition kMaxSegmentSize : Z := kDefaultTCPMSS.
Definition PrrSender_new : PrrSender := MkPrr 0 0 0 0.
Definition prr_OnPacketSent (p : PrrSender) (sent_bytes : Z) : PrrSender :=
  MkPrr (bytes_sent_since_loss_ p +64 sent_bytes) (bytes_delivered_since_loss_ p) (ack_count_since_loss_ p) (bytes_in_flight_before_loss_ p).
Definition prr_OnPacketLost (p : PrrSender) (prior_in_flight : Z) : PrrSender := MkPrr 0 0 0 prior_in_flight.
Definition prr_OnPacketAcked (p : PrrSender) (acked_bytes : Z) : PrrSender :=
  MkPrr (bytes_sent_since_loss_ p) (bytes_delivered_since_loss_ p +64 acked_bytes) (ack_count_since_loss_ p +64 1) (bytes_in_flight_before_loss_ p).
Definition prr_TimeUntilSend (p : PrrSender) (congestion_window bytes_in_flight slowstart_threshold : Z) : Z :=
  if (bytes_sent_since_loss_ p =? 0) || (bytes_in_flight <? kMaxSegmentSize) then Delta_Zero
  else if congestion_window >? bytes_in_flight then
    if bytes_delivered_since_loss_ p +64 u64 (ack_count_since_loss_ p * kMaxSegmentSize) <=? bytes_sent_since_loss_ p then Delta_Infinite
    else Delta_Zero
  else if u64 (bytes_delivered_since_loss_ p * slowstart_threshold) >? u64 (bytes_sent_since_loss_ p * bytes_in_flight_before_loss_ p) then Delta_Zero
  else Delta_Infinite.

(** ** Proportional rate reduction *)

(** What happens during a recovery: an acknowledgement of some bytes, or a packet that is
    sent when [prr_TimeUntilSend] allows it. *)
Inductive prr_op := PrrAck (bytes : Z) | PrrSend (bytes bytes_in_flight : Z).

Section Prr.
(** Window and threshold are fixed during a recovery. *)
Context (cwnd ssthresh : Z).

Definition prr_exec (p : PrrSender) (op : prr_op) : PrrSender :=
  match op with PrrAck b => prr_OnPacketAcked p b | PrrSend b _ => prr_OnPacketSent p b end.
(** A packet has at most the segment size; with less than a segment in flight the sender is
    always allowed to send, and such packets are not counted here. *)
Definition prr_allowed (p : PrrSender) (op : prr_op) : bool :=
  match op with
  | PrrAck b => 0 <=? b
  | PrrSend b in_flight => (0 <=? b) && (b <=? kMaxSegmentSize) && (kMaxSegmentSize <=? in_flight) &&
                           Delta_IsZero (prr_TimeUntilSend p cwnd in_flight ssthresh)
  end.
Fixpoint prr_run (p : PrrSender) (l : list prr_op) : option PrrSender :=
  match l with [] => Some p | op :: l => if prr_allowed p op then prr_run (prr_exec p op) l else None end.

(** The bytes acknowledged and the acknowledgements of a run. *)
Definition acked_of (l : list prr_op) : Z := foldr (fun op n => match op with PrrAck b => b + n | _ => n end) 0 l.
Definition acks_of (l : list prr_op) : Z := foldr (fun op n => match op with PrrAck _ => 1 + n | _ => n end) 0 l.
Definition sent_of (l : list prr_op) : Z := foldr (fun op n => match op with PrrSend b _ => b + n | _ => n end) 0 l.
(** More than the window is in flight whenever a packet is sent. *)
Definition above_window (l : list prr_op) : bool := forallb (fun op => match op with PrrSend _ f => cwnd <=? f | _ => true end) l.

Lemma prr_run_app p l k : prr_run p (l ++ k) = match prr_run p l with Some q => prr_run q k | None => None end.
Proof. revert p. induction l as [|op l IH]; intros p; [done|]. simpl. by case_if. Qed.

Lemma sent_of_app l k : sent_of (l ++ k) = sent_of l + sent_of k.
Proof. unfold sent_of. induction l as [|[]]; simpl; lia. Qed.
Lemma acked_of_app l k : acked_of (l ++ k) = acked_of l + acked_of k.
Proof. unfold acked_of. induction l as [|[]]; simpl; lia. Qed.
Lemma acks_of_app l k : acks_of (l ++ k) = acks_of l + acks_of k.
Proof. unfold acks_of. induction l as [|[]]; simpl; lia. Qed.

(** The counters of the sender hold the sums, which have not wrapped. *)
Definition prr_counts (prior : Z) (l : list prr_op) (p : PrrSender) : Prop :=
  p = MkPrr (sent_of l) (acked_of l) (acks_of l) prior /\ 0 <= sent_of l /\ 0 <= acked_of l /\ 0 <= acks_of l.

Definition prr_small (prior : Z) (l : list prr_op) : Prop :=
  sent_of l < 2 ^ 31 /\ acked_of l < 2 ^ 31 /\ acks_of l < 2 ^ 31 /\ 0 <= prior < 2 ^ 31 /\ 0 <= ssthresh < 2 ^ 31.

(** What an allowed packet says about the counters before it. *)
Lemma prr_allowed_send prior l b f p : prr_counts prior l p -> prr_small prior l -> prr_allowed p (PrrSend b f) = true ->
  0 <= b <= kMaxSegmentSize /\
  (sent_of l = 0 \/ f < cwnd /\ sent_of l < acked_of l + acks_of l * kMaxSegmentSize \/ cwnd <= f /\ sent_of l * prior < acked_of l * ssthresh).
Proof.
  intros (-> & H1 & H2 & H3) (B1 & B2 & B3 & B4 & B5). unfold prr_allowed, prr_TimeUntilSend, kMaxSegmentSize, kDefaultTCPMSS. simpl.
  rewrite !andb_true_iff. intros [[[A1 A2] A3] A4]. split; [blia|].
  destruct (sent_of l =? 0) eqn:E0; [left; blia|right]. rewrite (proj2 (Z.ltb_ge f 1460)) in A4 by blia. simpl in A4.
  destruct (cwnd >? f) eqn:Ef; [left|right]; (split; [blia|]).
  - rewrite (u64_id (acks_of l * 1460)), u64_id in A4 by (unfold is_u64; lia). destruct (_ <=? sent_of l) eqn:El in A4; [done|blia].
  - rewrite !u64_id in A4 by (unfold is_u64; nia). destruct (_ >? _) eqn:El in A4; [blia|done].
Qed.

Lemma prr_small_prefix prior l op p : prr_allowed p op = true -> prr_small prior (l ++ [op]) -> prr_small prior l.
Proof.
  intros Ha (B1 & B2 & B3 & B4). rewrite sent_of_app in B1. rewrite acked_of_app in B2. rewrite acks_of_app in B3.
  destruct op; simpl in *; unfold prr_small; [|apply andb_true_iff in Ha as [[[Ha _]%andb_true_iff _]%andb_true_iff _]]; blia.
Qed.
Lemma prr_counts_step prior l op p : prr_counts prior l p -> prr_allowed p op = true -> prr_small prior (l ++ [op]) ->
  prr_counts prior (l ++ [op]) (prr_exec p op).
Proof.
  intros (-> & H1 & H2 & H3) Ha (B1 & B2 & B3 & B4). unfold prr_counts. rewrite sent_of_app in *. rewrite acked_of_app in *. rewrite acks_of_app in *.
  destruct op as [b|b f]; cbn in *; [|apply andb_true_iff in Ha as [[[Ha _]%andb_true_iff _]%andb_true_iff _]]; rewrite ?Z.add_0_r in *.
  - unfold prr_OnPacketAcked. simpl. rewrite !u64_id by (unfold is_u64; blia). split_and!; [done|blia..].
  - unfold prr_OnPacketSent. simpl. rewrite !u64_id by (unfold is_u64; blia). split_and!; [done|blia..].
Qed.

(** The two bounds, for a run that sends at all. *)
Definition prr_bound (prior : Z) (l : list prr_op) : Prop :=
  (sent_of l <= acked_of l + acks_of l * kMaxSegmentSize + kMaxSegmentSize \/ sent_of l * prior <= acked_of l * ssthresh + kMaxSegmentSize * prior) /\
  (above_window l = true -> sent_of l * prior <= acked_of l * ssthresh + kMaxSegmentSize * prior).

Lemma prr_bound_step prior l op p : prr_counts prior l p -> prr_small prior l -> prr_allowed p op = true -> prr_bound prior l -> prr_bound prior (l ++ [op]).
Proof.
  intros Hc Hs Ha [P1 P2]. unfold prr_bound, above_window. rewrite sent_of_app, acked_of_app, acks_of_app, forallb_app.
  destruct op as [b|b f].
  - simpl in *. rewrite !Z.add_0_r, !andb_true_r. unfold prr_small in Hs. unfold kMaxSegmentSize, kDefaultTCPMSS in *. bool_to_prop. split; [|intros ?%P2; nia].
    destruct P1; [left; nia|right; nia].
  - destruct (prr_allowed_send prior l b f p Hc Hs Ha) as [Hb Hcase]. destruct Hc as (_ & H1 & H2 & H3). destruct Hs as (_ & _ & _ & B4 & B5). cbn.
    rewrite !Z.add_0_r, andb_true_r. unfold kMaxSegmentSize, kDefaultTCPMSS in *.
    destruct Hcase as [->|[[Hf Hl]|[Hf Hl]]]; (split; [|rewrite andb_true_iff; intros [Hw Hf']]); try blia; try nia; try (left; nia); try (right; nia).
Qed.

Lemma prr_run_spec prior p0 l p : prr_run (prr_OnPacketLost p0 prior) l = Some p -> prr_small prior l -> prr_counts prior l p /\ prr_bound prior l.
Proof.
  revert p. induction l as [|op l IH] using rev_ind; intros p Hr Hs.
  - injection Hr as <-. split; [done|]. unfold prr_small in Hs. unfold prr_bound. simpl. unfold kMaxSegmentSize, kDefaultTCPMSS. cbn. split; [left|intros _]; nia.
  - rewrite prr_run_app in Hr. destruct (prr_run _ l) as [q|] eqn:Hq; [|done]. simpl in Hr. destruct (prr_allowed q op) eqn:Ha; [|done].
    injection Hr as <-. pose proof (prr_small_prefix prior l op q Ha Hs) as Hs'. destruct (IH q eq_refl Hs') as [Hc Hb].
    split; [by apply prr_counts_step|by eapply prr_bound_step].
Qed.
End Prr.



(** ** Leaving slow start *)

(** The calls of one round, with the same minimal time and window. *)
Fixpoint hss_round (h : HybridSlowStart) (samples : list Z) (min_rtt congestion_window : Z) : HybridSlowStart * list bool :=
  match samples with
  | [] => (h, [])
  | r :: l =>
      let '(h, exit) := ShouldExitSlowStart h r min_rtt congestion_window in
      let '(h, exits) := hss_round h l min_rtt congestion_window in (h, exit :: exits)
  end.

Definition least (l : list Z) : Z := foldr Z.min kI64Max l.

Section Round.
Context (min_rtt cwnd : Z).
#[local] Abbreviation run h l := (hss_round h l min_rtt cwnd).

Lemma hss_round_app h a b : run h (a ++ b) = ((run (run h a).1 b).1, (run h a).2 ++ (run (run h a).1 b).2).
Proof.
  revert h. induction a as [|r a IH]; intros h; simpl; [by destruct (run h b)|].
  destruct (ShouldExitSlowStart h r min_rtt cwnd) as [h1 e1]. rewrite IH. by destruct (run h1 a) as [h2 e2].
Qed.

(** The samples [l] of the round so far, fewer than eight, and nothing found. *)
Definition collecting (h : HybridSlowStart) (l : list Z) : Prop :=
  started_ h = true /\ hystart_found_ h = NOT_FOUND /\ rtt_sample_count_ h = Z.of_nat (length l) /\
  current_min_rtt_ h = match l with [] => 0 | _ => least l end.

Lemma least_snoc l x : x <= kI64Max -> least (l ++ [x]) = Z.min (least l) x.
Proof. unfold least. intros Hx. induction l as [|y l IH]; simpl in *; [lia|]. rewrite IH. lia. Qed.
Lemma least_bounds l : Forall (fun x => 0 < x <= kI64Max) l -> 0 < least l <= kI64Max.
Proof. unfold least. induction 1; simpl; [vm_compute; intuition congruence|lia]. Qed.

(** One sample of the first eight. *)
Lemma collect_one h l x : collecting h l -> Forall (fun x => 0 < x <= kI64Max) (l ++ [x]) -> (length l < 8)%nat ->
  let slow := (length l =? 7)%nat && (least (l ++ [x]) >? Delta_add min_rtt (min_rtt_increase_threshold min_rtt)) in
  let '(h', e) := ShouldExitSlowStart h x min_rtt cwnd in
  started_ h' = true /\ hystart_found_ h' = (if slow then DELAY else NOT_FOUND) /\ rtt_sample_count_ h' = Z.of_nat (length (l ++ [x])) /\
  current_min_rtt_ h' = least (l ++ [x]) /\ e = (cwnd >=? 16) && slow.
Proof.
  intros (H1 & H2 & H3 & H4) Hl Hlen. apply Forall_app in Hl as [Hl [Hx _]%Forall_cons]. pose proof (least_bounds l Hl).
  unfold ShouldExitSlowStart. rewrite H1. rewrite bool_decide_eq_true_2 by done. cbn [negb]. rewrite H3, H4, H2.
  assert (u32 (Z.of_nat (length l) + 1) = Z.of_nat (length l) + 1) as -> by (apply wrapU_id; lia).
  rewrite length_app, (least_snoc _ _ (proj2 Hx)). unfold kHybridStartMinSamples, kHybridStartLowWindow.
  rewrite (proj2 (Z.leb_le (Z.of_nat (length l) + 1) 8)) by lia. cbn [andb].
  assert ((if Delta_IsZero (match l with [] => 0 | _ => least l end) || Delta_gtb (match l with [] => 0 | _ => least l end) x then x
           else match l with [] => 0 | _ => least l end) = Z.min (least l) x) as ->.
  { unfold Delta_IsZero, Delta_gtb, Delta_ltb. destruct l as [|y l]; [cbn; unfold kI64Max in *; simpl; lia|]. case_if; blia. }
  assert ((Z.of_nat (length l) + 1 =? 8) = (length l =? 7)%nat) as -> by (apply eq_true_iff_eq; rewrite Z.eqb_eq, Nat.eqb_eq; lia).
  assert (forall a b, Delta_gtb a b = (a >? b)) as Egt by (intros; unfold Delta_gtb, Delta_ltb; by rewrite Z.gtb_ltb). rewrite !Egt.
  simpl. split_and!; [done|done|lia|done|]. by destruct ((length l =? 7)%nat && _).
Qed.

(** Fewer than eight samples. *)
Lemma collect_few h l k : collecting h l -> Forall (fun x => 0 < x <= kI64Max) (l ++ k) -> (length (l ++ k) < 8)%nat ->
  collecting (run h k).1 (l ++ k) /\ (run h k).2 = replicate (length k) false.
Proof.
  revert h l. induction k as [|x k IH]; intros h l Hc Hp Hlen; [by rewrite app_nil_r in *|]. simpl.
  rewrite cons_middle, app_assoc in Hp, Hlen |- *. pose proof Hp as [Hp1 _]%Forall_app. rewrite !length_app in Hlen. simpl in Hlen.
  pose proof (collect_one h l x Hc Hp1 ltac:(lia)) as Hone. destruct (ShouldExitSlowStart h x min_rtt cwnd) as [h1 e].
  rewrite (proj2 (Nat.eqb_neq (length l) 7)) in Hone by lia. cbn [andb] in Hone. destruct Hone as (O1 & O2 & O3 & O4 & ->).
  destruct (IH h1 (l ++ [x])) as [I1 I2]; [|done|rewrite !length_app; simpl; lia|].
  { split_and!; try done. rewrite O4. by destruct l. }
  destruct (run h1 k) as [h2 es]. simpl in *. rewrite I2. by rewrite andb_false_r.
Qed.

(** After the eighth sample: nothing changes until the round ends. *)
Lemma settled h k : started_ h = true -> 8 <= rtt_sample_count_ h -> rtt_sample_count_ h + Z.of_nat (length k) < 2 ^ 32 ->
  hystart_found_ (run h k).1 = hystart_found_ h /\ (run h k).2 = replicate (length k) (negb (bool_decide (hystart_found_ h = NOT_FOUND))).
Proof.
  revert h. induction k as [|x k IH]; intros h H1 H2 H3; [done|]. simpl in H3.
  destruct (decide (hystart_found_ h = NOT_FOUND)) as [Hf|Hf].
  - assert (ShouldExitSlowStart h x min_rtt cwnd =
      (MkHss true NOT_FOUND (last_sent_packet_number_ h) (end_packet_number_ h) (rtt_sample_count_ h + 1) (current_min_rtt_ h), false)) as E.
    { unfold ShouldExitSlowStart. rewrite H1, Hf. cbn [bool_decide negb decide_rel]. rewrite bool_decide_eq_true_2 by done. cbn [negb].
      assert (u32 (rtt_sample_count_ h + 1) = rtt_sample_count_ h + 1) as -> by (apply wrapU_id; lia). unfold kHybridStartMinSamples.
      rewrite (proj2 (Z.leb_gt _ 8)), (proj2 (Z.eqb_neq _ 8)) by lia. cbn [andb]. rewrite bool_decide_eq_true_2 by done. by rewrite andb_false_r, H1. }
    simpl. rewrite E. destruct (IH (MkHss true NOT_FOUND (last_sent_packet_number_ h) (end_packet_number_ h) (rtt_sample_count_ h + 1) (current_min_rtt_ h)))
      as [I1 I2]; simpl; [done|lia..|]. destruct (run _ k) as [h2 es]. simpl in *. by rewrite I1, I2, Hf.
  - assert (ShouldExitSlowStart h x min_rtt cwnd = (h, true)) as E.
    { unfold ShouldExitSlowStart. rewrite H1. by rewrite bool_decide_eq_false_2. }
    simpl. rewrite E. destruct (IH h) as [I1 I2]; [done|lia..|]. destruct (run h k) as [h2 es]. simpl in *. rewrite I1, I2.
    by rewrite bool_decide_eq_false_2.
Qed.

Lemma fresh_round h r : started_ h = false ->
  ShouldExitSlowStart h r min_rtt cwnd = ShouldExitSlowStart (StartReceiveRound h (last_sent_packet_number_ h)) r min_rtt cwnd.
Proof. intros H1. unfold ShouldExitSlowStart. by rewrite H1. Qed.
End Round.

(** Slow start ends when the round trip times rise.  In a round that begins with
    nothing found, the first seven calls say to stay in slow start.  The eighth compares
    the least of the first eight samples with the minimal time of the session: a rise by
    more than an eighth of it, taken within 4 and 16 milliseconds, is found, and reported
    if the window is at least 16 packets.  The calls after it report what was found,
    whatever the window is, and further samples of the round change nothing. *)
Lemma hybrid_slow_start_exit (h : HybridSlowStart) (first rest : list Z) (eighth min_rtt cwnd : Z) :
  started_ h = false -> hystart_found_ h = NOT_FOUND -> length first = 7%nat -> Z.of_nat (length rest) < 2 ^ 31 ->
  Forall (fun x => 0 < x <= kI64Max) (first ++ [eighth]) -> 0 <= min_rtt < 2 ^ 62 ->
  let rise := least (first ++ [eighth]) >? min_rtt + Z.max 4000 (Z.min 16000 (min_rtt / 8)) in
  let '(h', exits) := hss_round h (first ++ eighth :: rest) min_rtt cwnd in
  hystart_found_ h' = (if rise then DELAY else NOT_FOUND) /\
  exits = replicate 7 false ++ [(cwnd >=? 16) && rise] ++ replicate (length rest) rise.
Proof.
  intros H1 H2 H3 H4 H5 H6 rise. destruct first as [|x first]; [done|].
  assert (hss_round h ((x :: first) ++ eighth :: rest) min_rtt cwnd =
          hss_round (StartReceiveRound h (last_sent_packet_number_ h)) ((x :: first) ++ eighth :: rest) min_rtt cwnd) as ->
    by (simpl; by rewrite fresh_round).
  set (h0 := StartReceiveRound h (last_sent_packet_number_ h)).
  destruct (collect_few min_rtt cwnd h0 [] (x :: first)) as [C1 C2]; [by split_and!|by apply Forall_app in H5 as [H5 _]|simpl in *; lia|].
  rewrite hss_round_app, C2, H3. destruct (hss_round h0 (x :: first) min_rtt cwnd) as [h1 e1]. simpl in C1, C2. cbn [fst].
  pose proof (collect_one min_rtt cwnd h1 (x :: first) eighth C1 H5 ltac:(lia)) as Hone.
  assert (Delta_add min_rtt (min_rtt_increase_threshold min_rtt) = min_rtt + Z.max 4000 (Z.min 16000 (min_rtt / 8))) as Ethr.
  { unfold Delta_add, min_rtt_increase_threshold, Delta_FromMicroseconds, Delta_ToMicroseconds, kHybridStartDelayFactorExp, kHybridStartDelayMaxThresholdUs, kHybridStartDelayMinThresholdUs.
    rewrite Z.shiftr_div_pow2 by lia. change (2 ^ 3) with 8. rewrite i64_id; [|unfold is_i64]; lia. }
  rewrite H3, Ethr in Hone. fold rise in Hone. cbn [Nat.eqb andb] in Hone. cbn zeta in Hone. simpl.
  destruct (ShouldExitSlowStart h1 eighth min_rtt cwnd) as [h2 e2]. destruct Hone as (O1 & O2 & O3 & O4 & ->).
  destruct (settled min_rtt cwnd h2 rest) as [S1 S2]; [done|rewrite O3, length_app; simpl in *; lia|rewrite O3, length_app; simpl in *; lia|].
  destruct (hss_round h2 rest min_rtt cwnd) as [h3 e3]. simpl in *. rewrite S1, S2, O2. by destruct rise.
Qed.

Lemma hybrid_slow_start_exit_witness :
  let samples := replicate 7 110000 ++ [115000] in
  let '(h', exits) := hss_round HybridSlowStart_new (samples ++ [90000]) 60000 10 in
  hystart_found_ h' = DELAY /\ exits = replicate 8 false ++ [true].
Proof.
  cbn zeta. pose proof (hybrid_slow_start_exit HybridSlowStart_new (replicate 7 110000) [90000] 115000 60000 10) as H.
  apply H; [reflexivity|reflexivity|reflexivity|simpl; lia| |lia]. unfold kI64Max. simpl. repeat (apply Forall_cons_2; [lia|]). apply Forall_nil_2.
Defined.
