(* ===== verification/CubicWindow.v ===== *)
(** * The cubic window

    congestion_control/cubic_bytes.cc and cubic.cc, which compute the congestion window
    after a loss and after an acknowledgement, in bytes and in packets.  The back-off and
    growth factors are floats ([SoftFloat]); [cbrt] is the cube root of the C library,
    truncated to an integer. *)

From S2P Require Import Prelude QuicTime UnackedPacketMap QuicBandwidth SoftFloat.

Definition kCubeScale : Z := 40.
Definition kCubeCongestionWindowScale : Z := 410.
Definition kDefaultNumConnections : Z := 2.
(** 0.7f and 0.85f *)
Definition kBeta : flt := (11744051, 2 ^ 24).
Definition kBetaLastMax : flt := (14260634, 2 ^ 24).

(** The options of both classes; quantization concerns bytes only. *)
Record CubicOptions := MkCubicOptions {
  cubic_num_connections_ : Z; fix_convex_mode_ : bool; fix_cubic_quantization_ : bool; fix_beta_last_max_ : bool; allow_per_ack_updates_ : bool }.
Definition CubicOptions_new : CubicOptions := MkCubicOptions kDefaultNumConnections false false false false.
Definition SetNumConnections (o : CubicOptions) (n : Z) : CubicOptions :=
  MkCubicOptions n (fix_convex_mode_ o) (fix_cubic_quantization_ o) (fix_beta_last_max_ o) (allow_per_ack_updates_ o).
Definition SetFixConvexMode (o : CubicOptions) (b : bool) : CubicOptions :=
  MkCubicOptions (cubic_num_connections_ o) b (fix_cubic_quantization_ o) (fix_beta_last_max_ o) (allow_per_ack_updates_ o).
Definition SetFixCubicQuantization (o : CubicOptions) (b : bool) : CubicOptions :=
  MkCubicOptions (cubic_num_connections_ o) (fix_convex_mode_ o) b (fix_beta_last_max_ o) (allow_per_ack_updates_ o).
Definition SetFixBetaLastMax (o : CubicOptions) (b : bool) : CubicOptions :=
  MkCubicOptions (cubic_num_connections_ o) (fix_convex_mode_ o) (fix_cubic_quantization_ o) b (allow_per_ack_updates_ o).
Definition SetAllowPerAckUpdates (o : CubicOptions) (b : bool) : CubicOptions :=
  MkCubicOptions (cubic_num_connections_ o) (fix_convex_mode_ o) (fix_cubic_quantization_ o) (fix_beta_last_max_ o) b.

(** (n - 1 + beta) / n in single precision *)
Definition emulated_factor (n : Z) (beta : flt) : flt := f32_div (f32_add (f32_of_int (n - 1)) beta) (f32_of_int n).
Definition Beta (o : CubicOptions) : flt := emulated_factor (cubic_num_connections_ o) kBeta.
Definition BetaLastMax (o : CubicOptions) : flt :=
  if fix_beta_last_max_ o then emulated_factor (cubic_num_connections_ o) kBetaLastMax else kBetaLastMax.
Definition Alpha (o : CubicOptions) : flt :=
  let beta := Beta o in
  let n := cubic_num_connections_ o in
  f32_div (f32_mul (f32_of_int (3 * n * n)) (f32_sub (1, 1) beta)) (f32_add (1, 1) beta).

(** [static_cast<int>] of a product of a window and a factor, as an unsigned count *)
Definition scale_window (window : Z) (factor : flt) : Z := u64 (wrapS 32 (f32_trunc (f32_mul (f32_of_int window) factor))).

Definition MaxCubicTimeInterval : Z := Delta_FromMilliseconds 30.
(** Time since the start of the epoch, in units of 2^-10 seconds. *)
Definition cubic_elapsed_time (event_time delay_min epoch : Z) : Z :=
  i64 (u64 (i64 (Z.shiftl (Delta_ToMicroseconds (QuicTime_diff (QuicTime_add event_time delay_min) epoch)) 10)) / kNumMicrosPerSecond).
Definition cubic_cube (offset : Z) : Z := i64 (i64 (i64 (kCubeCongestionWindowScale * offset) * offset) * offset).

Section Cubic.
Context (cbrt : Z -> Z).

(** ** CubicBytes *)

Record CubicBytes := MkCubicBytes {
  cb_options : CubicOptions; cb_epoch_ : Z; cb_last_update_time_ : Z; cb_last_congestion_window_ : Z; cb_last_max_congestion_window_ : Z;
  cb_acked_bytes_count_ : Z; cb_estimated_tcp_congestion_window_ : Z; cb_origin_point_congestion_window_ : Z; cb_time_to_origin_point_ : Z;
  cb_last_target_congestion_window_ : Z }.

Definition cb_kCubeFactor : Z := 2 ^ kCubeScale / kCubeCongestionWindowScale / kDefaultTCPMSS.
Definition cb_ResetCubicState (c : CubicBytes) : CubicBytes := MkCubicBytes (cb_options c) QuicTime_Zero QuicTime_Zero 0 0 0 0 0 0 0.
Definition CubicBytes_new : CubicBytes := MkCubicBytes CubicOptions_new QuicTime_Zero QuicTime_Zero 0 0 0 0 0 0 0.
Definition cb_with_options (c : CubicBytes) (o : CubicOptions) : CubicBytes :=
  MkCubicBytes o (cb_epoch_ c) (cb_last_update_time_ c) (cb_last_congestion_window_ c) (cb_last_max_congestion_window_ c) (cb_acked_bytes_count_ c)
    (cb_estimated_tcp_congestion_window_ c) (cb_origin_point_congestion_window_ c) (cb_time_to_origin_point_ c) (cb_last_target_congestion_window_ c).
Definition cb_with_loss (c : CubicBytes) (epoch last_max : Z) : CubicBytes :=
  MkCubicBytes (cb_options c) epoch (cb_last_update_time_ c) (cb_last_congestion_window_ c) last_max (cb_acked_bytes_count_ c)
    (cb_estimated_tcp_congestion_window_ c) (cb_origin_point_congestion_window_ c) (cb_time_to_origin_point_ c) (cb_last_target_congestion_window_ c).
Definition cb_OnApplicationLimited (c : CubicBytes) : CubicBytes := cb_with_loss c QuicTime_Zero (cb_last_max_congestion_window_ c).

Definition cb_CongestionWindowAfterPacketLoss (c : CubicBytes) (current_congestion_window : Z) : CubicBytes * Z :=
  let last_window_delta := if fix_beta_last_max_ (cb_options c) then kDefaultTCPMSS else 0 in
  let last_max := if current_congestion_window +64 last_window_delta <? cb_last_max_congestion_window_ c
                  then scale_window current_congestion_window (BetaLastMax (cb_options c)) else current_congestion_window in
  (cb_with_loss c QuicTime_Zero last_max, scale_window current_congestion_window (Beta (cb_options c))).

(** The first acknowledgement after a loss begins an epoch. *)
Definition cb_start_epoch (c : CubicBytes) (acked_bytes current_congestion_window event_time : Z) : CubicBytes :=
  if QuicTime_IsInitialized (cb_epoch_ c) then c
  else
    let above := cb_last_max_congestion_window_ c <=? current_congestion_window in
    MkCubicBytes (cb_options c) event_time (cb_last_update_time_ c) (cb_last_congestion_window_ c) (cb_last_max_congestion_window_ c) acked_bytes
      current_congestion_window
      (if above then current_congestion_window else cb_last_max_congestion_window_ c)
      (if above then 0 else u32 (cbrt (u64 (cb_kCubeFactor * (cb_last_max_congestion_window_ c -64 current_congestion_window)))))
      (cb_last_target_congestion_window_ c).

Definition cb_delta (o : CubicOptions) (offset : Z) : Z :=
  if fix_cubic_quantization_ o then Z.shiftr (u64 (cubic_cube offset * kDefaultTCPMSS)) kCubeScale
  else u64 (Z.shiftr (cubic_cube offset) kCubeScale * kDefaultTCPMSS).
(** The point of the curve, before the limit on its growth. *)
Definition cb_target (o : CubicOptions) (origin time_to_origin elapsed_time : Z) : Z :=
  let offset := i64 (time_to_origin - elapsed_time) in
  let offset := if fix_convex_mode_ o then Z.abs offset else offset in
  if fix_convex_mode_ o && (elapsed_time >? time_to_origin) then origin +64 cb_delta o offset else origin -64 cb_delta o offset.
Definition cb_estimate (o : CubicOptions) (acked estimated : Z) : Z :=
  u64 (f32_trunc (f32_add (f32_of_int estimated)
    (f32_div (f32_mul (f32_of_int acked) (f32_mul (Alpha o) (f32_of_int kDefaultTCPMSS))) (f32_of_int estimated)))).

Definition cb_CongestionWindowAfterAck (c : CubicBytes) (acked_bytes current_congestion_window delay_min event_time : Z) : CubicBytes * Z :=
  let o := cb_options c in
  let count := cb_acked_bytes_count_ c +64 acked_bytes in
  if negb (allow_per_ack_updates_ o) && (cb_last_congestion_window_ c =? current_congestion_window) &&
     Delta_leb (QuicTime_diff event_time (cb_last_update_time_ c)) MaxCubicTimeInterval then
    (MkCubicBytes o (cb_epoch_ c) (cb_last_update_time_ c) (cb_last_congestion_window_ c) (cb_last_max_congestion_window_ c) count
       (cb_estimated_tcp_congestion_window_ c) (cb_origin_point_congestion_window_ c) (cb_time_to_origin_point_ c) (cb_last_target_congestion_window_ c),
     Z.max (cb_last_target_congestion_window_ c) (cb_estimated_tcp_congestion_window_ c))
  else
    let c := MkCubicBytes o (cb_epoch_ c) event_time current_congestion_window (cb_last_max_congestion_window_ c) count
               (cb_estimated_tcp_congestion_window_ c) (cb_origin_point_congestion_window_ c) (cb_time_to_origin_point_ c) (cb_last_target_congestion_window_ c) in
    let c := cb_start_epoch c acked_bytes current_congestion_window event_time in
    let elapsed_time := cubic_elapsed_time event_time delay_min (cb_epoch_ c) in
    let target := cb_target o (cb_origin_point_congestion_window_ c) (cb_time_to_origin_point_ c) elapsed_time in
    let target := Z.min target (current_congestion_window +64 cb_acked_bytes_count_ c / 2) in
    let estimated := cb_estimate o (cb_acked_bytes_count_ c) (cb_estimated_tcp_congestion_window_ c) in
    (MkCubicBytes o (cb_epoch_ c) (cb_last_update_time_ c) (cb_last_congestion_window_ c) (cb_last_max_congestion_window_ c) 0
       estimated (cb_origin_point_congestion_window_ c) (cb_time_to_origin_point_ c) target,
     if target <? estimated then estimated else target).

(** ** Cubic, in packets *)

Record Cubic := MkCubic {
  cp_options : CubicOptions; cp_epoch_ : Z; cp_app_limited_start_time_ : Z; cp_last_update_time_ : Z; cp_last_congestion_window_ : Z;
  cp_last_max_congestion_window_ : Z; cp_acked_packets_count_ : Z; cp_epoch_packets_count_ : Z; cp_estimated_tcp_congestion_window_ : Z;
  cp_origin_point_congestion_window_ : Z; cp_time_to_origin_point_ : Z; cp_last_target_congestion_window_ : Z }.

Definition cp_kCubeFactor : Z := 2 ^ kCubeScale / kCubeCongestionWindowScale.
Definition cp_ResetCubicState (c : Cubic) : Cubic := MkCubic (cp_options c) QuicTime_Zero QuicTime_Zero QuicTime_Zero 0 0 0 0 0 0 0 0.
Definition Cubic_new : Cubic := MkCubic CubicOptions_new QuicTime_Zero QuicTime_Zero QuicTime_Zero 0 0 0 0 0 0 0 0.
Definition cp_with_options (c : Cubic) (o : CubicOptions) : Cubic :=
  MkCubic o (cp_epoch_ c) (cp_app_limited_start_time_ c) (cp_last_update_time_ c) (cp_last_congestion_window_ c) (cp_last_max_congestion_window_ c)
    (cp_acked_packets_count_ c) (cp_epoch_packets_count_ c) (cp_estimated_tcp_congestion_window_ c) (cp_origin_point_congestion_window_ c)
    (cp_time_to_origin_point_ c) (cp_last_target_congestion_window_ c).
Definition cp_with_loss (c : Cubic) (epoch last_max : Z) : Cubic :=
  MkCubic (cp_options c) epoch (cp_app_limited_start_time_ c) (cp_last_update_time_ c) (cp_last_congestion_window_ c) last_max
    (cp_acked_packets_count_ c) (cp_epoch_packets_count_ c) (cp_estimated_tcp_congestion_window_ c) (cp_origin_point_congestion_window_ c)
    (cp_time_to_origin_point_ c) (cp_last_target_congestion_window_ c).
Definition cp_OnApplicationLimited (c : Cubic) : Cubic := cp_with_loss c QuicTime_Zero (cp_last_max_congestion_window_ c).

Definition cp_CongestionWindowAfterPacketLoss (c : Cubic) (current_congestion_window : Z) : Cubic * Z :=
  let last_max := if current_congestion_window <? cp_last_max_congestion_window_ c
                  then scale_window current_congestion_window (BetaLastMax (cp_options c)) else current_congestion_window in
  (cp_with_loss c QuicTime_Zero last_max, scale_window current_congestion_window (Beta (cp_options c))).

Definition cp_start_epoch (c : Cubic) (current_congestion_window event_time : Z) : Cubic :=
  if QuicTime_IsInitialized (cp_epoch_ c) then c
  else
    let above := cp_last_max_congestion_window_ c <=? current_congestion_window in
    MkCubic (cp_options c) event_time (cp_app_limited_start_time_ c) (cp_last_update_time_ c) (cp_last_congestion_window_ c) (cp_last_max_congestion_window_ c)
      1 1 current_congestion_window
      (if above then current_congestion_window else cp_last_max_congestion_window_ c)
      (if above then 0 else u32 (cbrt (u64 (cp_kCubeFactor * (cp_last_max_congestion_window_ c -64 current_congestion_window)))))
      (cp_last_target_congestion_window_ c).

Definition cp_delta (offset : Z) : Z := u64 (Z.shiftr (cubic_cube offset) kCubeScale).
Definition cp_target (o : CubicOptions) (origin time_to_origin elapsed_time : Z) : Z :=
  let offset := i64 (time_to_origin - elapsed_time) in
  let offset := if fix_convex_mode_ o then Z.abs offset else offset in
  if fix_convex_mode_ o && (elapsed_time >? time_to_origin) then origin +64 cp_delta offset else origin -64 cp_delta offset.

(** The acknowledgements that a window of TCP Reno needs to grow by one. *)
Definition required_ack_count (o : CubicOptions) (estimated : Z) : Z := u64 (f32_trunc (f32_div (f32_of_int estimated) (Alpha o))).
Fixpoint cp_estimate_loop (fuel : nat) (o : CubicOptions) (acked estimated : Z) : Z * Z :=
  match fuel with
  | O => (acked, estimated)
  | S fuel =>
      let required := required_ack_count o estimated in
      if acked <? required then (acked, estimated) else cp_estimate_loop fuel o (acked -64 required) (estimated +64 1)
  end.

(** Every round of the loop but the first three takes at least one acknowledgement away
    ([cp_estimate_loop_ends]). *)
Definition cp_estimate_fuel (acked : Z) : nat := Z.to_nat acked + 5.
Definition cp_CongestionWindowAfterAck (c : Cubic) (current_congestion_window delay_min event_time : Z) : Cubic * Z :=
  let o := cp_options c in
  let acked := cp_acked_packets_count_ c +64 1 in
  let packets := cp_epoch_packets_count_ c +64 1 in
  if negb (allow_per_ack_updates_ o) && (cp_last_congestion_window_ c =? current_congestion_window) &&
     Delta_leb (QuicTime_diff event_time (cp_last_update_time_ c)) MaxCubicTimeInterval then
    (MkCubic o (cp_epoch_ c) (cp_app_limited_start_time_ c) (cp_last_update_time_ c) (cp_last_congestion_window_ c) (cp_last_max_congestion_window_ c)
            acked packets (cp_estimated_tcp_congestion_window_ c) (cp_origin_point_congestion_window_ c) (cp_time_to_origin_point_ c)
            (cp_last_target_congestion_window_ c),
          Z.max (cp_last_target_congestion_window_ c) (cp_estimated_tcp_congestion_window_ c))
  else
    let c := MkCubic o (cp_epoch_ c) (cp_app_limited_start_time_ c) event_time current_congestion_window (cp_last_max_congestion_window_ c)
               acked packets (cp_estimated_tcp_congestion_window_ c) (cp_origin_point_congestion_window_ c) (cp_time_to_origin_point_ c)
               (cp_last_target_congestion_window_ c) in
    let c := cp_start_epoch c current_congestion_window event_time in
    let elapsed_time := cubic_elapsed_time event_time delay_min (cp_epoch_ c) in
    let target := cp_target o (cp_origin_point_congestion_window_ c) (cp_time_to_origin_point_ c) elapsed_time in
    let target := Z.min target (current_congestion_window +64 u64 (cp_epoch_packets_count_ c + 1) / 2) in
    let '(acked, estimated) := cp_estimate_loop (cp_estimate_fuel (cp_acked_packets_count_ c)) o (cp_acked_packets_count_ c) (cp_estimated_tcp_congestion_window_ c) in
    (MkCubic o (cp_epoch_ c) (cp_app_limited_start_time_ c) (cp_last_update_time_ c) (cp_last_congestion_window_ c) (cp_last_max_congestion_window_ c)
       acked 0 estimated (cp_origin_point_congestion_window_ c) (cp_time_to_origin_point_ c) target,
     if target <? estimated then estimated else target).
End Cubic.
