(* ===== verification/CubicFacts.v ===== *)
(** * Facts about the cubic window

    The factors for up to five emulated connections (the number of connections the sent
    packet manager asks for), the window after a loss, the curve after an
    acknowledgement, and the estimate of what TCP would do. *)

From S2P Require Import Prelude QuicTime UnackedPacketMap QuicBandwidth RttStats SoftFloat CubicWindow.

(** ** Values of floats *)

Definition valid (x : flt) : Prop := 0 <= x.1 /\ 0 < x.2.
Lemma f32_valid n d : 0 < d -> valid (f32 n d).
Proof. intros Hd. by apply round_rat_valid. Qed.
Lemma f32_of_int_valid x : valid (f32_of_int x).
Proof. apply f32_valid. lia. Qed.

Lemma f32_of_int_exact x : 0 <= x < 2 ^ 24 -> (f32_of_int x).1 = x * (f32_of_int x).2.
Proof. intros Hx. by apply round_rat_int. Qed.
(** Rounding at most doubles a number. *)
Lemma f32_double n d : 0 <= n -> 0 < d -> (f32 n d).1 * d <= 2 * n * (f32 n d).2.
Proof.
  intros Hn Hd. destruct (f32_valid n d Hd) as [V1 V2]. destruct (decide (n = 0)) as [->|Hz].
  - unfold f32, round_rat in *. simpl in *. lia.
  - pose proof (round_rat_err float_bits ltac:(unfold float_bits; lia) n d ltac:(lia) Hd) as He. fold (f32 n d) in He. unfold float_bits in He. lia.
Qed.
Lemma f32_ge n d x : 0 < d -> 0 <= x < 2 ^ 24 -> x * d <= n -> x * (f32 n d).2 <= (f32 n d).1.
Proof. intros. by apply round_rat_ge. Qed.
Lemma f32_le n d x : 0 < d -> 0 <= x < 2 ^ 24 -> n <= x * d -> (f32 n d).1 <= x * (f32 n d).2.
Proof. intros. by apply round_rat_le. Qed.

Lemma f32_trunc_ge x k : valid x -> k * x.2 <= x.1 -> k <= f32_trunc x.
Proof. intros [_ V] H. apply Z.div_le_lower_bound; lia. Qed.
Lemma f32_trunc_le x k : valid x -> x.1 <= k * x.2 -> f32_trunc x <= k.
Proof. intros [_ V] H. apply Z.div_le_upper_bound; lia. Qed.

(** ** Scaling a window *)

(** A window times a factor [b] / 2^24: within the exact product up to a relative error of
    2^-24, truncated. *)
Lemma scaled_bounds w b : 0 <= w < 2 ^ 24 -> 0 < b <= 2 ^ 24 ->
  let w' := f32_trunc (f32_mul (f32_of_int w) (b, 2 ^ 24)) in
  0 <= w' <= w /\ w' * 2 ^ 48 <= w * (b * (2 ^ 24 + 1)) /\ w * (b * (2 ^ 24 - 1)) < (w' + 1) * 2 ^ 48.
Proof.
  intros Hw Hb w'. destruct (f32_of_int_valid w) as [V1 V2]. pose proof (f32_of_int_exact w Hw) as E.
  set (q := (f32_of_int w).2) in *. assert (f32_mul (f32_of_int w) (b, 2 ^ 24) = f32 (w * q * b) (q * 2 ^ 24)) as EM.
  { unfold f32_mul. fold q. rewrite E. done. }
  unfold w'. clear w'. rewrite EM. set (w' := f32_trunc _). assert (0 < q * 2 ^ 24) as Hd by lia.
  destruct (f32_valid (w * q * b) _ Hd) as [X1 X2].
  pose proof (f32_le (w * q * b) (q * 2 ^ 24) w Hd Hw ltac:(nia)) as Hle.
  assert (0 <= w') as H0 by (apply f32_trunc_ge; [done|lia]). assert (w' <= w) as H1 by (apply f32_trunc_le; [done|lia]). split; [done|].
  destruct (decide (w = 0)) as [->|Hz]; [assert (w' = 0) as -> by lia; lia|].
  pose proof (round_rat_err float_bits ltac:(unfold float_bits; lia) (w * q * b) (q * 2 ^ 24) ltac:(nia) Hd) as He.
  fold (f32 (w * q * b) (q * 2 ^ 24)) in He. unfold float_bits in He. unfold f32_trunc in w'. set (m := (f32 _ _).1) in *. set (t := (f32 _ _).2) in *.
  pose proof (Z.div_mod m t ltac:(lia)) as Ed. pose proof (Z.mod_pos_bound m t ltac:(lia)) as Em. fold w' in Ed.
  assert (2 ^ 24 * Z.abs (m * 2 ^ 24 - w * b * t) <= w * b * t) as He'.
  { replace (m * (q * 2 ^ 24) - w * q * b * t) with ((m * 2 ^ 24 - w * b * t) * q) in He by lia.
    rewrite Z.abs_mul, (Z.abs_eq q) in He by lia. apply (Zmult_le_reg_r _ _ q); lia. }
  assert (t * (w' * 2 ^ 48) <= t * (w * (b * (2 ^ 24 + 1)))) by nia. assert (t * (w * (b * (2 ^ 24 - 1))) < t * ((w' + 1) * 2 ^ 48)) by nia. nia.
Qed.

(** The factors for the numbers of connections in use. *)
Definition beta_table (n : Z) : Z :=
  if n =? 1 then 11744051 else if n =? 2 then 14260634 else if n =? 3 then 15099495 else if n =? 4 then 15518925 else 15770582.
Ltac five_cases n := assert (n = 1 \/ n = 2 \/ n = 3 \/ n = 4 \/ n = 5) as [->|[->|[->|[->| ->]]]] by lia.
Lemma emulated_factor_table n : 1 <= n <= 5 -> emulated_factor n kBeta = (beta_table n, 2 ^ 24).
Proof. intros Hn. five_cases n; vm_compute; reflexivity. Qed.
Lemma Alpha_bounds o : 1 <= cubic_num_connections_ o <= 5 -> 1 * (Alpha o).2 <= 3 * (Alpha o).1 /\ 2 * (Alpha o).1 <= 5 * (Alpha o).2 /\ 0 < (Alpha o).2.
Proof.
  intros Hn. unfold Alpha, Beta. revert Hn. generalize (cubic_num_connections_ o). intros n Hn. five_cases n; vm_compute; intuition congruence.
Qed.

(** A loss leaves (10 n - 3) / (10 n) of the window of [n] connections, 0.7 for one and
    0.85 for two, up to 1.5. *)
Definition cut_window (n w : Z) : Z := f32_trunc (f32_mul (f32_of_int w) (emulated_factor n kBeta)).
Lemma cut_window_bounds n w : 1 <= n <= 5 -> 0 <= w < 2 ^ 22 ->
  0 <= cut_window n w <= w /\ 10 * n * cut_window n w <= (10 * n - 3) * w + 5 * n /\ (10 * n - 3) * w < 10 * n * cut_window n w + 15 * n.
Proof.
  intros Hn Hw. unfold cut_window. rewrite emulated_factor_table by done.
  destruct (scaled_bounds w (beta_table n) ltac:(lia)) as (H1 & H2 & H3); [five_cases n; vm_compute; intuition congruence|].
  split; [done|]. revert H2 H3. five_cases n; cbn [beta_table Z.eqb Pos.eqb]; lia.
Qed.
Lemma scale_window_cut o w : 1 <= cubic_num_connections_ o <= 5 -> 0 <= w < 2 ^ 22 -> scale_window w (Beta o) = cut_window (cubic_num_connections_ o) w.
Proof.
  intros Hn Hw. unfold scale_window, Beta. fold (cut_window (cubic_num_connections_ o) w).
  destruct (cut_window_bounds (cubic_num_connections_ o) w Hn Hw) as [H1 _]. rewrite wrapS_id by lia. apply u64_id. unfold is_u64. lia.
Qed.

(** ** The estimate of TCP's window *)

Lemma f32_add_ge x y k : valid x -> valid y -> 0 <= k < 2 ^ 24 -> k * x.2 <= x.1 -> k * (f32_add x y).2 <= (f32_add x y).1.
Proof. intros [X1 X2] [Y1 Y2] Hk Hx. apply f32_ge; [nia|done|]. nia. Qed.

(** An upper bound [k] on a value. *)
Definition below (x : flt) (k : Z) : Prop := valid x /\ x.1 <= k * x.2.
Lemma below_of_int x : 0 <= x -> below (f32_of_int x) (2 * x).
Proof. intros Hx. split; [apply f32_of_int_valid|]. pose proof (f32_double x 1 Hx ltac:(lia)) as H. unfold f32_of_int. lia. Qed.
Lemma below_f32 n d k : 0 <= n -> 0 < d -> n <= k * d -> below (f32 n d) (2 * k).
Proof.
  intros Hn Hd Hk. split; [by apply f32_valid|]. destruct (f32_valid n d Hd) as [V1 V2]. pose proof (f32_double n d Hn Hd) as H.
  apply (Zmult_le_reg_r _ _ d); [lia|]. nia.
Qed.
Lemma below_mul x y a b : 0 <= a -> below x a -> below y b -> below (f32_mul x y) (2 * (a * b)).
Proof. intros Ha [[X1 X2] X3] [[Y1 Y2] Y3]. apply below_f32; [nia|nia|]. replace (a * b * (x.2 * y.2)) with (a * x.2 * (b * y.2)) by lia. nia. Qed.
Lemma below_add x y a b : below x a -> below y b -> below (f32_add x y) (2 * (a + b)).
Proof. intros [[X1 X2] X3] [[Y1 Y2] Y3]. apply below_f32; [nia|nia|]. assert (x.1 * y.2 <= a * x.2 * y.2) by nia. assert (y.1 * x.2 <= b * y.2 * x.2) by nia. lia. Qed.
(** Dividing by a number that is at least 1. *)
Lemma below_div x y a : below x a -> valid y -> y.2 <= y.1 -> below (f32_div x y) (2 * a).
Proof. intros [[X1 X2] X3] [Y1 Y2] Hy. apply below_f32; [nia|nia|]. assert (x.1 * y.2 <= x.1 * y.1) by nia. nia. Qed.

(** With an estimate in range the new one is not below the bound [k], if the old was not. *)
Lemma cb_estimate_bounds o acked est k : 1 <= cubic_num_connections_ o <= 5 -> 0 <= acked < 2 ^ 40 -> 1 <= k <= est -> k < 2 ^ 24 -> est < 2 ^ 46 ->
  k <= cb_estimate o acked est < 2 ^ 62.
Proof.
  intros Hn Ha Hk Hk2 He. destruct (Alpha_bounds o Hn) as (A1 & A2 & A3). unfold cb_estimate.
  assert (below (Alpha o) 3) as HA by (split; [split; lia|lia]).
  pose proof (f32_of_int_valid est) as Ve. pose proof (f32_ge est 1 1 ltac:(lia) ltac:(lia) ltac:(lia)) as Hone. fold (f32_of_int est) in Hone.
  pose proof (below_mul _ _ 3 _ ltac:(lia) HA (below_of_int kDefaultTCPMSS ltac:(done))) as B1.
  pose proof (below_mul _ _ (2 * acked) _ ltac:(lia) (below_of_int acked ltac:(lia)) B1) as B2.
  pose proof (below_div _ (f32_of_int est) _ B2 Ve ltac:(lia)) as B3.
  pose proof (below_add _ _ _ _ (below_of_int est ltac:(lia)) B3) as [B4 B5].
  match goal with |- context [f32_trunc ?f] => set (v := f) in * end.
  assert (k <= f32_trunc v) as Hge.
  { apply f32_trunc_ge; [done|]. apply f32_add_ge; [done|exact (proj1 B3)|lia|]. unfold f32_of_int. apply f32_ge; lia. }
  assert (f32_trunc v < 2 ^ 62) as Hlt.
  { eapply Z.le_lt_trans; [apply f32_trunc_le; [done|exact B5]|]. unfold kDefaultTCPMSS. lia. }
  rewrite u64_id by (unfold is_u64; lia). lia.
Qed.

Lemma required_ack_count_pos o est : 1 <= cubic_num_connections_ o <= 5 -> 3 <= est < 2 ^ 46 -> 1 <= required_ack_count o est.
Proof.
  intros Hn He. destruct (Alpha_bounds o Hn) as (A1 & A2 & A3). unfold required_ack_count.
  destruct (f32_of_int_valid est) as [V1 V2]. pose proof (f32_ge est 1 3 ltac:(lia) ltac:(lia) ltac:(lia)) as H3. fold (f32_of_int est) in H3.
  assert (0 < (f32_of_int est).2 * (Alpha o).1) as Hd by nia. pose proof (f32_valid ((f32_of_int est).1 * (Alpha o).2) _ Hd) as Vd. fold (f32_div (f32_of_int est) (Alpha o)) in Vd.
  assert (1 <= f32_trunc (f32_div (f32_of_int est) (Alpha o))).
  { apply f32_trunc_ge; [done|]. apply f32_ge; [done|lia|]. nia. }
  assert (below (f32_div (f32_of_int est) (Alpha o)) (2 * (3 * (2 * est)))) as [_ Hb].
  { destruct (below_of_int est ltac:(lia)) as [_ B]. apply below_f32; [nia|done|]. nia. }
  apply f32_trunc_le in Hb; [|done]. rewrite u64_id by (unfold is_u64; lia). done.
Qed.

Lemma required_ack_count_nonneg o est : 0 <= required_ack_count o est.
Proof. apply u64_range. Qed.

(** The loop of the window in packets ends: every round but the first three uses up an
    acknowledgement. *)
Lemma cp_estimate_loop_ends o fuel acked est : 1 <= cubic_num_connections_ o <= 5 -> 0 <= acked -> 1 <= est -> est + Z.of_nat fuel < 2 ^ 46 ->
  acked + Z.max 0 (3 - est) < Z.of_nat fuel ->
  let '(acked', est') := cp_estimate_loop fuel o acked est in
  acked' < required_ack_count o est' /\ 0 <= acked' <= acked /\ est <= est' <= est + Z.of_nat fuel.
Proof.
  intros Hn. revert acked est. induction fuel as [|fuel IH]; intros acked est Ha He Hr Hf; [lia|]. cbn [cp_estimate_loop].
  pose proof (required_ack_count_nonneg o est) as H0. destruct (acked <? required_ack_count o est) eqn:Hc; [split_and!; blia|].
  assert (est < 3 \/ 1 <= required_ack_count o est) as Hp.
  { destruct (decide (est < 3)); [by left|right]. apply required_ack_count_pos; lia. }
  rewrite !u64_id by (unfold is_u64; blia).
  specialize (IH (acked - required_ack_count o est) (est + 1) ltac:(blia) ltac:(lia) ltac:(lia) ltac:(blia)).
  destruct (cp_estimate_loop fuel o _ _) as [a' e']. split_and!; lia.
Qed.

(** ** The curve *)

(** The window of the cubic function [t] units after the start of the epoch, which reaches
    its [origin] at [k]. *)
Definition cubic_window (scale origin k t : Z) : Z :=
  if k <? t then origin + scale * (t - k) ^ 3 / 2 ^ 40 else origin - scale * (k - t) ^ 3 / 2 ^ 40.

Lemma cubic_window_mono scale origin k t t' : 0 <= scale -> t <= t' -> cubic_window scale origin k t <= cubic_window scale origin k t'.
Proof.
  intros Hs Ht. unfold cubic_window.
  assert (forall a b, 0 <= a <= b -> scale * a ^ 3 / 2 ^ 40 <= scale * b ^ 3 / 2 ^ 40) as Hm.
  { intros a b Hab. apply Z.div_le_mono; [lia|]. apply Z.mul_le_mono_nonneg_l; [done|]. apply Z.pow_le_mono_l. lia. }
  assert (forall a, 0 <= a -> 0 <= scale * a ^ 3 / 2 ^ 40) as Hp.
  { intros a Ha. apply Z.div_pos; [|lia]. apply Z.mul_nonneg_nonneg; [done|]. apply Z.pow_nonneg. lia. }
  repeat case_if; bool_to_prop.
  - specialize (Hm (t - k) (t' - k)). lia.
  - lia.
  - pose proof (Hp (k - t)). pose proof (Hp (t' - k)). lia.
  - specialize (Hm (k - t') (k - t)). lia.
Qed.
Lemma cubic_window_origin scale origin k : cubic_window scale origin k k = origin.
Proof. unfold cubic_window. rewrite Z.ltb_irrefl, Z.sub_diag. simpl. rewrite Z.mul_0_r, Z.div_0_l by lia. lia. Qed.

Definition cb_scale : Z := kCubeCongestionWindowScale * kDefaultTCPMSS.

Lemma cubic_cube_small x : - 2 ^ 17 <= x <= 2 ^ 17 -> cubic_cube x = 410 * x ^ 3.
Proof.
  intros Hx. unfold cubic_cube, kCubeCongestionWindowScale. assert (0 <= x * x <= 2 ^ 34) by nia.
  rewrite (i64_id (410 * x)) by (unfold is_i64; lia). rewrite (i64_id (410 * x * x)) by (unfold is_i64; lia).
  rewrite i64_id by (unfold is_i64; nia). ring.
Qed.

(** Both corrections on: the target is the curve, up to half a minute from the origin. *)
Lemma cb_target_curve o origin k t : fix_convex_mode_ o = true -> fix_cubic_quantization_ o = true -> 0 <= k -> 0 <= t -> Z.abs (k - t) <= 31000 ->
  0 <= cubic_window cb_scale origin k t < 2 ^ 64 -> cb_target o origin k t = cubic_window cb_scale origin k t.
Proof.
  intros Hx Hq Hk Ht Hd Hw. unfold cb_target, cb_delta. rewrite Hx, Hq. cbn [andb]. rewrite i64_id by (unfold is_i64; lia).
  rewrite cubic_cube_small by lia. unfold cubic_window, cb_scale, kCubeCongestionWindowScale, kDefaultTCPMSS, kCubeScale in *. rewrite Z.gtb_ltb.
  assert (0 <= Z.abs (k - t) ^ 3 <= 31000 ^ 3) by (split; [apply Z.pow_nonneg; lia|apply Z.pow_le_mono_l; lia]).
  rewrite (u64_id (410 * Z.abs (k - t) ^ 3 * 1460)) by (unfold is_u64; lia). rewrite Z.shiftr_div_pow2 by lia.
  replace (410 * Z.abs (k - t) ^ 3 * 1460) with (410 * 1460 * Z.abs (k - t) ^ 3) by lia. destruct (k <? t) eqn:E.
  - rewrite (Z.abs_neq (k - t)) in * by blia. replace (- (k - t)) with (t - k) in * by lia. by apply u64_id.
  - rewrite (Z.abs_eq (k - t)) in * by blia. by apply u64_id.
Qed.

(** The quantization correction without the convex one: past the origin the negative cube
    is shifted as an unsigned number, and the target wraps around. *)
Lemma cb_target_wraps o origin k t : fix_convex_mode_ o = false -> fix_cubic_quantization_ o = true -> 0 <= k -> k < t <= k + 23000 -> 0 <= origin < 2 ^ 22 ->
  2 ^ 63 <= cb_target o origin k t.
Proof.
  intros Hx Hq Hk Ht Ho. unfold cb_target, cb_delta. rewrite Hx, Hq. cbn [andb]. rewrite (i64_id (k - t)) by (unfold is_i64; lia).
  rewrite cubic_cube_small by lia. unfold kDefaultTCPMSS, kCubeScale. set (d := t - k). replace (k - t) with (- d) by (unfold d; lia).
  assert (1 <= d ^ 3 <= 23000 ^ 3) as Hd3 by (unfold d; split; [change 1 with (1 ^ 3); apply Z.pow_le_mono_l; lia|apply Z.pow_le_mono_l; lia]).
  replace (410 * (- d) ^ 3 * 1460) with (- (598600 * d ^ 3)) by ring.
  assert (u64 (- (598600 * d ^ 3)) = 2 ^ 64 - 598600 * d ^ 3) as ->.
  { unfold u64, wrapU. rewrite <- (Z.mod_add _ 1) by lia. rewrite Z.mod_small; lia. }
  rewrite Z.shiftr_div_pow2 by lia. set (delta := (2 ^ 64 - 598600 * d ^ 3) / 2 ^ 40).
  assert (2 ^ 22 < delta <= 2 ^ 24) as Hdelta by (unfold delta; split; [apply Z.lt_le_trans with (2 ^ 23); [lia|apply Z.div_le_lower_bound; lia]|apply Z.div_le_upper_bound; lia]).
  unfold u64, wrapU. rewrite <- (Z.mod_add _ 1) by lia. rewrite Z.mod_small; lia.
Qed.

(** What the code relies on of [cbrt]: for integers of up to 45 bits its truncated result
    is the integer cube root (the error of the C library is far below the distance of the
    root from the next integer). *)
Definition cbrt_ok (cbrt : Z -> Z) : Prop := forall x, 0 <= x < 2 ^ 45 -> 0 <= cbrt x /\ cbrt x ^ 3 <= x < (cbrt x + 1) ^ 3.

Lemma cubic_elapsed_time_exact time delay epoch : 0 <= epoch <= time -> 0 <= delay -> time + delay < 2 ^ 50 ->
  cubic_elapsed_time time delay epoch = (time + delay - epoch) * 1024 / 1000000.
Proof.
  intros H1 H2 H3. unfold cubic_elapsed_time, Delta_ToMicroseconds, QuicTime_diff, QuicTime_add, kNumMicrosPerSecond.
  rewrite (i64_id (time + delay)) by (unfold is_i64; lia). rewrite (i64_id (time + delay - epoch)) by (unfold is_i64; lia).
  rewrite Z.shiftl_mul_pow2 by lia. change (2 ^ 10) with 1024. rewrite (i64_id (_ * 1024)) by (unfold is_i64; lia).
  rewrite u64_id by (unfold is_u64; lia). apply i64_id. unfold is_i64. Z.div_mod_to_equations. lia.
Qed.

(** The curve of the running epoch. *)
Definition cb_curve (c : CubicBytes) (t : Z) : Z := cubic_window cb_scale (cb_origin_point_congestion_window_ c) (cb_time_to_origin_point_ c) t.
Definition curve_ok (c : CubicBytes) : Prop :=
  0 <= cb_epoch_ c /\
  (cb_epoch_ c <> 0 -> 0 <= cb_time_to_origin_point_ c < 2 ^ 15 /\ cb_origin_point_congestion_window_ c < 2 ^ 23 /\ 0 <= cb_curve c 0).

(** The root of the distance to the old maximum: the curve begins at the current window. *)
Lemma start_epoch_curve cbrt c acked cwnd time : cbrt_ok cbrt -> cb_epoch_ c = 0 -> 0 < time -> 0 < cwnd < 2 ^ 22 -> 0 <= cb_last_max_congestion_window_ c < 2 ^ 22 ->
  let c' := cb_start_epoch cbrt c acked cwnd time in
  cb_epoch_ c' = time /\ cb_origin_point_congestion_window_ c' = Z.max (cb_last_max_congestion_window_ c) cwnd /\
  0 <= cb_time_to_origin_point_ c' < 2 ^ 15 /\ cwnd <= cb_curve c' 0.
Proof.
  intros Hc He Ht Hw Hm. unfold cb_start_epoch, QuicTime_IsInitialized, cb_curve. rewrite He. simpl.
  destruct (cb_last_max_congestion_window_ c <=? cwnd) eqn:El.
  - split_and!; try lia; try blia. unfold cubic_window. rewrite Z.ltb_irrefl. simpl. rewrite Z.mul_0_r, Z.div_0_l; lia.
  - set (x := cb_last_max_congestion_window_ c - cwnd). assert (0 < x < 2 ^ 22) as Hx by (unfold x; blia).
    rewrite (u64_id x) by (unfold is_u64; lia). change cb_kCubeFactor with 1836805. rewrite (u64_id (1836805 * x)) by (unfold is_u64; lia).
    destruct (Hc (1836805 * x) ltac:(lia)) as (C1 & C2 & _). set (k := cbrt (1836805 * x)) in *.
    assert (k < 2 ^ 15) as Hk. { apply Z.nle_gt. intros Hge. assert ((2 ^ 15) ^ 3 <= k ^ 3) by (apply Z.pow_le_mono_l; lia). lia. }
    unfold u32. rewrite wrapU_id by lia. split_and!; try lia; try blia.
    unfold cubic_window. rewrite (proj2 (Z.ltb_ge k 0)) by lia. rewrite Z.sub_0_r. change cb_scale with 598600.
    assert (598600 * k ^ 3 / 2 ^ 40 <= x) by (apply Z.div_le_upper_bound; lia). unfold x in *. lia.
Qed.
Lemma start_epoch_running cbrt c acked cwnd time : cb_epoch_ c <> 0 -> cb_start_epoch cbrt c acked cwnd time = c.
Proof. intros H. unfold cb_start_epoch, QuicTime_IsInitialized. rewrite (proj2 (Z.eqb_neq 0 (cb_epoch_ c))); [done|lia]. Qed.

(** Whether an acknowledgement recomputes the window: not within 30 milliseconds of the
    last time, unless the window has changed or the option asks for it. *)
Definition recomputes (c : CubicBytes) (cwnd time : Z) : bool :=
  allow_per_ack_updates_ (cb_options c) || negb (cb_last_congestion_window_ c =? cwnd) || (30000 <? QuicTime_diff time (cb_last_update_time_ c)).

Lemma recomputes_branch c cwnd time : recomputes c cwnd time = true ->
  negb (allow_per_ack_updates_ (cb_options c)) && (cb_last_congestion_window_ c =? cwnd) &&
  Delta_leb (QuicTime_diff time (cb_last_update_time_ c)) MaxCubicTimeInterval = false.
Proof.
  unfold recomputes, Delta_leb, Delta_ltb. change MaxCubicTimeInterval with 30000.
  by destruct (allow_per_ack_updates_ (cb_options c)), (cb_last_congestion_window_ c =? cwnd), (30000 <? _).
Qed.

(** C14: the cubic curve.  With both corrections of the curve on, an acknowledgement that
    recomputes the window sets it to the point of the cubic curve at the time that has
    passed (a round trip ahead), limited to a growth by half of the bytes acknowledged,
    or to the estimate of TCP's window if that is larger; for half a minute around the
    origin.  The first acknowledgement after a loss starts a curve that begins no lower
    than the current window, never falls, and reaches the window before the loss at the
    origin; later ones keep it. *)
Theorem cubic_follows_curve (cbrt : Z -> Z) (c : CubicBytes) (acked cwnd delay time : Z) :
  cbrt_ok cbrt -> fix_convex_mode_ (cb_options c) = true -> fix_cubic_quantization_ (cb_options c) = true ->
  curve_ok c -> recomputes c cwnd time = true -> 0 < cwnd < 2 ^ 22 -> 0 <= cb_last_max_congestion_window_ c < 2 ^ 22 -> 0 <= acked ->
  0 <= cb_acked_bytes_count_ c -> cb_acked_bytes_count_ c + acked < 2 ^ 40 -> 0 < time -> cb_epoch_ c <= time -> 0 <= delay -> time + delay < 2 ^ 50 ->
  let '(c', w) := cb_CongestionWindowAfterAck cbrt c acked cwnd delay time in
  let t := (time + delay - cb_epoch_ c') * 1024 / 1000000 in
  let allowed := cwnd + (if cb_epoch_ c =? 0 then acked else cb_acked_bytes_count_ c + acked) / 2 in
  curve_ok c' /\
  (if cb_epoch_ c =? 0 then cb_epoch_ c' = time /\ cwnd <= cb_curve c' 0 /\ cb_curve c' (cb_time_to_origin_point_ c') = Z.max (cb_last_max_congestion_window_ c) cwnd
   else cb_epoch_ c' = cb_epoch_ c /\ (forall x, cb_curve c' x = cb_curve c x)) /\
  (forall x y, x <= y -> cb_curve c' x <= cb_curve c' y) /\
  (Z.abs (cb_time_to_origin_point_ c' - t) <= 31000 -> w = Z.max (Z.min (cb_curve c' t) allowed) (cb_estimated_tcp_congestion_window_ c')).
Proof.
  intros Hc Hx Hq [He Hcv] Hr Hw Hm Ha Hn Hcount Ht Het Hd Htd. unfold cb_CongestionWindowAfterAck. rewrite (u64_id (_ + acked)) by (unfold is_u64; lia).
  rewrite recomputes_branch by done. match goal with |- context [cb_start_epoch cbrt ?x acked cwnd time] => set (c1 := x) end. set (c2 := cb_start_epoch cbrt c1 acked cwnd time). cbn zeta.
  assert (cb_acked_bytes_count_ c2 = if cb_epoch_ c =? 0 then acked else cb_acked_bytes_count_ c + acked) as Ecount.
  { unfold c2, cb_start_epoch, QuicTime_IsInitialized. change (cb_epoch_ c1) with (cb_epoch_ c). rewrite (Z.eqb_sym 0). by destruct (cb_epoch_ c =? 0). }
  assert (0 <= cb_epoch_ c2 <= time /\ 0 <= cb_time_to_origin_point_ c2 < 2 ^ 15 /\ cb_origin_point_congestion_window_ c2 < 2 ^ 23 /\ 0 <= cb_curve c2 0 /\
    (if cb_epoch_ c =? 0 then cb_epoch_ c2 = time /\ cwnd <= cb_curve c2 0 /\ cb_curve c2 (cb_time_to_origin_point_ c2) = Z.max (cb_last_max_congestion_window_ c) cwnd
     else cb_epoch_ c2 = cb_epoch_ c /\ (forall x, cb_curve c2 x = cb_curve c x))) as (P1 & P2 & P3 & P4 & P5).
  { destruct (cb_epoch_ c =? 0) eqn:E0.
    - destruct (start_epoch_curve cbrt c1 acked cwnd time Hc) as (S1 & S2 & S3 & S4); try done; [simpl; blia|]. fold c2 in S1, S2, S3, S4.
      change (cb_last_max_congestion_window_ c1) with (cb_last_max_congestion_window_ c) in S2. split_and!; try lia; try done.
      unfold cb_curve. rewrite cubic_window_origin. done.
    - unfold c2. rewrite start_epoch_running by (simpl; blia). destruct (Hcv ltac:(blia)) as (S1 & S2 & S3). split_and!; try done; simpl; lia. }
  unfold curve_ok. simpl. change (cubic_window cb_scale (cb_origin_point_congestion_window_ c2) (cb_time_to_origin_point_ c2)) with (cb_curve c2).
  assert (forall x y, x <= y -> cb_curve c2 x <= cb_curve c2 y) as Hmono by (intros; by apply cubic_window_mono).
  split; [split; [lia|done]|]. split; [done|]. split; [done|]. intros Habs.
  rewrite cubic_elapsed_time_exact by lia. set (t := (time + delay - cb_epoch_ c2) * 1024 / 1000000) in *.
  assert (0 <= t) as Ht0 by (unfold t; apply Z.div_pos; lia).
  assert (cb_curve c2 t < 2 ^ 64) as Hup.
  { unfold cb_curve, cubic_window. change cb_scale with 598600.
    assert (forall z, 0 <= z <= 31000 -> 0 <= 598600 * z ^ 3 / 2 ^ 40 < 2 ^ 30) as Hz.
    { intros z Hz. assert (0 <= z ^ 3 <= 31000 ^ 3) by (split; [apply Z.pow_nonneg; lia|apply Z.pow_le_mono_l; lia]).
      split; [apply Z.div_pos; lia|apply Z.div_lt_upper_bound; lia]. }
    case_if; [pose proof (Hz (t - cb_time_to_origin_point_ c2))|pose proof (Hz (cb_time_to_origin_point_ c2 - t))]; blia. }
  rewrite cb_target_curve; [|done|done|lia|done|done|pose proof (Hmono 0 t Ht0); unfold cb_curve in *; lia]. fold (cb_curve c2 t).
  assert (0 <= cb_acked_bytes_count_ c2 < 2 ^ 40) as Hcnt by (rewrite Ecount; destruct (cb_epoch_ c =? 0); lia).
  rewrite <- Ecount. rewrite (u64_id (cwnd + _)) by (unfold is_u64; Z.div_mod_to_equations; lia). unfold cb_curve. simpl. case_if; blia.
Qed.

(** The integer cube root, bit by bit. *)
Fixpoint icbrt_loop (bits : nat) (x root : Z) : Z :=
  match bits with
  | O => root
  | S bits => let r := root + 2 ^ Z.of_nat bits in icbrt_loop bits x (if r ^ 3 <=? x then r else root)
  end.
Definition icbrt (x : Z) : Z := icbrt_loop 15 x 0.
Lemma icbrt_loop_ok bits x root : 0 <= root -> root ^ 3 <= x < (root + 2 ^ Z.of_nat bits) ^ 3 ->
  root <= icbrt_loop bits x root /\ icbrt_loop bits x root ^ 3 <= x < (icbrt_loop bits x root + 1) ^ 3.
Proof.
  revert root. induction bits as [|bits IH]; intros root Hr Hx; [done|]. cbn [icbrt_loop]. cbn zeta.
  rewrite Nat2Z.inj_succ, Z.pow_succ_r in Hx by lia. assert (0 < 2 ^ Z.of_nat bits) by (apply Z.pow_pos_nonneg; lia). case_if.
  - destruct (IH (root + 2 ^ Z.of_nat bits)) as [I1 I2]; [lia| |lia].
    split; [blia|]. replace (root + 2 ^ Z.of_nat bits + 2 ^ Z.of_nat bits) with (root + 2 * 2 ^ Z.of_nat bits) by lia. apply Hx.
  - apply IH; [done|]. split; [lia|blia].
Qed.
Lemma icbrt_ok : cbrt_ok icbrt.
Proof.
  intros x Hx. assert (0 ^ 3 <= x < (0 + 2 ^ Z.of_nat 15) ^ 3) as Hb by (change (Z.of_nat 15) with 15; lia).
  pose proof (icbrt_loop_ok 15 x 0 (Z.le_refl 0) Hb) as H. unfold icbrt. exact H.
Qed.

(** A window of 100000 bytes was cut to 85000; the curve climbs back to 100000 in 2.95
    seconds (3020 / 1024). *)
Definition cut_example : CubicBytes := MkCubicBytes (MkCubicOptions 2 true true false false) 0 0 0 100000 0 0 0 0 0.
Lemma cubic_follows_curve_witness :
  let '(c', w) := cb_CongestionWindowAfterAck icbrt cut_example 1460 85000 100000 5000000 in
  cb_epoch_ c' = 5000000 /\ 85000 <= cb_curve c' 0 /\ cb_curve c' (cb_time_to_origin_point_ c') = 100000 /\ cb_time_to_origin_point_ c' = 3020.
Proof.
  assert (curve_ok cut_example) as Hok by (split; [vm_compute; discriminate|intros H; destruct H; reflexivity]).
  assert (0 < 85000 < 2 ^ 22) as B1 by lia. assert (0 <= 100000 < 2 ^ 22) as B2 by lia. assert (0 <= 1460) as B3 by lia. assert (0 <= 0) as B4 by lia.
  assert (0 + 1460 < 2 ^ 40) as B5 by lia. assert (0 < 5000000) as B6 by lia. assert (0 <= 5000000) as B7 by lia. assert (0 <= 100000) as B8 by lia.
  assert (5000000 + 100000 < 2 ^ 50) as B9 by lia.
  pose proof (cubic_follows_curve icbrt cut_example 1460 85000 100000 5000000 icbrt_ok eq_refl eq_refl Hok eq_refl B1 B2 B3 B4 B5 B6 B7 B8 B9) as H.
  assert (cb_time_to_origin_point_ (cb_CongestionWindowAfterAck icbrt cut_example 1460 85000 100000 5000000).1 = 3020) as Hk by (vm_compute; reflexivity).
  destruct (cb_CongestionWindowAfterAck icbrt cut_example 1460 85000 100000 5000000) as [c' w].
  destruct H as (_ & (H1 & H2 & H3) & _). split; [exact H1|]. split; [exact H2|]. split; [exact H3|]. exact Hk.
Defined.

(** one correction without the other.  With the quantization correction on and the
    convex correction off (the options kCBQT without kCCVX), the target wraps around as
    soon as the curve has passed its origin: for 22 seconds every acknowledgement that
    recomputes the window lets it grow by the full half of the bytes acknowledged, as in
    slow start, whatever the curve says. *)
Lemma cubic_quantization_ignores_curve (cbrt : Z -> Z) (c : CubicBytes) (acked cwnd delay time : Z) :
  fix_convex_mode_ (cb_options c) = false -> fix_cubic_quantization_ (cb_options c) = true -> recomputes c cwnd time = true ->
  cb_epoch_ c <> 0 -> 0 <= cb_epoch_ c <= time -> 0 <= delay -> time + delay < 2 ^ 50 -> 0 < cwnd < 2 ^ 22 ->
  0 <= cb_acked_bytes_count_ c -> 0 <= acked -> cb_acked_bytes_count_ c + acked < 2 ^ 40 ->
  0 <= cb_origin_point_congestion_window_ c < 2 ^ 22 -> 0 <= cb_time_to_origin_point_ c ->
  let t := (time + delay - cb_epoch_ c) * 1024 / 1000000 in
  cb_time_to_origin_point_ c < t <= cb_time_to_origin_point_ c + 23000 ->
  cwnd + (cb_acked_bytes_count_ c + acked) / 2 <= (cb_CongestionWindowAfterAck cbrt c acked cwnd delay time).2.
Proof.
  intros Hx Hq Hr He Het Hd Htd Hw Hn Ha Hcount Ho Hk t Ht. unfold cb_CongestionWindowAfterAck. rewrite (u64_id (_ + acked)) by (unfold is_u64; lia).
  rewrite recomputes_branch by done. rewrite start_epoch_running by done. simpl. rewrite cubic_elapsed_time_exact by lia. fold t.
  pose proof (cb_target_wraps (cb_options c) _ _ t Hx Hq Hk Ht Ho) as Hwrap.
  rewrite (u64_id (cwnd + _)) by (unfold is_u64; Z.div_mod_to_equations; lia).
  assert ((cb_acked_bytes_count_ c + acked) / 2 < 2 ^ 40) by (apply Z.div_lt_upper_bound; lia). case_if; blia.
Qed.
Lemma cubic_quantization_ignores_curve_witness :
  let c := MkCubicBytes (MkCubicOptions 2 false true false false) 1000000 1000000 80000 100000 20000 85000 100000 3020 80000 in
  100000 <= (cb_CongestionWindowAfterAck icbrt c 20000 80000 100000 4000000).2.
Proof.
  cbn zeta. refine (cubic_quantization_ignores_curve icbrt (MkCubicBytes (MkCubicOptions 2 false true false false) 1000000 1000000 80000 100000 20000 85000 100000 3020 80000)
    20000 80000 100000 4000000 eq_refl eq_refl eq_refl _ _ _ _ _ _ _ _ _ _ _); vm_compute; intuition congruence.
Defined.
