(* ===== verification/TcpCubicSender.v ===== *)
(** * TCP style congestion control

    congestion_control/tcp_cubic_sender_base.cc and its two subclasses, which count the
    window in bytes (tcp_cubic_sender_bytes.cc) and in packets
    (tcp_cubic_sender_packets.cc), with Reno or cubic growth.  The base class is written
    against the virtual methods ([CwndView], [CubicSenderOps]); the subclasses are
    instances.  The statistics object that the sender shares with the connection is held
    with its four counters; the round trip times are an argument. *)

From S2P Require Import Prelude QuicTime UnackedPacketMap QuicBandwidth RttStats SoftFloat SlowStart CubicWindow LossAlgorithm SentPacketManager.

(** ** The base class *)

Record SlowStartStats := MkSlowStartStats { slowstart_packets_sent : Z; slowstart_packets_lost : Z; slowstart_bytes_lost : Z; tcp_loss_events : Z }.

Record TcpCubicSenderBase := MkBase {
  hybrid_slow_start_ : HybridSlowStart; prr_ : PrrSender; tcb_stats_ : SlowStartStats; reno_ : bool; num_connections_ : Z;
  largest_sent_packet_number_ : Z; largest_acked_packet_number_ : Z; largest_sent_at_last_cutback_ : Z;
  min4_mode_ : bool; last_cutback_exited_slowstart_ : bool; slow_start_large_reduction_ : bool; no_prr_ : bool }.

Definition kMaxBurstBytes : Z := 3 * kDefaultTCPMSS.
Definition kRenoBeta : flt := kBeta.
Definition kMaxResumptionCongestionWindow : Z := 200.
(** The largest window of every controller the factory makes, in packets. *)
Definition kDefaultMaxCongestionWindowPackets : Z := 2000.

Definition TcpCubicSenderBase_new (reno : bool) (stats : SlowStartStats) : TcpCubicSenderBase :=
  MkBase HybridSlowStart_new PrrSender_new stats reno kDefaultNumConnections 0 0 0 false false false false.

Definition b_set_hss (b : TcpCubicSenderBase) (h : HybridSlowStart) : TcpCubicSenderBase :=
  MkBase h (prr_ b) (tcb_stats_ b) (reno_ b) (num_connections_ b) (largest_sent_packet_number_ b) (largest_acked_packet_number_ b)
    (largest_sent_at_last_cutback_ b) (min4_mode_ b) (last_cutback_exited_slowstart_ b) (slow_start_large_reduction_ b) (no_prr_ b).
Definition b_set_prr (b : TcpCubicSenderBase) (p : PrrSender) : TcpCubicSenderBase :=
  MkBase (hybrid_slow_start_ b) p (tcb_stats_ b) (reno_ b) (num_connections_ b) (largest_sent_packet_number_ b) (largest_acked_packet_number_ b)
    (largest_sent_at_last_cutback_ b) (min4_mode_ b) (last_cutback_exited_slowstart_ b) (slow_start_large_reduction_ b) (no_prr_ b).
Definition b_set_stats (b : TcpCubicSenderBase) (s : SlowStartStats) : TcpCubicSenderBase :=
  MkBase (hybrid_slow_start_ b) (prr_ b) s (reno_ b) (num_connections_ b) (largest_sent_packet_number_ b) (largest_acked_packet_number_ b)
    (largest_sent_at_last_cutback_ b) (min4_mode_ b) (last_cutback_exited_slowstart_ b) (slow_start_large_reduction_ b) (no_prr_ b).
Definition b_set_largest (b : TcpCubicSenderBase) (sent acked cutback : Z) : TcpCubicSenderBase :=
  MkBase (hybrid_slow_start_ b) (prr_ b) (tcb_stats_ b) (reno_ b) (num_connections_ b) sent acked cutback
    (min4_mode_ b) (last_cutback_exited_slowstart_ b) (slow_start_large_reduction_ b) (no_prr_ b).
Definition b_set_exited (b : TcpCubicSenderBase) (x : bool) : TcpCubicSenderBase :=
  MkBase (hybrid_slow_start_ b) (prr_ b) (tcb_stats_ b) (reno_ b) (num_connections_ b) (largest_sent_packet_number_ b) (largest_acked_packet_number_ b)
    (largest_sent_at_last_cutback_ b) (min4_mode_ b) x (slow_start_large_reduction_ b) (no_prr_ b).
Definition b_set_modes (b : TcpCubicSenderBase) (min4 large_reduction no_prr : bool) : TcpCubicSenderBase :=
  MkBase (hybrid_slow_start_ b) (prr_ b) (tcb_stats_ b) (reno_ b) (num_connections_ b) (largest_sent_packet_number_ b) (largest_acked_packet_number_ b)
    (largest_sent_at_last_cutback_ b) min4 (last_cutback_exited_slowstart_ b) large_reduction no_prr.
Definition b_set_connections (b : TcpCubicSenderBase) (n : Z) : TcpCubicSenderBase :=
  MkBase (hybrid_slow_start_ b) (prr_ b) (tcb_stats_ b) (reno_ b) n (largest_sent_packet_number_ b) (largest_acked_packet_number_ b)
    (largest_sent_at_last_cutback_ b) (min4_mode_ b) (last_cutback_exited_slowstart_ b) (slow_start_large_reduction_ b) (no_prr_ b).
Definition stats_sent (b : TcpCubicSenderBase) : TcpCubicSenderBase :=
  let s := tcb_stats_ b in
  b_set_stats b (MkSlowStartStats (slowstart_packets_sent s +64 1) (slowstart_packets_lost s) (slowstart_bytes_lost s) (tcp_loss_events s)).
Definition stats_slowstart_loss (b : TcpCubicSenderBase) (bytes : Z) : TcpCubicSenderBase :=
  let s := tcb_stats_ b in
  b_set_stats b (MkSlowStartStats (slowstart_packets_sent s) (slowstart_packets_lost s +64 1) (slowstart_bytes_lost s +64 bytes) (tcp_loss_events s)).
Definition stats_loss_event (b : TcpCubicSenderBase) : TcpCubicSenderBase :=
  let s := tcb_stats_ b in
  b_set_stats b (MkSlowStartStats (slowstart_packets_sent s) (slowstart_packets_lost s) (slowstart_bytes_lost s) (u32 (tcp_loss_events s + 1))).

Definition RenoBeta (b : TcpCubicSenderBase) : flt := emulated_factor (num_connections_ b) kRenoBeta.
Definition tcs_InRecovery (b : TcpCubicSenderBase) : bool :=
  (largest_acked_packet_number_ b <=? largest_sent_at_last_cutback_ b) && negb (largest_acked_packet_number_ b =? 0).
Definition base_SetNumEmulatedConnections (b : TcpCubicSenderBase) (n : Z) : TcpCubicSenderBase := b_set_connections b (Z.max 1 n).
Definition base_OnConnectionMigration (b : TcpCubicSenderBase) : TcpCubicSenderBase :=
  b_set_exited (b_set_largest (b_set_prr (b_set_hss b (Restart (hybrid_slow_start_ b))) PrrSender_new) 0 0 0) false.

(** What a subclass tells the base class. *)
Class CwndView (S : Type) := {
  get_base : S -> TcpCubicSenderBase;
  set_base : S -> TcpCubicSenderBase -> S;
  GetCongestionWindow : S -> Z;
  GetSlowStartThreshold : S -> Z }.

Section View.
Context {S : Type} `{CwndView S}.
Definition tcs_InSlowStart (s : S) : bool := GetCongestionWindow s <? GetSlowStartThreshold s.
Definition IsCwndLimited (s : S) (bytes_in_flight : Z) : bool :=
  let congestion_window := GetCongestionWindow s in
  if bytes_in_flight >=? congestion_window then true
  else
    let available_bytes := congestion_window -64 bytes_in_flight in
    (tcs_InSlowStart s && (bytes_in_flight >? congestion_window / 2)) || (available_bytes <=? kMaxBurstBytes).
End View.

(** The virtual methods that change the sender. *)
Class CubicSenderOps (S : Type) `{CwndView S} := {
  SetCongestionWindowFromBandwidthAndRtt : S -> Z -> Z -> S;
  SetCongestionWindowInPackets : S -> Z -> S;
  SetMinCongestionWindowInPackets : S -> Z -> S;
  ExitSlowstart : S -> S;
  tcs_OnPacketLost : S -> Z -> Z -> Z -> S;
  MaybeIncreaseCwnd : RttStats -> S -> Z -> Z -> Z -> Z -> S;
  HandleRetransmissionTimeout : S -> S }.

(** The connection options of the two levels. *)
Inductive CongestionOption := kIW03 | kIW10 | kIW20 | kIW50 | kMIN1 | kMIN4 | kSSLR | kNPRR | kCCVX | kCBQT | kBLMX | kCPAU.

Section Base.
Context {S : Type} `{CubicSenderOps S}.

Definition base_SetFromConfig (s : S) (received : CongestionOption -> bool) (is_server : bool) : S :=
  if negb is_server then s
  else
    let s := if received kIW03 then SetCongestionWindowInPackets s 3 else s in
    let s := if received kIW10 then SetCongestionWindowInPackets s 10 else s in
    let s := if received kIW20 then SetCongestionWindowInPackets s 20 else s in
    let s := if received kIW50 then SetCongestionWindowInPackets s 50 else s in
    let s := if received kMIN1 then SetMinCongestionWindowInPackets s 1 else s in
    let s := if received kMIN4 then
               let b := get_base s in
               SetMinCongestionWindowInPackets (set_base s (b_set_modes b true (slow_start_large_reduction_ b) (no_prr_ b))) 1 else s in
    let s := if received kSSLR then let b := get_base s in set_base s (b_set_modes b (min4_mode_ b) true (no_prr_ b)) else s in
    if received kNPRR then let b := get_base s in set_base s (b_set_modes b (min4_mode_ b) (slow_start_large_reduction_ b) true) else s.

Definition AdjustNetworkParameters (s : S) (bandwidth rtt : Z) : S :=
  if QuicBandwidth_IsZero bandwidth || Delta_IsZero rtt then s else SetCongestionWindowFromBandwidthAndRtt s bandwidth rtt.

Definition tcs_OnPacketAcked (r : RttStats) (s : S) (acked_packet_number acked_bytes prior_in_flight event_time : Z) : S :=
  let b := get_base s in
  let b := b_set_largest b (largest_sent_packet_number_ b) (Z.max acked_packet_number (largest_acked_packet_number_ b)) (largest_sent_at_last_cutback_ b) in
  if tcs_InRecovery b then set_base s (if no_prr_ b then b else b_set_prr b (prr_OnPacketAcked (prr_ b) acked_bytes))
  else
    let s := MaybeIncreaseCwnd r (set_base s b) acked_packet_number acked_bytes prior_in_flight event_time in
    if tcs_InSlowStart s then
      let b := get_base s in set_base s (b_set_hss b (hss_OnPacketAcked (hybrid_slow_start_ b) acked_packet_number))
    else s.

Definition tcs_OnCongestionEvent (r : RttStats) (s : S) (rtt_updated : bool) (prior_in_flight event_time : Z) (acked_packets lost_packets : CongestionVector) : S :=
  let s := if rtt_updated && tcs_InSlowStart s then
             let b := get_base s in
             let '(h, exit) := ShouldExitSlowStart (hybrid_slow_start_ b) (latest_rtt_ r) (min_rtt_ r) (GetCongestionWindow s / kDefaultTCPMSS) in
             let s := set_base s (b_set_hss b h) in
             if exit then ExitSlowstart s else s
           else s in
  let s := fold_left (fun s p => tcs_OnPacketLost s p.1 p.2 prior_in_flight) lost_packets s in
  fold_left (fun s p => tcs_OnPacketAcked r s p.1 p.2 prior_in_flight event_time) acked_packets s.

Definition tcs_OnPacketSent (s : S) (packet_number bytes : Z) (has_retransmittable_data : bool) : S * bool :=
  let s := if tcs_InSlowStart s then set_base s (stats_sent (get_base s)) else s in
  if negb has_retransmittable_data then (s, false)
  else
    let b := get_base s in
    let b := if tcs_InRecovery b then b_set_prr b (prr_OnPacketSent (prr_ b) bytes) else b in
    let b := b_set_largest b packet_number (largest_acked_packet_number_ b) (largest_sent_at_last_cutback_ b) in
    (set_base s (b_set_hss b (hss_OnPacketSent (hybrid_slow_start_ b) packet_number)), true).

Definition tcs_TimeUntilSend (s : S) (bytes_in_flight : Z) : Z :=
  let b := get_base s in
  if negb (no_prr_ b) && tcs_InRecovery b then prr_TimeUntilSend (prr_ b) (GetCongestionWindow s) bytes_in_flight (GetSlowStartThreshold s)
  else if GetCongestionWindow s >? bytes_in_flight then Delta_Zero
  else if min4_mode_ b && (bytes_in_flight <? 4 * kDefaultTCPMSS) then Delta_Zero
  else Delta_Infinite.

Definition tcs_PacingRate (r : RttStats) (s : S) : Z :=
  let b := get_base s in
  let srtt := if Delta_IsZero (smoothed_rtt_ r) then Delta_FromMicroseconds (initial_rtt_us_ r) else smoothed_rtt_ r in
  QuicBandwidth_mul_float (QuicBandwidth_FromBytesAndTimeDelta (GetCongestionWindow s) srtt)
    (if tcs_InSlowStart s then (2, 1) else if no_prr_ b && tcs_InRecovery b then (1, 1) else (5, 4)).
Definition tcs_BandwidthEstimate (r : RttStats) (s : S) : Z :=
  if Delta_IsZero (smoothed_rtt_ r) then QuicBandwidth_Zero else QuicBandwidth_FromBytesAndTimeDelta (GetCongestionWindow s) (smoothed_rtt_ r).

Definition tcs_OnRetransmissionTimeout (s : S) (packets_retransmitted : bool) : S :=
  let b := get_base s in
  let s := set_base s (b_set_largest b (largest_sent_packet_number_ b) (largest_acked_packet_number_ b) 0) in
  if negb packets_retransmitted then s
  else let b := get_base s in HandleRetransmissionTimeout (set_base s (b_set_hss b (Restart (hybrid_slow_start_ b)))).
End Base.

(** ** The window in bytes *)

Record TcpCubicSenderBytes := MkBytes {
  tb_base : TcpCubicSenderBase; tb_cubic_ : CubicBytes; tb_num_acked_packets_ : Z; tb_congestion_window_ : Z; tb_min_congestion_window_ : Z;
  tb_max_congestion_window_ : Z; tb_slowstart_threshold_ : Z; tb_initial_tcp_congestion_window_ : Z; tb_initial_max_tcp_congestion_window_ : Z;
  tb_min_slow_start_exit_window_ : Z }.

Definition tb_kDefaultMinimumCongestionWindow : Z := 2 * kDefaultTCPMSS.
Definition TcpCubicSenderBytes_new (reno : bool) (initial_tcp_congestion_window max_congestion_window : Z) (stats : SlowStartStats) : TcpCubicSenderBytes :=
  let initial := u64 (initial_tcp_congestion_window * kDefaultTCPMSS) in
  let max := u64 (max_congestion_window * kDefaultTCPMSS) in
  MkBytes (TcpCubicSenderBase_new reno stats) CubicBytes_new 0 initial tb_kDefaultMinimumCongestionWindow max max initial max tb_kDefaultMinimumCongestionWindow.

Definition tb_set_base (s : TcpCubicSenderBytes) (b : TcpCubicSenderBase) : TcpCubicSenderBytes :=
  MkBytes b (tb_cubic_ s) (tb_num_acked_packets_ s) (tb_congestion_window_ s) (tb_min_congestion_window_ s) (tb_max_congestion_window_ s)
    (tb_slowstart_threshold_ s) (tb_initial_tcp_congestion_window_ s) (tb_initial_max_tcp_congestion_window_ s) (tb_min_slow_start_exit_window_ s).
Definition tb_set_cubic (s : TcpCubicSenderBytes) (c : CubicBytes) : TcpCubicSenderBytes :=
  MkBytes (tb_base s) c (tb_num_acked_packets_ s) (tb_congestion_window_ s) (tb_min_congestion_window_ s) (tb_max_congestion_window_ s)
    (tb_slowstart_threshold_ s) (tb_initial_tcp_congestion_window_ s) (tb_initial_max_tcp_congestion_window_ s) (tb_min_slow_start_exit_window_ s).
Definition tb_set_acked (s : TcpCubicSenderBytes) (n : Z) : TcpCubicSenderBytes :=
  MkBytes (tb_base s) (tb_cubic_ s) n (tb_congestion_window_ s) (tb_min_congestion_window_ s) (tb_max_congestion_window_ s)
    (tb_slowstart_threshold_ s) (tb_initial_tcp_congestion_window_ s) (tb_initial_max_tcp_congestion_window_ s) (tb_min_slow_start_exit_window_ s).
Definition tb_set_window (s : TcpCubicSenderBytes) (w : Z) : TcpCubicSenderBytes :=
  MkBytes (tb_base s) (tb_cubic_ s) (tb_num_acked_packets_ s) w (tb_min_congestion_window_ s) (tb_max_congestion_window_ s)
    (tb_slowstart_threshold_ s) (tb_initial_tcp_congestion_window_ s) (tb_initial_max_tcp_congestion_window_ s) (tb_min_slow_start_exit_window_ s).
Definition tb_set_limits (s : TcpCubicSenderBytes) (min max initial : Z) : TcpCubicSenderBytes :=
  MkBytes (tb_base s) (tb_cubic_ s) (tb_num_acked_packets_ s) (tb_congestion_window_ s) min max
    (tb_slowstart_threshold_ s) initial (tb_initial_max_tcp_congestion_window_ s) (tb_min_slow_start_exit_window_ s).
Definition tb_set_threshold (s : TcpCubicSenderBytes) (t : Z) : TcpCubicSenderBytes :=
  MkBytes (tb_base s) (tb_cubic_ s) (tb_num_acked_packets_ s) (tb_congestion_window_ s) (tb_min_congestion_window_ s) (tb_max_congestion_window_ s)
    t (tb_initial_tcp_congestion_window_ s) (tb_initial_max_tcp_congestion_window_ s) (tb_min_slow_start_exit_window_ s).
Definition tb_set_exit (s : TcpCubicSenderBytes) (w : Z) : TcpCubicSenderBytes :=
  MkBytes (tb_base s) (tb_cubic_ s) (tb_num_acked_packets_ s) (tb_congestion_window_ s) (tb_min_congestion_window_ s) (tb_max_congestion_window_ s)
    (tb_slowstart_threshold_ s) (tb_initial_tcp_congestion_window_ s) (tb_initial_max_tcp_congestion_window_ s) w.

#[global] Instance TcpCubicSenderBytes_view : CwndView TcpCubicSenderBytes := {
  get_base := tb_base; set_base := tb_set_base; GetCongestionWindow := tb_congestion_window_; GetSlowStartThreshold := tb_slowstart_threshold_ }.

(** A window for a bandwidth and a round trip time, within the limits for resumption. *)
Definition tb_window_for (s : TcpCubicSenderBytes) (bandwidth rtt : Z) : Z :=
  Z.max (tb_min_congestion_window_ s) (Z.min (QuicBandwidth_ToBytesPerPeriod bandwidth rtt) (kMaxResumptionCongestionWindow * kDefaultTCPMSS)).
Definition tb_SetCongestionWindowFromBandwidthAndRtt (s : TcpCubicSenderBytes) (bandwidth rtt : Z) : TcpCubicSenderBytes := tb_set_window s (tb_window_for s bandwidth rtt).
Definition tb_SetCongestionWindowInPackets (s : TcpCubicSenderBytes) (n : Z) : TcpCubicSenderBytes := tb_set_window s (u64 (n * kDefaultTCPMSS)).
Definition tb_SetMinCongestionWindowInPackets (s : TcpCubicSenderBytes) (n : Z) : TcpCubicSenderBytes :=
  tb_set_limits s (u64 (n * kDefaultTCPMSS)) (tb_max_congestion_window_ s) (tb_initial_tcp_congestion_window_ s).
Definition tb_ExitSlowstart (s : TcpCubicSenderBytes) : TcpCubicSenderBytes := tb_set_threshold s (tb_congestion_window_ s).

(** A loss of a packet sent before the last cutback. *)
Definition tb_old_loss (s : TcpCubicSenderBytes) (lost_bytes : Z) : TcpCubicSenderBytes :=
  let b := tb_base s in
  if last_cutback_exited_slowstart_ b then
    let s := tb_set_base s (stats_slowstart_loss b lost_bytes) in
    if slow_start_large_reduction_ b then
      let s := tb_set_window s (Z.max (tb_congestion_window_ s -64 lost_bytes) (tb_min_slow_start_exit_window_ s)) in
      tb_set_threshold s (tb_congestion_window_ s)
    else s
  else s.
(** The window after the loss of a packet sent since. *)
Definition tb_cutback (s : TcpCubicSenderBytes) : TcpCubicSenderBytes :=
  let b := tb_base s in
  if slow_start_large_reduction_ b && tcs_InSlowStart s then
    let s := if tb_congestion_window_ s >=? u64 (2 * tb_initial_tcp_congestion_window_ s) then tb_set_exit s (tb_congestion_window_ s / 2) else s in
    tb_set_window s (tb_congestion_window_ s -64 kDefaultTCPMSS)
  else if reno_ b then tb_set_window s (u64 (f32_trunc (f32_mul (f32_of_int (tb_congestion_window_ s)) (RenoBeta b))))
  else let '(c, w) := cb_CongestionWindowAfterPacketLoss (tb_cubic_ s) (tb_congestion_window_ s) in tb_set_window (tb_set_cubic s c) w.
Definition tb_OnPacketLost (s : TcpCubicSenderBytes) (packet_number lost_bytes prior_in_flight : Z) : TcpCubicSenderBytes :=
  if packet_number <=? largest_sent_at_last_cutback_ (tb_base s) then tb_old_loss s lost_bytes
  else
    let b := b_set_exited (stats_loss_event (tb_base s)) (tcs_InSlowStart s) in
    let b := if tcs_InSlowStart s then stats_slowstart_loss b 0 else b in
    let b := if no_prr_ b then b else b_set_prr b (prr_OnPacketLost (prr_ b) prior_in_flight) in
    let s := tb_cutback (tb_set_base s b) in
    let s := if tb_congestion_window_ s <? tb_min_congestion_window_ s then tb_set_window s (tb_min_congestion_window_ s) else s in
    let s := tb_set_threshold s (tb_congestion_window_ s) in
    let b := tb_base s in
    tb_set_acked (tb_set_base s (b_set_largest b (largest_sent_packet_number_ b) (largest_acked_packet_number_ b) (largest_sent_packet_number_ b))) 0.

Section BytesOps.
Context (cbrt : Z -> Z).
Definition tb_MaybeIncreaseCwnd (r : RttStats) (s : TcpCubicSenderBytes) (acked_packet_number acked_bytes prior_in_flight event_time : Z) : TcpCubicSenderBytes :=
  if negb (IsCwndLimited s prior_in_flight) then tb_set_cubic s (cb_OnApplicationLimited (tb_cubic_ s))
  else if tb_congestion_window_ s >=? tb_max_congestion_window_ s then s
  else if tcs_InSlowStart s then tb_set_window s (tb_congestion_window_ s +64 kDefaultTCPMSS)
  else if reno_ (tb_base s) then
    let s := tb_set_acked s (tb_num_acked_packets_ s +64 1) in
    if u64 (tb_num_acked_packets_ s * num_connections_ (tb_base s)) >=? tb_congestion_window_ s / kDefaultTCPMSS
    then tb_set_acked (tb_set_window s (tb_congestion_window_ s +64 kDefaultTCPMSS)) 0 else s
  else
    let '(c, w) := cb_CongestionWindowAfterAck cbrt (tb_cubic_ s) acked_bytes (tb_congestion_window_ s) (min_rtt_ r) event_time in
    tb_set_window (tb_set_cubic s c) (Z.min (tb_max_congestion_window_ s) w).
End BytesOps.

Definition tb_HandleRetransmissionTimeout (s : TcpCubicSenderBytes) : TcpCubicSenderBytes :=
  let s := tb_set_cubic s (cb_ResetCubicState (tb_cubic_ s)) in
  tb_set_window (tb_set_threshold s (tb_congestion_window_ s / 2)) (tb_min_congestion_window_ s).

Definition TcpCubicSenderBytes_ops (cbrt : Z -> Z) : CubicSenderOps TcpCubicSenderBytes := {|
  SetCongestionWindowFromBandwidthAndRtt := tb_SetCongestionWindowFromBandwidthAndRtt;
  SetCongestionWindowInPackets := tb_SetCongestionWindowInPackets;
  SetMinCongestionWindowInPackets := tb_SetMinCongestionWindowInPackets;
  ExitSlowstart := tb_ExitSlowstart;
  tcs_OnPacketLost := tb_OnPacketLost;
  MaybeIncreaseCwnd := tb_MaybeIncreaseCwnd cbrt;
  HandleRetransmissionTimeout := tb_HandleRetransmissionTimeout |}.

Definition tb_SetNumEmulatedConnections (s : TcpCubicSenderBytes) (n : Z) : TcpCubicSenderBytes :=
  let s := tb_set_base s (base_SetNumEmulatedConnections (tb_base s) n) in
  tb_set_cubic s (cb_with_options (tb_cubic_ s) (SetNumConnections (cb_options (tb_cubic_ s)) (num_connections_ (tb_base s)))).
Definition tb_OnConnectionMigration (s : TcpCubicSenderBytes) : TcpCubicSenderBytes :=
  let s := tb_set_base s (base_OnConnectionMigration (tb_base s)) in
  let s := tb_set_acked (tb_set_cubic s (cb_ResetCubicState (tb_cubic_ s))) 0 in
  let s := tb_set_window s (tb_initial_tcp_congestion_window_ s) in
  let s := tb_set_limits s (tb_min_congestion_window_ s) (tb_initial_max_tcp_congestion_window_ s) (tb_initial_tcp_congestion_window_ s) in
  tb_set_threshold s (tb_initial_max_tcp_congestion_window_ s).
Definition cubic_config (o : CubicOptions) (received : CongestionOption -> bool) : CubicOptions :=
  let o := if received kCCVX then SetFixConvexMode o true else o in
  let o := if received kBLMX then SetFixBetaLastMax o true else o in
  if received kCPAU then SetAllowPerAckUpdates o true else o.
Definition tb_SetFromConfig (cbrt : Z -> Z) (s : TcpCubicSenderBytes) (received : CongestionOption -> bool) (is_server : bool) : TcpCubicSenderBytes :=
  let s := @base_SetFromConfig _ _ (TcpCubicSenderBytes_ops cbrt) s received is_server in
  let o := cubic_config (cb_options (tb_cubic_ s)) received in
  tb_set_cubic s (cb_with_options (tb_cubic_ s) (if received kCBQT then SetFixCubicQuantization o true else o)).

(** The setters of the simulation. *)
Definition SetSlowstartthresholdInBytesPublic (s : TcpCubicSenderBytes) (threshold : Z) : TcpCubicSenderBytes :=
  tb_set_threshold s (Z.max (tb_min_congestion_window_ s) (Z.min threshold (tb_slowstart_threshold_ s))).
Definition SetSlowstartthresholdFromBandwidthAndRttPublic (s : TcpCubicSenderBytes) (bandwidth rtt : Z) : TcpCubicSenderBytes :=
  SetSlowstartthresholdInBytesPublic s (QuicBandwidth_ToBytesPerPeriod bandwidth rtt).
Definition SetMinSlowstartExitWindowPublic (s : TcpCubicSenderBytes) (window_size : Z) : TcpCubicSenderBytes :=
  tb_set_exit s (Z.min (tb_congestion_window_ s) (Z.max (tb_initial_tcp_congestion_window_ s / 2) window_size)).
Definition SetMinSlowstartExitWindowFromBandwidthAndRttPublic (s : TcpCubicSenderBytes) (bandwidth rtt : Z) : TcpCubicSenderBytes :=
  SetMinSlowstartExitWindowPublic s (QuicBandwidth_ToBytesPerPeriod bandwidth rtt).
Definition SetCongestionWindowFromBandwidthAndRttPublic (s : TcpCubicSenderBytes) (bandwidth rtt : Z) : TcpCubicSenderBytes := tb_set_window s (tb_window_for s bandwidth rtt).
Definition SetCongestionWindowInPacketsPublic (s : TcpCubicSenderBytes) (n : Z) : TcpCubicSenderBytes := tb_set_window s (u64 (n * kDefaultTCPMSS)).
Definition SetInitialCongestionWindowInBytesPublic (s : TcpCubicSenderBytes) (w : Z) : TcpCubicSenderBytes :=
  tb_set_limits s (tb_min_congestion_window_ s) (tb_max_congestion_window_ s) w.
Definition SetInitialCongestionWindowFromBandwidthAndRttPublic (s : TcpCubicSenderBytes) (bandwidth rtt : Z) : TcpCubicSenderBytes :=
  tb_set_limits s (tb_min_congestion_window_ s) (tb_max_congestion_window_ s) (tb_window_for s bandwidth rtt).
Definition tb_GetCongestionControlType (s : TcpCubicSenderBytes) : CongestionControlType := if reno_ (tb_base s) then kRenoBytes else kCubicBytes.

(** ** The window in packets *)

Record TcpCubicSenderPackets := MkPackets {
  tp_base : TcpCubicSenderBase; tp_cubic_ : Cubic; tp_congestion_window_count_ : Z; tp_congestion_window_ : Z; tp_min_congestion_window_ : Z;
  tp_slowstart_threshold_ : Z; tp_max_tcp_congestion_window_ : Z; tp_initial_tcp_congestion_window_ : Z; tp_initial_max_tcp_congestion_window_ : Z;
  tp_min_slow_start_exit_window_ : Z }.

Definition tp_kDefaultMinimumCongestionWindow : Z := 2.
Definition TcpCubicSenderPackets_new (reno : bool) (initial max : Z) (stats : SlowStartStats) : TcpCubicSenderPackets :=
  MkPackets (TcpCubicSenderBase_new reno stats) Cubic_new 0 initial tp_kDefaultMinimumCongestionWindow max max initial max tp_kDefaultMinimumCongestionWindow.

Definition tp_set_base (s : TcpCubicSenderPackets) (b : TcpCubicSenderBase) : TcpCubicSenderPackets :=
  MkPackets b (tp_cubic_ s) (tp_congestion_window_count_ s) (tp_congestion_window_ s) (tp_min_congestion_window_ s) (tp_slowstart_threshold_ s)
    (tp_max_tcp_congestion_window_ s) (tp_initial_tcp_congestion_window_ s) (tp_initial_max_tcp_congestion_window_ s) (tp_min_slow_start_exit_window_ s).
Definition tp_set_cubic (s : TcpCubicSenderPackets) (c : Cubic) : TcpCubicSenderPackets :=
  MkPackets (tp_base s) c (tp_congestion_window_count_ s) (tp_congestion_window_ s) (tp_min_congestion_window_ s) (tp_slowstart_threshold_ s)
    (tp_max_tcp_congestion_window_ s) (tp_initial_tcp_congestion_window_ s) (tp_initial_max_tcp_congestion_window_ s) (tp_min_slow_start_exit_window_ s).
Definition tp_set_count (s : TcpCubicSenderPackets) (n : Z) : TcpCubicSenderPackets :=
  MkPackets (tp_base s) (tp_cubic_ s) n (tp_congestion_window_ s) (tp_min_congestion_window_ s) (tp_slowstart_threshold_ s)
    (tp_max_tcp_congestion_window_ s) (tp_initial_tcp_congestion_window_ s) (tp_initial_max_tcp_congestion_window_ s) (tp_min_slow_start_exit_window_ s).
Definition tp_set_window (s : TcpCubicSenderPackets) (w : Z) : TcpCubicSenderPackets :=
  MkPackets (tp_base s) (tp_cubic_ s) (tp_congestion_window_count_ s) w (tp_min_congestion_window_ s) (tp_slowstart_threshold_ s)
    (tp_max_tcp_congestion_window_ s) (tp_initial_tcp_congestion_window_ s) (tp_initial_max_tcp_congestion_window_ s) (tp_min_slow_start_exit_window_ s).
Definition tp_set_limits (s : TcpCubicSenderPackets) (min max : Z) : TcpCubicSenderPackets :=
  MkPackets (tp_base s) (tp_cubic_ s) (tp_congestion_window_count_ s) (tp_congestion_window_ s) min (tp_slowstart_threshold_ s)
    max (tp_initial_tcp_congestion_window_ s) (tp_initial_max_tcp_congestion_window_ s) (tp_min_slow_start_exit_window_ s).
Definition tp_set_threshold (s : TcpCubicSenderPackets) (t : Z) : TcpCubicSenderPackets :=
  MkPackets (tp_base s) (tp_cubic_ s) (tp_congestion_window_count_ s) (tp_congestion_window_ s) (tp_min_congestion_window_ s) t
    (tp_max_tcp_congestion_window_ s) (tp_initial_tcp_congestion_window_ s) (tp_initial_max_tcp_congestion_window_ s) (tp_min_slow_start_exit_window_ s).
Definition tp_set_exit (s : TcpCubicSenderPackets) (w : Z) : TcpCubicSenderPackets :=
  MkPackets (tp_base s) (tp_cubic_ s) (tp_congestion_window_count_ s) (tp_congestion_window_ s) (tp_min_congestion_window_ s) (tp_slowstart_threshold_ s)
    (tp_max_tcp_congestion_window_ s) (tp_initial_tcp_congestion_window_ s) (tp_initial_max_tcp_congestion_window_ s) w.

#[global] Instance TcpCubicSenderPackets_view : CwndView TcpCubicSenderPackets := {
  get_base := tp_base; set_base := tp_set_base;
  GetCongestionWindow s := u64 (tp_congestion_window_ s * kDefaultTCPMSS);
  GetSlowStartThreshold s := u64 (tp_slowstart_threshold_ s * kDefaultTCPMSS) }.

Definition tp_SetCongestionWindowFromBandwidthAndRtt (s : TcpCubicSenderPackets) (bandwidth rtt : Z) : TcpCubicSenderPackets :=
  tp_set_window s (Z.max (tp_min_congestion_window_ s)
    (Z.min (QuicBandwidth_ToBytesPerPeriod bandwidth rtt / kDefaultTCPMSS) kMaxResumptionCongestionWindow)).
Definition tp_SetMinCongestionWindowInPackets (s : TcpCubicSenderPackets) (n : Z) : TcpCubicSenderPackets := tp_set_limits s n (tp_max_tcp_congestion_window_ s).
Definition tp_ExitSlowstart (s : TcpCubicSenderPackets) : TcpCubicSenderPackets := tp_set_threshold s (tp_congestion_window_ s).

Definition tp_old_loss (s : TcpCubicSenderPackets) (lost_bytes : Z) : TcpCubicSenderPackets :=
  let b := tp_base s in
  if last_cutback_exited_slowstart_ b then
    let b' := stats_slowstart_loss b lost_bytes in
    let s := tp_set_base s b' in
    if slow_start_large_reduction_ b then
      let lost := slowstart_bytes_lost (tcb_stats_ b') in
      let s := if (slowstart_packets_lost (tcb_stats_ b') =? 1) || (lost / kDefaultTCPMSS >? (lost -64 lost_bytes) / kDefaultTCPMSS)
               then tp_set_window s (Z.max (tp_congestion_window_ s -64 1) (tp_min_slow_start_exit_window_ s)) else s in
      tp_set_threshold s (tp_congestion_window_ s)
    else s
  else s.
Definition tp_cutback (s : TcpCubicSenderPackets) : TcpCubicSenderPackets :=
  let b := tp_base s in
  if slow_start_large_reduction_ b && tcs_InSlowStart s then
    let s := if tp_congestion_window_ s >=? u64 (2 * tp_initial_tcp_congestion_window_ s) then tp_set_exit s (tp_congestion_window_ s / 2) else s in
    tp_set_window s (tp_congestion_window_ s -64 1)
  else if reno_ b then tp_set_window s (u64 (f32_trunc (f32_mul (f32_of_int (tp_congestion_window_ s)) (RenoBeta b))))
  else let '(c, w) := cp_CongestionWindowAfterPacketLoss (tp_cubic_ s) (tp_congestion_window_ s) in tp_set_window (tp_set_cubic s c) w.
Definition tp_OnPacketLost (s : TcpCubicSenderPackets) (packet_number lost_bytes prior_in_flight : Z) : TcpCubicSenderPackets :=
  if packet_number <=? largest_sent_at_last_cutback_ (tp_base s) then tp_old_loss s lost_bytes
  else
    let b := b_set_exited (stats_loss_event (tp_base s)) (tcs_InSlowStart s) in
    let b := if tcs_InSlowStart s then stats_slowstart_loss b 0 else b in
    let b := if no_prr_ b then b else b_set_prr b (prr_OnPacketLost (prr_ b) prior_in_flight) in
    let s := tp_cutback (tp_set_base s b) in
    let s := if tp_congestion_window_ s <? tp_min_congestion_window_ s then tp_set_window s (tp_min_congestion_window_ s) else s in
    let s := tp_set_threshold s (tp_congestion_window_ s) in
    let b := tp_base s in
    tp_set_count (tp_set_base s (b_set_largest b (largest_sent_packet_number_ b) (largest_acked_packet_number_ b) (largest_sent_packet_number_ b))) 0.

Definition tp_MaybeIncreaseCwnd (cbrt : Z -> Z) (r : RttStats) (s : TcpCubicSenderPackets) (acked_packet_number acked_bytes prior_in_flight event_time : Z)
    : TcpCubicSenderPackets :=
  if negb (IsCwndLimited s prior_in_flight) then tp_set_cubic s (cp_OnApplicationLimited (tp_cubic_ s))
  else if tp_congestion_window_ s >=? tp_max_tcp_congestion_window_ s then s
  else if tcs_InSlowStart s then tp_set_window s (tp_congestion_window_ s +64 1)
  else if reno_ (tp_base s) then
    let s := tp_set_count s (tp_congestion_window_count_ s +64 1) in
    if u64 (tp_congestion_window_count_ s * num_connections_ (tp_base s)) >=? tp_congestion_window_ s
    then tp_set_count (tp_set_window s (tp_congestion_window_ s +64 1)) 0 else s
  else
    let '(c, w) := cp_CongestionWindowAfterAck cbrt (tp_cubic_ s) (tp_congestion_window_ s) (min_rtt_ r) event_time in
    tp_set_window (tp_set_cubic s c) (Z.min (tp_max_tcp_congestion_window_ s) w).
Definition tp_HandleRetransmissionTimeout (s : TcpCubicSenderPackets) : TcpCubicSenderPackets :=
  let s := tp_set_cubic s (cp_ResetCubicState (tp_cubic_ s)) in
  tp_set_window (tp_set_threshold s (tp_congestion_window_ s / 2)) (tp_min_congestion_window_ s).

Definition TcpCubicSenderPackets_ops (cbrt : Z -> Z) : CubicSenderOps TcpCubicSenderPackets := {|
  SetCongestionWindowFromBandwidthAndRtt := tp_SetCongestionWindowFromBandwidthAndRtt;
  SetCongestionWindowInPackets := tp_set_window;
  SetMinCongestionWindowInPackets := tp_SetMinCongestionWindowInPackets;
  ExitSlowstart := tp_ExitSlowstart;
  tcs_OnPacketLost := tp_OnPacketLost;
  MaybeIncreaseCwnd := tp_MaybeIncreaseCwnd cbrt;
  HandleRetransmissionTimeout := tp_HandleRetransmissionTimeout |}.

Definition tp_SetNumEmulatedConnections (s : TcpCubicSenderPackets) (n : Z) : TcpCubicSenderPackets :=
  let s := tp_set_base s (base_SetNumEmulatedConnections (tp_base s) n) in
  tp_set_cubic s (cp_with_options (tp_cubic_ s) (SetNumConnections (cp_options (tp_cubic_ s)) (num_connections_ (tp_base s)))).
Definition tp_OnConnectionMigration (s : TcpCubicSenderPackets) : TcpCubicSenderPackets :=
  let s := tp_set_base s (base_OnConnectionMigration (tp_base s)) in
  let s := tp_set_count (tp_set_cubic s (cp_ResetCubicState (tp_cubic_ s))) 0 in
  let s := tp_set_window s (tp_initial_tcp_congestion_window_ s) in
  let s := tp_set_threshold s (tp_initial_max_tcp_congestion_window_ s) in
  tp_set_limits s (tp_min_congestion_window_ s) (tp_initial_max_tcp_congestion_window_ s).
Definition tp_SetFromConfig (cbrt : Z -> Z) (s : TcpCubicSenderPackets) (received : CongestionOption -> bool) (is_server : bool) : TcpCubicSenderPackets :=
  let s := @base_SetFromConfig _ _ (TcpCubicSenderPackets_ops cbrt) s received is_server in
  tp_set_cubic s (cp_with_options (tp_cubic_ s) (cubic_config (cp_options (tp_cubic_ s)) received)).
Definition tp_GetCongestionControlType (s : TcpCubicSenderPackets) : CongestionControlType := if reno_ (tp_base s) then kReno else kCubic.
