(* ===== verification/TcpCubicFacts.v ===== *)
(** * TCP style congestion control: the window

    The window in bytes stays within its limits whatever happens to the connection, and
    the losses of one window cut it once. *)

From S2P Require Import Prelude QuicTime UnackedPacketMap QuicBandwidth RttStats SoftFloat SlowStart CubicWindow CubicFacts LossAlgorithm SentPacketManager TcpCubicSender.

(** ** Invariant *)

(** [total] bounds the bytes acknowledged so far.  While an epoch of the cubic function runs
    the sender is not in slow start, and its estimate of TCP's window is in range. *)
Record bytes_ok (total : Z) (s : TcpCubicSenderBytes) : Prop := {
  bo_conn : 1 <= num_connections_ (tb_base s) <= 5;
  bo_cubic_conn : 1 <= cubic_num_connections_ (cb_options (tb_cubic_ s)) <= 5;
  bo_gentle : slow_start_large_reduction_ (tb_base s) = false;
  bo_min : kDefaultTCPMSS <= tb_min_congestion_window_ s <= tb_initial_tcp_congestion_window_ s;
  bo_initial : tb_initial_tcp_congestion_window_ s <= tb_max_congestion_window_ s;
  bo_max : tb_max_congestion_window_ s = tb_initial_max_tcp_congestion_window_ s /\ tb_max_congestion_window_ s = 2000 * kDefaultTCPMSS /\ tb_min_congestion_window_ s <= 2 * kDefaultTCPMSS;
  bo_window : tb_min_congestion_window_ s <= tb_congestion_window_ s < tb_max_congestion_window_ s + kDefaultTCPMSS;
  bo_threshold : 0 <= tb_slowstart_threshold_ s < tb_max_congestion_window_ s + kDefaultTCPMSS;
  bo_count : 0 <= cb_acked_bytes_count_ (tb_cubic_ s) <= total;
  bo_total : total < 2 ^ 40;
  bo_estimate : cb_last_congestion_window_ (tb_cubic_ s) <> 0 -> tb_min_congestion_window_ s <= cb_estimated_tcp_congestion_window_ (tb_cubic_ s) < 2 ^ 62;
  bo_reno : reno_ (tb_base s) = true -> cb_epoch_ (tb_cubic_ s) = 0;
  bo_epoch : cb_epoch_ (tb_cubic_ s) <> 0 -> cb_last_congestion_window_ (tb_cubic_ s) <> 0 /\
    tb_slowstart_threshold_ s <= cb_estimated_tcp_congestion_window_ (tb_cubic_ s) /\ tb_slowstart_threshold_ s <= tb_congestion_window_ s /\
    (cb_estimated_tcp_congestion_window_ (tb_cubic_ s) <= tb_max_congestion_window_ s \/ tb_max_congestion_window_ s <= tb_congestion_window_ s) }.

(** The parts of the base class that the invariant is about do not change. *)
Definition base_like (b b' : TcpCubicSenderBase) : Prop :=
  num_connections_ b' = num_connections_ b /\ slow_start_large_reduction_ b' = slow_start_large_reduction_ b /\ reno_ b' = reno_ b.

Lemma bytes_ok_base total s b : bytes_ok total s -> base_like (tb_base s) b -> bytes_ok total (tb_set_base s b).
Proof. intros [] (E1 & E2 & E3). constructor; simpl; by rewrite ?E1, ?E2, ?E3. Qed.
Lemma bytes_ok_mono total total' s : bytes_ok total s -> total <= total' < 2 ^ 40 -> bytes_ok total' s.
Proof. intros [] Ht. constructor; try done; lia. Qed.

(** ** Acknowledgements *)

Lemma cb_ack_bounds cbrt (c : CubicBytes) min max thr cwnd acked total delay time :
  1 <= cubic_num_connections_ (cb_options c) <= 5 -> kDefaultTCPMSS <= min <= cwnd -> cwnd < max -> max < 2 ^ 22 -> 0 <= thr <= cwnd ->
  0 <= acked -> 0 <= cb_acked_bytes_count_ c <= total -> total + acked < 2 ^ 40 ->
  (cb_last_congestion_window_ c <> 0 -> min <= cb_estimated_tcp_congestion_window_ c < 2 ^ 62) ->
  (cb_epoch_ c <> 0 -> cb_last_congestion_window_ c <> 0 /\ thr <= cb_estimated_tcp_congestion_window_ c <= max) ->
  let '(c', w) := cb_CongestionWindowAfterAck cbrt c acked cwnd delay time in
  cb_options c' = cb_options c /\ min <= w /\ 0 <= cb_acked_bytes_count_ c' <= total + acked /\
  cb_last_congestion_window_ c' <> 0 /\ min <= cb_estimated_tcp_congestion_window_ c' < 2 ^ 62 /\ cb_estimated_tcp_congestion_window_ c' <= w /\
  (cb_epoch_ c' <> 0 -> thr <= cb_estimated_tcp_congestion_window_ c').
Proof.
  intros Hn Hmin Hcw Hmax Hthr Ha Hcnt Htot Hest Hep. unfold cb_CongestionWindowAfterAck. rewrite (u64_id (_ + acked)) by (unfold is_u64; lia).
  unfold kDefaultTCPMSS in *. case_if.
  - simpl. assert (cb_last_congestion_window_ c <> 0) as Hl by blia. specialize (Hest Hl). split_and!; try done; try lia.
  - clear E. match goal with |- context [cb_start_epoch cbrt ?x acked cwnd time] => set (c1 := x) end. set (c2 := cb_start_epoch cbrt c1 acked cwnd time).
    assert (cb_options c2 = cb_options c /\ cb_last_congestion_window_ c2 = cwnd /\ 0 <= cb_acked_bytes_count_ c2 <= total + acked /\
      min <= cb_estimated_tcp_congestion_window_ c2 <= max /\ thr <= cb_estimated_tcp_congestion_window_ c2) as (P1 & P2 & P3 & P4 & P5).
    { unfold c2, cb_start_epoch, QuicTime_IsInitialized. change (cb_epoch_ c1) with (cb_epoch_ c). destruct (Z.eqb_spec 0 (cb_epoch_ c)) as [He|He]; simpl.
      - split_and!; try done; lia.
      - destruct (Hep (not_eq_sym He)) as (K1 & K2). specialize (Hest K1). split_and!; try done; lia. }
    cbn zeta. simpl. rewrite P2. assert (1 <= cubic_num_connections_ (cb_options c) <= 5) as Hn' by done.
    pose proof (cb_estimate_bounds (cb_options c) (cb_acked_bytes_count_ c2) (cb_estimated_tcp_congestion_window_ c2) min Hn' ltac:(lia) ltac:(lia) ltac:(lia) ltac:(lia)) as B1.
    assert (thr <= cb_estimate (cb_options c) (cb_acked_bytes_count_ c2) (cb_estimated_tcp_congestion_window_ c2)) as B2.
    { destruct (decide (thr = 0)) as [->|]; [lia|]. apply cb_estimate_bounds; lia. }
    split_and!; try done; try lia; case_if; blia.
Qed.

Section Bytes.
Context (cbrt : Z -> Z).
#[local] Instance bytes_ops : CubicSenderOps TcpCubicSenderBytes := TcpCubicSenderBytes_ops cbrt.

Lemma MaybeIncreaseCwnd_ok r total s pn acked prior time : bytes_ok total s -> 0 <= acked -> total + acked < 2 ^ 40 ->
  bytes_ok (total + acked) (MaybeIncreaseCwnd r s pn acked prior time) /\ tb_base (MaybeIncreaseCwnd r s pn acked prior time) = tb_base s.
Proof.
  intros Hok Ha Ht. pose proof (bytes_ok_mono _ (total + acked) _ Hok ltac:(lia)) as Hok'. simpl. unfold tb_MaybeIncreaseCwnd.
  destruct (negb (IsCwndLimited s prior)) eqn:E1; [split; [|done]; destruct Hok'; by constructor|].
  destruct (tb_congestion_window_ s >=? tb_max_congestion_window_ s) eqn:E2; [done|]. unfold tcs_InSlowStart. simpl.
  destruct (tb_congestion_window_ s <? tb_slowstart_threshold_ s) eqn:E3.
  { destruct Hok' as [? ? ? ? ? [] [] [] ? ? ? ? He]. unfold kDefaultTCPMSS in *. rewrite u64_id by (unfold is_u64; blia). split; [|done].
    constructor; simpl; try done; unfold kDefaultTCPMSS; blia. }
  destruct (reno_ (tb_base s)) eqn:E4.
  { case_if; (split; [|done]); destruct Hok' as [? ? ? ? ? [] [] [] ? ? ? ? He]; unfold kDefaultTCPMSS in *; constructor; simpl; try done;
      unfold kDefaultTCPMSS; rewrite ?u64_id by (unfold is_u64; blia); blia. }
  destruct Hok as [C1 C2 C3 C4 C5 [C6 C6'] C7 C8 C9 C10 C11 Cr C12].
  pose proof (cb_ack_bounds cbrt (tb_cubic_ s) (tb_min_congestion_window_ s) (tb_max_congestion_window_ s) (tb_slowstart_threshold_ s) (tb_congestion_window_ s) acked total (min_rtt_ r) time
    C2 ltac:(lia) ltac:(blia) ltac:(unfold kDefaultTCPMSS in *; lia) ltac:(blia) Ha C9 Ht C11) as Hc.
  destruct (cb_CongestionWindowAfterAck cbrt (tb_cubic_ s) acked (tb_congestion_window_ s) (min_rtt_ r) time) as [c' w].
  destruct Hc as (D1 & D2 & D3 & D4 & D5 & D6 & D7).
  { intros X. destruct (C12 X) as (? & ? & ? & ?). split; [done|]. blia. }
  split; [|done]. constructor; simpl; rewrite ?D1; unfold kDefaultTCPMSS in *; try done; try lia. by rewrite E4.
Qed.

Lemma OnPacketAcked_ok r total s pn acked prior time : bytes_ok total s -> 0 <= acked -> total + acked < 2 ^ 40 ->
  bytes_ok (total + acked) (tcs_OnPacketAcked r s pn acked prior time).
Proof.
  intros Hok Ha Ht. unfold tcs_OnPacketAcked. cbn zeta. set (b := b_set_largest _ _ _ _).
  assert (base_like (tb_base s) b) as Hb by done. case_if.
  - apply (bytes_ok_mono total); [|destruct Hok; lia]. apply bytes_ok_base; [done|]. by destruct (no_prr_ b).
  - destruct (MaybeIncreaseCwnd_ok r total (set_base s b) pn acked prior time) as [M1 M2]; [by apply bytes_ok_base|done|done|].
    case_if; [|done]. apply bytes_ok_base; [done|]. done.
Qed.

(** ** Losses *)

(** The connections whose losses the sender emulates. *)
Definition emulated (s : TcpCubicSenderBytes) : Z := if reno_ (tb_base s) then num_connections_ (tb_base s) else cubic_num_connections_ (cb_options (tb_cubic_ s)).
Lemma emulated_range total s : bytes_ok total s -> 1 <= emulated s <= 5.
Proof. intros []. unfold emulated. by destruct (reno_ _). Qed.

(** The window after a cutback, and its limits. *)
Definition cut_to (s : TcpCubicSenderBytes) : Z := Z.max (tb_min_congestion_window_ s) (cut_window (emulated s) (tb_congestion_window_ s)).
Lemma cut_to_bounds total s : bytes_ok total s -> tb_min_congestion_window_ s <= cut_to s <= tb_congestion_window_ s.
Proof.
  intros Hok. unfold cut_to. pose proof (emulated_range _ _ Hok) as Hn. destruct Hok as [? ? ? [] ? [] [] ? ? ? ? ? ?]. unfold kDefaultTCPMSS in *.
  destruct (cut_window_bounds (emulated s) (tb_congestion_window_ s) Hn ltac:(lia)) as [? _]. lia.
Qed.

Lemma tb_cutback_window total s : bytes_ok total s -> exists c, tb_cutback s = tb_set_window (tb_set_cubic s c) (cut_window (emulated s) (tb_congestion_window_ s)) /\
  cb_options c = cb_options (tb_cubic_ s) /\ cb_acked_bytes_count_ c = cb_acked_bytes_count_ (tb_cubic_ s) /\ cb_epoch_ c = 0 /\
  cb_last_congestion_window_ c = cb_last_congestion_window_ (tb_cubic_ s) /\ cb_estimated_tcp_congestion_window_ c = cb_estimated_tcp_congestion_window_ (tb_cubic_ s).
Proof.
  intros Hok. pose proof (emulated_range _ _ Hok) as Hn. destruct Hok as [? ? Hg [] ? [] [] ? ? ? ? Hreno ?]. unfold kDefaultTCPMSS in *.
  destruct (cut_window_bounds (emulated s) (tb_congestion_window_ s) Hn ltac:(lia)) as [Hb _].
  unfold tb_cutback. rewrite Hg. cbn [andb]. unfold emulated in *. destruct (reno_ (tb_base s)).
  - exists (tb_cubic_ s). split_and!; try done; [|by apply Hreno]. unfold RenoBeta. change kRenoBeta with kBeta. fold (cut_window (num_connections_ (tb_base s)) (tb_congestion_window_ s)).
    rewrite u64_id by (unfold is_u64; lia). by destruct s.
  - unfold cb_CongestionWindowAfterPacketLoss. rewrite scale_window_cut by lia. eexists. split_and!; done.
Qed.

(** A loss of a packet sent since the last cutback. *)
Lemma new_loss_ok total s pn bytes prior : bytes_ok total s -> largest_sent_at_last_cutback_ (tb_base s) < pn ->
  let s' := tcs_OnPacketLost s pn bytes prior in
  bytes_ok total s' /\ tb_congestion_window_ s' = cut_to s /\ tb_slowstart_threshold_ s' = cut_to s /\
  largest_sent_at_last_cutback_ (tb_base s') = largest_sent_packet_number_ (tb_base s) /\ largest_sent_packet_number_ (tb_base s') = largest_sent_packet_number_ (tb_base s) /\
  largest_acked_packet_number_ (tb_base s') = largest_acked_packet_number_ (tb_base s).
Proof.
  intros Hok Hpn. simpl. unfold tb_OnPacketLost. rewrite (proj2 (Z.leb_gt _ _)) by lia. cbn zeta.
  match goal with |- context [tb_cutback (tb_set_base s ?x)] => set (b := x) end.
  assert (base_like (tb_base s) b /\ largest_sent_packet_number_ b = largest_sent_packet_number_ (tb_base s) /\ largest_acked_packet_number_ b = largest_acked_packet_number_ (tb_base s)) as (B1 & B2 & B3).
  { unfold b. destruct (tcs_InSlowStart s); simpl; by destruct (no_prr_ _). }
  clearbody b. pose proof (bytes_ok_base _ _ _ Hok B1) as Hok1. destruct (tb_cutback_window _ _ Hok1) as (c & -> & K1 & K2 & K3 & K4 & K5).
  pose proof (cut_to_bounds _ _ Hok) as Hcut. unfold cut_to in Hcut.
  assert (emulated (tb_set_base s b) = emulated s) as Eem by (unfold emulated; simpl; destruct B1 as (-> & _ & ->); done). rewrite Eem. unfold cut_to. simpl.
  set (w := cut_window (emulated s) (tb_congestion_window_ s)) in *. simpl in K1, K2, K4, K5.
  destruct Hok1 as [? ? ? [] ? [] [] ? ? ? ? ? ?]. simpl in *. unfold kDefaultTCPMSS in *.
  destruct (w <? tb_min_congestion_window_ s) eqn:Ew; simpl.
  - split; [|split_and!; try done; blia]. constructor; simpl; rewrite ?K1, ?K2, ?K4, ?K5; unfold kDefaultTCPMSS; try done; lia.
  - split; [|split_and!; try done; blia]. constructor; simpl; rewrite ?K1, ?K2, ?K4, ?K5; unfold kDefaultTCPMSS; try done; blia.
Qed.

(** A loss of a packet sent before it. *)
Lemma old_loss_ok s pn bytes prior : slow_start_large_reduction_ (tb_base s) = false -> pn <= largest_sent_at_last_cutback_ (tb_base s) ->
  exists b, tcs_OnPacketLost s pn bytes prior = tb_set_base s b /\ base_like (tb_base s) b /\
  largest_sent_at_last_cutback_ b = largest_sent_at_last_cutback_ (tb_base s) /\ largest_sent_packet_number_ b = largest_sent_packet_number_ (tb_base s) /\
  largest_acked_packet_number_ b = largest_acked_packet_number_ (tb_base s).
Proof.
  intros Hok Hpn. simpl. unfold tb_OnPacketLost. rewrite (proj2 (Z.leb_le _ _)) by lia. unfold tb_old_loss. destruct (last_cutback_exited_slowstart_ (tb_base s)).
  - rewrite Hok. eexists. split_and!; done.
  - exists (tb_base s). split_and!; try done. by destruct s.
Qed.

Lemma ExitSlowstart_ok total s : bytes_ok total s -> tcs_InSlowStart s = true -> bytes_ok total (ExitSlowstart s).
Proof.
  intros Hok Hss. unfold tcs_InSlowStart in Hss. simpl in *. destruct Hok as [? ? ? ? ? ? [] ? ? ? ? ? He]. unfold kDefaultTCPMSS in *.
  constructor; simpl; unfold kDefaultTCPMSS; try done; blia.
Qed.

(** The first part of a congestion event. *)
Definition after_rtt (r : RttStats) (s : TcpCubicSenderBytes) (rtt_updated : bool) : TcpCubicSenderBytes :=
  if rtt_updated && tcs_InSlowStart s then
    let b := get_base s in
    let '(h, exit) := ShouldExitSlowStart (hybrid_slow_start_ b) (latest_rtt_ r) (min_rtt_ r) (GetCongestionWindow s / kDefaultTCPMSS) in
    let s := set_base s (b_set_hss b h) in
    if exit then ExitSlowstart s else s
  else s.
Lemma after_rtt_ok total r s rtt_updated : bytes_ok total s -> bytes_ok total (after_rtt r s rtt_updated) /\
  tb_congestion_window_ (after_rtt r s rtt_updated) = tb_congestion_window_ s /\ tb_min_congestion_window_ (after_rtt r s rtt_updated) = tb_min_congestion_window_ s /\
  emulated (after_rtt r s rtt_updated) = emulated s /\
  largest_sent_packet_number_ (tb_base (after_rtt r s rtt_updated)) = largest_sent_packet_number_ (tb_base s) /\
  largest_acked_packet_number_ (tb_base (after_rtt r s rtt_updated)) = largest_acked_packet_number_ (tb_base s) /\
  largest_sent_at_last_cutback_ (tb_base (after_rtt r s rtt_updated)) = largest_sent_at_last_cutback_ (tb_base s).
Proof.
  intros Hok. unfold after_rtt. destruct (rtt_updated && tcs_InSlowStart s) eqn:E; [|done]. apply andb_true_iff in E as [_ E].
  destruct (ShouldExitSlowStart _ _ _ _) as [h exit]. assert (bytes_ok total (set_base s (b_set_hss (get_base s) h))) as Hok1 by (by apply bytes_ok_base).
  destruct exit; [|done]. split; [by apply ExitSlowstart_ok|done].
Qed.

Definition acked_bytes (l : CongestionVector) : Z := foldr (fun p n => p.2 + n) 0 l.
Lemma acked_bytes_nonneg l : Forall (fun p => 0 <= p.2) l -> 0 <= acked_bytes l.
Proof. induction 1; simpl; [lia|]. unfold acked_bytes in *. simpl. lia. Qed.

Lemma losses_ok total s prior lost : bytes_ok total s -> bytes_ok total (fold_left (fun s p => tcs_OnPacketLost s p.1 p.2 prior) lost s).
Proof.
  revert s. induction lost as [|p lost IH]; intros s Hok; [done|]. cbn [fold_left]. apply IH.
  destruct (decide (p.1 <= largest_sent_at_last_cutback_ (tb_base s))) as [Hle|Hgt].
  - destruct (old_loss_ok s p.1 p.2 prior (bo_gentle _ _ Hok) Hle) as (b & -> & Hb & _). by apply bytes_ok_base.
  - by apply new_loss_ok; [|lia].
Qed.
Lemma acks_ok r total s prior time acked : bytes_ok total s -> Forall (fun p => 0 <= p.2) acked -> total + acked_bytes acked < 2 ^ 40 ->
  bytes_ok (total + acked_bytes acked) (fold_left (fun s p => tcs_OnPacketAcked r s p.1 p.2 prior time) acked s).
Proof.
  revert total s. induction acked as [|p acked IH]; intros total s Hok Hp Ht; simpl in *; [by rewrite Z.add_0_r|].
  apply Forall_cons in Hp as [Hp Hps]. pose proof (acked_bytes_nonneg acked Hps). unfold acked_bytes in *. simpl in *.
  rewrite Z.add_assoc. apply IH; [|done|lia]. apply OnPacketAcked_ok; [done|done|lia].
Qed.

Lemma OnCongestionEvent_after r s rtt_updated prior time acked lost :
  tcs_OnCongestionEvent r s rtt_updated prior time acked lost =
  fold_left (fun s p => tcs_OnPacketAcked r s p.1 p.2 prior time) acked
    (fold_left (fun s p => tcs_OnPacketLost s p.1 p.2 prior) lost (after_rtt r s rtt_updated)).
Proof. done. Qed.

(** ** Everything that can happen to the sender *)

Inductive tcp_op :=
  | TcpCongestionEvent (r : RttStats) (rtt_updated : bool) (prior_in_flight event_time : Z) (acked lost : CongestionVector)
  | TcpPacketSent (packet_number bytes : Z) (has_retransmittable_data : bool)
  | TcpTimeout (packets_retransmitted : bool)
  | TcpMigration
  | TcpConnections (n : Z)
  | TcpThreshold (threshold : Z).

Definition tcp_exec (s : TcpCubicSenderBytes) (op : tcp_op) : TcpCubicSenderBytes :=
  match op with
  | TcpCongestionEvent r u prior time acked lost => tcs_OnCongestionEvent r s u prior time acked lost
  | TcpPacketSent pn bytes has => (tcs_OnPacketSent s pn bytes has).1
  | TcpTimeout b => tcs_OnRetransmissionTimeout s b
  | TcpMigration => tb_OnConnectionMigration s
  | TcpConnections n => tb_SetNumEmulatedConnections s n
  | TcpThreshold t => SetSlowstartthresholdInBytesPublic s t
  end.
(** The bytes an operation acknowledges; the manager emulates at most five connections. *)
Definition tcp_acked (op : tcp_op) : Z := match op with TcpCongestionEvent _ _ _ _ acked _ => acked_bytes acked | _ => 0 end.
Definition tcp_pre (op : tcp_op) : Prop :=
  match op with
  | TcpCongestionEvent _ _ _ _ acked _ => Forall (fun p => 0 <= p.2) acked
  | TcpConnections n => n <= 5
  | TcpThreshold t => 0 <= t
  | _ => True
  end.

(** A sender as the connection sets it up: an initial window of 2 to 2000 packets, the
    options of the handshake except large reductions in slow start, and possibly the
    window of an earlier connection. *)
Definition tcp_start (s : TcpCubicSenderBytes) : Prop := exists reno initial stats received is_server, 2 <= initial <= 2000 /\ received kSSLR = false /\
  let s0 := tb_SetFromConfig cbrt (TcpCubicSenderBytes_new reno initial kDefaultMaxCongestionWindowPackets stats) received is_server in
  s = s0 \/ exists bandwidth rtt, s = AdjustNetworkParameters s0 bandwidth rtt.

(** Reachable senders, with the bytes acknowledged so far: at most a terabyte. *)
Inductive tcp_reach : Z -> TcpCubicSenderBytes -> Prop :=
  | tcp_reach_start s : tcp_start s -> tcp_reach 0 s
  | tcp_reach_step total s op : tcp_reach total s -> tcp_pre op -> total + tcp_acked op < 2 ^ 40 -> tcp_reach (total + tcp_acked op) (tcp_exec s op).

Definition fresh (s : TcpCubicSenderBytes) : Prop :=
  bytes_ok 0 s /\ cb_epoch_ (tb_cubic_ s) = 0 /\ cb_last_congestion_window_ (tb_cubic_ s) = 0 /\ tb_max_congestion_window_ s = 2920000 /\ tb_min_congestion_window_ s <= 2920.
Lemma fresh_window s w : fresh s -> tb_min_congestion_window_ s <= w <= 292000 -> fresh (tb_set_window s w).
Proof.
  intros (Hok & H1 & H2 & H3 & H4) Hw. split; [|done]. destruct Hok. unfold kDefaultTCPMSS in *. constructor; simpl; unfold kDefaultTCPMSS; try done; lia.
Qed.
Lemma fresh_packets s n : fresh s -> 2 <= n <= 200 -> fresh (SetCongestionWindowInPackets s n).
Proof.
  intros Hf Hn. simpl. unfold tb_SetCongestionWindowInPackets, kDefaultTCPMSS. rewrite u64_id by (unfold is_u64; lia). apply fresh_window; [done|].
  destruct Hf as (_ & _ & _ & _ & ?). lia.
Qed.
Lemma fresh_min s : fresh s -> fresh (SetMinCongestionWindowInPackets s 1).
Proof.
  intros (Hok & H1 & H2 & H3 & H4). simpl. unfold tb_SetMinCongestionWindowInPackets. rewrite u64_id by done. split; [|simpl; by split_and!].
  destruct Hok. unfold kDefaultTCPMSS in *. constructor; simpl; unfold kDefaultTCPMSS; try done; lia.
Qed.
Lemma fresh_base s b : fresh s -> base_like (tb_base s) b -> fresh (set_base s b).
Proof. intros (Hok & H) Hb. split; [by apply bytes_ok_base|done]. Qed.
Lemma fresh_options s o : fresh s -> cubic_num_connections_ o = cubic_num_connections_ (cb_options (tb_cubic_ s)) -> fresh (tb_set_cubic s (cb_with_options (tb_cubic_ s) o)).
Proof. intros (Hok & H) Ho. split; [|done]. destruct Hok. constructor; simpl; rewrite ?Ho; done. Qed.
Lemma fresh_new reno initial stats : 2 <= initial <= 2000 -> fresh (TcpCubicSenderBytes_new reno initial kDefaultMaxCongestionWindowPackets stats).
Proof.
  intros Hi. unfold TcpCubicSenderBytes_new, kDefaultMaxCongestionWindowPackets, kDefaultTCPMSS. rewrite !u64_id by (unfold is_u64; lia).
  split; [|done]. constructor; simpl; unfold kDefaultTCPMSS, kDefaultNumConnections, tb_kDefaultMinimumCongestionWindow, kDefaultTCPMSS; try done; lia.
Qed.

Lemma fresh_config s received is_server : fresh s -> received kSSLR = false -> fresh (tb_SetFromConfig cbrt s received is_server).
Proof.
  intros Hf Hs. unfold tb_SetFromConfig. assert (fresh (base_SetFromConfig s received is_server)) as Hb.
  { unfold base_SetFromConfig. destruct is_server; [|done]. cbn [negb]. rewrite Hs. cbn zeta.
    assert (fresh (if received kIW03 then SetCongestionWindowInPackets s 3 else s)) as H1 by (case_if; [apply fresh_packets; [done|lia]|done]).
    revert H1. generalize (if received kIW03 then SetCongestionWindowInPackets s 3 else s). clear s Hf. intros s Hf.
    assert (fresh (if received kIW10 then SetCongestionWindowInPackets s 10 else s)) as H1 by (case_if; [apply fresh_packets; [done|lia]|done]).
    revert H1. generalize (if received kIW10 then SetCongestionWindowInPackets s 10 else s). clear s Hf. intros s Hf.
    assert (fresh (if received kIW20 then SetCongestionWindowInPackets s 20 else s)) as H1 by (case_if; [apply fresh_packets; [done|lia]|done]).
    revert H1. generalize (if received kIW20 then SetCongestionWindowInPackets s 20 else s). clear s Hf. intros s Hf.
    assert (fresh (if received kIW50 then SetCongestionWindowInPackets s 50 else s)) as H1 by (case_if; [apply fresh_packets; [done|lia]|done]).
    revert H1. generalize (if received kIW50 then SetCongestionWindowInPackets s 50 else s). clear s Hf. intros s Hf.
    assert (fresh (if received kMIN1 then SetMinCongestionWindowInPackets s 1 else s)) as H1 by (case_if; [by apply fresh_min|done]).
    revert H1. generalize (if received kMIN1 then SetMinCongestionWindowInPackets s 1 else s). clear s Hf. intros s Hf.
    assert (forall b : TcpCubicSenderBase, slow_start_large_reduction_ b = false -> base_like b (b_set_modes b true (slow_start_large_reduction_ b) (no_prr_ b))) as Hm by done.
    destruct (received kMIN4).
    - set (s1 := set_base s _). assert (fresh s1) as Hf1 by (by apply fresh_base). pose proof (fresh_min s1 Hf1) as Hf2.
      case_if; [|done]. by apply fresh_base.
    - case_if; [|done]. by apply fresh_base. }
  cbn zeta. apply fresh_options; [exact Hb|].
  unfold cubic_config. by destruct (received kCCVX), (received kBLMX), (received kCPAU), (received kCBQT).
Qed.

Lemma tcp_start_ok s : tcp_start s -> bytes_ok 0 s.
Proof.
  intros (reno & initial & stats & received & is_server & Hi & Hs & H). cbn zeta in H.
  pose proof (fresh_config _ received is_server (fresh_new reno initial stats Hi) Hs) as Hf. revert H Hf.
  generalize (tb_SetFromConfig cbrt (TcpCubicSenderBytes_new reno initial kDefaultMaxCongestionWindowPackets stats) received is_server).
  intros s0 [->|(bandwidth & rtt & ->)] Hf; [apply Hf|]. unfold AdjustNetworkParameters. case_if; [apply Hf|]. apply fresh_window; [done|].
  unfold tb_window_for, kMaxResumptionCongestionWindow, kDefaultTCPMSS. destruct Hf as (_ & _ & _ & _ & ?). lia.
Qed.

Lemma tcp_exec_ok total s op : bytes_ok total s -> tcp_pre op -> total + tcp_acked op < 2 ^ 40 -> bytes_ok (total + tcp_acked op) (tcp_exec s op).
Proof.
  intros Hok Hpre Ht. destruct op as [r u prior time acked lost|pn bytes has|b| |n|t]; simpl in *; rewrite ?Z.add_0_r.
  - rewrite OnCongestionEvent_after. apply acks_ok; [|done|done]. apply losses_ok. by apply after_rtt_ok.
  - unfold tcs_OnPacketSent. set (s1 := if tcs_InSlowStart s then _ else _).
    assert (bytes_ok total s1) as Hok1 by (unfold s1; case_if; [by apply bytes_ok_base|done]). clearbody s1.
    destruct has; [|done]. simpl. apply bytes_ok_base; [done|]. by destruct (tcs_InRecovery (tb_base s1)).
  - unfold tcs_OnRetransmissionTimeout. set (s1 := set_base s _). assert (bytes_ok total s1) as Hok1 by (by apply bytes_ok_base). clearbody s1.
    destruct b; [|done]. destruct Hok1 as [? ? ? [] ? [] [] [] [] ? ? ? ?]. unfold kDefaultTCPMSS in *. simpl.
    assert (0 <= tb_congestion_window_ s1 / 2 <= tb_congestion_window_ s1) by (Z.div_mod_to_equations; lia).
    constructor; simpl; unfold kDefaultTCPMSS; try done; lia.
  - destruct Hok as [? ? ? [] ? [] [] [] [] ? ? ? ?]. unfold kDefaultTCPMSS in *. constructor; simpl; unfold kDefaultTCPMSS; try done; lia.
  - destruct Hok as [? ? ? [] ? [] [] [] [] ? ? ? ?]. unfold kDefaultTCPMSS in *. constructor; simpl; unfold kDefaultTCPMSS; try done; lia.
  - destruct Hok as [? ? ? [] ? [] [] [] [] ? ? ? He]. unfold kDefaultTCPMSS in *. constructor; simpl; unfold kDefaultTCPMSS; try done; lia.
Qed.

Lemma tcp_reach_ok total s : tcp_reach total s -> bytes_ok total s.
Proof. induction 1; [by apply tcp_start_ok|by apply tcp_exec_ok]. Qed.
(** ** The losses of one window *)

(** After a cutback at packet [last], until a packet above it is acknowledged or lost. *)
Record settled (last w : Z) (s : TcpCubicSenderBytes) : Prop := {
  st_gentle : slow_start_large_reduction_ (tb_base s) = false;
  st_cutback : largest_sent_at_last_cutback_ (tb_base s) = last;
  st_acked : largest_acked_packet_number_ (tb_base s) <= last;
  st_window : tb_congestion_window_ s = w;
  st_threshold : tb_slowstart_threshold_ s = w }.

(** Events about packets up to [last], and sends. *)
Definition within (last : Z) (op : tcp_op) : Prop :=
  match op with
  | TcpCongestionEvent _ _ _ _ acked lost => Forall (fun p => 1 <= p.1 <= last) acked /\ Forall (fun p => p.1 <= last) lost
  | TcpPacketSent _ _ _ => True
  | _ => False
  end.

Section Settled.
Context (last w : Z).

Lemma settled_base s b : settled last w s -> base_like (tb_base s) b -> largest_sent_at_last_cutback_ b = largest_sent_at_last_cutback_ (tb_base s) ->
  largest_acked_packet_number_ b <= last -> settled last w (tb_set_base s b).
Proof. intros [] (_ & E2 & _) E3 E4. constructor; simpl; try done; congruence. Qed.
Lemma settled_rtt r s rtt_updated : settled last w s -> after_rtt r s rtt_updated = s.
Proof. intros [_ _ _ H1 H2]. unfold after_rtt, tcs_InSlowStart. simpl. rewrite H1, H2, Z.ltb_irrefl. by rewrite andb_false_r. Qed.
Lemma settled_losses s prior lost : settled last w s -> Forall (fun p => p.1 <= last) lost ->
  settled last w (fold_left (fun s p => tcs_OnPacketLost s p.1 p.2 prior) lost s).
Proof.
  revert s. induction lost as [|p lost IH]; intros s Hs Hl; [done|]. apply Forall_cons in Hl as [Hp Hl]. cbn [fold_left]. apply IH; [|done].
  destruct (old_loss_ok s p.1 p.2 prior (st_gentle _ _ _ Hs)) as (b & -> & B1 & B2 & B3 & B4); [by rewrite (st_cutback _ _ _ Hs)|].
  apply settled_base; try done. rewrite B4. apply Hs.
Qed.
Lemma settled_acks r s prior time acked : settled last w s -> Forall (fun p => 1 <= p.1 <= last) acked ->
  settled last w (fold_left (fun s p => tcs_OnPacketAcked r s p.1 p.2 prior time) acked s).
Proof.
  revert s. induction acked as [|p acked IH]; intros s Hs Hl; [done|]. apply Forall_cons in Hl as [Hp Hl]. cbn [fold_left]. apply IH; [|done].
  unfold tcs_OnPacketAcked. cbn zeta. set (b := b_set_largest _ _ _ _). pose proof (st_cutback _ _ _ Hs) as Hc. pose proof (st_acked _ _ _ Hs) as Ha. simpl in b.
  assert (tcs_InRecovery b = true) as ->.
  { unfold tcs_InRecovery, b. simpl. apply andb_true_iff. rewrite negb_true_iff. blia. }
  apply settled_base; try done; destruct (no_prr_ b); try done; simpl; lia.
Qed.
Lemma settled_exec s op : settled last w s -> within last op -> settled last w (tcp_exec s op).
Proof.
  intros Hs Hw. destruct op as [r u prior time acked lost|pn bytes has|b| |n|t]; try done.
  - cbn [tcp_exec]. rewrite OnCongestionEvent_after, settled_rtt by done. destruct Hw. apply settled_acks; [|done]. by apply settled_losses.
  - simpl. unfold tcs_OnPacketSent. set (s1 := if tcs_InSlowStart s then _ else _).
    assert (settled last w s1) as Hs1 by (unfold s1; case_if; [apply settled_base; try done; apply Hs|done]). clearbody s1.
    destruct has; [|done]. simpl. apply settled_base; try done; destruct (tcs_InRecovery (tb_base s1)); try done; apply Hs1.
Qed.
Lemma settled_run s ops : settled last w s -> Forall (within last) ops -> settled last w (fold_left tcp_exec ops s).
Proof. intros Hs Ho. revert s Hs. induction Ho as [|op ops Hop _ IH]; intros s Hs; [done|]. apply IH. by apply settled_exec. Qed.
End Settled.

(** The first loss above the last cutback settles the sender. *)
Lemma losses_settle total s prior lost :
  bytes_ok total s -> largest_acked_packet_number_ (tb_base s) <= largest_sent_packet_number_ (tb_base s) ->
  Forall (fun p => p.1 <= largest_sent_packet_number_ (tb_base s)) lost -> Exists (fun p => largest_sent_at_last_cutback_ (tb_base s) < p.1) lost ->
  settled (largest_sent_packet_number_ (tb_base s)) (cut_to s) (fold_left (fun s p => tcs_OnPacketLost s p.1 p.2 prior) lost s).
Proof.
  revert s. induction lost as [|p lost IH]; intros s Hok Hla Hl He; [by apply Exists_nil in He|]. apply Forall_cons in Hl as [Hp Hl]. cbn [fold_left].
  destruct (decide (p.1 <= largest_sent_at_last_cutback_ (tb_base s))) as [Hle|Hgt].
  - destruct (old_loss_ok s p.1 p.2 prior (bo_gentle _ _ Hok) Hle) as (b & -> & B1 & B2 & B3 & B4).
    assert (cut_to s = cut_to (tb_set_base s b)) as -> by (unfold cut_to, emulated; simpl; by destruct B1 as (-> & _ & ->)).
    rewrite <-B3. apply (IH (tb_set_base s b)); [by apply bytes_ok_base|simpl; lia| |].
    + simpl. by rewrite B3.
    + simpl. rewrite B2. apply Exists_cons in He as [?|?]; [lia|done].
  - destruct (new_loss_ok total s p.1 p.2 prior Hok ltac:(lia)) as (N1 & N2 & N3 & N4 & N5 & N6). apply settled_losses; [|done].
    constructor; try done; [apply N1|]. by rewrite N6.
Qed.
End Bytes.

(** ** The window stays within its limits *)

(** C12: Whatever happens to a connection (its start from any initial window of 2 to 2000
    packets and any handshake options but SSLR, congestion events, sends, timeouts,
    migrations, emulated connections, up to a terabyte of acknowledged data), the window
    of the sender is never below its minimum of one or two packets and less than one
    packet over 2000 packets, the threshold of slow start is under the same limit, and
    when nothing is in flight the sender may always send. *)
Theorem window_stays_bounded cbrt total s : tcp_reach cbrt total s ->
  kDefaultTCPMSS <= tb_min_congestion_window_ s <= 2 * kDefaultTCPMSS /\
  tb_min_congestion_window_ s <= GetCongestionWindow s < 2001 * kDefaultTCPMSS /\
  0 <= GetSlowStartThreshold s < 2001 * kDefaultTCPMSS /\ tcs_TimeUntilSend s 0 = Delta_Zero.
Proof.
  intros Hr. pose proof (tcp_reach_ok _ _ _ Hr) as [? ? ? [] ? (? & ? & ?) [] ? ? ? ? ? ?]. unfold kDefaultTCPMSS in *. simpl. split_and!; try lia.
  unfold tcs_TimeUntilSend. case_if.
  - unfold prr_TimeUntilSend. simpl. by rewrite orb_true_r.
  - simpl. rewrite (proj2 (Z.gtb_lt _ _)) by lia. done.
Qed.



(** *** A run *)

(** A server starts with ten packets, sends twenty, hears of ten in slow start, then of a
    loss, a second one and more of the same flight. *)
Definition sends (first n : nat) : list tcp_op := map (fun k => TcpPacketSent (Z.of_nat k) 1460 true) (seq first n).
Definition acks (first n : nat) : CongestionVector := map (fun k => (Z.of_nat k, 1460)) (seq first n).
Definition example_start : TcpCubicSenderBytes :=
  tb_SetFromConfig icbrt (TcpCubicSenderBytes_new false 10 kDefaultMaxCongestionWindowPackets (MkSlowStartStats 0 0 0 0)) (fun _ => false) true.
Definition example_rtt : RttStats := RttStats_new.
Definition example_ops : list tcp_op := sends 1 20 ++ [TcpCongestionEvent example_rtt true 29200 1000000 (acks 1 10) []].
Definition example_state : TcpCubicSenderBytes := fold_left (tcp_exec icbrt) example_ops example_start.

Lemma example_starts : tcp_start icbrt example_start.
Proof. exists false, 10, (MkSlowStartStats 0 0 0 0), (fun _ => false), true. split; [lia|]. split; [done|]. by left. Qed.
Lemma tcp_reach_run cbrt total s ops : tcp_reach cbrt total s -> Forall tcp_pre ops -> total + foldr (fun op n => tcp_acked op + n) 0 ops < 2 ^ 40 ->
  tcp_reach cbrt (total + foldr (fun op n => tcp_acked op + n) 0 ops) (fold_left (tcp_exec cbrt) ops s).
Proof.
  intros Hr Ho. revert total s Hr. induction Ho as [|op ops Hop Hops IH]; intros total s Hr Ht; simpl in *; [by rewrite Z.add_0_r|].
  assert (0 <= foldr (fun op n => tcp_acked op + n) 0 ops).
  { clear -Hops. induction Hops as [|op ops Hop _ IH]; simpl; [lia|]. destruct op; simpl in *; try lia. pose proof (acked_bytes_nonneg acked Hop). lia. }
  rewrite Z.add_assoc. apply IH; [|lia]. apply tcp_reach_step; [done|done|lia].
Qed.
Lemma example_reached : tcp_reach icbrt 14600 example_state.
Proof.
  assert (Forall tcp_pre example_ops) as Hp.
  { apply Forall_app. split; [by repeat constructor|]. constructor; [|done]. unfold tcp_pre. apply Forall_forall. intros p Hin.
    apply list_elem_of_In, in_map_iff in Hin as (k & <- & _). done. }
  exact (tcp_reach_run icbrt 0 _ example_ops (tcp_reach_start icbrt _ example_starts) Hp eq_refl).
Qed.

Lemma window_stays_bounded_witness : tcp_reach icbrt 14600 example_state /\ GetCongestionWindow example_state = 29200 /\ tcs_TimeUntilSend example_state 0 = Delta_Zero.
Proof.
  split; [exact example_reached|]. split; [vm_compute; reflexivity|].
  exact (proj2 (proj2 (proj2 (window_stays_bounded icbrt 14600 example_state example_reached)))).
Defined.


(** ** The reduction of slow start *)

(** With the option SSLR a loss in slow start should take the lost bytes off the window.
    The window below which it stops is half of the window at the first such loss above
    twice the initial window, and nothing resets it. *)
Definition sslr_start : TcpCubicSenderBytes :=
  tb_SetFromConfig icbrt (TcpCubicSenderBytes_new false 10 kDefaultMaxCongestionWindowPackets (MkSlowStartStats 0 0 0 0))
    (fun o => match o with kSSLR => true | _ => false end) true.
Definition sslr_ops : list tcp_op :=
  sends 1 200 ++ [TcpCongestionEvent example_rtt false 292000 1000000 (acks 1 190) []; TcpCongestionEvent example_rtt false 14600 1100000 [] [(191, 1460)]; TcpTimeout true] ++
  sends 201 20 ++ [TcpCongestionEvent example_rtt false 292000 2000000 (acks 201 13) []; TcpCongestionEvent example_rtt false 10220 2100000 [] [(214, 1460)]].
(** A loss can raise the window: a sender with SSLR that lost a packet in slow start at
    200 packets, timed out, and loses two more packets in its next slow start has a
    window of 14 packets after the first of them and of 100 after the second, because
    the second loss applies the exit window of the first slow start. *)
Lemma slow_start_loss_grows_window :
  let s := fold_left (tcp_exec icbrt) sslr_ops sslr_start in
  let s' := tcp_exec icbrt s (TcpCongestionEvent example_rtt false 8760 2200000 [] [(215, 1460)]) in
  tb_congestion_window_ s = 14 * kDefaultTCPMSS /\ tb_congestion_window_ s' = 100 * kDefaultTCPMSS /\ tb_min_slow_start_exit_window_ s = 100 * kDefaultTCPMSS.
Proof. split_and!; vm_compute; reflexivity. Qed.
