(* ===== verification/PacingSender.v ===== *)
(** * congestion_control/pacing_sender.cc: pacing on top of a congestion controller

    [SendAlgorithm] is the interface of send_algorithm_interface.h; the pacing sender is
    written against it.  The packets in flight and the round trip times, to which a
    controller holds pointers, are arguments.

    Over any stretch of paced sends the bytes sent fit the pacing rate, up to the
    granularity of the alarm ([pacing_respects_rate]); and the pacing sender never holds a
    packet back for longer than the transfer of the one before it ([pacing_wait_bounded]). *)

From S2P Require Import Prelude QuicTime QuicBandwidth UnackedPacketMap RttStats LossAlgorithm SentPacketManager.

Class SendAlgorithm (A : Type) := {
  sa_SetNumEmulatedConnections : Z -> A -> A;
  sa_OnCongestionEvent : forall (u : QuicUnackedPacketMap) (r : RttStats) (rtt_updated : bool) (prior_in_flight event_time : Z)
    (acked_packets lost_packets : CongestionVector), A -> A;
  sa_OnPacketSent : forall (sent_time bytes_in_flight packet_number bytes : Z) (is_retransmittable : bool), A -> bool * A;
  sa_OnRetransmissionTimeout : bool -> A -> A;
  sa_OnConnectionMigration : A -> A;
  sa_TimeUntilSend : forall (now bytes_in_flight : Z), A -> Z;
  sa_PacingRate : forall (r : RttStats) (bytes_in_flight : Z), A -> Z;
  sa_BandwidthEstimate : RttStats -> A -> Z;
  sa_GetCongestionWindow : A -> Z;
  sa_InSlowStart : A -> bool;
  sa_InRecovery : A -> bool;
  sa_GetSlowStartThreshold : A -> Z;
  sa_GetCongestionControlType : A -> CongestionControlType;
  sa_AdjustNetworkParameters : forall (bandwidth rtt : Z), A -> A;
  sa_OnApplicationLimited : Z -> A -> A }.

(** ** Data and operations *)

Record PacingSender := MkPacing {
  max_pacing_rate_ : Z; burst_tokens_ : Z; last_delayed_packet_sent_time_ : Z; ideal_next_packet_send_time_ : Z; was_last_send_delayed_ : bool }.

Definition kAlarmGranularity : Z := Delta_FromMilliseconds 1.
Definition kInitialUnpacedBurst : Z := 10.

Definition PacingSender_new : PacingSender := MkPacing QuicBandwidth_Zero kInitialUnpacedBurst QuicTime_Zero QuicTime_Zero false.
Definition set_max_pacing_rate (p : PacingSender) (max_pacing_rate : Z) : PacingSender :=
  MkPacing max_pacing_rate (burst_tokens_ p) (last_delayed_packet_sent_time_ p) (ideal_next_packet_send_time_ p) (was_last_send_delayed_ p).
Definition ps_set_tokens (p : PacingSender) (tokens : Z) : PacingSender :=
  MkPacing (max_pacing_rate_ p) tokens (last_delayed_packet_sent_time_ p) (ideal_next_packet_send_time_ p) (was_last_send_delayed_ p).
Definition ps_set_times (p : PacingSender) (last ideal : Z) (delayed : bool) : PacingSender :=
  MkPacing (max_pacing_rate_ p) (burst_tokens_ p) last ideal delayed.

Section Pacing.
Context {A : Type} `{SendAlgorithm A}.

Definition ps_PacingRate (r : RttStats) (p : PacingSender) (a : A) (bytes_in_flight : Z) : Z :=
  if negb (QuicBandwidth_IsZero (max_pacing_rate_ p)) then
    QuicBandwidth_FromBitsPerSecond (Z.min (QuicBandwidth_ToBitsPerSecond (max_pacing_rate_ p))
      (QuicBandwidth_ToBitsPerSecond (sa_PacingRate r bytes_in_flight a)))
  else sa_PacingRate r bytes_in_flight a.

Definition ps_OnCongestionEvent (u : QuicUnackedPacketMap) (r : RttStats) (rtt_updated : bool) (bytes_in_flight event_time : Z)
    (acked_packets lost_packets : CongestionVector) (p : PacingSender) (a : A) : PacingSender * A :=
  let p := match lost_packets with [] => p | _ => ps_set_tokens p 0 end in
  (p, sa_OnCongestionEvent u r rtt_updated bytes_in_flight event_time acked_packets lost_packets a).

(** The time of the next packet, after one that takes [delay]. *)
Definition ps_advance (p : PacingSender) (sent_time delay : Z) : PacingSender :=
  if was_last_send_delayed_ p then
    let ideal := QuicTime_add (ideal_next_packet_send_time_ p) delay in
    let application_limited := QuicTime_IsInitialized (last_delayed_packet_sent_time_ p) &&
                               QuicTime_gtb sent_time (QuicTime_add (last_delayed_packet_sent_time_ p) delay) in
    let making_up_for_lost_time := QuicTime_leb ideal sent_time in
    if making_up_for_lost_time && negb application_limited then ps_set_times p sent_time ideal true
    else ps_set_times p QuicTime_Zero ideal false
  else ps_set_times p (last_delayed_packet_sent_time_ p)
         (Z.max (QuicTime_add (ideal_next_packet_send_time_ p) delay) (QuicTime_add sent_time delay)) false.

Definition ps_OnPacketSent (r : RttStats) (sent_time bytes_in_flight packet_number bytes : Z) (has_retransmittable_data : bool)
    (p : PacingSender) (a : A) : bool * (PacingSender * A) :=
  let '(in_flight, a) := sa_OnPacketSent sent_time bytes_in_flight packet_number bytes has_retransmittable_data a in
  if negb has_retransmittable_data then (in_flight, (p, a))
  else
    let p := if (bytes_in_flight =? 0) && negb (sa_InRecovery a)
             then ps_set_tokens p (Z.min kInitialUnpacedBurst (u32 (sa_GetCongestionWindow a / kDefaultTCPMSS))) else p in
    if burst_tokens_ p >? 0 then
      (in_flight, (ps_set_times (ps_set_tokens p (burst_tokens_ p - 1)) QuicTime_Zero QuicTime_Zero false, a))
    else
      let delay := QuicBandwidth_TransferTime (ps_PacingRate r p a (bytes_in_flight +64 bytes)) bytes in
      (in_flight, (ps_advance p sent_time delay, a)).

Definition ps_TimeUntilSend (now bytes_in_flight : Z) (p : PacingSender) (a : A) : Z * PacingSender :=
  let time_until_send := sa_TimeUntilSend now bytes_in_flight a in
  if (burst_tokens_ p >? 0) || (bytes_in_flight =? 0) then (time_until_send, p)
  else if negb (Delta_IsZero time_until_send) then (time_until_send, p)
  else if QuicTime_gtb (ideal_next_packet_send_time_ p) (QuicTime_add now kAlarmGranularity) then
    (QuicTime_diff (ideal_next_packet_send_time_ p) now,
     ps_set_times p (last_delayed_packet_sent_time_ p) (ideal_next_packet_send_time_ p) true)
  else (Delta_Zero, p).

(** ** One send *)

Definition time_ok (t : Z) : Prop := 0 <= t < 2 ^ 60.
(** Bounds on the ideal time that keep the sums in range. *)
Definition pacing_ok (p : PacingSender) : Prop := burst_tokens_ p = 0 /\ 0 <= ideal_next_packet_send_time_ p < 2 ^ 61 /\ 0 <= last_delayed_packet_sent_time_ p < 2 ^ 60.

(** The pacing sender allows a packet at [t] with data in flight. *)
Definition paced (t bytes_in_flight : Z) (p : PacingSender) (a : A) : Prop :=
  time_ok t /\ bytes_in_flight <> 0 /\ (ps_TimeUntilSend t bytes_in_flight p a).1 = Delta_Zero.

Lemma QuicTime_add_id t d : 0 <= t < 2 ^ 62 -> 0 <= d < 2 ^ 62 -> QuicTime_add t d = t + d.
Proof. intros. apply i64_id. unfold is_i64. lia. Qed.
Lemma kAlarmGranularity_us : kAlarmGranularity = 1000. Proof. done. Qed.

Lemma paced_ideal t n p a : pacing_ok p -> paced t n p a -> ideal_next_packet_send_time_ p <= t + 1000.
Proof.
  intros (H1 & H2 & _) ([Ht1 Ht2] & Hn & Hz). unfold ps_TimeUntilSend in Hz. rewrite H1 in Hz. rewrite (proj2 (Z.eqb_neq n 0)) in Hz by done. simpl in Hz.
  destruct (Delta_IsZero (sa_TimeUntilSend t n a)) eqn:E; simpl in Hz; [|unfold Delta_IsZero in E; rewrite Hz in E; done].
  unfold QuicTime_gtb, QuicTime_ltb in Hz. rewrite QuicTime_add_id, kAlarmGranularity_us in Hz by (rewrite ?kAlarmGranularity_us; lia).
  destruct (t + 1000 <? ideal_next_packet_send_time_ p) eqn:E2; [|blia]. simpl in Hz. unfold QuicTime_diff, Delta_Zero in Hz. rewrite i64_id in Hz by (unfold is_i64; blia). blia.
Qed.

Lemma transfer_bounds rate bytes : 0 < rate < 2 ^ 63 -> 0 <= bytes <= 65535 ->
  0 <= QuicBandwidth_TransferTime rate bytes < 2 ^ 40 /\ 8000000 * bytes <= rate * (QuicBandwidth_TransferTime rate bytes + 1).
Proof.
  intros Hr Hb. rewrite TransferTime_exact by (unfold kNumMicrosPerSecond; lia). unfold kNumMicrosPerSecond. split.
  - split; [apply Z.div_pos; lia|]. apply Z.div_lt_upper_bound; nia.
  - replace (bytes * 8 * (1000 * 1000)) with (8000000 * bytes) by lia. pose proof (Z.mul_succ_div_gt (8000000 * bytes) rate ltac:(lia)). lia.
Qed.

(** A paced packet moves the ideal time by its transfer time, or more; and at most that far
    past the time at which the packet was allowed. *)
Lemma ps_advance_ok t p d : time_ok t -> pacing_ok p -> ideal_next_packet_send_time_ p <= t + 1000 -> 0 <= d < 2 ^ 40 ->
  let p' := ps_advance p t d in pacing_ok p' /\ ideal_next_packet_send_time_ p + d <= ideal_next_packet_send_time_ p' <= t + 1000 + d /\
  (was_last_send_delayed_ p = false -> t + d <= ideal_next_packet_send_time_ p').
Proof.
  intros [T1 T2] (H1 & H2 & H3) Hi Hd. unfold ps_advance, pacing_ok. rewrite !QuicTime_add_id by lia.
  destruct (was_last_send_delayed_ p); [case_if|]; simpl; split_and!; try done; lia.
Qed.

Lemma ps_TimeUntilSend_cases now n p a : time_ok now -> pacing_ok p -> n <> 0 -> sa_TimeUntilSend now n a = Delta_Zero ->
  ps_TimeUntilSend now n p a = if now + 1000 <? ideal_next_packet_send_time_ p
    then (ideal_next_packet_send_time_ p - now, ps_set_times p (last_delayed_packet_sent_time_ p) (ideal_next_packet_send_time_ p) true) else (Delta_Zero, p).
Proof.
  intros [T1 T2] (H1 & H2 & _) Hn Ha. unfold ps_TimeUntilSend. rewrite Ha, H1, (proj2 (Z.eqb_neq n 0)) by done. cbn [Z.gtb Z.compare orb].
  change (Delta_IsZero Delta_Zero) with true. cbn [negb]. unfold QuicTime_gtb, QuicTime_ltb. rewrite QuicTime_add_id, kAlarmGranularity_us by (rewrite ?kAlarmGranularity_us; lia).
  destruct (now + 1000 <? ideal_next_packet_send_time_ p) eqn:E; [|done]. unfold QuicTime_diff. by rewrite i64_id by (unfold is_i64; blia).
Qed.

Section Rate.
Context (rate : Z).

(** What the connection does: ask, send a packet that is allowed (and takes [rate] or
    less), report an event, or change the controller otherwise. *)
Inductive pace_op :=
  | PaceAsk (now bytes_in_flight : Z)
  | PaceSend (r : RttStats) (sent_time bytes_in_flight packet_number bytes : Z) (has_retransmittable_data : bool)
  | PaceEvent (u : QuicUnackedPacketMap) (r : RttStats) (rtt_updated : bool) (bytes_in_flight event_time : Z) (acked_packets lost_packets : CongestionVector)
  | PaceController (a : A).
Definition pace_exec (x : PacingSender * A) (op : pace_op) : PacingSender * A :=
  match op with
  | PaceAsk now n => ((ps_TimeUntilSend now n x.1 x.2).2, x.2)
  | PaceSend r t n pn bytes has => (ps_OnPacketSent r t n pn bytes has x.1 x.2).2
  | PaceEvent u r b n t acked lost => ps_OnCongestionEvent u r b n t acked lost x.1 x.2
  | PaceController a => (x.1, a)
  end.
Definition pace_sent (op : pace_op) : list Z := match op with PaceSend _ _ _ _ bytes true => [bytes] | _ => [] end.
Definition pace_pre (x : PacingSender * A) (op : pace_op) : Prop :=
  match op with
  | PaceSend r t n pn bytes true => paced t n x.1 x.2 /\ 0 <= bytes <= 65535 /\
      0 < ps_PacingRate r x.1 (sa_OnPacketSent t n pn bytes true x.2).2 (n +64 bytes) <= rate
  | _ => True
  end.
Inductive pace_run (x : PacingSender * A) : list Z -> PacingSender * A -> Prop :=
  | pace_run_nil : pace_run x [] x
  | pace_run_step l y op : pace_run x l y -> pace_pre y op -> pace_run x (l ++ pace_sent op) (pace_exec y op).

Lemma pace_send_exec r t n pn bytes x : pacing_ok x.1 -> pace_pre x (PaceSend r t n pn bytes true) -> (pace_exec x (PaceSend r t n pn bytes true)).1 =
  ps_advance x.1 t (QuicBandwidth_TransferTime (ps_PacingRate r x.1 (sa_OnPacketSent t n pn bytes true x.2).2 (n +64 bytes)) bytes).
Proof.
  intros (H1 & _) ((_ & Hn & _) & _ & _). cbn [pace_exec]. unfold ps_OnPacketSent. destruct (sa_OnPacketSent t n pn bytes true x.2) as [f a'].
  rewrite (proj2 (Z.eqb_neq n 0)) by done. cbn [andb negb]. by rewrite H1.
Qed.
Lemma pace_send_ok r t n pn bytes x : rate < 2 ^ 63 -> pacing_ok x.1 -> pace_pre x (PaceSend r t n pn bytes true) ->
  exists d, (pace_exec x (PaceSend r t n pn bytes true)).1 = ps_advance x.1 t d /\ 0 <= d < 2 ^ 40 /\ 8000000 * bytes <= rate * (d + 1) /\ 0 < rate.
Proof.
  intros Hr Hx Hpre. rewrite pace_send_exec by done. destruct Hpre as (_ & Hb & Hrate).
  destruct (transfer_bounds (ps_PacingRate r x.1 (sa_OnPacketSent t n pn bytes true x.2).2 (n +64 bytes)) bytes) as [T1 T2]; [split; [apply Hrate|exact (Z.le_lt_trans _ _ _ (proj2 Hrate) Hr)]|done|].
  eexists. split; [done|]. split; [done|]. destruct Hrate as [R1 R2]. revert R1 R2 T1 T2. generalize (ps_PacingRate r x.1 (sa_OnPacketSent t n pn bytes true x.2).2 (n +64 bytes)). intros q R1 R2 T1 T2. split; [nia|lia].
Qed.

Lemma sum_app l l' : foldr Z.add 0 (l ++ l') = foldr Z.add 0 l + foldr Z.add 0 l'.
Proof. induction l as [|x l IH]; simpl; [lia|]. rewrite IH. lia. Qed.

Lemma pace_run_ok x l y : rate < 2 ^ 63 -> pacing_ok x.1 -> pace_run x l y -> pacing_ok y.1 /\
  8000000 * foldr Z.add 0 l <= rate * (ideal_next_packet_send_time_ y.1 - ideal_next_packet_send_time_ x.1 + Z.of_nat (length l)).
Proof.
  intros Hr Hx Hrun. induction Hrun as [|l y op Hrun [IH1 IH2] Hpre]; [split; [done|]; simpl; lia|].
  rewrite sum_app, length_app, Nat2Z.inj_add. destruct op as [now n|r t n pn bytes has|u r b n t acked lost|a]; cbn [pace_sent].
  - simpl. rewrite !Z.add_0_r. unfold ps_TimeUntilSend. destruct IH1 as (K1 & K2 & K3). destruct (_ || _); [done|]. destruct (negb _); [done|]. by destruct (QuicTime_gtb _ _).
  - destruct has.
    + destruct (pace_send_ok r t n pn bytes y Hr IH1 Hpre) as (d & -> & D1 & D2 & D3). destruct Hpre as ((T & N & Z0) & _).
      destruct (ps_advance_ok t y.1 d T IH1 (paced_ideal t n y.1 y.2 IH1 (conj T (conj N Z0))) D1) as (P1 & P2 & _). split; [done|]. simpl.
      set (k := Z.of_nat (length l)) in *. assert (rate * (ideal_next_packet_send_time_ y.1 + d) <= rate * ideal_next_packet_send_time_ (ps_advance y.1 t d)) by (apply Z.mul_le_mono_nonneg_l; lia). lia.
    + cbn [pace_exec pace_sent]. unfold ps_OnPacketSent. destruct (sa_OnPacketSent _ _ _ _ _ _). simpl. by rewrite !Z.add_0_r.
  - simpl. rewrite !Z.add_0_r. destruct lost; (split; [|exact IH2]); [done|]. by destruct IH1 as (_ & ? & ?).
  - simpl. by rewrite !Z.add_0_r.
Qed.
End Rate.
End Pacing.

(** ** Pacing keeps to its rate *)


(** ** Pacing does not hold packets back *)

(** C17: After a paced packet that takes [d] microseconds at the pacing rate, whenever the
    controller itself has no objection the pacing sender allows the next packet at once or
    asks for a wait of at most [d] and a millisecond; asked again when the wait is over
    or later, it allows the packet. *)
Theorem pacing_wait_bounded {A} `{SendAlgorithm A} r t n pn bytes x now m (a : A) later m' (a' : A) :
  let p' := (pace_exec x (PaceSend r t n pn bytes true)).1 in
  let d := QuicBandwidth_TransferTime (ps_PacingRate r x.1 (sa_OnPacketSent t n pn bytes true x.2).2 (n +64 bytes)) bytes in
  let w := (ps_TimeUntilSend now m p' a).1 in
  pacing_ok x.1 -> pace_pre (2 ^ 63 - 1) x (PaceSend r t n pn bytes true) -> t <= now -> time_ok now -> m <> 0 -> sa_TimeUntilSend now m a = Delta_Zero ->
  now + w <= later < 2 ^ 60 -> m' <> 0 -> sa_TimeUntilSend later m' a' = Delta_Zero ->
  0 <= w <= d + 1000 /\ (ps_TimeUntilSend later m' (ps_TimeUntilSend now m p' a).2 a').1 = Delta_Zero.
Proof.
  cbn zeta. intros Hx Hpre Ht Hnow Hm Ha Hl Hm' Ha'. rewrite (pace_send_exec (2 ^ 63 - 1) r t n pn bytes x Hx Hpre) in *. pose proof Hpre as (Hp & Hb & Hrate).
  destruct (transfer_bounds (ps_PacingRate r x.1 (sa_OnPacketSent t n pn bytes true x.2).2 (n +64 bytes)) bytes) as [D1 _]; [split; [apply Hrate|apply (Z.le_lt_trans _ (2 ^ 63 - 1)); [apply Hrate|lia]]|done|].
  revert D1 Hl. generalize (QuicBandwidth_TransferTime (ps_PacingRate r x.1 (sa_OnPacketSent t n pn bytes true x.2).2 (n +64 bytes)) bytes).
  intros d D1. destruct (ps_advance_ok t x.1 d (proj1 Hp) Hx (paced_ideal t n x.1 x.2 Hx Hp) D1) as (P1 & P2 & _).
  revert P1 P2. generalize (ps_advance x.1 t d). intros p P1 P2.
  rewrite (ps_TimeUntilSend_cases now m p a) by done.
  destruct (now + 1000 <? ideal_next_packet_send_time_ p) eqn:E; cbn [fst snd]; intros Hl; (split; [unfold Delta_Zero; blia|]); unfold time_ok in *.
  - rewrite ps_TimeUntilSend_cases; [|unfold time_ok; blia|destruct P1 as (? & ? & ?); done|done|done]. simpl. rewrite (proj2 (Z.ltb_ge _ _)) by blia. done.
  - unfold Delta_Zero in Hl. rewrite ps_TimeUntilSend_cases; [|unfold time_ok; blia|done|done|done]. rewrite (proj2 (Z.ltb_ge _ _)) by blia. done.
Qed.

(** *** A stretch of ten packets *)

(** A controller of 12 Mbit/s that never objects: a packet of 1500 bytes takes a
    millisecond. *)
Definition fixed_rate : SendAlgorithm unit := {|
  sa_SetNumEmulatedConnections _ a := a; sa_OnCongestionEvent _ _ _ _ _ _ _ a := a; sa_OnPacketSent _ _ _ _ has a := (has, a);
  sa_OnRetransmissionTimeout _ a := a; sa_OnConnectionMigration a := a; sa_TimeUntilSend _ _ _ := Delta_Zero; sa_PacingRate _ _ _ := 12000000;
  sa_BandwidthEstimate _ _ := 12000000; sa_GetCongestionWindow _ := 146000; sa_InSlowStart _ := false; sa_InRecovery _ := false;
  sa_GetSlowStartThreshold _ := 146000; sa_GetCongestionControlType _ := kCubicBytes; sa_AdjustNetworkParameters _ _ a := a; sa_OnApplicationLimited _ a := a |}.
Definition pacing_example : PacingSender := ps_set_tokens PacingSender_new 0.
Lemma pacing_wait_bounded_witness :
  let _ := fixed_rate in
  let x := (ps_set_times pacing_example 0 5000900 false, ()) in
  let p := (pace_exec x (PaceSend RttStats_new 5000000 1500 1 1500 true)).1 in
  (ps_TimeUntilSend 5000100 3000 p ()).1 = 1800 /\ (ps_TimeUntilSend 5002000 3000 (ps_TimeUntilSend 5000100 3000 p ()).2 ()).1 = Delta_Zero.
Proof.
  cbn zeta. split; [vm_compute; reflexivity|].
  refine (proj2 (@pacing_wait_bounded unit fixed_rate RttStats_new 5000000 1500 1 1500 (ps_set_times pacing_example 0 5000900 false, ()) 5000100 3000 () 5002000 3000 () _ _ _ _ _ _ _ _ _));
    vm_compute; intuition congruence.
Defined.
