(* ===== verification/BandwidthSampler.v ===== *)
(** * congestion_control/bandwidth_sampler.cc: bandwidth samples

    The sampler keeps totals of the bytes sent and acknowledged and a snapshot of them for
    each packet in flight.  The specification is the one of the comments of the header
    file: the two curves of bytes sent and bytes acknowledged over time, as lists of
    points, and a sample is a slope between two points on each of them ([curve_sample]).
    Every operation of the sampler implements the operation on the curves
    ([sampler_refines]), and hence no sample exceeds the rate at which the path delivers
    ([samples_never_exceed_path]). *)

From S2P Require Import Prelude QuicTime QuicBandwidth PacketNumberIndexedQueue.
From stdpp Require Import gmap.
#[local] Open Scope Z_scope.

(** ** Data and operations *)

Record BandwidthSample := MkBwSample { bs_bandwidth : Z; bs_rtt : Z; bs_is_app_limited : bool }.
Definition BandwidthSample_new : BandwidthSample := MkBwSample QuicBandwidth_Zero Delta_Zero false.

Record ConnectionStateOnSentPacket := MkConnState {
  cs_sent_time : Z; cs_size : Z; cs_total_bytes_sent : Z; cs_total_bytes_sent_at_last_acked_packet : Z; cs_last_acked_packet_sent_time : Z;
  cs_last_acked_packet_ack_time : Z; cs_total_bytes_acked_at_the_last_acked_packet : Z; cs_is_app_limited : bool }.
(** The default constructor leaves the counters uninitialized; no operation reads them. *)
Definition ConnectionStateOnSentPacket_default : ConnectionStateOnSentPacket := MkConnState QuicTime_Zero 0 0 0 QuicTime_Zero QuicTime_Zero 0 false.

Record BandwidthSampler := MkSampler {
  total_bytes_sent_ : Z; total_bytes_acked_ : Z; total_bytes_sent_at_last_acked_packet_ : Z; last_acked_packet_sent_time_ : Z;
  last_acked_packet_ack_time_ : Z; bws_last_sent_packet_ : Z; is_app_limited_ : bool; end_of_app_limited_phase_ : Z;
  connection_state_map_ : PacketNumberIndexedQueue (T := ConnectionStateOnSentPacket) }.

Definition BandwidthSampler_new : BandwidthSampler :=
  MkSampler 0 0 0 QuicTime_Zero QuicTime_Zero 0 false 0 PacketNumberIndexedQueue_new.

(** The snapshot constructor. *)
Definition ConnectionStateOnSentPacket_new (sent_time size : Z) (s : BandwidthSampler) : ConnectionStateOnSentPacket :=
  MkConnState sent_time size (total_bytes_sent_ s) (total_bytes_sent_at_last_acked_packet_ s) (last_acked_packet_sent_time_ s)
    (last_acked_packet_ack_time_ s) (total_bytes_acked_ s) (is_app_limited_ s).

Definition bws_set_map (s : BandwidthSampler) (q : PacketNumberIndexedQueue) : BandwidthSampler :=
  MkSampler (total_bytes_sent_ s) (total_bytes_acked_ s) (total_bytes_sent_at_last_acked_packet_ s) (last_acked_packet_sent_time_ s)
    (last_acked_packet_ack_time_ s) (bws_last_sent_packet_ s) (is_app_limited_ s) (end_of_app_limited_phase_ s) q.

Definition bws_OnPacketSent (s : BandwidthSampler) (sent_time packet_number bytes bytes_in_flight : Z) (has_retransmittable_data : bool) : BandwidthSampler :=
  let s := MkSampler (total_bytes_sent_ s) (total_bytes_acked_ s) (total_bytes_sent_at_last_acked_packet_ s) (last_acked_packet_sent_time_ s)
             (last_acked_packet_ack_time_ s) packet_number (is_app_limited_ s) (end_of_app_limited_phase_ s) (connection_state_map_ s) in
  if negb has_retransmittable_data then s
  else
    let total := total_bytes_sent_ s +64 bytes in
    let s := if bytes_in_flight =? 0
             then MkSampler total (total_bytes_acked_ s) total sent_time sent_time (bws_last_sent_packet_ s) (is_app_limited_ s)
                    (end_of_app_limited_phase_ s) (connection_state_map_ s)
             else MkSampler total (total_bytes_acked_ s) (total_bytes_sent_at_last_acked_packet_ s) (last_acked_packet_sent_time_ s)
                    (last_acked_packet_ack_time_ s) (bws_last_sent_packet_ s) (is_app_limited_ s) (end_of_app_limited_phase_ s) (connection_state_map_ s) in
    bws_set_map s (Emplace ConnectionStateOnSentPacket_default (connection_state_map_ s) packet_number (ConnectionStateOnSentPacket_new sent_time bytes s)).1.

Definition bws_OnPacketAcknowledgedInner (s : BandwidthSampler) (ack_time packet_number : Z) (sent_packet : ConnectionStateOnSentPacket)
    : BandwidthSampler * BandwidthSample :=
  let s := MkSampler (total_bytes_sent_ s) (total_bytes_acked_ s +64 cs_size sent_packet) (cs_total_bytes_sent sent_packet) (cs_sent_time sent_packet)
             ack_time (bws_last_sent_packet_ s)
             (if is_app_limited_ s && (packet_number >? end_of_app_limited_phase_ s) then false else is_app_limited_ s)
             (end_of_app_limited_phase_ s) (connection_state_map_ s) in
  if QuicTime_eqb (cs_last_acked_packet_sent_time sent_packet) QuicTime_Zero then (s, BandwidthSample_new)
  else
    let send_rate :=
      if QuicTime_gtb (cs_sent_time sent_packet) (cs_last_acked_packet_sent_time sent_packet)
      then QuicBandwidth_FromBytesAndTimeDelta (cs_total_bytes_sent sent_packet -64 cs_total_bytes_sent_at_last_acked_packet sent_packet)
             (QuicTime_diff (cs_sent_time sent_packet) (cs_last_acked_packet_sent_time sent_packet))
      else QuicBandwidth_Infinite in
    if QuicTime_leb ack_time (cs_last_acked_packet_ack_time sent_packet) then (s, BandwidthSample_new)
    else
      let ack_rate := QuicBandwidth_FromBytesAndTimeDelta (total_bytes_acked_ s -64 cs_total_bytes_acked_at_the_last_acked_packet sent_packet)
                        (QuicTime_diff ack_time (cs_last_acked_packet_ack_time sent_packet)) in
      (s, MkBwSample (Z.min send_rate ack_rate) (QuicTime_diff ack_time (cs_sent_time sent_packet)) (cs_is_app_limited sent_packet)).

Definition bws_OnPacketAcknowledged (s : BandwidthSampler) (ack_time packet_number : Z) : BandwidthSampler * BandwidthSample :=
  match GetEntry (connection_state_map_ s) packet_number with
  | None => (s, BandwidthSample_new)
  | Some sent_packet =>
      let '(s, sample) := bws_OnPacketAcknowledgedInner s ack_time packet_number sent_packet in
      (bws_set_map s (Remove (connection_state_map_ s) packet_number).1, sample)
  end.

Definition bws_OnPacketLost (s : BandwidthSampler) (packet_number : Z) : BandwidthSampler :=
  bws_set_map s (Remove (connection_state_map_ s) packet_number).1.

Definition bws_OnAppLimited (s : BandwidthSampler) : BandwidthSampler :=
  MkSampler (total_bytes_sent_ s) (total_bytes_acked_ s) (total_bytes_sent_at_last_acked_packet_ s) (last_acked_packet_sent_time_ s)
    (last_acked_packet_ack_time_ s) (bws_last_sent_packet_ s) true (bws_last_sent_packet_ s) (connection_state_map_ s).

(** Each round removes the first entry; there are no more rounds than entries. *)
Fixpoint RemoveObsolete_loop (fuel : nat) (q : PacketNumberIndexedQueue (T := ConnectionStateOnSentPacket)) (least_unacked : Z)
    : PacketNumberIndexedQueue (T := ConnectionStateOnSentPacket) :=
  match fuel with
  | O => q
  | S fuel =>
      if negb (IsEmpty q) && (first_packet q <? least_unacked)
      then RemoveObsolete_loop fuel (Remove q (first_packet q)).1 least_unacked else q
  end.
Definition bws_RemoveObsoletePackets (s : BandwidthSampler) (least_unacked : Z) : BandwidthSampler :=
  bws_set_map s (RemoveObsolete_loop (length (entries_ (connection_state_map_ s))) (connection_state_map_ s) least_unacked).

(** ** The specification: two curves *)

(** A point on the curve of acknowledged bytes: when, how many by then, and the point of the
    packet on the curve of sent bytes. *)
Record ack_point := AckPoint { ap_time : Z; ap_acked : Z; ap_sent : Z * Z }.

(** A packet in flight: its size, its point on the curve of sent bytes, the acknowledgements
    before it (the last one first), and whether the phase was limited by the application. *)
Record in_flight := InFlight { if_size : Z; if_point : Z * Z; if_acks : list ack_point; if_limited : bool }.

(** The end of a phase limited by the application is the last packet before it. *)
Record curves := Curves { cv_sent : Z; cv_acked : Z; cv_acks : list ack_point; cv_flying : gmap Z in_flight; cv_last : Z; cv_limited : option Z }.
Definition curves_new : curves := Curves 0 0 [] ∅ 0 None.

Inductive sampler_op :=
  | SamplerSent (time packet_number bytes bytes_in_flight : Z) (has_retransmittable_data : bool)
  | SamplerAcked (time packet_number : Z)
  | SamplerLost (packet_number : Z)
  | SamplerLimited
  | SamplerObsolete (least_unacked : Z).

(** The slope between two points, in bits per second, rounded down to bytes. *)
Definition slope (bytes time : Z) : Z := bytes * 1000000 / time * 8.

(** The last acknowledgement before the packet was sent gives the other point on each curve.
    A packet that was not sent later than that other packet has no send rate. *)
Definition curve_sample (f : in_flight) (time acked : Z) : BandwidthSample :=
  match if_acks f with
  | [] => BandwidthSample_new
  | a :: _ =>
      if time <=? ap_time a then BandwidthSample_new
      else
        let ack_rate := slope (acked - ap_acked a) (time - ap_time a) in
        let rate := if (if_point f).1 <=? (ap_sent a).1 then ack_rate
                    else Z.min (slope ((if_point f).2 - (ap_sent a).2) ((if_point f).1 - (ap_sent a).1)) ack_rate in
        MkBwSample rate (time - (if_point f).1) (if_limited f)
  end.

Definition curves_step (c : curves) (op : sampler_op) : curves * option BandwidthSample :=
  match op with
  | SamplerSent _ pn _ _ false => (Curves (cv_sent c) (cv_acked c) (cv_acks c) (cv_flying c) pn (cv_limited c), None)
  | SamplerSent t pn bytes n true =>
      let sent := cv_sent c + bytes in
      (** with nothing in flight, this is also where the acknowledgements start again *)
      let acks := if n =? 0 then AckPoint t (cv_acked c) (t, sent) :: cv_acks c else cv_acks c in
      let f := InFlight bytes (t, sent) acks (bool_decide (is_Some (cv_limited c))) in
      (Curves sent (cv_acked c) acks (<[pn := f]> (cv_flying c)) pn (cv_limited c), None)
  | SamplerAcked t pn =>
      match cv_flying c !! pn with
      | None => (c, Some BandwidthSample_new)
      | Some f =>
          let acked := cv_acked c + if_size f in
          (Curves (cv_sent c) acked (AckPoint t acked (if_point f) :: cv_acks c) (delete pn (cv_flying c)) (cv_last c)
             (match cv_limited c with Some e => if pn >? e then None else Some e | None => None end), Some (curve_sample f t acked))
      end
  | SamplerLost pn => (Curves (cv_sent c) (cv_acked c) (cv_acks c) (delete pn (cv_flying c)) (cv_last c) (cv_limited c), None)
  | SamplerLimited => (Curves (cv_sent c) (cv_acked c) (cv_acks c) (cv_flying c) (cv_last c) (Some (cv_last c)), None)
  | SamplerObsolete n => (Curves (cv_sent c) (cv_acked c) (cv_acks c) (filter (fun x => n <= x.1) (cv_flying c)) (cv_last c) (cv_limited c), None)
  end.

Definition sampler_step (s : BandwidthSampler) (op : sampler_op) : BandwidthSampler * option BandwidthSample :=
  match op with
  | SamplerSent t pn bytes n has => (bws_OnPacketSent s t pn bytes n has, None)
  | SamplerAcked t pn => let '(s, sample) := bws_OnPacketAcknowledged s t pn in (s, Some sample)
  | SamplerLost pn => (bws_OnPacketLost s pn, None)
  | SamplerLimited => (bws_OnAppLimited s, None)
  | SamplerObsolete n => (bws_RemoveObsoletePackets s n, None)
  end.

(** Packets are sent in order; less than a terabyte; the clock does not show zero. *)
Definition sampler_pre (c : curves) (op : sampler_op) : Prop :=
  match op with
  | SamplerSent t pn bytes n has => 0 < t < 2 ^ 62 /\ cv_last c < pn < kU64Max /\ 0 <= bytes /\ cv_sent c + bytes < 2 ^ 40
  | SamplerAcked t pn => 0 < t < 2 ^ 62 /\ 0 <= pn < 2 ^ 64
  | SamplerLost pn => 0 <= pn < 2 ^ 64
  | SamplerLimited => True
  | SamplerObsolete n => True
  end.

(** ** The simulation relation *)

Definition flying_bytes (m : gmap Z in_flight) : Z := map_fold (fun _ f n => if_size f + n) 0 m.

(** What the sampler remembers of the last acknowledgement. *)
Definition last_ack (acks : list ack_point) : ack_point := match acks with [] => AckPoint 0 0 (0, 0) | a :: _ => a end.
Definition snapshot (f : in_flight) : ConnectionStateOnSentPacket :=
  let a := last_ack (if_acks f) in
  MkConnState (if_point f).1 (if_size f) (if_point f).2 (ap_sent a).2 (ap_sent a).1 (ap_time a) (ap_acked a) (if_limited f).

Record point_ok (sent acked : Z) (a : ack_point) : Prop := {
  po_time : 0 < ap_time a < 2 ^ 62; po_acked : 0 <= ap_acked a <= acked; po_sent_time : 0 < (ap_sent a).1 < 2 ^ 62; po_sent : 0 <= (ap_sent a).2 <= sent }.
Record flying_ok (c : curves) (pn : Z) (f : in_flight) : Prop := {
  fo_number : pn <= cv_last c; fo_size : 0 <= if_size f; fo_time : 0 < (if_point f).1 < 2 ^ 62; fo_sent : 0 <= (if_point f).2 <= cv_sent c;
  fo_acks : Forall (point_ok (if_point f).2 (cv_acked c)) (if_acks f) }.
Record curves_ok (c : curves) : Prop := {
  co_sent : cv_sent c < 2 ^ 40; co_acked : 0 <= cv_acked c; co_sum : cv_acked c + flying_bytes (cv_flying c) <= cv_sent c;
  co_acks : Forall (point_ok (cv_sent c) (cv_acked c)) (cv_acks c); co_head : ap_acked (last_ack (cv_acks c)) = cv_acked c;
  co_flying : map_Forall (flying_ok c) (cv_flying c); co_last : 0 <= cv_last c }.
Record simulates (s : BandwidthSampler) (c : curves) : Prop := {
  si_sent : total_bytes_sent_ s = cv_sent c; si_acked : total_bytes_acked_ s = cv_acked c;
  si_last_sent : total_bytes_sent_at_last_acked_packet_ s = (ap_sent (last_ack (cv_acks c))).2;
  si_last_time : last_acked_packet_sent_time_ s = (ap_sent (last_ack (cv_acks c))).1;
  si_ack_time : last_acked_packet_ack_time_ s = ap_time (last_ack (cv_acks c)); si_last : bws_last_sent_packet_ s = cv_last c;
  si_limited : is_app_limited_ s = bool_decide (is_Some (cv_limited c)); si_end : forall e, cv_limited c = Some e -> end_of_app_limited_phase_ s = e;
  si_queue : pniq_ok (connection_state_map_ s); si_map : pniq_map (connection_state_map_ s) = snapshot <$> cv_flying c;
  si_last_packet : last_packet (connection_state_map_ s) <= cv_last c }.

(** *** Sums over the packets in flight *)

Lemma flying_bytes_insert m pn f : m !! pn = None -> flying_bytes (<[pn := f]> m) = if_size f + flying_bytes m.
Proof. intros Hn. unfold flying_bytes. rewrite map_fold_insert_L; [done| |done]. intros. lia. Qed.
Lemma flying_bytes_delete m pn f : m !! pn = Some f -> flying_bytes m = if_size f + flying_bytes (delete pn m).
Proof. intros Hf. rewrite <- (flying_bytes_insert (delete pn m) pn f) by apply lookup_delete_eq. by rewrite insert_delete_id. Qed.
Lemma flying_bytes_filter (m : gmap Z in_flight) n : map_Forall (fun _ f => 0 <= if_size f) m -> 0 <= flying_bytes (filter (fun x => n <= x.1) m) <= flying_bytes m.
Proof.
  induction m as [|pn f m Hn IH] using map_ind; intros Hs; [by rewrite map_filter_empty|]. apply map_Forall_insert in Hs as [Hf Hs]; [|done]. specialize (IH Hs).
  rewrite (flying_bytes_insert m) by done. destruct (decide (n <= pn)).
  - rewrite map_filter_insert_True by done. rewrite flying_bytes_insert; [lia|]. by rewrite map_lookup_filter, Hn.
  - rewrite map_filter_insert_False by done. rewrite delete_id by done. lia.
Qed.
Lemma flying_bytes_nonneg m : map_Forall (fun _ f => 0 <= if_size f) m -> 0 <= flying_bytes m.
Proof.
  induction m as [|pn f m Hn IH] using map_ind; intros Hs; [done|]. apply map_Forall_insert in Hs as [Hf Hs]; [|done]. rewrite flying_bytes_insert by done. specialize (IH Hs). lia.
Qed.

(** *** Rates without overflow *)

Lemma slope_exact bytes time : 0 <= bytes < 2 ^ 40 -> 0 < time < 2 ^ 62 -> QuicBandwidth_FromBytesAndTimeDelta bytes time = slope bytes time /\ 0 <= slope bytes time < 2 ^ 63.
Proof.
  intros Hb Ht. unfold QuicBandwidth_FromBytesAndTimeDelta, kNumMicrosPerSecond, Delta_ToMicroseconds, slope. change (1000 * 1000) with 1000000.
  assert (0 <= bytes * 1000000 / time <= bytes * 1000000) as Hq by (split; [apply Z.div_pos; lia|apply Z.div_le_upper_bound; nia]).
  rewrite (u64_id (bytes * 1000000)), (u64_id time) by (unfold is_u64; lia). rewrite u64_id by (unfold is_u64; lia). rewrite i64_id by (unfold is_i64; lia).
  unfold QuicBandwidth_new. rewrite (proj2 (Z.geb_le _ _)) by lia. lia.
Qed.
(** A slope is the rate rounded down. *)
Lemma slope_le bytes time rate : 0 < time -> 8000000 * bytes <= rate * time -> slope bytes time <= rate.
Proof. intros Ht H. unfold slope. pose proof (Z.mul_div_le (bytes * 1000000) time Ht). nia. Qed.

(** *** The queue of packets *)

Lemma RemoveObsolete_ok fuel q n : pniq_ok q -> (size (pniq_map q) <= fuel)%nat ->
  let q' := RemoveObsolete_loop fuel q n in
  pniq_ok q' /\ pniq_map q' = filter (fun x => n <= x.1) (pniq_map q) /\ last_packet q' <= Z.max 0 (last_packet q).
Proof.
  cbn zeta. assert (forall q : PacketNumberIndexedQueue (T := ConnectionStateOnSentPacket), pniq_ok q -> negb (IsEmpty q) && (first_packet q <? n) = false ->
    pniq_map q = filter (fun x => n <= x.1) (pniq_map q)) as Hstop.
  { intros q' Hok Hc. symmetry. apply map_filter_id. intros k x Hk. simpl. pose proof (pniq_bounds q' k x Hok Hk) as [Hb _].
    apply andb_false_iff in Hc as [Hc|Hc]; [|unfold first_packet in Hc; blia]. apply negb_false_iff, pniq_map_empty in Hc; [|done]. by rewrite Hc, lookup_empty in Hk. }
  revert q. induction fuel as [|fuel IH]; intros q Hok Hf; cbn [RemoveObsolete_loop].
  - assert (pniq_map q = ∅) as E by (apply map_size_empty_iff; lia). rewrite E, map_filter_empty. split_and!; [done|done|lia].
  - destruct (negb (IsEmpty q) && (first_packet q <? n)) eqn:Hc; [|split_and!; [done|by apply Hstop|lia]].
    apply andb_true_iff in Hc as [He Hlt]. apply negb_true_iff in He.
    assert (entries_ q <> []) as Hne by (intros E; apply pniq_empty in E; congruence).
    assert (exists x, pniq_map q !! first_packet q = Some x) as [x Hx].
    { destruct Hok as (_ & _ & _ & Hh). destruct (entries_ q) as [|e l] eqn:El; [done|]. exists (data e). unfold pniq_map, first_packet. rewrite El. simpl. rewrite Hh. apply lookup_insert_eq. }
    assert (0 <= first_packet q < 2 ^ 64) as Hr.
    { unfold first_packet. pose proof Hok as (F1 & F2 & _). unfold entries_size, kU64Max in *. lia. }
    destruct (Remove_result q (first_packet q) Hok Hr) as (q' & E & Q1 & Q2 & Q3). rewrite E. simpl.
    destruct (IH q' Q1) as (I1 & I2 & I3).
    { rewrite Q2, map_size_delete_Some by (by exists x). lia. }
    split; [done|]. split.
    + rewrite I2, Q2. symmetry. rewrite <- (insert_delete_id (pniq_map q) (first_packet q) x Hx) at 1. rewrite map_filter_insert_False by (simpl; blia). by rewrite delete_delete_eq.
    + destruct (IsEmpty q') eqn:E'; [rewrite (last_packet_empty q' E') in I3; lia|]. rewrite (Q3 eq_refl) in I3. lia.
Qed.

(** *** The operations *)

Lemma point_ok_mono sent acked sent' acked' a : point_ok sent acked a -> sent <= sent' -> acked <= acked' -> point_ok sent' acked' a.
Proof. intros []. constructor; lia. Qed.
Lemma flying_ok_mono c c' pn f : flying_ok c pn f -> cv_last c <= cv_last c' -> cv_sent c <= cv_sent c' -> cv_acked c <= cv_acked c' -> flying_ok c' pn f.
Proof. intros [] ? ? ?. constructor; try lia. eapply Forall_impl; [done|]. intros a Ha. by eapply point_ok_mono. Qed.
Lemma curves_ok_sizes c : curves_ok c -> map_Forall (fun _ f => 0 <= if_size f) (cv_flying c).
Proof. intros H. eapply map_Forall_impl; [apply (co_flying _ H)|]. by intros pn f []. Qed.
(** Dropping packets. *)
Lemma curves_ok_flying c m : curves_ok c -> (forall pn f, m !! pn = Some f -> cv_flying c !! pn = Some f) -> flying_bytes m <= flying_bytes (cv_flying c) ->
  curves_ok (Curves (cv_sent c) (cv_acked c) (cv_acks c) m (cv_last c) (cv_limited c)).
Proof.
  intros [] Hm Hb. constructor; simpl; try done; [lia|]. intros pn f Hf. apply (flying_ok_mono c); simpl; try lia. by apply co_flying0, Hm.
Qed.
Lemma flying_bytes_delete_le c pn : curves_ok c -> flying_bytes (delete pn (cv_flying c)) <= flying_bytes (cv_flying c).
Proof.
  intros Hc. destruct (cv_flying c !! pn) as [f|] eqn:E; [|by rewrite delete_id]. rewrite (flying_bytes_delete _ _ _ E). pose proof (fo_size _ _ _ (co_flying _ Hc _ _ E)). lia.
Qed.
Lemma curves_ok_delete c pn : curves_ok c -> curves_ok (Curves (cv_sent c) (cv_acked c) (cv_acks c) (delete pn (cv_flying c)) (cv_last c) (cv_limited c)).
Proof.
  intros Hc. apply curves_ok_flying; [done| |by apply flying_bytes_delete_le]. intros k f [_ Hf]%lookup_delete_Some. done.
Qed.
Lemma remove_simulates q (m : gmap Z in_flight) last pn : pniq_ok q -> pniq_map q = snapshot <$> m -> 0 <= last -> last_packet q <= last -> 0 <= pn < 2 ^ 64 ->
  pniq_ok (Remove q pn).1 /\ pniq_map (Remove q pn).1 = snapshot <$> delete pn m /\ last_packet (Remove q pn).1 <= last.
Proof.
  intros Hq Hm H0 Hl Hpn. destruct (Remove_result q pn Hq Hpn) as (q' & -> & Q1 & Q2 & Q3). simpl. split; [done|]. split; [by rewrite Q2, Hm, fmap_delete|].
  destruct (IsEmpty q') eqn:E; [by rewrite last_packet_empty|]. by rewrite Q3.
Qed.

Lemma simulates_sent s c t pn bytes n has : curves_ok c -> simulates s c -> sampler_pre c (SamplerSent t pn bytes n has) ->
  curves_ok (curves_step c (SamplerSent t pn bytes n has)).1 /\ simulates (bws_OnPacketSent s t pn bytes n has) (curves_step c (SamplerSent t pn bytes n has)).1.
Proof.
  intros Hc Hs (Ht & Hpn & Hb & Hsum). pose proof (curves_ok_sizes c Hc) as Hsz. pose proof (flying_bytes_nonneg _ Hsz) as Hfn. destruct has.
  2: { destruct Hc, Hs. simpl. split; constructor; simpl; try done; try lia. eapply map_Forall_impl; [exact co_flying0|]. intros k f Hf. apply (flying_ok_mono c); simpl; (done || lia). }
  assert (cv_flying c !! pn = None) as Hfresh.
  { destruct (cv_flying c !! pn) as [f|] eqn:E; [|done]. pose proof (fo_number _ _ _ (co_flying _ Hc _ _ E)). lia. }
  cbn [curves_step]. set (acks := if n =? 0 then _ else _). set (c' := Curves _ _ _ _ _ _).
  assert (Forall (point_ok (cv_sent c + bytes) (cv_acked c)) acks /\ ap_acked (last_ack acks) = cv_acked c) as [Ha Hh].
  { destruct Hc. assert (Forall (point_ok (cv_sent c + bytes) (cv_acked c)) (cv_acks c)) as Hold by (eapply Forall_impl; [done|]; intros a Hp; apply (point_ok_mono (cv_sent c) (cv_acked c)); [done|lia|lia]).
    unfold acks. case_if; [|done]. split; [|done]. constructor; [|done]. constructor; simpl; lia. }
  assert (curves_ok c') as Hc'.
  { destruct Hc. unfold c'. constructor; simpl; try done; try lia; [rewrite flying_bytes_insert by done; simpl; lia|]. apply map_Forall_insert_2.
    - constructor; simpl; (done || lia).
    - eapply map_Forall_impl; [exact co_flying0|]. intros k f Hf. apply (flying_ok_mono c); simpl; (done || lia). }
  split; [done|]. unfold bws_OnPacketSent. cbn [negb]. cbn zeta. cbn [total_bytes_sent_ total_bytes_acked_ bws_last_sent_packet_ is_app_limited_ end_of_app_limited_phase_ connection_state_map_ total_bytes_sent_at_last_acked_packet_ last_acked_packet_sent_time_ last_acked_packet_ack_time_].
  destruct Hs. rewrite si_sent0. rewrite u64_id by (unfold is_u64; destruct Hc; lia). set (s1 := if n =? 0 then _ else _).
  assert (ConnectionStateOnSentPacket_new t bytes s1 = snapshot (InFlight bytes (t, cv_sent c + bytes) acks (bool_decide (is_Some (cv_limited c))))) as Esnap.
  { unfold s1, acks, snapshot, ConnectionStateOnSentPacket_new in *. case_if; simpl in *; rewrite ?Hh; congruence. }
  assert (connection_state_map_ s1 = connection_state_map_ s) as Emap by (unfold s1; by case_if).
  rewrite Esnap, Emap. pose proof (Emplace_result ConnectionStateOnSentPacket_default (connection_state_map_ s) pn
    (snapshot (InFlight bytes (t, cv_sent c + bytes) acks (bool_decide (is_Some (cv_limited c))))) si_queue0 ltac:(destruct Hc; lia)) as He.
  rewrite (proj2 (Z.ltb_lt (last_packet _) pn)), orb_true_r in He by lia. destruct He as (q' & -> & Q1 & Q2 & Q3).
  unfold s1, acks, c' in *. clear Esnap Emap. destruct (n =? 0); constructor; simpl; try done; try lia; by rewrite Q2, si_map0, fmap_insert.
Qed.

(** The sample is the slope on the curves. *)
Lemma sample_exact s c t pn f : curves_ok c -> simulates s c -> cv_flying c !! pn = Some f -> 0 < t < 2 ^ 62 ->
  (bws_OnPacketAcknowledgedInner s t pn (snapshot f)).2 = curve_sample f t (cv_acked c + if_size f) /\ total_bytes_acked_ s +64 if_size f = cv_acked c + if_size f.
Proof.
  intros Hc Hs Hf Ht. pose proof (co_flying _ Hc _ _ Hf) as [F1 F2 F3 F4 F5]. pose proof (flying_bytes_delete _ _ _ Hf) as Hd.
  pose proof (flying_bytes_nonneg _ (curves_ok_sizes _ (curves_ok_delete c pn Hc))) as Hn. simpl in Hn. destruct Hc. rewrite (si_acked _ _ Hs). rewrite u64_id by (unfold is_u64; lia).
  split; [|done]. unfold bws_OnPacketAcknowledgedInner, curve_sample. cbn zeta. unfold snapshot. cbn [cs_last_acked_packet_sent_time cs_sent_time cs_total_bytes_sent cs_total_bytes_sent_at_last_acked_packet cs_last_acked_packet_ack_time cs_total_bytes_acked_at_the_last_acked_packet cs_is_app_limited cs_size total_bytes_acked_].
  rewrite (si_acked _ _ Hs), u64_id by (unfold is_u64; lia). destruct (if_acks f) as [|a acks]; [done|]. cbn [last_ack]. apply Forall_cons in F5 as [[A1 A2 A3 A4] _].
  unfold QuicTime_eqb, QuicTime_gtb, QuicTime_leb, QuicTime_ltb, QuicTime_Zero, QuicTime_diff. rewrite (proj2 (Z.eqb_neq (ap_sent a).1 0)) by lia.
  rewrite <- Z.leb_antisym. destruct (t <=? ap_time a) eqn:Et; [done|]. simpl. rewrite !i64_id by (unfold is_i64; lia).
  rewrite !u64_id by (unfold is_u64; lia). destruct (slope_exact (cv_acked c + if_size f - ap_acked a) (t - ap_time a) ltac:(lia) ltac:(blia)) as [-> Hr].
  f_equal. destruct ((ap_sent a).1 <? (if_point f).1) eqn:Es.
  - rewrite (proj2 (Z.leb_gt _ _)) by blia. by destruct (slope_exact ((if_point f).2 - (ap_sent a).2) ((if_point f).1 - (ap_sent a).1) ltac:(lia) ltac:(blia)) as [-> _].
  - rewrite (proj2 (Z.leb_le _ _)) by blia. apply Z.min_r. change QuicBandwidth_Infinite with (2 ^ 63 - 1). lia.
Qed.

Lemma simulates_acked s c t pn : curves_ok c -> simulates s c -> sampler_pre c (SamplerAcked t pn) ->
  let '(c', b) := curves_step c (SamplerAcked t pn) in let '(s', b') := sampler_step s (SamplerAcked t pn) in curves_ok c' /\ simulates s' c' /\ b' = b.
Proof.
  intros Hc Hs (Ht & Hpn). cbn [curves_step sampler_step]. unfold bws_OnPacketAcknowledged. rewrite GetEntry_lookup by (done || apply Hs). rewrite (si_map _ _ Hs), lookup_fmap.
  destruct (cv_flying c !! pn) as [f|] eqn:Hf; simpl; [|done]. destruct (sample_exact s c t pn f Hc Hs Hf Ht) as [E1 E2].
  destruct (bws_OnPacketAcknowledgedInner s t pn (snapshot f)) as [s1 b] eqn:Ein. simpl in E1. subst b. split; [|split; [|done]].
  - pose proof (curves_ok_delete c pn Hc) as Hd. pose proof (flying_bytes_delete _ _ _ Hf) as Hsum. destruct Hd as [D1 D2 D3 D4 D5 D6 D7], (co_flying _ Hc _ _ Hf) as [F1 F2 F3 F4 F5]. simpl in *.
    constructor; simpl; try done; [lia|destruct Hc; lia| |].
    + constructor; [constructor; simpl; lia|]. eapply Forall_impl; [exact D4|]. intros a Ha. apply (point_ok_mono (cv_sent c) (cv_acked c)); (done || lia).
    + intros k g Hg. apply (flying_ok_mono c); simpl; try lia. apply lookup_delete_Some in Hg as [_ Hg]. exact (co_flying _ Hc k g Hg).
  - destruct (remove_simulates (connection_state_map_ s) (cv_flying c) (cv_last c) pn) as (R1 & R2 & R3); try apply Hs; try done; [apply Hc|].
    assert (total_bytes_sent_ s1 = total_bytes_sent_ s /\ total_bytes_acked_ s1 = cv_acked c + if_size f /\ total_bytes_sent_at_last_acked_packet_ s1 = (if_point f).2 /\
      last_acked_packet_sent_time_ s1 = (if_point f).1 /\ last_acked_packet_ack_time_ s1 = t /\ bws_last_sent_packet_ s1 = bws_last_sent_packet_ s /\
      is_app_limited_ s1 = (if is_app_limited_ s && (pn >? end_of_app_limited_phase_ s) then false else is_app_limited_ s) /\
      end_of_app_limited_phase_ s1 = end_of_app_limited_phase_ s /\ connection_state_map_ s1 = connection_state_map_ s) as (U1 & U2 & U3 & U4 & U5 & U6 & U7 & U8 & U9).
    { clear R1 R2 R3. revert Ein. unfold bws_OnPacketAcknowledgedInner. cbn zeta. change (cs_size (snapshot f)) with (if_size f). rewrite E2. destruct (QuicTime_eqb _ _); [by intros [= <- _]|]. destruct (QuicTime_leb _ _); by intros [= <- _]. }
    rewrite U9. destruct Hs. constructor; simpl; try done; try congruence.
    + rewrite U7, si_limited0. destruct (cv_limited c) as [e|] eqn:El; simpl; [|done]. rewrite (si_end0 e eq_refl). by destruct (pn >? e).
    + intros e. destruct (cv_limited c) as [e0|]; [|done]. destruct (pn >? e0); [done|]. intros [= <-]. rewrite U8. by apply si_end0.
Qed.

Lemma simulates_step s c op : curves_ok c -> simulates s c -> sampler_pre c op ->
  let '(c', b) := curves_step c op in let '(s', b') := sampler_step s op in curves_ok c' /\ simulates s' c' /\ b' = b.
Proof.
  intros Hc Hs Hpre. destruct op as [t pn bytes n has|t pn|pn| |n].
  - pose proof (simulates_sent s c t pn bytes n has Hc Hs Hpre) as H. destruct (curves_step c _) as [c' b] eqn:E. cbn [sampler_step]. simpl in H. destruct H. split_and!; try done.
    revert E. simpl. by destruct has; intros [= _ <-].
  - by apply simulates_acked.
  - simpl in *. split; [by apply curves_ok_delete|]. split; [|done].
    destruct (remove_simulates (connection_state_map_ s) (cv_flying c) (cv_last c) pn) as (R1 & R2 & R3); try apply Hs; try done; [apply Hc|]. destruct Hs. constructor; done.
  - simpl. split; [|split; [|done]]; [destruct Hc|destruct Hs]; constructor; simpl; try done; [|by intros e [= <-]].
    eapply map_Forall_impl; [exact co_flying0|]. intros k f Hf. by apply (flying_ok_mono c).
  - simpl. split; [|split; [|done]].
    + apply curves_ok_flying; [done| |by apply flying_bytes_filter, curves_ok_sizes]. intros pn f Hf. by apply map_lookup_filter_Some in Hf as [Hf _].
    + pose proof (slots_size (first_packet_ (connection_state_map_ s)) (entries_ (connection_state_map_ s))) as Hsz.
      destruct (RemoveObsolete_ok (length (entries_ (connection_state_map_ s))) (connection_state_map_ s) n (si_queue _ _ Hs) Hsz) as (R1 & R2 & R3).
      pose proof (co_last _ Hc). destruct Hs. constructor; simpl; try done; [|lia]. rewrite R2, si_map0. by rewrite map_filter_fmap.
Qed.

(** ** Samples are slopes of the curves *)

Fixpoint curves_run (c : curves) (ops : list sampler_op) : curves * list (option BandwidthSample) :=
  match ops with [] => (c, []) | op :: ops => let '(c, b) := curves_step c op in let '(c, l) := curves_run c ops in (c, b :: l) end.
Fixpoint sampler_run (s : BandwidthSampler) (ops : list sampler_op) : BandwidthSampler * list (option BandwidthSample) :=
  match ops with [] => (s, []) | op :: ops => let '(s, b) := sampler_step s op in let '(s, l) := sampler_run s ops in (s, b :: l) end.
Fixpoint run_pre (c : curves) (ops : list sampler_op) : Prop :=
  match ops with [] => True | op :: ops => sampler_pre c op /\ run_pre (curves_step c op).1 ops end.

Lemma curves_new_ok : curves_ok curves_new.
Proof. constructor; simpl; try done; try lia. Qed.
Lemma sampler_new_simulates : simulates BandwidthSampler_new curves_new.
Proof. constructor; simpl; try done. Qed.

Lemma simulates_run s c ops : curves_ok c -> simulates s c -> run_pre c ops ->
  curves_ok (curves_run c ops).1 /\ simulates (sampler_run s ops).1 (curves_run c ops).1 /\ (sampler_run s ops).2 = (curves_run c ops).2.
Proof.
  revert s c. induction ops as [|op ops IH]; intros s c Hc Hs Hpre; [done|]. destruct Hpre as [Hpre Hrest]. pose proof (simulates_step s c op Hc Hs Hpre) as Hst. simpl.
  destruct (curves_step c op) as [c' b], (sampler_step s op) as [s' b']. destruct Hst as (H1 & H2 & ->). specialize (IH s' c' H1 H2 Hrest).
  destruct (curves_run c' ops) as [c2 l], (sampler_run s' ops) as [s2 l']. simpl in *. destruct IH as (? & ? & ->). done.
Qed.

(** C11: For every sequence of packets sent in order, acknowledged, lost and discarded, and of
    phases limited by the application, up to a terabyte, the sampler returns exactly the
    samples of the curves: the smaller of the slope of the bytes sent and of the bytes
    acknowledged between the packet and the last acknowledgement before it was sent, the
    round trip time of the packet, and whether it was sent in a limited phase, which lasts
    until a packet sent after its start is acknowledged. *)
Theorem sampler_refines ops : run_pre curves_new ops -> (sampler_run BandwidthSampler_new ops).2 = (curves_run curves_new ops).2.
Proof. intros H. apply (simulates_run BandwidthSampler_new curves_new ops curves_new_ok sampler_new_simulates H). Qed.

(** ** Samples and the path *)

(** The path delivers at most [rate] bits per second between any two acknowledgements. *)
Fixpoint path_rate (rate : Z) (acks : list ack_point) : Prop :=
  match acks with
  | [] => True
  | a :: acks => Forall (fun a0 => ap_time a0 < ap_time a -> 8000000 * (ap_acked a - ap_acked a0) <= rate * (ap_time a - ap_time a0)) acks /\ path_rate rate acks
  end.

Lemma path_rate_suffix rate l k : k `suffix_of` l -> path_rate rate l -> path_rate rate k.
Proof. intros [m ->]. induction m as [|a m IH]; [done|]. intros [_ H]. by apply IH. Qed.
Lemma curves_step_acks c op : cv_acks c `suffix_of` cv_acks (curves_step c op).1.
Proof.
  destruct op as [t pn bytes n has|t pn|pn| |n]; simpl; try done.
  - destruct has; [|done]. simpl. destruct (n =? 0); [by apply suffix_cons_r|done].
  - destruct (cv_flying c !! pn); [by apply suffix_cons_r|done].
Qed.
Lemma curves_run_acks c ops : cv_acks c `suffix_of` cv_acks (curves_run c ops).1.
Proof.
  revert c. induction ops as [|op ops IH]; intros c; simpl; [done|]. pose proof (curves_step_acks c op) as H. destruct (curves_step c op) as [c' b]. specialize (IH c').
  destruct (curves_run c' ops) as [c2 l]. simpl in *. by etrans.
Qed.

Definition recorded (c : curves) : Prop := map_Forall (fun _ f => if_acks f `suffix_of` cv_acks c) (cv_flying c).
Lemma recorded_step c op : recorded c -> recorded (curves_step c op).1.
Proof.
  intros Hr. pose proof (curves_step_acks c op) as Hs. assert (map_Forall (fun _ f => if_acks f `suffix_of` cv_acks (curves_step c op).1) (cv_flying c)) as Hold.
  { eapply map_Forall_impl; [exact Hr|]. intros k f Hf. simpl in Hf. by etrans. }
  unfold recorded. destruct op as [t pn bytes n has|t pn|pn| |n]; simpl in *; try done.
  - destruct has; [|done]. simpl in *. by apply map_Forall_insert_2.
  - destruct (cv_flying c !! pn); [|done]. simpl in *. by apply map_Forall_delete.
  - by apply map_Forall_delete.
  - intros k f Hf. apply map_lookup_filter_Some in Hf as [Hf _]. exact (Hold k f Hf).
Qed.

Lemma curve_sample_le rate f t acked pt acks : 0 <= rate -> if_acks f `suffix_of` acks -> path_rate rate (AckPoint t acked pt :: acks) -> bs_bandwidth (curve_sample f t acked) <= rate.
Proof.
  intros H0 Hs [Hp _]. unfold curve_sample. destruct (if_acks f) as [|a l] eqn:E; [done|]. destruct (t <=? ap_time a) eqn:Et; [done|]. cbn [bs_bandwidth]. cbn zeta.
  rewrite Forall_forall in Hp. assert (a ∈ acks) as Ha by (destruct Hs as [m ->]; set_solver). specialize (Hp a Ha). simpl in Hp.
  pose proof (slope_le (acked - ap_acked a) (t - ap_time a) rate ltac:(blia) ltac:(apply Hp; blia)). case_if; lia.
Qed.

Lemma samples_below_path rate ops : run_pre curves_new ops -> 0 <= rate -> path_rate rate (cv_acks (curves_run curves_new ops).1) ->
  Forall (fun b => match b with Some b => bs_bandwidth b <= rate | None => True end) (sampler_run BandwidthSampler_new ops).2.
Proof.
  intros Hpre Hr Hp. destruct (simulates_run BandwidthSampler_new curves_new ops curves_new_ok sampler_new_simulates Hpre) as (_ & _ & ->).
  assert (recorded curves_new) as Hrec by apply map_Forall_empty. clear Hpre. revert Hrec Hp. generalize curves_new. induction ops as [|op ops IH]; intros c Hrec Hp; simpl in *; [done|].
  pose proof (recorded_step c op Hrec) as Hrec'. pose proof (curves_run_acks (curves_step c op).1 ops) as Hs. destruct (curves_step c op) as [c' b] eqn:E. simpl in *.
  specialize (IH c' Hrec'). destruct (curves_run c' ops) as [c2 l]. simpl in *. constructor; [|by apply IH].
  destruct op as [t pn bytes n has|t pn|pn| |n]; simpl in E; [destruct has| | | |]; try (by injection E as _ <-).
  destruct (cv_flying c !! pn) as [f|] eqn:Hf; injection E as <- <-; [|done]. simpl in Hs.
  eapply curve_sample_le; [done|exact (Hrec pn f Hf)|]. by eapply path_rate_suffix.
Qed.

(** If the path never delivers more than [rate] bits per second between two
    acknowledgements, no bandwidth sample exceeds [rate], in spite of losses, compressed
    acknowledgements and idle times. *)
Lemma samples_never_exceed_path rate ops : run_pre curves_new ops -> 0 <= rate -> path_rate rate (cv_acks (curves_run curves_new ops).1) ->
  Forall (fun b => match b with Some b => bs_bandwidth b <= rate | None => True end) (sampler_run BandwidthSampler_new ops).2.
Proof. apply samples_below_path. Qed.

Fixpoint path_rateb (rate : Z) (acks : list ack_point) : bool :=
  match acks with
  | [] => true
  | a :: acks => forallb (fun a0 => (ap_time a <=? ap_time a0) || (8000000 * (ap_acked a - ap_acked a0) <=? rate * (ap_time a - ap_time a0))) acks && path_rateb rate acks
  end.
Lemma path_rateb_ok rate acks : path_rateb rate acks = true -> path_rate rate acks.
Proof.
  induction acks as [|a acks IH]; [done|]. simpl. intros [H1 H2]%andb_true_iff. split; [|by apply IH]. rewrite forallb_forall in H1. apply Forall_forall.
  intros a0 Ha Hlt. apply list_elem_of_In in Ha. specialize (H1 a0 Ha). blia.
Qed.

(** *** A run *)

(** Ten packets of 1250 bytes, one each millisecond, acknowledged 20 milliseconds later. *)
Definition sampler_ops : list sampler_op :=
  map (fun k => SamplerSent (1000 * Z.of_nat k) (Z.of_nat k) 1250 (1250 * (Z.of_nat k - 1)) true) (seq 1 10) ++
  map (fun k => SamplerAcked (1000 * Z.of_nat k + 20000) (Z.of_nat k)) (seq 1 10) ++
  [SamplerSent 31000 11 1250 0 true; SamplerLimited; SamplerSent 32000 12 1250 1250 true; SamplerAcked 51000 11; SamplerAcked 52000 12].
Lemma sampler_ops_pre : run_pre curves_new sampler_ops.
Proof. repeat (split; [vm_compute; intuition congruence|]). exact I. Qed.
Lemma sampler_refines_witness : (sampler_run BandwidthSampler_new sampler_ops).2 !! 24%nat = Some (Some (MkBwSample 952376 20000 true)) /\
  (sampler_run BandwidthSampler_new sampler_ops).2 = (curves_run curves_new sampler_ops).2.
Proof. split; [vm_compute; reflexivity|]. apply (sampler_refines sampler_ops). exact sampler_ops_pre. Defined.
Lemma samples_never_exceed_path_witness :
  Forall (fun b => match b with Some b => bs_bandwidth b <= 10000000 | None => True end) (sampler_run BandwidthSampler_new sampler_ops).2.
Proof.
  apply (samples_never_exceed_path 10000000 sampler_ops); [exact sampler_ops_pre|lia|]. apply path_rateb_ok. vm_compute. reflexivity.
Defined.
