(* ===== verification/BbrSender.v ===== *)
(** * congestion_control/bbr_sender.cc: BBR

    The state of the sender in four records, by what the members are for: the model of the
    path, the mode machine, the windows, and the configuration.  The packets in flight and
    the round trip times, to which the sender holds pointers, are arguments; the random
    source is a parameter, the sequence of the numbers it draws. *)

From S2P Require Import Prelude QuicTime QuicBandwidth WindowedFilter PacketNumberIndexedQueue UnackedPacketMap RttStats SoftFloat LossAlgorithm SentPacketManager PacingSender BandwidthSampler.

(** Mixed arithmetic: a float times an unsigned number, and a double times a duration. *)
Definition f32_mul_int (x : flt) (n : Z) : flt := f32_mul x (f32_of_int n).
Definition f32_to_u64 (x : flt) : Z := u64 (f32_trunc x).
Definition flt_gtb (x y : flt) : bool := y.1 * x.2 <? x.1 * y.2.
Definition f64 (n d : Z) : flt := round_rat double_bits n d.
Definition f64_mul_delta (x : flt) (d : Z) : Z := i64 (f32_llround (let y := f64 d 1 in f64 (y.1 * x.1) (y.2 * x.2))).

(** ** Data *)

Inductive BbrMode := STARTUP | DRAIN | PROBE_BW | PROBE_RTT.
Inductive RecoveryState := NOT_IN_RECOVERY | CONSERVATION | GROWTH.
#[global] Instance BbrMode_eq_dec : EqDecision BbrMode.
Proof. solve_decision. Defined.
#[global] Instance RecoveryState_eq_dec : EqDecision RecoveryState.
Proof. solve_decision. Defined.

Definition bbr_kMaxSegmentSize : Z := kDefaultTCPMSS.
Definition kMinimumCongestionWindow : Z := 4 * bbr_kMaxSegmentSize.
Definition kHighGain : flt := f32 2885 1000.
Definition kDrainGain : flt := f32_div (1, 1) kHighGain.
Definition kPacingGain : list flt := [(5, 4); (3, 4); (1, 1); (1, 1); (1, 1); (1, 1); (1, 1); (1, 1)].
Definition kGainCycleLength : Z := 8.
Definition kBandwidthWindowSize : Z := kGainCycleLength + 2.
Definition kMinRttExpiry : Z := Delta_FromSeconds 10.
Definition kProbeRttTime : Z := Delta_FromMilliseconds 200.
Definition kStartupGrowthTarget : flt := (5, 4).
Definition kRoundTripsWithoutGrowthBeforeExitingStartup : Z := 3.
Definition kMaxPacketSize : Z := 1452.

(** The model of the path. *)
Record BbrModel := MkModel {
  bbr_sampler_ : BandwidthSampler; bbr_round_trip_count_ : Z; bbr_last_sent_packet_ : Z; bbr_current_round_trip_end_ : Z;
  bbr_max_bandwidth_ : WindowedFilter (T := Z); bbr_max_ack_height_ : WindowedFilter (T := Z); bbr_aggregation_epoch_start_time_ : Z;
  bbr_aggregation_epoch_bytes_ : Z; bbr_bytes_acked_since_queue_drained_ : Z; bbr_min_rtt_ : Z; bbr_min_rtt_timestamp_ : Z;
  bbr_last_sample_is_app_limited_ : bool }.
(** The mode machine; [bbr_draws_] counts the random numbers drawn. *)
Record BbrMachine := MkMachine {
  bbr_mode_ : BbrMode; bbr_pacing_gain_ : flt; bbr_congestion_window_gain_ : flt; bbr_cycle_current_offset_ : Z; bbr_last_cycle_start_ : Z;
  bbr_is_at_full_bandwidth_ : bool; bbr_rounds_without_bandwidth_gain_ : Z; bbr_bandwidth_at_last_round_ : Z; bbr_exiting_quiescence_ : bool;
  bbr_exit_probe_rtt_at_ : Z; bbr_probe_rtt_round_passed_ : bool; bbr_draws_ : nat }.
Record BbrWindows := MkWindows {
  bbr_congestion_window_ : Z; bbr_pacing_rate_ : Z; bbr_recovery_state_ : RecoveryState; bbr_end_recovery_at_ : Z; bbr_recovery_window_ : Z }.
Record BbrConfig := MkBbrConfig {
  bbr_initial_congestion_window_ : Z; bbr_max_congestion_window_ : Z; bbr_max_aggregation_bytes_multiplier_ : flt;
  bbr_congestion_window_gain_constant_ : flt; bbr_rtt_variance_weight_ : flt; bbr_num_startup_rtts_ : Z; bbr_exit_startup_on_loss_ : bool;
  bbr_rate_based_recovery_ : bool }.
Record BbrSender := MkBbr { bbr_model : BbrModel; bbr_machine : BbrMachine; bbr_windows : BbrWindows; bbr_config : BbrConfig }.

Definition set_model (s : BbrSender) (m : BbrModel) : BbrSender := MkBbr m (bbr_machine s) (bbr_windows s) (bbr_config s).
Definition set_machine (s : BbrSender) (m : BbrMachine) : BbrSender := MkBbr (bbr_model s) m (bbr_windows s) (bbr_config s).
Definition set_windows (s : BbrSender) (w : BbrWindows) : BbrSender := MkBbr (bbr_model s) (bbr_machine s) w (bbr_config s).
Definition set_config (s : BbrSender) (c : BbrConfig) : BbrSender := MkBbr (bbr_model s) (bbr_machine s) (bbr_windows s) c.
Definition model_set_sampler (m : BbrModel) (x : BandwidthSampler) : BbrModel :=
  MkModel x (bbr_round_trip_count_ m) (bbr_last_sent_packet_ m) (bbr_current_round_trip_end_ m) (bbr_max_bandwidth_ m) (bbr_max_ack_height_ m)
    (bbr_aggregation_epoch_start_time_ m) (bbr_aggregation_epoch_bytes_ m) (bbr_bytes_acked_since_queue_drained_ m) (bbr_min_rtt_ m)
    (bbr_min_rtt_timestamp_ m) (bbr_last_sample_is_app_limited_ m).
Definition model_set_rounds (m : BbrModel) (count last_sent round_end : Z) : BbrModel :=
  MkModel (bbr_sampler_ m) count last_sent round_end (bbr_max_bandwidth_ m) (bbr_max_ack_height_ m)
    (bbr_aggregation_epoch_start_time_ m) (bbr_aggregation_epoch_bytes_ m) (bbr_bytes_acked_since_queue_drained_ m) (bbr_min_rtt_ m)
    (bbr_min_rtt_timestamp_ m) (bbr_last_sample_is_app_limited_ m).
Definition model_set_bandwidth (m : BbrModel) (f : WindowedFilter (T := Z)) (limited : bool) : BbrModel :=
  MkModel (bbr_sampler_ m) (bbr_round_trip_count_ m) (bbr_last_sent_packet_ m) (bbr_current_round_trip_end_ m) f (bbr_max_ack_height_ m)
    (bbr_aggregation_epoch_start_time_ m) (bbr_aggregation_epoch_bytes_ m) (bbr_bytes_acked_since_queue_drained_ m) (bbr_min_rtt_ m)
    (bbr_min_rtt_timestamp_ m) limited.
Definition model_set_aggregation (m : BbrModel) (f : WindowedFilter (T := Z)) (start bytes drained : Z) : BbrModel :=
  MkModel (bbr_sampler_ m) (bbr_round_trip_count_ m) (bbr_last_sent_packet_ m) (bbr_current_round_trip_end_ m) (bbr_max_bandwidth_ m) f
    start bytes drained (bbr_min_rtt_ m) (bbr_min_rtt_timestamp_ m) (bbr_last_sample_is_app_limited_ m).
Definition model_set_min_rtt (m : BbrModel) (rtt timestamp : Z) : BbrModel :=
  MkModel (bbr_sampler_ m) (bbr_round_trip_count_ m) (bbr_last_sent_packet_ m) (bbr_current_round_trip_end_ m) (bbr_max_bandwidth_ m) (bbr_max_ack_height_ m)
    (bbr_aggregation_epoch_start_time_ m) (bbr_aggregation_epoch_bytes_ m) (bbr_bytes_acked_since_queue_drained_ m) rtt timestamp (bbr_last_sample_is_app_limited_ m).
Definition machine_set_mode (m : BbrMachine) (mode : BbrMode) (pacing_gain window_gain : flt) : BbrMachine :=
  MkMachine mode pacing_gain window_gain (bbr_cycle_current_offset_ m) (bbr_last_cycle_start_ m) (bbr_is_at_full_bandwidth_ m)
    (bbr_rounds_without_bandwidth_gain_ m) (bbr_bandwidth_at_last_round_ m) (bbr_exiting_quiescence_ m) (bbr_exit_probe_rtt_at_ m)
    (bbr_probe_rtt_round_passed_ m) (bbr_draws_ m).
Definition machine_set_cycle (m : BbrMachine) (gain : flt) (offset start : Z) (draws : nat) : BbrMachine :=
  MkMachine (bbr_mode_ m) gain (bbr_congestion_window_gain_ m) offset start (bbr_is_at_full_bandwidth_ m)
    (bbr_rounds_without_bandwidth_gain_ m) (bbr_bandwidth_at_last_round_ m) (bbr_exiting_quiescence_ m) (bbr_exit_probe_rtt_at_ m)
    (bbr_probe_rtt_round_passed_ m) draws.
Definition machine_set_growth (m : BbrMachine) (full : bool) (rounds bandwidth : Z) : BbrMachine :=
  MkMachine (bbr_mode_ m) (bbr_pacing_gain_ m) (bbr_congestion_window_gain_ m) (bbr_cycle_current_offset_ m) (bbr_last_cycle_start_ m) full
    rounds bandwidth (bbr_exiting_quiescence_ m) (bbr_exit_probe_rtt_at_ m) (bbr_probe_rtt_round_passed_ m) (bbr_draws_ m).
Definition machine_set_probe (m : BbrMachine) (quiescence : bool) (exit_at : Z) (passed : bool) : BbrMachine :=
  MkMachine (bbr_mode_ m) (bbr_pacing_gain_ m) (bbr_congestion_window_gain_ m) (bbr_cycle_current_offset_ m) (bbr_last_cycle_start_ m)
    (bbr_is_at_full_bandwidth_ m) (bbr_rounds_without_bandwidth_gain_ m) (bbr_bandwidth_at_last_round_ m) quiescence exit_at passed (bbr_draws_ m).
Definition windows_set_congestion (w : BbrWindows) (x : Z) : BbrWindows :=
  MkWindows x (bbr_pacing_rate_ w) (bbr_recovery_state_ w) (bbr_end_recovery_at_ w) (bbr_recovery_window_ w).
Definition windows_set_rate (w : BbrWindows) (x : Z) : BbrWindows :=
  MkWindows (bbr_congestion_window_ w) x (bbr_recovery_state_ w) (bbr_end_recovery_at_ w) (bbr_recovery_window_ w).
Definition windows_set_recovery (w : BbrWindows) (state : RecoveryState) (end_at window : Z) : BbrWindows :=
  MkWindows (bbr_congestion_window_ w) (bbr_pacing_rate_ w) state end_at window.

(** ** Queries *)

Definition Filter_Update (f : WindowedFilter (T := Z)) (new_sample new_time : Z) : WindowedFilter :=
  WindowedFilter_Update (TM := RoundTripTime) MaxFilter f new_sample new_time.
Definition bbr_BandwidthEstimate (s : BbrSender) : Z := WindowedFilter_GetBest (bbr_max_bandwidth_ (bbr_model s)).
Definition bbr_InSlowStart (s : BbrSender) : bool := bool_decide (bbr_mode_ (bbr_machine s) = STARTUP).
Definition bbr_InRecovery (s : BbrSender) : bool := bool_decide (bbr_recovery_state_ (bbr_windows s) <> NOT_IN_RECOVERY).
Definition bbr_GetCongestionWindow (s : BbrSender) : Z :=
  let w := bbr_windows s in
  if bool_decide (bbr_mode_ (bbr_machine s) = PROBE_RTT) then kMinimumCongestionWindow
  else if bbr_InRecovery s && negb (bbr_rate_based_recovery_ (bbr_config s)) then Z.min (bbr_congestion_window_ w) (bbr_recovery_window_ w)
  else bbr_congestion_window_ w.
Definition bbr_TimeUntilSend (s : BbrSender) (bytes_in_flight : Z) : Z := if bytes_in_flight <? bbr_GetCongestionWindow s then Delta_Zero else Delta_Infinite.
Definition bbr_GetMinRtt (r : RttStats) (s : BbrSender) : Z :=
  if negb (Delta_IsZero (bbr_min_rtt_ (bbr_model s))) then bbr_min_rtt_ (bbr_model s) else Delta_FromMicroseconds (initial_rtt_us_ r).
Definition bbr_PacingRate (r : RttStats) (s : BbrSender) : Z :=
  if QuicBandwidth_IsZero (bbr_pacing_rate_ (bbr_windows s))
  then QuicBandwidth_mul_float (QuicBandwidth_FromBytesAndTimeDelta (bbr_initial_congestion_window_ (bbr_config s)) (bbr_GetMinRtt r s)) kHighGain
  else bbr_pacing_rate_ (bbr_windows s).
Definition GetTargetCongestionWindow (r : RttStats) (s : BbrSender) (gain : flt) : Z :=
  let bdp := QuicBandwidth_mul_delta (bbr_BandwidthEstimate s) (bbr_GetMinRtt r s) in
  let congestion_window := f32_to_u64 (f32_mul_int gain bdp) in
  let congestion_window := if congestion_window =? 0 then f32_to_u64 (f32_mul_int gain (bbr_initial_congestion_window_ (bbr_config s))) else congestion_window in
  Z.max congestion_window kMinimumCongestionWindow.

(** ** Modes *)

Definition EnterStartupMode (m : BbrMachine) : BbrMachine := machine_set_mode m STARTUP kHighGain kHighGain.

Section Random.
Context (RandUint64 : nat -> Z).

Definition EnterProbeBandwidthMode (c : BbrConfig) (m : BbrMachine) (now : Z) : BbrMachine :=
  let offset := RandUint64 (bbr_draws_ m) mod (kGainCycleLength - 1) in
  let offset := if offset >=? 1 then offset + 1 else offset in
  let m := machine_set_mode m PROBE_BW (bbr_pacing_gain_ m) (bbr_congestion_window_gain_constant_ c) in
  machine_set_cycle m (nth (Z.to_nat offset) kPacingGain (1, 1)) offset now (S (bbr_draws_ m)).

Definition UpdateGainCyclePhase (r : RttStats) (s : BbrSender) (now prior_in_flight : Z) (has_losses : bool) : BbrSender :=
  let m := bbr_machine s in
  let gain := bbr_pacing_gain_ m in
  let should := Delta_gtb (QuicTime_diff now (bbr_last_cycle_start_ m)) (bbr_GetMinRtt r s) in
  let should := if flt_gtb gain (1, 1) && negb has_losses && (prior_in_flight <? GetTargetCongestionWindow r s gain) then false else should in
  let should := if flt_gtb (1, 1) gain && (prior_in_flight <=? GetTargetCongestionWindow r s (1, 1)) then true else should in
  if should then
    let offset := (bbr_cycle_current_offset_ m + 1) mod kGainCycleLength in
    set_machine s (machine_set_cycle m (nth (Z.to_nat offset) kPacingGain (1, 1)) offset now (bbr_draws_ m))
  else s.

Definition CheckIfFullBandwidthReached (s : BbrSender) : BbrSender :=
  let m := bbr_machine s in
  if bbr_last_sample_is_app_limited_ (bbr_model s) then s
  else
    let target := QuicBandwidth_mul_float (bbr_bandwidth_at_last_round_ m) kStartupGrowthTarget in
    if QuicBandwidth_geb (bbr_BandwidthEstimate s) target then set_machine s (machine_set_growth m (bbr_is_at_full_bandwidth_ m) 0 (bbr_BandwidthEstimate s))
    else
      let rounds := bbr_rounds_without_bandwidth_gain_ m +64 1 in
      let full := (rounds >=? bbr_num_startup_rtts_ (bbr_config s)) || (bbr_exit_startup_on_loss_ (bbr_config s) && bbr_InRecovery s) in
      set_machine s (machine_set_growth m (full || bbr_is_at_full_bandwidth_ m) rounds (bbr_bandwidth_at_last_round_ m)).

Definition MaybeExitStartupOrDrain (u : QuicUnackedPacketMap) (r : RttStats) (s : BbrSender) (now : Z) : BbrSender :=
  let m := bbr_machine s in
  let s := if bool_decide (bbr_mode_ m = STARTUP) && bbr_is_at_full_bandwidth_ m then set_machine s (machine_set_mode m DRAIN kDrainGain kHighGain) else s in
  if bool_decide (bbr_mode_ (bbr_machine s) = DRAIN) && (bytes_in_flight_ u <=? GetTargetCongestionWindow r s (1, 1))
  then set_machine s (EnterProbeBandwidthMode (bbr_config s) (bbr_machine s) now) else s.

(** The part of [MaybeEnterOrExitProbeRtt] for a sender in PROBE_RTT. *)
Definition in_probe_rtt (u : QuicUnackedPacketMap) (s : BbrSender) (now : Z) (is_round_start : bool) : BbrSender :=
  let s := set_model s (model_set_sampler (bbr_model s) (bws_OnAppLimited (bbr_sampler_ (bbr_model s)))) in
  let m := bbr_machine s in
  if QuicTime_eqb (bbr_exit_probe_rtt_at_ m) QuicTime_Zero then
    if bytes_in_flight_ u <? kMinimumCongestionWindow + kMaxPacketSize
    then set_machine s (machine_set_probe m (bbr_exiting_quiescence_ m) (QuicTime_add now kProbeRttTime) false) else s
  else
    let m := if is_round_start then machine_set_probe m (bbr_exiting_quiescence_ m) (bbr_exit_probe_rtt_at_ m) true else m in
    let s := set_machine s m in
    if QuicTime_geb now (bbr_exit_probe_rtt_at_ m) && bbr_probe_rtt_round_passed_ m then
      let s := set_model s (model_set_min_rtt (bbr_model s) (bbr_min_rtt_ (bbr_model s)) now) in
      set_machine s (if negb (bbr_is_at_full_bandwidth_ m) then EnterStartupMode m else EnterProbeBandwidthMode (bbr_config s) m now)
    else s.
Definition MaybeEnterOrExitProbeRtt (u : QuicUnackedPacketMap) (s : BbrSender) (now : Z) (is_round_start min_rtt_expired : bool) : BbrSender :=
  let m := bbr_machine s in
  let s := if min_rtt_expired && negb (bbr_exiting_quiescence_ m) && negb (bool_decide (bbr_mode_ m = PROBE_RTT))
           then set_machine s (machine_set_probe (machine_set_mode m PROBE_RTT (1, 1) (bbr_congestion_window_gain_ m)) (bbr_exiting_quiescence_ m) QuicTime_Zero
                  (bbr_probe_rtt_round_passed_ m)) else s in
  let s := if bool_decide (bbr_mode_ (bbr_machine s) = PROBE_RTT) then in_probe_rtt u s now is_round_start else s in
  let m := bbr_machine s in
  set_machine s (machine_set_probe m false (bbr_exit_probe_rtt_at_ m) (bbr_probe_rtt_round_passed_ m)).

(** ** The model of the path *)

Definition DiscardLostPackets (m : BbrModel) (lost_packets : CongestionVector) : BbrModel :=
  fold_left (fun m p => model_set_sampler m (bws_OnPacketLost (bbr_sampler_ m) p.1)) lost_packets m.
Definition UpdateRoundTripCounter (m : BbrModel) (last_acked_packet : Z) : BbrModel * bool :=
  if last_acked_packet >? bbr_current_round_trip_end_ m
  then (model_set_rounds m (bbr_round_trip_count_ m +64 1) (bbr_last_sent_packet_ m) (bbr_last_sent_packet_ m), true) else (m, false).

(** One acknowledged packet: the sample and the minimum so far. *)
Definition bbr_take_sample (now : Z) (x : BbrModel * Z) (p : Z * Z) : BbrModel * Z :=
  let '(m, sample_min_rtt) := x in
  let '(sampler, b) := bws_OnPacketAcknowledged (bbr_sampler_ m) now p.1 in
  let m := model_set_sampler m sampler in
  let sample_min_rtt := if negb (Delta_IsZero (bs_rtt b)) then Z.min sample_min_rtt (bs_rtt b) else sample_min_rtt in
  let f := if negb (bs_is_app_limited b) || QuicBandwidth_gtb (bs_bandwidth b) (WindowedFilter_GetBest (bbr_max_bandwidth_ m))
           then Filter_Update (bbr_max_bandwidth_ m) (bs_bandwidth b) (bbr_round_trip_count_ m) else bbr_max_bandwidth_ m in
  (model_set_bandwidth m f (bs_is_app_limited b), sample_min_rtt).
Definition UpdateBandwidthAndMinRtt (m : BbrModel) (now : Z) (acked_packets : CongestionVector) : BbrModel * bool :=
  let '(m, sample_min_rtt) := fold_left (bbr_take_sample now) acked_packets (m, Delta_Infinite) in
  if Delta_IsInfinite sample_min_rtt then (m, false)
  else
    let min_rtt_expired := negb (Delta_IsZero (bbr_min_rtt_ m)) && QuicTime_gtb now (QuicTime_add (bbr_min_rtt_timestamp_ m) kMinRttExpiry) in
    if min_rtt_expired || Delta_ltb sample_min_rtt (bbr_min_rtt_ m) || Delta_IsZero (bbr_min_rtt_ m)
    then (model_set_min_rtt m sample_min_rtt now, min_rtt_expired) else (m, min_rtt_expired).

Definition UpdateRecoveryState (s : BbrSender) (last_acked_packet : Z) (has_losses is_round_start : bool) : BbrSender :=
  let m := bbr_model s in
  let w := bbr_windows s in
  let w := if has_losses then windows_set_recovery w (bbr_recovery_state_ w) (bbr_last_sent_packet_ m) (bbr_recovery_window_ w) else w in
  let finish w := if negb has_losses && (last_acked_packet >? bbr_end_recovery_at_ w)
                  then windows_set_recovery w NOT_IN_RECOVERY (bbr_end_recovery_at_ w) (bbr_recovery_window_ w) else w in
  match bbr_recovery_state_ w with
  | NOT_IN_RECOVERY =>
      if has_losses
      then set_model (set_windows s (windows_set_recovery w CONSERVATION (bbr_end_recovery_at_ w) 0))
             (model_set_rounds m (bbr_round_trip_count_ m) (bbr_last_sent_packet_ m) (bbr_last_sent_packet_ m))
      else set_windows s w
  | CONSERVATION =>
      set_windows s (finish (if is_round_start then windows_set_recovery w GROWTH (bbr_end_recovery_at_ w) (bbr_recovery_window_ w) else w))
  | GROWTH => set_windows s (finish w)
  end.

Definition UpdateAckAggregationBytes (m : BbrModel) (ack_time newly_acked_bytes : Z) : BbrModel :=
  let expected_bytes_acked := QuicBandwidth_mul_delta (WindowedFilter_GetBest (bbr_max_bandwidth_ m)) (QuicTime_diff ack_time (bbr_aggregation_epoch_start_time_ m)) in
  if bbr_aggregation_epoch_bytes_ m <=? expected_bytes_acked
  then model_set_aggregation m (bbr_max_ack_height_ m) ack_time newly_acked_bytes (bbr_bytes_acked_since_queue_drained_ m)
  else
    let bytes := bbr_aggregation_epoch_bytes_ m +64 newly_acked_bytes in
    model_set_aggregation m (Filter_Update (bbr_max_ack_height_ m) (bytes -64 expected_bytes_acked) (bbr_round_trip_count_ m))
      (bbr_aggregation_epoch_start_time_ m) bytes (bbr_bytes_acked_since_queue_drained_ m).

(** ** The rate and the windows *)

Definition CalculatePacingRate (r : RttStats) (s : BbrSender) : BbrSender :=
  let w := bbr_windows s in
  if QuicBandwidth_IsZero (bbr_BandwidthEstimate s) then s
  else
    let gain := bbr_pacing_gain_ (bbr_machine s) in
    let target_rate := QuicBandwidth_mul_float (bbr_BandwidthEstimate s) gain in
    let w := if bbr_rate_based_recovery_ (bbr_config s) && bbr_InRecovery s
             then windows_set_rate w (QuicBandwidth_mul_float (WindowedFilter_GetThirdBest (bbr_max_bandwidth_ (bbr_model s))) gain) else w in
    if bbr_is_at_full_bandwidth_ (bbr_machine s) then set_windows s (windows_set_rate w target_rate)
    else if QuicBandwidth_IsZero (bbr_pacing_rate_ w) && negb (Delta_IsZero (min_rtt_ r))
    then set_windows s (windows_set_rate w (QuicBandwidth_FromBytesAndTimeDelta (bbr_initial_congestion_window_ (bbr_config s)) (min_rtt_ r)))
    else set_windows s (windows_set_rate w (Z.max (bbr_pacing_rate_ w) target_rate)).

(** The additions to the target for the variance of round trips, for aggregated
    acknowledgements, and for quantized pacing. *)
Definition bbr_extra_target (r : RttStats) (s : BbrSender) (target_window : Z) : Z :=
  let m := bbr_model s in let c := bbr_config s in
  let mult := bbr_max_aggregation_bytes_multiplier_ c in
  let best := WindowedFilter_GetBest (bbr_max_ack_height_ m) in
  let drained := bbr_bytes_acked_since_queue_drained_ m / 2 in
  if flt_gtb (bbr_rtt_variance_weight_ c) (0, 1) && negb (QuicBandwidth_IsZero (bbr_BandwidthEstimate s)) then
    target_window +64 QuicBandwidth_mul_delta (bbr_BandwidthEstimate s) (f64_mul_delta (bbr_rtt_variance_weight_ c) (mean_deviation_ r))
  else if flt_gtb mult (0, 1) && bbr_is_at_full_bandwidth_ (bbr_machine s) then
    if flt_gtb (f32_mul_int mult best) (f32_of_int drained)
    then f32_to_u64 (f32_add (f32_of_int target_window) (f32_sub (f32_mul_int mult best) (f32_of_int drained)))
    else target_window
  else if bbr_is_at_full_bandwidth_ (bbr_machine s) then target_window +64 best
  else target_window.
Definition tso_segs_goal (pacing_rate : Z) : Z :=
  if QuicBandwidth_ltb pacing_rate (QuicBandwidth_FromKBitsPerSecond 1200) then kDefaultTCPMSS
  else if QuicBandwidth_ltb pacing_rate (QuicBandwidth_FromKBitsPerSecond 24000) then 2 * kDefaultTCPMSS
  else Z.min (QuicBandwidth_mul_delta pacing_rate (Delta_FromMilliseconds 1)) (Z.shiftl 1 16).
Definition CalculateCongestionWindow (add_tso_cwnd : bool) (r : RttStats) (s : BbrSender) (bytes_acked : Z) : BbrSender :=
  if bool_decide (bbr_mode_ (bbr_machine s) = PROBE_RTT) then s
  else
    let w := bbr_windows s in
    let target_window := bbr_extra_target r s (GetTargetCongestionWindow r s (bbr_congestion_window_gain_ (bbr_machine s))) in
    let target_window := if add_tso_cwnd then target_window +64 u64 (3 * tso_segs_goal (bbr_pacing_rate_ w)) else target_window in
    let window := bbr_congestion_window_ w in
    let window := if bbr_is_at_full_bandwidth_ (bbr_machine s) then Z.min target_window (window +64 bytes_acked)
                  else if (window <? target_window) || (total_bytes_acked_ (bbr_sampler_ (bbr_model s)) <? bbr_initial_congestion_window_ (bbr_config s))
                  then window +64 bytes_acked else window in
    set_windows s (windows_set_congestion w (Z.min (Z.max window kMinimumCongestionWindow) (bbr_max_congestion_window_ (bbr_config s)))).

Definition CalculateRecoveryWindow (u : QuicUnackedPacketMap) (s : BbrSender) (bytes_acked bytes_lost : Z) : BbrSender :=
  let w := bbr_windows s in
  let set x := set_windows s (windows_set_recovery w (bbr_recovery_state_ w) (bbr_end_recovery_at_ w) x) in
  if bbr_rate_based_recovery_ (bbr_config s) then s
  else if negb (bbr_InRecovery s) then s
  else if bbr_recovery_window_ w =? 0 then set (Z.max kMinimumCongestionWindow (bytes_in_flight_ u +64 bytes_acked))
  else
    let x := if bbr_recovery_window_ w >=? bytes_lost then bbr_recovery_window_ w -64 bytes_lost else bbr_kMaxSegmentSize in
    let x := if bool_decide (bbr_recovery_state_ w = GROWTH) then x +64 bytes_acked else x in
    let x := Z.max x (bytes_in_flight_ u +64 bytes_acked) in
    set (Z.max kMinimumCongestionWindow x).

(** ** The interface *)

Record BbrFlags := MkBbrFlags {
  flag_exit_startup_on_loss : bool; flag_rate_recovery : bool; flag_ack_aggregation_bytes4 : bool; flag_bandwidth_resumption : bool;
  flag_add_tso_cwnd : bool; flag_cwnd_gain : flt; flag_rtt_variation_weight : flt }.

Definition BbrSender_new (flags : BbrFlags) (initial_tcp_congestion_window max_tcp_congestion_window : Z) : BbrSender :=
  let initial := u64 (initial_tcp_congestion_window * kDefaultTCPMSS) in
  let max := u64 (max_tcp_congestion_window * kDefaultTCPMSS) in
  MkBbr
    (MkModel BandwidthSampler_new 0 0 0 (WindowedFilter_new kBandwidthWindowSize QuicBandwidth_Zero 0) (WindowedFilter_new kBandwidthWindowSize 0 0)
       QuicTime_Zero 0 0 Delta_Zero QuicTime_Zero false)
    (EnterStartupMode (MkMachine STARTUP (1, 1) (1, 1) 0 QuicTime_Zero false 0 QuicBandwidth_Zero false QuicTime_Zero false 0))
    (MkWindows initial QuicBandwidth_Zero NOT_IN_RECOVERY 0 max)
    (MkBbrConfig initial max (0, 1) (flag_cwnd_gain flags) (flag_rtt_variation_weight flags) kRoundTripsWithoutGrowthBeforeExitingStartup false false).

Definition bbr_OnPacketSent (s : BbrSender) (sent_time bytes_in_flight packet_number bytes : Z) (is_retransmittable : bool) : BbrSender * bool :=
  let m := bbr_model s in
  let m := model_set_rounds m (bbr_round_trip_count_ m) packet_number (bbr_current_round_trip_end_ m) in
  let a := bbr_machine s in
  let a := if (bytes_in_flight =? 0) && is_app_limited_ (bbr_sampler_ m)
           then machine_set_probe a true (bbr_exit_probe_rtt_at_ a) (bbr_probe_rtt_round_passed_ a) else a in
  let m := if negb (QuicTime_IsInitialized (bbr_aggregation_epoch_start_time_ m))
           then model_set_aggregation m (bbr_max_ack_height_ m) sent_time (bbr_aggregation_epoch_bytes_ m) (bbr_bytes_acked_since_queue_drained_ m) else m in
  let m := model_set_sampler m (bws_OnPacketSent (bbr_sampler_ m) sent_time packet_number bytes bytes_in_flight is_retransmittable) in
  (set_machine (set_model s m) a, is_retransmittable).

Inductive BbrOption := kLRTT | k1RTT | k2RTT | kBBRR | kBBR1 | kBBR2.
Definition bbr_SetFromConfig (flags : BbrFlags) (s : BbrSender) (requested : BbrOption -> bool) : BbrSender :=
  let c := bbr_config s in
  let rtts := if requested k1RTT then 1 else bbr_num_startup_rtts_ c in
  let rtts := if requested k2RTT then 2 else rtts in
  let mult := if flag_ack_aggregation_bytes4 flags && requested kBBR1 then (3, 2) else bbr_max_aggregation_bytes_multiplier_ c in
  let mult := if flag_ack_aggregation_bytes4 flags && requested kBBR2 then (2, 1) else mult in
  set_config s (MkBbrConfig (bbr_initial_congestion_window_ c) (bbr_max_congestion_window_ c) mult (bbr_congestion_window_gain_constant_ c) (bbr_rtt_variance_weight_ c)
    rtts ((flag_exit_startup_on_loss flags && requested kLRTT) || bbr_exit_startup_on_loss_ c)
    ((flag_rate_recovery flags && requested kBBRR) || bbr_rate_based_recovery_ c)).

Definition bbr_AdjustNetworkParameters (flags : BbrFlags) (s : BbrSender) (bandwidth rtt : Z) : BbrSender :=
  if negb (flag_bandwidth_resumption flags) then s
  else
    let m := bbr_model s in
    let m := if negb (QuicBandwidth_IsZero bandwidth)
             then model_set_bandwidth m (Filter_Update (bbr_max_bandwidth_ m) bandwidth (bbr_round_trip_count_ m)) (bbr_last_sample_is_app_limited_ m) else m in
    set_model s (if negb (Delta_IsZero rtt) && (Delta_gtb (bbr_min_rtt_ m) rtt || Delta_IsZero (bbr_min_rtt_ m))
                 then model_set_min_rtt m rtt (bbr_min_rtt_timestamp_ m) else m).

(** The updates of the model for acknowledged packets. *)
Definition bbr_update_model (u : QuicUnackedPacketMap) (r : RttStats) (s : BbrSender) (total_bytes_acked_before event_time : Z) (acked_packets : CongestionVector)
    (has_losses : bool) : BbrSender * bool * bool :=
  match last acked_packets with
  | None => (s, false, false)
  | Some p =>
      let '(m, is_round_start) := UpdateRoundTripCounter (bbr_model s) p.1 in
      let '(m, min_rtt_expired) := UpdateBandwidthAndMinRtt m event_time acked_packets in
      let s := UpdateRecoveryState (set_model s m) p.1 has_losses is_round_start in
      let bytes_acked := total_bytes_acked_ (bbr_sampler_ (bbr_model s)) -64 total_bytes_acked_before in
      let s := set_model s (UpdateAckAggregationBytes (bbr_model s) event_time bytes_acked) in
      let m := bbr_model s in
      let s := if flt_gtb (bbr_max_aggregation_bytes_multiplier_ (bbr_config s)) (0, 1) then
                 let target := let t := f64 (GetTargetCongestionWindow r s (bbr_pacing_gain_ (bbr_machine s))) 1 in f64 (5 * t.1) (4 * t.2) in
                 set_model s (model_set_aggregation m (bbr_max_ack_height_ m) (bbr_aggregation_epoch_start_time_ m) (bbr_aggregation_epoch_bytes_ m)
                   (if negb (flt_gtb (f64 (bytes_in_flight_ u) 1) target) then 0 else bbr_bytes_acked_since_queue_drained_ m +64 bytes_acked))
               else s in
      (s, is_round_start, min_rtt_expired)
  end.

(** The first half of an event: the model and the modes, up to PROBE_RTT. *)
Definition bbr_update (u : QuicUnackedPacketMap) (r : RttStats) (s : BbrSender) (prior_in_flight event_time : Z)
    (acked_packets lost_packets : CongestionVector) : BbrSender * bool * bool :=
  let total_bytes_acked_before := total_bytes_acked_ (bbr_sampler_ (bbr_model s)) in
  let has_losses := match lost_packets with [] => false | _ => true end in
  let s := set_model s (DiscardLostPackets (bbr_model s) lost_packets) in
  let '(s, is_round_start, min_rtt_expired) := bbr_update_model u r s total_bytes_acked_before event_time acked_packets has_losses in
  let s := if bool_decide (bbr_mode_ (bbr_machine s) = PROBE_BW) then UpdateGainCyclePhase r s event_time prior_in_flight has_losses else s in
  let s := if is_round_start && negb (bbr_is_at_full_bandwidth_ (bbr_machine s)) then CheckIfFullBandwidthReached s else s in
  (MaybeExitStartupOrDrain u r s event_time, is_round_start, min_rtt_expired).
Definition bbr_OnCongestionEvent (flags : BbrFlags) (u : QuicUnackedPacketMap) (r : RttStats) (s : BbrSender) (prior_in_flight event_time : Z)
    (acked_packets lost_packets : CongestionVector) : BbrSender :=
  let total_bytes_acked_before := total_bytes_acked_ (bbr_sampler_ (bbr_model s)) in
  let '(s, is_round_start, min_rtt_expired) := bbr_update u r s prior_in_flight event_time acked_packets lost_packets in
  let s := MaybeEnterOrExitProbeRtt u s event_time is_round_start min_rtt_expired in
  let bytes_acked := total_bytes_acked_ (bbr_sampler_ (bbr_model s)) -64 total_bytes_acked_before in
  let bytes_lost := fold_left (fun n p => n +64 p.2) lost_packets 0 in
  let s := CalculatePacingRate r s in
  let s := CalculateCongestionWindow (flag_add_tso_cwnd flags) r s bytes_acked in
  let s := CalculateRecoveryWindow u s bytes_acked bytes_lost in
  set_model s (model_set_sampler (bbr_model s) (bws_RemoveObsoletePackets (bbr_sampler_ (bbr_model s)) (least_unacked_ u))).

Definition bbr_OnApplicationLimited (s : BbrSender) (bytes_in_flight : Z) : BbrSender :=
  if bytes_in_flight >=? bbr_GetCongestionWindow s then s
  else set_model s (model_set_sampler (bbr_model s) (bws_OnAppLimited (bbr_sampler_ (bbr_model s)))).
End Random.

Definition BbrSender_algorithm (RandUint64 : nat -> Z) (flags : BbrFlags) : SendAlgorithm BbrSender := {|
  sa_SetNumEmulatedConnections _ s := s;
  sa_OnCongestionEvent u r _ prior time acked lost s := bbr_OnCongestionEvent RandUint64 flags u r s prior time acked lost;
  sa_OnPacketSent t n pn bytes has s := let '(s, f) := bbr_OnPacketSent s t n pn bytes has in (f, s);
  sa_OnRetransmissionTimeout _ s := s;
  sa_OnConnectionMigration s := s;
  sa_TimeUntilSend _ n s := bbr_TimeUntilSend s n;
  sa_PacingRate r _ s := bbr_PacingRate r s;
  sa_BandwidthEstimate _ s := bbr_BandwidthEstimate s;
  sa_GetCongestionWindow := bbr_GetCongestionWindow;
  sa_InSlowStart := bbr_InSlowStart;
  sa_InRecovery := bbr_InRecovery;
  sa_GetSlowStartThreshold _ := 0;
  sa_GetCongestionControlType _ := kBBR;
  sa_AdjustNetworkParameters bandwidth rtt s := bbr_AdjustNetworkParameters flags s bandwidth rtt;
  sa_OnApplicationLimited n s := bbr_OnApplicationLimited s n |}.
