(* ===== verification/BbrFacts.v ===== *)
(** * BBR: the mode machine, the windows and the bandwidth estimate *)

From S2P Require Import Prelude QuicTime QuicBandwidth WindowedFilter PacketNumberIndexedQueue UnackedPacketMap RttStats SoftFloat LossAlgorithm SentPacketManager PacingSender BandwidthSampler BbrSender.
From stdpp Require Import relations.
#[local] Open Scope Z_scope.

(** ** The invariant *)

(** The gains of each mode; startup is only for a sender that has not reached the full
    bandwidth, unless [ending]. *)
Definition mode_ok (ending : bool) (c : BbrConfig) (m : BbrMachine) : Prop :=
  match bbr_mode_ m with
  | STARTUP => bbr_pacing_gain_ m = kHighGain /\ bbr_congestion_window_gain_ m = kHighGain /\ (ending = false -> bbr_is_at_full_bandwidth_ m = false)
  | DRAIN => bbr_pacing_gain_ m = kDrainGain /\ bbr_congestion_window_gain_ m = kHighGain /\ bbr_is_at_full_bandwidth_ m = true
  | PROBE_BW => 0 <= bbr_cycle_current_offset_ m < kGainCycleLength /\ bbr_pacing_gain_ m = nth (Z.to_nat (bbr_cycle_current_offset_ m)) kPacingGain (1, 1) /\
      bbr_congestion_window_gain_ m = bbr_congestion_window_gain_constant_ c /\ bbr_is_at_full_bandwidth_ m = true
  | PROBE_RTT => bbr_pacing_gain_ m = (1, 1)
  end.

Definition config_ok (c : BbrConfig) : Prop := 0 < bbr_initial_congestion_window_ c <= bbr_max_congestion_window_ c /\ kMinimumCongestionWindow <= bbr_max_congestion_window_ c.
Definition windows_ok (fresh : bool) (c : BbrConfig) (w : BbrWindows) : Prop :=
  Z.min (bbr_initial_congestion_window_ c) kMinimumCongestionWindow <= bbr_congestion_window_ w <= bbr_max_congestion_window_ c /\
  (bbr_recovery_state_ w <> NOT_IN_RECOVERY -> bbr_rate_based_recovery_ c = false -> kMinimumCongestionWindow <= bbr_recovery_window_ w \/ fresh = true /\ bbr_recovery_window_ w = 0).
Record bbr_ok (ending fresh : bool) (s : BbrSender) : Prop := {
  ok_mode : mode_ok ending (bbr_config s) (bbr_machine s); ok_config : config_ok (bbr_config s); ok_windows : windows_ok fresh (bbr_config s) (bbr_windows s) }.

(** What the steps of the mode machine may do. *)
Inductive mode_step : bool -> BbrMode -> BbrMode -> Prop :=
  | step_drain : mode_step true STARTUP DRAIN
  | step_drained : mode_step true DRAIN PROBE_BW
  | step_probe_rtt full mode : mode_step full mode PROBE_RTT
  | step_restart : mode_step false PROBE_RTT STARTUP
  | step_resume : mode_step true PROBE_RTT PROBE_BW.
Definition mode_steps (full : bool) : BbrMode -> BbrMode -> Prop := rtc (mode_step full).

(** The members that only PROBE_RTT changes. *)
Definition probe_state (s : BbrSender) : bool * Z * bool :=
  (bbr_exiting_quiescence_ (bbr_machine s), bbr_exit_probe_rtt_at_ (bbr_machine s), bbr_probe_rtt_round_passed_ (bbr_machine s)).

Section Steps.
Context (RandUint64 : nat -> Z).

Lemma EnterProbeBandwidthMode_ok ending c m now : bbr_is_at_full_bandwidth_ m = true -> mode_ok ending c (EnterProbeBandwidthMode RandUint64 c m now).
Proof.
  intros Hf. unfold EnterProbeBandwidthMode, mode_ok. simpl. set (o := RandUint64 (bbr_draws_ m) mod (kGainCycleLength - 1)).
  assert (0 <= o < 7) by (apply Z.mod_pos_bound; done). split_and!; try done; unfold kGainCycleLength; case_if; lia.
Qed.

Lemma UpdateGainCyclePhase_ok ending r s now prior losses : bbr_mode_ (bbr_machine s) = PROBE_BW -> mode_ok ending (bbr_config s) (bbr_machine s) ->
  let s' := UpdateGainCyclePhase r s now prior losses in
  mode_ok ending (bbr_config s) (bbr_machine s') /\ bbr_config s' = bbr_config s /\ bbr_model s' = bbr_model s /\ bbr_windows s' = bbr_windows s /\ bbr_mode_ (bbr_machine s') = PROBE_BW /\
  bbr_is_at_full_bandwidth_ (bbr_machine s') = bbr_is_at_full_bandwidth_ (bbr_machine s) /\ probe_state s' = probe_state s.
Proof.
  intros Hm Hok. unfold UpdateGainCyclePhase. cbn zeta. match goal with |- context [if ?b then _ else s] => destruct b end; [|done]. simpl. split; [|done].
  unfold mode_ok in *. simpl. rewrite Hm in *. destruct Hok as (H1 & H2 & H3 & H4). split_and!; try done; apply Z.mod_pos_bound; done.
Qed.

Lemma CheckIfFullBandwidthReached_ok ending s : mode_ok ending (bbr_config s) (bbr_machine s) ->
  let s' := CheckIfFullBandwidthReached s in
  mode_ok true (bbr_config s) (bbr_machine s') /\ bbr_config s' = bbr_config s /\ bbr_model s' = bbr_model s /\ bbr_windows s' = bbr_windows s /\
  bbr_mode_ (bbr_machine s') = bbr_mode_ (bbr_machine s) /\ (bbr_is_at_full_bandwidth_ (bbr_machine s) = true -> bbr_is_at_full_bandwidth_ (bbr_machine s') = true) /\ probe_state s' = probe_state s.
Proof.
  intros Hok. assert (mode_ok true (bbr_config s) (bbr_machine s)) as Hok' by (unfold mode_ok in *; destruct (bbr_mode_ _); naive_solver).
  unfold CheckIfFullBandwidthReached. cbn zeta. destruct (bbr_last_sample_is_app_limited_ _); [done|]. destruct (QuicBandwidth_geb _ _); [done|]. simpl.
  split_and!; try done; [|intros ->; by rewrite orb_true_r].
  unfold mode_ok in *. simpl. destruct (bbr_mode_ (bbr_machine s)); simpl; destruct_and?; split_and?; try done; by rewrite orb_true_iff; right.
Qed.

Lemma MaybeExitStartupOrDrain_ok u r s now : mode_ok true (bbr_config s) (bbr_machine s) ->
  let s' := MaybeExitStartupOrDrain RandUint64 u r s now in
  mode_ok false (bbr_config s) (bbr_machine s') /\ bbr_config s' = bbr_config s /\ bbr_model s' = bbr_model s /\ bbr_windows s' = bbr_windows s /\
  bbr_is_at_full_bandwidth_ (bbr_machine s') = bbr_is_at_full_bandwidth_ (bbr_machine s) /\
  mode_steps (bbr_is_at_full_bandwidth_ (bbr_machine s)) (bbr_mode_ (bbr_machine s)) (bbr_mode_ (bbr_machine s')) /\ probe_state s' = probe_state s /\
  (bbr_mode_ (bbr_machine s') = PROBE_RTT <-> bbr_mode_ (bbr_machine s) = PROBE_RTT).
Proof.
  intros Hok. unfold MaybeExitStartupOrDrain. cbn zeta.
  set (s1 := if bool_decide (bbr_mode_ (bbr_machine s) = STARTUP) && bbr_is_at_full_bandwidth_ (bbr_machine s) then _ else s).
  assert (mode_ok false (bbr_config s) (bbr_machine s1) /\ bbr_config s1 = bbr_config s /\ bbr_model s1 = bbr_model s /\ bbr_windows s1 = bbr_windows s /\
    bbr_is_at_full_bandwidth_ (bbr_machine s1) = bbr_is_at_full_bandwidth_ (bbr_machine s) /\
    mode_steps (bbr_is_at_full_bandwidth_ (bbr_machine s)) (bbr_mode_ (bbr_machine s)) (bbr_mode_ (bbr_machine s1)) /\ probe_state s1 = probe_state s /\
    (bbr_mode_ (bbr_machine s1) = PROBE_RTT <-> bbr_mode_ (bbr_machine s) = PROBE_RTT)) as (H1 & H2 & H3 & H4 & H5 & H6 & H7 & H8).
  { unfold s1. destruct (bool_decide (bbr_mode_ (bbr_machine s) = STARTUP) && bbr_is_at_full_bandwidth_ (bbr_machine s)) eqn:E.
    - apply andb_true_iff in E as [Em%bool_decide_eq_true Ef]. simpl. rewrite Em, Ef. split_and!; try done. apply rtc_once. constructor.
    - assert (mode_ok false (bbr_config s) (bbr_machine s)); [|split_and!; done || apply rtc_refl]. unfold mode_ok in *. destruct (bbr_mode_ (bbr_machine s)) eqn:Em; try done.
      destruct Hok as (? & ? & _). by rewrite bool_decide_eq_true_2 in E. }
  clearbody s1. destruct (bool_decide (bbr_mode_ (bbr_machine s1) = DRAIN) && _) eqn:E; [|by rewrite H2 in *].
  apply andb_true_iff in E as [E _]. apply bool_decide_eq_true in E. unfold mode_ok in H1. rewrite E in H1, H6, H8. destruct H1 as (_ & _ & Hf). cbn [bbr_machine set_machine bbr_config bbr_model bbr_windows]. rewrite H2.
  split; [by apply EnterProbeBandwidthMode_ok|]. split_and!; try done; [|by split; [|intros ?%H8]].
  eapply rtc_r; [done|]. rewrite <-H5, Hf. apply step_drained.
Qed.

(** Whether the sender is in PROBE_RTT once the minimum has expired. *)
Definition probing (s : BbrSender) (expired : bool) : bool :=
  bool_decide (bbr_mode_ (bbr_machine s) = PROBE_RTT) || (expired && negb (bbr_exiting_quiescence_ (bbr_machine s))).
(** Whether a sender in PROBE_RTT leaves it. *)
Definition probe_done (s : BbrSender) (now : Z) (is_round_start : bool) : bool :=
  bool_decide (bbr_mode_ (bbr_machine s) = PROBE_RTT) && negb (bbr_exit_probe_rtt_at_ (bbr_machine s) =? 0) && (bbr_exit_probe_rtt_at_ (bbr_machine s) <=? now) &&
  (is_round_start || bbr_probe_rtt_round_passed_ (bbr_machine s)).

Lemma in_probe_rtt_ok u s now start : bbr_mode_ (bbr_machine s) = PROBE_RTT -> mode_ok false (bbr_config s) (bbr_machine s) ->
  let s' := in_probe_rtt RandUint64 u s now start in
  mode_ok false (bbr_config s) (bbr_machine s') /\ bbr_config s' = bbr_config s /\ bbr_windows s' = bbr_windows s /\
  bbr_is_at_full_bandwidth_ (bbr_machine s') = bbr_is_at_full_bandwidth_ (bbr_machine s) /\
  bbr_sampler_ (bbr_model s') = bws_OnAppLimited (bbr_sampler_ (bbr_model s)) /\ bbr_max_bandwidth_ (bbr_model s') = bbr_max_bandwidth_ (bbr_model s) /\
  bbr_mode_ (bbr_machine s') = (if probe_done s now start then if bbr_is_at_full_bandwidth_ (bbr_machine s) then PROBE_BW else STARTUP else PROBE_RTT) /\
  bbr_min_rtt_timestamp_ (bbr_model s') = (if probe_done s now start then now else bbr_min_rtt_timestamp_ (bbr_model s)).
Proof.
  intros Hm Hok. unfold in_probe_rtt, probe_done, QuicTime_eqb, QuicTime_geb, QuicTime_ltb, QuicTime_Zero. rewrite bool_decide_eq_true_2 by done. cbn zeta.
  change (bbr_machine (set_model s _)) with (bbr_machine s). destruct (bbr_exit_probe_rtt_at_ (bbr_machine s) =? 0) eqn:E0.
  { destruct (_ <? _); simpl; rewrite Hm; split_and!; done. }
  cbn [andb negb]. set (m := if start then _ else _).
  assert (bbr_mode_ m = PROBE_RTT /\ bbr_pacing_gain_ m = (1, 1) /\ bbr_is_at_full_bandwidth_ m = bbr_is_at_full_bandwidth_ (bbr_machine s) /\
    bbr_exit_probe_rtt_at_ m = bbr_exit_probe_rtt_at_ (bbr_machine s) /\ bbr_probe_rtt_round_passed_ m = start || bbr_probe_rtt_round_passed_ (bbr_machine s)) as (M1 & M2 & M3 & M4 & M5).
  { unfold mode_ok in Hok. rewrite Hm in Hok. unfold m. by destruct start. }
  clearbody m. rewrite M4, M5, <- Z.leb_antisym. destruct ((bbr_exit_probe_rtt_at_ (bbr_machine s) <=? now) && (start || _)) eqn:Ed; simpl.
  - rewrite M3. destruct (bbr_is_at_full_bandwidth_ (bbr_machine s)) eqn:Ef; simpl; rewrite ?M3; split_and!; try done; by apply EnterProbeBandwidthMode_ok.
  - split_and!; try done. unfold mode_ok. by rewrite M1.
Qed.

Lemma MaybeEnterOrExitProbeRtt_ok u s now start expired : mode_ok false (bbr_config s) (bbr_machine s) ->
  let s' := MaybeEnterOrExitProbeRtt RandUint64 u s now start expired in
  mode_ok false (bbr_config s) (bbr_machine s') /\ bbr_config s' = bbr_config s /\ bbr_windows s' = bbr_windows s /\
  bbr_is_at_full_bandwidth_ (bbr_machine s') = bbr_is_at_full_bandwidth_ (bbr_machine s) /\
  bbr_sampler_ (bbr_model s') = (if probing s expired then bws_OnAppLimited (bbr_sampler_ (bbr_model s)) else bbr_sampler_ (bbr_model s)) /\
  bbr_max_bandwidth_ (bbr_model s') = bbr_max_bandwidth_ (bbr_model s) /\
  bbr_mode_ (bbr_machine s') = (if probe_done s now start then if bbr_is_at_full_bandwidth_ (bbr_machine s) then PROBE_BW else STARTUP
                                else if probing s expired then PROBE_RTT else bbr_mode_ (bbr_machine s)) /\
  (probe_done s now start = true -> bbr_min_rtt_timestamp_ (bbr_model s') = now).
Proof.
  intros Hok. unfold MaybeEnterOrExitProbeRtt, probing. cbn zeta. destruct (decide (bbr_mode_ (bbr_machine s) = PROBE_RTT)) as [Hm|Hm].
  - rewrite (bool_decide_eq_true_2 (bbr_mode_ (bbr_machine s) = PROBE_RTT)) by done. cbn [negb orb]. rewrite andb_false_r. rewrite bool_decide_eq_true_2 by done.
    destruct (in_probe_rtt_ok u s now start Hm Hok) as (H1 & H2 & H3 & H4 & H5 & H6 & H7 & H8). simpl. split_and!; try done. intros Hd. by rewrite H8, Hd.
  - rewrite (bool_decide_eq_false_2 (bbr_mode_ (bbr_machine s) = PROBE_RTT)) by done. cbn [negb orb]. rewrite andb_true_r.
    assert (probe_done s now start = false) as -> by (unfold probe_done; by rewrite bool_decide_eq_false_2).
    destruct (expired && negb _) eqn:E.
    + match goal with |- context [in_probe_rtt RandUint64 u ?x now start] => set (s1 := x) end.
      destruct (in_probe_rtt_ok u s1 now start) as (H1 & H2 & H3 & H4 & H5 & H6 & H7 & _); [done|done|].
      assert (probe_done s1 now start = false) as Ed by (unfold probe_done; by rewrite andb_false_r). rewrite Ed in H7.
      rewrite bool_decide_eq_true_2 by done. simpl. split_and!; done.
    + rewrite bool_decide_eq_false_2 by done. simpl. split_and!; done.
Qed.

(** ** The windows *)

Lemma UpdateRecoveryState_ok s last losses start : windows_ok false (bbr_config s) (bbr_windows s) ->
  let s' := UpdateRecoveryState s last losses start in
  windows_ok true (bbr_config s) (bbr_windows s') /\ bbr_config s' = bbr_config s /\ bbr_machine s' = bbr_machine s /\
  bbr_sampler_ (bbr_model s') = bbr_sampler_ (bbr_model s) /\ bbr_max_bandwidth_ (bbr_model s') = bbr_max_bandwidth_ (bbr_model s).
Proof.
  intros [H1 H2]. unfold UpdateRecoveryState, windows_ok in *. cbn zeta.
  destruct losses; simpl; (destruct (bbr_recovery_state_ (bbr_windows s)) eqn:E; simpl); [| destruct start| | |destruct start|]; simpl; repeat case_if; simpl;
    split_and!; try done; try lia; intros; try (by right); left; destruct (H2 ltac:(done) ltac:(done)) as [?|[??]]; done.
Qed.
Lemma CalculatePacingRate_ok r s :
  let s' := CalculatePacingRate r s in
  bbr_config s' = bbr_config s /\ bbr_machine s' = bbr_machine s /\ bbr_model s' = bbr_model s /\ exists rate, bbr_windows s' = windows_set_rate (bbr_windows s) rate.
Proof.
  unfold CalculatePacingRate. cbn zeta. destruct (QuicBandwidth_IsZero (bbr_BandwidthEstimate s)).
  { split_and!; try done. exists (bbr_pacing_rate_ (bbr_windows s)). by destruct (bbr_windows s). }
  destruct (bbr_rate_based_recovery_ (bbr_config s) && bbr_InRecovery s), (bbr_is_at_full_bandwidth_ (bbr_machine s)); simpl; try case_if; simpl; split_and!; try done; by eexists.
Qed.
Lemma CalculateCongestionWindow_ok tso r s acked : config_ok (bbr_config s) -> windows_ok true (bbr_config s) (bbr_windows s) ->
  let s' := CalculateCongestionWindow tso r s acked in
  windows_ok true (bbr_config s) (bbr_windows s') /\ bbr_config s' = bbr_config s /\ bbr_machine s' = bbr_machine s /\ bbr_model s' = bbr_model s.
Proof.
  intros [C1 C2] [H1 H2]. unfold CalculateCongestionWindow. case_if; [done|]. cbn zeta. split_and!; try done. simpl.
  match goal with |- context [windows_set_congestion _ (Z.min (Z.max ?x _) _)] => generalize x end. intros x. split; [simpl; lia|done].
Qed.
Lemma CalculateRecoveryWindow_ok u s acked lost : windows_ok true (bbr_config s) (bbr_windows s) ->
  let s' := CalculateRecoveryWindow u s acked lost in
  windows_ok false (bbr_config s) (bbr_windows s') /\ bbr_config s' = bbr_config s /\ bbr_machine s' = bbr_machine s /\ bbr_model s' = bbr_model s.
Proof.
  intros [H1 H2]. unfold CalculateRecoveryWindow. cbn zeta. destruct (bbr_rate_based_recovery_ (bbr_config s)) eqn:E1.
  { split; [|done]. split; [done|]. intros _ ?. congruence. }
  destruct (bbr_InRecovery s) eqn:E2; simpl.
  2: { apply bool_decide_eq_false in E2. split; [|done]. by split. }
  destruct (bbr_recovery_window_ (bbr_windows s) =? 0) eqn:E3; simpl; (split; [|done]); (split; [simpl; lia|]); intros _ _; left; simpl; lia.
Qed.

(** ** Congestion events *)

Lemma take_samples_same now acked m r : let m' := (fold_left (bbr_take_sample now) acked (m, r)).1 in
  bbr_round_trip_count_ m' = bbr_round_trip_count_ m /\ bbr_min_rtt_timestamp_ m' = bbr_min_rtt_timestamp_ m /\ bbr_min_rtt_ m' = bbr_min_rtt_ m.
Proof.
  revert m r. induction acked as [|p acked IH]; intros m r; [done|]. cbn [fold_left]. destruct (bbr_take_sample now (m, r) p) as [m1 r1] eqn:E.
  specialize (IH m1 r1). cbn zeta in *. destruct IH as (-> & -> & ->). revert E. unfold bbr_take_sample. destruct (bws_OnPacketAcknowledged _ _ _) as [x b]. by intros [= <- _].
Qed.
(** The minimum has expired: it was known, and not renewed for ten seconds. *)
Lemma UpdateBandwidthAndMinRtt_expired m now acked : (UpdateBandwidthAndMinRtt m now acked).2 = true ->
  bbr_min_rtt_ m <> 0 /\ QuicTime_add (bbr_min_rtt_timestamp_ m) kMinRttExpiry < now.
Proof.
  unfold UpdateBandwidthAndMinRtt. pose proof (take_samples_same now acked m Delta_Infinite) as (_ & E2 & E3). destruct (fold_left _ acked _) as [m1 r1]. simpl in E2, E3.
  destruct (Delta_IsInfinite r1); [done|]. rewrite E2, E3. unfold Delta_IsZero, QuicTime_gtb, QuicTime_ltb.
  assert (negb (bbr_min_rtt_ m =? 0) && (QuicTime_add (bbr_min_rtt_timestamp_ m) kMinRttExpiry <? now) = true -> bbr_min_rtt_ m <> 0 /\ QuicTime_add (bbr_min_rtt_timestamp_ m) kMinRttExpiry < now) as H.
  { intros [H1 H2]%andb_true_iff. apply negb_true_iff in H1. blia. }
  destruct (_ || _); simpl; exact H.
Qed.

Lemma bbr_update_model_ok u r s before now acked losses : windows_ok false (bbr_config s) (bbr_windows s) ->
  let '(s', start, expired) := bbr_update_model u r s before now acked losses in
  windows_ok true (bbr_config s) (bbr_windows s') /\ bbr_config s' = bbr_config s /\ bbr_machine s' = bbr_machine s /\
  start = (match last acked with Some p => bbr_current_round_trip_end_ (bbr_model s) <? p.1 | None => false end) /\
  (expired = true -> bbr_min_rtt_ (bbr_model s) <> 0 /\ QuicTime_add (bbr_min_rtt_timestamp_ (bbr_model s)) kMinRttExpiry < now).
Proof.
  intros Hw. unfold bbr_update_model. destruct (last acked) as [p|]; [|split_and!; try done; destruct Hw as [? Hw]; split; [done|]; intros; left; destruct (Hw H0 H1) as [?|[??]]; done].
  unfold UpdateRoundTripCounter. set (x := if p.1 >? _ then _ else _).
  assert (x.2 = (bbr_current_round_trip_end_ (bbr_model s) <? p.1) /\ bbr_min_rtt_ x.1 = bbr_min_rtt_ (bbr_model s) /\ bbr_min_rtt_timestamp_ x.1 = bbr_min_rtt_timestamp_ (bbr_model s)) as (X1 & X2 & X3).
  { unfold x. rewrite Z.gtb_ltb. by destruct (_ <? _). }
  destruct x as [m1 start]. simpl in X1, X2, X3. subst start. pose proof (UpdateBandwidthAndMinRtt_expired m1 now acked) as He. rewrite X2, X3 in He.
  destruct (UpdateBandwidthAndMinRtt m1 now acked) as [m2 expired]. simpl in He.
  destruct (UpdateRecoveryState_ok (set_model s m2) p.1 losses (bbr_current_round_trip_end_ (bbr_model s) <? p.1) Hw) as (R1 & R2 & R3 & _).
  destruct (UpdateRecoveryState _ _ _ _) as [m3 a3 w3 c3]. simpl in *. subst. destruct (flt_gtb _ _); simpl; split_and!; done.
Qed.

Lemma bbr_update_ok u r s prior now acked lost : bbr_ok false false s ->
  let '(s', start, expired) := bbr_update RandUint64 u r s prior now acked lost in
  bbr_ok false true s' /\ bbr_config s' = bbr_config s /\
  (bbr_is_at_full_bandwidth_ (bbr_machine s) = true -> bbr_is_at_full_bandwidth_ (bbr_machine s') = true) /\
  mode_steps (bbr_is_at_full_bandwidth_ (bbr_machine s')) (bbr_mode_ (bbr_machine s)) (bbr_mode_ (bbr_machine s')) /\
  probe_state s' = probe_state s /\ (bbr_mode_ (bbr_machine s') = PROBE_RTT <-> bbr_mode_ (bbr_machine s) = PROBE_RTT) /\
  start = (match last acked with Some p => bbr_current_round_trip_end_ (bbr_model s) <? p.1 | None => false end) /\
  (expired = true -> bbr_min_rtt_ (bbr_model s) <> 0 /\ QuicTime_add (bbr_min_rtt_timestamp_ (bbr_model s)) kMinRttExpiry < now).
Proof.
  intros [Hm Hc Hw]. unfold bbr_update. set (s0 := set_model s _). set (losses := match lost with [] => false | _ => true end).
  assert (forall l m, bbr_current_round_trip_end_ (DiscardLostPackets m l) = bbr_current_round_trip_end_ m /\ bbr_min_rtt_ (DiscardLostPackets m l) = bbr_min_rtt_ m /\
    bbr_min_rtt_timestamp_ (DiscardLostPackets m l) = bbr_min_rtt_timestamp_ m) as Hd.
  { unfold DiscardLostPackets. induction l as [|p l IH]; intros m; [done|]. cbn [fold_left]. destruct (IH (model_set_sampler m (bws_OnPacketLost (bbr_sampler_ m) p.1))) as (-> & -> & ->). done. }
  pose proof (bbr_update_model_ok u r s0 (total_bytes_acked_ (bbr_sampler_ (bbr_model s))) now acked losses Hw) as Hu.
  destruct (bbr_update_model u r s0 _ now acked losses) as [[s1 start] expired]. destruct Hu as (U1 & U2 & U3 & U4 & U5).
  change (bbr_model s0) with (DiscardLostPackets (bbr_model s) lost) in U4, U5. destruct (Hd lost (bbr_model s)) as (D1 & D2 & D3). rewrite D1 in U4. rewrite D2, D3 in U5.
  change (bbr_config s0) with (bbr_config s) in *. change (bbr_machine s0) with (bbr_machine s) in U3. clear D1 D2 D3 Hd.
  set (s2 := if bool_decide (bbr_mode_ (bbr_machine s1) = PROBE_BW) then _ else s1).
  assert (mode_ok false (bbr_config s) (bbr_machine s2) /\ bbr_config s2 = bbr_config s /\ bbr_windows s2 = bbr_windows s1 /\ bbr_mode_ (bbr_machine s2) = bbr_mode_ (bbr_machine s) /\
    bbr_is_at_full_bandwidth_ (bbr_machine s2) = bbr_is_at_full_bandwidth_ (bbr_machine s) /\ probe_state s2 = probe_state s) as (V1 & V2 & V3 & V4 & V5 & V6).
  { assert (probe_state s1 = probe_state s) as Hp by (unfold probe_state; by rewrite U3). unfold s2. rewrite <- U3. case_bool_decide as Em; [|rewrite U3 in *; by rewrite U2].
    destruct (UpdateGainCyclePhase_ok false r s1 now prior losses Em) as (G1 & G2 & G3 & G4 & G5 & G6 & G7); [by rewrite U2, U3|]. rewrite U2 in *. split_and!; try done; congruence. }
  clearbody s2. set (s3 := if start && _ then CheckIfFullBandwidthReached s2 else s2).
  assert (mode_ok true (bbr_config s) (bbr_machine s3) /\ bbr_config s3 = bbr_config s /\ bbr_windows s3 = bbr_windows s1 /\ bbr_mode_ (bbr_machine s3) = bbr_mode_ (bbr_machine s) /\
    (bbr_is_at_full_bandwidth_ (bbr_machine s) = true -> bbr_is_at_full_bandwidth_ (bbr_machine s3) = true) /\ probe_state s3 = probe_state s) as (W1 & W2 & W3 & W4 & W5 & W6).
  { unfold s3. destruct (start && _).
    - destruct (CheckIfFullBandwidthReached_ok false s2) as (G1 & G2 & G3 & G4 & G5 & G6 & G7); [by rewrite V2|]. rewrite V2, ?V5 in *. split_and!; try done; congruence.
    - split_and!; try done; [|by rewrite V5]. unfold mode_ok in *. destruct (bbr_mode_ (bbr_machine s2)); try done. destruct V1 as (? & ? & ?). done. }
  clearbody s3. destruct (MaybeExitStartupOrDrain_ok u r s3 now) as (X1 & X2 & X3 & X4 & X5 & X6 & X7 & X8); [by rewrite W2|].
  rewrite X5, <- W4. split_and!; try done; try congruence; rewrite ?X5; try done; rewrite ?X8; try done. constructor; rewrite ?X2, ?X4, ?W2, ?W3; try done; congruence.
Qed.

Definition round_starts (s : BbrSender) (acked : CongestionVector) : bool :=
  match last acked with Some p => bbr_current_round_trip_end_ (bbr_model s) <? p.1 | None => false end.

Lemma bbr_event_ok flags u r s prior now acked lost : bbr_ok false false s ->
  let s' := bbr_OnCongestionEvent RandUint64 flags u r s prior now acked lost in
  bbr_ok false false s' /\ bbr_config s' = bbr_config s /\
  (bbr_is_at_full_bandwidth_ (bbr_machine s) = true -> bbr_is_at_full_bandwidth_ (bbr_machine s') = true) /\
  mode_steps (bbr_is_at_full_bandwidth_ (bbr_machine s')) (bbr_mode_ (bbr_machine s)) (bbr_mode_ (bbr_machine s')) /\
  (bbr_mode_ (bbr_machine s) = PROBE_RTT -> bbr_mode_ (bbr_machine s') =
    if probe_done s now (round_starts s acked) then if bbr_is_at_full_bandwidth_ (bbr_machine s') then PROBE_BW else STARTUP else PROBE_RTT) /\
  (bbr_mode_ (bbr_machine s) <> PROBE_RTT -> bbr_mode_ (bbr_machine s') = PROBE_RTT ->
    bbr_min_rtt_ (bbr_model s) <> 0 /\ QuicTime_add (bbr_min_rtt_timestamp_ (bbr_model s)) kMinRttExpiry < now /\ bbr_exiting_quiescence_ (bbr_machine s) = false).
Proof.
  intros Hok. pose proof (bbr_update_ok u r s prior now acked lost Hok) as Hu. unfold bbr_OnCongestionEvent. destruct (bbr_update RandUint64 u r s prior now acked lost) as [[s1 start] expired].
  destruct Hu as ([O1 O2 O3] & U2 & U3 & U4 & U5 & U6 & U7 & U8). fold (round_starts s acked) in U7. subst start.
  destruct (MaybeEnterOrExitProbeRtt_ok u s1 now (round_starts s acked) expired O1) as (P1 & P2 & P3 & P4 & P5 & P6 & P7 & P8). revert P1 P2 P3 P4 P5 P6 P7 P8.
  generalize (MaybeEnterOrExitProbeRtt RandUint64 u s1 now (round_starts s acked) expired). intros s2 P1 P2 P3 P4 P5 P6 P7 P8.
  destruct (CalculatePacingRate_ok r s2) as (Q1 & Q2 & Q3 & rate & Q4). revert Q1 Q2 Q3 Q4. generalize (CalculatePacingRate r s2). intros s3 Q1 Q2 Q3 Q4. cbn zeta.
  set (bytes := _ -64 _). destruct (CalculateCongestionWindow_ok (flag_add_tso_cwnd flags) r s3 bytes) as (R1 & R2 & R3 & R4); [by rewrite Q1, P2|rewrite Q1, P2, Q4, P3; exact O3|].
  revert R1 R2 R3 R4. generalize (CalculateCongestionWindow (flag_add_tso_cwnd flags) r s3 bytes). intros s4 R1 R2 R3 R4.
  destruct (CalculateRecoveryWindow_ok u s4 bytes (fold_left (fun n p => n +64 p.2) lost 0)) as (S1 & S2 & S3 & S4); [by rewrite R2|].
  revert S1 S2 S3 S4. generalize (CalculateRecoveryWindow u s4 bytes (fold_left (fun n p => n +64 p.2) lost 0)). intros s5 S1 S2 S3 S4.
  assert (bbr_machine s5 = bbr_machine s2) as Em by congruence. assert (bbr_config s5 = bbr_config s) as Ec by congruence.
  cbn [set_model bbr_machine bbr_config bbr_windows bbr_model]. rewrite Em, Ec, P4.
  assert (probe_done s1 now (round_starts s acked) = probe_done s now (round_starts s acked)) as Ed.
  { unfold probe_done. injection U5 as E1 E2 E3. rewrite E2, E3. f_equal. f_equal. f_equal. by apply bool_decide_ext. }
  split; [|split; [done|split; [done|split; [|split]]]].
  - constructor; cbn [set_model bbr_config bbr_machine bbr_windows]; rewrite ?Em, ?Ec; [by rewrite <-U2|by rewrite <-U2|]. rewrite R2, Q1, P2, U2 in S1. exact S1.
  - rewrite P7. destruct (probe_done s1 now (round_starts s acked)) eqn:E; [|destruct (probing s1 expired); [eapply rtc_r; [done|constructor]|done]].
    unfold probe_done in E. rewrite !andb_true_iff in E. destruct E as [[[E%bool_decide_eq_true _] _] _]. rewrite E in U4.
    destruct (bbr_is_at_full_bandwidth_ (bbr_machine s1)); (eapply rtc_r; [done|constructor]).
  - intros Hp. rewrite P7, Ed. case_if; [done|]. unfold probing. by rewrite (bool_decide_eq_true_2 (bbr_mode_ (bbr_machine s1) = PROBE_RTT)) by (by apply U6).
  - intros Hn Hp. rewrite P7 in Hp. assert (bbr_mode_ (bbr_machine s1) <> PROBE_RTT) as Hn1 by (by rewrite U6).
    unfold probe_done, probing in Hp. rewrite !(bool_decide_eq_false_2 (bbr_mode_ (bbr_machine s1) = PROBE_RTT)) in Hp by done. cbn [andb orb] in Hp.
    destruct expired; [|done]. destruct (bbr_exiting_quiescence_ (bbr_machine s1)) eqn:Eq; [done|]. destruct (U8 eq_refl). injection U5 as E1 E2 E3. split_and!; try done; congruence.
Qed.

(** The first event in PROBE_RTT with little in flight sets the time to leave it. *)
Lemma bbr_event_schedules flags u r s prior now acked lost : bbr_ok false false s -> bbr_mode_ (bbr_machine s) = PROBE_RTT -> bbr_exit_probe_rtt_at_ (bbr_machine s) = 0 ->
  bytes_in_flight_ u < kMinimumCongestionWindow + kMaxPacketSize ->
  bbr_exit_probe_rtt_at_ (bbr_machine (bbr_OnCongestionEvent RandUint64 flags u r s prior now acked lost)) = QuicTime_add now kProbeRttTime.
Proof.
  intros Hok Hm H0 Hu. pose proof (bbr_update_ok u r s prior now acked lost Hok) as Hup. unfold bbr_OnCongestionEvent. destruct (bbr_update RandUint64 u r s prior now acked lost) as [[s1 start] expired].
  destruct Hup as ([O1 O2 O3] & U2 & _ & _ & U5 & U6 & _ & _). injection U5 as _ E2 _. apply U6 in Hm.
  assert (bbr_exit_probe_rtt_at_ (bbr_machine (MaybeEnterOrExitProbeRtt RandUint64 u s1 now start expired)) = QuicTime_add now kProbeRttTime) as E.
  { unfold MaybeEnterOrExitProbeRtt. cbn zeta. rewrite (bool_decide_eq_true_2 (bbr_mode_ (bbr_machine s1) = PROBE_RTT)) by done. cbn [negb]. rewrite andb_false_r.
    rewrite bool_decide_eq_true_2 by done. unfold in_probe_rtt. cbn zeta. change (bbr_machine (set_model s1 _)) with (bbr_machine s1). rewrite E2, H0. cbn [QuicTime_eqb].
    change (QuicTime_eqb 0 QuicTime_Zero) with true. cbv iota. rewrite (proj2 (Z.ltb_lt _ _)) by done. done. }
  revert E. generalize (MaybeEnterOrExitProbeRtt RandUint64 u s1 now start expired). intros s2 E. cbn zeta. set (bytes := _ -64 _). cbn [set_model bbr_machine].
  destruct (CalculatePacingRate_ok r s2) as (_ & Q2 & _). unfold CalculateRecoveryWindow, CalculateCongestionWindow. cbn zeta.
  repeat (match goal with |- context [if ?b then _ else _] => destruct b end; try (cbn [set_windows bbr_machine]; congruence)).
Qed.
End Steps.

(** ** Reachable senders *)

Inductive bbr_op :=
  | BbrEvent (u : QuicUnackedPacketMap) (r : RttStats) (prior_in_flight event_time : Z) (acked lost : CongestionVector)
  | BbrSent (sent_time bytes_in_flight packet_number bytes : Z) (is_retransmittable : bool)
  | BbrAdjust (bandwidth rtt : Z)
  | BbrLimited (bytes_in_flight : Z)
  | BbrConfigure (requested : BbrOption -> bool).
Definition bbr_exec (RandUint64 : nat -> Z) (flags : BbrFlags) (s : BbrSender) (op : bbr_op) : BbrSender :=
  match op with
  | BbrEvent u r prior now acked lost => bbr_OnCongestionEvent RandUint64 flags u r s prior now acked lost
  | BbrSent t n pn bytes has => (bbr_OnPacketSent s t n pn bytes has).1
  | BbrAdjust bandwidth rtt => bbr_AdjustNetworkParameters flags s bandwidth rtt
  | BbrLimited n => bbr_OnApplicationLimited s n
  | BbrConfigure requested => bbr_SetFromConfig flags s requested
  end.
Inductive bbr_reach (RandUint64 : nat -> Z) (flags : BbrFlags) : BbrSender -> Prop :=
  | bbr_reach_new initial : 1 <= initial <= 2000 -> bbr_reach RandUint64 flags (BbrSender_new flags initial 2000)
  | bbr_reach_step s op : bbr_reach RandUint64 flags s -> bbr_reach RandUint64 flags (bbr_exec RandUint64 flags s op).

Section Reach.
Context (RandUint64 : nat -> Z) (flags : BbrFlags).

Lemma bbr_new_ok initial : 1 <= initial <= 2000 -> bbr_ok false false (BbrSender_new flags initial 2000).
Proof.
  intros Hi. unfold BbrSender_new, kDefaultTCPMSS. rewrite !u64_id by (unfold is_u64; lia). constructor; simpl; [done| |]; unfold config_ok, windows_ok, kMinimumCongestionWindow, bbr_kMaxSegmentSize, kDefaultTCPMSS; simpl; [lia|].
  split; [lia|done].
Qed.
Lemma bbr_exec_ok s op : bbr_ok false false s -> bbr_ok false false (bbr_exec RandUint64 flags s op) /\ bbr_max_congestion_window_ (bbr_config (bbr_exec RandUint64 flags s op)) = bbr_max_congestion_window_ (bbr_config s).
Proof.
  intros Hok. destruct op as [u r prior now acked lost|t n pn bytes has|bandwidth rtt|n|requested]; cbn [bbr_exec].
  - destruct (bbr_event_ok RandUint64 flags u r s prior now acked lost Hok) as (H1 & -> & _). done.
  - split; [|done]. destruct Hok. unfold bbr_OnPacketSent. cbn zeta. constructor; try done. cbn. destruct (_ && _); [|done]. unfold mode_ok in *. simpl. by destruct (bbr_mode_ _).
  - unfold bbr_AdjustNetworkParameters. destruct (negb _); [done|]. destruct Hok. by split.
  - unfold bbr_OnApplicationLimited. destruct (_ >=? _); [done|]. destruct Hok. by split.
  - destruct Hok as [H1 H2 [H3 H4]]. split; [|done]. unfold bbr_SetFromConfig. cbn zeta. constructor; try done. split; [done|]. simpl. intros Hr Hb. apply orb_false_iff in Hb as [_ Hb]. by apply H4.
Qed.
Lemma bbr_reach_ok s : bbr_reach RandUint64 flags s -> bbr_ok false false s /\ bbr_max_congestion_window_ (bbr_config s) = 2000 * kDefaultTCPMSS.
Proof.
  induction 1 as [initial Hi|s op _ [IH1 IH2]]; [split; [by apply bbr_new_ok|done]|]. destruct (bbr_exec_ok s op IH1) as [H1 H2]. by rewrite H2.
Qed.
End Reach.
