(* ===== verification/BbrCorrect.v ===== *)
(** * BBR: the theorems

    The mode machine and its gains, the limits of the window, PROBE_RTT, the bandwidth
    estimate against the path, and the option of recovery by rate, which has no effect. *)

From S2P Require Import Prelude QuicTime QuicBandwidth WindowedFilter PacketNumberIndexedQueue UnackedPacketMap RttStats SoftFloat LossAlgorithm SentPacketManager PacingSender BandwidthSampler BbrSender BbrFacts.

(** ** The estimate *)

(** The operations of the sampler that an operation of the sender performs. *)
Definition sampler_ops_of (RandUint64 : nat -> Z) (s : BbrSender) (op : bbr_op) : list sampler_op :=
  match op with
  | BbrEvent u r prior now acked lost =>
      let '(s', _, expired) := bbr_update RandUint64 u r s prior now acked lost in
      map (fun p => SamplerLost p.1) lost ++ map (fun p => SamplerAcked now p.1) acked ++ (if probing s' expired then [SamplerLimited] else []) ++ [SamplerObsolete (least_unacked_ u)]
  | BbrSent t n pn bytes has => [SamplerSent t pn bytes n has]
  | BbrAdjust _ _ => []
  | BbrLimited n => if n >=? bbr_GetCongestionWindow s then [] else [SamplerLimited]
  | BbrConfigure _ => []
  end.

(** A run of the sender with the operations of its sampler.  A bandwidth from an earlier
    connection is at most [rate]. *)
Inductive bbr_trace (RandUint64 : nat -> Z) (flags : BbrFlags) (rate : Z) : BbrSender -> list sampler_op -> Prop :=
  | bbr_trace_new initial : 1 <= initial <= 2000 -> bbr_trace RandUint64 flags rate (BbrSender_new flags initial 2000) []
  | bbr_trace_step s ops op : bbr_trace RandUint64 flags rate s ops -> (match op with BbrAdjust bandwidth _ => bandwidth <= rate | _ => True end) ->
      bbr_trace RandUint64 flags rate (bbr_exec RandUint64 flags s op) (ops ++ sampler_ops_of RandUint64 s op).

Definition filter_le (rate : Z) (f : WindowedFilter (T := Z)) : Prop :=
  let '(e0, e1, e2) := estimates_ f in WindowedFilter.sample e0 <= rate /\ WindowedFilter.sample e1 <= rate /\ WindowedFilter.sample e2 <= rate.
Lemma Filter_Update_le rate f x t : filter_le rate f -> x <= rate -> filter_le rate (Filter_Update f x t).
Proof.
  unfold filter_le, Filter_Update, WindowedFilter_Update, WindowedFilter_Reset. destruct (estimates_ f) as [[e0 e1] e2]. intros (H0 & H1 & H2) Hx.
  repeat (case_if; simpl; try done).
Qed.

Lemma sampler_run_app s l k : sampler_run s (l ++ k) = let '(s1, a) := sampler_run s l in let '(s2, b) := sampler_run s1 k in (s2, a ++ b).
Proof.
  revert s. induction l as [|op l IH]; intros s; simpl; [by destruct (sampler_run s k)|]. destruct (sampler_step s op) as [s1 b]. rewrite IH.
  destruct (sampler_run s1 l) as [s2 a]. by destruct (sampler_run s2 k).
Qed.

Definition sample_le (rate : Z) (b : option BandwidthSample) : Prop := match b with Some b => bs_bandwidth b <= rate | None => True end.

Lemma DiscardLostPackets_sampler m lost : bbr_sampler_ (DiscardLostPackets m lost) = (sampler_run (bbr_sampler_ m) (map (fun p => SamplerLost p.1) lost)).1 /\
  bbr_max_bandwidth_ (DiscardLostPackets m lost) = bbr_max_bandwidth_ m.
Proof.
  unfold DiscardLostPackets. revert m. induction lost as [|p lost IH]; intros m; [done|]. cbn [fold_left map sampler_run]. specialize (IH (model_set_sampler m (bws_OnPacketLost (bbr_sampler_ m) p.1))).
  cbn [sampler_step]. simpl in IH. destruct IH as [-> ->]. by destruct (sampler_run _ _).
Qed.

Lemma take_samples_le rate now acked m r : filter_le rate (bbr_max_bandwidth_ m) ->
  Forall (sample_le rate) (sampler_run (bbr_sampler_ m) (map (fun p => SamplerAcked now p.1) acked)).2 ->
  let m' := (fold_left (bbr_take_sample now) acked (m, r)).1 in
  bbr_sampler_ m' = (sampler_run (bbr_sampler_ m) (map (fun p => SamplerAcked now p.1) acked)).1 /\ filter_le rate (bbr_max_bandwidth_ m').
Proof.
  revert m r. induction acked as [|p acked IH]; intros m r Hf Hs; [done|]. cbn [fold_left map sampler_run sampler_step] in *.
  destruct (bbr_take_sample now (m, r) p) as [m1 r1] eqn:Et. unfold bbr_take_sample in Et. destruct (bws_OnPacketAcknowledged (bbr_sampler_ m) now p.1) as [x b].
  destruct (sampler_run x (map (fun p => SamplerAcked now p.1) acked)) as [x' l] eqn:Ex. simpl in Hs. apply Forall_cons in Hs as [Hb Hl]. simpl in Hb.
  injection Et as E1 _. assert (bbr_sampler_ m1 = x) as E by (by subst m1). specialize (IH m1 r1). rewrite E, Ex in IH. apply IH; [|done].
  subst m1. simpl. case_if; [by apply Filter_Update_le|done].
Qed.

Section Trace.
Context (RandUint64 : nat -> Z) (flags : BbrFlags) (rate : Z).

(** Operations that leave sampler and filter alone. *)
Definition same_model (s s' : BbrSender) : Prop := bbr_sampler_ (bbr_model s') = bbr_sampler_ (bbr_model s) /\ bbr_max_bandwidth_ (bbr_model s') = bbr_max_bandwidth_ (bbr_model s).

Lemma UpdateBandwidthAndMinRtt_model m now acked :
  bbr_sampler_ (UpdateBandwidthAndMinRtt m now acked).1 = bbr_sampler_ (fold_left (bbr_take_sample now) acked (m, Delta_Infinite)).1 /\
  bbr_max_bandwidth_ (UpdateBandwidthAndMinRtt m now acked).1 = bbr_max_bandwidth_ (fold_left (bbr_take_sample now) acked (m, Delta_Infinite)).1.
Proof.
  unfold UpdateBandwidthAndMinRtt. destruct (fold_left _ acked _) as [m1 r1]. destruct (Delta_IsInfinite r1); [done|]. by destruct (_ || _).
Qed.
Lemma UpdateRecoveryState_model s p losses start : same_model s (UpdateRecoveryState s p losses start).
Proof.
  unfold UpdateRecoveryState, same_model. cbn zeta. destruct losses; simpl; destruct (bbr_recovery_state_ (bbr_windows s)); simpl; done.
Qed.
Lemma UpdateAckAggregationBytes_model m t n : bbr_sampler_ (UpdateAckAggregationBytes m t n) = bbr_sampler_ m /\ bbr_max_bandwidth_ (UpdateAckAggregationBytes m t n) = bbr_max_bandwidth_ m.
Proof. unfold UpdateAckAggregationBytes. cbn zeta. by destruct (_ <=? _). Qed.

Lemma bbr_update_model_le u r s before now acked losses : filter_le rate (bbr_max_bandwidth_ (bbr_model s)) ->
  Forall (sample_le rate) (sampler_run (bbr_sampler_ (bbr_model s)) (map (fun p => SamplerAcked now p.1) acked)).2 ->
  let s' := (bbr_update_model u r s before now acked losses).1.1 in
  bbr_sampler_ (bbr_model s') = (sampler_run (bbr_sampler_ (bbr_model s)) (map (fun p => SamplerAcked now p.1) acked)).1 /\ filter_le rate (bbr_max_bandwidth_ (bbr_model s')).
Proof.
  intros Hf Hs. unfold bbr_update_model. destruct (last acked) as [p|] eqn:El; [|by apply last_None in El; subst].
  set (x := UpdateRoundTripCounter (bbr_model s) p.1).
  assert (bbr_sampler_ x.1 = bbr_sampler_ (bbr_model s) /\ bbr_max_bandwidth_ x.1 = bbr_max_bandwidth_ (bbr_model s)) as [X1 X2] by (unfold x, UpdateRoundTripCounter; by destruct (_ >? _)).
  destruct x as [m1 start]. simpl in X1, X2. destruct (UpdateBandwidthAndMinRtt_model m1 now acked) as [B1 B2].
  destruct (take_samples_le rate now acked m1 Delta_Infinite) as [T1 T2]; [by rewrite X2|by rewrite X1|]. rewrite X1 in T1.
  destruct (UpdateBandwidthAndMinRtt m1 now acked) as [m2 expired]. simpl in B1, B2. cbn beta iota zeta.
  destruct (UpdateRecoveryState_model (set_model s m2) p.1 losses start) as [R1 R2]. revert R1 R2. generalize (UpdateRecoveryState (set_model s m2) p.1 losses start). intros s3 R1 R2.
  set (s4 := set_model s3 _). destruct (UpdateAckAggregationBytes_model (bbr_model s3) now (total_bytes_acked_ (bbr_sampler_ (bbr_model s3)) -64 before)) as [A1 A2].
  assert (bbr_sampler_ (bbr_model s4) = bbr_sampler_ m2 /\ bbr_max_bandwidth_ (bbr_model s4) = bbr_max_bandwidth_ m2) as [S1 S2] by (simpl; rewrite A1, A2; done). clearbody s4.
  rewrite <- T1, <- B1, <- S1. rewrite <- B2, <- S2 in T2. destruct (flt_gtb _ _); simpl; by split.
Qed.

Lemma UpdateGainCyclePhase_model r s now prior losses : bbr_model (UpdateGainCyclePhase r s now prior losses) = bbr_model s.
Proof. unfold UpdateGainCyclePhase. cbn zeta. by match goal with |- context [if ?b then _ else s] => destruct b end. Qed.
Lemma CheckIfFullBandwidthReached_model s : bbr_model (CheckIfFullBandwidthReached s) = bbr_model s.
Proof. unfold CheckIfFullBandwidthReached. cbn zeta. destruct (bbr_last_sample_is_app_limited_ _); [done|]. by destruct (QuicBandwidth_geb _ _). Qed.
Lemma MaybeExitStartupOrDrain_model u r s now : bbr_model (MaybeExitStartupOrDrain RandUint64 u r s now) = bbr_model s.
Proof.
  unfold MaybeExitStartupOrDrain. cbn zeta. match goal with |- context [if ?b then set_machine s ?m else s] => destruct b end;
    match goal with |- context [if ?b then _ else _] => destruct b end; done.
Qed.
Lemma CalculateCongestionWindow_model tso r s n : bbr_model (CalculateCongestionWindow tso r s n) = bbr_model s.
Proof. unfold CalculateCongestionWindow. cbn zeta. by destruct (bool_decide _). Qed.
Lemma CalculateRecoveryWindow_model u s n k : bbr_model (CalculateRecoveryWindow u s n k) = bbr_model s.
Proof. unfold CalculateRecoveryWindow. cbn zeta. repeat (match goal with |- context [bbr_model (if ?b then _ else _)] => destruct b end; try done). Qed.

Lemma lost_samples s (lost : CongestionVector) : Forall (sample_le rate) (sampler_run s (map (fun p => SamplerLost p.1) lost)).2.
Proof.
  revert s. induction lost as [|p lost IH]; intros s; [done|]. cbn [map sampler_run sampler_step]. specialize (IH (bws_OnPacketLost s p.1)). destruct (sampler_run _ _). by constructor.
Qed.

Lemma bbr_update_le u r s prior now acked lost : filter_le rate (bbr_max_bandwidth_ (bbr_model s)) ->
  let ops := map (fun p => SamplerLost p.1) lost ++ map (fun p => SamplerAcked now p.1) acked in
  Forall (sample_le rate) (sampler_run (bbr_sampler_ (bbr_model s)) ops).2 ->
  let s' := (bbr_update RandUint64 u r s prior now acked lost).1.1 in
  bbr_sampler_ (bbr_model s') = (sampler_run (bbr_sampler_ (bbr_model s)) ops).1 /\ filter_le rate (bbr_max_bandwidth_ (bbr_model s')).
Proof.
  cbn zeta. intros Hf Hs. unfold bbr_update. set (s0 := set_model s _). destruct (DiscardLostPackets_sampler (bbr_model s) lost) as [D1 D2].
  rewrite sampler_run_app in Hs |- *.
  destruct (sampler_run (bbr_sampler_ (bbr_model s)) _) as [x1 l1]. simpl in D1. set (losses := match lost with [] => false | _ => true end).
  pose proof (bbr_update_model_le u r s0 (total_bytes_acked_ (bbr_sampler_ (bbr_model s))) now acked losses) as Hu. change (bbr_model s0) with (DiscardLostPackets (bbr_model s) lost) in Hu at 1 2 3. rewrite D1, D2 in Hu.
  destruct (sampler_run x1 _) as [x2 l2]. simpl in Hs, Hu |- *. apply Forall_app in Hs as [_ Hs]. specialize (Hu Hf Hs).
  destruct (bbr_update_model u r s0 _ now acked losses) as [[s1 start] expired]. simpl in Hu |- *. rewrite MaybeExitStartupOrDrain_model.
  destruct (start && _); rewrite ?CheckIfFullBandwidthReached_model; destruct (bool_decide _); rewrite ?UpdateGainCyclePhase_model; done.
Qed.

Lemma bbr_exec_le s op : bbr_ok false false s -> filter_le rate (bbr_max_bandwidth_ (bbr_model s)) -> (match op with BbrAdjust bandwidth _ => bandwidth <= rate | _ => True end) ->
  Forall (sample_le rate) (sampler_run (bbr_sampler_ (bbr_model s)) (sampler_ops_of RandUint64 s op)).2 ->
  let s' := bbr_exec RandUint64 flags s op in
  bbr_sampler_ (bbr_model s') = (sampler_run (bbr_sampler_ (bbr_model s)) (sampler_ops_of RandUint64 s op)).1 /\ filter_le rate (bbr_max_bandwidth_ (bbr_model s')).
Proof.
  intros Hok Hf Hop Hs. destruct op as [u r prior now acked lost|t n pn bytes has|bandwidth rtt|n|requested]; cbn [bbr_exec sampler_ops_of] in *.
  - pose proof (bbr_update_ok RandUint64 u r s prior now acked lost Hok) as Hu. pose proof (bbr_update_le u r s prior now acked lost Hf) as Hle. cbn zeta in Hle. unfold bbr_OnCongestionEvent.
    destruct (bbr_update RandUint64 u r s prior now acked lost) as [[s1 start] expired]. destruct Hu as ([O1 _ _] & _). rewrite app_assoc, sampler_run_app in Hs |- *.
    destruct (sampler_run _ (map _ lost ++ map _ acked)) as [x1 l1]. cbn [fst snd] in Hle. 
    assert (Forall (sample_le rate) l1) as Hl1 by (destruct (sampler_run x1 _); by apply Forall_app in Hs as [Hs _]). destruct (Hle Hl1) as [L1 L2].
    destruct (MaybeEnterOrExitProbeRtt_ok RandUint64 u s1 now start expired O1) as (_ & _ & _ & _ & P5 & P6 & _). revert P5 P6.
    generalize (MaybeEnterOrExitProbeRtt RandUint64 u s1 now start expired). intros s2 P5 P6. destruct (CalculatePacingRate_ok r s2) as (_ & _ & Q3 & _). cbn zeta. cbn [set_model bbr_model model_set_sampler bbr_sampler_ bbr_max_bandwidth_].
    rewrite CalculateRecoveryWindow_model, CalculateCongestionWindow_model, Q3, P6, P5. split; [|done]. rewrite L1. by destruct (probing s1 expired).
  - unfold bbr_OnPacketSent. cbn zeta. by destruct (negb (QuicTime_IsInitialized _)).
  - unfold bbr_AdjustNetworkParameters. destruct (negb _); [done|]. simpl. destruct (negb (Delta_IsZero rtt) && _); simpl; (split; [by destruct (negb _)|]);
      (destruct (negb _); [by apply Filter_Update_le|done]).
  - unfold bbr_OnApplicationLimited. by destruct (n >=? _).
  - done.
Qed.

Lemma bbr_trace_le s ops : 0 <= rate -> bbr_trace RandUint64 flags rate s ops -> Forall (sample_le rate) (sampler_run BandwidthSampler_new ops).2 ->
  bbr_ok false false s /\ bbr_sampler_ (bbr_model s) = (sampler_run BandwidthSampler_new ops).1 /\ filter_le rate (bbr_max_bandwidth_ (bbr_model s)).
Proof.
  intros Hr. induction 1 as [initial Hi|s ops op _ IH Hop]; intros Hs; [split; [by apply bbr_new_ok|done]|].
  rewrite sampler_run_app in Hs |- *. destruct (sampler_run BandwidthSampler_new ops) as [x1 l1]. simpl in IH.
  assert (Forall (sample_le rate) l1) as Hl1 by (destruct (sampler_run x1 _); by apply Forall_app in Hs as [Hs _]). destruct (IH Hl1) as (I1 & I2 & I3).
  split; [by apply bbr_exec_ok|]. pose proof (bbr_exec_le s op I1 I3 Hop) as He. rewrite I2 in He. destruct (sampler_run x1 _) as [x2 l2]. simpl in *. apply He. by apply Forall_app in Hs as [_ Hs].
Qed.
End Trace.

(** C8: The bandwidth estimate of BBR is sound.  In every run of a sender in which packets are
    sent in order (up to a terabyte) over a path that delivers at most [rate] bits per
    second between any two acknowledgements, and with a bandwidth from an earlier
    connection of at most [rate], the estimate never exceeds [rate]. *)
Theorem bbr_estimate_sound RandUint64 flags rate s ops : bbr_trace RandUint64 flags rate s ops -> run_pre curves_new ops -> 0 <= rate ->
  path_rate rate (cv_acks (curves_run curves_new ops).1) -> bbr_BandwidthEstimate s <= rate.
Proof.
  intros Ht Hpre Hr Hp. destruct (bbr_trace_le RandUint64 flags rate s ops Hr Ht) as (_ & _ & Hf); [by apply samples_below_path|].
  unfold bbr_BandwidthEstimate, WindowedFilter_GetBest, filter_le in *. destruct (estimates_ _) as [[e0 e1] e2]. by destruct Hf.
Qed.

(** ** The mode machine *)

(** C10: In every state that BBR reaches, the gains are those of the mode (2.885 in startup, its
    inverse when draining, the entry of the gain cycle at an offset in range when probing
    for bandwidth, 1 in PROBE_RTT), startup is only for a sender that has not reached the
    full bandwidth, and draining and probing for bandwidth only for one that has.  An event
    never takes the full bandwidth back, and changes the mode only along the steps
    STARTUP, DRAIN, PROBE_BW, into PROBE_RTT, and from there to STARTUP or PROBE_BW. *)
Theorem bbr_state_machine RandUint64 flags s u r prior now acked lost : bbr_reach RandUint64 flags s ->
  let s' := bbr_exec RandUint64 flags s (BbrEvent u r prior now acked lost) in
  mode_ok false (bbr_config s) (bbr_machine s) /\
  (bbr_is_at_full_bandwidth_ (bbr_machine s) = true -> bbr_is_at_full_bandwidth_ (bbr_machine s') = true) /\
  mode_steps (bbr_is_at_full_bandwidth_ (bbr_machine s')) (bbr_mode_ (bbr_machine s)) (bbr_mode_ (bbr_machine s')).
Proof.
  intros [Hok _]%bbr_reach_ok. destruct (bbr_event_ok RandUint64 flags u r s prior now acked lost Hok) as (_ & _ & H3 & H4 & _). split; [apply Hok|done].
Qed.

(** ** The window *)

(** C9: In every state that BBR reaches from an initial window of 1 to 2000 packets, its
    congestion window is at most 2000 packets and at least the smaller of four packets and
    the initial window, in recovery too, it is four packets in PROBE_RTT, and a sender with
    nothing in flight may always send. *)
Theorem bbr_window_bounded RandUint64 flags s : bbr_reach RandUint64 flags s ->
  Z.min (bbr_initial_congestion_window_ (bbr_config s)) (4 * kDefaultTCPMSS) <= bbr_GetCongestionWindow s <= 2000 * kDefaultTCPMSS /\
  (bbr_mode_ (bbr_machine s) = PROBE_RTT -> bbr_GetCongestionWindow s = 4 * kDefaultTCPMSS) /\ bbr_TimeUntilSend s 0 = Delta_Zero.
Proof.
  intros [[_ [C1 C2] [W1 W2]] Hm]%bbr_reach_ok. unfold bbr_TimeUntilSend, bbr_GetCongestionWindow, kMinimumCongestionWindow, bbr_kMaxSegmentSize, kDefaultTCPMSS, bbr_InRecovery in *. cbn zeta.
  rewrite Hm in *. destruct (decide (bbr_mode_ (bbr_machine s) = PROBE_RTT)) as [E|E].
  { rewrite bool_decide_eq_true_2 by done. split_and!; try done; lia. }
  rewrite (bool_decide_eq_false_2 (bbr_mode_ (bbr_machine s) = PROBE_RTT)) by done.
  set (w := if _ && _ then _ else _). assert (Z.min (bbr_initial_congestion_window_ (bbr_config s)) (4 * 1460) <= w <= 2000 * 1460) as Hw.
  { unfold w. case_bool_decide as Er; [|simpl; lia]. destruct (bbr_rate_based_recovery_ (bbr_config s)); simpl; [lia|]. destruct (W2 Er eq_refl) as [?|[? _]]; [lia|done]. }
  clearbody w. split; [done|]. split; [done|]. rewrite (proj2 (Z.ltb_lt 0 w)) by lia. done.
Qed.

(** ** PROBE_RTT *)

(** BBR enters PROBE_RTT only when the minimum round trip time has not been renewed for
    ten seconds and the connection is not leaving quiescence.  In PROBE_RTT the first event
    with at most four packets in flight sets the time to leave it 200 milliseconds ahead,
    and the sender leaves exactly at the first event at that time or later by which a round
    has passed, to STARTUP or, at full bandwidth, to PROBE_BW. *)
Lemma bbr_probe_rtt RandUint64 flags s u r prior now acked lost : bbr_reach RandUint64 flags s ->
  let m := bbr_machine s in
  let m' := bbr_machine (bbr_exec RandUint64 flags s (BbrEvent u r prior now acked lost)) in
  (bbr_mode_ m <> PROBE_RTT -> bbr_mode_ m' = PROBE_RTT ->
     bbr_min_rtt_ (bbr_model s) <> 0 /\ QuicTime_add (bbr_min_rtt_timestamp_ (bbr_model s)) 10000000 < now /\ bbr_exiting_quiescence_ m = false) /\
  (bbr_mode_ m = PROBE_RTT -> bbr_exit_probe_rtt_at_ m = 0 ->
     bbr_mode_ m' = PROBE_RTT /\ (bytes_in_flight_ u <= 4 * kDefaultTCPMSS -> bbr_exit_probe_rtt_at_ m' = QuicTime_add now 200000)) /\
  (bbr_mode_ m = PROBE_RTT -> bbr_exit_probe_rtt_at_ m <> 0 ->
     let leaves := (bbr_exit_probe_rtt_at_ m <=? now) && (round_starts s acked || bbr_probe_rtt_round_passed_ m) in
     bbr_mode_ m' = if leaves then if bbr_is_at_full_bandwidth_ m' then PROBE_BW else STARTUP else PROBE_RTT).
Proof.
  cbn zeta. intros [Hok _]%bbr_reach_ok. destruct (bbr_event_ok RandUint64 flags u r s prior now acked lost Hok) as (_ & _ & _ & _ & H5 & H6). cbn [bbr_exec].
  split; [done|]. split.
  - intros Hm H0. split; [|intros Hu; apply bbr_event_schedules; try done; unfold kMinimumCongestionWindow, bbr_kMaxSegmentSize, kMaxPacketSize; lia].
    rewrite (H5 Hm). unfold probe_done. by rewrite H0, andb_false_r.
  - intros Hm H0. rewrite (H5 Hm). unfold probe_done. by rewrite bool_decide_eq_true_2, (proj2 (Z.eqb_neq _ _) H0) by done.
Qed.

(** ** Recovery by rate *)

Definition without_rate_recovery (s : BbrSender) : BbrSender :=
  let c := bbr_config s in
  set_config s (MkBbrConfig (bbr_initial_congestion_window_ c) (bbr_max_congestion_window_ c) (bbr_max_aggregation_bytes_multiplier_ c)
    (bbr_congestion_window_gain_constant_ c) (bbr_rtt_variance_weight_ c) (bbr_num_startup_rtts_ c) (bbr_exit_startup_on_loss_ c) false).
(** The option of recovery by rate switches recovery off.  A sender with the option limits
    its window in recovery no more than outside of it, and although it first sets the pacing
    rate from the third best bandwidth, the pacing rate that it ends with is the one of a
    sender without the option at full bandwidth, and at least the one for the best bandwidth
    before. *)
Lemma bbr_rate_recovery_has_no_effect r s : bbr_rate_based_recovery_ (bbr_config s) = true -> bbr_InRecovery s = true -> bbr_BandwidthEstimate s <> 0 ->
  bbr_mode_ (bbr_machine s) <> PROBE_RTT ->
  let rate := bbr_pacing_rate_ (bbr_windows (CalculatePacingRate r s)) in
  bbr_GetCongestionWindow s = bbr_congestion_window_ (bbr_windows s) /\
  (bbr_is_at_full_bandwidth_ (bbr_machine s) = true -> rate = bbr_pacing_rate_ (bbr_windows (CalculatePacingRate r (without_rate_recovery s)))) /\
  (QuicBandwidth_mul_float (WindowedFilter_GetThirdBest (bbr_max_bandwidth_ (bbr_model s))) (bbr_pacing_gain_ (bbr_machine s)) <> 0 ->
     QuicBandwidth_mul_float (bbr_BandwidthEstimate s) (bbr_pacing_gain_ (bbr_machine s)) <= rate).
Proof.
  cbn zeta. intros Hr Hi He Hm. unfold bbr_GetCongestionWindow, CalculatePacingRate, QuicBandwidth_IsZero. rewrite Hr, Hi. cbn zeta. cbn [andb].
  rewrite bool_decide_eq_false_2 by done. change (bbr_BandwidthEstimate (without_rate_recovery s)) with (bbr_BandwidthEstimate s). rewrite (proj2 (Z.eqb_neq _ _) He).
  split; [done|]. split; [by intros Hf; simpl; rewrite Hf|]. intros Hn. destruct (bbr_is_at_full_bandwidth_ (bbr_machine s)); [simpl; lia|].
  cbn [bbr_pacing_rate_ windows_set_rate]. rewrite (proj2 (Z.eqb_neq _ _) Hn). cbn [andb]. cbn [set_windows bbr_windows windows_set_rate bbr_pacing_rate_]. apply Z.le_max_r.
Qed.

(** *** A run *)

Definition bbr_flags_default : BbrFlags := MkBbrFlags false false false false false (2, 1) (0, 1).
Definition bbr_random (k : nat) : Z := 3.
Fixpoint bbr_play (s : BbrSender) (ops : list bbr_op) : BbrSender * list sampler_op :=
  match ops with
  | [] => (s, [])
  | op :: ops => let '(s', l) := bbr_play (bbr_exec bbr_random bbr_flags_default s op) ops in (s', sampler_ops_of bbr_random s op ++ l)
  end.
Definition bbr_initial : BbrSender := BbrSender_new bbr_flags_default 32 2000.
Definition bbr_event (time : Z) (acked lost : CongestionVector) : bbr_op := BbrEvent QuicUnackedPacketMap_new RttStats_new 2500 time acked lost.
(** Ten packets, one each millisecond, with a loss; eleven seconds later one more, in the
    meantime the minimum round trip time has expired. *)
Definition bbr_ops : list bbr_op :=
  map (fun k => BbrSent (1000 * Z.of_nat k) (1250 * (Z.of_nat k - 1)) (Z.of_nat k) 1250 true) (seq 1 10) ++
  map (fun k => bbr_event (1000 * Z.of_nat k + 20000) [(Z.of_nat k, 1250)] (if (k =? 5)%nat then [(4, 1250)] else [])) [1%nat; 2%nat; 3%nat; 5%nat; 6%nat; 7%nat; 8%nat; 9%nat; 10%nat] ++
  [BbrSent 11000000 1250 11 1250 true].
Definition bbr_state : BbrSender := (bbr_play bbr_initial bbr_ops).1.

Lemma bbr_play_trace rate s ops0 ops : bbr_trace bbr_random bbr_flags_default rate s ops0 -> Forall (fun op => match op with BbrAdjust _ _ => False | _ => True end) ops ->
  bbr_trace bbr_random bbr_flags_default rate (bbr_play s ops).1 (ops0 ++ (bbr_play s ops).2).
Proof.
  intros Ht Ho. revert s ops0 Ht. induction Ho as [|op ops Hop _ IH]; intros s ops0 Ht; simpl; [by rewrite app_nil_r|].
  specialize (IH (bbr_exec bbr_random bbr_flags_default s op) (ops0 ++ sampler_ops_of bbr_random s op)). destruct (bbr_play _ ops) as [s' l]. simpl in *. rewrite <- app_assoc in IH.
  apply IH. apply bbr_trace_step; [done|]. by destruct op.
Qed.
Lemma bbr_play_reach s ops : bbr_reach bbr_random bbr_flags_default s -> bbr_reach bbr_random bbr_flags_default (bbr_play s ops).1.
Proof.
  revert s. induction ops as [|op ops IH]; intros s Hs; simpl; [done|]. specialize (IH (bbr_exec bbr_random bbr_flags_default s op)). destruct (bbr_play _ ops) as [s' l]. apply IH. by constructor.
Qed.
Lemma bbr_state_reached : bbr_reach bbr_random bbr_flags_default bbr_state.
Proof. apply bbr_play_reach, bbr_reach_new. lia. Qed.
Lemma bbr_state_trace : bbr_trace bbr_random bbr_flags_default 10000000 bbr_state (bbr_play bbr_initial bbr_ops).2.
Proof. apply (bbr_play_trace 10000000 bbr_initial []); [apply bbr_trace_new; lia|]. repeat constructor. Qed.

Lemma bbr_estimate_sound_witness : bbr_BandwidthEstimate bbr_state = 3103448 /\ bbr_BandwidthEstimate bbr_state <= 10000000.
Proof.
  split; [vm_compute; reflexivity|]. apply (bbr_estimate_sound bbr_random bbr_flags_default 10000000 bbr_state (bbr_play bbr_initial bbr_ops).2 bbr_state_trace).
  - vm_compute. repeat (split; [intuition congruence|]). exact I.
  - lia.
  - apply path_rateb_ok. vm_compute. reflexivity.
Defined.

Lemma bbr_state_machine_witness :
  let s' := bbr_exec bbr_random bbr_flags_default bbr_state (bbr_event 11030000 [(11, 1250)] []) in
  bbr_mode_ (bbr_machine s') = PROBE_RTT /\ mode_steps (bbr_is_at_full_bandwidth_ (bbr_machine s')) (bbr_mode_ (bbr_machine bbr_state)) (bbr_mode_ (bbr_machine s')).
Proof.
  split; [vm_compute; reflexivity|].
  exact (proj2 (proj2 (bbr_state_machine bbr_random bbr_flags_default bbr_state QuicUnackedPacketMap_new RttStats_new 2500 11030000 [(11, 1250)] [] bbr_state_reached))).
Defined.
Lemma bbr_window_bounded_witness : bbr_GetCongestionWindow bbr_state = 5840 /\ bbr_TimeUntilSend bbr_state 0 = Delta_Zero.
Proof. split; [vm_compute; reflexivity|]. exact (proj2 (proj2 (bbr_window_bounded bbr_random bbr_flags_default bbr_state bbr_state_reached))). Defined.
Lemma bbr_probe_rtt_witness :
  let m' := bbr_machine (bbr_exec bbr_random bbr_flags_default bbr_state (bbr_event 11030000 [(11, 1250)] [])) in
  bbr_exit_probe_rtt_at_ m' = 11230000 /\ QuicTime_add (bbr_min_rtt_timestamp_ (bbr_model bbr_state)) 10000000 < 11030000.
Proof.
  split; [vm_compute; reflexivity|].
  refine (proj1 (proj2 (proj1 (bbr_probe_rtt bbr_random bbr_flags_default bbr_state QuicUnackedPacketMap_new RttStats_new 2500 11030000 [(11, 1250)] [] bbr_state_reached) _ _)));
    vm_compute; congruence.
Defined.
Lemma bbr_rate_recovery_has_no_effect_witness :
  let s := set_config bbr_state (bbr_config (bbr_SetFromConfig (MkBbrFlags false true false false false (2, 1) (0, 1)) bbr_state (fun o => match o with kBBRR => true | _ => false end))) in
  bbr_InRecovery s = true /\ bbr_GetCongestionWindow s = 57970.
Proof.
  split; [vm_compute; reflexivity|].
  refine (eq_trans (proj1 (bbr_rate_recovery_has_no_effect RttStats_new (set_config bbr_state (bbr_config (bbr_SetFromConfig (MkBbrFlags false true false false false (2, 1) (0, 1)) bbr_state
    (fun o => match o with kBBRR => true | _ => false end)))) _ _ _ _)) _); vm_compute; congruence.
Defined.
