(* ===== verification/CongestionControl.v ===== *)
(** * The congestion controllers behind their interface

    The TCP style senders and BBR as instances of [SendAlgorithm], the factory
    SendAlgorithmInterface::Create, and the environment of the manager of sent packets made
    of a controller, the pacing sender, a clock and the connection's visitors
    ([CongestionEnv]).  It satisfies the law that the theorems about sent packets assume of
    congestion control, so they hold with the real controllers. *)

From S2P Require Import Prelude QuicTime QuicBandwidth Interval IntervalSet PacketNumberQueue PacketSet ReceivedPacketManager UnackedPacketMap UnackedFacts UnackedChains RttStats LossAlgorithm SentPacketManager SentPacketFacts SentPacketRuns SentPacketCorrect.
From S2P Require Import SoftFloat SlowStart CubicWindow CubicFacts TcpCubicSender PacingSender BandwidthSampler BbrSender.

(** ** The instances *)

Definition tcp_algorithm {S : Type} `{CubicSenderOps S} (set_connections : S -> Z -> S) (migrate : S -> S) (type : S -> CongestionControlType) : SendAlgorithm S := {|
  sa_SetNumEmulatedConnections n s := set_connections s n;
  sa_OnCongestionEvent _ r updated prior time acked lost s := tcs_OnCongestionEvent r s updated prior time acked lost;
  sa_OnPacketSent _ _ pn bytes has s := let '(s, f) := tcs_OnPacketSent s pn bytes has in (f, s);
  sa_OnRetransmissionTimeout b s := tcs_OnRetransmissionTimeout s b;
  sa_OnConnectionMigration := migrate;
  sa_TimeUntilSend _ n s := tcs_TimeUntilSend s n;
  sa_PacingRate r _ s := tcs_PacingRate r s;
  sa_BandwidthEstimate r s := tcs_BandwidthEstimate r s;
  sa_GetCongestionWindow := GetCongestionWindow;
  sa_InSlowStart := tcs_InSlowStart;
  sa_InRecovery s := tcs_InRecovery (get_base s);
  sa_GetSlowStartThreshold := GetSlowStartThreshold;
  sa_GetCongestionControlType := type;
  sa_AdjustNetworkParameters bandwidth rtt s := AdjustNetworkParameters s bandwidth rtt;
  sa_OnApplicationLimited _ s := s |}.

(** What the controllers are given from outside: the cube root of the C library, the random
    source and the flags. *)
Class Platform := { pl_cbrt : Z -> Z; pl_random : nat -> Z; pl_bbr_flags : BbrFlags; pl_enable_pcc : bool; pl_disable_packets_based_cc : bool }.

Section Controllers.
Context `{Platform}.

#[global] Instance bytes_algorithm : SendAlgorithm TcpCubicSenderBytes :=
  @tcp_algorithm _ _ (TcpCubicSenderBytes_ops pl_cbrt) tb_SetNumEmulatedConnections tb_OnConnectionMigration tb_GetCongestionControlType.
#[global] Instance packets_algorithm : SendAlgorithm TcpCubicSenderPackets :=
  @tcp_algorithm _ _ (TcpCubicSenderPackets_ops pl_cbrt) tp_SetNumEmulatedConnections tp_OnConnectionMigration tp_GetCongestionControlType.
#[global] Instance bbr_algorithm : SendAlgorithm BbrSender := BbrSender_algorithm pl_random pl_bbr_flags.

(** A pointer to a controller. *)
Inductive Controller := BytesController (s : TcpCubicSenderBytes) | PacketsController (s : TcpCubicSenderPackets) | BbrController (s : BbrSender).
Definition ask {R : Type} (f : forall A, SendAlgorithm A -> A -> R) (c : Controller) : R :=
  match c with BytesController s => f _ bytes_algorithm s | PacketsController s => f _ packets_algorithm s | BbrController s => f _ bbr_algorithm s end.
Definition tell (f : forall A, SendAlgorithm A -> A -> A) (c : Controller) : Controller :=
  match c with
  | BytesController s => BytesController (f _ bytes_algorithm s)
  | PacketsController s => PacketsController (f _ packets_algorithm s)
  | BbrController s => BbrController (f _ bbr_algorithm s)
  end.
Definition tell_sent (sent_time bytes_in_flight packet_number bytes : Z) (has : bool) (c : Controller) : bool * Controller :=
  match c with
  | BytesController s => let '(f, s) := sa_OnPacketSent sent_time bytes_in_flight packet_number bytes has s in (f, BytesController s)
  | PacketsController s => let '(f, s) := sa_OnPacketSent sent_time bytes_in_flight packet_number bytes has s in (f, PacketsController s)
  | BbrController s => let '(f, s) := sa_OnPacketSent sent_time bytes_in_flight packet_number bytes has s in (f, BbrController s)
  end.
#[global] Instance controller_algorithm : SendAlgorithm Controller := {|
  sa_SetNumEmulatedConnections n := tell (fun A _ => sa_SetNumEmulatedConnections n);
  sa_OnCongestionEvent u r updated prior time acked lost := tell (fun A _ => sa_OnCongestionEvent u r updated prior time acked lost);
  sa_OnPacketSent := tell_sent;
  sa_OnRetransmissionTimeout b := tell (fun A _ => sa_OnRetransmissionTimeout b);
  sa_OnConnectionMigration := tell (fun A _ => sa_OnConnectionMigration);
  sa_TimeUntilSend now n := ask (fun A _ => sa_TimeUntilSend now n);
  sa_PacingRate r n := ask (fun A _ => sa_PacingRate r n);
  sa_BandwidthEstimate r := ask (fun A _ => sa_BandwidthEstimate r);
  sa_GetCongestionWindow := ask (fun A _ => sa_GetCongestionWindow);
  sa_InSlowStart := ask (fun A _ => sa_InSlowStart);
  sa_InRecovery := ask (fun A _ => sa_InRecovery);
  sa_GetSlowStartThreshold := ask (fun A _ => sa_GetSlowStartThreshold);
  sa_GetCongestionControlType := ask (fun A _ => sa_GetCongestionControlType);
  sa_AdjustNetworkParameters bandwidth rtt := tell (fun A _ => sa_AdjustNetworkParameters bandwidth rtt);
  sa_OnApplicationLimited n := tell (fun A _ => sa_OnApplicationLimited n) |}.

(** ** The factory *)

Definition new_bytes (reno : bool) (stats : SlowStartStats) (initial : Z) : Controller := BytesController (TcpCubicSenderBytes_new reno initial kDefaultMaxCongestionWindowPackets stats).
Definition new_packets (reno : bool) (stats : SlowStartStats) (initial : Z) : Controller := PacketsController (TcpCubicSenderPackets_new reno initial kDefaultMaxCongestionWindowPackets stats).
(** The cases fall through as in the source. *)
Definition Create (type : CongestionControlType) (stats : SlowStartStats) (initial_congestion_window : Z) : Controller :=
  let cubic_bytes := new_bytes false stats initial_congestion_window in
  let cubic := if negb pl_disable_packets_based_cc then new_packets false stats initial_congestion_window else cubic_bytes in
  let reno_bytes := new_bytes true stats initial_congestion_window in
  match type with
  | kBBR => BbrController (BbrSender_new pl_bbr_flags initial_congestion_window kDefaultMaxCongestionWindowPackets)
  | kPCC => if pl_enable_pcc then new_bytes false stats initial_congestion_window else cubic
  | kCubic => cubic
  | kCubicBytes => cubic_bytes
  | kReno => if negb pl_disable_packets_based_cc then new_packets true stats initial_congestion_window else reno_bytes
  | kRenoBytes => reno_bytes
  end.

(** ** The environment of the manager of sent packets *)

Context {N : Type} `{StreamNotifierInterface N}.
(** The visitors of the connection and its clock. *)
Class Visitors := {
  vs_OnCongestionChange : N -> N; vs_OnPathDegrading : N -> N; vs_OnPathMtuIncreased : Z -> N -> N;
  vs_OnSpuriousPacketRetransmission : TransmissionType -> Z -> N -> N; vs_OnIncomingAck : Z -> Z -> bool -> Z -> N -> N; vs_OnPacketLoss : Z -> TransmissionType -> Z -> N -> N;
  vs_Now : N -> Z; vs_ApproximateNow : N -> Z; vs_WallNow : N -> Z }.
Context `{Visitors}.

(** [ce_stats] are the counters of the connection while no TCP style sender holds them. *)
Record CongestionEnv := MkEnv { ce_controller : Controller; ce_pacing : PacingSender; ce_stats : SlowStartStats; ce_initial_window : Z; ce_outside : N }.
Definition set_controller (e : CongestionEnv) (c : Controller) : CongestionEnv := MkEnv c (ce_pacing e) (ce_stats e) (ce_initial_window e) (ce_outside e).
Definition set_paced (e : CongestionEnv) (x : PacingSender * Controller) : CongestionEnv := MkEnv x.2 x.1 (ce_stats e) (ce_initial_window e) (ce_outside e).
Definition set_outside (e : CongestionEnv) (f : N -> N) : CongestionEnv := MkEnv (ce_controller e) (ce_pacing e) (ce_stats e) (ce_initial_window e) (f (ce_outside e)).
Definition controller_stats (e : CongestionEnv) : SlowStartStats :=
  match ce_controller e with BytesController s => tcb_stats_ (tb_base s) | PacketsController s => tcb_stats_ (tp_base s) | BbrController _ => ce_stats e end.

#[global] Instance env_notifier : StreamNotifierInterface CongestionEnv := {|
  OnStreamFrameAcked f d e := set_outside e (OnStreamFrameAcked f d);
  OnStreamFrameRetransmitted f e := set_outside e (OnStreamFrameRetransmitted f);
  OnStreamFrameDiscarded f e := set_outside e (OnStreamFrameDiscarded f);
  OnPacketAcked a b c e := set_outside e (OnPacketAcked a b c);
  OnPacketRetransmitted a b e := set_outside e (OnPacketRetransmitted a b) |}.
#[global] Instance congestion_env : SentPacketEnv CongestionEnv := {|
  spe_notifier := env_notifier;
  sender_OnCongestionEvent paced u r updated prior time acked lost e :=
    if paced then set_paced e (ps_OnCongestionEvent u r updated prior time acked lost (ce_pacing e) (ce_controller e))
    else set_controller e (sa_OnCongestionEvent u r updated prior time acked lost (ce_controller e));
  sender_OnPacketSent paced u r time n pn bytes has e :=
    if paced then let '(f, x) := ps_OnPacketSent r time n pn bytes has (ce_pacing e) (ce_controller e) in (f, set_paced e x)
    else let '(f, c) := sa_OnPacketSent time n pn bytes has (ce_controller e) in (f, set_controller e c);
  sender_TimeUntilSend paced u r now n e :=
    if paced then let '(d, p) := ps_TimeUntilSend now n (ce_pacing e) (ce_controller e) in (d, set_paced e (p, ce_controller e))
    else (sa_TimeUntilSend now n (ce_controller e), e);
  algorithm_OnRetransmissionTimeout u r b e := set_controller e (sa_OnRetransmissionTimeout b (ce_controller e));
  algorithm_OnConnectionMigration u r e := set_controller e (sa_OnConnectionMigration (ce_controller e));
  algorithm_SetNumEmulatedConnections n e := set_controller e (sa_SetNumEmulatedConnections n (ce_controller e));
  algorithm_AdjustNetworkParameters u r bandwidth rtt e := set_controller e (sa_AdjustNetworkParameters bandwidth rtt (ce_controller e));
  algorithm_OnApplicationLimited u r n e := set_controller e (sa_OnApplicationLimited n (ce_controller e));
  algorithm_InRecovery u r e := sa_InRecovery (ce_controller e);
  algorithm_InSlowStart u r e := sa_InSlowStart (ce_controller e);
  algorithm_BandwidthEstimate u r e := sa_BandwidthEstimate r (ce_controller e);
  algorithm_GetCongestionWindow u r e := sa_GetCongestionWindow (ce_controller e);
  algorithm_GetSlowStartThreshold u r e := sa_GetSlowStartThreshold (ce_controller e);
  create_send_algorithm type e := MkEnv (Create type (controller_stats e) (ce_initial_window e)) (ce_pacing e) (controller_stats e) (ce_initial_window e) (ce_outside e);
  pacing_set_max_pacing_rate rate e := MkEnv (ce_controller e) (set_max_pacing_rate (ce_pacing e) rate) (ce_stats e) (ce_initial_window e) (ce_outside e);
  visitor_OnCongestionChange e := set_outside e vs_OnCongestionChange;
  visitor_OnPathDegrading e := set_outside e vs_OnPathDegrading;
  visitor_OnPathMtuIncreased n e := set_outside e (vs_OnPathMtuIncreased n);
  delegate_OnSpuriousPacketRetransmission t n e := set_outside e (vs_OnSpuriousPacketRetransmission t n);
  delegate_OnIncomingAck a b c d e := set_outside e (vs_OnIncomingAck a b c d);
  delegate_OnPacketLoss a t n e := set_outside e (vs_OnPacketLoss a t n);
  clock_Now e := vs_Now (ce_outside e);
  clock_ApproximateNow e := vs_ApproximateNow (ce_outside e);
  clock_WallNow e := vs_WallNow (ce_outside e) |}.

(** ** The law of the interface *)

Lemma controller_tracks sent_time bytes_in_flight packet_number bytes (c : Controller) : (sa_OnPacketSent sent_time bytes_in_flight packet_number bytes true c).1 = true.
Proof. by destruct c. Qed.
#[global] Instance env_laws : SenderLaws CongestionEnv.
Proof.
  intros paced u r t n pn bytes e. simpl. pose proof (controller_tracks t n pn bytes (ce_controller e)) as Hc. simpl in Hc. destruct paced.
  - unfold ps_OnPacketSent. simpl. destruct (tell_sent t n pn bytes true (ce_controller e)) as [f c]. simpl in *. by destruct (_ >? 0).
  - by destruct (tell_sent t n pn bytes true (ce_controller e)) as [f c].
Qed.
End Controllers.

(** ** The factory *)

(** For every type of congestion control and every setting of the flags the factory
    returns a controller: BBR for BBR, the byte or packet based Reno or cubic sender that the
    flags select for the others, and the cubic sender in bytes for PCC where PCC is enabled.
    It starts with the initial window, outside of recovery, in slow start, and may send. *)
Lemma create_controller `{Platform} type stats initial now : 2 <= initial < 2000 ->
  let c := Create type stats initial in
  sa_GetCongestionControlType c =
    (match type with
     | kBBR => kBBR
     | kPCC => if pl_enable_pcc || pl_disable_packets_based_cc then kCubicBytes else kCubic
     | kCubic => if pl_disable_packets_based_cc then kCubicBytes else kCubic
     | kCubicBytes => kCubicBytes
     | kReno => if pl_disable_packets_based_cc then kRenoBytes else kReno
     | kRenoBytes => kRenoBytes
     end) /\
  sa_GetCongestionWindow c = initial * kDefaultTCPMSS /\ sa_InSlowStart c = true /\ sa_InRecovery c = false /\ sa_TimeUntilSend now 0 c = Delta_Zero.
Proof.
  intros Hi. cbn zeta. assert (u64 (initial * kDefaultTCPMSS) = initial * kDefaultTCPMSS) as Eu by (apply u64_id; unfold is_u64, kDefaultTCPMSS; lia).
  assert (u64 (kDefaultMaxCongestionWindowPackets * kDefaultTCPMSS) = 2000 * kDefaultTCPMSS) as Em by done.
  assert (forall reno, let c := new_bytes reno stats initial in sa_GetCongestionControlType c = (if reno then kRenoBytes else kCubicBytes) /\
    sa_GetCongestionWindow c = initial * kDefaultTCPMSS /\ sa_InSlowStart c = true /\ sa_InRecovery c = false /\ sa_TimeUntilSend now 0 c = Delta_Zero) as Hb.
  { intros reno. simpl. unfold tcs_InSlowStart, tcs_TimeUntilSend, TcpCubicSenderBytes_new. simpl. rewrite Eu, Em. unfold kDefaultTCPMSS. split_and!; try done; [blia|].
    by rewrite (proj2 (Z.gtb_lt _ _)) by lia. }
  assert (forall reno, let c := new_packets reno stats initial in sa_GetCongestionControlType c = (if reno then kReno else kCubic) /\
    sa_GetCongestionWindow c = initial * kDefaultTCPMSS /\ sa_InSlowStart c = true /\ sa_InRecovery c = false /\ sa_TimeUntilSend now 0 c = Delta_Zero) as Hp.
  { intros reno. simpl. unfold tcs_InSlowStart, tcs_TimeUntilSend, TcpCubicSenderPackets_new. simpl. rewrite Eu. change (u64 (kDefaultMaxCongestionWindowPackets * kDefaultTCPMSS)) with 2920000. unfold kDefaultTCPMSS.
    split_and!; try done; [blia|]. by rewrite (proj2 (Z.gtb_lt _ _)) by lia. }
  assert (let c := Create kBBR stats initial in sa_GetCongestionControlType c = kBBR /\
    sa_GetCongestionWindow c = initial * kDefaultTCPMSS /\ sa_InSlowStart c = true /\ sa_InRecovery c = false /\ sa_TimeUntilSend now 0 c = Delta_Zero) as Hbbr.
  { simpl. unfold bbr_TimeUntilSend, bbr_GetCongestionWindow. simpl. rewrite Eu. unfold kDefaultTCPMSS. split_and!; try done. by rewrite (proj2 (Z.ltb_lt _ _)) by lia. }
  unfold Create in *. destruct type, pl_disable_packets_based_cc, pl_enable_pcc; cbn [negb orb]; exact (Hb true) || exact (Hb false) || exact (Hp true) || exact (Hp false) || exact Hbbr.
Qed.

(** ** Sent packets with the real controllers *)


(** *** A run with BBR *)

#[local] Instance example_platform : Platform := {|
  pl_cbrt := icbrt; pl_random := fun _ => 3; pl_bbr_flags := MkBbrFlags false false false false false (2, 1) (0, 1); pl_enable_pcc := false; pl_disable_packets_based_cc := true |}.
#[local] Instance outside_notifier : StreamNotifierInterface Z :=
  {| OnStreamFrameAcked := fun _ _ e => e; OnStreamFrameRetransmitted := fun _ e => e; OnStreamFrameDiscarded := fun _ e => e;
     OnPacketAcked := fun _ _ _ e => e; OnPacketRetransmitted := fun _ _ e => e |}.
#[local] Instance outside_visitors : Visitors := {|
  vs_OnCongestionChange := fun e => e; vs_OnPathDegrading := fun e => e; vs_OnPathMtuIncreased := fun _ e => e; vs_OnSpuriousPacketRetransmission := fun _ _ e => e;
  vs_OnIncomingAck := fun _ _ _ _ e => e; vs_OnPacketLoss := fun _ _ _ e => e; vs_Now := fun e => e; vs_ApproximateNow := fun e => e; vs_WallNow := fun e => e |}.
#[local] Instance env_queue : PacketSet PacketNumberQueue := PacketNumberQueue_set true.
#[local] Instance env_queue_laws : PacketSetLaws PacketNumberQueue := PacketNumberQueue_laws true.
Definition env_example : CongestionEnv (N := Z) := create_send_algorithm kBBR (MkEnv (new_bytes false (MkSlowStartStats 0 0 0 0) 32) PacingSender_new (MkSlowStartStats 0 0 0 0) 32 5000).
Definition env_send (pn : Z) : @sent_op (CongestionEnv (N := Z)) PacketNumberQueue := OpOnPacketSent (data_packet pn) 0 (1000 * pn) NOT_RETRANSMISSION true.
Definition env_after (n : Z) : QuicSentPacketManager * CongestionEnv (N := Z) :=
  default (new_manager, env_example) (foldl (fun r op => match r with Some s => sent_exec false false s op | None => None end) (Some (new_manager, env_example)) (map env_send (seqZ 1 n))).
Lemma env_after_reached : sent_reach false false (Q := PacketNumberQueue) (new_manager, env_example) (env_after 2).
Proof.
  apply (reach_step _ _ _ (env_after 1) (env_send 2)); [apply (reach_step _ _ _ (env_after 0) (env_send 1)); [apply reach_start|..]|..].
  1,3: split; [split; simpl; try lia; done|done].
  all: vm_compute; reflexivity.
Qed.
Lemma create_controller_witness : sa_GetCongestionControlType (Create kPCC (MkSlowStartStats 0 0 0 0) 32) = kCubicBytes.
Proof. exact (proj1 (create_controller kPCC (MkSlowStartStats 0 0 0 0) 32 0 ltac:(lia))). Defined.
