(* ===== verification/HandshakeMessage.v ===== *)
(** * crypto/crypto_handshake_message.cc: messages of the crypto handshake

    A message is a tag and a [std::map] from tags to strings; the map is its sequence of
    entries in the order of the tags, which is the order on the wire.  Values are written
    and read as the raw memory of integers ([mem_bytes], [mem_value]).  [serialized_] is
    the cache of [GetSerialized] (in [CryptoFramer]); printing is left out. *)

From S2P Require Import Prelude QuicData Framer.
From stdpp Require Import sorting.
#[local] Open Scope Z_scope.

Definition QUIC_INVALID_CRYPTO_MESSAGE_PARAMETER : Z := 34.
Definition QUIC_CRYPTO_MESSAGE_PARAMETER_NOT_FOUND : Z := 35.
Definition QUIC_CRYPTO_MESSAGE_INDEX_NOT_FOUND : Z := 37.

(** ** QuicTagValueMap *)

Definition QuicTagValueMap : Type := list (Z * list Z).
(** [map\[tag\] = value]. *)
Fixpoint tag_set (tag : Z) (value : list Z) (m : QuicTagValueMap) : QuicTagValueMap :=
  match m with
  | [] => [(tag, value)]
  | (t, v) :: m' => if tag <? t then (tag, value) :: m else if tag =? t then (tag, value) :: m' else (t, v) :: tag_set tag value m'
  end.
Fixpoint tag_find (tag : Z) (m : QuicTagValueMap) : option (list Z) :=
  match m with [] => None | (t, v) :: m => if t =? tag then Some v else tag_find tag m end.
Definition tag_erase (tag : Z) (m : QuicTagValueMap) : QuicTagValueMap := filter (fun e => e.1 <> tag) m.

(** ** CryptoHandshakeMessage *)

Record CryptoHandshakeMessage := MkMessage { hm_tag_ : Z; hm_tag_value_map_ : QuicTagValueMap; hm_minimum_size_ : nat; hm_serialized_ : option (list Z) }.
Definition CryptoHandshakeMessage_new : CryptoHandshakeMessage := MkMessage 0 [] 0 None.
(** Copies do not share the cache. *)
Definition CryptoHandshakeMessage_copy (other : CryptoHandshakeMessage) : CryptoHandshakeMessage :=
  MkMessage (hm_tag_ other) (hm_tag_value_map_ other) (hm_minimum_size_ other) None.
Definition hm_Clear (m : CryptoHandshakeMessage) : CryptoHandshakeMessage := MkMessage 0 [] 0 None.
Definition MarkDirty (m : CryptoHandshakeMessage) : CryptoHandshakeMessage := MkMessage (hm_tag_ m) (hm_tag_value_map_ m) (hm_minimum_size_ m) None.
Definition set_tag (m : CryptoHandshakeMessage) (tag : Z) : CryptoHandshakeMessage := MkMessage tag (hm_tag_value_map_ m) (hm_minimum_size_ m) (hm_serialized_ m).
Definition hm_set_map (m : CryptoHandshakeMessage) (x : QuicTagValueMap) : CryptoHandshakeMessage := MkMessage (hm_tag_ m) x (hm_minimum_size_ m) (hm_serialized_ m).
Definition SetStringPiece (m : CryptoHandshakeMessage) (tag : Z) (value : list Z) : CryptoHandshakeMessage := hm_set_map m (tag_set tag value (hm_tag_value_map_ m)).
Definition hm_Erase (m : CryptoHandshakeMessage) (tag : Z) : CryptoHandshakeMessage := hm_set_map m (tag_erase tag (hm_tag_value_map_ m)).
Definition set_minimum_size (m : CryptoHandshakeMessage) (min_bytes : nat) : CryptoHandshakeMessage :=
  if (min_bytes =? hm_minimum_size_ m)%nat then m else MkMessage (hm_tag_ m) (hm_tag_value_map_ m) min_bytes None.
(** The tag, the number of entries and two bytes of padding, the index, and the values. *)
Definition values_size (m : QuicTagValueMap) : nat := sum_list_with (fun e => length e.2) m.
Definition hm_size (m : CryptoHandshakeMessage) : nat := 8 + 8 * length (hm_tag_value_map_ m) + values_size (hm_tag_value_map_ m).

Section Values.
Context `{host : HostOrder}.

(** [SetValue] and [SetVector] at integers of [n] bytes. *)
Definition SetValue (n : nat) (m : CryptoHandshakeMessage) (tag v : Z) : CryptoHandshakeMessage := SetStringPiece m tag (mem_bytes n v).
Definition SetVector (n : nat) (m : CryptoHandshakeMessage) (tag : Z) (v : list Z) : CryptoHandshakeMessage := SetStringPiece m tag (concat (map (mem_bytes n) v)).

Definition GetStringPiece (m : CryptoHandshakeMessage) (tag : Z) : option (list Z) := tag_find tag (hm_tag_value_map_ m).
Definition HasStringPiece (m : CryptoHandshakeMessage) (tag : Z) : bool := bool_decide (is_Some (tag_find tag (hm_tag_value_map_ m))).

(** The error and what is left in [*out]. *)
Definition GetPOD (m : CryptoHandshakeMessage) (tag : Z) (len : nat) : Z * Z :=
  match tag_find tag (hm_tag_value_map_ m) with
  | None => (QUIC_CRYPTO_MESSAGE_PARAMETER_NOT_FOUND, 0)
  | Some v => if negb (length v =? len)%nat then (QUIC_INVALID_CRYPTO_MESSAGE_PARAMETER, 0) else (QUIC_NO_ERROR, mem_value v)
  end.
Definition GetUint32 (m : CryptoHandshakeMessage) (tag : Z) : Z * Z := GetPOD m tag 4.
Definition GetUint64 (m : CryptoHandshakeMessage) (tag : Z) : Z * Z := GetPOD m tag 8.

(** The copies of the [n] tags of a value. *)
Definition nth_tag (v : list Z) (i : nat) : Z := mem_value (take 4 (drop (i * 4) v)).
Definition GetTaglist (m : CryptoHandshakeMessage) (tag : Z) : Z * list Z :=
  match tag_find tag (hm_tag_value_map_ m) with
  | None => (QUIC_CRYPTO_MESSAGE_PARAMETER_NOT_FOUND, [])
  | Some v =>
      if negb (length v mod 4 =? 0)%nat then (QUIC_INVALID_CRYPTO_MESSAGE_PARAMETER, [])
      else (QUIC_NO_ERROR, map (nth_tag v) (seq 0 (length v / 4)))
  end.

(** The loop over values with lengths of three bytes; each takes at least these, so the
    length of the value is fuel enough ([nth_value_prefixed]). *)
Definition prefix24 (v : list Z) : Z :=
  Z.lor (Z.lor (nth 0 v 0) (Z.shiftl (nth 1 v 0) 8)) (Z.shiftl (nth 2 v 0) 16).
Fixpoint NthValue24_loop (fuel : nat) (value : list Z) (i index : Z) : Z * list Z :=
  match fuel with
  | O => (QUIC_CRYPTO_MESSAGE_INDEX_NOT_FOUND, [])
  | S fuel =>
      if (length value =? 0)%nat then (QUIC_CRYPTO_MESSAGE_INDEX_NOT_FOUND, [])
      else if (length value <? 3)%nat then (QUIC_INVALID_CRYPTO_MESSAGE_PARAMETER, [])
      else
        let size := prefix24 value in
        let value := drop 3 value in
        if Z.of_nat (length value) <? size then (QUIC_INVALID_CRYPTO_MESSAGE_PARAMETER, [])
        else if i =? index then (QUIC_NO_ERROR, take (Z.to_nat size) value)
        else NthValue24_loop fuel (drop (Z.to_nat size) value) (u32 (i + 1)) index
  end.
Definition GetNthValue24 (m : CryptoHandshakeMessage) (tag index : Z) : Z * list Z :=
  match GetStringPiece m tag with
  | None => (QUIC_CRYPTO_MESSAGE_PARAMETER_NOT_FOUND, [])
  | Some value => NthValue24_loop (S (length value)) value 0 index
  end.
End Values.

(** ** The map *)

Definition tags_sorted (m : QuicTagValueMap) : Prop := StronglySorted Z.lt m.*1.

Lemma tag_set_keys tag value m t : t ∈ (tag_set tag value m).*1 <-> t = tag \/ t ∈ m.*1.
Proof.
  induction m as [|[u v] m IH]; simpl; [set_solver|]. destruct (tag <? u) eqn:E; [set_solver|].
  destruct (Z.eqb_spec tag u) as [->|]; simpl; [set_solver|]. rewrite !elem_of_cons, IH. tauto.
Qed.

Lemma tag_set_sorted tag value m : tags_sorted m -> tags_sorted (tag_set tag value m).
Proof.
  unfold tags_sorted. induction m as [|[u v] m IH]; simpl; intros Hs; [repeat constructor|].
  apply StronglySorted_inv in Hs as [Hs Hf]. destruct (Z.ltb_spec tag u); simpl.
  - constructor; [by constructor|]. constructor; [lia|]. eapply Forall_impl; [exact Hf|]. intros x. simpl. lia.
  - destruct (Z.eqb_spec tag u); simpl; [subst; by constructor|]. constructor; [by apply IH|]. apply Forall_forall. intros x Hx%tag_set_keys.
    destruct Hx as [->|Hx]; [lia|]. rewrite Forall_forall in Hf. by apply Hf.
Qed.

Lemma tag_find_set tag value m t : tags_sorted m -> tag_find t (tag_set tag value m) = if t =? tag then Some value else tag_find t m.
Proof.
  unfold tags_sorted. induction m as [|[u v] m IH]; simpl; intros Hs.
  - by rewrite Z.eqb_sym.
  - apply StronglySorted_inv in Hs as [Hs Hf]. destruct (Z.ltb_spec tag u); simpl; [by rewrite (Z.eqb_sym tag t)|].
    destruct (Z.eqb_spec tag u) as [->|]; simpl.
    + rewrite (Z.eqb_sym u t). by destruct (t =? u).
    + rewrite IH by done. destruct (Z.eqb_spec u t), (Z.eqb_spec t tag); try done. lia.
Qed.

(** Appending in order builds the map. *)
Lemma tag_set_last tag value m : Forall (fun t => t < tag) m.*1 -> tag_set tag value m = m ++ [(tag, value)].
Proof.
  induction m as [|[u v] m IH]; simpl; intros Hf; [done|]. apply Forall_cons in Hf as [? Hf].
  destruct (Z.ltb_spec tag u); [lia|]. destruct (Z.eqb_spec tag u); [lia|]. by rewrite IH.
Qed.

Section ValueFacts.
Context `{host : HostOrder}.

Lemma nth_tag_concat vs i t : Forall (fits 4) vs -> vs !! i = Some t -> nth_tag (concat (map (mem_bytes 4) vs)) i = t.
Proof.
  unfold nth_tag. revert i. induction vs as [|v vs IH]; intros i Hf Hl; [done|]. apply Forall_cons in Hf as [Hv Hf]. cbn [map concat].
  destruct i as [|i]; cbn in Hl; simplify_eq.
  - change (drop (0 * 4) ?l) with l. rewrite take_app_length' by (by rewrite mem_bytes_length). by apply mem_value_bytes.
  - rewrite drop_app_ge by (rewrite mem_bytes_length; lia). rewrite mem_bytes_length. change (S i * 4 - 4)%nat with (i * 4 - 0)%nat. rewrite Nat.sub_0_r. by apply IH.
Qed.

Lemma concat_mem_length n vs : length (concat (map (mem_bytes n) vs)) = (length vs * n)%nat.
Proof. induction vs as [|v vs IH]; simpl; [done|]. by rewrite length_app, mem_bytes_length, IH. Qed.

(** What is set is what is read: integers by [GetUint32] and [GetUint64], lists of tags by
    [GetTaglist]; other entries are not touched. *)
Lemma handshake_values_kept m tag v vs t : tags_sorted (hm_tag_value_map_ m) -> Forall (fits 4) vs ->
  (fits 4 v -> GetUint32 (SetValue 4 m tag v) tag = (QUIC_NO_ERROR, v)) /\
  (fits 8 v -> GetUint64 (SetValue 8 m tag v) tag = (QUIC_NO_ERROR, v)) /\
  GetTaglist (SetVector 4 m tag vs) tag = (QUIC_NO_ERROR, vs) /\
  (t <> tag -> GetStringPiece (SetVector 4 m tag vs) t = GetStringPiece m t).
Proof.
  intros Hs Hf. unfold GetUint32, GetUint64, GetPOD, GetTaglist, GetStringPiece, SetValue, SetVector, SetStringPiece. cbn [hm_set_map hm_tag_value_map_].
  rewrite !tag_find_set by done. rewrite Z.eqb_refl, !mem_bytes_length, concat_mem_length.
  split; [intros; by rewrite mem_value_bytes|]. split; [intros; by rewrite mem_value_bytes|]. split.
  - rewrite Nat.Div0.mod_mul, Nat.div_mul by done. cbn [Nat.eqb negb]. f_equal. apply list_eq. intros i.
    destruct (decide (i < length vs)%nat) as [Hi|Hi].
    + destruct (lookup_lt_is_Some_2 vs i Hi) as [x Hx]. rewrite list_lookup_fmap, lookup_seq_lt by done. simpl. rewrite Hx.
      f_equal. by apply nth_tag_concat.
    + rewrite !lookup_ge_None_2; [done|lia|]. rewrite length_map, length_seq. lia.
  - intros Hn. by rewrite (proj2 (Z.eqb_neq t tag) Hn).
Qed.

(** A value made of values with their lengths: the lookup by index finds them, and says so
    when there is none. *)
Definition prefixed24 (v : list Z) : list Z := le_bytes 3 (Z.of_nat (length v)) ++ v.

Lemma prefix24_le v rest : Z.of_nat (length v) < 2 ^ 24 -> prefix24 (prefixed24 v ++ rest) = Z.of_nat (length v).
Proof.
  intros Hl. unfold prefix24, prefixed24. set (x := Z.of_nat (length v)) in *. cbn [le_bytes app nth].
  assert (0 <= x) as Hx by (unfold x; lia). clearbody x. rewrite !Z.shiftl_mul_pow2 by lia.
  rewrite (Z.lor_comm (x mod 256)), lor_disjoint by (Z.div_mod_to_equations; lia).
  rewrite Z.lor_comm, lor_disjoint by (Z.div_mod_to_equations; lia). Z.div_mod_to_equations. lia.
Qed.

Lemma nth_value_prefixed vs i index : Forall (fun v => Z.of_nat (length v) < 2 ^ 24) vs -> 0 <= i <= index -> index < 2 ^ 32 ->
  NthValue24_loop (S (length (concat (map prefixed24 vs)))) (concat (map prefixed24 vs)) i index =
  match vs !! Z.to_nat (index - i) with Some v => (QUIC_NO_ERROR, v) | None => (QUIC_CRYPTO_MESSAGE_INDEX_NOT_FOUND, []) end.
Proof.
  intros Hf. remember (S (length (concat (map prefixed24 vs)))) as fuel eqn:Hfuel. assert (length (concat (map prefixed24 vs)) < fuel)%nat as Hlt by lia. clear Hfuel.
  revert fuel i Hlt. induction vs as [|v vs IH]; intros [|fuel] i Hlt Hi Hx; [done| |simpl in Hlt; lia|].
  - by rewrite lookup_nil.
  - apply Forall_cons in Hf as [Hv Hf]. cbn [map concat] in *. assert (length (prefixed24 v) = 3 + length v)%nat as Hp by (unfold prefixed24; by rewrite length_app, le_bytes_length).
    rewrite length_app in Hlt. cbn [NthValue24_loop]. rewrite length_app, Hp, prefix24_le by done.
    destruct (Nat.eqb_spec (3 + length v + length (concat (map prefixed24 vs))) 0); [lia|].
    destruct (Nat.ltb_spec (3 + length v + length (concat (map prefixed24 vs))) 3); [lia|].
    assert (drop 3 (prefixed24 v ++ concat (map prefixed24 vs)) = v ++ concat (map prefixed24 vs)) as -> by done.
    rewrite Nat2Z.id, length_app. destruct (Z.ltb_spec (Z.of_nat (length v + length (concat (map prefixed24 vs)))) (Z.of_nat (length v))); [lia|].
    destruct (Z.eqb_spec i index) as [->|Hn].
    + by rewrite Z.sub_diag, take_app_length.
    + rewrite drop_app_length. unfold u32. rewrite (wrapU_id 32 (i + 1)) by lia. rewrite IH by (done || lia).
      assert (Z.to_nat (index - i) = S (Z.to_nat (index - (i + 1)))) as -> by lia. done.
Qed.
End ValueFacts.
