(* ===== verification/CryptoFramer.v ===== *)
(** * crypto/crypto_framer.cc: handshake messages on the wire

    Writing a message, with padding to its minimum size, and the incremental parser, which
    keeps what it has not read and its place in the message between calls.  The visitor is
    an object of its own ([CryptoFramerVisitor]).  Texts of errors are left out, their
    codes are kept.

    The specification of the parser is [parse_message], which reads a whole message from
    the bytes since its start: resuming in any state gives the same as reading again from
    the start ([crypto_framer_refines]), and reading what was written gives the message
    back ([handshake_message_roundtrip]). *)

From S2P Require Import Prelude QuicData Framer HandshakeMessage.
#[local] Open Scope Z_scope.
#[local] Open Scope wire_scope.

Definition QUIC_CRYPTO_TAGS_OUT_OF_ORDER : Z := 29.
Definition QUIC_CRYPTO_TOO_MANY_ENTRIES : Z := 30.
Definition QUIC_CRYPTO_DUPLICATE_TAG : Z := 43.
Definition kPAD : Z := MakeQuicTag 80 65 68 0.
Definition kMaxEntries : nat := 128.
Definition kQuicTagSize : nat := 4.
Definition kCryptoEndOffsetSize : nat := 4.
Definition kNumEntriesSize : nat := 2.

Section CryptoFramer.
Context `{host : HostOrder}.

(** ** Writing *)

Definition WritePadTag (pad_length : nat) (end_offset : Z) : Wr :=
  WriteTag kPAD >&> WriteUInt32 (u32 (end_offset + Z.of_nat pad_length)).

(** The loop over the tags and end offsets; [need_pad_tag] and [end_offset] are the
    variables it changes. *)
Fixpoint write_tags (entries : QuicTagValueMap) (need_pad_tag : bool) (pad_length : nat) (end_offset : Z) : Wr :=
  match entries with
  | [] => if need_pad_tag then WritePadTag pad_length end_offset else wr_true
  | (tag, value) :: entries =>
      if (tag =? kPAD) && need_pad_tag then wr_false
      else
        let pad_here := (tag >? kPAD) && need_pad_tag in
        let start := if pad_here then u32 (end_offset + Z.of_nat pad_length) else end_offset in
        let end_offset' := u32 (start + Z.of_nat (length value)) in
        (if pad_here then WritePadTag pad_length end_offset else wr_true) >&>
        WriteTag tag >&> WriteUInt32 end_offset' >&> write_tags entries (need_pad_tag && negb pad_here) pad_length end_offset'
  end.
Fixpoint write_values (entries : QuicTagValueMap) (need_pad_value : bool) (pad_length : nat) : Wr :=
  match entries with
  | [] => if need_pad_value then WriteRepeatedByte 45 pad_length else wr_true
  | (tag, value) :: entries =>
      let pad_here := (tag >? kPAD) && need_pad_value in
      (if pad_here then WriteRepeatedByte 45 pad_length else wr_true) >&>
      WriteBytes value >&> write_values entries (need_pad_value && negb pad_here) pad_length
  end.

(** Whether padding is needed, and how much. *)
Definition needs_pad (m : CryptoHandshakeMessage) : bool := (hm_size m <? hm_minimum_size_ m)%nat.
Definition pad_length_of (m : CryptoHandshakeMessage) : nat :=
  let delta := (hm_minimum_size_ m - hm_size m)%nat in
  let overhead := (kQuicTagSize + kCryptoEndOffsetSize)%nat in
  if needs_pad m && (overhead <? delta)%nat then (delta - overhead)%nat else 0%nat.

Definition ConstructHandshakeMessage (m : CryptoHandshakeMessage) : option (list Z) :=
  let need_pad := needs_pad m in
  let pad_length := pad_length_of m in
  let num_entries := (length (hm_tag_value_map_ m) + if need_pad then 1 else 0)%nat in
  let len := (hm_size m + if need_pad then kQuicTagSize + kCryptoEndOffsetSize + pad_length else 0)%nat in
  if (kMaxEntries <? num_entries)%nat then None
  else
    let '(ok, w) :=
      (WriteTag (hm_tag_ m) >&> WriteUInt16 (u16 (Z.of_nat num_entries)) >&> WriteUInt16 0 >&>
       write_tags (hm_tag_value_map_ m) need_pad pad_length 0 >&> write_values (hm_tag_value_map_ m) need_pad pad_length)
        (MkWriter (replicate len 0) 0 HOST_BYTE_ORDER) in
    if ok then Some (dw_buffer_ w) else None.

(** The serialized form and the message with the cache; [None] when there is nothing to
    dereference. *)
Definition GetSerialized (m : CryptoHandshakeMessage) : option (list Z * CryptoHandshakeMessage) :=
  match hm_serialized_ m with
  | Some s => Some (s, m)
  | None => s ← ConstructHandshakeMessage m; Some (s, MkMessage (hm_tag_ m) (hm_tag_value_map_ m) (hm_minimum_size_ m) (Some s))
  end.

(** ** The parser *)

Inductive CryptoFramerState := STATE_READING_TAG | STATE_READING_NUM_ENTRIES | STATE_READING_TAGS_AND_LENGTHS | STATE_READING_VALUES.
Record CryptoFramer := MkCryptoFramer {
  cf_error_ : Z; cf_buffer_ : list Z; cf_state_ : CryptoFramerState; cf_message_ : CryptoHandshakeMessage;
  cf_num_entries_ : Z; cf_tags_and_lengths_ : list (Z * Z); cf_values_len_ : Z }.

Definition CryptoFramer_new : CryptoFramer := MkCryptoFramer QUIC_NO_ERROR [] STATE_READING_TAG CryptoHandshakeMessage_new 0 [] 0.
Definition cf_Clear (f : CryptoFramer) : CryptoFramer :=
  MkCryptoFramer QUIC_NO_ERROR (cf_buffer_ f) STATE_READING_TAG (hm_Clear (cf_message_ f)) (cf_num_entries_ f) [] (cf_values_len_ f).
Definition cf_set_error (f : CryptoFramer) (e : Z) : CryptoFramer :=
  MkCryptoFramer e (cf_buffer_ f) (cf_state_ f) (cf_message_ f) (cf_num_entries_ f) (cf_tags_and_lengths_ f) (cf_values_len_ f).
Definition cf_set_buffer (f : CryptoFramer) (b : list Z) : CryptoFramer :=
  MkCryptoFramer (cf_error_ f) b (cf_state_ f) (cf_message_ f) (cf_num_entries_ f) (cf_tags_and_lengths_ f) (cf_values_len_ f).
Definition cf_set_message (f : CryptoFramer) (s : CryptoFramerState) (m : CryptoHandshakeMessage) : CryptoFramer :=
  MkCryptoFramer (cf_error_ f) (cf_buffer_ f) s m (cf_num_entries_ f) (cf_tags_and_lengths_ f) (cf_values_len_ f).
Definition cf_set_entries (f : CryptoFramer) (s : CryptoFramerState) (n : Z) (tl : list (Z * Z)) (len : Z) : CryptoFramer :=
  MkCryptoFramer (cf_error_ f) (cf_buffer_ f) s (cf_message_ f) n tl len.

Definition InputBytesRemaining (f : CryptoFramer) : nat := length (cf_buffer_ f).

(** A read whose result is not tested; [d] stands for what is in the variable before. *)
Definition rd_or {A} (d : A) (m : Rd A) (r : QuicDataReader) : A * QuicDataReader := let '(x, r) := m r in (default d x, r).

Class CryptoFramerVisitor (V : Type) := {
  OnCryptoError : CryptoFramer -> V -> V;
  OnHandshakeMessage : CryptoHandshakeMessage -> V -> V }.

(** The loop over the [n] remaining entries, at index [i]: the error, the vector and the
    last end offset. *)
Fixpoint tags_loop (n i : nat) (tl : list (Z * Z)) (last_end_offset : Z) (r : QuicDataReader) : Z * list (Z * Z) * Z * QuicDataReader :=
  match n with
  | O => (QUIC_NO_ERROR, tl, last_end_offset, r)
  | S n =>
      let '(tag, r) := rd_or 0 ReadTag r in
      let previous := (nth (i - 1) tl (0, 0)).1 in
      if (0 <? i)%nat && (tag <=? previous) then
        (if tag =? previous then QUIC_CRYPTO_DUPLICATE_TAG else QUIC_CRYPTO_TAGS_OUT_OF_ORDER, tl, last_end_offset, r)
      else
        let '(end_offset, r) := rd_or 0 ReadUInt32 r in
        if end_offset <? last_end_offset then (QUIC_CRYPTO_TAGS_OUT_OF_ORDER, tl, last_end_offset, r)
        else tags_loop n (S i) (tl ++ [(tag, u32 (end_offset - last_end_offset))]) end_offset r
  end.
Fixpoint values_loop (tl : list (Z * Z)) (m : CryptoHandshakeMessage) (r : QuicDataReader) : CryptoHandshakeMessage * QuicDataReader :=
  match tl with
  | [] => (m, r)
  | (tag, len) :: tl => let '(value, r) := rd_or [] (ReadStringPiece (Z.to_nat len)) r in values_loop tl (SetStringPiece m tag value) r
  end.

Section Visitor.
Context {V : Type} `{CryptoFramerVisitor V}.

(** The cases of the switch, each falling through to the next; the result is the error
    and the framer, the reader and the visitor. *)
Definition read_values (f : CryptoFramer) (r : QuicDataReader) (v : V) : Z * CryptoFramer * QuicDataReader * V :=
  if Z.of_nat (BytesRemaining r) <? cf_values_len_ f then (QUIC_NO_ERROR, f, r, v)
  else
    let '(m, r) := values_loop (cf_tags_and_lengths_ f) (cf_message_ f) r in
    (QUIC_NO_ERROR, cf_Clear (cf_set_message f (cf_state_ f) m), r, OnHandshakeMessage m v).
Definition read_tags_and_lengths (f : CryptoFramer) (r : QuicDataReader) (v : V) : Z * CryptoFramer * QuicDataReader * V :=
  if Z.of_nat (BytesRemaining r) <? cf_num_entries_ f * Z.of_nat (kQuicTagSize + kCryptoEndOffsetSize) then (QUIC_NO_ERROR, f, r, v)
  else
    let '(error, tl, last_end_offset, r) := tags_loop (Z.to_nat (cf_num_entries_ f)) 0 (cf_tags_and_lengths_ f) 0 r in
    if negb (error =? QUIC_NO_ERROR) then (error, cf_set_entries f (cf_state_ f) (cf_num_entries_ f) tl (cf_values_len_ f), r, v)
    else read_values (cf_set_entries f STATE_READING_VALUES (cf_num_entries_ f) tl last_end_offset) r v.
Definition read_num_entries (f : CryptoFramer) (r : QuicDataReader) (v : V) : Z * CryptoFramer * QuicDataReader * V :=
  if (BytesRemaining r <? kNumEntriesSize + 2)%nat then (QUIC_NO_ERROR, f, r, v)
  else
    let '(n, r) := rd_or (cf_num_entries_ f) ReadUInt16 r in
    if Z.of_nat kMaxEntries <? n then (QUIC_CRYPTO_TOO_MANY_ENTRIES, cf_set_entries f (cf_state_ f) n (cf_tags_and_lengths_ f) (cf_values_len_ f), r, v)
    else
      let '(_, r) := rd_or 0 ReadUInt16 r in
      read_tags_and_lengths (cf_set_entries f STATE_READING_TAGS_AND_LENGTHS n (cf_tags_and_lengths_ f) 0) r v.
Definition read_tag (f : CryptoFramer) (r : QuicDataReader) (v : V) : Z * CryptoFramer * QuicDataReader * V :=
  if (BytesRemaining r <? kQuicTagSize)%nat then (QUIC_NO_ERROR, f, r, v)
  else
    let '(tag, r) := rd_or 0 ReadTag r in
    read_num_entries (cf_set_message f STATE_READING_NUM_ENTRIES (set_tag (cf_message_ f) tag)) r v.

Definition cf_Process (f : CryptoFramer) (input : list Z) (v : V) : Z * CryptoFramer * V :=
  let f := cf_set_buffer f (cf_buffer_ f ++ input) in
  let r := MkReader (cf_buffer_ f) 0 HOST_BYTE_ORDER in
  let '(error, f, r, v) :=
    match cf_state_ f with
    | STATE_READING_TAG => read_tag f r v
    | STATE_READING_NUM_ENTRIES => read_num_entries f r v
    | STATE_READING_TAGS_AND_LENGTHS => read_tags_and_lengths f r v
    | STATE_READING_VALUES => read_values f r v
    end in
  (error, if error =? QUIC_NO_ERROR then cf_set_buffer f (PeekRemainingPayload r) else f, v).

Definition ProcessInput (f : CryptoFramer) (input : list Z) (v : V) : bool * CryptoFramer * V :=
  if negb (cf_error_ f =? QUIC_NO_ERROR) then (false, f, v)
  else
    let '(error, f, v) := cf_Process f input v in
    let f := cf_set_error f error in
    if negb (error =? QUIC_NO_ERROR) then (false, f, OnCryptoError f v) else (true, f, v).
End Visitor.

(** [OneShotVisitor]: whether there was an error, and the last message. *)
Definition OneShotVisitor : Type := bool * option CryptoHandshakeMessage.
#[local] Instance OneShotVisitor_visitor : CryptoFramerVisitor OneShotVisitor := {
  OnCryptoError _ v := (true, v.2);
  OnHandshakeMessage m v := (v.1, Some (CryptoHandshakeMessage_copy m)) }.
Definition ParseMessage (input : list Z) : option CryptoHandshakeMessage :=
  let '(ok, f, v) := ProcessInput CryptoFramer_new input (false, None) in
  if negb ok || v.1 || negb (InputBytesRemaining f =? 0)%nat then None else v.2.
End CryptoFramer.

(** ** The specification: reading a message in one go *)

Inductive parsed := Incomplete | Malformed (error : Z) | Complete (m : CryptoHandshakeMessage) (rest : list Z).

Section Spec.
Context `{host : HostOrder}.

Fixpoint decode_index (n : nat) (bs : list Z) : list (Z * Z) :=
  match n with O => [] | S n => (mem_value (take 4 bs), mem_value (take 4 (drop 4 bs))) :: decode_index n (drop 8 bs) end.
(** Tags rise strictly and end offsets do not fall; the lengths are their differences. *)
Fixpoint check_index (prev : option Z) (last : Z) (index : list (Z * Z)) : Z + list (Z * Z) * Z :=
  match index with
  | [] => inr ([], last)
  | (tag, end_offset) :: index =>
      if bool_decide (prev = Some tag) then inl QUIC_CRYPTO_DUPLICATE_TAG
      else if match prev with Some p => tag <? p | None => false end then inl QUIC_CRYPTO_TAGS_OUT_OF_ORDER
      else if end_offset <? last then inl QUIC_CRYPTO_TAGS_OUT_OF_ORDER
      else match check_index (Some tag) end_offset index with
           | inl e => inl e
           | inr (tl, len) => inr ((tag, end_offset - last) :: tl, len)
           end
  end.
Fixpoint split_values (tl : list (Z * Z)) (bs : list Z) : QuicTagValueMap :=
  match tl with [] => [] | (tag, len) :: tl => (tag, take (Z.to_nat len) bs) :: split_values tl (drop (Z.to_nat len) bs) end.

Definition parse_values (tag : Z) (tl : list (Z * Z)) (len : Z) (bs : list Z) : parsed :=
  if Z.of_nat (length bs) <? len then Incomplete else Complete (MkMessage tag (split_values tl bs) 0 None) (drop (Z.to_nat len) bs).
Definition parse_index (tag n : Z) (bs : list Z) : parsed :=
  if Z.of_nat (length bs) <? n * 8 then Incomplete
  else match check_index None 0 (decode_index (Z.to_nat n) bs) with
       | inl e => Malformed e
       | inr (tl, len) => parse_values tag tl len (drop (Z.to_nat (n * 8)) bs)
       end.
Definition parse_count (tag : Z) (bs : list Z) : parsed :=
  if (length bs <? 4)%nat then Incomplete
  else let n := mem_value (take 2 bs) in if 128 <? n then Malformed QUIC_CRYPTO_TOO_MANY_ENTRIES else parse_index tag n (drop 4 bs).
Definition parse_message (bs : list Z) : parsed :=
  if (length bs <? 4)%nat then Incomplete else parse_count (mem_value (take 4 bs)) (drop 4 bs).

(** ** Readers by what is left to read *)

Definition at_payload (r : QuicDataReader) (l : list Z) : Prop :=
  PeekRemainingPayload r = l /\ (dr_pos_ r <= dr_len_ r)%nat /\ dr_endianness_ r = HOST_BYTE_ORDER.

Lemma at_payload_new l : at_payload (MkReader l 0 HOST_BYTE_ORDER) l.
Proof. unfold at_payload, PeekRemainingPayload, BytesRemaining, dr_len_. simpl. rewrite Nat.sub_0_r, firstn_all. split; [done|]. split; [lia|done]. Qed.

Lemma at_payload_remaining r l : at_payload r l -> BytesRemaining r = length l.
Proof. intros (<- & Hp & _). unfold PeekRemainingPayload, BytesRemaining, dr_len_ in *. rewrite length_take, length_drop. lia. Qed.

Lemma read_raw {A} (g : list Z -> A) d r l n : at_payload r l -> (n <= length l)%nat ->
  exists r', rd_or d (rd_bind (ReadBytes n) (fun bs => rd_ret (g bs))) r = (g (take n l), r') /\ at_payload r' (drop n l).
Proof.
  intros Hr Hn. pose proof (at_payload_remaining r l Hr) as Hb. destruct Hr as (<- & Hp & He). unfold BytesRemaining in Hb.
  exists (MkReader (dr_data_ r) (dr_pos_ r + n) (dr_endianness_ r)). unfold rd_or, rd_bind, ReadBytes, CanRead. rewrite (proj2 (Nat.leb_le n _)) by lia. simpl.
  assert (take (dr_len_ r - dr_pos_ r) (drop (dr_pos_ r) (dr_data_ r)) = drop (dr_pos_ r) (dr_data_ r)) as Hall by (apply take_ge; unfold dr_len_; rewrite length_drop; lia).
  unfold at_payload, PeekRemainingPayload, BytesRemaining in *. rewrite Hall. split; [done|]. split; [|split; [simpl; unfold dr_len_ in *; simpl; lia|done]].
  simpl. rewrite drop_drop. apply take_ge. unfold dr_len_. simpl. rewrite length_drop. lia.
Qed.

Lemma read_tag_payload d r l : at_payload r l -> (4 <= length l)%nat ->
  exists r', rd_or d ReadTag r = (mem_value (take 4 l), r') /\ at_payload r' (drop 4 l).
Proof. apply read_raw. Qed.
Lemma read_u16_payload d r l : at_payload r l -> (2 <= length l)%nat ->
  exists r', rd_or d ReadUInt16 r = (mem_value (take 2 l), r') /\ at_payload r' (drop 2 l).
Proof. intros Hr Hn. unfold rd_or, ReadUInt16. rewrite (proj2 (proj2 Hr)). by apply (read_raw mem_value). Qed.
Lemma read_u32_payload d r l : at_payload r l -> (4 <= length l)%nat ->
  exists r', rd_or d ReadUInt32 r = (mem_value (take 4 l), r') /\ at_payload r' (drop 4 l).
Proof. intros Hr Hn. unfold rd_or, ReadUInt32. rewrite (proj2 (proj2 Hr)). by apply (read_raw mem_value). Qed.
Lemma read_piece_payload d r l n : at_payload r l -> (n <= length l)%nat ->
  exists r', rd_or d (ReadStringPiece n) r = (take n l, r') /\ at_payload r' (drop n l).
Proof.
  intros Hr Hn. destruct (read_raw id d r l n Hr Hn) as (r' & E & Hr'). exists r'. split; [|done].
  revert E. unfold rd_or, rd_bind, ReadBytes, ReadStringPiece. by destruct (CanRead r n).
Qed.

(** ** The index *)

Lemma le_value_range bs : Forall is_octet bs -> 0 <= le_value bs < 256 ^ Z.of_nat (length bs).
Proof.
  unfold is_octet. induction 1 as [|b bs Hb _ IH]; [simpl; lia|]. cbn [le_value length]. rewrite Nat2Z.inj_succ, Z.pow_succ_r by lia. lia.
Qed.
Lemma mem_value_range bs n : Forall is_octet bs -> (length bs <= n)%nat -> 0 <= mem_value bs < 256 ^ Z.of_nat n.
Proof.
  intros Hb Hn. assert (256 ^ Z.of_nat (length bs) <= 256 ^ Z.of_nat n) by (apply Z.pow_le_mono_r; lia). unfold mem_value. destruct HostIsLittleEndian.
  - pose proof (le_value_range bs Hb). lia.
  - pose proof (le_value_range (rev bs) (rev_octets bs Hb)) as H1. rewrite length_rev in H1. lia.
Qed.

(** The tag before, from the vector. *)
Definition last_tag (tl : list (Z * Z)) : option Z := fst <$> list.last tl.

Lemma previous_tag tl tag :
  (0 <? length tl)%nat && (tag <=? (nth (length tl - 1) tl (0, 0)).1) = match last_tag tl with Some p => tag <=? p | None => false end /\
  (forall p, last_tag tl = Some p -> (nth (length tl - 1) tl (0, 0)).1 = p).
Proof.
  unfold last_tag. destruct tl as [|x tl _] using rev_ind; [done|]. rewrite last_snoc, length_app, Nat.add_comm. simpl. rewrite Nat.sub_0_r, nth_middle.
  split; [done|]. by intros p [= ->].
Qed.

Lemma tags_loop_check n r l tl last : at_payload r l -> Forall is_octet l -> (8 * n <= length l)%nat -> 0 <= last < 2 ^ 32 ->
  match check_index (last_tag tl) last (decode_index n l) with
  | inl e => e <> QUIC_NO_ERROR /\ exists tl' last' r', tags_loop n (length tl) tl last r = (e, tl', last', r')
  | inr (tl', len) => exists r', tags_loop n (length tl) tl last r = (QUIC_NO_ERROR, tl ++ tl', len, r') /\ at_payload r' (drop (8 * n) l)
  end.
Proof.
  revert r l tl last. induction n as [|n IH]; intros r l tl last Hr Ho Hn Hl; cbn [decode_index check_index tags_loop].
  { exists r. by rewrite app_nil_r. }
  destruct (read_tag_payload 0 r l Hr ltac:(lia)) as (r1 & -> & Hr1). set (tag := mem_value (take 4 l)).
  destruct (previous_tag tl tag) as [-> Hprev].
  destruct (match last_tag tl with Some p => tag <=? p | None => false end) eqn:Hbad.
  { destruct (last_tag tl) as [p|]; [|done]. rewrite (Hprev p eq_refl). apply Z.leb_le in Hbad. destruct (Z.eqb_spec tag p) as [->|].
    - rewrite bool_decide_eq_true_2 by done. split; [done|eauto].
    - rewrite bool_decide_eq_false_2 by congruence. rewrite (proj2 (Z.ltb_lt tag p)) by lia. split; [done|eauto]. }
  rewrite bool_decide_eq_false_2 by (intros E; rewrite E in Hbad; apply Z.leb_gt in Hbad; lia).
  replace (match last_tag tl with Some p => tag <? p | None => false end) with false by (destruct (last_tag tl); [apply Z.leb_gt in Hbad; symmetry; apply Z.ltb_ge; lia|done]).
  destruct (read_u32_payload 0 r1 (drop 4 l) Hr1) as (r2 & -> & Hr2); [rewrite length_drop; lia|]. set (end_offset := mem_value (take 4 (drop 4 l))).
  assert (0 <= end_offset < 256 ^ Z.of_nat 4) as He by (apply mem_value_range; [by apply Forall_take, Forall_drop|rewrite length_take; lia]).
  destruct (Z.ltb_spec end_offset last); [split; [done|eauto]|]. rewrite drop_drop in Hr2. change (4 + 4)%nat with 8%nat in Hr2.
  specialize (IH r2 (drop 8 l) (tl ++ [(tag, u32 (end_offset - last))]) end_offset Hr2 ltac:(by apply Forall_drop) ltac:(rewrite length_drop; lia) He).
  assert (u32 (end_offset - last) = end_offset - last) as Hu by (apply wrapU_id; lia).
  unfold last_tag in IH at 1. rewrite last_snoc in IH. cbn [fmap option_fmap option_map fst] in IH. rewrite length_app, Nat.add_1_r, Hu in IH. rewrite Hu.
  destruct (check_index (Some tag) end_offset _) as [e|[tl' len]]; [done|]. destruct IH as (r' & -> & Hr'). exists r'. rewrite <- app_assoc. split; [done|].
  rewrite drop_drop in Hr'. by replace (8 * S n)%nat with (8 + 8 * n)%nat by lia.
Qed.

Fixpoint lengths_sum (tl : list (Z * Z)) : Z := match tl with [] => 0 | e :: tl => e.2 + lengths_sum tl end.
(** What an index that passes the check says. *)
Lemma check_index_ok prev last index tl len : check_index prev last index = inr (tl, len) -> 0 <= last ->
  StronglySorted Z.lt tl.*1 /\ (forall p, prev = Some p -> Forall (fun t => p < t) tl.*1) /\
  Forall (fun e => 0 <= e.2) tl /\ len = last + lengths_sum tl.
Proof.
  revert prev last tl len. induction index as [|[tag e] index IH]; intros prev last tl len E Hl; simpl in E.
  { simplify_eq/=. split; [constructor|]. split; [by intros|]. split; [constructor|lia]. }
  case_bool_decide as Hd; [done|]. destruct (match prev with Some p => tag <? p | None => false end) eqn:Hb; [done|].
  destruct (Z.ltb_spec e last); [done|]. destruct (check_index (Some tag) e index) as [|[tl' len']] eqn:Ec; [done|]. simplify_eq.
  destruct (IH _ _ _ _ Ec ltac:(lia)) as (S1 & S2 & S3 & ->). specialize (S2 tag eq_refl). simpl. split; [by constructor|].
  split; [|split; [constructor; [simpl; lia|done]|lia]]. intros p ->. apply Z.ltb_ge in Hb. assert (p < tag) by (destruct (decide (p = tag)); [congruence|lia]).
  constructor; [done|]. eapply Forall_impl; [exact S2|]. simpl. lia.
Qed.

Lemma values_loop_split tl m r l : at_payload r l -> Forall (fun e => 0 <= e.2) tl -> lengths_sum tl <= Z.of_nat (length l) ->
  StronglySorted Z.lt tl.*1 -> Forall (fun x => Forall (fun t => x < t) tl.*1) (hm_tag_value_map_ m).*1 ->
  exists r', values_loop tl m r = (hm_set_map m (hm_tag_value_map_ m ++ split_values tl l), r') /\ at_payload r' (drop (Z.to_nat (lengths_sum tl)) l).
Proof.
  revert m r l. induction tl as [|[tag len] tl IH]; intros m r l Hr Hp Hs Hso Hk; simpl in *.
  { exists r. rewrite app_nil_r. by destruct m. }
  apply Forall_cons in Hp as [Hp0 Hp]. simpl in Hp0. apply StronglySorted_inv in Hso as [Hso Hf].
  assert (0 <= lengths_sum tl) as Hnn by (clear -Hp; induction Hp; simpl; lia).
  destruct (read_piece_payload [] r l (Z.to_nat len) Hr ltac:(lia)) as (r1 & -> & Hr1).
  destruct (IH (SetStringPiece m tag (take (Z.to_nat len) l)) r1 (drop (Z.to_nat len) l) Hr1) as (r' & -> & Hr'); [done|rewrite length_drop; lia|done| |].
  - apply Forall_forall. simpl. intros x Hx%tag_set_keys. destruct Hx as [->|Hx]; [done|]. rewrite Forall_forall in Hk. specialize (Hk x Hx). by apply Forall_cons in Hk as [_ Hk].
  - exists r'. split.
    + f_equal. unfold SetStringPiece, hm_set_map. simpl. rewrite tag_set_last; [by rewrite <- app_assoc|].
      eapply Forall_impl; [exact Hk|]. intros x Hx. by apply Forall_cons in Hx as [? _].
    + rewrite drop_drop in Hr'. by replace (Z.to_nat (len + _)) with (Z.to_nat len + Z.to_nat (lengths_sum tl))%nat by lia.
Qed.

Lemma decode_index_app n l c : (8 * n <= length l)%nat -> decode_index n (l ++ c) = decode_index n l.
Proof.
  revert l. induction n as [|n IH]; intros l Hn; [done|]. cbn [decode_index]. rewrite take_app_le by lia.
  rewrite !drop_app_le by lia. rewrite take_app_le by (rewrite length_drop; lia). rewrite IH; [done|]. rewrite length_drop. lia.
Qed.

(** ** Resumption *)

(** The count of entries in a message that has begun with [p]. *)
Definition count_of (p : list Z) : Z := mem_value (take 2 (drop 4 p)).

(** A framer between two calls, when [p] has arrived since the start of the message: it has
    read as much of [p] as its state says and holds the rest. *)
Definition resumes (f : CryptoFramer) (p : list Z) : Prop :=
  cf_error_ f = QUIC_NO_ERROR /\ Forall is_octet p /\
  match cf_state_ f with
  | STATE_READING_TAG => cf_buffer_ f = p /\ cf_message_ f = CryptoHandshakeMessage_new /\ cf_tags_and_lengths_ f = []
  | STATE_READING_NUM_ENTRIES => (4 <= length p)%nat /\ cf_buffer_ f = drop 4 p /\ cf_message_ f = MkMessage (mem_value (take 4 p)) [] 0 None /\ cf_tags_and_lengths_ f = []
  | STATE_READING_TAGS_AND_LENGTHS => (8 <= length p)%nat /\ cf_buffer_ f = drop 8 p /\ cf_message_ f = MkMessage (mem_value (take 4 p)) [] 0 None /\
      cf_tags_and_lengths_ f = [] /\ cf_num_entries_ f = count_of p /\ count_of p <= 128
  | STATE_READING_VALUES => let n := Z.to_nat (count_of p) in
      (8 + 8 * n <= length p)%nat /\ cf_buffer_ f = drop (8 + 8 * n) p /\ cf_message_ f = MkMessage (mem_value (take 4 p)) [] 0 None /\ count_of p <= 128 /\
      check_index None 0 (decode_index n (drop 8 p)) = inr (cf_tags_and_lengths_ f, cf_values_len_ f)
  end.

Lemma count_of_nonneg p : Forall is_octet p -> 0 <= count_of p.
Proof. intros Hp. apply (mem_value_range _ 2); [by apply Forall_take, Forall_drop|]. rewrite length_take. lia. Qed.

Lemma resumes_more f p c : resumes f p -> Forall is_octet c -> resumes (cf_set_buffer f (cf_buffer_ f ++ c)) (p ++ c).
Proof.
  intros (He & Hp & Hs) Hc. split; [done|]. split; [by apply Forall_app|]. simpl. unfold count_of in *. destruct (cf_state_ f).
  - destruct Hs as (-> & ? & ?). done.
  - destruct Hs as (? & -> & -> & ?). rewrite length_app, take_app_le, drop_app_le by lia. split_and!; [lia|done..].
  - destruct Hs as (? & -> & -> & ? & -> & ?). rewrite length_app, take_app_le, !drop_app_le by lia. rewrite take_app_le by (rewrite length_drop; lia). split_and!; [lia|done..].
  - destruct Hs as (Hl & -> & -> & ? & Hi). rewrite length_app, take_app_le, !(drop_app_le _ _ 4), !(drop_app_le _ _ 8) by lia.
    rewrite take_app_le by (rewrite length_drop; lia). rewrite decode_index_app by (rewrite length_drop; lia). rewrite drop_app_le by lia. split_and!; [lia|done..].
Qed.

Section Stages.
Context {V : Type} `{CryptoFramerVisitor V}.

(** What a call does, against reading the message from its start. *)
Definition outcome (p : list Z) (v : V) (x : parsed) (res : Z * CryptoFramer * QuicDataReader * V) : Prop :=
  match x with
  | Incomplete => exists f r, res = (QUIC_NO_ERROR, f, r, v) /\ resumes (cf_set_buffer f (PeekRemainingPayload r)) p
  | Malformed e => e <> QUIC_NO_ERROR /\ exists f r, res = (e, f, r, v)
  | Complete m rest => exists f r, res = (QUIC_NO_ERROR, f, r, OnHandshakeMessage m v) /\ cf_state_ f = STATE_READING_TAG /\
      resumes (cf_set_buffer f (PeekRemainingPayload r)) rest
  end.

Lemma read_values_outcome f p r v : resumes (cf_set_buffer f (PeekRemainingPayload r)) p -> cf_state_ f = STATE_READING_VALUES ->
  at_payload r (PeekRemainingPayload r) ->
  outcome p v (parse_values (mem_value (take 4 p)) (cf_tags_and_lengths_ f) (cf_values_len_ f) (PeekRemainingPayload r)) (read_values f r v).
Proof.
  intros Hf Hs Hr. unfold read_values, parse_values. rewrite (at_payload_remaining _ _ Hr). destruct (Z.ltb_spec (Z.of_nat (length (PeekRemainingPayload r))) (cf_values_len_ f)).
  { exists f, r. done. }
  destruct Hf as (He & Hp & Hst). simpl in Hst. rewrite Hs in Hst. destruct Hst as (Hl & Hb & Hm & Hn & Hi).
  destruct (check_index_ok _ _ _ _ _ Hi ltac:(lia)) as (S1 & _ & S3 & S4). rewrite Z.add_0_l in S4.
  destruct (values_loop_split (cf_tags_and_lengths_ f) (cf_message_ f) r _ Hr S3) as (r' & -> & Hr'); [lia|done|rewrite Hm; constructor|].
  rewrite Hm. exists (cf_Clear (cf_set_message f (cf_state_ f) (MkMessage (mem_value (take 4 p)) (split_values (cf_tags_and_lengths_ f) (PeekRemainingPayload r)) 0 None))), r'.
  split; [done|]. split; [done|]. rewrite S4. destruct Hr' as (-> & _). split; [done|]. split; [|done]. apply Forall_drop. rewrite Hb. by apply Forall_drop.
Qed.

Lemma read_tags_outcome f p r v : resumes (cf_set_buffer f (PeekRemainingPayload r)) p -> cf_state_ f = STATE_READING_TAGS_AND_LENGTHS ->
  at_payload r (PeekRemainingPayload r) -> outcome p v (parse_index (mem_value (take 4 p)) (count_of p) (drop 8 p)) (read_tags_and_lengths f r v).
Proof.
  intros Hf Hs Hr. pose proof Hf as (He & Hp & Hst). simpl in Hst. rewrite Hs in Hst. destruct Hst as (Hl & Hb & Hm & Ht & Hn & Hc). simpl in *.
  unfold read_tags_and_lengths, parse_index. rewrite (at_payload_remaining _ _ Hr), Hb, Hn. change (Z.of_nat (kQuicTagSize + kCryptoEndOffsetSize)) with 8.
  destruct (Z.ltb_spec (Z.of_nat (length (drop 8 p))) (count_of p * 8)); [exists f, r; done|]. pose proof (count_of_nonneg p Hp) as Hnn. rewrite Hb in Hr.
  pose proof (tags_loop_check (Z.to_nat (count_of p)) r (drop 8 p) [] 0 Hr ltac:(by apply Forall_drop) ltac:(lia) ltac:(lia)) as Hcheck. rewrite Ht. change (length []) with 0%nat in Hcheck.
  change (last_tag []) with (@None Z) in Hcheck. destruct (check_index None 0 _) as [e|[tl len]] eqn:Ec.
  - destruct Hcheck as (Hne & tl' & last' & r' & ->). rewrite (proj2 (Z.eqb_neq e QUIC_NO_ERROR) Hne). split; [done|]. eauto.
  - destruct Hcheck as (r' & -> & Hr'). simpl. replace (Z.to_nat (count_of p * 8)) with (8 * Z.to_nat (count_of p))%nat by lia.
    pose proof (proj1 Hr') as Hpeek. rewrite <- Hpeek. rewrite length_drop in *.
    pose proof (read_values_outcome (cf_set_entries f STATE_READING_VALUES (count_of p) tl len) p r' v) as Hv. simpl in Hv. apply Hv; [|done|by rewrite Hpeek].
    split; [done|]. split; [done|]. simpl. rewrite Hpeek, drop_drop. split_and!; [lia|done..].
Qed.

Lemma read_num_outcome f p r v : resumes (cf_set_buffer f (PeekRemainingPayload r)) p -> cf_state_ f = STATE_READING_NUM_ENTRIES ->
  at_payload r (PeekRemainingPayload r) -> outcome p v (parse_count (mem_value (take 4 p)) (drop 4 p)) (read_num_entries f r v).
Proof.
  intros Hf Hs Hr. pose proof Hf as (He & Hp & Hst). simpl in Hst. rewrite Hs in Hst. destruct Hst as (Hl & Hb & Hm & Ht). simpl in *.
  unfold read_num_entries, parse_count. rewrite (at_payload_remaining _ _ Hr), Hb. change (kNumEntriesSize + 2)%nat with 4%nat.
  destruct (Nat.ltb_spec (length (drop 4 p)) 4); [exists f, r; done|]. rewrite Hb in Hr. rewrite length_drop in *.
  destruct (read_u16_payload (cf_num_entries_ f) r (drop 4 p) Hr) as (r1 & -> & Hr1); [rewrite length_drop; lia|]. fold (count_of p).
  change (Z.of_nat kMaxEntries) with 128. destruct (Z.ltb_spec 128 (count_of p)); [split; [done|]; eauto|].
  destruct (read_u16_payload 0 r1 (drop 2 (drop 4 p)) Hr1) as (r2 & -> & Hr2); [rewrite !length_drop; lia|]. rewrite !drop_drop in *.
  change (4 + 2 + 2)%nat with 8%nat in Hr2. change (4 + 4)%nat with 8%nat. pose proof (proj1 Hr2) as Hpeek.
  apply read_tags_outcome; [|done|by rewrite Hpeek]. split; [done|]. split; [done|]. simpl. split_and!; [lia|done..].
Qed.

Lemma read_tag_outcome f p r v : resumes (cf_set_buffer f (PeekRemainingPayload r)) p -> cf_state_ f = STATE_READING_TAG ->
  at_payload r (PeekRemainingPayload r) -> outcome p v (parse_message p) (read_tag f r v).
Proof.
  intros Hf Hs Hr. pose proof Hf as (He & Hp & Hst). simpl in Hst. rewrite Hs in Hst. destruct Hst as (Hb & Hm & Ht). simpl in *.
  unfold read_tag, parse_message. rewrite (at_payload_remaining _ _ Hr), Hb. change kQuicTagSize with 4%nat.
  destruct (Nat.ltb_spec (length p) 4); [exists f, r; done|]. rewrite Hb in Hr. destruct (read_tag_payload 0 r p Hr) as (r1 & -> & Hr1); [lia|].
  pose proof (proj1 Hr1) as Hpeek. apply read_num_outcome; [|done|by rewrite Hpeek]. split; [done|]. split; [done|]. simpl. rewrite Hm. split_and!; [lia|done..].
Qed.

Lemma parse_skip_tag p : (4 <= length p)%nat -> parse_message p = parse_count (mem_value (take 4 p)) (drop 4 p).
Proof. intros Hl. unfold parse_message. by rewrite (proj2 (Nat.ltb_ge _ _)). Qed.
Lemma parse_skip_count p : (8 <= length p)%nat -> count_of p <= 128 -> parse_message p = parse_index (mem_value (take 4 p)) (count_of p) (drop 8 p).
Proof.
  intros Hl Hc. rewrite parse_skip_tag by lia. unfold parse_count. rewrite length_drop, (proj2 (Nat.ltb_ge _ _)) by lia.
  fold (count_of p). by rewrite (proj2 (Z.ltb_ge _ _)), drop_drop by lia.
Qed.
Lemma parse_skip_index p tl len : Forall is_octet p -> (8 + 8 * Z.to_nat (count_of p) <= length p)%nat -> count_of p <= 128 ->
  check_index None 0 (decode_index (Z.to_nat (count_of p)) (drop 8 p)) = inr (tl, len) ->
  parse_message p = parse_values (mem_value (take 4 p)) tl len (drop (8 + 8 * Z.to_nat (count_of p)) p).
Proof.
  intros Hp Hl Hc Hi. pose proof (count_of_nonneg p Hp). rewrite parse_skip_count by lia. unfold parse_index. rewrite length_drop, (proj2 (Z.ltb_ge _ _)), Hi by lia.
  rewrite drop_drop. by replace (Z.to_nat (count_of p * 8)) with (8 * Z.to_nat (count_of p))%nat by lia.
Qed.

(** A call in any state is reading again from the start of the message. *)
Lemma Process_parse f p c v : resumes f p -> Forall is_octet c ->
  match parse_message (p ++ c) with
  | Incomplete => exists f', cf_Process f c v = (QUIC_NO_ERROR, f', v) /\ resumes f' (p ++ c)
  | Malformed e => e <> QUIC_NO_ERROR /\ exists f', cf_Process f c v = (e, f', v)
  | Complete m rest => exists f', cf_Process f c v = (QUIC_NO_ERROR, f', OnHandshakeMessage m v) /\ resumes f' rest /\ cf_buffer_ f' = rest
  end.
Proof.
  intros Hf Hc. pose proof (resumes_more f p c Hf Hc) as Hf'. unfold cf_Process. cbn zeta. set (g := cf_set_buffer f (cf_buffer_ f ++ c)) in *.
  pose proof (at_payload_new (cf_buffer_ g)) as Hr. set (r := MkReader (cf_buffer_ g) 0 HOST_BYTE_ORDER) in *. pose proof (proj1 Hr) as Hpeek.
  assert (cf_set_buffer g (PeekRemainingPayload r) = g) as Hg by (rewrite Hpeek; by destruct f). rewrite <- Hpeek in Hr.
  assert (outcome (p ++ c) v (parse_message (p ++ c)) match cf_state_ g with
    | STATE_READING_TAG => read_tag g r v | STATE_READING_NUM_ENTRIES => read_num_entries g r v
    | STATE_READING_TAGS_AND_LENGTHS => read_tags_and_lengths g r v | STATE_READING_VALUES => read_values g r v end) as Hout.
  { rewrite <- Hg in Hf'. pose proof Hf' as (_ & Hp & Hst). rewrite Hg in Hst. destruct (cf_state_ g) eqn:Hs.
    - by apply read_tag_outcome.
    - destruct Hst as (Hl & _). rewrite parse_skip_tag by done. by apply read_num_outcome.
    - destruct Hst as (Hl & _ & _ & _ & _ & Hn). rewrite parse_skip_count by done. by apply read_tags_outcome.
    - destruct Hst as (Hl & Hb & _ & Hn & Hi). rewrite (parse_skip_index _ _ _ Hp Hl Hn Hi), <- Hb, <- Hpeek. by apply read_values_outcome. }
  destruct (parse_message (p ++ c)) as [|e|m rest]; unfold outcome in Hout.
  - destruct Hout as (f1 & r1 & -> & Hr1). eauto.
  - destruct Hout as (Hne & f1 & r1 & ->). split; [done|]. rewrite (proj2 (Z.eqb_neq e QUIC_NO_ERROR) Hne). eauto.
  - destruct Hout as (f1 & r1 & -> & Hst & Hr1). exists (cf_set_buffer f1 (PeekRemainingPayload r1)). split; [done|]. split; [done|].
    destruct Hr1 as (_ & _ & Hx). simpl in *. rewrite Hst in Hx. apply Hx.
Qed.
End Stages.

(** ** More input *)

Lemma split_values_app tl l c : Forall (fun e => 0 <= e.2) tl -> lengths_sum tl <= Z.of_nat (length l) -> split_values tl (l ++ c) = split_values tl l.
Proof.
  revert l. induction tl as [|[tag len] tl IH]; intros l Hp Hs; [done|]. apply Forall_cons in Hp as [Hp0 Hp]. simpl in *.
  assert (0 <= lengths_sum tl) by (clear -Hp; induction Hp; simpl; lia).
  rewrite take_app_le, drop_app_le by lia. rewrite IH; [done|done|]. rewrite length_drop. lia.
Qed.

(** A result once there does not change with what follows. *)
Lemma parse_message_mono p c : Forall is_octet p ->
  match parse_message p with
  | Incomplete => True
  | Malformed e => parse_message (p ++ c) = Malformed e
  | Complete m rest => parse_message (p ++ c) = Complete m (rest ++ c)
  end.
Proof.
  intros Hp. pose proof (count_of_nonneg p Hp) as Hnn. destruct (decide (length p < 8)%nat) as [|Hl].
  { unfold parse_message, parse_count. destruct (Nat.ltb_spec (length p) 4); [done|]. rewrite length_drop, (proj2 (Nat.ltb_lt _ _)) by lia. done. }
  assert (forall q, (8 <= length q)%nat -> parse_message q = if 128 <? count_of q then Malformed QUIC_CRYPTO_TOO_MANY_ENTRIES else parse_index (mem_value (take 4 q)) (count_of q) (drop 8 q)) as Hstart.
  { intros q Hq. rewrite parse_skip_tag by lia. unfold parse_count. by rewrite length_drop, (proj2 (Nat.ltb_ge _ _)), drop_drop by lia. }
  rewrite !Hstart by (rewrite ?length_app; lia). unfold count_of in *. rewrite !drop_app_le, !take_app_le by (rewrite ?length_drop; lia).
  fold (count_of p) in *. destruct (128 <? count_of p); [done|]. unfold parse_index. rewrite length_app.
  destruct (Z.ltb_spec (Z.of_nat (length (drop 8 p))) (count_of p * 8)); [done|].
  rewrite (proj2 (Z.ltb_ge _ _)) by lia. rewrite decode_index_app by lia. destruct (check_index None 0 _) as [|[tl len]] eqn:Ec; [done|].
  destruct (check_index_ok _ _ _ _ _ Ec ltac:(lia)) as (_ & _ & S3 & S4). rewrite Z.add_0_l in S4. unfold parse_values.
  rewrite drop_app_le by lia. set (l := drop (Z.to_nat (count_of p * 8)) (drop 8 p)). destruct (Z.ltb_spec (Z.of_nat (length l)) len); [done|].
  rewrite length_app, (proj2 (Z.ltb_ge _ _)), split_values_app, drop_app_le by (done || lia). done.
Qed.

(** ** Writing *)

Fixpoint index_bytes (start : Z) (m : QuicTagValueMap) : list Z :=
  match m with [] => [] | (tag, value) :: m => let e := start + Z.of_nat (length value) in mem_bytes 4 tag ++ mem_bytes 4 e ++ index_bytes e m end.
Definition values_bytes (m : QuicTagValueMap) : list Z := concat m.*2.
(** The entries as they are sent, with the padding in its place. *)
Definition padded (m : CryptoHandshakeMessage) : QuicTagValueMap :=
  if needs_pad m then tag_set kPAD (replicate (pad_length_of m) 45) (hm_tag_value_map_ m) else hm_tag_value_map_ m.
Definition message_bytes (tag : Z) (m : QuicTagValueMap) : list Z :=
  mem_bytes 4 tag ++ mem_bytes 2 (Z.of_nat (length m)) ++ mem_bytes 2 0 ++ index_bytes 0 m ++ values_bytes m.

Lemma appends_repeated e b n : appends e (WriteRepeatedByte b n) (replicate n b).
Proof.
  intros w Hok <-. unfold WriteRepeatedByte, BeginWrite, dw_put. rewrite length_replicate. unfold dw_ok in Hok.
  destruct (Nat.leb_spec (dw_length_ w + n) (dw_capacity w)), (Nat.ltb_spec (dw_capacity w) (dw_length_ w)), (Nat.ltb_spec (dw_capacity w - dw_length_ w) n); try lia; done.
Qed.

Lemma appends_pad pad start : 0 <= start -> start + Z.of_nat pad < 2 ^ 32 ->
  appends HOST_BYTE_ORDER (WritePadTag pad start) (mem_bytes 4 kPAD ++ mem_bytes 4 (start + Z.of_nat pad)).
Proof.
  intros H0 H1. unfold WritePadTag. assert (u32 (start + Z.of_nat pad) = start + Z.of_nat pad) as -> by (apply wrapU_id; lia).
  apply appends_and; [apply appends_bytes|apply (appends_u32 HOST_BYTE_ORDER)].
Qed.

Lemma write_tags_plain es pad start : 0 <= start -> start + Z.of_nat (values_size es) < 2 ^ 32 ->
  appends HOST_BYTE_ORDER (write_tags es false pad start) (index_bytes start es).
Proof.
  revert start. induction es as [|[tag value] es IH]; intros start H0 H1; [apply appends_true|]. cbn [write_tags index_bytes]. rewrite !andb_false_r. simpl in H1.
  change (mem_bytes 4 tag ++ ?a ++ ?b) with ([] ++ mem_bytes 4 tag ++ a ++ b). apply appends_and; [apply appends_true|].
  assert (u32 (start + Z.of_nat (length value)) = start + Z.of_nat (length value)) as -> by (apply wrapU_id; lia).
  apply appends_and; [apply appends_bytes|]. apply appends_and; [apply (appends_u32 HOST_BYTE_ORDER)|]. apply IH; lia.
Qed.

Lemma write_tags_padded es pad start : kPAD ∉ es.*1 -> 0 <= start -> start + Z.of_nat (pad + values_size es) < 2 ^ 32 ->
  appends HOST_BYTE_ORDER (write_tags es true pad start) (index_bytes start (tag_set kPAD (replicate pad 45) es)).
Proof.
  revert start. induction es as [|[tag value] es IH]; intros start Hk H0 H1; cbn [write_tags tag_set].
  { cbn [index_bytes]. rewrite length_replicate, app_nil_r. apply appends_pad; simpl in H1; lia. }
  rewrite fmap_cons, not_elem_of_cons in Hk. destruct Hk as [Hne Hk]. cbn [fst] in Hne. simpl in H1. rewrite (proj2 (Z.eqb_neq tag kPAD)) by congruence. rewrite andb_false_l, andb_true_r.
  destruct (Z.gtb_spec tag kPAD).
  - rewrite (proj2 (Z.ltb_lt kPAD tag)) by lia. cbn [index_bytes negb andb]. rewrite length_replicate.
    assert (u32 (start + Z.of_nat pad) = start + Z.of_nat pad) as -> by (apply wrapU_id; lia).
    assert (u32 (start + Z.of_nat pad + Z.of_nat (length value)) = start + Z.of_nat pad + Z.of_nat (length value)) as -> by (apply wrapU_id; lia).
    rewrite app_assoc. apply appends_and; [apply appends_pad; lia|]. apply appends_and; [apply appends_bytes|]. apply appends_and; [apply (appends_u32 HOST_BYTE_ORDER)|]. apply write_tags_plain; lia.
  - rewrite (proj2 (Z.ltb_ge kPAD tag)) by lia. rewrite (proj2 (Z.eqb_neq kPAD tag)) by done. cbn [index_bytes negb andb].
    assert (u32 (start + Z.of_nat (length value)) = start + Z.of_nat (length value)) as -> by (apply wrapU_id; lia).
    change (mem_bytes 4 tag ++ ?a ++ ?b) with ([] ++ mem_bytes 4 tag ++ a ++ b). apply appends_and; [apply appends_true|].
    apply appends_and; [apply appends_bytes|]. apply appends_and; [apply (appends_u32 HOST_BYTE_ORDER)|]. apply IH; [done|lia..].
Qed.

Lemma write_values_plain es pad : appends HOST_BYTE_ORDER (write_values es false pad) (values_bytes es).
Proof.
  induction es as [|[tag value] es IH]; [apply appends_true|]. cbn [write_values]. rewrite andb_false_r. change (values_bytes ((tag, value) :: es)) with ([] ++ value ++ values_bytes es).
  apply appends_and; [apply appends_true|]. by apply appends_and; [apply appends_bytes|].
Qed.
Lemma write_values_padded es pad : kPAD ∉ es.*1 -> appends HOST_BYTE_ORDER (write_values es true pad) (values_bytes (tag_set kPAD (replicate pad 45) es)).
Proof.
  induction es as [|[tag value] es IH]; intros Hk; cbn [write_values tag_set].
  { unfold values_bytes. simpl. rewrite app_nil_r. apply appends_repeated. }
  rewrite fmap_cons, not_elem_of_cons in Hk. destruct Hk as [Hne Hk]. cbn [fst] in Hne. rewrite andb_true_r. destruct (Z.gtb_spec tag kPAD).
  - rewrite (proj2 (Z.ltb_lt kPAD tag)) by lia. apply appends_and; [apply appends_repeated|]. apply appends_and; [apply appends_bytes|apply write_values_plain].
  - rewrite (proj2 (Z.ltb_ge kPAD tag)) by lia. rewrite (proj2 (Z.eqb_neq kPAD tag)) by done. change (values_bytes ((tag, value) :: ?m)) with ([] ++ value ++ values_bytes m).
    apply appends_and; [apply appends_true|]. apply appends_and; [apply appends_bytes|by apply IH].
Qed.

(** Sizes. *)
Lemma tag_set_size tag value m : tag ∉ m.*1 -> length (tag_set tag value m) = S (length m) /\ values_size (tag_set tag value m) = (length value + values_size m)%nat.
Proof.
  unfold values_size. induction m as [|[t v] m IH]; intros Hk; simpl; [done|]. rewrite fmap_cons, not_elem_of_cons in Hk. destruct Hk as [Hne Hk]. cbn [fst] in Hne.
  destruct (tag <? t); [done|]. rewrite (proj2 (Z.eqb_neq tag t)) by done. simpl. destruct (IH Hk) as [-> ->]. lia.
Qed.
Lemma index_bytes_length start m : length (index_bytes start m) = (8 * length m)%nat.
Proof. revert start. induction m as [|[t v] m IH]; intros start; [done|]. cbn [index_bytes length]. rewrite !length_app, !mem_bytes_length, IH. lia. Qed.
Lemma values_bytes_length m : length (values_bytes m) = values_size m.
Proof. induction m as [|[t v] m IH]; [done|]. change (values_bytes ((t, v) :: m)) with (v ++ values_bytes m). rewrite length_app, IH. done. Qed.
Lemma message_bytes_length tag m : length (message_bytes tag m) = (8 + 8 * length m + values_size m)%nat.
Proof. unfold message_bytes. rewrite !length_app, !mem_bytes_length, index_bytes_length, values_bytes_length. lia. Qed.

(** Messages that can be sent: the map in order, and no padding where padding is needed. *)
Record sendable (m : CryptoHandshakeMessage) : Prop := {
  se_tag : fits 4 (hm_tag_ m);
  se_tags : Forall (fits 4) (hm_tag_value_map_ m).*1;
  se_sorted : tags_sorted (hm_tag_value_map_ m);
  se_octets : Forall (Forall is_octet) (hm_tag_value_map_ m).*2;
  se_pad : needs_pad m = true -> kPAD ∉ (hm_tag_value_map_ m).*1;
  se_count : (length (padded m) <= kMaxEntries)%nat;
  se_size : Z.of_nat (values_size (padded m)) < 2 ^ 32 }.

Lemma padded_size m : sendable m ->
  length (padded m) = (length (hm_tag_value_map_ m) + if needs_pad m then 1 else 0)%nat /\
  values_size (padded m) = (values_size (hm_tag_value_map_ m) + if needs_pad m then pad_length_of m else 0)%nat.
Proof.
  intros Hm. unfold padded. destruct (needs_pad m) eqn:E; [|lia]. destruct (tag_set_size kPAD (replicate (pad_length_of m) 45) _ (se_pad m Hm E)) as [-> ->].
  rewrite length_replicate. lia.
Qed.

Lemma Construct_bytes m : sendable m -> ConstructHandshakeMessage m = Some (message_bytes (hm_tag_ m) (padded m)).
Proof.
  intros Hm. destruct (padded_size m Hm) as [Hn Hv]. pose proof (se_count m Hm) as Hc. pose proof (se_size m Hm) as Hs.
  unfold ConstructHandshakeMessage. rewrite <- Hn. rewrite (proj2 (Nat.ltb_ge _ _)) by done. set (len := (hm_size m + _)%nat).
  assert (length (message_bytes (hm_tag_ m) (padded m)) = len) as Hlen.
  { rewrite message_bytes_length, Hn, Hv. unfold len, hm_size. destruct (needs_pad m); unfold kQuicTagSize, kCryptoEndOffsetSize; lia. }
  assert (appends HOST_BYTE_ORDER (WriteTag (hm_tag_ m) >&> WriteUInt16 (u16 (Z.of_nat (length (padded m)))) >&> WriteUInt16 0 >&>
    write_tags (hm_tag_value_map_ m) (needs_pad m) (pad_length_of m) 0 >&> write_values (hm_tag_value_map_ m) (needs_pad m) (pad_length_of m)) (message_bytes (hm_tag_ m) (padded m))) as Ha.
  { unfold message_bytes. assert (u16 (Z.of_nat (length (padded m))) = Z.of_nat (length (padded m))) as -> by (apply wrapU_id; unfold kMaxEntries in Hc; lia).
    apply appends_and; [apply appends_bytes|]. apply appends_and; [apply (appends_u16 HOST_BYTE_ORDER)|]. apply appends_and; [apply (appends_u16 HOST_BYTE_ORDER)|].
    unfold padded in *. destruct (needs_pad m) eqn:E; apply appends_and.
    - apply write_tags_padded; [by apply se_pad|lia|lia].
    - apply write_values_padded. by apply se_pad.
    - apply write_tags_plain; lia.
    - apply write_values_plain. }
  clearbody len. specialize (Ha (MkWriter (replicate len 0) 0 HOST_BYTE_ORDER)). unfold dw_ok, dw_capacity in Ha. cbn [dw_buffer_ dw_length_ Nat.add] in Ha. rewrite length_replicate, Hlen, Nat.leb_refl in Ha.
  rewrite Ha by (lia || done). unfold dw_put, copy_at. cbn [dw_buffer_ dw_length_ Nat.add]. rewrite Hlen, drop_ge, app_nil_r by (by rewrite length_replicate). done.
Qed.

(** ** Reading what was written *)

Fixpoint index_of (start : Z) (m : QuicTagValueMap) : list (Z * Z) :=
  match m with [] => [] | (tag, value) :: m => let e := start + Z.of_nat (length value) in (tag, e) :: index_of e m end.
Definition lengths_of (m : QuicTagValueMap) : list (Z * Z) := map (fun e => (e.1, Z.of_nat (length e.2))) m.

Lemma take_mem_bytes n v rest : take n (mem_bytes n v ++ rest) = mem_bytes n v.
Proof. apply take_app_length'. by rewrite mem_bytes_length. Qed.
Lemma drop_mem_bytes n v rest : drop n (mem_bytes n v ++ rest) = rest.
Proof. apply drop_app_length'. by rewrite mem_bytes_length. Qed.

Lemma decode_index_bytes start m rest : Forall (fits 4) m.*1 -> 0 <= start -> start + Z.of_nat (values_size m) < 2 ^ 32 ->
  decode_index (length m) (index_bytes start m ++ rest) = index_of start m.
Proof.
  revert start. induction m as [|[tag value] m IH]; intros start Hf H0 H1; [done|]. rewrite fmap_cons in Hf. apply Forall_cons in Hf as [Hf0 Hf]. cbn [fst] in Hf0.
  simpl in H1. cbn [length decode_index index_bytes index_of]. rewrite <- !app_assoc, take_mem_bytes, mem_value_bytes by done. rewrite drop_mem_bytes, take_mem_bytes, mem_value_bytes by (unfold fits; lia).
  change (drop 8 ?l) with (drop (4 + 4) l). rewrite <- drop_drop, !drop_mem_bytes. rewrite IH by (done || lia). done.
Qed.

Lemma check_index_of prev start m : tags_sorted m -> (forall p, prev = Some p -> Forall (fun t => p < t) m.*1) ->
  check_index prev start (index_of start m) = inr (lengths_of m, start + Z.of_nat (values_size m)).
Proof.
  unfold tags_sorted. revert prev start. induction m as [|[tag value] m IH]; intros prev start Hs Hp; cbn [index_of check_index].
  { simpl. by rewrite Z.add_0_r. }
  rewrite fmap_cons in Hs, Hp. apply StronglySorted_inv in Hs as [Hs Hf]. cbn [fst] in *.
  rewrite bool_decide_eq_false_2 by (intros ->; specialize (Hp tag eq_refl); apply Forall_cons in Hp as [? _]; lia).
  replace (match prev with Some p => tag <? p | None => false end) with false
    by (destruct prev as [p|]; [specialize (Hp p eq_refl); apply Forall_cons in Hp as [? _]; symmetry; apply Z.ltb_ge; lia|done]).
  rewrite (proj2 (Z.ltb_ge _ _)) by lia. rewrite IH; [|done|intros p [= <-]; done]. simpl. f_equal. f_equal; [f_equal; f_equal; lia|lia].
Qed.

Lemma split_lengths_of m rest : split_values (lengths_of m) (values_bytes m ++ rest) = m.
Proof.
  induction m as [|[tag value] m IH]; [done|]. change (values_bytes ((tag, value) :: m)) with (value ++ values_bytes m). rewrite <- app_assoc.
  change (lengths_of ((tag, value) :: m)) with ((tag, Z.of_nat (length value)) :: lengths_of m). cbn [split_values].
  by rewrite Nat2Z.id, take_app_length, drop_app_length, IH.
Qed.

Lemma parse_message_bytes tag m rest : fits 4 tag -> Forall (fits 4) m.*1 -> tags_sorted m -> (length m <= kMaxEntries)%nat -> Z.of_nat (values_size m) < 2 ^ 32 ->
  parse_message (message_bytes tag m ++ rest) = Complete (MkMessage tag m 0 None) rest.
Proof.
  intros Ht Hf Hs Hn Hv. unfold kMaxEntries in Hn. unfold message_bytes, parse_message. rewrite <- !app_assoc, take_mem_bytes, drop_mem_bytes, mem_value_bytes by done.
  rewrite length_app, mem_bytes_length. cbn [Nat.add Nat.ltb Nat.leb]. unfold parse_count. rewrite !length_app, !mem_bytes_length. cbn [Nat.add Nat.ltb Nat.leb].
  rewrite take_mem_bytes, mem_value_bytes by (unfold fits; lia). rewrite (proj2 (Z.ltb_ge 128 _)) by lia. change (drop 4 ?l) with (drop (2 + 2) l). rewrite <- drop_drop, !drop_mem_bytes.
  unfold parse_index. rewrite length_app, index_bytes_length, (proj2 (Z.ltb_ge _ _)) by lia. rewrite Nat2Z.id, decode_index_bytes by (done || lia).
  rewrite check_index_of by done. rewrite drop_app_length' by (rewrite index_bytes_length; lia). unfold parse_values.
  rewrite length_app, values_bytes_length, (proj2 (Z.ltb_ge _ _)) by lia. rewrite split_lengths_of. f_equal. apply drop_app_length'. rewrite values_bytes_length. lia.
Qed.

(** What the receiver gets. *)
Definition received (m : CryptoHandshakeMessage) : CryptoHandshakeMessage := MkMessage (hm_tag_ m) (padded m) 0 None.
Definition serialized (m : CryptoHandshakeMessage) : list Z := message_bytes (hm_tag_ m) (padded m).

Lemma parse_serialized m rest : sendable m -> parse_message (serialized m ++ rest) = Complete (received m) rest.
Proof.
  intros Hm. apply parse_message_bytes; [apply Hm| | |apply Hm|apply Hm]; unfold padded; destruct (needs_pad m); try apply Hm.
  - apply Forall_forall. intros t Ht%tag_set_keys. destruct Ht as [->|Ht]; [done|]. pose proof (se_tags m Hm) as H. rewrite Forall_forall in H. by apply H.
  - apply tag_set_sorted, Hm.
Qed.

Lemma mem_bytes_octets n v : Forall is_octet (mem_bytes n v).
Proof. unfold mem_bytes, be_bytes. destruct HostIsLittleEndian; [|apply rev_octets]; apply le_bytes_octets. Qed.
Lemma index_bytes_octets start m : Forall is_octet (index_bytes start m).
Proof. revert start. induction m as [|[t v] m IH]; intros start; [constructor|]. cbn [index_bytes]. rewrite !Forall_app. split_and!; [apply mem_bytes_octets..|apply IH]. Qed.
Lemma tag_set_octets tag value m : Forall is_octet value -> Forall (Forall is_octet) m.*2 -> Forall (Forall is_octet) (tag_set tag value m).*2.
Proof.
  intros Hv. induction m as [|[t v] m IH]; intros Hm; cbn [tag_set]; [by repeat constructor|]. rewrite fmap_cons in Hm. apply Forall_cons in Hm as [Hm0 Hm].
  destruct (tag <? t); [|destruct (tag =? t)]; rewrite ?fmap_cons; repeat (constructor; try done). by apply IH.
Qed.
Lemma serialized_octets m : sendable m -> Forall is_octet (serialized m).
Proof.
  intros Hm. unfold serialized, message_bytes. rewrite !Forall_app. split_and!; [apply mem_bytes_octets..|apply index_bytes_octets|].
  apply Forall_concat. unfold padded. destruct (needs_pad m); [|apply Hm]. apply tag_set_octets; [|apply Hm]. apply Forall_replicate. unfold is_octet. lia.
Qed.

(** A message that has not arrived completely. *)
Lemma parse_partial m p c : sendable m -> serialized m = p ++ c -> c <> [] -> parse_message p = Incomplete.
Proof.
  intros Hm E Hc. pose proof (serialized_octets m Hm) as Ho. rewrite E in Ho. apply Forall_app in Ho as [Ho _]. pose proof (parse_message_mono p c Ho) as Hmono.
  rewrite <- E in Hmono. pose proof (parse_serialized m [] Hm) as Hp. rewrite app_nil_r in Hp. rewrite Hp in Hmono. destruct (parse_message p) as [|e|m' rest]; [done..|].
  injection Hmono as _ Hr. by destruct rest, c.
Qed.

(** ** Runs *)

Inductive crypto_event := GotMessage (m : CryptoHandshakeMessage) | GotError (error : Z).
#[local] Instance crypto_log : CryptoFramerVisitor (list crypto_event) := {
  OnCryptoError f v := v ++ [GotError (cf_error_ f)];
  OnHandshakeMessage m v := v ++ [GotMessage m] }.

(** The results of the calls and what the visitor saw. *)
Fixpoint framer_run (f : CryptoFramer) (v : list crypto_event) (inputs : list (list Z)) : list bool * list crypto_event :=
  match inputs with
  | [] => ([], v)
  | c :: inputs => let '(ok, f, v) := ProcessInput f c v in let '(oks, v) := framer_run f v inputs in (ok :: oks, v)
  end.
(** The same on the bytes since the start of the message, [None] after an error. *)
Fixpoint stream_run (p : option (list Z)) (v : list crypto_event) (inputs : list (list Z)) : list bool * list crypto_event :=
  match inputs with
  | [] => ([], v)
  | c :: inputs =>
      let '(ok, p, v) :=
        match p with
        | None => (false, None, v)
        | Some p => match parse_message (p ++ c) with
                    | Incomplete => (true, Some (p ++ c), v)
                    | Malformed e => (false, None, v ++ [GotError e])
                    | Complete m rest => (true, Some rest, v ++ [GotMessage m])
                    end
        end in
      let '(oks, v) := stream_run p v inputs in (ok :: oks, v)
  end.

Definition runs_like (f : CryptoFramer) (p : option (list Z)) : Prop :=
  match p with Some p => resumes f p | None => cf_error_ f <> QUIC_NO_ERROR end.

Lemma framer_run_stream inputs f p v : Forall (Forall is_octet) inputs -> runs_like f p -> framer_run f v inputs = stream_run p v inputs.
Proof.
  intros Ho. revert f p v. induction Ho as [|c inputs Hc _ IH]; intros f p v Hf; [done|]. cbn [framer_run stream_run]. unfold ProcessInput. destruct p as [p|]; simpl in Hf.
  - rewrite (proj1 Hf). cbn [Z.eqb negb]. pose proof (Process_parse f p c v Hf Hc) as Hp. destruct (parse_message (p ++ c)) as [|e|m rest].
    + destruct Hp as (f' & -> & Hf'). cbn. rewrite (IH _ (Some (p ++ c))); [done|]. destruct Hf' as (He & Hr). by split.
    + destruct Hp as (Hne & f' & ->). rewrite (proj2 (Z.eqb_neq e QUIC_NO_ERROR) Hne). cbn. by rewrite (IH _ None).
    + destruct Hp as (f' & -> & Hf' & _). cbn. rewrite (IH _ (Some rest)); [done|]. destruct Hf' as (He & Hr). by split.
  - rewrite (proj2 (Z.eqb_neq _ QUIC_NO_ERROR) Hf). cbn. by rewrite (IH _ None).
Qed.

Lemma new_resumes : resumes CryptoFramer_new [].
Proof. split; [done|]. split; [constructor|done]. Qed.

(** An input on a stream of messages completes the next one or leaves it incomplete. *)
Lemma parse_step p c rest ms : Forall sendable ms -> p ++ c ++ rest = concat (map serialized ms) ->
  (parse_message (p ++ c) = Incomplete /\ (rest = [] -> ms = [])) \/
  (exists m ms' q, ms = m :: ms' /\ parse_message (p ++ c) = Complete (received m) q /\ q ++ rest = concat (map serialized ms')).
Proof.
  intros Hs E. rewrite app_assoc in E. destruct Hs as [|m ms Hm Hs]; cbn [map concat] in E.
  { apply app_eq_nil in E as [-> _]. left. done. }
  destruct (app_eq_inv _ _ _ _ E) as [(q & E1 & E2)|(q & E1 & E2)].
  - right. exists m, ms, q. split; [done|]. rewrite E1. split; [by apply parse_serialized|done].
  - destruct q as [|x q].
    + right. exists m, ms, []. rewrite app_nil_r in E1. simpl in E2. split; [done|]. split; [|done]. rewrite <- E1, <- (app_nil_r (serialized m)). by apply parse_serialized.
    + left. split; [by apply (parse_partial m _ (x :: q))|]. by intros ->.
Qed.

Lemma stream_run_messages chunks k ms p v : Forall sendable ms -> p ++ concat chunks = concat (map serialized ms) -> (length ms <= k)%nat ->
  stream_run (Some p) v (chunks ++ replicate k []) = (replicate (length chunks + k) true, v ++ map (fun m => GotMessage (received m)) ms).
Proof.
  revert ms p v. induction chunks as [|c chunks IH]; intros ms p v Hs E Hk; cbn [concat app length] in *.
  - revert ms p v Hs E Hk. induction k as [|k IHk]; intros ms p v Hs E Hk; cbn [replicate Nat.add stream_run].
    { destruct ms; [|simpl in Hk; lia]. by rewrite app_nil_r. }
    destruct (parse_step p [] [] ms Hs) as [[Hp Hn]|(m & ms' & q & -> & Hp & Eq)]; [done|rewrite Hp..].
    + rewrite Hn in * by done. rewrite (IHk []); [done|done|by rewrite !app_nil_r in *|simpl; lia].
    + apply Forall_cons in Hs as [_ Hs]. rewrite (IHk ms'); [|done..|simpl in Hk; lia]. simpl. by rewrite <- app_assoc.
  - cbn [stream_run replicate Nat.add]. destruct (parse_step p c (concat chunks) ms Hs) as [[Hp _]|(m & ms' & q & -> & Hp & Eq)]; [done|rewrite Hp..].
    + rewrite (IH ms); [done|done|by rewrite <- app_assoc|done].
    + apply Forall_cons in Hs as [_ Hs]. rewrite (IH ms'); [|done..|simpl in Hk; lia]. simpl. by rewrite <- app_assoc.
Qed.

Lemma serialized_ok m : sendable m -> ConstructHandshakeMessage m = Some (serialized m) /\ ParseMessage (serialized m) = Some (received m) /\
  (hm_minimum_size_ m <= length (serialized m))%nat /\ ((hm_minimum_size_ m <= hm_size m)%nat -> length (serialized m) = hm_size m).
Proof.
  intros Hm. split; [by apply Construct_bytes|]. split; [|split].
  - unfold ParseMessage, ProcessInput. change (negb (cf_error_ CryptoFramer_new =? QUIC_NO_ERROR)) with false. cbn iota.
    pose proof (Process_parse (V := bool * option CryptoHandshakeMessage) (H := OneShotVisitor_visitor) CryptoFramer_new [] (serialized m) (false, None) new_resumes (serialized_octets m Hm)) as Hp.
    pose proof (parse_serialized m [] Hm) as Hs. rewrite app_nil_r in Hs. rewrite app_nil_l, Hs in Hp. destruct Hp as (f' & -> & _ & Hb). cbn. unfold InputBytesRemaining. simpl. rewrite Hb. done.
  - destruct (padded_size m Hm) as [Hn Hv]. unfold serialized. rewrite message_bytes_length, Hn, Hv. unfold pad_length_of, needs_pad, kQuicTagSize, kCryptoEndOffsetSize.
    destruct (Nat.ltb_spec (hm_size m) (hm_minimum_size_ m)); unfold hm_size in *; cbn [andb]; [|lia]. clear Hn Hv. destruct (Nat.ltb_spec (4 + 4) (hm_minimum_size_ m - (8 + 8 * length (hm_tag_value_map_ m) + values_size (hm_tag_value_map_ m)))); lia.
  - intros Hmin. destruct (padded_size m Hm) as [Hn Hv]. unfold serialized. rewrite message_bytes_length, Hn, Hv. unfold needs_pad. rewrite (proj2 (Nat.ltb_ge _ _)) by done. unfold hm_size. lia.
Qed.

(** C33: The parser may stop anywhere.  Whatever the input and however it is cut, every call of
    a framer returns, reports and logs what reading the current message again from its
    first byte gives: nothing while the message is incomplete, the message when its last
    byte is there (one message per call), or the error, after which every call fails. *)
Theorem crypto_framer_refines inputs : Forall (Forall is_octet) inputs ->
  framer_run CryptoFramer_new [] inputs = stream_run (Some []) [] inputs.
Proof. intros Ho. by apply framer_run_stream, new_resumes. Qed.

(** C32: Handshake messages arrive as they were sent.  Every sendable message has a serialized
    form of its size, padded to its minimum size, which parses to the message with its
    padding; and a stream of such messages, cut into inputs anywhere, is delivered in order
    and without error, after at most one further call for each message. *)
Theorem handshake_message_roundtrip ms chunks : Forall sendable ms -> concat chunks = concat (map serialized ms) ->
  Forall (fun m => ConstructHandshakeMessage m = Some (serialized m) /\ ParseMessage (serialized m) = Some (received m) /\
    (hm_minimum_size_ m <= length (serialized m))%nat /\ ((hm_minimum_size_ m <= hm_size m)%nat -> length (serialized m) = hm_size m)) ms /\
  framer_run CryptoFramer_new [] (chunks ++ replicate (length ms) []) =
    (replicate (length chunks + length ms) true, map (fun m => GotMessage (received m)) ms).
Proof.
  intros Hs E. split; [apply Forall_impl with (1 := Hs); apply serialized_ok|].
  assert (Forall (Forall is_octet) chunks) as Ho.
  { apply Forall_concat. rewrite E. apply Forall_concat, Forall_map. eapply Forall_impl; [exact Hs|]. apply serialized_octets. }
  rewrite (framer_run_stream _ _ (Some [])); [by apply (stream_run_messages chunks (length ms) ms [] [])| |apply new_resumes].
  apply Forall_app. split; [done|]. by apply Forall_replicate.
Qed.
End Spec.

(** ** Examples *)

#[local] Instance little : HostOrder := true.

(** A hello padded to 64 bytes and a rejection with two entries. *)
Definition hello : CryptoHandshakeMessage := set_minimum_size (SetValue 4 (SetStringPiece (set_tag CryptoHandshakeMessage_new (MakeQuicTag 67 72 76 79)) (MakeQuicTag 83 78 73 0) [97; 46; 98]) (MakeQuicTag 73 82 84 84) 100) 64.
Definition reject : CryptoHandshakeMessage := SetVector 4 (set_tag CryptoHandshakeMessage_new (MakeQuicTag 82 69 74 0)) (MakeQuicTag 83 67 70 71) [1; 2; 3].

Lemma examples_sendable : Forall sendable [hello; reject].
Proof.
  repeat constructor; try (vm_compute; intuition congruence); try (vm_compute; repeat constructor; congruence).
  intros _. apply (bool_decide_unpack _). vm_compute. exact I.
Qed.

Definition example_stream : list (list Z) := let s := serialized hello ++ serialized reject in [take 3 s; take 20 (drop 3 s); take 50 (drop 23 s); drop 73 s].

Lemma handshake_message_roundtrip_witness :
  ParseMessage (serialized hello) = Some (received hello) /\ length (serialized hello) = 64%nat /\
  framer_run CryptoFramer_new [] (example_stream ++ [[]; []]) = ([true; true; true; true; true; true], [GotMessage (received hello); GotMessage (received reject)]).
Proof.
  destruct (handshake_message_roundtrip [hello; reject] example_stream examples_sendable) as [H1 H2]; [vm_compute; reflexivity|].
  split; [apply Forall_cons in H1 as [(_ & H1 & _) _]; exact H1|]. split; [vm_compute; reflexivity|exact H2].
Defined.

(** Two messages in one input: the second waits for the next call.  Then an index that
    names a tag twice. *)
Lemma crypto_framer_refines_witness :
  framer_run CryptoFramer_new [] [serialized reject ++ serialized reject; []; message_bytes 7 [(5, [1]); (5, [2])]; [0]] =
    ([true; true; false; false], [GotMessage (received reject); GotMessage (received reject); GotError QUIC_CRYPTO_DUPLICATE_TAG]).
Proof.
  rewrite crypto_framer_refines; [vm_compute; reflexivity|]. repeat constructor; vm_compute; intuition congruence.
Defined.
