(* ===== verification/PacketProtection.v ===== *)
(** * quic/core/quic_framer.cc: encryption, and whole packets

    What surrounds the frames of [Framer]: encrypting a packet, processing a received one
    from its first byte to the last frame, and the two kinds of packets that are not
    encrypted, version negotiation and public reset (with quic_socket_address_coder.cc).
    Encrypters and decrypters are objects behind an interface ([QuicEncrypter],
    [QuicDecrypter]); crypto/null_encrypter.cc and null_decrypter.cc, which authenticate
    with a hash, are instances.  The visitor extends the one for frames
    ([QuicFramerVisitorInterface]). *)

From S2P Require Import Prelude Int128 QuicUtils QuicData Framer FramerFacts FramerPacket UnackedPacketMap HandshakeMessage CryptoFramer.
#[local] Open Scope Z_scope.
#[local] Open Scope wire_scope.

Definition QUIC_INVALID_VERSION_NEGOTIATION_PACKET : Z := 10.
Definition QUIC_INVALID_PUBLIC_RST_PACKET : Z := 11.
Definition QUIC_DECRYPTION_FAILURE : Z := 12.
Definition QUIC_ENCRYPTION_FAILURE : Z := 13.
Definition QUIC_PACKET_TOO_LARGE : Z := 14.
Definition kMaxPacketSize : nat := 1452.
Definition kPRST : Z := MakeQuicTag 80 82 83 84.
Definition kCADR : Z := MakeQuicTag 67 65 68 82.
Definition kRNON : Z := MakeQuicTag 82 78 79 78.

(** ** Encrypters and decrypters *)

(** Version, packet number, associated data, plaintext and room; [None] is failure. *)
Class QuicEncrypter (E : Type) := {
  EncryptPacket : Z -> Z -> list Z -> list Z -> nat -> E -> option (list Z) * E;
  enc_GetMaxPlaintextSize : Z -> E -> Z;
  enc_GetCiphertextSize : Z -> E -> Z }.
Class QuicDecrypter (D : Type) := {
  DecryptPacket : Z -> Z -> list Z -> list Z -> nat -> D -> option (list Z) * D;
  SetDiversificationNonce : list Z -> D -> D }.

Section Null.
Context `{host : HostOrder}.

Definition kHashSizeShort : nat := 12.
Definition text_Server : list Z := [83; 101; 114; 118; 101; 114].
Definition text_Client : list Z := [67; 108; 105; 101; 110; 116].

(** A null encrypter and a null decrypter are their perspectives. *)
Definition NullEncrypter : Type := Perspective.
Definition NullDecrypter : Type := Perspective.

Definition NullEncrypter_EncryptPacket (version packet_number : Z) (associated_data plaintext : list Z) (max_output_length : nat) (perspective_ : NullEncrypter)
    : option (list Z) * NullEncrypter :=
  let len := (length plaintext + kHashSizeShort)%nat in
  if (max_output_length <? len)%nat then (None, perspective_)
  else
    let hash := if version >? 36
                then match perspective_ with
                     | IS_SERVER => FNV1a_128_Hash_Three associated_data plaintext text_Server
                     | IS_CLIENT => FNV1a_128_Hash_Three associated_data plaintext text_Client
                     end
                else FNV1a_128_Hash_Two associated_data plaintext in
    (Some (SerializeUint128Short hash ++ plaintext), perspective_).
#[global] Instance NullEncrypter_encrypter : QuicEncrypter NullEncrypter := {
  EncryptPacket := NullEncrypter_EncryptPacket;
  enc_GetMaxPlaintextSize ciphertext_size _ := u64 (ciphertext_size - Z.of_nat kHashSizeShort);
  enc_GetCiphertextSize plaintext_size _ := u64 (plaintext_size + Z.of_nat kHashSizeShort) }.

Definition ReadHash : Rd uint128 := lo <~ ReadUInt64 ;; hi <~ ReadUInt32 ;; rd_ret (MakeUint128 hi lo).
Definition ComputeHash (version : Z) (data1 data2 : list Z) (perspective_ : NullDecrypter) : uint128 :=
  let correct_hash := if version >? 36
                      then match perspective_ with
                           | IS_CLIENT => FNV1a_128_Hash_Three data1 data2 text_Server
                           | IS_SERVER => FNV1a_128_Hash_Three data1 data2 text_Client
                           end
                      else FNV1a_128_Hash_Two data1 data2 in
  let mask := u128_shl_assign (MakeUint128 0 0xffffffff) 96 in
  u128_and correct_hash (u128_not mask).
Definition NullDecrypter_DecryptPacket (version packet_number : Z) (associated_data ciphertext : list Z) (max_output_length : nat) (perspective_ : NullDecrypter)
    : option (list Z) * NullDecrypter :=
  let '(hash, r) := ReadHash (MkReader ciphertext 0 HOST_BYTE_ORDER) in
  match hash with
  | None => (None, perspective_)
  | Some hash =>
      let plaintext := PeekRemainingPayload r in
      if (max_output_length <? length plaintext)%nat then (None, perspective_)
      else if u128_neqb hash (ComputeHash version associated_data plaintext perspective_) then (None, perspective_)
      else (Some plaintext, perspective_)
  end.
#[global] Instance NullDecrypter_decrypter : QuicDecrypter NullDecrypter := {
  DecryptPacket := NullDecrypter_DecryptPacket;
  SetDiversificationNonce _ d := d }.
End Null.

(** ** The null encrypters *)

Lemma le_byte_bytes x k n : 0 <= x -> map (le_byte x) (seq k n) = le_bytes n (x / 256 ^ Z.of_nat k).
Proof.
  intros Hx. revert k. induction n as [|n IH]; intros k; [done|]. cbn [seq map le_bytes]. rewrite IH. f_equal.
  - unfold le_byte. rewrite Z.shiftr_div_pow2 by lia. change 255 with (Z.ones 8). rewrite Z.land_ones by lia.
    rewrite Z.pow_mul_r by lia. done.
  - f_equal. rewrite Z.div_div by lia. f_equal. rewrite Nat2Z.inj_succ, Z.pow_succ_r by lia. lia.
Qed.

Lemma short_bytes h : u128_ok h -> SerializeUint128Short h = le_bytes 8 (lo_ h) ++ le_bytes 4 (hi_ h).
Proof.
  intros [Hl Hh]. unfold SerializeUint128Short, is_u64 in *. unfold Uint128Low64, Uint128High64. rewrite !le_byte_bytes by lia.
  change (256 ^ Z.of_nat 0) with 1. by rewrite !Z.div_1_r.
Qed.

Lemma hash_ok d1 d2 d3 : u128_ok (FNV1a_128_Hash_Three d1 d2 d3).
Proof.
  unfold FNV1a_128_Hash_Three, IncrementalHash. assert (forall h d, u128_ok (IncrementalHashFast h d)) as H by (intros h d; apply MakeUint128_ok).
  case_bool_decide; [apply H|]. case_bool_decide; apply H.
Qed.

(** The hash that an endpoint puts before a packet. *)
Definition null_hash (version : Z) (ad plaintext : list Z) (p : Perspective) : uint128 :=
  if version >? 36 then match p with IS_SERVER => FNV1a_128_Hash_Three ad plaintext text_Server | IS_CLIENT => FNV1a_128_Hash_Three ad plaintext text_Client end
  else FNV1a_128_Hash_Two ad plaintext.

Section NullFacts.
Context `{host : HostOrder} (Hle : HostIsLittleEndian = true).

Lemma null_hash_ok version ad plaintext p : u128_ok (null_hash version ad plaintext p).
Proof. unfold null_hash, FNV1a_128_Hash_Two. destruct (version >? 36); [destruct p|]; apply hash_ok. Qed.

Lemma ComputeHash_opposite version ad plaintext p :
  ComputeHash version ad plaintext (opposite p) = MakeUint128 (hi_ (null_hash version ad plaintext p) mod 2 ^ 32) (lo_ (null_hash version ad plaintext p)).
Proof.
  pose proof (null_hash_ok version ad plaintext p) as [Hl Hh]. unfold ComputeHash, is_u64 in *.
  assert ((if version >? 36 then match opposite p with IS_CLIENT => FNV1a_128_Hash_Three ad plaintext text_Server | IS_SERVER => FNV1a_128_Hash_Three ad plaintext text_Client end
    else FNV1a_128_Hash_Two ad plaintext) = null_hash version ad plaintext p) as -> by (by destruct p).
  assert (u128_not (u128_shl_assign (MakeUint128 0 0xffffffff) 96) = MakeUint128 (Z.ones 32) (Z.ones 64)) as -> by (vm_compute; reflexivity).
  set (h := null_hash version ad plaintext p) in *. unfold u128_and, LOGIC128, MakeUint128, Uint128High64, Uint128Low64. cbn [hi_ lo_]. rewrite !Z.land_ones by lia.
  f_equal. apply Z.mod_small. lia.
Qed.

Lemma read_hash_bytes (lo hi : Z) rest : fits 8 lo -> fits 4 hi ->
  ReadHash (MkReader (le_bytes 8 lo ++ le_bytes 4 hi ++ rest) 0 HOST_BYTE_ORDER) =
  (Some (MakeUint128 hi lo), MkReader (le_bytes 8 lo ++ le_bytes 4 hi ++ rest) 12 HOST_BYTE_ORDER).
Proof.
  intros Hlo Hhi. assert (forall n v, wire_bytes HOST_BYTE_ORDER n v = le_bytes n v) as Hw by (intros n v; unfold wire_bytes, mem_bytes; by rewrite Hle).
  assert (parses HOST_BYTE_ORDER rest ReadHash (le_bytes 8 lo ++ le_bytes 4 hi) (MakeUint128 hi lo)) as Hp.
  { rewrite <- !Hw. eapply parses_bind; [by apply parses_u64|]. rewrite <- (app_nil_r (wire_bytes _ 4 hi)). eapply parses_bind; [by apply parses_u32|apply parses_ret]. }
  specialize (Hp []). rewrite <- app_assoc in Hp. cbn [app length] in Hp. rewrite length_app, !le_bytes_length in Hp. exact Hp.
Qed.

(** What a ciphertext must look like to be accepted. *)
Lemma null_decrypts version pn ad lo hi rest max p : fits 8 lo -> fits 4 hi ->
  NullDecrypter_DecryptPacket version pn ad (le_bytes 8 lo ++ le_bytes 4 hi ++ rest) max (opposite p) =
  (if (length rest <=? max)%nat && (lo =? lo_ (null_hash version ad rest p)) && (hi =? hi_ (null_hash version ad rest p) mod 2 ^ 32) then Some rest else None, opposite p).
Proof.
  intros Hlo Hhi. unfold NullDecrypter_DecryptPacket. rewrite read_hash_bytes by done.
  assert (PeekRemainingPayload (MkReader (le_bytes 8 lo ++ le_bytes 4 hi ++ rest) 12 HOST_BYTE_ORDER) = rest) as ->.
  { unfold PeekRemainingPayload, BytesRemaining, dr_len_. cbn [dr_data_ dr_pos_]. rewrite app_assoc, drop_app_length' by (by rewrite length_app, !le_bytes_length).
    apply take_ge. rewrite !length_app, !le_bytes_length. lia. }
  rewrite ComputeHash_opposite. unfold u128_neqb, u128_eqb, MakeUint128, Uint128Low64, Uint128High64. cbn [hi_ lo_].
  destruct (Nat.ltb_spec max (length rest)), (Nat.leb_spec (length rest) max); try lia; cbn [andb]; [done|].
  by destruct (lo =? _), (hi =? _).
Qed.

Lemma read_hash_short c : (length c < 12)%nat -> fst (ReadHash (MkReader c 0 HOST_BYTE_ORDER)) = None.
Proof.
  intros Hl. unfold ReadHash, ReadUInt64, ReadUInt32, rd_bind, ReadBytes. destruct (CanRead _ 8) eqn:E8; [|done]. cbn [rd_ret dr_data_ dr_pos_ dr_endianness_ Nat.add].
  assert (CanRead (MkReader c 8 HOST_BYTE_ORDER) 4 = false) as ->; [|done]. unfold CanRead, dr_len_ in *. cbn [dr_data_ dr_pos_] in *. apply Nat.leb_le in E8. apply Nat.leb_gt. lia.
Qed.

Lemma octets_split n c : Forall is_octet c -> (n <= length c)%nat -> exists x rest, c = le_bytes n x ++ rest /\ fits n x /\ Forall is_octet rest.
Proof.
  intros Ho Hn. assert (Forall is_octet (take n c)) as Ht by (by apply Forall_take). exists (le_value (take n c)), (drop n c).
  assert (length (take n c) = n) as Hl by (rewrite length_take; lia). split_and!.
  - pose proof (le_bytes_value (take n c) Ht) as Hv. rewrite Hl in Hv. by rewrite Hv, take_drop.
  - pose proof (le_value_range (take n c) Ht) as Hv. by rewrite Hl in Hv.
  - by apply Forall_drop.
Qed.

(** A packet that the null encrypter makes is accepted by the peer. *)
Lemma null_seals version pn ad plaintext room max p : (length plaintext + 12 <= room)%nat -> (length plaintext <= max)%nat -> exists c,
  NullEncrypter_EncryptPacket version pn ad plaintext room p = (Some c, p) /\ length c = (length plaintext + 12)%nat /\
  NullDecrypter_DecryptPacket version pn ad c max (opposite p) = (Some plaintext, opposite p).
Proof.
  intros Hr Hm. set (h := null_hash version ad plaintext p). pose proof (null_hash_ok version ad plaintext p) as Hok. fold h in Hok.
  exists (SerializeUint128Short h ++ plaintext). rewrite short_bytes by done. split; [|split].
  - unfold NullEncrypter_EncryptPacket, kHashSizeShort. rewrite (proj2 (Nat.ltb_ge _ _)) by lia.
    rewrite <- short_bytes by done. by unfold h, null_hash; destruct (version >? 36), p.
  - rewrite !length_app, !le_bytes_length. lia.
  - destruct Hok as [Hl Hh]. unfold is_u64 in *. rewrite <- app_assoc, <- (le_bytes_mod 4 (hi_ h)).
    rewrite null_decrypts by (unfold fits; simpl; (lia || apply Z.mod_pos_bound; lia)). fold h. change (256 ^ Z.of_nat 4) with (2 ^ 32).
    by rewrite (proj2 (Nat.leb_le _ _)), !Z.eqb_refl by lia.
Qed.

(** C36: The null encrypter authenticates with a hash: a packet it makes has twelve bytes more
    than its plaintext and is accepted by the null decrypter of the peer, and a ciphertext
    that the peer's decrypter accepts is exactly the one the encrypter makes for the
    plaintext found in it, for the same version and associated data. *)
Theorem null_encryption_exact version pn ad p :
  (forall plaintext room max, (length plaintext + 12 <= room)%nat -> (length plaintext <= max)%nat -> exists c,
     EncryptPacket version pn ad plaintext room p = (Some c, p) /\ length c = (length plaintext + 12)%nat /\
     DecryptPacket version pn ad c max (opposite p : NullDecrypter) = (Some plaintext, opposite p)) /\
  (forall c plaintext max, Forall is_octet c -> DecryptPacket version pn ad c max (opposite p : NullDecrypter) = (Some plaintext, opposite p) ->
     (length plaintext <= max)%nat /\ EncryptPacket version pn ad plaintext (length c) p = (Some c, p)).
Proof.
  split.
  - intros plaintext room max Hr Hm. by apply null_seals.
  - intros c plaintext max Ho E. cbn [DecryptPacket NullDecrypter_decrypter] in E. destruct (decide (12 <= length c)%nat) as [Hlen|Hlen].
    + destruct (octets_split 8 c Ho ltac:(lia)) as (lo & c1 & -> & Hlo & Ho1). rewrite length_app, le_bytes_length in Hlen.
      destruct (octets_split 4 c1 Ho1 ltac:(lia)) as (hi & rest & -> & Hhi & _). rewrite null_decrypts in E by done.
      destruct ((length rest <=? max)%nat && _ && _) eqn:Eb; [|done]. simplify_eq. apply andb_true_iff in Eb as [[Hm Hl]%andb_true_iff Hh]. bool_to_prop.
      apply Nat.leb_le in Hm. split; [done|]. cbn [EncryptPacket NullEncrypter_encrypter]. unfold NullEncrypter_EncryptPacket, kHashSizeShort.
      rewrite (proj2 (Nat.ltb_ge _ _)) by (rewrite !length_app, !le_bytes_length; lia). set (h := null_hash version ad plaintext p) in *.
      f_equal. f_equal. assert (SerializeUint128Short h = le_bytes 8 lo ++ le_bytes 4 hi) as Hs.
      { rewrite short_bytes by apply null_hash_ok. rewrite Hl, Hh, <- (le_bytes_mod 4 (hi_ h)). done. }
      rewrite app_assoc, <- Hs. by unfold h, null_hash; destruct (version >? 36), p.
    + exfalso. revert E. unfold NullDecrypter_DecryptPacket. pose proof (read_hash_short c ltac:(lia)) as Hs.
      destruct (ReadHash (MkReader c 0 HOST_BYTE_ORDER)) as [x r]. cbn [fst] in Hs. by subst x.
Qed.
End NullFacts.

Lemma null_encryption_exact_witness :
  exists c, EncryptPacket 39 1 [1; 2; 3] [7; 8] 20 (IS_SERVER : NullEncrypter) = (Some c, IS_SERVER) /\
    DecryptPacket (QuicDecrypter := NullDecrypter_decrypter (host := true)) 39 1 [1; 2; 3] c 100 IS_CLIENT = (Some [7; 8], IS_CLIENT).
Proof.
  destruct (null_encryption_exact (host := true) eq_refl 39 1 [1; 2; 3] IS_SERVER) as [H _].
  destruct (H [7; 8] 20%nat 100%nat) as (c & Hc & _ & Hd); [cbn; lia|cbn; lia|]. exists c. split; [exact Hc|exact Hd].
Defined.

(** ** The keys of a framer *)

Section Packet.
Context `{host : HostOrder} {E D : Type} `{QuicEncrypter E} `{QuicDecrypter D}.

Record FramerKeys := MkKeys {
  encrypter_ : EncryptionLevel -> option E;
  decrypter_ : D;
  decrypter_level_ : EncryptionLevel;
  alternative_decrypter_ : option D;
  alternative_decrypter_level_ : EncryptionLevel;
  alternative_decrypter_latch_ : bool }.

Definition keys_set_decrypters (k : FramerKeys) (d : D) (a : option D) : FramerKeys :=
  MkKeys (encrypter_ k) d (decrypter_level_ k) a (alternative_decrypter_level_ k) (alternative_decrypter_latch_ k).
Definition SetDecrypter (k : FramerKeys) (level : EncryptionLevel) (d : D) : FramerKeys :=
  MkKeys (encrypter_ k) d level (alternative_decrypter_ k) (alternative_decrypter_level_ k) (alternative_decrypter_latch_ k).
Definition SetAlternativeDecrypter (k : FramerKeys) (level : EncryptionLevel) (d : D) (latch_once_used : bool) : FramerKeys :=
  MkKeys (encrypter_ k) (decrypter_ k) (decrypter_level_ k) (Some d) level latch_once_used.
Definition SetEncrypter (k : FramerKeys) (level : EncryptionLevel) (e : E) : FramerKeys :=
  MkKeys (fun l => if decide (l = level) then Some e else encrypter_ k l) (decrypter_ k) (decrypter_level_ k) (alternative_decrypter_ k)
    (alternative_decrypter_level_ k) (alternative_decrypter_latch_ k).

(** The smallest over the levels that have a key. *)
Definition GetMaxPlaintextSize (k : FramerKeys) (ciphertext_size : Z) : Z :=
  fold_left (fun min_plaintext_size level =>
    match encrypter_ k level with
    | Some e => let size := enc_GetMaxPlaintextSize ciphertext_size e in if size <? min_plaintext_size then size else min_plaintext_size
    | None => min_plaintext_size
    end) [ENCRYPTION_NONE; ENCRYPTION_INITIAL; ENCRYPTION_FORWARD_SECURE] ciphertext_size.

(** A [QuicPacket] and the lengths in its header. *)
Record QuicPacket := MkPacket { pk_data : list Z; pk_header : QuicPacketPublicHeader }.
Definition GetStartOfEncryptedData (h : QuicPacketPublicHeader) : nat :=
  GetPacketHeaderSize (ph_connection_id_length h) (ph_version_flag h) (match ph_nonce h with Some _ => true | None => false end) (ph_packet_number_length h).
Definition AssociatedData (p : QuicPacket) : list Z := take (GetStartOfEncryptedData (pk_header p)) (pk_data p).
Definition Plaintext (p : QuicPacket) : list Z := drop (GetStartOfEncryptedData (pk_header p)) (pk_data p).

(** ** A framer *)

(** [supported_versions_] is kept beside the record; [null_encrypter] and [null_decrypter]
    are the null classes as encrypters and decrypters. *)
Definition QuicFramer_new (null_encrypter : Perspective -> E) (null_decrypter : Perspective -> D) (supported_versions : list Z) (creation_time : Z)
    (perspective : Perspective) : option (QuicFramer * list Z * FramerKeys) :=
  quic_version ← head supported_versions;
  Some (MkFramer QUIC_NO_ERROR 0 0 0 0 quic_version perspective true creation_time 0 [] None, supported_versions,
        MkKeys (fun level => if decide (level = ENCRYPTION_NONE) then Some (null_encrypter perspective) else None)
          (null_decrypter perspective) ENCRYPTION_NONE None ENCRYPTION_NONE false).
Definition set_version (f : QuicFramer) (version : option Z) : QuicFramer :=
  match version with
  | None => f
  | Some v => MkFramer (error_ f) (last_packet_number_ f) (largest_packet_number_ f) (last_serialized_connection_id_ f) (last_version_tag_ f) v
                (perspective_ f) (validate_flags_ f) (creation_time_ f) (last_timestamp_ f) (last_nonce_ f) (data_producer_ f)
  end.
Definition SetSupportedVersions (f : QuicFramer) (versions : list Z) : option (QuicFramer * list Z) :=
  version ← head versions; Some (set_version f (Some version), versions).
Definition IsSupportedVersion (supported_versions_ : list Z) (version : Z) : bool := existsb (Z.eqb version) supported_versions_.
Definition set_validate_flags (f : QuicFramer) (value : bool) : QuicFramer :=
  MkFramer (error_ f) (last_packet_number_ f) (largest_packet_number_ f) (last_serialized_connection_id_ f) (last_version_tag_ f) (quic_version_ f)
    (perspective_ f) value (creation_time_ f) (last_timestamp_ f) (last_nonce_ f) (data_producer_ f).
Definition set_data_producer (f : QuicFramer) (producer : Z -> Z -> nat -> Wr) : QuicFramer :=
  MkFramer (error_ f) (last_packet_number_ f) (largest_packet_number_ f) (last_serialized_connection_id_ f) (last_version_tag_ f) (quic_version_ f)
    (perspective_ f) (validate_flags_ f) (creation_time_ f) (last_timestamp_ f) (last_nonce_ f) (Some producer).

(** [fresh] is what the buffer holds before; the tag has no zero byte to end the comparison
    early. *)
Definition kCHLO : Z := MakeQuicTag 67 72 76 79.
Definition StartsWithChlo (fresh : list Z) (f : QuicFramer) (id offset : Z) : bool :=
  match data_producer_ f with
  | None => false
  | Some WriteStreamData =>
      let '(ok, w) := WriteStreamData id offset 4%nat (MkWriter (take 4 fresh) 0 (endianness f)) in
      ok && bool_decide (dw_buffer_ w = mem_bytes 4 kCHLO)
  end.

(** ** Addresses *)

(** An IP address is its bytes: none, four or sixteen. *)
Record QuicSocketAddress := MkAddress { sa_ip : list Z; sa_port : Z }.
Definition kIPv4 : Z := 2.
Definition kIPv6 : Z := 10.
Definition IpUnspecified (a : QuicSocketAddress) : bool := negb ((length (sa_ip a) =? 4) || (length (sa_ip a) =? 16))%nat.
Definition Encode (a : QuicSocketAddress) : list Z :=
  if (length (sa_ip a) =? 4)%nat then mem_bytes 2 kIPv4 ++ sa_ip a ++ mem_bytes 2 (sa_port a)
  else if (length (sa_ip a) =? 16)%nat then mem_bytes 2 kIPv6 ++ sa_ip a ++ mem_bytes 2 (sa_port a)
  else [].
Definition Decode (data : list Z) : option QuicSocketAddress :=
  if (length data <? 2)%nat then None
  else
    let address_family := mem_value (take 2 data) in
    let data := drop 2 data in
    let ip_length := if address_family =? kIPv4 then Some 4%nat else if address_family =? kIPv6 then Some 16%nat else None in
    match ip_length with
    | None => None
    | Some ip_length =>
        if (length data <? ip_length)%nat then None
        else if negb (length data - ip_length =? 2)%nat then None
        else Some (MkAddress (take ip_length data) (mem_value (drop ip_length data)))
    end.

(** ** Public resets *)

Record QuicPublicResetPacket := MkPublicReset { pr_public_header : QuicPacketPublicHeader; pr_nonce_proof : Z; pr_client_address : QuicSocketAddress }.
Definition address_unset : QuicSocketAddress := MkAddress [] 0.

(** [use_old_public_reset_packets] is the flag of that name. *)
Definition BuildPublicResetPacket (use_old_public_reset_packets : bool) (packet : QuicPublicResetPacket) : option (list Z) :=
  let reset := SetValue 8 (set_tag CryptoHandshakeMessage_new kPRST) kRNON (pr_nonce_proof packet) in
  let address := Encode (pr_client_address packet) in
  if negb (IpUnspecified (pr_client_address packet)) && (length address =? 0)%nat then None
  else
    let reset := if negb (IpUnspecified (pr_client_address packet)) then SetStringPiece reset kCADR address else reset in
    '(reset_serialized, _) ← GetSerialized reset;
    let len := (kPublicFlagsSize + 8 + length reset_serialized)%nat in
    let flags := Z.lor PACKET_PUBLIC_FLAGS_RST PACKET_PUBLIC_FLAGS_8BYTE_CONNECTION_ID in
    let flags := if use_old_public_reset_packets then Z.lor flags PACKET_PUBLIC_FLAGS_8BYTE_CONNECTION_ID_OLD else flags in
    let '(ok, w) := (WriteUInt8 flags >&> WriteConnectionId (ph_connection_id (pr_public_header packet)) >&> WriteBytes reset_serialized)
                      (MkWriter (replicate len 0) 0 NETWORK_BYTE_ORDER) in
    if ok : bool then Some (dw_buffer_ w) else None.

(** ** The visitor *)

(** The callbacks for packets; [OnFrame] and [OnError] are those of the class for frames.
    A visitor may change the version of the framer when it is told of another one. *)
Class QuicFramerVisitorInterface (V : Type) `{QuicFramerVisitor V} := {
  OnPacket : V -> V;
  OnUnauthenticatedPublicHeader : QuicPacketPublicHeader -> V -> bool * V;
  OnProtocolVersionMismatch : Z -> V -> bool * option Z * V;
  OnVersionNegotiationPacket : QuicPacketPublicHeader -> V -> option Z * V;
  OnPublicResetPacket : QuicPublicResetPacket -> V -> V;
  OnUnauthenticatedHeader : QuicPacketHeader -> V -> bool * V;
  OnDecryptedPacket : EncryptionLevel -> V -> V;
  OnPacketHeader : QuicPacketHeader -> V -> bool * V;
  OnPacketComplete : V -> V }.

Context (frames_deque2 : bool) {V : Type} `{QuicFramerVisitorInterface V}.

Definition fail_with (error : Z) (f : QuicFramer) (k : FramerKeys) (v : V) : bool * QuicFramer * FramerKeys * V :=
  let '(f, v) := RaiseError error f v in (false, f, k, v).

(** ** Encryption *)

(** The length of the encrypted packet (zero on failure) and the buffer; [None] when there
    is no encrypter of the level to call or the packet does not fit the buffer. *)
Definition EncryptPayload (level : EncryptionLevel) (packet_number : Z) (packet : QuicPacket) (buffer : list Z) (f : QuicFramer) (k : FramerKeys) (v : V)
    : option (nat * list Z * QuicFramer * FramerKeys * V) :=
  e ← encrypter_ k level;
  let associated_data := AssociatedData packet in
  let ad_len := length associated_data in
  if (length buffer <? ad_len)%nat then None else
  let buffer := copy_at buffer 0 associated_data in
  let '(output, e) := EncryptPacket (quic_version_ f) packet_number associated_data (Plaintext packet) (length buffer - ad_len) e in
  let k := SetEncrypter k level e in
  match output with
  | None => let '(f, v) := RaiseError QUIC_ENCRYPTION_FAILURE f v in Some (0%nat, buffer, f, k, v)
  | Some output => Some ((ad_len + length output)%nat, copy_at buffer ad_len output, f, k, v)
  end.
Definition EncryptInPlace (level : EncryptionLevel) (packet_number : Z) (ad_len total_len : nat) (buffer : list Z) (f : QuicFramer) (k : FramerKeys) (v : V)
    : option (nat * list Z * QuicFramer * FramerKeys * V) :=
  e ← encrypter_ k level;
  if negb ((ad_len <=? total_len) && (total_len <=? length buffer))%nat then None else
  let '(output, e) := EncryptPacket (quic_version_ f) packet_number (take ad_len buffer) (take (total_len - ad_len) (drop ad_len buffer)) (length buffer - ad_len) e in
  let k := SetEncrypter k level e in
  match output with
  | None => let '(f, v) := RaiseError QUIC_ENCRYPTION_FAILURE f v in Some (0%nat, buffer, f, k, v)
  | Some output => Some ((ad_len + length output)%nat, copy_at buffer ad_len output, f, k, v)
  end.

(** ** Processing a packet *)

(** The loop reads a version at a time; [None] if it runs out of fuel. *)
Fixpoint read_versions (fuel : nat) (versions : list Z) (r : QuicDataReader) : option (option (list Z)) :=
  match fuel with
  | O => None
  | S fuel =>
      let '(version, r) := ReadTag r in
      match version with
      | None => Some None
      | Some version =>
          let versions := versions ++ [QuicTagToQuicVersion version] in
          if IsDoneReading r then Some (Some versions) else read_versions fuel versions r
      end
  end.
Definition ProcessVersionNegotiationPacket (r : QuicDataReader) (h : QuicPacketPublicHeader) (f : QuicFramer) (k : FramerKeys) (v : V)
    : option (bool * QuicFramer * FramerKeys * V) :=
  versions ← read_versions (S (BytesRemaining r)) (ph_versions h) r;
  match versions with
  | None => Some (fail_with QUIC_INVALID_VERSION_NEGOTIATION_PACKET f k v)
  | Some versions =>
      let h := MkPublicHeader (ph_connection_id h) (ph_connection_id_length h) (ph_reset_flag h) (ph_version_flag h) (ph_packet_number_length h) versions (ph_nonce h) in
      let '(version, v) := OnVersionNegotiationPacket h v in
      Some (true, set_version f version, k, v)
  end.

Definition ProcessPublicResetPacket (r : QuicDataReader) (h : QuicPacketPublicHeader) (f : QuicFramer) (k : FramerKeys) (v : V) : bool * QuicFramer * FramerKeys * V :=
  match ParseMessage (PeekRemainingPayload r) with
  | None => fail_with QUIC_INVALID_PUBLIC_RST_PACKET f k v
  | Some reset =>
      if negb (hm_tag_ reset =? kPRST) then fail_with QUIC_INVALID_PUBLIC_RST_PACKET f k v
      else
        let '(error, nonce_proof) := GetUint64 reset kRNON in
        if negb (error =? QUIC_NO_ERROR) then fail_with QUIC_INVALID_PUBLIC_RST_PACKET f k v
        else
          let address := match GetStringPiece reset kCADR with Some a => default address_unset (Decode a) | None => address_unset end in
          (true, f, k, OnPublicResetPacket (MkPublicReset h nonce_proof address) v)
  end.

Definition ProcessUnauthenticatedHeader (r : QuicDataReader) (h : QuicPacketPublicHeader) (f : QuicFramer) (v : V)
    : option QuicPacketHeader * QuicFramer * QuicDataReader * V :=
  let '(pn, r) := ProcessAndCalculatePacketNumber (ph_packet_number_length h) (largest_packet_number_ f) r in
  match pn with
  | None => let '(f, v) := RaiseError QUIC_INVALID_PACKET_HEADER f v in (None, f, r, v)
  | Some pn =>
      if pn =? 0 then let '(f, v) := RaiseError QUIC_INVALID_PACKET_HEADER f v in (None, f, r, v)
      else
        let header := MkPacketHeader h pn in
        let '(go_on, v) := OnUnauthenticatedHeader header v in
        (if go_on : bool then Some header else None, f, r, v)
  end.

(** Whether the other decrypter may be tried: not at the initial level without the nonce. *)
Definition try_alternative (f : QuicFramer) (k : FramerKeys) (h : QuicPacketPublicHeader) : bool :=
  negb (bool_decide (alternative_decrypter_level_ k = ENCRYPTION_INITIAL) &&
        match perspective_ f, ph_nonce h with IS_CLIENT, None => true | _, _ => false end).
(** After the other decrypter has been used: it is the first to be tried from now on, and
    with the latch the only one. *)
Definition switch_decrypters (k : FramerKeys) (d a : D) : FramerKeys :=
  if alternative_decrypter_latch_ k
  then MkKeys (encrypter_ k) a (alternative_decrypter_level_ k) None ENCRYPTION_NONE (alternative_decrypter_latch_ k)
  else MkKeys (encrypter_ k) a (alternative_decrypter_level_ k) (Some d) (decrypter_level_ k) (alternative_decrypter_latch_ k).
Definition DecryptPayload (r : QuicDataReader) (header : QuicPacketHeader) (packet : list Z) (buffer_length : nat) (f : QuicFramer) (k : FramerKeys) (v : V)
    : option (list Z) * FramerKeys * V :=
  let encrypted := PeekRemainingPayload r in
  let h := public_header header in
  let associated_data := take (GetStartOfEncryptedData h) packet in
  let '(plaintext, d) := DecryptPacket (quic_version_ f) (packet_number header) associated_data encrypted buffer_length (decrypter_ k) in
  match plaintext with
  | Some plaintext => (Some plaintext, keys_set_decrypters k d (alternative_decrypter_ k), OnDecryptedPacket (decrypter_level_ k) v)
  | None =>
      match alternative_decrypter_ k with
      | None => (None, keys_set_decrypters k d None, v)
      | Some a =>
          let a := match ph_nonce h with Some nonce => SetDiversificationNonce nonce a | None => a end in
          if negb (try_alternative f k h) then (None, keys_set_decrypters k d (Some a), v)
          else
            let '(plaintext, a) := DecryptPacket (quic_version_ f) (packet_number header) associated_data encrypted buffer_length a in
            match plaintext with
            | None => (None, keys_set_decrypters k d (Some a), v)
            | Some plaintext => (Some plaintext, switch_decrypters k d a, OnDecryptedPacket (alternative_decrypter_level_ k) v)
            end
      end
  end.

Definition ProcessDataPacket (r : QuicDataReader) (h : QuicPacketPublicHeader) (packet : list Z) (buffer_length : nat) (f : QuicFramer) (k : FramerKeys) (v : V)
    : option (bool * QuicFramer * FramerKeys * V) :=
  let '(header, f, r, v) := ProcessUnauthenticatedHeader r h f v in
  match header with
  | None => Some (false, f, k, v)
  | Some header =>
      let '(plaintext, k, v) := DecryptPayload r header packet buffer_length f k v in
      match plaintext with
      | None => Some (fail_with QUIC_DECRYPTION_FAILURE f k v)
      | Some plaintext =>
          let f := SetLastPacketNumber f header in
          let '(go_on, v) := OnPacketHeader header v in
          if negb go_on then Some (true, f, k, v)
          else if (kMaxPacketSize <? length packet)%nat then Some (fail_with QUIC_PACKET_TOO_LARGE f k v)
          else
            '(ok, f, v) ← ProcessFrameData frames_deque2 header f (MkReader plaintext 0 (endianness f)) v;
            Some (if ok : bool then (true, f, k, OnPacketComplete v) else (false, f, k, v))
      end
  end.

Definition ProcessPacket (packet : list Z) (f : QuicFramer) (k : FramerKeys) (v : V) : option (bool * QuicFramer * FramerKeys * V) :=
  let r := MkReader packet 0 (endianness f) in
  let v := OnPacket v in
  let '(header, f, r) := ProcessPublicHeader f r in
  match header with
  | None => Some (fail_with QUIC_INVALID_PACKET_HEADER f k v)
  | Some h =>
      let '(go_on, v) := OnUnauthenticatedPublicHeader h v in
      if negb go_on then Some (true, f, k, v)
      else
        let other := match perspective_ f, ph_versions h with IS_SERVER, version :: _ => ph_version_flag h && negb (version =? quic_version_ f) | _, _ => false end in
        let '(go_on, version, v) := if other then OnProtocolVersionMismatch (nth 0 (ph_versions h) 0) v else (true, None, v) in
        let f := set_version f version in
        if negb go_on then Some (true, f, k, v)
        else
          let r := MkReader (dr_data_ r) (dr_pos_ r) (endianness f) in
          if (match perspective_ f with IS_CLIENT => true | IS_SERVER => false end) && ph_version_flag h then ProcessVersionNegotiationPacket r h f k v
          else if ph_reset_flag h then Some (ProcessPublicResetPacket r h f k v)
          else ProcessDataPacket r h packet (Nat.max kMaxPacketSize (length packet)) f k v
  end.
End Packet.
