(* ===== verification/PacketFacts.v ===== *)
(** * Whole packets

    The contract of the framer of [PacketProtection] with its encrypters: an [Aead] opens
    what its encrypter has sealed; the null encrypters satisfy it.  With it, the packets
    that [BuildDataPacket] and [EncryptPayload] make are read by the peer's
    [ProcessPacket], and packets that cannot be decrypted have no effect. *)

From S2P Require Import Prelude Interval IntervalSet PacketNumberQueue ReceivedPacketManager.
From S2P Require Import Int128 QuicUtils QuicData Framer FramerFacts FramerAck FramerPacket UnackedPacketMap HandshakeMessage CryptoFramer PacketProtection.
#[local] Open Scope Z_scope.
#[local] Open Scope wire_scope.

(** [matching] relates an encrypter to the decrypter of the peer. *)
Class Aead (E D : Type) `{QuicEncrypter E} `{QuicDecrypter D} (matching : E -> D -> Prop) := {
  aead_size version pn ad plaintext room e c e' :
    EncryptPacket version pn ad plaintext room e = (Some c, e') -> (length plaintext <= length c <= room)%nat;
  aead_opens version pn ad plaintext room max e d c e' :
    matching e d -> EncryptPacket version pn ad plaintext room e = (Some c, e') -> (length plaintext <= max)%nat ->
    exists d', DecryptPacket version pn ad c max d = (Some plaintext, d') /\ matching e' d' }.

#[export] Program Instance Null_Aead `{host : HostOrder} (Hle : HostIsLittleEndian = true) : Aead NullEncrypter NullDecrypter (fun e d => d = opposite e).
Next Obligation.
  cbn [EncryptPacket NullEncrypter_encrypter]. intros host Hle version pn ad plaintext room e c e' Hc.
  destruct (decide (length plaintext + 12 <= room)%nat) as [Hr|Hr].
  - destruct (null_seals Hle version pn ad plaintext room (length plaintext) e Hr ltac:(done)) as (c' & Hc' & Hl & _). rewrite Hc' in Hc. simplify_eq. lia.
  - unfold NullEncrypter_EncryptPacket, kHashSizeShort in Hc. rewrite (proj2 (Nat.ltb_lt _ _)) in Hc by lia. done.
Qed.
Next Obligation.
  cbn [EncryptPacket NullEncrypter_encrypter DecryptPacket NullDecrypter_decrypter].
  intros host Hle version pn ad plaintext room max e d c e' -> Hc Hm. destruct (decide (length plaintext + 12 <= room)%nat) as [Hr|Hr].
  - destruct (null_seals Hle version pn ad plaintext room max e Hr Hm) as (c' & Hc' & _ & Hd). rewrite Hc' in Hc. simplify_eq. by exists (opposite e').
  - unfold NullEncrypter_EncryptPacket, kHashSizeShort in Hc. rewrite (proj2 (Nat.ltb_lt _ _)) in Hc by lia. done.
Qed.

(** ** What frames depend on *)

Section Congruence.
Context `{host : HostOrder}.

Definition same_number (h1 h2 : QuicPacketHeader) : Prop :=
  packet_number h1 = packet_number h2 /\ ph_packet_number_length (public_header h1) = ph_packet_number_length (public_header h2).

Lemma ProcessFrame_number deque h1 h2 f r : same_number h1 h2 -> ProcessFrame deque h1 f r = ProcessFrame deque h2 f r.
Proof.
  intros [H1 H2]. assert (ProcessStopWaitingFrame h1 = ProcessStopWaitingFrame h2) as Hs by (unfold ProcessStopWaitingFrame; by rewrite H1, H2).
  unfold ProcessFrame, ProcessFrameOfType. by rewrite Hs.
Qed.

Lemma ProcessFrameData_number deque h1 h2 {V} {visitor : QuicFramerVisitor V} f r (v : V) :
  same_number h1 h2 -> ProcessFrameData deque h1 f r v = ProcessFrameData deque h2 f r v.
Proof.
  intros Hh. unfold ProcessFrameData. destruct (IsDoneReading r); [done|]. generalize (BytesRemaining r) as fuel. intros fuel.
  revert f r v. induction fuel as [|fuel IH]; intros f r v; [done|]. cbn [ProcessFrameData_loop]. destruct (IsDoneReading r); [done|].
  rewrite (ProcessFrame_number deque h1 h2) by done. destruct (ProcessFrame deque h2 f r) as [[[x|x] f'] r']; [done|].
  destruct (OnFrame x v) as [[] v']; [apply IH|done].
Qed.

(** Receivers with the same clock. *)
Definition same_clock (g1 g2 : QuicFramer) : Prop := creation_time_ g1 = creation_time_ g2 /\ last_timestamp_ g1 = last_timestamp_ g2.

Lemma frames_ok_clock f g1 g2 header frames : same_clock g1 g2 -> frames_ok f g1 header frames -> frames_ok f g2 header frames.
Proof.
  revert g1 g2. induction frames as [|fr rest IH]; intros g1 g2 [Hc Ht]; [done|]. cbn [frames_ok]. intros (Hfr & Hneg & Hpad & Hrest). split_and!; try done.
  - destruct fr; try done. cbn [frame_ok] in *. destruct Hfr as [Ha Hg]. split; [done|]. unfold ack_receiver_ok in *. destruct (received_packet_times f0) as [|[]]; [done|].
    by rewrite <- Hc, <- Ht.
  - eapply IH; [|exact Hrest]. destruct fr; try done. cbn [after_frame]. unfold after_ack. by destruct (received_packet_times f0) as [|[]].
Qed.

Lemma receiver_after_same g version h header :
  let g' := SetLastPacketNumber (receiver_after g version h) header in
  same_clock g g' /\ quic_version_ g' = quic_version_ g /\ perspective_ (receiver_after g version h) = perspective_ g /\
  quic_version_ (receiver_after g version h) = quic_version_ g /\ largest_packet_number_ (receiver_after g version h) = largest_packet_number_ g.
Proof. unfold receiver_after, same_clock. by destruct (ph_version_flag h), (ph_nonce h). Qed.
End Congruence.

(** ** Packets between two framers *)

Section Packets.
Context `{host : HostOrder} {E D : Type} `{QuicEncrypter E} `{QuicDecrypter D} {matching : E -> D -> Prop} {aead : Aead E D matching}.
Context {V : Type} `{QuicFramerVisitorInterface V}.

(** What the visitor sees of a packet with these frames that opens: whether the packet was
    opened, the result, and the visitor. *)
Definition deliver_packet (header : QuicPacketHeader) (level : EncryptionLevel) (xs : list QuicFrame) (v : V) : bool * bool * V :=
  let '(go_on, v) := OnUnauthenticatedPublicHeader (public_header header) (OnPacket v) in
  if negb go_on then (false, true, v)
  else
    let '(go_on, v) := OnUnauthenticatedHeader header v in
    if negb go_on then (false, false, v)
    else
      let '(go_on, v) := OnPacketHeader header (OnDecryptedPacket level v) in
      if negb go_on then (true, true, v) else (true, true, OnPacketComplete (deliver xs v)).

Lemma copy_at_prefix (buffer ad output : list Z) :
  (length ad + length output <= length buffer)%nat -> take (length ad + length output) (copy_at (copy_at buffer 0 ad) (length ad) output) = ad ++ output.
Proof.
  intros Hl. unfold copy_at at 1. assert (take (length ad) (copy_at buffer 0 ad) = ad) as -> by (unfold copy_at; change (take 0 buffer) with (@nil Z); rewrite app_nil_l; apply take_app_length).
  rewrite app_assoc, <- length_app. apply take_app_length.
Qed.

(** The bytes that [EncryptPayload] makes of a packet with a given header. *)
Lemma EncryptPayload_bytes level pn (ad plaintext : list Z) h (buffer : list Z) f (k : @FramerKeys E D) e (v : V) n sent f' k' v' :
  length ad = GetStartOfEncryptedData h -> encrypter_ k level = Some e ->
  EncryptPayload level pn (MkPacket (ad ++ plaintext) h) buffer f k v = Some (n, sent, f', k', v') -> (0 < n)%nat ->
  exists c e', EncryptPacket (quic_version_ f) pn ad plaintext (length buffer - length ad) e = (Some c, e') /\
    take n sent = ad ++ c /\ n = (length ad + length c)%nat /\ encrypter_ k' level = Some e'.
Proof.
  intros Had He. unfold EncryptPayload. rewrite He. cbn [mbind option_bind].
  assert (AssociatedData (MkPacket (ad ++ plaintext) h) = ad) as -> by (unfold AssociatedData; cbn [pk_header pk_data]; rewrite <- Had; apply take_app_length).
  assert (Plaintext (MkPacket (ad ++ plaintext) h) = plaintext) as -> by (unfold Plaintext; cbn [pk_header pk_data]; rewrite <- Had; apply drop_app_length).
  destruct (Nat.ltb_spec (length buffer) (length ad)) as [|Hb]; [done|]. rewrite copy_at_length by (simpl; lia).
  destruct (EncryptPacket (quic_version_ f) pn ad plaintext (length buffer - length ad) e) as [[c|] e'] eqn:Ec; intros [= <- <- <- <- <-] Hn; [|lia].
  exists c, e'. destruct (aead_size _ _ _ _ _ _ _ _ Ec) as [_ Hc]. split_and!; [done| |done|].
  - apply copy_at_prefix. lia.
  - unfold SetEncrypter. cbn [encrypter_]. by rewrite decide_True.
Qed.

Lemma PeekRemaining_app (pre rest : list Z) e : PeekRemainingPayload (MkReader (pre ++ rest) (length pre) e) = rest.
Proof.
  unfold PeekRemainingPayload, BytesRemaining, dr_len_. cbn [dr_data_ dr_pos_]. rewrite drop_app_length. apply take_ge. rewrite length_app. lia.
Qed.

(** A packet with this header and ciphertext, up to its frames. *)
Lemma ProcessPacket_data deque hacks f g header (c plaintext : list Z) (k : @FramerKeys E D) d' (v : V) xs :
  let h := public_header header in
  let header' := MkPacketHeader (received_header g (quic_version_ f) h) (packet_number header) in
  let g' := SetLastPacketNumber (receiver_after g (quic_version_ f) h) header' in
  HostIsLittleEndian = true -> header_ok (perspective_ f) h -> supported (quic_version_ f) ->
  perspective_ g = opposite (perspective_ f) -> quic_version_ g = quic_version_ f ->
  0 <= largest_packet_number_ g < kU64Max -> is_u64 (packet_number header) -> packet_number header <> 0 ->
  2 * Z.abs (packet_number header - (largest_packet_number_ g + 1)) < 256 ^ Z.of_nat (ph_packet_number_length h) ->
  (length (header_bytes hacks f header ++ c) <= kMaxPacketSize)%nat ->
  DecryptPacket (quic_version_ f) (packet_number header) (header_bytes hacks f header) c kMaxPacketSize (decrypter_ k) = (Some plaintext, d') ->
  (forall v, exists g2, ProcessFrameData deque header' g' (MkReader plaintext 0 (endianness g')) v = Some (true, g2, deliver xs v)) ->
  let '(opened, ok, v') := deliver_packet header' (decrypter_level_ k) xs v in
  exists g2, ProcessPacket deque (header_bytes hacks f header ++ c) g k v =
    Some (ok, g2, if opened : bool then keys_set_decrypters k d' (alternative_decrypter_ k) else k, v').
Proof.
  intros h header' g' Hle Hok Hv Hp Hvg Hb Hpn Hnz Hc Hlen Hd Hfr. pose proof (header_bytes_length hacks f header Hok) as Hhl.
  assert (forall e, partial_ok e) as Hpo by (intros ??; done).
  assert (endianness g = endianness f) as He by (unfold endianness; by rewrite Hvg).
  destruct (receiver_after_same g (quic_version_ f) h header') as (_ & _ & Hp1 & Hv1 & Hl1).
  set (g1 := receiver_after g (quic_version_ f) h) in *. set (rh := received_header g (quic_version_ f) h) in *.
  assert (endianness g1 = endianness f) as He1 by (unfold endianness; by rewrite Hv1, Hvg).
  unfold deliver_packet, ProcessPacket. rewrite He. unfold header_bytes. rewrite <- app_assoc. fold h.
  set (rest := wire_bytes (endianness f) (ph_packet_number_length h) (packet_number header) ++ c).
  pose proof (ProcessPublicHeader_spec hacks f g h (endianness f) rest Hok Hp Hv []) as Hpub. cbn [app length Nat.add] in Hpub. rewrite Hpub. fold g1 rh.
  change (public_header header') with rh. destruct (OnUnauthenticatedPublicHeader rh (OnPacket v)) as [go1 v1]. destruct go1; cbn [negb]; [|by exists g1].
  assert (match perspective_ g1, ph_versions rh with IS_SERVER, version :: _ => ph_version_flag rh && negb (version =? quic_version_ g1) | _, _ => false end = false) as ->.
  { destruct (perspective_ g1); try done. unfold rh, received_header. cbn [ph_versions ph_version_flag]. destruct (ph_version_flag h); [|done].
    by rewrite Hv1, Hvg, Z.eqb_refl. }
  cbn [set_version negb dr_data_ dr_pos_]. rewrite He1, Hp1.
  assert ((match perspective_ g with IS_CLIENT => true | IS_SERVER => false end) && ph_version_flag rh = false) as ->.
  { rewrite Hp. destruct Hok as (_ & _ & _ & _ & Hn). destruct (perspective_ f); [cbn [opposite]; destruct Hn as [Hn _]|done]. unfold rh, received_header. by cbn [ph_version_flag]. }
  change (ph_reset_flag rh) with false. cbn [andb].
  unfold ProcessDataPacket, ProcessUnauthenticatedHeader. rewrite Hl1. change (ph_packet_number_length rh) with (ph_packet_number_length h).
  assert (ph_packet_number_length h <= 6)%nat as Hn6 by (destruct Hok as (_ & _ & _ & Hn & _); simpl in Hn; intuition lia).
  pose proof (parses_truncated (endianness f) (ph_packet_number_length h) (largest_packet_number_ g) (packet_number header) c (Hpo _) Hn6 Hb Hpn Hc
    (public_bytes hacks f h)) as Hnum. fold rest in Hnum. rewrite Hnum. destruct (Z.eqb_spec (packet_number header) 0); [done|].
  fold header'. destruct (OnUnauthenticatedHeader header' v1) as [go2 v2]. destruct go2; cbn [negb]; [|by exists g1].
  unfold DecryptPayload, rest. rewrite app_assoc, <- length_app.
  change (public_bytes hacks f h ++ _) with (header_bytes hacks f header). rewrite PeekRemaining_app.
  change (public_header header') with rh. change (GetStartOfEncryptedData rh) with (header_size (public_header header)). rewrite <- Hhl, take_app_length.
  rewrite Nat.max_l by done. rewrite Hv1, Hvg. change (packet_number header') with (packet_number header). rewrite Hd.
  fold g'. destruct (OnPacketHeader header' (OnDecryptedPacket (decrypter_level_ k) v2)) as [go3 v3]. destruct go3; cbn [negb]; [|by exists g'].
  rewrite (proj2 (Nat.ltb_ge _ _)) by done. destruct (Hfr v3) as [g2 Hg]. rewrite Hg. by exists g2.
Qed.

(** C22: Packets from one endpoint to the other, for any cipher that opens what it seals
    ([Aead]): the packet built from a header and frames and encrypted by the sender is
    processed by the peer, when the visitor lets it, to the end, and the visitor is given
    the header with the full packet number, the level of the key, and the frames in order,
    each as in the round trip of the frames.  The keys of the two sides match again after
    it. *)
Theorem packet_roundtrip (hacks deque : bool) (f g : QuicFramer) (header : QuicPacketHeader) (frames : list QuicFrame) (buffer buffer2 : list Z)
    (level : EncryptionLevel) (kf kg : @FramerKeys E D) (e : E) (vf v : V) :
  let h := public_header header in
  HostIsLittleEndian = true -> header_ok (perspective_ f) h -> supported (quic_version_ f) ->
  perspective_ g = opposite (perspective_ f) -> quic_version_ g = quic_version_ f ->
  0 <= largest_packet_number_ g < kU64Max -> is_u64 (packet_number header) -> packet_number header <> 0 ->
  2 * Z.abs (packet_number header - (largest_packet_number_ g + 1)) < 256 ^ Z.of_nat (ph_packet_number_length h) ->
  frames <> [] -> frames_ok f g header frames -> Z.of_nat (length buffer) < 2 ^ 31 ->
  (header_size h + frames_size (quic_version_ f) header frames <= length buffer)%nat ->
  encrypter_ kf level = Some e -> matching e (decrypter_ kg) ->
  let '(len, f1, packet) := BuildDataPacket hacks f header frames buffer in
  forall n sent f2 kf' vf', EncryptPayload level (packet_number header) (MkPacket (take len packet) h) buffer2 f1 kf vf = Some (n, sent, f2, kf', vf') ->
    (0 < n <= kMaxPacketSize)%nat ->
    exists xs, Forall2 (frame_received f g) frames xs /\
      let '(opened, ok, v') := deliver_packet (MkPacketHeader (received_header g (quic_version_ f) h) (packet_number header)) (decrypter_level_ kg) xs v in
      exists g' kg', ProcessPacket deque (take n sent) g kg v = Some (ok, g', kg', v') /\
        (opened = true -> exists e', encrypter_ kf' level = Some e' /\ matching e' (decrypter_ kg')).
Proof.
  intros h Hle Hok Hv Hp Hvg Hb Hpn Hnz Hc Hne Hfr Hcap Hneed He Hm.
  set (header' := MkPacketHeader (received_header g (quic_version_ f) h) (packet_number header)).
  set (g' := SetLastPacketNumber (receiver_after g (quic_version_ f) h) header').
  destruct (receiver_after_same g (quic_version_ f) h header') as (Hclock & Hv' & _). fold g' in Hclock, Hv'.
  destruct (build_data_packet hacks deque f g' header frames buffer Hle Hok) as (bs & xs & packet & -> & Ht & _ & _ & _ & _ & Hrec & Hread); try done.
  { congruence. } { by apply (frames_ok_clock f g). }
  intros n sent f2 kf' vf' HE [Hn Hmax]. rewrite Ht in HE. pose proof (header_bytes_length hacks f header Hok) as Hhl.
  destruct (EncryptPayload_bytes level (packet_number header) (header_bytes hacks f header) bs h buffer2 _ kf e vf n sent f2 kf' vf' Hhl He HE Hn)
    as (c & e' & Ec & -> & -> & He').
  destruct (aead_size _ _ _ _ _ _ _ _ Ec) as [Hsz _].
  destruct (aead_opens _ _ _ _ _ kMaxPacketSize _ _ _ _ Hm Ec ltac:(lia)) as (d' & Hd & Hm').
  exists xs. split; [eapply Forall2_impl; [exact Hrec|]; intros fr x; apply frame_received_same; symmetry; apply Hclock|].
  assert (forall v0 : V, exists g2, ProcessFrameData deque header' g' (MkReader bs 0 (endianness g')) v0 = Some (true, g2, deliver xs v0)) as Hfd.
  { intros v0. destruct (Hread V _ v0) as [g2 Hg]. exists g2. rewrite <- Hg. by apply ProcessFrameData_number. }
  pose proof (ProcessPacket_data deque hacks f g header c bs kg d' v xs Hle Hok Hv Hp Hvg Hb Hpn Hnz Hc ltac:(rewrite length_app; lia) Hd Hfd) as HP.
  fold h header' in HP. destruct (deliver_packet header' (decrypter_level_ kg) xs v) as [[opened ok] v']. destruct HP as [g2 HP].
  exists g2, (if opened then keys_set_decrypters kg d' (alternative_decrypter_ kg) else kg). split; [exact HP|]. intros ->. by exists e'.
Qed.
End Packets.

(** ** Any packet *)

Section AnyPacket.
Context `{host : HostOrder}.

(** A read of [n] bytes. *)
Definition takes {A} (n : nat) (m : Rd A) : Prop := forall r x r', m r = (Some x, r') -> (dr_pos_ r <= dr_len_ r)%nat ->
  r' = MkReader (dr_data_ r) (dr_pos_ r + n) (dr_endianness_ r) /\ (dr_pos_ r + n <= dr_len_ r)%nat.

Lemma takes_bytes {A} n (k : list Z -> A) : takes n (rd_bind (ReadBytes n) (fun bs => rd_ret (k bs))).
Proof.
  intros r x r'. unfold rd_bind, ReadBytes, CanRead. destruct (Nat.leb_spec n (dr_len_ r - dr_pos_ r)) as [Hn|]; [|done]. intros [= <- <-] Hr.
  split; [done|lia].
Qed.

Lemma takes_bytes_raw n : takes n (ReadBytes n).
Proof. intros r x r' Hx. apply (takes_bytes n id r x). unfold rd_bind. by rewrite Hx. Qed.

Lemma takes_partial n v : takes n (ReadBytesToUInt64 n v).
Proof.
  intros r x r'. unfold ReadBytesToUInt64. destruct (8 <? n)%nat; [done|]. destruct (dr_endianness_ r) eqn:He; intros Hx Hr;
    destruct (takes_bytes _ _ _ _ _ Hx Hr) as [-> Hp]; by rewrite He.
Qed.

Lemma takes_lift {A} n (m : Rd A) f r x f' r' : takes n m -> fr_lift m f r = (Some x, f', r') -> (dr_pos_ r <= dr_len_ r)%nat ->
  f' = f /\ r' = MkReader (dr_data_ r) (dr_pos_ r + n) (dr_endianness_ r) /\ (dr_pos_ r + n <= dr_len_ r)%nat.
Proof. intros Hm. unfold fr_lift. destruct (m r) as [y r2] eqn:E. intros [= -> <- <-] Hr. split; [done|]. by apply (Hm _ x). Qed.

(** What processing a public header does not touch. *)
Definition same_numbers (f f' : QuicFramer) : Prop :=
  last_packet_number_ f' = last_packet_number_ f /\ largest_packet_number_ f' = largest_packet_number_ f /\ perspective_ f' = perspective_ f.

Lemma bind_some {A B} (m : Fr A) (k : A -> Fr B) f r y f' r' : fr_bind m k f r = (Some y, f', r') ->
  exists x f1 r1, m f r = (Some x, f1, r1) /\ k x f1 r1 = (Some y, f', r').
Proof. unfold fr_bind. destruct (m f r) as [[[x|] f1] r1]; [|done]. intros Hk. by exists x, f1, r1. Qed.

Lemma ProcessPublicHeader_numbers f r : let '(_, f', _) := ProcessPublicHeader f r in same_numbers f f'.
Proof.
  unfold ProcessPublicHeader, fr_bind, fr_lift, fr_ret, fr_fail, same_numbers. destruct (ReadUInt8 r) as [[flags|] r1]; [|done].
  destruct (validate_flags_ f && _ && _); [done|]. destruct (negb _ && negb _); [done|].
  destruct (negb (Z.land flags PACKET_PUBLIC_FLAGS_8BYTE_CONNECTION_ID =? 0)); [destruct (ReadConnectionId r1) as [[id|] r2]; [|done]|];
  (destruct (negb (Z.land flags PACKET_PUBLIC_FLAGS_VERSION =? 0) && _);
    [match goal with |- context [ReadTag ?r] => destruct (ReadTag r) as [[tag|] r3] end; [|done]; destruct (_ && _); [done|]|]);
  (destruct (_ && _); [match goal with |- context [ReadBytes ?n ?r] => destruct (ReadBytes n r) as [[bs|] r4] end|]); done.
Qed.

(** The reader is then before the packet number. *)
Lemma ProcessPublicHeader_position f packet e h f' r' :
  ProcessPublicHeader f (MkReader packet 0 e) = (Some h, f', r') -> (match perspective_ f with IS_CLIENT => true | IS_SERVER => false end) && ph_version_flag h = false ->
  dr_data_ r' = packet /\ dr_endianness_ r' = e /\ (dr_pos_ r' <= length packet)%nat /\ (dr_pos_ r' + ph_packet_number_length h = GetStartOfEncryptedData h)%nat.
Proof.
  unfold ProcessPublicHeader. intros Hx. apply bind_some in Hx as (flags & f1 & r1 & H1 & Hx).
  destruct (takes_lift 1 _ _ _ _ _ _ (takes_bytes 1 _) H1 ltac:(simpl; lia)) as (-> & -> & Hp1). cbn [dr_pos_ dr_data_ dr_endianness_ Nat.add] in *.
  unfold dr_len_ in Hp1. cbn [dr_data_] in Hp1.
  destruct (validate_flags_ f && _ && _); [done|]. destruct (negb _ && negb _); [done|]. apply bind_some in Hx as (id & f2 & r2 & H2 & Hx).
  set (has_id := negb (Z.land flags PACKET_PUBLIC_FLAGS_8BYTE_CONNECTION_ID =? 0)) in *.
  assert (f2 = f /\ r2 = MkReader packet (1 + if has_id then 8 else 0) e /\ (1 + (if has_id then 8 else 0) <= length packet)%nat) as (-> & -> & Hp2).
  { destruct has_id; [|unfold fr_ret in H2; simplify_eq; split_and!; done || simpl; lia].
    destruct (takes_lift 8 _ _ _ _ _ _ (takes_bytes 8 _) H2) as (-> & -> & Hp); [done|]. done. }
  apply bind_some in Hx as (versions & f3 & r3 & H3 & Hx). apply bind_some in Hx as (nonce & f4 & r4 & H4 & Hx). unfold fr_ret in Hx. simplify_eq.
  cbn [ph_version_flag ph_packet_number_length]. unfold GetStartOfEncryptedData, GetPacketHeaderSize.
  cbn [ph_connection_id_length ph_version_flag ph_nonce ph_packet_number_length]. intros Hc. set (version_flag := negb (Z.land flags PACKET_PUBLIC_FLAGS_VERSION =? 0)) in *.
  set (p2 := (1 + if has_id then 8 else 0)%nat) in *.
  assert (r3 = MkReader packet (p2 + if version_flag then 4 else 0) e /\ (p2 + (if version_flag then 4 else 0) <= length packet)%nat) as [-> Hp3].
  { destruct version_flag; [|cbn [andb] in H3; unfold fr_ret in H3; simplify_eq; rewrite Nat.add_0_r; done]. destruct (perspective_ f); [|done]. cbn [andb] in H3.
    apply bind_some in H3 as (tag & f5 & r5 & H5 & H3). destruct (takes_lift 4 _ _ _ _ _ _ (takes_bytes 4 _) H5) as (-> & -> & Hp); [done|].
    destruct (_ && _); [done|]. by simplify_eq. }
  assert (r' = MkReader packet (p2 + (if version_flag then 4 else 0) + match nonce with Some _ => 32 | None => 0 end) e /\
    (p2 + (if version_flag then 4 else 0) + match nonce with Some _ => 32 | None => 0 end <= length packet)%nat) as [-> Hp4].
  { match type of H4 with context [if ?b then _ else _] => destruct b end; [|unfold fr_ret in H4; simplify_eq; rewrite Nat.add_0_r; done].
    apply bind_some in H4 as (bs & f5 & r5 & H5 & H4). destruct (takes_lift 32 _ _ _ _ _ _ (takes_bytes_raw 32) H5) as (-> & -> & Hp); [done|]. by simplify_eq. }
  cbn [dr_data_ dr_pos_ dr_endianness_]. split_and!; try done. unfold p2, kPublicFlagsSize, kQuicVersionSize, kDiversificationNonceSize.
  destruct has_id, version_flag, nonce; lia.
Qed.
Lemma read_versions_total fuel versions r : (BytesRemaining r < fuel)%nat -> exists x, read_versions fuel versions r = Some x.
Proof.
  revert versions r. induction fuel as [|fuel IH]; intros versions r Hf; [lia|]. cbn [read_versions]. unfold ReadTag, rd_bind, ReadBytes.
  destruct (CanRead r 4) eqn:Ec; [|by eexists]. unfold CanRead in Ec. apply Nat.leb_le in Ec. cbn [rd_ret].
  destruct (IsDoneReading _); [by eexists|]. apply IH. unfold BytesRemaining, dr_len_ in *. cbn [dr_data_ dr_pos_]. lia.
Qed.

Lemma same_numbers_refl f : same_numbers f f.
Proof. done. Qed.
Lemma same_numbers_trans f1 f2 f3 : same_numbers f1 f2 -> same_numbers f2 f3 -> same_numbers f1 f3.
Proof. unfold same_numbers. intros (-> & -> & ->). tauto. Qed.
Lemma set_version_numbers f version : same_numbers f (set_version f version).
Proof. by destruct version. Qed.

Context {E D : Type} `{QuicEncrypter E} `{QuicDecrypter D} {V : Type} `{QuicFramerVisitorInterface V}.

(** A statement on the visitor that the callbacks for unauthenticated data keep. *)
Record Unauthenticated (P : V -> Prop) : Prop := {
  un_packet v : P v -> P (OnPacket v);
  un_public v h : P v -> P (snd (OnUnauthenticatedPublicHeader h v));
  un_mismatch v version : P v -> P (snd (OnProtocolVersionMismatch version v));
  un_negotiation v h : P v -> P (snd (OnVersionNegotiationPacket h v));
  un_reset v packet : P v -> P (OnPublicResetPacket packet v);
  un_header v h : P v -> P (snd (OnUnauthenticatedHeader h v));
  un_error v code : P v -> P (OnError code v) }.

(** A decrypter that may be tried. *)
Definition key_of (k : @FramerKeys E D) (d : D) : Prop :=
  d = decrypter_ k \/ exists a, alternative_decrypter_ k = Some a /\ (d = a \/ exists nonce, d = SetDiversificationNonce nonce a).

(** No effect but on what is not authenticated. *)
Definition harmless (P : V -> Prop) (f : QuicFramer) (k : @FramerKeys E D) (out : bool * QuicFramer * @FramerKeys E D * V) : Prop :=
  let '(_, f', k', v') := out in
  P v' /\ same_numbers f f' /\ decrypter_level_ k' = decrypter_level_ k /\ alternative_decrypter_level_ k' = alternative_decrypter_level_ k.

Lemma fail_harmless (P : V -> Prop) error f f0 k k0 v : Unauthenticated P -> P v -> same_numbers f0 f ->
  decrypter_level_ k = decrypter_level_ k0 -> alternative_decrypter_level_ k = alternative_decrypter_level_ k0 -> harmless P f0 k0 (fail_with error f k v).
Proof. intros HU Hv Hf Hk Ha. unfold harmless, fail_with, RaiseError. split_and!; [by apply un_error|exact Hf|done|done]. Qed.

Lemma negotiation_harmless (P : V -> Prop) r h f f0 k v : Unauthenticated P -> P v -> same_numbers f0 f ->
  exists out, ProcessVersionNegotiationPacket r h f k v = Some out /\ harmless P f0 k out.
Proof.
  intros HU Hv Hf. unfold ProcessVersionNegotiationPacket. destruct (read_versions_total (S (BytesRemaining r)) (ph_versions h) r ltac:(lia)) as [x ->].
  cbn [mbind option_bind]. destruct x as [versions|]; [|eexists; split; [done|]; by apply fail_harmless].
  match goal with |- context [OnVersionNegotiationPacket ?h v] => pose proof (un_negotiation P HU v h Hv) as Hn; destruct (OnVersionNegotiationPacket h v) as [version v'] end.
  eexists. split; [done|]. split_and!; [exact Hn| |done|done]. eapply same_numbers_trans; [done|apply set_version_numbers].
Qed.

Lemma reset_harmless (P : V -> Prop) r h f f0 k v : Unauthenticated P -> P v -> same_numbers f0 f -> harmless P f0 k (ProcessPublicResetPacket r h f k v).
Proof.
  intros HU Hv Hf. unfold ProcessPublicResetPacket. destruct (ParseMessage _) as [reset|]; [|by apply fail_harmless].
  destruct (negb _); [by apply fail_harmless|]. destruct (GetUint64 reset kRNON) as [error nonce_proof]. destruct (negb _); [by apply fail_harmless|].
  split_and!; [by apply un_reset|done..].
Qed.

Lemma unopened_harmless (P : V -> Prop) r header packet max f k v : Unauthenticated P -> P v ->
  let '(plaintext, k', v') := DecryptPayload r header packet max f k v in
  match plaintext with
  | None => v' = v /\ decrypter_level_ k' = decrypter_level_ k /\ alternative_decrypter_level_ k' = alternative_decrypter_level_ k
  | Some plaintext => exists d d', key_of k d /\
      DecryptPacket (quic_version_ f) (packet_number header) (take (GetStartOfEncryptedData (public_header header)) packet) (PeekRemainingPayload r) max d = (Some plaintext, d')
  end.
Proof.
  intros HU Hv. unfold DecryptPayload. destruct (DecryptPacket _ _ _ _ _ (decrypter_ k)) as [[plaintext|] d] eqn:E1.
  { exists (decrypter_ k), d. split; [by left|done]. }
  destruct (alternative_decrypter_ k) as [a|] eqn:Ea; [|done]. destruct (negb (try_alternative _ _ _)); [done|].
  destruct (DecryptPacket _ _ _ _ _ (match ph_nonce (public_header header) with Some nonce => SetDiversificationNonce nonce a | None => a end)) as [[plaintext|] a'] eqn:E2; [|done].
  eexists _, a'. split; [|exact E2]. right. exists a. split; [done|]. destruct (ph_nonce (public_header header)) as [nonce|]; [right; by exists nonce|by left].
Qed.
Lemma ProcessFrameData_some deque header f plaintext e (v : V) : exists out, ProcessFrameData deque header f (MkReader plaintext 0 e) v = Some out.
Proof.
  unfold ProcessFrameData. destruct (IsDoneReading _); [by eexists|].
  destruct (loop_total deque header (BytesRemaining (MkReader plaintext 0 e)) f (MkReader plaintext 0 e) v) as (ok & f' & v' & Hl & _); [simpl; lia|done|].
  by eexists.
Qed.

(** A packet that some key opens, with the header [h] before the ciphertext. *)
Definition authentic (k : @FramerKeys E D) (packet : list Z) : Prop :=
  exists h version pn d d' plaintext, key_of k d /\ pn <> 0 /\
    DecryptPacket version pn (take (GetStartOfEncryptedData h) packet) (drop (GetStartOfEncryptedData h) packet) (Nat.max kMaxPacketSize (length packet)) d
      = (Some plaintext, d').

Lemma data_harmless (P : V -> Prop) deque packet r h f f0 k v : Unauthenticated P -> P v -> same_numbers f0 f ->
  dr_data_ r = packet -> (dr_pos_ r <= length packet)%nat -> (dr_pos_ r + ph_packet_number_length h = GetStartOfEncryptedData h)%nat ->
  exists out, ProcessDataPacket deque r h packet (Nat.max kMaxPacketSize (length packet)) f k v = Some out /\ (harmless P f0 k out \/ authentic k packet).
Proof.
  intros HU Hv Hf Hr Hp Hs. unfold ProcessDataPacket, ProcessUnauthenticatedHeader, ProcessAndCalculatePacketNumber, rd_bind.
  destruct (ReadBytesToUInt64 (ph_packet_number_length h) 0 r) as [[wire|] r1] eqn:Er;
    [|eexists; split; [done|]; left; split_and!; [by apply un_error|exact Hf|done|done]].
  destruct (takes_partial _ _ _ _ _ Er) as [-> Hl]; [by unfold dr_len_; rewrite Hr|]. unfold dr_len_ in Hl. rewrite Hr in *. unfold rd_ret.
  set (pn := CalculatePacketNumberFromWire _ _ _). destruct (Z.eqb_spec pn 0) as [|Hpn];
    [eexists; split; [done|]; left; split_and!; [by apply un_error|exact Hf|done|done]|].
  pose proof (un_header P HU v (MkPacketHeader h pn) Hv) as Hv1. destruct (OnUnauthenticatedHeader (MkPacketHeader h pn) v) as [[] v1]; cbn [snd] in Hv1;
    [|by eexists; split; [done|]; left].
  set (r1 := MkReader packet (dr_pos_ r + ph_packet_number_length h) (dr_endianness_ r)).
  pose proof (unopened_harmless P r1 (MkPacketHeader h pn) packet (Nat.max kMaxPacketSize (length packet)) f k v1 HU Hv1) as Hd.
  destruct (DecryptPayload r1 _ _ _ f k v1) as [[[plaintext|] k1] v2]; cbn [public_header packet_number] in Hd;
    [|destruct Hd as (-> & Hk & Ha); eexists; split; [done|]; left; by apply fail_harmless].
  assert (authentic k packet) as Hau.
  { destruct Hd as (d & d' & Hk & Hd). exists h, (quic_version_ f), pn, d, d', plaintext. split_and!; [done|done|]. rewrite <- Hd. f_equal.
    unfold PeekRemainingPayload, BytesRemaining, dr_len_, r1. cbn [dr_pos_ dr_data_]. rewrite Hs, take_ge; [done|]. rewrite length_drop. lia. }
  destruct (OnPacketHeader _ v2) as [[] v3]; cbn [negb]; [|eexists; split; [done|]; by right].
  destruct (_ <? _)%nat; [eexists; split; [done|]; by right|].
  destruct (ProcessFrameData_some deque (MkPacketHeader h pn) (SetLastPacketNumber f (MkPacketHeader h pn)) plaintext
    (endianness (SetLastPacketNumber f (MkPacketHeader h pn))) v3) as [[[ok f'] v'] ->]. cbn [mbind option_bind]. eexists. split; [done|]. by right.
Qed.

(** C23: Only authentic packets have an effect.  Processing any bytes as a packet ends.  Unless
    one of the framer's keys opens the packet (with the header before the ciphertext as its
    associated data), the packet numbers that the framer keeps and the levels of its keys
    are unchanged, and the visitor has been called only for unauthenticated data and errors:
    whatever these calls keep still holds of it. *)
Theorem effects_are_authenticated (deque : bool) (P : V -> Prop) (packet : list Z) (f : QuicFramer) (k : @FramerKeys E D) (v : V) :
  Unauthenticated P -> P v -> exists out, ProcessPacket deque packet f k v = Some out /\ (harmless P f k out \/ authentic k packet).
Proof.
  intros HU Hv. apply (un_packet P HU) in Hv. unfold ProcessPacket. pose proof (ProcessPublicHeader_numbers f (MkReader packet 0 (endianness f))) as Hf.
  destruct (ProcessPublicHeader f (MkReader packet 0 (endianness f))) as [[[h|] f1] r] eqn:Eh;
    [|eexists; split; [done|]; left; by apply fail_harmless].
  apply (un_public P HU _ h) in Hv. destruct (OnUnauthenticatedPublicHeader h (OnPacket v)) as [[] v1]; cbn [negb snd] in *; [|by eexists; split; [done|]; left].
  set (other := match perspective_ f1, ph_versions h with IS_SERVER, version :: _ => _ | _, _ => false end).
  assert (P (snd (if other then OnProtocolVersionMismatch (nth 0 (ph_versions h) 0) v1 else (true, None, v1)))) as Hv2 by (destruct other; [by apply un_mismatch|done]).
  destruct (if other then _ else _) as [[go version] v2]. cbn [snd] in Hv2. pose proof (same_numbers_trans _ _ _ Hf (set_version_numbers f1 version)) as Hf2.
  set (f2 := set_version f1 version) in *. destruct go; cbn [negb]; [|by eexists; split; [done|]; left].
  assert (perspective_ f2 = perspective_ f) as Hp by apply Hf2.
  destruct ((match perspective_ f2 with IS_CLIENT => true | IS_SERVER => false end) && ph_version_flag h) eqn:Ec.
  { destruct (negotiation_harmless P (MkReader (dr_data_ r) (dr_pos_ r) (endianness f2)) h f2 f k v2 HU Hv2 Hf2) as (out & -> & Ho). exists out. by split; [|left]. }
  destruct (ph_reset_flag h); [eexists; split; [done|]; left; by apply reset_harmless|].
  rewrite Hp in Ec. destruct (ProcessPublicHeader_position _ _ _ _ _ _ Eh Ec) as (Hd & _ & Hpos & Hs). by apply data_harmless.
Qed.
End AnyPacket.

(** ** Examples *)

(** A visitor that accepts everything and collects frames and errors. *)
#[export] Instance packet_collector : QuicFramerVisitorInterface (list QuicFrame * list Z) := {
  OnPacket v := v;
  OnUnauthenticatedPublicHeader _ v := (true, v);
  OnProtocolVersionMismatch _ v := (false, None, v);
  OnVersionNegotiationPacket _ v := (None, v);
  OnPublicResetPacket _ v := v;
  OnUnauthenticatedHeader _ v := (true, v);
  OnDecryptedPacket _ v := v;
  OnPacketHeader _ v := (true, v);
  OnPacketComplete v := v }.
(** The keys of a new framer. *)
Definition null_keys (p : Perspective) : @FramerKeys NullEncrypter NullDecrypter :=
  match QuicFramer_new (fun p => p) (fun p => p) [40] 1000 p with
  | Some (_, _, k) => k
  | None => MkKeys (fun _ => None) p ENCRYPTION_NONE None ENCRYPTION_NONE false
  end.

Lemma packet_roundtrip_witness :
  exists n sent f2 kf' xs g' kg',
    (let '(len, f1, packet) := BuildDataPacket (host := true) true (example_framer 40 IS_CLIENT) example_header example_frames (replicate 200 0) in
     EncryptPayload (D := NullDecrypter) ENCRYPTION_NONE 400 (MkPacket (take len packet) (public_header example_header)) (replicate 300 0) f1 (null_keys IS_CLIENT) ([], []))
      = Some (n, sent, f2, kf', ([], [])) /\
    Forall2 (frame_received (example_framer 40 IS_CLIENT) (example_framer 40 IS_SERVER)) example_frames xs /\
    ProcessPacket (host := true) (H0 := NullDecrypter_decrypter (host := true)) true (take n sent) (example_framer 40 IS_SERVER) (null_keys IS_SERVER) ([], []) = Some (true, g', kg', deliver xs ([], [])).
Proof.
  pose proof (packet_roundtrip (host := true) (aead := Null_Aead (host := true) eq_refl) true true (example_framer 40 IS_CLIENT) (example_framer 40 IS_SERVER)
    example_header example_frames (replicate 200 0) (replicate 300 0) ENCRYPTION_NONE (null_keys IS_CLIENT) (null_keys IS_SERVER) IS_CLIENT ([], []) ([], [])
    eq_refl example_header_ok) as H.
  assert (supported 40) as Hs by (unfold supported; cbn; tauto).
  specialize (H Hs eq_refl eq_refl ltac:(cbn; unfold kU64Max; lia) ltac:(cbn; unfold is_u64; lia) ltac:(done) ltac:(cbn; lia) ltac:(done) example_frames_ok ltac:(done)
    ltac:(vm_compute; lia) eq_refl eq_refl).
  assert (match (let '(len, f1, packet) := BuildDataPacket (host := true) true (example_framer 40 IS_CLIENT) example_header example_frames (replicate 200 0) in
     EncryptPayload (D := NullDecrypter) ENCRYPTION_NONE 400 (MkPacket (take len packet) (public_header example_header)) (replicate 300 0) f1 (null_keys IS_CLIENT) ([], []))
    with Some (n, _, _, _, vf') => (vf', (0 <? n)%nat && (n <=? kMaxPacketSize)%nat) | None => (([], []), false) end = (([], []), true)) as Hc by (vm_compute; reflexivity).
  destruct (BuildDataPacket _ _ _ _ _) as [[len f1] packet]. revert H Hc. change (packet_number example_header) with 400.
  destruct (EncryptPayload _ _ _ _ _ _ _) as [[[[[n sent] f2] kf'] vf']|]; [|done].
  intros H [= -> Hn]. apply andb_true_iff in Hn as [Hn%Nat.ltb_lt Hm%Nat.leb_le].
  destruct (H _ _ _ _ _ eq_refl (conj Hn Hm)) as (xs & Hxs & g' & kg' & HP & _).
  exists n, sent, f2, kf', xs, g', kg'. split; [done|]. split; [exact Hxs|exact HP].
Defined.

(** A key that opens nothing. *)
Inductive NoKey := no_key.
#[export] Instance NoKey_decrypter : QuicDecrypter NoKey := { DecryptPacket _ _ _ _ _ d := (None, d); SetDiversificationNonce _ d := d }.
Definition no_keys : @FramerKeys NullEncrypter NoKey := MkKeys (fun _ => None) no_key ENCRYPTION_INITIAL (Some no_key) ENCRYPTION_FORWARD_SECURE true.

(** A packet whose number is 258, for a framer without the keys: no frame is delivered and
    the largest packet number stays 0. *)
Lemma effects_are_authenticated_witness :
  exists ok f' k' errors, ProcessPacket (host := true) true ([24; 0; 0; 0; 0; 0; 0; 0; 7; 1; 2] ++ replicate 30 7) (example_framer 40 IS_SERVER) no_keys ([], []) =
    Some (ok, f', k', ([], errors)) /\ largest_packet_number_ f' = 0 /\ decrypter_level_ k' = ENCRYPTION_INITIAL.
Proof.
  destruct (effects_are_authenticated (host := true) true (fun v : list QuicFrame * list Z => fst v = [])
    ([24; 0; 0; 0; 0; 0; 0; 0; 7; 1; 2] ++ replicate 30 7) (example_framer 40 IS_SERVER) no_keys ([], [])) as ([[[ok f'] k'] [xs errors]] & Hrun & Hout).
  - split; try done. intros [xs errors] code Hx. exact Hx.
  - reflexivity.
  - destruct Hout as [(Hx & (_ & Hl & _) & Hk & _)|(h & version & pn & d & d' & plaintext & _ & _ & Hd)]; [|discriminate Hd].
    cbn [fst] in Hx. subst xs. exists ok, f', k', errors. split; [exact Hrun|]. split; [exact Hl|exact Hk].
Defined.
