(* ===== verification/PublicPackets.v ===== *)
(** * Packets that are not encrypted

    A server answers with a version negotiation packet or a public reset
    ([BuildVersionNegotiationPacket], [BuildPublicResetPacket]); what [ProcessPacket] of
    [PacketProtection] makes of them at the client. *)

From S2P Require Import Prelude Int128 QuicUtils QuicData Framer FramerFacts FramerAck FramerPacket UnackedPacketMap HandshakeMessage CryptoFramer PacketProtection PacketFacts.
#[local] Open Scope Z_scope.
#[local] Open Scope wire_scope.

Section Public.
Context `{host : HostOrder}.

(** ** Addresses *)

Definition address_ok (a : QuicSocketAddress) : Prop :=
  (a = address_unset \/ (length (sa_ip a) = 4 \/ length (sa_ip a) = 16)%nat) /\ Forall is_octet (sa_ip a) /\ fits 2 (sa_port a).

Lemma Encode_length a : (length (Encode a) <= 20)%nat.
Proof. unfold Encode. destruct (Nat.eqb_spec (length (sa_ip a)) 4), (Nat.eqb_spec (length (sa_ip a)) 16); rewrite ?length_app, ?mem_bytes_length; simpl; lia. Qed.

Lemma Decode_Encode a : address_ok a -> IpUnspecified a = false -> Decode (Encode a) = Some a /\ Encode a <> [].
Proof.
  intros (Ha & _ & Hp) Hu. destruct a as [ip port]. unfold IpUnspecified, address_unset in *. cbn [sa_ip sa_port] in *.
  assert (forall family n, fits 2 family -> length ip = n -> (family =? kIPv4) = (n =? 4)%nat -> (n = 4 \/ n = 16)%nat -> (n = 16%nat -> (family =? kIPv6) = true) ->
    Decode (mem_bytes 2 family ++ ip ++ mem_bytes 2 port) = Some (MkAddress ip port) /\ mem_bytes 2 family ++ ip ++ mem_bytes 2 port <> []) as Hd.
  { intros family n Hf Hn H4 Hnn H16. assert (length (mem_bytes 2 family ++ ip ++ mem_bytes 2 port) = (4 + n)%nat) as Hl by (rewrite !length_app, !mem_bytes_length; lia).
    split; [|intros E; rewrite E in Hl; simpl in Hl; lia]. unfold Decode. rewrite Hl. change (4 + n <? 2)%nat with false. cbn iota.
    rewrite take_mem_bytes, drop_mem_bytes, (mem_value_bytes 2 family Hf), H4.
    assert ((if (n =? 4)%nat then Some 4%nat else if family =? kIPv6 then Some 16%nat else None) = Some n) as ->.
    { destruct Hnn as [->| ->]; [done|]. by rewrite H16. }
    rewrite length_app, mem_bytes_length, Hn. rewrite (proj2 (Nat.ltb_ge _ _)) by lia. replace (n + 2 - n)%nat with 2%nat by lia. cbn [Nat.eqb negb].
    by rewrite <- Hn, take_app_length, drop_app_length, mem_value_bytes. }
  unfold Encode. cbn [sa_ip sa_port]. destruct (Nat.eqb_spec (length ip) 4) as [E4|]; [apply (Hd kIPv4 4%nat); (done || lia || (by left))|].
  destruct (Nat.eqb_spec (length ip) 16) as [E16|]; [apply (Hd kIPv6 16%nat); (done || lia || (by right))|done].
Qed.

(** ** Headers *)

(** The header with these flags and connection ID. *)
Definition plain_header (flags connection_id : Z) : QuicPacketPublicHeader :=
  MkPublicHeader connection_id 8 (negb (Z.land flags PACKET_PUBLIC_FLAGS_RST =? 0)) (negb (Z.land flags PACKET_PUBLIC_FLAGS_VERSION =? 0))
    (ReadSequenceNumberLength (Z.shiftr flags kPublicHeaderSequenceNumberShift)) [] None.

Lemma plain_header_read flags connection_id e post g : In flags [9; 10; 13; 14] -> fits 8 connection_id -> perspective_ g = IS_CLIENT ->
  fparses e post ProcessPublicHeader g g (mem_bytes 1 flags ++ be_bytes 8 connection_id) (plain_header flags connection_id).
Proof.
  intros Hf Hc Hg. assert (fits 1 flags) as Hf1 by (unfold fits; simpl in *; intuition lia). intros pre. unfold ProcessPublicHeader. revert pre.
  eapply fparses_bind_lift; [by apply parses_u8|]. rewrite Hg, !andb_false_r.
  assert ((flags >? PACKET_PUBLIC_FLAGS_MAX) = false /\ (Z.land flags PACKET_PUBLIC_FLAGS_8BYTE_CONNECTION_ID =? 0) = false /\
    negb (Z.land flags PACKET_PUBLIC_FLAGS_RST =? 0) && negb (Z.land flags PACKET_PUBLIC_FLAGS_VERSION =? 0) = false /\
    forall b, b && (Z.land flags PACKET_PUBLIC_FLAGS_VERSION =? 0) && (Z.land flags PACKET_PUBLIC_FLAGS_RST =? 0) = false) as (Hm & H8 & Hrv & Hn).
  { simpl in Hf. destruct Hf as [<-|[<-|[<-|[<-|[]]]]]; (split_and!; [reflexivity..|by intros []]). }
  rewrite Hm, H8, Hrv, Hn, andb_false_r. cbn [negb andb].
  eapply fparses_end; [apply fparses_lift; by apply parses_connection_id|]. intros r. unfold fr_bind, fr_ret, plain_header. done.
Qed.

Lemma connection_id_bytes e id : appends e (WriteConnectionId id) (be_bytes 8 id).
Proof. unfold WriteConnectionId. rewrite mem_bytes_net. apply appends_bytes. Qed.

Lemma built_bytes wr bs len fresh : appends NETWORK_BYTE_ORDER wr bs -> length bs = len -> length fresh = len ->
  wr (MkWriter fresh 0 NETWORK_BYTE_ORDER) = (true, dw_put (MkWriter fresh 0 NETWORK_BYTE_ORDER) bs) /\
  dw_buffer_ (dw_put (MkWriter fresh 0 NETWORK_BYTE_ORDER) bs) = bs.
Proof.
  intros Ha Hl Hf. split.
  - apply (appends_emits _ _ _ Ha); [unfold dw_ok, dw_capacity; simpl; lia|done|unfold dw_capacity; simpl; lia].
  - unfold dw_put, copy_at. cbn [dw_buffer_ dw_length_ Nat.add]. rewrite drop_ge, app_nil_r by lia. done.
Qed.
(** ** The reset message *)

Definition reset_message (packet : QuicPublicResetPacket) : CryptoHandshakeMessage :=
  let reset := SetValue 8 (set_tag CryptoHandshakeMessage_new kPRST) kRNON (pr_nonce_proof packet) in
  if IpUnspecified (pr_client_address packet) then reset else SetStringPiece reset kCADR (Encode (pr_client_address packet)).

Lemma reset_map packet : hm_tag_value_map_ (reset_message packet) =
  (kRNON, mem_bytes 8 (pr_nonce_proof packet)) :: if IpUnspecified (pr_client_address packet) then [] else [(kCADR, Encode (pr_client_address packet))].
Proof.
  unfold reset_message, SetValue, SetStringPiece, set_tag, hm_set_map, CryptoHandshakeMessage_new. destruct (IpUnspecified _); [done|].
  cbn [hm_tag_value_map_ tag_set]. change (kCADR <? kRNON) with false. by change (kCADR =? kRNON) with false.
Qed.

Lemma reset_plain packet : hm_tag_ (reset_message packet) = kPRST /\ hm_serialized_ (reset_message packet) = None /\ needs_pad (reset_message packet) = false.
Proof. unfold needs_pad, reset_message. by destruct (IpUnspecified _). Qed.

Lemma Encode_octets a : Forall is_octet (sa_ip a) -> Forall is_octet (Encode a).
Proof.
  intros Ho. unfold Encode. destruct (_ =? 4)%nat; [|destruct (_ =? 16)%nat; [|constructor]]; (apply Forall_app; split; [apply mem_bytes_octets|]);
    (apply Forall_app; split; [done|apply mem_bytes_octets]).
Qed.

Lemma reset_sendable packet : address_ok (pr_client_address packet) -> sendable (reset_message packet).
Proof.
  intros (_ & Ho & _). destruct (reset_plain packet) as (Ht & _ & Hp). pose proof (Encode_length (pr_client_address packet)) as Hl.
  assert (fits 4 kRNON /\ fits 4 kCADR) as [H1 H2] by done. assert (Forall is_octet (Encode (pr_client_address packet))) as He by (by apply Encode_octets).
  pose proof (mem_bytes_octets 8 (pr_nonce_proof packet)) as Hn.
  pose proof (reset_map packet) as Hm. destruct (IpUnspecified (pr_client_address packet));
    split; unfold padded; rewrite ?Ht, ?Hp, ?Hm; cbn [fmap list_fmap fst snd length]; try done;
    repeat constructor; try done; unfold values_size; cbn [sum_list_with snd]; rewrite ?mem_bytes_length; (done || lia || (unfold kMaxEntries; lia)).
Qed.

Definition reset_flags (old : bool) : Z := if old then 14 else 10.
Definition reset_bytes (old : bool) (packet : QuicPublicResetPacket) : list Z :=
  (mem_bytes 1 (reset_flags old) ++ be_bytes 8 (ph_connection_id (pr_public_header packet))) ++ serialized (reset_message packet).

Lemma BuildPublicReset_bytes old packet : address_ok (pr_client_address packet) -> BuildPublicResetPacket old packet = Some (reset_bytes old packet).
Proof.
  intros Ha. destruct (reset_plain packet) as (_ & Hs & _). destruct (serialized_ok _ (reset_sendable packet Ha)) as (Hc & _).
  unfold BuildPublicResetPacket. fold (reset_flags old).
  assert (negb (IpUnspecified (pr_client_address packet)) && (length (Encode (pr_client_address packet)) =? 0)%nat = false) as ->.
  { destruct (IpUnspecified (pr_client_address packet)) eqn:Eu; [done|]. destruct (Decode_Encode _ Ha Eu) as [_ Hne]. by destruct (Encode _). }
  assert ((if negb (IpUnspecified (pr_client_address packet)) then _ else _) = reset_message packet) as -> by (unfold reset_message; by destruct (IpUnspecified _)).
  unfold GetSerialized. rewrite Hs, Hc. cbn [mbind option_bind].
  assert ((if old then Z.lor (Z.lor PACKET_PUBLIC_FLAGS_RST PACKET_PUBLIC_FLAGS_8BYTE_CONNECTION_ID) PACKET_PUBLIC_FLAGS_8BYTE_CONNECTION_ID_OLD
    else Z.lor PACKET_PUBLIC_FLAGS_RST PACKET_PUBLIC_FLAGS_8BYTE_CONNECTION_ID) = reset_flags old) as -> by (by destruct old).
  set (len := (kPublicFlagsSize + 8 + length (serialized (reset_message packet)))%nat).
  destruct (built_bytes (WriteUInt8 (reset_flags old) >&> WriteConnectionId (ph_connection_id (pr_public_header packet)) >&> WriteBytes (serialized (reset_message packet)))
    (reset_bytes old packet) len (replicate len 0)) as [Hw Hb].
  - unfold reset_bytes. rewrite <- app_assoc. apply appends_and; [apply appends_u8|]. apply appends_and; [apply connection_id_bytes|apply appends_bytes].
  - unfold reset_bytes. rewrite !length_app, mem_bytes_length. change (be_bytes 8) with (wire_bytes NETWORK_BYTE_ORDER 8). rewrite wire_bytes_length. unfold len, kPublicFlagsSize. lia.
  - apply length_replicate.
  - rewrite Hw, Hb. done.
Qed.

Lemma received_reset packet : fits 8 (pr_nonce_proof packet) -> address_ok (pr_client_address packet) ->
  GetUint64 (received (reset_message packet)) kRNON = (QUIC_NO_ERROR, pr_nonce_proof packet) /\
  match GetStringPiece (received (reset_message packet)) kCADR with Some a => default address_unset (Decode a) | None => address_unset end = pr_client_address packet.
Proof.
  intros Hn Ha. destruct (reset_plain packet) as (_ & _ & Hp). unfold GetUint64, GetPOD, GetStringPiece, received, padded. cbn [hm_tag_value_map_]. rewrite Hp, reset_map.
  cbn [tag_find]. rewrite Z.eqb_refl, mem_bytes_length, mem_value_bytes by done. split; [done|]. change (kRNON =? kCADR) with false. cbn iota.
  destruct (IpUnspecified (pr_client_address packet)) eqn:Eu; cbn [tag_find].
  - destruct Ha as ([->|Hl] & _); [done|]. unfold IpUnspecified in Eu. by destruct Hl as [Hl|Hl]; rewrite Hl in Eu.
  - rewrite Z.eqb_refl. by rewrite (proj1 (Decode_Encode _ Ha Eu)).
Qed.
(** ** Versions *)

Definition version_bytes (versions : list Z) : list Z := concat (map (fun version => mem_bytes 4 (QuicVersionToQuicTag version)) versions).

Lemma version_bytes_length versions : length (version_bytes versions) = (length versions * 4)%nat.
Proof. unfold version_bytes. induction versions as [|version versions IH]; [done|]. cbn [map concat]. rewrite length_app, mem_bytes_length, IH. simpl. lia. Qed.

Lemma WriteTags_bytes e versions : appends e (WriteTags versions) (version_bytes versions).
Proof. induction versions as [|version versions IH]; [apply appends_true|]. cbn [WriteTags]. apply appends_and; [apply appends_bytes|exact IH]. Qed.

Lemma read_versions_bytes versions fuel acc pre e : versions <> [] -> Forall supported versions -> (length versions <= fuel)%nat ->
  read_versions fuel acc (MkReader (pre ++ version_bytes versions) (length pre) e) = Some (Some (acc ++ versions)).
Proof.
  revert fuel acc pre. induction versions as [|version versions IH]; intros fuel acc pre Hne Hs Hf; [done|]. destruct fuel as [|fuel]; [simpl in Hf; lia|].
  inversion Hs as [|?? Hv Hvs]; subst. destruct (QuicTag_inverse version Hv) as [Ht Hf4]. cbn [read_versions]. unfold version_bytes. cbn [map concat]. fold (version_bytes versions).
  rewrite (parses_tag e (version_bytes versions) _ Hf4 pre), Ht. unfold IsDoneReading, dr_len_. cbn [dr_data_ dr_pos_]. rewrite !length_app, mem_bytes_length, version_bytes_length.
  destruct versions as [|version2 versions].
  - rewrite (proj2 (Nat.eqb_eq _ _)) by (simpl; lia). done.
  - rewrite (proj2 (Nat.eqb_neq _ _)) by (simpl; lia). specialize (IH fuel (acc ++ [version]) (pre ++ mem_bytes 4 (QuicVersionToQuicTag version)) ltac:(done) Hvs ltac:(simpl in *; lia)).
    rewrite <- !app_assoc, length_app, mem_bytes_length in IH. exact IH.
Qed.

Definition negotiation_bytes (connection_id : Z) (versions : list Z) : list Z := (mem_bytes 1 13 ++ be_bytes 8 connection_id) ++ version_bytes versions.

Lemma BuildVersionNegotiation_bytes connection_id versions fresh : (GetVersionNegotiationPacketSize (length versions) <= length fresh)%nat ->
  BuildVersionNegotiationPacket connection_id versions fresh = Some (negotiation_bytes connection_id versions).
Proof.
  intros Hf. unfold BuildVersionNegotiationPacket. set (len := GetVersionNegotiationPacketSize (length versions)) in *.
  change (Z.lor (Z.lor PACKET_PUBLIC_FLAGS_VERSION PACKET_PUBLIC_FLAGS_8BYTE_CONNECTION_ID) PACKET_PUBLIC_FLAGS_8BYTE_CONNECTION_ID_OLD) with 13.
  destruct (built_bytes (WriteUInt8 13 >&> WriteConnectionId connection_id >&> WriteTags versions) (negotiation_bytes connection_id versions) len (take len fresh)) as [Hw Hb].
  - unfold negotiation_bytes. rewrite <- app_assoc. apply appends_and; [apply appends_u8|]. apply appends_and; [apply connection_id_bytes|apply WriteTags_bytes].
  - unfold negotiation_bytes. rewrite !length_app, mem_bytes_length, version_bytes_length. change (be_bytes 8) with (wire_bytes NETWORK_BYTE_ORDER 8). rewrite wire_bytes_length.
    unfold len, GetVersionNegotiationPacketSize, kPublicFlagsSize, kQuicVersionSize. lia.
  - rewrite length_take. lia.
  - rewrite Hw, Hb. done.
Qed.

(** ** At the client *)

Context {E D : Type} `{QuicEncrypter E} `{QuicDecrypter D} {V : Type} `{QuicFramerVisitorInterface V}.

Lemma client_reads_header deque flags connection_id rest g (k : @FramerKeys E D) (v : V) :
  In flags [9; 10; 13; 14] -> fits 8 connection_id -> perspective_ g = IS_CLIENT ->
  let packet := (mem_bytes 1 flags ++ be_bytes 8 connection_id) ++ rest in
  let h := plain_header flags connection_id in
  let r := MkReader packet (length (mem_bytes 1 flags ++ be_bytes 8 connection_id)) (endianness g) in
  ProcessPacket deque packet g k v =
    let '(go_on, v) := OnUnauthenticatedPublicHeader h (OnPacket v) in
    if negb go_on then Some (true, g, k, v)
    else if ph_version_flag h then ProcessVersionNegotiationPacket r h g k v
    else if ph_reset_flag h then Some (ProcessPublicResetPacket r h g k v)
    else ProcessDataPacket deque r h packet (Nat.max kMaxPacketSize (length packet)) g k v.
Proof.
  intros Hf Hc Hg packet h r. unfold ProcessPacket. pose proof (plain_header_read flags connection_id (endianness g) rest g Hf Hc Hg []) as Hp.
  cbn [app length Nat.add] in Hp. fold packet in Hp. rewrite Hp. fold h. destruct (OnUnauthenticatedPublicHeader h (OnPacket v)) as [[] v1]; cbn [negb]; [|done].
  cbn [ph_versions h plain_header]. rewrite Hg. cbn [set_version negb andb dr_data_ dr_pos_]. rewrite Hg. done.
Qed.

(** C37: What a server says in the clear arrives.  A public reset is always built for a
    well-formed address, and the client's visitor is given its connection ID, nonce proof and
    client address; a version negotiation packet is given with its versions in order.  Both
    leave the framer and its keys as they were, but for a version that the visitor chooses. *)
Theorem public_packets_roundtrip (deque old : bool) (packet : QuicPublicResetPacket) (versions fresh : list Z) (g : QuicFramer) (k : @FramerKeys E D) (v : V) :
  let id := ph_connection_id (pr_public_header packet) in
  let reset_header := plain_header (reset_flags old) id in
  let header := plain_header 13 id in
  let offered := MkPublicHeader id 8 false true (ph_packet_number_length header) versions None in
  perspective_ g = IS_CLIENT -> fits 8 id -> fits 8 (pr_nonce_proof packet) -> address_ok (pr_client_address packet) ->
  versions <> [] -> Forall supported versions -> (GetVersionNegotiationPacketSize (length versions) <= length fresh)%nat ->
  (exists bytes, BuildPublicResetPacket old packet = Some bytes /\
    ProcessPacket deque bytes g k v =
      let '(go_on, v) := OnUnauthenticatedPublicHeader reset_header (OnPacket v) in
      Some (true, g, k, if go_on : bool then OnPublicResetPacket (MkPublicReset reset_header (pr_nonce_proof packet) (pr_client_address packet)) v else v)) /\
  (exists bytes, BuildVersionNegotiationPacket id versions fresh = Some bytes /\
    ProcessPacket deque bytes g k v =
      let '(go_on, v) := OnUnauthenticatedPublicHeader header (OnPacket v) in
      let '(version, v) := if go_on : bool then OnVersionNegotiationPacket offered v else (None, v) in
      Some (true, set_version g version, k, v)).
Proof.
  intros id reset_header header offered Hg Hid Hn Ha Hne Hs Hf. split.
  - exists (reset_bytes old packet). split; [by apply BuildPublicReset_bytes|]. unfold reset_bytes.
    rewrite client_reads_header; [|unfold reset_flags; destruct old; simpl; tauto|done|done]. fold id reset_header.
    destruct (OnUnauthenticatedPublicHeader reset_header (OnPacket v)) as [[] v1]; cbn [negb]; [|done].
    assert (ph_version_flag reset_header = false /\ ph_reset_flag reset_header = true) as [-> ->] by (by destruct old).
    unfold ProcessPublicResetPacket. rewrite PeekRemaining_app. destruct (serialized_ok _ (reset_sendable packet Ha)) as (_ & -> & _).
    change (hm_tag_ (received (reset_message packet))) with (hm_tag_ (reset_message packet)). rewrite (proj1 (reset_plain packet)), Z.eqb_refl. cbn [negb].
    destruct (received_reset packet Hn Ha) as [-> ->]. done.
  - exists (negotiation_bytes id versions). split; [by apply BuildVersionNegotiation_bytes|]. unfold negotiation_bytes.
    rewrite client_reads_header; [|simpl; tauto|done|done]. fold header. destruct (OnUnauthenticatedPublicHeader header (OnPacket v)) as [[] v1]; cbn [negb]; [|done].
    change (ph_version_flag header) with true. cbn iota. unfold ProcessVersionNegotiationPacket. rewrite read_versions_bytes; [|done|done|].
    + cbn [mbind option_bind]. change (MkPublicHeader _ _ _ _ _ _ _) with offered. by destruct (OnVersionNegotiationPacket offered v1).
    + unfold BytesRemaining, dr_len_. cbn [dr_data_ dr_pos_]. rewrite length_app, version_bytes_length. lia.
Qed.
End Public.

(** ** Examples *)

(** A visitor that keeps resets and offers of versions. *)
Definition seen : Type := list (QuicPublicResetPacket + QuicPacketPublicHeader).
#[export] Instance seen_frames : QuicFramerVisitor seen := {| OnFrame _ v := (true, v); OnError _ v := v |}.
#[export] Instance seen_packets : QuicFramerVisitorInterface seen := {
  OnPacket v := v;
  OnUnauthenticatedPublicHeader _ v := (true, v);
  OnProtocolVersionMismatch _ v := (false, None, v);
  OnVersionNegotiationPacket h v := (Some (nth 0 (ph_versions h) 0), v ++ [inr h]);
  OnPublicResetPacket packet v := v ++ [inl packet];
  OnUnauthenticatedHeader _ v := (true, v);
  OnDecryptedPacket _ v := v;
  OnPacketHeader _ v := (true, v);
  OnPacketComplete v := v }.
Definition example_reset : QuicPublicResetPacket := MkPublicReset (MkPublicHeader 77 8 true false 1 [] None) 123456789 (MkAddress [127; 0; 0; 1] 443).

Lemma public_packets_roundtrip_witness :
  (exists bytes, BuildPublicResetPacket (host := true) false example_reset = Some bytes /\
    ProcessPacket (host := true) true bytes (example_framer 39 IS_CLIENT) no_keys ([] : seen) =
      Some (true, example_framer 39 IS_CLIENT, no_keys, [inl (MkPublicReset (MkPublicHeader 77 8 true false 1 [] None) 123456789 (MkAddress [127; 0; 0; 1] 443))])) /\
  (exists bytes, BuildVersionNegotiationPacket (host := true) 77 [38; 36] (replicate 17 0) = Some bytes /\
    ProcessPacket (host := true) true bytes (example_framer 39 IS_CLIENT) no_keys ([] : seen) =
      Some (true, example_framer 38 IS_CLIENT, no_keys, [inr (MkPublicHeader 77 8 false true 1 [38; 36] None)])).
Proof.
  destruct (public_packets_roundtrip (host := true) (V := seen) true false example_reset [38; 36] (replicate 17 0) (example_framer 39 IS_CLIENT) no_keys [])
    as [(b1 & H1 & P1) (b2 & H2 & P2)].
  - reflexivity.
  - unfold fits. cbn. lia.
  - unfold fits. cbn. lia.
  - split; [right; left; reflexivity|]. split; [repeat constructor; unfold is_octet; lia|unfold fits; cbn; lia].
  - discriminate.
  - repeat constructor; unfold supported; cbn; tauto.
  - vm_compute. repeat constructor.
  - split; [exists b1|exists b2]; (split; [assumption|]); [rewrite P1|rewrite P2]; reflexivity.
Defined.
