(* ===== verification/PacketCreator.v ===== *)
(** * quic/core/quic_packet_creator.cc

    The packet creator collects frames for the next packet, keeping count of its size, and
    serializes it: it builds the header, the frames and the padding with the framer of
    [Framer] and [PacketProtection], encrypts the packet and hands it to its delegate.

    [World] is the creator with the framer it shares, the framer's keys and the object
    behind its interfaces (the connection), which is the framer's visitor and the creator's
    delegate.  The delegate is given the packet and may take its frames; it does not call
    the creator back.  [None] is a call through a null pointer or outside a buffer.

    [uninitialised n] is what a new buffer of [n] bytes holds.  The flags of the command
    line are parameters; the debug delegate is left out. *)

From S2P Require Import Prelude ReceivedPacketManager QuicData Framer FramerFacts FramerPacket StreamSendBuffer UnackedPacketMap QuicStream HandshakeMessage CryptoFramer PacketProtection.
#[local] Open Scope Z_scope.
#[local] Open Scope wire_scope.

Definition QUIC_ATTEMPT_TO_SEND_UNENCRYPTED_STREAM_DATA : Z := 88.
Definition QUIC_FAILED_TO_SERIALIZE_PACKET : Z := 75.
Definition QUIC_CRYPTO_CHLO_TOO_LARGE : Z := 90.
Definition kDefaultMaxPacketSize : nat := 1350.
Definition kCryptoStreamId : Z := 1.

(** ** Data *)

(** [SerializedPacket]; the buffer is the bytes the pointer points to. *)
Record CreatedPacket := MkCreated {
  cp_encrypted_buffer : option (list Z);
  cp_encrypted_length : Z;
  cp_retransmittable_frames : list QuicFrame;
  cp_has_crypto_handshake : bool;
  cp_num_padding_bytes : Z;
  cp_packet_number : Z;
  cp_packet_number_length : nat;
  cp_encryption_level : EncryptionLevel;
  cp_has_ack : bool;
  cp_has_stop_waiting : bool;
  cp_transmission_type : TransmissionType;
  cp_original_packet_number : Z;
  cp_largest_acked : Z;
  cp_listeners : list AckListenerWrapper }.
Definition NoPacket : CreatedPacket := MkCreated None 0 [] false 0 0 1 ENCRYPTION_NONE false false NOT_RETRANSMISSION 0 0 [].

Record QuicPendingRetransmission := MkRetransmission {
  pt_packet_number : Z;
  pt_retransmittable_frames : list QuicFrame;
  pt_transmission_type : TransmissionType;
  pt_has_crypto_handshake : bool;
  pt_num_padding_bytes : Z;
  pt_encryption_level : EncryptionLevel;
  pt_packet_number_length : nat }.

(** [next_packet_number_length_] is set by the constructor and never used. *)
Record QuicPacketCreator := MkCreator {
  send_version_in_packet_ : bool;
  diversification_nonce_ : option (list Z);
  max_packet_length_ : nat;
  max_plaintext_size_ : nat;
  connection_id_length_ : nat;
  queued_frames_ : list QuicFrame;
  packet_size_ : nat;
  connection_id_ : Z;
  packet_ : CreatedPacket;
  latched_flag_no_stop_waiting_frames_ : bool;
  pending_padding_bytes_ : Z;
  needs_full_padding_ : bool }.

(** Updates of the packet and of the creator. *)
Definition cp_set_encrypted (p : CreatedPacket) (buffer : option (list Z)) (length : Z) : CreatedPacket :=
  MkCreated buffer length (cp_retransmittable_frames p) (cp_has_crypto_handshake p) (cp_num_padding_bytes p) (cp_packet_number p)
    (cp_packet_number_length p) (cp_encryption_level p) (cp_has_ack p) (cp_has_stop_waiting p) (cp_transmission_type p) (cp_original_packet_number p)
    (cp_largest_acked p) (cp_listeners p).
Definition cp_set_frames (p : CreatedPacket) (frames : list QuicFrame) (handshake : bool) : CreatedPacket :=
  MkCreated (cp_encrypted_buffer p) (cp_encrypted_length p) frames handshake (cp_num_padding_bytes p) (cp_packet_number p)
    (cp_packet_number_length p) (cp_encryption_level p) (cp_has_ack p) (cp_has_stop_waiting p) (cp_transmission_type p) (cp_original_packet_number p)
    (cp_largest_acked p) (cp_listeners p).
Definition cp_set_padding (p : CreatedPacket) (n : Z) : CreatedPacket :=
  MkCreated (cp_encrypted_buffer p) (cp_encrypted_length p) (cp_retransmittable_frames p) (cp_has_crypto_handshake p) n (cp_packet_number p)
    (cp_packet_number_length p) (cp_encryption_level p) (cp_has_ack p) (cp_has_stop_waiting p) (cp_transmission_type p) (cp_original_packet_number p)
    (cp_largest_acked p) (cp_listeners p).
Definition cp_set_number (p : CreatedPacket) (number : Z) (len : nat) (level : EncryptionLevel) : CreatedPacket :=
  MkCreated (cp_encrypted_buffer p) (cp_encrypted_length p) (cp_retransmittable_frames p) (cp_has_crypto_handshake p) (cp_num_padding_bytes p) number
    len level (cp_has_ack p) (cp_has_stop_waiting p) (cp_transmission_type p) (cp_original_packet_number p)
    (cp_largest_acked p) (cp_listeners p).
Definition cp_set_acks (p : CreatedPacket) (has_ack has_stop_waiting : bool) (largest_acked : Z) : CreatedPacket :=
  MkCreated (cp_encrypted_buffer p) (cp_encrypted_length p) (cp_retransmittable_frames p) (cp_has_crypto_handshake p) (cp_num_padding_bytes p) (cp_packet_number p)
    (cp_packet_number_length p) (cp_encryption_level p) has_ack has_stop_waiting (cp_transmission_type p) (cp_original_packet_number p)
    largest_acked (cp_listeners p).
Definition cp_set_original (p : CreatedPacket) (type : TransmissionType) (original : Z) : CreatedPacket :=
  MkCreated (cp_encrypted_buffer p) (cp_encrypted_length p) (cp_retransmittable_frames p) (cp_has_crypto_handshake p) (cp_num_padding_bytes p) (cp_packet_number p)
    (cp_packet_number_length p) (cp_encryption_level p) (cp_has_ack p) (cp_has_stop_waiting p) type original
    (cp_largest_acked p) (cp_listeners p).
Definition cp_set_listeners (p : CreatedPacket) (l : list AckListenerWrapper) : CreatedPacket :=
  MkCreated (cp_encrypted_buffer p) (cp_encrypted_length p) (cp_retransmittable_frames p) (cp_has_crypto_handshake p) (cp_num_padding_bytes p) (cp_packet_number p)
    (cp_packet_number_length p) (cp_encryption_level p) (cp_has_ack p) (cp_has_stop_waiting p) (cp_transmission_type p) (cp_original_packet_number p)
    (cp_largest_acked p) l.
Definition pc_set_packet (c : QuicPacketCreator) (p : CreatedPacket) : QuicPacketCreator :=
  MkCreator (send_version_in_packet_ c) (diversification_nonce_ c) (max_packet_length_ c) (max_plaintext_size_ c) (connection_id_length_ c)
    (queued_frames_ c) (packet_size_ c) (connection_id_ c) p (latched_flag_no_stop_waiting_frames_ c) (pending_padding_bytes_ c) (needs_full_padding_ c).
Definition pc_set_queue (c : QuicPacketCreator) (frames : list QuicFrame) (size : nat) : QuicPacketCreator :=
  MkCreator (send_version_in_packet_ c) (diversification_nonce_ c) (max_packet_length_ c) (max_plaintext_size_ c) (connection_id_length_ c)
    frames size (connection_id_ c) (packet_ c) (latched_flag_no_stop_waiting_frames_ c) (pending_padding_bytes_ c) (needs_full_padding_ c).
Definition pc_set_padding (c : QuicPacketCreator) (pending : Z) (full : bool) : QuicPacketCreator :=
  MkCreator (send_version_in_packet_ c) (diversification_nonce_ c) (max_packet_length_ c) (max_plaintext_size_ c) (connection_id_length_ c)
    (queued_frames_ c) (packet_size_ c) (connection_id_ c) (packet_ c) (latched_flag_no_stop_waiting_frames_ c) pending full.
Definition pc_set_max (c : QuicPacketCreator) (length plaintext : nat) : QuicPacketCreator :=
  MkCreator (send_version_in_packet_ c) (diversification_nonce_ c) length plaintext (connection_id_length_ c)
    (queued_frames_ c) (packet_size_ c) (connection_id_ c) (packet_ c) (latched_flag_no_stop_waiting_frames_ c) (pending_padding_bytes_ c) (needs_full_padding_ c).
Definition pc_set_header (c : QuicPacketCreator) (version : bool) (nonce : option (list Z)) (id_length : nat) : QuicPacketCreator :=
  MkCreator version nonce (max_packet_length_ c) (max_plaintext_size_ c) id_length
    (queued_frames_ c) (packet_size_ c) (connection_id_ c) (packet_ c) (latched_flag_no_stop_waiting_frames_ c) (pending_padding_bytes_ c) (needs_full_padding_ c).

(** ** Queries *)

Definition HasPendingFrames (c : QuicPacketCreator) : bool := match queued_frames_ c with [] => false | _ => true end.
Definition HasPendingRetransmittableFrames (c : QuicPacketCreator) : bool :=
  match cp_retransmittable_frames (packet_ c) with [] => false | _ => true end.
Definition CanSetMaxPacketLength (c : QuicPacketCreator) : bool := negb (HasPendingFrames c).

Definition IncludeNonceInPublicHeader (c : QuicPacketCreator) : bool :=
  match diversification_nonce_ c with Some _ => bool_decide (cp_encryption_level (packet_ c) = ENCRYPTION_INITIAL) | None => false end.

(** A stream frame that is last now will need its length when another frame follows. *)
Definition ExpansionOnNewFrame (c : QuicPacketCreator) : nat :=
  match list.last (queued_frames_ c) with Some (StreamFrame _) => kQuicStreamPayloadLengthSize | _ => 0 end.
Definition PacketSize (c : QuicPacketCreator) : nat * QuicPacketCreator :=
  if HasPendingFrames c then (packet_size_ c, c)
  else
    let size := GetPacketHeaderSize (connection_id_length_ c) (send_version_in_packet_ c) (IncludeNonceInPublicHeader c) (cp_packet_number_length (packet_ c)) in
    (size, pc_set_queue c (queued_frames_ c) size).
Definition BytesFree (c : QuicPacketCreator) : nat * QuicPacketCreator :=
  let '(size, c) := PacketSize c in
  ((max_plaintext_size_ c - Nat.min (max_plaintext_size_ c) (size + ExpansionOnNewFrame c))%nat, c).

Definition ShouldRetransmit (frame : QuicFrame) : bool :=
  match frame with AckFrame _ | PaddingFrame _ | StopWaitingFrame _ | MtuDiscoveryFrame => false | _ => true end.
Definition StreamFramePacketOverhead (version : Z) (connection_id_length : nat) (include_version include_diversification_nonce : bool)
    (packet_number_length : nat) (offset : Z) : nat :=
  (GetPacketHeaderSize connection_id_length include_version include_diversification_nonce packet_number_length + GetMinStreamFrameSize version 1 offset true)%nat.

(** ** The delegate *)

(** The packet as the delegate leaves it, and errors. *)
Class DelegateInterface (V : Type) := {
  OnSerializedPacket : CreatedPacket -> V -> CreatedPacket * V;
  OnUnrecoverableError : Z -> V -> V }.

Section PacketCreator.
Context `{host : HostOrder} {E D : Type} `{QuicEncrypter E} `{QuicDecrypter D} {V : Type} `{QuicFramerVisitorInterface V} `{DelegateInterface V}.
Context (remove_v33_hacks2 enforce_single_packet_chlo clear_packet_before_handed_over : bool) (uninitialised : nat -> list Z).

Record World := MkWorld { creator : QuicPacketCreator; framer : QuicFramer; keys : @FramerKeys E D; conn : V }.
Definition with_creator (w : World) (c : QuicPacketCreator) : World := MkWorld c (framer w) (keys w) (conn w).
Definition with_conn (w : World) (v : V) : World := MkWorld (creator w) (framer w) (keys w) v.

(** ** Settings *)

Definition pc_SetEncrypter (w : World) (level : EncryptionLevel) (e : E) : World :=
  let k := SetEncrypter (keys w) level e in
  let c := creator w in
  MkWorld (pc_set_max c (max_packet_length_ c) (Z.to_nat (GetMaxPlaintextSize k (Z.of_nat (max_packet_length_ c))))) (framer w) k (conn w).
Definition SetMaxPacketLength (c : QuicPacketCreator) (k : @FramerKeys E D) (length : nat) : QuicPacketCreator :=
  if (length =? max_packet_length_ c)%nat then c
  else pc_set_max c length (Z.to_nat (GetMaxPlaintextSize k (Z.of_nat length))).
Definition QuicPacketCreator_new (connection_id : Z) (f : QuicFramer) (k : @FramerKeys E D) (no_stop_waiting_frames : bool) : QuicPacketCreator :=
  SetMaxPacketLength
    (MkCreator (match perspective_ f with IS_CLIENT => true | IS_SERVER => false end) None 0 0 8 [] 0 connection_id NoPacket no_stop_waiting_frames 0 false)
    k kDefaultMaxPacketSize.
Definition StopSendingVersion (c : QuicPacketCreator) : QuicPacketCreator :=
  let c := pc_set_header c false (diversification_nonce_ c) (connection_id_length_ c) in
  if (0 <? packet_size_ c)%nat then pc_set_queue c (queued_frames_ c) (packet_size_ c - kQuicVersionSize) else c.
Definition pc_SetDiversificationNonce (c : QuicPacketCreator) (nonce : list Z) : QuicPacketCreator :=
  pc_set_header c (send_version_in_packet_ c) (Some nonce) (connection_id_length_ c).
Definition set_encryption_level (c : QuicPacketCreator) (level : EncryptionLevel) : QuicPacketCreator :=
  pc_set_packet c (cp_set_number (packet_ c) (cp_packet_number (packet_ c)) (cp_packet_number_length (packet_ c)) level).
Definition set_connection_id_length (c : QuicPacketCreator) (length : nat) : QuicPacketCreator :=
  pc_set_header c (send_version_in_packet_ c) (diversification_nonce_ c) length.
Definition UpdatePacketNumberLength (c : QuicPacketCreator) (version least_packet_awaited_by_peer max_packets_in_flight : Z) : QuicPacketCreator :=
  if HasPendingFrames c then c
  else
    let p := packet_ c in
    let current_delta := (cp_packet_number p +64 1) -64 least_packet_awaited_by_peer in
    let delta := Z.max current_delta max_packets_in_flight in
    pc_set_packet c (cp_set_number p (cp_packet_number p) (GetMinPacketNumberLength version (u64 (delta * 4))) (cp_encryption_level p)).
Definition AddPendingPadding (c : QuicPacketCreator) (size : Z) : QuicPacketCreator :=
  pc_set_padding c (pending_padding_bytes_ c +64 size) (needs_full_padding_ c).
Definition AddAckListener (c : QuicPacketCreator) (listener : Z) (length : Z) : QuicPacketCreator :=
  pc_set_packet c (cp_set_listeners (packet_ c) (cp_listeners (packet_ c) ++ [MkListener listener length])).

(** ** Frames *)

(** What [AddFrame] does with a packet; [flush] is what it does when there is no room. *)
Definition added_packet (c : QuicPacketCreator) (frame : QuicFrame) (save_retransmittable_frames : bool) : CreatedPacket :=
  let p := packet_ c in
  let p := if save_retransmittable_frames && ShouldRetransmit frame
           then cp_set_frames p (cp_retransmittable_frames p ++ [frame])
                  (match frame with StreamFrame s => (sf_stream_id s =? kCryptoStreamId) || cp_has_crypto_handshake p | _ => cp_has_crypto_handshake p end)
           else p in
  match frame with
  | AckFrame a => cp_set_acks p true (cp_has_stop_waiting p) (if latched_flag_no_stop_waiting_frames_ c then largest_observed a else cp_largest_acked p)
  | StopWaitingFrame _ => cp_set_acks p (cp_has_ack p) true (cp_largest_acked p)
  | _ => p
  end.
Definition add_frame (flush : World -> option World) (frame : QuicFrame) (save_retransmittable_frames : bool) (w : World) : option (bool * World) :=
  let c := creator w in
  if match frame with
     | StreamFrame s => negb (sf_stream_id s =? kCryptoStreamId) && bool_decide (cp_encryption_level (packet_ c) = ENCRYPTION_NONE)
     | _ => false
     end
  then Some (false, with_conn w (OnUnrecoverableError QUIC_ATTEMPT_TO_SEND_UNENCRYPTED_STREAM_DATA (conn w)))
  else
    let '(free, c) := BytesFree c in
    let frame_len := GetSerializedFrameLength (quic_version_ (framer w)) frame free (negb (HasPendingFrames c)) true (cp_packet_number_length (packet_ c)) in
    if (frame_len =? 0)%nat then w ← flush (with_creator w c); Some (false, w)
    else
      let c' := pc_set_queue c (queued_frames_ c ++ [frame]) (packet_size_ c + (ExpansionOnNewFrame c + frame_len)) in
      Some (true, with_creator w (pc_set_packet c' (added_packet c frame save_retransmittable_frames))).

(** Padding is added when a byte is free, so it fits.  A frame of no or a negative length
    (other than [-1]), which a pending amount of [2 ^ 15] or more can give, does not, and the
    flush that follows comes back here with a multiple of [2 ^ 16] pending, without end:
    that is [None]. *)
Definition MaybeAddPadding (w : World) : option World :=
  let '(free, c) := BytesFree (creator w) in
  if (free =? 0)%nat then Some (with_creator w c)
  else if negb (needs_full_padding_ c) && (pending_padding_bytes_ c =? 0) then Some (with_creator w c)
  else
    let n := if needs_full_padding_ c then -1 else Z.min (wrapS 16 (pending_padding_bytes_ c)) (wrapS 16 (Z.of_nat free)) in
    let c := if needs_full_padding_ c then c else pc_set_padding c (pending_padding_bytes_ c -64 n) (needs_full_padding_ c) in
    let c := pc_set_packet c (cp_set_padding (packet_ c) n) in
    '(_, w) ← add_frame (fun _ => None) (PaddingFrame n) false (with_creator w c);
    Some w.

Definition FillPacketHeader (c : QuicPacketCreator) : QuicPacketHeader * QuicPacketCreator :=
  let p := packet_ c in
  let number := cp_packet_number p +64 1 in
  (MkPacketHeader
     (MkPublicHeader (connection_id_ c) (connection_id_length_ c) false (send_version_in_packet_ c) (cp_packet_number_length p) []
        (if IncludeNonceInPublicHeader c then diversification_nonce_ c else None)) number,
   pc_set_packet c (cp_set_number p number (cp_packet_number_length p) (cp_encryption_level p))).

Definition SerializePacket (encrypted_buffer : list Z) (w : World) : option World :=
  let '(header, c) := FillPacketHeader (creator w) in
  w ← MaybeAddPadding (with_creator w c);
  let c := creator w in
  if (length encrypted_buffer <? packet_size_ c)%nat then None
  else
    let '(length, f, written) := BuildDataPacket remove_v33_hacks2 (framer w) header (queued_frames_ c) (take (packet_size_ c) encrypted_buffer) in
    let encrypted_buffer := written ++ drop (packet_size_ c) encrypted_buffer in
    if (length =? 0)%nat then Some (MkWorld c f (keys w) (conn w))
    else
      '(encrypted_length, encrypted_buffer, f, k, v) ←
        EncryptInPlace (cp_encryption_level (packet_ c)) (cp_packet_number (packet_ c)) (GetStartOfEncryptedData (public_header header)) length encrypted_buffer f (keys w) (conn w);
      if (encrypted_length =? 0)%nat then Some (MkWorld c f k v)
      else
        let c := pc_set_queue c [] 0 in
        Some (MkWorld (pc_set_packet c (cp_set_encrypted (packet_ c) (Some encrypted_buffer) (wrapU 16 (Z.of_nat encrypted_length)))) f k v).

Definition ClearPacket (c : QuicPacketCreator) : QuicPacketCreator :=
  let p := packet_ c in
  pc_set_packet (pc_set_padding c (pending_padding_bytes_ c) false)
    (MkCreated None 0 (cp_retransmittable_frames p) false 0 (cp_packet_number p) (cp_packet_number_length p) (cp_encryption_level p) false false
       NOT_RETRANSMISSION 0 0 []).
Definition creator_OnSerializedPacket (w : World) : World :=
  let c := creator w in
  match cp_encrypted_buffer (packet_ c) with
  | None => with_conn w (OnUnrecoverableError QUIC_FAILED_TO_SERIALIZE_PACKET (conn w))
  | Some _ =>
      if negb clear_packet_before_handed_over then
        let '(p, v) := OnSerializedPacket (packet_ c) (conn w) in
        with_conn (with_creator w (ClearPacket (pc_set_packet c p))) v
      else
        let packet := packet_ c in
        let c := ClearPacket (pc_set_packet c (cp_set_listeners (cp_set_frames packet [] (cp_has_crypto_handshake packet)) [])) in
        let '(_, v) := OnSerializedPacket packet (conn w) in
        with_conn (with_creator w c) v
  end.
Definition Flush (w : World) : option World :=
  let c := creator w in
  if negb (HasPendingFrames c) && (pending_padding_bytes_ c =? 0) then Some w
  else w ← SerializePacket (uninitialised kMaxPacketSize) w; Some (creator_OnSerializedPacket w).

Definition AddFrame (frame : QuicFrame) (save_retransmittable_frames : bool) (w : World) : option (bool * World) :=
  add_frame Flush frame save_retransmittable_frames w.
Definition AddSavedFrame (frame : QuicFrame) (w : World) : option (bool * World) := AddFrame frame true w.
Definition AddPaddedSavedFrame (frame : QuicFrame) (w : World) : option (bool * World) :=
  '(ok, w) ← AddFrame frame true w;
  Some (ok, if ok : bool then with_creator w (pc_set_padding (creator w) (pending_padding_bytes_ (creator w)) true) else w).

(** ** Stream data *)

Definition HasRoomForStreamFrame (c : QuicPacketCreator) (version id offset : Z) : bool * QuicPacketCreator :=
  let '(free, c) := BytesFree c in ((GetMinStreamFrameSize version id offset true <? free)%nat, c).
(** The data of a new frame: none with a data producer, else a copy in a new buffer. *)
Definition frame_buffer (f : QuicFramer) (iov : QuicIOVector) (iov_offset bytes_consumed : nat) : list Z :=
  match data_producer_ f with
  | Some _ => []
  | None => let copied := CopyToBuffer (QuicStream.iov iov) iov_offset bytes_consumed in copied ++ drop (length copied) (uninitialised bytes_consumed)
  end.
Definition CreateStreamFrame (c : QuicPacketCreator) (f : QuicFramer) (id : Z) (iov : QuicIOVector) (iov_offset : nat) (offset : Z) (fin : bool)
    : QuicStreamFrame * QuicPacketCreator :=
  if Z.of_nat iov_offset =? total_length iov then (MkStreamFrame id true 0 [] offset, c)
  else
    let data_size := u64 (total_length iov - Z.of_nat iov_offset) in
    let min_frame_size := GetMinStreamFrameSize (quic_version_ f) id offset true in
    let '(free, c) := BytesFree c in
    let bytes_consumed := Z.min (u64 (Z.of_nat free - Z.of_nat min_frame_size)) data_size in
    let set_fin := fin && (bytes_consumed =? data_size) in
    (MkStreamFrame id set_fin (Z.to_nat bytes_consumed) (frame_buffer f iov iov_offset (Z.to_nat bytes_consumed)) offset, c).

Definition StreamFrameStartsWithChlo (f : QuicFramer) (frame : QuicStreamFrame) : bool :=
  match data_producer_ f with
  | None => (sf_stream_id frame =? kCryptoStreamId) && (4 <=? sf_data_length frame)%nat && bool_decide (take 4 (sf_data_buffer frame) = mem_bytes 4 kCHLO)
  | Some _ =>
      if match perspective_ f with IS_SERVER => true | IS_CLIENT => false end || negb (sf_stream_id frame =? kCryptoStreamId) || (sf_data_length frame <? 4)%nat then false
      else StartsWithChlo (uninitialised 4) f (sf_stream_id frame) (sf_offset frame)
  end.

(** The frame, when it was added. *)
Definition ConsumeData (id : Z) (iov : QuicIOVector) (iov_offset : nat) (offset : Z) (fin needs_full_padding : bool) (w : World)
    : option (option QuicStreamFrame * World) :=
  let '(room, c) := HasRoomForStreamFrame (creator w) (quic_version_ (framer w)) id offset in
  if negb room then Some (None, with_creator w c)
  else
    let '(frame, c) := CreateStreamFrame c (framer w) id iov iov_offset offset fin in
    let w := with_creator w c in
    if enforce_single_packet_chlo && StreamFrameStartsWithChlo (framer w) frame && (Z.of_nat (sf_data_length frame) <? total_length iov)
    then Some (None, with_conn w (OnUnrecoverableError QUIC_CRYPTO_CHLO_TOO_LARGE (conn w)))
    else
      '(ok, w) ← AddFrame (StreamFrame frame) true w;
      if negb ok then Some (None, w)
      else
        let c := creator w in
        Some (Some frame, if needs_full_padding then with_creator w (pc_set_padding c (pending_padding_bytes_ c) true) else w).

(** A packet with one stream frame, written directly; the bytes consumed, when a packet was
    serialized. *)
Definition CreateAndSerializeStreamFrame (id : Z) (iov : QuicIOVector) (iov_offset : nat) (stream_offset : Z) (fin : bool) (ack_listener : option Z) (w : World)
    : option (option Z * World) :=
  let '(header, c) := FillPacketHeader (creator w) in
  let f := framer w in
  let '(ok, f, wr) := AppendPacketHeader remove_v33_hacks2 f header (MkWriter (uninitialised kMaxPacketSize) 0 (endianness f)) in
  let w := MkWorld c f (keys w) (conn w) in
  if negb ok then Some (None, w)
  else
    let remaining_data_size := u64 (total_length iov - Z.of_nat iov_offset) in
    let min_frame_size := GetMinStreamFrameSize (quic_version_ f) id stream_offset true in
    let available_size := u64 (Z.of_nat (max_plaintext_size_ c) - Z.of_nat (dw_length_ wr) - Z.of_nat min_frame_size) in
    let bytes_consumed := Z.min available_size remaining_data_size in
    let set_fin := fin && (bytes_consumed =? remaining_data_size) in
    let frame := MkStreamFrame id set_fin (Z.to_nat bytes_consumed) (frame_buffer f iov iov_offset (Z.to_nat bytes_consumed)) stream_offset in
    let '(ok, wr) := (AppendTypeByte (quic_version_ f) (StreamFrame frame) true >&> AppendStreamFrame (quic_version_ f) (data_producer_ f) frame true) wr in
    if negb ok then Some (None, w)
    else
      '(encrypted_length, encrypted_buffer, f, k, v) ←
        EncryptInPlace (cp_encryption_level (packet_ c)) (cp_packet_number (packet_ c)) (GetStartOfEncryptedData (public_header header)) (dw_length_ wr) (dw_buffer_ wr) f (keys w) (conn w);
      let w := MkWorld c f k v in
      if (encrypted_length =? 0)%nat then Some (None, w)
      else
        let c := pc_set_queue c (queued_frames_ c) 0 in
        let p := cp_set_encrypted (packet_ c) (Some encrypted_buffer) (wrapU 16 (Z.of_nat encrypted_length)) in
        let p := match ack_listener with Some l => cp_set_listeners p (cp_listeners p ++ [MkListener l (wrapU 16 bytes_consumed)]) | None => p end in
        let p := cp_set_frames p (cp_retransmittable_frames p ++ [StreamFrame frame]) (cp_has_crypto_handshake p) in
        Some (Some bytes_consumed, creator_OnSerializedPacket (with_creator w (pc_set_packet c p))).

(** ** Retransmissions and version negotiation *)

Fixpoint add_all (frames : list QuicFrame) (w : World) : option World :=
  match frames with
  | [] => Some w
  | frame :: frames => '(_, w) ← AddFrame frame false w; add_all frames w
  end.
Definition ReserializeAllFrames (retransmission : QuicPendingRetransmission) (buffer : list Z) (w : World) : option World :=
  let c := creator w in
  let default_encryption_level := cp_encryption_level (packet_ c) in
  let level := if pt_has_crypto_handshake retransmission || negb (bool_decide (default_encryption_level = ENCRYPTION_FORWARD_SECURE))
               then pt_encryption_level retransmission else default_encryption_level in
  let c := pc_set_packet c (cp_set_number (packet_ c) (cp_packet_number (packet_ c)) (pt_packet_number_length retransmission) level) in
  let c := if pt_num_padding_bytes retransmission =? -1 then pc_set_padding c (pending_padding_bytes_ c) true else c in
  w ← add_all (pt_retransmittable_frames retransmission) (with_creator w c);
  w ← SerializePacket buffer w;
  let c := creator w in
  let w := with_creator w (pc_set_packet c (cp_set_original (packet_ c) (pt_transmission_type retransmission) (pt_packet_number retransmission))) in
  let w := creator_OnSerializedPacket w in
  Some (with_creator w (set_encryption_level (creator w) default_encryption_level)).

Definition SerializeVersionNegotiationPacket (c : QuicPacketCreator) (supported_versions : list Z) : option (list Z) :=
  BuildVersionNegotiationPacket (connection_id_ c) supported_versions (uninitialised (GetVersionNegotiationPacketSize (length supported_versions))).
End PacketCreator.
