(* ===== verification/PacketCreatorFacts.v ===== *)
(** * What the packet creator promises

    Frames that fit are collected in one packet whose size is known exactly, and a flushed
    packet is no longer than the limit and is read by the peer ([PacketFacts]) as these
    frames. *)

From S2P Require Import Prelude Interval IntervalSet PacketNumberQueue ReceivedPacketManager.
From S2P Require Import Int128 QuicUtils QuicData Framer FramerFacts FramerAck FramerPacket StreamSendBuffer UnackedPacketMap QuicStream HandshakeMessage CryptoFramer.
From S2P Require Import PacketProtection PacketFacts PacketCreator.
#[local] Open Scope Z_scope.
#[local] Open Scope wire_scope.

(** Encrypters that add a tag of a fixed length, and know it. *)
Class AeadTag (E : Type) `{QuicEncrypter E} (tag : E -> nat) := {
  tag_seals version pn ad plaintext room e : (length plaintext + tag e <= room)%nat ->
    exists c e', EncryptPacket version pn ad plaintext room e = (Some c, e') /\ length c = (length plaintext + tag e)%nat /\ tag e' = tag e;
  tag_max n e : (tag e <= n)%nat -> Z.of_nat n < 2 ^ 64 -> enc_GetMaxPlaintextSize (Z.of_nat n) e = Z.of_nat (n - tag e) }.

#[export] Program Instance Null_AeadTag : AeadTag NullEncrypter (fun _ => 12%nat).
Next Obligation.
  intros version pn ad plaintext room e Hr. cbn beta in *. cbn [EncryptPacket NullEncrypter_encrypter]. unfold NullEncrypter_EncryptPacket, kHashSizeShort.
  rewrite (proj2 (Nat.ltb_ge _ _)) by lia. eexists _, e. split; [done|]. split; [|done]. rewrite length_app.
  assert (forall h, length (SerializeUint128Short h) = 12%nat) as Hs by done. rewrite Hs. lia.
Qed.
Next Obligation.
  intros n e Hn Hb. cbn beta in *. cbn [enc_GetMaxPlaintextSize NullEncrypter_encrypter]. unfold kHashSizeShort. rewrite u64_id by (unfold is_u64; lia). lia.
Qed.

(** ** Sizes *)

Section Sizes.
Context `{host : HostOrder}.

Definition no_padding (frames : list QuicFrame) : Prop := Forall (fun fr => is_padding fr = false) frames.

(** How much the last frame grows. *)
Definition expansion (frames : list QuicFrame) : nat := match list.last frames with Some (StreamFrame _) => 2 | _ => 0 end.

Lemma frame_size_follow v header frame : frame_size v header frame false = (frame_size v header frame true + expansion [frame])%nat.
Proof. destruct frame; try done. cbn [frame_size ComputeFrameLength expansion list.last]. unfold GetMinStreamFrameSize, kQuicStreamPayloadLengthSize. lia. Qed.

Lemma frames_size_snoc v header frames frame :
  frames_size v header (frames ++ [frame]) = (frames_size v header frames + expansion frames + frame_size v header frame true)%nat.
Proof.
  induction frames as [|x frames IH]; [simpl; lia|].
  change (frames_size v header ((x :: frames) ++ [frame])) with (frame_size v header x (is_last (frames ++ [frame])) + frames_size v header (frames ++ [frame]))%nat.
  change (frames_size v header (x :: frames)) with (frame_size v header x (is_last frames) + frames_size v header frames)%nat. rewrite IH. destruct frames as [|y frames].
  - cbn [app is_last frames_size]. rewrite frame_size_follow. change (expansion []) with 0%nat. lia.
  - change (expansion (x :: y :: frames)) with (expansion (y :: frames)). change (is_last ((y :: frames) ++ [frame])) with false. change (is_last (y :: frames)) with false. lia.
Qed.

Lemma frames_size_prefix v header frames rest : (frames_size v header frames <= frames_size v header (frames ++ rest))%nat.
Proof.
  revert frames. induction rest as [|x rest IH]; intros frames; [by rewrite app_nil_r|]. change (x :: rest) with ([x] ++ rest). rewrite app_assoc.
  etransitivity; [|apply IH]. rewrite frames_size_snoc. lia.
Qed.

Lemma frames_size_number v h1 h2 frames : ph_packet_number_length (public_header h1) = ph_packet_number_length (public_header h2) ->
  frames_size v h1 frames = frames_size v h2 frames.
Proof.
  intros Hl. induction frames as [|x frames IH]; [done|]. cbn [frames_size]. rewrite IH. f_equal. unfold frame_size. by rewrite Hl.
Qed.

Lemma frames_ok_padding f g header frames n : no_padding frames -> frames_ok f g header frames -> -1 <= n -> (37 < quic_version_ f -> n <> 0) ->
  frames_ok f g header (frames ++ [PaddingFrame n]).
Proof.
  intros Hnp Hok Hn Hz. revert g Hok. induction Hnp as [|fr rest Hp Hnp IH]; intros g Hok.
  - cbn. split_and!; try done. intros m [= <-]. done.
  - cbn [app frames_ok] in *. destruct Hok as (Hfr & Hneg & _ & Hrest). split_and!; [|done|by rewrite Hp|by apply IH]. by destruct fr.
Qed.
End Sizes.

(** ** Collecting frames *)

Section Creator.
Context `{host : HostOrder}.

(** The header of the next packet. *)
Definition next_header (c : QuicPacketCreator) : QuicPacketHeader := fst (FillPacketHeader c).
Definition header_len (c : QuicPacketCreator) : nat := header_size (public_header (next_header c)).

(** What adding frames leaves alone. *)
Definition base (c : QuicPacketCreator) :=
  (send_version_in_packet_ c, diversification_nonce_ c, max_packet_length_ c, max_plaintext_size_ c, connection_id_length_ c, connection_id_ c,
   latched_flag_no_stop_waiting_frames_ c, (cp_packet_number (packet_ c), cp_packet_number_length (packet_ c), cp_encryption_level (packet_ c)),
   cp_encrypted_buffer (packet_ c)).
Definition padding_of (c : QuicPacketCreator) := (pending_padding_bytes_ c, needs_full_padding_ c, cp_num_padding_bytes (packet_ c)).

Lemma base_header c c' : base c' = base c -> next_header c' = next_header c.
Proof.
  unfold base, next_header, FillPacketHeader, IncludeNonceInPublicHeader. intros [= H1 H2 H3 H4 H5 H6 H7 H8 H9 H10 H11]. cbn [fst].
  by rewrite H1, H2, H5, H6, H8, H9, H10.
Qed.

Lemma base_fields c c' : base c' = base c ->
  max_plaintext_size_ c' = max_plaintext_size_ c /\ max_packet_length_ c' = max_packet_length_ c /\ cp_encryption_level (packet_ c') = cp_encryption_level (packet_ c) /\
  cp_packet_number (packet_ c') = cp_packet_number (packet_ c).
Proof. unfold base. intros [= H1 H2 H3 H4 H5 H6 H7 H8 H9 H10 H11]. done. Qed.

Lemma header_len_nonce c :
  header_len c = GetPacketHeaderSize (connection_id_length_ c) (send_version_in_packet_ c) (IncludeNonceInPublicHeader c) (cp_packet_number_length (packet_ c)).
Proof.
  unfold header_len, next_header, FillPacketHeader, header_size. cbn [fst public_header ph_connection_id_length ph_version_flag ph_nonce ph_packet_number_length].
  unfold IncludeNonceInPublicHeader. destruct (diversification_nonce_ c); [|done]. by destruct (bool_decide _).
Qed.

(** The queue holds these frames, and the size is exact. *)
Record holds (v : Z) (c : QuicPacketCreator) (frames : list QuicFrame) : Prop := {
  hold_queue : queued_frames_ c = frames;
  hold_size : frames <> [] -> packet_size_ c = (header_len c + frames_size v (next_header c) frames)%nat;
  hold_fits : (header_len c + frames_size v (next_header c) frames <= max_plaintext_size_ c)%nat }.

Lemma BytesFree_holds v c frames : holds v c frames -> exists c',
  BytesFree c = ((max_plaintext_size_ c - Nat.min (max_plaintext_size_ c) (header_len c + frames_size v (next_header c) frames + expansion frames))%nat, c') /\
  queued_frames_ c' = frames /\ packet_size_ c' = (header_len c + frames_size v (next_header c) frames)%nat /\ packet_ c' = packet_ c /\ base c' = base c /\ padding_of c' = padding_of c.
Proof.
  intros [Hq Hs Hf]. unfold BytesFree, PacketSize, HasPendingFrames. rewrite Hq. destruct frames as [|x frames].
  - eexists. rewrite <- header_len_nonce. split; [unfold ExpansionOnNewFrame; cbn [pc_set_queue queued_frames_ max_plaintext_size_ list.last]; cbn [frames_size]; do 2 f_equal; change (expansion []) with 0%nat; lia|].
    cbn [pc_set_queue queued_frames_ packet_size_ frames_size]. split_and!; (done || lia).
  - exists c. rewrite Hs by done. unfold ExpansionOnNewFrame. rewrite Hq. split_and!; done.
Qed.

Lemma frame_size_pos v header frame last : is_padding frame = false -> (0 < frame_size v header frame last)%nat.
Proof.
  destruct frame; try done; intros _; cbn [frame_size ComputeFrameLength];
    unfold GetRstStreamFrameSize, GetMinConnectionCloseFrameSize, GetMinGoAwayFrameSize, GetWindowUpdateFrameSize, GetBlockedFrameSize, GetStopWaitingFrameSize,
      GetMinStreamFrameSize, GetAckFrameSize, GetMinAckFrameSize, kQuicFrameTypeSize; lia.
Qed.
End Creator.

Section Adding.
Context `{host : HostOrder} {E D : Type} `{QuicEncrypter E} `{QuicDecrypter D} {V : Type} `{QuicFramerVisitorInterface V} `{DelegateInterface V}.
Context (remove_v33_hacks2 enforce_single_packet_chlo clear_packet_before_handed_over : bool) (uninitialised : nat -> list Z).
#[local] Abbreviation World := (@World E D V).
#[local] Abbreviation AddFrame := (AddFrame (E := E) (D := D) (V := V) remove_v33_hacks2 clear_packet_before_handed_over uninitialised).

(** Data of streams other than the crypto stream needs a key. *)
Definition may_add (c : QuicPacketCreator) (frame : QuicFrame) : Prop :=
  match frame with StreamFrame s => sf_stream_id s = kCryptoStreamId \/ cp_encryption_level (packet_ c) <> ENCRYPTION_NONE | _ => True end.

Lemma add_frame_len v frame free first len : is_padding frame = false -> (ComputeFrameLength v frame true len <= free)%nat ->
  GetSerializedFrameLength v frame free first true len = ComputeFrameLength v frame true len.
Proof. intros Hp Hf. unfold GetSerializedFrameLength. destruct frame; try done; by rewrite (proj2 (Nat.leb_le _ _) Hf). Qed.

Lemma add_frame_fits flush frame save (w : World) frames v :
  quic_version_ (framer w) = v -> holds v (creator w) frames -> is_padding frame = false -> may_add (creator w) frame ->
  (header_len (creator w) + frames_size v (next_header (creator w)) (frames ++ [frame]) <= max_plaintext_size_ (creator w))%nat ->
  exists c, add_frame flush frame save w = Some (true, with_creator w c) /\ holds v c (frames ++ [frame]) /\ base c = base (creator w) /\
    padding_of c = padding_of (creator w) /\
    cp_retransmittable_frames (packet_ c) = cp_retransmittable_frames (packet_ (creator w)) ++ (if save && ShouldRetransmit frame then [frame] else []).
Proof.
  intros Hv Hh Hp Ha Hfit. destruct (BytesFree_holds v _ _ Hh) as (c & Hb & Hq & Hs & Hpk & Hbase & Hpad). unfold add_frame.
  assert (match frame with StreamFrame s => negb (sf_stream_id s =? kCryptoStreamId) && bool_decide (cp_encryption_level (packet_ (creator w)) = ENCRYPTION_NONE) | _ => false end = false) as ->.
  { destruct frame; try done. destruct Ha as [->|Hl]; [by rewrite Z.eqb_refl|]. rewrite bool_decide_eq_false_2 by done. by rewrite andb_false_r. }
  rewrite Hb. rewrite frames_size_snoc in Hfit. set (free := (_ - _)%nat). pose proof (frame_size_pos v (next_header (creator w)) frame true Hp) as Hpos.
  assert (frame_size v (next_header (creator w)) frame true = ComputeFrameLength v frame true (cp_packet_number_length (packet_ c))) as Hfs.
  { rewrite Hpk. by destruct frame. }
  rewrite Hfs in *. rewrite Hv, add_frame_len by (done || (unfold free; lia)). rewrite (proj2 (Nat.eqb_neq _ _)) by lia.
  assert (ExpansionOnNewFrame c = expansion frames) as Hexp by (unfold ExpansionOnNewFrame; by rewrite Hq).
  eexists. split; [done|]. match goal with |- holds _ ?c' _ /\ _ => assert (base c' = base c /\ padding_of c' = padding_of c) as [Hb' Hp'] end.
  { unfold base, padding_of, added_packet. by destruct frame, save. }
  rewrite Hbase in Hb'. rewrite Hpad in Hp'. split; [|split; [done|split; [done|]]].
  - pose proof (base_header _ _ Hb') as Hn. split; [cbn; by rewrite Hq| |].
    + intros _. unfold header_len. rewrite Hn, frames_size_snoc, Hfs. cbn [pc_set_packet pc_set_queue packet_size_]. rewrite Hs, Hexp. unfold header_len. lia.
    + unfold header_len. rewrite Hn, frames_size_snoc, Hfs. rewrite (proj1 (base_fields _ _ Hb')). unfold header_len in Hfit. lia.
  - cbn [pc_set_packet packet_]. unfold added_packet. rewrite Hpk. by destruct frame, save; cbn; rewrite ?app_nil_r.
Qed.

(** Frame after frame, through the interface. *)
Fixpoint add_frames (frames : list QuicFrame) (w : World) : option (bool * World) :=
  match frames with
  | [] => Some (true, w)
  | frame :: rest => '(ok, w) ← AddFrame frame true w; if ok : bool then add_frames rest w else Some (false, w)
  end.

Lemma add_frames_fit frames (w : World) before v :
  quic_version_ (framer w) = v -> holds v (creator w) before -> no_padding frames -> Forall (may_add (creator w)) frames ->
  (header_len (creator w) + frames_size v (next_header (creator w)) (before ++ frames) <= max_plaintext_size_ (creator w))%nat ->
  exists c, add_frames frames w = Some (true, with_creator w c) /\ holds v c (before ++ frames) /\ base c = base (creator w) /\
    padding_of c = padding_of (creator w) /\
    cp_retransmittable_frames (packet_ c) = cp_retransmittable_frames (packet_ (creator w)) ++ filter (fun fr => ShouldRetransmit fr = true) frames.
Proof.
  revert w before. induction frames as [|x frames IH]; intros w before Hv Hh Hnp Hma Hfit.
  { exists (creator w). rewrite app_nil_r. cbn [add_frames filter list_filter]. rewrite app_nil_r. by destruct w. }
  inversion Hnp as [|?? Hx Hnp']; subst. inversion Hma as [|?? Hax Hma']; subst.
  destruct (add_frame_fits (Flush remove_v33_hacks2 clear_packet_before_handed_over uninitialised) x true w before _ eq_refl Hh Hx Hax) as (c & Hadd & Hh' & Hb & Hp & Hr).
  { etransitivity; [|exact Hfit]. apply Nat.add_le_mono_l. change (x :: frames) with ([x] ++ frames). rewrite app_assoc. apply frames_size_prefix. }
  cbn [add_frames]. unfold PacketCreator.AddFrame. rewrite Hadd. cbn [mbind option_bind].
  destruct (IH (with_creator w c) (before ++ [x])) as (c' & Hadd' & Hh'' & Hb' & Hp' & Hr'); try done.
  { eapply Forall_impl; [exact Hma'|]. intros fr Hfr. unfold may_add in *. destruct fr; try done. cbn [with_creator creator]. destruct (base_fields _ _ Hb) as (_ & _ & -> & _). done. }
  { cbn [with_creator creator]. unfold header_len. rewrite (base_header _ _ Hb), <- app_assoc. destruct (base_fields _ _ Hb) as (-> & _). exact Hfit. }
  exists c'. rewrite <- app_assoc in Hh''. cbn [with_creator creator] in *. split_and!; try done; try congruence.
  rewrite Hr', Hr, <- app_assoc. f_equal. rewrite filter_cons. cbn [andb]. by destruct (ShouldRetransmit x).
Qed.
(** ** Padding *)

Definition full_or_part (n : Z) : Prop := n = -1 \/ 1 <= n.

Definition pad_need (n : Z) : nat := if n =? -1 then 1%nat else Z.to_nat n.

(** The padding that a packet gets, when it has room. *)
Definition pad_ok (c : QuicPacketCreator) (pad : list QuicFrame) : Prop :=
  pad = [] \/ exists n, pad = [PaddingFrame n] /\ full_or_part n /\ (n = -1 <-> needs_full_padding_ c = true) /\ (n <> -1 -> n <= pending_padding_bytes_ c).

Lemma add_padding_fits n (w : World) frames v :
  quic_version_ (framer w) = v -> holds v (creator w) frames -> full_or_part n -> n < 2 ^ 16 ->
  (header_len (creator w) + frames_size v (next_header (creator w)) frames + expansion frames + pad_need n <= max_plaintext_size_ (creator w))%nat ->
  exists c, add_frame (fun _ => None) (PaddingFrame n) false w = Some (true, with_creator w c) /\ queued_frames_ c = frames ++ [PaddingFrame n] /\
    (header_len (creator w) + frames_size v (next_header (creator w)) (frames ++ [PaddingFrame n]) <= packet_size_ c <= max_plaintext_size_ (creator w))%nat /\
    base c = base (creator w) /\ padding_of c = padding_of (creator w) /\ cp_retransmittable_frames (packet_ c) = cp_retransmittable_frames (packet_ (creator w)).
Proof.
  intros Hv Hh Hn Hn16 Hfit. destruct (BytesFree_holds v _ _ Hh) as (c & Hb & Hq & Hs & Hpk & Hbase & Hpad). unfold add_frame. rewrite Hb, Hv.
  set (size := (header_len (creator w) + frames_size v (next_header (creator w)) frames)%nat) in *. set (free := (_ - _)%nat).
  assert (0 < pad_need n <= free)%nat as Hfree by (unfold free, full_or_part, pad_need in *; destruct (Z.eqb_spec n (-1)); lia).
  assert (exists len, GetSerializedFrameLength v (PaddingFrame n) free (negb (HasPendingFrames c)) true (cp_packet_number_length (packet_ c)) = len /\
    (pad_need n <= len <= free)%nat) as (len & -> & Hlen).
  { eexists. split; [done|]. unfold pad_need in *. cbn [GetSerializedFrameLength]. destruct (Z.eqb_spec n (-1)); [lia|]. destruct Hn as [?|Hn]; [done|].
    rewrite u64_id by (unfold is_u64; lia). destruct (Z.ltb_spec (Z.of_nat free) n); lia. }
  rewrite (proj2 (Nat.eqb_neq _ _)) by lia. assert (ExpansionOnNewFrame c = expansion frames) as Hexp by (unfold ExpansionOnNewFrame; by rewrite Hq).
  eexists. split; [done|]. cbn [pc_set_packet pc_set_queue queued_frames_ packet_size_ packet_ added_packet ShouldRetransmit andb]. rewrite Hq, Hs, Hexp, Hpk.
  split; [done|]. rewrite frames_size_snoc. cbn [frame_size full_padding]. split_and!; try done.
  - assert ((if ((v <=? 37) || (n <? 0))%Z then 1 else Z.to_nat n) <= pad_need n)%nat.
    { unfold full_or_part, pad_need in *. destruct (Z.eqb_spec n (-1)) as [->|]; [by rewrite orb_true_r|]. destruct ((v <=? 37) || (n <? 0)); lia. }
    unfold size in *. lia.
  - unfold free in *. lia.
  - rewrite <- Hbase. unfold base. cbn. by rewrite Hpk.
  - rewrite <- Hpad. unfold padding_of. cbn. by rewrite Hpk.
Qed.

Lemma MaybeAddPadding_ok (w : World) frames v :
  quic_version_ (framer w) = v -> holds v (creator w) frames -> 0 <= pending_padding_bytes_ (creator w) < 2 ^ 15 -> Z.of_nat (max_plaintext_size_ (creator w)) < 2 ^ 15 ->
  exists c pad, MaybeAddPadding w = Some (with_creator w c) /\ queued_frames_ c = frames ++ pad /\ pad_ok (creator w) pad /\
    (header_len (creator w) + frames_size v (next_header (creator w)) (frames ++ pad) <= packet_size_ c <= max_plaintext_size_ (creator w))%nat /\
    base c = base (creator w) /\ cp_retransmittable_frames (packet_ c) = cp_retransmittable_frames (packet_ (creator w)) /\
    (pad = [] -> needs_full_padding_ (creator w) = true \/ pending_padding_bytes_ (creator w) <> 0 ->
      (max_plaintext_size_ (creator w) <= header_len (creator w) + frames_size v (next_header (creator w)) frames + expansion frames)%nat).
Proof.
  intros Hv Hh Hpend Hmax. destruct (BytesFree_holds v _ _ Hh) as (c & Hb & Hq & Hs & Hpk & Hbase & Hpad). unfold MaybeAddPadding. rewrite Hb.
  set (size := (header_len (creator w) + frames_size v (next_header (creator w)) frames)%nat) in *. set (free := (_ - _)%nat).
  pose proof (hold_fits _ _ _ Hh) as Hfits. fold size in Hfits.
  assert (needs_full_padding_ c = needs_full_padding_ (creator w) /\ pending_padding_bytes_ c = pending_padding_bytes_ (creator w)) as [Hf Hp].
  { unfold padding_of in Hpad. by injection Hpad as -> -> _. }
  destruct (Nat.eqb_spec free 0) as [E0|E0].
  { exists c, []. rewrite app_nil_r, Hpk. split_and!; try done; [by left|lia|lia|]. intros _ _. unfold free in E0. lia. }
  rewrite Hf, Hp. destruct (negb (needs_full_padding_ (creator w)) && (pending_padding_bytes_ (creator w) =? 0)) eqn:En.
  { exists c, []. rewrite app_nil_r, Hpk. split_and!; try done; [by left|lia|lia|]. intros _ Hn. apply andb_true_iff in En as [E1 E2%Z.eqb_eq]. apply negb_true_iff in E1. destruct Hn; congruence. }
  set (n := if needs_full_padding_ (creator w) then -1 else _). set (c1 := if needs_full_padding_ (creator w) then c else _).
  assert (full_or_part n /\ (n = -1 <-> needs_full_padding_ (creator w) = true) /\ (n <> -1 -> n <= pending_padding_bytes_ (creator w)) /\ n < 2 ^ 15 /\ (Z.to_nat n <= free)%nat) as (Hn & Hn1 & Hn2 & Hn3 & Hn4).
  { unfold n, full_or_part, free in *. destruct (needs_full_padding_ (creator w)); [lia|]. cbn [negb andb] in En. apply Z.eqb_neq in En.
    rewrite !wrapS_id by lia. lia. }
  assert (queued_frames_ c1 = frames /\ packet_size_ c1 = size /\ base c1 = base c /\ packet_ c1 = packet_ c) as (Hq1 & Hs1 & Hb1 & Hpk1) by (unfold c1; by destruct (needs_full_padding_ (creator w))).
  set (c2 := pc_set_packet c1 _). assert (base c2 = base (creator w)) as Hb2 by (rewrite <- Hbase, <- Hb1; unfold base, c2; cbn; by rewrite Hpk1).
  destruct (base_fields _ _ Hb2) as (Hmp & _). pose proof (base_header _ _ Hb2) as Hnh.
  destruct (add_padding_fits n (with_creator w c2) frames v Hv) as (c3 & Hadd & Hq3 & Hs3 & Hb3 & _ & Hr3); [|done|lia| |].
  { cbn [with_creator creator]. split; [exact Hq1| |]; unfold header_len; rewrite Hnh; [intros _; exact Hs1|]. rewrite Hmp. exact Hfits. }
  { cbn [with_creator creator]. unfold header_len. rewrite Hnh, Hmp. fold (header_len (creator w)). unfold free, full_or_part, pad_need in *. destruct (Z.eqb_spec n (-1)); lia. }
  exists c3, [PaddingFrame n]. change (with_creator (with_creator w c) c2) with (with_creator w c2). rewrite Hadd. cbn [mbind option_bind].
  cbn [with_creator creator] in *. unfold header_len in *. rewrite Hnh, Hmp in Hs3. split_and!; try done; try lia; try congruence.
  - right. by exists n.
  - rewrite Hr3. cbn. by rewrite Hpk1, Hpk.
Qed.
(** ** Stream data *)

(** A frame for stream data.  When the packet has room for more than an empty frame, a frame
    with the next bytes of the data is added, as many as fit and at least one, and it ends
    the stream exactly if nothing is left and the stream ends there; otherwise nothing is
    added and nothing is flushed. *)
Lemma consume_data_exact (enforce : bool) (w : World) frames v id (data : list (list Z)) (iov_offset : nat) (offset : Z) (fin full : bool) :
  quic_version_ (framer w) = v -> holds v (creator w) frames -> data_producer_ (framer w) = None ->
  (iov_offset < length (concat data))%nat -> Z.of_nat (length (concat data)) < 2 ^ 64 -> Z.of_nat (max_plaintext_size_ (creator w)) < 2 ^ 15 -> id <> kCryptoStreamId -> cp_encryption_level (packet_ (creator w)) <> ENCRYPTION_NONE ->
  (forall n, length (uninitialised n) = n) ->
  let room := (max_plaintext_size_ (creator w) - (header_len (creator w) + frames_size v (next_header (creator w)) frames + expansion frames))%nat in
  let least := GetMinStreamFrameSize v id offset true in
  let n := Nat.min (room - least) (length (concat data) - iov_offset) in
  exists c, ConsumeData remove_v33_hacks2 enforce clear_packet_before_handed_over uninitialised id (MkIov data (Z.of_nat (length (concat data)))) iov_offset offset fin full w =
      Some (if (least <? room)%nat then Some (MkStreamFrame id (fin && (iov_offset + n =? length (concat data))%nat) n (take n (drop iov_offset (concat data))) offset) else None, with_creator w c) /\
    holds v c (if (least <? room)%nat then frames ++ [StreamFrame (MkStreamFrame id (fin && (iov_offset + n =? length (concat data))%nat) n (take n (drop iov_offset (concat data))) offset)] else frames) /\
    base c = base (creator w) /\ ((least < room)%nat -> (0 < n)%nat).
Proof.
  intros Hv Hh Hdp Hoff Htot Hmax Hid Hlev Hun room least n. destruct (BytesFree_holds v _ _ Hh) as (c & Hb & Hq & Hs & Hpk & Hbase & Hpad).
  set (free := (max_plaintext_size_ (creator w) - _)%nat) in Hb. assert (free = room) as Hfr by (unfold free, room; lia). rewrite Hfr in Hb.
  unfold ConsumeData, HasRoomForStreamFrame. rewrite Hb, Hv. fold least. pose proof (base_header _ _ Hbase) as Hnh. destruct (base_fields _ _ Hbase) as (Hmp & _ & Hle' & _).
  assert (holds v c frames) as Hhc.
  { split; [done| |]; unfold header_len; rewrite Hnh; [intros _; exact Hs|]. rewrite Hmp. exact (hold_fits _ _ _ Hh). }
  destruct (Nat.ltb_spec least room) as [Hroom|Hroom]; cbn [negb]; [|exists c; split_and!; [done|done|done|intros; lia]].
  destruct (BytesFree_holds v _ _ Hhc) as (c1 & Hb1 & Hq1 & Hs1 & Hpk1 & Hbase1 & _). set (free1 := (max_plaintext_size_ c - _)%nat) in Hb1.
  assert (free1 = room) as Hfr1 by (unfold free1, room, header_len; rewrite Hnh, Hmp; lia). rewrite Hfr1 in Hb1.
  unfold CreateStreamFrame. cbn [total_length]. rewrite (proj2 (Z.eqb_neq _ _)) by lia. rewrite Hb1, Hv. fold least.
  rewrite !u64_id by (unfold is_u64, room; lia).
  assert (Z.min (Z.of_nat room - Z.of_nat least) (Z.of_nat (length (concat data)) - Z.of_nat iov_offset) = Z.of_nat n) as -> by (unfold n; lia). rewrite Nat2Z.id.
  assert ((Z.of_nat n =? Z.of_nat (length (concat data)) - Z.of_nat iov_offset) = (iov_offset + n =? length (concat data))%nat) as ->.
  { destruct (Z.eqb_spec (Z.of_nat n) (Z.of_nat (length (concat data)) - Z.of_nat iov_offset)), (Nat.eqb_spec (iov_offset + n) (length (concat data))); (done || lia). }
  assert (frame_buffer uninitialised (framer w) (MkIov data (Z.of_nat (length (concat data)))) iov_offset n = take n (drop iov_offset (concat data))) as ->.
  { unfold frame_buffer. rewrite Hdp. cbn [QuicStream.iov]. rewrite CopyToBuffer_spec, (drop_ge (uninitialised n)), app_nil_r; [done|]. rewrite Hun, length_take, length_drop. unfold n. lia. }
  set (frame := MkStreamFrame _ _ _ _ _). assert (StreamFrameStartsWithChlo uninitialised (framer (with_creator w c1)) frame = false) as ->.
  { unfold StreamFrameStartsWithChlo. cbn [with_creator framer]. rewrite Hdp. cbn [sf_stream_id frame]. by rewrite (proj2 (Z.eqb_neq _ _)). }
  rewrite andb_false_r. cbn [andb]. pose proof (base_header _ _ Hbase1) as Hnh1. destruct (base_fields _ _ Hbase1) as (Hmp1 & _ & Hle1 & _).
  destruct (add_frame_fits (Flush remove_v33_hacks2 clear_packet_before_handed_over uninitialised) (StreamFrame frame) true (with_creator w c1) frames v Hv) as (c2 & Hadd & Hh2 & Hb2 & _); try done.
  { cbn [with_creator creator]. split; [done| |]; unfold header_len; rewrite Hnh1; [intros _; exact Hs1|]. rewrite Hmp1. exact (hold_fits _ _ _ Hhc). }
  { right. cbn [with_creator creator]. by rewrite Hle1, Hle'. }
  { cbn [with_creator creator]. unfold header_len. rewrite Hnh1, Hmp1, Hnh, Hmp, frames_size_snoc. cbn [frame_size ComputeFrameLength sf_stream_id sf_offset sf_data_length frame].
    fold least. fold (header_len (creator w)). unfold room in Hroom. unfold n, room. lia. }
  unfold PacketCreator.AddFrame. rewrite Hadd. cbn [mbind option_bind negb]. cbn [with_creator creator] in *.
  assert (base c2 = base (creator w)) as Hbb by congruence. assert (0 < n)%nat as Hn by (unfold n; lia).
  exists (if full then pc_set_padding c2 (pending_padding_bytes_ c2) true else c2). split; [by destruct full|]. split; [|split; [by destruct full|done]].
  destruct full; [|done]. destruct Hh2 as [Ha Hbz Hcz]. split; [exact Ha|exact Hbz|exact Hcz].
Qed.
End Adding.

(** ** Serializing *)

Section Serializing.
Context `{host : HostOrder} (Hle : HostIsLittleEndian = true).
Context {E D : Type} `{QuicEncrypter E} `{QuicDecrypter D} {matching : E -> D -> Prop} {aead : Aead E D matching} {tag : E -> nat} {aead_tag : AeadTag E tag}.
Context {V : Type} `{QuicFramerVisitorInterface V} `{DelegateInterface V}.
Context (remove_v33_hacks2 clear_packet_before_handed_over : bool) (uninitialised : nat -> list Z) (Hun : forall n, length (uninitialised n) = n).
#[local] Abbreviation World := (@World E D V).

Lemma max_plaintext (k : @FramerKeys E D) level e n : encrypter_ k level = Some e -> (tag e <= n)%nat -> Z.of_nat n < 2 ^ 64 ->
  GetMaxPlaintextSize k (Z.of_nat n) <= Z.of_nat (n - tag e).
Proof.
  intros He Ht Hn. pose proof (tag_max n e Ht Hn) as Hm. unfold GetMaxPlaintextSize. cbn [fold_left].
  set (step := fun (m : Z) (x : option E) => match x with Some e0 => if enc_GetMaxPlaintextSize (Z.of_nat n) e0 <? m then enc_GetMaxPlaintextSize (Z.of_nat n) e0 else m | None => m end).
  assert (forall m x, step m x <= m) as Hdown by (intros m [x|]; cbn; [destruct (Z.ltb_spec (enc_GetMaxPlaintextSize (Z.of_nat n) x) m)|]; lia).
  assert (forall m, step m (Some e) <= Z.of_nat (n - tag e)) as Hstep by (intros m; cbn; rewrite Hm; destruct (Z.ltb_spec (Z.of_nat (n - tag e)) m); lia).
  change (step (step (step (Z.of_nat n) (encrypter_ k ENCRYPTION_NONE)) (encrypter_ k ENCRYPTION_INITIAL)) (encrypter_ k ENCRYPTION_FORWARD_SECURE) <= Z.of_nat (n - tag e)).
  destruct level; rewrite He; [etransitivity; [apply Hdown|]; etransitivity; [apply Hdown|]|etransitivity; [apply Hdown|]|]; apply Hstep.
Qed.

Lemma EncryptInPlace_bytes level pn (ad plaintext buffer : list Z) f (k : @FramerKeys E D) e (v : V) :
  encrypter_ k level = Some e -> take (length ad + length plaintext) buffer = ad ++ plaintext -> (length ad + length plaintext + tag e <= length buffer)%nat ->
  exists c e' k', EncryptInPlace level pn (length ad) (length ad + length plaintext) buffer f k v =
      Some ((length ad + length c)%nat, copy_at buffer (length ad) c, f, k', v) /\
    EncryptPacket (quic_version_ f) pn ad plaintext (length buffer - length ad) e = (Some c, e') /\ length c = (length plaintext + tag e)%nat /\
    take (length ad + length c) (copy_at buffer (length ad) c) = ad ++ c /\ encrypter_ k' level = Some e' /\ k' = SetEncrypter k level e' /\ tag e' = tag e.
Proof.
  intros He Ht Hl. destruct (tag_seals (quic_version_ f) pn ad plaintext (length buffer - length ad) e ltac:(lia)) as (c & e' & Ec & Hc & Hte).
  assert (take (length ad) buffer = ad) as Had.
  { transitivity (take (length ad) (ad ++ plaintext)); [|apply take_app_length]. rewrite <- Ht, take_take. f_equal. lia. }
  exists c, e', (SetEncrypter k level e'). unfold EncryptInPlace. rewrite He. cbn [mbind option_bind].
  rewrite (proj2 (Nat.leb_le _ _)), (proj2 (Nat.leb_le _ _)) by lia. cbn [andb negb]. rewrite Had.
  assert (take (length ad + length plaintext - length ad) (drop (length ad) buffer) = plaintext) as ->.
  { replace (length ad + length plaintext - length ad)%nat with (length plaintext) by lia.
    transitivity (drop (length ad) (ad ++ plaintext)); [|apply drop_app_length]. rewrite <- Ht. apply take_drop_commute. }
  rewrite Ec. split_and!; try done.
  - unfold copy_at. rewrite Had, app_assoc, <- length_app. apply take_app_length.
  - unfold SetEncrypter. cbn [encrypter_]. by rewrite decide_True.
Qed.
(** A creator that holds these frames, with the key [e] for them. *)
Record ready (w : World) (frames : list QuicFrame) (e : E) : Prop := {
  rd_holds : holds (quic_version_ (framer w)) (creator w) frames;
  rd_padding : no_padding frames;
  rd_pending : 0 <= pending_padding_bytes_ (creator w) < 2 ^ 15;
  rd_version : supported (quic_version_ (framer w));
  rd_header : header_ok (perspective_ (framer w)) (public_header (next_header (creator w)));
  rd_number : 0 <= cp_packet_number (packet_ (creator w)) < 2 ^ 64 - 1;
  rd_limit : (tag e <= max_packet_length_ (creator w) <= kMaxPacketSize)%nat;
  rd_plaintext : max_plaintext_size_ (creator w) = Z.to_nat (GetMaxPlaintextSize (keys w) (Z.of_nat (max_packet_length_ (creator w))));
  rd_key : encrypter_ (keys w) (cp_encryption_level (packet_ (creator w))) = Some e }.

Lemma ready_number w frames e : ready w frames e -> packet_number (next_header (creator w)) = cp_packet_number (packet_ (creator w)) + 1.
Proof. intros Hr. unfold next_header, FillPacketHeader. cbn [fst packet_number]. pose proof (rd_number _ _ _ Hr). apply u64_id. unfold is_u64. lia. Qed.

Lemma ready_plaintext w frames e : ready w frames e -> (max_plaintext_size_ (creator w) + tag e <= max_packet_length_ (creator w))%nat.
Proof.
  intros Hr. destruct (rd_limit _ _ _ Hr) as [Ht Hm]. rewrite (rd_plaintext _ _ _ Hr).
  pose proof (max_plaintext (keys w) _ e (max_packet_length_ (creator w)) (rd_key _ _ _ Hr) Ht) as Hp. unfold kMaxPacketSize in Hm. specialize (Hp ltac:(lia)). lia.
Qed.

(** The creator after [FillPacketHeader]. *)
Lemma filled_holds c v frames : holds v c frames -> let c1 := snd (FillPacketHeader c) in
  holds v c1 frames /\ header_len c1 = header_len c /\ (forall fs, frames_size v (next_header c1) fs = frames_size v (next_header c) fs) /\
  cp_packet_number (packet_ c1) = packet_number (next_header c) /\ max_plaintext_size_ c1 = max_plaintext_size_ c /\ max_packet_length_ c1 = max_packet_length_ c /\
  cp_encryption_level (packet_ c1) = cp_encryption_level (packet_ c) /\ cp_retransmittable_frames (packet_ c1) = cp_retransmittable_frames (packet_ c) /\ padding_of c1 = padding_of c.
Proof.
  intros [Hq Hs Hf] c1. assert (header_len c1 = header_len c) as Hl by done.
  assert (forall fs, frames_size v (next_header c1) fs = frames_size v (next_header c) fs) as Hfs by (intros fs; by apply frames_size_number).
  split_and!; try done. split; [done|intros Hne; rewrite Hl, Hfs; by apply Hs|by rewrite Hl, Hfs].
Qed.

(** What a serialized packet is, and how its plaintext [bs] is read after the header. *)
Record serialized_as (deque : bool) (w w' : World) (g : QuicFramer) (frames pad : list QuicFrame) (xs : list QuicFrame) (e e' : E) (p : CreatedPacket) (bs c : list Z) : Prop := {
  sz_packet : packet_ (creator w') = p;
  sz_queue : queued_frames_ (creator w') = [];
  sz_conn : conn w' = conn w;
  sz_pad : pad_ok (creator w) pad;
  sz_number : cp_packet_number p = packet_number (next_header (creator w));
  sz_frames : cp_retransmittable_frames p = cp_retransmittable_frames (packet_ (creator w));
  sz_level : cp_encryption_level p = cp_encryption_level (packet_ (creator w));
  sz_key : encrypter_ (keys w') (cp_encryption_level p) = Some e';
  sz_bytes : exists buffer, cp_encrypted_buffer p = Some buffer /\ 
    take (Z.to_nat (cp_encrypted_length p)) buffer = header_bytes remove_v33_hacks2 (framer w) (next_header (creator w)) ++ c;
  sz_length : cp_encrypted_length p = Z.of_nat (length (header_bytes remove_v33_hacks2 (framer w) (next_header (creator w)) ++ c));
  sz_limit : (length (header_bytes remove_v33_hacks2 (framer w) (next_header (creator w)) ++ c) <= max_packet_length_ (creator w))%nat;
  sz_sealed : exists room, EncryptPacket (quic_version_ (framer w)) (packet_number (next_header (creator w)))
    (header_bytes remove_v33_hacks2 (framer w) (next_header (creator w))) bs room e = (Some c, e');
  sz_received : Forall2 (frame_received (framer w) g) (frames ++ pad) xs;
  sz_read : forall V' (visitor : QuicFramerVisitor V') (v : V'), exists g',
    ProcessFrameData deque (next_header (creator w)) g (MkReader bs 0 (endianness g)) v = Some (true, g', deliver xs v) }.

Lemma SerializePacket_ok deque (w : World) frames e g buffer :
  ready w frames e -> frames <> [] -> quic_version_ g = quic_version_ (framer w) -> frames_ok (framer w) g (next_header (creator w)) frames -> length buffer = kMaxPacketSize ->
  exists w' pad xs e' p bs c, SerializePacket remove_v33_hacks2 buffer w = Some w' /\ serialized_as deque w w' g frames pad xs e e' p bs c.
Proof.
  intros Hr Hne Hvg Hfr Hbuf. pose proof (ready_plaintext _ _ _ Hr) as Hmax. destruct (rd_limit _ _ _ Hr) as [_ Hlim]. unfold kMaxPacketSize in Hlim, Hbuf.
  destruct (filled_holds _ _ _ (rd_holds _ _ _ Hr)) as (Hh1 & Hl1 & Hfs1 & Hn1 & Hp1 & Hk1 & Hv1 & Hr1 & Hpad1). unfold SerializePacket.
  set (c1 := snd (FillPacketHeader (creator w))) in *. set (header := next_header (creator w)) in *. assert (FillPacketHeader (creator w) = (header, c1)) as -> by done.
  assert (pending_padding_bytes_ c1 = pending_padding_bytes_ (creator w)) as Hpend by done.
  destruct (MaybeAddPadding_ok (with_creator w c1) frames (quic_version_ (framer w)) eq_refl Hh1) as (c2 & pad & -> & Hq2 & Hpo & Hs2 & Hb2 & Hr2 & _).
  { cbn [with_creator creator]. rewrite Hpend. apply Hr. } { cbn [with_creator creator]. rewrite Hp1. lia. }
  cbn [mbind option_bind with_creator creator framer keys conn] in *. rewrite Hl1, Hfs1, Hp1 in Hs2. destruct (base_fields _ _ Hb2) as (_ & _ & Hlev & Hnum).
  rewrite (proj2 (Nat.ltb_ge _ _)) by lia.
  destruct (build_data_packet remove_v33_hacks2 deque (framer w) g header (frames ++ pad) (take (packet_size_ c2) buffer) Hle (rd_header _ _ _ Hr) Hvg)
    as (bs & xs & packet & HB & Ht & Hlp & Hlb & Hpos & _ & Hrec & Hread).
  { destruct frames; done. }
  { destruct Hpo as [->|(n & -> & Hn & Hn1' & _)]; [by rewrite app_nil_r|]. apply frames_ok_padding; [apply Hr|done|unfold full_or_part in Hn; lia|unfold full_or_part in Hn; lia]. }
  { rewrite length_take. lia. } { rewrite length_take. unfold header_len in Hs2. fold header in Hs2. lia. }
  rewrite Hq2, HB. set (hs := header_size (public_header header)) in *. rewrite length_take in Hlp, Hlb. pose proof (header_bytes_length remove_v33_hacks2 (framer w) header (rd_header _ _ _ Hr)) as Hhl. fold hs in Hhl.
  rewrite (proj2 (Nat.eqb_neq _ _)) by lia. set (hb := header_bytes remove_v33_hacks2 (framer w) header) in *.
  destruct (EncryptInPlace_bytes (cp_encryption_level (packet_ c2)) (cp_packet_number (packet_ c2)) hb bs (packet ++ drop (packet_size_ c2) buffer)
    (with_connection_id (framer w) (ph_connection_id (public_header header))) (keys w) e (conn w)) as (c & e' & k' & HE & Ec & Hc & Htake & He' & _).
  { rewrite Hlev, Hv1. apply Hr. } { rewrite Hhl, take_app_le by lia. exact Ht. } { rewrite length_app, length_drop. lia. }
  change (GetStartOfEncryptedData (public_header header)) with hs. rewrite <- Hhl, HE. cbn [mbind option_bind]. rewrite (proj2 (Nat.eqb_neq _ _)) by lia.
  assert (wrapU 16 (Z.of_nat (length hb + length c)) = Z.of_nat (length (hb ++ c))) as -> by (rewrite length_app; apply wrapU_id; lia).
  eexists _, pad, xs, e', _, bs, c. split; [done|].
  split; cbn [creator conn keys pc_set_packet pc_set_queue packet_ queued_frames_ cp_set_encrypted cp_packet_number cp_retransmittable_frames cp_encryption_level cp_encrypted_buffer cp_encrypted_length]; try done.
  - eexists. split; [done|]. cbn [cp_set_encrypted cp_encrypted_length]. rewrite Nat2Z.id, length_app. exact Htake.
  - fold header hb. rewrite length_app. unfold header_len in *. lia.
  - exists (length (packet ++ drop (packet_size_ c2) buffer) - length hb)%nat. fold header hb. by rewrite <- Hn1, <- Hnum.
Qed.
(** What the delegate is given, and what the creator is like afterwards. *)
Lemma handed_over (w : World) p : packet_ (creator w) = p -> cp_encrypted_buffer p <> None ->
  let w' := creator_OnSerializedPacket clear_packet_before_handed_over w in
  conn w' = snd (OnSerializedPacket p (conn w)) /\ keys w' = keys w /\ framer w' = framer w /\ queued_frames_ (creator w') = queued_frames_ (creator w).
Proof.
  intros Hp Hb. unfold creator_OnSerializedPacket. rewrite Hp. destruct (cp_encrypted_buffer p); [|done]. destruct (OnSerializedPacket p (conn w)) as [p' v'].
  by destruct clear_packet_before_handed_over.
Qed.

Lemma ready_collected (w : World) frames e c : ready w [] e -> no_padding frames -> holds (quic_version_ (framer w)) c frames -> base c = base (creator w) ->
  padding_of c = padding_of (creator w) -> ready (with_creator w c) frames e.
Proof.
  intros Hr Hnp Hh Hb Hp. destruct (base_fields _ _ Hb) as (H1' & H2' & H3' & H4'). unfold padding_of in Hp. injection Hp as Hp1 _ _. pose proof (base_header _ _ Hb) as Hn.
  split; cbn [with_creator creator framer keys]; rewrite ?H1', ?H2', ?H3', ?H4', ?Hp1, ?Hn; try apply Hr; done.
Qed.

End Serializing.

(** ** Examples *)

(** A delegate that takes the frames. *)
#[export] Instance frame_taker : DelegateInterface (list QuicFrame * list Z) := {
  OnSerializedPacket p v := (cp_set_frames p [] (cp_has_crypto_handshake p), (fst v ++ cp_retransmittable_frames p, snd v));
  OnUnrecoverableError code v := (fst v, snd v ++ [code]) }.
Definition example_world : @World NullEncrypter NullDecrypter (list QuicFrame * list Z) :=
  MkWorld (AddPendingPadding (QuicPacketCreator_new 7 (example_framer 40 IS_CLIENT) (null_keys IS_CLIENT) false) 40) (example_framer 40 IS_CLIENT) (null_keys IS_CLIENT) ([], []).
Definition hello_frames : list QuicFrame := [StreamFrame (MkStreamFrame 1 false 3 [9; 8; 7] 0); PingFrame].

Lemma example_world_ready : ready (tag := fun _ => 12%nat) example_world [] IS_CLIENT.
Proof.
  split.
  - split; [done|done|apply Nat.leb_le; vm_compute; reflexivity].
  - constructor.
  - change (0 <= 40 < 2 ^ 15). lia.
  - unfold supported. cbn. tauto.
  - unfold header_ok, fits. cbn. split_and!; (tauto || lia || reflexivity).
  - cbn. lia.
  - split; apply Nat.leb_le; vm_compute; reflexivity.
  - vm_compute. reflexivity.
  - reflexivity.
Qed.

Lemma hello_frames_ok header : frames_ok (example_framer 40 IS_CLIENT) (example_framer 40 IS_SERVER) header hello_frames.
Proof.
  cbn [frames_ok hello_frames frame_ok is_last after_frame]. unfold fits, is_u64. cbn [sf_stream_id sf_offset]. split_and!; try lia; try done.
  exists [9; 8; 7]. split_and!; cbn; done.
Qed.


(** A multiple of 65536 pending bytes of padding is an empty padding frame: [AddFrame] then
    calls [Flush] from within [Flush], again and again. *)
Lemma pending_padding_wraps :
  let w := with_creator example_world (AddPendingPadding (QuicPacketCreator_new 7 (example_framer 40 IS_CLIENT) (null_keys IS_CLIENT) false) 65536) in
  fst (BytesFree (creator w)) <> 0%nat /\ MaybeAddPadding w = None.
Proof. split; [vm_compute; discriminate|vm_compute; reflexivity]. Qed.
