(* ===== verification/PacketGenerator.v ===== *)
(** * quic/core/quic_packet_generator.cc

    The packet generator decides when frames go into packets.  It keeps the control frames
    and the acknowledgement that wait, asks its delegate (the connection) whether a packet may
    be generated, and gives frames and stream data to the packet creator of [PacketCreator].
    Stream data that fills many packets takes a fast path that serializes each packet directly.

    [Generator] is the generator with the creator it owns in its [World].  The loops take
    fuel; [None] is running out of it, a call the creator does not return from, or reading
    the back of an empty queue.  [RandUint64 i] is the [i]-th number of the generator of random
    numbers.  The frame of an acknowledgement is taken as the delegate gives it, although the
    queue of the creator holds a pointer to it. *)

From S2P Require Import Prelude ReceivedPacketManager QuicData Framer FramerFacts FramerPacket StreamSendBuffer UnackedPacketMap QuicStream HandshakeMessage CryptoFramer PacketProtection PacketCreator.
#[local] Open Scope Z_scope.

Definition kMaxNumRandomPaddingBytes : Z := 256.

Inductive StreamSendingState := NO_FIN | FIN | FIN_AND_PADDING.
#[export] Instance StreamSendingState_eq_dec : EqDecision StreamSendingState.
Proof. solve_decision. Defined.
Inductive HasRetransmittableData := NO_RETRANSMITTABLE_DATA | HAS_RETRANSMITTABLE_DATA.
Record QuicConsumedData := MkConsumed { bytes_consumed : nat; fin_consumed : bool }.

(** What the generator asks of the connection, besides the creator's delegate. *)
Class GeneratorDelegate (V : Type) := {
  ShouldGeneratePacket : HasRetransmittableData -> bool -> V -> bool * V;
  GetUpdatedAckFrame : V -> QuicFrame * V;
  PopulateStopWaitingFrame : V -> Z * V }.

Section PacketGenerator.
Context `{host : HostOrder} {E D : Type} `{QuicEncrypter E} `{QuicDecrypter D} {V : Type} `{QuicFramerVisitorInterface V} `{DelegateInterface V} `{GeneratorDelegate V}.
Context (remove_v33_hacks2 enforce_single_packet_chlo clear_packet_before_handed_over : bool) (uninitialised : nat -> list Z) (RandUint64 : nat -> Z).
#[local] Abbreviation World := (@World E D V).
#[local] Abbreviation Flush := (Flush remove_v33_hacks2 clear_packet_before_handed_over uninitialised).
#[local] Abbreviation AddSavedFrame := (AddSavedFrame remove_v33_hacks2 clear_packet_before_handed_over uninitialised).

Record Generator := MkGenerator {
  world : World;
  queued_control_frames_ : list QuicFrame;
  batch_mode_ : bool;
  should_send_ack_ : bool;
  should_send_stop_waiting_ : bool;
  pending_stop_waiting_frame_ : Z;
  random_generator_ : nat }.
Definition with_world (g : Generator) (w : World) : Generator :=
  MkGenerator w (queued_control_frames_ g) (batch_mode_ g) (should_send_ack_ g) (should_send_stop_waiting_ g) (pending_stop_waiting_frame_ g) (random_generator_ g).
Definition with_control (g : Generator) (frames : list QuicFrame) : Generator :=
  MkGenerator (world g) frames (batch_mode_ g) (should_send_ack_ g) (should_send_stop_waiting_ g) (pending_stop_waiting_frame_ g) (random_generator_ g).
Definition with_should_send (g : Generator) (ack stop_waiting : bool) : Generator :=
  MkGenerator (world g) (queued_control_frames_ g) (batch_mode_ g) ack stop_waiting (pending_stop_waiting_frame_ g) (random_generator_ g).
Definition with_stop_waiting (g : Generator) (frame : Z) : Generator :=
  MkGenerator (world g) (queued_control_frames_ g) (batch_mode_ g) (should_send_ack_ g) (should_send_stop_waiting_ g) frame (random_generator_ g).
Definition with_batch (g : Generator) (batch : bool) : Generator :=
  MkGenerator (world g) (queued_control_frames_ g) batch (should_send_ack_ g) (should_send_stop_waiting_ g) (pending_stop_waiting_frame_ g) (random_generator_ g).
Definition with_random (g : Generator) (i : nat) : Generator :=
  MkGenerator (world g) (queued_control_frames_ g) (batch_mode_ g) (should_send_ack_ g) (should_send_stop_waiting_ g) (pending_stop_waiting_frame_ g) i.
Definition with_packet_creator (g : Generator) (c : QuicPacketCreator) : Generator := with_world g (with_creator (world g) c).
Definition packet_creator_ (g : Generator) : QuicPacketCreator := creator (world g).

Definition QuicPacketGenerator_new (connection_id : Z) (f : QuicFramer) (k : @FramerKeys E D) (v : V) (no_stop_waiting_frames : bool) (random : nat) : Generator :=
  MkGenerator (MkWorld (QuicPacketCreator_new connection_id f k no_stop_waiting_frames) f k v) [] false false false 0 random.

(** ** Queries *)

Definition gen_HasPendingFrames (g : Generator) : bool :=
  should_send_ack_ g || should_send_stop_waiting_ g || match queued_control_frames_ g with [] => false | _ => true end.
Definition HasQueuedFrames (g : Generator) : bool := HasPendingFrames (packet_creator_ g) || gen_HasPendingFrames g.
Definition IsPendingPacketEmpty (g : Generator) : bool := negb (HasPendingFrames (packet_creator_ g)).
Definition HasRetransmittableFrames (g : Generator) : bool :=
  match queued_control_frames_ g with [] => false | _ => true end || HasPendingRetransmittableFrames (packet_creator_ g).
Definition InBatchMode (g : Generator) : bool := batch_mode_ g.
Definition GetCurrentMaxPacketLength (g : Generator) : nat := max_packet_length_ (packet_creator_ g).

(** ** Calls of the delegate and of the creator *)

Definition ask (g : Generator) (retransmittable : HasRetransmittableData) (handshake : bool) : bool * Generator :=
  let '(yes, v) := ShouldGeneratePacket retransmittable handshake (conn (world g)) in (yes, with_world g (with_conn (world g) v)).
Definition CanSendWithNextPendingFrameAddition (g : Generator) : bool * Generator :=
  ask g (if should_send_ack_ g || should_send_stop_waiting_ g || (pending_padding_bytes_ (packet_creator_ g) >? 0)
         then NO_RETRANSMITTABLE_DATA else HAS_RETRANSMITTABLE_DATA) false.
Definition gen_Flush (g : Generator) : option Generator := w ← Flush (world g); Some (with_world g w).
Definition gen_AddSavedFrame (g : Generator) (frame : QuicFrame) : option (bool * Generator) :=
  '(ok, w) ← AddSavedFrame frame (world g); Some (ok, with_world g w).

(** ** Pending frames *)

(** Control frames leave from the back of their queue. *)
Definition AddNextPendingFrame (g : Generator) : option (bool * Generator) :=
  if should_send_ack_ g then
    let '(frame, v) := GetUpdatedAckFrame (conn (world g)) in
    '(ok, g) ← gen_AddSavedFrame (with_world g (with_conn (world g) v)) frame;
    Some (ok, with_should_send g (negb ok) (should_send_stop_waiting_ g))
  else if should_send_stop_waiting_ g then
    let '(frame, v) := PopulateStopWaitingFrame (conn (world g)) in
    '(ok, g) ← gen_AddSavedFrame (with_stop_waiting (with_world g (with_conn (world g) v)) frame) (StopWaitingFrame frame);
    Some (ok, with_should_send g (should_send_ack_ g) (negb ok))
  else
    frame ← list.last (queued_control_frames_ g);
    '(ok, g) ← gen_AddSavedFrame g frame;
    Some (ok, if ok : bool then with_control g (removelast (queued_control_frames_ g)) else g).

(** The loop; [false] when the connection is torn down. *)
Fixpoint send_pending (fuel : nat) (flush : bool) (g : Generator) : option (bool * Generator) :=
  match fuel with
  | O => None
  | S fuel =>
      if negb (gen_HasPendingFrames g) then Some (true, g)
      else
        let '(can, g) := if flush then (true, g) else CanSendWithNextPendingFrameAddition g in
        if negb can then Some (true, g)
        else
          let first_frame := CanSetMaxPacketLength (packet_creator_ g) in
          '(added, g) ← AddNextPendingFrame g;
          if negb added && first_frame
          then Some (false, with_world g (with_conn (world g) (OnUnrecoverableError QUIC_FAILED_TO_SERIALIZE_PACKET (conn (world g)))))
          else send_pending fuel flush g
  end.
Definition SendQueuedFrames (fuel : nat) (flush : bool) (g : Generator) : option Generator :=
  '(alive, g) ← send_pending fuel flush g;
  if negb alive then Some g
  else if flush || negb (InBatchMode g) then gen_Flush g else Some g.

Definition SetShouldSendAck (fuel : nat) (also_send_stop_waiting : bool) (g : Generator) : option Generator :=
  if cp_has_ack (packet_ (packet_creator_ g)) then Some g
  else if also_send_stop_waiting && cp_has_stop_waiting (packet_ (packet_creator_ g)) then Some g
  else SendQueuedFrames fuel false (with_should_send g true also_send_stop_waiting).
Definition AddControlFrame (fuel : nat) (frame : QuicFrame) (g : Generator) : option Generator :=
  SendQueuedFrames fuel false (with_control g (queued_control_frames_ g ++ [frame])).
Definition FlushAllQueuedFrames (fuel : nat) (g : Generator) : option Generator := SendQueuedFrames fuel true g.

Fixpoint SendRemainingPendingPadding (fuel : nat) (g : Generator) : option Generator :=
  match fuel with
  | O => None
  | S fuel =>
      if (pending_padding_bytes_ (packet_creator_ g) >? 0) && negb (HasQueuedFrames g) then
        let '(can, g) := CanSendWithNextPendingFrameAddition g in
        if can then g ← gen_Flush g; SendRemainingPendingPadding fuel g else Some g
      else Some g
  end.
Definition StartBatchOperations (g : Generator) : Generator := with_batch g true.
Definition FinishBatchOperations (fuel : nat) (g : Generator) : option Generator :=
  g ← SendQueuedFrames fuel false (with_batch g false); SendRemainingPendingPadding fuel g.

(** ** Stream data *)

Definition AddRandomPadding (g : Generator) : Generator :=
  with_random (with_packet_creator g (AddPendingPadding (packet_creator_ g) (RandUint64 (random_generator_ g) mod kMaxNumRandomPaddingBytes + 1)))
    (S (random_generator_ g)).

Fixpoint ConsumeDataFastPath (fuel : nat) (id : Z) (iov : QuicIOVector) (offset : Z) (fin : bool) (total_bytes_consumed : nat) (ack_listener : option Z) (g : Generator)
    : option (QuicConsumedData * Generator) :=
  match fuel with
  | O => None
  | S fuel =>
      let '(more, g) := if Z.of_nat total_bytes_consumed <? total_length iov then ask g HAS_RETRANSMITTABLE_DATA false else (false, g) in
      if more : bool then
        '(consumed, w) ← CreateAndSerializeStreamFrame remove_v33_hacks2 clear_packet_before_handed_over uninitialised
            id iov total_bytes_consumed (offset +64 Z.of_nat total_bytes_consumed) fin ack_listener (world g);
        ConsumeDataFastPath fuel id iov offset fin (total_bytes_consumed + Z.to_nat (default 0 consumed)) ack_listener (with_world g w)
      else Some (MkConsumed total_bytes_consumed (fin && (Z.of_nat total_bytes_consumed =? total_length iov)), g)
  end.

(** Whether the rest of the data takes the fast path. *)
Definition run_fast_path (flag_run_fast_path : bool) (id : Z) (iov : QuicIOVector) (state : StreamSendingState) (total_bytes_consumed : nat) (g : Generator) : bool :=
  flag_run_fast_path && negb (id =? kCryptoStreamId) && negb (bool_decide (state = FIN_AND_PADDING)) && negb (HasQueuedFrames g) &&
  (u64 (total_length iov - Z.of_nat total_bytes_consumed) >? Z.of_nat kMaxPacketSize).

(** The loop with what follows it.  A failure gives up what was consumed before. *)
Fixpoint consume_loop (fuel : nat) (flag_run_fast_path : bool) (id : Z) (iov : QuicIOVector) (offset : Z) (state : StreamSendingState) (ack_listener : option Z)
    (fast : bool) (total_bytes_consumed : nat) (fin_so_far : bool) (g : Generator) : option (QuicConsumedData * Generator) :=
  match fuel with
  | O => None
  | S fuel =>
      let has_handshake := id =? kCryptoStreamId in
      let fin := negb (bool_decide (state = NO_FIN)) in
      let finish total fin_so_far g :=
        g ← (if has_handshake then SendQueuedFrames fuel true g else Some g);
        Some (MkConsumed total fin_so_far, g) in
      if fast : bool then ConsumeDataFastPath fuel id iov offset fin total_bytes_consumed ack_listener g
      else
        let '(go, g) := ask g HAS_RETRANSMITTABLE_DATA has_handshake in
        if negb go then finish total_bytes_consumed fin_so_far g
        else
          '(frame, w) ← ConsumeData remove_v33_hacks2 enforce_single_packet_chlo clear_packet_before_handed_over uninitialised
              id iov total_bytes_consumed (offset +64 Z.of_nat total_bytes_consumed) fin has_handshake (world g);
          let g := with_world g w in
          match frame with
          | None => Some (MkConsumed 0 false, g)
          | Some frame =>
              let consumed := sf_data_length frame in
              let g := match ack_listener with
                       | Some l => with_packet_creator g (AddAckListener (packet_creator_ g) l (wrapU 16 (Z.of_nat consumed)))
                       | None => g
                       end in
              let total := (total_bytes_consumed + consumed)%nat in
              let fin_so_far := fin && (Z.of_nat total =? total_length iov) in
              let g := if fin_so_far && bool_decide (state = FIN_AND_PADDING) then AddRandomPadding g else g in
              g ← (if negb (InBatchMode g) then gen_Flush g else Some g);
              if Z.of_nat total =? total_length iov then finish total fin_so_far g
              else
                g ← gen_Flush g;
                consume_loop fuel flag_run_fast_path id iov offset state ack_listener (run_fast_path flag_run_fast_path id iov state total g) total fin_so_far g
          end
  end.

Definition gen_ConsumeData (fuel : nat) (id : Z) (iov : QuicIOVector) (offset : Z) (state : StreamSendingState) (ack_listener : option Z) (flag_run_fast_path : bool)
    (g : Generator) : option (QuicConsumedData * Generator) :=
  let fin := negb (bool_decide (state = NO_FIN)) in
  g ← SendQueuedFrames fuel ((id =? kCryptoStreamId) && HasPendingRetransmittableFrames (packet_creator_ g)) g;
  let '(room, c) := HasRoomForStreamFrame (packet_creator_ g) (quic_version_ (framer (world g))) id offset in
  let g := with_packet_creator g c in
  g ← (if negb room then gen_Flush g else Some g);
  if negb fin && (total_length iov =? 0) then Some (MkConsumed 0 false, g)
  else consume_loop fuel flag_run_fast_path id iov offset state ack_listener (run_fast_path flag_run_fast_path id iov state 0 g) 0 false g.

(** ** Probes and settings *)

Definition gen_SetMaxPacketLength (g : Generator) (length : nat) : Generator :=
  with_packet_creator g (SetMaxPacketLength (packet_creator_ g) (keys (world g)) length).
Definition GenerateMtuDiscoveryPacket (target_mtu : nat) (ack_listener : option Z) (g : Generator) : option Generator :=
  if negb (CanSetMaxPacketLength (packet_creator_ g)) then Some g
  else
    let current_mtu := GetCurrentMaxPacketLength g in
    let g := gen_SetMaxPacketLength g target_mtu in
    '(_, w) ← AddPaddedSavedFrame remove_v33_hacks2 clear_packet_before_handed_over uninitialised MtuDiscoveryFrame (world g);
    let g := with_world g w in
    let g := match ack_listener with Some l => with_packet_creator g (AddAckListener (packet_creator_ g) l 0) | None => g end in
    g ← gen_Flush g;
    Some (gen_SetMaxPacketLength g current_mtu).
Definition gen_StopSendingVersion (g : Generator) : Generator := with_packet_creator g (StopSendingVersion (packet_creator_ g)).
Definition gen_SetDiversificationNonce (g : Generator) (nonce : list Z) : Generator := with_packet_creator g (pc_SetDiversificationNonce (packet_creator_ g) nonce).
Definition UpdateSequenceNumberLength (g : Generator) (least_packet_awaited_by_peer max_packets_in_flight : Z) : Generator :=
  with_packet_creator g (UpdatePacketNumberLength (packet_creator_ g) (quic_version_ (framer (world g))) least_packet_awaited_by_peer max_packets_in_flight).
Definition SetConnectionIdLength (g : Generator) (length : Z) : Generator :=
  with_packet_creator g (set_connection_id_length (packet_creator_ g) (if length =? 0 then 0%nat else 8%nat)).
Definition gen_set_encryption_level (g : Generator) (level : EncryptionLevel) : Generator :=
  with_packet_creator g (set_encryption_level (packet_creator_ g) level).
Definition gen_SetEncrypter (g : Generator) (level : EncryptionLevel) (e : E) : Generator := with_world g (pc_SetEncrypter (world g) level e).
Definition gen_ReserializeAllFrames (retransmission : QuicPendingRetransmission) (buffer : list Z) (g : Generator) : option Generator :=
  w ← ReserializeAllFrames remove_v33_hacks2 clear_packet_before_handed_over uninitialised retransmission buffer (world g); Some (with_world g w).
Definition gen_SerializeVersionNegotiationPacket (g : Generator) (supported_versions : list Z) : option (list Z) :=
  SerializeVersionNegotiationPacket uninitialised (packet_creator_ g) supported_versions.
End PacketGenerator.
