(* ===== verification/PacketGeneratorFacts.v ===== *)
(** * What the packet generator promises

    The fast path for stream data sends exactly the packets of the loop it replaces; both
    cut the data into consecutive stream frames, one to a packet, as long as the delegate
    agrees. *)

From S2P Require Import Prelude Interval IntervalSet PacketNumberQueue ReceivedPacketManager.
From S2P Require Import Int128 QuicUtils QuicData Framer FramerFacts FramerAck FramerPacket StreamSendBuffer UnackedPacketMap QuicStream HandshakeMessage CryptoFramer.
From S2P Require Import PacketProtection PacketFacts PacketCreator PacketCreatorFacts PacketGenerator.
#[local] Open Scope Z_scope.
#[local] Open Scope wire_scope.

(** ** Writing one stream frame *)

Section Writing.
Context `{host : HostOrder} (Hle : HostIsLittleEndian = true).

(** The packet with this frame only, in a buffer with room for it. *)
Lemma stream_packet hacks f header s data :
  header_ok (perspective_ f) (public_header header) -> fits 4 (sf_stream_id s) -> is_u64 (sf_offset s) -> stream_data (endianness f) (data_producer_ f) s data ->
  let hb := header_bytes hacks f header in
  exists bs, length bs = (GetMinStreamFrameSize (quic_version_ f) (sf_stream_id s) (sf_offset s) true + sf_data_length s)%nat /\
    forall buffer, (length (hb ++ bs) <= length buffer)%nat ->
      exists w1, AppendPacketHeader hacks f header (MkWriter buffer 0 (endianness f)) = (true, with_connection_id f (ph_connection_id (public_header header)), w1) /\
        dw_length_ w1 = length hb /\
        (AppendTypeByte (quic_version_ f) (StreamFrame s) true >&> AppendStreamFrame (quic_version_ f) (data_producer_ f) s true) w1 =
          (true, MkWriter ((hb ++ bs) ++ drop (length (hb ++ bs)) buffer) (length (hb ++ bs)) (endianness f)).
Proof.
  intros Hok Hi Ho Hd hb. assert (partial_ok (endianness f)) as Hp by (intros ?; done).
  destruct (codec_stream (endianness f) (quic_version_ f) (data_producer_ f) s true data Hp Hi Ho Hd) as (sb & Hsb & Happ & _).
  exists (mem_bytes 1 (stream_type_byte (quic_version_ f) s true) ++ sb). split.
  { rewrite length_app, Hsb, mem_bytes_length. unfold GetMinStreamFrameSize, kQuicFrameTypeSize. lia. }
  intros buffer Hroom. set (bs := mem_bytes 1 _ ++ sb) in *. pose proof (header_bytes_length hacks f header Hok) as Hhl. fold hb in Hhl. rewrite length_app in Hroom.
  rewrite (appends_header_bytes hacks f header buffer Hok Hp) by lia. eexists. split; [done|]. split; [done|]. fold hb.
  set (w0 := MkWriter buffer 0 (endianness f)). assert (dw_length_ w0 + length hb <= dw_capacity w0)%nat as Hf by (change (0 + length hb <= length buffer)%nat; lia).
  destruct (dw_put_ok w0 hb Hf) as [Hw Hc].
  pose proof (appends_emits _ _ _ (appends_and _ _ _ _ _ (appends_u8 (endianness f) (stream_type_byte (quic_version_ f) s true)) Happ) (dw_put w0 hb) Hw eq_refl) as HE.
  fold bs in HE. rewrite Hc in HE. specialize (HE ltac:(change (0 + length hb + length bs <= length buffer)%nat; lia)). cbn [AppendTypeByte]. rewrite HE.
  rewrite dw_put_put by (rewrite length_app; change (0 + (length hb + length bs) <= length buffer)%nat; lia). done.
Qed.

Lemma stream_packet_built hacks f header s data :
  header_ok (perspective_ f) (public_header header) -> fits 4 (sf_stream_id s) -> is_u64 (sf_offset s) -> stream_data (endianness f) (data_producer_ f) s data ->
  let hb := header_bytes hacks f header in
  exists bs, length bs = (GetMinStreamFrameSize (quic_version_ f) (sf_stream_id s) (sf_offset s) true + sf_data_length s)%nat /\
    forall buffer, (length (hb ++ bs) <= length buffer)%nat ->
      (exists w1, AppendPacketHeader hacks f header (MkWriter buffer 0 (endianness f)) = (true, with_connection_id f (ph_connection_id (public_header header)), w1) /\
        dw_length_ w1 = length hb /\
        (AppendTypeByte (quic_version_ f) (StreamFrame s) true >&> AppendStreamFrame (quic_version_ f) (data_producer_ f) s true) w1 =
          (true, MkWriter ((hb ++ bs) ++ drop (length (hb ++ bs)) buffer) (length (hb ++ bs)) (endianness f))) /\
      BuildDataPacket hacks f header [StreamFrame s] (take (length (hb ++ bs)) buffer) =
        (length (hb ++ bs), with_connection_id f (ph_connection_id (public_header header)), hb ++ bs).
Proof.
  intros Hok Hi Ho Hd hb. destruct (stream_packet hacks f header s data Hok Hi Ho Hd) as (bs & Hl & Hbuf). exists bs. split; [done|]. intros buffer Hroom. fold hb in Hbuf.
  split; [by apply Hbuf|]. destruct (Hbuf (take (length (hb ++ bs)) buffer)) as (w1 & HA & _ & HF); [rewrite length_take; lia|].
  unfold BuildDataPacket. rewrite HA. cbn [negb AppendFrames]. unfold AppendFrame. change (quic_version_ (with_connection_id f _)) with (quic_version_ f).
  change (data_producer_ (with_connection_id f _)) with (data_producer_ f). unfold wr_and at 1. rewrite HF. cbn [dw_buffer_ dw_length_ wr_true].
  rewrite drop_ge, app_nil_r by (rewrite length_take; lia). done.
Qed.
End Writing.

(** A delegate that takes all frames of a packet and leaves the rest of it alone. *)
Class TakesFrames (V : Type) `{DelegateInterface V} := {
  takes_frames p v : fst (OnSerializedPacket p v) = cp_set_frames p [] (cp_has_crypto_handshake p) }.

(** ** One packet *)

Section Packet.
Context `{host : HostOrder} (Hle : HostIsLittleEndian = true).
Context {E D : Type} `{QuicEncrypter E} `{QuicDecrypter D} {tag : E -> nat} {aead_tag : AeadTag E tag}.
Context {V : Type} `{QuicFramerVisitorInterface V} `{DelegateInterface V}.
Context (remove_v33_hacks2 enforce_single_packet_chlo clear_packet_before_handed_over : bool) (uninitialised : nat -> list Z) (Hun : forall n, length (uninitialised n) = n).
#[local] Abbreviation World := (@World E D V).

Definition listened (l : option Z) (n : nat) (c : QuicPacketCreator) : QuicPacketCreator :=
  match l with Some l => AddAckListener c l (wrapU 16 (Z.of_nat n)) | None => c end.

(** What the loop does for one packet, as long as the creator agrees. *)
Definition slow_packet (id : Z) (iov : QuicIOVector) (iov_offset : nat) (offset : Z) (fin : bool) (l : option Z) (w : World) : option (option Z * World) :=
  '(frame, w) ← ConsumeData remove_v33_hacks2 enforce_single_packet_chlo clear_packet_before_handed_over uninitialised id iov iov_offset offset fin false w;
  match frame with
  | None => Some (None, w)
  | Some s =>
      w ← Flush remove_v33_hacks2 clear_packet_before_handed_over uninitialised (with_creator w (listened l (sf_data_length s) (creator w)));
      Some (Some (Z.of_nat (sf_data_length s)), w)
  end.

(** A creator with nothing to send. *)
Definition idle (c : QuicPacketCreator) : Prop := queued_frames_ c = [] /\ pending_padding_bytes_ c = 0 /\ needs_full_padding_ c = false.
(** There is room for the longest header of a stream frame and a byte. *)
Definition roomy (c : QuicPacketCreator) : Prop := (header_len c + 13 < max_plaintext_size_ c)%nat.
Lemma roomy_stream version c id offset : roomy c -> (header_len c + GetMinStreamFrameSize version id offset true < max_plaintext_size_ c)%nat.
Proof.
  unfold roomy, GetMinStreamFrameSize, kQuicFrameTypeSize, GetStreamIdSize, GetStreamOffsetSize. cbn [GetStreamIdSize_loop GetStreamOffsetSize_loop]. intros Hr. repeat case_match; lia.
Qed.
(** The producer, when there is one, can write any data. *)
Definition producer_ok (f : QuicFramer) : Prop :=
  match data_producer_ f with
  | None => True
  | Some W => forall id offset n, (0 < n)%nat -> exists data, length data = n /\ appends (endianness f) (W id offset n) data
  end.

(** The frame that takes the next [n] bytes. *)
Definition chunk (f : QuicFramer) (id : Z) (iov : QuicIOVector) (iov_offset : nat) (offset : Z) (fin : bool) (n : nat) : QuicStreamFrame :=
  MkStreamFrame id (fin && (Z.of_nat (iov_offset + n) =? total_length iov)) n (frame_buffer uninitialised f iov iov_offset n) offset.
Definition chunk_length (version : Z) (c : QuicPacketCreator) (id : Z) (iov : QuicIOVector) (iov_offset : nat) (offset : Z) : nat :=
  Nat.min (max_plaintext_size_ c - header_len c - GetMinStreamFrameSize version id offset true) (Z.to_nat (total_length iov) - iov_offset).

Lemma frame_buffer_length f iov iov_offset n : data_producer_ f = None -> length (frame_buffer uninitialised f iov iov_offset n) = n.
Proof.
  intros Hd. unfold frame_buffer. rewrite Hd, CopyToBuffer_spec, length_app, length_drop, Hun, length_take. lia.
Qed.

Lemma chunk_data f id iov iov_offset offset fin n : producer_ok f -> Z.of_nat n <= 65535 -> (0 < n)%nat ->
  exists data, stream_data (endianness f) (data_producer_ f) (chunk f id iov iov_offset offset fin n) data.
Proof.
  intros Hp Hn Hpos. unfold producer_ok in Hp. unfold stream_data. destruct (data_producer_ f) as [W|] eqn:Hd.
  - destruct (Hp id offset n Hpos) as (data & Hl & Ha). by exists data.
  - eexists. split; [by apply frame_buffer_length|]. done.
Qed.

(** The packet and the creator when the frame [s] was sent. *)
Definition sent_packet (p : CreatedPacket) (s : QuicStreamFrame) (l : option Z) (buffer : list Z) (length : Z) : CreatedPacket :=
  MkCreated (Some buffer) length (cp_retransmittable_frames p ++ [StreamFrame s]) (cp_has_crypto_handshake p) (cp_num_padding_bytes p) (cp_packet_number p +64 1)
    (cp_packet_number_length p) (cp_encryption_level p) (cp_has_ack p) (cp_has_stop_waiting p) (cp_transmission_type p) (cp_original_packet_number p) (cp_largest_acked p)
    (match l with Some l => cp_listeners p ++ [MkListener l (wrapU 16 (Z.of_nat (sf_data_length s)))] | None => cp_listeners p end).
Definition sent_creator (c : QuicPacketCreator) (p : CreatedPacket) : QuicPacketCreator := pc_set_packet (pc_set_queue c [] 0) p.

Lemma idle_ready_room (w : World) e : ready (tag := tag) w [] e -> (header_len (creator w) <= max_plaintext_size_ (creator w))%nat /\
  (max_plaintext_size_ (creator w) + tag e <= kMaxPacketSize)%nat.
Proof.
  intros Hr. pose proof (hold_fits _ _ _ (rd_holds _ _ _ Hr)) as Hf. pose proof (ready_plaintext (tag := tag) _ _ _ Hr). pose proof (rd_limit _ _ _ Hr).
  cbn [frames_size] in Hf. lia.
Qed.

(** The situation in which a packet of stream data is sent. *)
Record can_send (w : World) (e : E) (id : Z) (iov : QuicIOVector) : Prop := {
  cs_ready : ready (tag := tag) w [] e;
  cs_idle : idle (creator w);
  cs_producer : producer_ok (framer w);
  cs_room : roomy (creator w);
  cs_stream : id <> kCryptoStreamId /\ fits 4 id;
  cs_fresh : cp_retransmittable_frames (packet_ (creator w)) = [];
  cs_level : cp_encryption_level (packet_ (creator w)) <> ENCRYPTION_NONE;
  cs_total : total_length iov < 2 ^ 64;
  cs_data : data_producer_ (framer w) = None -> total_length iov = Z.of_nat (length (concat (QuicStream.iov iov))) }.

Lemma chunk_arith (w : World) e id iov iov_offset offset fin : can_send w e id iov -> Z.of_nat iov_offset < total_length iov ->
  let n := chunk_length (quic_version_ (framer w)) (creator w) id iov iov_offset offset in
  let least := GetMinStreamFrameSize (quic_version_ (framer w)) id offset true in
  (0 < n)%nat /\ Z.of_nat (iov_offset + n) <= total_length iov /\ (header_len (creator w) + (least + n) <= max_plaintext_size_ (creator w))%nat /\
  Z.min (u64 (Z.of_nat (max_plaintext_size_ (creator w)) - Z.of_nat (header_len (creator w)) - Z.of_nat least)) (u64 (total_length iov - Z.of_nat iov_offset)) = Z.of_nat n /\
  (fin && (Z.of_nat n =? u64 (total_length iov - Z.of_nat iov_offset))) = (fin && (Z.of_nat (iov_offset + n) =? total_length iov)).
Proof.
  intros Hc Ho n least. pose proof (roomy_stream (quic_version_ (framer w)) _ id offset (cs_room _ _ _ _ Hc)) as Hr. fold least in Hr. destruct (idle_ready_room w e (cs_ready _ _ _ _ Hc)) as [_ Hm]. unfold kMaxPacketSize in Hm.
  pose proof (cs_total _ _ _ _ Hc) as Ht. rewrite !u64_id by (unfold is_u64; lia). unfold n, chunk_length. fold least. split_and!; try lia.
  f_equal. set (m := Nat.min _ _). destruct (Z.eqb_spec (Z.of_nat m) (total_length iov - Z.of_nat iov_offset)), (Z.eqb_spec (Z.of_nat (iov_offset + m)) (total_length iov)); (done || lia).
Qed.

(** The creator once the header is filled. *)
Definition filled (c : QuicPacketCreator) : QuicPacketCreator :=
  pc_set_packet c (cp_set_number (packet_ c) (cp_packet_number (packet_ c) +64 1) (cp_packet_number_length (packet_ c)) (cp_encryption_level (packet_ c))).
Lemma FillPacketHeader_next c : FillPacketHeader c = (next_header c, filled c).
Proof. done. Qed.

(** The state after the packet. *)
Definition after_packet (w : World) (s : QuicStreamFrame) (l : option Z) (e' : E) (buffer : list Z) (len : nat) : World :=
  creator_OnSerializedPacket clear_packet_before_handed_over
    (MkWorld (sent_creator (creator w) (sent_packet (packet_ (creator w)) s l buffer (wrapU 16 (Z.of_nat len))))
       (with_connection_id (framer w) (connection_id_ (creator w))) (SetEncrypter (keys w) (cp_encryption_level (packet_ (creator w))) e') (conn w)).

(** The bytes of the packet and their encryption. *)
Lemma chunk_encrypted (w : World) e id iov iov_offset offset fin : can_send w e id iov -> is_u64 offset -> Z.of_nat iov_offset < total_length iov ->
  let n := chunk_length (quic_version_ (framer w)) (creator w) id iov iov_offset offset in
  let s := chunk (framer w) id iov iov_offset offset fin n in
  let header := next_header (creator w) in
  let hb := header_bytes remove_v33_hacks2 (framer w) header in
  let f' := with_connection_id (framer w) (connection_id_ (creator w)) in
  let buffer := uninitialised kMaxPacketSize in
  exists bs, length bs = (GetMinStreamFrameSize (quic_version_ (framer w)) id offset true + n)%nat /\ length hb = header_len (creator w) /\
    (exists w1, AppendPacketHeader remove_v33_hacks2 (framer w) header (MkWriter buffer 0 (endianness (framer w))) = (true, f', w1) /\ dw_length_ w1 = length hb /\
      (AppendTypeByte (quic_version_ (framer w)) (StreamFrame s) true >&> AppendStreamFrame (quic_version_ (framer w)) (data_producer_ (framer w)) s true) w1 =
        (true, MkWriter ((hb ++ bs) ++ drop (length (hb ++ bs)) buffer) (length (hb ++ bs)) (endianness (framer w)))) /\
    BuildDataPacket remove_v33_hacks2 (framer w) header [StreamFrame s] (take (length (hb ++ bs)) buffer) = (length (hb ++ bs), f', hb ++ bs) /\
    exists len sent e', EncryptInPlace (cp_encryption_level (packet_ (creator w))) (packet_number header) (length hb) (length (hb ++ bs)) ((hb ++ bs) ++ drop (length (hb ++ bs)) buffer) f' (keys w) (conn w) =
      Some (len, sent, f', SetEncrypter (keys w) (cp_encryption_level (packet_ (creator w))) e', conn w) /\ (0 < len <= max_packet_length_ (creator w))%nat /\ tag e' = tag e.
Proof.
  intros Hc Ho Hoff n s header hb f' buffer. pose proof (cs_ready _ _ _ _ Hc) as Hr. destruct (chunk_arith w e id iov iov_offset offset fin Hc Hoff) as (Hn & Hn2 & Hfit & _). fold n in Hn, Hn2, Hfit.
  destruct (idle_ready_room w e Hr) as [_ Hmax]. unfold kMaxPacketSize in Hmax. pose proof (ready_plaintext (tag := tag) _ _ _ Hr) as Hmp. destruct (cs_stream _ _ _ _ Hc) as [_ Hid].
  destruct (chunk_data (framer w) id iov iov_offset offset fin n (cs_producer _ _ _ _ Hc) ltac:(lia) Hn) as [data Hd]. fold s in Hd.
  pose proof (header_bytes_length remove_v33_hacks2 (framer w) header (rd_header _ _ _ Hr)) as Hhl. fold hb in Hhl.
  change (header_size (public_header header)) with (header_len (creator w)) in Hhl.
  destruct (stream_packet_built Hle remove_v33_hacks2 (framer w) header s data (rd_header _ _ _ Hr) Hid Ho Hd) as (bs & Hbs & Hbuf). fold hb in Hbuf. exists bs.
  cbn [s chunk sf_stream_id sf_offset sf_data_length] in Hbs. assert (length buffer = kMaxPacketSize) as Hlb by apply Hun. unfold kMaxPacketSize in Hlb.
  destruct (Hbuf buffer) as [Hw HB]; [rewrite length_app, Hlb, Hhl; lia|]. split; [done|]. split; [done|]. split; [exact Hw|]. split; [exact HB|].
  destruct (EncryptInPlace_bytes (cp_encryption_level (packet_ (creator w))) (packet_number header) hb bs ((hb ++ bs) ++ drop (length (hb ++ bs)) buffer) f' (keys w) e (conn w))
    as (c & e' & k' & HE & _ & Hcl & _ & _ & -> & Hte).
  - apply Hr.
  - rewrite <- length_app. apply take_app_length.
  - rewrite !length_app, length_drop, Hlb, ?length_app. lia.
  - exists (length hb + length c)%nat, (copy_at ((hb ++ bs) ++ drop (length (hb ++ bs)) buffer) (length hb) c), e'. rewrite <- length_app in HE. rewrite HE. split_and!; try done; try lia.
Qed.

Lemma BytesFree_idle c : queued_frames_ c = [] -> BytesFree c = ((max_plaintext_size_ c - Nat.min (max_plaintext_size_ c) (header_len c))%nat, pc_set_queue c [] (header_len c)).
Proof.
  intros Hq. unfold BytesFree, PacketSize, HasPendingFrames. rewrite Hq, <- header_len_nonce. unfold ExpansionOnNewFrame. cbn. by rewrite Nat.add_0_r.
Qed.

(** The creator with the frame [s] in its queue. *)
Definition holding (c : QuicPacketCreator) (s : QuicStreamFrame) (size : nat) : QuicPacketCreator :=
  pc_set_packet (pc_set_queue c [StreamFrame s] size) (cp_set_frames (packet_ c) (cp_retransmittable_frames (packet_ c) ++ [StreamFrame s]) (cp_has_crypto_handshake (packet_ c))).

Lemma ConsumeData_idle (w : World) e id iov iov_offset offset fin : can_send w e id iov -> Z.of_nat iov_offset < total_length iov ->
  let n := chunk_length (quic_version_ (framer w)) (creator w) id iov iov_offset offset in
  let s := chunk (framer w) id iov iov_offset offset fin n in
  ConsumeData remove_v33_hacks2 enforce_single_packet_chlo clear_packet_before_handed_over uninitialised id iov iov_offset offset fin false w =
  Some (Some s, with_creator w (holding (creator w) s (header_len (creator w) + (GetMinStreamFrameSize (quic_version_ (framer w)) id offset true + n)))).
Proof.
  intros Hc Hoff n s. destruct (cs_idle _ _ _ _ Hc) as (Hq & _ & _). destruct (cs_stream _ _ _ _ Hc) as [Hid _]. pose proof (roomy_stream (quic_version_ (framer w)) _ id offset (cs_room _ _ _ _ Hc)) as Hroom.
  destruct (chunk_arith w e id iov iov_offset offset fin Hc Hoff) as (Hn & Hle2 & Hfit & Hmin & Hfin). fold n in Hn, Hle2, Hfit, Hmin, Hfin.
  set (least := GetMinStreamFrameSize _ _ _ _) in *. set (hl := header_len (creator w)) in *. set (c1 := pc_set_queue (creator w) [] hl).
  assert (BytesFree c1 = ((max_plaintext_size_ (creator w) - hl)%nat, c1)) as Hb1.
  { rewrite BytesFree_idle by done. change (header_len c1) with hl. change (max_plaintext_size_ c1) with (max_plaintext_size_ (creator w)). f_equal. lia. }
  unfold ConsumeData, HasRoomForStreamFrame. rewrite (BytesFree_idle _ Hq). fold hl c1 least. rewrite (proj2 (Nat.ltb_lt _ _)) by lia. cbn [negb].
  unfold CreateStreamFrame. rewrite (proj2 (Z.eqb_neq _ _)) by lia. rewrite Hb1. fold least.
  assert (Z.of_nat (max_plaintext_size_ (creator w) - hl) - Z.of_nat least = Z.of_nat (max_plaintext_size_ (creator w)) - Z.of_nat hl - Z.of_nat least) as -> by lia.
  rewrite Hmin, Hfin, Nat2Z.id. fold (chunk (framer w) id iov iov_offset offset fin n). fold s. cbn [with_creator framer creator].
  assert (StreamFrameStartsWithChlo uninitialised (framer w) s = false) as ->.
  { unfold StreamFrameStartsWithChlo. cbn [s chunk sf_stream_id]. rewrite (proj2 (Z.eqb_neq _ _) Hid). cbn [negb andb]. rewrite orb_true_r. by destruct (data_producer_ (framer w)). }
  rewrite andb_false_r. cbn [andb]. unfold AddFrame, add_frame. cbn [with_creator creator framer sf_stream_id s chunk]. fold s.
  rewrite (proj2 (Z.eqb_neq _ _) Hid). change (cp_encryption_level (packet_ c1)) with (cp_encryption_level (packet_ (creator w))).
  rewrite bool_decide_eq_false_2 by apply Hc. cbn [negb andb]. rewrite Hb1, add_frame_len; [|done|].
  2:{ change ((least + n)%nat <= max_plaintext_size_ (creator w) - hl)%nat. lia. }
  change (ComputeFrameLength _ (StreamFrame s) true _) with (least + n)%nat. rewrite (proj2 (Nat.eqb_neq _ _)) by lia. cbn [mbind option_bind negb].
  do 3 f_equal. unfold holding, added_packet. cbn [andb ShouldRetransmit s chunk sf_stream_id]. rewrite (proj2 (Z.eqb_neq _ _) Hid). done.
Qed.

Lemma MaybeAddPadding_idle (w : World) frame frames : queued_frames_ (creator w) = frame :: frames -> pending_padding_bytes_ (creator w) = 0 -> needs_full_padding_ (creator w) = false ->
  MaybeAddPadding w = Some w.
Proof.
  intros Hq Hp Hf. unfold MaybeAddPadding, BytesFree, PacketSize, HasPendingFrames. rewrite Hq. rewrite Hf, Hp. cbn [negb andb Z.eqb]. destruct w as [c f k v]. cbn [with_creator creator framer keys conn].
  by destruct (_ =? 0)%nat.
Qed.

(** The two ways to send a packet agree. *)
Lemma both_packets (w : World) e id iov iov_offset offset fin l : can_send w e id iov -> is_u64 offset -> Z.of_nat iov_offset < total_length iov ->
  let n := chunk_length (quic_version_ (framer w)) (creator w) id iov iov_offset offset in
  let s := chunk (framer w) id iov iov_offset offset fin n in
  exists e' buffer len, (0 < len <= max_packet_length_ (creator w))%nat /\ tag e' = tag e /\
    CreateAndSerializeStreamFrame remove_v33_hacks2 clear_packet_before_handed_over uninitialised id iov iov_offset offset fin l w =
      Some (Some (Z.of_nat n), after_packet w s l e' buffer len) /\
    slow_packet id iov iov_offset offset fin l w = Some (Some (Z.of_nat n), after_packet w s l e' buffer len).
Proof.
  intros Hc Ho Hoff n s. destruct (chunk_encrypted w e id iov iov_offset offset fin Hc Ho Hoff) as (bs & Hbs & Hhl & (w1 & HA & Hw1 & HF) & HB & len & sent & e' & HE & Hlen & Hte).
  fold n in Hbs, HF, HB, HE. fold s in HF, HB, HE. destruct (chunk_arith w e id iov iov_offset offset fin Hc Hoff) as (Hn & _ & Hfit & Hmin & Hfin). fold n in Hmin, Hfin, Hfit.
  destruct (idle_ready_room w e (cs_ready _ _ _ _ Hc)) as [_ Hmax]. destruct (cs_idle _ _ _ _ Hc) as (Hq & Hpend & Hfull). pose proof (ConsumeData_idle w e id iov iov_offset offset fin Hc Hoff) as HCD. cbv zeta in HCD. fold n in HCD. fold s in HCD.
  exists e', sent, len. split; [done|]. split; [done|]. split.
  - unfold CreateAndSerializeStreamFrame. rewrite FillPacketHeader_next, HA. cbn [negb]. change (quic_version_ (with_connection_id _ _)) with (quic_version_ (framer w)).
    change (data_producer_ (with_connection_id _ _)) with (data_producer_ (framer w)). change (max_plaintext_size_ (filled (creator w))) with (max_plaintext_size_ (creator w)).
    rewrite Hw1, Hhl, Hmin, Hfin, Nat2Z.id.
    change (frame_buffer uninitialised (with_connection_id (framer w) _) iov iov_offset n) with (frame_buffer uninitialised (framer w) iov iov_offset n).
    change (MkStreamFrame id _ n _ offset) with s. rewrite HF. cbn [negb dw_length_ dw_buffer_].
    change (GetStartOfEncryptedData _) with (header_len (creator w)). rewrite <- Hhl.
    change (cp_encryption_level (packet_ (filled (creator w)))) with (cp_encryption_level (packet_ (creator w))).
    change (cp_packet_number (packet_ (filled (creator w)))) with (packet_number (next_header (creator w))). cbn [keys conn]. rewrite HE. cbn [mbind option_bind].
    rewrite (proj2 (Nat.eqb_neq len 0)) by lia. change (queued_frames_ (filled (creator w))) with (queued_frames_ (creator w)). rewrite Hq. by destruct l.
  - unfold slow_packet. rewrite HCD. cbn [mbind option_bind with_creator creator]. rewrite <- Hbs, <- Hhl in Hfit |- *. rewrite <- length_app in Hfit |- *. set (size := length (_ ++ bs)) in *. assert (0 < size)%nat as Hpos by (unfold size; rewrite length_app; lia).
    set (c2 := listened l (sf_data_length s) (holding (creator w) s size)). assert (queued_frames_ c2 = [StreamFrame s] /\ packet_size_ c2 = size /\
      pending_padding_bytes_ c2 = 0 /\ needs_full_padding_ c2 = false /\ next_header c2 = next_header (creator w) /\ packet_size_ (filled c2) = size /\ queued_frames_ (filled c2) = [StreamFrame s] /\
      cp_encryption_level (packet_ (filled c2)) = cp_encryption_level (packet_ (creator w)) /\ cp_packet_number (packet_ (filled c2)) = packet_number (next_header (creator w)))
      as (Hq2 & Hs2 & Hp2 & Hf2 & Hh2 & Hs3 & Hq3 & Hl3 & Hn3) by (unfold c2, listened; by destruct l).
    unfold Flush, HasPendingFrames. cbn [with_creator creator]. fold c2. rewrite Hq2. cbn [negb andb]. unfold SerializePacket. cbn [with_creator creator]. rewrite FillPacketHeader_next, Hh2.
    rewrite (MaybeAddPadding_idle _ (StreamFrame s) []) by done. cbn [mbind option_bind with_creator creator framer keys conn]. rewrite Hun, Hs3, Hq3.
    rewrite (proj2 (Nat.ltb_ge _ _)) by lia. rewrite HB, (proj2 (Nat.eqb_neq size 0)) by lia. rewrite Hl3, Hn3. change (GetStartOfEncryptedData _) with (header_len (creator w)). rewrite <- Hhl, HE. cbn [mbind option_bind].
    rewrite (proj2 (Nat.eqb_neq len 0)) by lia. cbn [mbind option_bind]. unfold after_packet. do 3 f_equal. unfold c2, listened. by destruct l.
Qed.

(** The creator afterwards. *)
Definition cleared (c : QuicPacketCreator) : QuicPacketCreator :=
  let p := packet_ c in
  pc_set_packet (pc_set_padding (pc_set_queue c [] 0) (pending_padding_bytes_ c) false)
    (MkCreated None 0 [] false 0 (cp_packet_number p +64 1) (cp_packet_number_length p) (cp_encryption_level p) false false NOT_RETRANSMISSION 0 0 []).

Lemma after_packet_parts `{!TakesFrames V} (w : World) s l e' buffer len : let w' := after_packet w s l e' buffer len in
  creator w' = cleared (creator w) /\ framer w' = with_connection_id (framer w) (connection_id_ (creator w)) /\ keys w' = SetEncrypter (keys w) (cp_encryption_level (packet_ (creator w))) e' /\
  conn w' = snd (OnSerializedPacket (sent_packet (packet_ (creator w)) s l buffer (wrapU 16 (Z.of_nat len))) (conn w)).
Proof.
  unfold after_packet, creator_OnSerializedPacket. cbn [creator sent_creator pc_set_packet packet_ sent_packet cp_encrypted_buffer conn]. fold (sent_packet (packet_ (creator w)) s l buffer (wrapU 16 (Z.of_nat len))).
  set (p := sent_packet _ _ _ _ _). pose proof (takes_frames p (conn w)) as Ht. destruct (OnSerializedPacket p (conn w)) as [p' v']. cbn [fst] in Ht. subst p'.
  by destruct clear_packet_before_handed_over.
Qed.

Lemma GetMaxPlaintextSize_same (k : @FramerKeys E D) level e e' n : encrypter_ k level = Some e -> tag e' = tag e -> (tag e <= n)%nat -> Z.of_nat n < 2 ^ 64 ->
  GetMaxPlaintextSize (SetEncrypter k level e') (Z.of_nat n) = GetMaxPlaintextSize k (Z.of_nat n).
Proof.
  intros He Ht Hn Hb. assert (enc_GetMaxPlaintextSize (Z.of_nat n) e' = enc_GetMaxPlaintextSize (Z.of_nat n) e) as Hs.
  { pose proof (tag_max n e Hn Hb) as ->. rewrite <- Ht in Hn. pose proof (tag_max n e' Hn Hb) as ->. by rewrite Ht. }
  unfold GetMaxPlaintextSize, SetEncrypter. cbn [fold_left encrypter_].
  destruct level; repeat first [rewrite decide_True by done | rewrite decide_False by done]; by rewrite He, Hs.
Qed.

Lemma can_send_after `{!TakesFrames V} (w : World) e id iov s l e' buffer len : can_send w e id iov -> tag e' = tag e -> cp_packet_number (packet_ (creator w)) < 2 ^ 64 - 2 ->
  can_send (after_packet w s l e' buffer len) e' id iov.
Proof.
  intros Hc Ht Hn. destruct (after_packet_parts w s l e' buffer len) as (Ec & Ef & Ek & _). pose proof (cs_ready _ _ _ _ Hc) as Hr. destruct (rd_limit _ _ _ Hr) as [Hl1 Hl2]. unfold kMaxPacketSize in Hl2.
  pose proof (rd_number _ _ _ Hr) as Hnr. destruct (cs_idle _ _ _ _ Hc) as (_ & Hp & _).
  split; [split| | | | | | | |]; rewrite ?Ec, ?Ef, ?Ek.
  - split; [done|done|]. apply (hold_fits _ _ _ (rd_holds _ _ _ Hr)).
  - constructor.
  - apply Hr.
  - apply Hr.
  - exact (rd_header _ _ _ Hr).
  - cbn [cleared pc_set_packet packet_ cp_packet_number]. rewrite u64_id by (unfold is_u64; lia). lia.
  - rewrite Ht. apply Hr.
  - etransitivity; [apply (rd_plaintext _ _ _ Hr)|]. f_equal. symmetry. apply (GetMaxPlaintextSize_same _ _ e); [apply Hr|done|exact Hl1|change (Z.of_nat (max_packet_length_ (creator w)) < 2 ^ 64); lia].
  - unfold SetEncrypter. cbn [encrypter_]. by rewrite decide_True.
  - unfold idle. done.
  - exact (cs_producer _ _ _ _ Hc).
  - exact (cs_room _ _ _ _ Hc).
  - apply Hc.
  - done.
  - exact (cs_level _ _ _ _ Hc).
  - apply Hc.
  - exact (cs_data _ _ _ _ Hc).
Qed.
End Packet.

(** ** The loops *)

Section Loops.
Context `{host : HostOrder} (Hle : HostIsLittleEndian = true).
Context {E D : Type} `{QuicEncrypter E} `{QuicDecrypter D} {tag : E -> nat} {aead_tag : AeadTag E tag}.
Context {V : Type} `{QuicFramerVisitorInterface V} `{DelegateInterface V} `{!TakesFrames V} `{GeneratorDelegate V}.
Context (remove_v33_hacks2 enforce_single_packet_chlo clear_packet_before_handed_over : bool) (uninitialised : nat -> list Z) (Hun : forall n, length (uninitialised n) = n).
Context (RandUint64 : nat -> Z).
#[local] Abbreviation Generator := (@Generator E D V).

(** The frame for [n] bytes of the data; a producer keeps the bytes itself. *)
Definition next_frame (f : QuicFramer) (id : Z) (iov : QuicIOVector) (offset : Z) (fin : bool) (total n : nat) : QuicStreamFrame :=
  MkStreamFrame id (fin && (Z.of_nat (total + n) =? total_length iov)) n
    (match data_producer_ f with None => take n (drop total (concat (QuicStream.iov iov))) | Some _ => [] end) (offset +64 Z.of_nat total).

(** What the delegate sees of stream data, from [total] bytes and the last packet number
    [number] on: as long as bytes are left and it agrees, it is given packets with the next
    number, each with one frame for the next bytes. *)
Inductive cut (f : QuicFramer) (id : Z) (iov : QuicIOVector) (offset : Z) (fin : bool) : nat -> Z -> V -> nat -> Z -> V -> Prop :=
  | cut_done total number v : Z.of_nat total = total_length iov -> cut f id iov offset fin total number v total number v
  | cut_refused total number v v' : Z.of_nat total < total_length iov -> ShouldGeneratePacket HAS_RETRANSMITTABLE_DATA false v = (false, v') ->
      cut f id iov offset fin total number v total number v'
  | cut_packet total number v v1 n p total' number' v' : Z.of_nat total < total_length iov -> ShouldGeneratePacket HAS_RETRANSMITTABLE_DATA false v = (true, v1) ->
      (0 < n)%nat -> Z.of_nat (total + n) <= total_length iov ->
      cp_retransmittable_frames p = [StreamFrame (next_frame f id iov offset fin total n)] -> cp_packet_number p = number + 1 ->
      cut f id iov offset fin (total + n) (number + 1) (snd (OnSerializedPacket p v1)) total' number' v' ->
      cut f id iov offset fin total number v total' number' v'.

Lemma can_send_conn (w : @World E D V) e id iov v : can_send (tag := tag) w e id iov -> can_send (tag := tag) (with_conn w v) e id iov.
Proof. intros [[? ? ? ? ? ? ? ? ?] ? ? ? ? ? ? ? ?]. by split; [split|..]. Qed.

(** One round of either loop. *)
Lemma packet_round (w : @World E D V) e id iov total offset fin l : can_send (tag := tag) w e id iov -> Z.of_nat total < total_length iov ->
  cp_packet_number (packet_ (creator w)) < 2 ^ 64 - 2 ->
  exists n w1 w' e' p, (0 < n)%nat /\ Z.of_nat (total + n) <= total_length iov /\
    CreateAndSerializeStreamFrame remove_v33_hacks2 clear_packet_before_handed_over uninitialised id iov total (offset +64 Z.of_nat total) fin l w = Some (Some (Z.of_nat n), w') /\
    ConsumeData remove_v33_hacks2 enforce_single_packet_chlo clear_packet_before_handed_over uninitialised id iov total (offset +64 Z.of_nat total) fin false w =
      Some (Some (chunk uninitialised (framer w) id iov total (offset +64 Z.of_nat total) fin n), w1) /\
    Flush remove_v33_hacks2 clear_packet_before_handed_over uninitialised (with_creator w1 (listened l n (creator w1))) = Some w' /\
    with_creator w1 (creator w1) = w1 /\
    can_send (tag := tag) w' e' id iov /\ cp_packet_number (packet_ (creator w')) = cp_packet_number (packet_ (creator w)) + 1 /\ data_producer_ (framer w') = data_producer_ (framer w) /\
    conn w' = snd (OnSerializedPacket p (conn w)) /\ cp_packet_number p = cp_packet_number (packet_ (creator w)) + 1 /\
    cp_retransmittable_frames p = [StreamFrame (chunk uninitialised (framer w) id iov total (offset +64 Z.of_nat total) fin n)].
Proof.
  intros Hc Ho Hnum. set (offset' := offset +64 Z.of_nat total). assert (is_u64 offset') as Hu by apply u64_range.
  destruct (chunk_arith w e id iov total offset' fin Hc Ho) as (Hn & Hn2 & _). set (n := chunk_length _ _ _ _ _ _) in *.
  destruct (both_packets Hle remove_v33_hacks2 enforce_single_packet_chlo clear_packet_before_handed_over uninitialised Hun w e id iov total offset' fin l Hc Hu Ho) as (e' & buffer & len & _ & Ht & HF & HS).
  fold n in HF, HS. set (s := chunk uninitialised (framer w) id iov total offset' fin n) in *.
  pose proof (ConsumeData_idle remove_v33_hacks2 enforce_single_packet_chlo clear_packet_before_handed_over uninitialised w e id iov total offset' fin Hc Ho) as HCD. cbv zeta in HCD. fold n in HCD. fold s in HCD.
  unfold slow_packet in HS. rewrite HCD in HS. cbn [mbind option_bind] in HS. set (w1 := with_creator w _) in *.
  destruct (Flush _ _ _ _) as [w2|] eqn:HFl in HS; [|done]. injection HS as HS. subst w2.
  destruct (after_packet_parts clear_packet_before_handed_over w s l e' buffer len) as (Ec & Ef & _ & Ev).
  pose proof (rd_number _ _ _ (cs_ready _ _ _ _ Hc)) as Hnr.
  eexists n, w1, _, e', _. split_and!; [done|done|exact HF|exact HCD|exact HFl|done|by apply (can_send_after _ w e)|..|exact Ev| |].
  - rewrite Ec. cbn [cleared pc_set_packet packet_ cp_packet_number]. apply u64_id. unfold is_u64. lia.
  - by rewrite Ef.
  - cbn [sent_packet cp_packet_number]. apply u64_id. unfold is_u64. lia.
  - cbn [sent_packet cp_retransmittable_frames]. by rewrite (cs_fresh _ _ _ _ Hc).
Qed.

Lemma chunk_next f f' id iov offset fin total n : data_producer_ f' = data_producer_ f -> Z.of_nat (total + n) <= total_length iov ->
  (data_producer_ f' = None -> total_length iov = Z.of_nat (length (concat (QuicStream.iov iov)))) ->
  chunk uninitialised f' id iov total (offset +64 Z.of_nat total) fin n = next_frame f id iov offset fin total n.
Proof.
  intros Hd Hn Ht. unfold chunk, next_frame, frame_buffer. rewrite <- Hd. destruct (data_producer_ f'); [done|]. specialize (Ht eq_refl).
  rewrite CopyToBuffer_spec, (drop_ge (uninitialised n)), app_nil_r; [done|]. rewrite Hun, length_take, length_drop. lia.
Qed.

Lemma gen_Flush_idle (g : Generator) : idle (creator (world g)) -> gen_Flush remove_v33_hacks2 clear_packet_before_handed_over uninitialised g = Some g.
Proof. intros (Hq & Hp & _). unfold gen_Flush, Flush, HasPendingFrames. rewrite Hq, Hp. by destruct g. Qed.

#[local] Abbreviation fast_loop := (ConsumeDataFastPath remove_v33_hacks2 clear_packet_before_handed_over uninitialised).
#[local] Abbreviation slow_loop := (consume_loop remove_v33_hacks2 enforce_single_packet_chlo clear_packet_before_handed_over uninitialised RandUint64).

(** The delegate refuses. *)
Lemma refused_round f id iov offset state l total (g : Generator) v1 : id <> kCryptoStreamId -> Z.of_nat total < total_length iov ->
  ShouldGeneratePacket HAS_RETRANSMITTABLE_DATA false (conn (world g)) = (false, v1) -> let fin := negb (bool_decide (state = NO_FIN)) in
  let g' := with_world g (with_conn (world g) v1) in
  (forall fuel, fast_loop (S fuel) id iov offset fin total l g = Some (MkConsumed total false, g')) /\
  (forall fuel flag, slow_loop (S fuel) flag id iov offset state l false total false g = Some (MkConsumed total false, g')) /\
  cut f id iov offset fin total (cp_packet_number (packet_ (creator (world g)))) (conn (world g)) total (cp_packet_number (packet_ (creator (world g')))) (conn (world g')).
Proof.
  intros Hid Ho Hask fin g'. split_and!.
  - intros fuel. cbn [ConsumeDataFastPath]. rewrite (proj2 (Z.ltb_lt _ _) Ho). unfold ask. rewrite Hask. by rewrite (proj2 (Z.eqb_neq _ _)), andb_false_r by lia.
  - intros fuel flag. cbn [consume_loop]. rewrite (proj2 (Z.eqb_neq id _) Hid). unfold ask. by rewrite Hask.
  - by apply cut_refused.
Qed.

(** The delegate agrees. *)
Lemma agreed_round f id iov offset state l total (g : Generator) e v1 : state <> FIN_AND_PADDING -> can_send (tag := tag) (world g) e id iov -> batch_mode_ g = false ->
  data_producer_ (framer (world g)) = data_producer_ f -> Z.of_nat total < total_length iov -> cp_packet_number (packet_ (creator (world g))) < 2 ^ 64 - 2 ->
  ShouldGeneratePacket HAS_RETRANSMITTABLE_DATA false (conn (world g)) = (true, v1) -> let fin := negb (bool_decide (state = NO_FIN)) in
  exists n g' e', (0 < n)%nat /\ Z.of_nat (total + n) <= total_length iov /\ can_send (tag := tag) (world g') e' id iov /\ batch_mode_ g' = false /\
    data_producer_ (framer (world g')) = data_producer_ f /\ cp_packet_number (packet_ (creator (world g'))) = cp_packet_number (packet_ (creator (world g))) + 1 /\
    (forall fuel, fast_loop (S fuel) id iov offset fin total l g = fast_loop fuel id iov offset fin (total + n) l g') /\
    (forall fuel flag, slow_loop (S fuel) flag id iov offset state l false total false g =
      let fin_so_far := fin && (Z.of_nat (total + n) =? total_length iov) in
      if Z.of_nat (total + n) =? total_length iov then Some (MkConsumed (total + n) fin_so_far, g')
      else slow_loop fuel flag id iov offset state l (run_fast_path flag id iov state (total + n) g') (total + n) fin_so_far g') /\
    (forall r num v, cut f id iov offset fin (total + n) (cp_packet_number (packet_ (creator (world g')))) (conn (world g')) r num v ->
      cut f id iov offset fin total (cp_packet_number (packet_ (creator (world g)))) (conn (world g)) r num v).
Proof.
  intros Hst Hc Hb Hdp Ho Hnum Hask fin. destruct (cs_stream _ _ _ _ Hc) as [Hid _]. set (g1 := with_world g (with_conn (world g) v1)).
  pose proof (can_send_conn (world g) e id iov v1 Hc) as Hc1.
  destruct (packet_round (world g1) e id iov total offset fin l Hc1 Ho Hnum) as (n & w1 & w' & e' & p & Hn & Hn2 & HF & HCD & HFl & Heta & Hc' & Hnum' & Hdp' & Hv' & Hpn & Hpf).
  cbn [g1 with_world world with_conn creator framer conn] in Hnum', Hdp', Hv', Hpn, Hpf. exists n, (with_world g1 w'), e'. cbn [with_world world]. split_and!; try done; [congruence|..].
  - intros fuel. cbn [ConsumeDataFastPath]. rewrite (proj2 (Z.ltb_lt _ _) Ho). unfold ask. rewrite Hask. fold g1. rewrite HF. cbn [mbind option_bind].
    change (default 0 (Some (Z.of_nat n))) with (Z.of_nat n). by rewrite Nat2Z.id.
  - intros fuel flag. cbn [consume_loop]. rewrite (proj2 (Z.eqb_neq id _) Hid). unfold ask. rewrite Hask. cbn [negb]. fold fin. fold g1. rewrite HCD. cbn [mbind option_bind chunk sf_data_length].
    rewrite (bool_decide_eq_false_2 _ Hst), andb_false_r. set (g3 := match l with Some _ => _ | None => _ end).
    assert (InBatchMode g3 = false /\ gen_Flush remove_v33_hacks2 clear_packet_before_handed_over uninitialised g3 = Some (with_world g1 w')) as [-> Hg3].
    { unfold g3. split; [by destruct l|]. unfold gen_Flush. replace (world _) with (with_creator w1 (listened l n (creator w1))); [|by destruct l]. rewrite HFl. cbn [mbind option_bind]. by destruct l. }
    cbn [negb]. rewrite Hg3. cbn [mbind option_bind]. destruct (Z.of_nat (total + n) =? total_length iov); [done|].
    rewrite gen_Flush_idle by apply Hc'. done.
  - intros r num v Hcut. rewrite Hnum', Hv' in Hcut. eapply cut_packet; [done|exact Hask|exact Hn|done| |exact Hpn|exact Hcut]. rewrite Hpf. by rewrite (chunk_next f) by (done || apply Hc).
Qed.

Lemma loops_agree f id iov offset state l : state <> FIN_AND_PADDING -> let fin := negb (bool_decide (state = NO_FIN)) in
  forall m total (g : Generator) e, (Z.to_nat (total_length iov) - total <= m)%nat -> can_send (tag := tag) (world g) e id iov -> data_producer_ (framer (world g)) = data_producer_ f ->
    batch_mode_ g = false -> Z.of_nat total < total_length iov -> cp_packet_number (packet_ (creator (world g))) + Z.of_nat m < 2 ^ 64 - 1 ->
  exists r g', (forall fuel, (m < fuel)%nat -> fast_loop fuel id iov offset fin total l g = Some (r, g')) /\
    (forall fuel flag, (m + 1 < fuel)%nat -> slow_loop fuel flag id iov offset state l false total false g = Some (r, g')) /\
    fin_consumed r = fin && (Z.of_nat (bytes_consumed r) =? total_length iov) /\
    cut f id iov offset fin total (cp_packet_number (packet_ (creator (world g)))) (conn (world g)) (bytes_consumed r) (cp_packet_number (packet_ (creator (world g')))) (conn (world g')).
Proof.
  intros Hst fin m. induction m as [|m IH]; intros total g e Hm Hc Hdp Hb Ho Hnum; [lia|].
  destruct (ShouldGeneratePacket HAS_RETRANSMITTABLE_DATA false (conn (world g))) as [[|] v1] eqn:Hask.
  2:{ destruct (refused_round f id iov offset state l total g v1 (proj1 (cs_stream _ _ _ _ Hc)) Ho Hask) as (Hf & Hs & Hcut). fold fin in Hf, Hcut.
      exists (MkConsumed total false), (with_world g (with_conn (world g) v1)). split_and!; [..|exact Hcut].
      - intros [|fuel] Hfuel; [lia|]. apply Hf.
      - intros [|fuel] flag Hfuel; [lia|]. apply Hs.
      - cbn [fin_consumed bytes_consumed]. by rewrite (proj2 (Z.eqb_neq _ _)), andb_false_r by lia. }
  destruct (agreed_round f id iov offset state l total g e v1 Hst Hc Hb Hdp Ho ltac:(lia) Hask) as (n & g2 & e' & Hn & Hn2 & Hc' & Hb' & Hdp' & Hnum' & Hfast & Hslow & Hcut). fold fin in Hfast, Hslow, Hcut.
  destruct (Z.eqb_spec (Z.of_nat (total + n)) (total_length iov)) as [Heq|Hne].
  - exists (MkConsumed (total + n) (fin && true)), g2. split_and!.
    + intros [|[|fuel]] Hf1; [lia|lia|]. rewrite Hfast. cbn [ConsumeDataFastPath]. rewrite (proj2 (Z.ltb_ge _ _)) by lia. by rewrite (proj2 (Z.eqb_eq _ _) Heq).
    + intros [|fuel] flag Hf1; [lia|]. by rewrite Hslow.
    + cbn [fin_consumed bytes_consumed]. by rewrite (proj2 (Z.eqb_eq _ _) Heq).
    + apply Hcut. by apply cut_done.
  - destruct (IH (total + n)%nat g2 e') as (r & g' & HIf & HIs & HIr & HIc); try done; [lia|lia|lia|].
    exists r, g'. split_and!; [|..|done|by apply Hcut].
    + intros [|fuel] Hf1; [lia|]. rewrite Hfast. apply HIf. lia.
    + intros [|fuel] flag Hf1; [lia|]. rewrite Hslow. cbv zeta. rewrite andb_false_r. destruct (run_fast_path _ _ _ _ _ _); [|apply HIs; lia].
      destruct fuel as [|fuel]; [lia|]. cbn [consume_loop]. fold fin. apply HIf. lia.
Qed.

Lemma can_send_size (w : @World E D V) e id iov n : can_send (tag := tag) w e id iov -> can_send (tag := tag) (with_creator w (pc_set_queue (creator w) [] n)) e id iov.
Proof.
  intros Hc. destruct (cs_idle _ _ _ _ Hc) as (_ & Hidle). destruct Hc as [[Hh ? ? ? ? ? ? ? ?] ? ? ? ? ? ? ? ?]. split; [split|..]; try done.
  split; [done|done|]. exact (hold_fits _ _ _ Hh).
Qed.

End Loops.

(** ** Examples *)

(** A delegate that always agrees. *)
#[export] Instance always_agrees : GeneratorDelegate (list QuicFrame * list Z) := {
  ShouldGeneratePacket _ _ v := (true, v);
  GetUpdatedAckFrame v := (PingFrame, v);
  PopulateStopWaitingFrame v := (1, v) }.
#[export] Instance frame_taker_takes : TakesFrames (list QuicFrame * list Z).
Proof. by split. Qed.

Definition secure_keys : @FramerKeys NullEncrypter NullDecrypter := SetEncrypter (null_keys IS_CLIENT) ENCRYPTION_FORWARD_SECURE IS_CLIENT.
Definition example_generator : @Generator NullEncrypter NullDecrypter (list QuicFrame * list Z) :=
  gen_set_encryption_level (QuicPacketGenerator_new 7 (example_framer 40 IS_CLIENT) secure_keys ([], []) false 0) ENCRYPTION_FORWARD_SECURE.
Definition example_iov : QuicIOVector := MkIov [replicate 2000 5; replicate 1000 6] 3000.

Lemma example_can_send : can_send (tag := fun _ => 12%nat) (world example_generator) IS_CLIENT 5 example_iov.
Proof.
  split; [split|..].
  - split; [done|done|apply Nat.leb_le; vm_compute; reflexivity].
  - constructor.
  - cbn. lia.
  - unfold supported. cbn. tauto.
  - unfold header_ok, fits. cbn. split_and!; (tauto || lia || reflexivity).
  - cbn. lia.
  - split; apply Nat.leb_le; vm_compute; reflexivity.
  - vm_compute. reflexivity.
  - reflexivity.
  - done.
  - done.
  - apply Nat.ltb_lt. vm_compute. reflexivity.
  - split; [discriminate|]. unfold fits. lia.
  - done.
  - discriminate.
  - cbn. lia.
  - reflexivity.
Qed.

Definition example_consume (flag : bool) :=
  gen_ConsumeData (host := true) true true true (fun n => replicate n 0) (fun _ => 0) 3010 5 example_iov 0 FIN (Some 1) flag example_generator.


(** They take three packets. *)
Definition frame_shape (fr : QuicFrame) : nat * Z * bool := match fr with StreamFrame s => (sf_data_length s, sf_offset s, sf_fin s) | _ => (0%nat, 0, false) end.
Lemma example_packets : option_map (fun '(r, g) => (bytes_consumed r, fin_consumed r, map frame_shape (fst (conn (world g))))) (example_consume true) =
  Some (3000%nat, true, [(1322%nat, 0, false); (1320%nat, 1322, false); (358%nat, 2642, true)]).
Proof. vm_compute. reflexivity. Qed.
